(* ===== verification/_CoqProject ===== *)
-Q . S2P
Prelude.v
Types.v
Price.v
OrderBook.v
Events.v
Json.v
MarketParser.v
MessageRoundtrip.v
SpscQueue.v
Ring.v
MarketPair.v
TokenInventory.v
StrategyBookStore.v
MarketStateStore.v
BookReplication.v
MarketFeed.v
Sinks.v
PnlTracker.v
ExecStateStore.v
WorkingOrderTracker.v
RiskGate.v
RateLimiter.v
Crypto.v
OrderBuilder.v
JsonText.v
Metrics.v
ChainEncoders.v
Auth.v
Gateway.v
Transport.v
RestClient.v
Http2Client.v
Slots.v
UiCommands.v
Discovery.v
FeedParsers.v
FeedClients.v
WsClients.v
Watcher.v
UiMirror.v
UiSnapshot.v
Scheduler.v
SchedulerLoop.v
UiSerializer.v
IpcBridge.v
Strategies.v
Rotation.v
InventoryService.v
WatcherService.v
Config.v
Account.v
