(* ===== verification/Prelude.v ===== *)
(** * A verification of the live-trading engine

    The program trades the rolling five- and fifteen-minute binary markets of a
    prediction-market exchange.  A market has two tokens (UP and DOWN) priced on
    a grid of 1/10000; one of each is worth one dollar.  Threads exchange values
    through bounded single-producer single-consumer queues:

    - the network thread parses market messages into events and applies them to
      the authoritative order books (MarketStateStore); it sends book deltas and
      notifications to the strategy thread;
    - the user-stream thread reconciles order and trade reports
      (ExecStateStore), keeps positions and cash (TokenInventory) and realised
      profit (PnlTracker), and sends them on as scheduler events;
    - the slot manager follows the clock, looks the next markets up and tells
      the strategy thread which tokens are current (Slots);
    - the strategy thread (Scheduler) maintains shadow books from the deltas
      (StrategyBookStore), calls the strategy, passes its intents through the
      risk gate (RiskGate) and the mode filter (Sinks), tracks the orders sent
      (WorkingOrderTracker) and keeps the account view for the user interface
      (UiMirror);
    - the execution gateway takes the intents from its queue, builds and signs the
      orders and talks to the exchange under a rate limiter and a heartbeat
      (OrderBuilder, Crypto, Gateway, RateLimiter), through a client for HTTP/1.1 or
      HTTP/2 (Transport, RestClient, Http2Client);
    - the streams of the exchange, of Binance and of the price feed are read by clients
      that reconnect, rotate and watch for silence (WsClients, FeedClients,
      FeedParsers);
    - the inventory thread splits, merges and redeems positions on the chain, through
      a relayer or a node (InventoryService, ChainEncoders, Auth);
    - the rotation coordinator pauses the strategy thread and moves all streams to the
      next market (Rotation, Discovery);
    - the bridge thread serves one client of the user interface: it sends snapshots,
      reads commands and watches further markets (IpcBridge, Watcher, WatcherService,
      UiSerializer, UiCommands);
    - configuration and account are read at start-up, balances and positions are
      polled (Config, Account).

    ** Files and sources

    Paths are relative to the repository.  Definitions have the names of the
    source; data members keep their trailing underscore, and a field whose name
    would be ambiguous carries a short prefix.

    - Prelude: tactics, hints and lemmas on integers, lists and options;
    - Types: src/common/types.h, error.h;
    - Price: src/common/price.cpp;
    - OrderBook: src/book/;
    - Events: src/events/, src/exec/exec_intent.h, exec_feedback.h;
    - Json: documents as the third-party parser delivers them, and
      src/rest/rest_response_parser.cpp;
    - MarketParser: src/parser/; MessageRoundtrip: the messages the exchange
      documents, and that parsing gives back what they were printed from;
    - SpscQueue: src/queue/spsc_queue.h over the class RingQueue of the
      third-party ring;
    - Ring: the circular buffers of the profit tracker and the simulator;
    - MarketPair, TokenInventory, PnlTracker: the headers of src/common/;
    - StrategyBookStore, WorkingOrderTracker, RiskGate, Sinks: src/scheduler/;
    - MarketStateStore, ExecStateStore: src/state/;
    - BookReplication: the two book stores and the queue between them as a
      transition system;
    - MarketFeed: the de-duplication of src/ws/market_ws_client.cpp and the message
      handler of src/main.cpp, from the text on the wire to the shadow books;
    - WsClients: src/ws/ (the clients of the market and the user stream);
      FeedParsers, FeedClients: src/binance/, src/rtds/;
    - Transport, RestClient, Http2Client: src/rest/rest_transport.cpp, rest_client.cpp,
      http2_client.cpp, with the network library's operations as inputs and nghttp2 and
      zlib as classes;
    - RateLimiter: src/exec/rate_limiter.cpp, heartbeat_manager.cpp;
    - Crypto: src/crypto/, with hash and curve as parameters;
    - ChainEncoders: the encoders and transaction builders of src/inventory/; Auth:
      src/rest/rest_auth.cpp, src/inventory/relayer_auth.cpp, src/crypto/hmac_sha256.cpp;
      InventoryService: src/inventory/inventory_service.cpp with the two clients;
    - JsonText: a reference reader and printer of JSON text (RFC 8259), against which
      the texts the program prints are read back;
    - Metrics: src/logger/metrics.h, metrics.cpp;
    - OrderBuilder: src/exec/order_builder.cpp;
    - Gateway: src/exec/execution_gateway.cpp;
    - Slots: src/slot/, src/scheduler/trading_session.h;
    - Discovery: src/common/discovery.cpp; Rotation: src/rotation/;
    - Watcher, WatcherService, UiSerializer, UiCommands, IpcBridge: src/ui_bridge/;
    - Config: src/common/config.cpp; Account: src/common/account.cpp,
      balance_fetcher.cpp, position_bootstrap.cpp, src/ui_bridge/account_poll_service.cpp;
    - UiMirror, UiSnapshot, Scheduler, SchedulerLoop:
      src/scheduler/strategy_scheduler.cpp, with the stubs of that directory: the
      account view and its snapshot, the handlers of an event, the loop over the
      queues;
    - Strategies: src/scheduler/test_strategy.cpp, inventory_test_strategy.cpp and
      quoter_v2_strategy.h.

    ** How the code is modelled

    A class is a record of its members and a method a function that returns the
    new record with its result; pointers that may be null are options; an object
    shared by two components is a field of the one through which it is used.
    Hash maps keyed by identifiers are finite maps.  The clock, the random
    jitter, the network look-ups, the consumer's progress while a producer
    retries, the strategy and the queues' ring are arguments or classes.
    Interfaces with several implementations in the source are classes here
    (ExecSink, InventoryView, Strategy, InventoryOpSink), and their clients are
    proved against them.  Integers are in Z; overflow is explicit where the code
    can reach it (text parsing, atomic positions, 32-bit identifiers), and is
    assumed away for 64-bit sums of money and quantities.  Loops over arrays are
    recursions on lists.  Fuel: the matching loops of PnlTracker and the eviction loops
    of ExecStateStore have as much as there are entries (plus one for the matching
    loops), and every iteration removes an entry or is the last; the reader of JsonText
    has the length of its text; loops over the digits or bytes of a number have their
    number; the nested calls of the two HTTP clients have a weight
    that every call decreases ([call_pays], [call2_pays]).  The results are proved
    outright, not under the assumption that the fuel lasts.

    ** What is shown

    - Books: the incremental best bid and offer is the full rescan; batches with
      an invalid entry change nothing; along every interleaving of the two
      threads, with room in the queue and well-formed snapshots, the shadow book plus
      the queued messages is the authoritative book.
    - Orders and fills: matched sizes and statuses never go back; a fill is booked
      once in positions, inventory and profit; a reversal undoes it; realised profit balances against cash and book
      value; tables stay bounded.
    - Risk: for intents that name a registered token with its market, positions, market
      exposure and working notional stay within the limits, for the gate with the
      tracker alone (where the 64-bit arithmetic is shown not to overflow) and through
      the scheduler's whole pipeline; tracker accounting is exact.
    - Modes and sessions: in dry-run mode nothing but a cancel-all reaches the
      exchange; session and mode follow a five-event automaton whatever else
      happens; the emergency stop cancels every working order.
    - Markets: the slots' windows follow a steady clock; a rotation hands the token
      table over; whenever the coordinator touches the streams or the published market
      after start-up the strategy thread is paused, and a pause is granted to a frugal
      strategy within a bounded number of iterations.
    - Inventory: every exchange with the network carries exactly the requested
      operation and is signed for it, and positions move once, after its confirmation.
    - Transports: a request is answered once or held by both HTTP clients; responses
      match requests; none is stranded; the stream clients stay connected or reconnect
      and deliver what they read, filtered of duplicates.
    - User interface: the printed messages and commands read back; one asynchronous
      read and one asynchronous write are outstanding on a stream; a watched series
      follows its market, with one stream client that is told exactly what is wanted;
      the merged ladder is the sum of the two books.
    - Files: the configuration's keys are read into the fields of their names; an
      account that is written reads back.
    - The strategy thread: every pass of its loop ends, no queue starves, and the
      snapshot shows the newest orders; the shipped strategies send a bounded number
      of intents.
    - Gateway: what is signed determines the order, and is the order that was asked
      for; every intent has exactly one outcome, reservations never exceed the
      position, feedback is kept until it is delivered; at most the configured
      number of requests in any nine seconds; the back-off ladder; the heartbeat
      schedule.
    - Queues and text: first-in first-out delivery with exact counters; printing
      and parsing are inverse, for numbers and for whole messages, and what the
      parsers deliver fits its structures.
    - Behaviour that differs from what is intended is stated as theorems too: a
      rejected snapshot leaves the shadow book stale, a failed trade can be
      reversed twice or not at all, ten seconds can see almost twice the limit,
      the token table fills up after six rotations, the text of a small negative
      quantity parses as positive, a mode command or a new session can leave the
      tracker out of step with the exchange, a batch can oversell, the
      de-duplication can drop a fresh message, a strategy that answers every
      acknowledgement keeps the thread in the simulator, an early rotation skips a
      market, a stop executes queued operations without booking them, a series
      whose market closes before its first book stays with it, the messages of one
      client are written to the next, a pipelined response can be thrown away with the
      read buffer, a failed send answers a request twice, a stream is closed beside its
      outstanding operations, and a planned rotation of a feed can repeat for ever.

    ** What is not modelled

    The sockets and TLS below the clients, whose operations complete as inputs; the
    text-to-document step of the JSON library (an argument; JsonText gives a reference
    for it); the hash function, the curve, the keyed hash, zlib and nghttp2 (classes
    with what the code relies on); log texts, the journal and the recorder's files,
    which only write what the other parts do; the derivation of API keys; and the
    wiring of the threads in src/main.cpp, of which only the message handlers are
    modelled.  Where a claim needs a condition on the environment (room in a queue, a
    steady clock, a call of a library that does not fail) it is a hypothesis of the
    theorem, named in its comment. *)

From stdpp Require Export gmap strings list fin_maps.
From coqutil Require Export Datatypes.RecordSettersUsingExistingGetters.
From Stdlib Require Export ZArith Lia.

#[global] Set Default Goal Selector "!".
#[global] Open Scope Z_scope.

(** Assignments to a record field ([x <| f := v |>]) simplify away. *)
#[global] Arguments RecordSettersUsingExistingGetters.const {E} newValue _ /.

(** ** Hint databases and tactics *)

Create HintDb trading discriminated.
Create Rewrite HintDb trading.

(** [bool_to_prop] turns every boolean comparison of the context and goal
    into the proposition it decides. *)
Ltac bool_to_prop :=
  repeat match goal with
  | H : (_ <? _) = true |- _ => apply Z.ltb_lt in H
  | H : (_ <? _) = false |- _ => apply Z.ltb_ge in H
  | H : (_ <=? _) = true |- _ => apply Z.leb_le in H
  | H : (_ <=? _) = false |- _ => apply Z.leb_gt in H
  | H : (_ >? _) = true |- _ => rewrite Z.gtb_ltb in H
  | H : (_ >? _) = false |- _ => rewrite Z.gtb_ltb in H
  | H : (_ >=? _) = true |- _ => rewrite Z.geb_leb in H
  | H : (_ >=? _) = false |- _ => rewrite Z.geb_leb in H
  | H : (_ =? _) = true |- _ => apply Z.eqb_eq in H
  | H : (_ =? _) = false |- _ => apply Z.eqb_neq in H
  | H : _ && _ = true |- _ => apply andb_true_iff in H as [? ?]
  | H : _ || _ = false |- _ => apply orb_false_iff in H as [? ?]
  | H : negb _ = true |- _ => apply negb_true_iff in H
  | H : negb _ = false |- _ => apply negb_false_iff in H
  | H : bool_decide _ = true |- _ => apply bool_decide_eq_true_1 in H
  | H : bool_decide _ = false |- _ => apply bool_decide_eq_false_1 in H
  end.

(** [split_match] destructs the scrutinee of the outermost match (or if) of
    the goal, remembering the equation. *)
Ltac split_match :=
  match goal with
  | |- context [match ?x with _ => _ end] =>
      lazymatch x with context [match _ with _ => _ end] => fail | _ => idtac end;
      destruct x eqn:?
  end.

Ltac split_match_in H :=
  match type of H with
  | context [match ?x with _ => _ end] =>
      lazymatch x with context [match _ with _ => _ end] => fail | _ => idtac end;
      destruct x eqn:?
  end.

(** Case analysis over every branch of the goal, closing the easy ones. *)
Ltac branches := repeat (split_match; simplify_eq/=; try done).

(** ** C++ integers

    Values of type [int32_t], [int64_t], [uint8_t], ... are [Z]; [fits_*] says
    when a mathematical value is representable, [wrap_u*] is the conversion to
    an unsigned type.  Signed division truncates: [a / b] of the source is
    [Z.quot a b] and [a % b] is [Z.rem a b]. *)
Definition INT64_MAX : Z := 2 ^ 63 - 1.
Definition INT64_MIN : Z := - 2 ^ 63.
Definition INT32_MAX : Z := 2 ^ 31 - 1.
Definition INT32_MIN : Z := - 2 ^ 31.

Definition fits_i64 (z : Z) : bool := (INT64_MIN <=? z) && (z <=? INT64_MAX).
Definition fits_i32 (z : Z) : bool := (INT32_MIN <=? z) && (z <=? INT32_MAX).

Definition wrap_u8 (z : Z) : Z := z mod 2 ^ 8.
Definition wrap_u32 (z : Z) : Z := z mod 2 ^ 32.
Definition wrap_u64 (z : Z) : Z := z mod 2 ^ 64.
Definition wrap_i32 (z : Z) : Z := (z + 2 ^ 31) mod 2 ^ 32 - 2 ^ 31.

Lemma wrap_i32_small z : INT32_MIN <= z <= INT32_MAX -> wrap_i32 z = z.
Proof. unfold INT32_MIN, INT32_MAX, wrap_i32. intros. rewrite Z.mod_small; lia. Qed.

Infix "÷" := Z.quot (at level 40, left associativity) : Z_scope.

Lemma quot_nonneg_div a b : 0 <= a -> 0 < b -> a ÷ b = a / b.
Proof. intros. by apply Z.quot_div_nonneg. Qed.

Lemma quot_mul_le a b : 0 <= a -> 0 < b -> (a ÷ b) * b <= a.
Proof. intros. rewrite quot_nonneg_div by done. pose proof (Z.mul_div_le a b). lia. Qed.

Lemma quot_mul_gt a b : 0 <= a -> 0 < b -> a - b < (a ÷ b) * b.
Proof.
  intros. rewrite quot_nonneg_div by done.
  pose proof (Z.mod_pos_bound a b). pose proof (Z.div_mod a b). lia.
Qed.

(** Signed arithmetic that overflows is undefined behaviour: the checked
    operations return [None] there. *)
Definition chk_i64 (z : Z) : option Z := if fits_i64 z then Some z else None.
Definition chk_i32 (z : Z) : option Z := if fits_i32 z then Some z else None.

Lemma chk_i64_Some z w : chk_i64 z = Some w <-> INT64_MIN <= z <= INT64_MAX /\ w = z.
Proof.
  unfold chk_i64, fits_i64. destruct (_ && _) eqn:E; bool_to_prop.
  - split; [intros [= <-]; lia | intros [_ ->]; done].
  - split; [done|]. intros [? ->]. apply andb_false_iff in E as [E|E]; bool_to_prop; lia.
Qed.

(** ** Sums over lists *)
Definition sum_list_Z {A} (f : A -> Z) (l : list A) : Z :=
  foldr (fun x acc => f x + acc) 0 l.

Section sums.
Context {A : Type}.
Implicit Types (f g : A -> Z) (l : list A).

Lemma sum_list_Z_app f l1 l2 :
  sum_list_Z f (l1 ++ l2) = sum_list_Z f l1 + sum_list_Z f l2.
Proof. induction l1 as [|x l1 IH]; simpl; lia. Qed.

Lemma sum_list_Z_insert f l i x y :
  l !! i = Some x -> sum_list_Z f (<[i:=y]> l) = sum_list_Z f l - f x + f y.
Proof.
  revert i. induction l as [|z l IH]; intros [|i] Hi; simplify_eq/=; [lia|].
  rewrite (IH _ Hi). lia.
Qed.

Lemma sum_list_Z_ext f g l :
  (forall x, x ∈ l -> f x = g x) -> sum_list_Z f l = sum_list_Z g l.
Proof.
  induction l as [|x l IH]; intros H; simpl; [done|].
  rewrite H by left. rewrite IH; [done|]. intros y Hy. apply H. by right.
Qed.

Lemma sum_list_Z_minus f g l :
  sum_list_Z (fun x => f x - g x) l = sum_list_Z f l - sum_list_Z g l.
Proof. induction l as [|x l IH]; simpl; lia. Qed.

Lemma sum_list_Z_fmap {B} (h : B -> A) f (l : list B) :
  sum_list_Z f (h <$> l) = sum_list_Z (fun x => f (h x)) l.
Proof. induction l as [|x l IH]; [done|]. rewrite fmap_cons. simpl. by rewrite IH. Qed.

Lemma sum_list_Z_bounds f l lo hi :
  (forall x, x ∈ l -> lo <= f x <= hi) ->
  lo * Z.of_nat (length l) <= sum_list_Z f l <= hi * Z.of_nat (length l).
Proof.
  induction l as [|x l IH]; intros H; simpl; [lia|].
  assert (lo <= f x <= hi) by (apply H; left).
  assert (lo * Z.of_nat (length l) <= sum_list_Z f l <= hi * Z.of_nat (length l))
    by (apply IH; intros y Hy; apply H; by right).
  lia.
Qed.

Lemma sum_list_Z_nonneg f l :
  (forall x, x ∈ l -> 0 <= f x) -> 0 <= sum_list_Z f l.
Proof.
  induction l as [|x l IH]; intros H; simpl; [lia|].
  assert (0 <= f x) by (apply H; left).
  assert (0 <= sum_list_Z f l) by (apply IH; intros y Hy; apply H; by right). lia.
Qed.
End sums.

(** ** Arrays

    A C array of fixed size is a list of that length; the index is a [Z] known
    by the source to be in range. *)
Definition array_get {A} `{Inhabited A} (l : list A) (i : Z) : A := l !!! Z.to_nat i.
Definition array_set {A} (l : list A) (i : Z) (x : A) : list A := <[Z.to_nat i := x]> l.

Section arrays.
Context {A : Type} `{Inhabited A}.
Implicit Types (l : list A).

Lemma length_array_set l i x : length (array_set l i x) = length l.
Proof. apply length_insert. Qed.

Lemma array_get_set_eq l i x :
  0 <= i < Z.of_nat (length l) -> array_get (array_set l i x) i = x.
Proof. intros. unfold array_get, array_set. apply list_lookup_total_insert_eq. lia. Qed.

Lemma array_get_set_ne l i j x :
  0 <= i -> 0 <= j -> i <> j -> array_get (array_set l i x) j = array_get l j.
Proof. intros. unfold array_get, array_set. apply list_lookup_total_insert_ne. lia. Qed.

Lemma array_ext l1 l2 :
  length l1 = length l2 ->
  (forall i, 0 <= i < Z.of_nat (length l1) -> array_get l1 i = array_get l2 i) ->
  l1 = l2.
Proof.
  intros Hlen Hget. apply list_eq_same_length with (length l1); [done|done|].
  intros i x y Hi Hx Hy.
  specialize (Hget (Z.of_nat i)). unfold array_get in Hget.
  rewrite Nat2Z.id in Hget.
  rewrite (list_lookup_total_correct _ _ _ Hx), (list_lookup_total_correct _ _ _ Hy) in Hget.
  apply Hget. lia.
Qed.

Lemma array_get_replicate n (x : A) i :
  0 <= i < Z.of_nat n -> array_get (replicate n x) i = x.
Proof. intros. unfold array_get. apply lookup_total_replicate_2. lia. Qed.

Lemma array_lookup_get l i :
  0 <= i < Z.of_nat (length l) -> l !! Z.to_nat i = Some (array_get l i).
Proof. intros. apply list_lookup_lookup_total_lt. lia. Qed.
End arrays.

#[export] Hint Rewrite @length_array_set @length_replicate @length_insert : trading.
