(* ===== verification/Types.v ===== *)
(** Scalar types, identifiers, enumerations and error codes shared by every
    component: [src/common/types.h] and [src/common/error.h].

    An identifier ([AssetId], [OrderId], [TradeId]) is a bounded character
    array with a length byte; two are equal when the lengths and the bytes up
    to the length agree.  The model is the string of those bytes, so that the
    derived equality is the source's [operator==] and the hash maps keyed by
    identifiers are finite maps keyed by strings. *)
From S2P Require Import Prelude.

Abbreviation AssetId := string (only parsing).
Abbreviation OrderId := string (only parsing).
Abbreviation TradeId := string (only parsing).

Definition kMaxAssetIdLen : nat := 128.
Definition kMaxOrderIdLen : nat := 80.
Definition kMaxTradeIdLen : nat := 48.

(** The [explicit AssetId(std::string_view)] constructors: copy at most
    [kMax - 1] bytes. *)
Definition mk_AssetId (sv : string) : AssetId := String.substring 0 (kMaxAssetIdLen - 1) sv.
Definition mk_OrderId (sv : string) : OrderId := String.substring 0 (kMaxOrderIdLen - 1) sv.
Definition mk_TradeId (sv : string) : TradeId := String.substring 0 (kMaxTradeIdLen - 1) sv.

(** [id.len > 0] *)
Definition nonempty (id : string) : bool :=
  match id with EmptyString => false | _ => true end.

(** [a == b] on identifiers. *)
Definition id_eqb (a b : string) : bool := bool_decide (a = b).

Inductive Side := BID | ASK.
#[export] Instance Side_eq_dec : EqDecision Side.
Proof. solve_decision. Defined.
Definition side_eqb (a b : Side) : bool := bool_decide (a = b).

Inductive OrderType := GTC | GTD | FOK | FAK.
#[export] Instance OrderType_eq_dec : EqDecision OrderType.
Proof. solve_decision. Defined.

Definition kPriceMin : Z := 0.
Definition kPriceMax : Z := 10000.
Definition kLadderSize : nat := Z.to_nat 10001.
Definition kInvalidPrice : Z := -1.
Definition kPriceScale : Z := 10000.
Definition kQtyScale : Z := 1000000.
Definition kQtyScaleDigits : nat := 6.

Definition qty_from_int (shares : Z) : Z := shares * kQtyScale.

(** Scoped enumerations ([enum class]) are modules, so that a constructor is
    written as in the source, [ErrorCode.OK]. *)
Module ErrorCode.
Inductive ErrorCode :=
  | OK
  | EMPTY_INPUT | INVALID_FORMAT | OUT_OF_RANGE | NEGATIVE_VALUE
  | JSON_PARSE_ERROR | JSON_MISSING_FIELD | JSON_TYPE_ERROR
  | UNKNOWN_EVENT_TYPE | PONG_MESSAGE
  | BOOK_INVALID_PRICE | BOOK_NEGATIVE_QTY | BOOK_CROSSED
  | CONFIG_FILE_NOT_FOUND | CONFIG_PARSE_ERROR
  | USER_UNKNOWN_STATUS | USER_UNKNOWN_EVENT_TYPE | USER_WS_SERVER_ERROR
  | QTY_OVERFLOW
  | QUEUE_FULL
  | REST_CONNECTION_FAILED | REST_TIMEOUT | REST_AUTH_FAILED
  | EXEC_SIGNING_FAILED | EXEC_BUILD_FAILED
  | NETWORK_ERROR | TIMEOUT.
#[export] Instance ErrorCode_eq_dec : EqDecision ErrorCode.
Proof. solve_decision. Defined.
End ErrorCode.
Export (hints) ErrorCode.
Abbreviation ErrorCode := ErrorCode.ErrorCode.

(** [Expected<T>]: a value, or the error code of a failed computation. *)
Inductive Expected (A : Type) := Value (a : A) | Err (e : ErrorCode).
Arguments Value {A} a.
Arguments Err {A} e.

Lemma id_eqb_true a b : id_eqb a b = true <-> a = b.
Proof. apply bool_decide_eq_true. Qed.

Lemma id_eqb_false a b : id_eqb a b = false <-> a <> b.
Proof. apply bool_decide_eq_false. Qed.

Lemma id_eqb_refl a : id_eqb a a = true.
Proof. by apply id_eqb_true. Qed.

Lemma side_eqb_true a b : side_eqb a b = true <-> a = b.
Proof. apply bool_decide_eq_true. Qed.

Lemma nonempty_true id : nonempty id = true <-> id <> ""%string.
Proof. by destruct id. Qed.
