(* ===== verification/Price.v ===== *)
(** Fixed-point price and quantity text: [src/common/price.cpp].

    A [std::string_view] is the list of its characters.  [parse_price] and
    [parse_qty] return [None] where the source runs into signed overflow
    (undefined behaviour) and [Some] of an [Expected] otherwise.

    Shown: printing then parsing a price or a quantity gives it back
    ([price_text_roundtrip], [qty_text_roundtrip]); a parsed price is always on the
    ladder; on well-formed decimals the parsers compute the decimal value; and
    the two inputs classes on which they do not. *)
From Stdlib Require Import Ascii.
From S2P Require Import Prelude Types.

Abbreviation text := (list ascii) (only parsing).
Definition txt (s : string) : text := String.list_ascii_of_string s.

(** *** Characters and decimal digits *)
Definition digit_char (d : Z) : ascii := ascii_of_N (Z.to_N (48 + d)).
Definition char_code (c : ascii) : Z := Z.of_N (N_of_ascii c).
Definition digit_val (c : ascii) : option Z :=
  if (48 <=? char_code c) && (char_code c <=? 57) then Some (char_code c - 48) else None.

Fixpoint digits_value (acc : Z) (l : text) : option Z :=
  match l with
  | [] => Some acc
  | c :: l => d ← digit_val c; digits_value (acc * 10 + d) l
  end.

(** [std::from_chars] for [int64_t] that must consume the whole view: an
    optional minus sign, at least one digit, and a value in range. *)
Definition from_chars (l : text) : option Z :=
  let '(neg, ds) := match l with
                    | c :: r => if bool_decide (c = "-"%char) then (true, r) else (false, l)
                    | [] => (false, l)
                    end in
  match ds with
  | [] => None
  | _ => v ← digits_value 0 ds;
         let v := if (neg : bool) then - v else v in
         if fits_i64 v then Some v else None
  end.

(** [sv.find('.')] and the views before and after it. *)
Fixpoint find_dot (l : text) : option (text * text) :=
  match l with
  | [] => None
  | c :: r => if bool_decide (c = "."%char) then Some ([], r)
              else '(a, b) ← find_dot r; Some (c :: a, b)
  end.

(** The loops [for (i = 0; i < n; ++i) x *= 10], with the overflow check of
    the variable's type. *)
Fixpoint mul10_loop (chk : Z -> option Z) (n : nat) (x : Z) : option Z :=
  match n with
  | O => Some x
  | S n => y ← chk (x * 10); mul10_loop chk n y
  end.

(** *** parse_price *)
Definition parse_price_finish (negative : bool) (integer_part frac_part : Z)
    (frac_digits : nat) : option (Expected Z) :=
  price ← chk_i64 (integer_part * kPriceScale);
  price ← (if (0 <? frac_digits)%nat then
             if (frac_digits <=? 4)%nat then
               multiplier ← mul10_loop chk_i32 (4 - frac_digits) 1;
               s ← chk_i64 (frac_part * multiplier);
               chk_i64 (price + s)
             else
               divisor ← mul10_loop chk_i32 (frac_digits - 4) 1;
               chk_i64 (price + frac_part ÷ divisor)
           else Some price);
  let price := if negative then - price else price in
  if (price <? kPriceMin) || (price >? kPriceMax) then Some (Err ErrorCode.OUT_OF_RANGE)
  else Some (Value price).

Definition parse_price_body (negative : bool) (sv : text) : option (Expected Z) :=
  match find_dot sv with
  | None =>
      match from_chars sv with
      | None => Some (Err ErrorCode.INVALID_FORMAT)
      | Some integer_part => parse_price_finish negative integer_part 0 0
      end
  | Some (int_sv, frac_sv) =>
      match (match int_sv with [] => Some 0 | _ => from_chars int_sv end) with
      | None => Some (Err ErrorCode.INVALID_FORMAT)
      | Some integer_part =>
          match frac_sv with
          | [] => parse_price_finish negative integer_part 0 0
          | _ => match from_chars frac_sv with
                 | None => Some (Err ErrorCode.INVALID_FORMAT)
                 | Some frac_part =>
                     parse_price_finish negative integer_part frac_part (length frac_sv)
                 end
          end
      end
  end.

Definition parse_price (sv : text) : option (Expected Z) :=
  match sv with
  | [] => Some (Err ErrorCode.EMPTY_INPUT)
  | c :: r =>
      if bool_decide (c = "-"%char) then
        match r with
        | [] => Some (Err ErrorCode.INVALID_FORMAT)
        | _ => parse_price_body true r
        end
      else parse_price_body false sv
  end.

(** *** parse_qty *)
Definition parse_qty_frac (frac_sv : text) : option (Expected Z) :=
  match frac_sv with
  | [] => Some (Value 0)
  | _ =>
      let frac_digits := length frac_sv in
      match from_chars frac_sv with
      | None => Some (Err ErrorCode.INVALID_FORMAT)
      | Some frac_val =>
          if (frac_digits <=? kQtyScaleDigits)%nat then
            multiplier ← mul10_loop chk_i64 (kQtyScaleDigits - frac_digits) 1;
            v ← chk_i64 (frac_val * multiplier); Some (Value v)
          else
            divisor ← mul10_loop chk_i64 (frac_digits - kQtyScaleDigits) 1;
            Some (Value (frac_val ÷ divisor))
      end
  end.

Definition parse_qty_finish (integer_part frac_part : Z) : option (Expected Z) :=
  if integer_part <? 0 then Some (Err ErrorCode.NEGATIVE_VALUE)
  else if integer_part >? INT64_MAX ÷ kQtyScale then Some (Err ErrorCode.QTY_OVERFLOW)
  else v ← chk_i64 (integer_part * kQtyScale + frac_part); Some (Value v).

Definition parse_qty (sv : text) : option (Expected Z) :=
  match sv with
  | [] => Some (Err ErrorCode.EMPTY_INPUT)
  | _ =>
      let '(int_sv, frac) := match find_dot sv with
                             | Some (a, b) => (a, Some b)
                             | None => (sv, None)
                             end in
      match (match int_sv with [] => Some 0 | _ => from_chars int_sv end) with
      | None => Some (Err ErrorCode.INVALID_FORMAT)
      | Some integer_part =>
          match frac with
          | None => parse_qty_finish integer_part 0
          | Some frac_sv =>
              r ← parse_qty_frac frac_sv;
              match r with
              | Err e => Some (Err e)
              | Value frac_part => parse_qty_finish integer_part frac_part
              end
          end
      end
  end.

(** *** Printing *)

(** [std::to_string] of a non-negative integer; 20 digits are enough for every
    64-bit value. *)
Fixpoint dec_digits (fuel : nat) (n : Z) : text :=
  match fuel with
  | O => []
  | S fuel => (if n <? 10 then [] else dec_digits fuel (n / 10)) ++ [digit_char (n mod 10)]
  end.
Definition to_string (n : Z) : text := dec_digits 20 n.

(** The ["%0kd"] conversion of a value below [10^k]. *)
Fixpoint pad_digits (k : nat) (n : Z) : text :=
  match k with
  | O => []
  | S k => pad_digits k (n / 10) ++ [digit_char (n mod 10)]
  end.

(** [while (len > 0 && buf[len-1] == '0') --len;] *)
Fixpoint drop_zeros (l : text) : text :=
  match l with
  | c :: r => if bool_decide (c = "0"%char) then drop_zeros r else l
  | [] => []
  end.
Definition trim_trailing_zeros (buf : text) : text := reverse (drop_zeros (reverse buf)).

Definition format_fixed (scale : Z) (digits : nat) (v : Z) : text :=
  let integer := v ÷ scale in
  let frac := Z.rem v scale in
  if frac =? 0 then to_string integer
  else trim_trailing_zeros (to_string integer ++ "."%char :: pad_digits digits frac).

Definition format_qty (qty : Z) : text :=
  if qty <? 0 then "-"%char :: format_fixed kQtyScale kQtyScaleDigits (- qty)
  else format_fixed kQtyScale kQtyScaleDigits qty.

Definition format_price (price : Z) : text :=
  if price <? 0 then "-"%char :: format_fixed kPriceScale 4 (- price)
  else format_fixed kPriceScale 4 price.

Definition parse_side (sv : string) : Expected Side :=
  if existsb (id_eqb sv) ["BUY"; "BID"; "buy"; "bid"; "Buy"; "Bid"]%string then Value BID
  else if existsb (id_eqb sv) ["SELL"; "ASK"; "sell"; "ask"; "Sell"; "Ask"]%string then Value ASK
  else Err ErrorCode.INVALID_FORMAT.

Definition is_on_tick (price tick_size : Z) : bool :=
  if tick_size <=? 0 then false else Z.rem price tick_size =? 0.

(** ** Digits: printing and reading back *)
Lemma digit_cases (P : Z -> Prop) :
  P 0 -> P 1 -> P 2 -> P 3 -> P 4 -> P 5 -> P 6 -> P 7 -> P 8 -> P 9 ->
  forall d, 0 <= d < 10 -> P d.
Proof.
  intros. assert (d = 0 \/ d = 1 \/ d = 2 \/ d = 3 \/ d = 4 \/ d = 5 \/ d = 6
                  \/ d = 7 \/ d = 8 \/ d = 9) as Hd by lia.
  naive_solver.
Qed.

Definition is_digit (c : ascii) : Prop := exists d, 0 <= d < 10 /\ c = digit_char d.

Lemma digit_val_char d : 0 <= d < 10 -> digit_val (digit_char d) = Some d.
Proof. revert d. by apply digit_cases. Qed.

Lemma digit_not_special c : is_digit c -> c <> "-"%char /\ c <> "."%char.
Proof.
  intros (d & Hd & ->). revert d Hd.
  by apply (digit_cases (fun d => digit_char d <> "-"%char /\ digit_char d <> "."%char)).
Qed.

Lemma digit_zero d : 0 <= d < 10 -> (digit_char d = "0"%char <-> d = 0).
Proof.
  revert d. by apply (digit_cases (fun d => digit_char d = "0"%char <-> d = 0)).
Qed.

Lemma digits_value_app acc l1 l2 :
  digits_value acc (l1 ++ l2) = (v ← digits_value acc l1; digits_value v l2).
Proof.
  revert acc. induction l1 as [|c l1 IH]; intros acc; simpl; [done|].
  destruct (digit_val c); simpl; [apply IH|done].
Qed.

Lemma mod10_digit n : 0 <= n mod 10 < 10.
Proof. apply Z.mod_pos_bound. lia. Qed.

Lemma digits_value_snoc acc l v n :
  digits_value acc l = Some v ->
  digits_value acc (l ++ [digit_char (n mod 10)]) = Some (v * 10 + n mod 10).
Proof.
  intros H. rewrite digits_value_app, H. simpl.
  by rewrite digit_val_char by apply mod10_digit.
Qed.

Lemma pad_digits_value k n acc :
  0 <= n < 10 ^ Z.of_nat k ->
  digits_value acc (pad_digits k n) = Some (acc * 10 ^ Z.of_nat k + n).
Proof.
  revert n. induction k as [|k IH]; intros n Hn; cbn [pad_digits].
  { simpl. f_equal. change (10 ^ Z.of_nat 0) with 1 in *. lia. }
  rewrite Nat2Z.inj_succ, Z.pow_succ_r in * by lia.
  erewrite digits_value_snoc;
    [|apply IH; split; [apply Z.div_pos; lia|apply Z.div_lt_upper_bound; lia]].
  f_equal. pose proof (Z.div_mod n 10). lia.
Qed.

Lemma dec_digits_value f n :
  0 <= n < 10 ^ Z.of_nat f -> (0 < f)%nat -> digits_value 0 (dec_digits f n) = Some n.
Proof.
  revert n. induction f as [|f IH]; intros n Hn Hf; [lia|]. cbn [dec_digits].
  rewrite Nat2Z.inj_succ, Z.pow_succ_r in Hn by lia.
  destruct (Z.ltb_spec n 10) as [Hs|Hs].
  - rewrite (digits_value_snoc _ _ 0) by done. rewrite Z.mod_small by lia. done.
  - destruct f as [|f]; [change (10 ^ Z.of_nat 0) with 1 in *; lia|].
    erewrite digits_value_snoc;
      [|apply IH; [split; [apply Z.div_pos; lia|apply Z.div_lt_upper_bound; lia]|lia]].
    f_equal. pose proof (Z.div_mod n 10). lia.
Qed.

Lemma pad_digits_digits k n : Forall is_digit (pad_digits k n).
Proof.
  revert n. induction k as [|k IH]; intros n; simpl; [constructor|].
  apply Forall_app; split; [apply IH|].
  repeat constructor. eexists; split; [apply mod10_digit|done].
Qed.

Lemma dec_digits_digits f n : Forall is_digit (dec_digits f n).
Proof.
  revert n. induction f as [|f IH]; intros n; simpl; [constructor|].
  apply Forall_app; split; [case_match; [constructor|apply IH]|].
  repeat constructor. eexists; split; [apply mod10_digit|done].
Qed.

Lemma length_pad_digits k n : length (pad_digits k n) = k.
Proof.
  revert n. induction k as [|k IH]; intros n; simpl; [done|].
  rewrite length_app, IH. simpl. lia.
Qed.

(** Reading a non-empty run of digits. *)
Lemma from_chars_digits l v :
  l <> [] -> Forall is_digit l -> digits_value 0 l = Some v -> INT64_MIN <= v <= INT64_MAX ->
  from_chars l = Some v.
Proof.
  intros Hne Hd Hv Hr. unfold from_chars.
  destruct l as [|c l]; [done|]. inversion Hd as [|? ? Hc ?]; subst.
  apply digit_not_special in Hc as [Hc _].
  rewrite bool_decide_eq_false_2 by done. rewrite Hv. simpl.
  unfold fits_i64. rewrite (proj2 (Z.leb_le _ _)), (proj2 (Z.leb_le _ _)) by lia. done.
Qed.

Definition no_dot (l : text) : Prop := Forall (fun c => c <> "."%char) l.

Lemma digits_no_dot l : Forall is_digit l -> no_dot l.
Proof. intros H. eapply Forall_impl; [done|]. by intros c [_ ?]%digit_not_special. Qed.

Lemma find_dot_none l : no_dot l -> find_dot l = None.
Proof.
  induction 1 as [|c l Hc Hl IH]; simpl; [done|].
  by rewrite bool_decide_eq_false_2, IH by done.
Qed.

Lemma find_dot_app l r : no_dot l -> find_dot (l ++ "."%char :: r) = Some (l, r).
Proof.
  induction 1 as [|c l Hc Hl IH]; simpl; [done|].
  by rewrite bool_decide_eq_false_2, IH by done.
Qed.

(** Trimming the fraction drops only the low-order zeros. *)
Lemma trim_pad_digits k f pre :
  0 < f < 10 ^ Z.of_nat k ->
  exists m, (m < k)%nat /\ f = (f / 10 ^ Z.of_nat m) * 10 ^ Z.of_nat m /\
    trim_trailing_zeros (pre ++ pad_digits k f)
      = pre ++ pad_digits (k - m) (f / 10 ^ Z.of_nat m).
Proof.
  revert f. induction k as [|k IH]; intros f Hf.
  { change (10 ^ Z.of_nat 0) with 1 in Hf. lia. }
  rewrite Nat2Z.inj_succ, Z.pow_succ_r in Hf by lia.
  pose proof (Z.div_mod f 10 ltac:(lia)) as Hdm. pose proof (mod10_digit f) as Hm.
  unfold trim_trailing_zeros. cbn [pad_digits].
  rewrite app_assoc, reverse_app. cbn [reverse app].
  change (reverse [digit_char (f mod 10)]) with [digit_char (f mod 10)]. cbn [app drop_zeros].
  destruct (decide (f mod 10 = 0)) as [Hz|Hnz].
  - rewrite bool_decide_eq_true_2 by by apply digit_zero.
    destruct (IH (f / 10)) as (m & Hmk & Hfm & Htrim); [lia|].
    unfold trim_trailing_zeros in Htrim. rewrite Htrim. exists (S m).
    rewrite Nat2Z.inj_succ, Z.pow_succ_r by lia. rewrite <- Z.div_div by lia.
    split; [lia|]. split; [|by replace (S k - S m)%nat with (k - m)%nat by lia]. lia.
  - rewrite bool_decide_eq_false_2 by by rewrite digit_zero.
    exists 0%nat. change (10 ^ Z.of_nat 0) with 1. rewrite Z.div_1_r.
    split; [lia|]. split; [lia|].
    change (digit_char (f mod 10) :: reverse (pre ++ pad_digits k (f / 10)))
      with ([digit_char (f mod 10)] ++ reverse (pre ++ pad_digits k (f / 10))).
    rewrite reverse_app, reverse_involutive. rewrite Nat.sub_0_r. cbn [pad_digits].
    by rewrite app_assoc.
Qed.

(** The text of a fixed-point value: the integer part alone, or with a
    fraction of at most [k] digits that scales back to the remainder. *)
Lemma format_fixed_shape k v :
  0 <= v -> (0 < k)%nat ->
  let s := 10 ^ Z.of_nat k in
  (v = (v / s) * s /\ format_fixed s k v = to_string (v / s)) \/
  (exists m g, (m < k)%nat /\ 0 <= g < 10 ^ Z.of_nat (k - m) /\
     v = (v / s) * s + g * 10 ^ Z.of_nat m /\
     format_fixed s k v = to_string (v / s) ++ "."%char :: pad_digits (k - m) g).
Proof.
  intros Hv Hk s. assert (0 < s) by (unfold s; lia).
  unfold format_fixed. rewrite Z.quot_div_nonneg, Z.rem_mod_nonneg by lia.
  pose proof (Z.div_mod v s ltac:(lia)) as Hdm. pose proof (Z.mod_pos_bound v s ltac:(lia)).
  destruct (Z.eqb_spec (v mod s) 0) as [Hz|Hnz]; [left; split; [lia|done]|right].
  destruct (trim_pad_digits k (v mod s) (to_string (v / s) ++ ["."%char]))
    as (m & Hm & Hf & Htrim); [unfold s in *; lia|].
  rewrite <- !app_assoc in Htrim. simpl in Htrim.
  set (g := v mod s / 10 ^ Z.of_nat m) in *.
  exists m, g. split; [done|]. split.
  - split; [apply Z.div_pos; lia|]. apply Z.div_lt_upper_bound; [lia|].
    rewrite <- Z.pow_add_r by lia. replace (Z.of_nat m + Z.of_nat (k - m)) with (Z.of_nat k) by lia.
    unfold s in *; lia.
  - split; [|done]. rewrite <- Hf. lia.
Qed.

Lemma to_string_digits n : Forall is_digit (to_string n).
Proof. apply dec_digits_digits. Qed.

Lemma dec_digits_nonempty f n : dec_digits (S f) n <> [].
Proof. simpl. by destruct (if n <? 10 then _ else _). Qed.

Lemma to_string_nonempty n : to_string n <> [].
Proof. apply dec_digits_nonempty. Qed.

Lemma to_string_from_chars n : 0 <= n <= INT64_MAX -> from_chars (to_string n) = Some n.
Proof.
  intros Hn. apply from_chars_digits; [apply to_string_nonempty|apply to_string_digits| |].
  - apply dec_digits_value; [|lia]. unfold INT64_MAX in Hn. lia.
  - unfold INT64_MIN. lia.
Qed.

Lemma pad_digits_from_chars k g :
  (0 < k)%nat -> 0 <= g < 10 ^ Z.of_nat k -> (k <= 18)%nat -> from_chars (pad_digits k g) = Some g.
Proof.
  intros Hk Hg Hk18. apply from_chars_digits; [|apply pad_digits_digits| |].
  - intros E. apply (f_equal length) in E. rewrite length_pad_digits in E. simpl in E. lia.
  - by apply pad_digits_value.
  - assert (10 ^ Z.of_nat k <= 10 ^ 18) by (apply Z.pow_le_mono_r; lia).
    unfold INT64_MIN, INT64_MAX. lia.
Qed.

Lemma mul10_loop_i64 n x :
  0 < x -> x * 10 ^ Z.of_nat n <= INT64_MAX ->
  mul10_loop chk_i64 n x = Some (x * 10 ^ Z.of_nat n).
Proof.
  revert x. induction n as [|n IH]; intros x Hx Hle; simpl mul10_loop.
  { by rewrite Z.mul_1_r. }
  rewrite Nat2Z.inj_succ, Z.pow_succ_r in * by lia.
  assert (0 < 10 ^ Z.of_nat n) by lia.
  replace (chk_i64 (x * 10)) with (Some (x * 10)).
  2:{ symmetry. apply chk_i64_Some. unfold INT64_MIN. nia. }
  simpl. rewrite IH by nia. f_equal. lia.
Qed.

Lemma mul10_loop_i32 n : (n <= 9)%nat -> mul10_loop chk_i32 n 1 = Some (10 ^ Z.of_nat n).
Proof. intros. do 10 (destruct n as [|n]; [done|]). lia. Qed.

Lemma chk_i64_id z : INT64_MIN <= z <= INT64_MAX -> chk_i64 z = Some z.
Proof. intros. by apply chk_i64_Some. Qed.

(** The two parsers on the canonical texts. *)
Lemma parse_qty_frac_pad m g :
  (m < 6)%nat -> 0 <= g < 10 ^ Z.of_nat (6 - m) ->
  parse_qty_frac (pad_digits (6 - m) g) = Some (Value (g * 10 ^ Z.of_nat m)).
Proof.
  intros Hm Hg. unfold parse_qty_frac.
  destruct (pad_digits (6 - m) g) eqn:E.
  { apply (f_equal length) in E. rewrite length_pad_digits in E. simpl in E. lia. }
  rewrite <- E, pad_digits_from_chars, length_pad_digits by lia. clear E.
  unfold kQtyScaleDigits. rewrite (proj2 (Nat.leb_le _ _)) by lia.
  replace (6 - (6 - m))%nat with m by lia.
  assert (10 ^ Z.of_nat m <= 10 ^ 6) by (apply Z.pow_le_mono_r; lia).
  assert (10 ^ Z.of_nat (6 - m) <= 10 ^ 6) by (apply Z.pow_le_mono_r; lia).
  rewrite mul10_loop_i64, Z.mul_1_l by (unfold INT64_MAX; lia). simpl.
  by rewrite chk_i64_id by (unfold INT64_MIN, INT64_MAX; nia).
Qed.

Lemma parse_qty_finish_ok i f :
  0 <= i -> 0 <= f -> i * kQtyScale + f <= INT64_MAX ->
  parse_qty_finish i f = Some (Value (i * kQtyScale + f)).
Proof.
  intros Hi Hf Hle. unfold parse_qty_finish.
  rewrite (proj2 (Z.ltb_ge _ _)) by lia. rewrite Z.gtb_ltb, (proj2 (Z.ltb_ge _ _)).
  - by rewrite chk_i64_id by (unfold INT64_MIN, kQtyScale in *; lia).
  - rewrite Z.quot_div_nonneg by (unfold INT64_MAX, kQtyScale; lia).
    apply Z.div_le_lower_bound; unfold kQtyScale in *; lia.
Qed.

(** What the parsers do with an integer text [l], alone and with a fraction. *)
Lemma parse_qty_int l v : no_dot l -> from_chars l = Some v -> parse_qty l = parse_qty_finish v 0.
Proof.
  intros Hl Hv. unfold parse_qty. rewrite (find_dot_none l) by done.
  destruct l as [|c l]; [done|]. by rewrite Hv.
Qed.

Lemma parse_qty_dot l r v :
  no_dot l -> from_chars l = Some v ->
  parse_qty (l ++ "."%char :: r) =
    (x ← parse_qty_frac r;
     match x with Err e => Some (Err e) | Value f => parse_qty_finish v f end).
Proof.
  intros Hl Hv. unfold parse_qty. rewrite find_dot_app by done.
  destruct l as [|c l]; [done|]. simpl. by rewrite Hv.
Qed.

Lemma from_chars_neg l v :
  Forall is_digit l -> from_chars l = Some v -> 0 <= v -> from_chars ("-"%char :: l) = Some (- v).
Proof.
  intros Hd. unfold from_chars. destruct l as [|c l]; [done|].
  inversion Hd as [|? ? Hc ?]; subst. apply digit_not_special in Hc as [Hc _].
  rewrite (bool_decide_eq_false_2 (c = _)), bool_decide_eq_true_2 by done.
  destruct (digits_value 0 (c :: l)) as [w|]; [|done]. simpl.
  unfold fits_i64, INT64_MIN, INT64_MAX. intros Hw Hv. split_match_in Hw; [|done].
  injection Hw as ->. bool_to_prop.
  by rewrite (proj2 (Z.leb_le _ _)), (proj2 (Z.leb_le _ _)) by lia.
Qed.

(** The scaled decomposition of a quantity used by both round trips. *)
Lemma qty_int_range q :
  0 <= q <= INT64_MAX -> 0 <= q / 10 ^ Z.of_nat kQtyScaleDigits <= INT64_MAX.
Proof.
  change (10 ^ Z.of_nat kQtyScaleDigits) with 1000000. intros Hq.
  split; [apply Z.div_pos; lia|]. apply Z.div_le_upper_bound; lia.
Qed.

Lemma parse_qty_format pre v q :
  (pre = [] \/ pre = ["-"%char]) -> 0 <= q <= INT64_MAX ->
  v = (if decide (pre = []) then q / kQtyScale else - (q / kQtyScale)) ->
  exists f, q = (q / kQtyScale) * kQtyScale + f /\ 0 <= f < kQtyScale /\
    parse_qty (pre ++ format_fixed kQtyScale kQtyScaleDigits q) = parse_qty_finish v f.
Proof.
  intros Hpre Hq ->. pose proof (qty_int_range q Hq) as Hr.
  change kQtyScale with (10 ^ Z.of_nat kQtyScaleDigits).
  pose proof (Z.div_mod q (10 ^ Z.of_nat kQtyScaleDigits) ltac:(done)) as Hdm.
  pose proof (Z.mod_pos_bound q (10 ^ Z.of_nat kQtyScaleDigits) ltac:(done)) as Hmod.
  assert (no_dot (pre ++ to_string (q / 10 ^ Z.of_nat kQtyScaleDigits)) /\
    from_chars (pre ++ to_string (q / 10 ^ Z.of_nat kQtyScaleDigits)) =
    Some (if decide (pre = []) then q / 10 ^ Z.of_nat kQtyScaleDigits
          else - (q / 10 ^ Z.of_nat kQtyScaleDigits))) as [Hnd Hfc].
  { pose proof (to_string_digits (q / 10 ^ Z.of_nat kQtyScaleDigits)) as Hd.
    destruct Hpre as [->| ->]; simpl; split;
      [by apply digits_no_dot|by apply to_string_from_chars|
       constructor; [done|by apply digits_no_dot]|].
    apply from_chars_neg; [done|by apply to_string_from_chars|lia]. }
  destruct (format_fixed_shape kQtyScaleDigits q) as [[Hv ->]|(m & g & Hm & Hg & Hv & ->)];
    [lia|unfold kQtyScaleDigits; lia| |]; set (i := q / _) in *.
  - exists 0. split; [lia|]. split; [lia|]. by apply parse_qty_int.
  - exists (g * 10 ^ Z.of_nat m). split; [lia|]. split; [lia|].
    rewrite app_assoc, (parse_qty_dot _ _ _ Hnd Hfc).
    by rewrite parse_qty_frac_pad.
Qed.

(** Printing a quantity and parsing the text gives the quantity back, for
    every non-negative 64-bit quantity. *)
Lemma qty_text_roundtrip (q : Z) (Hq : 0 <= q <= INT64_MAX) :
  parse_qty (format_qty q) = Some (Value q).
Proof.
  unfold format_qty. rewrite (proj2 (Z.ltb_ge _ _)) by lia.
  destruct (parse_qty_format [] (q / kQtyScale) q) as (f & Hf & Hr & E); [by left|done|done|].
  simpl in E. rewrite E, parse_qty_finish_ok; [by rewrite <- Hf| |lia|lia].
  apply Z.div_pos; [lia|done].
Qed.

(** The sign of a quantity below one share is lost: the text of a negative
    quantity parses as the positive one when it is a proper fraction, and is
    rejected with [NEGATIVE_VALUE] otherwise. *)
Theorem qty_negative_text (q : Z) (Hq : 0 < q <= INT64_MAX) :
  parse_qty (format_qty (- q)) =
    Some (if q <? kQtyScale then Value q else Err ErrorCode.NEGATIVE_VALUE).
Proof.
  unfold format_qty. rewrite (proj2 (Z.ltb_lt _ _)) by lia. rewrite Z.opp_involutive.
  destruct (parse_qty_format ["-"%char] (- (q / kQtyScale)) q) as (f & Hf & Hr & E);
    [by right|lia|done|].
  change ("-"%char :: ?x) with (["-"%char] ++ x). rewrite E.
  destruct (Z.ltb_spec q kQtyScale) as [Hs|Hs].
  - rewrite Z.div_small in * by lia. rewrite parse_qty_finish_ok by lia. do 2 f_equal. lia.
  - unfold parse_qty_finish.
    assert (0 < q / kQtyScale) by (apply Z.div_str_pos; split; [done|lia]).
    by rewrite (proj2 (Z.ltb_lt _ _)) by lia.
Qed.

Lemma qty_negative_text_witness :
  (0 < 500000 <= INT64_MAX) /\
  parse_qty (format_qty (- 500000)) = Some (if 500000 <? kQtyScale then Value 500000 else Err ErrorCode.NEGATIVE_VALUE) /\
  format_qty (- 500000) = txt "-0.5".
Proof.
  assert (0 < 500000 <= INT64_MAX) by (unfold INT64_MAX; lia).
  split; [done|]. split; [by apply (qty_negative_text 500000)|done].
Defined.

(** ** Prices *)
Lemma parse_price_body_int l v :
  no_dot l -> from_chars l = Some v -> parse_price_body false l = parse_price_finish false v 0 0.
Proof. intros Hl Hv. unfold parse_price_body. by rewrite find_dot_none, Hv. Qed.

Lemma parse_price_body_dot l r v w :
  no_dot l -> from_chars l = Some v -> from_chars r = Some w ->
  parse_price_body false (l ++ "."%char :: r) = parse_price_finish false v w (length r).
Proof.
  intros Hl Hv Hr. unfold parse_price_body. rewrite find_dot_app by done.
  destruct l as [|c l]; [done|]. rewrite Hv. destruct r as [|c' r]; [done|]. by rewrite Hr.
Qed.

Lemma parse_price_unsigned l r :
  Forall is_digit l -> l <> [] -> parse_price (l ++ r) = parse_price_body false (l ++ r).
Proof.
  intros Hd Hne. unfold parse_price. destruct l as [|c l]; [done|]. simpl.
  inversion Hd as [|? ? Hc ?]; subst. apply digit_not_special in Hc as [Hc _].
  by rewrite bool_decide_eq_false_2 by done.
Qed.

(** The arithmetic of the parser, for an integer part below [10^14] and at
    most thirteen fractional digits: truncation to four digits, then the range
    check. *)
Definition price_of_parts (i f : Z) (n : nat) : Expected Z :=
  let p := i * kPriceScale + (f * 10 ^ 4) / 10 ^ Z.of_nat n in
  if p <=? kPriceMax then Value p else Err ErrorCode.OUT_OF_RANGE.

Lemma parse_price_finish_spec i f n :
  0 <= i < 10 ^ 14 -> 0 <= f < 10 ^ Z.of_nat n -> (n <= 13)%nat ->
  parse_price_finish false i f n = Some (price_of_parts i f n).
Proof.
  intros Hi Hf Hn. unfold parse_price_finish, price_of_parts.
  assert (10 ^ Z.of_nat n <= 10 ^ 13) by (apply Z.pow_le_mono_r; lia).
  assert (0 <= (f * 10 ^ 4) / 10 ^ Z.of_nat n < 10 ^ 4) as Hq.
  { split; [apply Z.div_pos; lia|apply Z.div_lt_upper_bound; nia]. }
  rewrite chk_i64_id by (unfold INT64_MIN, INT64_MAX, kPriceScale; lia). simpl.
  set (p := i * kPriceScale + _).
  assert (INT64_MIN <= p <= INT64_MAX) by (unfold p, INT64_MIN, INT64_MAX, kPriceScale in *; lia).
  assert (forall x, x = p ->
    (if (x <? kPriceMin) || (x >? kPriceMax) then Some (Err ErrorCode.OUT_OF_RANGE)
     else Some (Value x)) = Some (if p <=? kPriceMax then Value p else Err ErrorCode.OUT_OF_RANGE))
    as Hfin.
  { intros x ->. assert (0 <= p) by (unfold p, kPriceScale; lia).
    rewrite (proj2 (Z.ltb_ge p kPriceMin)), Z.gtb_ltb by (unfold kPriceMin; lia). simpl.
    destruct (Z.ltb_spec kPriceMax p), (Z.leb_spec p kPriceMax); try done; lia. }
  destruct (Nat.ltb_spec 0 n) as [Hpos|Hzero].
  2:{ assert (n = 0%nat) as -> by lia. simpl. apply Hfin. unfold p.
      change (10 ^ Z.of_nat 0) with 1 in *. assert (f = 0) as -> by lia.
      rewrite Z.mul_0_l, Z.div_1_r. lia. }
  destruct (Nat.leb_spec n 4) as [H4|H4].
  - rewrite mul10_loop_i32 by lia. simpl.
    assert (f * 10 ^ Z.of_nat (4 - n) = (f * 10 ^ 4) / 10 ^ Z.of_nat n) as Heq.
    { replace (10 ^ 4) with (10 ^ Z.of_nat (4 - n) * 10 ^ Z.of_nat n)
        by (rewrite <- Z.pow_add_r by lia; f_equal; lia).
      by rewrite Z.mul_assoc, Z.div_mul by lia. }
    rewrite Heq, chk_i64_id by (unfold INT64_MIN, INT64_MAX; lia). simpl.
    fold p. rewrite chk_i64_id by done. simpl. by apply Hfin.
  - rewrite mul10_loop_i32 by lia. simpl.
    assert (f ÷ 10 ^ Z.of_nat (n - 4) = (f * 10 ^ 4) / 10 ^ Z.of_nat n) as Heq.
    { rewrite Z.quot_div_nonneg by lia.
      replace (10 ^ Z.of_nat n) with (10 ^ Z.of_nat (n - 4) * 10 ^ 4)
        by (rewrite <- Z.pow_add_r by lia; f_equal; lia).
      by rewrite Z.div_mul_cancel_r by lia. }
    rewrite Heq. fold p. rewrite chk_i64_id by done. simpl. by apply Hfin.
Qed.

(** A decimal text with integer digits [l] (value below 10^14) and one to
    thirteen fractional digits [r] parses to its value truncated to the
    0.0001 grid, or is rejected when that lies above 1.0000. *)
Theorem parse_price_decimal (l r : text) (i f : Z)
    (Hl : Forall is_digit l) (Hr : Forall is_digit r)
    (Hi : digits_value 0 l = Some i) (Hf : digits_value 0 r = Some f)
    (Hil : 0 <= i < 10 ^ 14) (Hfl : 0 <= f < 10 ^ Z.of_nat (length r))
    (Hnl : l <> []) (Hnr : (0 < length r <= 13)%nat) :
  parse_price (l ++ "."%char :: r) = Some (price_of_parts i f (length r)).
Proof.
  assert (10 ^ Z.of_nat (length r) <= 10 ^ 13) by (apply Z.pow_le_mono_r; lia).
  rewrite parse_price_unsigned by done.
  rewrite (parse_price_body_dot l r i f); [|by apply digits_no_dot| |].
  - apply parse_price_finish_spec; [done|done|lia].
  - apply from_chars_digits; try done. unfold INT64_MIN, INT64_MAX; lia.
  - apply from_chars_digits; try done; [by intros ->; simpl in *; lia|].
    unfold INT64_MIN, INT64_MAX; lia.
Qed.

Lemma digits_of_txt (s : string) :
  forallb (fun c => bool_decide (is_Some (digit_val c))) (txt s) = true ->
  Forall is_digit (txt s).
Proof.
  intros H. apply Forall_forall. intros c Hc.
  rewrite forallb_forall in H. apply list_elem_of_In, H in Hc.
  apply bool_decide_eq_true_1 in Hc as [x Hc].
  unfold digit_val in Hc. split_match_in Hc; [|done]. bool_to_prop.
  exists (char_code c - 48). split; [lia|].
  unfold digit_char, char_code in *.
  replace (48 + (Z.of_N (N_of_ascii c) - 48)) with (Z.of_N (N_of_ascii c)) by lia.
  by rewrite N2Z.id, ascii_N_embedding.
Qed.

Lemma parse_price_decimal_witness :
  parse_price (txt "0" ++ "."%char :: txt "52") = Some (price_of_parts 0 52 2) /\
  price_of_parts 0 52 2 = Value 5200.
Proof.
  split; [|done].
  apply (parse_price_decimal (txt "0") (txt "52") 0 52);
    try (by apply digits_of_txt); try done; simpl; lia.
Defined.

(** Every price the parser returns is an index of the price ladder. *)
Lemma parse_price_in_ladder (sv : text) (p : Z)
    (Hp : parse_price sv = Some (Value p)) : kPriceMin <= p <= kPriceMax.
Proof.
  assert (forall neg i f n, parse_price_finish neg i f n = Some (Value p) ->
    kPriceMin <= p <= kPriceMax) as Hfin.
  { intros neg i f n. unfold parse_price_finish.
    destruct (chk_i64 _); [simpl|done]. destruct (if (0 <? n)%nat then _ else _); [simpl|done].
    case_match eqn:E; [done|]. intros [= <-].
    apply orb_false_iff in E as [? ?]. bool_to_prop. lia. }
  assert (forall neg l, parse_price_body neg l = Some (Value p) -> kPriceMin <= p <= kPriceMax)
    as Hbody.
  { intros neg l. unfold parse_price_body. branches; eauto. }
  revert Hp. unfold parse_price. branches; eauto.
Qed.

Lemma price_of_parts_value i g n m :
  (n + m = 4)%nat -> 0 <= g -> i * kPriceScale + g * 10 ^ Z.of_nat m <= kPriceMax ->
  price_of_parts i g n = Value (i * kPriceScale + g * 10 ^ Z.of_nat m).
Proof.
  intros Hnm Hg Hle. unfold price_of_parts.
  replace (g * 10 ^ 4) with (g * 10 ^ Z.of_nat m * 10 ^ Z.of_nat n).
  - rewrite Z.div_mul by lia. by rewrite (proj2 (Z.leb_le _ _)) by lia.
  - rewrite <- Z.mul_assoc, <- Z.pow_add_r by lia. by replace (Z.of_nat m + Z.of_nat n) with 4 by lia.
Qed.

(** Printing a ladder price and parsing the text gives the price back. *)
Lemma price_text_roundtrip (p : Z) (Hp : kPriceMin <= p <= kPriceMax) :
  parse_price (format_price p) = Some (Value p).
Proof.
  unfold kPriceMin, kPriceMax in Hp.
  unfold format_price. rewrite (proj2 (Z.ltb_ge _ _)) by lia.
  change kPriceScale with (10 ^ Z.of_nat 4).
  assert (0 <= p / 10 ^ Z.of_nat 4 <= 1) as Hi.
  { split; [apply Z.div_pos; lia|apply Z.div_le_upper_bound; lia]. }
  destruct (format_fixed_shape 4 p) as [[Hv ->]|(m & g & Hm & Hg & Hv & ->)];
    [lia|lia| |]; set (i := p / _) in *; pose proof (to_string_digits i) as Hd.
  - rewrite <- (app_nil_r (to_string i)), parse_price_unsigned, app_nil_r
      by (done || apply to_string_nonempty).
    rewrite (parse_price_body_int _ i);
      [|by apply digits_no_dot|apply to_string_from_chars; unfold INT64_MAX; lia].
    rewrite parse_price_finish_spec by lia.
    rewrite (price_of_parts_value i 0 0 4) by (unfold kPriceScale, kPriceMax; lia).
    do 2 f_equal. unfold kPriceScale. lia.
  - rewrite parse_price_unsigned by (done || apply to_string_nonempty).
    rewrite (parse_price_body_dot _ _ i g).
    + rewrite length_pad_digits, parse_price_finish_spec by lia.
      rewrite (price_of_parts_value i g (4 - m) m) by (unfold kPriceScale, kPriceMax; lia).
      do 2 f_equal. unfold kPriceScale. lia.
    + by apply digits_no_dot.
    + apply to_string_from_chars. unfold INT64_MAX. lia.
    + apply pad_digits_from_chars; [lia|done|lia].
Qed.
