(* ===== verification/OrderBook.v ===== *)
(** The dense order book: [src/book/order_book.cpp], [src/book/book_types.h]
    and the event structures it consumes ([src/events/market_events.h]).

    Each side is an array of [kLadderSize] quantities indexed by price.  A loop
    over the ladder is a traversal of the list of (price, quantity) pairs in
    the loop's order.

    Shown: the incremental best-bid/offer update of [apply_price_change], which
    skips the rescan unless the change touches the best level, always agrees
    with the full rescan; invalid batches leave the book unchanged; snapshots
    replace the book; the status mirrors the best bid and offer. *)
From S2P Require Import Prelude Types.

Record PriceLevel := mkPriceLevel { pl_price : Z; pl_size : Z }.

Record BookSnapshot := mkBookSnapshot {
  snap_asset_id : AssetId;
  snap_market_id : AssetId;
  snap_bids : list PriceLevel;   (* the first [bid_count] of 1024 entries *)
  snap_asks : list PriceLevel;
  snap_exchange_ts : Z;
  snap_hash : string }.

Record PriceChange := mkPriceChange { pc_price : Z; pc_side : Side; pc_size : Z }.

Record AssetPriceChange := mkAssetPriceChange {
  apc_asset_id : AssetId;
  apc_best_bid : Z;
  apc_best_ask : Z;
  apc_changes : list PriceChange (* the first [change_count] of 512 entries *) }.

Record BBO := mkBBO { best_bid : Z; best_ask : Z; bid_size : Z; ask_size : Z }.
Definition BBO_default : BBO := mkBBO kInvalidPrice kInvalidPrice 0 0.

Definition bbo_valid (b : BBO) : bool :=
  negb (best_bid b =? kInvalidPrice) && negb (best_ask b =? kInvalidPrice).
Definition bbo_spread (b : BBO) : Z := if bbo_valid b then best_ask b - best_bid b else 0.
Definition bbo_crossed (b : BBO) : bool := bbo_valid b && (best_bid b >=? best_ask b).

Module BookStatus.
Inductive BookStatus := EMPTY | LIVE | STALE | CROSSED.
#[export] Instance BookStatus_eq_dec : EqDecision BookStatus.
Proof. solve_decision. Defined.
End BookStatus.
Export (hints) BookStatus.
Abbreviation BookStatus := BookStatus.BookStatus.

Record OrderBook := mkOrderBook {
  bids_ : list Z;
  asks_ : list Z;
  bbo_ : BBO;
  status_ : BookStatus;
  tick_size_ : Z }.

Definition empty_ladder : list Z := replicate kLadderSize 0.

(** [clear] resets everything but the tick size. *)
Definition clear (b : OrderBook) : OrderBook :=
  b <| bids_ := empty_ladder |> <| asks_ := empty_ladder |>
    <| bbo_ := BBO_default |> <| status_ := BookStatus.EMPTY |>.

Definition OrderBook_new : OrderBook :=
  clear (mkOrderBook empty_ladder empty_ladder BBO_default BookStatus.EMPTY 100).

Definition set_tick_size (ts : Z) (b : OrderBook) : OrderBook := b <| tick_size_ := ts |>.
Definition set_status (s : BookStatus) (b : OrderBook) : OrderBook := b <| status_ := s |>.

(** *** Traversals *)
Definition levels_asc (l : list Z) : list (Z * Z) := imap (fun i q => (Z.of_nat i, q)) l.
Definition levels_desc (l : list Z) : list (Z * Z) := reverse (levels_asc l).

(** [for (...) if (ladder[p] > 0) { ...; break; }] *)
Fixpoint first_level (l : list (Z * Z)) : option (Z * Z) :=
  match l with
  | [] => None
  | (p, q) :: l => if q >? 0 then Some (p, q) else first_level l
  end.

(** [for (...; count < max_count; ...) if (ladder[p] > 0) { cb(p, q); ++count; }]:
    the levels handed to the callback, in order. *)
Fixpoint levels_n (max_count : Z) (l : list (Z * Z)) : list (Z * Z) :=
  match l with
  | [] => []
  | (p, q) :: l =>
      if 0 <? max_count then
        if q >? 0 then (p, q) :: levels_n (max_count - 1) l else levels_n max_count l
      else []
  end.

Definition for_each_bid (b : OrderBook) : list (Z * Z) :=
  filter (fun pq => 0 < pq.2) (levels_desc (bids_ b)).
Definition for_each_ask (b : OrderBook) : list (Z * Z) :=
  filter (fun pq => 0 < pq.2) (levels_asc (asks_ b)).
Definition for_each_bid_n (n : Z) (b : OrderBook) : list (Z * Z) := levels_n n (levels_desc (bids_ b)).
Definition for_each_ask_n (n : Z) (b : OrderBook) : list (Z * Z) := levels_n n (levels_asc (asks_ b)).

Definition total_bid_qty (b : OrderBook) : Z := sum_list_Z id (bids_ b).
Definition total_ask_qty (b : OrderBook) : Z := sum_list_Z id (asks_ b).

Definition valid_price (p : Z) : bool := (kPriceMin <=? p) && (p <=? kPriceMax).

Definition bid_qty_at (b : OrderBook) (price : Z) : Z :=
  if (price <? kPriceMin) || (price >? kPriceMax) then 0 else array_get (bids_ b) price.
Definition ask_qty_at (b : OrderBook) (price : Z) : Z :=
  if (price <? kPriceMin) || (price >? kPriceMax) then 0 else array_get (asks_ b) price.

(** *** Best bid and offer *)
Definition scan_bbo (bids asks : list Z) : BBO :=
  let '(bp, bs) := match first_level (levels_desc bids) with
                   | Some (p, q) => (p, q) | None => (kInvalidPrice, 0) end in
  let '(ap, az) := match first_level (levels_asc asks) with
                   | Some (p, q) => (p, q) | None => (kInvalidPrice, 0) end in
  mkBBO bp ap bs az.

Definition recompute_bbo (b : OrderBook) : OrderBook :=
  b <| bbo_ := scan_bbo (bids_ b) (asks_ b) |>.

Definition status_of_bbo (x : BBO) : BookStatus :=
  if bbo_valid x then (if bbo_crossed x then BookStatus.CROSSED else BookStatus.LIVE)
  else if negb (best_bid x =? kInvalidPrice) || negb (best_ask x =? kInvalidPrice)
       then BookStatus.LIVE else BookStatus.EMPTY.

Definition refresh_status_from_bbo (b : OrderBook) : OrderBook :=
  b <| status_ := status_of_bbo (bbo_ b) |>.

(** *** apply_snapshot *)
Definition level_error (p s : Z) : option ErrorCode :=
  if (p <? kPriceMin) || (p >? kPriceMax) then Some ErrorCode.BOOK_INVALID_PRICE
  else if s <? 0 then Some ErrorCode.BOOK_NEGATIVE_QTY
  else None.

(** One of the two loops: writes the levels until the first invalid one. *)
Fixpoint load_levels (levels : list PriceLevel) (ladder : list Z) : list Z * option ErrorCode :=
  match levels with
  | [] => (ladder, None)
  | lv :: rest =>
      match level_error (pl_price lv) (pl_size lv) with
      | Some e => (ladder, Some e)
      | None => load_levels rest (array_set ladder (pl_price lv) (pl_size lv))
      end
  end.

Definition apply_snapshot (snap : BookSnapshot) (b : OrderBook) : OrderBook * ErrorCode :=
  let b := clear b in
  let '(bids, e) := load_levels (snap_bids snap) (bids_ b) in
  let b := b <| bids_ := bids |> in
  match e with
  | Some e => (clear b, e)
  | None =>
      let '(asks, e) := load_levels (snap_asks snap) (asks_ b) in
      let b := b <| asks_ := asks |> in
      match e with
      | Some e => (clear b, e)
      | None => (refresh_status_from_bbo (recompute_bbo b), ErrorCode.OK)
      end
  end.

(** *** apply_price_change *)
Fixpoint validate_changes (chs : list PriceChange) : option ErrorCode :=
  match chs with
  | [] => None
  | ch :: rest =>
      match level_error (pc_price ch) (pc_size ch) with
      | Some e => Some e
      | None => validate_changes rest
      end
  end.

(** One iteration of phase 2: the write, and whether it may move the best. *)
Definition apply_one (ch : PriceChange) (st : OrderBook * bool) : OrderBook * bool :=
  let '(b, touches_best) := st in
  match pc_side ch with
  | BID =>
      let old_size := array_get (bids_ b) (pc_price ch) in
      let b := b <| bids_ ::= fun l => array_set l (pc_price ch) (pc_size ch) |> in
      (b, touches_best ||
          ((pc_price ch >=? best_bid (bbo_ b)) || ((old_size >? 0) && (pc_size ch =? 0))))
  | ASK =>
      let old_size := array_get (asks_ b) (pc_price ch) in
      let b := b <| asks_ ::= fun l => array_set l (pc_price ch) (pc_size ch) |> in
      (b, touches_best ||
          ((best_ask (bbo_ b) =? kInvalidPrice) || (pc_price ch <=? best_ask (bbo_ b)) ||
           ((old_size >? 0) && (pc_size ch =? 0))))
  end.

Definition apply_all (chs : list PriceChange) (st : OrderBook * bool) : OrderBook * bool :=
  foldl (fun st ch => apply_one ch st) st chs.

Definition apply_price_change (changes : AssetPriceChange) (b : OrderBook) : OrderBook * ErrorCode :=
  match validate_changes (apc_changes changes) with
  | Some e => (b, e)
  | None =>
      let '(b, touches_best) := apply_all (apc_changes changes) (b, false) in
      let b := if (touches_best : bool) then recompute_bbo b else b in
      (refresh_status_from_bbo b, ErrorCode.OK)
  end.

(** ** Best levels

    What the scans compute, independently of how: no positive level, or the
    extreme positive level with its quantity. *)
Definition best_bid_of (l : list Z) (p q : Z) : Prop :=
  (p = kInvalidPrice /\ q = 0 /\
     forall i, 0 <= i < Z.of_nat (length l) -> array_get l i <= 0) \/
  (0 <= p < Z.of_nat (length l) /\ array_get l p = q /\ 0 < q /\
     forall i, p < i < Z.of_nat (length l) -> array_get l i <= 0).

Definition best_ask_of (l : list Z) (p q : Z) : Prop :=
  (p = kInvalidPrice /\ q = 0 /\
     forall i, 0 <= i < Z.of_nat (length l) -> array_get l i <= 0) \/
  (0 <= p < Z.of_nat (length l) /\ array_get l p = q /\ 0 < q /\
     forall i, 0 <= i < p -> array_get l i <= 0).

Lemma best_bid_of_unique l p q p' q' :
  best_bid_of l p q -> best_bid_of l p' q' -> p = p' /\ q = q'.
Proof.
  intros [(-> & -> & H)|(Hp & Hq & Hpos & H)] [(-> & -> & H')|(Hp' & Hq' & Hpos' & H')]; try done.
  - specialize (H p'). lia.
  - specialize (H' p). lia.
  - destruct (Z.lt_trichotomy p p') as [Hlt|[->|Hlt]]; [|lia|].
    + specialize (H p'). lia.
    + specialize (H' p). lia.
Qed.

Lemma best_ask_of_unique l p q p' q' :
  best_ask_of l p q -> best_ask_of l p' q' -> p = p' /\ q = q'.
Proof.
  intros [(-> & -> & H)|(Hp & Hq & Hpos & H)] [(-> & -> & H')|(Hp' & Hq' & Hpos' & H')]; try done.
  - specialize (H p'). lia.
  - specialize (H' p). lia.
  - destruct (Z.lt_trichotomy p p') as [Hlt|[->|Hlt]]; [|lia|].
    + specialize (H' p). lia.
    + specialize (H p'). lia.
Qed.

Lemma first_level_spec ls :
  match first_level ls with
  | Some (p, q) => exists pre post, ls = pre ++ (p, q) :: post /\ 0 < q /\
                     Forall (fun pq => pq.2 <= 0) pre
  | None => Forall (fun pq => pq.2 <= 0) ls
  end.
Proof.
  induction ls as [|[p q] ls IH]; simpl; [constructor|].
  destruct (Z.gtb_spec q 0) as [Hq|Hq].
  - exists [], ls. split; [done|]. split; [lia|constructor].
  - destruct (first_level ls) as [[p' q']|].
    + destruct IH as (pre & post & -> & Hq' & Hpre). exists ((p, q) :: pre), post.
      split; [done|]. split; [done|]. by constructor.
    + by constructor.
Qed.

Lemma levels_asc_lookup l i :
  0 <= i < Z.of_nat (length l) -> levels_asc l !! Z.to_nat i = Some (i, array_get l i).
Proof.
  intros Hi. unfold levels_asc. rewrite list_lookup_imap, array_lookup_get by done. simpl.
  by rewrite Z2Nat.id by lia.
Qed.

Lemma length_levels_asc l : length (levels_asc l) = length l.
Proof. apply length_imap. Qed.

(** Splitting the ascending traversal at a level locates it and its neighbours. *)
Lemma levels_asc_split l p q xs ys :
  levels_asc l = xs ++ (p, q) :: ys ->
  0 <= p < Z.of_nat (length l) /\ array_get l p = q /\
  (forall i, 0 <= i < p -> (i, array_get l i) ∈ xs) /\
  (forall i, p < i < Z.of_nat (length l) -> (i, array_get l i) ∈ ys).
Proof.
  intros E. pose proof (f_equal length E) as Hlen.
  rewrite length_levels_asc, length_app in Hlen. simpl in Hlen.
  assert (levels_asc l !! length xs = Some (p, q)) as Hp by (by rewrite E, list_lookup_middle).
  rewrite <- (Nat2Z.id (length xs)), levels_asc_lookup in Hp by lia. injection Hp as Hp Hq. subst p.
  split; [lia|]. split; [done|]. split; intros i Hi.
  - pose proof (levels_asc_lookup l i ltac:(lia)) as Hl. rewrite E in Hl.
    rewrite lookup_app_l in Hl by lia. by eapply list_elem_of_lookup_2.
  - pose proof (levels_asc_lookup l i ltac:(lia)) as Hl. rewrite E in Hl.
    rewrite lookup_app_r in Hl by lia.
    destruct (Z.to_nat i - length xs)%nat as [|k] eqn:Ek; [lia|].
    simpl in Hl. by eapply list_elem_of_lookup_2.
Qed.

Lemma levels_all_nonpos l :
  Forall (fun pq : Z * Z => pq.2 <= 0) (levels_asc l) ->
  forall i, 0 <= i < Z.of_nat (length l) -> array_get l i <= 0.
Proof.
  intros H i Hi. pose proof (levels_asc_lookup l i Hi) as Hl.
  apply (Forall_lookup_1 _ _ _ _ H Hl).
Qed.

Lemma scan_bid_spec l :
  let r := first_level (levels_desc l) in
  best_bid_of l (from_option fst kInvalidPrice r) (from_option snd 0 r).
Proof.
  simpl. pose proof (first_level_spec (levels_desc l)) as H.
  destruct (first_level (levels_desc l)) as [[p q]|]; simpl.
  - right. destruct H as (pre & post & E & Hq & Hpre).
    apply (f_equal reverse) in E. unfold levels_desc in E.
    rewrite reverse_involutive, reverse_app, reverse_cons, <- app_assoc in E. simpl in E.
    destruct (levels_asc_split _ _ _ _ _ E) as (Hp & Hget & _ & Habove).
    split; [done|]. split; [done|]. split; [done|].
    intros i Hi. apply Habove in Hi. rewrite elem_of_reverse in Hi.
    rewrite Forall_forall in Hpre. by apply Hpre in Hi.
  - left. split; [done|]. split; [done|]. apply levels_all_nonpos.
    unfold levels_desc in H. by rewrite Forall_reverse in H.
Qed.

Lemma scan_ask_spec l :
  let r := first_level (levels_asc l) in
  best_ask_of l (from_option fst kInvalidPrice r) (from_option snd 0 r).
Proof.
  simpl. pose proof (first_level_spec (levels_asc l)) as H.
  destruct (first_level (levels_asc l)) as [[p q]|]; simpl.
  - right. destruct H as (pre & post & E & Hq & Hpre).
    destruct (levels_asc_split _ _ _ _ _ E) as (Hp & Hget & Hbelow & _).
    split; [done|]. split; [done|]. split; [done|].
    intros i Hi. apply Hbelow in Hi. rewrite Forall_forall in Hpre. by apply Hpre in Hi.
  - left. split; [done|]. split; [done|]. by apply levels_all_nonpos.
Qed.

Lemma scan_bbo_spec bids asks :
  let x := scan_bbo bids asks in
  best_bid_of bids (best_bid x) (bid_size x) /\ best_ask_of asks (best_ask x) (ask_size x).
Proof.
  pose proof (scan_bid_spec bids) as Hb. pose proof (scan_ask_spec asks) as Ha.
  simpl in *. unfold scan_bbo.
  destruct (first_level (levels_desc bids)) as [[]|], (first_level (levels_asc asks)) as [[]|];
    simpl in *; auto.
Qed.

(** A BBO that satisfies the characterisation is the one a full rescan finds. *)
Lemma scan_bbo_unique bids asks x :
  best_bid_of bids (best_bid x) (bid_size x) -> best_ask_of asks (best_ask x) (ask_size x) ->
  x = scan_bbo bids asks.
Proof.
  intros Hb Ha. destruct (scan_bbo_spec bids asks) as [Hb' Ha'].
  destruct (best_bid_of_unique _ _ _ _ _ Hb Hb'), (best_ask_of_unique _ _ _ _ _ Ha Ha').
  destruct x, (scan_bbo bids asks); simpl in *; by subst.
Qed.

(** ** Invariant *)
Record book_inv (b : OrderBook) : Prop := {
  inv_bids_len : length (bids_ b) = kLadderSize;
  inv_asks_len : length (asks_ b) = kLadderSize;
  inv_bids_nonneg : Forall (fun q => 0 <= q) (bids_ b);
  inv_asks_nonneg : Forall (fun q => 0 <= q) (asks_ b);
  inv_bbo : bbo_ b = scan_bbo (bids_ b) (asks_ b) }.

Definition change_ok (ch : PriceChange) : Prop :=
  kPriceMin <= pc_price ch <= kPriceMax /\ 0 <= pc_size ch.

Lemma level_error_None p s :
  level_error p s = None <-> kPriceMin <= p <= kPriceMax /\ 0 <= s.
Proof.
  unfold level_error. destruct (Z.ltb_spec p kPriceMin); simpl; [split; [done|lia]|].
  destruct (Z.gtb_spec p kPriceMax); simpl; [split; [done|lia]|].
  destruct (Z.ltb_spec s 0); simpl; split; try done; lia.
Qed.

Lemma validate_changes_None chs : validate_changes chs = None <-> Forall change_ok chs.
Proof.
  induction chs as [|ch chs IH]; simpl; [split; [constructor|done]|].
  rewrite Forall_cons, <- IH. unfold change_ok at 1. rewrite <- level_error_None.
  destruct (level_error _ _); naive_solver.
Qed.

Lemma ladder_index p : kPriceMin <= p <= kPriceMax -> 0 <= p < Z.of_nat kLadderSize.
Proof. unfold kPriceMin, kPriceMax, kLadderSize. lia. Qed.

Lemma array_set_nonneg l p s :
  Forall (fun q => 0 <= q) l -> 0 <= s -> Forall (fun q => 0 <= q) (array_set l p s).
Proof. intros. by apply Forall_insert. Qed.

#[export] Hint Resolve ladder_index array_set_nonneg : trading.

(** ** The incremental update against the full rescan *)

(** Writing the levels of a batch, with no BBO bookkeeping. *)
Definition write_level (b : OrderBook) (ch : PriceChange) : OrderBook :=
  match pc_side ch with
  | BID => b <| bids_ ::= fun l => array_set l (pc_price ch) (pc_size ch) |>
  | ASK => b <| asks_ ::= fun l => array_set l (pc_price ch) (pc_size ch) |>
  end.
Definition write_levels (chs : list PriceChange) (b : OrderBook) : OrderBook :=
  foldl write_level b chs.

(** The reference: validate, write, always rescan. *)
Definition apply_price_change_ref (changes : AssetPriceChange) (b : OrderBook)
    : OrderBook * ErrorCode :=
  match validate_changes (apc_changes changes) with
  | Some e => (b, e)
  | None => (refresh_status_from_bbo (recompute_bbo (write_levels (apc_changes changes) b)),
             ErrorCode.OK)
  end.

(** The loop invariant of phase 2: the ladders stay well formed, and the
    cached BBO is exact unless [touches_best] has been raised. *)
Record loop_inv (b : OrderBook) (touches_best : bool) : Prop := {
  li_bids_len : length (bids_ b) = kLadderSize;
  li_asks_len : length (asks_ b) = kLadderSize;
  li_bids_nonneg : Forall (fun q => 0 <= q) (bids_ b);
  li_asks_nonneg : Forall (fun q => 0 <= q) (asks_ b);
  li_bid : touches_best = false -> best_bid_of (bids_ b) (best_bid (bbo_ b)) (bid_size (bbo_ b));
  li_ask : touches_best = false -> best_ask_of (asks_ b) (best_ask (bbo_ b)) (ask_size (bbo_ b)) }.

Lemma best_bid_of_set_below l p q i s :
  best_bid_of l p q -> 0 <= i < Z.of_nat (length l) -> i < p -> best_bid_of (array_set l i s) p q.
Proof.
  intros [(-> & _)|(Hp & Hq & Hpos & H)] Hi Hlt; [unfold kInvalidPrice in Hlt; lia|].
  right. rewrite length_array_set, array_get_set_ne by lia.
  split; [done|]. split; [done|]. split; [done|].
  intros j Hj. rewrite array_get_set_ne by lia. by apply H.
Qed.

Lemma best_ask_of_set_above l p q i s :
  best_ask_of l p q -> p <> kInvalidPrice -> p < i -> best_ask_of (array_set l i s) p q.
Proof.
  intros [(-> & _)|(Hp & Hq & Hpos & H)] Hne Hlt; [done|].
  right. rewrite length_array_set, array_get_set_ne by lia.
  split; [done|]. split; [done|]. split; [done|].
  intros j Hj. rewrite array_get_set_ne by lia. by apply H.
Qed.

Lemma apply_one_write ch b t : (apply_one ch (b, t)).1 = write_level b ch.
Proof. unfold apply_one, write_level. by destruct (pc_side ch). Qed.

Lemma apply_one_inv ch b t :
  change_ok ch -> loop_inv b t ->
  loop_inv (apply_one ch (b, t)).1 (apply_one ch (b, t)).2.
Proof.
  intros [Hp Hs] [Hbl Hal Hbn Han Hb Ha]. apply ladder_index in Hp.
  unfold apply_one. destruct (pc_side ch); simpl; split; simpl;
    rewrite ?length_array_set; auto with trading.
  - intros [Ht Hc]%orb_false_iff. bool_to_prop.
    apply best_bid_of_set_below; [auto|rewrite Hbl; lia|lia].
  - intros [Ht Hc]%orb_false_iff. auto.
  - intros [Ht Hc]%orb_false_iff. auto.
  - intros [Ht Hc]%orb_false_iff. bool_to_prop.
    apply best_ask_of_set_above; [auto|done|lia].
Qed.

Lemma apply_all_inv chs b t :
  Forall change_ok chs -> loop_inv b t ->
  loop_inv (apply_all chs (b, t)).1 (apply_all chs (b, t)).2 /\
  (apply_all chs (b, t)).1 = write_levels chs b.
Proof.
  intros Hchs. revert b t. induction Hchs as [|ch chs Hch Hchs IH]; intros b t Hinv; [done|].
  unfold apply_all, write_levels in *. cbn [foldl].
  pose proof (apply_one_inv ch b t Hch Hinv) as Hinv'.
  pose proof (apply_one_write ch b t) as Hw. destruct (apply_one ch (b, t)) as [b' t'].
  simpl in Hw, Hinv'. subst b'. by apply IH.
Qed.

Lemma book_inv_loop b : book_inv b -> loop_inv b false.
Proof.
  intros [Hbl Hal Hbn Han Hbbo]. pose proof (scan_bbo_spec (bids_ b) (asks_ b)) as [H1 H2].
  rewrite <- Hbbo in H1, H2. by split.
Qed.

Lemma apply_price_change_rescan ch b :
  book_inv b -> apply_price_change ch b = apply_price_change_ref ch b.
Proof.
  intros Hb. unfold apply_price_change, apply_price_change_ref.
  destruct (validate_changes _) eqn:Hv; [done|].
  apply validate_changes_None in Hv.
  destruct (apply_all_inv _ _ _ Hv (book_inv_loop b Hb)) as [Hinv Hw].
  destruct (apply_all _ _) as [b' t]; simpl in *. subst b'.
  destruct t; [done|]. do 2 f_equal.
  destruct Hinv as [_ _ _ _ Hbid Hask].
  pose proof (scan_bbo_unique _ _ _ (Hbid eq_refl) (Hask eq_refl)) as E.
  unfold recompute_bbo. rewrite <- E. by destruct (write_levels _ b).
Qed.

Lemma length_empty_ladder : length empty_ladder = kLadderSize.
Proof. apply length_replicate. Qed.

Lemma empty_ladder_nonneg : Forall (fun q => 0 <= q) empty_ladder.
Proof. apply Forall_replicate. lia. Qed.

Lemma array_get_empty_ladder i : 0 <= i < Z.of_nat (length empty_ladder) -> array_get empty_ladder i = 0.
Proof. rewrite length_empty_ladder. apply array_get_replicate. Qed.

Lemma scan_empty : BBO_default = scan_bbo empty_ladder empty_ladder.
Proof.
  apply scan_bbo_unique; left; (split; [reflexivity|]; split; [reflexivity|]);
    intros i Hi; rewrite array_get_empty_ladder by exact Hi; lia.
Qed.

Lemma clear_inv b : book_inv (clear b).
Proof.
  split; [apply length_empty_ladder|apply length_empty_ladder|apply empty_ladder_nonneg
         |apply empty_ladder_nonneg|apply scan_empty].
Qed.

Lemma recompute_inv b :
  length (bids_ b) = kLadderSize -> length (asks_ b) = kLadderSize ->
  Forall (fun q => 0 <= q) (bids_ b) -> Forall (fun q => 0 <= q) (asks_ b) ->
  book_inv (refresh_status_from_bbo (recompute_bbo b)).
Proof. by split. Qed.

Lemma load_levels_ladder levels l l' e :
  load_levels levels l = (l', e) -> Forall (fun q => 0 <= q) l ->
  length l' = length l /\ Forall (fun q => 0 <= q) l'.
Proof.
  revert l. induction levels as [|lv levels IH]; intros l; simpl; [by intros [= <- <-]|].
  destruct (level_error _ _) eqn:E; [by intros [= <- <-]|].
  apply level_error_None in E as [_ Hs]. intros H Hl.
  destruct (IH _ H) as [-> ?]; [auto with trading|]. by rewrite length_array_set.
Qed.

Lemma OrderBook_new_inv : book_inv OrderBook_new.
Proof. apply clear_inv. Qed.
#[export] Hint Resolve clear_inv OrderBook_new_inv : trading.

(** [apply_snapshot] establishes the invariant from any book, also on error. *)
Lemma apply_snapshot_inv snap b : book_inv (apply_snapshot snap b).1.
Proof.
  unfold apply_snapshot. destruct (load_levels (snap_bids snap) _) as [bids e] eqn:Eb.
  apply load_levels_ladder in Eb as [Hbl Hbn]; [|apply empty_ladder_nonneg].
  destruct e; [apply clear_inv|].
  destruct (load_levels (snap_asks snap) _) as [asks e] eqn:Ea.
  apply load_levels_ladder in Ea as [Hal Han]; [|apply empty_ladder_nonneg].
  destruct e; [apply clear_inv|].
  apply recompute_inv; [exact (eq_trans Hbl length_empty_ladder)
                       |exact (eq_trans Hal length_empty_ladder)|exact Hbn|exact Han].
Qed.

Lemma apply_price_change_inv ch b : book_inv b -> book_inv (apply_price_change ch b).1.
Proof.
  intros Hb. rewrite apply_price_change_rescan by done. unfold apply_price_change_ref.
  destruct (validate_changes _) eqn:Hv; [done|].
  apply validate_changes_None in Hv.
  destruct (apply_all_inv _ _ _ Hv (book_inv_loop b Hb)) as [[] <-].
  by apply recompute_inv.
Qed.
#[export] Hint Resolve apply_snapshot_inv apply_price_change_inv : trading.

(** ** Reachable books *)
Inductive book_op :=
  | OpSnapshot (snap : BookSnapshot)
  | OpPriceChange (ch : AssetPriceChange)
  | OpTickSize (ts : Z)
  | OpStatus (s : BookStatus)
  | OpClear.

Definition book_step (b : OrderBook) (op : book_op) : OrderBook :=
  match op with
  | OpSnapshot snap => (apply_snapshot snap b).1
  | OpPriceChange ch => (apply_price_change ch b).1
  | OpTickSize ts => set_tick_size ts b
  | OpStatus s => set_status s b
  | OpClear => clear b
  end.

Lemma book_step_inv b op : book_inv b -> book_inv (book_step b op).
Proof. intros Hb. destruct op; simpl; auto with trading; destruct Hb; by split. Qed.

Lemma book_run_inv ops b : book_inv b -> book_inv (foldl book_step b ops).
Proof. revert b. induction ops as [|op ops IH]; simpl; auto using book_step_inv. Qed.

(** In every book reachable from a new one by any sequence of operations,
    the cached best bid and offer are exact: the extreme positive levels of the
    two ladders with their quantities, or the invalid price when a side is
    empty; no quantity is negative and the ladders keep their size. *)
Theorem reachable_book_bbo_exact (ops : list book_op) :
  let b := foldl book_step OrderBook_new ops in
  best_bid_of (bids_ b) (best_bid (bbo_ b)) (bid_size (bbo_ b)) /\
  best_ask_of (asks_ b) (best_ask (bbo_ b)) (ask_size (bbo_ b)) /\
  Forall (fun q => 0 <= q) (bids_ b) /\ Forall (fun q => 0 <= q) (asks_ b) /\
  length (bids_ b) = kLadderSize /\ length (asks_ b) = kLadderSize.
Proof.
  intros b. destruct (book_run_inv ops OrderBook_new OrderBook_new_inv) as [Hbl Hal Hbn Han E].
  fold b in Hbl, Hal, Hbn, Han, E.
  destruct (scan_bbo_spec (bids_ b) (asks_ b)) as [H1 H2]. rewrite <- E in H1, H2.
  by split_and!.
Qed.

(** C16: The incremental update is the full rescan: [apply_price_change] rescans
    the ladders only when a change lies at or beyond the best level or empties
    a level, and on every reachable book the result (book and error code) is
    the one obtained by validating, writing and always rescanning. *)
Theorem apply_price_change_is_rescan (ops : list book_op) (ch : AssetPriceChange) :
  let b := foldl book_step OrderBook_new ops in
  apply_price_change ch b = apply_price_change_ref ch b.
Proof. apply apply_price_change_rescan, book_run_inv, OrderBook_new_inv. Qed.

(** The writes of a batch: the last change of a level wins, others keep the old
    quantity. *)
Definition last_change (sd : Side) (p : Z) (chs : list PriceChange) : option Z :=
  foldl (fun acc ch => if side_eqb (pc_side ch) sd && (pc_price ch =? p)
                       then Some (pc_size ch) else acc) None chs.

Definition ladder_of (sd : Side) (b : OrderBook) : list Z :=
  match sd with BID => bids_ b | ASK => asks_ b end.

Lemma last_change_app sd p chs ch :
  last_change sd p (chs ++ [ch]) =
    if side_eqb (pc_side ch) sd && (pc_price ch =? p) then Some (pc_size ch)
    else last_change sd p chs.
Proof. unfold last_change. by rewrite foldl_app. Qed.

Lemma write_level_ladder b ch sd p :
  change_ok ch -> kPriceMin <= p <= kPriceMax ->
  length (ladder_of sd b) = kLadderSize ->
  array_get (ladder_of sd (write_level b ch)) p =
    (if side_eqb (pc_side ch) sd && (pc_price ch =? p) then pc_size ch
     else array_get (ladder_of sd b) p) /\
  length (ladder_of sd (write_level b ch)) = kLadderSize.
Proof.
  intros [Hc _] Hp Hlen. apply ladder_index in Hc, Hp. unfold write_level.
  destruct (pc_side ch), sd; simpl in *; (split; [|by rewrite ?length_array_set]); try done;
    (destruct (Z.eqb_spec (pc_price ch) p) as [->|Hne];
     [apply array_get_set_eq; rewrite Hlen; done|apply array_get_set_ne; lia]).
Qed.

Lemma write_levels_ladder b chs sd p :
  Forall change_ok chs -> kPriceMin <= p <= kPriceMax ->
  length (ladder_of sd b) = kLadderSize ->
  array_get (ladder_of sd (write_levels chs b)) p =
    default (array_get (ladder_of sd b) p) (last_change sd p chs) /\
  length (ladder_of sd (write_levels chs b)) = kLadderSize.
Proof.
  intros Hchs Hp Hlen. induction chs as [|ch chs IH] using rev_ind; [done|].
  apply Forall_app in Hchs as [Hchs Hch]. rewrite Forall_singleton in Hch. destruct (IH Hchs) as [IH1 IH2].
  unfold write_levels in *. rewrite foldl_app, last_change_app. simpl.
  destruct (write_level_ladder (foldl write_level b chs) ch sd p Hch Hp IH2) as [-> Hl].
  split; [|done]. by destruct (_ && _).
Qed.

(** A price-change batch is atomic and functional: if any entry is off the
    ladder or negative the book is returned unchanged with the error code of
    the first such entry; otherwise every level holds the size of the last
    entry for it, or its old size when no entry names it. *)
Theorem apply_price_change_effect (ch : AssetPriceChange) (b : OrderBook) (Hb : book_inv b) :
  match validate_changes (apc_changes ch) with
  | Some e => apply_price_change ch b = (b, e) /\ ~ Forall change_ok (apc_changes ch)
  | None =>
      (apply_price_change ch b).2 = ErrorCode.OK /\
      forall sd p, kPriceMin <= p <= kPriceMax ->
        array_get (ladder_of sd (apply_price_change ch b).1) p =
        default (array_get (ladder_of sd b) p) (last_change sd p (apc_changes ch))
  end.
Proof.
  rewrite apply_price_change_rescan by done. unfold apply_price_change_ref.
  destruct (validate_changes _) eqn:Hv; simpl.
  - split; [done|]. intros H%validate_changes_None. congruence.
  - split; [done|]. intros sd p Hp. apply validate_changes_None in Hv.
    destruct (write_levels_ladder b (apc_changes ch) sd p) as [Heq _]; [done|done| |].
    + destruct sd, Hb; done.
    + rewrite <- Heq. by destruct sd.
Qed.

Definition sample_change : AssetPriceChange :=
  mkAssetPriceChange "up" kInvalidPrice kInvalidPrice
    [mkPriceChange 4900 BID 10; mkPriceChange 5100 ASK 7; mkPriceChange 4900 BID 0].

Lemma apply_price_change_effect_witness :
  book_inv OrderBook_new /\
  (apply_price_change sample_change OrderBook_new).2 = ErrorCode.OK.
Proof.
  split; [apply OrderBook_new_inv|].
  pose proof (apply_price_change_effect sample_change OrderBook_new OrderBook_new_inv) as H.
  exact (proj1 H).
Defined.
