(* ===== verification/Events.v ===== *)
(** The event and intent structures exchanged between the threads:
    [src/events/*.h], [src/exec/exec_intent.h], [src/exec/exec_feedback.h].

    Structures are records with the source's fields (latency-only character
    buffers left out); the factories of [SchedulerEvent] start from the default
    event and set the fields the source sets. *)
From S2P Require Import Prelude Types OrderBook.

(** ** Market events ([market_events.h], [event_variant.h]) *)
Record PriceChangeEvent := mkPriceChangeEvent {
  pce_asset_changes : list AssetPriceChange;   (* the first [asset_count] of 32 *)
  pce_exchange_ts : Z }.
Record BestBidAskEvent := mkBestBidAskEvent {
  bba_asset_id : AssetId; bba_best_bid : Z; bba_best_ask : Z; bba_spread : Z; bba_exchange_ts : Z }.
Record TickSizeChangeEvent := mkTickSizeChangeEvent {
  tsc_asset_id : AssetId; tsc_old_tick_size : Z; tsc_new_tick_size : Z; tsc_exchange_ts : Z }.
Record LastTradePriceEvent := mkLastTradePriceEvent {
  ltp_asset_id : AssetId; ltp_market_id : AssetId; ltp_price : Z; ltp_size : Z; ltp_side : Side;
  ltp_fee_rate_bps : Z; ltp_exchange_ts : Z }.
Record NewMarketEvent := mkNewMarketEvent {
  nm_market_id : AssetId; nm_assets : list AssetId; nm_outcomes : list string; nm_exchange_ts : Z }.
Record MarketResolvedEvent := mkMarketResolvedEvent {
  mr_market_id : AssetId; mr_winning_asset_id : AssetId; mr_assets : list AssetId;
  mr_winning_outcome : string; mr_exchange_ts : Z }.

Inductive MarketEventPayload :=
  | EvBookSnapshot (s : BookSnapshot)
  | EvPriceChange (e : PriceChangeEvent)
  | EvBestBidAsk (e : BestBidAskEvent)
  | EvTickSizeChange (e : TickSizeChangeEvent)
  | EvLastTradePrice (e : LastTradePriceEvent)
  | EvNewMarket (e : NewMarketEvent)
  | EvMarketResolved (e : MarketResolvedEvent).

Record MarketEvent := mkMarketEvent {
  me_payload : MarketEventPayload; me_recv_ts : Z; me_seq : Z }.

Module NotificationKind.
Inductive NotificationKind :=
  | BOOK_SNAPSHOT | PRICE_CHANGE | BBO_UPDATE | TICK_SIZE_CHANGE | LAST_TRADE
  | NEW_MARKET | MARKET_RESOLVED.
End NotificationKind.
Abbreviation NotificationKind := NotificationKind.NotificationKind.

Record MarketNotification := mkMarketNotification {
  mn_kind : NotificationKind;
  mn_asset_id : AssetId;
  mn_recv_ts : Z;
  mn_seq : Z;
  mn_bbo : BBO;
  mn_exchange_ts : Z;
  mn_tick_size : Z;
  mn_resolved_winning_asset_id : AssetId }.

(** ** Book deltas ([book_delta.h]) *)
Module BookDeltaKind.
Inductive BookDeltaKind := INCREMENTAL | SNAPSHOT_BEGIN | SNAPSHOT_CHUNK | SNAPSHOT_END.
#[export] Instance BookDeltaKind_eq_dec : EqDecision BookDeltaKind.
Proof. solve_decision. Defined.
End BookDeltaKind.
Export (hints) BookDeltaKind.
Abbreviation BookDeltaKind := BookDeltaKind.BookDeltaKind.

Definition kMaxDeltaChanges : nat := 64.

Record BookDelta := mkBookDelta {
  bd_asset_id : AssetId;
  bd_kind : BookDeltaKind;
  bd_changes : list PriceChange;   (* (price, side, new_size), first [change_count] of 64 *)
  bd_tick_size : Z }.

(** ** User events ([user_events.h]) *)
Module OrderStatus.
Inductive OrderStatus := UNKNOWN | LIVE | PARTIAL | FILLED | CANCELED | FAILED.
#[export] Instance OrderStatus_eq_dec : EqDecision OrderStatus.
Proof. solve_decision. Defined.
End OrderStatus.
Export (hints) OrderStatus.
Abbreviation OrderStatus := OrderStatus.OrderStatus.

Module TradeStatus.
Inductive TradeStatus := UNKNOWN | MATCHED | MINED | CONFIRMED | RETRYING | FAILED.
#[export] Instance TradeStatus_eq_dec : EqDecision TradeStatus.
Proof. solve_decision. Defined.
End TradeStatus.
Export (hints) TradeStatus.
Abbreviation TradeStatus := TradeStatus.TradeStatus.

Module OrderEventType.
Inductive OrderEventType := PLACEMENT | UPDATE | CANCELLATION.
#[export] Instance OrderEventType_eq_dec : EqDecision OrderEventType.
Proof. solve_decision. Defined.
End OrderEventType.
Export (hints) OrderEventType.
Abbreviation OrderEventType := OrderEventType.OrderEventType.

Record UserOrderUpdate := mkUserOrderUpdate {
  uo_order_id : OrderId;
  uo_client_order_id : OrderId;
  uo_asset_id : AssetId;
  uo_market_id : AssetId;
  uo_event_type : OrderEventType;
  uo_side : Side;
  uo_price : Z;
  uo_original_size : Z;
  uo_size_matched : Z;
  uo_exchange_ts : Z;
  uo_size_matched_exceeds_original : bool }.

Record MakerOrderEntry := mkMakerOrderEntry { mo_order_id : OrderId; mo_matched_amount : Z }.
Definition kMaxMakerOrders : nat := 64.

Record UserTradeUpdate := mkUserTradeUpdate {
  ut_trade_id : TradeId;
  ut_taker_order_id : OrderId;
  ut_asset_id : AssetId;
  ut_market_id : AssetId;
  ut_status : TradeStatus;
  ut_side : Side;
  ut_fill_price : Z;
  ut_fill_size : Z;
  ut_match_ts : Z;
  ut_last_update_ts : Z;
  ut_maker_entries : list MakerOrderEntry }.

(** ** Scheduler events ([scheduler_events.h]) *)
Module EventSource.
Inductive EventSource := MARKET_WS | USER_WS | EXEC_INTERNAL | CONTROL.
#[export] Instance EventSource_eq_dec : EqDecision EventSource.
Proof. solve_decision. Defined.
End EventSource.
Export (hints) EventSource.
Abbreviation EventSource := EventSource.EventSource.

Definition source_priority (s : EventSource) : Z :=
  match s with
  | EventSource.USER_WS => 0
  | EventSource.EXEC_INTERNAL => 1
  | EventSource.MARKET_WS => 2
  | EventSource.CONTROL => 3
  end.

Module SchedulerEventKind.
Inductive SchedulerEventKind :=
  | MARKET_BOOK_SNAPSHOT | MARKET_PRICE_CHANGE | MARKET_BBO_UPDATE
  | MARKET_TICK_SIZE_CHANGE | MARKET_LAST_TRADE
  | USER_ORDER_UPDATE | USER_TRADE_UPDATE | USER_BALANCE_UPDATE
  | EXEC_ORDER_ACK | EXEC_ORDER_REJECT | EXEC_FILL
  | CONTROL_SHUTDOWN | CONTROL_PAUSE | CONTROL_RESUME | CONTROL_CONFIG_UPDATE
  | CONTROL_CANCEL_ALL | CONTROL_SET_MODE | CONTROL_SET_SPREAD | CONTROL_SET_SIZE
  | CONTROL_ENABLE_STRATEGY
  | CONTROL_INVENTORY_SPLIT | CONTROL_INVENTORY_MERGE | CONTROL_INVENTORY_REDEEM
  | MARKET_NEW_MARKET | MARKET_RESOLVED
  | SLOT_ACTIVATED | SLOT_CLOSING | SLOT_PROMOTED | SLOT_DEMOTED | SLOT_REMOVED
  | CONTROL_START_SESSION | CONTROL_STOP_SESSION
  | CONTROL_LATENCY_PROBE
  | CONTROL_MARKET_SELL_ALL | CONTROL_MARKET_SELL_DOWN.
#[export] Instance SchedulerEventKind_eq_dec : EqDecision SchedulerEventKind.
Proof. solve_decision. Defined.
End SchedulerEventKind.
Export (hints) SchedulerEventKind.
Abbreviation SchedulerEventKind := SchedulerEventKind.SchedulerEventKind.

Module ExecFeedbackKind.
Inductive ExecFeedbackKind :=
  | REQUEST_SENT | ORDER_ACCEPTED | ORDER_REJECTED | CANCEL_CONFIRMED | RATE_LIMITED
  | EXCHANGE_UNAVAILABLE | TIMEOUT | HEARTBEAT_OK | HEARTBEAT_FAILED
  | GATEWAY_DEGRADED | GATEWAY_RECOVERED.
#[export] Instance ExecFeedbackKind_eq_dec : EqDecision ExecFeedbackKind.
Proof. solve_decision. Defined.
End ExecFeedbackKind.
Export (hints) ExecFeedbackKind.
Abbreviation ExecFeedbackKind := ExecFeedbackKind.ExecFeedbackKind.

Module ExecutionMode.
Inductive ExecutionMode := DRY_RUN | LIVE.
#[export] Instance ExecutionMode_eq_dec : EqDecision ExecutionMode.
Proof. solve_decision. Defined.
End ExecutionMode.
Export (hints) ExecutionMode.
Abbreviation ExecutionMode := ExecutionMode.ExecutionMode.

Module SlotName.
Inductive SlotName := CURRENT_5M | NEXT_5M | PREVIOUS_5M | CURRENT_15M | NEXT_15M | PREVIOUS_15M.
#[export] Instance SlotName_eq_dec : EqDecision SlotName.
Proof. solve_decision. Defined.
End SlotName.
Export (hints) SlotName.
Abbreviation SlotName := SlotName.SlotName.

(** Enumerations carried as raw bytes ([order_status_raw], [control_mode],
    [slot_name], ...) are kept at their enumeration type: the source only ever
    stores casts of enumerators. *)
Record SchedulerEvent := mkSchedulerEvent {
  source : EventSource;
  kind : SchedulerEventKind;
  asset_id : AssetId;
  recv_ts : Z;
  seqno : Z;
  ev_bbo : BBO;
  exchange_ts : Z;
  market_tick_size : Z;
  intent_ref_id : Z;
  exec_accepted : bool;
  exec_feedback_kind : ExecFeedbackKind;
  exec_http_status : Z;
  order_id : OrderId;
  client_order_id : OrderId;
  trade_id : TradeId;
  order_status_raw : OrderStatus;
  trade_status_raw : TradeStatus;
  user_side : Side;
  user_market_id : AssetId;
  user_price : Z;
  user_original_size : Z;
  user_fill_size : Z;
  user_cumulative_filled : Z;
  is_new_fill : bool;
  control_mode : ExecutionMode;
  control_int_param : Z;
  control_bool_param : bool;
  control_condition_id : AssetId;
  control_token_id : AssetId;
  control_qty_param : Z;
  resolved_condition_id : AssetId;
  resolved_winning_asset_id : AssetId;
  slot_name : SlotName }.

Definition SchedulerEvent_default : SchedulerEvent :=
  mkSchedulerEvent EventSource.MARKET_WS SchedulerEventKind.MARKET_BOOK_SNAPSHOT ""%string 0 0
    BBO_default 0 0 0 false ExecFeedbackKind.REQUEST_SENT 0 ""%string ""%string ""%string
    OrderStatus.UNKNOWN TradeStatus.UNKNOWN BID ""%string 0 0 0 0 false
    ExecutionMode.DRY_RUN 0 false ""%string ""%string 0 ""%string ""%string SlotName.CURRENT_5M.
#[export] Instance SchedulerEvent_inhabited : Inhabited SchedulerEvent :=
  populate SchedulerEvent_default.

Definition from_market (n : MarketNotification) : SchedulerEvent :=
  let ev := SchedulerEvent_default
    <| source := EventSource.MARKET_WS |> <| kind := SchedulerEventKind.MARKET_LAST_TRADE |>
    <| asset_id := mn_asset_id n |> <| recv_ts := mn_recv_ts n |> <| seqno := mn_seq n |>
    <| ev_bbo := mn_bbo n |> <| exchange_ts := mn_exchange_ts n |>
    <| market_tick_size := mn_tick_size n |> in
  match mn_kind n with
  | NotificationKind.BOOK_SNAPSHOT => ev <| kind := SchedulerEventKind.MARKET_BOOK_SNAPSHOT |>
  | NotificationKind.PRICE_CHANGE => ev <| kind := SchedulerEventKind.MARKET_PRICE_CHANGE |>
  | NotificationKind.BBO_UPDATE => ev <| kind := SchedulerEventKind.MARKET_BBO_UPDATE |>
  | NotificationKind.TICK_SIZE_CHANGE => ev <| kind := SchedulerEventKind.MARKET_TICK_SIZE_CHANGE |>
  | NotificationKind.LAST_TRADE => ev <| kind := SchedulerEventKind.MARKET_LAST_TRADE |>
  | NotificationKind.NEW_MARKET => ev <| kind := SchedulerEventKind.MARKET_NEW_MARKET |>
  | NotificationKind.MARKET_RESOLVED =>
      ev <| kind := SchedulerEventKind.MARKET_RESOLVED |>
         <| resolved_condition_id := mn_asset_id n |>
         <| resolved_winning_asset_id := mn_resolved_winning_asset_id n |>
  end.

Definition from_order_update (upd : UserOrderUpdate) (ts sq : Z) : SchedulerEvent :=
  SchedulerEvent_default
    <| source := EventSource.USER_WS |> <| kind := SchedulerEventKind.USER_ORDER_UPDATE |>
    <| asset_id := uo_asset_id upd |> <| recv_ts := ts |> <| seqno := sq |>
    <| order_id := uo_order_id upd |> <| client_order_id := uo_client_order_id upd |>
    <| user_side := uo_side upd |> <| user_market_id := uo_market_id upd |>
    <| user_price := uo_price upd |> <| user_original_size := uo_original_size upd |>
    <| user_fill_size := uo_size_matched upd |>
    <| user_cumulative_filled := uo_size_matched upd |>.

Definition from_trade_update (upd : UserTradeUpdate) (ts sq : Z) (new_fill : bool) : SchedulerEvent :=
  SchedulerEvent_default
    <| source := EventSource.USER_WS |> <| kind := SchedulerEventKind.USER_TRADE_UPDATE |>
    <| asset_id := ut_asset_id upd |> <| recv_ts := ts |> <| seqno := sq |>
    <| trade_id := ut_trade_id upd |> <| order_id := ut_taker_order_id upd |>
    <| trade_status_raw := ut_status upd |> <| user_side := ut_side upd |>
    <| user_market_id := ut_market_id upd |> <| user_price := ut_fill_price upd |>
    <| user_fill_size := ut_fill_size upd |> <| is_new_fill := new_fill |>.

(** The control-event factories. *)
Definition make_control (k : SchedulerEventKind) : SchedulerEvent :=
  SchedulerEvent_default <| source := EventSource.CONTROL |> <| kind := k |>.
Definition make_cancel_all : SchedulerEvent := make_control SchedulerEventKind.CONTROL_CANCEL_ALL.
Definition make_set_mode (mode : ExecutionMode) : SchedulerEvent :=
  (make_control SchedulerEventKind.CONTROL_SET_MODE) <| control_mode := mode |>.
Definition make_set_spread (spread_ticks : Z) : SchedulerEvent :=
  (make_control SchedulerEventKind.CONTROL_SET_SPREAD) <| control_int_param := spread_ticks |>.
Definition make_set_size (sz : Z) : SchedulerEvent :=
  (make_control SchedulerEventKind.CONTROL_SET_SIZE) <| control_int_param := sz |>.
Definition make_inventory_split (cond : AssetId) (qty : Z) : SchedulerEvent :=
  (make_control SchedulerEventKind.CONTROL_INVENTORY_SPLIT)
    <| control_condition_id := cond |> <| control_qty_param := qty |>.
Definition make_inventory_merge (cond : AssetId) (qty : Z) : SchedulerEvent :=
  (make_control SchedulerEventKind.CONTROL_INVENTORY_MERGE)
    <| control_condition_id := cond |> <| control_qty_param := qty |>.
Definition make_inventory_redeem (cond tok : AssetId) (qty : Z) : SchedulerEvent :=
  (make_control SchedulerEventKind.CONTROL_INVENTORY_REDEEM)
    <| control_condition_id := cond |> <| control_token_id := tok |> <| control_qty_param := qty |>.
Definition make_latency_probe : SchedulerEvent := make_control SchedulerEventKind.CONTROL_LATENCY_PROBE.
Definition make_enable_strategy (enabled : bool) : SchedulerEvent :=
  (make_control SchedulerEventKind.CONTROL_ENABLE_STRATEGY) <| control_bool_param := enabled |>.
Definition make_start_session (end_time_s : Z) : SchedulerEvent :=
  (make_control SchedulerEventKind.CONTROL_START_SESSION) <| control_qty_param := end_time_s |>.
Definition make_stop_session : SchedulerEvent := make_control SchedulerEventKind.CONTROL_STOP_SESSION.
Definition make_market_sell_all : SchedulerEvent :=
  make_control SchedulerEventKind.CONTROL_MARKET_SELL_ALL.
Definition make_market_sell_down : SchedulerEvent :=
  make_control SchedulerEventKind.CONTROL_MARKET_SELL_DOWN.
Definition make_slot_event (k : SchedulerEventKind) (slot : SlotName) (cond : AssetId) : SchedulerEvent :=
  (make_control k) <| slot_name := slot |> <| control_condition_id := cond |>.
Definition make_slot_promoted (slot : SlotName) (cond : AssetId) (window_end_s : Z) : SchedulerEvent :=
  (make_slot_event SchedulerEventKind.SLOT_PROMOTED slot cond) <| control_qty_param := window_end_s |>.

(** ** Execution intents *)
Module IntentAction.
Inductive IntentAction :=
  | WOULD_PLACE_BID | WOULD_PLACE_ASK | WOULD_CANCEL_BID | WOULD_CANCEL_ASK | WOULD_CANCEL_ALL.
#[export] Instance IntentAction_eq_dec : EqDecision IntentAction.
Proof. solve_decision. Defined.
End IntentAction.
Export (hints) IntentAction.
Abbreviation IntentAction := IntentAction.IntentAction.

Record ExecutionIntent := mkExecutionIntent {
  ei_action : IntentAction;
  ei_asset_id : AssetId;
  ei_market_id : AssetId;
  ei_exchange_order_id : OrderId;
  ei_client_order_id : OrderId;
  ei_price : Z;
  ei_qty : Z;
  ei_created_ts : Z;
  ei_recv_ts : Z;
  ei_intent_id : Z;
  ei_neg_risk : bool;
  ei_fee_rate_bps : Z;
  ei_order_type : OrderType;
  ei_level : Z }.
Definition ExecutionIntent_default : ExecutionIntent :=
  mkExecutionIntent IntentAction.WOULD_PLACE_BID ""%string ""%string ""%string ""%string
    0 0 0 0 0 false 0 GTC 0.

(** [IntentBatch]: the first [count] of [kMaxIntents] slots. *)
Definition kMaxIntents : nat := 32.
Definition batch_add (batch : list ExecutionIntent) (i : ExecutionIntent) : list ExecutionIntent :=
  if (length batch <? kMaxIntents)%nat then batch ++ [i] else batch.

Inductive RiskDecision := ALLOW | DENY.
#[export] Instance RiskDecision_eq_dec : EqDecision RiskDecision.
Proof. solve_decision. Defined.

Module ExecIntentType.
Inductive ExecIntentType := PLACE_ORDER | CANCEL_ORDER | CANCEL_ALL | REPLACE_ORDER | HEARTBEAT.
#[export] Instance ExecIntentType_eq_dec : EqDecision ExecIntentType.
Proof. solve_decision. Defined.
End ExecIntentType.
Export (hints) ExecIntentType.
Abbreviation ExecIntentType := ExecIntentType.ExecIntentType.

Record ExecIntent := mkExecIntent {
  xi_type : ExecIntentType;
  xi_asset_id : AssetId;
  xi_market_id : AssetId;
  xi_client_order_id : OrderId;
  xi_exchange_order_id : OrderId;
  xi_side : Side;
  xi_price : Z;
  xi_size : Z;
  xi_order_type : OrderType;
  xi_intent_id : Z;
  xi_created_ts : Z;
  xi_recv_ts : Z;
  xi_neg_risk : bool;
  xi_fee_rate_bps : Z;
  xi_expiration : Z }.
Definition ExecIntent_default : ExecIntent :=
  mkExecIntent ExecIntentType.PLACE_ORDER ""%string ""%string ""%string ""%string BID 0 0 GTC
    0 0 0 false 0 0.

Definition is_cancel (a : IntentAction) : bool :=
  match a with IntentAction.WOULD_CANCEL_BID | IntentAction.WOULD_CANCEL_ASK => true | _ => false end.
Definition is_placement (a : IntentAction) : bool :=
  match a with IntentAction.WOULD_PLACE_BID | IntentAction.WOULD_PLACE_ASK => true | _ => false end.
