(* ===== verification/Json.v ===== *)
(** JSON documents as the parsers see them, and the exchange's responses:
    [src/rest/rest_response_parser.cpp].

    The text-to-document step is the third-party parser (simdjson): it is the
    class [JsonParser].  A document is its tree, object fields in order; looking
    a key up gives the first field of that name, a field of another type than
    asked for gives a type error.  The on-demand interface the message parsers
    use is taken to answer as the tree does.

    Fallible code that can also run into undefined behaviour (signed overflow in
    the number parsers) returns [option (Expected A)], with [None] for the
    latter; [x <-? m; k] sequences it. *)
From Stdlib Require Import Ascii.
From S2P Require Import Prelude Types Price.

(** ** Sequencing *)
Definition expect {A B} (m : option (Expected A)) (k : A -> option (Expected B)) : option (Expected B) :=
  match m with
  | None => None
  | Some (Err e) => Some (Err e)
  | Some (Value a) => k a
  end.
Notation "x <-? m ; k" := (expect m (fun x => k)) (at level 100, m at level 95, k at level 200, right associativity).
Definition ret {A} (a : A) : option (Expected A) := Some (Value a).
Definition fail {A} (e : ErrorCode) : option (Expected A) := Some (Err e).

Lemma expect_value {A B} (m : option (Expected A)) (k : A -> option (Expected B)) b :
  expect m k = Some (Value b) -> exists a, m = Some (Value a) /\ k a = Some (Value b).
Proof. destruct m as [[a|e]|]; simpl; try done. eauto. Qed.

(** Takes a successful sequence apart. *)
Ltac inv_expect :=
  repeat match goal with
  | H : expect _ _ = Some (Value _) |- _ => apply expect_value in H as (? & ? & H)
  | H : ret _ = Some (Value _) |- _ => unfold ret in H; injection H; clear H; intros; subst
  end.

(** ** Documents *)
Inductive Json :=
  | JNull
  | JBool (b : bool)
  | JInt (z : Z)
  | JDouble (literal : string)
  | JString (s : string)
  | JArray (l : list Json)
  | JObject (fields : list (string * Json)).

Class JsonParser := { parse_json : string -> option Json }.

Module SimdError.
Inductive SimdError := NO_SUCH_FIELD | INCORRECT_TYPE | NUMBER_OUT_OF_RANGE.
#[export] Instance SimdError_eq_dec : EqDecision SimdError.
Proof. solve_decision. Defined.
End SimdError.
Export (hints) SimdError.
Abbreviation SimdError := SimdError.SimdError.

Abbreviation Simd A := (A + SimdError)%type (only parsing).

Fixpoint assoc (key : string) (fields : list (string * Json)) : option Json :=
  match fields with
  | [] => None
  | (k, v) :: fields => if id_eqb k key then Some v else assoc key fields
  end.

(** [doc[key]] *)
Definition field (key : string) (j : Json) : Simd Json :=
  match j with
  | JObject fields => match assoc key fields with Some v => inl v | None => inr SimdError.NO_SUCH_FIELD end
  | _ => inr SimdError.INCORRECT_TYPE
  end.

Definition get_string (r : Simd Json) : Simd string :=
  match r with inl (JString s) => inl s | inl _ => inr SimdError.INCORRECT_TYPE | inr e => inr e end.
Definition get_bool (r : Simd Json) : Simd bool :=
  match r with inl (JBool b) => inl b | inl _ => inr SimdError.INCORRECT_TYPE | inr e => inr e end.
Definition get_int64 (r : Simd Json) : Simd Z :=
  match r with
  | inl (JInt z) => if fits_i64 z then inl z else inr SimdError.NUMBER_OUT_OF_RANGE
  | inl _ => inr SimdError.INCORRECT_TYPE
  | inr e => inr e
  end.
Definition get_array (r : Simd Json) : Simd (list Json) :=
  match r with inl (JArray l) => inl l | inl _ => inr SimdError.INCORRECT_TYPE | inr e => inr e end.
Definition get_object (r : Simd Json) : Simd (list (string * Json)) :=
  match r with inl (JObject l) => inl l | inl _ => inr SimdError.INCORRECT_TYPE | inr e => inr e end.

Definition is_success {A} (r : Simd A) : bool := match r with inl _ => true | inr _ => false end.
Definition or_default {A} (d : A) (r : Simd A) : A := match r with inl a => a | inr _ => d end.

(** The error code of a failed look-up. *)
Definition lookup_error (e : SimdError) : ErrorCode :=
  match e with SimdError.NO_SUCH_FIELD => ErrorCode.JSON_MISSING_FIELD | _ => ErrorCode.JSON_TYPE_ERROR end.

Definition get_required_string (obj : Json) (key : string) : Expected string :=
  match get_string (field key obj) with
  | inl s => Value s
  | inr e => Err (lookup_error e)
  end.

(** [std::from_chars] that may leave a rest: the longest run of digits after an
    optional minus sign (for signed types), in the type's range. *)
Fixpoint digit_prefix (l : list ascii) : list ascii :=
  match l with
  | c :: r => match digit_val c with Some _ => c :: digit_prefix r | None => [] end
  | [] => []
  end.
Definition from_chars_prefix (is_signed : bool) (fits : Z -> bool) (l : list ascii) : option Z :=
  let '(neg, ds) := match l with
                    | c :: r => if is_signed && bool_decide (c = "-"%char) then (true, r) else (false, l)
                    | [] => (false, l)
                    end in
  match digit_prefix ds with
  | [] => None
  | p => v ← digits_value 0 p;
         let v := if (neg : bool) then - v else v in
         if fits v then Some v else None
  end.
Definition fits_u16 (z : Z) : bool := (0 <=? z) && (z <=? 65535).

(** ** Responses of the exchange *)
Record OrderResponse := mkOrderResponse {
  or_success : bool;
  or_error_msg : string;
  or_order_id : string;
  or_status : string }.
Definition OrderResponse_default : OrderResponse := mkOrderResponse false "" "" "".

Record CancelResponse := mkCancelResponse {
  cr_canceled : list string;
  cr_not_canceled : list (string * string) }.

Section Responses.
Context `{JsonParser}.

Definition parse_order_response (body : string) : Expected OrderResponse :=
  match parse_json body with
  | None => Err ErrorCode.JSON_PARSE_ERROR
  | Some doc =>
      Value (mkOrderResponse
        (or_default false (get_bool (field "success" doc)))
        (or_default ""%string (get_string (field "errorMsg" doc)))
        (or_default ""%string (get_string (field "orderID" doc)))
        (or_default ""%string (get_string (field "status" doc))))
  end.

(** All elements as strings, or a type error. *)
Fixpoint all_strings (l : list Json) : option (list string) :=
  match l with
  | [] => Some []
  | JString s :: l => r ← all_strings l; Some (s :: r)
  | _ => None
  end.
Fixpoint all_string_fields (l : list (string * Json)) : option (list (string * string)) :=
  match l with
  | [] => Some []
  | (k, JString s) :: l => r ← all_string_fields l; Some ((k, s) :: r)
  | _ => None
  end.

(** The field [canceled]: its strings, and whether it is there. *)
Definition canceled_field (doc : Json) : Expected (list string * bool) :=
  match field "canceled" doc with
  | inl e => match get_array (inl e) with
             | inl l => match all_strings l with
                        | Some ids => Value (ids, true)
                        | None => Err ErrorCode.JSON_TYPE_ERROR
                        end
             | inr _ => Err ErrorCode.JSON_TYPE_ERROR
             end
  | inr SimdError.NO_SUCH_FIELD => Value ([], false)
  | inr _ => Err ErrorCode.JSON_TYPE_ERROR
  end.
Definition not_canceled_field (doc : Json) : Expected (list (string * string) * bool) :=
  match field "not_canceled" doc with
  | inl e => match get_object (inl e) with
             | inl l => match all_string_fields l with
                        | Some fs => Value (fs, true)
                        | None => Err ErrorCode.JSON_TYPE_ERROR
                        end
             | inr _ => Err ErrorCode.JSON_TYPE_ERROR
             end
  | inr SimdError.NO_SUCH_FIELD => Value ([], false)
  | inr _ => Err ErrorCode.JSON_TYPE_ERROR
  end.

Definition parse_cancel_response (body : string) : Expected CancelResponse :=
  match parse_json body with
  | None => Err ErrorCode.JSON_PARSE_ERROR
  | Some doc =>
      match canceled_field doc with
      | Err e => Err e
      | Value (ids, has_canceled_field) =>
          match not_canceled_field doc with
          | Err e => Err e
          | Value (fs, has_not_canceled_field) =>
              if negb has_canceled_field && negb has_not_canceled_field
              then Err ErrorCode.JSON_MISSING_FIELD
              else Value (mkCancelResponse ids fs)
          end
      end
  end.

Definition parse_heartbeat_response (body : string) : Expected string :=
  match parse_json body with
  | None => Err ErrorCode.JSON_PARSE_ERROR
  | Some doc => Value (or_default ""%string (get_string (field "heartbeat_id" doc)))
  end.

(** The diagnostic text of an element, [simdjson::minify], is the parser's. *)
Definition batch_item (minify : Json -> string) (elem : Json) : OrderResponse :=
  let str key := or_default ""%string (get_string (field key elem)) in
  let success := or_default false (get_bool (field "success" elem)) in
  let order_id := if nonempty (str "orderID") then str "orderID" else str "id" in
  let error := str "errorMsg" in
  mkOrderResponse success
    (if success && negb (nonempty order_id) && negb (nonempty error) then minify elem else error)
    order_id (str "status").

Definition parse_batch_order_response (minify : Json -> string) (body : string) : Expected (list OrderResponse) :=
  match parse_json body with
  | None => Err ErrorCode.JSON_PARSE_ERROR
  | Some doc =>
      match get_array (inl doc) with
      | inl l => Value (batch_item minify <$> l)
      | inr _ =>
          match get_array (field "orders" doc) with
          | inl l => Value (batch_item minify <$> l)
          | inr _ =>
              match get_string (field "error" doc) with
              | inl msg => Value [mkOrderResponse false msg "" ""]
              | inr _ => Err ErrorCode.JSON_TYPE_ERROR
              end
          end
      end
  end.
End Responses.
