(* ===== verification/MarketParser.v ===== *)
(** The parsers of the two message streams: [src/parser/market_message_parser.cpp]
    and [src/parser/user_message_parser.cpp], on documents ([Json.v]).

    Fixed-size arrays with a counter are lists; a parser that would overrun the
    array reports [OUT_OF_RANGE] or drops the rest, as the source does. *)
From Stdlib Require Import Ascii.
From S2P Require Import Prelude Types Price OrderBook Events Json.

(** ** Fields *)
Definition parse_price_text (sv : string) : option (Expected Z) := parse_price (txt sv).
Definition parse_qty_text (sv : string) : option (Expected Z) := parse_qty (txt sv).

Definition parse_required_price_field (obj : Json) (key : string) : option (Expected Z) :=
  sv <-? Some (get_required_string obj key); parse_price_text sv.
Definition parse_required_qty_field (obj : Json) (key : string) : option (Expected Z) :=
  sv <-? Some (get_required_string obj key); parse_qty_text sv.
Definition parse_required_side_field (obj : Json) (key : string) : option (Expected Side) :=
  sv <-? Some (get_required_string obj key); Some (parse_side sv).

(** A price that may be missing. *)
Definition parse_optional_price_field (obj : Json) (key : string) (default : Z) : option (Expected Z) :=
  match get_string (field key obj) with
  | inl sv => parse_price_text sv
  | inr _ => ret default
  end.

(** A string that may be missing. *)
Definition optional_string (obj : Json) (key : string) : string :=
  or_default ""%string (get_string (field key obj)).

(** The market stream's time stamps are strings. *)
Definition parse_optional_timestamp (obj : Json) : Z :=
  match get_string (field "timestamp" obj) with
  | inl ts => default 0 (from_chars_prefix true fits_i64 (txt ts))
  | inr _ => 0
  end.

Definition kMaxBookLevels : nat := 1024.
Definition kMaxAssetChanges : nat := 32.
Definition kMaxChanges : nat := 512.
Definition kMaxHashLen : nat := 79.
Definition kMaxOutcomeLen : nat := 31.

(** ** Market messages *)

(** One of the loops over [bids] and [asks]; [count] levels are stored already. *)
Fixpoint parse_levels (count : nat) (l : list Json) : option (Expected (list PriceLevel)) :=
  match l with
  | [] => ret []
  | elem :: l =>
      if (kMaxBookLevels <=? count)%nat then fail ErrorCode.OUT_OF_RANGE else
      match get_object (inl elem) with
      | inr _ => fail ErrorCode.JSON_TYPE_ERROR
      | inl _ =>
          price <-? parse_required_price_field elem "price";
          size <-? parse_required_qty_field elem "size";
          rest <-? parse_levels (S count) l;
          ret (mkPriceLevel price size :: rest)
      end
  end.

Definition required_array (doc : Json) (key : string) : Expected (list Json) :=
  match get_array (field key doc) with
  | inl l => Value l
  | inr e => Err (lookup_error e)
  end.

Definition parse_book (doc : Json) : option (Expected MarketEventPayload) :=
  aid <-? Some (get_required_string doc "asset_id");
  bids_arr <-? Some (required_array doc "bids");
  bids <-? parse_levels 0 bids_arr;
  asks_arr <-? Some (required_array doc "asks");
  asks <-? parse_levels 0 asks_arr;
  ret (EvBookSnapshot (mkBookSnapshot (mk_AssetId aid) (mk_AssetId (optional_string doc "market")) bids asks
         (parse_optional_timestamp doc)
         (String.substring 0 kMaxHashLen (optional_string doc "hash")))).

Definition parse_change (obj : Json) : option (Expected PriceChange) :=
  price <-? parse_required_price_field obj "price";
  side <-? parse_required_side_field obj "side";
  size <-? parse_required_qty_field obj "size";
  ret (mkPriceChange price side size).

Fixpoint parse_changes (count : nat) (l : list Json) : option (Expected (list PriceChange)) :=
  match l with
  | [] => ret []
  | ch :: l =>
      if (kMaxChanges <=? count)%nat then fail ErrorCode.OUT_OF_RANGE else
      match get_object (inl ch) with
      | inr _ => fail ErrorCode.JSON_TYPE_ERROR
      | inl _ =>
          c <-? parse_change ch;
          rest <-? parse_changes (S count) l;
          ret (c :: rest)
      end
  end.

(** One asset: the flat form when there is a price, else the nested array. *)
Definition parse_asset_change (pc_obj : Json) : option (Expected AssetPriceChange) :=
  aid <-? Some (get_required_string pc_obj "asset_id");
  best_bid <-? parse_optional_price_field pc_obj "best_bid" kInvalidPrice;
  best_ask <-? parse_optional_price_field pc_obj "best_ask" kInvalidPrice;
  changes <-? match get_string (field "price" pc_obj) with
              | inl _ => c <-? parse_change pc_obj; ret [c]
              | inr _ =>
                  match get_array (field "changes" pc_obj) with
                  | inl l => parse_changes 0 l
                  | inr SimdError.NO_SUCH_FIELD => ret []
                  | inr _ => fail ErrorCode.JSON_TYPE_ERROR
                  end
              end;
  ret (mkAssetPriceChange (mk_AssetId aid) best_bid best_ask changes).

Fixpoint parse_asset_changes (count : nat) (l : list Json) : option (Expected (list AssetPriceChange)) :=
  match l with
  | [] => ret []
  | elem :: l =>
      if (kMaxAssetChanges <=? count)%nat then fail ErrorCode.OUT_OF_RANGE else
      match get_object (inl elem) with
      | inr _ => fail ErrorCode.JSON_TYPE_ERROR
      | inl _ =>
          ac <-? parse_asset_change elem;
          rest <-? parse_asset_changes (S count) l;
          ret (ac :: rest)
      end
  end.

Definition parse_price_change (doc : Json) : option (Expected MarketEventPayload) :=
  arr <-? Some (required_array doc "price_changes");
  acs <-? parse_asset_changes 0 arr;
  match acs with
  | [] => fail ErrorCode.JSON_MISSING_FIELD
  | _ => ret (EvPriceChange (mkPriceChangeEvent acs (parse_optional_timestamp doc)))
  end.

Definition parse_best_bid_ask (doc : Json) : option (Expected MarketEventPayload) :=
  aid <-? Some (get_required_string doc "asset_id");
  best_bid <-? parse_required_price_field doc "best_bid";
  best_ask <-? parse_required_price_field doc "best_ask";
  spread <-? parse_optional_price_field doc "spread" 0;
  ret (EvBestBidAsk (mkBestBidAskEvent (mk_AssetId aid) best_bid best_ask spread (parse_optional_timestamp doc))).

Definition parse_tick_size_change (doc : Json) : option (Expected MarketEventPayload) :=
  aid <-? Some (get_required_string doc "asset_id");
  old <-? parse_optional_price_field doc "old_tick_size" 0;
  new <-? parse_required_price_field doc "new_tick_size";
  if new <=? 0 then fail ErrorCode.OUT_OF_RANGE
  else ret (EvTickSizeChange (mkTickSizeChangeEvent (mk_AssetId aid) old new (parse_optional_timestamp doc))).

Definition parse_fee_rate (doc : Json) : Z :=
  match get_string (field "fee_rate_bps" doc) with
  | inl sv => default 0 (from_chars_prefix false fits_u16 (txt sv))
  | inr _ => 0
  end.

Definition parse_last_trade_price (doc : Json) : option (Expected MarketEventPayload) :=
  aid <-? Some (get_required_string doc "asset_id");
  price <-? parse_required_price_field doc "price";
  size <-? parse_required_qty_field doc "size";
  side <-? parse_required_side_field doc "side";
  ret (EvLastTradePrice (mkLastTradePriceEvent (mk_AssetId aid) (mk_AssetId (optional_string doc "market"))
         price size side (parse_fee_rate doc) (parse_optional_timestamp doc))).

(** At most two strings of an array; other elements are skipped. *)
Fixpoint two_strings (count : nat) (l : list Json) : list string :=
  match l with
  | [] => []
  | elem :: l =>
      if (2 <=? count)%nat then [] else
      match get_string (inl elem) with
      | inl s => s :: two_strings (S count) l
      | inr _ => two_strings count l
      end
  end.
Definition string_pair (doc : Json) (key : string) : list string :=
  match get_array (field key doc) with inl l => two_strings 0 l | inr _ => [] end.

Definition parse_new_market (doc : Json) : option (Expected MarketEventPayload) :=
  market <-? Some (get_required_string doc "market");
  ret (EvNewMarket (mkNewMarketEvent (mk_AssetId market) (mk_AssetId <$> string_pair doc "assets_ids")
         (String.substring 0 kMaxOutcomeLen <$> string_pair doc "outcomes") (parse_optional_timestamp doc))).

Definition parse_market_resolved (doc : Json) : option (Expected MarketEventPayload) :=
  market <-? Some (get_required_string doc "market");
  ret (EvMarketResolved (mkMarketResolvedEvent (mk_AssetId market)
         (mk_AssetId (optional_string doc "winning_asset_id")) (mk_AssetId <$> string_pair doc "assets_ids")
         (String.substring 0 kMaxOutcomeLen (optional_string doc "winning_outcome"))
         (parse_optional_timestamp doc))).

(** Without an event type the shape decides. *)
Definition parse_by_shape (doc : Json) (et_err : ErrorCode) : option (Expected MarketEventPayload) :=
  let arr key := is_success (get_array (field key doc)) in
  let str key := is_success (get_string (field key doc)) in
  if arr "price_changes" then parse_price_change doc
  else if arr "bids" && arr "asks" then parse_book doc
  else if str "best_bid" && str "best_ask" then parse_best_bid_ask doc
  else if str "price" && str "size" && str "side" then parse_last_trade_price doc
  else fail et_err.

Definition parse_market_doc (doc : Json) : option (Expected MarketEventPayload) :=
  match get_required_string doc "event_type" with
  | Err e => parse_by_shape doc e
  | Value t =>
      if id_eqb t "book" then parse_book doc
      else if id_eqb t "price_change" then parse_price_change doc
      else if id_eqb t "best_bid_ask" then parse_best_bid_ask doc
      else if id_eqb t "tick_size_change" then parse_tick_size_change doc
      else if id_eqb t "last_trade_price" then parse_last_trade_price doc
      else if id_eqb t "new_market" then parse_new_market doc
      else if id_eqb t "market_resolved" then parse_market_resolved doc
      else fail ErrorCode.UNKNOWN_EVENT_TYPE
  end.

Definition market_parse `{JsonParser} (payload : string) (recv_ts seq : Z) : option (Expected MarketEvent) :=
  if negb (nonempty payload) then fail ErrorCode.EMPTY_INPUT else
  if id_eqb payload "PONG" then fail ErrorCode.PONG_MESSAGE else
  match parse_json payload with
  | None => fail ErrorCode.JSON_PARSE_ERROR
  | Some doc => p <-? parse_market_doc doc; ret (mkMarketEvent p recv_ts seq)
  end.

(** ** User messages *)
Inductive UserEvent := UserOrder (u : UserOrderUpdate) | UserTrade (u : UserTradeUpdate).

(** The envelope: the payload or the error, the text of a server error or of an
    unknown event type, and the number of truncated fields (a byte). *)
Record UserMessage := mkUserMessage {
  um_result : Expected UserEvent;
  um_server_error_msg : string;
  um_truncated_fields : Z }.

Definition kMaxServerErrorLen : nat := 239.

(** The user stream's time stamps are strings or integers; [out] is kept when
    neither is there. *)
Definition parse_user_timestamp (obj : Json) (key : string) (out : Z) : Z :=
  match get_string (field key obj) with
  | inl ts => default out (from_chars_prefix true fits_i64 (txt ts))
  | inr _ => or_default out (get_int64 (field key obj))
  end.

Definition parse_trade_status (sv : string) : Expected TradeStatus :=
  if id_eqb sv "MATCHED" then Value TradeStatus.MATCHED
  else if id_eqb sv "MINED" then Value TradeStatus.MINED
  else if id_eqb sv "CONFIRMED" then Value TradeStatus.CONFIRMED
  else if id_eqb sv "RETRYING" then Value TradeStatus.RETRYING
  else if id_eqb sv "FAILED" then Value TradeStatus.FAILED
  else Err ErrorCode.USER_UNKNOWN_STATUS.

Definition parse_order_type (sv : string) : Expected OrderEventType :=
  if id_eqb sv "PLACEMENT" then Value OrderEventType.PLACEMENT
  else if id_eqb sv "UPDATE" then Value OrderEventType.UPDATE
  else if id_eqb sv "CANCELLATION" then Value OrderEventType.CANCELLATION
  else Err ErrorCode.USER_UNKNOWN_EVENT_TYPE.

Definition truncated (max : nat) (sv : string) : Z := if (max <=? String.length sv)%nat then 1 else 0.

(** The fields that are counted when truncated, up to the point where the
    parser stops. *)
Definition truncated_ids (max_id : nat) (doc : Json) : Z :=
  match get_required_string doc "id" with
  | Err _ => 0
  | Value id =>
      truncated max_id id +
      match get_required_string doc "asset_id" with
      | Err _ => 0
      | Value aid => truncated kMaxAssetIdLen aid
      end
  end.

Definition parse_order (doc : Json) : option (Expected UserOrderUpdate) :=
  id <-? Some (get_required_string doc "id");
  aid <-? Some (get_required_string doc "asset_id");
  type_sv <-? Some (get_required_string doc "type");
  event_type <-? Some (parse_order_type type_sv);
  side <-? parse_required_side_field doc "side";
  price <-? parse_required_price_field doc "price";
  original_size <-? parse_required_qty_field doc "original_size";
  size_matched <-? parse_required_qty_field doc "size_matched";
  ret (mkUserOrderUpdate (mk_OrderId id) (mk_OrderId (optional_string doc "client_order_id")) (mk_AssetId aid)
         (mk_AssetId (optional_string doc "market")) event_type side price original_size size_matched
         (parse_user_timestamp doc "timestamp" 0)
         ((size_matched >? original_size) && (original_size >? 0))).

(** The loop over the maker orders: malformed elements are skipped, and the rest
    is dropped when the array is full (with one truncation counted). *)
Fixpoint parse_makers (count : nat) (l : list Json) : option (list MakerOrderEntry * Z) :=
  match l with
  | [] => Some ([], 0)
  | elem :: l =>
      if (kMaxMakerOrders <=? count)%nat then Some ([], 1) else
      match get_object (inl elem), get_required_string elem "order_id", get_required_string elem "matched_amount" with
      | inl _, Value id, Value amt =>
          match parse_qty_text amt with
          | None => None
          | Some (Err _) => parse_makers count l
          | Some (Value q) => '(es, n) ← parse_makers (S count) l; Some (mkMakerOrderEntry (mk_OrderId id) q :: es, n)
          end
      | _, _, _ => parse_makers count l
      end
  end.

(** The trade and the truncations among its maker orders. *)
Definition parse_trade (doc : Json) : option (Expected (UserTradeUpdate * Z)) :=
  id <-? Some (get_required_string doc "id");
  aid <-? Some (get_required_string doc "asset_id");
  status_sv <-? Some (get_required_string doc "status");
  status <-? Some (parse_trade_status status_sv);
  side <-? parse_required_side_field doc "side";
  price <-? parse_required_price_field doc "price";
  size <-? parse_required_qty_field doc "size";
  taker <-? Some (get_required_string doc "taker_order_id");
  let match_ts := parse_user_timestamp doc "matchtime" 0 in
  let last_update_ts := parse_user_timestamp doc "last_update" 0 in
  let match_ts := if match_ts =? 0 then parse_user_timestamp doc "timestamp" match_ts else match_ts in
  makers ← match get_array (field "maker_orders" doc) with inl l => parse_makers 0 l | inr _ => Some ([], 0) end;
  ret (mkUserTradeUpdate (mk_TradeId id) (mk_OrderId taker) (mk_AssetId aid) (mk_AssetId (optional_string doc "market"))
         status side price size match_ts last_update_ts makers.1, makers.2).

Definition user_error (e : ErrorCode) (msg : string) : option UserMessage :=
  Some (mkUserMessage (Err e) (String.substring 0 kMaxServerErrorLen msg) 0).

Definition parse_user_doc (doc : Json) : option UserMessage :=
  match get_required_string doc "event_type" with
  | Err e =>
      match get_required_string doc "error" with
      | Value msg => user_error ErrorCode.USER_WS_SERVER_ERROR msg
      | Err _ => user_error e ""
      end
  | Value t =>
      if id_eqb t "order" then
        r ← parse_order doc;
        Some (mkUserMessage (match r with Value u => Value (UserOrder u) | Err e => Err e end) ""
                (truncated_ids kMaxOrderIdLen doc))
      else if id_eqb t "trade" then
        r ← parse_trade doc;
        Some (mkUserMessage (match r with Value (u, _) => Value (UserTrade u) | Err e => Err e end) ""
                (truncated_ids kMaxTradeIdLen doc + match r with Value (_, n) => n | Err _ => 0 end))
      else user_error ErrorCode.UNKNOWN_EVENT_TYPE t
  end.

Definition user_parse `{JsonParser} (payload : string) : option UserMessage :=
  if negb (nonempty payload) then user_error ErrorCode.EMPTY_INPUT "" else
  if id_eqb payload "PONG" then user_error ErrorCode.PONG_MESSAGE "" else
  match parse_json payload with
  | None => user_error ErrorCode.JSON_PARSE_ERROR ""
  | Some doc => parse_user_doc doc
  end.

(** ** Types of what is parsed

    What the fixed-size structures promise: every array fits, every identifier
    fits its buffer, every price is on the ladder, every integer its type. *)
Definition on_ladder (p : Z) : Prop := kPriceMin <= p <= kPriceMax.
Definition id_fits (max : nat) (id : string) : Prop := (String.length id < max)%nat.

Definition level_wf (l : PriceLevel) : Prop := on_ladder (pl_price l) /\ fits_i64 (pl_size l) = true.
Definition change_wf (c : PriceChange) : Prop := on_ladder (pc_price c) /\ fits_i64 (pc_size c) = true.

Record asset_change_wf (ac : AssetPriceChange) : Prop := {
  acw_id : id_fits kMaxAssetIdLen (apc_asset_id ac);
  acw_bid : apc_best_bid ac = kInvalidPrice \/ on_ladder (apc_best_bid ac);
  acw_ask : apc_best_ask ac = kInvalidPrice \/ on_ladder (apc_best_ask ac);
  acw_count : (length (apc_changes ac) <= kMaxChanges)%nat;
  acw_changes : Forall change_wf (apc_changes ac) }.

Definition payload_wf (p : MarketEventPayload) : Prop :=
  match p with
  | EvBookSnapshot s =>
      id_fits kMaxAssetIdLen (snap_asset_id s) /\ id_fits kMaxAssetIdLen (snap_market_id s) /\
      (length (snap_bids s) <= kMaxBookLevels)%nat /\ (length (snap_asks s) <= kMaxBookLevels)%nat /\
      Forall level_wf (snap_bids s) /\ Forall level_wf (snap_asks s) /\
      (String.length (snap_hash s) <= kMaxHashLen)%nat /\ fits_i64 (snap_exchange_ts s) = true
  | EvPriceChange e =>
      (0 < length (pce_asset_changes e) <= kMaxAssetChanges)%nat /\
      Forall asset_change_wf (pce_asset_changes e) /\ fits_i64 (pce_exchange_ts e) = true
  | EvBestBidAsk e =>
      id_fits kMaxAssetIdLen (bba_asset_id e) /\ on_ladder (bba_best_bid e) /\ on_ladder (bba_best_ask e) /\
      on_ladder (bba_spread e) /\ fits_i64 (bba_exchange_ts e) = true
  | EvTickSizeChange e =>
      id_fits kMaxAssetIdLen (tsc_asset_id e) /\ on_ladder (tsc_old_tick_size e) /\
      0 < tsc_new_tick_size e <= kPriceMax /\ fits_i64 (tsc_exchange_ts e) = true
  | EvLastTradePrice e =>
      id_fits kMaxAssetIdLen (ltp_asset_id e) /\ id_fits kMaxAssetIdLen (ltp_market_id e) /\
      on_ladder (ltp_price e) /\ fits_i64 (ltp_size e) = true /\ fits_u16 (ltp_fee_rate_bps e) = true /\
      fits_i64 (ltp_exchange_ts e) = true
  | EvNewMarket e =>
      id_fits kMaxAssetIdLen (nm_market_id e) /\ (length (nm_assets e) <= 2)%nat /\
      Forall (id_fits kMaxAssetIdLen) (nm_assets e) /\ (length (nm_outcomes e) <= 2)%nat /\
      Forall (fun o => (String.length o <= kMaxOutcomeLen)%nat) (nm_outcomes e) /\
      fits_i64 (nm_exchange_ts e) = true
  | EvMarketResolved e =>
      id_fits kMaxAssetIdLen (mr_market_id e) /\ id_fits kMaxAssetIdLen (mr_winning_asset_id e) /\
      (length (mr_assets e) <= 2)%nat /\ Forall (id_fits kMaxAssetIdLen) (mr_assets e) /\
      (String.length (mr_winning_outcome e) <= kMaxOutcomeLen)%nat /\ fits_i64 (mr_exchange_ts e) = true
  end.

Lemma length_substring n s : (String.length (String.substring 0 n s) <= n)%nat.
Proof. revert s. induction n as [|n IH]; intros [|c s]; simpl; try lia. specialize (IH s). lia. Qed.

Lemma mk_AssetId_fits s : id_fits kMaxAssetIdLen (mk_AssetId s).
Proof. unfold id_fits, mk_AssetId. pose proof (length_substring (kMaxAssetIdLen - 1) s). unfold kMaxAssetIdLen in *. lia. Qed.
Lemma mk_OrderId_fits s : id_fits kMaxOrderIdLen (mk_OrderId s).
Proof. unfold id_fits, mk_OrderId. pose proof (length_substring (kMaxOrderIdLen - 1) s). unfold kMaxOrderIdLen in *. lia. Qed.
Lemma mk_TradeId_fits s : id_fits kMaxTradeIdLen (mk_TradeId s).
Proof. unfold id_fits, mk_TradeId. pose proof (length_substring (kMaxTradeIdLen - 1) s). unfold kMaxTradeIdLen in *. lia. Qed.
#[export] Hint Resolve mk_AssetId_fits mk_OrderId_fits mk_TradeId_fits length_substring : trading.

Lemma from_chars_prefix_fits sg fits l v : from_chars_prefix sg fits l = Some v -> fits v = true.
Proof.
  unfold from_chars_prefix. destruct (match l with [] => _ | _ => _ end) as [neg ds].
  destruct (digit_prefix ds); [done|]. destruct (digits_value 0 _); simpl; [|done].
  case_match eqn:E; [|done]. by intros [= <-].
Qed.

Lemma parse_optional_timestamp_fits doc : fits_i64 (parse_optional_timestamp doc) = true.
Proof.
  unfold parse_optional_timestamp. destruct (get_string _); [|done].
  destruct (from_chars_prefix _ _ _) eqn:E; [by apply from_chars_prefix_fits in E|done].
Qed.
Lemma parse_fee_rate_fits doc : fits_u16 (parse_fee_rate doc) = true.
Proof.
  unfold parse_fee_rate. destruct (get_string _); [|done].
  destruct (from_chars_prefix _ _ _) eqn:E; [by apply from_chars_prefix_fits in E|done].
Qed.
#[export] Hint Resolve parse_optional_timestamp_fits parse_fee_rate_fits : trading.

Lemma parse_qty_fits l q : parse_qty l = Some (Value q) -> fits_i64 q = true.
Proof.
  assert (forall i f, parse_qty_finish i f = Some (Value q) -> fits_i64 q = true) as Hfin.
  { intros i f. unfold parse_qty_finish, chk_i64.
    destruct (_ <? _); [done|]. destruct (_ >? _); [done|].
    destruct (fits_i64 _) eqn:E; simpl; [by intros [= <-]|done]. }
  unfold parse_qty. destruct l as [|c l]; [done|].
  destruct (match find_dot _ with Some _ => _ | None => _ end) as [i fr].
  destruct (match i with [] => _ | _ => _ end); [|done]. destruct fr as [fr|]; [|by apply Hfin].
  destruct (parse_qty_frac fr) as [[f|]|]; simpl; [apply Hfin|done|done].
Qed.

Lemma required_price_wf obj key p : parse_required_price_field obj key = Some (Value p) -> on_ladder p.
Proof. unfold parse_required_price_field. intros. inv_expect. by eapply parse_price_in_ladder. Qed.
Lemma required_qty_wf obj key q : parse_required_qty_field obj key = Some (Value q) -> fits_i64 q = true.
Proof. unfold parse_required_qty_field. intros. inv_expect. by eapply parse_qty_fits. Qed.
Lemma optional_price_wf obj key d p :
  parse_optional_price_field obj key d = Some (Value p) -> p = d \/ on_ladder p.
Proof.
  unfold parse_optional_price_field. destruct (get_string _); [|intros [= ->]; by left].
  intros ?. right. by eapply parse_price_in_ladder.
Qed.
Lemma zero_on_ladder : on_ladder 0.
Proof. unfold on_ladder, kPriceMin, kPriceMax. lia. Qed.
Lemma optional_price_zero_wf obj key p : parse_optional_price_field obj key 0 = Some (Value p) -> on_ladder p.
Proof. intros [->|?]%optional_price_wf; [apply zero_on_ladder|done]. Qed.
#[export] Hint Resolve required_price_wf required_qty_wf optional_price_wf optional_price_zero_wf : trading.

(** Every parser loop stays below its capacity. *)
Lemma parse_levels_wf c l ls :
  (c <= kMaxBookLevels)%nat -> parse_levels c l = Some (Value ls) ->
  (c + length ls <= kMaxBookLevels)%nat /\ Forall level_wf ls.
Proof.
  revert c ls. induction l as [|e l IH]; intros c ls Hc; cbn [parse_levels].
  - intros [= <-]. simpl. split; [lia|constructor].
  - destruct (Nat.leb_spec kMaxBookLevels c); [done|]. destruct (get_object _); [|done].
    intros ?; inv_expect.
    edestruct (IH (S c)) as [Hl Hf]; [lia|eassumption|]. simpl. split; [lia|].
    constructor; [split; eauto with trading|done].
Qed.

Lemma parse_change_wf obj c : parse_change obj = Some (Value c) -> change_wf c.
Proof. unfold parse_change. intros. inv_expect. split; eauto with trading. Qed.

Lemma parse_changes_wf c l ls :
  (c <= kMaxChanges)%nat -> parse_changes c l = Some (Value ls) ->
  (c + length ls <= kMaxChanges)%nat /\ Forall change_wf ls.
Proof.
  revert c ls. induction l as [|e l IH]; intros c ls Hc; cbn [parse_changes].
  - intros [= <-]. simpl. split; [lia|constructor].
  - destruct (Nat.leb_spec kMaxChanges c); [done|]. destruct (get_object _); [|done].
    intros ?; inv_expect.
    edestruct (IH (S c)) as [Hl Hf]; [lia|eassumption|]. simpl. split; [lia|].
    constructor; [by eapply parse_change_wf|done].
Qed.

Lemma parse_asset_change_wf obj ac : parse_asset_change obj = Some (Value ac) -> asset_change_wf ac.
Proof.
  unfold parse_asset_change. intros. inv_expect.
  match goal with Hc : _ = Some (Value ?cs) |- context [mkAssetPriceChange _ _ _ ?cs] =>
    assert ((length cs <= kMaxChanges)%nat /\ Forall change_wf cs) as [Hl Hf]; [revert Hc|] end.
  { destruct (get_string _); intros Hc.
    - inv_expect. split; [unfold kMaxChanges; simpl; lia|].
      constructor; [by eapply parse_change_wf|done].
    - destruct (get_array _) as [l|[]]; try done.
      + apply parse_changes_wf in Hc; [done|lia].
      + injection Hc as <-. split; [simpl; lia|constructor]. }
  split; simpl; eauto with trading.
Qed.

Lemma parse_asset_changes_wf c l ls :
  (c <= kMaxAssetChanges)%nat -> parse_asset_changes c l = Some (Value ls) ->
  (c + length ls <= kMaxAssetChanges)%nat /\ Forall asset_change_wf ls.
Proof.
  revert c ls. induction l as [|e l IH]; intros c ls Hc; cbn [parse_asset_changes].
  - intros [= <-]. simpl. split; [lia|constructor].
  - destruct (Nat.leb_spec kMaxAssetChanges c); [done|]. destruct (get_object _); [|done].
    intros ?; inv_expect.
    edestruct (IH (S c)) as [Hl Hf]; [lia|eassumption|]. simpl. split; [lia|].
    constructor; [by eapply parse_asset_change_wf|done].
Qed.

Lemma two_strings_length c l : (c <= 2)%nat -> (c + length (two_strings c l) <= 2)%nat.
Proof.
  revert c. induction l as [|e l IH]; intros c Hc; cbn [two_strings]; [simpl; lia|].
  destruct (Nat.leb_spec 2 c); [simpl; lia|]. destruct (get_string _); [|by apply IH].
  specialize (IH (S c)). simpl. lia.
Qed.
Lemma string_pair_length doc key : (length (string_pair doc key) <= 2)%nat.
Proof.
  unfold string_pair. destruct (get_array _); [|simpl; lia].
  pose proof (two_strings_length 0 l). lia.
Qed.

Lemma parse_book_wf doc p : parse_book doc = Some (Value p) -> payload_wf p.
Proof.
  unfold parse_book. intros. inv_expect.
  repeat match goal with Hl : parse_levels _ _ = _ |- _ => apply parse_levels_wf in Hl as [? ?]; [|lia] end.
  simpl. eauto 10 with trading.
Qed.
Lemma parse_price_change_wf doc p : parse_price_change doc = Some (Value p) -> payload_wf p.
Proof.
  unfold parse_price_change. intros. inv_expect.
  match goal with Ha : parse_asset_changes _ _ = _ |- _ => apply parse_asset_changes_wf in Ha as [Hl Hf]; [|lia] end.
  match goal with Hm : match ?acs with _ => _ end = _ |- _ => destruct acs; [done|] end. inv_expect.
  cbn [payload_wf pce_asset_changes pce_exchange_ts]. simpl in Hl. simpl. split; [lia|]. eauto with trading.
Qed.
Lemma parse_best_bid_ask_wf doc p : parse_best_bid_ask doc = Some (Value p) -> payload_wf p.
Proof. unfold parse_best_bid_ask. intros. inv_expect. simpl. eauto 8 with trading. Qed.
Lemma parse_tick_size_change_wf doc p : parse_tick_size_change doc = Some (Value p) -> payload_wf p.
Proof.
  unfold parse_tick_size_change. intros. inv_expect. 
  match goal with Hp : parse_required_price_field _ _ = _ |- _ => apply required_price_wf in Hp as ? end.
  match goal with Hm : (if ?b then _ else _) = _ |- _ => destruct b eqn:?; [done|] end. inv_expect. bool_to_prop.
  unfold on_ladder in *. simpl.
  split; [|split; [|split; [lia|]]]; eauto with trading.
Qed.
Lemma parse_last_trade_price_wf doc p : parse_last_trade_price doc = Some (Value p) -> payload_wf p.
Proof. unfold parse_last_trade_price. intros. inv_expect. simpl. eauto 10 with trading. Qed.
Lemma parse_new_market_wf doc p : parse_new_market doc = Some (Value p) -> payload_wf p.
Proof.
  unfold parse_new_market. intros. inv_expect. simpl. rewrite !length_fmap.
  repeat split; eauto using string_pair_length with trading; apply Forall_fmap, Forall_true; simpl; eauto with trading.
Qed.
Lemma parse_market_resolved_wf doc p : parse_market_resolved doc = Some (Value p) -> payload_wf p.
Proof.
  unfold parse_market_resolved. intros. inv_expect. simpl. rewrite !length_fmap.
  repeat split; eauto using string_pair_length with trading; apply Forall_fmap, Forall_true; simpl; eauto with trading.
Qed.

Lemma parse_market_doc_wf doc p : parse_market_doc doc = Some (Value p) -> payload_wf p.
Proof.
  unfold parse_market_doc, parse_by_shape.
  branches; eauto using parse_book_wf, parse_price_change_wf, parse_best_bid_ask_wf,
    parse_tick_size_change_wf, parse_last_trade_price_wf, parse_new_market_wf, parse_market_resolved_wf.
Qed.

(** C17: every event the market parser delivers fits the fixed-size structures of
    the code (1024 levels a side, 32 assets of 512 changes, two outcomes,
    identifiers within their buffers), with its prices on the ladder, its
    integers within their types and a positive tick size. *)
Theorem parsed_market_event_wf `{JsonParser} (payload : string) (recv seq : Z) (ev : MarketEvent)
    (Hp : market_parse payload recv seq = Some (Value ev)) :
  payload_wf (me_payload ev) /\ me_recv_ts ev = recv /\ me_seq ev = seq.
Proof.
  unfold market_parse in Hp. destruct (negb _); [done|]. destruct (id_eqb _ _); [done|].
  destruct (parse_json payload); [|done]. inv_expect. simpl.
  split; [by eapply parse_market_doc_wf|done].
Qed.

(** ** User messages *)
Definition user_event_wf (e : UserEvent) : Prop :=
  match e with
  | UserOrder u =>
      id_fits kMaxOrderIdLen (uo_order_id u) /\ id_fits kMaxOrderIdLen (uo_client_order_id u) /\
      id_fits kMaxAssetIdLen (uo_asset_id u) /\ id_fits kMaxAssetIdLen (uo_market_id u) /\
      on_ladder (uo_price u) /\ fits_i64 (uo_original_size u) = true /\ fits_i64 (uo_size_matched u) = true /\
      fits_i64 (uo_exchange_ts u) = true /\
      (uo_size_matched_exceeds_original u = true <-> 0 < uo_original_size u < uo_size_matched u)
  | UserTrade u =>
      id_fits kMaxTradeIdLen (ut_trade_id u) /\ id_fits kMaxOrderIdLen (ut_taker_order_id u) /\
      id_fits kMaxAssetIdLen (ut_asset_id u) /\ id_fits kMaxAssetIdLen (ut_market_id u) /\
      ut_status u <> TradeStatus.UNKNOWN /\
      on_ladder (ut_fill_price u) /\ fits_i64 (ut_fill_size u) = true /\
      fits_i64 (ut_match_ts u) = true /\ fits_i64 (ut_last_update_ts u) = true /\
      (length (ut_maker_entries u) <= kMaxMakerOrders)%nat /\
      Forall (fun m => id_fits kMaxOrderIdLen (mo_order_id m) /\ fits_i64 (mo_matched_amount m) = true)
        (ut_maker_entries u)
  end.

Definition user_message_wf (m : UserMessage) : Prop :=
  (String.length (um_server_error_msg m) <= kMaxServerErrorLen)%nat /\
  0 <= um_truncated_fields m <= 3 /\
  match um_result m with Value e => user_event_wf e | Err _ => True end.

Lemma parse_user_timestamp_fits doc key out :
  fits_i64 out = true -> fits_i64 (parse_user_timestamp doc key out) = true.
Proof.
  intros Ho. unfold parse_user_timestamp. destruct (get_string _).
  - destruct (from_chars_prefix _ _ _) eqn:E; [by apply from_chars_prefix_fits in E|done].
  - destruct (get_int64 _) as [z|] eqn:E; [|done]. simpl. revert E. unfold get_int64. branches; by intros [= <-].
Qed.

Lemma truncated_bounds max s : 0 <= truncated max s <= 1.
Proof. unfold truncated. case_match; lia. Qed.
Lemma truncated_ids_bounds max doc : 0 <= truncated_ids max doc <= 2.
Proof.
  unfold truncated_ids. destruct (get_required_string doc "id") as [s|]; [|lia].
  pose proof (truncated_bounds max s). destruct (get_required_string doc "asset_id") as [s'|]; [|lia].
  pose proof (truncated_bounds kMaxAssetIdLen s'). lia.
Qed.

Lemma parse_makers_wf c l es n :
  (c <= kMaxMakerOrders)%nat -> parse_makers c l = Some (es, n) ->
  (c + length es <= kMaxMakerOrders)%nat /\ 0 <= n <= 1 /\
  Forall (fun m => id_fits kMaxOrderIdLen (mo_order_id m) /\ fits_i64 (mo_matched_amount m) = true) es.
Proof.
  revert c es n. induction l as [|e l IH]; intros c es n Hc; cbn [parse_makers].
  - intros [= <- <-]. simpl. repeat split; try lia. constructor.
  - destruct (Nat.leb_spec kMaxMakerOrders c).
    { intros [= <- <-]. simpl. repeat split; try lia. constructor. }
    destruct (get_object _); [|by apply IH]. destruct (get_required_string _ _); [|by apply IH].
    destruct (get_required_string e _); [|by apply IH].
    destruct (parse_qty_text _) as [[q|]|] eqn:Eq; [|by apply IH|done].
    destruct (parse_makers (S c) l) as [[es' n']|] eqn:Em; simpl; [|done]. intros [= <- <-].
    apply IH in Em as (? & ? & ?); [|lia]. simpl. split; [lia|]. split; [lia|].
    constructor; [|done]. simpl. split; [apply mk_OrderId_fits|by eapply parse_qty_fits].
Qed.

Lemma parse_order_wf doc u : parse_order doc = Some (Value u) -> user_event_wf (UserOrder u).
Proof.
  unfold parse_order. intros. inv_expect. simpl.
  split_and!; eauto 2 with trading; [by apply parse_user_timestamp_fits|].
  rewrite andb_true_iff, !Z.gtb_lt. lia.
Qed.

Lemma parse_trade_status_known sv s : parse_trade_status sv = Value s -> s <> TradeStatus.UNKNOWN.
Proof. unfold parse_trade_status. branches; by intros [= <-]. Qed.

Lemma parse_trade_wf doc u n :
  parse_trade doc = Some (Value (u, n)) -> user_event_wf (UserTrade u) /\ 0 <= n <= 1.
Proof.
  unfold parse_trade. intros. inv_expect.
  destruct (match get_array _ with inl _ => _ | inr _ => _ end) as [[es k]|] eqn:Em; [|done].
  simpl in *. inv_expect.
  assert ((length es <= kMaxMakerOrders)%nat /\ 0 <= n <= 1 /\
    Forall (fun m => id_fits kMaxOrderIdLen (mo_order_id m) /\ fits_i64 (mo_matched_amount m) = true) es) as (? & ? & ?).
  { destruct (get_array _); [by apply parse_makers_wf in Em; [|lia]|].
    injection Em as <- <-. repeat split; simpl; try lia. constructor. }
  split; [|done]. simpl. split_and!; eauto 2 with trading.
  - match goal with Hs : Some (parse_trade_status _) = _ |- _ => injection Hs as Hs end.
    by eapply parse_trade_status_known.
  - destruct (_ =? 0); [apply parse_user_timestamp_fits|]; by apply parse_user_timestamp_fits.
  - by apply parse_user_timestamp_fits.
Qed.

Lemma user_error_wf e msg m : user_error e msg = Some m -> user_message_wf m.
Proof. intros [= <-]. split; [apply length_substring|]. simpl. split; [lia|done]. Qed.

Lemma parse_user_doc_wf doc m : parse_user_doc doc = Some m -> user_message_wf m.
Proof.
  unfold parse_user_doc. destruct (get_required_string doc "event_type") as [t|e].
  2: { destruct (get_required_string doc "error"); apply user_error_wf. }
  destruct (id_eqb t "order").
  { destruct (parse_order doc) as [r|] eqn:E; simpl; [|done]. intros [= <-].
    pose proof (truncated_ids_bounds kMaxOrderIdLen doc).
    split; [simpl; lia|]. simpl. split; [lia|]. destruct r; [by apply (parse_order_wf doc)|done]. }
  destruct (id_eqb t "trade"); [|apply user_error_wf].
  destruct (parse_trade doc) as [r|] eqn:E; simpl; [|done]. intros [= <-].
  pose proof (truncated_ids_bounds kMaxTradeIdLen doc).
  split; [simpl; lia|]. simpl. destruct r as [[u n]|]; [|split; [lia|done]].
  apply parse_trade_wf in E as [Hw Hn]. split; [lia|done].
Qed.

(** Every user message the parser delivers fits its structures: identifiers
    within their buffers, at most 64 maker entries, prices on the ladder,
    integers within their types, a trade status the parser knows; the truncation
    counter stays within its byte, and an error message within its buffer. *)
Theorem parsed_user_message_wf `{JsonParser} (payload : string) (m : UserMessage)
    (Hp : user_parse payload = Some m) : user_message_wf m.
Proof.
  unfold user_parse in Hp.
  destruct (negb _); [by eapply user_error_wf|]. destruct (id_eqb _ _); [by eapply user_error_wf|].
  destruct (parse_json payload); [by eapply parse_user_doc_wf|by eapply user_error_wf].
Qed.

(** ** Witnesses *)

(** A parser of one document. *)
Definition constant_parser (doc : Json) : JsonParser := {| parse_json _ := Some doc |}.
Definition sample_quote_doc : Json :=
  JObject [("event_type"%string, JString "best_bid_ask"); ("asset_id"%string, JString "up");
           ("best_bid"%string, JString "0.52"); ("best_ask"%string, JString "0.5301")].
Definition sample_order_doc : Json :=
  JObject [("event_type"%string, JString "order"); ("id"%string, JString "0xa1"); ("asset_id"%string, JString "up");
           ("type"%string, JString "UPDATE"); ("side"%string, JString "SELL"); ("price"%string, JString "0.4");
           ("original_size"%string, JString "10"); ("size_matched"%string, JString "12.5"); ("timestamp"%string, JInt 17)].

Lemma parsed_market_event_wf_witness :
  let ev := mkMarketEvent (EvBestBidAsk (mkBestBidAskEvent "up" 5200 5301 0 0)) 7 8 in
  market_parse (H := constant_parser sample_quote_doc) "{...}" 7 8 = Some (Value ev) /\ payload_wf (me_payload ev).
Proof.
  intros ev. assert (market_parse (H := constant_parser sample_quote_doc) "{...}" 7 8 = Some (Value ev)) as Hp
    by (vm_compute; reflexivity).
  split; [exact Hp|]. apply (parsed_market_event_wf (H := constant_parser sample_quote_doc) _ _ _ _ Hp).
Defined.

Lemma parsed_user_message_wf_witness :
  let m := mkUserMessage (Value (UserOrder (mkUserOrderUpdate "0xa1" "" "up" "" OrderEventType.UPDATE ASK 4000 10000000
                                              12500000 17 true))) "" 0 in
  user_parse (H := constant_parser sample_order_doc) "{...}" = Some m /\ user_message_wf m.
Proof.
  intros m. assert (user_parse (H := constant_parser sample_order_doc) "{...}" = Some m) as Hp by (vm_compute; reflexivity).
  split; [exact Hp|]. apply (parsed_user_message_wf (H := constant_parser sample_order_doc) _ _ Hp).
Defined.
