(* ===== verification/MessageRoundtrip.v ===== *)
(** Messages written in the exchange's format are read back as they were: the
    parsers of [MarketParser.v] against a reference encoder.

    [encode_market] and [encode_user] write the documents the exchange sends
    (prices and quantities as decimal text, absent optional fields left out); the
    round trips show that no field is lost, swapped or scaled wrongly, for every
    value the structures can hold. *)
From Stdlib Require Import Ascii.
From S2P Require Import Prelude Types Price OrderBook Events Json MarketParser.

(** ** The reference encoder *)
Definition str_of (l : list ascii) : string := String.string_of_list_ascii l.
Definition price_json (p : Z) : Json := JString (str_of (format_price p)).
Definition qty_json (q : Z) : Json := JString (str_of (format_qty q)).
Definition num_json (n : Z) : Json := JString (str_of (to_string n)).
Definition side_json (s : Side) : Json := JString (match s with BID => "BUY" | ASK => "SELL" end).

Definition encode_level (l : PriceLevel) : Json :=
  JObject [("price"%string, price_json (pl_price l)); ("size"%string, qty_json (pl_size l))].
Definition change_fields (c : PriceChange) : list (string * Json) :=
  [("price"%string, price_json (pc_price c)); ("side"%string, side_json (pc_side c)); ("size"%string, qty_json (pc_size c))].
Definition encode_change (c : PriceChange) : Json := JObject (change_fields c).

(** A price that is left out when it is not there. *)
Definition optional_price (key : string) (p : Z) : list (string * Json) :=
  if p =? kInvalidPrice then [] else [(key, price_json p)].

(** The flat form for a single change, the nested one otherwise. *)
Definition encode_asset_change (ac : AssetPriceChange) : Json :=
  JObject (("asset_id"%string, JString (apc_asset_id ac)) ::
           optional_price "best_bid" (apc_best_bid ac) ++ optional_price "best_ask" (apc_best_ask ac) ++
           match apc_changes ac with
           | [c] => change_fields c
           | cs => [("changes"%string, JArray (encode_change <$> cs))]
           end).

Definition event (t : string) (fields : list (string * Json)) : Json :=
  JObject (("event_type"%string, JString t) :: fields).

Definition encode_market (p : MarketEventPayload) : Json :=
  match p with
  | EvBookSnapshot s =>
      event "book" [("asset_id"%string, JString (snap_asset_id s)); ("market"%string, JString (snap_market_id s));
        ("bids"%string, JArray (encode_level <$> snap_bids s)); ("asks"%string, JArray (encode_level <$> snap_asks s));
        ("timestamp"%string, num_json (snap_exchange_ts s)); ("hash"%string, JString (snap_hash s))]
  | EvPriceChange e =>
      event "price_change" [("price_changes"%string, JArray (encode_asset_change <$> pce_asset_changes e));
        ("timestamp"%string, num_json (pce_exchange_ts e))]
  | EvBestBidAsk e =>
      event "best_bid_ask" [("asset_id"%string, JString (bba_asset_id e)); ("best_bid"%string, price_json (bba_best_bid e));
        ("best_ask"%string, price_json (bba_best_ask e)); ("spread"%string, price_json (bba_spread e));
        ("timestamp"%string, num_json (bba_exchange_ts e))]
  | EvTickSizeChange e =>
      event "tick_size_change" [("asset_id"%string, JString (tsc_asset_id e));
        ("old_tick_size"%string, price_json (tsc_old_tick_size e)); ("new_tick_size"%string, price_json (tsc_new_tick_size e));
        ("timestamp"%string, num_json (tsc_exchange_ts e))]
  | EvLastTradePrice e =>
      event "last_trade_price" [("asset_id"%string, JString (ltp_asset_id e)); ("market"%string, JString (ltp_market_id e));
        ("price"%string, price_json (ltp_price e)); ("size"%string, qty_json (ltp_size e)); ("side"%string, side_json (ltp_side e));
        ("fee_rate_bps"%string, num_json (ltp_fee_rate_bps e)); ("timestamp"%string, num_json (ltp_exchange_ts e))]
  | EvNewMarket e =>
      event "new_market" [("market"%string, JString (nm_market_id e)); ("assets_ids"%string, JArray (JString <$> nm_assets e));
        ("outcomes"%string, JArray (JString <$> nm_outcomes e)); ("timestamp"%string, num_json (nm_exchange_ts e))]
  | EvMarketResolved e =>
      event "market_resolved" [("market"%string, JString (mr_market_id e));
        ("assets_ids"%string, JArray (JString <$> mr_assets e)); ("winning_asset_id"%string, JString (mr_winning_asset_id e));
        ("winning_outcome"%string, JString (mr_winning_outcome e)); ("timestamp"%string, num_json (mr_exchange_ts e))]
  end.

(** What the decimal text can carry besides well-formedness: sizes and time
    stamps that are not negative. *)
Definition payload_printable (p : MarketEventPayload) : Prop :=
  match p with
  | EvBookSnapshot s =>
      Forall (fun l => 0 <= pl_size l) (snap_bids s ++ snap_asks s) /\ 0 <= snap_exchange_ts s
  | EvPriceChange e =>
      Forall (fun ac => Forall (fun c => 0 <= pc_size c) (apc_changes ac)) (pce_asset_changes e) /\ 0 <= pce_exchange_ts e
  | EvBestBidAsk e => 0 <= bba_exchange_ts e
  | EvTickSizeChange e => 0 <= tsc_exchange_ts e
  | EvLastTradePrice e => 0 <= ltp_size e /\ 0 <= ltp_exchange_ts e
  | EvNewMarket e => 0 <= nm_exchange_ts e
  | EvMarketResolved e => 0 <= mr_exchange_ts e
  end.

(** ** Fields *)
Lemma field_here key v fs : field key (JObject ((key, v) :: fs)) = inl v.
Proof. simpl. by rewrite id_eqb_refl. Qed.
Lemma field_next key k v fs :
  id_eqb k key = false -> field key (JObject ((k, v) :: fs)) = field key (JObject fs).
Proof. intros Hk. simpl. by rewrite Hk. Qed.
Lemma field_skip key fs1 fs2 :
  Forall (fun f => f.1 <> key) fs1 -> field key (JObject (fs1 ++ fs2)) = field key (JObject fs2).
Proof.
  induction 1 as [|[k v] fs Hk _ IH]; [done|]. rewrite <- IH. cbn [app].
  apply field_next. by apply id_eqb_false.
Qed.
Create Rewrite HintDb json.
Hint Rewrite field_here : json.
Hint Rewrite field_next using reflexivity : json.

Lemma txt_str_of l : txt (str_of l) = l.
Proof. apply String.list_ascii_of_string_of_list_ascii. Qed.

Lemma substring_all n s : (String.length s <= n)%nat -> String.substring 0 n s = s.
Proof.
  revert s. induction n as [|n IH]; intros [|c s] Hl; simpl in *; try done; [lia|].
  rewrite IH by lia. done.
Qed.
Lemma mk_AssetId_id s : id_fits kMaxAssetIdLen s -> mk_AssetId s = s.
Proof. intros Hf. apply substring_all. unfold id_fits, kMaxAssetIdLen in *. lia. Qed.
Lemma mk_OrderId_id s : id_fits kMaxOrderIdLen s -> mk_OrderId s = s.
Proof. intros Hf. apply substring_all. unfold id_fits, kMaxOrderIdLen in *. lia. Qed.
Lemma mk_TradeId_id s : id_fits kMaxTradeIdLen s -> mk_TradeId s = s.
Proof. intros Hf. apply substring_all. unfold id_fits, kMaxTradeIdLen in *. lia. Qed.

Lemma digit_prefix_digits l : Forall is_digit l -> digit_prefix l = l.
Proof.
  induction 1 as [|c l (d & Hd & ->) _ IH]; [done|]. simpl. by rewrite digit_val_char, IH.
Qed.

Lemma from_chars_prefix_to_string sg fits n :
  0 <= n <= INT64_MAX -> fits n = true -> from_chars_prefix sg fits (to_string n) = Some n.
Proof.
  intros Hn Hf. unfold from_chars_prefix.
  pose proof (to_string_digits n) as Hd. pose proof (to_string_nonempty n) as Hne.
  assert (digits_value 0 (to_string n) = Some n) as Hv.
  { apply dec_digits_value; [unfold INT64_MAX in Hn; lia|lia]. }
  destruct (to_string n) as [|c l] eqn:E; [done|].
  assert (c <> "-"%char) as Hc by (by apply Forall_cons in Hd as [[? _]%digit_not_special _]).
  rewrite bool_decide_eq_false_2, andb_false_r by done.
  rewrite digit_prefix_digits by done. rewrite Hv. simpl. by rewrite Hf.
Qed.

Lemma fits_i64_iff z : fits_i64 z = true <-> INT64_MIN <= z <= INT64_MAX.
Proof. unfold fits_i64. rewrite andb_true_iff, !Z.leb_le. done. Qed.

Lemma price_text p : on_ladder p -> parse_price_text (str_of (format_price p)) = Some (Value p).
Proof. intros. unfold parse_price_text. rewrite txt_str_of. by apply price_text_roundtrip. Qed.
Lemma qty_text q :
  0 <= q -> fits_i64 q = true -> parse_qty_text (str_of (format_qty q)) = Some (Value q).
Proof.
  intros ? ?%fits_i64_iff. unfold parse_qty_text. rewrite txt_str_of. apply qty_text_roundtrip. lia.
Qed.
Lemma side_text s : parse_side (match s with BID => "BUY" | ASK => "SELL" end) = Value s.
Proof. by destruct s. Qed.
Lemma timestamp_text n :
  0 <= n -> fits_i64 n = true -> from_chars_prefix true fits_i64 (txt (str_of (to_string n))) = Some n.
Proof.
  intros ? Hf. rewrite txt_str_of. apply from_chars_prefix_to_string; [|done].
  apply fits_i64_iff in Hf. lia.
Qed.
Lemma fee_text n :
  fits_u16 n = true -> from_chars_prefix false fits_u16 (txt (str_of (to_string n))) = Some n.
Proof.
  intros Hf. rewrite txt_str_of. apply from_chars_prefix_to_string; [|done].
  unfold fits_u16 in Hf. bool_to_prop. unfold INT64_MAX. lia.
Qed.

(** Reads the fields of a concrete object. *)
Ltac read_fields :=
  unfold parse_required_price_field, parse_required_qty_field, parse_required_side_field,
    parse_optional_price_field, get_required_string, optional_string, required_array, string_pair,
    parse_optional_timestamp, parse_fee_rate, price_json, qty_json, side_json, num_json;
  autorewrite with json; cbn [get_string get_array get_object or_default expect].

(** ** Market messages *)
Lemma parse_levels_encode c ls :
  (c + length ls <= kMaxBookLevels)%nat -> Forall level_wf ls -> Forall (fun l => 0 <= pl_size l) ls ->
  parse_levels c (encode_level <$> ls) = Some (Value ls).
Proof.
  revert c. induction ls as [|[p q] ls IH]; intros c Hc Hw Hs; [done|].
  apply Forall_cons in Hw as [[Hp Hq] Hw]. apply Forall_cons in Hs as [Hq0 Hs]. simpl in Hc, Hp, Hq, Hq0.
  cbn [fmap list_fmap parse_levels]. rewrite (proj2 (Nat.leb_gt _ _)) by lia.
  unfold encode_level at 1 2 3. read_fields. cbn [pl_price pl_size] in *.
  rewrite price_text by done. cbn [expect]. rewrite qty_text by done. cbn [expect].
  rewrite IH by (done || lia). done.
Qed.

Lemma parse_change_fields c fs1 fs2 :
  change_wf c -> 0 <= pc_size c ->
  Forall (fun f => f.1 <> "price"%string /\ f.1 <> "side"%string /\ f.1 <> "size"%string) fs1 ->
  parse_change (JObject (fs1 ++ change_fields c ++ fs2)) = Some (Value c).
Proof.
  destruct c as [p s q]. intros [Hp Hq] Hq0 Hf. simpl in *. unfold parse_change.
  unfold parse_required_price_field, parse_required_qty_field, parse_required_side_field, get_required_string.
  rewrite !field_skip by (eapply Forall_impl; [exact Hf|]; naive_solver).
  unfold change_fields. cbn [app]. read_fields. cbn [pc_price pc_side pc_size].
  rewrite price_text by done. cbn [expect]. rewrite side_text. cbn [expect]. rewrite qty_text by done. done.
Qed.

Lemma parse_changes_encode c cs :
  (c + length cs <= kMaxChanges)%nat -> Forall change_wf cs -> Forall (fun c => 0 <= pc_size c) cs ->
  parse_changes c (encode_change <$> cs) = Some (Value cs).
Proof.
  revert c. induction cs as [|ch cs IH]; intros c Hc Hw Hs; [done|].
  apply Forall_cons in Hw as [Hch Hw]. apply Forall_cons in Hs as [Hq0 Hs]. simpl in Hc.
  cbn [fmap list_fmap parse_changes]. rewrite (proj2 (Nat.leb_gt _ _)) by lia.
  unfold encode_change at 1. cbn [get_object].
  pose proof (parse_change_fields ch [] [] Hch Hq0) as Hp. rewrite app_nil_r in Hp. cbn [app] in Hp.
  unfold encode_change at 1. rewrite Hp by constructor. cbn [expect]. rewrite IH by (done || lia). done.
Qed.

Lemma optional_price_keys key p : Forall (fun f => f.1 = key) (optional_price key p).
Proof. unfold optional_price. case_match; repeat constructor. Qed.

Lemma optional_price_read key p fs d :
  p = d \/ on_ladder p -> d = kInvalidPrice -> is_success (get_string (field key (JObject fs))) = false ->
  parse_optional_price_field (JObject (optional_price key p ++ fs)) key d = Some (Value p).
Proof.
  intros Hp -> Hf. unfold optional_price. destruct (Z.eqb_spec p kInvalidPrice) as [->|Hn].
  - unfold parse_optional_price_field. cbn [app]. by destruct (get_string _).
  - cbn [app]. read_fields. apply price_text. by destruct Hp.
Qed.

(** The optional prices of an asset change, whatever follows them. *)
Lemma optional_prices_read ac rest :
  asset_change_wf ac -> Forall (fun f => f.1 <> "best_bid"%string /\ f.1 <> "best_ask"%string) rest ->
  let obj := JObject (("asset_id"%string, JString (apc_asset_id ac)) ::
               optional_price "best_bid" (apc_best_bid ac) ++ optional_price "best_ask" (apc_best_ask ac) ++ rest) in
  parse_optional_price_field obj "best_bid" kInvalidPrice = Some (Value (apc_best_bid ac)) /\
  parse_optional_price_field obj "best_ask" kInvalidPrice = Some (Value (apc_best_ask ac)).
Proof.
  intros [_ Hb Ha _ _] Hr obj.
  assert (forall key fs, Forall (fun f => f.1 <> key) fs -> is_success (get_string (field key (JObject fs))) = false) as Hno.
  { intros key fs Hf. by rewrite <- (app_nil_r fs), field_skip. }
  pose proof (optional_price_keys "best_bid" (apc_best_bid ac)) as Hkb.
  pose proof (optional_price_keys "best_ask" (apc_best_ask ac)) as Hka.
  assert (forall key fs d, key <> "asset_id"%string ->
    parse_optional_price_field (JObject (("asset_id"%string, JString (apc_asset_id ac)) :: fs)) key d
    = parse_optional_price_field (JObject fs) key d) as Hskip.
  { intros key fs d Hk. unfold parse_optional_price_field. rewrite field_next; [done|]. apply id_eqb_false. congruence. }
  subst obj. rewrite !Hskip by done. split.
  - apply optional_price_read; [done|done|]. apply Hno, Forall_app. split.
    + eapply Forall_impl; [exact Hka|]. intros f ->. done.
    + eapply Forall_impl; [exact Hr|]. naive_solver.
  - unfold parse_optional_price_field at 1. rewrite field_skip.
    2: { eapply Forall_impl; [exact Hkb|]. intros f ->. done. }
    apply optional_price_read; [done|done|]. apply Hno. eapply Forall_impl; [exact Hr|]. naive_solver.
Qed.

Lemma parse_asset_change_encode ac :
  asset_change_wf ac -> Forall (fun c => 0 <= pc_size c) (apc_changes ac) ->
  parse_asset_change (encode_asset_change ac) = Some (Value ac).
Proof.
  intros Hw Hs. unfold parse_asset_change, encode_asset_change.
  unfold get_required_string. rewrite field_here. cbn [get_string expect].
  pose proof (optional_price_keys "best_bid" (apc_best_bid ac)) as Hkb.
  pose proof (optional_price_keys "best_ask" (apc_best_ask ac)) as Hka.
  set (opts := ("asset_id"%string, JString (apc_asset_id ac)) ::
         optional_price "best_bid" (apc_best_bid ac) ++ optional_price "best_ask" (apc_best_ask ac)).
  assert (forall key, key <> "asset_id"%string -> key <> "best_bid"%string -> key <> "best_ask"%string ->
    Forall (fun f => f.1 <> key) opts) as Hopts.
  { intros key ???. constructor; [simpl; congruence|]. apply Forall_app.
    split; [eapply Forall_impl; [exact Hkb|]|eapply Forall_impl; [exact Hka|]]; intros f ->; congruence. }
  assert (forall rest, ("asset_id"%string, JString (apc_asset_id ac)) ::
     optional_price "best_bid" (apc_best_bid ac) ++ optional_price "best_ask" (apc_best_ask ac) ++ rest = opts ++ rest) as Happ.
  { intros rest. unfold opts. cbn [app]. by rewrite app_assoc. }
  assert (Forall (fun f => f.1 <> "best_bid"%string /\ f.1 <> "best_ask"%string)
    match apc_changes ac with
    | [c] => change_fields c
    | cs => [("changes"%string, JArray (encode_change <$> cs))]
    end) as Hrest.
  { destruct (apc_changes ac) as [|c [|]]; repeat constructor; done. }
  destruct (optional_prices_read ac _ Hw Hrest) as [-> ->]. cbn [expect]. rewrite Happ.
  destruct Hw as [Hid _ _ Hlen Hch]. rewrite mk_AssetId_id by done.
  assert (forall cs, apc_changes ac = cs ->
    mkAssetPriceChange (apc_asset_id ac) (apc_best_bid ac) (apc_best_ask ac) cs = ac) as Heta.
  { intros cs <-. by destruct ac. }
  assert (forall cs, apc_changes ac = cs ->
    parse_changes 0 (encode_change <$> cs) = Some (Value cs)) as Hnested.
  { intros cs <-. by apply parse_changes_encode. }
  rewrite (field_skip "price") by (by apply Hopts). rewrite (field_skip "changes") by (by apply Hopts).
  destruct (apc_changes ac) as [|c [|c' cs]] eqn:E.
  - autorewrite with json. cbn. by rewrite Heta.
  - unfold change_fields at 1. autorewrite with json. cbn [get_string price_json].
    apply Forall_cons in Hch as [? _]. apply Forall_cons in Hs as [? _].
    rewrite <- (app_nil_r (change_fields c)), parse_change_fields;
      [|done|done|apply Forall_and; split; [by apply Hopts|apply Forall_and; split; by apply Hopts]].
    cbn [expect ret]. by rewrite Heta.
  - autorewrite with json. cbn [get_string get_array field assoc].
    rewrite Hnested by done. cbn [expect]. by rewrite Heta.
Qed.

Lemma parse_asset_changes_encode c acs :
  (c + length acs <= kMaxAssetChanges)%nat -> Forall asset_change_wf acs ->
  Forall (fun ac => Forall (fun c => 0 <= pc_size c) (apc_changes ac)) acs ->
  parse_asset_changes c (encode_asset_change <$> acs) = Some (Value acs).
Proof.
  revert c. induction acs as [|ac acs IH]; intros c Hc Hw Hs; [done|].
  apply Forall_cons in Hw as [Hac Hw]. apply Forall_cons in Hs as [Hq0 Hs]. simpl in Hc.
  cbn [fmap list_fmap parse_asset_changes]. rewrite (proj2 (Nat.leb_gt _ _)) by lia.
  unfold encode_asset_change at 1. cbn [get_object].
  rewrite parse_asset_change_encode by done. cbn [expect]. rewrite IH by (done || lia). done.
Qed.

Lemma two_strings_encode ss c : (c + length ss <= 2)%nat -> two_strings c (JString <$> ss) = ss.
Proof.
  revert c. induction ss as [|s ss IH]; intros c Hc; [done|]. simpl in Hc.
  cbn [fmap list_fmap two_strings]. rewrite (proj2 (Nat.leb_gt _ _)) by lia.
  cbn [get_string]. by rewrite IH by lia.
Qed.

Lemma fmap_id_Forall {A} (f : A -> A) (P : A -> Prop) l :
  (forall a, P a -> f a = a) -> Forall P l -> f <$> l = l.
Proof. intros Hf. induction 1 as [|a l Ha _ IH]; [done|]. rewrite fmap_cons, IH, Hf by done. done. Qed.

(** Selects the branch of a concrete event type. *)
Ltac select_kind :=
  unfold get_required_string at 1; rewrite field_here; cbn [get_string];
  repeat match goal with |- context [id_eqb ?a ?b] =>
    let r := eval vm_compute in (id_eqb a b) in change (id_eqb a b) with r end;
  cbv iota.

(** Closes a reading of simple fields. *)
Ltac read_all :=
  rewrite ?mk_AssetId_id, ?mk_OrderId_id, ?mk_TradeId_id by done;
  repeat (rewrite ?price_text, ?qty_text, ?side_text, ?timestamp_text, ?fee_text by done; cbn [expect default from_option]).

(** C13: the market parser reads back every message of the seven kinds as it was
    written: for every well-formed event with non-negative sizes and time stamps,
    parsing its document gives exactly that event. *)
Theorem market_roundtrip (p : MarketEventPayload) (Hw : payload_wf p) (Hs : payload_printable p) :
  parse_market_doc (encode_market p) = Some (Value p).
Proof.
  destruct p as [[]|[]|[]|[]|[]|[]|[]]; simpl in Hw, Hs; destruct_and?;
    unfold parse_market_doc, encode_market, event; cbn; select_kind.
  - match goal with Hf : Forall _ (_ ++ _) |- _ => apply Forall_app in Hf as [? ?] end.
    unfold parse_book. read_fields. rewrite !parse_levels_encode by done. read_all.
    by rewrite substring_all.
  - unfold parse_price_change. read_fields. rewrite parse_asset_changes_encode by (done || lia). cbn [expect].
    destruct pce_asset_changes; [simpl in *; lia|]. by read_all.
  - unfold parse_best_bid_ask. read_fields. by read_all.
  - unfold parse_tick_size_change. read_fields. read_all.
    rewrite price_text by (unfold on_ladder, kPriceMin; lia). cbn [expect].
    rewrite (proj2 (Z.leb_gt _ _)) by lia. by read_all.
  - unfold parse_last_trade_price. read_fields. by read_all.
  - unfold parse_new_market. read_fields. rewrite !two_strings_encode by done. read_all.
    rewrite (fmap_id_Forall _ _ _ mk_AssetId_id) by done.
    by rewrite (fmap_id_Forall _ _ _ (fun a => substring_all _ a)).
  - unfold parse_market_resolved. read_fields. rewrite !two_strings_encode by done. read_all.
    rewrite (fmap_id_Forall _ _ _ mk_AssetId_id) by done. by rewrite substring_all.
Qed.

(** ** User messages *)
Definition status_text (s : TradeStatus) : string :=
  match s with
  | TradeStatus.UNKNOWN => "UNKNOWN" | TradeStatus.MATCHED => "MATCHED" | TradeStatus.MINED => "MINED"
  | TradeStatus.CONFIRMED => "CONFIRMED" | TradeStatus.RETRYING => "RETRYING" | TradeStatus.FAILED => "FAILED"
  end.
Definition type_text (t : OrderEventType) : string :=
  match t with
  | OrderEventType.PLACEMENT => "PLACEMENT" | OrderEventType.UPDATE => "UPDATE"
  | OrderEventType.CANCELLATION => "CANCELLATION"
  end.

Definition encode_maker (m : MakerOrderEntry) : Json :=
  JObject [("order_id"%string, JString (mo_order_id m)); ("matched_amount"%string, qty_json (mo_matched_amount m))].

Definition encode_user (e : UserEvent) : Json :=
  match e with
  | UserOrder u =>
      event "order" [("id"%string, JString (uo_order_id u)); ("asset_id"%string, JString (uo_asset_id u));
        ("client_order_id"%string, JString (uo_client_order_id u)); ("market"%string, JString (uo_market_id u));
        ("type"%string, JString (type_text (uo_event_type u))); ("side"%string, side_json (uo_side u));
        ("price"%string, price_json (uo_price u)); ("original_size"%string, qty_json (uo_original_size u));
        ("size_matched"%string, qty_json (uo_size_matched u)); ("timestamp"%string, num_json (uo_exchange_ts u))]
  | UserTrade u =>
      event "trade" [("id"%string, JString (ut_trade_id u)); ("asset_id"%string, JString (ut_asset_id u));
        ("market"%string, JString (ut_market_id u)); ("status"%string, JString (status_text (ut_status u)));
        ("side"%string, side_json (ut_side u)); ("price"%string, price_json (ut_fill_price u));
        ("size"%string, qty_json (ut_fill_size u)); ("taker_order_id"%string, JString (ut_taker_order_id u));
        ("matchtime"%string, num_json (ut_match_ts u)); ("last_update"%string, num_json (ut_last_update_ts u));
        ("maker_orders"%string, JArray (encode_maker <$> ut_maker_entries u))]
  end.

Definition user_printable (e : UserEvent) : Prop :=
  match e with
  | UserOrder u => 0 <= uo_original_size u /\ 0 <= uo_size_matched u /\ 0 <= uo_exchange_ts u
  | UserTrade u => 0 <= ut_fill_size u /\ 0 <= ut_match_ts u /\ 0 <= ut_last_update_ts u /\
      Forall (fun m => 0 <= mo_matched_amount m) (ut_maker_entries u)
  end.

Lemma parse_type_text t : parse_order_type (type_text t) = Value t.
Proof. by destruct t. Qed.
Lemma parse_status_text s : s <> TradeStatus.UNKNOWN -> parse_trade_status (status_text s) = Value s.
Proof. by destruct s. Qed.
Lemma not_truncated max s : id_fits max s -> truncated max s = 0.
Proof. unfold id_fits, truncated. intros. by rewrite (proj2 (Nat.leb_gt _ _)). Qed.

Lemma parse_makers_encode c ms :
  (c + length ms <= kMaxMakerOrders)%nat ->
  Forall (fun m => id_fits kMaxOrderIdLen (mo_order_id m) /\ fits_i64 (mo_matched_amount m) = true) ms ->
  Forall (fun m => 0 <= mo_matched_amount m) ms ->
  parse_makers c (encode_maker <$> ms) = Some (ms, 0).
Proof.
  revert c. induction ms as [|[i q] ms IH]; intros c Hc Hw Hs; [done|].
  apply Forall_cons in Hw as [[Hi Hq] Hw]. apply Forall_cons in Hs as [Hq0 Hs]. simpl in Hc, Hi, Hq, Hq0.
  cbn [fmap list_fmap parse_makers]. rewrite (proj2 (Nat.leb_gt _ _)) by lia.
  unfold encode_maker at 1 2 3. read_fields. cbn [mo_order_id mo_matched_amount].
  rewrite qty_text by done. rewrite IH by (done || lia). cbn. by rewrite mk_OrderId_id.
Qed.

(** The user parser reads back every order and trade report as it was
    written, with no field counted as truncated. *)
Theorem user_roundtrip (e : UserEvent) (Hw : user_event_wf e) (Hs : user_printable e) :
  parse_user_doc (encode_user e) = Some (mkUserMessage (Value e) "" 0).
Proof.
  destruct e as [[]|[]]; simpl in Hw, Hs; destruct_and?;
    unfold parse_user_doc, encode_user, event; cbn; select_kind.
  - unfold parse_order, truncated_ids, parse_user_timestamp. read_fields. rewrite parse_type_text. cbn [expect].
    read_all. rewrite !not_truncated by done. cbn. do 5 f_equal.
    apply eq_bool_prop_intro. rewrite !Is_true_true, andb_true_iff, !Z.gtb_lt. intuition lia.
  - unfold parse_trade, truncated_ids, parse_user_timestamp. read_fields. rewrite parse_status_text by done. cbn [expect].
    read_all. rewrite parse_makers_encode by done. rewrite !not_truncated by done. cbn. by case_match.
Qed.

(** ** Witnesses *)
Definition sample_price_change : MarketEventPayload :=
  EvPriceChange (mkPriceChangeEvent
    [mkAssetPriceChange "up" kInvalidPrice 5300 [mkPriceChange 5200 BID 10500000];
     mkAssetPriceChange "down" 4700 4800 [mkPriceChange 4800 ASK 0; mkPriceChange 100 BID 7]] 1700000000123).
Definition sample_trade : UserEvent :=
  UserTrade (mkUserTradeUpdate "t1" "o1" "up" "mkt" TradeStatus.MATCHED ASK 5200 1500000 1700000000 0
    [mkMakerOrderEntry "m1" 1000000; mkMakerOrderEntry "m2" 500000]).

Lemma sample_price_change_wf : payload_wf sample_price_change /\ payload_printable sample_price_change.
Proof.
  unfold sample_price_change; simpl. split; [|split; [|lia]; repeat constructor; simpl; lia].
  split; [unfold kMaxAssetChanges; lia|]. split; [|done].
  unfold kMaxAssetIdLen, kMaxChanges in *.
  constructor; [|constructor; [|constructor]]; split; simpl;
    first [by left|right; unfold on_ladder, kPriceMin, kPriceMax; lia|unfold id_fits, kMaxAssetIdLen, kMaxChanges; simpl; lia|
           repeat constructor; simpl; unfold kPriceMin, kPriceMax; lia].
Qed.
Lemma sample_trade_wf : user_event_wf sample_trade /\ user_printable sample_trade.
Proof.
  unfold sample_trade; simpl; unfold id_fits, kMaxAssetIdLen, kMaxOrderIdLen, kMaxTradeIdLen, on_ladder, kPriceMin,
    kPriceMax, kMaxMakerOrders; simpl. split; [|repeat constructor; simpl; lia].
  split_and!; try lia; try done. repeat constructor; simpl; lia.
Qed.

Lemma market_roundtrip_witness :
  payload_wf sample_price_change /\
  parse_market_doc (encode_market sample_price_change) = Some (Value sample_price_change).
Proof.
  split; [apply sample_price_change_wf|].
  apply (market_roundtrip sample_price_change); apply sample_price_change_wf.
Defined.
Lemma user_roundtrip_witness :
  user_event_wf sample_trade /\
  parse_user_doc (encode_user sample_trade) = Some (mkUserMessage (Value sample_trade) "" 0).
Proof. split; [apply sample_trade_wf|]. apply (user_roundtrip sample_trade); apply sample_trade_wf. Defined.
