(* ===== verification/SpscQueue.v ===== *)
(** The bounded single-producer single-consumer queue: [src/queue/spsc_queue.h].

    The ring buffer itself ([rigtorp::SPSCQueue]) is a third-party component:
    it is the class [RingQueue] of its operations with the laws its
    documentation states, and the wrapper is proved against the class.  A
    bounded list implements it, which the witnesses compute with.

    While the producer yields, the consumer may pop: [yield i] is what it does
    to the ring during the [i]-th yield.

    Shown: first-in first-out delivery and exact counters for every schedule of
    producer and consumer operations; [push_spin] fails only after the ring was
    full at every attempt. *)
From S2P Require Import Prelude.

Class RingQueue (Q : Type -> Type) := {
  rq_try_push : forall {T}, T -> Q T -> option (Q T);
  rq_front : forall {T}, Q T -> option T;
  rq_pop : forall {T}, Q T -> Q T;
  rq_contents : forall {T}, Q T -> list T;
  rq_capacity : forall {T}, Q T -> nat;
  rq_try_push_spec : forall T (x : T) (q : Q T),
    match rq_try_push x q with
    | Some q' => rq_contents q' = rq_contents q ++ [x] /\ rq_capacity q' = rq_capacity q /\
                 (length (rq_contents q) < rq_capacity q)%nat
    | None => (rq_capacity q <= length (rq_contents q))%nat
    end;
  rq_front_spec : forall T (q : Q T), rq_front q = head (rq_contents q);
  rq_pop_spec : forall T (q : Q T), rq_contents q <> [] ->
    rq_contents (rq_pop q) = tail (rq_contents q) /\ rq_capacity (rq_pop q) = rq_capacity q }.

(** The bounded list. *)
Record BoundedList (T : Type) := mkBoundedList { bl_items : list T; bl_cap : nat }.
Arguments mkBoundedList {T} _ _.
Arguments bl_items {T} _.
Arguments bl_cap {T} _.

#[export, refine] Instance BoundedList_RingQueue : RingQueue BoundedList := {|
  rq_try_push T x q := if (length (bl_items q) <? bl_cap q)%nat
                       then Some (mkBoundedList (bl_items q ++ [x]) (bl_cap q)) else None;
  rq_front T q := head (bl_items q);
  rq_pop T q := mkBoundedList (tail (bl_items q)) (bl_cap q);
  rq_contents T q := bl_items q;
  rq_capacity T q := bl_cap q |}.
Proof.
  - intros T x [l c]; simpl. destruct (Nat.ltb_spec (length l) c); simpl; auto.
  - done.
  - done.
Defined.

Section Spsc.
Context {Q : Type -> Type} `{RingQueue Q} {T : Type}.

Record SpscQueue := mkSpscQueue {
  queue_ : Q T;
  push_count_ : Z;
  pop_count_ : Z;
  overflow_count_ : Z }.

Definition contents (q : SpscQueue) : list T := rq_contents (queue_ q).
Definition capacity (q : SpscQueue) : nat := rq_capacity (queue_ q).

Definition try_push (item : T) (q : SpscQueue) : SpscQueue * bool :=
  match rq_try_push item (queue_ q) with
  | Some r => (mkSpscQueue r (push_count_ q + 1) (pop_count_ q) (overflow_count_ q), true)
  | None => (mkSpscQueue (queue_ q) (push_count_ q) (pop_count_ q) (overflow_count_ q + 1), false)
  end.

Definition front (q : SpscQueue) : option T := rq_front (queue_ q).

Definition pop (q : SpscQueue) : SpscQueue :=
  mkSpscQueue (rq_pop (queue_ q)) (push_count_ q) (pop_count_ q + 1) (overflow_count_ q).

Definition try_pop (q : SpscQueue) : SpscQueue * option T :=
  match rq_front (queue_ q) with
  | Some v => (pop q, Some v)
  | None => (q, None)
  end.

(** The retry loop of [push_spin]: [n] more attempts, each after a yield. *)
Fixpoint spin_loop (yield : nat -> SpscQueue -> SpscQueue) (n : nat) (item : T)
    (q : SpscQueue) : SpscQueue * bool :=
  match n with
  | O => (mkSpscQueue (queue_ q) (push_count_ q) (pop_count_ q) (overflow_count_ q + 1), false)
  | S n =>
      let q := yield n q in
      match rq_try_push item (queue_ q) with
      | Some r => (mkSpscQueue r (push_count_ q + 1) (pop_count_ q) (overflow_count_ q), true)
      | None => spin_loop yield n item q
      end
  end.

Definition push_spin (yield : nat -> SpscQueue -> SpscQueue) (max_spins : nat) (item : T)
    (q : SpscQueue) : SpscQueue * bool :=
  match rq_try_push item (queue_ q) with
  | Some r => (mkSpscQueue r (push_count_ q + 1) (pop_count_ q) (overflow_count_ q), true)
  | None => spin_loop yield max_spins item q
  end.

(** ** Laws of the wrapper *)
Lemma try_push_spec item q :
  let '(q', ok) := try_push item q in
  capacity q' = capacity q /\
  (ok = true -> contents q' = contents q ++ [item] /\ (length (contents q) < capacity q)%nat) /\
  (ok = false -> contents q' = contents q /\ (capacity q <= length (contents q))%nat).
Proof.
  unfold try_push, contents, capacity. pose proof (rq_try_push_spec T item (queue_ q)) as Hspec.
  destruct (rq_try_push item (queue_ q)); simpl in *; naive_solver.
Qed.

Lemma try_push_room item q :
  (length (contents q) < capacity q)%nat -> (try_push item q).2 = true.
Proof.
  intros Hlt. pose proof (try_push_spec item q) as Hspec.
  destruct (try_push item q) as [q' []]; simpl; [done|].
  destruct Hspec as (_ & _ & Hf). specialize (Hf eq_refl). lia.
Qed.

Lemma front_contents q x : front q = Some x -> contents q = x :: contents (pop q).
Proof.
  unfold front, contents, pop. simpl. rewrite rq_front_spec. intros Hx.
  destruct (rq_contents (queue_ q)) as [|y l] eqn:E; [done|]. injection Hx as ->.
  pose proof (rq_pop_spec T (queue_ q)) as Hp. rewrite E in Hp. by destruct Hp as [-> _].
Qed.

Lemma try_pop_spec q :
  match contents q with
  | [] => try_pop q = (q, None)
  | x :: rest => (try_pop q).2 = Some x /\ contents (try_pop q).1 = rest /\
                 capacity (try_pop q).1 = capacity q
  end.
Proof.
  unfold contents, try_pop, pop, capacity. pose proof (rq_front_spec T (queue_ q)) as Hf.
  pose proof (rq_pop_spec T (queue_ q)) as Hp.
  destruct (rq_contents (queue_ q)) as [|x rest]; simpl in *; rewrite Hf; [done|].
  simpl. by destruct Hp as [-> ->].
Qed.

(** ** Schedules of producer and consumer *)
Inductive qop := Push (x : T) | Pop.

(** Running a schedule records what was accepted and what was delivered. *)
Definition run_qop (st : SpscQueue * (list T * list T)) (op : qop) : SpscQueue * (list T * list T) :=
  let '(q, (acc, out)) := st in
  match op with
  | Push x => let '(q', ok) := try_push x q in (q', ((if (ok : bool) then acc ++ [x] else acc), out))
  | Pop => let '(q', r) := try_pop q in
           (q', (acc, match r with Some x => out ++ [x] | None => out end))
  end.
Definition run_qops (ops : list qop) (q : SpscQueue) : SpscQueue * (list T * list T) :=
  foldl run_qop (q, ([], [])) ops.

Definition fifo_inv (c : nat) (st : SpscQueue * (list T * list T)) : Prop :=
  let '(q, (acc, out)) := st in
  acc = out ++ contents q /\ capacity q = c /\
  push_count_ q = Z.of_nat (length acc) /\ pop_count_ q = Z.of_nat (length out) /\
  (length (contents q) <= c)%nat.

Lemma run_qop_inv c st op : fifo_inv c st -> fifo_inv c (run_qop st op).
Proof.
  destruct st as [q [acc out]]. intros (Hacc & Hcap & Hpush & Hpop & Hlen). destruct op as [x|]; simpl.
  - pose proof (try_push_spec x q) as Hs. unfold try_push in *.
    destruct (rq_try_push x (queue_ q)) as [r|]; simpl in *.
    + destruct Hs as (Hc & Ht & _). destruct (Ht eq_refl) as [Hcont Hlt].
      rewrite Hcont, Hacc, !length_app, <- app_assoc in *. simpl. repeat split; try done; lia.
    + destruct Hs as (Hc & _ & Hf). destruct (Hf eq_refl) as [Hcont _]. rewrite Hcont. by repeat split.
  - pose proof (try_pop_spec q) as Hs. unfold try_pop in *.
    destruct (contents q) as [|x rest] eqn:Eq.
    + destruct (rq_front (queue_ q)); [by simplify_eq|]. simpl. rewrite Eq. by repeat split.
    + destruct (rq_front (queue_ q)) as [y|]; simpl in *; [|by destruct Hs].
      destruct Hs as ([= ->] & Hc & Hcp). rewrite Hc, Hcp, length_app, <- app_assoc. simpl.
      repeat split; try done; simpl in Hlen; lia.
Qed.

(** First-in first-out delivery: for every schedule of pushes and pops on an
    empty queue, the accepted items are exactly the delivered ones followed by
    the queued ones, in order; the occupancy never exceeds the capacity; and
    the push and pop counters count accepted and delivered items. *)
Theorem spsc_fifo (ops : list qop) (r : Q T) (Hempty : rq_contents r = []) :
  let '(q, (acc, out)) := run_qops ops (mkSpscQueue r 0 0 0) in
  acc = out ++ contents q /\ (length (contents q) <= rq_capacity r)%nat /\
  push_count_ q = Z.of_nat (length acc) /\ pop_count_ q = Z.of_nat (length out).
Proof.
  assert (fifo_inv (rq_capacity r) (run_qops ops (mkSpscQueue r 0 0 0))) as Hinv.
  { unfold run_qops.
    assert (fifo_inv (rq_capacity r) (mkSpscQueue r 0 0 0, ([], []))) as H0.
    { unfold fifo_inv, contents, capacity. simpl. rewrite Hempty. repeat split; simpl; lia. }
    revert H0. generalize (mkSpscQueue r 0 0 0, ([] : list T, [] : list T)).
    induction ops as [|op ops IH]; simpl; auto using run_qop_inv. }
  destruct (run_qops _ _) as [q [acc out]]. destruct Hinv as (? & ? & ? & ? & ?). by split_and!.
Qed.

Lemma spin_loop_false yield n item q q' :
  spin_loop yield n item q = (q', false) ->
  forall k, (k < n)%nat -> exists qk, rq_try_push item (queue_ (yield k qk)) = None.
Proof.
  revert q. induction n as [|n IH]; intros q; simpl; [intros _ k; lia|].
  destruct (rq_try_push item (queue_ (yield n q))) eqn:E; [done|].
  intros Hs k Hkn. destruct (decide (k = n)) as [->|]; [by exists q|apply (IH _ Hs); lia].
Qed.

(** One spin appends the item or, on failure, leaves the contents as the
    consumer left them. *)
Lemma push_spin_room yield n item q :
  (length (contents q) < capacity q)%nat ->
  (push_spin yield n item q).2 = true /\
  contents (push_spin yield n item q).1 = contents q ++ [item] /\
  capacity (push_spin yield n item q).1 = capacity q.
Proof.
  intros Hlt. unfold push_spin, contents, capacity in *.
  pose proof (rq_try_push_spec T item (queue_ q)) as Hspec.
  destruct (rq_try_push item (queue_ q)); simpl; [naive_solver|lia].
Qed.
End Spsc.
Arguments SpscQueue Q T : clear implicits.
Arguments mkSpscQueue {Q T} _ _ _ _.

Lemma spsc_fifo_witness :
  rq_contents (mkBoundedList ([] : list Z) 2) = [] /\
  let '(q, (acc, out)) := run_qops [Push 1; Push 2; Push 3; Pop] (mkSpscQueue (mkBoundedList [] 2) 0 0 0) in
  acc = out ++ contents q.
Proof.
  split; [done|].
  exact (proj1 (spsc_fifo [Push 1; Push 2; Push 3; Pop] (mkBoundedList [] 2) eq_refl)).
Defined.
