(* ===== verification/Ring.v ===== *)
(** Fixed-size circular buffers, as the profit tracker ([src/common/pnl_tracker.h],
    two of 256 entries per asset) and the dry-run simulator
    ([src/scheduler/dry_run_simulator.cpp], 64 entries) use them: an array, the
    index of the oldest entry and the number of entries.

    Shown: the operations implement a bounded first-in first-out list. *)
From S2P Require Import Prelude.

Record Ring (A : Type) := mkRing { ring_buf : list A; ring_head : nat; ring_count : nat }.
Arguments mkRing {A} _ _ _.
Arguments ring_buf {A} _.
Arguments ring_head {A} _.
Arguments ring_count {A} _.

Section Ring.
Context {A : Type} `{Inhabited A}.
Implicit Types (r : Ring A) (x : A).

Definition ring_cap r : nat := length (ring_buf r).
Definition ring_index r (k : nat) : nat := (ring_head r + k) mod ring_cap r.

Definition ring_push x r : Ring A :=
  if (ring_cap r <=? ring_count r)%nat then r
  else mkRing (<[ring_index r (ring_count r) := x]> (ring_buf r)) (ring_head r) (S (ring_count r)).
Definition ring_front r : A := ring_buf r !!! ring_head r.
Definition ring_set_front x r : Ring A :=
  mkRing (<[ring_head r := x]> (ring_buf r)) (ring_head r) (ring_count r).
Definition ring_pop r : Ring A :=
  mkRing (ring_buf r) ((ring_head r + 1) mod ring_cap r)%nat (ring_count r - 1).

(** The abstract list: the entries from the oldest on. *)
Definition ring_list r : list A := (fun k => ring_buf r !!! ring_index r k) <$> seq 0 (ring_count r).

Record ring_inv (n : nat) r : Prop := {
  rg_cap : ring_cap r = n;
  rg_head : (ring_head r < n)%nat;
  rg_count : (ring_count r <= n)%nat }.

Lemma length_ring_list r : length (ring_list r) = ring_count r.
Proof. unfold ring_list. by rewrite length_fmap, length_seq. Qed.

Lemma mod_range n a b : (a < n)%nat -> (b <= n)%nat ->
  ((a + b) mod n)%nat = (if (a + b <? n) then a + b else a + b - n)%nat.
Proof.
  intros Ha Hb. destruct (Nat.ltb_spec (a + b) n).
  - by apply Nat.mod_small.
  - replace (a + b)%nat with ((a + b - n) + 1 * n)%nat at 1 by lia.
    rewrite Nat.Div0.mod_add. destruct (decide (a + b - n < n)%nat); [by apply Nat.mod_small|]. lia.
Qed.

Lemma ring_index_inj n r j k :
  ring_inv n r -> (j < n)%nat -> (k < n)%nat -> ring_index r j = ring_index r k -> j = k.
Proof.
  intros [Hc Hh _] Hj Hk. unfold ring_index. rewrite Hc, !mod_range by lia.
  destruct (Nat.ltb_spec (ring_head r + j) n), (Nat.ltb_spec (ring_head r + k) n); lia.
Qed.

Lemma ring_index_lt n r k : ring_inv n r -> (ring_index r k < n)%nat.
Proof. intros [Hc Hh _]. unfold ring_index. rewrite Hc. apply Nat.mod_upper_bound. lia. Qed.

Lemma ring_push_inv n x r : ring_inv n r -> ring_inv n (ring_push x r).
Proof.
  intros [Hc Hh Hn]. unfold ring_push. destruct (Nat.leb_spec (ring_cap r) (ring_count r)); [done|].
  split; unfold ring_cap in *; simpl; rewrite ?length_insert; lia.
Qed.

Lemma ring_pop_inv n r : ring_inv n r -> ring_inv n (ring_pop r).
Proof.
  intros [Hc Hh Hn]. split; simpl; [done| |lia].
  rewrite Hc. apply Nat.mod_upper_bound. lia.
Qed.

Lemma ring_set_front_inv n x r : ring_inv n r -> ring_inv n (ring_set_front x r).
Proof. intros [Hc Hh Hn]. split; unfold ring_cap in *; simpl; by rewrite ?length_insert. Qed.

(** ** Refinement of the bounded list *)
Lemma ring_index_write r i x c k :
  ring_index (mkRing (<[i := x]> (ring_buf r)) (ring_head r) c) k = ring_index r k.
Proof. unfold ring_index, ring_cap. simpl. by rewrite length_insert. Qed.

Lemma ring_push_list n x r :
  ring_inv n r ->
  ring_list (ring_push x r) = (if (length (ring_list r) <? n)%nat then ring_list r ++ [x] else ring_list r).
Proof.
  intros Hr. pose proof Hr as [Hc Hh Hn]. rewrite length_ring_list. unfold ring_push. rewrite Hc.
  destruct (Nat.leb_spec n (ring_count r)), (Nat.ltb_spec (ring_count r) n); try lia; [done|].
  unfold ring_list. cbn [ring_count]. rewrite seq_S, fmap_app. simpl.
  rewrite ring_index_write. f_equal.
  - apply list_fmap_ext. intros i k Hik. apply lookup_seq in Hik as [-> Hi].
    rewrite ring_index_write. simpl. apply list_lookup_total_insert_ne. intros E.
    apply (ring_index_inj n r) in E; [lia|done|lia|lia].
  - f_equal. apply list_lookup_total_insert_eq.
    change (length (ring_buf r)) with (ring_cap r). rewrite Hc. by apply ring_index_lt.
Qed.

Lemma ring_index_0 n r : ring_inv n r -> ring_index r 0 = ring_head r.
Proof. intros [Hc Hh _]. unfold ring_index. rewrite Hc, Nat.add_0_r. by apply Nat.mod_small. Qed.

Lemma ring_index_pop n r k :
  ring_inv n r -> ring_index (ring_pop r) k = ring_index r (S k).
Proof.
  intros [Hc Hh _]. unfold ring_pop, ring_index, ring_cap in *. simpl. rewrite Hc.
  rewrite Nat.Div0.add_mod_idemp_l. f_equal. lia.
Qed.

(** The list of a non-empty ring: its front entry, and the popped ring. *)
Lemma ring_list_cons n r :
  ring_inv n r -> (0 < ring_count r)%nat ->
  ring_list r = ring_front r :: ring_list (ring_pop r).
Proof.
  intros Hr Hpos. unfold ring_list at 1. destruct (ring_count r) as [|c] eqn:Ec; [lia|].
  cbn [seq fmap list_fmap]. rewrite (ring_index_0 n r Hr). f_equal.
  unfold ring_list. simpl. rewrite Ec. replace (S c - 1)%nat with c by lia.
  rewrite <- fmap_S_seq, <- list_fmap_compose. apply list_fmap_ext. intros i k _. simpl.
  by rewrite (ring_index_pop n r).
Qed.

Lemma ring_empty r : ring_count r = O -> ring_list r = [].
Proof. intros E. unfold ring_list. by rewrite E. Qed.

Lemma ring_set_front_list n x r :
  ring_inv n r -> (0 < ring_count r)%nat ->
  ring_list (ring_set_front x r) = x :: ring_list (ring_pop r) /\
  ring_list (ring_pop (ring_set_front x r)) = ring_list (ring_pop r).
Proof.
  intros Hr Hpos. pose proof Hr as [Hc Hh Hn].
  assert (ring_list (ring_pop (ring_set_front x r)) = ring_list (ring_pop r)) as Hpop.
  { unfold ring_list. simpl. apply list_fmap_ext. intros i k Hik. apply lookup_seq in Hik as [-> Hi].
    rewrite (ring_index_pop n (ring_set_front x r)), (ring_index_pop n r)
      by auto using ring_set_front_inv.
    unfold ring_set_front. rewrite ring_index_write. simpl. apply list_lookup_total_insert_ne.
    rewrite <- (ring_index_0 n r Hr). intros E. apply (ring_index_inj n r) in E; [lia|done|lia|lia]. }
  split; [|done].
  rewrite (ring_list_cons n (ring_set_front x r)) by (auto using ring_set_front_inv).
  f_equal; [|done]. unfold ring_front. simpl. apply list_lookup_total_insert_eq.
  change (length (ring_buf r)) with (ring_cap r). lia.
Qed.
End Ring.
