(* ===== verification/MarketPair.v ===== *)
(** Market pairs and their registry: [src/common/market_pair.h].

    A market has an UP and a DOWN token; the registry keeps three hash maps.
    Shown: in every registry built by [add_pair] the three maps agree, and the
    complement is an involution without fixed points whose two tokens belong to
    the same market. *)
From S2P Require Import Prelude Types.

Record MarketPair := mkMarketPair {
  condition_id : AssetId;
  token_id_up : AssetId;
  token_id_down : AssetId;
  neg_risk : bool;
  fee_rate_bps : Z }.

Definition get_complement_price (price : Z) : Expected Z :=
  if (price <? kPriceMin) || (price >? kPriceMax) then Err ErrorCode.OUT_OF_RANGE
  else Value (kPriceScale - price).

Record MarketPairRegistry := mkMarketPairRegistry {
  reg_frozen_ : bool;
  by_condition_ : gmap AssetId MarketPair;
  condition_by_token_ : gmap AssetId AssetId;
  complement_by_token_ : gmap AssetId AssetId }.
Definition MarketPairRegistry_new : MarketPairRegistry := mkMarketPairRegistry false ∅ ∅ ∅.

Definition is_mapped {A} (m : gmap AssetId A) (k : AssetId) : bool :=
  match m !! k with Some _ => true | None => false end.

Definition add_pair (pair : MarketPair) (r : MarketPairRegistry) : MarketPairRegistry * bool :=
  if reg_frozen_ r then (r, false) else
  if negb (nonempty (condition_id pair)) || negb (nonempty (token_id_up pair)) ||
     negb (nonempty (token_id_down pair)) then (r, false) else
  if id_eqb (token_id_up pair) (token_id_down pair) then (r, false) else
  if is_mapped (by_condition_ r) (condition_id pair) then (r, false) else
  if is_mapped (condition_by_token_ r) (token_id_up pair) then (r, false) else
  if is_mapped (condition_by_token_ r) (token_id_down pair) then (r, false) else
  (mkMarketPairRegistry (reg_frozen_ r)
     (<[condition_id pair := pair]> (by_condition_ r))
     (<[token_id_down pair := condition_id pair]>
        (<[token_id_up pair := condition_id pair]> (condition_by_token_ r)))
     (<[token_id_down pair := token_id_up pair]>
        (<[token_id_up pair := token_id_down pair]> (complement_by_token_ r))), true).

Definition find_by_condition (r : MarketPairRegistry) (c : AssetId) : option MarketPair :=
  by_condition_ r !! c.
Definition condition_for_token (r : MarketPairRegistry) (t : AssetId) : option AssetId :=
  condition_by_token_ r !! t.
Definition get_complement_token (r : MarketPairRegistry) (t : AssetId) : option AssetId :=
  complement_by_token_ r !! t.
Definition registry_freeze (r : MarketPairRegistry) : MarketPairRegistry := r <| reg_frozen_ := true |>.

(** ** Invariant *)
Definition pair_tokens (p : MarketPair) (t t' : AssetId) : Prop :=
  (t = token_id_up p /\ t' = token_id_down p) \/ (t = token_id_down p /\ t' = token_id_up p).

Record registry_inv (r : MarketPairRegistry) : Prop := {
  ri_pair : forall c p, by_condition_ r !! c = Some p ->
    condition_id p = c /\ token_id_up p <> token_id_down p /\
    condition_by_token_ r !! token_id_up p = Some c /\
    condition_by_token_ r !! token_id_down p = Some c /\
    complement_by_token_ r !! token_id_up p = Some (token_id_down p) /\
    complement_by_token_ r !! token_id_down p = Some (token_id_up p);
  ri_cond : forall t c, condition_by_token_ r !! t = Some c ->
    exists p t', by_condition_ r !! c = Some p /\ pair_tokens p t t';
  ri_comp : forall t t', complement_by_token_ r !! t = Some t' ->
    exists c p, by_condition_ r !! c = Some p /\ pair_tokens p t t' }.

Lemma registry_new_inv : registry_inv MarketPairRegistry_new.
Proof. by split; simpl; intros *; rewrite lookup_empty. Qed.

Lemma is_mapped_false {A} (m : gmap AssetId A) k : is_mapped m k = false -> m !! k = None.
Proof. unfold is_mapped. by destruct (m !! k). Qed.

Lemma add_pair_true pair r r' :
  add_pair pair r = (r', true) ->
  token_id_up pair <> token_id_down pair /\ by_condition_ r !! condition_id pair = None /\
  condition_by_token_ r !! token_id_up pair = None /\
  condition_by_token_ r !! token_id_down pair = None /\
  by_condition_ r' = <[condition_id pair := pair]> (by_condition_ r) /\
  condition_by_token_ r' = <[token_id_down pair := condition_id pair]>
        (<[token_id_up pair := condition_id pair]> (condition_by_token_ r)) /\
  complement_by_token_ r' = <[token_id_down pair := token_id_up pair]>
        (<[token_id_up pair := token_id_down pair]> (complement_by_token_ r)).
Proof.
  unfold add_pair. intros Hadd. repeat split_match_in Hadd; simplify_eq/=.
  rewrite id_eqb_false in *. eauto 10 using is_mapped_false.
Qed.

Lemma add_pair_false pair r r' : add_pair pair r = (r', false) -> r' = r.
Proof. unfold add_pair. intros Hadd. repeat split_match_in Hadd; by simplify_eq/=. Qed.

Ltac lookup_cases :=
  repeat match goal with
  | Hl : <[_ := _]> _ !! _ = Some _ |- _ => apply lookup_insert_Some in Hl as [[? ?]|[? Hl]]; simplify_eq
  end.
Ltac lookup_solve :=
  repeat first [rewrite lookup_insert_eq | rewrite lookup_insert_ne by congruence]; eauto.

Lemma add_pair_inv pair r : registry_inv r -> registry_inv (add_pair pair r).1.
Proof.
  intros [Hp Hc Hm]. destruct (add_pair pair r) as [r' []] eqn:Hadd; simpl; [|by apply add_pair_false in Hadd as ->].
  apply add_pair_true in Hadd as (Hne & Hfc & Hfu & Hfd & E1 & E2 & E3).
  assert (forall c p, by_condition_ r !! c = Some p ->
            token_id_up p <> token_id_up pair /\ token_id_up p <> token_id_down pair /\
            token_id_down p <> token_id_up pair /\ token_id_down p <> token_id_down pair) as Hfresh.
  { intros c p Hlk. destruct (Hp c p Hlk) as (_ & _ & H1 & H2 & _). split_and!; congruence. }
  split; rewrite ?E1, ?E2, ?E3.
  - intros c p Hlk. apply lookup_insert_Some in Hlk as [[<- <-]|[Hcne Hlk]].
    + split_and!; lookup_solve.
    + destruct (Hp c p Hlk) as (H1 & H2 & H3 & H4 & H5 & H6).
      destruct (Hfresh c p Hlk) as (? & ? & ? & ?). split_and!; lookup_solve.
  - intros t c Hlk. lookup_cases.
    + exists pair, (token_id_up pair). rewrite lookup_insert_eq. unfold pair_tokens. auto.
    + exists pair, (token_id_down pair). rewrite lookup_insert_eq. unfold pair_tokens. auto.
    + destruct (Hc t c Hlk) as (p & t' & Hb & Ht). exists p, t'.
      rewrite lookup_insert_ne by congruence. auto.
  - intros t t' Hlk. lookup_cases.
    + exists (condition_id pair), pair. rewrite lookup_insert_eq. unfold pair_tokens. auto.
    + exists (condition_id pair), pair. rewrite lookup_insert_eq. unfold pair_tokens. auto.
    + destruct (Hm t t' Hlk) as (c & p & Hb & Ht). exists c, p.
      rewrite lookup_insert_ne by congruence. auto.
Qed.

Definition add_pairs (ps : list MarketPair) (r : MarketPairRegistry) : MarketPairRegistry :=
  foldl (fun r p => (add_pair p r).1) r ps.

Lemma add_pairs_inv ps r : registry_inv r -> registry_inv (add_pairs ps r).
Proof. revert r. induction ps as [|p ps IH]; intros r Hr; [done|]. by apply IH, add_pair_inv. Qed.

Lemma complement_facts r t t' :
  registry_inv r -> get_complement_token r t = Some t' ->
  t <> t' /\ get_complement_token r t' = Some t /\
  exists c p, condition_for_token r t = Some c /\ condition_for_token r t' = Some c /\
    find_by_condition r c = Some p /\ pair_tokens p t t'.
Proof.
  intros [Hp Hc Hm] Ht. destruct (Hm t t' Ht) as (c & p & Hb & Htok).
  destruct (Hp c p Hb) as (H1 & H2 & H3 & H4 & H5 & H6).
  unfold get_complement_token, condition_for_token, find_by_condition.
  destruct Htok as [[-> ->]|[-> ->]]; (split; [done|]; split; [done|]); exists c, p; unfold pair_tokens; auto 10.
Qed.

(** In every registry built from any list of candidate pairs, the complement
    is a fixed-point-free involution: a token and its complement differ, each
    is the other's complement, both map to the same condition, and the pair
    stored under that condition consists of exactly these two tokens. *)
Theorem complement_involutive (ps : list MarketPair) (t t' : AssetId)
    (Ht : get_complement_token (add_pairs ps MarketPairRegistry_new) t = Some t') :
  let r := add_pairs ps MarketPairRegistry_new in
  t <> t' /\ get_complement_token r t' = Some t /\
  exists c p, condition_for_token r t = Some c /\ condition_for_token r t' = Some c /\
    find_by_condition r c = Some p /\ pair_tokens p t t'.
Proof. apply complement_facts; [apply add_pairs_inv, registry_new_inv|done]. Qed.

Lemma complement_involutive_witness :
  let ps := [mkMarketPair "c1" "u1" "d1" false 0; mkMarketPair "c2" "d1" "x" false 0] in
  get_complement_token (add_pairs ps MarketPairRegistry_new) "u1" = Some "d1"%string /\
  get_complement_token (add_pairs ps MarketPairRegistry_new) "d1" = Some "u1"%string.
Proof.
  split; [reflexivity|].
  exact (proj1 (proj2 (complement_involutive
    [mkMarketPair "c1" "u1" "d1" false 0; mkMarketPair "c2" "d1" "x" false 0] "u1" "d1" eq_refl))).
Defined.
