(* ===== verification/TokenInventory.v ===== *)
(** The token inventory shared between the threads: [src/common/token_inventory.h].

    [InventoryView] is the read interface the execution-safety checks are
    proved against; [TokenInventory] implements it.  Positions are atomic
    64-bit integers: [fetch_add] wraps around.  Each method runs under its lock
    and is one step, except [set_position], whose two critical sections are two
    steps ([set_position_fast], [set_position_slow]).

    Shown: updates from several threads commute, so that the positions do not
    depend on the interleaving of the fills; freezing fixes the set of tokens. *)
From S2P Require Import Prelude Types.

(** ** The read interface *)
Class InventoryView (I : Type) := {
  position_for : I -> AssetId -> Z }.

Definition wrap_i64 (z : Z) : Z := (z + 2 ^ 63) mod 2 ^ 64 - 2 ^ 63.

Lemma wrap_i64_add a b : wrap_i64 (wrap_i64 a + b) = wrap_i64 (a + b).
Proof.
  unfold wrap_i64. f_equal. replace ((a + 2 ^ 63) mod 2 ^ 64 - 2 ^ 63 + b + 2 ^ 63)
    with ((a + 2 ^ 63) mod 2 ^ 64 + b) by lia.
  rewrite Zplus_mod_idemp_l. f_equal. lia.
Qed.

Lemma wrap_i64_small z : INT64_MIN <= z <= INT64_MAX -> wrap_i64 z = z.
Proof. unfold INT64_MIN, INT64_MAX, wrap_i64. intros. rewrite Z.mod_small; lia. Qed.

Record TokenInventory := mkTokenInventory {
  frozen_ : bool;
  positions_ : gmap AssetId Z;
  usdc_balance_ : Z;
  our_order_ids_ : gset OrderId }.
Definition TokenInventory_new : TokenInventory := mkTokenInventory false ∅ 0 ∅.

Definition register_token (t : AssetId) (i : TokenInventory) : TokenInventory :=
  if frozen_ i then i else
  match positions_ i !! t with
  | Some _ => i
  | None => i <| positions_ ::= <[t := 0]> |>
  end.

#[export] Instance TokenInventory_view : InventoryView TokenInventory := {|
  position_for i t := default 0 (positions_ i !! t) |}.

Definition adjust_position (t : AssetId) (delta : Z) (i : TokenInventory) : TokenInventory :=
  match positions_ i !! t with
  | Some p => i <| positions_ ::= <[t := wrap_i64 (p + delta)]> |>
  | None => i
  end.

(** The shared-lock section: [true] when the call is finished. *)
Definition set_position_fast (t : AssetId) (p : Z) (i : TokenInventory) : TokenInventory * bool :=
  match positions_ i !! t with
  | Some _ => (i <| positions_ ::= <[t := p]> |>, true)
  | None => (i, frozen_ i)
  end.
(** The exclusive-lock section. *)
Definition set_position_slow (t : AssetId) (p : Z) (i : TokenInventory) : TokenInventory :=
  if frozen_ i then i else i <| positions_ ::= <[t := p]> |>.
Definition set_position (t : AssetId) (p : Z) (i : TokenInventory) : TokenInventory :=
  let '(i, finished) := set_position_fast t p i in
  if (finished : bool) then i else set_position_slow t p i.

Definition freeze (i : TokenInventory) : TokenInventory := i <| frozen_ := true |>.
Definition token_count (i : TokenInventory) : nat := size (positions_ i).
Definition set_usdc_balance (b : Z) (i : TokenInventory) : TokenInventory := i <| usdc_balance_ := b |>.
Definition adjust_usdc_balance (d : Z) (i : TokenInventory) : TokenInventory :=
  i <| usdc_balance_ ::= fun b => wrap_i64 (b + d) |>.
Definition register_our_order (o : OrderId) (i : TokenInventory) : TokenInventory :=
  i <| our_order_ids_ ::= fun s => {[o]} ∪ s |>.
Definition is_our_order (i : TokenInventory) (o : OrderId) : bool := bool_decide (o ∈ our_order_ids_ i).

(** ** Fills from several threads *)
Definition adjust_all (fills : list (AssetId * Z)) (i : TokenInventory) : TokenInventory :=
  foldl (fun i f => adjust_position f.1 f.2 i) i fills.

Lemma adjust_position_comm t1 d1 t2 d2 i :
  adjust_position t1 d1 (adjust_position t2 d2 i) = adjust_position t2 d2 (adjust_position t1 d1 i).
Proof.
  unfold adjust_position. destruct (decide (t1 = t2)) as [->|Hne].
  - destruct (positions_ i !! t2) as [p|] eqn:E; [|by rewrite E]. simpl. rewrite !lookup_insert_eq.
    destruct i; unfold set; simpl. rewrite !insert_insert_eq, !wrap_i64_add. by rewrite Z.add_shuffle0.
  - destruct (positions_ i !! t2) as [p2|] eqn:E2, (positions_ i !! t1) as [p1|] eqn:E1; simpl;
      rewrite ?lookup_insert_ne by congruence; rewrite ?E1, ?E2; try done.
    destruct i; unfold set; simpl. f_equal. by apply insert_insert_ne.
Qed.

Lemma adjust_position_lookup t d i t' :
  positions_ (adjust_position t d i) !! t' =
    (if decide (t = t') then (fun p => wrap_i64 (p + d)) <$> positions_ i !! t'
     else positions_ i !! t').
Proof.
  unfold adjust_position. destruct (decide (t = t')) as [<-|Hne].
  - destruct (positions_ i !! t) eqn:E; simpl; [by rewrite lookup_insert_eq|done].
  - destruct (positions_ i !! t); simpl; [by rewrite lookup_insert_ne|done].
Qed.

Definition fills_of (t : AssetId) (fills : list (AssetId * Z)) : Z :=
  sum_list_Z (fun f => if decide (f.1 = t) then f.2 else 0) fills.

Lemma adjust_all_lookup fills i t p :
  positions_ i !! t = Some p -> wrap_i64 p = p ->
  positions_ (adjust_all fills i) !! t = Some (wrap_i64 (p + fills_of t fills)).
Proof.
  revert i p. induction fills as [|[t' d] fills IH]; intros i p Hp Hw.
  { unfold fills_of. simpl. rewrite Z.add_0_r, Hw. exact Hp. }
  change (adjust_all ((t', d) :: fills) i) with (adjust_all fills (adjust_position t' d i)).
  unfold fills_of in *. simpl. pose proof (adjust_position_lookup t' d i t) as Hl.
  destruct (decide (t' = t)) as [->|Hne].
  - rewrite Hp in Hl. simpl in Hl. rewrite (IH _ _ Hl).
    + rewrite wrap_i64_add. by rewrite Z.add_assoc.
    + pose proof (wrap_i64_add (p + d) 0) as Hww. rewrite !Z.add_0_r in Hww. exact Hww.
  - rewrite Hp in Hl. rewrite (IH _ _ Hl Hw). do 2 f_equal.
Qed.

(** Position updates do not depend on the interleaving: applying the same
    fills in any order gives the same inventory, and the position of a
    registered token is its old position plus the sum of its fills (as a 64-bit
    value; exactly the sum when it is in range). *)
Theorem fills_commute (fills fills' : list (AssetId * Z)) (i : TokenInventory)
    (Hperm : fills ≡ₚ fills') :
  adjust_all fills i = adjust_all fills' i /\
  forall t p, positions_ i !! t = Some p -> INT64_MIN <= p <= INT64_MAX ->
    position_for (adjust_all fills i) t = wrap_i64 (p + fills_of t fills) /\
    (INT64_MIN <= p + fills_of t fills <= INT64_MAX ->
       position_for (adjust_all fills i) t = p + fills_of t fills).
Proof.
  split.
  - revert i. induction Hperm as [|f l l' _ IH|f g l|l1 l2 l3 _ IH1 _ IH2]; intros i.
    + done.
    + apply IH.
    + unfold adjust_all. simpl. by rewrite adjust_position_comm.
    + by rewrite IH1.
  - intros t p Hp Hrange. simpl. rewrite (adjust_all_lookup fills i t p Hp (wrap_i64_small _ Hrange)).
    split; [done|]. apply wrap_i64_small.
Qed.

Lemma fills_commute_witness :
  let i := register_token "t" TokenInventory_new in
  [("t"%string, 5); ("t"%string, -2)] ≡ₚ [("t"%string, -2); ("t"%string, 5)] /\
  position_for (adjust_all [("t"%string, 5); ("t"%string, -2)] i) "t" = 3.
Proof.
  assert ([("t"%string, 5); ("t"%string, -2)] ≡ₚ [("t"%string, -2); ("t"%string, 5)]) as Hp
    by apply Permutation_swap.
  split; [exact Hp|].
  destruct (fills_commute _ _ (register_token "t" TokenInventory_new) Hp) as [_ H].
  destruct (H "t"%string 0 eq_refl) as [_ H2]; [by split|].
  rewrite H2; [reflexivity|by split].
Defined.

(** An adjustment is undone by the opposite one. *)
Definition positions_in_range (i : TokenInventory) : Prop :=
  map_Forall (fun _ p => INT64_MIN <= p <= INT64_MAX) (positions_ i) /\
  INT64_MIN <= usdc_balance_ i <= INT64_MAX.

Lemma wrap_i64_undo p d : INT64_MIN <= p <= INT64_MAX -> wrap_i64 (wrap_i64 (p + d) + - d) = p.
Proof. intros Hp. rewrite wrap_i64_add. replace (p + d + - d) with p by lia. by apply wrap_i64_small. Qed.

Lemma adjust_position_undo t d i :
  positions_in_range i -> adjust_position t (- d) (adjust_position t d i) = i.
Proof.
  intros [Hr _]. unfold adjust_position. destruct (positions_ i !! t) as [p|] eqn:E; [|by rewrite E].
  simpl. rewrite lookup_insert_eq, wrap_i64_undo by (by apply (Hr t)).
  destruct i; unfold set; simpl in *. f_equal. rewrite insert_insert_eq. by apply insert_id.
Qed.

Lemma adjust_usdc_undo d i :
  positions_in_range i -> adjust_usdc_balance (- d) (adjust_usdc_balance d i) = i.
Proof.
  intros [_ Hr]. unfold adjust_usdc_balance. destruct i; unfold set; simpl in *. by rewrite wrap_i64_undo.
Qed.

Lemma adjust_usdc_position t d b i :
  adjust_position t d (adjust_usdc_balance b i) = adjust_usdc_balance b (adjust_position t d i).
Proof. unfold adjust_position, adjust_usdc_balance. simpl. by destruct (positions_ i !! t), i. Qed.

(** After [freeze] no operation changes the set of tokens. *)
Lemma frozen_tokens t p i :
  frozen_ i = true ->
  dom (positions_ (register_token t i)) = dom (positions_ i) /\
  dom (positions_ (set_position t p i)) = dom (positions_ i) /\
  dom (positions_ (adjust_position t p i)) = dom (positions_ i).
Proof.
  intros Hf. unfold register_token, set_position, set_position_fast, set_position_slow, adjust_position.
  rewrite Hf. destruct (positions_ i !! t) eqn:E; simpl; [|by rewrite ?Hf].
  split; [done|]. by rewrite !dom_insert_lookup_L.
Qed.
