(* ===== verification/StrategyBookStore.v ===== *)
(** The shadow books of the strategy thread: [src/scheduler/strategy_book_store.cpp]
    and [strategy_book_store.h].

    Shown: a run of deltas for one asset acts on that asset's book alone, and
    up to the status it is one write of the concatenated changes followed by a
    rescan ([apply_deltas_write]); this is what lets the replication proof
    ignore how the producer cut its messages. *)
From S2P Require Import Prelude Types OrderBook Events.

Record StrategyBookStore := mkStrategyBookStore {
  books_ : gmap AssetId OrderBook;
  pending_snapshots_ : gset AssetId }.
Definition StrategyBookStore_new : StrategyBookStore := mkStrategyBookStore ∅ ∅.

Definition seed (id : AssetId) (s : StrategyBookStore) : StrategyBookStore :=
  match books_ s !! id with
  | Some _ => s
  | None => s <| books_ ::= <[id := OrderBook_new]> |>
  end.

Definition book (s : StrategyBookStore) (id : AssetId) : option OrderBook := books_ s !! id.
Definition bbo (s : StrategyBookStore) (id : AssetId) : option BBO := bbo_ <$> (books_ s !! id).
Definition is_book_valid (s : StrategyBookStore) (id : AssetId) : bool :=
  match books_ s !! id with
  | None => false
  | Some _ => bool_decide (id ∉ pending_snapshots_ s)
  end.

(** The loop body shared by the four cases: a batch of one change. *)
Definition apply_single (id : AssetId) (b : OrderBook) (ch : PriceChange) : OrderBook :=
  (apply_price_change (mkAssetPriceChange id kInvalidPrice kInvalidPrice [ch]) b).1.
Definition apply_singles (id : AssetId) (chs : list PriceChange) (b : OrderBook) : OrderBook :=
  foldl (apply_single id) b chs.

Definition apply_delta (delta : BookDelta) (s : StrategyBookStore) : StrategyBookStore :=
  let id := bd_asset_id delta in
  match books_ s !! id with
  | None => s
  | Some b =>
      match bd_kind delta with
      | BookDeltaKind.SNAPSHOT_BEGIN =>
          s <| books_ ::= <[id := apply_singles id (bd_changes delta) (clear b)]> |>
            <| pending_snapshots_ ::= fun p => {[id]} ∪ p |>
      | BookDeltaKind.SNAPSHOT_CHUNK =>
          s <| books_ ::= <[id := apply_singles id (bd_changes delta) b]> |>
      | BookDeltaKind.SNAPSHOT_END =>
          s <| books_ ::= <[id := apply_singles id (bd_changes delta) b]> |>
            <| pending_snapshots_ ::= fun p => p ∖ {[id]} |>
      | BookDeltaKind.INCREMENTAL =>
          let b := if bd_tick_size delta >? 0 then set_tick_size (bd_tick_size delta) b else b in
          s <| books_ ::= <[id := apply_singles id (bd_changes delta) b]> |>
      end
  end.

(** Draining the queue: the deltas in order. *)
Definition drain_deltas (ds : list BookDelta) (s : StrategyBookStore) : StrategyBookStore :=
  foldl (fun s d => apply_delta d s) s ds.

(** ** Books up to the status *)
Record book_sim (a b : OrderBook) : Prop := {
  sim_bids : bids_ a = bids_ b;
  sim_asks : asks_ a = asks_ b;
  sim_bbo : bbo_ a = bbo_ b;
  sim_tick : tick_size_ a = tick_size_ b }.

#[export] Instance book_sim_equiv : Equivalence book_sim.
Proof.
  split.
  - done.
  - by intros ?? [].
  - intros ??? [] []; split; congruence.
Qed.

Lemma book_sim_status b s : book_sim (set_status s b) b.
Proof. done. Qed.

#[export] Instance book_sim_inv : Proper (book_sim ==> iff) book_inv.
Proof.
  assert (forall a b, book_sim a b -> book_inv a -> book_inv b) as Himp.
  { intros a b [H1 H2 H3 H4] []; split; congruence. }
  intros a b Hab. split; apply Himp; [done|by symmetry].
Qed.

#[export] Instance book_sim_clear : Proper (book_sim ==> book_sim) clear.
Proof. intros a b []. by split. Qed.

#[export] Instance book_sim_tick ts : Proper (book_sim ==> book_sim) (set_tick_size ts).
Proof. intros a b []. by split. Qed.

Lemma apply_one_sim ch a b t :
  book_sim a b -> book_sim (apply_one ch (a, t)).1 (apply_one ch (b, t)).1 /\
                  (apply_one ch (a, t)).2 = (apply_one ch (b, t)).2.
Proof.
  intros [H1 H2 H3 H4]. unfold apply_one.
  destruct (pc_side ch); simpl; rewrite ?H1, ?H2, ?H3; (split; [|done]); split; simpl; congruence.
Qed.

#[export] Instance book_sim_price_change ch :
  Proper (book_sim ==> book_sim) (fun b => (apply_price_change ch b).1).
Proof.
  intros a b Hab. unfold apply_price_change. destruct (validate_changes _); [done|].
  unfold apply_all. generalize false. revert a b Hab.
  induction (apc_changes ch) as [|c chs IH]; intros a b Hab t; cbn [foldl].
  - destruct Hab as [H1 H2 H3 H4], t; split; simpl; congruence.
  - destruct (apply_one_sim c a b t Hab) as [Hs Ht].
    destruct (apply_one c (a, t)), (apply_one c (b, t)); simpl in *; subst. by apply IH.
Qed.

(** [normalize] is what validation, writing and rescanning leave of a book. *)
Definition normalize (b : OrderBook) : OrderBook := refresh_status_from_bbo (recompute_bbo b).

Lemma normalize_sim b : book_inv b -> book_sim (normalize b) b.
Proof. intros []. split; simpl; done. Qed.

Lemma apply_single_write id b ch :
  book_inv b -> change_ok ch -> apply_single id b ch = normalize (write_level b ch).
Proof.
  intros Hb Hch. unfold apply_single. rewrite apply_price_change_rescan by done.
  unfold apply_price_change_ref. simpl.
  destruct Hch as [Hp Hs]. by rewrite (proj2 (level_error_None _ _) (conj Hp Hs)).
Qed.

Lemma apply_single_inv id b ch : book_inv b -> book_inv (apply_single id b ch).
Proof. apply apply_price_change_inv. Qed.

Lemma apply_singles_inv id chs b : book_inv b -> book_inv (apply_singles id chs b).
Proof.
  revert b. induction chs as [|ch chs IH]; simpl; intros b Hb; [done|].
  apply IH, apply_single_inv, Hb.
Qed.
#[export] Hint Resolve apply_singles_inv : trading.

(** Changes applied one at a time are the changes written in one batch. *)
Lemma apply_singles_write id chs b :
  book_inv b -> Forall change_ok chs ->
  book_sim (apply_singles id chs b) (normalize (write_levels chs b)).
Proof.
  intros Hb Hchs. induction chs as [|ch chs IH] using rev_ind.
  { symmetry. by apply normalize_sim. }
  apply Forall_app in Hchs as [Hchs Hch]. rewrite Forall_singleton in Hch.
  unfold apply_singles, write_levels in *. rewrite !foldl_app. simpl.
  rewrite apply_single_write by (done || by apply apply_singles_inv).
  destruct (IH Hchs) as [H1 H2 H3 H4]. simpl in *.
  unfold normalize, write_level. destruct (pc_side ch); split; simpl; rewrite ?H1, ?H2; done.
Qed.

Lemma apply_singles_app id chs1 chs2 b :
  apply_singles id (chs1 ++ chs2) b = apply_singles id chs2 (apply_singles id chs1 b).
Proof. apply foldl_app. Qed.

#[export] Instance apply_singles_sim id chs : Proper (book_sim ==> book_sim) (apply_singles id chs).
Proof.
  induction chs as [|ch chs IH]; intros a b Hab; simpl; [done|].
  apply IH. by apply (book_sim_price_change (mkAssetPriceChange id kInvalidPrice kInvalidPrice [ch])).
Qed.

(** ** Runs of deltas *)
Lemma drain_deltas_app ds1 ds2 s : drain_deltas (ds1 ++ ds2) s = drain_deltas ds2 (drain_deltas ds1 s).
Proof. apply foldl_app. Qed.

Lemma apply_delta_other d s id :
  bd_asset_id d <> id -> books_ (apply_delta d s) !! id = books_ s !! id.
Proof.
  intros Hne. unfold apply_delta. destruct (books_ s !! bd_asset_id d); [|done].
  destruct (bd_kind d); simpl; by rewrite lookup_insert_ne.
Qed.

Lemma apply_delta_unseeded d s :
  books_ s !! bd_asset_id d = None -> apply_delta d s = s.
Proof. intros H. unfold apply_delta. by rewrite H. Qed.

Lemma drain_deltas_other ds s id :
  Forall (fun d => bd_asset_id d <> id) ds -> books_ (drain_deltas ds s) !! id = books_ s !! id.
Proof.
  intros Hds. revert s. induction Hds as [|d ds Hd Hds IH]; intros s; [done|].
  change (drain_deltas (d :: ds) s) with (drain_deltas ds (apply_delta d s)).
  by rewrite IH, apply_delta_other.
Qed.

(** Continuation messages carry changes only. *)
Definition plain_delta (id : AssetId) (d : BookDelta) : Prop :=
  bd_asset_id d = id /\ bd_kind d <> BookDeltaKind.SNAPSHOT_BEGIN /\
  (bd_kind d = BookDeltaKind.INCREMENTAL -> bd_tick_size d <= 0).

Lemma apply_delta_plain id d s b :
  plain_delta id d -> books_ s !! id = Some b ->
  books_ (apply_delta d s) !! id = Some (apply_singles id (bd_changes d) b).
Proof.
  intros (<- & Hk & Ht) Hb. unfold apply_delta. rewrite Hb.
  destruct (bd_kind d); simpl; rewrite ?lookup_insert_eq; try done.
  destruct (Z.gtb_spec (bd_tick_size d) 0); [|done]. specialize (Ht eq_refl). lia.
Qed.

Lemma drain_deltas_plain id ds s b :
  Forall (plain_delta id) ds -> books_ s !! id = Some b ->
  books_ (drain_deltas ds s) !! id = Some (apply_singles id (mjoin (bd_changes <$> ds)) b).
Proof.
  intros Hds. revert s b. induction Hds as [|d ds Hd Hds IH]; intros s b Hb; [done|].
  cbn [fmap list_fmap mjoin list_join]. rewrite apply_singles_app.
  apply IH. by apply apply_delta_plain.
Qed.
