(* ===== verification/MarketStateStore.v ===== *)
(** The market state of the network thread: [src/state/market_state_store.cpp]
    and [market_state_store.h].

    Every handler of [apply] is a definition; the store owns the producer ends
    of the strategy queue, of the book-delta queue (optional) and of the user
    interface queue (optional).  Counters of the metrics component are not
    part of the state.  While a snapshot message is retried, the consumer may
    pop: [env n] is what it does to the queue between two attempts.

    Shown here: what each handler pushes on the delta queue, as messages whose
    concatenated changes are the event's changes in order. *)
From S2P Require Import Prelude Types OrderBook Events SpscQueue StrategyBookStore.

Record AssetState := mkAssetState {
  as_book : OrderBook;
  as_tick_size : Z;
  cached_bbo : BBO;
  last_trade_price : Z;
  last_trade_size : Z;
  snapshot_count : Z;
  update_count : Z }.
Definition AssetState_new : AssetState :=
  mkAssetState OrderBook_new 100 BBO_default kInvalidPrice 0 0 0.

Record UiBookUpdate := mkUiBookUpdate {
  ub_asset_id : AssetId;
  ub_bbo : BBO;
  ub_bids : list (Z * Z);   (* the first [bid_count] of [kMaxUiBookDepth] *)
  ub_asks : list (Z * Z);
  ub_timestamp : Z }.
Definition kMaxUiBookDepth : Z := 10.

Section Store.
Context {Q : Type -> Type} `{RingQueue Q}.

Record MarketStateStore := mkMarketStateStore {
  states_ : gmap AssetId AssetState;
  down_tokens_ : gset AssetId;
  strategy_queue_ : SpscQueue Q MarketNotification;
  book_delta_queue_ : option (SpscQueue Q BookDelta);
  ui_book_queue_ : option (SpscQueue Q UiBookUpdate);
  last_ui_push_ts_ : Z;
  ui_push_interval_ns_ : Z;
  strict_assets_ : bool }.

(** ** Set-up operations *)
Definition MarketStateStore_new (sq : SpscQueue Q MarketNotification) : MarketStateStore :=
  mkMarketStateStore ∅ ∅ sq None None 0 50000000 false.
Definition set_strict_assets (strict : bool) (st : MarketStateStore) : MarketStateStore :=
  mkMarketStateStore (states_ st) (down_tokens_ st) (strategy_queue_ st) (book_delta_queue_ st)
    (ui_book_queue_ st) (last_ui_push_ts_ st) (ui_push_interval_ns_ st) strict.
Definition with_states (m : gmap AssetId AssetState) (st : MarketStateStore) : MarketStateStore :=
  mkMarketStateStore m (down_tokens_ st) (strategy_queue_ st) (book_delta_queue_ st)
    (ui_book_queue_ st) (last_ui_push_ts_ st) (ui_push_interval_ns_ st) (strict_assets_ st).
Definition with_strategy_queue (q : SpscQueue Q MarketNotification) (st : MarketStateStore) :=
  mkMarketStateStore (states_ st) (down_tokens_ st) q (book_delta_queue_ st)
    (ui_book_queue_ st) (last_ui_push_ts_ st) (ui_push_interval_ns_ st) (strict_assets_ st).
Definition set_book_delta_queue (q : option (SpscQueue Q BookDelta)) (st : MarketStateStore) :=
  mkMarketStateStore (states_ st) (down_tokens_ st) (strategy_queue_ st) q
    (ui_book_queue_ st) (last_ui_push_ts_ st) (ui_push_interval_ns_ st) (strict_assets_ st).
Definition with_ui (q : option (SpscQueue Q UiBookUpdate)) (ts itv : Z) (st : MarketStateStore) :=
  mkMarketStateStore (states_ st) (down_tokens_ st) (strategy_queue_ st) (book_delta_queue_ st)
    q ts itv (strict_assets_ st).
Definition set_ui_book_queue (q : option (SpscQueue Q UiBookUpdate)) (rate_hz : Z)
    (st : MarketStateStore) : MarketStateStore :=
  with_ui q (last_ui_push_ts_ st)
    (if rate_hz >? 0 then 1000000000 ÷ rate_hz else ui_push_interval_ns_ st) st.
Definition seed_asset (id : AssetId) (st : MarketStateStore) : MarketStateStore :=
  match states_ st !! id with
  | Some _ => st
  | None => with_states (<[id := AssetState_new]> (states_ st)) st
  end.
Definition register_down_token (id : AssetId) (st : MarketStateStore) : MarketStateStore :=
  mkMarketStateStore (states_ st) ({[id]} ∪ down_tokens_ st) (strategy_queue_ st)
    (book_delta_queue_ st) (ui_book_queue_ st) (last_ui_push_ts_ st) (ui_push_interval_ns_ st)
    (strict_assets_ st).
Definition is_down_token (st : MarketStateStore) (id : AssetId) : bool :=
  bool_decide (id ∈ down_tokens_ st).
Definition get_state (st : MarketStateStore) (id : AssetId) : option AssetState := states_ st !! id.

(** [get_state_mut]: finds the entry, or creates it unless the store is strict. *)
Definition get_state_mut (id : AssetId) (st : MarketStateStore)
    : option AssetState * MarketStateStore :=
  match states_ st !! id with
  | Some a => (Some a, st)
  | None =>
      if strict_assets_ st then (None, st)
      else (Some AssetState_new, with_states (<[id := AssetState_new]> (states_ st)) st)
  end.
Definition put_state (id : AssetId) (a : AssetState) (st : MarketStateStore) : MarketStateStore :=
  with_states (<[id := a]> (states_ st)) st.

Definition emit_notification (k : NotificationKind) (id : AssetId) (recv seq : Z) (b : BBO)
    (tick exch : Z) (st : MarketStateStore) : MarketStateStore :=
  with_strategy_queue
    (try_push (mkMarketNotification k id recv seq b exch tick ""%string) (strategy_queue_ st)).1 st.

(** ** The delta queue *)
Variable env : nat -> SpscQueue Q BookDelta -> SpscQueue Q BookDelta.
Definition kSnapshotSpinLimit : nat := Z.to_nat 100000.

Fixpoint spin_attempts (n : nat) (delta : BookDelta) (q : SpscQueue Q BookDelta)
    : SpscQueue Q BookDelta :=
  match n with
  | O => q
  | S n => let '(q, ok) := try_push delta q in
           if (ok : bool) then q else spin_attempts n delta (env n q)
  end.

Definition push_delta (q : option (SpscQueue Q BookDelta)) (delta : BookDelta) (is_snapshot : bool)
    : option (SpscQueue Q BookDelta) :=
  match q with
  | None => None
  | Some q => Some (if is_snapshot then spin_attempts kSnapshotSpinLimit delta q
                    else (try_push delta q).1)
  end.

(** [delta.changes[delta.change_count++] = ch] *)
Definition add_change (delta : BookDelta) (ch : PriceChange) : BookDelta :=
  delta <| bd_changes ::= fun l => l ++ [ch] |>.

Definition delta_full (delta : BookDelta) : bool := (kMaxDeltaChanges <=? length (bd_changes delta))%nat.

(** The packing loops: flush the message and start it again when it is full,
    then append the change.  The snapshot path restarts with a continuation
    message, the incremental path empties the message and keeps its kind. *)
Fixpoint pack_loop (is_snapshot : bool) (restart : BookDelta -> BookDelta) (chs : list PriceChange)
    (q : option (SpscQueue Q BookDelta)) (delta : BookDelta)
    : option (SpscQueue Q BookDelta) * BookDelta :=
  match chs with
  | [] => (q, delta)
  | ch :: rest =>
      if delta_full delta
      then pack_loop is_snapshot restart rest (push_delta q delta is_snapshot)
             (add_change (restart delta) ch)
      else pack_loop is_snapshot restart rest q (add_change delta ch)
  end.
Definition restart_chunk (id : AssetId) (_ : BookDelta) : BookDelta :=
  mkBookDelta id BookDeltaKind.SNAPSHOT_CHUNK [] 0.
Definition restart_same (d : BookDelta) : BookDelta := d <| bd_changes := [] |>.
Definition pack_levels (id : AssetId) := pack_loop true (restart_chunk id).
Definition pack_changes := pack_loop false restart_same.

Definition level_changes (sd : Side) (levels : list PriceLevel) : list PriceChange :=
  (fun lv => mkPriceChange (pl_price lv) sd (pl_size lv)) <$> levels.

Definition push_snapshot_deltas (snap : BookSnapshot) (q : option (SpscQueue Q BookDelta))
    : option (SpscQueue Q BookDelta) :=
  let id := snap_asset_id snap in
  let begin_delta := mkBookDelta id BookDeltaKind.SNAPSHOT_BEGIN [] 0 in
  let '(q, delta) := pack_levels id (level_changes BID (snap_bids snap)) q begin_delta in
  let '(q, delta) := pack_levels id (level_changes ASK (snap_asks snap)) q delta in
  if bool_decide (bd_kind delta = BookDeltaKind.SNAPSHOT_BEGIN)
  then push_delta (push_delta q delta true) (mkBookDelta id BookDeltaKind.SNAPSHOT_END [] 0) true
  else push_delta q (delta <| bd_kind := BookDeltaKind.SNAPSHOT_END |>) true.

Definition push_incremental_deltas (ac : AssetPriceChange) (q : option (SpscQueue Q BookDelta))
    : option (SpscQueue Q BookDelta) :=
  let '(q, delta) := pack_changes (apc_changes ac) q
                       (mkBookDelta (apc_asset_id ac) BookDeltaKind.INCREMENTAL [] 0) in
  match bd_changes delta with [] => q | _ => push_delta q delta false end.

(** ** Handlers of [apply] *)
Definition refresh_cached (b : OrderBook) (a : AssetState) : AssetState :=
  a <| as_book := b |> <| cached_bbo := bbo_ b |>.

Definition on_book_snapshot (recv seq : Z) (p : BookSnapshot) (st : MarketStateStore) : MarketStateStore :=
  let id := snap_asset_id p in
  if is_down_token st id then st else
  let '(state, st) := get_state_mut id st in
  match state with
  | None => st
  | Some a =>
      let '(b, err) := apply_snapshot p (as_book a) in
      match err with
      | ErrorCode.OK =>
          let st := put_state id ((refresh_cached b a) <| snapshot_count ::= Z.succ |>) st in
          let st := set_book_delta_queue (push_snapshot_deltas p (book_delta_queue_ st)) st in
          emit_notification NotificationKind.BOOK_SNAPSHOT id recv seq (bbo_ b) 0 (snap_exchange_ts p) st
      | _ => put_state id (a <| as_book := b |>) st
      end
  end.

Definition on_asset_price_change (recv seq exch : Z) (st : MarketStateStore) (ac : AssetPriceChange)
    : MarketStateStore :=
  let id := apc_asset_id ac in
  if is_down_token st id then st else
  let '(state, st) := get_state_mut id st in
  match state with
  | None => st
  | Some a =>
      let '(b, err) := apply_price_change ac (as_book a) in
      match err with
      | ErrorCode.OK =>
          let st := put_state id ((refresh_cached b a) <| update_count ::= Z.succ |>) st in
          let st := set_book_delta_queue (push_incremental_deltas ac (book_delta_queue_ st)) st in
          emit_notification NotificationKind.PRICE_CHANGE id recv seq (bbo_ b) 0 exch st
      | _ => put_state id (a <| as_book := b |>) st
      end
  end.

(** The server's BBO is only compared (a metric); the entry may be created. *)
Definition on_best_bid_ask (p : BestBidAskEvent) (st : MarketStateStore) : MarketStateStore :=
  if is_down_token st (bba_asset_id p) then st else (get_state_mut (bba_asset_id p) st).2.

Definition on_tick_size_change (recv seq : Z) (p : TickSizeChangeEvent) (st : MarketStateStore)
    : MarketStateStore :=
  let id := tsc_asset_id p in
  if is_down_token st id then st else
  if tsc_new_tick_size p <=? 0 then st else
  let '(state, st) := get_state_mut id st in
  match state with
  | None => st
  | Some a =>
      let b := set_tick_size (tsc_new_tick_size p) (as_book a) in
      let st := put_state id (a <| as_tick_size := tsc_new_tick_size p |> <| as_book := b |>) st in
      let delta := mkBookDelta id BookDeltaKind.INCREMENTAL [] (tsc_new_tick_size p) in
      let st := set_book_delta_queue (push_delta (book_delta_queue_ st) delta false) st in
      emit_notification NotificationKind.TICK_SIZE_CHANGE id recv seq (bbo_ b) (tsc_new_tick_size p) 0 st
  end.

Definition on_last_trade (recv seq : Z) (p : LastTradePriceEvent) (st : MarketStateStore)
    : MarketStateStore :=
  let id := ltp_asset_id p in
  let '(state, st) := get_state_mut id st in
  match state with
  | None => st
  | Some a =>
      let st := put_state id (a <| last_trade_price := ltp_price p |>
                                <| last_trade_size := ltp_size p |>) st in
      emit_notification NotificationKind.LAST_TRADE id recv seq (bbo_ (as_book a)) 0 0 st
  end.

Definition mark_stale (st : MarketStateStore) (id : AssetId) : MarketStateStore :=
  let '(state, st) := get_state_mut id st in
  match state with
  | None => st
  | Some a => put_state id (a <| as_book ::= set_status BookStatus.STALE |>) st
  end.

Definition on_market_resolved (recv seq : Z) (p : MarketResolvedEvent) (st : MarketStateStore)
    : MarketStateStore :=
  let st := foldl mark_stale st (mr_assets p) in
  let notif := mkMarketNotification NotificationKind.MARKET_RESOLVED (mr_market_id p) recv seq
                 BBO_default 0 0 (mr_winning_asset_id p) in
  with_strategy_queue (try_push notif (strategy_queue_ st)).1 st.

(** The order in which the hash map is visited is not specified; the model
    visits it in the order of [map_to_list]. *)
Definition ui_update (now : Z) (id : AssetId) (a : AssetState) : UiBookUpdate :=
  mkUiBookUpdate id (bbo_ (as_book a)) (for_each_bid_n kMaxUiBookDepth (as_book a))
    (for_each_ask_n kMaxUiBookDepth (as_book a)) now.

Definition maybe_push_ui_books (now : Z) (st : MarketStateStore) : MarketStateStore :=
  match ui_book_queue_ st with
  | None => st
  | Some q =>
      if now - last_ui_push_ts_ st <? ui_push_interval_ns_ st then st
      else
        let q := foldl (fun q ia => if is_down_token st ia.1 then q
                                    else (try_push (ui_update now ia.1 ia.2) q).1)
                   q (map_to_list (states_ st)) in
        with_ui (Some q) now (ui_push_interval_ns_ st) st
  end.

Definition apply_payload (event : MarketEvent) (st : MarketStateStore) : MarketStateStore :=
  let recv := me_recv_ts event in
  let seq := me_seq event in
  match me_payload event with
  | EvBookSnapshot p => on_book_snapshot recv seq p st
  | EvPriceChange p => foldl (on_asset_price_change recv seq (pce_exchange_ts p)) st (pce_asset_changes p)
  | EvBestBidAsk p => on_best_bid_ask p st
  | EvTickSizeChange p => on_tick_size_change recv seq p st
  | EvLastTradePrice p => on_last_trade recv seq p st
  | EvNewMarket _ => st
  | EvMarketResolved p => on_market_resolved recv seq p st
  end.

Definition apply (now : Z) (event : MarketEvent) (st : MarketStateStore) : MarketStateStore :=
  maybe_push_ui_books now (apply_payload event st).

(** ** What the handlers push *)

(** [appends q ds q']: [ds] was appended to the queue and its capacity kept. *)
Definition appends (q : SpscQueue Q BookDelta) (ds : list BookDelta) (q' : SpscQueue Q BookDelta) : Prop :=
  contents q' = contents q ++ ds /\ capacity q' = capacity q.

Definition has_room (q : SpscQueue Q BookDelta) (n : nat) : Prop :=
  (length (contents q) + n <= capacity q)%nat.

Lemma appends_nil q : appends q [] q.
Proof. split; [by rewrite app_nil_r|done]. Qed.

Lemma appends_trans q1 q2 q3 ds1 ds2 :
  appends q1 ds1 q2 -> appends q2 ds2 q3 -> appends q1 (ds1 ++ ds2) q3.
Proof. intros [H1 H2] [H3 H4]. split; [by rewrite H3, H1, app_assoc|congruence]. Qed.

Lemma appends_room q ds q' n m :
  appends q ds q' -> has_room q n -> (length ds + m <= n)%nat -> has_room q' m.
Proof. intros [H1 H2] Hr Hle. unfold has_room in *. rewrite H1, H2, length_app. lia. Qed.

Lemma kSnapshotSpinLimit_S : exists n, kSnapshotSpinLimit = S n.
Proof. exists (Z.to_nat 99999). unfold kSnapshotSpinLimit. lia. Qed.

Lemma push_delta_room q d snap :
  has_room q 1 -> exists q', push_delta (Some q) d snap = Some q' /\ appends q [d] q'.
Proof.
  unfold has_room. intros Hr. unfold push_delta. eexists. split; [done|].
  pose proof (try_push_spec d q) as Hs. pose proof (try_push_room d q ltac:(lia)) as Hok.
  destruct snap.
  - destruct kSnapshotSpinLimit_S as [n ->]. cbn [spin_attempts].
    destruct (try_push d q) as [q' ok]; simpl in *; subst. split; by apply Hs.
  - destruct (try_push d q) as [q' ok]; simpl in *; subst. split; by apply Hs.
Qed.

Lemma kMaxDeltaChanges_pos : (0 < kMaxDeltaChanges)%nat.
Proof. unfold kMaxDeltaChanges. lia. Qed.
#[local] Opaque kMaxDeltaChanges.

(** What a packing loop flushed, and what is left in the message under
    construction. *)
Definition header (d : BookDelta) : AssetId * BookDeltaKind * Z :=
  (bd_asset_id d, bd_kind d, bd_tick_size d).
Definition all_changes (ds : list BookDelta) : list PriceChange := mjoin (bd_changes <$> ds).

Lemma all_changes_cons d ds : all_changes (d :: ds) = bd_changes d ++ all_changes ds.
Proof. done. Qed.

Lemma all_changes_app ds1 ds2 : all_changes (ds1 ++ ds2) = all_changes ds1 ++ all_changes ds2.
Proof.
  induction ds1 as [|d ds1 IH]; [done|]. simpl app. by rewrite !all_changes_cons, IH, app_assoc.
Qed.

Record packed (h0 h1 : AssetId * BookDeltaKind * Z) (ds : list BookDelta) (d : BookDelta) : Prop := {
  pk_first : match ds with
             | [] => header d = h0
             | d1 :: ds' => header d1 = h0 /\ Forall (fun e => header e = h1) ds' /\ header d = h1
             end;
  pk_size : (length (bd_changes d) <= kMaxDeltaChanges)%nat;
  pk_full : length (all_changes ds) = (kMaxDeltaChanges * length ds)%nat }.

Lemma packed_cons h1 d ds d' :
  length (bd_changes d) = kMaxDeltaChanges -> packed h1 h1 ds d' ->
  packed (header d) h1 (d :: ds) d'.
Proof.
  intros Hd [H1 H2 H3]. split; [|done|].
  - split; [done|]. destruct ds; [done|]. destruct H1 as (? & ? & ?). split; [by constructor|done].
  - rewrite all_changes_cons, length_app, Hd, H3. simpl. lia.
Qed.

Lemma pack_loop_spec snap restart h1 chs q d n :
  (forall e, bd_changes (restart e) = []) -> (forall e, header e = header d \/ header e = h1 ->
    header (restart e) = h1) ->
  (length (bd_changes d) <= kMaxDeltaChanges)%nat ->
  has_room q n -> (length (bd_changes d) + length chs <= kMaxDeltaChanges * S n)%nat ->
  exists q' d' ds, pack_loop snap restart chs (Some q) d = (Some q', d') /\ appends q ds q' /\
    all_changes ds ++ bd_changes d' = bd_changes d ++ chs /\ packed (header d) h1 ds d'.
Proof.
  intros Hnil. revert q d n. induction chs as [|ch chs IH]; intros q d n Hh Hd Hroom Hn; cbn [pack_loop].
  { exists q, d, []. rewrite app_nil_r. split_and!; [done|apply appends_nil|done|by split]. }
  unfold delta_full. destruct (Nat.leb_spec kMaxDeltaChanges (length (bd_changes d))) as [Hfull|Hfull].
  - destruct n as [|n]; [rewrite Nat.mul_1_r in Hn; simpl in Hn; lia|].
    destruct (push_delta_room q d snap) as (q1 & -> & Happ); [unfold has_room in *; lia|].
    assert (header (add_change (restart d) ch) = h1) as Hh1.
    { rewrite <- (Hh d (or_introl eq_refl)). done. }
    destruct (IH q1 (add_change (restart d) ch) n) as (q' & d' & ds & -> & Happ' & Hcat & Hpk).
    + rewrite Hh1. intros e [He|He]; apply Hh; by right.
    + simpl. rewrite Hnil. apply kMaxDeltaChanges_pos.
    + eapply appends_room; [done|done|simpl; lia].
    + simpl in *. rewrite Hnil. simpl. lia.
    + exists q', d', (d :: ds). split; [done|]. split; [by apply (appends_trans _ _ _ [d] ds Happ Happ')|].
      rewrite Hh1 in Hpk. split.
      * rewrite all_changes_cons, <- app_assoc, Hcat. simpl. by rewrite Hnil.
      * apply packed_cons; [lia|done].
  - destruct (IH q (add_change d ch) n) as (q' & d' & ds & -> & Happ' & Hcat & Hpk).
    + exact Hh.
    + simpl. rewrite length_app. simpl. lia.
    + done.
    + simpl in *. rewrite length_app. simpl. lia.
    + exists q', d', ds. split_and!; [done|done| |done].
      rewrite Hcat. simpl. by rewrite <- app_assoc.
Qed.

(** Messages of a snapshot of [n] levels, or of a batch of [n] changes. *)
Definition snapshot_messages (n : nat) : nat := (n / kMaxDeltaChanges + 2)%nat.
Definition batch_messages (n : nat) : nat := (n / kMaxDeltaChanges + 1)%nat.

Lemma div_chunks_bound n : (n <= kMaxDeltaChanges * S (n / kMaxDeltaChanges))%nat.
Proof. pose proof (Nat.mul_succ_div_gt n kMaxDeltaChanges ltac:(pose proof kMaxDeltaChanges_pos; lia)). lia. Qed.
Lemma pack_loop_app snap restart c1 c2 q d :
  pack_loop snap restart (c1 ++ c2) q d =
    let '(q', d') := pack_loop snap restart c1 q d in pack_loop snap restart c2 q' d'.
Proof.
  revert q d. induction c1 as [|c c1 IH]; intros q d; [done|].
  cbn [pack_loop app]. by destruct (delta_full d); rewrite IH.
Qed.

Lemma flushed_bound ds (k total : nat) :
  length (all_changes ds) = (kMaxDeltaChanges * length ds)%nat ->
  (length (all_changes ds) + k = total)%nat -> (length ds <= total / kMaxDeltaChanges)%nat.
Proof.
  intros H1 H2. pose proof kMaxDeltaChanges_pos.
  apply Nat.div_le_lower_bound; lia.
Qed.

Definition snapshot_changes (snap : BookSnapshot) : list PriceChange :=
  level_changes BID (snap_bids snap) ++ level_changes ASK (snap_asks snap).

(** A snapshot is sent as one BEGIN message, continuation chunks and one END
    message, whose changes concatenate to the snapshot's levels. *)
Lemma push_snapshot_deltas_spec snap q :
  has_room q (snapshot_messages (length (snapshot_changes snap))) ->
  exists q' d1 mid dn, push_snapshot_deltas snap (Some q) = Some q' /\
    appends q (d1 :: mid ++ [dn]) q' /\
    (length (d1 :: mid ++ [dn]) <= snapshot_messages (length (snapshot_changes snap)))%nat /\
    header d1 = (snap_asset_id snap, BookDeltaKind.SNAPSHOT_BEGIN, 0) /\
    Forall (fun e => header e = (snap_asset_id snap, BookDeltaKind.SNAPSHOT_CHUNK, 0)) mid /\
    header dn = (snap_asset_id snap, BookDeltaKind.SNAPSHOT_END, 0) /\
    all_changes (d1 :: mid ++ [dn]) = snapshot_changes snap.
Proof.
  unfold snapshot_messages. set (id := snap_asset_id snap). set (total := length _). intros Hroom.
  set (b0 := mkBookDelta id BookDeltaKind.SNAPSHOT_BEGIN [] 0).
  destruct (pack_loop_spec true (restart_chunk id) (id, BookDeltaKind.SNAPSHOT_CHUNK, 0)
              (snapshot_changes snap) q b0 (total / kMaxDeltaChanges))
    as (q1 & d' & ds & Hpack & Happ & Hcat & [Hfst Hsz Hfull]); [done|done|simpl; lia| | |].
  { unfold has_room in *. lia. }
  { apply div_chunks_bound. }
  pose proof (f_equal length Hcat) as Hlen. rewrite length_app in Hlen. simpl in Hlen.
  pose proof (flushed_bound _ _ _ Hfull Hlen) as Hds. fold total in Hds.
  assert (has_room q1 2) as Hr1 by (eapply appends_room; [done|done|lia]).
  unfold snapshot_changes in Hpack. rewrite pack_loop_app in Hpack.
  unfold push_snapshot_deltas, pack_levels. fold id. fold b0.
  destruct (pack_loop true _ (level_changes BID _) (Some q) b0) as [qb db].
  rewrite Hpack. simpl in Hcat. destruct ds as [|d1 mid].
  - injection Hfst as Hid Hk Ht. rewrite bool_decide_eq_true_2 by done.
    destruct (push_delta_room q1 d' true) as (q2 & -> & Ha2); [unfold has_room in *; lia|].
    destruct (push_delta_room q2 (mkBookDelta id BookDeltaKind.SNAPSHOT_END [] 0) true)
      as (q3 & -> & Ha3); [eapply appends_room; [done|done|simpl; lia]|].
    exists q3, d', [], (mkBookDelta id BookDeltaKind.SNAPSHOT_END [] 0).
    split; [done|]. split; [apply (appends_trans _ _ _ [] _ Happ), (appends_trans _ _ _ [d'] _ Ha2 Ha3)|].
    split; [simpl; lia|].
    split; [unfold header; by rewrite Hid, Hk, Ht|]. split; [constructor|]. split; [done|].
    unfold all_changes in *. simpl in *. by rewrite app_nil_r.
  - destruct Hfst as (Hd1 & Hmid & Hd'). injection Hd' as Hid Hk Ht.
    rewrite bool_decide_eq_false_2 by (by rewrite Hk).
    destruct (push_delta_room q1 (d' <| bd_kind := BookDeltaKind.SNAPSHOT_END |>) true)
      as (q2 & -> & Ha2); [unfold has_room in *; lia|].
    exists q2, d1, mid, (d' <| bd_kind := BookDeltaKind.SNAPSHOT_END |>).
    split; [done|]. split; [apply (appends_trans _ _ _ _ _ Happ Ha2)|].
    split; [simpl in *; rewrite length_app; simpl; lia|].
    split; [done|]. split; [done|]. split; [unfold header; simpl; by rewrite Hid, Ht|].
    change (d1 :: mid ++ ?x) with ((d1 :: mid) ++ x). rewrite all_changes_app, <- Hcat.
    f_equal. unfold all_changes. simpl. by rewrite app_nil_r.
Qed.

(** A batch is sent as incremental messages whose changes concatenate to the
    batch's. *)
Lemma push_incremental_deltas_spec ac q :
  has_room q (batch_messages (length (apc_changes ac))) ->
  exists q' ds, push_incremental_deltas ac (Some q) = Some q' /\ appends q ds q' /\
    (length ds <= batch_messages (length (apc_changes ac)))%nat /\
    Forall (fun e => header e = (apc_asset_id ac, BookDeltaKind.INCREMENTAL, 0)) ds /\
    all_changes ds = apc_changes ac.
Proof.
  unfold batch_messages. set (id := apc_asset_id ac). set (total := length _). intros Hroom.
  set (h := (id, BookDeltaKind.INCREMENTAL, 0)).
  set (b0 := mkBookDelta id BookDeltaKind.INCREMENTAL [] 0).
  destruct (pack_loop_spec false restart_same h (apc_changes ac) q b0 (total / kMaxDeltaChanges))
    as (q1 & d' & ds & Hpack & Happ & Hcat & [Hfst Hsz Hfull]); [done| |simpl; lia| | |].
  { intros e He. change (header (restart_same e)) with (header e). by destruct He as [->| ->]. }
  { unfold has_room in *. lia. }
  { apply div_chunks_bound. }
  pose proof (f_equal length Hcat) as Hlen. rewrite length_app in Hlen. simpl in Hlen.
  pose proof (flushed_bound _ _ _ Hfull Hlen) as Hds. fold total in Hds.
  assert (Forall (fun e => header e = h) (ds ++ [d'])) as Hhs.
  { apply Forall_app. rewrite Forall_singleton. destruct ds as [|d1 ds']; [by split|].
    destruct Hfst as (? & ? & ?). split; [by constructor|done]. }
  unfold push_incremental_deltas, pack_changes. fold id b0. rewrite Hpack. simpl in Hcat.
  apply Forall_app in Hhs as [Hhs Hh']. destruct (bd_changes d') eqn:Ed.
  - exists q1, ds. rewrite app_nil_r in Hcat. split_and!; try done. lia.
  - destruct (push_delta_room q1 d' false) as (q2 & -> & Ha2).
    { eapply appends_room; [done|exact Hroom|lia]. }
    exists q2, (ds ++ [d']). split; [done|]. split; [apply (appends_trans _ _ _ _ _ Happ Ha2)|].
    split; [rewrite length_app; simpl; lia|]. split; [by apply Forall_app|].
    rewrite all_changes_app, <- Hcat. f_equal. unfold all_changes. simpl. by rewrite app_nil_r, Ed.
Qed.
End Store.
Arguments MarketStateStore Q : clear implicits.
