(* ===== verification/BookReplication.v ===== *)
(** Replication of the order books from the network thread ([MarketStateStore])
    to the strategy thread ([StrategyBookStore]) through the book-delta queue.

    The two stores and the queue form a transition system: the network thread
    applies a market event, the strategy thread pops one message and applies
    it.  The abstract specification is that the shadow books, once the queued
    messages are applied, are the network thread's books; [replication_refines]
    proves it for every interleaving in which the queue has room and snapshots
    are well formed, and [rejected_snapshot_desync] shows that the second
    condition is needed. *)
From S2P Require Import Prelude Types OrderBook Events SpscQueue StrategyBookStore MarketStateStore.

Section Replication.
Context {Q : Type -> Type} `{RingQueue Q}.
Variable env : nat -> SpscQueue Q BookDelta -> SpscQueue Q BookDelta.
Abbreviation Store := (MarketStateStore Q).

(** The network thread's book of an asset: a missing entry is a new book. *)
Definition t0_book (st : Store) (id : AssetId) : OrderBook :=
  from_option as_book OrderBook_new (states_ st !! id).
Definition t0_inv (st : Store) : Prop := forall id, book_inv (t0_book st id).

(** The shadow of every seeded UP asset is the network thread's book, and no
    snapshot is pending. *)
Definition synced (st : Store) (sh : StrategyBookStore) : Prop :=
  pending_snapshots_ sh = ∅ /\
  forall id b, books_ sh !! id = Some b -> id ∉ down_tokens_ st -> book_sim b (t0_book st id).

(** A well-formed snapshot: every level on the ladder, no negative size. *)
Definition snapshot_ok (snap : BookSnapshot) : bool :=
  match validate_changes (snapshot_changes snap) with None => true | Some _ => false end.

Definition event_ok (ev : MarketEvent) : bool :=
  match me_payload ev with EvBookSnapshot p => snapshot_ok p | _ => true end.

(** The most messages an event pushes. *)
Definition event_messages (ev : MarketEvent) : nat :=
  match me_payload ev with
  | EvBookSnapshot p => snapshot_messages (length (snapshot_changes p))
  | EvPriceChange p =>
      foldr (fun ac n => batch_messages (length (apc_changes ac)) + n)%nat O (pce_asset_changes p)
  | EvTickSizeChange _ => 1%nat
  | _ => O
  end.

(** ** The step relation *)
Inductive step : Store * StrategyBookStore -> Store * StrategyBookStore -> Prop :=
  | StepT0 st sh q now ev :
      book_delta_queue_ st = Some q -> has_room q (event_messages ev) -> event_ok ev = true ->
      step (st, sh) (apply env now ev st, sh)
  | StepT2 st sh q d :
      book_delta_queue_ st = Some q -> front q = Some d ->
      step (st, sh) (set_book_delta_queue (Some (pop q)) st, apply_delta d sh).

(** ** Handlers as emissions *)
Definition emits (n : nat) (st st' : Store) : Prop :=
  forall q, book_delta_queue_ st = Some q -> has_room q n -> t0_inv st ->
  exists q' ds, book_delta_queue_ st' = Some q' /\ appends q ds q' /\ (length ds <= n)%nat /\
    t0_inv st' /\ forall sh, synced st sh -> synced st' (drain_deltas ds sh).

Lemma emits_mono n m st st' : (n <= m)%nat -> emits n st st' -> emits m st st'.
Proof.
  intros Hle He q Hq Hr Hi.
  destruct (He q Hq) as (q' & ds & Hq' & Ha & Hl & Hrest); [unfold has_room in *; lia|done|].
  exists q', ds. split; [done|]. split; [done|]. split; [lia|done].
Qed.

Lemma emits_trans n m st1 st2 st3 : emits n st1 st2 -> emits m st2 st3 -> emits (n + m) st1 st3.
Proof.
  intros H12 H23 q Hq Hr Hi.
  destruct (H12 q Hq) as (q2 & ds1 & Hq2 & Ha1 & Hl1 & Hi2 & Hs1); [unfold has_room in *; lia|done|].
  destruct (H23 q2 Hq2) as (q3 & ds2 & Hq3 & Ha2 & Hl2 & Hi3 & Hs2).
  { eapply appends_room; [done|done|lia]. }
  { done. }
  exists q3, (ds1 ++ ds2). split; [done|]. split; [by eapply appends_trans|].
  split; [rewrite length_app; lia|]. split; [done|].
  intros sh Hsh. rewrite drain_deltas_app. auto.
Qed.

(** Steps that leave the queue, the books (up to status) and the filter alone. *)
Lemma emits_same st st' :
  book_delta_queue_ st' = book_delta_queue_ st -> down_tokens_ st' = down_tokens_ st ->
  (forall id, book_sim (t0_book st id) (t0_book st' id)) -> emits 0 st st'.
Proof.
  intros Hq Hd Hb q Hq0 _ Hi. exists q, []. rewrite Hq.
  split; [done|]. split; [apply appends_nil|]. split; [simpl; lia|]. split.
  - intros id. by rewrite <- (Hb id).
  - intros sh [Hp Hs]. split; [done|]. intros id b Hid Hnd.
    rewrite <- (Hb id). apply Hs; [done|by rewrite <- Hd].
Qed.

Lemma t0_book_put st id a id' :
  t0_book (put_state id a st) id' = if decide (id = id') then as_book a else t0_book st id'.
Proof.
  unfold t0_book, put_state. simpl. destruct (decide (id = id')) as [->|Hne].
  - by rewrite lookup_insert_eq.
  - by rewrite lookup_insert_ne.
Qed.

(** What [get_state_mut] guarantees its callers. *)
Lemma get_state_mut_spec id st :
  let '(r, st') := get_state_mut id st in
  emits 0 st st' /\ book_delta_queue_ st' = book_delta_queue_ st /\
  down_tokens_ st' = down_tokens_ st /\
  match r with Some a => as_book a = t0_book st' id | None => st' = st end.
Proof.
  unfold get_state_mut. destruct (states_ st !! id) as [a|] eqn:E.
  - split; [by apply emits_same|]. split; [done|]. split; [done|]. unfold t0_book. by rewrite E.
  - destruct (strict_assets_ st); [split; [by apply emits_same|done]|].
    split; [apply emits_same; [done|done|]; intros id'|split; [done|split; [done|]]].
    + change (with_states _ st) with (put_state id AssetState_new st). rewrite t0_book_put.
      destruct (decide (id = id')) as [<-|]; [|done]. unfold t0_book. by rewrite E.
    + change (with_states _ st) with (put_state id AssetState_new st).
      rewrite t0_book_put. by rewrite decide_True by done.
Qed.

(** Updating one asset: the messages must take any synced shadow of the old
    book to the new book, and leave other assets and the pending set alone. *)
Definition carries (id : AssetId) (b b' : OrderBook) (ds : list BookDelta) : Prop :=
  Forall (fun d => bd_asset_id d = id) ds /\
  forall sh bs, pending_snapshots_ sh = ∅ -> books_ sh !! id = Some bs -> book_sim bs b -> book_inv bs ->
    pending_snapshots_ (drain_deltas ds sh) = ∅ /\
    exists bs', books_ (drain_deltas ds sh) !! id = Some bs' /\ book_sim bs' b'.

Lemma drain_unseeded id ds sh :
  Forall (fun d => bd_asset_id d = id) ds -> books_ sh !! id = None -> drain_deltas ds sh = sh.
Proof.
  intros Hids Hb. induction Hids as [|d ds Hd Hids IH]; [done|].
  change (drain_deltas (d :: ds) sh) with (drain_deltas ds (apply_delta d sh)).
  by rewrite apply_delta_unseeded by (by rewrite Hd).
Qed.

Lemma emits_update st st' id b' n :
  is_down_token st id = false -> down_tokens_ st' = down_tokens_ st ->
  (forall id', t0_book st' id' = if decide (id = id') then b' else t0_book st id') ->
  book_inv b' ->
  (forall q, book_delta_queue_ st = Some q -> has_room q n ->
     exists q' ds, book_delta_queue_ st' = Some q' /\ appends q ds q' /\ (length ds <= n)%nat /\
       carries id (t0_book st id) b' ds) ->
  emits n st st'.
Proof.
  intros Hnd Hdown Hbooks Hinv' Hqueue q Hq Hr Hi.
  destruct (Hqueue q Hq Hr) as (q' & ds & Hq' & Ha & Hlen & Hids & Hdrain). exists q', ds.
  split; [done|]. split; [done|]. split; [done|]. split.
  { intros id'. rewrite Hbooks. by destruct (decide (id = id')). }
  apply bool_decide_eq_false in Hnd.
  intros sh [Hp Hs]. destruct (books_ sh !! id) as [b|] eqn:Eb.
  - pose proof (Hs id b Eb Hnd) as Hb.
    destruct (Hdrain sh b Hp Eb Hb) as (Hp2 & b2 & Hb2 & Hsim); [rewrite Hb; apply Hi|].
    split; [done|]. intros id' b0 Hb0 Hnd'. rewrite Hbooks.
    destruct (decide (id = id')) as [<-|Hne]; [by simplify_eq|].
    rewrite drain_deltas_other in Hb0; [rewrite Hdown in Hnd'; auto|].
    eapply Forall_impl; [exact Hids|]. intros d Hd ?. congruence.
  - rewrite (drain_unseeded id) by done.
    split; [done|]. intros id' b0 Hb0 Hnd'. rewrite Hbooks.
    destruct (decide (id = id')) as [<-|Hne]; [congruence|]. rewrite Hdown in Hnd'. auto.
Qed.

(** ** Snapshots *)
Lemma load_levels_write sd levels l l' b :
  load_levels levels l = (l', None) -> ladder_of sd b = l ->
  Forall change_ok (level_changes sd levels) /\
  ladder_of sd (write_levels (level_changes sd levels) b) = l' /\
  forall sd', sd' <> sd ->
    ladder_of sd' (write_levels (level_changes sd levels) b) = ladder_of sd' b.
Proof.
  revert l b. induction levels as [|lv levels IH]; intros l b; simpl.
  { intros [= <-] <-. split; [constructor|done]. }
  destruct (level_error _ _) eqn:E; [done|]. intros Hl Hb.
  destruct (IH _ (write_level b (mkPriceChange (pl_price lv) sd (pl_size lv))) Hl)
    as (H1 & H2 & H3); [rewrite <- Hb; by destruct sd|].
  split; [constructor; [by apply level_error_None in E|done]|]. split; [done|].
  intros sd' Hne. etrans; [by apply H3|]. by destruct sd, sd'.
Qed.

Lemma write_levels_app c1 c2 b : write_levels (c1 ++ c2) b = write_levels c2 (write_levels c1 b).
Proof. apply foldl_app. Qed.

Lemma write_levels_tick chs b : tick_size_ (write_levels chs b) = tick_size_ b.
Proof.
  revert b. induction chs as [|ch chs IH]; intros b; [done|].
  change (write_levels (ch :: chs) b) with (write_levels chs (write_level b ch)).
  rewrite IH. unfold write_level. by destruct (pc_side ch).
Qed.

Lemma normalize_ext a b :
  bids_ a = bids_ b -> asks_ a = asks_ b -> tick_size_ a = tick_size_ b ->
  book_sim (normalize a) (normalize b).
Proof.
  intros H1 H2 H3. unfold normalize, recompute_bbo. rewrite H1, H2. by split.
Qed.

Lemma load_levels_not_OK levels l : (load_levels levels l).2 <> Some ErrorCode.OK.
Proof.
  revert l. induction levels as [|lv levels IH]; intros l; simpl; [done|].
  unfold level_error. by destruct (_ || _); [|destruct (_ <? 0)].
Qed.

(** An accepted snapshot writes its levels on the cleared book. *)
Lemma apply_snapshot_write snap b b' :
  apply_snapshot snap b = (b', ErrorCode.OK) ->
  Forall change_ok (snapshot_changes snap) /\
  book_sim b' (normalize (write_levels (snapshot_changes snap) (clear b))).
Proof.
  unfold apply_snapshot. destruct (load_levels (snap_bids snap) _) as [bids [e|]] eqn:Eb.
  { intros [= _ ->]. exact (False_ind _ (load_levels_not_OK _ _ (f_equal snd Eb))). }
  destruct (load_levels (snap_asks snap) _) as [asks [e|]] eqn:Ea.
  { intros [= _ ->]. exact (False_ind _ (load_levels_not_OK _ _ (f_equal snd Ea))). }
  intros [= <-].
  destruct (load_levels_write BID _ _ _ (clear b) Eb) as (Hb1 & Hb2 & Hb3); [done|].
  set (b1 := write_levels (level_changes BID (snap_bids snap)) (clear b)) in *.
  destruct (load_levels_write ASK _ _ _ b1 Ea) as (Ha1 & Ha2 & Ha3); [by apply (Hb3 ASK)|].
  unfold snapshot_changes. split; [by apply Forall_app|].
  rewrite write_levels_app. apply normalize_ext; simpl in *.
  - etrans; [exact (eq_sym Hb2)|]. symmetry. by apply (Ha3 BID).
  - symmetry. exact Ha2.
  - rewrite write_levels_tick. unfold b1. rewrite write_levels_tick. done.
Qed.
Lemma load_levels_ok sd levels l :
  Forall change_ok (level_changes sd levels) -> (load_levels levels l).2 = None.
Proof.
  revert l. induction levels as [|lv levels IH]; intros l Hok; simpl; [done|].
  inversion_clear Hok as [|?? [Hp Hs] Hrest]. rewrite (proj2 (level_error_None _ _)) by done. auto.
Qed.

Lemma apply_snapshot_ok snap b :
  snapshot_ok snap = true -> (apply_snapshot snap b).2 = ErrorCode.OK.
Proof.
  unfold snapshot_ok. destruct (validate_changes _) eqn:E; [done|]. intros _.
  apply validate_changes_None, Forall_app in E as [Hb Ha]. unfold apply_snapshot.
  pose proof (load_levels_ok BID _ (bids_ (clear b)) Hb) as E1.
  destruct (load_levels (snap_bids snap) _) as [bids e]; simpl in E1; subst e.
  pose proof (load_levels_ok ASK _ (asks_ (clear b <| bids_ := bids |>)) Ha) as E2.
  destruct (load_levels (snap_asks snap) _) as [asks e]; simpl in E2; by subst e.
Qed.

(** A BEGIN message, continuation chunks and an END message: the shadow book is
    cleared and rewritten, and is valid again. *)
Lemma drain_snapshot id sh b d1 mid dn :
  header d1 = (id, BookDeltaKind.SNAPSHOT_BEGIN, 0) ->
  Forall (fun e => header e = (id, BookDeltaKind.SNAPSHOT_CHUNK, 0)) mid ->
  header dn = (id, BookDeltaKind.SNAPSHOT_END, 0) ->
  pending_snapshots_ sh = ∅ -> books_ sh !! id = Some b ->
  pending_snapshots_ (drain_deltas (d1 :: mid ++ [dn]) sh) = ∅ /\
  books_ (drain_deltas (d1 :: mid ++ [dn]) sh) !! id =
    Some (apply_singles id (all_changes (d1 :: mid ++ [dn])) (clear b)).
Proof.
  intros [= H1 H2 H3] Hmid [= H4 H5 H6] Hp Hb.
  change (drain_deltas (d1 :: mid ++ [dn]) sh) with (drain_deltas (mid ++ [dn]) (apply_delta d1 sh)).
  assert (books_ (apply_delta d1 sh) !! id = Some (apply_singles id (bd_changes d1) (clear b)) /\
          pending_snapshots_ (apply_delta d1 sh) = {[id]}) as [Hb1 Hp1].
  { unfold apply_delta. rewrite H1, Hb, H2. simpl. rewrite lookup_insert_eq, Hp.
    split; [done|set_solver]. }
  assert (Forall (plain_delta id) (mid ++ [dn])) as Hplain.
  { apply Forall_app. split; [|repeat constructor; [done| |]; by rewrite H5].
    eapply Forall_impl; [exact Hmid|]. intros e [= E1 E2 E3]. split; [done|]. by rewrite E2. }
  split.
  - rewrite drain_deltas_app. set (s1 := apply_delta d1 sh) in *. clearbody s1.
    assert (pending_snapshots_ (drain_deltas mid s1) = {[id]} /\
            is_Some (books_ (drain_deltas mid s1) !! id)) as [Hpm [bm Hbm]].
    { clear Hplain. revert s1 Hb1 Hp1. generalize (apply_singles id (bd_changes d1) (clear b)).
      induction Hmid as [|e mid [= E1 E2 E3] Hmid IH]; intros bk s1 Hb1 Hp1; [by eauto|].
      change (drain_deltas (e :: mid) s1) with (drain_deltas mid (apply_delta e s1)).
      apply (IH (apply_singles id (bd_changes e) bk)).
      - apply apply_delta_plain; [split; [done|]; by rewrite E2|done].
      - unfold apply_delta. by rewrite E1, Hb1, E2. }
    simpl. unfold apply_delta. rewrite H4, Hbm, H5. simpl. rewrite Hpm. set_solver.
  - rewrite all_changes_cons, apply_singles_app. by apply drain_deltas_plain.
Qed.

(** The common frame of the handlers that update one UP book. *)
Lemma emits_handler st id n (f : AssetState -> Store -> Store) :
  (forall a st1, is_down_token st1 id = false -> as_book a = t0_book st1 id -> emits n st1 (f a st1)) ->
  emits n st (if is_down_token st id then st
              else let '(r, st1) := get_state_mut id st in
                   match r with None => st1 | Some a => f a st1 end).
Proof.
  intros Hf. destruct (is_down_token st id) eqn:Hdown; [eapply emits_mono; [|by apply emits_same]; lia|].
  pose proof (get_state_mut_spec id st) as Hget. destruct (get_state_mut id st) as [r st1].
  destruct Hget as (He & Hq1 & Hd1 & Hr). destruct r as [a|]; [|eapply emits_mono; [|done]; lia].
  apply (emits_trans 0 n _ _ _ He), Hf; [|done]. unfold is_down_token in *. by rewrite Hd1.
Qed.

Lemma emits_on_snapshot recv seq p st :
  snapshot_ok p = true ->
  emits (snapshot_messages (length (snapshot_changes p))) st (on_book_snapshot env recv seq p st).
Proof.
  intros Hok. apply emits_handler. intros a st1 Hdown Hr. set (id := snap_asset_id p) in *.
  pose proof (apply_snapshot_ok p (as_book a) Hok) as Herr.
  pose proof (apply_snapshot_inv p (as_book a)) as Hinv'.
  destruct (apply_snapshot p (as_book a)) as [b err] eqn:Eapp. simpl in Herr, Hinv'. subst err.
  apply apply_snapshot_write in Eapp as [Hch Hsim].
  apply (emits_update _ _ id b); [done|done|apply t0_book_put|done|]. intros q Hq Hroom.
  destruct (push_snapshot_deltas_spec env p q Hroom)
    as (q' & d1 & mid & dn & Hpush & Happ & Hlen & Hh1 & Hhm & Hhn & Hall).
  exists q', (d1 :: mid ++ [dn]). split; [simpl; by rewrite Hq|]. split; [done|]. split; [done|].
  split.
  - repeat constructor; [by injection Hh1|]. apply Forall_app. split; [|by repeat constructor; injection Hhn].
    eapply Forall_impl; [exact Hhm|]. by intros e [= ? ? ?].
  - intros sh bs Hp Hbs Hbsim Hbinv.
    destruct (drain_snapshot id sh bs d1 mid dn) as [Hp2 Hb2]; [done..|].
    split; [done|]. eexists. split; [exact Hb2|]. rewrite Hall.
    etrans; [apply apply_singles_write; [apply clear_inv|done]|]. etrans; [|symmetry; exact Hsim].
    assert (clear bs = clear (as_book a)) as ->; [|done].
    rewrite Hr. destruct Hbsim as [_ _ _ Ht]. unfold clear. destruct bs, (t0_book st1 id). simpl in *.
    by subst.
Qed.

Lemma emits_put_unchanged st id a b :
  as_book a = t0_book st id -> book_sim b (as_book a) -> emits 0 st (put_state id (a <| as_book := b |>) st).
Proof.
  intros Ha Hb. apply emits_same; [done|done|]. intros id'. rewrite t0_book_put.
  destruct (decide (id = id')) as [<-|]; [|done]. rewrite <- Ha. by symmetry.
Qed.

Lemma emits_on_asset_change recv seq exch st ac :
  emits (batch_messages (length (apc_changes ac))) st (on_asset_price_change env recv seq exch st ac).
Proof.
  apply emits_handler. intros a st1 Hdown Hr. set (id := apc_asset_id ac) in *.
  intros q Hq Hroom Hi. assert (book_inv (as_book a)) as Ha by (rewrite Hr; apply Hi).
  pose proof (apply_price_change_inv ac _ Ha) as Hinv'.
  rewrite apply_price_change_rescan in Hinv' |- * by done. unfold apply_price_change_ref in *.
  destruct (validate_changes (apc_changes ac)) as [e|] eqn:Ev.
  { assert (emits 0 st1 (put_state id (a <| as_book := as_book a |>) st1)) as He
      by (by apply emits_put_unchanged).
    apply (emits_mono 0 (batch_messages (length (apc_changes ac)))) in He; [|lia].
    assert (e <> ErrorCode.OK) as Hne.
    { clear -Ev. induction (apc_changes ac) as [|c l IH]; simpl in Ev; [done|].
      unfold level_error in Ev. destruct (_ || _); [by simplify_eq|].
      destruct (_ <? 0); [by simplify_eq|auto]. }
    destruct e; first [done | exact (He q Hq Hroom Hi)]. }
  apply validate_changes_None in Ev. simpl in Hinv'. fold (normalize (write_levels (apc_changes ac) (as_book a))) in *.
  revert q Hq Hroom Hi. apply (emits_update _ _ id (normalize (write_levels (apc_changes ac) (as_book a))));
    [done|done|apply t0_book_put|done|].
  intros q Hq Hroom.
  destruct (push_incremental_deltas_spec env ac q Hroom) as (q' & ds & Hpush & Happ & Hlen & Hh & Hall).
  exists q', ds. split; [simpl; by rewrite Hq|]. split; [done|]. split; [done|]. split.
  - eapply Forall_impl; [exact Hh|]. by intros e [= ? ? ?].
  - intros sh bs Hp Hbs Hbsim Hbinv.
    assert (Forall (plain_delta id) ds) as Hplain.
    { eapply Forall_impl; [exact Hh|]. intros e [= E1 E2 E3]. split; [done|]. rewrite E2, E3. done. }
    split.
    + clear Hall Hpush Happ Hlen Hbs. revert sh Hp. induction Hh as [|e ds [= E1 E2 E3] Hh IH]; intros sh Hp; [done|].
      change (drain_deltas (e :: ds) sh) with (drain_deltas ds (apply_delta e sh)).
      apply Forall_cons in Hplain as [_ Hplain]. apply IH; [done|]. unfold apply_delta.
      destruct (books_ sh !! bd_asset_id e); [|done]. by rewrite E2.
    + eexists. split; [by apply drain_deltas_plain|].
      fold (all_changes ds). rewrite Hall. rewrite Hbsim. rewrite <- Hr.
      by apply apply_singles_write.
Qed.
Lemma emits_on_tick recv seq p st : emits 1 st (on_tick_size_change env recv seq p st).
Proof.
  unfold on_tick_size_change. destruct (Z.leb_spec (tsc_new_tick_size p) 0) as [Hle|Hpos].
  { destruct (is_down_token _ _); (eapply emits_mono; [|by apply emits_same]; lia). }
  apply emits_handler. intros a st1 Hdown Hr. set (id := tsc_asset_id p) in *.
  intros q Hq Hroom Hi. assert (book_inv (as_book a)) as Ha by (rewrite Hr; apply Hi).
  revert q Hq Hroom Hi.
  apply (emits_update _ _ id (set_tick_size (tsc_new_tick_size p) (as_book a)));
    [done|done|apply t0_book_put|by destruct Ha|].
  intros q Hq Hroom. set (d := mkBookDelta id BookDeltaKind.INCREMENTAL [] (tsc_new_tick_size p)).
  destruct (push_delta_room env q d false Hroom) as (q' & Hpush & Happ).
  exists q', [d]. split; [simpl; rewrite Hq; exact Hpush|]. split; [done|]. split; [done|].
  split; [by repeat constructor|]. intros sh bs Hp Hbs Hsim Hbinv. simpl.
  unfold apply_delta. simpl. rewrite Hbs. destruct (Z.gtb_spec (tsc_new_tick_size p) 0); [|lia].
  split; [done|]. eexists. split; [simpl; by rewrite lookup_insert_eq|].
  rewrite Hr. by apply book_sim_tick.
Qed.

Lemma emits_mark_stale st id : emits 0 st (mark_stale st id).
Proof.
  unfold mark_stale. pose proof (get_state_mut_spec id st) as Hget.
  destruct (get_state_mut id st) as [[a|] st1]; [|by destruct Hget].
  destruct Hget as (He & _ & _ & Ha). apply (emits_trans 0 0 _ _ _ He).
  apply (emits_put_unchanged _ _ _ (set_status BookStatus.STALE (as_book a))); [done|apply book_sim_status].
Qed.

Lemma emits_foldl {A} (f : Store -> A -> Store) (n : A -> nat) l st :
  (forall st x, emits (n x) st (f st x)) -> emits (foldr (fun x k => n x + k)%nat O l) st (foldl f st l).
Proof.
  intros Hf. revert st. induction l as [|x l IH]; intros st; simpl; [by apply emits_same|].
  eapply emits_trans; [apply Hf|apply IH].
Qed.

Lemma emits_apply now ev st : event_ok ev = true -> emits (event_messages ev) st (apply env now ev st).
Proof.
  intros Hok. unfold apply. rewrite <- (Nat.add_0_r (event_messages ev)).
  apply (emits_trans _ 0 _ (apply_payload env ev st)).
  2: { apply emits_same; unfold maybe_push_ui_books; destruct (ui_book_queue_ _); try done;
       by destruct (_ <? _). }
  unfold event_ok in Hok. unfold apply_payload, event_messages. destruct (me_payload ev) as [p|p|p|p|p|p|p].
  - by apply emits_on_snapshot.
  - by apply emits_foldl; intros; apply emits_on_asset_change.
  - unfold on_best_bid_ask. destruct (is_down_token _ _); [by apply emits_same|].
    pose proof (get_state_mut_spec (bba_asset_id p) st) as Hget.
    destruct (get_state_mut _ st) as [r st1]. apply Hget.
  - apply emits_on_tick.
  - unfold on_last_trade. pose proof (get_state_mut_spec (ltp_asset_id p) st) as Hget.
    destruct (get_state_mut _ st) as [[a|] st1]; [|by destruct Hget].
    destruct Hget as (He & _ & _ & Ha). apply (emits_trans 0 0 _ _ _ He).
    apply emits_same; [done|done|]. intros id'. simpl.
    change (t0_book (emit_notification _ _ _ _ _ _ _ ?s) id') with (t0_book s id').
    rewrite t0_book_put. by destruct (decide _) as [<-|]; [rewrite <- Ha|].
  - by apply emits_same.
  - unfold on_market_resolved. apply (emits_trans 0 0 _ (foldl mark_stale st (mr_assets p))); [|by apply emits_same].
    assert (foldr (fun _ k => 0 + k)%nat O (mr_assets p) = O) as <- by (by induction (mr_assets p)).
    apply (emits_foldl mark_stale (fun _ => O)). intros. apply emits_mark_stale.
Qed.

(** ** Reachable states *)
Definition pipeline_synced (s : Store * StrategyBookStore) : Prop :=
  t0_inv s.1 /\ exists q, book_delta_queue_ s.1 = Some q /\ synced s.1 (drain_deltas (contents q) s.2).

Lemma step_synced s s' : step s s' -> pipeline_synced s -> pipeline_synced s'.
Proof.
  intros Hstep (Hi & q0 & Hq0 & Hs).
  destruct Hstep as [st sh q now ev Hq Hr Hok|st sh q d Hq Hf]; simpl in *;
    (assert (q0 = q) as -> by congruence).
  - destruct (emits_apply now ev st Hok q Hq Hr Hi) as (q' & ds & Hq' & [Hc Hcap] & _ & Hi' & Hd).
    split; [done|]. exists q'. split; [done|]. simpl. rewrite Hc, drain_deltas_app. auto.
  - split; [done|]. exists (pop q). split; [done|]. simpl.
    pose proof (try_pop_spec q) as Hp. unfold try_pop in Hp. unfold front in Hf. rewrite Hf in Hp.
    destruct (contents q) as [|d0 rest]; [done|]. simpl in Hp. destruct Hp as ([= ->] & Hc & _).
    by rewrite Hc.
Qed.

Lemma steps_synced s s' : rtc step s s' -> pipeline_synced s -> pipeline_synced s'.
Proof. induction 1; eauto using step_synced. Qed.

(** The start: nothing received, an empty delta queue, any seeded assets. *)
Definition initial (st : Store) (sh : StrategyBookStore) (q : SpscQueue Q BookDelta) : Prop :=
  book_delta_queue_ st = Some q /\ contents q = [] /\ states_ st = ∅ /\
  pending_snapshots_ sh = ∅ /\ forall id b, books_ sh !! id = Some b -> b = OrderBook_new.

Lemma initial_synced st sh q : initial st sh q -> pipeline_synced (st, sh).
Proof.
  intros (Hq & Hc & Hst & Hp & Hsh). unfold pipeline_synced, t0_inv, t0_book. simpl. rewrite Hst.
  split; [intros id; rewrite lookup_empty; apply OrderBook_new_inv|].
  exists q. split; [done|]. rewrite Hc. split; [done|].
  intros id b Hb _. unfold t0_book. rewrite Hst, lookup_empty, (Hsh _ _ Hb). reflexivity.
Qed.

(** A synced start stays synced. *)
Lemma steps_replicated st sh q st' sh'
    (Hinit : initial st sh q) (Hrun : rtc step (st, sh) (st', sh')) :
  exists q', book_delta_queue_ st' = Some q' /\
    (forall id b, books_ (drain_deltas (contents q') sh') !! id = Some b -> id ∉ down_tokens_ st' ->
       book_sim b (t0_book st' id)) /\
    (contents q' = [] -> forall id b, books_ sh' !! id = Some b ->
       is_book_valid sh' id = true /\ (id ∉ down_tokens_ st' -> book_sim b (t0_book st' id))).
Proof.
  destruct (steps_synced _ _ Hrun (initial_synced _ _ _ Hinit)) as (_ & q' & Hq' & Hp & Hs).
  simpl in *. exists q'. split; [done|]. split; [done|]. intros Hc id b Hb. rewrite Hc in *.
  split; [|intros Hnd; by apply Hs]. unfold is_book_valid. rewrite Hb. simpl in Hp. rewrite Hp.
  apply bool_decide_eq_true_2. set_solver.
Qed.

(** C1: Book replication refines its specification: along every interleaving of
    market events applied by the network thread (the delta queue having room
    for the event's messages, snapshots well formed) and messages consumed by
    the strategy thread, the shadow book of every seeded asset that is not a
    filtered DOWN token becomes, once the queued messages are applied, equal to
    the network thread's book in both ladders, best bid and offer and tick
    size; and when the queue is empty every such shadow book is that book and
    is reported valid. *)
Theorem replication_refines st sh q st' sh'
    (Hinit : initial st sh q) (Hrun : rtc step (st, sh) (st', sh')) :
  exists q', book_delta_queue_ st' = Some q' /\
    (forall id b, books_ (drain_deltas (contents q') sh') !! id = Some b -> id ∉ down_tokens_ st' ->
       book_sim b (t0_book st' id)) /\
    (contents q' = [] -> forall id b, books_ sh' !! id = Some b ->
       is_book_valid sh' id = true /\ (id ∉ down_tokens_ st' -> book_sim b (t0_book st' id))).
Proof. exact (steps_replicated _ _ _ _ _ Hinit Hrun). Qed.

Lemma load_levels_err sd levels l :
  ~ Forall change_ok (level_changes sd levels) -> is_Some (load_levels levels l).2.
Proof.
  revert l. induction levels as [|lv levels IH]; intros l Hn; simpl.
  { destruct Hn. constructor. }
  destruct (level_error _ _) eqn:E; [by eexists|]. apply IH. intros Hr. apply Hn.
  constructor; [by apply level_error_None in E|done].
Qed.

Lemma apply_snapshot_rejected snap b :
  snapshot_ok snap = false -> exists e, apply_snapshot snap b = (clear b, e) /\ e <> ErrorCode.OK.
Proof.
  unfold snapshot_ok. destruct (validate_changes _) eqn:E; [|done]. intros _.
  assert (~ Forall change_ok (snapshot_changes snap)) as Hn.
  { intros Hv%validate_changes_None. congruence. }
  unfold apply_snapshot. destruct (load_levels (snap_bids snap) _) as [bids [e'|]] eqn:Eb.
  { exists e'. split; [done|]. intros ->. exact (load_levels_not_OK _ _ (f_equal snd Eb)). }
  destruct (load_levels (snap_asks snap) _) as [asks [e'|]] eqn:Ea.
  { exists e'. split; [done|]. intros ->. exact (load_levels_not_OK _ _ (f_equal snd Ea)). }
  exfalso. apply Hn, Forall_app.
  destruct (load_levels_write BID _ _ _ (clear b) Eb) as [HB _]; [done|].
  by destruct (load_levels_write ASK _ _ _ (clear b <| bids_ := bids |>) Ea) as [HA _].
Qed.

(** A rejected snapshot breaks replication: when a snapshot of a tracked UP
    asset has a level off the ladder or a negative size, the network thread's
    book is cleared but no message is pushed, so a synced shadow book keeps the
    old levels and still reports itself valid. *)
Theorem rejected_snapshot_desync st sh p a b recv seq
    (Hok : snapshot_ok p = false) (Hup : is_down_token st (snap_asset_id p) = false)
    (Ha : states_ st !! snap_asset_id p = Some a)
    (Hb : books_ sh !! snap_asset_id p = Some b) (Hsync : synced st sh) :
  let st' := on_book_snapshot env recv seq p st in
  book_delta_queue_ st' = book_delta_queue_ st /\
  t0_book st' (snap_asset_id p) = clear (as_book a) /\
  book_sim b (as_book a) /\ is_book_valid sh (snap_asset_id p) = true.
Proof.
  intros st'. destruct (apply_snapshot_rejected p (as_book a) Hok) as (e & Happ & He).
  assert (st' = put_state (snap_asset_id p) (a <| as_book := clear (as_book a) |>) st) as ->.
  { unfold st', on_book_snapshot, get_state_mut. rewrite Hup, Ha, Happ. by destruct e. }
  split; [done|]. rewrite t0_book_put, decide_True by done. split; [done|].
  destruct Hsync as [Hp Hs]. split.
  - apply bool_decide_eq_false in Hup. pose proof (Hs _ _ Hb Hup) as Hsim.
    unfold t0_book in Hsim. by rewrite Ha in Hsim.
  - unfold is_book_valid. rewrite Hb, Hp. apply bool_decide_eq_true_2. set_solver.
Qed.
End Replication.

(** ** Witness: one snapshot, consumed *)
Section Example.
Local Open Scope string_scope.
Definition sample_snapshot : BookSnapshot :=
  mkBookSnapshot "up" "mkt" [mkPriceLevel 4900 5; mkPriceLevel 4800 7] [mkPriceLevel 5100 3] 0 "".
Definition sample_event : MarketEvent := mkMarketEvent (EvBookSnapshot sample_snapshot) 1 1.
Definition sample_queue : SpscQueue BoundedList BookDelta := mkSpscQueue (mkBoundedList [] 16) 0 0 0.
Definition sample_store : MarketStateStore BoundedList :=
  set_book_delta_queue (Some sample_queue)
    (MarketStateStore_new (mkSpscQueue (mkBoundedList [] 16) 0 0 0)).
Definition sample_shadow : StrategyBookStore := mkStrategyBookStore {["up" := OrderBook_new]} ∅.

Lemma sample_initial : initial sample_store sample_shadow sample_queue.
Proof.
  split; [done|]. split; [done|]. split; [done|]. split; [done|].
  intros id b. unfold sample_shadow. cbn [books_].
  intros [_ <-]%lookup_singleton_Some. exact eq_refl.
Qed.

Lemma replication_refines_witness :
  initial sample_store sample_shadow sample_queue /\
  exists q', book_delta_queue_ (apply (fun _ q => q) 5 sample_event sample_store) = Some q'.
Proof.
  split; [apply sample_initial|].
  destruct (replication_refines (fun _ q => q) sample_store sample_shadow sample_queue
              (apply (fun _ q => q) 5 sample_event sample_store) sample_shadow sample_initial)
    as (q' & Hq' & _).
  - apply rtc_once. apply (StepT0 _ _ _ sample_queue); [done|by apply Nat.leb_le|done].
  - by exists q'.
Defined.

Definition bad_snapshot : BookSnapshot :=
  mkBookSnapshot "up" "mkt" [mkPriceLevel 20000 5] [] 0 "".
Definition live_book : OrderBook :=
  (apply_price_change (mkAssetPriceChange "up" kInvalidPrice kInvalidPrice [mkPriceChange 4900 BID 5])
     OrderBook_new).1.
Definition live_store : MarketStateStore BoundedList :=
  put_state "up" (AssetState_new <| as_book := live_book |>) sample_store.
Definition live_shadow : StrategyBookStore := mkStrategyBookStore {["up" := live_book]} ∅.

Lemma live_synced : synced live_store live_shadow.
Proof.
  split; [done|]. intros id b Hb _. unfold live_shadow in Hb. cbn [books_] in Hb.
  apply lookup_singleton_Some in Hb as [<- <-]. unfold live_store.
  rewrite t0_book_put, decide_True by done. reflexivity.
Qed.

Lemma rejected_snapshot_desync_witness :
  snapshot_ok bad_snapshot = false /\
  t0_book (on_book_snapshot (fun _ q => q) 1 1 bad_snapshot live_store) "up" = clear live_book /\
  is_book_valid live_shadow "up" = true.
Proof.
  split; [done|].
  destruct (rejected_snapshot_desync (fun _ q => q) live_store live_shadow bad_snapshot
              (AssetState_new <| as_book := live_book |>) live_book 1 1) as (_ & H1 & _ & H2).
  - done.
  - done.
  - exact eq_refl.
  - exact eq_refl.
  - apply live_synced.
  - split; [exact H1|exact H2].
Defined.
End Example.
