(* ===== verification/MarketFeed.v ===== *)
(** The market feed, from the wire to the strategy's books: the duplicate filter
    of the redundant connections ([src/ws/market_ws_client.cpp], the same code is
    in [src/ws/user_ws_client.cpp]), the message handler of [src/main.cpp], and
    the composition of parser, store and book replication.

    Shown: raw messages whose sizes carry no sign keep the shadow books equal to
    the network thread's books; the duplicate filter delivers every message once
    when hashes do not collide; but the hash only sees the length modulo 256, so
    different messages with a common beginning are taken for duplicates. *)
From Stdlib Require Import Ascii.
From S2P Require Import Prelude Types Price OrderBook Events Json MarketParser MessageRoundtrip SpscQueue.
From S2P Require Import StrategyBookStore MarketStateStore BookReplication.

(** ** Duplicate filter *)

(** [static_cast<std::size_t>(c)] of a signed [char]. *)
Definition char_to_size (c : ascii) : Z :=
  if char_code c <? 128 then char_code c else wrap_u64 (char_code c - 256).

Definition fnv_step (h : Z) (c : ascii) : Z := wrap_u64 (Z.lxor h (char_to_size c) * 1099511628211).

(** The length is a [uint8_t]; the caller's [std::size_t] is converted. *)
Definition fnv1a_hash (data : list ascii) (len : Z) : Z :=
  foldl fnv_step 14695981039346656037 (take (Z.to_nat (wrap_u8 len)) data).

Definition kSlots : Z := 2048.
Definition MessageDedup_new : list Z := replicate (Z.to_nat kSlots) 0.

Definition message_hash (payload : string) : Z :=
  fnv1a_hash (txt payload) (Z.of_nat (String.length payload)).
Definition message_slot (payload : string) : Z := message_hash payload mod kSlots.

Definition is_duplicate (payload : string) (table : list Z) : bool * list Z :=
  let h := message_hash payload in
  let slot := h mod kSlots in
  if array_get table slot =? h then (true, table) else (false, array_set table slot h).

(** The payloads handed to [on_message], in order. *)
Fixpoint delivered (redundancy : Z) (table : list Z) (payloads : list string) : list string :=
  match payloads with
  | [] => []
  | p :: ps =>
      if redundancy >? 1 then
        let '(dup, table) := is_duplicate p table in
        if (dup : bool) then delivered redundancy table ps else p :: delivered redundancy table ps
      else p :: delivered redundancy table ps
  end.

(** ** The handler of market messages *)
Section Handler.
Context `{JsonParser} {Q : Type -> Type} `{RingQueue Q}.
Variable env : nat -> SpscQueue Q BookDelta -> SpscQueue Q BookDelta.

(** The sequence counter and the store; [None] is undefined behaviour in the
    number parsers. *)
Definition on_message (now : Z) (payload : string) (recv_ts : Z) (s : Z * MarketStateStore Q) :
    option (Z * MarketStateStore Q) :=
  let '(seq_counter, st) := s in
  let seq_counter := seq_counter + 1 in
  match market_parse payload recv_ts seq_counter with
  | None => None
  | Some (Value event) => Some (seq_counter, apply env now event st)
  | Some (Err _) => Some (seq_counter, st)
  end.
End Handler.

(** ** Unsigned sizes parse to non-negative quantities *)
Definition unsigned (l : list ascii) : Prop := Forall (fun c => c <> "-"%char) l.

Lemma digit_val_nonneg c d : digit_val c = Some d -> 0 <= d.
Proof. unfold digit_val. case_match eqn:E; [|done]. intros [= <-]. bool_to_prop. lia. Qed.
Lemma digits_value_nonneg acc l v : 0 <= acc -> digits_value acc l = Some v -> 0 <= v.
Proof.
  revert acc. induction l as [|c l IH]; intros acc Ha; simpl; [by intros [= <-]|].
  destruct (digit_val c) as [d|] eqn:E; simpl; [|done]. apply digit_val_nonneg in E. apply IH. lia.
Qed.
Lemma from_chars_unsigned l v : unsigned l -> from_chars l = Some v -> 0 <= v.
Proof.
  intros Hu. unfold from_chars. destruct l as [|c l]; [done|]. apply Forall_cons in Hu as [Hc _].
  rewrite bool_decide_eq_false_2 by done. destruct (digits_value _ _) as [w|] eqn:E; simpl; [|done].
  case_match; [|done]. intros [= <-]. by eapply digits_value_nonneg; [|exact E].
Qed.
Lemma find_dot_unsigned l a b : unsigned l -> find_dot l = Some (a, b) -> unsigned a /\ unsigned b.
Proof.
  revert a b. induction l as [|c l IH]; intros a b Hu; simpl; [done|]. apply Forall_cons in Hu as [Hc Hu].
  case_match; [intros [= <- <-]; split; [constructor|done]|].
  destruct (find_dot l) as [[a' b']|]; simpl; [|done]. intros [= <- <-].
  destruct (IH a' b' Hu eq_refl). split; [by constructor|done].
Qed.

Lemma mul10_loop_pos n x y : 0 < x -> mul10_loop chk_i64 n x = Some y -> 0 < y.
Proof.
  revert x. induction n as [|n IH]; intros x Hx; simpl; [by intros [= <-]|].
  destruct (chk_i64 (x * 10)) as [z|] eqn:E; simpl; [|done]. apply chk_i64_Some in E as [_ ->]. apply IH. lia.
Qed.

Lemma parse_qty_frac_unsigned l f : unsigned l -> parse_qty_frac l = Some (Value f) -> 0 <= f.
Proof.
  intros Hu. unfold parse_qty_frac. destruct l as [|c l]; [intros [= <-]; lia|].
  destruct (from_chars _) as [v|] eqn:E; [|done]. apply from_chars_unsigned in E; [|done].
  case_match.
  - destruct (mul10_loop _ _ _) as [m|] eqn:Em; simpl; [|done]. apply mul10_loop_pos in Em; [|lia].
    destruct (chk_i64 _) as [w|] eqn:Ew; simpl; [|done]. intros [= <-]. apply chk_i64_Some in Ew as [_ ->]. lia.
  - destruct (mul10_loop _ _ _) as [m|] eqn:Em; simpl; [|done]. apply mul10_loop_pos in Em; [|lia].
    intros [= <-]. rewrite quot_nonneg_div by lia. apply Z.div_pos; lia.
Qed.

Lemma parse_qty_unsigned l q : unsigned l -> parse_qty l = Some (Value q) -> 0 <= q.
Proof.
  assert (forall i f, 0 <= f -> parse_qty_finish i f = Some (Value q) -> 0 <= q) as Hfin.
  { intros i f Hf. unfold parse_qty_finish. destruct (Z.ltb_spec i 0); [done|]. case_match; [done|].
    destruct (chk_i64 _) as [w|] eqn:E; simpl; [|done]. intros [= <-].
    apply chk_i64_Some in E as [_ ->]. unfold kQtyScale. lia. }
  intros Hu. unfold parse_qty. destruct l as [|c l]; [done|].
  assert (forall a b, find_dot (c :: l) = Some (a, b) -> unsigned b) as Hfrac.
  { intros a b Hd. by destruct (find_dot_unsigned _ _ _ Hu Hd). }
  destruct (find_dot (c :: l)) as [[a b]|].
  - destruct (match a with [] => _ | _ => _ end); [|done].
    destruct (parse_qty_frac b) as [[f|]|] eqn:E; simpl; [|done|done].
    apply Hfin. eapply parse_qty_frac_unsigned; [|exact E]. by eapply Hfrac.
  - destruct (from_chars (c :: l)); [|done]. apply Hfin. lia.
Qed.

(** ** Parsed snapshots are well formed *)

(** No size of a level of the document carries a minus sign. *)
Definition size_unsigned (elem : Json) : bool :=
  match get_string (field "size" elem) with
  | inl s => forallb (fun c => negb (bool_decide (c = "-"%char))) (txt s)
  | inr _ => true
  end.
Definition sizes_unsigned (doc : Json) : bool :=
  forallb size_unsigned (or_default [] (get_array (field "bids" doc)) ++ or_default [] (get_array (field "asks" doc))).

Lemma required_qty_unsigned elem q :
  size_unsigned elem = true -> parse_required_qty_field elem "size" = Some (Value q) -> 0 <= q.
Proof.
  unfold size_unsigned, parse_required_qty_field, get_required_string. destruct (get_string _) as [s|]; [|done].
  cbn [expect]. rewrite forallb_forall. intros Hs. apply parse_qty_unsigned.
  apply Forall_forall. intros c Hc%list_elem_of_In%Hs. by bool_to_prop.
Qed.

Lemma parse_levels_unsigned c l ls :
  forallb size_unsigned l = true -> parse_levels c l = Some (Value ls) -> Forall (fun lv => 0 <= pl_size lv) ls.
Proof.
  revert c ls. induction l as [|e l IH]; intros c ls Hu; cbn [parse_levels].
  - intros [= <-]. constructor.
  - simpl in Hu. apply andb_true_iff in Hu as [He Hu]. destruct (_ <=? _)%nat; [done|].
    destruct (get_object _); [|done]. intros ?. inv_expect.
    constructor; [by eapply required_qty_unsigned|by eapply IH].
Qed.

Lemma parse_market_doc_book doc s :
  parse_market_doc doc = Some (Value (EvBookSnapshot s)) -> parse_book doc = Some (Value (EvBookSnapshot s)).
Proof.
  unfold parse_market_doc, parse_by_shape.
  unfold parse_price_change, parse_best_bid_ask, parse_tick_size_change, parse_last_trade_price, parse_new_market,
    parse_market_resolved.
  branches; intros Hp; try done; inv_expect; repeat case_match; inv_expect; simplify_eq.
Qed.

Lemma parsed_event_ok doc p recv seq :
  parse_market_doc doc = Some (Value p) -> sizes_unsigned doc = true -> event_ok (mkMarketEvent p recv seq) = true.
Proof.
  intros Hp Hu. pose proof (parse_market_doc_wf _ _ Hp) as Hw.
  destruct p as [s|?|?|?|?|?|?]; try done. unfold event_ok, snapshot_ok. cbn [me_payload].
  assert (Forall change_ok (snapshot_changes s)) as Hok.
  { apply parse_market_doc_book in Hp. unfold parse_book in Hp. inv_expect.
    unfold required_array, sizes_unsigned in *. rewrite forallb_app in Hu. apply andb_true_iff in Hu as [Hb Ha].
    destruct (get_array (field "bids" doc)); [|done]. destruct (get_array (field "asks" doc)); [|done]. simplify_eq.
    simpl in Hb, Ha, Hw. destruct Hw as (_ & _ & _ & _ & Hwb & Hwa & _).
    repeat match goal with Hl : parse_levels _ _ = _ |- _ => apply parse_levels_unsigned in Hl; [|done] end.
    unfold snapshot_changes. cbn [snap_bids snap_asks]. apply Forall_app. split; apply Forall_fmap.
    all: match goal with |- Forall _ ?l => assert (Forall (fun lv => level_wf lv /\ 0 <= pl_size lv) l) as Hl
           by (apply Forall_and; by split) end.
    all: eapply Forall_impl; [exact Hl|]; intros lv [[Hp _] Hq]; exact (conj Hp Hq). }
  apply validate_changes_None in Hok. by rewrite Hok.
Qed.

(** The most messages a parsed event pushes. *)
Definition kMaxEventMessages : nat := 288.

Lemma parsed_event_messages p recv seq : payload_wf p -> (event_messages (mkMarketEvent p recv seq) <= kMaxEventMessages)%nat.
Proof.
  unfold kMaxEventMessages. destruct p as [s|e|?|?|?|?|?]; unfold event_messages; cbn [me_payload]; intros Hw; try lia.
  - destruct Hw as (_ & _ & Hb & Ha & _). unfold snapshot_messages, snapshot_changes, level_changes.
    rewrite length_app, !length_fmap. unfold kMaxBookLevels in *.
    assert ((length (snap_bids s) + length (snap_asks s)) / kMaxDeltaChanges <= 2048 / kMaxDeltaChanges)%nat
      by (apply Nat.Div0.div_le_mono; lia).
    change (2048 / kMaxDeltaChanges)%nat with 32%nat in *. lia.
  - destruct Hw as ([_ Hl] & Hf & _). unfold kMaxAssetChanges in Hl.
    assert (foldr (fun ac n => batch_messages (length (apc_changes ac)) + n)%nat O (pce_asset_changes e)
            <= 9 * length (pce_asset_changes e))%nat; [|lia].
    clear Hl. induction Hf as [|ac acs [_ _ _ Hc _] _ IH]; [done|]. cbn [foldr length].
    unfold batch_messages, kMaxChanges in *.
    assert (length (apc_changes ac) / kMaxDeltaChanges <= 512 / kMaxDeltaChanges)%nat
      by (apply Nat.Div0.div_le_mono; lia).
    change (512 / kMaxDeltaChanges)%nat with 8%nat in *. lia.
Qed.

(** ** From the wire to the shadow books *)
Section Wire.
Context `{JsonParser} {Q : Type -> Type} `{RingQueue Q}.
Variable env : nat -> SpscQueue Q BookDelta -> SpscQueue Q BookDelta.
Abbreviation State := (Z * MarketStateStore Q * StrategyBookStore)%type.

(** The network thread handles a raw message, whatever it is, or the strategy
    thread consumes a delta. *)
Inductive wire_step : State -> State -> Prop :=
  | WireMessage seq st sh q now payload recv seq' st' :
      book_delta_queue_ st = Some q -> has_room q kMaxEventMessages ->
      (forall doc, parse_json payload = Some doc -> sizes_unsigned doc = true) ->
      on_message env now payload recv (seq, st) = Some (seq', st') ->
      wire_step (seq, st, sh) (seq', st', sh)
  | WirePop seq st sh q d :
      book_delta_queue_ st = Some q -> front q = Some d ->
      wire_step (seq, st, sh) (seq, set_book_delta_queue (Some (pop q)) st, apply_delta d sh).

Lemma on_message_cases now payload recv seq st seq' st' :
  on_message env now payload recv (seq, st) = Some (seq', st') ->
  st' = st \/ exists doc p, parse_json payload = Some doc /\ parse_market_doc doc = Some (Value p) /\
    st' = apply env now (mkMarketEvent p recv (seq + 1)) st.
Proof.
  unfold on_message, market_parse.
  destruct (negb _); [intros [= <- <-]; by left|]. destruct (id_eqb _ _); [intros [= <- <-]; by left|].
  destruct (parse_json payload) as [doc|]; [|intros [= <- <-]; by left].
  destruct (parse_market_doc doc) as [[p|]|] eqn:E; cbn [expect]; [|intros [= <- <-]; by left|done].
  intros [= <- <-]. right. by exists doc, p.
Qed.

Lemma wire_step_steps s s' :
  wire_step s s' -> rtc (step env) (s.1.2, s.2) (s'.1.2, s'.2).
Proof.
  destruct 1 as [seq st sh q now payload recv seq' st' Hq Hroom Hu Hm|seq st sh q d Hq Hf]; simpl.
  - apply on_message_cases in Hm as [->|(doc & p & Hj & Hp & ->)]; [done|].
    apply rtc_once. apply (StepT0 env _ _ q); [done| |by apply (parsed_event_ok doc); [|apply Hu]].
    pose proof (parsed_event_messages p recv (seq + 1) (parse_market_doc_wf _ _ Hp)).
    unfold has_room in *. lia.
  - apply rtc_once. by apply (StepT2 env _ _ q).
Qed.

(** C10: raw market messages keep the shadow books equal to the network thread's
    books: along every interleaving of messages from the wire (of any content,
    with no minus sign in the sizes of a snapshot, and 288 free entries in the
    delta queue) and deltas consumed by the strategy thread, the shadow book of
    every seeded asset that is not a filtered DOWN token becomes, once the queued deltas are applied, the network
    thread's book; with an empty queue it is that book and valid. *)
Theorem wire_replication_refines (seq : Z) st sh q (seq' : Z) st' sh'
    (Hinit : initial st sh q) (Hrun : rtc wire_step (seq, st, sh) (seq', st', sh')) :
  exists q', book_delta_queue_ st' = Some q' /\
    (forall id b, books_ (drain_deltas (contents q') sh') !! id = Some b -> id ∉ down_tokens_ st' ->
       book_sim b (t0_book st' id)) /\
    (contents q' = [] -> forall id b, books_ sh' !! id = Some b ->
       is_book_valid sh' id = true /\ (id ∉ down_tokens_ st' -> book_sim b (t0_book st' id))).
Proof.
  apply (steps_replicated env st sh q st' sh' Hinit).
  change (st', sh') with ((fun s : State => (s.1.2, s.2)) (seq', st', sh')).
  change (st, sh) with ((fun s : State => (s.1.2, s.2)) (seq, st, sh)).
  clear Hinit. induction Hrun as [|s1 s2 s3 Hs _ IH]; [done|].
  etrans; [apply (wire_step_steps _ _ Hs)|exact IH].
Qed.
End Wire.

(** ** The duplicate filter *)

(** The first occurrences of the elements of a list. *)
Fixpoint firsts (seen l : list string) : list string :=
  match l with
  | [] => []
  | p :: l => if decide (p ∈ seen) then firsts seen l else p :: firsts (p :: seen) l
  end.

(** The table holds exactly the hashes of the messages seen. *)
Definition holds (msgs seen : list string) (table : list Z) : Prop :=
  length table = Z.to_nat kSlots /\
  forall p, p ∈ msgs -> (array_get table (message_slot p) = message_hash p <-> p ∈ seen).

Lemma message_slot_range p : 0 <= message_slot p < kSlots.
Proof. apply Z.mod_pos_bound. done. Qed.

Lemma delivered_firsts r msgs seen table l :
  1 < r ->
  (forall p p', p ∈ msgs -> p' ∈ msgs -> message_slot p = message_slot p' -> p = p') ->
  holds msgs seen table -> (forall p, p ∈ l -> p ∈ msgs) ->
  delivered r table l = firsts seen l.
Proof.
  intros Hr Hinj. revert seen table. induction l as [|p l IH]; intros seen table [Hlen Hh] Hl; [done|].
  cbn [delivered firsts]. rewrite (proj2 (Z.gtb_lt _ _)) by done.
  assert (p ∈ msgs) as Hp by (apply Hl; by left).
  assert (forall x, x ∈ l -> x ∈ msgs) as Hl' by (intros; apply Hl; by right).
  unfold is_duplicate. fold (message_slot p).
  destruct (Z.eqb_spec (array_get table (message_slot p)) (message_hash p)) as [E|E].
  - rewrite decide_True by (by apply Hh). by apply IH.
  - rewrite decide_False by (by rewrite <- Hh). f_equal. apply IH; [|done].
    split; [by rewrite length_array_set|]. intros x Hx. pose proof (message_slot_range p). pose proof (message_slot_range x).
    assert (kSlots = Z.of_nat (length table)) by (rewrite Hlen; done).
    destruct (decide (x = p)) as [->|Hn].
    + rewrite array_get_set_eq by lia. split; [intros _; by left|done].
    + rewrite array_get_set_ne; [|lia|lia|intros E'; by apply Hn, Hinj].
      rewrite Hh by done. rewrite elem_of_cons. naive_solver.
Qed.

(** With several connections and messages whose hashes fall into different
    slots of the table, the filter delivers exactly the first copy of every
    message, in order. *)
Theorem dedup_delivers_once (r : Z) (payloads : list string) (Hr : 1 < r)
    (Hslots : forall p p', p ∈ payloads -> p' ∈ payloads -> message_slot p = message_slot p' -> p = p')
    (Hzero : forall p, p ∈ payloads -> message_hash p <> 0) :
  delivered r MessageDedup_new payloads = firsts [] payloads.
Proof.
  apply (delivered_firsts r payloads); [done|done| |done].
  split; [apply length_replicate|]. intros p Hp. unfold MessageDedup_new.
  pose proof (message_slot_range p). rewrite array_get_replicate by (unfold kSlots in *; lia).
  split; [intros E; by destruct (Hzero p Hp)|intros Hx; by apply not_elem_of_nil in Hx].
Qed.

Lemma is_duplicate_same_hash a b table :
  length table = Z.to_nat kSlots -> message_hash a = message_hash b ->
  (is_duplicate b (is_duplicate a table).2).1 = true.
Proof.
  intros Hlen Hab. unfold is_duplicate. rewrite <- Hab. pose proof (message_slot_range a) as Hs. unfold message_slot in Hs.
  destruct (Z.eqb_spec (array_get table (message_hash a mod kSlots)) (message_hash a)) as [E|E]; cbn [snd].
  - by rewrite (proj2 (Z.eqb_eq _ _) E).
  - rewrite array_get_set_eq; [by rewrite Z.eqb_refl|]. rewrite Hlen. unfold kSlots in *. lia.
Qed.

(** The hash takes the length as a byte: a message whose length agrees with
    another's modulo 256 and which begins with the same length-modulo-256
    characters is taken for its duplicate and dropped, however different the
    rest; with several connections such a market or user message is lost. *)
Theorem dedup_drops_fresh_message (r : Z) (a b : string) (table : list Z) (rest : list string) (Hr : 1 < r)
    (Htable : length table = Z.to_nat kSlots)
    (Hlen : wrap_u8 (Z.of_nat (String.length a)) = wrap_u8 (Z.of_nat (String.length b)))
    (Hpre : take (Z.to_nat (wrap_u8 (Z.of_nat (String.length a)))) (txt a) =
            take (Z.to_nat (wrap_u8 (Z.of_nat (String.length a)))) (txt b)) :
  delivered r table (a :: b :: rest) = delivered r table (a :: rest).
Proof.
  assert (message_hash a = message_hash b) as Hh.
  { unfold message_hash, fnv1a_hash. by rewrite Hpre, <- Hlen. }
  pose proof (is_duplicate_same_hash a b table Htable Hh) as Hd.
  cbn [delivered]. rewrite (proj2 (Z.gtb_lt _ _)) by done.
  destruct (is_duplicate a table) as [da t1]. cbn [snd] in Hd.
  assert (is_duplicate b t1 = (true, t1)) as ->; [|done].
  revert Hd. unfold is_duplicate. destruct (_ =? _); simpl; [done|discriminate].
Qed.

(** ** Witnesses *)
Definition sample_frames : list string := ["PONG"; "PONG"; "a"; "PONG"; "a"]%string.

Lemma sample_frames_slots :
  Forall (fun p => message_hash p <> 0 /\
    Forall (fun p' => message_slot p <> message_slot p' \/ p = p') sample_frames) sample_frames.
Proof. apply (bool_decide_unpack _). vm_compute. exact I. Qed.

Lemma dedup_delivers_once_witness : delivered 2 MessageDedup_new sample_frames = ["PONG"; "a"]%string.
Proof.
  pose proof sample_frames_slots as Hf. rewrite Forall_forall in Hf.
  rewrite (dedup_delivers_once 2 sample_frames); [vm_compute; reflexivity|done| |].
  - intros p p' Hp Hp' Hs. destruct (Hf p Hp) as [_ Hf']. rewrite Forall_forall in Hf'.
    destruct (Hf' p' Hp') as [Hn|He]; [by destruct Hn|done].
  - intros p Hp. apply (Hf p Hp).
Defined.

(** Two quotes of 256 + 41 characters that differ after the common head. *)
Definition quote_head : string := "{'event_type':'last_trade_price','price':".
Definition long_quote (price : string) : string :=
  (quote_head ++ price ++ str_of (replicate (256 - String.length price) " "%char))%string.

Lemma dedup_drops_fresh_message_witness :
  long_quote "0.52" <> long_quote "0.61" /\
  delivered 2 MessageDedup_new [long_quote "0.52"; long_quote "0.61"]%string = [long_quote "0.52"].
Proof.
  split; [vm_compute; discriminate|].
  rewrite (dedup_drops_fresh_message 2 (long_quote "0.52") (long_quote "0.61") MessageDedup_new []);
    vm_compute; reflexivity.
Defined.

Definition wire_doc : Json :=
  JObject [("event_type"%string, JString "book"); ("asset_id"%string, JString "up");
    ("bids"%string, JArray [JObject [("price"%string, JString "0.49"); ("size"%string, JString "5")]]);
    ("asks"%string, JArray [JObject [("price"%string, JString "0.51"); ("size"%string, JString "3.5")]])].
Definition wide_queue : SpscQueue BoundedList BookDelta := mkSpscQueue (mkBoundedList [] 512) 0 0 0.
Definition wide_store : MarketStateStore BoundedList :=
  set_book_delta_queue (Some wide_queue) (MarketStateStore_new (mkSpscQueue (mkBoundedList [] 16) 0 0 0)).
Definition same_queue : nat -> SpscQueue BoundedList BookDelta -> SpscQueue BoundedList BookDelta := fun _ q => q.

Lemma wire_replication_refines_witness :
  exists seq' st', on_message (H := constant_parser wire_doc) same_queue 5 "{...}" 1 (0, wide_store) = Some (seq', st') /\
    exists q', book_delta_queue_ st' = Some q' /\ contents q' <> [].
Proof.
  eexists _, _. split; [reflexivity|].
  destruct (wire_replication_refines (H := constant_parser wire_doc) same_queue 0 wide_store sample_shadow wide_queue 1
              (apply same_queue 5 (mkMarketEvent (EvBookSnapshot
                 (mkBookSnapshot "up" "" [mkPriceLevel 4900 5000000] [mkPriceLevel 5100 3500000] 0 "")) 1 1) wide_store)
              sample_shadow) as (q' & Hq' & _).
  - destruct sample_initial as (_ & _ & _ & _ & Hs). repeat split; try done.
  - apply rtc_once. apply (WireMessage same_queue 0 wide_store sample_shadow wide_queue 5 "{...}" 1); [reflexivity|by apply Nat.leb_le| |reflexivity].
    intros doc [= <-]. reflexivity.
  - exists q'. split; [exact Hq'|]. vm_compute in Hq'. injection Hq' as <-. discriminate.
Defined.

(** A signed fraction slips through the size parser: the snapshot is parsed, and
    then rejected by the book ([rejected_snapshot_desync] shows the effect). *)
Lemma signed_fraction_parsed :
  let doc := JObject [("event_type"%string, JString "book"); ("asset_id"%string, JString "up");
    ("bids"%string, JArray [JObject [("price"%string, JString "0.49"); ("size"%string, JString "0.-5")]]);
    ("asks"%string, JArray [])] in
  exists p, parse_market_doc doc = Some (Value p) /\ event_ok (mkMarketEvent p 0 0) = false.
Proof. eexists. split; reflexivity. Qed.
