(* ===== verification/Sinks.v ===== *)
(** Execution sinks and the dry-run simulator: [src/scheduler/exec_sink.h],
    [src/exec/exec_queue_sink.h], [src/scheduler/exec_intent_stub_sink.cpp],
    [src/scheduler/mode_filtered_sink.cpp], [src/scheduler/dry_run_simulator.cpp].

    [ExecSink] is the interface; the queue sink, the stub sink and the mode
    filter (over any inner sink) implement it.

    Shown: in dry-run mode nothing but a cancel-all ever reaches the inner
    sink; in live mode everything does, in order; the simulator's ring is a
    bounded first-in first-out list whose acknowledgements carry the intent's
    identifiers. *)
From S2P Require Import Prelude Types OrderBook Events Price SpscQueue Ring.

Module SinkResult.
Inductive SinkResult := ACCEPTED | OVERFLOW | NO_QUEUE | FILTERED.
#[export] Instance SinkResult_eq_dec : EqDecision SinkResult.
Proof. solve_decision. Defined.
End SinkResult.
Export (hints) SinkResult.
Abbreviation SinkResult := SinkResult.SinkResult.

Class ExecSink (S : Type) := { accept : ExecutionIntent -> S -> S * SinkResult }.

(** ** The queue sink *)
Section QueueSinks.
Context {Q : Type -> Type} `{RingQueue Q}.

Record ExecQueueSink := mkExecQueueSink {
  eqs_queue_ : SpscQueue Q ExecIntent;
  eqs_intent_count_ : Z;
  eqs_overflow_count_ : Z }.

Definition to_exec_intent (intent : ExecutionIntent) : ExecIntent :=
  let exec := ExecIntent_default
    <| xi_asset_id := ei_asset_id intent |> <| xi_intent_id := ei_intent_id intent |>
    <| xi_created_ts := ei_created_ts intent |> <| xi_recv_ts := ei_recv_ts intent |>
    <| xi_price := ei_price intent |> <| xi_size := ei_qty intent |>
    <| xi_market_id := ei_market_id intent |>
    <| xi_exchange_order_id := ei_exchange_order_id intent |>
    <| xi_client_order_id := ei_client_order_id intent |>
    <| xi_neg_risk := ei_neg_risk intent |> <| xi_fee_rate_bps := ei_fee_rate_bps intent |>
    <| xi_order_type := ei_order_type intent |> in
  match ei_action intent with
  | IntentAction.WOULD_PLACE_BID => exec <| xi_type := ExecIntentType.PLACE_ORDER |> <| xi_side := BID |>
  | IntentAction.WOULD_PLACE_ASK => exec <| xi_type := ExecIntentType.PLACE_ORDER |> <| xi_side := ASK |>
  | IntentAction.WOULD_CANCEL_BID => exec <| xi_type := ExecIntentType.CANCEL_ORDER |> <| xi_side := BID |>
  | IntentAction.WOULD_CANCEL_ASK => exec <| xi_type := ExecIntentType.CANCEL_ORDER |> <| xi_side := ASK |>
  | IntentAction.WOULD_CANCEL_ALL => exec <| xi_type := ExecIntentType.CANCEL_ALL |>
  end.

#[export] Instance ExecQueueSink_sink : ExecSink ExecQueueSink := {|
  accept intent s :=
    let '(q, ok) := try_push (to_exec_intent intent) (eqs_queue_ s) in
    if (ok : bool)
    then (mkExecQueueSink q (eqs_intent_count_ s + 1) (eqs_overflow_count_ s), SinkResult.ACCEPTED)
    else (mkExecQueueSink q (eqs_intent_count_ s) (eqs_overflow_count_ s + 1), SinkResult.OVERFLOW) |}.

(** ** The stub sink, with optional feedback ([now] is the clock reading) *)
Record ExecIntentStubSink := mkExecIntentStubSink {
  stub_feedback_queue_ : option (SpscQueue Q SchedulerEvent);
  stub_intent_count_ : Z;
  stub_feedback_count_ : Z;
  stub_overflow_count_ : Z;
  stub_next_feedback_seq_ : Z }.

Definition stub_accept (now : Z) (intent : ExecutionIntent) (s : ExecIntentStubSink)
    : ExecIntentStubSink * SinkResult :=
  match stub_feedback_queue_ s with
  | None => (mkExecIntentStubSink None (stub_intent_count_ s + 1) (stub_feedback_count_ s)
               (stub_overflow_count_ s) (stub_next_feedback_seq_ s), SinkResult.NO_QUEUE)
  | Some q =>
      let feedback := SchedulerEvent_default
        <| source := EventSource.EXEC_INTERNAL |> <| kind := SchedulerEventKind.EXEC_ORDER_ACK |>
        <| asset_id := ei_asset_id intent |> <| recv_ts := now |>
        <| seqno := stub_next_feedback_seq_ s |> <| intent_ref_id := ei_intent_id intent |>
        <| exec_accepted := true |> in
      let '(q, ok) := try_push feedback q in
      if (ok : bool)
      then (mkExecIntentStubSink (Some q) (stub_intent_count_ s + 1) (stub_feedback_count_ s + 1)
              (stub_overflow_count_ s) (stub_next_feedback_seq_ s + 1), SinkResult.ACCEPTED)
      else (mkExecIntentStubSink (Some q) (stub_intent_count_ s + 1) (stub_feedback_count_ s)
              (stub_overflow_count_ s + 1) (stub_next_feedback_seq_ s + 1), SinkResult.OVERFLOW)
  end.
End QueueSinks.

(** ** The dry-run simulator *)
Definition kMaxBuffered : nat := 64.

Record DryRunSimulator := mkDryRunSimulator {
  buffer_ : list SchedulerEvent;
  head_ : nat;
  tail_ : nat;
  count_ : nat;
  enabled_ : bool;
  sim_seq_ : Z }.
Definition DryRunSimulator_new : DryRunSimulator :=
  mkDryRunSimulator (replicate kMaxBuffered SchedulerEvent_default) 0 0 0 false 0.
Definition set_enabled (b : bool) (s : DryRunSimulator) : DryRunSimulator := s <| enabled_ := b |>.

Definition sim_event (intent : ExecutionIntent) : SchedulerEvent :=
  SchedulerEvent_default
    <| source := EventSource.EXEC_INTERNAL |> <| kind := SchedulerEventKind.EXEC_ORDER_ACK |>
    <| exec_accepted := true |> <| client_order_id := ei_client_order_id intent |>
    <| asset_id := ei_asset_id intent |> <| user_price := ei_price intent |>
    <| user_original_size := ei_qty intent |>.

(** ["sim-%u"] *)
Definition sim_order_id (seq : Z) : OrderId := mk_OrderId ("sim-" +:+ String.string_of_list_ascii (to_string seq)).

Definition on_intent (intent : ExecutionIntent) (s : DryRunSimulator) : DryRunSimulator :=
  if negb (enabled_ s) then s else
  if (kMaxBuffered <=? count_ s)%nat then s else
  if negb (is_placement (ei_action intent)) && negb (is_cancel (ei_action intent)) then s else
  let '(ev, s) :=
    if is_placement (ei_action intent)
    then ((sim_event intent) <| exec_feedback_kind := ExecFeedbackKind.ORDER_ACCEPTED |>
            <| order_id := sim_order_id (sim_seq_ s) |>,
          s <| sim_seq_ ::= fun n => wrap_u32 (n + 1) |>)
    else ((sim_event intent) <| exec_feedback_kind := ExecFeedbackKind.CANCEL_CONFIRMED |>
            <| order_id := ei_exchange_order_id intent |>, s) in
  s <| buffer_ ::= <[tail_ s := ev]> |> <| tail_ ::= fun t => ((t + 1) mod kMaxBuffered)%nat |>
    <| count_ ::= S |>.

Definition sim_pop (s : DryRunSimulator) : DryRunSimulator * option SchedulerEvent :=
  if (count_ s =? 0)%nat then (s, None)
  else (s <| head_ ::= fun h => ((h + 1) mod kMaxBuffered)%nat |> <| count_ ::= pred |>,
        Some (buffer_ s !!! head_ s)).

Definition sim_reset (s : DryRunSimulator) : DryRunSimulator :=
  s <| head_ := O |> <| tail_ := O |> <| count_ := O |>.

(** ** The mode filter *)
Section ModeFilter.
Context {S : Type} `{ExecSink S}.

Record ModeFilteredSink := mkModeFilteredSink {
  inner_ : option S;
  mode_ : ExecutionMode;
  dry_sim_ : option DryRunSimulator;
  dry_run_logged_ : Z;
  forwarded_ : Z }.

Definition set_mode (m : ExecutionMode) (s : ModeFilteredSink) : ModeFilteredSink :=
  mkModeFilteredSink (inner_ s) m (dry_sim_ s) (dry_run_logged_ s) (forwarded_ s).

Definition forward (intent : ExecutionIntent) (s : ModeFilteredSink) : ModeFilteredSink * SinkResult :=
  match inner_ s with
  | Some i =>
      let '(i, r) := accept intent i in
      (mkModeFilteredSink (Some i) (mode_ s) (dry_sim_ s) (dry_run_logged_ s) (forwarded_ s + 1), r)
  | None =>
      (mkModeFilteredSink None (mode_ s) (dry_sim_ s) (dry_run_logged_ s) (forwarded_ s + 1),
       SinkResult.NO_QUEUE)
  end.

#[export] Instance ModeFilteredSink_sink : ExecSink ModeFilteredSink := {|
  accept intent s :=
    if bool_decide (ei_action intent = IntentAction.WOULD_CANCEL_ALL) then forward intent s else
    match mode_ s with
    | ExecutionMode.DRY_RUN =>
        match dry_sim_ s with
        | Some sim =>
            (mkModeFilteredSink (inner_ s) (mode_ s) (Some (on_intent intent sim))
               (dry_run_logged_ s + 1) (forwarded_ s), SinkResult.ACCEPTED)
        | None =>
            (mkModeFilteredSink (inner_ s) (mode_ s) None (dry_run_logged_ s + 1) (forwarded_ s),
             SinkResult.FILTERED)
        end
    | ExecutionMode.LIVE => forward intent s
    end |}.
End ModeFilter.
Arguments ModeFilteredSink S : clear implicits.

(** ** Mode policy *)
Section Policy.
Context {S : Type} `{ExecSink S}.

Definition accept_all {T} `{ExecSink T} (intents : list ExecutionIntent) (s : T) : T :=
  foldl (fun s i => (accept i s).1) s intents.

(** The intents that reach the exchange side in a mode. *)
Definition passes (m : ExecutionMode) (i : ExecutionIntent) : bool :=
  bool_decide (ei_action i = IntentAction.WOULD_CANCEL_ALL) || bool_decide (m = ExecutionMode.LIVE).

Lemma accept_mode i (s : ModeFilteredSink S) : mode_ (accept i s).1 = mode_ s.
Proof.
  simpl. unfold forward. destruct (bool_decide _).
  - destruct (inner_ s) as [x|]; [by destruct (accept i x)|done].
  - destruct (mode_ s) eqn:E; [by destruct (dry_sim_ s)|].
    destruct (inner_ s) as [x|]; [by destruct (accept i x)|done].
Qed.

Lemma accept_inner i (s : ModeFilteredSink S) :
  inner_ (accept i s).1 =
    if passes (mode_ s) i then (fun x => (accept i x).1) <$> inner_ s else inner_ s.
Proof.
  simpl. unfold passes, forward. destruct (bool_decide (ei_action i = _)); simpl.
  - destruct (inner_ s) as [x|]; simpl; [by destruct (accept i x)|done].
  - destruct (mode_ s); simpl; [by destruct (dry_sim_ s)|].
    destruct (inner_ s) as [x|]; simpl; [by destruct (accept i x)|done].
Qed.

(** Mode policy: whatever intents arrive, in whatever order, the inner sink
    ends in the state reached by feeding it exactly the intents that pass: in
    live mode all of them, in dry-run mode the cancel-all requests only; the
    mode itself never changes. *)
Theorem mode_policy (intents : list ExecutionIntent) (s : ModeFilteredSink S) :
  inner_ (accept_all intents s) =
    accept_all (filter (fun i => passes (mode_ s) i = true) intents) <$> inner_ s /\
  mode_ (accept_all intents s) = mode_ s.
Proof.
  revert s. induction intents as [|i intents IH]; intros s.
  { unfold accept_all. simpl. by destruct (inner_ s). }
  change (accept_all (i :: intents) s) with (accept_all intents (accept i s).1).
  destruct (IH (accept i s).1) as [E1 E2]. rewrite E1, E2, accept_mode, accept_inner. split; [|done].
  rewrite filter_cons. destruct (passes (mode_ s) i) eqn:E;
    [rewrite decide_True by done|rewrite decide_False by done]; [|done].
  by destruct (inner_ s).
Qed.
End Policy.

(** ** The simulator as a bounded queue *)
Definition sim_ring (s : DryRunSimulator) : Ring SchedulerEvent := mkRing (buffer_ s) (head_ s) (count_ s).
Definition sim_list (s : DryRunSimulator) : list SchedulerEvent := ring_list (sim_ring s).

Record sim_inv (s : DryRunSimulator) : Prop := {
  si_ring : ring_inv kMaxBuffered (sim_ring s);
  si_tail : tail_ s = ((head_ s + count_ s) mod kMaxBuffered)%nat }.

Lemma kMaxBuffered_pos : (0 < kMaxBuffered)%nat.
Proof. unfold kMaxBuffered. lia. Qed.

Lemma sim_new_inv : sim_inv DryRunSimulator_new.
Proof.
  split; [split; [apply length_replicate|apply kMaxBuffered_pos|simpl; lia]|done].
Qed.
#[local] Opaque kMaxBuffered.

(** The acknowledgement an intent produces, if any. *)
Definition ack_of (seq : Z) (intent : ExecutionIntent) : option SchedulerEvent :=
  if is_placement (ei_action intent)
  then Some ((sim_event intent) <| exec_feedback_kind := ExecFeedbackKind.ORDER_ACCEPTED |>
               <| order_id := sim_order_id seq |>)
  else if is_cancel (ei_action intent)
  then Some ((sim_event intent) <| exec_feedback_kind := ExecFeedbackKind.CANCEL_CONFIRMED |>
               <| order_id := ei_exchange_order_id intent |>)
  else None.

Lemma on_intent_push intent s ev :
  sim_inv s -> enabled_ s = true -> (count_ s < kMaxBuffered)%nat -> ack_of (sim_seq_ s) intent = Some ev ->
  sim_ring (on_intent intent s) = ring_push ev (sim_ring s) /\
  tail_ (on_intent intent s) = ((tail_ s + 1) mod kMaxBuffered)%nat /\
  enabled_ (on_intent intent s) = true.
Proof.
  intros [[Hc Hh Hn] Ht] He Hlt Hack. unfold on_intent. rewrite He.
  rewrite (proj2 (Nat.leb_gt _ _) Hlt). unfold ack_of in Hack. unfold ring_push. rewrite Hc.
  cbn [ring_count sim_ring]. rewrite (proj2 (Nat.leb_gt _ _) Hlt).
  unfold ring_index. rewrite Hc. cbn [ring_head ring_buf sim_ring]. rewrite <- Ht.
  destruct (is_placement (ei_action intent)); [by injection Hack as <-|].
  destruct (is_cancel (ei_action intent)); [by injection Hack as <-|done].
Qed.

Lemma on_intent_spec intent s :
  sim_inv s ->
  sim_inv (on_intent intent s) /\
  sim_list (on_intent intent s) =
    sim_list s ++ (if enabled_ s && (count_ s <? kMaxBuffered)%nat
                   then option_list (ack_of (sim_seq_ s) intent) else []).
Proof.
  intros Hs. destruct (enabled_ s) eqn:He; simpl.
  2: { unfold on_intent. by rewrite He, app_nil_r. }
  destruct (Nat.ltb_spec (count_ s) kMaxBuffered) as [Hlt|Hge].
  2: { unfold on_intent. rewrite He, (proj2 (Nat.leb_le _ _) Hge). by rewrite app_nil_r. }
  destruct (ack_of (sim_seq_ s) intent) as [ev|] eqn:Hack.
  - destruct (on_intent_push intent s ev Hs He Hlt Hack) as (Hr & Ht & _). destruct Hs as [Hri Htl].
    split; [split|].
    + rewrite Hr. by apply ring_push_inv.
    + rewrite Ht, Htl. rewrite Nat.Div0.add_mod_idemp_l.
      pose proof (f_equal ring_head Hr) as H1. pose proof (f_equal ring_count Hr) as H2.
      unfold ring_push in H1, H2. rewrite (rg_cap _ _ Hri) in H1, H2.
      cbn [ring_count sim_ring] in H1, H2. rewrite (proj2 (Nat.leb_gt _ _) Hlt) in H1, H2. simpl in H1, H2.
      rewrite H1, H2. f_equal. lia.
    + unfold sim_list. rewrite Hr, (ring_push_list kMaxBuffered) by done. rewrite length_ring_list.
      simpl. by rewrite (proj2 (Nat.ltb_lt _ _) Hlt).
  - unfold on_intent. rewrite He, (proj2 (Nat.leb_gt _ _) Hlt). unfold ack_of in Hack.
    destruct (is_placement _), (is_cancel _); try done. simpl. by rewrite app_nil_r.
Qed.

Lemma sim_pop_spec s :
  sim_inv s ->
  let '(s', r) := sim_pop s in
  sim_inv s' /\ enabled_ s' = enabled_ s /\ sim_seq_ s' = sim_seq_ s /\
  sim_list s = option_list r ++ sim_list s' /\ (r = None -> sim_list s = []).
Proof.
  intros [Hr Ht]. unfold sim_pop. destruct (Nat.eqb_spec (count_ s) 0) as [E|E].
  { split; [done|]. split; [done|]. split; [done|]. split; [done|]. intros _. by apply ring_empty. }
  assert (sim_ring (s <| head_ ::= fun h => ((h + 1) mod kMaxBuffered)%nat |> <| count_ ::= pred |>) =
          ring_pop (sim_ring s)) as Ep.
  { unfold ring_pop. rewrite (rg_cap _ _ Hr). unfold sim_ring. simpl. f_equal. lia. }
  split; [split|].
  - rewrite Ep. by apply ring_pop_inv.
  - simpl. rewrite Ht, Nat.Div0.add_mod_idemp_l. f_equal. lia.
  - split; [done|]. split; [done|]. split; [|done]. unfold sim_list. rewrite Ep. simpl.
    apply (ring_list_cons kMaxBuffered); [done|simpl; lia].
Qed.

(** ** Schedules of the simulator *)
Inductive sim_op := SimIntent (i : ExecutionIntent) | SimPop | SimReset.

(** The simulator, the acknowledgements accepted since the last reset, and
    those delivered since then. *)
Definition sim_step (st : DryRunSimulator * (list SchedulerEvent * list SchedulerEvent)) (op : sim_op)
    : DryRunSimulator * (list SchedulerEvent * list SchedulerEvent) :=
  let '(s, (acc, out)) := st in
  match op with
  | SimIntent i =>
      (on_intent i s,
       (acc ++ (if enabled_ s && (count_ s <? kMaxBuffered)%nat
                then option_list (ack_of (sim_seq_ s) i) else []), out))
  | SimPop => let '(s, r) := sim_pop s in (s, (acc, out ++ option_list r))
  | SimReset => (sim_reset s, ([], []))
  end.

Lemma sim_reset_spec s : sim_inv s -> sim_inv (sim_reset s) /\ sim_list (sim_reset s) = [].
Proof.
  intros [[Hc _ _] _]. split; [|done].
  split; [|simpl; by rewrite Nat.Div0.mod_0_l].
  split; [exact Hc|apply kMaxBuffered_pos|simpl; lia].
Qed.

Lemma sim_step_inv s acc out op :
  sim_inv s -> acc = out ++ sim_list s ->
  let '(s', (acc', out')) := sim_step (s, (acc, out)) op in
  sim_inv s' /\ acc' = out' ++ sim_list s'.
Proof.
  intros Hs ->. destruct op as [i| |]; cbn [sim_step].
  - destruct (on_intent_spec i s Hs) as [H1 ->]. split; [done|]. by rewrite app_assoc.
  - pose proof (sim_pop_spec s Hs) as Hp. destruct (sim_pop s) as [s' r].
    destruct Hp as (H1 & _ & _ & H2 & _). split; [done|]. by rewrite H2, app_assoc.
  - destruct (sim_reset_spec s Hs) as [H1 ->]. done.
Qed.

(** The simulator delivers acknowledgements first in, first out: for every
    sequence of intents, pops and resets from a new simulator (enabled or not),
    the acknowledgements accepted since the last reset are exactly those
    delivered followed by those buffered, in order, and at most 64 are
    buffered. *)
Theorem simulator_fifo (ops : list sim_op) (enabled : bool) :
  let '(s, (acc, out)) := foldl sim_step (set_enabled enabled DryRunSimulator_new, ([], [])) ops in
  acc = out ++ sim_list s /\ (length (sim_list s) <= 64)%nat.
Proof.
  assert (sim_inv (set_enabled enabled DryRunSimulator_new)) as H0.
  { destruct sim_new_inv as [Hr Ht]. split; [exact Hr|exact Ht]. }
  assert (forall st, sim_inv st.1 -> st.2.1 = st.2.2 ++ sim_list st.1 ->
    let r := foldl sim_step st ops in sim_inv r.1 /\ r.2.1 = r.2.2 ++ sim_list r.1) as Hrun.
  { induction ops as [|op ops IH]; intros [s [acc out]] Hs Ha; [done|]. cbn [foldl].
    pose proof (sim_step_inv s acc out op Hs Ha) as Hst.
    destruct (sim_step (s, (acc, out)) op) as [s' [acc' out']]. destruct Hst as [Hs' Ha'].
    by apply (IH (s', (acc', out'))). }
  specialize (Hrun (set_enabled enabled DryRunSimulator_new, ([], [])) H0 eq_refl). cbv zeta in Hrun.
  destruct (foldl sim_step _ ops) as [s [acc out]]. destruct Hrun as [[Hr _] Ha].
  split; [done|]. unfold sim_list. rewrite length_ring_list.
  exact (rg_count _ _ Hr).
Qed.
