(* ===== verification/PnlTracker.v ===== *)
(** First-in first-out profit and loss: [src/common/pnl_tracker.h].

    Each asset keeps two circular buffers of 256 open entries (buys awaiting a
    sell, sells awaiting a buy).  The matching loops are fixpoints on a fuel of
    one more than the number of entries: an iteration either removes an entry
    or exhausts the fill, so that this is always enough ([match_loop_refines]
    shows the result is the one of the structural recursion on the list of
    entries, which has no fuel).  Prices are in units of 1/10000 and sums are
    integers.  The complement of a token is another token (the registry of
    [MarketPair] guarantees it), so that the two states of a cross match are
    distinct objects.

    Shown: entries stay positive and an asset is never long and short at once;
    the open quantity moves by exactly the fill; realised profit equals the
    change of book value plus cash flow up to one unit of truncation per match;
    settlement closes everything and later fills are ignored. *)
From S2P Require Import Prelude Types Ring.

Record FifoEntry := mkFifoEntry { fe_price : Z; fe_remaining : Z }.
#[export] Instance FifoEntry_inhabited : Inhabited FifoEntry := populate (mkFifoEntry 0 0).

Definition kMaxEntries : nat := 256.

Record AssetPnlState := mkAssetPnlState {
  longs : Ring FifoEntry;
  shorts : Ring FifoEntry;
  settled : bool }.
Definition empty_ring : Ring FifoEntry := mkRing (replicate kMaxEntries (mkFifoEntry 0 0)) 0 0.
Definition AssetPnlState_new : AssetPnlState := mkAssetPnlState empty_ring empty_ring false.

Definition push_long (price qty : Z) (s : AssetPnlState) : AssetPnlState :=
  s <| longs ::= ring_push (mkFifoEntry price qty) |>.
Definition push_short (price qty : Z) (s : AssetPnlState) : AssetPnlState :=
  s <| shorts ::= ring_push (mkFifoEntry price qty) |>.

Record PnlTracker := mkPnlTracker {
  pnl_states_ : gmap AssetId AssetPnlState;
  complement_ : gmap AssetId AssetId;
  realized_pnl_ : Z }.
Definition PnlTracker_new : PnlTracker := mkPnlTracker ∅ ∅ 0.

(** [complement_.emplace] keeps an existing entry; [states_[id]] creates one. *)
Definition emplace {A} (k : AssetId) (v : A) (m : gmap AssetId A) : gmap AssetId A :=
  match m !! k with Some _ => m | None => <[k := v]> m end.
Definition register_pair (up down : AssetId) (p : PnlTracker) : PnlTracker :=
  p <| complement_ ::= fun m => emplace down up (emplace up down m) |>
    <| pnl_states_ ::= fun m => emplace down AssetPnlState_new (emplace up AssetPnlState_new m) |>.

(** ** Matching loops *)

(** Take [matched] off the front entry; remove it when it is used up. *)
Definition consume_front (matched : Z) (r : Ring FifoEntry) : Ring FifoEntry :=
  let e := ring_front r in
  let r := ring_set_front (mkFifoEntry (fe_price e) (fe_remaining e - matched)) r in
  if fe_remaining e - matched =? 0 then ring_pop r else r.

(** [while (remaining > 0 && count > 0)]: [gain] is the profit per unit. *)
Fixpoint match_loop (fuel : nat) (gain : Z -> Z) (remaining : Z) (r : Ring FifoEntry) (pnl : Z)
    : Z * Ring FifoEntry * Z :=
  match fuel with
  | O => (remaining, r, pnl)
  | S fuel =>
      if (remaining >? 0) && (0 <? ring_count r)%nat then
        let e := ring_front r in
        let matched := Z.min remaining (fe_remaining e) in
        match_loop fuel gain (remaining - matched) (consume_front matched r)
          (pnl + (gain (fe_price e) * matched) ÷ kPriceScale)
      else (remaining, r, pnl)
  end.

(** [while (state.long_count > 0 && comp_state.long_count > 0)] *)
Fixpoint cross_loop (fuel : nat) (r rc : Ring FifoEntry) (pnl : Z) : Ring FifoEntry * Ring FifoEntry * Z :=
  match fuel with
  | O => (r, rc, pnl)
  | S fuel =>
      if (0 <? ring_count r)%nat && (0 <? ring_count rc)%nat then
        let this_entry := ring_front r in
        let comp_entry := ring_front rc in
        let matched := Z.min (fe_remaining this_entry) (fe_remaining comp_entry) in
        cross_loop fuel (consume_front matched r) (consume_front matched rc)
          (pnl + ((kPriceScale - fe_price this_entry - fe_price comp_entry) * matched) ÷ kPriceScale)
      else (r, rc, pnl)
  end.

Definition match_all (gain : Z -> Z) (size : Z) (r : Ring FifoEntry) : Z * Ring FifoEntry * Z :=
  match_loop (S (ring_count r)) gain size r 0.

Definition record_buy (price size : Z) (s : AssetPnlState) : AssetPnlState * Z :=
  let '(rem, sh, pnl) := match_all (fun p => p - price) size (shorts s) in
  let s := s <| shorts := sh |> in
  (if rem >? 0 then push_long price rem s else s, pnl).

Definition record_sell (price size : Z) (s : AssetPnlState) : AssetPnlState * Z :=
  let '(rem, lo, pnl) := match_all (fun p => price - p) size (longs s) in
  let s := s <| longs := lo |> in
  (if rem >? 0 then push_short price rem s else s, pnl).

Definition cross_match (s c : AssetPnlState) (pnl : Z) : AssetPnlState * AssetPnlState * Z :=
  let '(lo, lc, pnl) := cross_loop (ring_count (longs s) + ring_count (longs c)) (longs s) (longs c) pnl in
  (s <| longs := lo |>, c <| longs := lc |>, pnl).

Definition record_fill (asset_id : AssetId) (side : Side) (price size : Z) (p : PnlTracker)
    : PnlTracker * Z :=
  let p := p <| pnl_states_ ::= emplace asset_id AssetPnlState_new |> in
  let s := default AssetPnlState_new (pnl_states_ p !! asset_id) in
  if settled s then (p, 0) else
  match side with
  | BID =>
      let '(s, pnl) := record_buy price size s in
      let p := p <| pnl_states_ ::= <[asset_id := s]> |> in
      let '(p, pnl) :=
        match complement_ p !! asset_id with
        | None => (p, pnl)
        | Some comp =>
            match pnl_states_ p !! comp with
            | None => (p, pnl)
            | Some c =>
                if settled c then (p, pnl) else
                let '(s, c, pnl) := cross_match s c pnl in
                (p <| pnl_states_ ::= fun m => <[comp := c]> (<[asset_id := s]> m) |>, pnl)
            end
        end in
      (p <| realized_pnl_ ::= Z.add pnl |>, pnl)
  | ASK =>
      let '(s, pnl) := record_sell price size s in
      (p <| pnl_states_ ::= <[asset_id := s]> |> <| realized_pnl_ ::= Z.add pnl |>, pnl)
  end.

Definition reverse_fill (original_pnl_delta : Z) (p : PnlTracker) : PnlTracker :=
  p <| realized_pnl_ ::= Z.add (- original_pnl_delta) |>.

(** The two closing loops of [settle_asset]: [count] entries are popped. *)
Fixpoint settle_loop (count : nat) (gain : Z -> Z) (r : Ring FifoEntry) (pnl : Z) : Ring FifoEntry * Z :=
  match count with
  | O => (r, pnl)
  | S count =>
      let e := ring_front r in
      settle_loop count gain (ring_pop r) (pnl + (gain (fe_price e) * fe_remaining e) ÷ kPriceScale)
  end.

Definition settle_asset (asset_id : AssetId) (settlement_price : Z) (p : PnlTracker) : PnlTracker :=
  match pnl_states_ p !! asset_id with
  | None => p
  | Some s =>
      if settled s then p else
      let '(lo, pnl) := settle_loop (ring_count (longs s)) (fun q => settlement_price - q) (longs s)
                          (realized_pnl_ p) in
      let '(sh, pnl) := settle_loop (ring_count (shorts s)) (fun q => q - settlement_price) (shorts s) pnl in
      p <| pnl_states_ ::= <[asset_id := mkAssetPnlState lo sh true]> |> <| realized_pnl_ := pnl |>
  end.

(** ** Reference: matching on lists, without fuel *)
Fixpoint match_list (gain : Z -> Z) (remaining : Z) (es : list FifoEntry) (pnl : Z)
    : Z * list FifoEntry * Z :=
  match es with
  | [] => (remaining, [], pnl)
  | e :: rest =>
      if remaining >? 0 then
        let matched := Z.min remaining (fe_remaining e) in
        let pnl := pnl + (gain (fe_price e) * matched) ÷ kPriceScale in
        if fe_remaining e - matched =? 0 then match_list gain (remaining - matched) rest pnl
        else (remaining - matched, mkFifoEntry (fe_price e) (fe_remaining e - matched) :: rest, pnl)
      else (remaining, es, pnl)
  end.

Abbreviation wf_ring := (ring_inv kMaxEntries).

Lemma consume_front_spec matched r :
  wf_ring r -> (0 < ring_count r)%nat ->
  wf_ring (consume_front matched r) /\
  (let e := ring_front r in
   if fe_remaining e - matched =? 0
   then ring_list (consume_front matched r) = ring_list (ring_pop r)
   else ring_list (consume_front matched r) =
        mkFifoEntry (fe_price e) (fe_remaining e - matched) :: ring_list (ring_pop r)).
Proof.
  intros Hr Hc. unfold consume_front.
  destruct (ring_set_front_list kMaxEntries
    (mkFifoEntry (fe_price (ring_front r)) (fe_remaining (ring_front r) - matched)) r Hr Hc) as [H1 H2].
  destruct (_ =? 0); split; auto using ring_pop_inv, ring_set_front_inv.
Qed.

Lemma match_loop_refines fuel gain rem r pnl :
  wf_ring r -> (ring_count r < fuel)%nat ->
  let '(rem', r', pnl') := match_loop fuel gain rem r pnl in
  wf_ring r' /\ match_list gain rem (ring_list r) pnl = (rem', ring_list r', pnl').
Proof.
  revert rem r pnl. induction fuel as [|fuel IH]; intros rem r pnl Hr Hf; [lia|]. cbn [match_loop].
  destruct (Nat.ltb_spec 0 (ring_count r)) as [Hpos|Hz].
  2: { rewrite andb_false_r. split; [done|]. rewrite ring_empty by lia. done. }
  rewrite andb_true_r. rewrite (ring_list_cons kMaxEntries r Hr Hpos). cbn [match_list].
  destruct (Z.gtb_spec rem 0) as [Hrem|Hrem].
  2: { split; [done|]. by rewrite <- (ring_list_cons kMaxEntries r Hr Hpos). }
  set (m := Z.min rem (fe_remaining (ring_front r))).
  destruct (consume_front_spec m r Hr Hpos) as [Hw Hl]. cbn zeta in Hl.
  set (r1 := consume_front m r) in *.
  destruct (Z.eqb_spec (fe_remaining (ring_front r) - m) 0) as [E|E].
  - rewrite <- Hl. apply IH; [done|].
    rewrite <- (length_ring_list r1), Hl, length_ring_list. simpl. lia.
  - assert (rem - m = 0) as -> by lia. rewrite <- Hl.
    destruct fuel as [|fuel']; [lia|]. cbn [match_loop]. done.
Qed.

(** ** Quantities and values *)
Definition qty (es : list FifoEntry) : Z := sum_list_Z fe_remaining es.
Definition value (es : list FifoEntry) : Z := sum_list_Z (fun e => fe_price e * fe_remaining e) es.
Definition positive (es : list FifoEntry) : Prop := Forall (fun e => 0 < fe_remaining e) es.

Lemma qty_cons e es : qty (e :: es) = fe_remaining e + qty es.
Proof. done. Qed.
Lemma value_cons e es : value (e :: es) = fe_price e * fe_remaining e + value es.
Proof. done. Qed.
Lemma qty_app es es' : qty (es ++ es') = qty es + qty es'.
Proof. apply sum_list_Z_app. Qed.
Lemma value_app es es' : value (es ++ es') = value es + value es'.
Proof. apply sum_list_Z_app. Qed.
Lemma qty_nonneg es : positive es -> 0 <= qty es.
Proof.
  intros Hp. apply sum_list_Z_nonneg. intros e He. unfold positive in Hp.
  rewrite Forall_forall in Hp. specialize (Hp e He). lia.
Qed.

(** Truncated division loses less than one unit. *)
Lemma quot_error a : Z.abs (kPriceScale * (a ÷ kPriceScale) - a) <= kPriceScale - 1.
Proof.
  pose proof (Z.quot_rem' a kPriceScale) as Hq.
  pose proof (Z.rem_bound_abs a kPriceScale ltac:(done)) as Hb. unfold kPriceScale in *. lia.
Qed.

(** [gain] for a buy against shorts is [p - price], for a sell against longs
    [price - p]: [a * p + b] with [a] the sign. *)
Lemma match_list_spec a b rem es pnl :
  positive es -> 0 <= rem ->
  let '(rem', es', pnl') := match_list (fun p => a * p + b) rem es pnl in
  positive es' /\ 0 <= rem' <= rem /\ (0 < rem' -> es' = []) /\
  qty es' = qty es - (rem - rem') /\
  Z.abs (kPriceScale * (pnl' - pnl) - (a * (value es - value es') + b * (rem - rem')))
    <= (kPriceScale - 1) * Z.of_nat (length es).
Proof.
  intros Hp. revert rem pnl. induction Hp as [|e es He Hp IH]; intros rem pnl Hrem; cbn [match_list].
  { split; [constructor|]. split; [lia|]. split; [done|]. simpl. lia. }
  destruct (Z.gtb_spec rem 0) as [Hpos|Hz].
  2: { split; [by constructor|]. assert (rem = 0) as -> by lia. split; [lia|]. split; [lia|].
       rewrite qty_cons. simpl length. unfold kPriceScale. split; lia. }
  set (m := Z.min rem (fe_remaining e)).
  pose proof (quot_error ((a * fe_price e + b) * m)) as Herr.
  set (g := ((a * fe_price e + b) * m) ÷ kPriceScale) in *.
  destruct (Z.eqb_spec (fe_remaining e - m) 0) as [E|E].
  - specialize (IH (rem - m) (pnl + g) ltac:(lia)).
    destruct (match_list _ (rem - m) es (pnl + g)) as [[rem' es'] pnl'].
    destruct IH as (H1 & H2 & H3 & H4 & H5). split; [done|]. split; [lia|]. split; [done|].
    rewrite qty_cons, value_cons. split; [lia|]. simpl length.
    replace (fe_remaining e) with m by lia. unfold kPriceScale in *. lia.
  - split; [constructor; [simpl; lia|done]|]. split; [lia|]. split; [lia|].
    rewrite !qty_cons, !value_cons. simpl fe_remaining. simpl fe_price. simpl length. split; [lia|].
    unfold kPriceScale in *. lia.
Qed.

Lemma cross_loop_spec fuel r rc pnl :
  wf_ring r -> wf_ring rc -> positive (ring_list r) -> positive (ring_list rc) ->
  (ring_count r + ring_count rc <= fuel)%nat ->
  let '(r', rc', pnl') := cross_loop fuel r rc pnl in
  wf_ring r' /\ wf_ring rc' /\ positive (ring_list r') /\ positive (ring_list rc') /\
  (ring_list r' = [] \/ ring_list rc' = []) /\
  exists m, 0 <= m /\ qty (ring_list r') = qty (ring_list r) - m /\
    qty (ring_list rc') = qty (ring_list rc) - m /\
    Z.abs (kPriceScale * (pnl' - pnl) -
      (kPriceScale * m - (value (ring_list r) - value (ring_list r')) -
                         (value (ring_list rc) - value (ring_list rc'))))
      <= (kPriceScale - 1) * Z.of_nat fuel.
Proof.
  revert r rc pnl. induction fuel as [|fuel IH]; intros r rc pnl Hr Hrc Hp Hpc Hf; cbn [cross_loop].
  { do 4 (split; [done|]). split; [left; apply ring_empty; lia|]. exists 0. lia. }
  destruct (Nat.ltb_spec 0 (ring_count r)) as [Hc|Hc]; simpl andb.
  2: { do 4 (split; [done|]). split; [left; apply ring_empty; lia|]. exists 0. unfold kPriceScale. lia. }
  destruct (Nat.ltb_spec 0 (ring_count rc)) as [Hcc|Hcc].
  2: { do 4 (split; [done|]). split; [right; apply ring_empty; lia|]. exists 0. unfold kPriceScale. lia. }
  set (e := ring_front r) in *. set (c := ring_front rc) in *.
  set (m := Z.min (fe_remaining e) (fe_remaining c)).
  pose proof (quot_error ((kPriceScale - fe_price e - fe_price c) * m)) as Herr.
  set (g := (_ * m) ÷ kPriceScale) in *.
  destruct (consume_front_spec m r Hr Hc) as [Hw Hl]. destruct (consume_front_spec m rc Hrc Hcc) as [Hwc Hlc].
  fold e in Hl. fold c in Hlc. cbn zeta in Hl, Hlc.
  pose proof (ring_list_cons _ _ Hr Hc) as Er. pose proof (ring_list_cons _ _ Hrc Hcc) as Erc.
  fold e in Er. fold c in Erc. rewrite Er in Hp. rewrite Erc in Hpc.
  apply Forall_cons in Hp as [He Hp]. apply Forall_cons in Hpc as [Hce Hpc].
  pose proof (length_ring_list r) as Hn. pose proof (length_ring_list rc) as Hnc.
  rewrite Er in Hn. rewrite Erc in Hnc. simpl in Hn, Hnc.
  pose proof (length_ring_list (consume_front m r)) as Hn1.
  pose proof (length_ring_list (consume_front m rc)) as Hnc1.
  assert (positive (ring_list (consume_front m r)) /\ positive (ring_list (consume_front m rc)) /\
    (ring_count (consume_front m r) + ring_count (consume_front m rc) <= fuel)%nat /\
    qty (ring_list (consume_front m r)) = qty (ring_list r) - m /\
    qty (ring_list (consume_front m rc)) = qty (ring_list rc) - m /\
    value (ring_list (consume_front m r)) = value (ring_list r) - fe_price e * m /\
    value (ring_list (consume_front m rc)) = value (ring_list rc) - fe_price c * m) as (P1 & P2 & P3 & Q1 & Q2 & V1 & V2).
  { rewrite Er, Erc, !qty_cons, !value_cons.
    destruct (Z.eqb_spec (fe_remaining e - m) 0), (Z.eqb_spec (fe_remaining c - m) 0);
      rewrite Hl in Hn1 |- *; rewrite Hlc in Hnc1 |- *; simpl in Hn1, Hnc1;
      rewrite ?qty_cons, ?value_cons; simpl fe_remaining; simpl fe_price;
      (split; [first [done | constructor; [simpl; lia|done]]|]);
      (split; [first [done | constructor; [simpl; lia|done]]|]);
      (split; [lia|]); try replace (fe_remaining e) with m by lia;
      try replace (fe_remaining c) with m by lia; lia. }
  specialize (IH _ _ (pnl + g) Hw Hwc P1 P2 P3).
  destruct (cross_loop fuel _ _ (pnl + g)) as [[r' rc'] pnl'].
  destruct IH as (I1 & I2 & I3 & I4 & I5 & k & Hk & K1 & K2 & K3).
  do 5 (split; [done|]). exists (k + m). unfold kPriceScale in *. lia.
Qed.

(** ** Invariants *)
Record asset_inv (s : AssetPnlState) : Prop := {
  ai_longs : wf_ring (longs s);
  ai_shorts : wf_ring (shorts s);
  ai_longs_pos : positive (ring_list (longs s));
  ai_shorts_pos : positive (ring_list (shorts s));
  ai_one_side : ring_list (longs s) = [] \/ ring_list (shorts s) = [] }.

(** Open quantity and book value of an asset. *)
Definition net (s : AssetPnlState) : Z := qty (ring_list (longs s)) - qty (ring_list (shorts s)).
Definition book_value (s : AssetPnlState) : Z :=
  value (ring_list (longs s)) - value (ring_list (shorts s)).

Lemma empty_ring_inv : wf_ring empty_ring.
Proof. split; [apply length_replicate|simpl; unfold kMaxEntries; lia|simpl; lia]. Qed.

Lemma asset_new_inv : asset_inv AssetPnlState_new.
Proof.
  split; simpl; [apply empty_ring_inv|apply empty_ring_inv|constructor|constructor|by left].
Qed.

Lemma match_list_ext g g' rem es pnl :
  (forall p, g p = g' p) -> match_list g rem es pnl = match_list g' rem es pnl.
Proof.
  intros E. revert rem pnl. induction es as [|e es IH]; intros rem pnl; cbn [match_list]; [done|].
  rewrite E. destruct (rem >? 0); [|done]. by destruct (_ =? 0); rewrite ?IH.
Qed.

(** The ring loop, with the facts of the list recursion. *)
Lemma match_all_spec a b g size r :
  (forall p, g p = a * p + b) -> wf_ring r -> positive (ring_list r) -> 0 <= size ->
  let '(rem, r', pnl) := match_all g size r in
  wf_ring r' /\ positive (ring_list r') /\ 0 <= rem <= size /\ (0 < rem -> ring_list r' = []) /\
  (ring_list r = [] -> ring_list r' = []) /\
  qty (ring_list r') = qty (ring_list r) - (size - rem) /\
  Z.abs (kPriceScale * pnl - (a * (value (ring_list r) - value (ring_list r')) + b * (size - rem)))
    <= (kPriceScale - 1) * 256.
Proof.
  intros Hg Hr Hp Hs. unfold match_all.
  pose proof (match_loop_refines (S (ring_count r)) g size r 0 Hr ltac:(lia)) as Href.
  destruct (match_loop _ g size r 0) as [[rem r'] pnl]. destruct Href as [Hw Hm].
  rewrite (match_list_ext g (fun p => a * p + b)) in Hm by done.
  pose proof (match_list_spec a b size (ring_list r) 0 Hp Hs) as Hspec. rewrite Hm in Hspec.
  destruct Hspec as (H1 & H2 & H3 & H4 & H5). do 4 (split; [done|]). split.
  { intros E. rewrite E in Hm. simpl in Hm. by injection Hm. }
  split; [done|]. rewrite length_ring_list in H5. destruct Hr as [_ _ Hn].
  unfold kMaxEntries, kPriceScale in *. lia.
Qed.

Lemma push_spec price rem r :
  wf_ring r -> positive (ring_list r) -> (ring_count r < kMaxEntries)%nat -> 0 < rem ->
  wf_ring (ring_push (mkFifoEntry price rem) r) /\
  ring_list (ring_push (mkFifoEntry price rem) r) = ring_list r ++ [mkFifoEntry price rem] /\
  positive (ring_list (ring_push (mkFifoEntry price rem) r)).
Proof.
  intros Hr Hp Hroom Hpos. split; [by apply ring_push_inv|].
  rewrite (ring_push_list kMaxEntries) by done. rewrite length_ring_list, (proj2 (Nat.ltb_lt _ _) Hroom).
  split; [done|]. apply Forall_app. split; [done|]. by apply Forall_singleton.
Qed.

Lemma qty_single price rem : qty [mkFifoEntry price rem] = rem.
Proof. unfold qty. simpl. lia. Qed.
Lemma value_single price rem : value [mkFifoEntry price rem] = price * rem.
Proof. unfold value. simpl. lia. Qed.

Lemma record_buy_spec price size s :
  asset_inv s -> 0 <= size -> (ring_count (longs s) < kMaxEntries)%nat ->
  let '(s', pnl) := record_buy price size s in
  asset_inv s' /\ settled s' = settled s /\ net s' = net s + size /\
  Z.abs (kPriceScale * pnl - (book_value s' - book_value s - price * size)) <= (kPriceScale - 1) * 256.
Proof.
  intros [Hl Hsh Hlp Hsp Hone] Hsize Hroom. unfold record_buy.
  pose proof (match_all_spec 1 (- price) (fun p => p - price) size (shorts s) ltac:(intros; cbv beta; lia) Hsh Hsp Hsize) as Hm.
  destruct (match_all _ size (shorts s)) as [[rem sh] pnl].
  destruct Hm as (H1 & H2 & H3 & H4 & H5 & H6 & H7).
  destruct (Z.gtb_spec rem 0) as [Hpos|Hz].
  - destruct (push_spec price rem (longs s) Hl Hlp Hroom ltac:(lia)) as (P1 & P2 & P3).
    unfold push_long, net, book_value. simpl. rewrite P2, qty_app, value_app, qty_single, value_single.
    split; [split; simpl; auto; right; apply H4; lia|]. split; [done|]. split; [lia|].
    unfold kPriceScale in *. lia.
  - unfold net, book_value. simpl. split; [split; simpl; auto|].
    { destruct Hone as [E|E]; [by left|right; auto]. }
    split; [done|]. split; [lia|]. assert (rem = 0) as -> by lia. unfold kPriceScale in *. lia.
Qed.

Lemma record_sell_spec price size s :
  asset_inv s -> 0 <= size -> (ring_count (shorts s) < kMaxEntries)%nat ->
  let '(s', pnl) := record_sell price size s in
  asset_inv s' /\ settled s' = settled s /\ net s' = net s - size /\
  (ring_list (longs s) = [] -> ring_list (longs s') = []) /\
  Z.abs (kPriceScale * pnl - (book_value s' - book_value s + price * size)) <= (kPriceScale - 1) * 256.
Proof.
  intros [Hl Hsh Hlp Hsp Hone] Hsize Hroom. unfold record_sell.
  pose proof (match_all_spec (-1) price (fun p => price - p) size (longs s) ltac:(intros; cbv beta; lia) Hl Hlp Hsize) as Hm.
  destruct (match_all _ size (longs s)) as [[rem lo] pnl].
  destruct Hm as (H1 & H2 & H3 & H4 & H5 & H6 & H7).
  destruct (Z.gtb_spec rem 0) as [Hpos|Hz].
  - destruct (push_spec price rem (shorts s) Hsh Hsp Hroom ltac:(lia)) as (P1 & P2 & P3).
    unfold push_short, net, book_value. simpl. rewrite P2, qty_app, value_app, qty_single, value_single.
    split; [split; simpl; auto; left; apply H4; lia|]. split; [done|]. split; [lia|]. split; [done|].
    unfold kPriceScale in *. lia.
  - unfold net, book_value. simpl. split; [split; simpl; auto|].
    { destruct Hone as [E|E]; [left; auto|by right]. }
    split; [done|]. split; [lia|]. split; [done|].
    assert (rem = 0) as -> by lia. unfold kPriceScale in *. lia.
Qed.

Lemma cross_match_spec s c pnl :
  asset_inv s -> asset_inv c ->
  let '(s', c', pnl') := cross_match s c pnl in
  asset_inv s' /\ asset_inv c' /\ settled s' = settled s /\ settled c' = settled c /\
  (ring_list (longs s') = [] \/ ring_list (longs c') = []) /\
  exists m, 0 <= m /\ net s' = net s - m /\ net c' = net c - m /\
    Z.abs (kPriceScale * (pnl' - pnl) -
      (kPriceScale * m + (book_value s' - book_value s) + (book_value c' - book_value c)))
      <= (kPriceScale - 1) * 512.
Proof.
  intros [Hl Hsh Hlp Hsp Hone] [Hl' Hsh' Hlp' Hsp' Hone']. unfold cross_match.
  pose proof (cross_loop_spec (ring_count (longs s) + ring_count (longs c)) (longs s) (longs c) pnl
                Hl Hl' Hlp Hlp' ltac:(lia)) as Hx.
  destruct (cross_loop _ (longs s) (longs c) pnl) as [[lo lc] pnl'].
  destruct Hx as (H1 & H2 & H3 & H4 & H5 & m & Hm & Q1 & Q2 & V).
  assert (ring_list (longs s) = [] -> ring_list lo = []) as E1.
  { intros E. rewrite E in Q1. pose proof (qty_nonneg _ H3). destruct (ring_list lo) as [|e l]; [done|].
    apply Forall_cons in H3 as [He Hp]. rewrite qty_cons in *. pose proof (qty_nonneg _ Hp).
    unfold qty in Q1 at 2. simpl in Q1. lia. }
  assert (ring_list (longs c) = [] -> ring_list lc = []) as E2.
  { intros E. rewrite E in Q2. pose proof (qty_nonneg _ H4). destruct (ring_list lc) as [|e l]; [done|].
    apply Forall_cons in H4 as [He Hp]. rewrite qty_cons in *. pose proof (qty_nonneg _ Hp).
    unfold qty in Q2 at 2. simpl in Q2. lia. }
  split; [split; simpl; auto; destruct Hone; auto|]. split; [split; simpl; auto; destruct Hone'; auto|].
  do 2 (split; [done|]). split; [done|]. exists m. unfold net, book_value. simpl.
  destruct Hl as [_ _ Hn], Hl' as [_ _ Hn']. unfold kMaxEntries, kPriceScale in *. lia.
Qed.

(** ** The whole tracker *)
Definition pnl_state (p : PnlTracker) (id : AssetId) : AssetPnlState :=
  default AssetPnlState_new (pnl_states_ p !! id).

Record pnl_inv (p : PnlTracker) : Prop := {
  pi_asset : forall id, asset_inv (pnl_state p id);
  pi_comp : forall t t', complement_ p !! t = Some t' ->
    t <> t' /\ complement_ p !! t' = Some t /\ is_Some (pnl_states_ p !! t');
  pi_pair : forall t t', complement_ p !! t = Some t' ->
    settled (pnl_state p t) = false -> settled (pnl_state p t') = false ->
    ring_list (longs (pnl_state p t)) = [] \/ ring_list (longs (pnl_state p t')) = [] }.

Lemma PnlTracker_new_inv : pnl_inv PnlTracker_new.
Proof.
  split; unfold pnl_state; simpl; intros *; rewrite ?lookup_empty; [apply asset_new_inv|done|done].
Qed.

Lemma emplace_lookup {A} (m : gmap AssetId A) k v k' :
  emplace k v m !! k' = match m !! k' with
                        | Some x => Some x
                        | None => if decide (k = k') then Some v else None
                        end.
Proof.
  unfold emplace. destruct (m !! k) eqn:E.
  - destruct (m !! k') eqn:E'; [done|]. destruct (decide (k = k')); congruence.
  - destruct (decide (k = k')) as [<-|Hne]; [by rewrite lookup_insert_eq, E|].
    rewrite lookup_insert_ne by done. by destruct (m !! k').
Qed.

Lemma pnl_state_emplace p id id' :
  default AssetPnlState_new (emplace id AssetPnlState_new (pnl_states_ p) !! id') = pnl_state p id'.
Proof.
  rewrite emplace_lookup. unfold pnl_state. destruct (pnl_states_ p !! id'); [done|].
  by destruct (decide (id = id')).
Qed.

(** Registration at start-up: two new tokens without a complement. *)
Lemma register_pair_inv up down p :
  up <> down -> complement_ p !! up = None -> complement_ p !! down = None ->
  pnl_states_ p !! up = None -> pnl_states_ p !! down = None ->
  pnl_inv p -> pnl_inv (register_pair up down p).
Proof.
  intros Hne Hcu Hcd Hsu Hsd [Ha Hc Hp].
  assert (forall id, pnl_state (register_pair up down p) id = pnl_state p id) as Hst.
  { intros id. unfold pnl_state at 1. simpl. rewrite emplace_lookup, emplace_lookup.
    unfold pnl_state. destruct (pnl_states_ p !! id); [done|].
    by destruct (decide (up = id)), (decide (down = id)). }
  assert (forall t t', complement_ (register_pair up down p) !! t = Some t' ->
    (t = up /\ t' = down) \/ (t = down /\ t' = up) \/
    (complement_ p !! t = Some t' /\ t <> up /\ t <> down /\ t' <> up /\ t' <> down)) as Hcomp.
  { intros t t'. simpl. rewrite emplace_lookup, emplace_lookup.
    destruct (complement_ p !! t) eqn:E.
    - intros [= <-]. right. right. destruct (Hc _ _ E) as (_ & Hback & _).
      split; [done|]. split_and!; intros ->; congruence.
    - destruct (decide (up = t)) as [<-|]; [intros [= <-]; by left|].
      destruct (decide (down = t)) as [<-|]; [|done]. intros [= <-]. by right; left. }
  split.
  - intros id. rewrite Hst. apply Ha.
  - intros t t' Ht. simpl. rewrite !emplace_lookup.
    destruct (Hcomp t t' Ht) as [[-> ->]|[[-> ->]|(E & N1 & N2 & N3 & N4)]].
    + rewrite ?Hcd, ?Hsd, ?Hsu. repeat destruct (decide _); simplify_eq; by eauto.
    + rewrite ?Hcu, ?Hsu, ?Hsd. repeat destruct (decide _); simplify_eq; by eauto.
    + destruct (Hc _ _ E) as (H1 & H2 & [x Hx]). rewrite H2, Hx. by eauto.
  - intros t t' Ht. rewrite !Hst. destruct (Hcomp t t' Ht) as [[-> ->]|[[-> ->]|(E & _)]]; [| |by apply Hp].
    + intros _ _. left. unfold pnl_state. by rewrite Hsu.
    + intros _ _. left. unfold pnl_state. by rewrite Hsd.
Qed.

Definition sign (sd : Side) : Z := match sd with BID => 1 | ASK => -1 end.
Definition room_for_fill (s : AssetPnlState) : Prop :=
  (ring_count (longs s) < kMaxEntries)%nat /\ (ring_count (shorts s) < kMaxEntries)%nat.

(** What a fill does to its asset, to the complement and to the rest. *)
Definition fill_effect (p p' : PnlTracker) (id : AssetId) (sd : Side) (price size pnl : Z) : Prop :=
  exists m, 0 <= m /\ (sd = ASK \/ complement_ p !! id = None -> m = 0) /\
    net (pnl_state p' id) = net (pnl_state p id) + sign sd * size - m /\
    (forall c, complement_ p !! id = Some c -> net (pnl_state p' c) = net (pnl_state p c) - m) /\
    (forall id', id' <> id -> complement_ p !! id <> Some id' -> pnl_state p' id' = pnl_state p id') /\
    let comp_value q := from_option (fun c => book_value (pnl_state q c)) 0 (complement_ p !! id) in
    Z.abs (kPriceScale * pnl -
      ((book_value (pnl_state p' id) - book_value (pnl_state p id)) +
       (comp_value p' - comp_value p) + kPriceScale * m - sign sd * price * size))
      <= (kPriceScale - 1) * 768.

Lemma pnl_state_insert m id s c r id' :
  pnl_state (mkPnlTracker (<[id := s]> m) c r) id' =
    if decide (id = id') then s else default AssetPnlState_new (m !! id').
Proof.
  unfold pnl_state. simpl. destruct (decide (id = id')) as [<-|]; [by rewrite lookup_insert_eq|].
  by rewrite lookup_insert_ne.
Qed.

(** A fill without cross matching: a sell, no complement, or a settled one. *)
Lemma fill_effect_alone p p' id sd price size pnl s' :
  (forall t t', complement_ p !! t = Some t' -> t <> t') ->
  (forall id', pnl_state p' id' = if decide (id = id') then s' else pnl_state p id') ->
  net s' = net (pnl_state p id) + sign sd * size ->
  Z.abs (kPriceScale * pnl - (book_value s' - book_value (pnl_state p id) - sign sd * price * size)) <=
    (kPriceScale - 1) * 256 ->
  fill_effect p p' id sd price size pnl.
Proof.
  intros Hc Hst Hnet Hval. exists 0. split; [done|]. split; [done|].
  rewrite !Hst, !decide_True by done. split; [lia|]. split.
  { intros c Hcc. rewrite Hst, decide_False by (by apply (Hc id c)). lia. }
  split; [intros id' Hne _; by rewrite Hst, decide_False|].
  cbn zeta. destruct (complement_ p !! id) as [c|] eqn:Ec; simpl.
  - rewrite Hst, decide_False by (by apply (Hc id c)). unfold kPriceScale in *. lia.
  - unfold kPriceScale in *. lia.
Qed.

Lemma record_fill_ask p id price size :
  pnl_inv p -> 0 <= size -> settled (pnl_state p id) = false -> room_for_fill (pnl_state p id) ->
  let '(p', pnl) := record_fill id ASK price size p in
  pnl_inv p' /\ realized_pnl_ p' = realized_pnl_ p + pnl /\ fill_effect p p' id ASK price size pnl.
Proof.
  intros [Ha Hc Hp] Hs Hset [_ Hroom]. unfold record_fill. cbn [pnl_states_ set].
  rewrite pnl_state_emplace, Hset.
  pose proof (record_sell_spec price size _ (Ha id) Hs Hroom) as Hsell.
  destruct (record_sell price size (pnl_state p id)) as [s' pnl].
  destruct Hsell as (H1 & H2 & H3 & H4 & H5). unfold set. simpl.
  assert (forall id', pnl_state (mkPnlTracker (<[id := s']> (emplace id AssetPnlState_new (pnl_states_ p)))
            (complement_ p) (pnl + realized_pnl_ p)) id' = if decide (id = id') then s' else pnl_state p id') as Hst.
  { intros id'. rewrite pnl_state_insert. destruct (decide _); [done|]. apply pnl_state_emplace. }
  split; [split|split; [simpl; lia|]]; simpl.
  - intros id'. rewrite Hst. by destruct (decide _).
  - intros t t' Ht. destruct (Hc t t' Ht) as (N & B & [x Hx]). split; [done|]. split; [done|].
    destruct (decide (id = t')) as [<-|]; [rewrite lookup_insert_eq; eauto|].
    rewrite lookup_insert_ne, emplace_lookup, Hx by done. eauto.
  - intros t t' Ht. rewrite !Hst. destruct (Hc t t' Ht) as (N & _).
    pose proof (Hp t t' Ht) as Hpair.
    destruct (decide (id = t)) as [<-|], (decide (id = t')) as [<-|]; try done; rewrite ?H2; naive_solver.
  - apply fill_effect_alone with s'; [intros t t' Ht; by apply (Hc t t')|done|unfold sign; lia|].
    unfold sign. replace (- (1) * price * size) with (- (price * size)) by lia. unfold kPriceScale in *. lia.
Qed.

Lemma record_fill_bid p id price size :
  pnl_inv p -> 0 <= size -> settled (pnl_state p id) = false -> room_for_fill (pnl_state p id) ->
  let '(p', pnl) := record_fill id BID price size p in
  pnl_inv p' /\ realized_pnl_ p' = realized_pnl_ p + pnl /\ fill_effect p p' id BID price size pnl.
Proof.
  intros [Ha Hc Hp] Hs Hset [Hroom _]. unfold record_fill. cbn [pnl_states_ set].
  rewrite pnl_state_emplace, Hset.
  pose proof (record_buy_spec price size _ (Ha id) Hs Hroom) as Hbuy.
  destruct (record_buy price size (pnl_state p id)) as [s1 pnl1].
  destruct Hbuy as (H1 & H2 & H3 & H4). unfold set. simpl.
  set (m1 := <[id := s1]> (emplace id AssetPnlState_new (pnl_states_ p))).
  assert (forall r id', pnl_state (mkPnlTracker m1 (complement_ p) r) id' =
            if decide (id = id') then s1 else pnl_state p id') as Hst.
  { intros r id'. unfold m1. rewrite pnl_state_insert. destruct (decide _); [done|]. apply pnl_state_emplace. }
  assert (forall k, is_Some (pnl_states_ p !! k) -> is_Some (m1 !! k)) as Hdom.
  { intros k [x Hx]. unfold m1. destruct (decide (id = k)) as [<-|]; [rewrite lookup_insert_eq; eauto|].
    rewrite lookup_insert_ne, emplace_lookup, Hx by done. eauto. }
  destruct (complement_ p !! id) as [comp|] eqn:Ec.
  2: { split; [split|split; [simpl; lia|]]; simpl.
    - intros id'. rewrite Hst. by destruct (decide _).
    - intros t t' Ht. destruct (Hc t t' Ht) as (N & B & Hx). auto.
    - intros t t' Ht. destruct (Hc t t' Ht) as (N & B & Hx). rewrite !Hst.
      destruct (decide (id = t)) as [<-|]; [congruence|]. destruct (decide (id = t')) as [<-|]; [congruence|]. auto.
    - apply fill_effect_alone with s1; [intros t t' Ht; by apply (Hc t t')|done|simpl; lia|].
      unfold sign. by rewrite Z.mul_1_l. }
  destruct (Hc id comp Ec) as (Hne & Hback & Hsome). destruct (Hdom comp Hsome) as [c Hcl]. rewrite Hcl.
  assert (c = pnl_state p comp) as ->.
  { pose proof (Hst 0 comp) as E. unfold pnl_state at 1 in E. simpl in E. rewrite Hcl in E. simpl in E.
    by rewrite decide_False in E. }
  destruct (settled (pnl_state p comp)) eqn:Hcset.
  { split; [split|split; [simpl; lia|]]; simpl.
    - intros id'. rewrite Hst. by destruct (decide _).
    - intros t t' Ht. destruct (Hc t t' Ht) as (N & B & Hx). auto.
    - intros t t' Ht. destruct (Hc t t' Ht) as (N & B & Hx). rewrite !Hst.
      destruct (decide (id = t)) as [<-|]; [simplify_eq; rewrite decide_False by done; congruence|].
      destruct (decide (id = t')) as [<-|]; [simplify_eq; congruence|]. auto.
    - apply fill_effect_alone with s1; [intros t t' Ht; by apply (Hc t t')|done|simpl; lia|].
      unfold sign. by rewrite Z.mul_1_l. }
  pose proof (cross_match_spec s1 (pnl_state p comp) pnl1 H1 (Ha comp)) as Hx.
  destruct (cross_match s1 (pnl_state p comp) pnl1) as [[s2 c2] pnl2].
  destruct Hx as (I1 & I2 & I3 & I4 & I5 & m & Hm & N1 & N2 & V). simpl.
  assert (forall r id', pnl_state (mkPnlTracker (<[comp := c2]> (<[id := s2]> m1)) (complement_ p) r) id' =
            if decide (comp = id') then c2 else if decide (id = id') then s2 else pnl_state p id') as Hst2.
  { intros r id'. rewrite pnl_state_insert. destruct (decide (comp = id')); [done|].
    change (default AssetPnlState_new (<[id := s2]> m1 !! id'))
      with (pnl_state (mkPnlTracker (<[id := s2]> m1) (complement_ p) r) id').
    rewrite pnl_state_insert. destruct (decide (id = id')); [done|].
    pose proof (Hst r id') as E. rewrite decide_False in E by done. exact E. }
  split; [split|split; [simpl; lia|]]; simpl.
  - intros id'. rewrite Hst2. by destruct (decide _); [|destruct (decide _)].
  - intros t t' Ht. destruct (Hc t t' Ht) as (N & B & Hx). split; [done|]. split; [done|].
    destruct (decide (comp = t')) as [<-|]; [rewrite lookup_insert_eq; eauto|].
    rewrite lookup_insert_ne by done. destruct (decide (id = t')) as [<-|]; [rewrite lookup_insert_eq; eauto|].
    rewrite lookup_insert_ne by done. auto.
  - intros t t' Ht. destruct (Hc t t' Ht) as (N & B & Hx). rewrite !Hst2.
    destruct (decide (comp = t)) as [<-|].
    { assert (t' = id) as -> by congruence. rewrite decide_False, decide_True by done. naive_solver. }
    destruct (decide (id = t)) as [<-|].
    { assert (t' = comp) as -> by congruence. rewrite decide_True by done. naive_solver. }
    rewrite !decide_False by congruence. auto.
  - exists m. split; [done|]. split; [intros [?|?]; congruence|].
    rewrite !Hst2, decide_False, decide_True by done. split; [simpl; lia|]. split.
    { intros c Hcc. assert (c = comp) as -> by congruence. by rewrite Hst2, decide_True. }
    split. { intros id' Hn1 Hn2. rewrite Hst2, !decide_False by congruence. done. }
    cbn zeta. rewrite Ec. simpl. rewrite Hst2, decide_True by done. unfold sign, kPriceScale in *. lia.
Qed.

(** C8: Profit conservation: on a well-formed tracker, a fill of an unsettled
    asset with buffer space changes the asset's open quantity by the signed
    size less the [m] units paired with the complement (whose open quantity
    drops by the same [m]), touches no other asset, and the profit it reports,
    which is added to the realised total, equals the change of book value of
    the two assets plus one dollar per paired unit minus the cash paid, up to
    a truncation of less than 768 units of profit per fill (the divisions of at
    most 256 entries on each of three sides; the arithmetic is that of integers,
    without the 64-bit wrap-around); the result is again
    well formed: positive entries, no asset long and short, no pair long on
    both sides. *)
Theorem fill_conservation p id sd price size
    (Hinv : pnl_inv p) (Hsize : 0 <= size) (Hopen : settled (pnl_state p id) = false)
    (Hroom : room_for_fill (pnl_state p id)) :
  let '(p', pnl) := record_fill id sd price size p in
  pnl_inv p' /\ realized_pnl_ p' = realized_pnl_ p + pnl /\ fill_effect p p' id sd price size pnl.
Proof. destruct sd; [by apply record_fill_bid|by apply record_fill_ask]. Qed.

Lemma fill_conservation_witness :
  let p := register_pair "u" "d" PnlTracker_new in
  pnl_inv p /\ (record_fill "u" BID 4000 10 p).2 = 0 /\
  realized_pnl_ (record_fill "u" BID 4000 10 p).1 = 0.
Proof.
  cbv zeta. assert (pnl_inv (register_pair "u" "d" PnlTracker_new)) as Hp.
  { apply register_pair_inv; [done..|apply PnlTracker_new_inv]. }
  split; [exact Hp|]. split; [reflexivity|].
  pose proof (fill_conservation (register_pair "u" "d" PnlTracker_new) "u" BID 4000 10 Hp) as H.
  destruct (record_fill "u" BID 4000 10 (register_pair "u" "d" PnlTracker_new)) as [p' pnl] eqn:E.
  destruct H as (_ & Hr & _); [lia|done| |].
  - split; apply Nat.ltb_lt; reflexivity.
  - cbn [fst]. rewrite Hr. change pnl with ((p', pnl).2). rewrite <- E. reflexivity.
Defined.

(** Every fill adds what it reports to the realised total. *)
Lemma record_fill_realized id sd price size p :
  realized_pnl_ (record_fill id sd price size p).1 = realized_pnl_ p + (record_fill id sd price size p).2.
Proof.
  unfold record_fill. cbn [pnl_states_ set]. destruct (settled _); [simpl; lia|]. destruct sd.
  - destruct (record_buy _ _ _) as [s1 pnl1]. simpl. destruct (complement_ p !! id) as [c|]; [|simpl; lia].
    destruct (<[id := s1]> _ !! c) as [cs|]; [|simpl; lia]. destruct (settled cs); [simpl; lia|].
    destruct (cross_match s1 cs pnl1) as [[s2 c2] pnl2]. simpl. lia.
  - destruct (record_sell _ _ _) as [s1 pnl1]. simpl. lia.
Qed.

(** ** Settlement *)
Definition closing_pnl (gain : Z -> Z) (es : list FifoEntry) : Z :=
  sum_list_Z (fun e => (gain (fe_price e) * fe_remaining e) ÷ kPriceScale) es.

Lemma settle_loop_spec n gain r pnl :
  wf_ring r -> ring_count r = n ->
  let '(r', pnl') := settle_loop n gain r pnl in
  wf_ring r' /\ ring_list r' = [] /\ pnl' = pnl + closing_pnl gain (ring_list r).
Proof.
  revert r pnl. induction n as [|n IH]; intros r pnl Hr Hn; cbn [settle_loop].
  { rewrite ring_empty by done. split; [done|]. split; [done|]. unfold closing_pnl. simpl. lia. }
  specialize (IH (ring_pop r) (pnl + (gain (fe_price (ring_front r)) * fe_remaining (ring_front r)) ÷ kPriceScale)
                (ring_pop_inv _ _ Hr)).
  destruct (settle_loop n gain (ring_pop r) _) as [r' pnl']. destruct IH as (H1 & H2 & H3); [simpl; lia|].
  split; [done|]. split; [done|]. rewrite (ring_list_cons kMaxEntries r Hr) by lia.
  unfold closing_pnl in *. simpl. lia.
Qed.

Lemma settled_fill_ignored p id s sd price size :
  pnl_states_ p !! id = Some s -> settled s = true -> record_fill id sd price size p = (p, 0).
Proof.
  intros Hs Hset. unfold record_fill. unfold set. simpl. unfold emplace. rewrite Hs. simpl. rewrite Hs.
  simpl. rewrite Hset. by destruct p.
Qed.

(** Settlement is final: settling an open asset realises, for every open
    long, settlement minus entry price and, for every open short, entry minus
    settlement price (times the quantity, truncated per entry), leaves no open
    entry, keeps the tracker well formed, and makes every later fill or
    settlement of the asset a no-op. *)
Theorem settlement_closes p id s price
    (Hinv : pnl_inv p) (Hs : pnl_states_ p !! id = Some s) (Hopen : settled s = false) :
  let p' := settle_asset id price p in
  pnl_inv p' /\ net (pnl_state p' id) = 0 /\ settled (pnl_state p' id) = true /\
  realized_pnl_ p' = realized_pnl_ p + closing_pnl (fun q => price - q) (ring_list (longs s)) +
                     closing_pnl (fun q => q - price) (ring_list (shorts s)) /\
  (forall sd q size, record_fill id sd q size p' = (p', 0)) /\
  (forall q, settle_asset id q p' = p').
Proof.
  intros p'. destruct Hinv as [Ha Hc Hp].
  assert (asset_inv s) as Hsi. { specialize (Ha id). unfold pnl_state in Ha. by rewrite Hs in Ha. }
  pose proof Hsi as [Hl Hsh _ _ _]. 
  pose proof (settle_loop_spec _ (fun q => price - q) (longs s) (realized_pnl_ p) Hl eq_refl) as L.
  destruct (settle_loop _ (fun q => price - q) (longs s) _) as [lo pnl1] eqn:EL. destruct L as (L1 & L2 & L3).
  pose proof (settle_loop_spec _ (fun q => q - price) (shorts s) pnl1 Hsh eq_refl) as S.
  destruct (settle_loop _ (fun q => q - price) (shorts s) _) as [sh pnl2] eqn:ES. destruct S as (S1 & S2 & S3).
  assert (p' = p <| pnl_states_ ::= <[id := mkAssetPnlState lo sh true]> |> <| realized_pnl_ := pnl2 |>) as Ep.
  { unfold p', settle_asset. by rewrite Hs, Hopen, EL, ES. }
  clearbody p'.
  assert (pnl_states_ p' !! id = Some (mkAssetPnlState lo sh true)) as Hp'.
  { rewrite Ep. simpl. by rewrite lookup_insert_eq. }
  assert (forall id', pnl_state p' id' = if decide (id = id') then mkAssetPnlState lo sh true else pnl_state p id') as Hst.
  { intros id'. rewrite Ep. unfold pnl_state. simpl. destruct (decide (id = id')) as [<-|].
    - by rewrite lookup_insert_eq.
    - by rewrite lookup_insert_ne. }
  split; [split|].
  - intros id'. rewrite Hst. destruct (decide _); [|done].
    split; simpl; rewrite ?L2, ?S2; try done; [constructor|constructor|by left].
  - rewrite Ep. simpl. intros t t' Ht. destruct (Hc t t' Ht) as (N & B & [x Hx]).
    split; [done|]. split; [done|]. destruct (decide (id = t')) as [<-|]; [rewrite lookup_insert_eq; eauto|].
    rewrite lookup_insert_ne, Hx by done. eauto.
  - intros t t' Ht. rewrite Ep in Ht. simpl in Ht.
    rewrite !Hst. destruct (decide (id = t)); [done|]. destruct (decide (id = t')); [done|].
    by apply Hp.
  - split; [rewrite Hst, decide_True by done; unfold net; simpl; by rewrite L2, S2|].
    split; [by rewrite Hst, decide_True|]. split; [rewrite Ep; simpl; lia|]. split.
    + intros sd q size. by eapply settled_fill_ignored.
    + intros q. unfold settle_asset. by rewrite Hp'.
Qed.

Lemma settlement_closes_witness :
  let p := (record_fill "u" BID 4000 10 (register_pair "u" "d" PnlTracker_new)).1 in
  pnl_inv p /\ net (pnl_state (settle_asset "u" 10000 p) "u") = 0.
Proof.
  intros p.
  assert (pnl_inv p) as Hp.
  { pose proof (record_fill_bid (register_pair "u" "d" PnlTracker_new) "u" 4000 10) as Hf. fold p in Hf.
    unfold p. destruct (record_fill "u" BID 4000 10 (register_pair "u" "d" PnlTracker_new)) as [p1 pnl1].
    apply Hf; [|lia|done|split; apply Nat.ltb_lt; reflexivity].
    apply register_pair_inv; [done..|apply PnlTracker_new_inv]. }
  split; [exact Hp|].
  destruct (pnl_states_ p !! "u"%string) as [s|] eqn:Es; [|discriminate Es].
  apply (settlement_closes p "u" s 10000 Hp Es).
  assert (Some (settled s) = Some false) as Hsome; [|by injection Hsome].
  change (settled <$> Some s = Some false). rewrite <- Es. reflexivity.
Defined.
