(* ===== verification/ExecStateStore.v ===== *)
(** Order, trade and position state of the user-stream thread:
    [src/state/exec_state_store.cpp] and [exec_state_store.h].

    The shared inventory and profit tracker (optional pointers) are fields of
    the state; events go to the strategy thread with [push_spin].  A handler is
    split into its core, which changes the tables and decides what to report,
    and the emission of the event.  Hash maps are visited in an unspecified
    order (the model's is that of [map_to_list]); log and metric output is left
    out.

    Shown: an order's fields never change identity, its matched size never
    decreases and a terminal status is final; each trade's fill is counted at
    most once; a reversal undoes a fill exactly; the tables stay within one
    entry of their configured caps.  Two deliveries that break the accounting
    are exhibited: a trade reported FAILED twice is reversed twice, and a match
    delivered after the failure is counted and never reversed. *)
From S2P Require Import Prelude Types OrderBook Events SpscQueue TokenInventory Ring PnlTracker.

Inductive ApplyResult := APPLIED | DUPLICATE | QUEUE_OVERFLOW.

Record TrackedOrder := mkTrackedOrder {
  to_order_id : OrderId;
  to_client_order_id : OrderId;
  to_asset_id : AssetId;
  to_status : OrderStatus;
  to_side : Side;
  to_price : Z;
  to_original_size : Z;
  to_size_matched : Z;
  to_first_seen_ts : Z;
  to_last_update_ts : Z;
  to_last_seq : Z }.

Record TrackedTrade := mkTrackedTrade {
  tt_trade_id : TradeId;
  tt_taker_order_id : OrderId;
  tt_asset_id : AssetId;
  tt_status : TradeStatus;
  tt_side : Side;
  tt_fill_price : Z;
  tt_fill_size : Z;
  tt_first_seen_ts : Z;
  tt_last_update_ts : Z;
  tt_pnl_delta : Z }.

Record PositionDelta := mkPositionDelta {
  net_position : Z;
  total_bought : Z;
  total_sold : Z;
  fill_count : Z }.
Definition PositionDelta_default : PositionDelta := mkPositionDelta 0 0 0 0.

Record ExecStateStoreConfig := mkExecStateStoreConfig {
  max_orders : Z;
  max_trades : Z;
  max_seen_trade_fills : Z;
  terminal_order_ttl_ms : Z;
  terminal_trade_ttl_ms : Z;
  seen_trade_fill_ttl_ms : Z;
  sweep_interval_ms : Z }.
Definition ExecStateStoreConfig_default : ExecStateStoreConfig :=
  mkExecStateStoreConfig 50000 50000 100000 (30 * 60 * 1000) (30 * 60 * 1000) (60 * 60 * 1000) 1000.

Record ExecState := mkExecState {
  orders_ : gmap OrderId TrackedOrder;
  trades_ : gmap TradeId TrackedTrade;
  seen_trade_fills_ : gmap TradeId Z;
  positions_ : gmap AssetId PositionDelta;
  inventory_ : option TokenInventory;
  pnl_tracker_ : option PnlTracker;
  xs_config_ : ExecStateStoreConfig;
  next_sweep_ts_ : Z;
  fatal_flag_ : bool }.
Definition ExecState_new (inv : option TokenInventory) (pnl : option PnlTracker)
    (c : ExecStateStoreConfig) : ExecState :=
  mkExecState ∅ ∅ ∅ ∅ inv pnl c 0 false.

Definition is_terminal_order_status (s : OrderStatus) : bool :=
  match s with OrderStatus.FILLED | OrderStatus.CANCELED | OrderStatus.FAILED => true | _ => false end.
Definition trade_status_rank (s : TradeStatus) : Z :=
  match s with
  | TradeStatus.UNKNOWN => 0 | TradeStatus.MATCHED => 1 | TradeStatus.RETRYING => 2
  | TradeStatus.MINED => 3 | TradeStatus.CONFIRMED => 4 | TradeStatus.FAILED => 4
  end.
Definition is_terminal_trade_status (s : TradeStatus) : bool :=
  match s with TradeStatus.CONFIRMED | TradeStatus.FAILED => true | _ => false end.

(** ** Eviction *)
Section Evict.
Context {V : Type} (terminal : V -> bool) (ts : V -> Z).

Definition evict_ttl (ttl_ms now : Z) (m : gmap string V) : gmap string V :=
  if ttl_ms >? 0
  then filter (fun kv => ~ (terminal kv.2 = true /\ ttl_ms * 1000000 <= now - ts kv.2)) m
  else m.

(** The scan of [erase_oldest]: the first entry with the least time stamp. *)
Definition oldest_step (terminal_only : bool) (acc : option string * Z) (kv : string * V)
    : option string * Z :=
  if terminal_only && negb (terminal kv.2) then acc
  else if ts kv.2 <? acc.2 then (Some kv.1, ts kv.2) else acc.
Definition oldest_key (terminal_only : bool) (m : gmap string V) : option string :=
  (foldl (oldest_step terminal_only) (None, INT64_MAX) (map_to_list m)).1.
Definition erase_oldest (terminal_only : bool) (m : gmap string V) : option (gmap string V) :=
  (fun k => delete k m) <$> oldest_key terminal_only m.

(** [while (size > max) if (!erase_oldest(true) && !erase_oldest(false)) break;] *)
Fixpoint evict_cap_loop (fuel : nat) (max : Z) (m : gmap string V) : gmap string V :=
  match fuel with
  | O => m
  | S fuel =>
      if Z.of_nat (size m) >? max then
        match erase_oldest true m with
        | Some m' => evict_cap_loop fuel max m'
        | None => match erase_oldest false m with
                  | Some m' => evict_cap_loop fuel max m'
                  | None => m
                  end
        end
      else m
  end.
Definition evict_cap (max : Z) (m : gmap string V) : gmap string V :=
  if max >? 0 then evict_cap_loop (size m) max m else m.
End Evict.

Definition order_terminal (o : TrackedOrder) : bool := is_terminal_order_status (to_status o).
Definition trade_terminal (t : TrackedTrade) : bool := is_terminal_trade_status (tt_status t).

Definition evict_terminal_orders (now : Z) (st : ExecState) : ExecState :=
  st <| orders_ ::= fun m =>
          evict_cap order_terminal to_last_update_ts (max_orders (xs_config_ st))
            (evict_ttl order_terminal to_last_update_ts (terminal_order_ttl_ms (xs_config_ st)) now m) |>.
Definition evict_terminal_trades (now : Z) (st : ExecState) : ExecState :=
  st <| trades_ ::= fun m =>
          evict_cap trade_terminal tt_last_update_ts (max_trades (xs_config_ st))
            (evict_ttl trade_terminal tt_last_update_ts (terminal_trade_ttl_ms (xs_config_ st)) now m) |>.
Definition evict_seen_trade_fills (now : Z) (st : ExecState) : ExecState :=
  st <| seen_trade_fills_ ::= fun m =>
          evict_cap (fun _ => true) id (max_seen_trade_fills (xs_config_ st))
            (evict_ttl (fun _ => true) id (seen_trade_fill_ttl_ms (xs_config_ st)) now m) |>.

Definition over_cap_of {V} (max : Z) (m : gmap string V) : bool :=
  (max >? 0) && (Z.of_nat (size m) >? max).

Definition maybe_sweep (now : Z) (st : ExecState) : ExecState :=
  let c := xs_config_ st in
  let over_cap := over_cap_of (max_orders c) (orders_ st) || over_cap_of (max_trades c) (trades_ st) ||
                  over_cap_of (max_seen_trade_fills c) (seen_trade_fills_ st) in
  if (sweep_interval_ms c <=? 0) && negb over_cap then st else
  if negb over_cap && negb (next_sweep_ts_ st =? 0) && (now <? next_sweep_ts_ st) then st else
  let st := evict_seen_trade_fills now (evict_terminal_trades now (evict_terminal_orders now st)) in
  if sweep_interval_ms c >? 0 then st <| next_sweep_ts_ := now + sweep_interval_ms c * 1000000 |> else st.

(** ** Order updates *)
Definition initial_status (upd : UserOrderUpdate) : OrderStatus :=
  match uo_event_type upd with
  | OrderEventType.PLACEMENT => OrderStatus.LIVE
  | OrderEventType.UPDATE =>
      if (uo_size_matched upd >=? uo_original_size upd) && (uo_original_size upd >? 0) then OrderStatus.FILLED
      else if uo_size_matched upd >? 0 then OrderStatus.PARTIAL else OrderStatus.LIVE
  | OrderEventType.CANCELLATION => OrderStatus.CANCELED
  end.

Definition next_status (upd : UserOrderUpdate) (s : OrderStatus) : OrderStatus :=
  match uo_event_type upd with
  | OrderEventType.PLACEMENT =>
      if bool_decide (s = OrderStatus.UNKNOWN) then OrderStatus.LIVE else s
  | OrderEventType.UPDATE =>
      if (uo_size_matched upd >=? uo_original_size upd) && (uo_original_size upd >? 0) then OrderStatus.FILLED
      else if uo_size_matched upd >? 0 then
        if bool_decide (s = OrderStatus.LIVE) || bool_decide (s = OrderStatus.UNKNOWN)
        then OrderStatus.PARTIAL else s
      else s
  | OrderEventType.CANCELLATION => OrderStatus.CANCELED
  end.

Definition is_event (e : OrderEventType) (upd : UserOrderUpdate) : bool := bool_decide (uo_event_type upd = e).

(** The guards of an update to a tracked order: [true] when it is a duplicate. *)
Definition order_duplicate (upd : UserOrderUpdate) (t : TrackedOrder) : bool :=
  negb (id_eqb (to_asset_id t) (uo_asset_id upd)) || negb (side_eqb (to_side t) (uo_side upd)) ||
  (is_terminal_order_status (to_status t) && negb (is_event OrderEventType.CANCELLATION upd) &&
     (is_event OrderEventType.PLACEMENT upd || (uo_size_matched upd <=? to_size_matched t))) ||
  (is_event OrderEventType.UPDATE upd && (uo_size_matched upd =? to_size_matched t)) ||
  (uo_size_matched upd <? to_size_matched t).

Definition new_tracked_order (upd : UserOrderUpdate) (recv_ts seq : Z) : TrackedOrder :=
  mkTrackedOrder (uo_order_id upd) (uo_client_order_id upd) (uo_asset_id upd) (initial_status upd)
    (uo_side upd) (uo_price upd) (uo_original_size upd) (uo_size_matched upd) recv_ts recv_ts seq.

(** The table update; [None] for a duplicate, else the event to emit. *)
Definition order_core (upd : UserOrderUpdate) (recv_ts seq : Z) (st : ExecState)
    : ExecState * option SchedulerEvent :=
  let st := maybe_sweep recv_ts st in
  let emit t := (from_order_update upd recv_ts seq) <| order_status_raw := to_status t |> in
  match orders_ st !! uo_order_id upd with
  | Some t =>
      if order_duplicate upd t then (st, None)
      else
        let t := t <| to_size_matched := uo_size_matched upd |> <| to_last_update_ts := recv_ts |>
                   <| to_last_seq := seq |> <| to_status := next_status upd (to_status t) |> in
        (st <| orders_ ::= <[uo_order_id upd := t]> |>, Some (emit t))
  | None =>
      let t := new_tracked_order upd recv_ts seq in
      (st <| orders_ ::= <[uo_order_id upd := t]> |>, Some (emit t))
  end.

(** ** Fills *)
Definition signed (sd : Side) (q : Z) : Z := match sd with BID => q | ASK => - q end.
Definition position_of (st : ExecState) (a : AssetId) : PositionDelta :=
  default PositionDelta_default (positions_ st !! a).

Definition usdc_delta (price size : Z) : Z := (price * size) ÷ kPriceScale.

Definition apply_fill (sd : Side) (size : Z) (pos : PositionDelta) : PositionDelta :=
  match sd with
  | BID => pos <| net_position ::= fun n => n + size |> <| total_bought ::= fun n => n + size |>
               <| fill_count ::= fun n => n + 1 |>
  | ASK => pos <| net_position ::= fun n => n - size |> <| total_sold ::= fun n => n + size |>
               <| fill_count ::= fun n => n + 1 |>
  end.
Definition unapply_fill (sd : Side) (size : Z) (pos : PositionDelta) : PositionDelta :=
  let sub n := if n >? size then n - size else 0 in
  let pos := match sd with
    | BID => pos <| net_position ::= fun n => n - size |> <| total_bought ::= sub |>
    | ASK => pos <| net_position ::= fun n => n + size |> <| total_sold ::= sub |>
    end in
  if fill_count pos >? 0 then pos <| fill_count ::= fun n => n - 1 |> else pos.

Definition record_fill (asset : AssetId) (sd : Side) (size price : Z) (st : ExecState) : ExecState * Z :=
  let st := st <| positions_ ::= <[asset := apply_fill sd size (position_of st asset)]> |>
               <| inventory_ ::= fmap (adjust_position asset (signed sd size)) |> in
  let st := if price >? 0
            then st <| inventory_ ::= fmap (adjust_usdc_balance (- signed sd (usdc_delta price size))) |>
            else st in
  match pnl_tracker_ st with
  | Some p => if price >? 0
              then let '(p, d) := PnlTracker.record_fill asset sd price size p in
                   (st <| pnl_tracker_ := Some p |>, d)
              else (st, 0)
  | None => (st, 0)
  end.

Definition reverse_fill (asset : AssetId) (sd : Side) (size price pnl_delta : Z) (st : ExecState) : ExecState :=
  let st := st <| positions_ ::= <[asset := unapply_fill sd size (position_of st asset)]> |>
               <| inventory_ ::= fmap (adjust_position asset (- signed sd size)) |> in
  let st := if price >? 0
            then st <| inventory_ ::= fmap (adjust_usdc_balance (signed sd (usdc_delta price size))) |>
            else st in
  st <| pnl_tracker_ ::= fmap (PnlTracker.reverse_fill pnl_delta) |>.

Record position_ok (pos : PositionDelta) : Prop := {
  po_bought : 0 <= total_bought pos; po_sold : 0 <= total_sold pos; po_count : 0 <= fill_count pos }.

Lemma unapply_apply_fill sd size pos :
  0 <= size -> position_ok pos -> unapply_fill sd size (apply_fill sd size pos) = pos.
Proof.
  intros Hs [Hb Hsd Hc]. unfold unapply_fill, apply_fill. destruct pos as [n b so c].
  destruct sd; unfold set; simpl in *; rewrite (proj2 (Z.gtb_lt _ _)) by lia; simpl; f_equal; try lia;
    match goal with |- context [?x >? size] => destruct (Z.gtb_spec x size); lia end.
Qed.

(** ** Trade updates *)
Record Attribution := mkAttribution {
  at_fill : Z; at_asset : AssetId; at_side : Side; at_price : Z; at_ours : bool }.

Definition order_attribution (upd : UserTradeUpdate) (fill : Z) (o : TrackedOrder) : Attribution :=
  mkAttribution fill (to_asset_id o) (to_side o)
    (if negb (id_eqb (to_asset_id o) (ut_asset_id upd)) then kPriceScale - ut_fill_price upd
     else ut_fill_price upd) true.
Definition raw_attribution (upd : UserTradeUpdate) (fill : Z) (ours : bool) : Attribution :=
  mkAttribution fill (ut_asset_id upd) (ut_side upd) (ut_fill_price upd) ours.
Definition shared_order (st : ExecState) (id : OrderId) : bool :=
  match inventory_ st with Some i => is_our_order i id | None => false end.

(** Phase 1: the first maker entry that is ours. *)
Fixpoint attribute_maker (st : ExecState) (upd : UserTradeUpdate) (entries : list MakerOrderEntry)
    : option Attribution :=
  match entries with
  | [] => None
  | me :: rest =>
      match orders_ st !! mo_order_id me with
      | Some o => Some (order_attribution upd (mo_matched_amount me) o)
      | None => if shared_order st (mo_order_id me)
                then Some (raw_attribution upd (mo_matched_amount me) true)
                else attribute_maker st upd rest
      end
  end.

(** Phase 2: the taker order. *)
Definition attribute_taker (st : ExecState) (upd : UserTradeUpdate) : option Attribution :=
  if nonempty (ut_taker_order_id upd) then
    match orders_ st !! ut_taker_order_id upd with
    | Some o => Some (order_attribution upd (ut_fill_size upd) o)
    | None => if shared_order st (ut_taker_order_id upd)
              then Some (raw_attribution upd (ut_fill_size upd) true) else None
    end
  else None.

Definition attribute (st : ExecState) (upd : UserTradeUpdate) : Attribution :=
  match attribute_maker st upd (ut_maker_entries upd) with
  | Some a => a
  | None => match attribute_taker st upd with
            | Some a => a
            | None => raw_attribution upd 0 false
            end
  end.

Definition fill_seen (st : ExecState) (id : TradeId) : bool :=
  match seen_trade_fills_ st !! id with Some _ => true | None => false end.

(** Count the fill of a tracked trade and remember it. *)
Definition count_fill (id : TradeId) (t : TrackedTrade) (recv_ts : Z) (st : ExecState) : ExecState :=
  let st := st <| seen_trade_fills_ ::= <[id := recv_ts]> |> in
  let '(st, d) := record_fill (tt_asset_id t) (tt_side t) (tt_fill_size t) (tt_fill_price t) st in
  st <| trades_ ::= <[id := t <| tt_pnl_delta := d |>]> |>.

Definition existing_trade (upd : UserTradeUpdate) (t : TrackedTrade) (recv_ts : Z) (st : ExecState)
    : option (ExecState * bool) :=
  let id := ut_trade_id upd in
  if bool_decide (tt_status t = ut_status upd) then None else
  if trade_status_rank (ut_status upd) <? trade_status_rank (tt_status t) then
    if bool_decide (ut_status upd = TradeStatus.MATCHED) then
      if fill_seen st id then None else Some (count_fill id t recv_ts st, true)
    else None
  else
    let t := t <| tt_status := ut_status upd |> <| tt_last_update_ts := recv_ts |> in
    let st := st <| trades_ ::= <[id := t]> |> in
    match ut_status upd with
    | TradeStatus.MATCHED =>
        if fill_seen st id then Some (st, false) else Some (count_fill id t recv_ts st, true)
    | TradeStatus.FAILED =>
        if fill_seen st id
        then Some (reverse_fill (tt_asset_id t) (tt_side t) (tt_fill_size t) (tt_fill_price t)
                     (tt_pnl_delta t) st, false)
        else Some (st, false)
    | _ => Some (st, false)
    end.

Definition new_trade (upd : UserTradeUpdate) (a : Attribution) (recv_ts : Z) (st : ExecState)
    : ExecState * bool :=
  let id := ut_trade_id upd in
  let t := mkTrackedTrade id (ut_taker_order_id upd) (at_asset a) (ut_status upd) (at_side a)
             (at_price a) (at_fill a) recv_ts recv_ts 0 in
  let st := st <| trades_ ::= <[id := t]> |> in
  if bool_decide (ut_status upd = TradeStatus.MATCHED) && (at_fill a >? 0) then
    if fill_seen st id then (st, false) else (count_fill id t recv_ts st, true)
  else (st, false).

(** The table update; [None] for a duplicate, else the event to emit. *)
Definition trade_core (upd : UserTradeUpdate) (recv_ts seq : Z) (st : ExecState)
    : ExecState * option SchedulerEvent :=
  let st := maybe_sweep recv_ts st in
  let a := attribute st upd in
  let emit is_new := from_trade_update
    (upd <| ut_asset_id := at_asset a |> <| ut_side := at_side a |> <| ut_fill_price := at_price a |>
         <| ut_fill_size := at_fill a |>) recv_ts seq is_new in
  match trades_ st !! ut_trade_id upd with
  | Some t => match existing_trade upd t recv_ts st with
              | None => (st, None)
              | Some (st, is_new) => (st, Some (emit is_new))
              end
  | None => let '(st, is_new) := new_trade upd a recv_ts st in (st, Some (emit is_new))
  end.

(** ** Emission to the strategy thread *)
Section Emit.
Context {Q : Type -> Type} `{RingQueue Q}.
Variable yield : nat -> SpscQueue Q SchedulerEvent -> SpscQueue Q SchedulerEvent.

Definition emit_event (ev : option SchedulerEvent) (st : ExecState) (q : SpscQueue Q SchedulerEvent)
    : ExecState * SpscQueue Q SchedulerEvent * ApplyResult :=
  match ev with
  | None => (st, q, DUPLICATE)
  | Some ev =>
      let '(q, ok) := push_spin yield 1000 ev q in
      if (ok : bool) then (st, q, APPLIED) else (st <| fatal_flag_ := true |>, q, QUEUE_OVERFLOW)
  end.

Definition apply_order_update (upd : UserOrderUpdate) (recv_ts seq : Z)
    (s : ExecState * SpscQueue Q SchedulerEvent) : ExecState * SpscQueue Q SchedulerEvent * ApplyResult :=
  let '(st, ev) := order_core upd recv_ts seq s.1 in emit_event ev st s.2.

Definition apply_trade_update (upd : UserTradeUpdate) (recv_ts seq : Z)
    (s : ExecState * SpscQueue Q SchedulerEvent) : ExecState * SpscQueue Q SchedulerEvent * ApplyResult :=
  let '(st, ev) := trade_core upd recv_ts seq s.1 in emit_event ev st s.2.
End Emit.

(** ** Order lifecycle *)
Definition order_rank (s : OrderStatus) : Z :=
  match s with
  | OrderStatus.UNKNOWN => 0 | OrderStatus.LIVE => 1 | OrderStatus.PARTIAL => 2
  | OrderStatus.FILLED | OrderStatus.CANCELED | OrderStatus.FAILED => 3
  end.

Lemma next_status_rank upd s : order_rank s <= order_rank (next_status upd s).
Proof.
  unfold next_status. destruct (uo_event_type upd).
  - destruct s; simpl; lia.
  - destruct (_ && _); [destruct s; simpl; lia|]. destruct (_ >? 0); [destruct s; simpl; lia|lia].
  - destruct s; simpl; lia.
Qed.

Lemma order_duplicate_false upd t :
  order_duplicate upd t = false ->
  to_asset_id t = uo_asset_id upd /\ to_side t = uo_side upd /\ to_size_matched t <= uo_size_matched upd.
Proof.
  unfold order_duplicate. intros H. bool_to_prop.
  apply id_eqb_true in H. split; [done|]. split; [by apply side_eqb_true|lia].
Qed.

(** C11: Order lifecycle: an order that is tracked when an update is processed
    stays tracked with the same client identifier, asset, side, price, original
    size and first-seen time; its matched size never decreases; its status
    never goes back (unknown, live, partial, terminal), so that a terminal
    status is final; and an update that names another asset or side, or that
    carries a smaller matched size, is reported as a duplicate without any
    change. *)
Theorem order_lifecycle upd recv_ts seq st id t
    (Ht : orders_ (maybe_sweep recv_ts st) !! id = Some t) :
  exists t', orders_ (order_core upd recv_ts seq st).1 !! id = Some t' /\
    to_client_order_id t' = to_client_order_id t /\ to_asset_id t' = to_asset_id t /\
    to_side t' = to_side t /\ to_price t' = to_price t /\
    to_original_size t' = to_original_size t /\ to_first_seen_ts t' = to_first_seen_ts t /\
    to_size_matched t <= to_size_matched t' /\
    order_rank (to_status t) <= order_rank (to_status t') /\
    (id = uo_order_id upd ->
     uo_asset_id upd <> to_asset_id t \/ uo_side upd <> to_side t \/
     uo_size_matched upd < to_size_matched t ->
     order_core upd recv_ts seq st = (maybe_sweep recv_ts st, None)).
Proof.
  unfold order_core. destruct (decide (uo_order_id upd = id)) as [E|E].
  - rewrite E, Ht. destruct (order_duplicate upd t) eqn:Ed.
    + exists t. repeat split; try done; lia.
    + apply order_duplicate_false in Ed as (H1 & H2 & H3).
      eexists. split; [simpl; by rewrite lookup_insert_eq|]. simpl.
      repeat split; try done; try apply next_status_rank.
      intros _ [Hbad|[Hbad|Hbad]]; congruence || lia.
  - assert (forall x, <[uo_order_id upd := x]> (orders_ (maybe_sweep recv_ts st)) !! id = Some t) as Hl.
    { intros x. by rewrite lookup_insert_ne. }
    destruct (orders_ (maybe_sweep recv_ts st) !! uo_order_id upd) as [t0|] eqn:E0.
    + destruct (order_duplicate upd t0); exists t; (split; [simpl; rewrite ?Hl; done|]);
        repeat split; try done; try lia; congruence.
    + exists t. split; [simpl; by rewrite Hl|]. repeat split; try done; try lia; congruence.
Qed.

(** ** Counting fills *)
Lemma oldest_loop_default {V} (terminal : V -> bool) ts b l acc :
  acc.2 <= INT64_MAX ->
  (foldl (oldest_step terminal ts b) acc l).2 <= acc.2 /\
  ((foldl (oldest_step terminal ts b) acc l).1 = None -> acc.1 = None /\
     Forall (fun kv => b && negb (terminal kv.2) = true \/ acc.2 <= ts kv.2) l).
Proof.
  revert acc. induction l as [|kv l IH]; intros acc Hacc; cbn [foldl].
  { split; [lia|]. intros ->. split; [done|constructor]. }
  unfold oldest_step at 2 4. destruct (b && negb (terminal kv.2)) eqn:Eb.
  - destruct (IH acc Hacc) as [H1 H2]. split; [done|]. intros Hn. destruct (H2 Hn) as [H3 H4].
    split; [done|]. constructor; [by left|done].
  - destruct (Z.ltb_spec (ts kv.2) acc.2) as [Hlt|Hge].
    + destruct (IH (Some kv.1, ts kv.2)) as [H1 H2]; [simpl; lia|]. simpl in H1. split; [lia|].
      intros Hn. by destruct (H2 Hn).
    + destruct (IH acc Hacc) as [H1 H2]. split; [done|]. intros Hn. destruct (H2 Hn) as [H3 H4].
      split; [done|]. constructor; [right; lia|done].
Qed.

(** The scan finds a victim whenever an entry is eligible. *)
Lemma oldest_key_Some {V} (terminal : V -> bool) ts m k v :
  m !! k = Some v -> ts v < INT64_MAX -> is_Some (oldest_key terminal ts false m).
Proof.
  intros Hk Hts. destruct (oldest_key terminal ts false m) eqn:E; [by eexists|].
  unfold oldest_key in E.
  destruct (oldest_loop_default terminal ts false (map_to_list m) (None, INT64_MAX) ltac:(simpl; lia)) as [_ Hn].
  destruct (Hn E) as [_ Hall]. rewrite Forall_forall in Hall.
  specialize (Hall (k, v) (proj2 (elem_of_map_to_list m k v) Hk)). simpl in Hall.
  destruct Hall as [?|?]; [done|lia].
Qed.

Lemma oldest_loop_in {V} (terminal : V -> bool) ts b l acc k :
  (foldl (oldest_step terminal ts b) acc l).1 = Some k -> acc.1 = Some k \/ k ∈ l.*1.
Proof.
  revert acc. induction l as [|kv l IH]; intros acc; cbn [foldl]; [by left|].
  unfold oldest_step at 2. destruct (b && negb (terminal kv.2)).
  - intros [?|?]%IH; [by left|right; by right].
  - destruct (ts kv.2 <? acc.2).
    + intros [H|?]%IH; [injection H as <-; right; left|right; by right].
    + intros [?|?]%IH; [by left|right; by right].
Qed.

Lemma oldest_key_in {V} (terminal : V -> bool) ts b m k :
  oldest_key terminal ts b m = Some k -> is_Some (m !! k).
Proof.
  unfold oldest_key. intros [?|Hin]%oldest_loop_in; [done|].
  apply list_elem_of_fmap in Hin as ([k' v] & -> & Hin). apply elem_of_map_to_list in Hin. by exists v.
Qed.

Lemma erase_oldest_size {V} (terminal : V -> bool) ts b m m' :
  erase_oldest terminal ts b m = Some m' -> S (size m') = size m /\ m' ⊆ m.
Proof.
  unfold erase_oldest. destruct (oldest_key terminal ts b m) as [k|] eqn:E; [|done].
  intros [= <-]. destruct (oldest_key_in _ _ _ _ _ E) as [v Hv]. split; [|apply delete_subseteq].
  rewrite map_size_delete, Hv. assert (size m <> O); [|lia].
  intros Hz%map_size_empty_inv. rewrite Hz in Hv. by rewrite lookup_empty in Hv.
Qed.

Lemma evict_cap_loop_sub {V} (terminal : V -> bool) ts fuel max m :
  evict_cap_loop terminal ts fuel max m ⊆ m.
Proof.
  revert m. induction fuel as [|fuel IH]; intros m; cbn [evict_cap_loop]; [done|].
  destruct (_ >? max); [|done].
  destruct (erase_oldest terminal ts true m) as [m'|] eqn:E; [|destruct (erase_oldest terminal ts false m) as [m'|] eqn:E'; [|done]].
  - etrans; [apply IH|]. by apply erase_oldest_size in E as [_ ?].
  - etrans; [apply IH|]. by apply erase_oldest_size in E' as [_ ?].
Qed.

Lemma evict_cap_loop_bound {V} (terminal : V -> bool) ts fuel max m :
  map_Forall (fun _ v => ts v < INT64_MAX) m -> 0 <= max -> (size m <= fuel)%nat ->
  Z.of_nat (size (evict_cap_loop terminal ts fuel max m)) <= max.
Proof.
  revert m. induction fuel as [|fuel IH]; intros m Hts Hmax Hf; cbn [evict_cap_loop]; [lia|].
  destruct (Z.gtb_spec (Z.of_nat (size m)) max) as [Hgt|Hle]; [|lia].
  assert (forall m', m' ⊆ m -> map_Forall (fun _ v => ts v < INT64_MAX) m') as Hsub.
  { intros m' Hm' k v Hv. apply (Hts k v). by eapply lookup_weaken. }
  destruct (erase_oldest terminal ts true m) as [m'|] eqn:E.
  { apply erase_oldest_size in E as [E1 E2]. apply IH; [auto|done|lia]. }
  destruct (erase_oldest terminal ts false m) as [m'|] eqn:E'.
  { apply erase_oldest_size in E' as [E1 E2]. apply IH; [auto|done|lia]. }
  exfalso. destruct (map_choose m) as (k & v & Hk).
  { intros ->. rewrite map_size_empty in Hgt. simpl in Hgt. lia. }
  unfold erase_oldest in E'. destruct (oldest_key_Some terminal ts m k v Hk (Hts k v Hk)) as [k' Hk'].
  by rewrite Hk' in E'.
Qed.

Lemma evict_sub {V} (terminal : V -> bool) ts max ttl now m :
  evict_cap terminal ts max (evict_ttl terminal ts ttl now m) ⊆ m.
Proof.
  assert (evict_ttl terminal ts ttl now m ⊆ m) as H1.
  { unfold evict_ttl. destruct (_ >? 0); [apply map_filter_subseteq|done]. }
  unfold evict_cap. destruct (max >? 0); [|done]. etrans; [apply evict_cap_loop_sub|done].
Qed.

Lemma evict_bound {V} (terminal : V -> bool) ts max ttl now m :
  map_Forall (fun _ v => ts v < INT64_MAX) m -> 0 < max ->
  Z.of_nat (size (evict_cap terminal ts max (evict_ttl terminal ts ttl now m))) <= max.
Proof.
  intros Hts Hmax. unfold evict_cap. destruct (Z.gtb_spec max 0); [|lia].
  apply evict_cap_loop_bound; [|lia|done].
  assert (evict_ttl terminal ts ttl now m ⊆ m) as H1.
  { unfold evict_ttl. destruct (_ >? 0); [apply map_filter_subseteq|done]. }
  intros k v Hv. apply (Hts k v). by eapply lookup_weaken.
Qed.

(** ** Bounded tables *)
Record stamps_ok (st : ExecState) : Prop := {
  so_orders : map_Forall (fun _ o => to_last_update_ts o < INT64_MAX) (orders_ st);
  so_trades : map_Forall (fun _ t => tt_last_update_ts t < INT64_MAX) (trades_ st);
  so_seen : map_Forall (fun _ ts => ts < INT64_MAX) (seen_trade_fills_ st) }.

(** At most [slack] entries over each configured cap. *)
Record tables_bounded (slack : Z) (st : ExecState) : Prop := {
  tb_orders : 0 < max_orders (xs_config_ st) -> Z.of_nat (size (orders_ st)) <= max_orders (xs_config_ st) + slack;
  tb_trades : 0 < max_trades (xs_config_ st) -> Z.of_nat (size (trades_ st)) <= max_trades (xs_config_ st) + slack;
  tb_seen : 0 < max_seen_trade_fills (xs_config_ st) ->
    Z.of_nat (size (seen_trade_fills_ st)) <= max_seen_trade_fills (xs_config_ st) + slack }.

(** The sweep changes the three tables only, by removing entries. *)
Lemma maybe_sweep_frame now st :
  let st' := maybe_sweep now st in
  orders_ st' ⊆ orders_ st /\ trades_ st' ⊆ trades_ st /\ seen_trade_fills_ st' ⊆ seen_trade_fills_ st /\
  positions_ st' = positions_ st /\ inventory_ st' = inventory_ st /\ pnl_tracker_ st' = pnl_tracker_ st /\
  xs_config_ st' = xs_config_ st.
Proof.
  unfold maybe_sweep. destruct (_ && negb _); [done|]. destruct (_ && _ && _); [done|].
  destruct (sweep_interval_ms (xs_config_ st) >? 0); simpl; split_and!; try done; apply evict_sub.
Qed.

Lemma over_cap_false {V} max (m : gmap string V) :
  over_cap_of max m = false -> 0 < max -> Z.of_nat (size m) <= max.
Proof. unfold over_cap_of. intros H Hm. apply andb_false_iff in H as [H|H]; bool_to_prop; lia. Qed.

Lemma maybe_sweep_bounded now st : stamps_ok st -> tables_bounded 0 (maybe_sweep now st).
Proof.
  intros [Ho Ht Hs].
  assert (forall st', xs_config_ st' = xs_config_ st ->
     (0 < max_orders (xs_config_ st) -> Z.of_nat (size (orders_ st')) <= max_orders (xs_config_ st)) ->
     (0 < max_trades (xs_config_ st) -> Z.of_nat (size (trades_ st')) <= max_trades (xs_config_ st)) ->
     (0 < max_seen_trade_fills (xs_config_ st) ->
        Z.of_nat (size (seen_trade_fills_ st')) <= max_seen_trade_fills (xs_config_ st)) ->
     tables_bounded 0 st') as Hmk.
  { intros st' E H1 H2 H3. split; rewrite E, Z.add_0_r; done. }
  unfold maybe_sweep. set (over := _ || _ || _).
  destruct over eqn:Eover; unfold over in Eover.
  - rewrite !andb_false_r. simpl. apply Hmk; [by destruct (_ >? 0)|..];
      destruct (sweep_interval_ms (xs_config_ st) >? 0); simpl; by apply evict_bound.
  - bool_to_prop. destruct (sweep_interval_ms (xs_config_ st) <=? 0); simpl.
    { apply Hmk; [done|..]; by apply over_cap_false. }
    destruct (negb (next_sweep_ts_ st =? 0) && (now <? next_sweep_ts_ st)).
    { apply Hmk; [done|..]; by apply over_cap_false. }
    apply Hmk; [by destruct (_ >? 0)|..];
      destruct (sweep_interval_ms (xs_config_ st) >? 0); simpl; by apply evict_bound.
Qed.

Lemma maybe_sweep_stamps now st : stamps_ok st -> stamps_ok (maybe_sweep now st).
Proof.
  intros [Ho Ht Hs]. destruct (maybe_sweep_frame now st) as (H1 & H2 & H3 & _).
  split; intros k v Hv; [apply (Ho k v)|apply (Ht k v)|apply (Hs k v)]; by eapply lookup_weaken.
Qed.

Lemma size_insert_le {V} (m : gmap string V) k v :
  (size (<[k := v]> m) <= S (size m))%nat /\ (is_Some (m !! k) -> size (<[k := v]> m) = size m).
Proof. rewrite map_size_insert. destruct (m !! k) eqn:E; simpl; unfold id; split; [lia|done|lia|by intros []]. Qed.

(** Recording or reversing a fill leaves the tables alone. *)
Lemma record_fill_frame a sd sz p st :
  let st' := (record_fill a sd sz p st).1 in
  orders_ st' = orders_ st /\ trades_ st' = trades_ st /\ seen_trade_fills_ st' = seen_trade_fills_ st /\
  xs_config_ st' = xs_config_ st.
Proof.
  unfold record_fill. destruct (p >? 0); simpl; destruct (pnl_tracker_ st); simpl; try done.
  by destruct (PnlTracker.record_fill _ _ _ _ _).
Qed.

Lemma reverse_fill_frame a sd sz p d st :
  let st' := reverse_fill a sd sz p d st in
  orders_ st' = orders_ st /\ trades_ st' = trades_ st /\ seen_trade_fills_ st' = seen_trade_fills_ st /\
  xs_config_ st' = xs_config_ st.
Proof. unfold reverse_fill. by destruct (p >? 0). Qed.

Lemma count_fill_frame id t now st :
  exists t', let st' := count_fill id t now st in
  orders_ st' = orders_ st /\ trades_ st' = <[id := t']> (trades_ st) /\
  seen_trade_fills_ st' = <[id := now]> (seen_trade_fills_ st) /\
  tt_last_update_ts t' = tt_last_update_ts t /\ xs_config_ st' = xs_config_ st.
Proof.
  unfold count_fill.
  pose proof (record_fill_frame (tt_asset_id t) (tt_side t) (tt_fill_size t) (tt_fill_price t)
                (st <| seen_trade_fills_ ::= <[id := now]> |>)) as Hf.
  destruct (record_fill _ _ _ _ _) as [st1 d]. simpl in Hf. destruct Hf as (H1 & H2 & H3 & H4).
  exists (t <| tt_pnl_delta := d |>). simpl. rewrite H1, H2, H3, H4. done.
Qed.

(** Every way a trade update can change the tables. *)
Definition trade_tables (id : TradeId) (now : Z) (st st' : ExecState) : Prop :=
  orders_ st' = orders_ st /\ xs_config_ st' = xs_config_ st /\
  (trades_ st' = trades_ st \/ exists t, trades_ st' = <[id := t]> (trades_ st) /\
     (tt_last_update_ts t = now \/ exists t0, trades_ st !! id = Some t0 /\
        tt_last_update_ts t = tt_last_update_ts t0)) /\
  (seen_trade_fills_ st' = seen_trade_fills_ st \/
     seen_trade_fills_ st !! id = None /\ seen_trade_fills_ st' = <[id := now]> (seen_trade_fills_ st)).

Lemma fill_seen_false st id : fill_seen st id = false -> seen_trade_fills_ st !! id = None.
Proof. unfold fill_seen. by destruct (_ !! _). Qed.

Lemma existing_trade_tables upd t now st st' b :
  trades_ st !! ut_trade_id upd = Some t -> existing_trade upd t now st = Some (st', b) ->
  trade_tables (ut_trade_id upd) now st st' /\
  (b = true -> seen_trade_fills_ st !! ut_trade_id upd = None /\
     seen_trade_fills_ st' = <[ut_trade_id upd := now]> (seen_trade_fills_ st)).
Proof.
  intros Ht. unfold existing_trade. set (id := ut_trade_id upd) in *.
  destruct (bool_decide _); [done|]. destruct (_ <? _).
  { destruct (bool_decide _); [|done]. destruct (fill_seen st id) eqn:Es; [done|].
    apply fill_seen_false in Es. intros [= <- <-].
    destruct (count_fill_frame id t now st) as (t' & H1 & H2 & H3 & H4 & H5).
    unfold trade_tables. rewrite H1, H2, H3, H5. split; [|done]. split_and!; try done; [|by right].
    right. exists t'. split; [done|]. right. eauto. }
  set (t1 := t <| tt_status := ut_status upd |> <| tt_last_update_ts := now |>).
  set (st1 := st <| trades_ ::= <[id := t1]> |>).
  assert (trade_tables id now st st1) as Hst1.
  { unfold trade_tables, st1. simpl. split_and!; try done; [|by left]. right. exists t1. eauto. }
  destruct (ut_status upd); try (intros [= <- <-]; by split).
  - change (fill_seen st1 id) with (fill_seen st id). destruct (fill_seen st id) eqn:Es.
    { intros [= <- <-]. by split. }
    apply fill_seen_false in Es. intros [= <- <-].
    destruct (count_fill_frame id t1 now st1) as (t' & H1 & H2 & H3 & H4 & H5).
    unfold trade_tables. rewrite H1, H2, H3, H5. unfold st1. simpl. rewrite insert_insert_eq.
    split; [|done]. split_and!; try done; [|by right]. right. exists t'. split; [done|by left].
  - destruct (fill_seen st1 id); [|intros [= <- <-]; by split]. intros [= <- <-].
    match goal with |- context [reverse_fill ?a ?sd ?sz ?p ?d ?s] =>
      destruct (reverse_fill_frame a sd sz p d s) as (H1 & H2 & H3 & H4) end.
    unfold trade_tables in *. rewrite H1, H2, H3, H4. by split.
Qed.

Lemma new_trade_tables upd a now st :
  let '(st', b) := new_trade upd a now st in
  trade_tables (ut_trade_id upd) now st st' /\
  (b = true -> seen_trade_fills_ st !! ut_trade_id upd = None /\
     seen_trade_fills_ st' = <[ut_trade_id upd := now]> (seen_trade_fills_ st)).
Proof.
  unfold new_trade. set (id := ut_trade_id upd). set (t := mkTrackedTrade _ _ _ _ _ _ _ _ _ _).
  set (st1 := st <| trades_ ::= <[id := t]> |>).
  assert (trade_tables id now st st1) as Hst1.
  { unfold trade_tables, st1. simpl. split_and!; try done; [|by left]. right. exists t. eauto. }
  destruct (bool_decide _ && _); [|by split].
  change (fill_seen st1 id) with (fill_seen st id). destruct (fill_seen st id) eqn:Es; [by split|].
  apply fill_seen_false in Es.
  destruct (count_fill_frame id t now st1) as (t' & H1 & H2 & H3 & H4 & H5).
  unfold trade_tables. rewrite H1, H2, H3, H5. unfold st1. simpl. rewrite insert_insert_eq.
  split; [|done]. split_and!; try done; [|by right]. right. exists t'. split; [done|by left].
Qed.

(** What a trade update does to the tables, and when it reports a new fill. *)
Lemma trade_core_tables upd now seq st :
  let st0 := maybe_sweep now st in
  let '(st', ev) := trade_core upd now seq st in
  trade_tables (ut_trade_id upd) now st0 st' /\
  forall e, ev = Some e -> trade_id e = ut_trade_id upd /\
    (is_new_fill e = true -> seen_trade_fills_ st0 !! ut_trade_id upd = None /\
       seen_trade_fills_ st' = <[ut_trade_id upd := now]> (seen_trade_fills_ st0)).
Proof.
  intros st0. unfold trade_core. fold st0.
  assert (trade_tables (ut_trade_id upd) now st0 st0) as Hrefl.
  { unfold trade_tables. auto. }
  destruct (trades_ st0 !! ut_trade_id upd) as [t|] eqn:Et.
  - destruct (existing_trade upd t now st0) as [[st' b]|] eqn:Ee; [|by split].
    destruct (existing_trade_tables upd t now st0 st' b Et Ee) as [H1 H2].
    split; [done|]. intros e [= <-]. split; [done|]. exact H2.
  - pose proof (new_trade_tables upd (attribute st0 upd) now st0) as Hn.
    destruct (new_trade upd _ now st0) as [st' b]. destruct Hn as [H1 H2].
    split; [done|]. intros e [= <-]. split; [done|]. exact H2.
Qed.

(** ** Runs of updates *)
Inductive user_update :=
  | UOrder (upd : UserOrderUpdate) (recv_ts seq : Z)
  | UTrade (upd : UserTradeUpdate) (recv_ts seq : Z).
Definition update_time (u : user_update) : Z :=
  match u with UOrder _ now _ | UTrade _ now _ => now end.
Definition core_step (st : ExecState) (u : user_update) : ExecState * option SchedulerEvent :=
  match u with
  | UOrder upd now seq => order_core upd now seq st
  | UTrade upd now seq => trade_core upd now seq st
  end.

(** The final state and the events emitted on the way. *)
Fixpoint run_updates (us : list user_update) (st : ExecState) : ExecState * list SchedulerEvent :=
  match us with
  | [] => (st, [])
  | u :: us => let '(st, ev) := core_step st u in
               let '(st, evs) := run_updates us st in (st, option_list ev ++ evs)
  end.

Lemma order_core_tables upd now seq st :
  let st0 := maybe_sweep now st in
  let '(st', ev) := order_core upd now seq st in
  (orders_ st' = orders_ st0 \/ exists o, orders_ st' = <[uo_order_id upd := o]> (orders_ st0) /\
     to_last_update_ts o = now) /\
  trades_ st' = trades_ st0 /\ seen_trade_fills_ st' = seen_trade_fills_ st0 /\
  xs_config_ st' = xs_config_ st0 /\ (forall e, ev = Some e -> is_new_fill e = false).
Proof.
  intros st0. unfold order_core. fold st0. destruct (orders_ st0 !! uo_order_id upd) as [t|].
  - destruct (order_duplicate upd t); [split; [by left|done]|]. simpl. split; [right; eexists; split; [done|done]|].
    split_and!; try done. by intros e [= <-].
  - simpl. split; [right; eexists; split; [done|done]|]. split_and!; try done. by intros e [= <-].
Qed.

Lemma core_step_bounded u st :
  stamps_ok st -> update_time u < INT64_MAX ->
  stamps_ok (core_step st u).1 /\ tables_bounded 1 (core_step st u).1 /\
  xs_config_ (core_step st u).1 = xs_config_ st.
Proof.
  intros Hst Hnow. destruct u as [upd now seq|upd now seq]; simpl in *.
  - pose proof (order_core_tables upd now seq st) as Hc. cbv zeta in Hc.
    pose proof (maybe_sweep_bounded now st Hst) as [B1 B2 B3].
    pose proof (maybe_sweep_stamps now st Hst) as [S1 S2 S3].
    destruct (maybe_sweep_frame now st) as (_ & _ & _ & _ & _ & _ & Ecfg).
    destruct (order_core upd now seq st) as [st' ev]. destruct Hc as (Ho & Ht & Hs & Hx & _). simpl.
    split; [|split; [|congruence]].
    + split; rewrite ?Ht, ?Hs; try done. destruct Ho as [->|(o & -> & Ets)]; [done|].
      apply map_Forall_insert_2; [lia|done].
    + split; rewrite ?Ht, ?Hs, Hx; intros Hm; [|specialize (B2 Hm); lia|specialize (B3 Hm); lia].
      specialize (B1 Hm). destruct Ho as [->|(o & -> & _)]; [lia|].
      destruct (size_insert_le (orders_ (maybe_sweep now st)) (uo_order_id upd) o). lia.
  - pose proof (trade_core_tables upd now seq st) as Hc. cbv zeta in Hc.
    pose proof (maybe_sweep_bounded now st Hst) as [B1 B2 B3].
    pose proof (maybe_sweep_stamps now st Hst) as [S1 S2 S3].
    destruct (maybe_sweep_frame now st) as (_ & _ & _ & _ & _ & _ & Ecfg).
    destruct (trade_core upd now seq st) as [st' ev]. destruct Hc as ((Ho & Hx & Ht & Hs) & _). simpl.
    split; [|split; [|congruence]].
    + split; rewrite ?Ho; [done| |].
      * destruct Ht as [->|(t & -> & [E|(t0 & Ht0 & E)])]; [done| |]; (apply map_Forall_insert_2; [|done]).
        -- lia.
        -- rewrite E. apply (S2 _ _ Ht0).
      * destruct Hs as [->|[_ ->]]; [done|]. apply map_Forall_insert_2; [lia|done].
    + split; rewrite ?Ho, Hx; intros Hm; [specialize (B1 Hm); lia| |].
      * specialize (B2 Hm). destruct Ht as [->|(t & -> & _)]; [lia|].
        destruct (size_insert_le (trades_ (maybe_sweep now st)) (ut_trade_id upd) t). lia.
      * specialize (B3 Hm). destruct Hs as [->|[_ ->]]; [lia|].
        destruct (size_insert_le (seen_trade_fills_ (maybe_sweep now st)) (ut_trade_id upd) now). lia.
Qed.

Lemma new_stamps inv pnl c : stamps_ok (ExecState_new inv pnl c).
Proof. split; apply map_Forall_empty. Qed.

(** Bounded memory: after any sequence of order and trade updates (received
    before the end of the clock), each of the three tables holds at most one
    entry more than its configured cap, caps of zero meaning unbounded. *)
Theorem tables_stay_bounded inv pnl c (us : list user_update)
    (Hts : Forall (fun u => update_time u < INT64_MAX) us) :
  let st := (run_updates us (ExecState_new inv pnl c)).1 in
  (0 < max_orders c -> Z.of_nat (size (orders_ st)) <= max_orders c + 1) /\
  (0 < max_trades c -> Z.of_nat (size (trades_ st)) <= max_trades c + 1) /\
  (0 < max_seen_trade_fills c -> Z.of_nat (size (seen_trade_fills_ st)) <= max_seen_trade_fills c + 1).
Proof.
  assert (tables_bounded 1 (ExecState_new inv pnl c)) as H0.
  { split; intros Hm; simpl in *; rewrite map_size_empty; simpl; lia. }
  assert (forall st, stamps_ok st -> tables_bounded 1 st ->
    tables_bounded 1 (run_updates us st).1 /\ xs_config_ (run_updates us st).1 = xs_config_ st) as Hrun.
  { induction Hts as [|u us Hu Hts IH]; intros st Hs Hb; [done|]. cbn [run_updates].
    destruct (core_step_bounded u st Hs Hu) as (H1 & H2 & H3).
    destruct (core_step st u) as [st1 ev]. simpl in *.
    destruct (IH st1 H1 H2) as [H4 H5]. destruct (run_updates us st1) as [st2 evs]. simpl in *.
    split; [done|congruence]. }
  destruct (Hrun _ (new_stamps inv pnl c) H0) as [[B1 B2 B3] E]. rewrite E in *. auto.
Qed.

Definition sample_order_update (id : OrderId) : UserOrderUpdate :=
  mkUserOrderUpdate id ""%string "tok" "mkt" OrderEventType.PLACEMENT BID 5000 10 0 0 false.

Lemma tables_stay_bounded_witness :
  let us := [UOrder (sample_order_update "o1") 5 1; UOrder (sample_order_update "o2") 6 2] in
  let c := mkExecStateStoreConfig 1 1 1 0 0 0 0 in
  Forall (fun u => update_time u < INT64_MAX) us /\
  Z.of_nat (size (orders_ (run_updates us (ExecState_new None None c)).1)) <= 2.
Proof.
  assert (Forall (fun u => update_time u < INT64_MAX)
    [UOrder (sample_order_update "o1") 5 1; UOrder (sample_order_update "o2") 6 2]) as Hts
    by (repeat constructor).
  split; [exact Hts|].
  destruct (tables_stay_bounded None None (mkExecStateStoreConfig 1 1 1 0 0 0 0) _ Hts) as (H & _).
  apply H. simpl. lia.
Defined.

(** ** Each fill is counted once *)
Lemma evict_cap_small {V} (terminal : V -> bool) ts max m :
  Z.of_nat (size m) <= max -> evict_cap terminal ts max m = m.
Proof.
  intros Hle. unfold evict_cap. destruct (max >? 0); [|done].
  destruct (size m) as [|n] eqn:E; [done|]. cbn [evict_cap_loop].
  destruct (Z.gtb_spec (Z.of_nat (size m)) max); [lia|done].
Qed.

(** A young entry of a table below its cap survives the sweep. *)
Lemma evict_keeps {V} (terminal : V -> bool) ts max ttl now (m : gmap string V) k v :
  m !! k = Some v -> now - ts v < ttl * 1000000 -> max <= 0 \/ Z.of_nat (size m) <= max ->
  evict_cap terminal ts max (evict_ttl terminal ts ttl now m) !! k = Some v.
Proof.
  intros Hk Hyoung Hcap.
  assert (evict_ttl terminal ts ttl now m !! k = Some v) as H1.
  { unfold evict_ttl. destruct (ttl >? 0); [|done]. apply map_lookup_filter_Some_2; [done|].
    simpl. intros [_ ?]. lia. }
  assert (evict_ttl terminal ts ttl now m ⊆ m) as Hsub.
  { unfold evict_ttl. destruct (_ >? 0); [apply map_filter_subseteq|done]. }
  destruct Hcap as [Hz|Hle].
  - unfold evict_cap. destruct (Z.gtb_spec max 0); [lia|done].
  - rewrite evict_cap_small; [done|]. apply map_subseteq_size in Hsub. lia.
Qed.

Lemma maybe_sweep_keeps_seen now st id ts :
  seen_trade_fills_ st !! id = Some ts -> now - ts < seen_trade_fill_ttl_ms (xs_config_ st) * 1000000 ->
  max_seen_trade_fills (xs_config_ st) <= 0 \/
    Z.of_nat (size (seen_trade_fills_ st)) <= max_seen_trade_fills (xs_config_ st) ->
  seen_trade_fills_ (maybe_sweep now st) !! id = Some ts.
Proof.
  intros Hs Hy Hc. unfold maybe_sweep. destruct (_ && negb _); [done|]. destruct (_ && _ && _); [done|].
  destruct (sweep_interval_ms _ >? 0); simpl; by apply evict_keeps.
Qed.

(** What fills are booked in: the position table, the shared inventory and
    the profit tracker. *)
Definition accounts (st : ExecState) : gmap AssetId PositionDelta * option TokenInventory * option PnlTracker :=
  (positions_ st, inventory_ st, pnl_tracker_ st).
Definition recorded (t : TrackedTrade) (st : ExecState) : ExecState :=
  (record_fill (tt_asset_id t) (tt_side t) (tt_fill_size t) (tt_fill_price t) st).1.
Definition reversed (t : TrackedTrade) (st : ExecState) : ExecState :=
  reverse_fill (tt_asset_id t) (tt_side t) (tt_fill_size t) (tt_fill_price t) (tt_pnl_delta t) st.

Lemma recorded_accounts t st st' : accounts st = accounts st' -> accounts (recorded t st) = accounts (recorded t st').
Proof.
  unfold accounts, recorded, record_fill, position_of. destruct st, st'. simpl. intros [= -> -> ->].
  destruct (tt_fill_price t >? 0); simpl; (destruct pnl_tracker_1; simpl; [|done]); [|done].
  by destruct (PnlTracker.record_fill _ _ _ _ _).
Qed.
Lemma reversed_accounts t st st' : accounts st = accounts st' -> accounts (reversed t st) = accounts (reversed t st').
Proof.
  unfold accounts, reversed, reverse_fill, position_of. destruct st, st'. simpl. intros [= -> -> ->].
  by destruct (tt_fill_price t >? 0).
Qed.
Lemma sweep_accounts now st : accounts (maybe_sweep now st) = accounts st.
Proof. destruct (maybe_sweep_frame now st) as (_ & _ & _ & E1 & E2 & E3 & _). unfold accounts. by rewrite E1, E2, E3. Qed.

Lemma count_fill_accounts id t now st :
  accounts (count_fill id t now st) = accounts (recorded t st) /\
  exists d, trades_ (count_fill id t now st) !! id = Some (t <| tt_pnl_delta := d |>).
Proof.
  rewrite (recorded_accounts t st (st <| seen_trade_fills_ ::= <[id := now]> |>)) by done.
  unfold count_fill. destruct (record_fill _ _ _ _ _) as [st1 d] eqn:E. simpl. split.
  - exact (f_equal (fun p => accounts p.1) (eq_sym E)).
  - exists d. by rewrite lookup_insert_eq.
Qed.

(** The accounts after an update of trade [id] that reported a new fill
    ([b = true]) or not. *)
Definition trade_accounts (id : TradeId) (status : TradeStatus) (b : bool) (st st' : ExecState) : Prop :=
  if b then exists t, trades_ st' !! id = Some t /\ accounts st' = accounts (recorded t st)
  else accounts st' = accounts st \/
       status = TradeStatus.FAILED /\
       exists t, trades_ st !! id = Some t /\ tt_status t <> TradeStatus.FAILED /\
         accounts st' = accounts (reversed t st).

Lemma counted_accounts id t status now st st1 :
  accounts st1 = accounts st -> trade_accounts id status true st (count_fill id t now st1).
Proof.
  intros E. destruct (count_fill_accounts id t now st1) as (Ea & d & Ed). exists (t <| tt_pnl_delta := d |>).
  split; [done|]. rewrite Ea. change (accounts (recorded t st1) = accounts (recorded t st)).
  by apply recorded_accounts.
Qed.

Lemma existing_trade_accounts upd t now st st' b :
  trades_ st !! ut_trade_id upd = Some t -> existing_trade upd t now st = Some (st', b) ->
  trade_accounts (ut_trade_id upd) (ut_status upd) b st st'.
Proof.
  intros Ht. unfold existing_trade. set (id := ut_trade_id upd) in *. case_bool_decide as Hne; [done|].
  destruct (_ <? _).
  { destruct (bool_decide _); [|done]. destruct (fill_seen st id); [done|].
    intros [= <- <-]. by apply counted_accounts. }
  set (st1 := st <| trades_ ::= _ |>).
  destruct (ut_status upd) eqn:Es; try (intros [= <- <-]; by left).
  - destruct (fill_seen st1 id); intros [= <- <-]; [by left|by apply counted_accounts].
  - destruct (fill_seen st1 id); intros [= <- <-]; [|by left]. right. split; [done|].
    exists t. split_and!; [done|done|].
    exact (reversed_accounts t st1 st eq_refl).
Qed.

Lemma new_trade_accounts upd a now st :
  let '(st', b) := new_trade upd a now st in trade_accounts (ut_trade_id upd) (ut_status upd) b st st'.
Proof.
  unfold new_trade. destruct (bool_decide _ && _); [|by left].
  destruct (fill_seen _ _); [by left|by apply counted_accounts].
Qed.

(** What one update does to the accounts. *)
Definition update_accounts (u : user_update) (ev : option SchedulerEvent) (st st' : ExecState) : Prop :=
  match u with
  | UOrder _ _ _ => accounts st' = accounts st
  | UTrade upd _ _ =>
      trade_accounts (ut_trade_id upd) (ut_status upd) (from_option is_new_fill false ev) st st'
  end.

Lemma trade_accounts_sweep id status b now st st' :
  trade_accounts id status b (maybe_sweep now st) st' -> trade_accounts id status b st st'.
Proof.
  pose proof (sweep_accounts now st) as E. destruct b; simpl.
  - intros (t & Ht & Ea). exists t. split; [done|]. by rewrite Ea; apply recorded_accounts.
  - intros [Ea|(Hs & t & Ht & Hn & Ea)]; [left; congruence|right]. split; [done|]. exists t.
    destruct (maybe_sweep_frame now st) as (_ & Hsub & _). split_and!; [by eapply lookup_weaken|done|].
    by rewrite Ea; apply reversed_accounts.
Qed.

Lemma core_step_accounts u st : let '(st', ev) := core_step st u in update_accounts u ev st st'.
Proof.
  destruct u as [upd now seq|upd now seq]; simpl.
  - unfold order_core. pose proof (sweep_accounts now st) as E.
    destruct (orders_ _ !! _) as [t|]; [destruct (order_duplicate upd t)|]; simpl; exact E.
  - unfold trade_core. set (st0 := maybe_sweep now st).
    destruct (trades_ st0 !! ut_trade_id upd) as [t|] eqn:Et.
    + destruct (existing_trade upd t now st0) as [[st' b]|] eqn:Ee; simpl.
      * apply (trade_accounts_sweep _ _ _ now). by apply (existing_trade_accounts upd t now).
      * left. apply sweep_accounts.
    + pose proof (new_trade_accounts upd (attribute st0 upd) now st0) as Hn.
      destruct (new_trade upd _ now st0) as [st' b]. simpl. by apply (trade_accounts_sweep _ _ _ now).
Qed.

(** One update while the fill is remembered. *)
Lemma core_step_seen u st id ts :
  seen_trade_fills_ st !! id = Some ts ->
  update_time u - ts < seen_trade_fill_ttl_ms (xs_config_ st) * 1000000 ->
  max_seen_trade_fills (xs_config_ st) <= 0 \/
    Z.of_nat (size (seen_trade_fills_ st)) <= max_seen_trade_fills (xs_config_ st) ->
  let '(st', ev) := core_step st u in
  seen_trade_fills_ st' !! id = Some ts /\ xs_config_ st' = xs_config_ st /\
  (size (seen_trade_fills_ st') <= S (size (seen_trade_fills_ st)))%nat /\
  forall e, ev = Some e -> trade_id e = id -> is_new_fill e = false.
Proof.
  intros Hs Hy Hc. pose proof (maybe_sweep_keeps_seen (update_time u) st id ts Hs Hy Hc) as Hk.
  destruct (maybe_sweep_frame (update_time u) st) as (_ & _ & Hsub & _ & _ & _ & Ecfg).
  apply map_subseteq_size in Hsub.
  destruct u as [upd now seq|upd now seq]; simpl in *.
  - pose proof (order_core_tables upd now seq st) as Ht. cbv zeta in Ht.
    destruct (order_core upd now seq st) as [st' ev]. destruct Ht as (_ & _ & E & Ex & En).
    rewrite E, Ex. split_and!; try done; [lia|]. intros e He _. by apply En.
  - pose proof (trade_core_tables upd now seq st) as Ht. cbv zeta in Ht.
    destruct (trade_core upd now seq st) as [st' ev]. destruct Ht as ((_ & Ex & _ & Es) & En).
    rewrite Ex. split_and!; try done.
    + destruct Es as [->|[Hnone ->]]; [done|]. rewrite lookup_insert_ne; [done|congruence].
    + destruct Es as [->|[_ ->]]; [lia|].
      destruct (size_insert_le (seen_trade_fills_ (maybe_sweep now st)) (ut_trade_id upd) now). lia.
    + intros e He Hid. destruct (En e He) as [Hid' Hnew]. destruct (is_new_fill e); [|done].
      destruct (Hnew eq_refl) as [Hnone _]. congruence.
Qed.

(** The fill stays remembered along a run. *)
Lemma run_updates_seen us st id ts :
  seen_trade_fills_ st !! id = Some ts ->
  Forall (fun u => update_time u - ts < seen_trade_fill_ttl_ms (xs_config_ st) * 1000000) us ->
  max_seen_trade_fills (xs_config_ st) <= 0 \/
    Z.of_nat (size (seen_trade_fills_ st) + length us) <= max_seen_trade_fills (xs_config_ st) ->
  seen_trade_fills_ (run_updates us st).1 !! id = Some ts /\
  xs_config_ (run_updates us st).1 = xs_config_ st /\
  (size (seen_trade_fills_ (run_updates us st).1) <= size (seen_trade_fills_ st) + length us)%nat.
Proof.
  revert st. induction us as [|u us IH]; intros st Hs Hy Hc; [simpl; split_and!; try done; lia|].
  apply Forall_cons in Hy as [Hyu Hy]. cbn [run_updates]. simpl in Hc.
  pose proof (core_step_seen u st id ts Hs Hyu ltac:(lia)) as Hstep.
  destruct (core_step st u) as [st1 ev]. destruct Hstep as (H1 & H2 & H3 & H4).
  specialize (IH st1 H1). rewrite H2 in IH. specialize (IH Hy ltac:(lia)).
  destruct (run_updates us st1) as [st2 evs]. simpl in *. destruct IH as (? & ? & ?).
  split_and!; [done|done|lia].
Qed.

(** The update [u] of a run does not count the fill of trade [id]: it is not
    reported as a new fill, and the accounts are unchanged by it, a report of
    failure apart, which reverses the tracked fill. *)
Definition not_recounted (id : TradeId) (st : ExecState) (u : user_update) : Prop :=
  let '(st', ev) := core_step st u in
  match u with
  | UOrder _ _ _ => accounts st' = accounts st /\ forall e, ev = Some e -> is_new_fill e = false
  | UTrade upd _ _ =>
      ut_trade_id upd = id ->
      (forall e, ev = Some e -> is_new_fill e = false) /\
      (accounts st' = accounts st \/
       ut_status upd = TradeStatus.FAILED /\
       exists t, trades_ st !! id = Some t /\ tt_status t <> TradeStatus.FAILED /\
         accounts st' = accounts (reversed t st))
  end.

Lemma seen_not_recounted u st id ts :
  seen_trade_fills_ st !! id = Some ts ->
  update_time u - ts < seen_trade_fill_ttl_ms (xs_config_ st) * 1000000 ->
  max_seen_trade_fills (xs_config_ st) <= 0 \/
    Z.of_nat (size (seen_trade_fills_ st)) <= max_seen_trade_fills (xs_config_ st) ->
  not_recounted id st u.
Proof.
  intros Hs Hy Hc. pose proof (core_step_seen u st id ts Hs Hy Hc) as Hseen.
  pose proof (core_step_accounts u st) as Hacc. unfold not_recounted.
  destruct u as [upd now seq|upd now seq].
  - pose proof (order_core_tables upd now seq st) as Ht. cbv zeta in Ht. simpl in *.
    destruct (order_core upd now seq st) as [st' ev]. split; [done|]. apply Ht.
  - pose proof (trade_core_tables upd now seq st) as Ht. cbv zeta in Ht. simpl in *.
    destruct (trade_core upd now seq st) as [st' ev]. intros <-. destruct Hseen as (_ & _ & _ & Hnew).
    assert (forall e, ev = Some e -> is_new_fill e = false) as Hno.
    { intros e He. apply Hnew; [done|]. by apply (proj2 Ht). }
    split; [done|]. destruct ev as [e|]; simpl in Hacc; [|exact Hacc].
    by rewrite (Hno e eq_refl) in Hacc.
Qed.

(** An update that reports a new fill books it once and remembers it. *)
Lemma first_fill_counted u0 st st0 e :
  core_step st u0 = (st0, Some e) -> is_new_fill e = true ->
  (exists t, trades_ st0 !! trade_id e = Some t /\ accounts st0 = accounts (recorded t st)) /\
  seen_trade_fills_ st0 !! trade_id e = Some (update_time u0) /\ xs_config_ st0 = xs_config_ st /\
  (size (seen_trade_fills_ st0) <= S (size (seen_trade_fills_ st)))%nat.
Proof.
  intros Hstep Hnew. pose proof (core_step_accounts u0 st) as Hacc. rewrite Hstep in Hacc.
  destruct u0 as [upd now seq|upd now seq]; simpl in *.
  - pose proof (order_core_tables upd now seq st) as Ht. cbv zeta in Ht. rewrite Hstep in Ht.
    destruct Ht as (_ & _ & _ & _ & En). rewrite (En e eq_refl) in Hnew. done.
  - pose proof (trade_core_tables upd now seq st) as Ht. cbv zeta in Ht. rewrite Hstep in Ht.
    destruct Ht as ((_ & Ex & _) & En). destruct (En e eq_refl) as [Hid Hs].
    destruct (Hs Hnew) as [_ Hs']. rewrite Hnew in Hacc. simpl in Hacc. rewrite Hid, Hs', Ex.
    destruct (maybe_sweep_frame now st) as (_ & _ & Hsub & _ & _ & _ & Ecfg).
    apply map_subseteq_size in Hsub.
    destruct (size_insert_le (seen_trade_fills_ (maybe_sweep now st)) (ut_trade_id upd) now).
    split_and!; [done|by rewrite lookup_insert_eq|done|lia].
Qed.

(** C26: Each fill is counted once.  When an update reports a new fill, the
    positions, the shared inventory and the profit tracker are those after one
    recording of the tracked trade's fill; and every update of whatever
    sequence of order and trade updates follows, with whatever statuses in
    whatever order, reports no new fill for that trade and, if it is an order
    update or an update of that trade, leaves the three accounts as they were,
    except that a FAILED report of a trade not already failed reverses the
    tracked fill.  Conditions: the later updates arrive within the configured
    memory of the fill, and the number of remembered fills stays within its cap
    (or the cap is 0, unlimited). *)
Theorem fill_counted_once u0 us st st0 e
    (Hfirst : core_step st u0 = (st0, Some e)) (Hnew : is_new_fill e = true)
    (Hage : Forall (fun u => update_time u - update_time u0 <
                             seen_trade_fill_ttl_ms (xs_config_ st) * 1000000) us)
    (Hcap : max_seen_trade_fills (xs_config_ st) <= 0 \/
       Z.of_nat (size (seen_trade_fills_ st) + S (length us)) <= max_seen_trade_fills (xs_config_ st)) :
  (exists t, trades_ st0 !! trade_id e = Some t /\ accounts st0 = accounts (recorded t st)) /\
  forall us1 u us2, us = us1 ++ u :: us2 -> not_recounted (trade_id e) (run_updates us1 st0).1 u.
Proof.
  destruct (first_fill_counted u0 st st0 e Hfirst Hnew) as (Ht & Hs & Ec & Hsz). split; [done|].
  rewrite <- Ec in Hage, Hcap. intros us1 u us2 ->. rewrite length_app in Hcap. simpl in Hcap.
  apply Forall_app in Hage as [Hage1 Hage2]. apply Forall_cons in Hage2 as [Hu _].
  destruct (run_updates_seen us1 st0 _ _ Hs Hage1 ltac:(lia)) as (H1 & H2 & H3).
  apply (seen_not_recounted u _ _ (update_time u0)); rewrite ?H2; [done|done|lia].
Qed.

(** ** Reversal *)
Definition inventory_ok (st : ExecState) : Prop :=
  match inventory_ st with Some i => positions_in_range i | None => True end.

Lemma record_fill_inventory a sd sz p st :
  inventory_ (record_fill a sd sz p st).1 =
    (fun i => let i := adjust_position a (signed sd sz) i in
              if p >? 0 then adjust_usdc_balance (- signed sd (usdc_delta p sz)) i else i) <$> inventory_ st /\
  positions_ (record_fill a sd sz p st).1 = <[a := apply_fill sd sz (position_of st a)]> (positions_ st) /\
  realized_pnl_ <$> pnl_tracker_ (record_fill a sd sz p st).1 =
    (fun q => realized_pnl_ q + (record_fill a sd sz p st).2) <$> pnl_tracker_ st.
Proof.
  unfold record_fill. destruct (p >? 0); simpl; destruct (pnl_tracker_ st) as [q|] eqn:E; simpl.
  - pose proof (record_fill_realized a sd p sz q) as Hr.
    destruct (PnlTracker.record_fill a sd p sz q) as [q' d]. simpl in *. rewrite Hr.
    by destruct (inventory_ st).
  - rewrite E. by destruct (inventory_ st).
  - rewrite E, Z.add_0_r. by destruct (inventory_ st).
  - rewrite E. by destruct (inventory_ st).
Qed.

(** A reversal undoes the fill: recording a fill and then reversing it with
    the profit it reported restores every position entry, the shared
    inventory (tokens and cash, machine wrap-around included) and the realised
    profit. *)
Theorem reversal_undoes_fill a sd size price st
    (Hsize : 0 <= size) (Hpos : position_ok (position_of st a)) (Hinv : inventory_ok st) :
  let '(st1, d) := record_fill a sd size price st in
  let st2 := reverse_fill a sd size price d st1 in
  (forall b, position_of st2 b = position_of st b) /\ inventory_ st2 = inventory_ st /\
  realized_pnl_ <$> pnl_tracker_ st2 = realized_pnl_ <$> pnl_tracker_ st.
Proof.
  destruct (record_fill_inventory a sd size price st) as (Hi & Hp & Hr).
  destruct (record_fill a sd size price st) as [st1 d]. simpl in Hi, Hp, Hr. cbv zeta.
  assert (position_of st1 a = apply_fill sd size (position_of st a)) as Epos.
  { unfold position_of at 1. by rewrite Hp, lookup_insert_eq. }
  split; [|split].
  - intros b. unfold position_of at 1.
    assert (positions_ (reverse_fill a sd size price d st1) =
            <[a := unapply_fill sd size (position_of st1 a)]> (positions_ st1)) as ->.
    { unfold reverse_fill. by destruct (price >? 0). }
    rewrite Epos, unapply_apply_fill, Hp, insert_insert_eq by done.
    destruct (decide (a = b)) as [<-|]; [by rewrite lookup_insert_eq|by rewrite lookup_insert_ne].
  - assert (inventory_ (reverse_fill a sd size price d st1) =
            (fun i => let i := adjust_position a (- signed sd size) i in
              if price >? 0 then adjust_usdc_balance (signed sd (usdc_delta price size)) i else i)
              <$> inventory_ st1) as ->.
    { unfold reverse_fill. destruct (price >? 0); simpl; by destruct (inventory_ st1). }
    rewrite Hi. unfold inventory_ok in Hinv. destruct (inventory_ st) as [i|]; [|done]. simpl. f_equal.
    destruct (price >? 0).
    + rewrite adjust_usdc_position, adjust_position_undo by done.
      rewrite <- (Z.opp_involutive (signed sd (usdc_delta price size))) at 1. by apply adjust_usdc_undo.
    + by apply adjust_position_undo.
  - assert (pnl_tracker_ (reverse_fill a sd size price d st1) = PnlTracker.reverse_fill d <$> pnl_tracker_ st1) as ->.
    { unfold reverse_fill. by destruct (price >? 0). }
    destruct (pnl_tracker_ st1) as [q1|], (pnl_tracker_ st) as [q|]; simpl in *; try done.
    injection Hr as Hr. f_equal. lia.
Qed.

Lemma reversal_undoes_fill_witness :
  let st := ExecState_new (Some (register_token "tok" TokenInventory_new)) None ExecStateStoreConfig_default in
  inventory_ok st /\
  let '(st1, d) := record_fill "tok" BID 10 5000 st in
  inventory_ (reverse_fill "tok" BID 10 5000 d st1) = inventory_ st.
Proof.
  set (st := ExecState_new (Some (register_token "tok" TokenInventory_new)) None ExecStateStoreConfig_default).
  assert (inventory_ok st) as Hi.
  { split; [|by split].
    change (map_Forall (fun _ p => INT64_MIN <= p <= INT64_MAX) (<["tok"%string := 0]> (∅ : gmap AssetId Z))).
    apply map_Forall_insert_2; [by split|apply map_Forall_empty]. }
  split; [exact Hi|].
  pose proof (reversal_undoes_fill "tok" BID 10 5000 st ltac:(lia) ltac:(by split) Hi) as H.
  destruct (record_fill "tok" BID 10 5000 st). apply H.
Defined.

Lemma order_lifecycle_witness :
  let st := (order_core (mkUserOrderUpdate "o1" "" "tok" "mkt" OrderEventType.PLACEMENT BID 5000 10 0 0 false) 5 1
               (ExecState_new None None ExecStateStoreConfig_default)).1 in
  exists t t', orders_ (maybe_sweep 6 st) !! "o1"%string = Some t /\
    orders_ (order_core (mkUserOrderUpdate "o1" "" "tok" "mkt" OrderEventType.UPDATE BID 5000 10 4 0 false) 6 2 st).1
      !! "o1"%string = Some t' /\ to_size_matched t <= to_size_matched t'.
Proof.
  intros st. destruct (orders_ (maybe_sweep 6 st) !! "o1"%string) as [t|] eqn:Et; [|discriminate Et].
  destruct (order_lifecycle (mkUserOrderUpdate "o1" "" "tok" "mkt" OrderEventType.UPDATE BID 5000 10 4 0 false)
              6 2 st "o1" t Et) as (t' & H1 & _ & _ & _ & _ & _ & _ & H2 & _).
  exists t, t'. auto.
Defined.

Section TradeExamples.
Local Open Scope string_scope.
Definition sample_store : ExecState :=
  (order_core (sample_order_update "o1") 5 1 (ExecState_new None None ExecStateStoreConfig_default)).1.
(** A trade of 10 units against our resting order, at the given status. *)
Definition sample_trade (s : TradeStatus) : UserTradeUpdate :=
  mkUserTradeUpdate "t1" "other" "tok" "mkt" s ASK 5000 10 0 0 [mkMakerOrderEntry "o1" 10].
Definition after (ss : list TradeStatus) : ExecState :=
  (run_updates ((fun s => UTrade (sample_trade s) 10 2) <$> ss) sample_store).1.

Lemma fill_counted_once_witness :
  let u0 := UTrade (sample_trade TradeStatus.MATCHED) 10 2 in
  let us := [UTrade (sample_trade TradeStatus.MINED) 20 3; UTrade (sample_trade TradeStatus.MATCHED) 30 4] in
  exists st0 e, core_step sample_store u0 = (st0, Some e) /\ is_new_fill e = true /\
    position_of st0 "tok" = mkPositionDelta 10 10 0 1 /\
    not_recounted "t1" (run_updates [UTrade (sample_trade TradeStatus.MINED) 20 3] st0).1
      (UTrade (sample_trade TradeStatus.MATCHED) 30 4).
Proof.
  intros u0 us. destruct (core_step sample_store u0) as [st0 [e|]] eqn:E; [|discriminate E].
  assert (is_new_fill e = true /\ trade_id e = "t1" /\ position_of st0 "tok" = mkPositionDelta 10 10 0 1)
    as (Hn & Hid & Hp) by (vm_compute in E; injection E as <- <-; done).
  exists st0, e. split_and!; [done|done|done|]. rewrite <- Hid.
  refine (proj2 (fill_counted_once u0 us sample_store st0 e E Hn _ _)
            [UTrade (sample_trade TradeStatus.MINED) 20 3] _ [] eq_refl).
  - repeat constructor.
  - right. apply Z.leb_le. reflexivity.
Defined.

(** Failed trades are not always undone exactly once.  A trade that is
    matched, fails, is confirmed and fails again is reversed twice: the position
    is minus the fill although nothing was bought or sold on balance.  When the
    failure of a trade overtakes its match, the fill is recorded although the
    trade failed, and a repeated failure report does not reverse it. *)
Theorem failures_miscounted :
  position_of (after [TradeStatus.MATCHED]) "tok" = mkPositionDelta 10 10 0 1 /\
  position_of (after [TradeStatus.MATCHED; TradeStatus.FAILED]) "tok" = mkPositionDelta 0 0 0 0 /\
  position_of (after [TradeStatus.MATCHED; TradeStatus.FAILED; TradeStatus.CONFIRMED; TradeStatus.FAILED]) "tok" =
    mkPositionDelta (-10) 0 0 0 /\
  position_of (after [TradeStatus.FAILED; TradeStatus.MATCHED]) "tok" = mkPositionDelta 10 10 0 1 /\
  position_of (after [TradeStatus.FAILED; TradeStatus.MATCHED; TradeStatus.FAILED]) "tok" =
    mkPositionDelta 10 10 0 1.
Proof. split_and!; reflexivity. Qed.
End TradeExamples.
