(* ===== verification/WorkingOrderTracker.v ===== *)
(** The working-order tracker of the strategy thread:
    [src/scheduler/working_order_tracker.cpp] and [working_order_tracker.h].

    The tracker is an array of 256 slots scanned linearly.  The abstract view
    is the list of active orders in slot order ([active_orders]); the counters
    and sums the risk gate reads are functions of it, and the operations are
    shown to act on it as adding, updating or removing one order.

    Shown: a reachable tracker never holds a half-initialised slot; placing an
    order changes count, notional and exposure by exactly that order, and fails
    only when all 256 slots are taken; garbage collection removes exactly the
    stale pending orders; [cancel_all_intents] covers the first 32 orders. *)
From S2P Require Import Prelude Types OrderBook Events.

Record WorkingOrder := mkWorkingOrder {
  wo_client_order_id : OrderId;
  wo_exchange_order_id : OrderId;
  wo_asset_id : AssetId;
  wo_market_id : AssetId;
  wo_side : Side;
  wo_price : Z;
  wo_original_size : Z;
  wo_filled_size : Z;
  wo_sent_ts : Z;
  wo_is_live : bool;
  wo_is_pending : bool;
  wo_is_terminal : bool;
  wo_occupied : bool;
  wo_level : Z }.
Definition WorkingOrder_default : WorkingOrder :=
  mkWorkingOrder ""%string ""%string ""%string ""%string BID 0 0 0 0 false true false false 0.

Definition kMaxWorking : nat := 256.
Abbreviation WorkingOrderTracker := (list WorkingOrder) (only parsing).
Definition WorkingOrderTracker_new : WorkingOrderTracker := replicate kMaxWorking WorkingOrder_default.

(** [orders_[i].occupied && !orders_[i].is_terminal] *)
Definition active (o : WorkingOrder) : bool := wo_occupied o && negb (wo_is_terminal o).
Definition remaining (o : WorkingOrder) : Z := wo_original_size o - wo_filled_size o.

(** The first slot that satisfies a condition: the linear scans. *)
Fixpoint find_slot (f : WorkingOrder -> bool) (t : WorkingOrderTracker) : option nat :=
  match t with
  | [] => None
  | o :: t => if f o then Some O else S <$> find_slot f t
  end.

Definition find_free_slot (t : WorkingOrderTracker) : option nat :=
  find_slot (fun o => negb (wo_occupied o)) t.
Definition find_slot_by_client_id (id : OrderId) (t : WorkingOrderTracker) : option nat :=
  if negb (nonempty id) then None
  else find_slot (fun o => active o && id_eqb (wo_client_order_id o) id) t.
Definition find_slot_by_exchange_id (id : OrderId) (t : WorkingOrderTracker) : option nat :=
  if negb (nonempty id) then None
  else find_slot (fun o => active o && id_eqb (wo_exchange_order_id o) id) t.

(** The candidates of the fallback: uncorrelated orders on the event's asset,
    side and (when given) price. *)
Definition fallback_match (event : SchedulerEvent) (o : WorkingOrder) : bool :=
  active o && negb (nonempty (wo_exchange_order_id o)) && id_eqb (wo_asset_id o) (asset_id event) &&
  side_eqb (wo_side o) (user_side event) &&
  negb ((user_price event >? 0) && negb (wo_price o =? user_price event)).

Definition find_slot_for_user_update_fallback (event : SchedulerEvent) (t : WorkingOrderTracker)
    : option nat :=
  if negb (nonempty (asset_id event)) then None
  else
    (foldl (fun '(best, oldest) '(i, o) =>
              if fallback_match event o && (wo_sent_ts o <=? oldest)
              then (Some i, wo_sent_ts o) else (best, oldest))
       (None, INT64_MAX) (imap (fun i o => (i, o)) t)).1.

Definition update_slot (i : nat) (f : WorkingOrder -> WorkingOrder) (t : WorkingOrderTracker)
    : WorkingOrderTracker := alter f i t.
Definition remove_slot (i : nat) (t : WorkingOrderTracker) : WorkingOrderTracker :=
  <[i := WorkingOrder_default]> t.
Definition clear_all (t : WorkingOrderTracker) : WorkingOrderTracker :=
  (fun _ => WorkingOrder_default) <$> t.

(** ** Operations *)
Definition new_order (intent : ExecutionIntent) : WorkingOrder :=
  mkWorkingOrder (ei_client_order_id intent) ""%string (ei_asset_id intent) (ei_market_id intent)
    (if bool_decide (ei_action intent = IntentAction.WOULD_PLACE_BID) then BID else ASK)
    (ei_price intent) (ei_qty intent) 0 (ei_created_ts intent) false true false true (ei_level intent).

Definition on_intent_sent (intent : ExecutionIntent) (t : WorkingOrderTracker)
    : WorkingOrderTracker * bool :=
  if negb (is_placement (ei_action intent)) then (t, true) else
  match find_free_slot t with
  | None => (t, false)
  | Some i => (<[i := new_order intent]> t, true)
  end.

Definition set_live (o : WorkingOrder) : WorkingOrder :=
  o <| wo_is_pending := false |> <| wo_is_live := true |>.
Definition set_exchange_id (id : OrderId) (o : WorkingOrder) : WorkingOrder :=
  if nonempty id then o <| wo_exchange_order_id := id |> else o.

(** Exchange identifier first, then client identifier. *)
Definition find_slot_by_ids (event : SchedulerEvent) (t : WorkingOrderTracker) : option nat :=
  let slot := if nonempty (order_id event) then find_slot_by_exchange_id (order_id event) t else None in
  match slot with
  | Some i => Some i
  | None => if nonempty (client_order_id event)
            then find_slot_by_client_id (client_order_id event) t else None
  end.

Definition on_exec_feedback (event : SchedulerEvent) (t : WorkingOrderTracker) : WorkingOrderTracker :=
  if negb (bool_decide (source event = EventSource.EXEC_INTERNAL)) then t else
  match exec_feedback_kind event with
  | ExecFeedbackKind.ORDER_ACCEPTED =>
      match find_slot_by_client_id (client_order_id event) t with
      | None => t
      | Some i => update_slot i (fun o => set_exchange_id (order_id event) (set_live o)) t
      end
  | ExecFeedbackKind.ORDER_REJECTED | ExecFeedbackKind.RATE_LIMITED
  | ExecFeedbackKind.EXCHANGE_UNAVAILABLE =>
      match find_slot_by_client_id (client_order_id event) t with
      | None => t
      | Some i => remove_slot i t
      end
  | ExecFeedbackKind.CANCEL_CONFIRMED =>
      match find_slot_by_ids event t with
      | None => t
      | Some i => remove_slot i t
      end
  | _ => t
  end.

Definition on_user_update (event : SchedulerEvent) (t : WorkingOrderTracker) : WorkingOrderTracker :=
  if negb (bool_decide (source event = EventSource.USER_WS)) then t else
  if negb (bool_decide (kind event = SchedulerEventKind.USER_ORDER_UPDATE)) then t else
  let slot := match find_slot_by_ids event t with
              | Some i => Some i
              | None => find_slot_for_user_update_fallback event t
              end in
  match slot with
  | None => t
  | Some i =>
      let t := update_slot i (set_exchange_id (order_id event)) t in
      match order_status_raw event with
      | OrderStatus.FILLED | OrderStatus.CANCELED | OrderStatus.FAILED => remove_slot i t
      | OrderStatus.PARTIAL =>
          update_slot i (fun o =>
            set_live (if user_cumulative_filled event >? wo_filled_size o
                      then o <| wo_filled_size := user_cumulative_filled event |> else o)) t
      | OrderStatus.LIVE => update_slot i set_live t
      | OrderStatus.UNKNOWN => t
      end
  end.

Definition is_stale_pending (now max_age_ns : Z) (o : WorkingOrder) : bool :=
  active o && wo_is_pending o &&
  ((wo_sent_ts o >? 0) && (now >? wo_sent_ts o) && (now - wo_sent_ts o >? max_age_ns)).

(** The sweep visits each slot once. *)
Definition gc_stale_pending (now max_age_ns : Z) (t : WorkingOrderTracker) : WorkingOrderTracker * Z :=
  ((fun o => if is_stale_pending now max_age_ns o then WorkingOrder_default else o) <$> t,
   sum_list_Z (fun o => if is_stale_pending now max_age_ns o then 1 else 0) t).

(** ** Queries *)
Definition sum_active (f : WorkingOrder -> Z) (t : WorkingOrderTracker) : Z :=
  sum_list_Z (fun o => if active o then f o else 0) t.

Definition working_count (t : WorkingOrderTracker) : Z := sum_active (fun _ => 1) t.
Definition working_count_for_market (m : AssetId) (t : WorkingOrderTracker) : Z :=
  sum_active (fun o => if id_eqb (wo_market_id o) m then 1 else 0) t.
Definition total_working_notional (t : WorkingOrderTracker) : Z :=
  sum_active (fun o => wo_price o * remaining o) t.
Definition signed_remaining (o : WorkingOrder) : Z :=
  match wo_side o with BID => remaining o | ASK => - remaining o end.
Definition pending_exposure_for_token (tok : AssetId) (t : WorkingOrderTracker) : Z :=
  sum_active (fun o => if id_eqb (wo_asset_id o) tok then signed_remaining o else 0) t.

Definition find_order (f : WorkingOrder -> bool) (t : WorkingOrderTracker) : option WorkingOrder :=
  find_slot f t ≫= fun i => t !! i.
Definition find_by_client_id (id : OrderId) (t : WorkingOrderTracker) : option WorkingOrder :=
  find_slot_by_client_id id t ≫= fun i => t !! i.
Definition find_by_exchange_id (id : OrderId) (t : WorkingOrderTracker) : option WorkingOrder :=
  find_slot_by_exchange_id id t ≫= fun i => t !! i.
Definition find_by_market_side (m : AssetId) (sd : Side) (t : WorkingOrderTracker) : option WorkingOrder :=
  find_order (fun o => active o && id_eqb (wo_market_id o) m && side_eqb (wo_side o) sd) t.
Definition find_by_market_side_level (m : AssetId) (sd : Side) (level : Z) (t : WorkingOrderTracker)
    : option WorkingOrder :=
  find_order (fun o => active o && id_eqb (wo_market_id o) m && side_eqb (wo_side o) sd &&
                       (wo_level o =? wrap_u8 level)) t.
Definition working_price (m : AssetId) (sd : Side) (t : WorkingOrderTracker) : Z :=
  from_option wo_price kInvalidPrice (find_by_market_side m sd t).
Definition working_bid_price (m : AssetId) (t : WorkingOrderTracker) : Z := working_price m BID t.
Definition working_ask_price (m : AssetId) (t : WorkingOrderTracker) : Z := working_price m ASK t.
Definition working_price_at_level (m : AssetId) (sd : Side) (level : Z) (t : WorkingOrderTracker) : Z :=
  from_option wo_price kInvalidPrice (find_by_market_side_level m sd level t).

Definition cancel_of (o : WorkingOrder) : ExecutionIntent :=
  ExecutionIntent_default
    <| ei_action := match wo_side o with
                    | BID => IntentAction.WOULD_CANCEL_BID | ASK => IntentAction.WOULD_CANCEL_ASK end |>
    <| ei_asset_id := wo_asset_id o |> <| ei_market_id := wo_market_id o |>
    <| ei_exchange_order_id := wo_exchange_order_id o |>
    <| ei_client_order_id := wo_client_order_id o |>
    <| ei_price := wo_price o |> <| ei_qty := remaining o |>.

(** [for (...; i < kMaxWorking && batch.count < kMaxIntents; ...)] *)
Fixpoint cancel_loop (keep : WorkingOrder -> bool) (t : WorkingOrderTracker)
    (batch : list ExecutionIntent) : list ExecutionIntent :=
  match t with
  | [] => batch
  | o :: t =>
      if (length batch <? kMaxIntents)%nat
      then cancel_loop keep t (if keep o then batch_add batch (cancel_of o) else batch)
      else batch
  end.
Definition cancel_all_intents (t : WorkingOrderTracker) : list ExecutionIntent := cancel_loop active t [].
Definition cancel_intents_for_market (c : AssetId) (t : WorkingOrderTracker) : list ExecutionIntent :=
  cancel_loop (fun o => active o && id_eqb (wo_market_id o) c) t [].

(** ** Scans and sums *)
Lemma find_slot_Some f t i :
  find_slot f t = Some i -> exists o, t !! i = Some o /\ f o = true.
Proof.
  revert i. induction t as [|o t IH]; intros i; simpl; [done|].
  destruct (f o) eqn:E; [intros [= <-]; by exists o|].
  destruct (find_slot f t) as [j|]; [|done]. intros [= <-]. by apply IH.
Qed.

Lemma find_slot_None f t : find_slot f t = None <-> Forall (fun o => f o = false) t.
Proof.
  induction t as [|o t IH]; simpl; [split; [constructor|done]|].
  rewrite Forall_cons, <- IH. destruct (f o), (find_slot f t); naive_solver.
Qed.

Definition active_value (f : WorkingOrder -> Z) (o : WorkingOrder) : Z := if active o then f o else 0.

Lemma sum_active_insert f t i o o' :
  t !! i = Some o ->
  sum_active f (<[i := o']> t) = sum_active f t - active_value f o + active_value f o'.
Proof. apply sum_list_Z_insert. Qed.

Lemma active_default : active WorkingOrder_default = false.
Proof. done. Qed.

(** Removing a slot subtracts its order from every sum. *)
Lemma sum_active_remove f t i o :
  t !! i = Some o -> active o = true -> sum_active f (remove_slot i t) = sum_active f t - f o.
Proof.
  intros Hi Ha. unfold remove_slot. rewrite (sum_active_insert _ _ _ _ _ Hi).
  unfold active_value. rewrite Ha, active_default. lia.
Qed.

(** ** Well-formed slots *)
Definition slot_wf (o : WorkingOrder) : Prop :=
  if wo_occupied o then wo_is_terminal o = false /\ wo_is_live o = negb (wo_is_pending o)
  else o = WorkingOrder_default.
Definition tracker_inv (t : WorkingOrderTracker) : Prop :=
  length t = kMaxWorking /\ Forall slot_wf t.

Lemma slot_wf_default : slot_wf WorkingOrder_default.
Proof. done. Qed.
Lemma slot_wf_new intent : slot_wf (new_order intent).
Proof. done. Qed.

Lemma slot_wf_occupied o : slot_wf o -> active o = wo_occupied o.
Proof. unfold slot_wf, active. destruct (wo_occupied o); [|done]. by intros [-> _]. Qed.

Lemma slot_wf_set_live o : wo_occupied o = true -> slot_wf o -> slot_wf (set_live o).
Proof. unfold slot_wf. simpl. intros ->. by intros [? _]. Qed.
Lemma slot_wf_set_exchange_id id o : slot_wf o -> wo_occupied o = true -> slot_wf (set_exchange_id id o).
Proof.
  unfold slot_wf, set_exchange_id. destruct (nonempty id); simpl; [|done].
  intros Hw Ho. by rewrite Ho in *.
Qed.
Lemma set_exchange_id_occupied id o : wo_occupied (set_exchange_id id o) = wo_occupied o.
Proof. unfold set_exchange_id. by destruct (nonempty id). Qed.
#[export] Hint Resolve slot_wf_default slot_wf_new slot_wf_set_live slot_wf_set_exchange_id : trading.

Lemma tracker_new_inv : tracker_inv WorkingOrderTracker_new.
Proof.
  split; [apply length_replicate|]. apply Forall_replicate. apply slot_wf_default.
Qed.

Lemma inv_insert i o t : tracker_inv t -> slot_wf o -> tracker_inv (<[i := o]> t).
Proof. intros [Hl Hw] Ho. split; [by rewrite length_insert|]. by apply Forall_insert. Qed.

Lemma inv_remove i t : tracker_inv t -> tracker_inv (remove_slot i t).
Proof. intros Ht. apply inv_insert; [done|apply slot_wf_default]. Qed.

Lemma inv_update i f t o :
  tracker_inv t -> t !! i = Some o -> slot_wf (f o) -> tracker_inv (update_slot i f t).
Proof.
  intros [Hl Hw] Hi Hf. split; [unfold update_slot; by rewrite length_alter|].
  apply Forall_alter; [done|]. intros x Hx _. by simplify_eq.
Qed.

(** Every lookup by identifier or fallback finds an active slot. *)
Lemma find_client_active id t i :
  find_slot_by_client_id id t = Some i -> exists o, t !! i = Some o /\ active o = true /\ wo_client_order_id o = id.
Proof.
  unfold find_slot_by_client_id. destruct (negb _); [done|].
  intros (o & Ho & [Ha Hc]%andb_true_iff)%find_slot_Some. exists o. by apply id_eqb_true in Hc.
Qed.

Lemma find_exchange_active id t i :
  find_slot_by_exchange_id id t = Some i ->
  exists o, t !! i = Some o /\ active o = true /\ wo_exchange_order_id o = id.
Proof.
  unfold find_slot_by_exchange_id. destruct (negb _); [done|].
  intros (o & Ho & [Ha Hc]%andb_true_iff)%find_slot_Some. exists o. by apply id_eqb_true in Hc.
Qed.

Lemma find_ids_active ev t i :
  find_slot_by_ids ev t = Some i -> exists o, t !! i = Some o /\ active o = true.
Proof.
  unfold find_slot_by_ids. destruct (nonempty (order_id ev)).
  - destruct (find_slot_by_exchange_id _ _) eqn:E.
    + intros [= <-]. apply find_exchange_active in E as (o & ? & ? & _). eauto.
    + destruct (nonempty _); [|done]. intros (o & ? & ? & _)%find_client_active. eauto.
  - destruct (nonempty _); [|done]. intros (o & ? & ? & _)%find_client_active. eauto.
Qed.

Lemma fallback_loop_active ev (l : list (nat * WorkingOrder)) best oldest i :
  (foldl (fun '(best, oldest) '(i, o) =>
            if fallback_match ev o && (wo_sent_ts o <=? oldest)
            then (Some i, wo_sent_ts o) else (best, oldest)) (best, oldest) l).1 = Some i ->
  best = Some i \/ exists o, (i, o) ∈ l /\ fallback_match ev o = true.
Proof.
  revert best oldest. induction l as [|[j o] l IH]; intros best oldest; cbn [foldl]; [by left|].
  destruct (fallback_match ev o && _) eqn:E; intros [Hi|(o' & Ho' & Hm)]%IH.
  - injection Hi as <-. right. exists o. apply andb_true_iff in E as [E _]. split; [left|done].
  - right. exists o'. split; [by right|done].
  - by left.
  - right. exists o'. split; [by right|done].
Qed.

Lemma find_fallback_active ev t i :
  find_slot_for_user_update_fallback ev t = Some i ->
  exists o, t !! i = Some o /\ fallback_match ev o = true.
Proof.
  unfold find_slot_for_user_update_fallback. destruct (negb _); [done|].
  intros [?|(o & Ho & Hm)]%fallback_loop_active; [done|]. exists o. split; [|done].
  apply list_elem_of_lookup in Ho as [k Hk]. rewrite list_lookup_imap in Hk.
  destruct (t !! k) eqn:E; [|done]. simpl in Hk. injection Hk as -> ->. done.
Qed.

Definition user_update_slot (ev : SchedulerEvent) (t : WorkingOrderTracker) : option nat :=
  match find_slot_by_ids ev t with
  | Some i => Some i
  | None => find_slot_for_user_update_fallback ev t
  end.

Lemma user_update_slot_active ev t i :
  user_update_slot ev t = Some i -> exists o, t !! i = Some o /\ active o = true.
Proof.
  unfold user_update_slot. destruct (find_slot_by_ids ev t) eqn:E.
  - intros [= <-]. by apply find_ids_active in E.
  - intros (o & Ho & Hm)%find_fallback_active. exists o. split; [done|].
    unfold fallback_match in Hm. by bool_to_prop.
Qed.

Lemma active_occupied o : active o = true -> wo_occupied o = true.
Proof. by intros [? _]%andb_true_iff. Qed.

Lemma inv_lookup t i o : tracker_inv t -> t !! i = Some o -> slot_wf o.
Proof. intros [_ Hw] Hi. by apply (Forall_lookup_1 _ _ _ _ Hw Hi). Qed.

(** ** Every operation preserves the invariant *)
Lemma on_intent_sent_inv intent t : tracker_inv t -> tracker_inv (on_intent_sent intent t).1.
Proof.
  intros Ht. unfold on_intent_sent. destruct (negb _); [done|].
  destruct (find_free_slot t); [|done]. apply inv_insert; auto with trading.
Qed.

Lemma on_exec_feedback_inv ev t : tracker_inv t -> tracker_inv (on_exec_feedback ev t).
Proof.
  intros Ht. unfold on_exec_feedback. destruct (negb _); [done|].
  destruct (exec_feedback_kind ev); try done.
  - destruct (find_slot_by_client_id _ t) as [i|] eqn:E; [|done].
    apply find_client_active in E as (o & Ho & Ha & _). eapply inv_update; [done|done|].
    apply slot_wf_set_exchange_id; [|by apply active_occupied].
    apply slot_wf_set_live; eauto using active_occupied, inv_lookup.
  - destruct (find_slot_by_client_id _ t); auto using inv_remove.
  - destruct (find_slot_by_ids _ t); auto using inv_remove.
  - destruct (find_slot_by_client_id _ t); auto using inv_remove.
  - destruct (find_slot_by_client_id _ t); auto using inv_remove.
Qed.

Lemma on_user_update_inv ev t : tracker_inv t -> tracker_inv (on_user_update ev t).
Proof.
  intros Ht. unfold on_user_update. destruct (negb _); [done|]. destruct (negb _); [done|].
  fold (user_update_slot ev t). destruct (user_update_slot ev t) as [i|] eqn:E; [|done].
  apply user_update_slot_active in E as (o & Ho & Ha). apply active_occupied in Ha as Hocc.
  pose proof (inv_lookup _ _ _ Ht Ho) as Hwf.
  set (o1 := set_exchange_id (order_id ev) o).
  assert (slot_wf o1) as Hwf1 by (by apply slot_wf_set_exchange_id).
  assert (wo_occupied o1 = true) as Hocc1 by (unfold o1; by rewrite set_exchange_id_occupied).
  assert (tracker_inv (update_slot i (set_exchange_id (order_id ev)) t)) as Ht1 by (by eapply inv_update).
  assert (update_slot i (set_exchange_id (order_id ev)) t !! i = Some o1) as Ho1.
  { unfold update_slot. by rewrite list_lookup_alter_eq, Ho. }
  destruct (order_status_raw ev); simpl; auto using inv_remove.
  - eapply inv_update; [done|done|]. auto with trading.
  - eapply inv_update; [done|done|]. apply slot_wf_set_live; [by destruct (_ >? _)|].
    unfold slot_wf in *. by destruct (_ >? _); simpl; rewrite Hocc1 in *.
Qed.

Lemma gc_inv now age t : tracker_inv t -> tracker_inv (gc_stale_pending now age t).1.
Proof.
  intros [Hl Hw]. split; simpl; [by rewrite length_fmap|]. apply Forall_fmap.
  eapply Forall_impl; [exact Hw|]. intros o Ho. simpl. by destruct (is_stale_pending now age o).
Qed.

Lemma clear_all_inv t : tracker_inv t -> tracker_inv (clear_all t).
Proof.
  intros [Hl Hw]. split; simpl; [unfold clear_all; by rewrite length_fmap|]. apply Forall_fmap.
  eapply Forall_impl; [exact Hw|]. by intros o _.
Qed.

(** ** Reachable trackers *)
Inductive tracker_op :=
  | TSent (intent : ExecutionIntent)
  | TFeedback (ev : SchedulerEvent)
  | TUser (ev : SchedulerEvent)
  | TGc (now max_age_ns : Z)
  | TClear.
Definition tracker_step (t : WorkingOrderTracker) (op : tracker_op) : WorkingOrderTracker :=
  match op with
  | TSent intent => (on_intent_sent intent t).1
  | TFeedback ev => on_exec_feedback ev t
  | TUser ev => on_user_update ev t
  | TGc now age => (gc_stale_pending now age t).1
  | TClear => clear_all t
  end.

Lemma tracker_run_inv ops t : tracker_inv t -> tracker_inv (foldl tracker_step t ops).
Proof.
  revert t. induction ops as [|op ops IH]; intros t Ht; [done|]. apply IH.
  destruct op; cbn [tracker_step]; auto using on_intent_sent_inv, on_exec_feedback_inv, on_user_update_inv,
    gc_inv, clear_all_inv.
Qed.

(** ** Capacity *)
Lemma working_count_bounds t : 0 <= working_count t <= Z.of_nat (length t).
Proof.
  pose proof (sum_list_Z_bounds (fun o => if active o then 1 else 0) t 0 1) as Hb.
  unfold working_count, sum_active. destruct Hb as [? ?]; [|lia].
  intros o _. destruct (active o); lia.
Qed.

Lemma full_iff t : tracker_inv t -> (find_free_slot t = None <-> working_count t = Z.of_nat kMaxWorking).
Proof.
  intros [<- Hw]. unfold find_free_slot. rewrite find_slot_None. unfold working_count, sum_active.
  induction Hw as [|o t Ho Hw IH]; simpl; [split; [done|constructor]|].
  rewrite Forall_cons, IH. pose proof (slot_wf_occupied o Ho) as Ea. rewrite Ea.
  pose proof (working_count_bounds t) as Hb. unfold working_count, sum_active in Hb.
  destruct (wo_occupied o); simpl; split; naive_solver lia.
Qed.

(** ** Placement *)
Lemma place_sum f intent t t' :
  is_placement (ei_action intent) = true -> on_intent_sent intent t = (t', true) -> tracker_inv t ->
  sum_active f t' = sum_active f t + f (new_order intent).
Proof.
  unfold on_intent_sent. intros -> Hs Ht. simpl in Hs.
  destruct (find_free_slot t) as [i|] eqn:E; [|done]. injection Hs as <-.
  apply find_slot_Some in E as (o & Ho & Hocc). rewrite (sum_active_insert _ _ _ _ _ Ho).
  unfold active_value. rewrite (slot_wf_occupied o) by (by eapply inv_lookup).
  bool_to_prop. rewrite Hocc. change (active (new_order intent)) with true. cbv iota. lia.
Qed.

(** Placement accounting: on every reachable tracker, recording a placement
    fails exactly when 256 orders are working and then changes nothing;
    otherwise the working count grows by one, the market's count by one, the
    working notional by price times quantity and the token's exposure by the
    signed quantity, and every other token's exposure is unchanged. *)
Theorem placement_accounting (ops : list tracker_op) (intent : ExecutionIntent)
    (Hp : is_placement (ei_action intent) = true) :
  let t := foldl tracker_step WorkingOrderTracker_new ops in
  let sign := if bool_decide (ei_action intent = IntentAction.WOULD_PLACE_BID) then 1 else -1 in
  match on_intent_sent intent t with
  | (t', false) => t' = t /\ working_count t = 256
  | (t', true) =>
      working_count t < 256 /\ working_count t' = working_count t + 1 /\
      working_count_for_market (ei_market_id intent) t' =
        working_count_for_market (ei_market_id intent) t + 1 /\
      total_working_notional t' = total_working_notional t + ei_price intent * ei_qty intent /\
      forall tok, pending_exposure_for_token tok t' = pending_exposure_for_token tok t +
        (if id_eqb (ei_asset_id intent) tok then sign * ei_qty intent else 0)
  end.
Proof.
  intros t sign. pose proof (tracker_run_inv ops _ tracker_new_inv) as Ht. fold t in Ht.
  pose proof (full_iff t Ht) as Hfull. pose proof (working_count_bounds t) as Hb.
  destruct Ht as [Hlen Hw] eqn:Et; clear Et. rewrite Hlen in Hb. change (Z.of_nat kMaxWorking) with 256 in *.
  destruct (on_intent_sent intent t) as [t' ok] eqn:Es. destruct ok.
  - assert (find_free_slot t <> None) as Hfree.
    { unfold on_intent_sent in Es. rewrite Hp in Es. simpl in Es. by destruct (find_free_slot t). }
    assert (working_count t <> 256) by (intros E; by apply Hfree, Hfull). split; [lia|].
    pose proof (fun f => place_sum f intent t t' Hp Es (conj Hlen Hw)) as Hsum.
    unfold working_count, working_count_for_market, total_working_notional, pending_exposure_for_token.
    split; [|split; [|split; [|intros tok]]]; rewrite Hsum; simpl.
    + done.
    + by rewrite id_eqb_refl.
    + unfold remaining; simpl; lia.
    + unfold signed_remaining, remaining, sign. simpl. destruct (id_eqb _ _); [|lia].
      by destruct (bool_decide _); simpl; lia.
  - unfold on_intent_sent in Es. rewrite Hp in Es. simpl in Es.
    destruct (find_free_slot t); [done|]. injection Es as <-. split; [done|by apply Hfull].
Qed.

Lemma placement_accounting_witness :
  let intent := ExecutionIntent_default <| ei_price := 5000 |> <| ei_qty := 10 |> in
  is_placement (ei_action intent) = true /\
  total_working_notional (on_intent_sent intent WorkingOrderTracker_new).1 = 50000.
Proof.
  split; [reflexivity|].
  pose proof (placement_accounting [] (ExecutionIntent_default <| ei_price := 5000 |> <| ei_qty := 10 |>) eq_refl) as H.
  destruct H as (_ & _ & _ & Hn & _). exact Hn.
Defined.

(** ** Placement followed by a rejection *)
Lemma find_slot_insert f t i o :
  (i < length t)%nat -> f o = true -> find_slot f t = None -> find_slot f (<[i := o]> t) = Some i.
Proof.
  revert i. induction t as [|x t IH]; intros [|i] Hi Ho Hn; simpl in *; try lia.
  - by rewrite Ho.
  - destruct (f x); [done|]. destruct (find_slot f t) eqn:E; [done|]. rewrite IH; [done|lia|done|done].
Qed.

Lemma place_then_remove intent t t' :
  is_placement (ei_action intent) = true -> nonempty (ei_client_order_id intent) = true ->
  tracker_inv t -> find_slot_by_client_id (ei_client_order_id intent) t = None ->
  on_intent_sent intent t = (t', true) ->
  exists i, find_slot_by_client_id (ei_client_order_id intent) t' = Some i /\ remove_slot i t' = t.
Proof.
  intros Hp Hne Ht Hnone Hs. unfold on_intent_sent in Hs. rewrite Hp in Hs. simpl in Hs.
  destruct (find_free_slot t) as [i|] eqn:Ef; [|done]. injection Hs as <-.
  apply find_slot_Some in Ef as (o & Ho & Hocc). apply negb_true_iff in Hocc.
  exists i. unfold find_slot_by_client_id in *. rewrite Hne in *. simpl in *. split.
  - apply find_slot_insert; [by eapply lookup_lt_Some| |done].
    change (active (new_order intent)) with true. simpl. apply id_eqb_refl.
  - unfold remove_slot. rewrite list_insert_insert_eq. apply list_insert_id.
    rewrite Ho. f_equal. pose proof (inv_lookup _ _ _ Ht Ho) as Hwf. unfold slot_wf in Hwf.
    by rewrite Hocc in Hwf.
Qed.

Definition refused (k : ExecFeedbackKind) : bool :=
  match k with
  | ExecFeedbackKind.ORDER_REJECTED | ExecFeedbackKind.RATE_LIMITED
  | ExecFeedbackKind.EXCHANGE_UNAVAILABLE => true
  | _ => false
  end.

(** A refused order leaves no trace: on every reachable tracker, recording a
    placement under a client identifier not in use and then receiving a
    rejection, a rate-limit or an exchange-unavailable report for that
    identifier gives back exactly the tracker before the placement. *)
Theorem refused_order_roundtrip (ops : list tracker_op) (intent : ExecutionIntent)
    (ev : SchedulerEvent) (t' : WorkingOrderTracker)
    (Hp : is_placement (ei_action intent) = true)
    (Hne : nonempty (ei_client_order_id intent) = true)
    (Hfresh : find_slot_by_client_id (ei_client_order_id intent)
                (foldl tracker_step WorkingOrderTracker_new ops) = None)
    (Hs : on_intent_sent intent (foldl tracker_step WorkingOrderTracker_new ops) = (t', true))
    (Hsrc : source ev = EventSource.EXEC_INTERNAL) (Hk : refused (exec_feedback_kind ev) = true)
    (Hid : client_order_id ev = ei_client_order_id intent) :
  on_exec_feedback ev t' = foldl tracker_step WorkingOrderTracker_new ops.
Proof.
  pose proof (tracker_run_inv ops _ tracker_new_inv) as Ht.
  destruct (place_then_remove intent _ t' Hp Hne Ht Hfresh Hs) as (i & Hi & <-).
  unfold on_exec_feedback. rewrite Hsrc, bool_decide_eq_true_2, Hid, Hi by done. simpl.
  by destruct (exec_feedback_kind ev).
Qed.

Lemma refused_order_roundtrip_witness :
  let intent := ExecutionIntent_default <| ei_client_order_id := "c1"%string |> <| ei_qty := 10 |> in
  let ev := SchedulerEvent_default <| source := EventSource.EXEC_INTERNAL |>
              <| exec_feedback_kind := ExecFeedbackKind.ORDER_REJECTED |>
              <| client_order_id := "c1"%string |> in
  on_exec_feedback ev (on_intent_sent intent WorkingOrderTracker_new).1 = WorkingOrderTracker_new.
Proof.
  simpl. apply (refused_order_roundtrip [] (ExecutionIntent_default
    <| ei_client_order_id := "c1"%string |> <| ei_qty := 10 |>)); reflexivity.
Defined.

(** ** Cancellation *)
Definition active_orders (t : WorkingOrderTracker) : list WorkingOrder :=
  filter (fun o => active o = true) t.

Lemma cancel_loop_take keep t batch :
  (length batch <= kMaxIntents)%nat ->
  cancel_loop keep t batch =
    batch ++ take (kMaxIntents - length batch) (cancel_of <$> filter (fun o => keep o = true) t).
Proof.
  revert batch. induction t as [|o t IH]; intros batch Hle; simpl.
  { by rewrite take_nil, app_nil_r. }
  destruct (Nat.ltb_spec (length batch) kMaxIntents) as [Hlt|Hge].
  - rewrite filter_cons. destruct (keep o) eqn:Ek.
    + rewrite decide_True by done. unfold batch_add. rewrite (proj2 (Nat.ltb_lt _ _) Hlt).
      rewrite IH by (rewrite length_app; simpl; lia). rewrite <- app_assoc. f_equal.
      rewrite length_app. cbn [length fmap list_fmap].
      replace (kMaxIntents - length batch)%nat with (S (kMaxIntents - (length batch + 1)))%nat by lia.
      done.
    + rewrite decide_False by done. by apply IH.
  - replace (kMaxIntents - length batch)%nat with O by lia. by rewrite take_0, app_nil_r.
Qed.

Lemma length_active_orders t : Z.of_nat (length (active_orders t)) = working_count t.
Proof.
  unfold active_orders, working_count, sum_active. induction t as [|o t IH]; [done|].
  rewrite filter_cons. simpl. destruct (active o); [rewrite decide_True by done|rewrite decide_False by done];
    simpl; lia.
Qed.

(** Emergency cancellation: the batch holds, in slot order, one cancel for
    each of the first 32 working orders, carrying the order's identifiers,
    side, price and remaining size; every working order is covered exactly when
    at most 32 are working. *)
Theorem cancel_all_covers (t : WorkingOrderTracker) :
  cancel_all_intents t = take 32 (cancel_of <$> active_orders t) /\
  Forall (fun i => is_cancel (ei_action i) = true) (cancel_all_intents t) /\
  (cancel_all_intents t = cancel_of <$> active_orders t <-> working_count t <= 32).
Proof.
  assert (cancel_all_intents t = take 32 (cancel_of <$> active_orders t)) as E.
  { unfold cancel_all_intents. rewrite cancel_loop_take by (simpl; lia). done. }
  split; [done|]. split.
  - rewrite E. apply Forall_take, Forall_fmap, Forall_true. intros o. simpl. by destruct (wo_side o).
  - rewrite E, <- length_active_orders. split.
    + intros Ht%(f_equal length). rewrite length_take, length_fmap in Ht. lia.
    + intros Hle. apply take_ge. rewrite length_fmap. lia.
Qed.

(** ** Garbage collection *)
Lemma gc_sum f now age t :
  sum_active f (gc_stale_pending now age t).1 =
    sum_active f t - sum_list_Z (fun o => if is_stale_pending now age o then f o else 0) t.
Proof.
  unfold sum_active. cbn [gc_stale_pending fst]. rewrite sum_list_Z_fmap, <- sum_list_Z_minus.
  apply sum_list_Z_ext. intros o _. destruct (is_stale_pending now age o) eqn:Es; [|lia].
  rewrite active_default. unfold is_stale_pending in Es. bool_to_prop.
  match goal with Ha : active o = true |- _ => rewrite Ha end. lia.
Qed.

(** Garbage collection frees exactly the stale pending orders: it returns
    the number of working orders it removed, releases exactly their notional,
    leaves no stale pending order behind and keeps every other slot. *)
Theorem gc_exact (now age : Z) (t : WorkingOrderTracker) :
  let '(t', removed) := gc_stale_pending now age t in
  removed = working_count t - working_count t' /\
  total_working_notional t - total_working_notional t' =
    sum_list_Z (fun o => if is_stale_pending now age o then wo_price o * remaining o else 0) t /\
  Forall (fun o => is_stale_pending now age o = false) t' /\
  forall i o, t !! i = Some o -> is_stale_pending now age o = false -> t' !! i = Some o.
Proof.
  pose proof (gc_sum (fun _ => 1) now age t) as H1.
  pose proof (gc_sum (fun o => wo_price o * remaining o) now age t) as H2.
  unfold gc_stale_pending in *. cbn [fst] in *. unfold working_count, total_working_notional.
  split; [lia|]. split; [lia|]. split.
  - apply Forall_fmap, Forall_true. intros o. simpl. by destruct (is_stale_pending now age o) eqn:E.
  - intros i o Hi Hs. rewrite list_lookup_fmap, Hi. simpl. by rewrite Hs.
Qed.
