(* ===== verification/RiskGate.v ===== *)
(** The risk gate, the quote planner and the exchange-side inventory check:
    [src/scheduler/risk_gate.cpp], [src/scheduler/quote_planner.h],
    [quote_planner.cpp] and [src/exec/inventory_safety.h].

    The gate reads positions through the [InventoryView] interface, pending
    exposure and notional from the working-order tracker and the pairing of
    tokens from the registry; each of the three pointers may be null.  The
    machine sums are computed in the integers; metrics are left out.

    Shown: cancels always pass; whatever a strategy proposes, the orders the
    gate lets through keep every token, every market and the book notional
    within the configured limits, pending orders included. *)
From S2P Require Import Prelude Types OrderBook Events MarketPair TokenInventory WorkingOrderTracker.

Module RiskDenyReason.
Inductive RiskDenyReason := NONE | POSITION_LIMIT | EXPOSURE_LIMIT | NOTIONAL_LIMIT.
#[export] Instance RiskDenyReason_eq_dec : EqDecision RiskDenyReason.
Proof. solve_decision. Defined.
End RiskDenyReason.
Export (hints) RiskDenyReason.
Abbreviation RiskDenyReason := RiskDenyReason.RiskDenyReason.

Record RiskResult := mkRiskResult { decision : RiskDecision; reason : RiskDenyReason }.

Record RiskConfig := mkRiskConfig {
  max_position_per_token : Z;
  max_net_exposure_per_market : Z;
  max_notional : Z;
  max_loss : Z;
  cancel_all_on_violation : bool }.

Record RiskGate := mkRiskGate {
  config_ : RiskConfig;
  pending_cancel_all_ : bool;
  check_count_ : Z;
  allow_count_ : Z;
  deny_count_ : Z }.
Definition RiskGate_new (c : RiskConfig) : RiskGate := mkRiskGate c false 0 0 0.
Definition clear_pending_cancel_all (g : RiskGate) : RiskGate := g <| pending_cancel_all_ := false |>.
Definition set_config (c : RiskConfig) (g : RiskGate) : RiskGate := g <| config_ := c |>.

(** [intent.qty], negated for a sell. *)
Definition impact (intent : ExecutionIntent) : Z :=
  if bool_decide (ei_action intent = IntentAction.WOULD_PLACE_ASK) then - ei_qty intent else ei_qty intent.

Section Gate.
Context {I : Type} `{InventoryView I}.
Variables (inventory : option I) (tracker : option WorkingOrderTracker)
          (market_pairs : option MarketPairRegistry).

Definition pending_for (tok : AssetId) : Z :=
  match tracker with Some t => pending_exposure_for_token tok t | None => 0 end.

(** The position check: [true] when it denies. *)
Definition position_violation (c : RiskConfig) (intent : ExecutionIntent) : bool :=
  match inventory with
  | None => false
  | Some inv =>
      let projected := position_for inv (ei_asset_id intent) + pending_for (ei_asset_id intent) +
                       impact intent in
      Z.abs projected >? max_position_per_token c
  end.

Definition exposure_violation (c : RiskConfig) (intent : ExecutionIntent) : bool :=
  match inventory, market_pairs with
  | Some inv, Some reg =>
      if nonempty (ei_market_id intent) then
        match find_by_condition reg (ei_market_id intent) with
        | None => false
        | Some mp =>
            let pos_up := position_for inv (token_id_up mp) + pending_for (token_id_up mp) in
            let pos_down := position_for inv (token_id_down mp) + pending_for (token_id_down mp) in
            let '(pos_up, pos_down) :=
              if id_eqb (ei_asset_id intent) (token_id_up mp) then (pos_up + impact intent, pos_down)
              else if id_eqb (ei_asset_id intent) (token_id_down mp)
                   then (pos_up, pos_down + impact intent)
              else (pos_up, pos_down) in
            Z.abs pos_up + Z.abs pos_down >? max_net_exposure_per_market c
        end
      else false
  | _, _ => false
  end.

Definition notional_violation (c : RiskConfig) (intent : ExecutionIntent) : bool :=
  match tracker with
  | None => false
  | Some t => total_working_notional t + ei_price intent * ei_qty intent >? max_notional c
  end.

Definition deny (r : RiskDenyReason) (g : RiskGate) : RiskGate * RiskResult :=
  let g := g <| deny_count_ ::= Z.succ |> in
  let g := if cancel_all_on_violation (config_ g) then g <| pending_cancel_all_ := true |> else g in
  (g, mkRiskResult DENY r).
Definition allow (g : RiskGate) : RiskGate * RiskResult :=
  (g <| allow_count_ ::= Z.succ |>, mkRiskResult ALLOW RiskDenyReason.NONE).

Definition evaluate (intent : ExecutionIntent) (g : RiskGate) : RiskGate * RiskResult :=
  let g := g <| check_count_ ::= Z.succ |> in
  match ei_action intent with
  | IntentAction.WOULD_CANCEL_BID | IntentAction.WOULD_CANCEL_ASK
  | IntentAction.WOULD_CANCEL_ALL => allow g
  | _ =>
      if position_violation (config_ g) intent then deny RiskDenyReason.POSITION_LIMIT g
      else if exposure_violation (config_ g) intent then deny RiskDenyReason.EXPOSURE_LIMIT g
      else if notional_violation (config_ g) intent then deny RiskDenyReason.NOTIONAL_LIMIT g
      else allow g
  end.
End Gate.

(** ** The quote planner *)
Definition round_down_to_tick (price tick : Z) : Z :=
  if tick <=? 1 then price else (price ÷ tick) * tick.
Definition round_up_to_tick (price tick : Z) : Z :=
  if tick <=? 1 then price else ((price + tick - 1) ÷ tick) * tick.

Record QuotePlanner := mkQuotePlanner { default_tick_size_ : Z; tick_sizes_ : gmap AssetId Z }.
Definition QuotePlanner_new : QuotePlanner := mkQuotePlanner 100 ∅.
Definition plan (intent : ExecutionIntent) : list ExecutionIntent := batch_add [] intent.
Definition planner_set_tick_size (tok : AssetId) (tick : Z) (p : QuotePlanner) : QuotePlanner :=
  p <| tick_sizes_ ::= <[tok := tick]> |>.
Definition tick_size_for (p : QuotePlanner) (tok : AssetId) : Z :=
  default (default_tick_size_ p) (tick_sizes_ p !! tok).
Definition set_default_tick_size (tick : Z) (p : QuotePlanner) : QuotePlanner :=
  p <| default_tick_size_ := tick |>.

(** ** The execution thread's inventory check *)
Record InventoryCheckResult := mkInventoryCheckResult { allowed : bool; available : Z }.
Definition check_inventory_for_intent {I} `{InventoryView I} (intent : ExecIntent)
    (inventory_view : option I) : InventoryCheckResult :=
  let avail := match inventory_view with
               | Some v => position_for v (xi_asset_id intent) | None => 0 end in
  match xi_side intent with
  | ASK => mkInventoryCheckResult (avail >=? xi_size intent) avail
  | BID => mkInventoryCheckResult true avail
  end.

(** ** Limits as an invariant of gated placement *)
Section Limits.
Context {I : Type} `{InventoryView I}.
Variables (inv : I) (reg : MarketPairRegistry).

(** Position plus working orders of a token. *)
Definition projected (t : WorkingOrderTracker) (tok : AssetId) : Z :=
  position_for inv tok + pending_exposure_for_token tok t.

Record within_limits (c : RiskConfig) (t : WorkingOrderTracker) : Prop := {
  wl_position : forall tok, Z.abs (projected t tok) <= max_position_per_token c;
  wl_exposure : forall m p, find_by_condition reg m = Some p ->
    Z.abs (projected t (token_id_up p)) + Z.abs (projected t (token_id_down p))
      <= max_net_exposure_per_market c;
  wl_notional : total_working_notional t <= max_notional c }.

(** One strategy intent: evaluated, and tracked when allowed. *)
Definition gate_step (st : RiskGate * WorkingOrderTracker) (intent : ExecutionIntent)
    : RiskGate * WorkingOrderTracker :=
  let '(g, t) := st in
  let '(g, r) := evaluate (Some inv) (Some t) (Some reg) intent g in
  match decision r with
  | ALLOW => (g, (on_intent_sent intent t).1)
  | DENY => (g, t)
  end.

(** A placement names a registered token together with its market. *)
Definition consistent (intent : ExecutionIntent) : Prop :=
  condition_for_token reg (ei_asset_id intent) = Some (ei_market_id intent) /\
  ei_market_id intent <> ""%string.

Lemma impact_sign intent :
  is_placement (ei_action intent) = true -> signed_remaining (new_order intent) = impact intent.
Proof.
  unfold signed_remaining, remaining, impact, new_order. destruct (ei_action intent); simpl; try done; lia.
Qed.

Lemma place_exposure intent t t' tok :
  is_placement (ei_action intent) = true -> on_intent_sent intent t = (t', true) -> tracker_inv t ->
  projected t' tok = projected t tok + (if id_eqb (ei_asset_id intent) tok then impact intent else 0).
Proof.
  intros Hp Hs Ht. unfold projected, pending_exposure_for_token.
  rewrite (place_sum _ intent t t' Hp Hs Ht). cbn [new_order wo_asset_id].
  rewrite <- (impact_sign intent Hp). destruct (id_eqb _ _); lia.
Qed.

(** What an ALLOW of a placement means. *)
Lemma evaluate_allow intent g g' r t :
  is_placement (ei_action intent) = true ->
  evaluate (Some inv) (Some t) (Some reg) intent g = (g', r) -> decision r = ALLOW ->
  Z.abs (projected t (ei_asset_id intent) + impact intent) <= max_position_per_token (config_ g) /\
  exposure_violation (Some inv) (Some t) (Some reg) (config_ g) intent = false /\
  total_working_notional t + ei_price intent * ei_qty intent <= max_notional (config_ g).
Proof.
  intros Hp He Hr.
  assert (position_violation (Some inv) (Some t) (config_ g) intent = false /\
          exposure_violation (Some inv) (Some t) (Some reg) (config_ g) intent = false /\
          notional_violation (Some t) (config_ g) intent = false) as (E1 & E2 & E3).
  { unfold evaluate in He. cbn [config_ set] in He.
    destruct (ei_action intent); try done;
      (destruct (position_violation _ _ _ _); [by injection He as <- <-|];
       destruct (exposure_violation _ _ _ _ _); [by injection He as <- <-|];
       by destruct (notional_violation _ _ _); [injection He as <- <-|]). }
  unfold position_violation, notional_violation in *. bool_to_prop. unfold projected. simpl in *.
  split; [lia|]. split; [done|lia].
Qed.

Lemma evaluate_config oi ot om intent g : config_ (evaluate (I:=I) oi ot om intent g).1 = config_ g.
Proof.
  assert (forall r g, config_ (deny r g).1 = config_ g) as Hd.
  { intros r g0. unfold deny. by destruct (cancel_all_on_violation _). }
  unfold evaluate. destruct (ei_action intent); try done;
    (destruct (position_violation _ _ _ _); [by rewrite Hd|];
     destruct (exposure_violation _ _ _ _ _); [by rewrite Hd|];
     by destruct (notional_violation _ _ _); [rewrite Hd|]).
Qed.

Lemma allowed_exposure c intent t m p tok_impact :
  exposure_violation (Some inv) (Some t) (Some reg) c intent = false ->
  nonempty (ei_market_id intent) = true -> ei_market_id intent = m ->
  find_by_condition reg m = Some p -> token_id_up p <> token_id_down p ->
  (forall tok, tok_impact tok = projected t tok +
     (if id_eqb (ei_asset_id intent) tok then impact intent else 0)) ->
  Z.abs (tok_impact (token_id_up p)) + Z.abs (tok_impact (token_id_down p))
    <= max_net_exposure_per_market c.
Proof.
  intros Hv Hne <- Hp Hud Htok. unfold exposure_violation in Hv. rewrite Hne, Hp in Hv.
  rewrite !Htok. unfold projected. simpl in Hv.
  destruct (id_eqb (ei_asset_id intent) (token_id_up p)) eqn:Eu.
  - apply id_eqb_true in Eu. rewrite (proj2 (id_eqb_false _ _)) by congruence. bool_to_prop. lia.
  - destruct (id_eqb (ei_asset_id intent) (token_id_down p)); bool_to_prop; lia.
Qed.

Lemma place_within_limits c intent t t' :
  tracker_inv t -> registry_inv reg -> consistent intent -> within_limits c t ->
  is_placement (ei_action intent) = true -> on_intent_sent intent t = (t', true) ->
  Z.abs (projected t (ei_asset_id intent) + impact intent) <= max_position_per_token c ->
  exposure_violation (Some inv) (Some t) (Some reg) c intent = false ->
  total_working_notional t + ei_price intent * ei_qty intent <= max_notional c ->
  within_limits c t'.
Proof.
  intros Ht Hreg [Hcond Hm] [Hpos Hexp Hnot] Hp Hs Hp1 Hv Hn1.
  pose proof (fun tok => place_exposure intent t t' tok Hp Hs Ht) as Htok. split.
  - intros tok. rewrite Htok. destruct (id_eqb (ei_asset_id intent) tok) eqn:E.
    + apply id_eqb_true in E as <-. done.
    + specialize (Hpos tok). lia.
  - intros m p Hm'. destruct (ri_pair _ Hreg m p Hm') as (_ & Hud & Hcu & Hcd & _).
    destruct (decide (ei_market_id intent = m)) as [Heq|Hne].
    + apply (allowed_exposure c intent t m p); try done. by apply nonempty_true.
    + assert (forall tok, condition_by_token_ reg !! tok = Some m -> projected t' tok = projected t tok) as Hsame.
      { intros tok Htc. rewrite Htok. destruct (id_eqb (ei_asset_id intent) tok) eqn:E; [|lia].
        apply id_eqb_true in E as <-. unfold condition_for_token in Hcond. congruence. }
      rewrite !Hsame by done. by apply (Hexp m).
  - unfold total_working_notional in *. rewrite (place_sum _ intent t t' Hp Hs Ht).
    cbn [new_order wo_price]. change (remaining (new_order intent)) with (ei_qty intent - 0). lia.
Qed.

Lemma gate_step_limits g t intent :
  tracker_inv t -> registry_inv reg -> consistent intent -> within_limits (config_ g) t ->
  let '(g', t') := gate_step (g, t) intent in
  config_ g' = config_ g /\ tracker_inv t' /\ within_limits (config_ g') t'.
Proof.
  intros Ht Hreg Hc Hl. unfold gate_step.
  pose proof (evaluate_config (Some inv) (Some t) (Some reg) intent g) as Hcfg.
  destruct (evaluate _ _ _ intent g) as [g' r] eqn:He. simpl in Hcfg.
  destruct (decision r) eqn:Hd; [|by rewrite Hcfg].
  rewrite Hcfg. split; [done|]. split; [by apply on_intent_sent_inv|].
  destruct (is_placement (ei_action intent)) eqn:Hp.
  - destruct (on_intent_sent intent t) as [t' ok] eqn:Hs. simpl. destruct ok.
    + destruct (evaluate_allow intent g g' r t Hp He Hd) as (H1 & H2 & H3).
      by apply (place_within_limits (config_ g) intent t t').
    + unfold on_intent_sent in Hs. rewrite Hp in Hs. simpl in Hs.
      destruct (find_free_slot t); by simplify_eq.
  - unfold on_intent_sent. by rewrite Hp.
Qed.

Lemma gate_run_limits intents g t :
  tracker_inv t -> registry_inv reg -> Forall consistent intents -> within_limits (config_ g) t ->
  let '(g', t') := foldl gate_step (g, t) intents in
  config_ g' = config_ g /\ tracker_inv t' /\ within_limits (config_ g) t'.
Proof.
  intros Ht Hreg Hc. revert g t Ht. induction Hc as [|i intents Hi Hc IH]; intros g t Ht Hl; [done|].
  cbn [foldl]. pose proof (gate_step_limits g t i Ht Hreg Hi Hl) as Hs.
  destruct (gate_step (g, t) i) as [g1 t1]. destruct Hs as (Hcfg & Ht1 & Hl1).
  pose proof (IH g1 t1 Ht1 Hl1) as Hrest.
  destruct (foldl gate_step (g1, t1) intents) as [g2 t2].
  destruct Hrest as (E & ? & ?). rewrite Hcfg in *. auto.
Qed.
(** *** The sums fit their machine integers *)

(** Sizes at which nothing overflows: quantities up to [2^40], prices up to [2^14] (the
    ladder ends at 10000), positions up to [2^61]. *)
Definition small_order (o : WorkingOrder) : Prop := Z.abs (remaining o) <= 2 ^ 40 /\ Z.abs (wo_price o) <= 2 ^ 14.
Definition small_intent (i : ExecutionIntent) : Prop := Z.abs (ei_qty i) <= 2 ^ 40 /\ Z.abs (ei_price i) <= 2 ^ 14.
Definition machine_sized (t : WorkingOrderTracker) : Prop :=
  Forall small_order t /\ forall tok, Z.abs (position_for inv tok) <= 2 ^ 61.

(** Every 64-bit value the evaluation of a placement computes: the partial sums of the
    tracker's loops, the projected positions, their magnitudes and sum, and the notional. *)
Definition token_terms (t : WorkingOrderTracker) (intent : ExecutionIntent) (tok : AssetId) : list Z :=
  ((fun k => pending_exposure_for_token tok (take k t)) <$> seq 0 (S kMaxWorking)) ++
  [position_for inv tok; projected t tok; projected t tok + impact intent; Z.abs (projected t tok + impact intent); Z.abs (projected t tok)].
Definition gate_terms (t : WorkingOrderTracker) (intent : ExecutionIntent) : list Z :=
  [impact intent; ei_price intent * ei_qty intent; total_working_notional t + ei_price intent * ei_qty intent] ++
  ((fun k => total_working_notional (take k t)) <$> seq 0 (S kMaxWorking)) ++
  token_terms t intent (ei_asset_id intent) ++
  match find_by_condition reg (ei_market_id intent) with
  | None => []
  | Some mp =>
      let up := projected t (token_id_up mp) in
      let down := projected t (token_id_down mp) in
      token_terms t intent (token_id_up mp) ++ token_terms t intent (token_id_down mp) ++
      [Z.abs up + Z.abs down; Z.abs (up + impact intent) + Z.abs down; Z.abs up + Z.abs (down + impact intent)]
  end.

Lemma sum_active_small f b t : 0 <= b -> (forall o, o ∈ t -> Z.abs (f o) <= b) -> Z.abs (sum_active f t) <= b * Z.of_nat (length t).
Proof.
  intros Hb Hf. unfold sum_active. pose proof (sum_list_Z_bounds (fun o => if active o then f o else 0) t (- b) b) as Hs.
  destruct Hs; [|lia]. intros o Ho. specialize (Hf o Ho). destruct (active o); lia.
Qed.
Lemma pending_small t k tok : machine_sized t -> length t = kMaxWorking -> Z.abs (pending_exposure_for_token tok (take k t)) <= 2 ^ 48.
Proof.
  intros [Ho _] Hl. assert (length (take k t) <= 256)%nat as Hk by (rewrite length_take, Hl; unfold kMaxWorking; lia).
  assert (Z.abs (pending_exposure_for_token tok (take k t)) <= 2 ^ 40 * Z.of_nat (length (take k t))) as Hs; [|lia].
  apply sum_active_small; [lia|]. intros o Hin. rewrite Forall_forall in Ho. apply elem_of_take in Hin as (? & Hin%list_elem_of_lookup_2 & _). destruct (Ho o Hin) as [Hr _].
  unfold signed_remaining. destruct (id_eqb _ _); [|lia]. destruct (wo_side o); lia.
Qed.
Lemma notional_small t k : machine_sized t -> length t = kMaxWorking -> Z.abs (total_working_notional (take k t)) <= 2 ^ 62.
Proof.
  intros [Ho _] Hl. assert (length (take k t) <= 256)%nat as Hk by (rewrite length_take, Hl; unfold kMaxWorking; lia).
  assert (Z.abs (total_working_notional (take k t)) <= 2 ^ 54 * Z.of_nat (length (take k t))) as Hs; [|lia].
  apply sum_active_small; [lia|]. intros o Hin. rewrite Forall_forall in Ho. apply elem_of_take in Hin as (? & Hin%list_elem_of_lookup_2 & _). destruct (Ho o Hin) as [Hr Hp]. rewrite Z.abs_mul. nia.
Qed.
Lemma fits_abs z : Z.abs z < 2 ^ 63 -> fits_i64 z = true.
Proof. unfold fits_i64, INT64_MIN, INT64_MAX. intros. apply andb_true_intro. split; apply Z.leb_le; lia. Qed.
Lemma gate_terms_fit t intent : tracker_inv t -> machine_sized t -> small_intent intent -> Forall (fun z => fits_i64 z = true) (gate_terms t intent).
Proof.
  intros [Hl _] Hm [Hq Hp]. assert (Z.abs (impact intent) <= 2 ^ 40) as Hi by (unfold impact; case_match; lia).
  assert (Z.abs (ei_price intent * ei_qty intent) <= 2 ^ 54) as Hn by (rewrite Z.abs_mul; nia).
  assert (forall tok, Z.abs (projected t tok) <= 2 ^ 61 + 2 ^ 48) as Hj.
  { intros tok. unfold projected. pose proof (pending_small t (length t) tok Hm Hl) as Hk. rewrite take_ge in Hk by lia. pose proof (proj2 Hm tok). lia. }
  assert (forall tok, Forall (fun z => fits_i64 z = true) (token_terms t intent tok)) as Ht.
  { intros tok. apply Forall_app. split; [apply Forall_fmap, Forall_true; intros k; apply fits_abs; pose proof (pending_small t k tok Hm Hl); lia|].
    pose proof (Hj tok). pose proof (proj2 Hm tok). repeat constructor; apply fits_abs; lia. }
  pose proof (notional_small t (length t) Hm Hl) as Hw. rewrite take_ge in Hw by lia.
  apply Forall_app. split; [repeat constructor; apply fits_abs; lia|]. apply Forall_app. split.
  { apply Forall_fmap, Forall_true. intros k. apply fits_abs. pose proof (notional_small t k Hm Hl). lia. }
  apply Forall_app. split; [done|]. destruct (find_by_condition _ _) as [mp|]; [|constructor]. rewrite !Forall_app. split; [done|]. split; [done|].
  pose proof (Hj (token_id_up mp)). pose proof (Hj (token_id_down mp)). repeat constructor; apply fits_abs; lia.
Qed.
Lemma gate_step_sized g t intent : machine_sized t -> small_intent intent -> machine_sized (gate_step (g, t) intent).2.
Proof.
  intros [Ho Hp] [Hq Hpr]. unfold gate_step. destruct (evaluate _ _ _ _ _) as [g' r]. destruct (decision r); [|by split]. cbn [snd].
  unfold on_intent_sent. destruct (negb _); [by split|]. destruct (find_free_slot t) as [i|]; [|by split]. split; [|done]. cbn [fst].
  apply Forall_insert; [done|]. unfold small_order, new_order, remaining. cbn. lia.
Qed.
Lemma gate_run_sized intents g t : machine_sized t -> Forall small_intent intents -> machine_sized (foldl gate_step (g, t) intents).2.
Proof.
  revert g t. induction intents as [|i l IH]; intros g t Hm Hs; [done|]. apply Forall_cons in Hs as [Hi Hs]. cbn [foldl].
  pose proof (gate_step_sized g t i Hm Hi) as Hm'. destruct (gate_step (g, t) i) as [g' t']. by apply IH.
Qed.
End Limits.

(** C2: The limits hold for every sequence of intents that name a registered token with
    its own, non-empty market: starting from orders within the limits, with positions that
    do not change meanwhile, when the intents are passed through the gate and tracked when
    allowed, position plus working orders of every token, the summed absolute exposure of
    every market and the total working notional stay within the configured limits.  And
    where quantities are at most [2^40], prices at most [2^14] and positions at most
    [2^61], no 64-bit sum, product or magnitude of any of these evaluations overflows. *)
Theorem risk_limits_hold {I} `{InventoryView I} (inv : I) (ps : list MarketPair) (c : RiskConfig)
    (ops : list tracker_op) (intents : list ExecutionIntent)
    (Hc : Forall (consistent (add_pairs ps MarketPairRegistry_new)) intents)
    (Hl : within_limits inv (add_pairs ps MarketPairRegistry_new) c
            (foldl tracker_step WorkingOrderTracker_new ops)) :
  let reg := add_pairs ps MarketPairRegistry_new in
  let start := (RiskGate_new c, foldl tracker_step WorkingOrderTracker_new ops) in
  within_limits inv reg c (foldl (gate_step inv reg) start intents).2 /\
  (machine_sized inv start.2 -> Forall small_intent intents ->
   forall before intent after, intents = before ++ intent :: after ->
   Forall (fun z => fits_i64 z = true) (gate_terms inv reg (foldl (gate_step inv reg) start before).2 intent)).
Proof.
  cbv zeta. set (reg := add_pairs ps MarketPairRegistry_new). set (t := foldl tracker_step WorkingOrderTracker_new ops).
  assert (tracker_inv t) as Ht by apply tracker_run_inv, tracker_new_inv. assert (registry_inv reg) as Hr by apply add_pairs_inv, registry_new_inv.
  pose proof (fun l Hcl => gate_run_limits inv reg l (RiskGate_new c) t Ht Hr Hcl Hl) as Hrun. split.
  - specialize (Hrun intents Hc). destruct (foldl _ _ intents). apply Hrun.
  - intros Hm Hs before intent after ->. apply Forall_app in Hc as [Hc _]. apply Forall_app in Hs as [Hs Hi]. apply Forall_cons in Hi as [Hi _].
    specialize (Hrun before Hc). pose proof (gate_run_sized inv reg before (RiskGate_new c) t Hm Hs) as Hz.
    destruct (foldl _ _ before) as [g' t']. apply gate_terms_fit; [apply Hrun|exact Hz|exact Hi].
Qed.

Section RiskExample.
Local Open Scope string_scope.
Definition sample_pairs : list MarketPair := [mkMarketPair "m" "u" "d" false 0].
Definition sample_config : RiskConfig := mkRiskConfig 50 50 500000 100000 false.
Definition sample_bid (q : Z) : ExecutionIntent :=
  ExecutionIntent_default <| ei_asset_id := "u" |> <| ei_market_id := "m" |>
    <| ei_price := 5000 |> <| ei_qty := q |>.

Lemma empty_tracker_sums f : sum_active f WorkingOrderTracker_new = 0.
Proof.
  unfold sum_active, WorkingOrderTracker_new. generalize kMaxWorking. intros n.
  induction n as [|n IH]; [done|]. simpl. exact IH.
Qed.

Lemma sample_within_limits :
  within_limits TokenInventory_new (add_pairs sample_pairs MarketPairRegistry_new) sample_config
    WorkingOrderTracker_new.
Proof.
  assert (forall tok, projected TokenInventory_new WorkingOrderTracker_new tok = 0) as Hz.
  { intros tok. unfold projected, pending_exposure_for_token. rewrite empty_tracker_sums. simpl.
    by rewrite lookup_empty. }
  split.
  - intros tok. rewrite Hz. simpl. lia.
  - intros m p _. rewrite !Hz. simpl. lia.
  - unfold total_working_notional. rewrite empty_tracker_sums. simpl. lia.
Qed.

Lemma risk_limits_hold_witness :
  Forall (consistent (add_pairs sample_pairs MarketPairRegistry_new)) [sample_bid 40; sample_bid 40] /\
  total_working_notional (foldl (gate_step TokenInventory_new (add_pairs sample_pairs MarketPairRegistry_new))
    (RiskGate_new sample_config, WorkingOrderTracker_new) [sample_bid 40; sample_bid 40]).2 <= 500000.
Proof.
  assert (Forall (consistent (add_pairs sample_pairs MarketPairRegistry_new)) [sample_bid 40; sample_bid 40]) as Hc.
  { repeat constructor; done. }
  split; [exact Hc|].
  exact (wl_notional _ _ _ _
    (proj1 (risk_limits_hold TokenInventory_new sample_pairs sample_config [] _ Hc sample_within_limits))).
Defined.
(** Offsetting orders hide exposure: the gate nets the working bids and asks of
    a token, so that it lets two bids of the full limit through with an ask
    between them; when the ask is cancelled, twice the limit is working. *)
Lemma offsetting_orders_hide_exposure :
  let order action id := (sample_bid 50) <| ei_action := action |> <| ei_client_order_id := id |> in
  let intents := [order IntentAction.WOULD_PLACE_BID "b1"; order IntentAction.WOULD_PLACE_ASK "a";
                  order IntentAction.WOULD_PLACE_BID "b2"] in
  let c := sample_config <| max_notional := 1000000 |> in
  let t := (foldl (gate_step TokenInventory_new (add_pairs sample_pairs MarketPairRegistry_new))
              (RiskGate_new c, WorkingOrderTracker_new) intents).2 in
  let canceled := SchedulerEvent_default <| source := EventSource.EXEC_INTERNAL |>
                    <| exec_feedback_kind := ExecFeedbackKind.CANCEL_CONFIRMED |>
                    <| client_order_id := "a" |> in
  working_count t = 3 /\ pending_exposure_for_token "u" t = 50 /\
  pending_exposure_for_token "u" (on_exec_feedback canceled t) = 100 /\ max_position_per_token c = 50.
Proof. vm_compute. split_and!; reflexivity. Qed.
End RiskExample.

(** The outcome of an evaluation, with any of the three data sources
    missing: exactly one decision is counted, the reason is absent exactly when
    the intent is allowed, every cancel is allowed, a violation raises the
    cancel-all flag exactly when configured (and nothing else touches it), and
    without data sources everything is allowed. *)
Theorem risk_decision {I} `{InventoryView I} (oi : option I) ot om (intent : ExecutionIntent) (g : RiskGate) :
  let '(g', r) := evaluate oi ot om intent g in
  check_count_ g' = check_count_ g + 1 /\
  allow_count_ g' = allow_count_ g + (if decide (decision r = ALLOW) then 1 else 0) /\
  deny_count_ g' = deny_count_ g + (if decide (decision r = DENY) then 1 else 0) /\
  (reason r = RiskDenyReason.NONE <-> decision r = ALLOW) /\
  (is_placement (ei_action intent) = false -> decision r = ALLOW) /\
  pending_cancel_all_ g' = pending_cancel_all_ g ||
    (bool_decide (decision r = DENY) && cancel_all_on_violation (config_ g)) /\
  (oi = None -> ot = None -> decision r = ALLOW).
Proof.
  assert (forall g, let '(g', r) := allow (g <| check_count_ ::= Z.succ |>) in
    check_count_ g' = check_count_ g + 1 /\ allow_count_ g' = allow_count_ g + 1 /\
    deny_count_ g' = deny_count_ g + 0 /\ pending_cancel_all_ g' = pending_cancel_all_ g || false /\
    decision r = ALLOW /\ reason r = RiskDenyReason.NONE) as Hallow.
  { intros g0. simpl. rewrite orb_false_r. split_and!; (done || lia). }
  assert (forall k g, let '(g', r) := deny k (g <| check_count_ ::= Z.succ |>) in
    check_count_ g' = check_count_ g + 1 /\ allow_count_ g' = allow_count_ g + 0 /\
    deny_count_ g' = deny_count_ g + 1 /\
    pending_cancel_all_ g' = pending_cancel_all_ g || cancel_all_on_violation (config_ g) /\
    decision r = DENY /\ reason r = k) as Hdeny.
  { intros k g0. unfold deny. simpl. destruct (cancel_all_on_violation (config_ g0)); simpl;
      rewrite ?orb_true_r, ?orb_false_r; split_and!; (done || lia). }
  unfold evaluate. cbn [config_ set].
  destruct (ei_action intent) eqn:Ea; cbn [is_placement];
  repeat match goal with |- context [if ?v then _ else _] =>
    lazymatch v with
    | position_violation _ _ _ _ => destruct v eqn:Ep
    | exposure_violation _ _ _ _ _ => destruct v eqn:Ex
    | notional_violation _ _ _ => destruct v eqn:En
    end end;
  match goal with
  | |- context [allow ?x] => specialize (Hallow g); destruct (allow x) as [g' [d k']]
  | |- context [deny ?k ?x] => specialize (Hdeny k g); destruct (deny k x) as [g' [d k']]
  end; simpl in *; destruct_and?; subst; simpl; split_and!; try (done || naive_solver);
  intros -> ->; by simplify_eq/=.
Qed.

(** Tick rounding brackets the price. *)
Lemma tick_rounding_brackets price tick :
  0 <= price -> 1 <= tick ->
  round_down_to_tick price tick <= price <= round_up_to_tick price tick /\
  price - round_down_to_tick price tick < tick /\ round_up_to_tick price tick - price < tick.
Proof.
  intros Hp Ht. unfold round_down_to_tick, round_up_to_tick.
  destruct (Z.leb_spec tick 1); [lia|].
  pose proof (quot_mul_le price tick Hp ltac:(lia)). pose proof (quot_mul_gt price tick Hp ltac:(lia)).
  pose proof (quot_mul_le (price + tick - 1) tick ltac:(lia) ltac:(lia)).
  pose proof (quot_mul_gt (price + tick - 1) tick ltac:(lia) ltac:(lia)). lia.
Qed.
