(* ===== verification/RateLimiter.v ===== *)
(** The request limiter of the execution gateway ([src/exec/rate_limiter.cpp]):
    four sliding windows of ten one-second buckets (all requests, orders,
    cancels, heartbeats), the back-off ladders for the responses 429, 425 and
    503, and the latency signal; and the heartbeat schedule
    ([src/exec/heartbeat_manager.cpp]).

    Shown: in every stretch of nine seconds at most the configured number of
    requests of each group is granted, whatever is asked; a ten-second stretch
    can exceed it.  Backing off: the ladder doubles up to its cap, a refusal
    period is at most a quarter away from the ladder's value, nothing is granted
    during it.  The random jitter is a parameter with the range that the
    standard library's uniform distribution documents. *)
From Stdlib Require Import Sorting.Sorted.
From S2P Require Import Prelude Types Events.

(** ** Sliding windows *)
Definition kNumBuckets : Z := 10.
Definition kBucketMs : Z := 1000.

Record SlidingWindow := mkSlidingWindow {
  limit_per_10s : Z;
  buckets : list Z;
  current_bucket : Z;
  last_slide_ts : Z }.

Definition SlidingWindow_new (limit : Z) : SlidingWindow :=
  mkSlidingWindow limit (replicate (Z.to_nat kNumBuckets) 0) 0 0.

(** The milliseconds of a nanosecond time stamp. *)
Definition ms (t : Z) : Z := t ÷ 1000000.

(** One turn of the loop that clears the expired buckets. *)
Definition advance (w : SlidingWindow) : SlidingWindow :=
  let c := Z.rem (current_bucket w + 1) kNumBuckets in
  w <| current_bucket := c |> <| buckets ::= fun l => array_set l c 0 |>.

Definition slide (now : Z) (w : SlidingWindow) : SlidingWindow :=
  if last_slide_ts w =? 0 then w <| last_slide_ts := now |> else
  let elapsed_ms := ms now - ms (last_slide_ts w) in
  if elapsed_ms <=? 0 then w else
  let n := wrap_i32 (elapsed_ms ÷ kBucketMs) in
  if n <=? 0 then w else
  let w := if n >=? kNumBuckets
           then w <| buckets := replicate (Z.to_nat kNumBuckets) 0 |> <| current_bucket := 0 |>
           else Nat.iter (Z.to_nat n) advance w in
  w <| last_slide_ts := now |>.

Definition total (w : SlidingWindow) : Z := sum_list_Z id (buckets w).

Definition try_consume (now : Z) (w : SlidingWindow) : SlidingWindow * bool :=
  let w := slide now w in
  if total w >=? limit_per_10s w then (w, false)
  else (w <| buckets ::= fun l =>
               array_set l (current_bucket w) (array_get l (current_bucket w) + 1) |>, true).

(** ** The limiter *)
Record RateLimitConfig := mkRateLimitConfig {
  global_tokens_per_10s : Z;
  order_tokens_per_10s : Z;
  cancel_tokens_per_10s : Z;
  heartbeat_tokens_per_10s : Z;
  backoff_base_ms : Z;
  backoff_max_ms : Z;
  max_consecutive_429s : Z }.

Definition RateLimitConfig_default : RateLimitConfig :=
  mkRateLimitConfig 9000 3500 3000 200 500 30000 5.

Record RateLimiter := mkRateLimiter {
  rl_config_ : RateLimitConfig;
  global_window_ : SlidingWindow;
  order_window_ : SlidingWindow;
  cancel_window_ : SlidingWindow;
  heartbeat_window_ : SlidingWindow;
  consecutive_429s_ : Z;
  exchange_unavailable_ : bool;
  backoff_until_ : Z;
  current_backoff_ms_ : Z;
  consecutive_425s_ : Z;
  current_425_backoff_ms_ : Z;
  rtt_ema_ns_ : Z;
  rtt_baseline_ns_ : Z;
  rtt_count_ : Z;
  throttled_count_ : Z;
  backoff_count_ : Z }.

Definition k425BackoffBaseMs : Z := 1500.
Definition k425MaxConsecutive : Z := 10.

Definition RateLimiter_new (c : RateLimitConfig) : RateLimiter :=
  mkRateLimiter c (SlidingWindow_new (global_tokens_per_10s c)) (SlidingWindow_new (order_tokens_per_10s c))
    (SlidingWindow_new (cancel_tokens_per_10s c)) (SlidingWindow_new (heartbeat_tokens_per_10s c))
    0 false 0 (backoff_base_ms c) 0 k425BackoffBaseMs 0 0 0 0 0.

(** The group of a request, which selects its window. *)
Inductive Group := ORDERS | CANCELS | HEARTBEATS.
#[export] Instance Group_eq_dec : EqDecision Group.
Proof. solve_decision. Defined.

Definition group_of (type : ExecIntentType) : Group :=
  match type with
  | ExecIntentType.PLACE_ORDER | ExecIntentType.REPLACE_ORDER => ORDERS
  | ExecIntentType.CANCEL_ORDER | ExecIntentType.CANCEL_ALL => CANCELS
  | ExecIntentType.HEARTBEAT => HEARTBEATS
  end.

Definition window_for (type : ExecIntentType) (r : RateLimiter) : SlidingWindow :=
  match group_of type with
  | ORDERS => order_window_ r
  | CANCELS => cancel_window_ r
  | HEARTBEATS => heartbeat_window_ r
  end.

Definition set_window (type : ExecIntentType) (w : SlidingWindow) (r : RateLimiter) : RateLimiter :=
  match group_of type with
  | ORDERS => r <| order_window_ := w |>
  | CANCELS => r <| cancel_window_ := w |>
  | HEARTBEATS => r <| heartbeat_window_ := w |>
  end.

Definition throttle (r : RateLimiter) : RateLimiter * bool :=
  (r <| throttled_count_ ::= Z.succ |>, false).

Definition try_acquire (type : ExecIntentType) (now : Z) (r : RateLimiter) : RateLimiter * bool :=
  if now <? backoff_until_ r then throttle r else
  if exchange_unavailable_ r && negb (bool_decide (type = ExecIntentType.CANCEL_ORDER)) &&
     negb (bool_decide (type = ExecIntentType.CANCEL_ALL)) &&
     negb (bool_decide (type = ExecIntentType.HEARTBEAT)) then throttle r else
  let '(g, ok) := try_consume now (global_window_ r) in
  let r := r <| global_window_ := g |> in
  if negb ok then throttle r else
  let '(w, ok) := try_consume now (window_for type r) in
  let r := set_window type w r in
  if negb ok then throttle r else (r, true).

Definition next_allowed (type : ExecIntentType) (now : Z) (r : RateLimiter) : Z :=
  if now <? backoff_until_ r then backoff_until_ r else now + kBucketMs * 1000000.

Definition is_degraded (r : RateLimiter) : bool :=
  let response_degraded := consecutive_429s_ r >=? max_consecutive_429s (rl_config_ r) in
  let latency_degraded :=
    if (rtt_count_ r >=? 20) && (rtt_baseline_ns_ r >? 0)
    then rtt_ema_ns_ r >? rtt_baseline_ns_ r * 3 else false in
  response_degraded || latency_degraded.

Definition is_matching_engine_down (r : RateLimiter) : bool := consecutive_425s_ r >=? k425MaxConsecutive.

(** [draw] is one draw of the uniform distribution on [- range, range]. *)
Definition apply_jitter (draw : Z -> Z) (base_ms : Z) : Z :=
  let jitter_range := base_ms ÷ 4 in
  if jitter_range <=? 0 then base_ms else Z.max 1 (base_ms + draw jitter_range).

Definition record_response (draw : Z -> Z) (http_status now : Z) (r : RateLimiter) : RateLimiter :=
  if http_status =? 429 then
    let jittered_ms := apply_jitter draw (current_backoff_ms_ r) in
    r <| consecutive_429s_ ::= Z.succ |> <| backoff_count_ ::= Z.succ |>
      <| backoff_until_ := now + jittered_ms * 1000000 |>
      <| current_backoff_ms_ := Z.min (current_backoff_ms_ r * 2) (backoff_max_ms (rl_config_ r)) |>
  else if http_status =? 425 then
    let jittered_ms := apply_jitter draw (current_425_backoff_ms_ r) in
    r <| consecutive_425s_ ::= Z.succ |> <| backoff_count_ ::= Z.succ |>
      <| backoff_until_ ::= fun b => Z.max b (now + jittered_ms * 1000000) |>
      <| current_425_backoff_ms_ := Z.min (current_425_backoff_ms_ r * 2) (backoff_max_ms (rl_config_ r)) |>
  else if http_status =? 503 then
    let jittered_ms := apply_jitter draw (backoff_base_ms (rl_config_ r)) in
    r <| exchange_unavailable_ := true |> <| backoff_count_ ::= Z.succ |>
      <| backoff_until_ := now + jittered_ms * 1000000 |>
  else if (http_status >=? 200) && (http_status <? 300) then
    r <| consecutive_429s_ := 0 |> <| exchange_unavailable_ := false |>
      <| current_backoff_ms_ := backoff_base_ms (rl_config_ r) |>
      <| consecutive_425s_ := 0 |> <| current_425_backoff_ms_ := k425BackoffBaseMs |>
  else r.

Definition record_rtt (rtt_ns : Z) (r : RateLimiter) : RateLimiter :=
  let r := r <| rtt_count_ ::= Z.succ |> in
  if rtt_count_ r <=? 10 then
    let b := (rtt_baseline_ns_ r * (rtt_count_ r - 1) + rtt_ns) ÷ rtt_count_ r in
    r <| rtt_baseline_ns_ := b |> <| rtt_ema_ns_ := b |>
  else r <| rtt_ema_ns_ := (rtt_ema_ns_ r * 9 + rtt_ns) ÷ 10 |>.

Definition reset_backoff (r : RateLimiter) : RateLimiter :=
  r <| consecutive_429s_ := 0 |> <| exchange_unavailable_ := false |> <| backoff_until_ := 0 |>
    <| current_backoff_ms_ := backoff_base_ms (rl_config_ r) |>
    <| consecutive_425s_ := 0 |> <| current_425_backoff_ms_ := k425BackoffBaseMs |>.

(** ** Heartbeats *)
Record HeartbeatConfig := mkHeartbeatConfig {
  interval_ms : Z;
  max_consecutive_failures : Z;
  cancel_all_on_failure : bool }.

Record HeartbeatManager := mkHeartbeatManager {
  hb_config_ : HeartbeatConfig;
  last_sent_ts_ : Z;
  last_success_ts_ : Z;
  current_id_ : string;
  consecutive_failures_ : Z;
  success_count_ : Z;
  failure_count_ : Z }.

Definition HeartbeatManager_new (c : HeartbeatConfig) : HeartbeatManager :=
  mkHeartbeatManager c 0 0 ""%string 0 0 0.

Definition is_due (now : Z) (h : HeartbeatManager) : bool :=
  if interval_ms (hb_config_ h) <=? 0 then false else
  if last_sent_ts_ h =? 0 then true else
  (now - last_sent_ts_ h) ÷ 1000000 >=? interval_ms (hb_config_ h).

Definition on_success (heartbeat_id : string) (now : Z) (h : HeartbeatManager) : HeartbeatManager :=
  h <| current_id_ := heartbeat_id |> <| last_sent_ts_ := now |> <| last_success_ts_ := now |>
    <| consecutive_failures_ := 0 |> <| success_count_ ::= Z.succ |>.

Definition on_failure (now : Z) (h : HeartbeatManager) : HeartbeatManager :=
  h <| last_sent_ts_ := now |> <| consecutive_failures_ ::= Z.succ |> <| failure_count_ ::= Z.succ |>.

Definition should_cancel_all (h : HeartbeatManager) : bool :=
  cancel_all_on_failure (hb_config_ h) &&
  (consecutive_failures_ h >=? max_consecutive_failures (hb_config_ h)).

Definition is_failed (h : HeartbeatManager) : bool :=
  consecutive_failures_ h >=? max_consecutive_failures (hb_config_ h).

(** ** The buckets by age *)

(** The buckets from the current one back to the oldest. *)
Definition recent (w : SlidingWindow) : list Z :=
  (fun j => array_get (buckets w) ((current_bucket w - j) mod 10)) <$> [0;1;2;3;4;5;6;7;8;9].
#[local] Arguments recent : simpl never.

Lemma length_recent w : length (recent w) = 10%nat.
Proof. done. Qed.

Record window_ok (w : SlidingWindow) : Prop := {
  wk_len : length (buckets w) = 10%nat;
  wk_cur : 0 <= current_bucket w < 10 }.

Ltac ten_buckets l H := do 10 (destruct l as [|? l]; [done|]); destruct l; [clear H|done].

Lemma ten_cases c : 0 <= c < 10 ->
  c = 0 \/ c = 1 \/ c = 2 \/ c = 3 \/ c = 4 \/ c = 5 \/ c = 6 \/ c = 7 \/ c = 8 \/ c = 9.
Proof. lia. Qed.

Lemma advance_recent w : window_ok w ->
  window_ok (advance w) /\ recent (advance w) = 0 :: take 9 (recent w).
Proof.
  destruct w as [lim l c ts]. intros [Hl Hc]; simpl in *. ten_buckets l Hl.
  apply ten_cases in Hc. by destruct_or! Hc; subst; (split; [split; [done|by vm_compute]|]).
Qed.

Lemma bump_recent w : window_ok w ->
  let w' := w <| buckets ::= fun l =>
                  array_set l (current_bucket w) (array_get l (current_bucket w) + 1) |> in
  window_ok w' /\ exists b bs, recent w = b :: bs /\ recent w' = b + 1 :: bs.
Proof.
  destruct w as [lim l c ts]. intros [Hl Hc]; simpl in *. ten_buckets l Hl.
  apply ten_cases in Hc. by destruct_or! Hc; subst; (split; [split; [done|simpl; lia]|by do 2 eexists]).
Qed.

Lemma total_recent w : window_ok w -> total w = sum_list_Z id (recent w).
Proof.
  destruct w as [lim l c ts]. intros [Hl Hc]; simpl in Hl, Hc. ten_buckets l Hl.
  apply ten_cases in Hc. unfold total.
  destruct_or! Hc; subst;
    match goal with |- context [recent ?w] => let r := eval vm_compute in (recent w) in change (recent w) with r end;
    unfold id; simpl; lia.
Qed.

Lemma advance_frame n w :
  last_slide_ts (Nat.iter n advance w) = last_slide_ts w /\
  limit_per_10s (Nat.iter n advance w) = limit_per_10s w.
Proof. induction n as [|n [IH1 IH2]]; simpl; [done|]. by rewrite <- IH1, <- IH2. Qed.

Lemma advances_recent n w : window_ok w -> (n <= 10)%nat ->
  window_ok (Nat.iter n advance w) /\
  recent (Nat.iter n advance w) = replicate n 0 ++ take (10 - n) (recent w).
Proof.
  intros Hw. induction n as [|n IH]; intros Hn.
  - split; [done|]. simpl Nat.iter. by rewrite take_ge.
  - destruct IH as [IH1 IH2]; [lia|]. simpl Nat.iter. destruct (advance_recent _ IH1) as [H1 ->].
    split; [done|]. rewrite IH2. change (replicate (S n) 0) with (0 :: replicate n 0).
    rewrite <- app_comm_cons. f_equal.
    rewrite take_app, take_replicate, take_take, length_replicate.
    f_equal; f_equal; lia.
Qed.

(** ** Requests granted *)

(** The number of time stamps of [log] for which [P] holds. *)
Definition hits (P : Z -> bool) (log : list Z) : Z :=
  sum_list_Z (fun t => if P t then 1 else 0) log.

Lemma hits_cons P t log : hits P (t :: log) = (if P t then 1 else 0) + hits P log.
Proof. done. Qed.

Lemma hits_impl P Q log :
  (forall t, t ∈ log -> P t = true -> Q t = true) -> hits P log <= hits Q log.
Proof.
  induction log as [|t log IH]; intros H; [done|]. unfold hits in *; simpl.
  assert (H1 := H t ltac:(left)). specialize (IH ltac:(intros u Hu; apply H; by right)).
  destruct (P t), (Q t); lia || (by specialize (H1 eq_refl)).
Qed.

Lemma hits_none P log : (forall t, t ∈ log -> P t = false) -> hits P log = 0.
Proof.
  intros H. induction log as [|t log IH]; [done|]. unfold hits in *; simpl.
  rewrite H by left. rewrite IH; [done|]. intros u Hu. apply H. by right.
Qed.

Lemma hits_nonneg P log : 0 <= hits P log.
Proof. apply sum_list_Z_nonneg. intros t _. destruct (P t); lia. Qed.

(** [log] holds (newest first) the times granted by the window.  The grants of
    the last [k] bucket lengths before the last slide are held by the [k] most
    recent buckets, and every grant lies less than one bucket length after it. *)
Record window_inv (w : SlidingWindow) (log : list Z) : Prop := {
  wi_ok : window_ok w;
  wi_start : last_slide_ts w = 0 -> log = [];
  wi_pos : 0 <= last_slide_ts w;
  wi_recent : Forall (fun t => ms t < ms (last_slide_ts w) + 1000) log;
  wi_nonneg : Forall (fun b => 0 <= b) (recent w);
  wi_held : forall k, (1 <= k <= 10)%nat ->
    hits (fun t => ms (last_slide_ts w) - 1000 * (Z.of_nat k - 1) <=? ms t) log <=
    sum_list_Z id (take k (recent w)) }.

Lemma recent_new limit : recent (SlidingWindow_new limit) = replicate 10 0.
Proof. done. Qed.

Lemma window_new_inv limit : window_inv (SlidingWindow_new limit) [].
Proof.
  split; try done; rewrite recent_new.
  - by apply Forall_replicate.
  - intros k _. apply sum_list_Z_nonneg. intros x Hx.
    rewrite take_replicate in Hx. apply elem_of_replicate in Hx as [-> _]. done.
Qed.

(** A window that holds a log holds every part of it. *)
Lemma window_inv_drop w t log : window_inv w (t :: log) -> window_inv w log.
Proof.
  intros [H1 H2 H3 H4 H5 H6]. split; try done.
  - intros H. by specialize (H2 H).
  - by apply Forall_cons in H4 as [_ ?].
  - intros k Hk. specialize (H6 k Hk). unfold hits in *; simpl in H6.
    destruct (_ <=? ms t); simpl in H6; lia.
Qed.

(** Time stamps are nanoseconds of a monotonic clock that started less than
    2^31 seconds ago. *)
Definition clock_ok (t : Z) : Prop := 0 < t < 2 ^ 31 * 1000000000.

Lemma ms_mono s t : 0 <= s -> s <= t -> ms s <= ms t.
Proof. intros. unfold ms. apply Z.quot_le_mono; lia. Qed.

Lemma ms_bounds t : clock_ok t -> 0 <= ms t < 2 ^ 31 * 1000.
Proof.
  intros [? ?]. unfold ms. rewrite quot_nonneg_div by lia.
  split; [apply Z.div_pos; lia|apply Z.div_lt_upper_bound; lia].
Qed.

(** The number of buckets a slide clears. *)
Lemma slide_count s now : 0 <= s -> s <= now -> clock_ok now ->
  let e := ms now - ms s in
  wrap_i32 (e ÷ kBucketMs) = e / 1000 /\ 1000 * (e / 1000) <= e < 1000 * (e / 1000) + 1000.
Proof.
  intros Hs Hle Hn e. pose proof (ms_mono s now Hs Hle). pose proof (ms_bounds now Hn).
  assert (0 <= ms s) by (apply (ms_mono 0 s); lia).
  unfold kBucketMs. rewrite quot_nonneg_div by lia.
  pose proof (Z.mod_pos_bound e 1000). pose proof (Z.div_mod e 1000).
  split; [|lia]. apply wrap_i32_small. unfold INT32_MIN, INT32_MAX. lia.
Qed.

Lemma held_nonneg (l : list Z) k : Forall (fun b => 0 <= b) l -> 0 <= sum_list_Z id (take k l).
Proof.
  intros H. apply sum_list_Z_nonneg. intros x Hx. rewrite Forall_forall in H. apply H.
  by apply elem_of_take in Hx as (i & ?%list_elem_of_lookup_2 & _).
Qed.

Lemma sum_zeros n : sum_list_Z id (replicate n 0) = 0.
Proof. induction n as [|n IH]; [done|]. simpl. by rewrite IH. Qed.

(** Clearing [n] buckets and moving the reference time by at least [n] bucket
    lengths. *)
Lemma shift_inv w w' log n now :
  window_inv w log -> window_ok w' -> last_slide_ts w' = now -> 0 < now ->
  (n <= 10)%nat -> recent w' = replicate n 0 ++ take (10 - n) (recent w) ->
  0 < Z.of_nat n -> ms (last_slide_ts w) + 1000 * Z.of_nat n <= ms now -> window_inv w' log.
Proof.
  intros [H1 H2 H3 H4 H5 H6] Hok Hl Hnow Hn10 Hr Hn0 Hms.
  rewrite Forall_forall in H4. split; [done|lia|lia| | |].
  - rewrite Forall_forall, Hl. intros t Ht. specialize (H4 t Ht). simpl in H4. lia.
  - rewrite Hr. apply Forall_app; split; [by apply Forall_replicate|by apply Forall_take].
  - intros k Hk. rewrite Hr, Hl, take_app, length_replicate, take_replicate, sum_list_Z_app, sum_zeros.
    destruct (decide (k <= n)%nat).
    + rewrite hits_none.
      * replace (k - n)%nat with 0%nat by lia. simpl. lia.
      * intros t Ht. specialize (H4 t Ht). simpl in H4. apply Z.leb_gt. lia.
    + rewrite take_take, Nat.min_l by lia. etrans; [|apply (H6 (k - n)%nat); lia].
      apply hits_impl. intros t _ Hle. bool_to_prop. apply Z.leb_le. lia.
Qed.

Lemma slide_inv now w log :
  window_inv w log -> clock_ok now -> last_slide_ts w <= now ->
  let w' := slide now w in
  window_inv w' log /\ ms (last_slide_ts w') <= ms now < ms (last_slide_ts w') + 1000 /\
  0 < last_slide_ts w' <= now /\ limit_per_10s w' = limit_per_10s w.
Proof.
  intros Hinv Hclk Hle. pose proof Hclk as [Hnow _]. unfold slide.
  pose proof (wi_pos _ _ Hinv) as H0.
  destruct (slide_count (last_slide_ts w) now H0 Hle Hclk) as [Hn Hb]. rewrite Hn.
  pose proof (ms_mono _ _ H0 Hle).
  destruct (last_slide_ts w =? 0) eqn:E0; bool_to_prop.
  { destruct Hinv as [H1 H2 H3 H4 H5 H6]. rewrite H2 in * by done.
    repeat split; simpl; try apply H1; try done; lia. }
  destruct (_ - _ <=? 0) eqn:E1; bool_to_prop; [split_and!; done || lia|].
  destruct (_ / 1000 <=? 0) eqn:E2; bool_to_prop; [split_and!; done || lia|].
  set (e := ms now - ms (last_slide_ts w)) in *.
  destruct (_ >=? kNumBuckets) eqn:E3; rewrite Z.geb_leb in E3; unfold kNumBuckets in E3; bool_to_prop.
  - split; [|simpl; lia]. apply (shift_inv w _ _ 10 now); try done; lia.
  - destruct (advances_recent (Z.to_nat (e / 1000)) w (wi_ok _ _ Hinv)) as [Ha Hr]; [lia|].
    destruct (advance_frame (Z.to_nat (e / 1000)) w) as [_ Hlim].
    split; [|simpl; lia].
    apply (shift_inv w _ _ (Z.to_nat (e / 1000)) now);
      [done|by split; apply Ha|done|lia|lia|exact Hr|lia|lia].
Qed.

(** At the moment of a grant, the grants of the last nine seconds are within
    the limit. *)
Definition within_limit (limit : Z) (log : list Z) : Prop :=
  forall t rest, log = t :: rest -> hits (fun u => ms t - 9000 <=? ms u) log <= limit.

Lemma try_consume_inv now w log :
  window_inv w log -> clock_ok now -> last_slide_ts w <= now -> Forall (fun t => t <= now) log ->
  let '(w', ok) := try_consume now w in
  let log' := if ok then now :: log else log in
  window_inv w' log' /\ last_slide_ts w' <= now /\ limit_per_10s w' = limit_per_10s w /\
  (ok = true -> within_limit (limit_per_10s w) log').
Proof.
  intros Hinv Hclk Hle Hlog. destruct (slide_inv now w log Hinv Hclk Hle) as (Hs & Hms & Hl & Hlim).
  unfold try_consume. rewrite Hlim. set (s := slide now w) in *.
  destruct (total s >=? _) eqn:E; rewrite Z.geb_leb in E; bool_to_prop; [split_and!; done || lia|].
  destruct (bump_recent s (wi_ok _ _ Hs)) as (Hok & b & bs & Hb & Hb').
  set (s' := s <| buckets ::= _ |>) in *.
  pose proof (wi_held _ _ Hs) as Hheld. pose proof (wi_nonneg _ _ Hs) as Hnn. rewrite Hb in Hnn.
  apply Forall_cons in Hnn as [Hbn Hbsn].
  split; [|split; [simpl; lia|split; [done|]]].
  - split; [done|simpl; lia|simpl; lia| | |].
    + constructor; [simpl; lia|apply Hs].
    + rewrite Hb'. constructor; [lia|done].
    + intros k Hk. specialize (Hheld k Hk). rewrite Hb in Hheld. rewrite Hb'.
      destruct k as [|k]; [lia|]. rewrite hits_cons, firstn_cons in *.
      change (sum_list_Z id (?x :: ?l)) with (x + sum_list_Z id l) in *.
      change (last_slide_ts s') with (last_slide_ts s). destruct (_ <=? ms now); lia.
  - intros _ t rest [= <- <-]. specialize (Hheld 10%nat ltac:(lia)).
    rewrite take_ge, <- (total_recent s (wi_ok _ _ Hs)) in Hheld by (by rewrite length_recent).
    assert (hits (fun u => ms now - 9000 <=? ms u) log <= total s).
    { etrans; [|apply Hheld]. apply hits_impl. intros u _ Hu. bool_to_prop. apply Z.leb_le. lia. }
    rewrite hits_cons. destruct (_ <=? ms now); lia.
Qed.

(** Nine-second stretches. *)
Fixpoint every_suffix {A} (P : list A -> Prop) (l : list A) : Prop :=
  P l /\ match l with [] => True | _ :: l => every_suffix P l end.

Lemma nine_seconds limit log a :
  every_suffix (within_limit limit) log ->
  hits (fun t => (a <=? ms t) && (ms t <=? a + 9000)) log <= Z.max 0 limit.
Proof.
  induction log as [|t log IH]; intros [H1 H2]; [simpl; lia|].
  specialize (IH H2). destruct ((a <=? ms t) && (ms t <=? a + 9000)) eqn:E;
    [|rewrite hits_cons, E; lia].
  apply andb_true_iff in E as [E1 E2]; bool_to_prop. specialize (H1 t log eq_refl).
  assert (hits (fun t => (a <=? ms t) && (ms t <=? a + 9000)) (t :: log) <= limit) as H.
  { etrans; [|apply H1]. apply hits_impl. intros u _ Hu. apply andb_true_iff in Hu as [? ?]; bool_to_prop.
    apply Z.leb_le. lia. }
  lia.
Qed.

(** ** Runs of the limiter *)
Inductive limiter_op :=
| Acquire (type : ExecIntentType) (now : Z)
| Response (draw : Z -> Z) (http_status now : Z)
| Rtt (rtt_ns : Z)
| ResetBackoff.

(** The second component collects the granted requests, newest first. *)
Definition limiter_step (st : RateLimiter * list (ExecIntentType * Z)) (op : limiter_op)
    : RateLimiter * list (ExecIntentType * Z) :=
  let '(r, log) := st in
  match op with
  | Acquire type now =>
      let '(r, ok) := try_acquire type now r in (r, if ok then (type, now) :: log else log)
  | Response draw http_status now => (record_response draw http_status now r, log)
  | Rtt rtt_ns => (record_rtt rtt_ns r, log)
  | ResetBackoff => (reset_backoff r, log)
  end.

Definition acquire_time (op : limiter_op) : option Z :=
  match op with Acquire _ now => Some now | _ => None end.

Definition group_window (g : Group) (r : RateLimiter) : SlidingWindow :=
  match g with
  | ORDERS => order_window_ r
  | CANCELS => cancel_window_ r
  | HEARTBEATS => heartbeat_window_ r
  end.

Definition group_limit (c : RateLimitConfig) (g : Group) : Z :=
  match g with
  | ORDERS => order_tokens_per_10s c
  | CANCELS => cancel_tokens_per_10s c
  | HEARTBEATS => heartbeat_tokens_per_10s c
  end.

Definition group_times (g : Group) (log : list (ExecIntentType * Z)) : list Z :=
  snd <$> filter (fun x => group_of x.1 = g) log.

(** A window, its limit and the requests granted by it up to time [T]. *)
Record granting (T : Z) (w : SlidingWindow) (limit : Z) (log : list Z) : Prop := {
  gr_inv : window_inv w log;
  gr_last : last_slide_ts w <= T;
  gr_limit : limit_per_10s w = limit;
  gr_log : Forall (fun t => t <= T) log;
  gr_bound : every_suffix (within_limit limit) log }.

Lemma granting_later T T' w limit log : T <= T' -> granting T w limit log -> granting T' w limit log.
Proof.
  intros HT [H1 H2 H3 H4 H5]. split; try done; [lia|]. eapply Forall_impl; [done|]. simpl. lia.
Qed.

Lemma granting_drop T w limit t log : granting T w limit (t :: log) -> granting T w limit log.
Proof.
  intros [H1 H2 H3 H4 H5]. split; try done.
  - by eapply window_inv_drop.
  - by apply Forall_cons in H4 as [_ ?].
  - apply H5.
Qed.

Lemma granting_new T limit : 0 <= T -> granting T (SlidingWindow_new limit) limit [].
Proof. intros. split; try done. apply window_new_inv. Qed.

Lemma granting_consume T now w limit log :
  granting T w limit log -> clock_ok now -> T <= now ->
  let '(w', ok) := try_consume now w in granting now w' limit (if ok then now :: log else log).
Proof.
  intros Hg Hclk HT. apply (granting_later T now) in Hg as [H1 H2 H3 H4 H5]; [|done].
  pose proof (try_consume_inv now w log H1 Hclk H2 H4) as H.
  destruct (try_consume now w) as [w' ok]. destruct H as (Ha & Hb & Hc & Hd).
  split; try done; [congruence| |].
  - destruct ok; [by constructor|done].
  - destruct ok; [|done]. split; [|done]. rewrite <- H3. by apply Hd.
Qed.

Record limiter_inv (c : RateLimitConfig) (T : Z) (r : RateLimiter) (log : list (ExecIntentType * Z))
    : Prop := {
  li_global : granting T (global_window_ r) (global_tokens_per_10s c) (snd <$> log);
  li_group : forall g, granting T (group_window g r) (group_limit c g) (group_times g log) }.

Lemma group_window_set type w r g :
  group_window g (set_window type w r) = if decide (group_of type = g) then w else group_window g r.
Proof. unfold set_window. by destruct (group_of type), g. Qed.

Lemma global_window_set type w r : global_window_ (set_window type w r) = global_window_ r.
Proof. unfold set_window. by destruct (group_of type). Qed.

Lemma group_times_cons g type now log :
  group_times g ((type, now) :: log) =
    if decide (group_of type = g) then now :: group_times g log else group_times g log.
Proof. unfold group_times. rewrite filter_cons. by destruct (decide _). Qed.

Lemma try_acquire_inv c T r log type now :
  limiter_inv c T r log -> clock_ok now -> T <= now ->
  let '(r', ok) := try_acquire type now r in
  limiter_inv c now r' (if ok then (type, now) :: log else log).
Proof.
  intros [Hg Hw] Hclk HT. unfold try_acquire.
  assert (forall g, granting now (group_window g r) (group_limit c g) (group_times g log)) as Hw'
    by (intros g; by apply (granting_later T)).
  assert (limiter_inv c now (r <| throttled_count_ ::= Z.succ |>) log).
  { split; [by apply (granting_later T)|done]. }
  destruct (now <? _); [done|]. destruct (_ && _); [done|].
  pose proof (granting_consume _ now _ _ _ Hg Hclk HT) as H1.
  destruct (try_consume now (global_window_ r)) as [gw gok]. destruct gok; simpl.
  2:{ split; [done|apply Hw']. }
  pose proof (granting_consume _ now _ _ _ (Hw (group_of type)) Hclk HT) as H2.
  change (window_for type _) with (group_window (group_of type) r).
  destruct (try_consume now (group_window _ r)) as [w ok]. destruct ok; simpl.
  - split; [by rewrite global_window_set|]. intros g. rewrite group_window_set, group_times_cons.
    destruct (decide _) as [<-|]; [done|apply Hw'].
  - split.
    + change (global_window_ (?x <| throttled_count_ ::= _ |>)) with (global_window_ x).
      rewrite global_window_set. by eapply granting_drop.
    + intros g. change (group_window g (?x <| throttled_count_ ::= _ |>)) with (group_window g x).
      rewrite group_window_set. destruct (decide _) as [<-|]; [done|apply Hw'].
Qed.

Lemma limiter_frame c T r r' log :
  global_window_ r' = global_window_ r -> (forall g, group_window g r' = group_window g r) ->
  limiter_inv c T r log -> limiter_inv c T r' log.
Proof. intros E Eg [H1 H2]. split; [by rewrite E|]. intros g. by rewrite Eg. Qed.

Lemma record_response_windows draw http_status now r :
  global_window_ (record_response draw http_status now r) = global_window_ r /\
  forall g, group_window g (record_response draw http_status now r) = group_window g r.
Proof. unfold record_response. by repeat case_match; (split; [|intros []]). Qed.

Lemma record_rtt_windows rtt r :
  global_window_ (record_rtt rtt r) = global_window_ r /\
  forall g, group_window g (record_rtt rtt r) = group_window g r.
Proof. unfold record_rtt. by case_match; (split; [|intros []]). Qed.

Lemma limiter_step_inv c T r log op :
  limiter_inv c T r log -> (forall now, acquire_time op = Some now -> clock_ok now /\ T <= now) ->
  let '(r', log') := limiter_step (r, log) op in limiter_inv c (default T (acquire_time op)) r' log'.
Proof.
  intros Hinv Ht. destruct op; simpl.
  - destruct (Ht now eq_refl) as [Hc HT]. pose proof (try_acquire_inv c T r log type now Hinv Hc HT) as H.
    destruct (try_acquire type now r) as [r' ok]. by destruct ok.
  - destruct (record_response_windows draw http_status now r). by eapply limiter_frame.
  - destruct (record_rtt_windows rtt_ns r). by eapply limiter_frame.
  - eapply limiter_frame; [| |done]; [done|by intros []].
Qed.

Lemma limiter_run_inv c ops T r log :
  limiter_inv c T r log -> Forall clock_ok (omap acquire_time ops) ->
  StronglySorted Z.le (T :: omap acquire_time ops) ->
  let '(r', log') := foldl limiter_step (r, log) ops in exists T', limiter_inv c T' r' log'.
Proof.
  revert T r log. induction ops as [|op ops IH]; intros T r log Hinv Hc Hs; [by exists T|].
  cbn [foldl]. pose proof (limiter_step_inv c T r log op Hinv) as H.
  destruct (limiter_step (r, log) op) as [r1 log1].
  cbn [omap list_omap] in Hc, Hs. destruct (acquire_time op) as [now|]; simpl in H.
  - apply Forall_cons in Hc as [Hc0 Hc]. apply StronglySorted_inv in Hs as [Hs Hle].
    apply Forall_cons in Hle as [Hle _].
    apply (IH now); [|done|done]. apply H. intros ? [= <-]. done.
  - apply (IH T); [by apply H|done|done].
Qed.

Lemma limiter_new_inv c : limiter_inv c 0 (RateLimiter_new c) [].
Proof. split; [by apply granting_new|]. intros []; by apply granting_new. Qed.

(** C27: Request budget: whatever the gateway asks of the limiter and whatever
    responses and latencies it records in between, on a monotonic clock, any
    stretch of nine seconds contains at most the configured number of granted
    requests in total, and of orders, of cancels and of heartbeats at most the
    configured number of the group. *)
Theorem granted_within_limits c ops (a : Z) (g : Group)
    (Hclock : Forall clock_ok (omap acquire_time ops))
    (Hmono : StronglySorted Z.le (omap acquire_time ops)) :
  let log := (foldl limiter_step (RateLimiter_new c, []) ops).2 in
  let during t := (a <=? ms t) && (ms t <=? a + 9000) in
  hits during (snd <$> log) <= Z.max 0 (global_tokens_per_10s c) /\
  hits during (group_times g log) <= Z.max 0 (group_limit c g).
Proof.
  pose proof (limiter_run_inv c ops 0 (RateLimiter_new c) [] (limiter_new_inv c) Hclock) as H.
  destruct (foldl _ _ ops) as [r log]. destruct H as (T & [Hg Hw]).
  { constructor; [done|]. eapply Forall_impl; [done|]. unfold clock_ok. lia. }
  split; apply nine_seconds; [apply Hg|apply Hw].
Qed.

Lemma granted_within_limits_witness :
  let c := mkRateLimitConfig 5 2 2 1 500 30000 5 in
  let ops := (fun s => Acquire ExecIntentType.PLACE_ORDER (s * 1000000000)) <$> [1; 2; 3; 12; 13] in
  (foldl limiter_step (RateLimiter_new c, []) ops).2.*2 = [13000000000; 12000000000; 2000000000; 1000000000] /\
  hits (fun t => (1000 <=? ms t) && (ms t <=? 10000)) (group_times ORDERS (foldl limiter_step (RateLimiter_new c, []) ops).2) <= 2.
Proof.
  split; [reflexivity|].
  refine (proj2 (granted_within_limits (mkRateLimitConfig 5 2 2 1 500 30000 5)
    ((fun s => Acquire ExecIntentType.PLACE_ORDER (s * 1000000000)) <$> [1; 2; 3; 12; 13]) 1000 ORDERS _ _)).
  - repeat constructor.
  - repeat constructor; by vm_compute.
Defined.


(** The ten seconds of the limit's name are not guaranteed: a window slides
    by whole buckets counted from its last slide, so a request granted late in
    its bucket expires after little more than nine seconds.  With ten order
    tokens per ten seconds, nineteen orders are granted within 9.001 seconds. *)
Theorem ten_seconds_exceeded :
  let c := mkRateLimitConfig 100 10 10 1 500 30000 5 in
  let orders n t := replicate n (Acquire ExecIntentType.PLACE_ORDER (t * 1000000)) in
  let log := (foldl limiter_step (RateLimiter_new c, []) (orders 1%nat 1000 ++ orders 9%nat 1999 ++ orders 10%nat 11000)).2 in
  hits (fun t => (1999 <=? ms t) && (ms t <=? 11000)) (group_times ORDERS log) = 19.
Proof. reflexivity. Qed.

(** ** Backing off *)

(** What the standard library documents of a uniform draw. *)
Definition draw_ok (draw : Z -> Z) : Prop := forall range, 0 < range -> - range <= draw range <= range.

Lemma apply_jitter_bounds draw b : draw_ok draw -> 0 < b ->
  b - b ÷ 4 <= apply_jitter draw b <= b + b ÷ 4.
Proof.
  intros Hd Hb. unfold apply_jitter. pose proof (quot_mul_le b 4). assert (0 <= b ÷ 4) by (apply Z.quot_pos; lia).
  case_match; bool_to_prop; [lia|]. specialize (Hd (b ÷ 4)). lia.
Qed.

Definition responses_429 (ds : list ((Z -> Z) * Z)) (r : RateLimiter) : RateLimiter :=
  foldl (fun r d => record_response d.1 429 d.2 r) r ds.

Lemma responses_429_ladder ds r :
  let c := rl_config_ r in
  0 < backoff_base_ms c <= backoff_max_ms c -> current_backoff_ms_ r = backoff_base_ms c ->
  let r' := responses_429 ds r in
  rl_config_ r' = c /\ consecutive_429s_ r' = consecutive_429s_ r + Z.of_nat (length ds) /\
  current_backoff_ms_ r' = Z.min (backoff_base_ms c * 2 ^ Z.of_nat (length ds)) (backoff_max_ms c).
Proof.
  intros c Hc H0. induction ds as [|d ds IH] using rev_ind.
  { split_and!; [done|simpl; lia|]. change (2 ^ Z.of_nat (length [])) with 1. simpl. lia. }
  unfold responses_429 in *. rewrite foldl_app, length_app. cbn [foldl length].
  destruct IH as (H1 & H2 & H3). set (r1 := foldl _ _ _) in *.
  replace (Z.of_nat (length ds + 1)) with (Z.of_nat (length ds) + 1) by lia.
  rewrite Z.pow_add_r by lia. unfold record_response. simpl.
  split_and!; [done|lia|]. rewrite H1, H3. lia.
Qed.

(** Backing off: a run of 429 responses on a limiter whose ladder is at its
    base makes the [n]-th of them start a refusal period of the base doubled
    [n - 1] times, at most the cap, give or take a quarter; until its end every
    request of every kind is refused and counted; the run is reported as
    degradation once it is as long as configured; and one successful response
    puts the ladder back to its base. *)
Theorem backoff_ladder r (ds : list ((Z -> Z) * Z)) draw now
    (Hc : 0 < backoff_base_ms (rl_config_ r) <= backoff_max_ms (rl_config_ r))
    (Hr : current_backoff_ms_ r = backoff_base_ms (rl_config_ r)) (Hn : 0 <= consecutive_429s_ r)
    (Hd : draw_ok draw) :
  let wait := Z.min (backoff_base_ms (rl_config_ r) * 2 ^ Z.of_nat (length ds)) (backoff_max_ms (rl_config_ r)) in
  let r' := responses_429 (ds ++ [(draw, now)]) r in
  now + (wait - wait ÷ 4) * 1000000 <= backoff_until_ r' <= now + (wait + wait ÷ 4) * 1000000 /\
  (forall type t, t < backoff_until_ r' -> try_acquire type t r' = throttle r') /\
  (max_consecutive_429s (rl_config_ r) <= Z.of_nat (length ds) + 1 -> is_degraded r' = true) /\
  forall draw' t, current_backoff_ms_ (record_response draw' 200 t r') = backoff_base_ms (rl_config_ r).
Proof.
  intros wait r'. destruct (responses_429_ladder (ds ++ [(draw, now)]) r Hc Hr) as (Hcfg & Hcons & _).
  destruct (responses_429_ladder ds r Hc Hr) as (_ & _ & Hcur).
  fold r' in Hcfg, Hcons. rewrite length_app in Hcons. cbn [length] in Hcons.
  assert (0 < wait). { apply Z.min_glb_lt; [|lia]. apply Z.mul_pos_pos; [lia|]. apply Z.pow_pos_nonneg; lia. }
  split; [|split; [|split]].
  - pose proof (apply_jitter_bounds draw wait Hd ltac:(done)) as Hj.
    assert (backoff_until_ r' = now + apply_jitter draw wait * 1000000) as ->; [|lia].
    unfold r', responses_429. rewrite foldl_app. unfold wait. rewrite <- Hcur. done.
  - intros type t Ht. unfold try_acquire. by rewrite (proj2 (Z.ltb_lt _ _) Ht).
  - intros Hmax. unfold is_degraded. rewrite Hcfg, (proj2 (Z.geb_ge _ _)) by lia. done.
  - intros draw' t. unfold record_response. simpl. by rewrite Hcfg.
Qed.

Lemma backoff_ladder_witness :
  let r' := responses_429 [(fun x => x, 1000); (fun x => - x, 2000); (fun x => 0, 3000)]
              (RateLimiter_new RateLimitConfig_default) in
  backoff_until_ r' = 3000 + 2000 * 1000000 /\
  (try_acquire ExecIntentType.CANCEL_ALL 4000 r').2 = false.
Proof.
  intros r'. split; [reflexivity|].
  refine (_ (proj1 (proj2 (backoff_ladder (RateLimiter_new RateLimitConfig_default)
     [(fun x => x, 1000); (fun x => - x, 2000)] (fun x => 0) 3000 _ _ _ _)))).
  - intros H. exact (f_equal snd (H ExecIntentType.CANCEL_ALL 4000 eq_refl)).
  - split; by vm_compute.
  - reflexivity.
  - by vm_compute.
  - intros range Hr. lia.
Defined.

(** ** Heartbeats *)
Inductive heartbeat_op := HbSuccess (heartbeat_id : string) (now : Z) | HbFailure (now : Z).

Definition heartbeat_step (h : HeartbeatManager) (op : heartbeat_op) : HeartbeatManager :=
  match op with HbSuccess i now => on_success i now h | HbFailure now => on_failure now h end.

(** The failures at the end of a history (newest first). *)
Fixpoint trailing_failures (newest_first : list heartbeat_op) : Z :=
  match newest_first with HbFailure _ :: ops => 1 + trailing_failures ops | _ => 0 end.

Definition op_time (op : heartbeat_op) : Z :=
  match op with HbSuccess _ now | HbFailure now => now end.

Lemma heartbeat_run c ops :
  let h := foldl heartbeat_step (HeartbeatManager_new c) ops in
  hb_config_ h = c /\ consecutive_failures_ h = trailing_failures (rev ops) /\
  success_count_ h + failure_count_ h = Z.of_nat (length ops) /\
  last_sent_ts_ h = default 0 (op_time <$> last ops).
Proof.
  induction ops as [|op ops IH] using rev_ind; [done|].
  rewrite foldl_app, rev_app_distr, length_app, last_snoc. cbn [foldl].
  destruct IH as (H1 & H2 & H3 & H4). destruct op; simpl; split_and!; done || lia.
Qed.

(** Heartbeats: after any history of answered and failed heartbeats, the
    threshold is reached exactly when the history ends in that many failures,
    orders are to be cancelled exactly when that is also configured, every
    heartbeat is counted once, and with a positive interval the next one is due
    exactly when the interval has passed since the last attempt, answered or
    not. *)
Theorem heartbeat_schedule c ops now
    (Hint : 0 < interval_ms c) (Hpos : Forall (fun op => 0 < op_time op <= now) ops) :
  let h := foldl heartbeat_step (HeartbeatManager_new c) ops in
  (is_failed h = true <-> max_consecutive_failures c <= trailing_failures (rev ops)) /\
  (should_cancel_all h = true <-> is_failed h = true /\ cancel_all_on_failure c = true) /\
  success_count_ h + failure_count_ h = Z.of_nat (length ops) /\
  (is_due now h = true <->
     forall op, last ops = Some op -> op_time op + interval_ms c * 1000000 <= now).
Proof.
  intros h. destruct (heartbeat_run c ops) as (H1 & H2 & H3 & H4). fold h in H1, H2, H3, H4.
  unfold is_failed, should_cancel_all, is_due. rewrite H1, H2, H4.
  rewrite (proj2 (Z.leb_gt _ _) Hint). split_and!.
  - by rewrite Z.geb_leb, Z.leb_le.
  - rewrite andb_true_iff. tauto.
  - done.
  - destruct (last ops) as [op|] eqn:El; simpl.
    2:{ split; [by intros _ op [=]|done]. }
    rewrite Forall_forall in Hpos. destruct (Hpos op) as [Hp Hle]; [by apply last_Some_elem_of|].
    rewrite (proj2 (Z.eqb_neq _ _)), Z.geb_leb, Z.leb_le, quot_nonneg_div by lia.
    split.
    + intros H op' [= <-]. pose proof (Z.mul_div_le (now - op_time op) 1000000). lia.
    + intros H. specialize (H op eq_refl). apply Z.div_le_lower_bound; lia.
Qed.

Lemma heartbeat_schedule_witness :
  let c := mkHeartbeatConfig 5000 2 true in
  let ops := [HbSuccess "a" 1000000000; HbFailure 6000000000; HbFailure 11000000000] in
  should_cancel_all (foldl heartbeat_step (HeartbeatManager_new c) ops) = true /\
  is_failed (foldl heartbeat_step (HeartbeatManager_new c) ops) = true.
Proof.
  split; [reflexivity|].
  apply (heartbeat_schedule (mkHeartbeatConfig 5000 2 true)
    [HbSuccess "a" 1000000000; HbFailure 6000000000; HbFailure 11000000000] 12000000000).
  - by vm_compute.
  - repeat constructor; by vm_compute.
  - by vm_compute.
Defined.
