(* ===== verification/Crypto.v ===== *)
(** Byte-level encodings of the signing path: [src/crypto/hex_utils.h],
    [src/crypto/hex_utils.cpp], [src/crypto/eip712.cpp],
    [src/crypto/order_signer.cpp].

    A byte is an integer of [0, 255], an array of bytes a list.  The hash
    function (the SHA3 library) and the elliptic-curve signature (libsecp256k1)
    are third-party code: the class [CryptoLib] of functions.

    Shown: hexadecimal and checksummed addresses round trip; decimal text is
    converted to a 256-bit big-endian integer exactly, overflow detected; the
    encoding of an order is injective, so the signed bytes determine the
    order. *)
From Stdlib Require Import Ascii.
From S2P Require Import Prelude Types Price.

Class CryptoLib := {
  keccak256 : list Z -> list Z;
  (* the 64 bytes r, s and the recovery id, or failure *)
  ecdsa_sign_recoverable : list Z -> option (list Z * Z);
  keccak256_length : forall data, length (keccak256 data) = 32%nat;
  keccak256_bytes : forall data, Forall (fun b => 0 <= b < 256) (keccak256 data);
  ecdsa_bytes : forall hash sig recid, ecdsa_sign_recoverable hash = Some (sig, recid) ->
    length sig = 64%nat /\ Forall (fun b => 0 <= b < 256) sig }.

Abbreviation is_byte := (fun b : Z => 0 <= b < 256) (only parsing).
Definition bytes_of (s : string) : list Z := char_code <$> txt s.

(** ** Hexadecimal *)
Definition hex_char (d : Z) : ascii :=
  if d <? 10 then digit_char d else ascii_of_N (Z.to_N (87 + d)).
Fixpoint hex_encode (data : list Z) : list ascii :=
  match data with
  | [] => []
  | b :: data => hex_char (Z.shiftr b 4) :: hex_char (Z.land b 15) :: hex_encode data
  end.

Definition hex_val (c : ascii) : option Z :=
  let n := char_code c in
  if (48 <=? n) && (n <=? 57) then Some (n - 48)
  else if (97 <=? n) && (n <=? 102) then Some (n - 97 + 10)
  else if (65 <=? n) && (n <=? 70) then Some (n - 65 + 10)
  else None.

Fixpoint hex_pairs (hex : list ascii) : option (list Z) :=
  match hex with
  | [] => Some []
  | h :: l :: hex => hi ← hex_val h; lo ← hex_val l; r ← hex_pairs hex; Some (Z.lor (Z.shiftl hi 4) lo :: r)
  | [_] => None
  end.

(** [None] where the source returns 0 for an error. *)
Definition hex_decode (hex : list ascii) (max_len : nat) : option (list Z) :=
  let hex := match hex with
             | c0 :: c1 :: r =>
                 if bool_decide (c0 = "0"%char) && (bool_decide (c1 = "x"%char) || bool_decide (c1 = "X"%char))
                 then r else hex
             | _ => hex
             end in
  if negb (Nat.even (length hex)) then None else
  if (max_len <? length hex / 2)%nat then None else hex_pairs hex.

Definition parse_eth_address (addr_hex : list ascii) : option (list Z) :=
  r ← hex_decode addr_hex 20; if (length r =? 20)%nat then Some r else None.

(** ** Big-endian integers *)

(** One pass over the bytes from the last to the first, with its carry. *)
Fixpoint mul10_add (out : list Z) (carry : Z) : list Z * Z :=
  match out with
  | [] => ([], carry)
  | b :: out =>
      let '(out, carry) := mul10_add out carry in
      let val := b * 10 + carry in
      (Z.land val 255 :: out, Z.shiftr val 8)
  end.

(** The output is kept when the conversion fails half way. *)
Fixpoint decimal_loop (decimal : list ascii) (out : list Z) : list Z * bool :=
  match decimal with
  | [] => (out, true)
  | c :: decimal =>
      match digit_val c with
      | None => (out, false)
      | Some digit =>
          let '(out, carry) := mul10_add out digit in
          if negb (carry =? 0) then (out, false) else decimal_loop decimal out
      end
  end.
Definition decimal_to_uint256 (decimal : list ascii) : list Z * bool :=
  match decimal with
  | [] => (replicate 32 0, false)
  | _ => decimal_loop decimal (replicate 32 0)
  end.

(** [n] bytes of [val], the last one the lowest. *)
Fixpoint be_bytes (n : nat) (val : Z) : list Z :=
  match n with
  | O => []
  | S n => be_bytes n (Z.shiftr val 8) ++ [Z.land val 255]
  end.
Definition uint64_to_uint256_be (val : Z) : list Z := replicate 24 0 ++ be_bytes 8 val.

Definition address_to_bytes32 (addr : list Z) : list Z := replicate 12 0 ++ addr.

Section Lib.
Context `{CryptoLib}.

(** ** Checksummed addresses *)
Definition checksum_char (c : ascii) (hash_nibble : Z) : ascii :=
  if (97 <=? char_code c) && (char_code c <=? 102) && (hash_nibble >=? 8)
  then ascii_of_N (Z.to_N (char_code c - 32)) else c.

Definition nibble (addr_hash : list Z) (i : nat) : Z :=
  Z.land (Z.shiftr (array_get addr_hash (Z.of_nat (i / 2))) (if Nat.even i then 4 else 0)) 15.

Definition eip55_checksum (address : list Z) : list ascii :=
  let hex_lower := hex_encode address in
  let addr_hash := keccak256 (char_code <$> hex_lower) in
  "0"%char :: "x"%char :: imap (fun i c => checksum_char c (nibble addr_hash i)) hex_lower.

(** ** EIP-712 *)
Record OrderFields := mkOrderFields {
  of_salt : list Z;
  of_maker : list Z;
  of_signer : list Z;
  of_taker : list Z;
  of_token_id : list Z;
  of_maker_amount : list Z;
  of_taker_amount : list Z;
  of_expiration : Z;
  of_nonce : Z;
  of_fee_rate_bps : Z;
  of_side : Z;
  of_signature_type : Z }.

Definition ORDER_TYPE : string :=
  "Order(uint256 salt,address maker,address signer,address taker,uint256 tokenId,uint256 makerAmount,uint256 takerAmount,uint256 expiration,uint256 nonce,uint256 feeRateBps,uint8 side,uint8 signatureType)".
Definition DOMAIN_TYPE : string :=
  "EIP712Domain(string name,string version,uint256 chainId,address verifyingContract)".
Definition ORDER_TYPEHASH : list Z := keccak256 (bytes_of ORDER_TYPE).
Definition DOMAIN_TYPEHASH : list Z := keccak256 (bytes_of DOMAIN_TYPE).

Definition CTF_EXCHANGE_ADDRESS : list Z :=
  [0x4b; 0xFb; 0x41; 0xd5; 0xB3; 0x57; 0x0D; 0xeF; 0xd0; 0x3C;
   0x39; 0xa9; 0xA4; 0xD8; 0xdE; 0x6B; 0xd8; 0xB8; 0x98; 0x2E].
Definition NEG_RISK_CTF_EXCHANGE_ADDRESS : list Z :=
  [0xC5; 0xd5; 0x63; 0xA3; 0x6A; 0xE7; 0x81; 0x45; 0xC4; 0x5a;
   0x50; 0x13; 0x4d; 0x48; 0xA1; 0x21; 0x52; 0x20; 0xf8; 0x0a].
Definition POLYGON_CHAIN_ID : Z := 137.

Definition domain_bytes (exchange_address : list Z) (chain_id : Z) : list Z :=
  DOMAIN_TYPEHASH ++ keccak256 (bytes_of "Polymarket CTF Exchange") ++ keccak256 (bytes_of "1") ++
  uint64_to_uint256_be chain_id ++ address_to_bytes32 exchange_address.
Definition compute_domain_separator (exchange_address : list Z) : list Z :=
  keccak256 (domain_bytes exchange_address POLYGON_CHAIN_ID).

(** The buffer of 13 words. *)
Definition order_struct_bytes (f : OrderFields) : list Z :=
  ORDER_TYPEHASH ++ of_salt f ++ address_to_bytes32 (of_maker f) ++ address_to_bytes32 (of_signer f) ++
  address_to_bytes32 (of_taker f) ++ of_token_id f ++ of_maker_amount f ++ of_taker_amount f ++
  uint64_to_uint256_be (of_expiration f) ++ uint64_to_uint256_be (of_nonce f) ++
  uint64_to_uint256_be (of_fee_rate_bps f) ++
  (replicate 31 0 ++ [of_side f]) ++ (replicate 31 0 ++ [of_signature_type f]).
Definition hash_order_struct (f : OrderFields) : list Z := keccak256 (order_struct_bytes f).

Definition signing_bytes (domain_sep struct_hash : list Z) : list Z := [0x19; 0x01] ++ domain_sep ++ struct_hash.
Definition eip712_signing_hash (domain_sep struct_hash : list Z) : list Z :=
  keccak256 (signing_bytes domain_sep struct_hash).

(** The signature [r || s || v], with Ethereum's [v = 27 + recovery id]. *)
Definition sign_hash (hash : list Z) : option (list Z) :=
  '(sig, recid) ← ecdsa_sign_recoverable hash; Some (sig ++ [wrap_u8 (27 + recid)]).
Definition sign_order (f : OrderFields) (domain_sep : list Z) : option (list Z) :=
  sign_hash (eip712_signing_hash domain_sep (hash_order_struct f)).
Definition personal_sign (message : string) : option (list Z) :=
  sign_hash (keccak256 (25 :: bytes_of "Ethereum Signed Message:" ++ [10] ++
    (char_code <$> to_string (Z.of_nat (String.length message))) ++ bytes_of message)).
End Lib.

(** ** Hexadecimal round trips *)

(** A decidable property of small integers, by enumeration. *)
Lemma range_forall (P : Z -> bool) (n : Z) :
  forallb P (seqZ 0 n) = true -> forall b, 0 <= b < n -> P b = true.
Proof. rewrite forallb_forall. intros Hf b Hb. apply Hf, list_elem_of_In, elem_of_seqZ. lia. Qed.

Lemma byte_nibbles b : 0 <= b < 256 ->
  0 <= Z.shiftr b 4 < 16 /\ 0 <= Z.land b 15 < 16 /\ Z.lor (Z.shiftl (Z.shiftr b 4) 4) (Z.land b 15) = b.
Proof.
  intros Hb. pose proof (range_forall (fun b =>
    (0 <=? Z.shiftr b 4) && (Z.shiftr b 4 <? 16) && (0 <=? Z.land b 15) && (Z.land b 15 <? 16) &&
    (Z.lor (Z.shiftl (Z.shiftr b 4) 4) (Z.land b 15) =? b)) 256 eq_refl b Hb) as Hc.
  cbv beta in Hc. bool_to_prop. lia.
Qed.

Lemma checksum_char_val d n : 0 <= d < 16 -> hex_val (checksum_char (hex_char d) n) = Some d.
Proof.
  intros Hd. apply (bool_decide_eq_true_1 _). unfold checksum_char. destruct (n >=? 8).
  - exact (range_forall (fun d => bool_decide (hex_val (checksum_char (hex_char d) 8) = Some d)) 16 eq_refl d Hd).
  - exact (range_forall (fun d => bool_decide (hex_val (checksum_char (hex_char d) 0) = Some d)) 16 eq_refl d Hd).
Qed.

(** Mixing the case of the letters does not change the bytes. *)
Lemma hex_pairs_mixed data (g : nat -> Z) :
  Forall is_byte data -> hex_pairs (imap (fun i c => checksum_char c (g i)) (hex_encode data)) = Some data.
Proof.
  intros Hd. revert g. induction Hd as [|b data Hb _ IH]; intros g; [done|].
  destruct (byte_nibbles b Hb) as (Hh & Hl & Hor). cbn [hex_encode]. rewrite !imap_cons. cbn [hex_pairs].
  specialize (IH (fun i => g (S (S i)))). unfold compose in *.
  rewrite checksum_char_val by done. cbn [mbind option_bind].
  rewrite checksum_char_val by done. cbn [mbind option_bind].
  rewrite IH. cbn [mbind option_bind]. by rewrite Hor.
Qed.

Lemma checksum_char_lower c : checksum_char c 0 = c.
Proof. unfold checksum_char. by rewrite andb_false_r. Qed.

Lemma hex_pairs_encode data : Forall is_byte data -> hex_pairs (hex_encode data) = Some data.
Proof.
  intros Hd. rewrite <- (hex_pairs_mixed data (fun _ => 0) Hd). f_equal.
  rewrite (imap_ext _ (fun _ c => c)) by (intros; apply checksum_char_lower).
  clear Hd. generalize (hex_encode data). intros l. induction l as [|c l IH]; [done|].
  rewrite imap_cons. cbv [compose]. by f_equal.
Qed.

Lemma length_hex_encode data : length (hex_encode data) = (2 * length data)%nat.
Proof. induction data as [|b data IH]; [done|]. cbn [hex_encode length]. lia. Qed.

Lemma hex_decode_prefixed l n data :
  length l = (2 * length data)%nat -> (length data <= n)%nat -> hex_pairs l = Some data ->
  hex_decode ("0"%char :: "x"%char :: l) n = Some data.
Proof.
  intros Hlen Hn Hp. unfold hex_decode. cbn [bool_decide andb orb].
  rewrite !bool_decide_eq_true_2 by done. cbn [andb orb].
  rewrite Hlen, Nat.even_mul. cbn [Nat.even orb negb].
  rewrite Nat.mul_comm, Nat.div_mul by done. by rewrite (proj2 (Nat.ltb_ge _ _)).
Qed.

(** A checksummed address denotes the address it was computed from: for every
    20-byte address, whatever the hash function answers, parsing the mixed-case
    text gives the address back. *)
Theorem eip55_roundtrip `{CryptoLib} (address : list Z)
    (Hlen : length address = 20%nat) (Hb : Forall is_byte address) :
  parse_eth_address (eip55_checksum address) = Some address.
Proof.
  unfold parse_eth_address, eip55_checksum.
  rewrite (hex_decode_prefixed _ 20 address); [by cbn; rewrite Hlen| |lia|].
  - by rewrite length_imap, length_hex_encode.
  - by apply hex_pairs_mixed.
Qed.

(** ** Big-endian integers *)
Fixpoint be_value (l : list Z) : Z :=
  match l with [] => 0 | b :: l => b * 256 ^ Z.of_nat (length l) + be_value l end.

Lemma pow256_pos n : 0 < 256 ^ Z.of_nat n.
Proof. apply Z.pow_pos_nonneg; lia. Qed.
Lemma pow256_succ n : 256 ^ Z.of_nat (S n) = 256 * 256 ^ Z.of_nat n.
Proof. rewrite Nat2Z.inj_succ, Z.pow_succ_r by lia. done. Qed.

Lemma be_value_bounds l : Forall is_byte l -> 0 <= be_value l < 256 ^ Z.of_nat (length l).
Proof.
  induction 1 as [|b l Hb _ IH]; [done|]. cbn [be_value length]. rewrite pow256_succ.
  pose proof (pow256_pos (length l)). nia.
Qed.

Lemma be_value_app l k : be_value (l ++ k) = be_value l * 256 ^ Z.of_nat (length k) + be_value k.
Proof.
  induction l as [|b l IH]; [done|]. cbn [app be_value]. rewrite IH, length_app, Nat2Z.inj_add, Z.pow_add_r by lia. lia.
Qed.

Lemma mul10_add_spec out carry :
  Forall is_byte out -> 0 <= carry <= 10 ->
  let r := mul10_add out carry in
  length r.1 = length out /\ Forall is_byte r.1 /\ 0 <= r.2 <= 10 /\
  be_value r.1 + r.2 * 256 ^ Z.of_nat (length out) = be_value out * 10 + carry.
Proof.
  intros Hb Hc. induction Hb as [|b out Hb Hbs IH]; cbn [mul10_add].
  { simpl. split_and!; [done|done|lia|lia|lia]. }
  destruct (mul10_add out carry) as [out' c]. cbn [fst snd] in *. destruct IH as (Hl & Hf & Hc' & Hv).
  change 255 with (Z.ones 8). rewrite Z.land_ones, Z.shiftr_div_pow2 by lia. change (2 ^ 8) with 256.
  pose proof (Z.div_mod (b * 10 + c) 256 ltac:(lia)) as Hdm.
  pose proof (Z.mod_pos_bound (b * 10 + c) 256 ltac:(lia)).
  split_and!; [simpl; lia|by constructor|apply Z.div_pos; lia|apply Z.div_le_upper_bound; lia|].
  cbn [be_value length]. rewrite Hl, pow256_succ. nia.
Qed.

Lemma digits_value_ge acc l w : 0 <= acc -> digits_value acc l = Some w -> acc <= w.
Proof.
  revert acc. induction l as [|c l IH]; intros acc Ha; simpl; [intros [= <-]; lia|].
  destruct (digit_val c) as [d|] eqn:E; simpl; [|done].
  assert (0 <= d) by (unfold digit_val in E; case_match; simplify_eq; bool_to_prop; lia).
  intros Hw. apply IH in Hw; lia.
Qed.

Lemma decimal_loop_spec l out :
  Forall is_byte out ->
  let r := decimal_loop l out in
  length r.1 = length out /\ Forall is_byte r.1 /\
  match digits_value (be_value out) l with
  | Some w => if w <? 256 ^ Z.of_nat (length out) then r.2 = true /\ be_value r.1 = w else r.2 = false
  | None => r.2 = false
  end.
Proof.
  revert out. induction l as [|c l IH]; intros out Hb; cbn [decimal_loop digits_value].
  { split_and!; [done|done|]. simpl. rewrite (proj2 (Z.ltb_lt _ _)) by apply be_value_bounds, Hb. done. }
  destruct (digit_val c) as [d|] eqn:Ed; cbn [mbind option_bind]; [|done].
  assert (0 <= d <= 9) as Hd by (unfold digit_val in Ed; case_match; simplify_eq; bool_to_prop; lia).
  destruct (mul10_add_spec out d Hb ltac:(lia)) as (Hl & Hf & Hc & Hv).
  destruct (mul10_add out d) as [out' carry]. cbn [fst snd] in *.
  pose proof (be_value_bounds _ Hf) as Hb'. pose proof (pow256_pos (length out)). rewrite Hl in Hb'.
  destruct (Z.eqb_spec carry 0) as [->|Hn]; cbn [negb].
  - destruct (IH out' Hf) as (Hl' & Hf' & Hr). rewrite Hl in Hl', Hr. split_and!; [done|done|].
    by replace (be_value out * 10 + d) with (be_value out') by lia.
  - cbn [fst snd]. split_and!; [done|done|].
    destruct (digits_value _ l) as [w|] eqn:Ew; [|done].
    apply digits_value_ge in Ew; [|nia]. rewrite (proj2 (Z.ltb_ge _ _)); [done|nia].
Qed.

Lemma decimal_to_uint256_value l w :
  l <> [] -> digits_value 0 l = Some w -> w < 2 ^ 256 ->
  decimal_to_uint256 l = ((decimal_to_uint256 l).1, true) /\ be_value (decimal_to_uint256 l).1 = w.
Proof.
  intros Hne Hv Hw. unfold decimal_to_uint256. destruct l as [|c l]; [done|].
  pose proof (decimal_loop_spec (c :: l) (replicate 32 0) ltac:(repeat constructor; lia)) as Hs.
  destruct (decimal_loop _ _) as [out ok]. cbn [fst snd] in *. destruct Hs as (_ & _ & Hr).
  change (be_value (replicate 32 0)) with 0 in Hr. rewrite Hv in Hr.
  change (256 ^ Z.of_nat (length (replicate 32 0))) with (2 ^ 256) in Hr.
  rewrite (proj2 (Z.ltb_lt _ _) Hw) in Hr. destruct Hr as [-> Hr]. done.
Qed.

(** The conversion of decimal text to a 256-bit integer is exact: it succeeds
    on exactly the non-empty digit texts whose value is below 2^256, and the 32
    bytes are then that value. *)
Theorem decimal_to_uint256_exact (l : list ascii) :
  let '(out, ok) := decimal_to_uint256 l in
  length out = 32%nat /\ Forall is_byte out /\
  (ok = true <-> l <> [] /\ exists w, digits_value 0 l = Some w /\ w < 2 ^ 256) /\
  (ok = true -> digits_value 0 l = Some (be_value out)).
Proof.
  assert (Forall is_byte (replicate 32 0)) as Hz by (repeat constructor; lia).
  unfold decimal_to_uint256. destruct l as [|c l].
  { split_and!; [done|done|naive_solver|done]. }
  pose proof (decimal_loop_spec (c :: l) (replicate 32 0) Hz) as Hs.
  destruct (decimal_loop _ _) as [out ok]. cbn [fst snd] in Hs. destruct Hs as (Hl & Hf & Hr).
  change (be_value (replicate 32 0)) with 0 in Hr.
  change (256 ^ Z.of_nat (length (replicate 32 0))) with (2 ^ 256) in Hr.
  split_and!; [done|done| |].
  - destruct (digits_value 0 _) as [w|]; [|naive_solver]. destruct (Z.ltb_spec w (2 ^ 256)); naive_solver lia.
  - intros ->. destruct (digits_value 0 _) as [w|]; [|done]. destruct (w <? 2 ^ 256); naive_solver.
Qed.

(** ** The signed encoding *)
Lemma length_be_bytes n v : length (be_bytes n v) = n.
Proof. revert v. induction n as [|n IH]; intros v; [done|]. cbn [be_bytes]. rewrite length_app, IH. simpl. lia. Qed.

Lemma be_value_be_bytes n v : 0 <= v < 256 ^ Z.of_nat n -> be_value (be_bytes n v) = v.
Proof.
  revert v. induction n as [|n IH]; intros v Hv; [simpl in *; lia|]. rewrite pow256_succ in Hv.
  cbn [be_bytes]. rewrite be_value_app. change 255 with (Z.ones 8).
  rewrite Z.land_ones, Z.shiftr_div_pow2 by lia. change (2 ^ 8) with 256.
  rewrite IH by (split; [apply Z.div_pos; lia|apply Z.div_lt_upper_bound; lia]).
  cbn [be_value length]. pose proof (Z.div_mod v 256 ltac:(lia)). change (256 ^ Z.of_nat 1) with 256.
  change (256 ^ Z.of_nat 0) with 1. lia.
Qed.

Lemma uint64_be_inj v w :
  0 <= v < 2 ^ 64 -> 0 <= w < 2 ^ 64 -> uint64_to_uint256_be v = uint64_to_uint256_be w -> v = w.
Proof.
  intros Hv Hw E. apply app_inj_1 in E as [_ E]; [|done].
  rewrite <- (be_value_be_bytes 8 v Hv), <- (be_value_be_bytes 8 w Hw). by rewrite E.
Qed.

Lemma uint64_be_value v : 0 <= v < 2 ^ 64 -> be_value (uint64_to_uint256_be v) = v.
Proof.
  intros Hv. unfold uint64_to_uint256_be. rewrite be_value_app, be_value_be_bytes by exact Hv.
  change (be_value (replicate 24 0)) with 0. lia.
Qed.

Record fields_wf (f : OrderFields) : Prop := {
  fw_salt : length (of_salt f) = 32%nat;
  fw_maker : length (of_maker f) = 20%nat;
  fw_signer : length (of_signer f) = 20%nat;
  fw_taker : length (of_taker f) = 20%nat;
  fw_token : length (of_token_id f) = 32%nat;
  fw_maker_amount : length (of_maker_amount f) = 32%nat;
  fw_taker_amount : length (of_taker_amount f) = 32%nat;
  fw_expiration : 0 <= of_expiration f < 2 ^ 64;
  fw_nonce : 0 <= of_nonce f < 2 ^ 64;
  fw_fee : 0 <= of_fee_rate_bps f < 2 ^ 64 }.

(** Peels equal-length blocks off an equality of concatenations. *)
Ltac split_blocks E :=
  repeat (let Ha := fresh "B" in apply app_inj_1 in E as [Ha E];
          [|unfold address_to_bytes32, uint64_to_uint256_be; rewrite ?length_app, ?length_be_bytes, ?length_replicate; congruence]).

(** The signed bytes determine the order: orders that differ in any field
    (salt, accounts, token, amounts, expiration, nonce, fee, side or signature
    type) are encoded differently, and a signing input determines the exchange
    contract's domain and the order's hash. *)
Theorem order_encoding_injective `{CryptoLib} (f g : OrderFields) (d d' h h' : list Z)
    (Hf : fields_wf f) (Hg : fields_wf g) (Hd : length d = length d') :
  (order_struct_bytes f = order_struct_bytes g -> f = g) /\
  (signing_bytes d h = signing_bytes d' h' -> d = d' /\ h = h').
Proof.
  split.
  - destruct Hf, Hg. unfold order_struct_bytes. intros E. split_blocks E.
    repeat match goal with B : address_to_bytes32 _ = _ |- _ => apply app_inj_1 in B as [_ B]; [|done] end.
    repeat match goal with B : uint64_to_uint256_be _ = _ |- _ => apply uint64_be_inj in B; [|done|done] end.
    apply app_inj_1 in E as [Es Et]; [|done].
    apply app_inj_1 in Es as [_ Es]; [|done]. apply app_inj_1 in Et as [_ Et]; [|done].
    destruct f, g; simpl in *. simplify_eq. done.
  - unfold signing_bytes. intros E. apply app_inj_1 in E as [_ E]; [|done]. by apply app_inj_1 in E.
Qed.

(** ** Witnesses *)

(** A stand-in for the libraries: hashing pads to 32 bytes, signing echoes. *)
Definition toy_hash (data : list Z) : list Z :=
  take 32 ((fun b => b mod 256) <$> data) ++ replicate (32 - length data) 0.
Lemma toy_hash_ok data : length (toy_hash data) = 32%nat /\ Forall is_byte (toy_hash data).
Proof.
  unfold toy_hash. split; [rewrite length_app, length_take, length_fmap, length_replicate; lia|].
  apply Forall_app. split.
  - apply Forall_take, Forall_fmap, Forall_true. intros b. apply Z.mod_pos_bound. lia.
  - apply Forall_replicate. lia.
Qed.
#[refine] Definition toy_crypto : CryptoLib :=
  {| keccak256 := toy_hash; ecdsa_sign_recoverable h := Some (toy_hash h ++ toy_hash h, 1) |}.
Proof.
  - apply toy_hash_ok.
  - apply toy_hash_ok.
  - intros hash sig recid [= <- <-]. destruct (toy_hash_ok hash) as [Hl Hf].
    split; [rewrite length_app; lia|by apply Forall_app].
Defined.

Lemma eip55_roundtrip_witness :
  parse_eth_address (eip55_checksum (H := toy_crypto) CTF_EXCHANGE_ADDRESS) = Some CTF_EXCHANGE_ADDRESS.
Proof. apply (eip55_roundtrip (H := toy_crypto) CTF_EXCHANGE_ADDRESS); [reflexivity|].
  unfold CTF_EXCHANGE_ADDRESS. repeat constructor; lia. Defined.

Definition sample_fields (side : Z) : OrderFields :=
  mkOrderFields (replicate 32 1) (replicate 20 2) (replicate 20 3) (replicate 20 0) (replicate 32 4) (replicate 32 5)
    (replicate 32 6) 0 0 0 side 0.
Lemma sample_fields_wf s : fields_wf (sample_fields s).
Proof. split; try reflexivity; simpl; lia. Qed.

Lemma order_encoding_injective_witness :
  order_struct_bytes (H := toy_crypto) (sample_fields 0) <> order_struct_bytes (H := toy_crypto) (sample_fields 1).
Proof.
  intros E. pose proof (proj1 (order_encoding_injective (H := toy_crypto) (sample_fields 0) (sample_fields 1) [] [] [] []
    (sample_fields_wf 0) (sample_fields_wf 1) eq_refl) E) as Ef. discriminate Ef.
Defined.
