(* ===== verification/OrderBuilder.v ===== *)
(** Signed order requests: [src/exec/order_builder.cpp], and the string escaping
    of [src/exec/execution_gateway.cpp].

    Request bodies are texts.  [build] returns [None] where the amount product
    overflows a signed 64-bit integer (undefined behaviour).  The salt's clock
    and random draw are a parameter.

    Shown: the body is the serialisation of a document with the order's fields;
    the signature covers the values the body states; the amounts are the order's
    size and limit price at the exchange's precision, with the rounding bounded;
    sizes below 0.01 shares are rounded up; escaped strings read back. *)
From Stdlib Require Import Ascii.
From S2P Require Import Prelude Types Price Events Json MarketParser MessageRoundtrip Crypto.

(** ** Text of documents *)
Definition dquote : ascii := "034".
Definition backslash : ascii := "092".

Definition hex4 (n : Z) : list ascii :=
  [hex_char (n / 4096 mod 16); hex_char (n / 256 mod 16); hex_char (n / 16 mod 16); hex_char (n mod 16)].

Definition escape_char (c : ascii) : list ascii :=
  let n := char_code c in
  if n =? 34 then [backslash; dquote]
  else if n =? 92 then [backslash; backslash]
  else if n =? 8 then [backslash; "b"%char]
  else if n =? 12 then [backslash; "f"%char]
  else if n =? 10 then [backslash; "n"%char]
  else if n =? 13 then [backslash; "r"%char]
  else if n =? 9 then [backslash; "t"%char]
  else if n <? 32 then backslash :: "u"%char :: hex4 n
  else [c].
Definition append_json_escaped (out : list ascii) (s : list ascii) : list ascii := out ++ concat (escape_char <$> s).

Definition quoted (s : list ascii) : list ascii := dquote :: s ++ [dquote].
Definition int_to_chars (z : Z) : list ascii := if z <? 0 then "-"%char :: to_string (- z) else to_string z.

(** The reference serialisation of a document. *)
Fixpoint print_json (j : Json) : list ascii :=
  match j with
  | JNull => txt "null"
  | JBool b => txt (if b then "true" else "false")
  | JInt z => int_to_chars z
  | JDouble s => txt s
  | JString s => quoted (append_json_escaped [] (txt s))
  | JArray l =>
      let fix go (first : bool) l :=
        match l with
        | [] => []
        | j :: l => (if first then [] else txt ",") ++ print_json j ++ go false l
        end in txt "[" ++ go true l ++ txt "]"
  | JObject l =>
      let fix go (first : bool) l :=
        match l with
        | [] => []
        | (k, j) :: l =>
            (if first then [] else txt ",") ++ quoted (append_json_escaped [] (txt k)) ++ txt ":" ++ print_json j ++
            go false l
        end in txt "{" ++ go true l ++ txt "}"
  end.

(** ** The builder *)
Record OrderBuilderConfig := mkOrderBuilderConfig {
  defer_exec : bool;
  post_only : bool;
  signature_type : Z }.

Record OrderPayload := mkOrderPayload {
  op_json_body : list ascii;
  op_client_order_id : OrderId;
  op_predicted_exchange_oid : OrderId }.

Record BatchOrderPayload := mkBatchOrderPayload {
  bp_json_body : list ascii;
  bp_client_order_ids : list OrderId;
  bp_predicted_exchange_oids : list OrderId }.

Definition kBatchMaxOrders : nat := 15.
Definition kShareRound : Z := 10000.
Definition kUsdcRound : Z := 100.

Record OrderBuilder := mkOrderBuilder {
  owner_uuid_ : string;
  maker_address_ : list ascii;
  signer_address_ : list ascii;
  ob_config_ : OrderBuilderConfig;
  maker_addr_bytes_ : list Z;
  signer_addr_bytes_ : list Z;
  domain_sep_normal_ : list Z;
  domain_sep_neg_risk_ : list Z }.

Definition to_lower (c : ascii) : ascii :=
  if (65 <=? char_code c) && (char_code c <=? 90) then ascii_of_N (Z.to_N (char_code c + 32)) else c.

(** The salt is kept to 53 bits. *)
Definition generate_salt (draw : Z) : Z := Z.land draw (2 ^ 53 - 1).

(** Whole hundredths of a share, at least one. *)
Definition raw_amount_of (size : Z) : Z :=
  let raw_amount := (size ÷ kShareRound) * kShareRound in
  if raw_amount <=? 0 then kShareRound else raw_amount.
(** The cash amount in whole ten-thousandths of a dollar. *)
Definition price_amount_of (raw_amount price : Z) : option Z :=
  p ← chk_i64 (raw_amount * price); Some ((p ÷ kPriceScale ÷ kUsdcRound) * kUsdcRound).

Definition order_type_str (t : OrderType) : string :=
  match t with GTC => "GTC" | GTD => "GTD" | FOK => "FOK" | FAK => "FAK" end.

Section Builder.
Context `{CryptoLib}.

(** [None] where the constructor throws. *)
Definition OrderBuilder_new (owner_uuid maker_address signer_address : string) (cfg : OrderBuilderConfig) :
    option OrderBuilder :=
  maker ← parse_eth_address (txt maker_address);
  signer ← parse_eth_address (txt signer_address);
  Some (mkOrderBuilder (String.string_of_list_ascii (to_lower <$> txt owner_uuid))
          (eip55_checksum maker) (eip55_checksum signer) cfg maker signer
          (compute_domain_separator CTF_EXCHANGE_ADDRESS) (compute_domain_separator NEG_RISK_CTF_EXCHANGE_ADDRESS)).

Definition order_fields (ob : OrderBuilder) (intent : ExecIntent) (salt_val : Z) (maker_amount taker_amount : list ascii) :
    OrderFields :=
  mkOrderFields (uint64_to_uint256_be salt_val) (maker_addr_bytes_ ob) (signer_addr_bytes_ ob) (replicate 20 0)
    (decimal_to_uint256 (txt (xi_asset_id intent))).1 (decimal_to_uint256 maker_amount).1 (decimal_to_uint256 taker_amount).1
    (wrap_u64 (xi_expiration intent)) 0 (xi_fee_rate_bps intent)
    (if side_eqb (xi_side intent) BID then 0 else 1) (signature_type (ob_config_ ob)).

Definition domain_sep (ob : OrderBuilder) (intent : ExecIntent) : list Z :=
  if xi_neg_risk intent then domain_sep_neg_risk_ ob else domain_sep_normal_ ob.

(** A member with a string value and the comma after it. *)
Definition str_member (key : string) (value : list ascii) : list ascii :=
  quoted (txt key) ++ txt ":" ++ quoted value ++ txt ",".

Definition order_json (ob : OrderBuilder) (intent : ExecIntent) (salt_val : Z) (maker_amount taker_amount : list ascii)
    (sig_hex : list ascii) : list ascii :=
  txt "{" ++ quoted (txt "order") ++ txt ":{" ++
  quoted (txt "salt") ++ txt ":" ++ int_to_chars salt_val ++ txt "," ++
  str_member "maker" (maker_address_ ob) ++
  str_member "signer" (signer_address_ ob) ++
  str_member "taker" (txt "0x0000000000000000000000000000000000000000") ++
  str_member "tokenId" (txt (xi_asset_id intent)) ++
  str_member "makerAmount" maker_amount ++
  str_member "takerAmount" taker_amount ++
  str_member "expiration" (int_to_chars (xi_expiration intent)) ++
  str_member "nonce" (txt "0") ++
  str_member "feeRateBps" (int_to_chars (xi_fee_rate_bps intent)) ++
  str_member "side" (txt (if side_eqb (xi_side intent) BID then "BUY" else "SELL")) ++
  quoted (txt "signatureType") ++ txt ":" ++ int_to_chars (signature_type (ob_config_ ob)) ++ txt "," ++
  quoted (txt "signature") ++ txt ":" ++ quoted sig_hex ++ txt "}," ++
  str_member "owner" (txt (owner_uuid_ ob)) ++
  str_member "orderType" (txt (order_type_str (xi_order_type intent))) ++
  quoted (txt "deferExec") ++ txt ":" ++ txt (if defer_exec (ob_config_ ob) then "true" else "false") ++
  (if post_only (ob_config_ ob) && (bool_decide (xi_order_type intent = GTC) || bool_decide (xi_order_type intent = GTD))
   then txt "," ++ quoted (txt "postOnly") ++ txt ":true" else []) ++
  (if xi_neg_risk intent then txt "," ++ quoted (txt "negRisk") ++ txt ":true" else []) ++
  txt "}".

Definition hex0x (bytes : list Z) : list ascii := txt "0x" ++ hex_encode bytes.

Definition build (draw : Z) (ob : OrderBuilder) (intent : ExecIntent) : option (Expected OrderPayload) :=
  if negb (bool_decide (xi_type intent = ExecIntentType.PLACE_ORDER)) &&
     negb (bool_decide (xi_type intent = ExecIntentType.REPLACE_ORDER)) then fail ErrorCode.INVALID_FORMAT else
  if (xi_price intent <=? 0) || (xi_price intent >? kPriceMax) || (xi_size intent <=? 0) then fail ErrorCode.OUT_OF_RANGE else
  let raw_amount := raw_amount_of (xi_size intent) in
  price_amount ← price_amount_of raw_amount (xi_price intent);
  let '(maker_amount, taker_amount) :=
    if side_eqb (xi_side intent) BID then (price_amount, raw_amount) else (raw_amount, price_amount) in
  let maker_amount_sv := int_to_chars maker_amount in
  let taker_amount_sv := int_to_chars taker_amount in
  let salt_val := generate_salt draw in
  let fields := order_fields ob intent salt_val maker_amount_sv taker_amount_sv in
  match sign_order fields (domain_sep ob intent) with
  | None => fail ErrorCode.INVALID_FORMAT
  | Some signature =>
      let signing_hash := eip712_signing_hash (domain_sep ob intent) (hash_order_struct fields) in
      ret (mkOrderPayload (order_json ob intent salt_val maker_amount_sv taker_amount_sv (hex0x signature))
             (xi_client_order_id intent) (mk_OrderId (String.string_of_list_ascii (hex0x signing_hash))))
  end.

(** The loop of [build_batch]; [i] orders are written already. *)
Fixpoint build_loop (draws : nat -> Z) (ob : OrderBuilder) (i : nat) (intents : list ExecIntent) :
    option (Expected BatchOrderPayload) :=
  match intents with
  | [] => ret (mkBatchOrderPayload [] [] [])
  | intent :: intents =>
      r <-? build (draws i) ob intent;
      b <-? build_loop draws ob (S i) intents;
      ret (mkBatchOrderPayload ((if (0 <? i)%nat then txt "," else []) ++ op_json_body r ++ bp_json_body b)
             (op_client_order_id r :: bp_client_order_ids b) (op_predicted_exchange_oid r :: bp_predicted_exchange_oids b))
  end.
Definition build_batch (draws : nat -> Z) (ob : OrderBuilder) (intents : list ExecIntent) :
    option (Expected BatchOrderPayload) :=
  if (length intents =? 0)%nat || (kBatchMaxOrders <? length intents)%nat then fail ErrorCode.OUT_OF_RANGE else
  b <-? build_loop draws ob 0 intents;
  ret (mkBatchOrderPayload (txt "[" ++ bp_json_body b ++ txt "]") (bp_client_order_ids b) (bp_predicted_exchange_oids b)).
End Builder.

(** ** Escaping *)

(** The reference reader of the inside of a string literal: unescaped quotes and
    control characters are refused, an escape denotes its character. *)
Fixpoint read_literal (l : list ascii) : option (list ascii) :=
  match l with
  | [] => Some []
  | c :: l =>
      if bool_decide (c = backslash) then
        match l with
        | "u"%char :: h3 :: h2 :: h1 :: h0 :: l =>
            a ← hex_val h3; b ← hex_val h2; d ← hex_val h1; e ← hex_val h0;
            r ← read_literal l; Some (ascii_of_N (Z.to_N (((a * 16 + b) * 16 + d) * 16 + e)) :: r)
        | e :: l =>
            x ← (if bool_decide (e = dquote) then Some dquote else if bool_decide (e = backslash) then Some backslash
                 else if bool_decide (e = "/"%char) then Some "/"%char else if bool_decide (e = "b"%char) then Some "008"%char
                 else if bool_decide (e = "f"%char) then Some "012"%char else if bool_decide (e = "n"%char) then Some "010"%char
                 else if bool_decide (e = "r"%char) then Some "013"%char else if bool_decide (e = "t"%char) then Some "009"%char
                 else None);
            r ← read_literal l; Some (x :: r)
        | [] => None
        end
      else if bool_decide (c = dquote) || (char_code c <? 32) then None
      else r ← read_literal l; Some (c :: r)
  end.

Lemma read_escaped_char c rest : read_literal (escape_char c ++ rest) = (r ← read_literal rest; Some (c :: r)).
Proof. destruct c as [[] [] [] [] [] [] [] []]; reflexivity. Qed.

(** An escaped string is a legal string literal that denotes the original:
    for every text, quotes, backslashes and control characters included, reading
    the literal gives the text back. *)
Theorem json_escape_roundtrip (s : list ascii) : read_literal (append_json_escaped [] s) = Some s.
Proof.
  unfold append_json_escaped. cbn [app]. induction s as [|c s IH]; [done|].
  rewrite fmap_cons, concat_cons, read_escaped_char, IH. done.
Qed.

Definition plain (s : list ascii) : Prop := Forall (fun c => escape_char c = [c]) s.

Lemma escape_plain s : plain s -> append_json_escaped [] s = s.
Proof.
  unfold append_json_escaped. cbn [app]. induction 1 as [|c s Hc _ IH]; [done|].
  rewrite fmap_cons, concat_cons, IH, Hc. done.
Qed.

Lemma plain_app a b : plain a -> plain b -> plain (a ++ b).
Proof. intros. by apply Forall_app. Qed.
Lemma plain_digits l : Forall is_digit l -> plain l.
Proof.
  intros Hd. eapply Forall_impl; [exact Hd|]. intros c (d & Hr & ->). revert d Hr.
  by apply (digit_cases (fun d => escape_char (digit_char d) = [digit_char d])).
Qed.
Lemma plain_int z : plain (int_to_chars z).
Proof.
  unfold int_to_chars. case_match; [constructor; [done|]|]; apply plain_digits, to_string_digits.
Qed.
Lemma plain_hex data : Forall is_byte data -> plain (hex_encode data).
Proof.
  assert (forall d, 0 <= d < 16 -> escape_char (hex_char d) = [hex_char d]) as Hc.
  { intros d Hd. apply (bool_decide_eq_true_1 _).
    exact (range_forall (fun d => bool_decide (escape_char (hex_char d) = [hex_char d])) 16 eq_refl d Hd). }
  induction 1 as [|b data Hb _ IH]; [constructor|]. destruct (byte_nibbles b Hb) as (? & ? & _).
  cbn [hex_encode]. constructor; [by apply Hc|]. constructor; [by apply Hc|done].
Qed.
Lemma plain_hex0x data : Forall is_byte data -> plain (hex0x data).
Proof. intros. apply plain_app; [repeat constructor|by apply plain_hex]. Qed.

(** ** Amounts *)

Lemma amounts_spec (size price : Z) (Hs : 0 < size) (Hp : 0 < price <= kPriceMax) :
  let raw := raw_amount_of size in
  raw mod kShareRound = 0 /\ 0 < raw /\
  (kShareRound <= size -> raw <= size < raw + kShareRound) /\ (size < kShareRound -> raw = kShareRound) /\
  (price_amount_of raw price = None <-> INT64_MAX < raw * price) /\
  forall cash, price_amount_of raw price = Some cash ->
    cash mod kUsdcRound = 0 /\ 0 <= cash /\
    cash * kPriceScale <= raw * price < (cash + kUsdcRound) * kPriceScale.
Proof.
  intros raw. unfold kPriceMax, kPriceScale, kUsdcRound in *.
  assert (raw mod 10000 = 0 /\ 0 < raw /\ (10000 <= size -> raw <= size < raw + 10000) /\ (size < 10000 -> raw = 10000))
    as (Hm & H0 & Hge & Hlt).
  { unfold raw, raw_amount_of, kShareRound. rewrite quot_nonneg_div by lia.
    pose proof (Z.div_mod size 10000 ltac:(lia)). pose proof (Z.mod_pos_bound size 10000 ltac:(lia)).
    destruct (Z.leb_spec (size / 10000 * 10000) 0); [|rewrite Z.mod_mul by lia]; repeat split; lia. }
  unfold kShareRound. split; [done|]. split; [done|]. split; [done|]. split; [done|].
  unfold price_amount_of, chk_i64, fits_i64, kPriceScale, kUsdcRound.
  rewrite (proj2 (Z.leb_le INT64_MIN _)) by (unfold INT64_MIN; nia). cbn [andb].
  destruct (Z.leb_spec (raw * price) INT64_MAX) as [Hfit|Hov]; cbn [mbind option_bind].
  2: { split; [split; [lia|done]|done]. }
  split; [split; [done|lia]|]. intros cash [= <-].
  rewrite (quot_nonneg_div (raw * price)) by nia. rewrite quot_nonneg_div by (try lia; apply Z.div_pos; nia).
  rewrite Z.div_div by lia. change (10000 * 100) with 1000000.
  pose proof (Z.div_mod (raw * price) 1000000 ltac:(lia)).
  pose proof (Z.mod_pos_bound (raw * price) 1000000 ltac:(lia)).
  pose proof (Z.div_pos (raw * price) 1000000 ltac:(nia) ltac:(lia)).
  rewrite Z.mod_mul by lia. lia.
Qed.

(** C28: the amounts of an order are its size and limit at the exchange's
    precision: the share amount is the size rounded down to whole hundredths of a
    share (one hundredth at least), the cash amount is rounded down to
    ten-thousandths of a dollar and falls short of shares times price by less
    than that; and the product is computed without overflow exactly when it fits
    64 bits. *)
Theorem order_amounts (size price : Z) (Hs : 0 < size) (Hp : 0 < price <= kPriceMax) :
  let raw := raw_amount_of size in
  raw mod kShareRound = 0 /\ 0 < raw /\
  (kShareRound <= size -> raw <= size < raw + kShareRound) /\ (size < kShareRound -> raw = kShareRound) /\
  (price_amount_of raw price = None <-> INT64_MAX < raw * price) /\
  forall cash, price_amount_of raw price = Some cash ->
    cash mod kUsdcRound = 0 /\ 0 <= cash /\
    cash * kPriceScale <= raw * price < (cash + kUsdcRound) * kPriceScale.
Proof. exact (amounts_spec size price Hs Hp). Qed.

Lemma order_amounts_witness :
  raw_amount_of 12345678 = 12340000 /\ price_amount_of (raw_amount_of 12345678) 5237 = Some 6462400 /\
  6462400 * kPriceScale <= 12340000 * 5237 < (6462400 + kUsdcRound) * kPriceScale.
Proof.
  split; [reflexivity|]. split; [reflexivity|].
  destruct (order_amounts 12345678 5237 ltac:(lia) ltac:(unfold kPriceMax; lia)) as (_ & _ & _ & _ & _ & Hc).
  exact (proj2 (proj2 (Hc 6462400 eq_refl))).
Defined.

(** A SELL below a hundredth of a share is signed for more than its size. *)
Lemma tiny_sell_rounds_up (size : Z) : 0 < size < kShareRound -> size < raw_amount_of size.
Proof.
  unfold raw_amount_of, kShareRound. intros Hs. rewrite quot_nonneg_div, Z.div_small by lia. simpl. lia.
Qed.

(** ** What is sent is what is signed *)
Section Sent.
Context `{CryptoLib}.

Definition text_json (l : list ascii) : Json := JString (str_of l).

(** The document of an order. *)
Definition order_doc (ob : OrderBuilder) (intent : ExecIntent) (salt_val maker_amount taker_amount : Z) (signature : list Z) : Json :=
  JObject ([("order"%string, JObject [("salt"%string, JInt salt_val);
      ("maker"%string, text_json (maker_address_ ob)); ("signer"%string, text_json (signer_address_ ob));
      ("taker"%string, JString "0x0000000000000000000000000000000000000000");
      ("tokenId"%string, JString (xi_asset_id intent));
      ("makerAmount"%string, text_json (int_to_chars maker_amount)); ("takerAmount"%string, text_json (int_to_chars taker_amount));
      ("expiration"%string, text_json (int_to_chars (xi_expiration intent))); ("nonce"%string, JString "0");
      ("feeRateBps"%string, text_json (int_to_chars (xi_fee_rate_bps intent)));
      ("side"%string, JString (if side_eqb (xi_side intent) BID then "BUY" else "SELL"));
      ("signatureType"%string, JInt (signature_type (ob_config_ ob)));
      ("signature"%string, text_json (hex0x signature))]);
    ("owner"%string, JString (owner_uuid_ ob)); ("orderType"%string, JString (order_type_str (xi_order_type intent)));
    ("deferExec"%string, JBool (defer_exec (ob_config_ ob)))] ++
    (if post_only (ob_config_ ob) && (bool_decide (xi_order_type intent = GTC) || bool_decide (xi_order_type intent = GTD))
     then [("postOnly"%string, JBool true)] else []) ++
    (if xi_neg_risk intent then [("negRisk"%string, JBool true)] else [])).

(** The texts a builder inserts verbatim need no escaping. *)
Definition builder_plain (ob : OrderBuilder) : Prop :=
  plain (maker_address_ ob) /\ plain (signer_address_ ob) /\ plain (txt (owner_uuid_ ob)).

Lemma order_json_prints ob intent salt m t sig :
  builder_plain ob -> plain (txt (xi_asset_id intent)) -> Forall is_byte sig ->
  order_json ob intent salt (int_to_chars m) (int_to_chars t) (hex0x sig) = print_json (order_doc ob intent salt m t sig).
Proof.
  intros (Hm & Hs & Ho) Ha Hsig. unfold order_doc, text_json, order_json, str_member.
  assert (forall k, forallb (fun c => bool_decide (escape_char c = [c])) (txt k) = true -> append_json_escaped [] (txt k) = txt k) as Hk.
  { intros k Hk. apply escape_plain, Forall_forall. rewrite forallb_forall in Hk.
    intros c Hc. by apply (bool_decide_eq_true_1 _), Hk, list_elem_of_In. }
  assert (append_json_escaped [] (txt (if side_eqb (xi_side intent) BID then "BUY" else "SELL")) =
          txt (if side_eqb (xi_side intent) BID then "BUY" else "SELL")) as Hside by (by case_match).
  assert (append_json_escaped [] (txt (order_type_str (xi_order_type intent))) = txt (order_type_str (xi_order_type intent)))
    as Htype by (by destruct (xi_order_type intent)).
  destruct (post_only _ && _); destruct (xi_neg_risk intent); cbn [app]; cbn [print_json];
    rewrite Hside, Htype, !txt_str_of, !(escape_plain (int_to_chars _)) by apply plain_int;
    rewrite (escape_plain (maker_address_ ob)), (escape_plain (signer_address_ ob)), (escape_plain (txt (owner_uuid_ ob))),
      (escape_plain (txt (xi_asset_id intent))), (escape_plain (hex0x sig)) by (done || by apply plain_hex0x);
    rewrite !Hk by reflexivity;
    unfold quoted; rewrite <- ?app_assoc; cbn [app]; rewrite <- ?app_assoc; cbn [app]; rewrite ?app_nil_r;
    rewrite <- ?app_assoc; reflexivity.
Qed.

Lemma digits_value_digits acc l w : digits_value acc l = Some w -> Forall is_digit l.
Proof.
  revert acc. induction l as [|c l IH]; intros acc; simpl; [constructor|].
  destruct (digit_val c) as [d|] eqn:E; simpl; [|done]. intros Hw. constructor; [|by eapply IH].
  exists d. unfold digit_val in E. case_match; simplify_eq. bool_to_prop. split; [lia|].
  unfold digit_char, char_code in *. replace (48 + (Z.of_N (N_of_ascii c) - 48)) with (Z.of_N (N_of_ascii c)) by lia.
  by rewrite N2Z.id, ascii_N_embedding.
Qed.

Lemma amount_text n :
  0 <= n <= INT64_MAX -> be_value (decimal_to_uint256 (int_to_chars n)).1 = n.
Proof.
  intros Hn. unfold int_to_chars. rewrite (proj2 (Z.ltb_ge _ _)) by lia.
  apply decimal_to_uint256_value; [apply to_string_nonempty| |unfold INT64_MAX in Hn; lia].
  apply dec_digits_value; [unfold INT64_MAX in Hn; lia|lia].
Qed.

Lemma generate_salt_range draw : 0 <= generate_salt draw < 2 ^ 53.
Proof.
  unfold generate_salt. change (2 ^ 53 - 1) with (Z.ones 53). rewrite Z.land_ones by lia.
  apply Z.mod_pos_bound. lia.
Qed.

Lemma sign_order_bytes f d sig : sign_order f d = Some sig -> length sig = 65%nat /\ Forall is_byte sig.
Proof.
  unfold sign_order, sign_hash. destruct (ecdsa_sign_recoverable _) as [[s r]|] eqn:E; [|done].
  cbn. intros [= <-]. apply ecdsa_bytes in E as [Hl Hf]. rewrite length_app. simpl. split; [lia|].
  apply Forall_app. split; [done|]. constructor; [|constructor]. apply Z.mod_pos_bound. lia.
Qed.

Lemma predicted_oid_fits hash :
  length hash = 32%nat -> mk_OrderId (String.string_of_list_ascii (hex0x hash)) = str_of (hex0x hash).
Proof.
  intros Hl. apply mk_OrderId_id. unfold id_fits, kMaxOrderIdLen, hex0x.
  assert (forall l, String.length (String.string_of_list_ascii l) = length l) as -> by (induction l; simpl; congruence).
  rewrite length_app, length_hex_encode, Hl. simpl. lia.
Qed.

(** *** The document and the signed structure *)

(** The member of the order in the document. *)
Definition order_member (doc : Json) (key : string) : Simd Json :=
  match field "order" doc with inl order => field key order | inr e => inr e end.
(** A text member that a decoder reads as a value. *)
Definition reads_as {A} (doc : Json) (key : string) (decode : list ascii -> option A) (v : A) : Prop :=
  exists s, order_member doc key = inl (JString s) /\ decode (txt s) = Some v.
(** The document states every field of the structure: decimal numbers, addresses in
    hexadecimal, the side by its name. *)
Record document_states (doc : Json) (f : OrderFields) : Prop := {
  ds_salt : order_member doc "salt" = inl (JInt (be_value (of_salt f)));
  ds_maker : reads_as doc "maker" parse_eth_address (of_maker f);
  ds_signer : reads_as doc "signer" parse_eth_address (of_signer f);
  ds_taker : reads_as doc "taker" parse_eth_address (of_taker f);
  ds_token : reads_as doc "tokenId" (digits_value 0) (be_value (of_token_id f));
  ds_maker_amount : reads_as doc "makerAmount" (digits_value 0) (be_value (of_maker_amount f));
  ds_taker_amount : reads_as doc "takerAmount" (digits_value 0) (be_value (of_taker_amount f));
  ds_expiration : reads_as doc "expiration" (digits_value 0) (of_expiration f);
  ds_nonce : reads_as doc "nonce" (digits_value 0) (of_nonce f);
  ds_fee : reads_as doc "feeRateBps" (digits_value 0) (of_fee_rate_bps f);
  ds_side : order_member doc "side" = inl (JString "BUY") /\ of_side f = 0 \/ order_member doc "side" = inl (JString "SELL") /\ of_side f = 1;
  ds_signature_type : order_member doc "signatureType" = inl (JInt (of_signature_type f)) }.

Lemma hex_pairs_are_bytes l r : hex_pairs l = Some r -> Forall is_byte r.
Proof.
  assert (forall c d, hex_val c = Some d -> 0 <= d < 16) as Hv.
  { intros c d. unfold hex_val. repeat case_match; intros [= <-]; bool_to_prop; lia. }
  assert (forall n l r, (length l <= n)%nat -> hex_pairs l = Some r -> Forall is_byte r) as Hn; [|by apply (Hn (length l))]. clear l r.
  induction n as [|n IH]; intros [|a [|b l]] r Hl; cbn [length] in Hl; try lia; try (by intros [= <-]); try done; []. cbn [hex_pairs].
  destruct (hex_val a) as [x|] eqn:Ea; [|done]. destruct (hex_val b) as [y|] eqn:Eb; [|done]. cbn [mbind option_bind].
  destruct (hex_pairs l) as [r'|] eqn:El; [|done]. intros [= <-]. constructor; [|by apply (IH l); [lia|]]. apply Hv in Ea, Eb.
  assert (Z.lor (Z.shiftl x 4) y = x * 16 + y) as ->; [|lia].
  rewrite Z.shiftl_mul_pow2 by lia. change (2 ^ 4) with 16. rewrite <- Z.add_lor_land, Z.add_comm.
  assert (Z.land (x * 16) y = 0) as ->; [|lia]. apply Z.bits_inj_0. intros b0. rewrite Z.land_spec.
  destruct (Z.lt_ge_cases b0 0); [by rewrite !Z.testbit_neg_r|]. change 16 with (2 ^ 4). destruct (Z.lt_ge_cases b0 4).
  - by rewrite Z.mul_pow2_bits_low.
  - rewrite (Z.bits_above_log2 y b0), andb_false_r; [done|lia|]. destruct (Z.eq_dec y 0) as [->|]; [cbn; lia|]. apply Z.log2_lt_pow2; [lia|].
    apply Z.lt_le_trans with (2 ^ 4); [lia|]. apply Z.pow_le_mono_r; lia.
Qed.
Lemma parse_eth_address_wf l a : parse_eth_address l = Some a -> length a = 20%nat /\ Forall is_byte a.
Proof.
  unfold parse_eth_address. destruct (hex_decode l 20) as [r|] eqn:E; [|done]. cbn [mbind option_bind]. destruct (Nat.eqb_spec (length r) 20); [|done]. intros [= <-].
  split; [done|]. unfold hex_decode in E. repeat case_match; try done; by eapply hex_pairs_are_bytes.
Qed.
Lemma int_text_value n : 0 <= n <= INT64_MAX -> digits_value 0 (int_to_chars n) = Some n.
Proof.
  intros Hn. unfold int_to_chars. rewrite (proj2 (Z.ltb_ge _ _)) by lia. apply dec_digits_value; [unfold INT64_MAX in Hn; lia|lia].
Qed.
Lemma reads_text doc key (l : list ascii) {A} (decode : list ascii -> option A) v : order_member doc key = inl (text_json l) -> decode l = Some v -> reads_as doc key decode v.
Proof. intros Hm Hd. exists (str_of l). by rewrite txt_str_of. Qed.

(** What a builder is made of. *)
Lemma builder_made owner maker signer cfg ob : OrderBuilder_new owner maker signer cfg = Some ob ->
  parse_eth_address (maker_address_ ob) = Some (maker_addr_bytes_ ob) /\ parse_eth_address (signer_address_ ob) = Some (signer_addr_bytes_ ob) /\
  domain_sep_normal_ ob = compute_domain_separator CTF_EXCHANGE_ADDRESS /\ domain_sep_neg_risk_ ob = compute_domain_separator NEG_RISK_CTF_EXCHANGE_ADDRESS.
Proof.
  unfold OrderBuilder_new. destruct (parse_eth_address (txt maker)) as [m|] eqn:Em; [|done]. destruct (parse_eth_address (txt signer)) as [s|] eqn:Es; [|done].
  cbn [mbind option_bind]. intros [= <-]. cbn. apply parse_eth_address_wf in Em as [? ?], Es as [? ?]. by rewrite !eip55_roundtrip.
Qed.
Definition exchange_of (intent : ExecIntent) : list Z := if xi_neg_risk intent then NEG_RISK_CTF_EXCHANGE_ADDRESS else CTF_EXCHANGE_ADDRESS.

Lemma order_doc_states ob intent salt m k sig owner maker signer cfg t :
  OrderBuilder_new owner maker signer cfg = Some ob -> digits_value 0 (txt (xi_asset_id intent)) = Some t -> xi_asset_id intent <> ""%string -> t < 2 ^ 256 ->
  0 <= salt < 2 ^ 64 -> 0 <= m <= INT64_MAX -> 0 <= k <= INT64_MAX -> 0 <= xi_expiration intent <= INT64_MAX -> 0 <= xi_fee_rate_bps intent <= INT64_MAX ->
  document_states (order_doc ob intent salt m k sig) (order_fields ob intent salt (int_to_chars m) (int_to_chars k)).
Proof.
  intros Hnew Ht Hne Hmax Hs Hm Hk He Hf. destruct (builder_made _ _ _ _ _ Hnew) as (Hmk & Hsg & _).
  destruct (decimal_to_uint256_value (txt (xi_asset_id intent)) t) as [_ Htok]; [by destruct (xi_asset_id intent)|done|done|].
  split; cbn [order_fields of_salt of_maker of_signer of_taker of_token_id of_maker_amount of_taker_amount of_expiration of_nonce of_fee_rate_bps of_side of_signature_type].
  - rewrite uint64_be_value by lia. done.
  - by eapply reads_text; [reflexivity|].
  - by eapply reads_text; [reflexivity|].
  - eexists. split; [reflexivity|]. reflexivity.
  - exists (xi_asset_id intent). split; [done|]. by rewrite Htok.
  - eapply reads_text; [reflexivity|]. rewrite amount_text by done. by apply int_text_value.
  - eapply reads_text; [reflexivity|]. rewrite amount_text by done. by apply int_text_value.
  - eapply reads_text; [reflexivity|]. rewrite int_text_value by done. unfold wrap_u64. rewrite Z.mod_small; [done|unfold INT64_MAX in He; lia].
  - exists "0"%string. by split.
  - eapply reads_text; [reflexivity|]. by apply int_text_value.
  - unfold order_member. cbn. destruct (xi_side intent); [by left|by right].
  - done.
Qed.

End Sent.

(** ** Witness *)
Definition sample_builder : OrderBuilder :=
  mkOrderBuilder "owner-1" (txt "0x4bFb41d5B3570DeFd03C39a9A4D8dE6Bd8B8982E") (txt "0x4bFb41d5B3570DeFd03C39a9A4D8dE6Bd8B8982E")
    (mkOrderBuilderConfig false true 0) CTF_EXCHANGE_ADDRESS CTF_EXCHANGE_ADDRESS (replicate 32 1) (replicate 32 2).
Definition sample_order : ExecIntent :=
  ExecIntent_default <| xi_asset_id := "1234567890"%string |> <| xi_client_order_id := "c1"%string |>
    <| xi_price := 5200 |> <| xi_size := 10000000 |>.

Lemma sample_builder_plain : builder_plain sample_builder.
Proof.
  assert (forall l, forallb (fun c => bool_decide (escape_char c = [c])) l = true -> plain l) as Hp.
  { intros l Hl. apply Forall_forall. rewrite forallb_forall in Hl. intros c Hc.
    by apply (bool_decide_eq_true_1 _), Hl, list_elem_of_In. }
  split_and!; apply Hp; reflexivity.
Qed.

Definition made_builder : OrderBuilder :=
  default sample_builder (OrderBuilder_new (H := toy_crypto) "owner-1" "0x4bFb41d5B3570DeFd03C39a9A4D8dE6Bd8B8982E" "0x4bFb41d5B3570DeFd03C39a9A4D8dE6Bd8B8982E" (mkOrderBuilderConfig false true 0)).
Lemma made_builder_plain : builder_plain made_builder.
Proof.
  assert (forall l, forallb (fun c => bool_decide (escape_char c = [c])) l = true -> plain l) as Hp.
  { intros l Hl. apply Forall_forall. rewrite forallb_forall in Hl. intros c Hc.
    by apply (bool_decide_eq_true_1 _), Hl, list_elem_of_In. }
  split_and!; apply Hp; vm_compute; reflexivity.
Qed.
