(* ===== verification/JsonText.v ===== *)
(** A reader of JSON texts, the counterpart of the printer of [OrderBuilder.v].

    The program reads JSON with a third-party parser, the class [JsonParser].  The
    reader is a reference: it gives the meaning of the texts the program writes, and
    an instance of the class.  It is total, with the length of the text as its fuel.

    Shown: every document whose numbers are in range reads back from its printed
    text, whatever strings it contains and whatever follows it. *)
From Stdlib Require Import Ascii.
From S2P Require Import Prelude Types Price Json MessageRoundtrip Crypto OrderBuilder.

(** ** The reader *)
Definition is_ws (c : ascii) : bool :=
  bool_decide (c = " "%char) || bool_decide (c = "009"%char) || bool_decide (c = "010"%char) || bool_decide (c = "013"%char).
Fixpoint skip_ws (l : text) : text :=
  match l with
  | c :: r => if is_ws c then skip_ws r else l
  | [] => []
  end.

(** The longest prefix of characters that satisfy a test. *)
Fixpoint span (p : ascii -> bool) (l : text) : text * text :=
  match l with
  | c :: r => if p c then let '(a, b) := span p r in (c :: a, b) else ([], l)
  | [] => ([], [])
  end.

Definition digit (c : ascii) : bool := match digit_val c with Some _ => true | None => false end.
Definition num_char (c : ascii) : bool :=
  digit c || bool_decide (c = "-"%char) || bool_decide (c = "+"%char) || bool_decide (c = "."%char) ||
  bool_decide (c = "e"%char) || bool_decide (c = "E"%char).

(** Digits without a leading zero. *)
Definition strict_digits (ds : text) : bool :=
  forallb digit ds && match ds with [] => false | c :: _ :: _ => negb (bool_decide (c = "0"%char)) | _ => true end.
Definition strip_minus (l : text) : bool * text :=
  match l with c :: r => if bool_decide (c = "-"%char) then (true, r) else (false, l) | [] => (false, l) end.
Definition read_int (l : text) : option Z :=
  let '(neg, ds) := strip_minus l in
  if strict_digits ds then v ← digits_value 0 ds; Some (if (neg : bool) then - v else v) else None.

Definition digits1 (ds : text) : bool := forallb digit ds && match ds with [] => false | _ => true end.
Definition is_exponent (l : text) : bool :=
  match l with
  | e :: r => (bool_decide (e = "e"%char) || bool_decide (e = "E"%char)) &&
              digits1 (match r with s :: r' => if bool_decide (s = "+"%char) || bool_decide (s = "-"%char) then r' else r | [] => [] end)
  | [] => true
  end.
(** A number with a fraction or an exponent. *)
Definition is_double (l : text) : bool :=
  let '(ip, rest) := span digit (strip_minus l).2 in
  strict_digits ip &&
  match rest with
  | [] => false
  | c :: r => if bool_decide (c = "."%char) then let '(fp, r) := span digit r in digits1 fp && is_exponent r else is_exponent rest
  end.
Definition read_number (l : text) : option (Json * text) :=
  let '(n, rest) := span num_char l in
  match read_int n with
  | Some z => Some (JInt z, rest)
  | None => if is_double n then Some (JDouble (str_of n), rest) else None
  end.

(** The character an escape denotes. *)
Definition unescape (e : ascii) : option ascii :=
  if bool_decide (e = dquote) then Some dquote else if bool_decide (e = backslash) then Some backslash else
  if bool_decide (e = "/"%char) then Some "/"%char else if bool_decide (e = "b"%char) then Some "008"%char else
  if bool_decide (e = "f"%char) then Some "012"%char else if bool_decide (e = "n"%char) then Some "010"%char else
  if bool_decide (e = "r"%char) then Some "013"%char else if bool_decide (e = "t"%char) then Some "009"%char else None.
(** The rest of a string literal, up to its closing quote.  Code points from 128 on
    are written unescaped, as their bytes. *)
Fixpoint read_chars (l : text) : option (text * text) :=
  match l with
  | [] => None
  | c :: l =>
      if bool_decide (c = dquote) then Some ([], l)
      else if bool_decide (c = backslash) then
        match l with
        | "u"%char :: h3 :: h2 :: h1 :: h0 :: l =>
            a ← hex_val h3; b ← hex_val h2; d ← hex_val h1; e ← hex_val h0;
            let n := ((a * 16 + b) * 16 + d) * 16 + e in
            if n <? 128 then '(s, l) ← read_chars l; Some (ascii_of_N (Z.to_N n) :: s, l) else None
        | e :: l => x ← unescape e; '(s, l) ← read_chars l; Some (x :: s, l)
        | [] => None
        end
      else if char_code c <? 32 then None
      else '(s, l) ← read_chars l; Some (c :: s, l)
  end.

(** A character that has to come next. *)
Definition eat (c : ascii) (l : text) : option text :=
  match skip_ws l with d :: l => if bool_decide (d = c) then Some l else None | [] => None end.

Section Containers.
Variable read : text -> option (Json * text).

Fixpoint read_elements (fuel : nat) (l : text) : option (list Json * text) :=
  match fuel with
  | O => None
  | S fuel =>
      '(j, l) ← read l;
      match eat "," l with
      | Some l => '(js, l) ← read_elements fuel l; Some (j :: js, l)
      | None => l ← eat "]" l; Some ([j], l)
      end
  end.
Definition read_member (l : text) : option (string * Json * text) :=
  l ← eat dquote l; '(k, l) ← read_chars l; l ← eat ":" l; '(j, l) ← read l; Some (str_of k, j, l).
Fixpoint read_members (fuel : nat) (l : text) : option (list (string * Json) * text) :=
  match fuel with
  | O => None
  | S fuel =>
      '(m, l) ← read_member l;
      match eat "," l with
      | Some l => '(ms, l) ← read_members fuel l; Some (m :: ms, l)
      | None => l ← eat "}" l; Some ([m], l)
      end
  end.
End Containers.

(** A literal name. *)
Fixpoint eat_text (s l : text) : option text :=
  match s, l with
  | [], _ => Some l
  | c :: s, d :: l => if bool_decide (c = d) then eat_text s l else None
  | _, [] => None
  end.

Fixpoint read_value (fuel : nat) (l : text) : option (Json * text) :=
  match fuel with
  | O => None
  | S fuel =>
      let l := skip_ws l in
      match l with
      | [] => None
      | c :: r =>
          if bool_decide (c = "{"%char) then
            match eat "}" r with
            | Some r => Some (JObject [], r)
            | None => '(ms, r) ← read_members (read_value fuel) fuel r; Some (JObject ms, r)
            end
          else if bool_decide (c = "["%char) then
            match eat "]" r with
            | Some r => Some (JArray [], r)
            | None => '(js, r) ← read_elements (read_value fuel) fuel r; Some (JArray js, r)
            end
          else if bool_decide (c = dquote) then '(s, r) ← read_chars r; Some (JString (str_of s), r)
          else if bool_decide (c = "t"%char) then r ← eat_text (txt "true") l; Some (JBool true, r)
          else if bool_decide (c = "f"%char) then r ← eat_text (txt "false") l; Some (JBool false, r)
          else if bool_decide (c = "n"%char) then r ← eat_text (txt "null") l; Some (JNull, r)
          else read_number l
      end
  end.
(** A text is one value. *)
Definition read_json (l : text) : option Json :=
  '(j, r) ← read_value (S (length l)) l; match skip_ws r with [] => Some j | _ => None end.

Definition json_reader : JsonParser := {| parse_json := fun s => read_json (txt s) |}.

(** ** Printed documents *)

(** The elements and members of a printed container. *)
Fixpoint print_elements (first : bool) (l : list Json) : text :=
  match l with
  | [] => []
  | j :: l => (if first then [] else txt ",") ++ print_json j ++ print_elements false l
  end.
Definition print_key (k : string) : text := quoted (append_json_escaped [] (txt k)).
Fixpoint print_members (first : bool) (l : list (string * Json)) : text :=
  match l with
  | [] => []
  | (k, j) :: l => (if first then [] else txt ",") ++ print_key k ++ txt ":" ++ print_json j ++ print_members false l
  end.
Lemma print_array l : print_json (JArray l) = txt "[" ++ print_elements true l ++ txt "]".
Proof. reflexivity. Qed.
Lemma print_object l : print_json (JObject l) = txt "{" ++ print_members true l ++ txt "}".
Proof. reflexivity. Qed.

(** Induction over documents. *)
Section JsonInd.
Variable P : Json -> Prop.
Hypotheses (Hnull : P JNull) (Hbool : forall b, P (JBool b)) (Hint : forall z, P (JInt z)) (Hdouble : forall s, P (JDouble s))
  (Hstring : forall s, P (JString s)) (Harray : forall l, Forall P l -> P (JArray l))
  (Hobject : forall l, Forall (fun m => P m.2) l -> P (JObject l)).
Fixpoint json_ind (j : Json) : P j :=
  match j with
  | JNull => Hnull | JBool b => Hbool b | JInt z => Hint z | JDouble s => Hdouble s | JString s => Hstring s
  | JArray l => Harray l ((fix go l : Forall P l :=
      match l with [] => Forall_nil_2 _ | j :: l => Forall_cons_2 _ _ _ (json_ind j) (go l) end) l)
  | JObject l => Hobject l ((fix go l : Forall (fun m => P m.2) l :=
      match l with [] => Forall_nil_2 _ | m :: l => Forall_cons_2 _ m _ (json_ind m.2) (go l) end) l)
  end.
End JsonInd.

(** Integers of at most twenty digits, and well-formed floating-point literals. *)
Fixpoint numbers_ok (j : Json) : bool :=
  match j with
  | JInt z => Z.abs z <? 10 ^ 20
  | JDouble s => forallb num_char (txt s) && is_double (txt s)
  | JArray l => forallb numbers_ok l
  | JObject l => forallb (fun m => numbers_ok m.2) l
  | _ => true
  end.

(** What follows a value does not continue a number. *)
Definition ends (rest : text) : Prop := match rest with c :: _ => num_char c = false | [] => True end.

(** *** Numbers *)
Lemma span_all p l rest : forallb p l = true -> match rest with c :: _ => p c = false | [] => True end -> span p (l ++ rest) = (l, rest).
Proof.
  intros Hl Hr. induction l as [|c l IH]; simpl in *.
  - destruct rest as [|c r]; [done|]. simpl. by rewrite Hr.
  - apply andb_true_iff in Hl as [Hc Hl]. by rewrite Hc, (IH Hl).
Qed.
Lemma digit_is c : is_digit c -> digit c = true /\ num_char c = true.
Proof.
  intros (d & Hd & ->). unfold num_char, digit. by rewrite digit_val_char.
Qed.
Lemma digits_all l : Forall is_digit l -> forallb digit l = true /\ forallb num_char l = true.
Proof.
  induction 1 as [|c l Hc _ [IH1 IH2]]; [done|]. destruct (digit_is c Hc) as [H1 H2]. simpl. by rewrite H1, H2, IH1, IH2.
Qed.
Lemma dec_digits_head f n : 0 < n < 10 ^ Z.of_nat f -> exists c r, dec_digits f n = c :: r /\ c <> "0"%char.
Proof.
  revert n. induction f as [|f IH]; intros n Hn; [change (10 ^ Z.of_nat 0) with 1 in Hn; lia|]. cbn [dec_digits].
  rewrite Nat2Z.inj_succ, Z.pow_succ_r in Hn by lia. destruct (Z.ltb_spec n 10) as [Hs|Hs].
  - eexists _, []. split; [reflexivity|]. rewrite Z.mod_small by lia. intros E.
    assert (digit_val (digit_char n) = Some 0) as E' by (by rewrite E). rewrite digit_val_char in E' by lia. injection E'. lia.
  - destruct (IH (n / 10)) as (c & r & -> & Hc); [|by eexists _, _].
    split; [apply Z.div_str_pos; lia|apply Z.div_lt_upper_bound; lia].
Qed.
Lemma strict_to_string n : 0 <= n < 10 ^ 20 -> strict_digits (to_string n) = true.
Proof.
  intros Hn. unfold strict_digits. rewrite (proj1 (digits_all _ (to_string_digits n))).
  destruct (Z.eq_dec n 0) as [->|Hz]; [done|]. destruct (dec_digits_head 20 n) as (c & r & E & Hc); [change (Z.of_nat 20) with 20; lia|].
  unfold to_string. rewrite E. destruct r; [done|]. by rewrite bool_decide_eq_false_2.
Qed.
Lemma to_string_not_minus n r : to_string n <> "-"%char :: r.
Proof.
  intros E. pose proof (to_string_digits n) as Hd. rewrite E in Hd. apply Forall_cons in Hd as [Hd _].
  by destruct (digit_not_special _ Hd).
Qed.
Lemma strip_to_string n : strip_minus (to_string n) = (false, to_string n).
Proof.
  unfold strip_minus. destruct (to_string n) as [|c r] eqn:E; [done|]. rewrite bool_decide_eq_false_2; [done|].
  intros ->. by apply to_string_not_minus in E.
Qed.
Lemma read_int_print z : Z.abs z < 10 ^ 20 -> read_int (int_to_chars z) = Some z.
Proof.
  intros Hz. assert (forall n, 0 <= n < 10 ^ 20 -> digits_value 0 (to_string n) = Some n) as Hv
    by (intros n Hn; apply dec_digits_value; [change (Z.of_nat 20) with 20; lia|lia]).
  unfold read_int, int_to_chars. destruct (Z.ltb_spec z 0).
  - cbn [strip_minus]. rewrite bool_decide_eq_true_2 by done. rewrite strict_to_string, Hv by lia. cbn [mbind option_bind]. f_equal. lia.
  - rewrite strip_to_string, strict_to_string, Hv by lia. done.
Qed.
Lemma num_chars_int z : forallb num_char (int_to_chars z) = true.
Proof.
  unfold int_to_chars. pose proof (proj2 (digits_all _ (to_string_digits (- z)))). pose proof (proj2 (digits_all _ (to_string_digits z))).
  case_match; [|done]. cbn [forallb]. by rewrite andb_true_iff.
Qed.
Lemma strict_no_double l : is_double l = true -> read_int l = None.
Proof.
  unfold is_double, read_int. destruct (strip_minus l) as [neg ds]. cbn [snd].
  destruct (strict_digits ds) eqn:E; [|done]. unfold strict_digits in E. apply andb_true_iff in E as [E _].
  pose proof (span_all digit ds [] E I) as Hs. rewrite app_nil_r in Hs. rewrite Hs. rewrite andb_false_r. done.
Qed.
Lemma read_number_int z rest : Z.abs z < 10 ^ 20 -> ends rest -> read_number (int_to_chars z ++ rest) = Some (JInt z, rest).
Proof.
  intros Hz He. unfold read_number. rewrite span_all by (done || apply num_chars_int). by rewrite read_int_print.
Qed.
Lemma read_number_double s rest : forallb num_char (txt s) && is_double (txt s) = true -> ends rest ->
  read_number (txt s ++ rest) = Some (JDouble s, rest).
Proof.
  intros [H1 H2]%andb_true_iff He. unfold read_number. rewrite span_all by done. rewrite strict_no_double, H2 by done.
  unfold str_of, txt. by rewrite String.string_of_list_ascii_of_string.
Qed.

(** *** Strings *)
Lemma read_chars_escaped c l : read_chars (escape_char c ++ l) = ('(s, r) ← read_chars l; Some (c :: s, r)).
Proof. destruct c as [[] [] [] [] [] [] [] []]; reflexivity. Qed.
Lemma read_chars_print s rest : read_chars (append_json_escaped [] s ++ dquote :: rest) = Some (s, rest).
Proof.
  unfold append_json_escaped. cbn [app]. induction s as [|c s IH]; [reflexivity|].
  rewrite fmap_cons, concat_cons, <- app_assoc, read_chars_escaped, IH. done.
Qed.

(** *** Containers *)
Lemma skip_ws_solid c l : is_ws c = false -> skip_ws (c :: l) = c :: l.
Proof. intros E. simpl. by rewrite E. Qed.
Lemma eat_hit c l : is_ws c = false -> eat c (c :: l) = Some l.
Proof. intros E. unfold eat. rewrite skip_ws_solid by done. by rewrite bool_decide_eq_true_2. Qed.
Lemma eat_miss c d l : is_ws d = false -> d <> c -> eat c (d :: l) = None.
Proof. intros E Hd. unfold eat. rewrite skip_ws_solid by done. by rewrite bool_decide_eq_false_2. Qed.
Lemma print_key_app k l : print_key k ++ l = dquote :: append_json_escaped [] (txt k) ++ dquote :: l.
Proof. unfold print_key, quoted. cbn [app]. by rewrite <- app_assoc. Qed.
Lemma str_of_txt s : str_of (txt s) = s.
Proof. apply String.string_of_list_ascii_of_string. Qed.

(** The first character of a value tells its kind. *)
Lemma number_first c : num_char c = true ->
  (is_ws c || bool_decide (c = "{"%char) || bool_decide (c = "["%char) || bool_decide (c = dquote) || bool_decide (c = "t"%char) ||
   bool_decide (c = "f"%char) || bool_decide (c = "n"%char) || bool_decide (c = "]"%char)) = false.
Proof. destruct c as [[] [] [] [] [] [] [] []]; (reflexivity || discriminate). Qed.
Lemma double_nonempty s : is_double (txt s) = true -> exists c r, txt s = c :: r.
Proof. destruct (txt s); [discriminate|eauto]. Qed.
Lemma int_nonempty z : exists c r, int_to_chars z = c :: r.
Proof.
  unfold int_to_chars. case_match; [eauto|]. destruct (to_string z) eqn:E; [by apply to_string_nonempty in E|eauto].
Qed.
Lemma number_chars j : numbers_ok j = true -> (exists z, j = JInt z) \/ (exists s, j = JDouble s) ->
  exists c r, print_json j = c :: r /\ num_char c = true.
Proof.
  intros Hj [[z ->]|[s ->]]; cbn [print_json].
  - destruct (int_nonempty z) as (c & r & E). pose proof (num_chars_int z) as Hc. rewrite E in *. exists c, r. split; [done|].
    cbn [forallb] in Hc. by apply andb_true_iff in Hc as [Hc _].
  - simpl in Hj. apply andb_true_iff in Hj as [Hc Hd]. destruct (double_nonempty s Hd) as (c & r & E). rewrite E in *. exists c, r.
    split; [done|]. cbn [forallb] in Hc. by apply andb_true_iff in Hc as [Hc _].
Qed.
Lemma print_first j : numbers_ok j = true -> exists c r, print_json j = c :: r /\ is_ws c = false /\ c <> "]"%char.
Proof.
  intros Hj. destruct j as [|b|z|s|s|l|l].
  1,5,6,7: by eexists _, _. 1: destruct b; by eexists _, _.
  1: destruct (number_chars (JInt z) Hj) as (c & r & E & Hn); [eauto|]. 2: destruct (number_chars (JDouble s) Hj) as (c & r & E & Hn); [eauto|].
  all: exists c, r; split; [done|]; pose proof (number_first c Hn) as Hf; rewrite !orb_false_iff, !bool_decide_eq_false in Hf; tauto.
Qed.
Lemma read_value_number fuel c r : num_char c = true -> read_value (S fuel) (c :: r) = read_number (c :: r).
Proof.
  intros Hn. pose proof (number_first c Hn) as Hf. rewrite !orb_false_iff in Hf. destruct Hf as (((((((Hw & H1) & H2) & H3) & H4) & H5) & H6) & _).
  cbn [read_value]. rewrite skip_ws_solid by done. by rewrite H1, H2, H3, H4, H5, H6.
Qed.

(** What a container needs of the reader of its values. *)
Definition reads (read : text -> option (Json * text)) (j : Json) : Prop :=
  forall rest, ends rest -> read (print_json j ++ rest) = Some (j, rest).

Lemma print_elements_next j l : print_elements false (j :: l) = txt "," ++ print_elements true (j :: l).
Proof. reflexivity. Qed.
Lemma read_elements_print read l fuel rest : l <> [] -> Forall (reads read) l -> (length l <= fuel)%nat ->
  read_elements read fuel (print_elements true l ++ "]"%char :: rest) = Some (l, rest).
Proof.
  intros Hne Hl. revert fuel. induction Hl as [|j l Hj Hl IH]; intros fuel Hf; [done|]. destruct fuel as [|fuel]; [simpl in Hf; lia|].
  cbn [print_elements read_elements app]. rewrite <- app_assoc. destruct l as [|j' l].
  - rewrite Hj by done. reflexivity.
  - rewrite print_elements_next. rewrite Hj by done. cbn [mbind option_bind]. rewrite <- app_assoc.
    change (txt "," ++ ?x) with (","%char :: x). rewrite eat_hit by done. rewrite IH by (done || simpl in *; lia). done.
Qed.
Lemma print_members_next m l : print_members false (m :: l) = txt "," ++ print_members true (m :: l).
Proof. by destruct m. Qed.
Lemma read_member_print read k j rest : reads read j -> ends rest ->
  read_member read (print_key k ++ txt ":" ++ print_json j ++ rest) = Some (k, j, rest).
Proof.
  intros Hj He. unfold read_member. rewrite print_key_app, eat_hit by done. cbn [mbind option_bind].
  rewrite read_chars_print. cbn [mbind option_bind]. change (txt ":" ++ ?x) with (":"%char :: x). rewrite eat_hit by done.
  cbn [mbind option_bind]. rewrite Hj by done. cbn [mbind option_bind]. by rewrite str_of_txt.
Qed.
Lemma read_members_print read l fuel rest : l <> [] -> Forall (fun m => reads read m.2) l -> (length l <= fuel)%nat ->
  read_members read fuel (print_members true l ++ "}"%char :: rest) = Some (l, rest).
Proof.
  intros Hne Hl. revert fuel. induction Hl as [|[k j] l Hj Hl IH]; intros fuel Hf; [done|]. destruct fuel as [|fuel]; [simpl in Hf; lia|].
  cbn [print_members read_members app]. rewrite <- !app_assoc. destruct l as [|m' l].
  - rewrite read_member_print by done. reflexivity.
  - rewrite print_members_next. rewrite <- app_assoc. rewrite read_member_print by done. cbn [mbind option_bind].
    change (txt "," ++ ?x) with (","%char :: x). rewrite eat_hit by done. rewrite IH by (done || simpl in *; lia). done.
Qed.

(** The fuel of a container is enough for its values. *)
Lemma elements_length b l : forallb numbers_ok l = true ->
  (length l <= length (print_elements b l))%nat /\ Forall (fun j => length (print_json j) <= length (print_elements b l))%nat l.
Proof.
  revert b. induction l as [|j l IH]; intros b Hl; [done|]. cbn [forallb] in Hl. apply andb_true_iff in Hl as [Hj Hl].
  destruct (IH false Hl) as [H1 H2], (print_first j Hj) as (c & r & E & _).
  cbn [print_elements]. rewrite !length_app. split.
  - rewrite E. simpl. lia.
  - apply Forall_cons. split; [lia|]. eapply Forall_impl; [exact H2|]. simpl. intros. lia.
Qed.
Lemma members_length b l :
  (length l <= length (print_members b l))%nat /\ Forall (fun m => length (print_json m.2) <= length (print_members b l))%nat l.
Proof.
  revert b. induction l as [|[k j] l IH]; intros b; [done|]. destruct (IH false) as [H1 H2].
  cbn [print_members]. rewrite !length_app. split.
  - unfold print_key, quoted. simpl. lia.
  - apply Forall_cons. split; [simpl; lia|]. eapply Forall_impl; [exact H2|]. simpl. intros. lia.
Qed.

Lemma read_value_string fuel r : read_value (S fuel) (dquote :: r) = ('(s, r) ← read_chars r; Some (JString (str_of s), r)).
Proof. reflexivity. Qed.
Lemma read_value_array fuel r : read_value (S fuel) ("["%char :: r) =
  match eat "]" r with
  | Some r => Some (JArray [], r)
  | None => '(js, r) ← read_elements (read_value fuel) fuel r; Some (JArray js, r)
  end.
Proof. reflexivity. Qed.
Lemma read_value_object fuel r : read_value (S fuel) ("{"%char :: r) =
  match eat "}" r with
  | Some r => Some (JObject [], r)
  | None => '(ms, r) ← read_members (read_value fuel) fuel r; Some (JObject ms, r)
  end.
Proof. reflexivity. Qed.

Lemma eat_miss_value c j l : numbers_ok j = true -> c = "]"%char -> eat c (print_json j ++ l) = None.
Proof. intros Hj ->. destruct (print_first j Hj) as (d & r & -> & Hw & Hd). by apply eat_miss. Qed.

Lemma read_array_print fuel l rest : forallb numbers_ok l = true -> (length (print_json (JArray l)) <= fuel)%nat ->
  Forall (fun j => (length (print_json j) < fuel)%nat -> reads (read_value fuel) j) l ->
  read_value (S fuel) (print_json (JArray l) ++ rest) = Some (JArray l, rest).
Proof.
  intros Hok Hf IH. rewrite print_array in *. rewrite <- !app_assoc. change (txt "[" ++ ?x) with ("["%char :: x). rewrite read_value_array.
  change (txt "]" ++ rest) with ("]"%char :: rest). rewrite !length_app in Hf. simpl in Hf. destruct l as [|j l]; [reflexivity|].
  destruct (elements_length true (j :: l) Hok) as [H1 H2].
  replace (eat "]" (print_elements true (j :: l) ++ "]"%char :: rest)) with (@None text).
  - rewrite read_elements_print; [done|done| |lia]. rewrite Forall_forall in *. intros x Hx. apply IH; [done|]. specialize (H2 x Hx). lia.
  - cbn [forallb] in Hok. apply andb_true_iff in Hok as [Hj _]. cbn [print_elements app]. rewrite <- app_assoc. symmetry. by apply eat_miss_value.
Qed.
Lemma read_object_print fuel l rest : (length (print_json (JObject l)) <= fuel)%nat ->
  Forall (fun m => (length (print_json m.2) < fuel)%nat -> reads (read_value fuel) m.2) l ->
  read_value (S fuel) (print_json (JObject l) ++ rest) = Some (JObject l, rest).
Proof.
  intros Hf IH. rewrite print_object in *. rewrite <- !app_assoc. change (txt "{" ++ ?x) with ("{"%char :: x). rewrite read_value_object.
  change (txt "}" ++ rest) with ("}"%char :: rest). rewrite !length_app in Hf. simpl in Hf. destruct l as [|m l]; [reflexivity|].
  destruct (members_length true (m :: l)) as [H1 H2].
  replace (eat "}" (print_members true (m :: l) ++ "}"%char :: rest)) with (@None text).
  - rewrite read_members_print; [done|done| |lia]. rewrite Forall_forall in *. intros x Hx. apply IH; [done|]. specialize (H2 x Hx). simpl in *. lia.
  - destruct m as [k j]. reflexivity.
Qed.

Lemma read_print j : numbers_ok j = true -> forall fuel, (length (print_json j) < fuel)%nat -> reads (read_value fuel) j.
Proof.
  induction j as [|b|z|s|s|l IH|l IH] using json_ind; intros Hok fuel Hf rest He; (destruct fuel as [|fuel]; [lia|]).
  - reflexivity.
  - destruct b; reflexivity.
  - destruct (number_chars (JInt z) Hok) as (c & r & E & Hn); [eauto|]. rewrite E. cbn [app]. rewrite read_value_number by done.
    rewrite app_comm_cons, <- E. apply read_number_int; [|done]. simpl in Hok. by apply Z.ltb_lt in Hok.
  - destruct (number_chars (JDouble s) Hok) as (c & r & E & Hn); [eauto|]. rewrite E. cbn [app]. rewrite read_value_number by done.
    rewrite app_comm_cons, <- E. by apply read_number_double.
  - change (print_json (JString s)) with (print_key s). rewrite print_key_app, read_value_string, read_chars_print.
    cbn [mbind option_bind]. by rewrite str_of_txt.
  - apply read_array_print; [done|lia|]. cbn [numbers_ok] in Hok. rewrite forallb_forall in Hok. rewrite Forall_forall in *.
    intros j Hj Hlen. apply IH; [done| |done]. by apply Hok, list_elem_of_In.
  - apply read_object_print; [lia|]. cbn [numbers_ok] in Hok. rewrite forallb_forall in Hok. rewrite Forall_forall in *.
    intros m Hm Hlen. apply IH; [done| |done]. by apply (Hok m), list_elem_of_In.
Qed.

(** A printed document reads back as it was, whatever strings it contains. *)
Theorem json_roundtrip (j : Json) : numbers_ok j = true -> read_json (print_json j) = Some j.
Proof.
  intros Hj. unfold read_json. pose proof (read_print j Hj (S (length (print_json j))) (Nat.lt_succ_diag_r _) [] I) as Hr.
  rewrite app_nil_r in Hr. by rewrite Hr.
Qed.
