(* ===== verification/Metrics.v ===== *)
(** Counters and latency samples: [src/logger/metrics.h], [src/logger/metrics.cpp].

    The counters are relaxed atomics: an operation is one step of an interleaving.
    Sums of samples are unbounded integers here (8192 samples of up to twelve days
    fit 64 bits).  The latency lines of [dump] are formatted from floating-point
    values by [printf], a parameter.

    Shown: a tracker's snapshot is the newest 8192 samples, oldest first, as long as
    fewer than 2^31 samples were recorded, and empty with a negative count for the
    next 2^31; at least the stated share of the samples is below (and above) a
    percentile; a counter counts its increments along every interleaving; eight
    metrics have no name. *)
From Stdlib Require Import Ascii Sorted.
From stdpp Require Import sorting.
From S2P Require Import Prelude Types Price TokenInventory MessageRoundtrip OrderBuilder.

(** ** Latency trackers *)
Module LatencyTracker.
Definition kLatencyRingSize : Z := 8192.
Record LatencyTracker := mkLatencyTracker { samples_ : list Z; write_pos_ : Z }.
Definition LatencyTracker_new : LatencyTracker := mkLatencyTracker (replicate (Z.to_nat kLatencyRingSize) 0) 0.
Definition ring_index (pos : Z) : nat := Z.to_nat (Z.land pos (kLatencyRingSize - 1)).
Definition record (ns : Z) (t : LatencyTracker) : LatencyTracker :=
  mkLatencyTracker (<[ring_index (write_pos_ t) := ns]> (samples_ t)) (wrap_u32 (write_pos_ t + 1)).
(** The returned count and the samples copied. *)
Definition snapshot (max_out : Z) (t : LatencyTracker) : Z * list Z :=
  let pos := write_pos_ t in
  let count := wrap_i32 pos in
  let count := if count >? kLatencyRingSize then kLatencyRingSize else count in
  let count := if count >? max_out then max_out else count in
  (count, (fun i => samples_ t !!! ring_index (wrap_u32 (pos - count + Z.of_nat i))) <$> seq 0 (Z.to_nat count)).

Record LatencyPercentiles := mkLatencyPercentiles { avg_ns : Z; p50_ns : Z; p95_ns : Z; p99_ns : Z; lp_count : Z }.
Definition compute_percentiles (count : Z) (buf : list Z) : LatencyPercentiles :=
  if count <=? 0 then mkLatencyPercentiles 0 0 0 0 0 else
  let sum := sum_list_Z id buf in
  let buf := merge_sort Z.le buf in
  let at_ i := buf !!! Z.to_nat i in
  mkLatencyPercentiles (sum ÷ count) (at_ (count ÷ 2)) (at_ (Z.min (count - 1) (count * 95 ÷ 100)))
    (at_ (Z.min (count - 1) (count * 99 ÷ 100))) count.

(** *** Samples *)
Lemma ring_index_mod pos : ring_index pos = Z.to_nat (pos mod kLatencyRingSize).
Proof. unfold ring_index. f_equal. change (kLatencyRingSize - 1) with (Z.ones 13). by rewrite Z.land_ones. Qed.

(** The samples of a run: the newest ones are in the ring. *)
Definition tracks (xs : list Z) (t : LatencyTracker) : Prop :=
  write_pos_ t = Z.of_nat (length xs) mod 2 ^ 32 /\ length (samples_ t) = Z.to_nat kLatencyRingSize /\
  forall i x, xs !! i = Some x -> Z.of_nat (length xs) - Z.of_nat i <= kLatencyRingSize -> samples_ t !! ring_index (Z.of_nat i) = Some x.
Lemma tracks_new : tracks [] LatencyTracker_new.
Proof. split; [done|]. split; [apply length_replicate|]. intros i x Hx. by rewrite lookup_nil in Hx. Qed.
Lemma ring_index_wrap z : ring_index (z mod 2 ^ 32) = ring_index z.
Proof.
  rewrite !ring_index_mod. f_equal. change (2 ^ 32) with (kLatencyRingSize * 524288). rewrite Z.rem_mul_r by done.
  rewrite Z.mul_comm, Z.mod_add by done. apply Z.mod_mod. done.
Qed.
Lemma tracks_record xs t ns : tracks xs t -> tracks (xs ++ [ns]) (record ns t).
Proof.
  intros (Hp & Hl & Hs). unfold record, tracks. cbn [samples_ write_pos_]. rewrite length_insert, length_app. cbn [length].
  rewrite Hp, ring_index_wrap. split; [|split; [done|]].
  - unfold wrap_u32. rewrite Zplus_mod_idemp_l. f_equal. lia.
  - intros i x Hx Hi. assert (ring_index (Z.of_nat (length xs)) < length (samples_ t))%nat as Hin.
    { rewrite Hl, ring_index_mod. apply Z2Nat.inj_lt; [apply Z.mod_pos_bound; done|done|apply Z.mod_pos_bound; done]. }
    apply lookup_app_Some in Hx as [Hx|[Hge Hx]].
    + apply lookup_lt_Some in Hx as Hlt. rewrite list_lookup_insert_ne; [apply Hs; [done|lia]|].
      rewrite !ring_index_mod. intros E. apply Z2Nat.inj in E; [|apply Z.mod_pos_bound; done..].
      pose proof (Z.div_mod (Z.of_nat (length xs)) kLatencyRingSize ltac:(done)).
      pose proof (Z.div_mod (Z.of_nat i) kLatencyRingSize ltac:(done)).
      pose proof (Z.mod_pos_bound (Z.of_nat i) kLatencyRingSize ltac:(done)). unfold kLatencyRingSize in *. lia.
    + apply list_lookup_singleton_Some in Hx as [Hz <-]. replace i with (length xs) by lia. by rewrite list_lookup_insert_eq.
Qed.
Lemma tracks_all xs : tracks xs (foldl (fun t ns => record ns t) LatencyTracker_new xs).
Proof.
  induction xs as [|x xs IH] using rev_ind; [apply tracks_new|]. rewrite foldl_snoc. by apply tracks_record.
Qed.

(** A snapshot is the newest samples, oldest first, for the first 2^31 samples. *)
Theorem snapshot_newest (xs : list Z) : Z.of_nat (length xs) < 2 ^ 31 ->
  let t := foldl (fun t ns => record ns t) LatencyTracker_new xs in
  snapshot kLatencyRingSize t =
    (Z.min (Z.of_nat (length xs)) kLatencyRingSize, drop (length xs - Z.to_nat kLatencyRingSize) xs).
Proof.
  intros Hn. cbv zeta. destruct (tracks_all xs) as (Hp & Hl & Hs). set (t := foldl _ _ _) in *. clearbody t.
  unfold snapshot. rewrite Hp, Z.mod_small by lia. rewrite wrap_i32_small by (unfold INT32_MIN, INT32_MAX; lia).
  set (n := Z.of_nat (length xs)) in *. assert (n = Z.of_nat (length xs)) as Hnn by done. clearbody n.
  assert ((if (if n >? kLatencyRingSize then kLatencyRingSize else n) >? kLatencyRingSize then kLatencyRingSize
           else if n >? kLatencyRingSize then kLatencyRingSize else n) = Z.min n kLatencyRingSize) as Hc.
  { rewrite !Z.gtb_ltb. destruct (Z.ltb_spec kLatencyRingSize n); [rewrite Z.ltb_irrefl; lia|]. destruct (Z.ltb_spec kLatencyRingSize n); lia. }
  rewrite Hc. f_equal. apply list_eq. intros i. rewrite list_lookup_fmap, lookup_drop.
  destruct (decide (i < Z.to_nat (Z.min n kLatencyRingSize))%nat) as [Hi|Hi].
  - rewrite lookup_seq_lt by done. cbn [fmap option_fmap option_map]. destruct (lookup_lt_is_Some_2 xs (length xs - Z.to_nat kLatencyRingSize + i)) as [x Hx];
      [unfold kLatencyRingSize in *; lia|]. rewrite Hx. f_equal. apply list_lookup_total_correct. unfold wrap_u32. rewrite ring_index_wrap.
    rewrite <- (Hs _ _ Hx) by (unfold kLatencyRingSize in *; lia). do 2 f_equal. unfold kLatencyRingSize in *. lia.
  - rewrite lookup_seq_ge by lia. symmetry. apply lookup_ge_None. unfold kLatencyRingSize in *. lia.
Qed.

(** From the 2^31st sample on the count is negative, and no percentile is shown. *)
Theorem snapshot_negative (xs : list Z) : 2 ^ 31 <= Z.of_nat (length xs) < 2 ^ 32 ->
  let t := foldl (fun t ns => record ns t) LatencyTracker_new xs in
  let '(count, buf) := snapshot kLatencyRingSize t in
  count = Z.of_nat (length xs) - 2 ^ 32 /\ count < 0 /\ buf = [] /\
  compute_percentiles count buf = mkLatencyPercentiles 0 0 0 0 0.
Proof.
  intros Hn. cbv zeta. destruct (tracks_all xs) as (Hp & _). set (t := foldl _ _ _) in *. clearbody t.
  unfold snapshot. rewrite Hp, (Z.mod_small (Z.of_nat _)) by lia. set (n := Z.of_nat (length xs)) in *.
  assert (wrap_i32 n = n - 2 ^ 32) as -> by (unfold wrap_i32; rewrite <- (Zmod_unique (n + 2 ^ 31) (2 ^ 32) 1 (n + 2 ^ 31 - 2 ^ 32)); lia).
  rewrite !Z.gtb_ltb. rewrite (proj2 (Z.ltb_ge kLatencyRingSize (n - 2 ^ 32))) by (unfold kLatencyRingSize; lia).
  rewrite (proj2 (Z.ltb_ge kLatencyRingSize (n - 2 ^ 32))) by (unfold kLatencyRingSize; lia).
  rewrite (Z2Nat.nonpos (n - 2 ^ 32)) by lia. split; [done|]. split; [lia|]. split; [done|].
  unfold compute_percentiles. by rewrite (proj2 (Z.leb_le _ 0)) by lia.
Qed.

(** *** Percentiles *)
Definition at_most (x : Z) (l : list Z) : list Z := filter (fun y => y <= x) l.
Definition at_least (x : Z) (l : list Z) : list Z := filter (fun y => x <= y) l.
Definition count_le (x : Z) (l : list Z) : Z := Z.of_nat (length (at_most x l)).
Definition count_ge (x : Z) (l : list Z) : Z := Z.of_nat (length (at_least x l)).
Lemma sorted_rank l k x : StronglySorted Z.le l -> l !! k = Some x ->
  (k < length (at_most x l))%nat /\ (length l - k <= length (at_least x l))%nat.
Proof.
  unfold at_most, at_least. intros Hs. revert k. induction Hs as [|a l Hs IH Ha]; intros k Hk; [by rewrite lookup_nil in Hk|].
  destruct k as [|k]; simpl in Hk.
  - injection Hk as ->. rewrite !filter_cons. rewrite !decide_True by lia. simpl. split; [lia|].
    assert (filter (fun y => x <= y) l = l) as ->; [|lia]. clear -Ha. induction Ha as [|y l Hy _ IH]; [done|].
    by rewrite filter_cons, decide_True, IH by done.
  - destruct (IH k Hk) as [H1 H2]. assert (a <= x) as Hax by (rewrite Forall_forall in Ha; apply Ha; by eapply list_elem_of_lookup_2).
    rewrite !filter_cons. rewrite decide_True by done. simpl. split; [lia|]. case_decide; simpl; lia.
Qed.
Lemma percentile_rank (buf : list Z) (p : Z) : buf <> [] -> 0 < p < 100 ->
  let n := Z.of_nat (length buf) in
  let x := merge_sort Z.le buf !!! Z.to_nat (Z.min (n - 1) (n * p ÷ 100)) in
  x ∈ buf /\ p * n <= 100 * count_le x buf /\ (100 - p) * n <= 100 * count_ge x buf.
Proof.
  intros Hne Hp n. assert (0 < n) as Hn by (destruct buf; [done|subst n; simpl; lia]). cbv zeta.
  pose proof (merge_sort_Permutation Z.le buf) as Hperm. pose proof (StronglySorted_merge_sort Z.le buf) as Hs.
  set (s := merge_sort Z.le buf) in *. assert (length s = length buf) as Hlen by (by apply Permutation_length).
  rewrite quot_nonneg_div by nia.
  assert (n * p / 100 <= n - 1) as Hle by (apply Z.lt_succ_r; apply Z.div_lt_upper_bound; nia).
  rewrite Z.min_r by done. set (k := n * p / 100) in *. assert (0 <= k) as Hk by (apply Z.div_pos; nia).
  pose proof (Z.div_mod (n * p) 100 ltac:(done)) as Hdm. pose proof (Z.mod_pos_bound (n * p) 100 ltac:(done)) as Hmb. fold k in Hdm.
  destruct (lookup_lt_is_Some_2 s (Z.to_nat k)) as [x Hx]; [lia|]. rewrite (list_lookup_total_correct _ _ _ Hx).
  destruct (sorted_rank s _ x Hs Hx) as [H1 H2]. rewrite <- Hperm at 1. split; [by eapply list_elem_of_lookup_2|].
  unfold count_le, count_ge, at_most, at_least in *.
  rewrite <- (Permutation_length (filter_Permutation (fun y => y <= x) _ _ Hperm)), <- (Permutation_length (filter_Permutation (fun y => x <= y) _ _ Hperm)).
  lia.
Qed.

(** At least 95% of the samples are below the 95th percentile and at least 5% above,
    likewise for the others, and each is one of the samples. *)
Theorem percentiles_rank (buf : list Z) : buf <> [] ->
  let n := Z.of_nat (length buf) in
  let r := compute_percentiles n buf in
  let ranks p x := x ∈ buf /\ p * n <= 100 * count_le x buf /\ (100 - p) * n <= 100 * count_ge x buf in
  lp_count r = n /\ ranks 50 (p50_ns r) /\ ranks 95 (p95_ns r) /\ ranks 99 (p99_ns r).
Proof.
  intros Hne n. assert (0 < n) as Hn by (destruct buf; [done|subst n; simpl; lia]). cbv zeta.
  unfold compute_percentiles. rewrite (proj2 (Z.leb_gt _ 0)) by done. cbn [lp_count p50_ns p95_ns p99_ns].
  split; [done|]. pose proof (percentile_rank buf 50 Hne ltac:(done)) as H50. fold n in H50. cbv zeta in H50.
  replace (Z.min (n - 1) (n * 50 ÷ 100)) with (n ÷ 2) in H50; [split; [exact H50|]; split; apply percentile_rank; done|].
  rewrite !quot_nonneg_div by lia. replace (n * 50) with (n * 50) by lia. change 100 with (2 * 50). rewrite Z.div_mul_cancel_r by done.
  symmetry. apply Z.min_r. apply Z.lt_succ_r, Z.div_lt_upper_bound; lia.
Qed.
End LatencyTracker.

(** ** Counters *)
Module MetricId.
Inductive MetricId :=
  | WS_FRAMES_RECEIVED | WS_BYTES_RECEIVED | WS_RECONNECTS | WS_ERRORS | PARSE_OK | PARSE_ERRORS | PARSE_BOOK
  | PARSE_PRICE_CHANGE | PARSE_BEST_BID_ASK | PARSE_TICK_SIZE_CHANGE | PARSE_LAST_TRADE_PRICE | PARSE_PONG
  | PARSE_UNKNOWN | BOOK_SNAPSHOTS | BOOK_UPDATES | BOOK_ERRORS | BOOK_DOWN_FILTERED | QUEUE_PUSHES | QUEUE_POPS
  | QUEUE_OVERFLOWS | SCHED_EVENTS | PARSE_LATENCY_NS | PARSE_LATENCY_COUNT | BOOK_LATENCY_NS | BOOK_LATENCY_COUNT
  | E2E_LATENCY_NS | E2E_LATENCY_COUNT | SCHED_CYCLES | SCHED_EVENTS_MARKET | SCHED_EVENTS_USER | SCHED_EVENTS_EXEC
  | SCHED_EVENTS_CONTROL | SCHED_EMPTY_POLLS | SCHED_STRATEGY_CALLS | SCHED_RISK_CHECKS | SCHED_INTENTS_PRODUCED
  | SCHED_INTENTS_ALLOWED | SCHED_QUEUE_OVERFLOWS_M2 | SCHED_RECV_TO_PROC_NS | SCHED_RECV_TO_PROC_COUNT
  | SCHED_STRAT_LATENCY_NS | SCHED_STRAT_LATENCY_COUNT | SCHED_LOOP_NS | SCHED_LOOP_COUNT | SCHED_MAX_BACKLOG
  | SCHED_QUOTE_CONVERSIONS | USER_WS_MESSAGES | USER_WS_PARSE_OK | USER_WS_PARSE_FAIL | USER_WS_ORDER_UPDATES
  | USER_WS_TRADE_UPDATES | USER_WS_FILLS | USER_WS_POSITION_DELTAS | USER_WS_RECONNECTS | USER_WS_STALE_DETECTED
  | USER_WS_DUPLICATES | USER_WS_QUEUE_OVERFLOW | USER_WS_CROSS_BOOK_FILL | USER_WS_TRADE_UNATTRIBUTED
  | USER_WS_TAKER_FALLBACK | EXEC_REST_REQUESTS_ORDER | EXEC_REST_REQUESTS_CANCEL | EXEC_REST_REQUESTS_HEARTBEAT
  | EXEC_REST_REQUESTS_BATCH | EXEC_BATCH_ORDERS_SENT | EXEC_REST_SUCCESS | EXEC_REST_ERRORS | EXEC_HTTP_429
  | EXEC_HTTP_503 | EXEC_HTTP_5XX | EXEC_HTTP_425 | EXEC_HTTP_4XX | EXEC_RTT_NS | EXEC_RTT_COUNT
  | EXEC_RATE_THROTTLED | EXEC_HEARTBEAT_OK | EXEC_HEARTBEAT_FAIL | EXEC_GATEWAY_DEGRADED_COUNT
  | EXEC_INTENT_QUEUE_PUSHES | EXEC_INTENT_QUEUE_OVERFLOW | EXEC_LOCAL_INVENTORY_REJECTS | EXEC_TIMEOUT_COUNT
  | EXEC_AMBIGUOUS_COUNT | EXEC_CORRELATION_MATCHED | STRAT_DESIRED_QUOTES | STRAT_ACTUAL_WORKING | STRAT_REPLACES
  | STRAT_CHURN_THROTTLED | STRAT_DRY_RUN_LOGGED | STRAT_MODE_BLOCKED | STRAT_RISK_DENIED
  | STRAT_CANCEL_ALL_TRIGGERED | STRAT_INVENTORY_REJECTIONS | STRAT_DEGRADED_CYCLES | STRAT_INTENT_LATENCY_NS
  | STRAT_INTENT_LATENCY_COUNT | STRAT_WORKING_ORDERS | STRAT_AMBIGUOUS_ORDERS | STRAT_TRACKER_DROPS
  | STRAT_NO_TRADE_ZONE | STRAT_TIER1_ACTIVATIONS | STRAT_TIER2_FAK_FIRES | STRAT_STOP_LOSS_FIRES
  | STRAT_CASCADE_BREAKER_FIRES | STRAT_TIME_GUARD_KILLS | STRAT_SLOT_ACTIVATE_SKIP | STRAT_SLOT_ACTIVATE_NO_PAIR
  | STRAT_SPLIT_WAIT_SKIPS | UI_SNAPSHOTS_SENT | UI_SNAPSHOTS_DROPPED | UI_COMMANDS_RECEIVED | UI_COMMANDS_INVALID
  | UI_WS_CONNECTED | UI_WS_DISCONNECTED | UI_BOOK_PUSHES | UI_COMMANDS_DROPPED | UI_BOOK_DROPS | UI_STATE_DROPS
  | STRAT_TO_EXEC_ENQUEUE_NS | STRAT_TO_EXEC_ENQUEUE_COUNT | EXEC_ENQUEUE_TO_SEND_NS | EXEC_ENQUEUE_TO_SEND_COUNT
  | FULL_PIPELINE_NS | FULL_PIPELINE_COUNT | Q_MARKET_DEPTH | Q_USER_DEPTH | Q_EXEC_DEPTH | Q_CONTROL_DEPTH
  | Q_STRATEGY_TO_EXEC_DEPTH | Q_BINANCE_MD_DEPTH | Q_MARKET_HIGH_WATER | Q_USER_HIGH_WATER | Q_EXEC_HIGH_WATER
  | Q_BINANCE_MD_HIGH_WATER | BBO_DIVERGENCE | NEW_MARKETS_RECEIVED | MARKETS_RESOLVED | USER_WS_AUTH_FAILURES
  | USER_WS_SERVER_ERRORS | USER_WS_UNKNOWN_EVENT_TYPES | USER_WS_FIELD_TRUNCATIONS | USER_WS_CLOSE_FRAMES
  | BOOK_DELTA_PUSHES | BOOK_DELTA_DROPS | BOOK_DELTA_SNAPSHOT_CHUNKS | RTDS_MESSAGES | RTDS_PARSE_OK
  | RTDS_PARSE_FAIL | RTDS_PONG | RTDS_UNKNOWN | RTDS_RECONNECTS | RTDS_QUEUE_PUSHES | RTDS_QUEUE_DROPS
  | RTDS_RECORD_PUSHES | RTDS_RECORD_DROPS | BINANCE_MD_MESSAGES | BINANCE_MD_PARSE_OK | BINANCE_MD_PARSE_FAIL
  | BINANCE_MD_UNKNOWN | BINANCE_MD_RECONNECTS | BINANCE_MD_QUEUE_PUSHES | BINANCE_MD_QUEUE_DROPS
  | BINANCE_MD_BOOK_TICKERS | BINANCE_MD_TRADES | MARKET_RECORD_PUSHES | MARKET_RECORD_DROPS | USER_RECORD_PUSHES
  | USER_RECORD_DROPS | USER_RECV_TO_PROC_NS | USER_RECV_TO_PROC_COUNT | JOURNAL_RECORDS_PUSHED
  | JOURNAL_RECORDS_DROPPED | EXEC_ORDER_RTT_NS | EXEC_ORDER_RTT_COUNT | EXEC_CANCEL_RTT_NS | EXEC_CANCEL_RTT_COUNT.
End MetricId.
Abbreviation MetricId := MetricId.MetricId.

(** The metrics in the order of their numbers. *)
Definition all_metrics : list MetricId :=
  [
   MetricId.WS_FRAMES_RECEIVED; MetricId.WS_BYTES_RECEIVED; MetricId.WS_RECONNECTS; MetricId.WS_ERRORS;
   MetricId.PARSE_OK; MetricId.PARSE_ERRORS; MetricId.PARSE_BOOK; MetricId.PARSE_PRICE_CHANGE;
   MetricId.PARSE_BEST_BID_ASK; MetricId.PARSE_TICK_SIZE_CHANGE; MetricId.PARSE_LAST_TRADE_PRICE;
   MetricId.PARSE_PONG; MetricId.PARSE_UNKNOWN; MetricId.BOOK_SNAPSHOTS; MetricId.BOOK_UPDATES; MetricId.BOOK_ERRORS;
   MetricId.BOOK_DOWN_FILTERED; MetricId.QUEUE_PUSHES; MetricId.QUEUE_POPS; MetricId.QUEUE_OVERFLOWS;
   MetricId.SCHED_EVENTS; MetricId.PARSE_LATENCY_NS; MetricId.PARSE_LATENCY_COUNT; MetricId.BOOK_LATENCY_NS;
   MetricId.BOOK_LATENCY_COUNT; MetricId.E2E_LATENCY_NS; MetricId.E2E_LATENCY_COUNT; MetricId.SCHED_CYCLES;
   MetricId.SCHED_EVENTS_MARKET; MetricId.SCHED_EVENTS_USER; MetricId.SCHED_EVENTS_EXEC;
   MetricId.SCHED_EVENTS_CONTROL; MetricId.SCHED_EMPTY_POLLS; MetricId.SCHED_STRATEGY_CALLS;
   MetricId.SCHED_RISK_CHECKS; MetricId.SCHED_INTENTS_PRODUCED; MetricId.SCHED_INTENTS_ALLOWED;
   MetricId.SCHED_QUEUE_OVERFLOWS_M2; MetricId.SCHED_RECV_TO_PROC_NS; MetricId.SCHED_RECV_TO_PROC_COUNT;
   MetricId.SCHED_STRAT_LATENCY_NS; MetricId.SCHED_STRAT_LATENCY_COUNT; MetricId.SCHED_LOOP_NS;
   MetricId.SCHED_LOOP_COUNT; MetricId.SCHED_MAX_BACKLOG; MetricId.SCHED_QUOTE_CONVERSIONS;
   MetricId.USER_WS_MESSAGES; MetricId.USER_WS_PARSE_OK; MetricId.USER_WS_PARSE_FAIL; MetricId.USER_WS_ORDER_UPDATES;
   MetricId.USER_WS_TRADE_UPDATES; MetricId.USER_WS_FILLS; MetricId.USER_WS_POSITION_DELTAS;
   MetricId.USER_WS_RECONNECTS; MetricId.USER_WS_STALE_DETECTED; MetricId.USER_WS_DUPLICATES;
   MetricId.USER_WS_QUEUE_OVERFLOW; MetricId.USER_WS_CROSS_BOOK_FILL; MetricId.USER_WS_TRADE_UNATTRIBUTED;
   MetricId.USER_WS_TAKER_FALLBACK; MetricId.EXEC_REST_REQUESTS_ORDER; MetricId.EXEC_REST_REQUESTS_CANCEL;
   MetricId.EXEC_REST_REQUESTS_HEARTBEAT; MetricId.EXEC_REST_REQUESTS_BATCH; MetricId.EXEC_BATCH_ORDERS_SENT;
   MetricId.EXEC_REST_SUCCESS; MetricId.EXEC_REST_ERRORS; MetricId.EXEC_HTTP_429; MetricId.EXEC_HTTP_503;
   MetricId.EXEC_HTTP_5XX; MetricId.EXEC_HTTP_425; MetricId.EXEC_HTTP_4XX; MetricId.EXEC_RTT_NS;
   MetricId.EXEC_RTT_COUNT; MetricId.EXEC_RATE_THROTTLED; MetricId.EXEC_HEARTBEAT_OK; MetricId.EXEC_HEARTBEAT_FAIL;
   MetricId.EXEC_GATEWAY_DEGRADED_COUNT; MetricId.EXEC_INTENT_QUEUE_PUSHES; MetricId.EXEC_INTENT_QUEUE_OVERFLOW;
   MetricId.EXEC_LOCAL_INVENTORY_REJECTS; MetricId.EXEC_TIMEOUT_COUNT; MetricId.EXEC_AMBIGUOUS_COUNT;
   MetricId.EXEC_CORRELATION_MATCHED; MetricId.STRAT_DESIRED_QUOTES; MetricId.STRAT_ACTUAL_WORKING;
   MetricId.STRAT_REPLACES; MetricId.STRAT_CHURN_THROTTLED; MetricId.STRAT_DRY_RUN_LOGGED;
   MetricId.STRAT_MODE_BLOCKED; MetricId.STRAT_RISK_DENIED; MetricId.STRAT_CANCEL_ALL_TRIGGERED;
   MetricId.STRAT_INVENTORY_REJECTIONS; MetricId.STRAT_DEGRADED_CYCLES; MetricId.STRAT_INTENT_LATENCY_NS;
   MetricId.STRAT_INTENT_LATENCY_COUNT; MetricId.STRAT_WORKING_ORDERS; MetricId.STRAT_AMBIGUOUS_ORDERS;
   MetricId.STRAT_TRACKER_DROPS; MetricId.STRAT_NO_TRADE_ZONE; MetricId.STRAT_TIER1_ACTIVATIONS;
   MetricId.STRAT_TIER2_FAK_FIRES; MetricId.STRAT_STOP_LOSS_FIRES; MetricId.STRAT_CASCADE_BREAKER_FIRES;
   MetricId.STRAT_TIME_GUARD_KILLS; MetricId.STRAT_SLOT_ACTIVATE_SKIP; MetricId.STRAT_SLOT_ACTIVATE_NO_PAIR;
   MetricId.STRAT_SPLIT_WAIT_SKIPS; MetricId.UI_SNAPSHOTS_SENT; MetricId.UI_SNAPSHOTS_DROPPED;
   MetricId.UI_COMMANDS_RECEIVED; MetricId.UI_COMMANDS_INVALID; MetricId.UI_WS_CONNECTED;
   MetricId.UI_WS_DISCONNECTED; MetricId.UI_BOOK_PUSHES; MetricId.UI_COMMANDS_DROPPED; MetricId.UI_BOOK_DROPS;
   MetricId.UI_STATE_DROPS; MetricId.STRAT_TO_EXEC_ENQUEUE_NS; MetricId.STRAT_TO_EXEC_ENQUEUE_COUNT;
   MetricId.EXEC_ENQUEUE_TO_SEND_NS; MetricId.EXEC_ENQUEUE_TO_SEND_COUNT; MetricId.FULL_PIPELINE_NS;
   MetricId.FULL_PIPELINE_COUNT; MetricId.Q_MARKET_DEPTH; MetricId.Q_USER_DEPTH; MetricId.Q_EXEC_DEPTH;
   MetricId.Q_CONTROL_DEPTH; MetricId.Q_STRATEGY_TO_EXEC_DEPTH; MetricId.Q_BINANCE_MD_DEPTH;
   MetricId.Q_MARKET_HIGH_WATER; MetricId.Q_USER_HIGH_WATER; MetricId.Q_EXEC_HIGH_WATER;
   MetricId.Q_BINANCE_MD_HIGH_WATER; MetricId.BBO_DIVERGENCE; MetricId.NEW_MARKETS_RECEIVED;
   MetricId.MARKETS_RESOLVED; MetricId.USER_WS_AUTH_FAILURES; MetricId.USER_WS_SERVER_ERRORS;
   MetricId.USER_WS_UNKNOWN_EVENT_TYPES; MetricId.USER_WS_FIELD_TRUNCATIONS; MetricId.USER_WS_CLOSE_FRAMES;
   MetricId.BOOK_DELTA_PUSHES; MetricId.BOOK_DELTA_DROPS; MetricId.BOOK_DELTA_SNAPSHOT_CHUNKS;
   MetricId.RTDS_MESSAGES; MetricId.RTDS_PARSE_OK; MetricId.RTDS_PARSE_FAIL; MetricId.RTDS_PONG;
   MetricId.RTDS_UNKNOWN; MetricId.RTDS_RECONNECTS; MetricId.RTDS_QUEUE_PUSHES; MetricId.RTDS_QUEUE_DROPS;
   MetricId.RTDS_RECORD_PUSHES; MetricId.RTDS_RECORD_DROPS; MetricId.BINANCE_MD_MESSAGES;
   MetricId.BINANCE_MD_PARSE_OK; MetricId.BINANCE_MD_PARSE_FAIL; MetricId.BINANCE_MD_UNKNOWN;
   MetricId.BINANCE_MD_RECONNECTS; MetricId.BINANCE_MD_QUEUE_PUSHES; MetricId.BINANCE_MD_QUEUE_DROPS;
   MetricId.BINANCE_MD_BOOK_TICKERS; MetricId.BINANCE_MD_TRADES; MetricId.MARKET_RECORD_PUSHES;
   MetricId.MARKET_RECORD_DROPS; MetricId.USER_RECORD_PUSHES; MetricId.USER_RECORD_DROPS;
   MetricId.USER_RECV_TO_PROC_NS; MetricId.USER_RECV_TO_PROC_COUNT; MetricId.JOURNAL_RECORDS_PUSHED;
   MetricId.JOURNAL_RECORDS_DROPPED; MetricId.EXEC_ORDER_RTT_NS; MetricId.EXEC_ORDER_RTT_COUNT;
   MetricId.EXEC_CANCEL_RTT_NS; MetricId.EXEC_CANCEL_RTT_COUNT].
Definition metric_index (id : MetricId) : nat :=
  match id with
  | MetricId.WS_FRAMES_RECEIVED => 0 | MetricId.WS_BYTES_RECEIVED => 1 | MetricId.WS_RECONNECTS => 2
  | MetricId.WS_ERRORS => 3 | MetricId.PARSE_OK => 4 | MetricId.PARSE_ERRORS => 5 | MetricId.PARSE_BOOK => 6
  | MetricId.PARSE_PRICE_CHANGE => 7 | MetricId.PARSE_BEST_BID_ASK => 8 | MetricId.PARSE_TICK_SIZE_CHANGE => 9
  | MetricId.PARSE_LAST_TRADE_PRICE => 10 | MetricId.PARSE_PONG => 11 | MetricId.PARSE_UNKNOWN => 12
  | MetricId.BOOK_SNAPSHOTS => 13 | MetricId.BOOK_UPDATES => 14 | MetricId.BOOK_ERRORS => 15
  | MetricId.BOOK_DOWN_FILTERED => 16 | MetricId.QUEUE_PUSHES => 17 | MetricId.QUEUE_POPS => 18
  | MetricId.QUEUE_OVERFLOWS => 19 | MetricId.SCHED_EVENTS => 20 | MetricId.PARSE_LATENCY_NS => 21
  | MetricId.PARSE_LATENCY_COUNT => 22 | MetricId.BOOK_LATENCY_NS => 23 | MetricId.BOOK_LATENCY_COUNT => 24
  | MetricId.E2E_LATENCY_NS => 25 | MetricId.E2E_LATENCY_COUNT => 26 | MetricId.SCHED_CYCLES => 27
  | MetricId.SCHED_EVENTS_MARKET => 28 | MetricId.SCHED_EVENTS_USER => 29 | MetricId.SCHED_EVENTS_EXEC => 30
  | MetricId.SCHED_EVENTS_CONTROL => 31 | MetricId.SCHED_EMPTY_POLLS => 32 | MetricId.SCHED_STRATEGY_CALLS => 33
  | MetricId.SCHED_RISK_CHECKS => 34 | MetricId.SCHED_INTENTS_PRODUCED => 35 | MetricId.SCHED_INTENTS_ALLOWED => 36
  | MetricId.SCHED_QUEUE_OVERFLOWS_M2 => 37 | MetricId.SCHED_RECV_TO_PROC_NS => 38
  | MetricId.SCHED_RECV_TO_PROC_COUNT => 39 | MetricId.SCHED_STRAT_LATENCY_NS => 40
  | MetricId.SCHED_STRAT_LATENCY_COUNT => 41 | MetricId.SCHED_LOOP_NS => 42 | MetricId.SCHED_LOOP_COUNT => 43
  | MetricId.SCHED_MAX_BACKLOG => 44 | MetricId.SCHED_QUOTE_CONVERSIONS => 45 | MetricId.USER_WS_MESSAGES => 46
  | MetricId.USER_WS_PARSE_OK => 47 | MetricId.USER_WS_PARSE_FAIL => 48 | MetricId.USER_WS_ORDER_UPDATES => 49
  | MetricId.USER_WS_TRADE_UPDATES => 50 | MetricId.USER_WS_FILLS => 51 | MetricId.USER_WS_POSITION_DELTAS => 52
  | MetricId.USER_WS_RECONNECTS => 53 | MetricId.USER_WS_STALE_DETECTED => 54 | MetricId.USER_WS_DUPLICATES => 55
  | MetricId.USER_WS_QUEUE_OVERFLOW => 56 | MetricId.USER_WS_CROSS_BOOK_FILL => 57
  | MetricId.USER_WS_TRADE_UNATTRIBUTED => 58 | MetricId.USER_WS_TAKER_FALLBACK => 59
  | MetricId.EXEC_REST_REQUESTS_ORDER => 60 | MetricId.EXEC_REST_REQUESTS_CANCEL => 61
  | MetricId.EXEC_REST_REQUESTS_HEARTBEAT => 62 | MetricId.EXEC_REST_REQUESTS_BATCH => 63
  | MetricId.EXEC_BATCH_ORDERS_SENT => 64 | MetricId.EXEC_REST_SUCCESS => 65 | MetricId.EXEC_REST_ERRORS => 66
  | MetricId.EXEC_HTTP_429 => 67 | MetricId.EXEC_HTTP_503 => 68 | MetricId.EXEC_HTTP_5XX => 69
  | MetricId.EXEC_HTTP_425 => 70 | MetricId.EXEC_HTTP_4XX => 71 | MetricId.EXEC_RTT_NS => 72
  | MetricId.EXEC_RTT_COUNT => 73 | MetricId.EXEC_RATE_THROTTLED => 74 | MetricId.EXEC_HEARTBEAT_OK => 75
  | MetricId.EXEC_HEARTBEAT_FAIL => 76 | MetricId.EXEC_GATEWAY_DEGRADED_COUNT => 77
  | MetricId.EXEC_INTENT_QUEUE_PUSHES => 78 | MetricId.EXEC_INTENT_QUEUE_OVERFLOW => 79
  | MetricId.EXEC_LOCAL_INVENTORY_REJECTS => 80 | MetricId.EXEC_TIMEOUT_COUNT => 81
  | MetricId.EXEC_AMBIGUOUS_COUNT => 82 | MetricId.EXEC_CORRELATION_MATCHED => 83
  | MetricId.STRAT_DESIRED_QUOTES => 84 | MetricId.STRAT_ACTUAL_WORKING => 85 | MetricId.STRAT_REPLACES => 86
  | MetricId.STRAT_CHURN_THROTTLED => 87 | MetricId.STRAT_DRY_RUN_LOGGED => 88 | MetricId.STRAT_MODE_BLOCKED => 89
  | MetricId.STRAT_RISK_DENIED => 90 | MetricId.STRAT_CANCEL_ALL_TRIGGERED => 91
  | MetricId.STRAT_INVENTORY_REJECTIONS => 92 | MetricId.STRAT_DEGRADED_CYCLES => 93
  | MetricId.STRAT_INTENT_LATENCY_NS => 94 | MetricId.STRAT_INTENT_LATENCY_COUNT => 95
  | MetricId.STRAT_WORKING_ORDERS => 96 | MetricId.STRAT_AMBIGUOUS_ORDERS => 97 | MetricId.STRAT_TRACKER_DROPS => 98
  | MetricId.STRAT_NO_TRADE_ZONE => 99 | MetricId.STRAT_TIER1_ACTIVATIONS => 100
  | MetricId.STRAT_TIER2_FAK_FIRES => 101 | MetricId.STRAT_STOP_LOSS_FIRES => 102
  | MetricId.STRAT_CASCADE_BREAKER_FIRES => 103 | MetricId.STRAT_TIME_GUARD_KILLS => 104
  | MetricId.STRAT_SLOT_ACTIVATE_SKIP => 105 | MetricId.STRAT_SLOT_ACTIVATE_NO_PAIR => 106
  | MetricId.STRAT_SPLIT_WAIT_SKIPS => 107 | MetricId.UI_SNAPSHOTS_SENT => 108 | MetricId.UI_SNAPSHOTS_DROPPED => 109
  | MetricId.UI_COMMANDS_RECEIVED => 110 | MetricId.UI_COMMANDS_INVALID => 111 | MetricId.UI_WS_CONNECTED => 112
  | MetricId.UI_WS_DISCONNECTED => 113 | MetricId.UI_BOOK_PUSHES => 114 | MetricId.UI_COMMANDS_DROPPED => 115
  | MetricId.UI_BOOK_DROPS => 116 | MetricId.UI_STATE_DROPS => 117 | MetricId.STRAT_TO_EXEC_ENQUEUE_NS => 118
  | MetricId.STRAT_TO_EXEC_ENQUEUE_COUNT => 119 | MetricId.EXEC_ENQUEUE_TO_SEND_NS => 120
  | MetricId.EXEC_ENQUEUE_TO_SEND_COUNT => 121 | MetricId.FULL_PIPELINE_NS => 122
  | MetricId.FULL_PIPELINE_COUNT => 123 | MetricId.Q_MARKET_DEPTH => 124 | MetricId.Q_USER_DEPTH => 125
  | MetricId.Q_EXEC_DEPTH => 126 | MetricId.Q_CONTROL_DEPTH => 127 | MetricId.Q_STRATEGY_TO_EXEC_DEPTH => 128
  | MetricId.Q_BINANCE_MD_DEPTH => 129 | MetricId.Q_MARKET_HIGH_WATER => 130 | MetricId.Q_USER_HIGH_WATER => 131
  | MetricId.Q_EXEC_HIGH_WATER => 132 | MetricId.Q_BINANCE_MD_HIGH_WATER => 133 | MetricId.BBO_DIVERGENCE => 134
  | MetricId.NEW_MARKETS_RECEIVED => 135 | MetricId.MARKETS_RESOLVED => 136 | MetricId.USER_WS_AUTH_FAILURES => 137
  | MetricId.USER_WS_SERVER_ERRORS => 138 | MetricId.USER_WS_UNKNOWN_EVENT_TYPES => 139
  | MetricId.USER_WS_FIELD_TRUNCATIONS => 140 | MetricId.USER_WS_CLOSE_FRAMES => 141
  | MetricId.BOOK_DELTA_PUSHES => 142 | MetricId.BOOK_DELTA_DROPS => 143 | MetricId.BOOK_DELTA_SNAPSHOT_CHUNKS => 144
  | MetricId.RTDS_MESSAGES => 145 | MetricId.RTDS_PARSE_OK => 146 | MetricId.RTDS_PARSE_FAIL => 147
  | MetricId.RTDS_PONG => 148 | MetricId.RTDS_UNKNOWN => 149 | MetricId.RTDS_RECONNECTS => 150
  | MetricId.RTDS_QUEUE_PUSHES => 151 | MetricId.RTDS_QUEUE_DROPS => 152 | MetricId.RTDS_RECORD_PUSHES => 153
  | MetricId.RTDS_RECORD_DROPS => 154 | MetricId.BINANCE_MD_MESSAGES => 155 | MetricId.BINANCE_MD_PARSE_OK => 156
  | MetricId.BINANCE_MD_PARSE_FAIL => 157 | MetricId.BINANCE_MD_UNKNOWN => 158
  | MetricId.BINANCE_MD_RECONNECTS => 159 | MetricId.BINANCE_MD_QUEUE_PUSHES => 160
  | MetricId.BINANCE_MD_QUEUE_DROPS => 161 | MetricId.BINANCE_MD_BOOK_TICKERS => 162
  | MetricId.BINANCE_MD_TRADES => 163 | MetricId.MARKET_RECORD_PUSHES => 164 | MetricId.MARKET_RECORD_DROPS => 165
  | MetricId.USER_RECORD_PUSHES => 166 | MetricId.USER_RECORD_DROPS => 167 | MetricId.USER_RECV_TO_PROC_NS => 168
  | MetricId.USER_RECV_TO_PROC_COUNT => 169 | MetricId.JOURNAL_RECORDS_PUSHED => 170
  | MetricId.JOURNAL_RECORDS_DROPPED => 171 | MetricId.EXEC_ORDER_RTT_NS => 172
  | MetricId.EXEC_ORDER_RTT_COUNT => 173 | MetricId.EXEC_CANCEL_RTT_NS => 174 | MetricId.EXEC_CANCEL_RTT_COUNT => 175
  end.
Definition kMetricCount : nat := 176.
Definition metric_name (id : MetricId) : string :=
  match id with
  | MetricId.WS_FRAMES_RECEIVED => "ws.frames_received" | MetricId.WS_BYTES_RECEIVED => "ws.bytes_received"
  | MetricId.WS_RECONNECTS => "ws.reconnects" | MetricId.WS_ERRORS => "ws.errors" | MetricId.PARSE_OK => "parse.ok"
  | MetricId.PARSE_ERRORS => "parse.errors" | MetricId.PARSE_BOOK => "parse.book"
  | MetricId.PARSE_PRICE_CHANGE => "parse.price_change" | MetricId.PARSE_BEST_BID_ASK => "parse.best_bid_ask"
  | MetricId.PARSE_TICK_SIZE_CHANGE => "parse.tick_size_change"
  | MetricId.PARSE_LAST_TRADE_PRICE => "parse.last_trade_price" | MetricId.PARSE_PONG => "parse.pong"
  | MetricId.PARSE_UNKNOWN => "parse.unknown" | MetricId.BOOK_SNAPSHOTS => "book.snapshots"
  | MetricId.BOOK_UPDATES => "book.updates" | MetricId.BOOK_ERRORS => "book.errors"
  | MetricId.QUEUE_PUSHES => "queue.pushes" | MetricId.QUEUE_POPS => "queue.pops"
  | MetricId.QUEUE_OVERFLOWS => "queue.overflows" | MetricId.SCHED_EVENTS => "sched.events"
  | MetricId.PARSE_LATENCY_NS => "parse.latency_ns" | MetricId.PARSE_LATENCY_COUNT => "parse.latency_count"
  | MetricId.BOOK_LATENCY_NS => "book.latency_ns" | MetricId.BOOK_LATENCY_COUNT => "book.latency_count"
  | MetricId.E2E_LATENCY_NS => "e2e.latency_ns" | MetricId.E2E_LATENCY_COUNT => "e2e.latency_count"
  | MetricId.SCHED_CYCLES => "sched.cycles" | MetricId.SCHED_EVENTS_MARKET => "sched.events_market"
  | MetricId.SCHED_EVENTS_USER => "sched.events_user" | MetricId.SCHED_EVENTS_EXEC => "sched.events_exec"
  | MetricId.SCHED_EVENTS_CONTROL => "sched.events_control" | MetricId.SCHED_EMPTY_POLLS => "sched.empty_polls"
  | MetricId.SCHED_STRATEGY_CALLS => "sched.strategy_calls" | MetricId.SCHED_RISK_CHECKS => "sched.risk_checks"
  | MetricId.SCHED_INTENTS_PRODUCED => "sched.intents_produced"
  | MetricId.SCHED_INTENTS_ALLOWED => "sched.intents_allowed"
  | MetricId.SCHED_QUEUE_OVERFLOWS_M2 => "sched.queue_overflows"
  | MetricId.SCHED_RECV_TO_PROC_NS => "sched.recv_to_proc_ns"
  | MetricId.SCHED_RECV_TO_PROC_COUNT => "sched.recv_to_proc_count"
  | MetricId.SCHED_STRAT_LATENCY_NS => "sched.strat_latency_ns"
  | MetricId.SCHED_STRAT_LATENCY_COUNT => "sched.strat_latency_count" | MetricId.SCHED_LOOP_NS => "sched.loop_ns"
  | MetricId.SCHED_LOOP_COUNT => "sched.loop_count" | MetricId.SCHED_MAX_BACKLOG => "sched.max_backlog"
  | MetricId.SCHED_QUOTE_CONVERSIONS => "sched.quote_conversions" | MetricId.USER_WS_MESSAGES => "user_ws.messages"
  | MetricId.USER_WS_PARSE_OK => "user_ws.parse_ok" | MetricId.USER_WS_PARSE_FAIL => "user_ws.parse_fail"
  | MetricId.USER_WS_ORDER_UPDATES => "user_ws.order_updates"
  | MetricId.USER_WS_TRADE_UPDATES => "user_ws.trade_updates" | MetricId.USER_WS_FILLS => "user_ws.fills"
  | MetricId.USER_WS_POSITION_DELTAS => "user_ws.position_deltas"
  | MetricId.USER_WS_RECONNECTS => "user_ws.reconnects" | MetricId.USER_WS_STALE_DETECTED => "user_ws.stale_detected"
  | MetricId.USER_WS_DUPLICATES => "user_ws.duplicates" | MetricId.USER_WS_QUEUE_OVERFLOW => "user_ws.queue_overflow"
  | MetricId.EXEC_REST_REQUESTS_ORDER => "exec.rest_requests_order"
  | MetricId.EXEC_REST_REQUESTS_CANCEL => "exec.rest_requests_cancel"
  | MetricId.EXEC_REST_REQUESTS_HEARTBEAT => "exec.rest_requests_heartbeat"
  | MetricId.EXEC_REST_REQUESTS_BATCH => "exec.rest_requests_batch"
  | MetricId.EXEC_BATCH_ORDERS_SENT => "exec.batch_orders_sent" | MetricId.EXEC_REST_SUCCESS => "exec.rest_success"
  | MetricId.EXEC_REST_ERRORS => "exec.rest_errors" | MetricId.EXEC_HTTP_429 => "exec.http_429"
  | MetricId.EXEC_HTTP_503 => "exec.http_503" | MetricId.EXEC_HTTP_5XX => "exec.http_5xx"
  | MetricId.EXEC_HTTP_425 => "exec.http_425" | MetricId.EXEC_HTTP_4XX => "exec.http_4xx"
  | MetricId.EXEC_RTT_NS => "exec.rtt_ns" | MetricId.EXEC_RTT_COUNT => "exec.rtt_count"
  | MetricId.EXEC_RATE_THROTTLED => "exec.rate_throttled" | MetricId.EXEC_HEARTBEAT_OK => "exec.heartbeat_ok"
  | MetricId.EXEC_HEARTBEAT_FAIL => "exec.heartbeat_fail"
  | MetricId.EXEC_GATEWAY_DEGRADED_COUNT => "exec.gateway_degraded"
  | MetricId.EXEC_INTENT_QUEUE_PUSHES => "exec.intent_queue_pushes"
  | MetricId.EXEC_INTENT_QUEUE_OVERFLOW => "exec.intent_queue_overflow"
  | MetricId.EXEC_LOCAL_INVENTORY_REJECTS => "exec.local_inventory_rejects"
  | MetricId.EXEC_TIMEOUT_COUNT => "exec.timeout_count" | MetricId.EXEC_AMBIGUOUS_COUNT => "exec.ambiguous_count"
  | MetricId.EXEC_CORRELATION_MATCHED => "exec.correlation_matched"
  | MetricId.STRAT_DESIRED_QUOTES => "strat.desired_quotes" | MetricId.STRAT_ACTUAL_WORKING => "strat.actual_working"
  | MetricId.STRAT_REPLACES => "strat.replaces" | MetricId.STRAT_CHURN_THROTTLED => "strat.churn_throttled"
  | MetricId.STRAT_DRY_RUN_LOGGED => "strat.dry_run_logged" | MetricId.STRAT_MODE_BLOCKED => "strat.mode_blocked"
  | MetricId.STRAT_RISK_DENIED => "strat.risk_denied"
  | MetricId.STRAT_CANCEL_ALL_TRIGGERED => "strat.cancel_all_triggered"
  | MetricId.STRAT_INVENTORY_REJECTIONS => "strat.inventory_rejections"
  | MetricId.STRAT_DEGRADED_CYCLES => "strat.degraded_cycles"
  | MetricId.STRAT_INTENT_LATENCY_NS => "strat.intent_latency_ns"
  | MetricId.STRAT_INTENT_LATENCY_COUNT => "strat.intent_latency_count"
  | MetricId.STRAT_WORKING_ORDERS => "strat.working_orders"
  | MetricId.STRAT_AMBIGUOUS_ORDERS => "strat.ambiguous_orders"
  | MetricId.STRAT_TRACKER_DROPS => "strat.tracker_drops" | MetricId.STRAT_NO_TRADE_ZONE => "strat.no_trade_zone"
  | MetricId.STRAT_TIER1_ACTIVATIONS => "strat.tier1_activations"
  | MetricId.STRAT_TIER2_FAK_FIRES => "strat.tier2_fak_fires"
  | MetricId.STRAT_CASCADE_BREAKER_FIRES => "strat.cascade_breaker_fires"
  | MetricId.STRAT_TIME_GUARD_KILLS => "strat.time_guard_kills" | MetricId.UI_SNAPSHOTS_SENT => "ui.snapshots_sent"
  | MetricId.UI_SNAPSHOTS_DROPPED => "ui.snapshots_dropped" | MetricId.UI_COMMANDS_RECEIVED => "ui.commands_received"
  | MetricId.UI_COMMANDS_INVALID => "ui.commands_invalid" | MetricId.UI_WS_CONNECTED => "ui.ws_connected"
  | MetricId.UI_WS_DISCONNECTED => "ui.ws_disconnected" | MetricId.UI_BOOK_PUSHES => "ui.book_pushes"
  | MetricId.UI_COMMANDS_DROPPED => "ui.commands_dropped" | MetricId.UI_BOOK_DROPS => "ui.book_drops"
  | MetricId.UI_STATE_DROPS => "ui.state_drops" | MetricId.STRAT_TO_EXEC_ENQUEUE_NS => "m7.strat_to_exec_enqueue_ns"
  | MetricId.STRAT_TO_EXEC_ENQUEUE_COUNT => "m7.strat_to_exec_enqueue_count"
  | MetricId.EXEC_ENQUEUE_TO_SEND_NS => "m7.exec_enqueue_to_send_ns"
  | MetricId.EXEC_ENQUEUE_TO_SEND_COUNT => "m7.exec_enqueue_to_send_count"
  | MetricId.FULL_PIPELINE_NS => "m7.full_pipeline_ns" | MetricId.FULL_PIPELINE_COUNT => "m7.full_pipeline_count"
  | MetricId.Q_MARKET_DEPTH => "m7.q_market_depth" | MetricId.Q_USER_DEPTH => "m7.q_user_depth"
  | MetricId.Q_EXEC_DEPTH => "m7.q_exec_depth" | MetricId.Q_CONTROL_DEPTH => "m7.q_control_depth"
  | MetricId.Q_STRATEGY_TO_EXEC_DEPTH => "m7.q_strategy_to_exec_depth"
  | MetricId.Q_BINANCE_MD_DEPTH => "m7.q_binance_md_depth" | MetricId.Q_MARKET_HIGH_WATER => "m7.q_market_high_water"
  | MetricId.Q_USER_HIGH_WATER => "m7.q_user_high_water" | MetricId.Q_EXEC_HIGH_WATER => "m7.q_exec_high_water"
  | MetricId.Q_BINANCE_MD_HIGH_WATER => "m7.q_binance_md_high_water" | MetricId.BBO_DIVERGENCE => "ws.bbo_divergence"
  | MetricId.NEW_MARKETS_RECEIVED => "ws.new_markets_received" | MetricId.MARKETS_RESOLVED => "ws.markets_resolved"
  | MetricId.USER_WS_AUTH_FAILURES => "user_ws.auth_failures"
  | MetricId.USER_WS_SERVER_ERRORS => "user_ws.server_errors"
  | MetricId.USER_WS_UNKNOWN_EVENT_TYPES => "user_ws.unknown_event_types"
  | MetricId.USER_WS_FIELD_TRUNCATIONS => "user_ws.field_truncations"
  | MetricId.USER_WS_CLOSE_FRAMES => "user_ws.close_frames" | MetricId.BOOK_DELTA_PUSHES => "book_delta.pushes"
  | MetricId.BOOK_DELTA_DROPS => "book_delta.drops"
  | MetricId.BOOK_DELTA_SNAPSHOT_CHUNKS => "book_delta.snapshot_chunks" | MetricId.RTDS_MESSAGES => "rtds.messages"
  | MetricId.RTDS_PARSE_OK => "rtds.parse_ok" | MetricId.RTDS_PARSE_FAIL => "rtds.parse_fail"
  | MetricId.RTDS_PONG => "rtds.pong" | MetricId.RTDS_UNKNOWN => "rtds.unknown"
  | MetricId.RTDS_RECONNECTS => "rtds.reconnects" | MetricId.RTDS_QUEUE_PUSHES => "rtds.queue_pushes"
  | MetricId.RTDS_QUEUE_DROPS => "rtds.queue_drops" | MetricId.RTDS_RECORD_PUSHES => "rtds.record_pushes"
  | MetricId.RTDS_RECORD_DROPS => "rtds.record_drops" | MetricId.BINANCE_MD_MESSAGES => "binance_md.messages"
  | MetricId.BINANCE_MD_PARSE_OK => "binance_md.parse_ok" | MetricId.BINANCE_MD_PARSE_FAIL => "binance_md.parse_fail"
  | MetricId.BINANCE_MD_UNKNOWN => "binance_md.unknown" | MetricId.BINANCE_MD_RECONNECTS => "binance_md.reconnects"
  | MetricId.BINANCE_MD_QUEUE_PUSHES => "binance_md.queue_pushes"
  | MetricId.BINANCE_MD_QUEUE_DROPS => "binance_md.queue_drops"
  | MetricId.BINANCE_MD_BOOK_TICKERS => "binance_md.book_tickers" | MetricId.BINANCE_MD_TRADES => "binance_md.trades"
  | MetricId.MARKET_RECORD_PUSHES => "market.record_pushes" | MetricId.MARKET_RECORD_DROPS => "market.record_drops"
  | MetricId.USER_RECORD_PUSHES => "user.record_pushes" | MetricId.USER_RECORD_DROPS => "user.record_drops"
  | MetricId.USER_RECV_TO_PROC_NS => "user.recv_to_proc_ns"
  | MetricId.USER_RECV_TO_PROC_COUNT => "user.recv_to_proc_count"
  | MetricId.JOURNAL_RECORDS_PUSHED => "journal.records_pushed"
  | MetricId.JOURNAL_RECORDS_DROPPED => "journal.records_dropped" | MetricId.EXEC_ORDER_RTT_NS => "exec.order_rtt_ns"
  | MetricId.EXEC_ORDER_RTT_COUNT => "exec.order_rtt_count" | MetricId.EXEC_CANCEL_RTT_NS => "exec.cancel_rtt_ns"
  | MetricId.EXEC_CANCEL_RTT_COUNT => "exec.cancel_rtt_count" | _ => "unknown"
  end.

Lemma metric_index_inj id : all_metrics !! metric_index id = Some id.
Proof. by destruct id. Qed.
#[export] Instance MetricId_eq_dec : EqDecision MetricId.
Proof.
  intros a b. destruct (decide (metric_index a = metric_index b)) as [E|E]; [left|right; congruence].
  pose proof (metric_index_inj a) as Ha. pose proof (metric_index_inj b) as Hb. rewrite E in Ha. congruence.
Defined.
Lemma metric_index_eq a b : metric_index a = metric_index b -> a = b.
Proof. intros E. pose proof (metric_index_inj a) as Ha. pose proof (metric_index_inj b) as Hb. rewrite E in Ha. congruence. Qed.
Lemma metric_index_bound id : (metric_index id < kMetricCount)%nat.
Proof. apply (lookup_lt_Some _ _ _ (metric_index_inj id)). Qed.

(** Different metrics have different names, but for the eight without one. *)
Theorem metric_names_distinct (a b : MetricId) :
  metric_name a = metric_name b -> a = b \/ (metric_name a = "unknown" /\ metric_name b = "unknown").
Proof.
  intros E. destruct (decide (metric_name a = "unknown"%string)) as [Hu|Hu]; [right; by rewrite <- E|]. left.
  assert (forall id, metric_name id <> "unknown"%string ->
    list_find (fun id' => metric_name id' = metric_name id) all_metrics = Some (metric_index id, id)) as Hf.
  { intros id. destruct id; vm_compute; congruence. }
  pose proof (Hf a Hu) as Ha. pose proof (Hf b ltac:(congruence)) as Hb. rewrite E in Ha. congruence.
Qed.
Lemma unnamed_metrics : length (filter (fun id => metric_name id = "unknown"%string) all_metrics) = 8%nat.
Proof. reflexivity. Qed.

Module Counters.
Record CounterCell := mkCounterCell { cc_value : Z; cc_max_ns : Z }.
#[export] Instance CounterCell_inhabited : Inhabited CounterCell := populate (mkCounterCell 0 0).
Record Metrics := mkMetrics { counters_ : list CounterCell }.
Definition Metrics_new : Metrics := mkMetrics (replicate kMetricCount (mkCounterCell 0 0)).

Definition cell (id : MetricId) (m : Metrics) : CounterCell := counters_ m !!! metric_index id.
Definition with_cell (id : MetricId) (f : CounterCell -> CounterCell) (m : Metrics) : Metrics :=
  mkMetrics (alter f (metric_index id) (counters_ m)).
Definition add (id : MetricId) (v : Z) (m : Metrics) : Metrics :=
  with_cell id (fun c => mkCounterCell (wrap_i64 (cc_value c + v)) (cc_max_ns c)) m.
Definition inc (id : MetricId) (m : Metrics) : Metrics := add id 1 m.
Definition record_latency (ns_id count_id : MetricId) (latency_ns : Z) (m : Metrics) : Metrics :=
  add count_id 1 (add ns_id latency_ns m).
(** The loop ends with the larger of the two values. *)
Definition record_latency_with_max (ns_id count_id : MetricId) (latency_ns : Z) (m : Metrics) : Metrics :=
  with_cell ns_id (fun c => mkCounterCell (cc_value c) (if latency_ns >? cc_max_ns c then latency_ns else cc_max_ns c))
    (record_latency ns_id count_id latency_ns m).
Definition get_max (id : MetricId) (m : Metrics) : Z := cc_max_ns (cell id m).
Definition get (id : MetricId) (m : Metrics) : Z := cc_value (cell id m).
Definition get_and_reset (id : MetricId) (m : Metrics) : Z * Metrics :=
  (get id m, with_cell id (fun c => mkCounterCell 0 (cc_max_ns c)) m).

(** The counter a sum of latencies is averaged over. *)
Definition latency_count (id : MetricId) : option MetricId :=
  match id with
  | MetricId.PARSE_LATENCY_NS => Some MetricId.PARSE_LATENCY_COUNT
  | MetricId.BOOK_LATENCY_NS => Some MetricId.BOOK_LATENCY_COUNT
  | MetricId.E2E_LATENCY_NS => Some MetricId.E2E_LATENCY_COUNT
  | MetricId.SCHED_RECV_TO_PROC_NS => Some MetricId.SCHED_RECV_TO_PROC_COUNT
  | MetricId.SCHED_STRAT_LATENCY_NS => Some MetricId.SCHED_STRAT_LATENCY_COUNT
  | MetricId.SCHED_LOOP_NS => Some MetricId.SCHED_LOOP_COUNT
  | MetricId.EXEC_RTT_NS => Some MetricId.EXEC_RTT_COUNT
  | MetricId.STRAT_INTENT_LATENCY_NS => Some MetricId.STRAT_INTENT_LATENCY_COUNT
  | MetricId.STRAT_TO_EXEC_ENQUEUE_NS => Some MetricId.STRAT_TO_EXEC_ENQUEUE_COUNT
  | MetricId.EXEC_ENQUEUE_TO_SEND_NS => Some MetricId.EXEC_ENQUEUE_TO_SEND_COUNT
  | MetricId.FULL_PIPELINE_NS => Some MetricId.FULL_PIPELINE_COUNT
  | MetricId.USER_RECV_TO_PROC_NS => Some MetricId.USER_RECV_TO_PROC_COUNT
  | MetricId.EXEC_ORDER_RTT_NS => Some MetricId.EXEC_ORDER_RTT_COUNT
  | MetricId.EXEC_CANCEL_RTT_NS => Some MetricId.EXEC_CANCEL_RTT_COUNT
  | _ => None
  end.
Definition newline : text := ["010"%char].
Definition dump_line (m : Metrics) (id : MetricId) : text :=
  let val := get id m in
  if val =? 0 then [] else
  txt "  " ++ txt (metric_name id) ++ txt " = " ++ int_to_chars val ++
  match latency_count id with
  | Some cnt_id => let cnt := get cnt_id m in
                   if cnt >? 0 then txt " (avg " ++ int_to_chars (val ÷ cnt) ++ txt " ns)" else []
  | None => []
  end ++ newline.
Definition latency_summary : list (string * MetricId * MetricId) :=
  [("Parse:", MetricId.PARSE_LATENCY_NS, MetricId.PARSE_LATENCY_COUNT);
   ("Book:", MetricId.BOOK_LATENCY_NS, MetricId.BOOK_LATENCY_COUNT);
   ("E2E (T0):", MetricId.E2E_LATENCY_NS, MetricId.E2E_LATENCY_COUNT);
   ("Queue (T2):", MetricId.SCHED_RECV_TO_PROC_NS, MetricId.SCHED_RECV_TO_PROC_COUNT);
   ("User (T1>T2):", MetricId.USER_RECV_TO_PROC_NS, MetricId.USER_RECV_TO_PROC_COUNT);
   ("Strategy:", MetricId.SCHED_STRAT_LATENCY_NS, MetricId.SCHED_STRAT_LATENCY_COUNT);
   ("Order RTT:", MetricId.EXEC_ORDER_RTT_NS, MetricId.EXEC_ORDER_RTT_COUNT);
   ("Cancel RTT:", MetricId.EXEC_CANCEL_RTT_NS, MetricId.EXEC_CANCEL_RTT_COUNT);
   ("REST RTT:", MetricId.EXEC_RTT_NS, MetricId.EXEC_RTT_COUNT);
   ("Full pipe:", MetricId.FULL_PIPELINE_NS, MetricId.FULL_PIPELINE_COUNT)]%string.
(** [fmt_latency label ns cnt max]: the line printed for a label. *)
Definition dump (fmt_latency : string -> Z -> Z -> Z -> text) (m : Metrics) : text :=
  txt "=== Metrics ===" ++ newline ++ concat (dump_line m <$> all_metrics) ++
  newline ++ txt "=== Latency Summary (averages) ===" ++ newline ++
  concat ((fun '(label, ns_id, cnt_id) =>
    if get cnt_id m >? 0 then fmt_latency label (get ns_id m) (get cnt_id m) (get_max ns_id m) else []) <$> latency_summary).

(** *** What is counted *)
Definition metrics_ok (m : Metrics) : Prop := length (counters_ m) = kMetricCount.
Lemma metrics_new_ok : metrics_ok Metrics_new.
Proof. apply length_replicate. Qed.
Lemma with_cell_ok id f m : metrics_ok m -> metrics_ok (with_cell id f m).
Proof. unfold metrics_ok, with_cell. cbn [counters_]. by rewrite length_alter. Qed.
Lemma cell_with id id' f m : metrics_ok m -> cell id (with_cell id' f m) = if decide (id = id') then f (cell id m) else cell id m.
Proof.
  intros Hm. unfold cell, with_cell. cbn [counters_]. case_decide as E.
  - subst. apply list_lookup_total_alter_eq. rewrite Hm. apply metric_index_bound.
  - rewrite list_lookup_total_alter_ne; [done|]. intros E'. apply metric_index_eq in E'. congruence.
Qed.
Lemma get_add id id' v m : metrics_ok m -> get id (add id' v m) = if decide (id = id') then wrap_i64 (get id m + v) else get id m.
Proof. intros Hm. unfold get, add. rewrite cell_with by done. by case_decide. Qed.

(** The operations on the counters by any thread. *)
Inductive CounterOp := CAdd (id : MetricId) (v : Z) | CLatency (ns_id count_id : MetricId) (ns : Z)
  | CLatencyMax (ns_id count_id : MetricId) (ns : Z).
Definition counter_op (m : Metrics) (o : CounterOp) : Metrics :=
  match o with
  | CAdd id v => add id v m
  | CLatency n c ns => record_latency n c ns m
  | CLatencyMax n c ns => record_latency_with_max n c ns m
  end.
(** What an operation adds to a counter. *)
Definition added (id : MetricId) (o : CounterOp) : Z :=
  match o with
  | CAdd id' v => if decide (id = id') then v else 0
  | CLatency n c ns | CLatencyMax n c ns => (if decide (id = n) then ns else 0) + (if decide (id = c) then 1 else 0)
  end.
Lemma counter_op_get id o m : metrics_ok m -> get id (counter_op m o) = wrap_i64 (get id m + added id o) \/
  (added id o = 0 /\ get id (counter_op m o) = get id m).
Proof.
  intros Hm. assert (forall i f m', metrics_ok m' -> (forall c, cc_value (f c) = cc_value c) -> get id (with_cell i f m') = get id m') as Hmax.
  { intros i f m' Hm' Hf. unfold get. rewrite cell_with by done. case_decide; [apply Hf|done]. }
  assert (forall n c ns, get id (record_latency n c ns m) = wrap_i64 (get id m + added id (CLatency n c ns)) \/
    (added id (CLatency n c ns) = 0 /\ get id (record_latency n c ns m) = get id m)) as Hl.
  { intros n c ns. unfold record_latency. rewrite !get_add by (done || by apply with_cell_ok). simpl.
    destruct (decide (id = c)), (decide (id = n)); [left|left|left|right]; rewrite ?wrap_i64_add; try (f_equal; lia); done. }
  destruct o as [id' v|n c ns|n c ns]; simpl.
  - rewrite get_add by done. destruct (decide (id = id')); [by left|by right].
  - apply Hl.
  - unfold record_latency_with_max. rewrite Hmax; [apply Hl|by apply with_cell_ok, with_cell_ok|done].
Qed.
Lemma counter_op_ok o m : metrics_ok m -> metrics_ok (counter_op m o).
Proof. intros Hm. destruct o; simpl; repeat apply with_cell_ok; done. Qed.

(** Along every interleaving of the threads a counter is the sum of what was added to
    it, in 64-bit arithmetic. *)
Theorem counter_counts (ops : list CounterOp) (id : MetricId) :
  get id (foldl counter_op Metrics_new ops) = wrap_i64 (sum_list_Z (added id) ops).
Proof.
  induction ops as [|o ops IH] using rev_ind.
  { unfold get, cell, Metrics_new. cbn [counters_ foldl]. by rewrite lookup_total_replicate_2 by apply metric_index_bound. }
  assert (metrics_ok (foldl counter_op Metrics_new ops)) as Hm by (clear IH; induction ops as [|o' ops IH] using rev_ind; [apply metrics_new_ok|];
    rewrite foldl_snoc; by apply counter_op_ok).
  rewrite foldl_snoc, sum_list_Z_app. simpl. destruct (counter_op_get id o _ Hm) as [->|[H0 ->]]; rewrite IH.
  - rewrite wrap_i64_add. f_equal. lia.
  - rewrite H0. f_equal. lia.
Qed.
End Counters.
