(* ===== verification/ChainEncoders.v ===== *)
(** Encoders of chain transactions: [src/inventory/rlp_encoder.cpp],
    [src/inventory/abi_encoder.cpp], [src/inventory/tx_builder.cpp],
    [src/inventory/proxy_tx_builder.cpp], [src/inventory/safe_tx_builder.cpp].

    The functions of the source append to an output vector; here each returns what
    it appends.  The reference readers ([rlp_list], [abi_uint] and what is built from
    them) are written from the formats' definitions (recursive length prefixes; words
    of 32 bytes, dynamic arguments behind an offset), not from the encoders.

    Shown: the reader of the format gives back every signed transaction, and every
    call of the token contract wrapped in a call of the proxy factory, as it was
    encoded; the bytes that are signed determine what is signed. *)
From Stdlib Require Import Ascii.
From S2P Require Import Prelude Types Price Crypto.

(** ** Recursive length prefixes *)

(** The bytes of a 64-bit length without leading zeros: 8 rounds of the loop are enough. *)
Fixpoint length_loop (fuel : nat) (tmp : Z) : list Z :=
  match fuel with
  | O => []
  | S fuel => if tmp >? 0 then length_loop fuel (Z.shiftr tmp 8) ++ [Z.land tmp 0xff] else []
  end.
Definition encode_length_bytes (len : Z) : list Z := length_loop 8 len.
Fixpoint count_loop (fuel : nat) (len : Z) : Z :=
  match fuel with
  | O => 0
  | S fuel => if len >? 0 then count_loop fuel (Z.shiftr len 8) + 1 else 0
  end.
Definition count_length_bytes (len : Z) : Z := count_loop 8 len.

Definition rlp_encode_string (data : list Z) : list Z :=
  let len := Z.of_nat (length data) in
  if (len =? 1) && (array_get data 0 <=? 0x7f) then [array_get data 0]
  else if len <=? 55 then wrap_u8 (0x80 + len) :: data
  else wrap_u8 (0xb7 + count_length_bytes len) :: encode_length_bytes len ++ data.

Fixpoint strip_zeros (data : list Z) : list Z :=
  match data with
  | [] => []
  | b :: r => if b =? 0 then strip_zeros r else data
  end.
Definition rlp_encode_uint64 (value : Z) : list Z :=
  if value =? 0 then [0x80] else rlp_encode_string (strip_zeros (be_bytes 8 value)).
Definition rlp_encode_uint256 (value : list Z) : list Z :=
  match strip_zeros value with
  | [] => [0x80]
  | r => rlp_encode_string r
  end.

Definition rlp_wrap_list (items : list Z) : list Z :=
  let len := Z.of_nat (length items) in
  (if len <=? 55 then [wrap_u8 (0xc0 + len)]
   else wrap_u8 (0xf7 + count_length_bytes len) :: encode_length_bytes len) ++ items.

(** *** The reader *)

(** The payload after a head byte [b] of a kind that starts at [base]. *)
Definition rlp_payload (base b : Z) (rest : list Z) : option (list Z * list Z) :=
  '(len, rest) ← (if b - base <=? 55 then Some (b - base, rest) else
                  let n := Z.to_nat (b - base - 55) in
                  if (length rest <? n)%nat then None else Some (be_value (take n rest), drop n rest));
  if Z.of_nat (length rest) <? len then None
  else Some (take (Z.to_nat len) rest, drop (Z.to_nat len) rest).
Definition rlp_string (l : list Z) : option (list Z * list Z) :=
  match l with
  | [] => None
  | b :: rest =>
      if b <? 0x80 then Some ([b], rest) else if b <? 0xc0 then rlp_payload 0x80 b rest else None
  end.
Fixpoint rlp_strings (fuel : nat) (l : list Z) : option (list (list Z)) :=
  match l, fuel with
  | [], _ => Some []
  | _, O => None
  | _, S fuel => '(x, rest) ← rlp_string l; xs ← rlp_strings fuel rest; Some (x :: xs)
  end.
(** A list of strings that takes up the whole input. *)
Definition rlp_list (l : list Z) : option (list (list Z)) :=
  match l with
  | [] => None
  | b :: rest =>
      if b <? 0xc0 then None else
      '(payload, trailing) ← rlp_payload 0xc0 b rest;
      match trailing with [] => rlp_strings (length payload) payload | _ => None end
  end.

(** *** Round trips *)
Lemma shiftr8_div v : Z.shiftr v 8 = v / 256.
Proof. by rewrite Z.shiftr_div_pow2 by lia. Qed.
Lemma land255_mod v : Z.land v 255 = v mod 256.
Proof. change 255 with (Z.ones 8). by rewrite Z.land_ones by lia. Qed.

Lemma length_loop_spec n v : 0 <= v < 256 ^ Z.of_nat n ->
  be_value (length_loop n v) = v /\ Z.of_nat (length (length_loop n v)) = count_loop n v /\ 0 <= count_loop n v <= Z.of_nat n /\
  Forall is_byte (length_loop n v).
Proof.
  revert v. induction n as [|n IH]; intros v Hv; [simpl in *; split_and!; [lia|done|lia|lia|constructor]|].
  cbn [length_loop count_loop]. destruct (Z.gtb_spec v 0); [|split_and!; [simpl; lia|done|lia|lia|constructor]].
  rewrite pow256_succ in Hv. rewrite !shiftr8_div, land255_mod.
  destruct (IH (v / 256)) as (IH1 & IH2 & IH3 & IH4).
  { split; [apply Z.div_pos; lia|apply Z.div_lt_upper_bound; lia]. }
  pose proof (Z.mod_pos_bound v 256 ltac:(lia)).
  split_and!.
  - rewrite be_value_app, IH1. simpl. pose proof (Z.div_mod v 256 ltac:(lia)). lia.
  - rewrite length_app, <- IH2. simpl. lia.
  - lia.
  - lia.
  - apply Forall_app. split; [done|]. by constructor.
Qed.

Lemma count_positive n v : 0 < v -> (0 < n)%nat -> 0 <= count_loop n v -> 1 <= count_loop n v.
Proof.
  destruct n as [|n]; [lia|]. intros Hv _ _. cbn [count_loop]. destruct (Z.gtb_spec v 0); [|lia].
  assert (forall m w, 0 <= count_loop m w) as Hnn by (induction m as [|m IHm]; intros w; simpl; [lia|]; case_match; [specialize (IHm (Z.shiftr w 8)); lia|lia]).
  specialize (Hnn n (Z.shiftr v 8)). lia.
Qed.

(** The head of a payload, for strings (0x80) and lists (0xc0) alike. *)
Lemma rlp_payload_short base data rest : Z.of_nat (length data) <= 55 ->
  rlp_payload base (base + Z.of_nat (length data)) (data ++ rest) = Some (data, rest).
Proof.
  intros Hl. unfold rlp_payload. replace (base + Z.of_nat (length data) - base) with (Z.of_nat (length data)) by lia.
  rewrite (proj2 (Z.leb_le _ _) Hl). cbn [mbind option_bind]. rewrite length_app, (proj2 (Z.ltb_ge _ _)) by lia.
  by rewrite Nat2Z.id, take_app_length, drop_app_length.
Qed.

Lemma rlp_payload_long base data rest : 55 < Z.of_nat (length data) < 2 ^ 64 ->
  rlp_payload base (base + 55 + count_length_bytes (Z.of_nat (length data))) (encode_length_bytes (Z.of_nat (length data)) ++ data ++ rest) =
    Some (data, rest).
Proof.
  intros Hl. set (len := Z.of_nat (length data)) in *. unfold count_length_bytes, encode_length_bytes.
  destruct (length_loop_spec 8 len) as (Hv & Hn & Hc & _); [change (256 ^ Z.of_nat 8) with (2 ^ 64); lia|].
  pose proof (count_positive 8 len ltac:(lia) ltac:(lia) ltac:(lia)).
  unfold rlp_payload. rewrite (proj2 (Z.leb_gt _ _)) by lia.
  replace (Z.to_nat (base + 55 + count_loop 8 len - base - 55)) with (length (length_loop 8 len)) by lia. cbv zeta.
  rewrite (proj2 (Nat.ltb_ge _ _)) by (rewrite length_app; lia). rewrite take_app_length, drop_app_length. cbn [mbind option_bind].
  rewrite Hv, length_app, (proj2 (Z.ltb_ge _ _)) by lia. unfold len. by rewrite Nat2Z.id, take_app_length, drop_app_length.
Qed.

Lemma count_length_8 len : 0 <= len < 2 ^ 64 -> 0 <= count_length_bytes len <= 8.
Proof. intros Hl. destruct (length_loop_spec 8 len Hl) as (_ & _ & Hc & _). exact Hc. Qed.

Definition sized (data : list Z) : Prop := Forall is_byte data /\ Z.of_nat (length data) < 2 ^ 64.

Lemma rlp_string_encode data rest : sized data -> rlp_string (rlp_encode_string data ++ rest) = Some (data, rest).
Proof.
  intros [Hb Hl]. unfold rlp_encode_string. cbv zeta.
  destruct (Z.eqb_spec (Z.of_nat (length data)) 1) as [H1|H1]; cbn [andb].
  - destruct data as [|b [|b' data]]; simpl in H1; try lia. change (array_get [b] 0) with b. inversion_clear Hb as [|? ? Hb0 _].
    destruct (Z.leb_spec b 127).
    + cbn [app rlp_string]. by rewrite (proj2 (Z.ltb_lt _ _)) by lia.
    + rewrite (proj2 (Z.leb_le _ _)) by (simpl; lia). exact (rlp_payload_short 0x80 [b] rest ltac:(simpl; lia)).
  - destruct (Z.leb_spec (Z.of_nat (length data)) 55).
    + unfold wrap_u8. rewrite Z.mod_small by lia. cbn [app rlp_string].
      rewrite (proj2 (Z.ltb_ge _ _)), (proj2 (Z.ltb_lt _ _)) by lia. by apply rlp_payload_short.
    + pose proof (count_length_8 (Z.of_nat (length data)) ltac:(lia)). unfold wrap_u8. rewrite Z.mod_small by lia.
      cbn [app rlp_string]. rewrite (proj2 (Z.ltb_ge _ _)), (proj2 (Z.ltb_lt _ _)) by lia. rewrite <- app_assoc.
      replace (0xb7 + count_length_bytes (Z.of_nat (length data))) with (0x80 + 55 + count_length_bytes (Z.of_nat (length data))) by lia.
      apply rlp_payload_long. lia.
Qed.

Lemma rlp_encode_string_nonempty data : rlp_encode_string data <> [].
Proof. unfold rlp_encode_string. by repeat case_match. Qed.

Lemma rlp_strings_encode xs fuel : Forall sized xs -> (length xs <= fuel)%nat ->
  rlp_strings fuel (concat (rlp_encode_string <$> xs)) = Some xs.
Proof.
  intros Hx. revert fuel. induction Hx as [|x xs Hs _ IH]; intros fuel Hf; [by destruct fuel|]. destruct fuel as [|fuel]; simpl in Hf; [lia|].
  cbn [fmap list_fmap concat]. pose proof (rlp_string_encode x (concat (rlp_encode_string <$> xs)) Hs) as Hr.
  destruct (rlp_encode_string x ++ concat (rlp_encode_string <$> xs)) as [|b l] eqn:E.
  { apply app_eq_nil in E as [E _]. by apply rlp_encode_string_nonempty in E. }
  cbn [rlp_strings]. rewrite Hr. cbn [mbind option_bind]. rewrite IH by lia. done.
Qed.

Lemma concat_encode_length xs : (length xs <= length (concat (rlp_encode_string <$> xs)))%nat.
Proof.
  induction xs as [|x xs IH]; [simpl; lia|]. cbn [fmap list_fmap concat]. rewrite length_app. simpl.
  pose proof (rlp_encode_string_nonempty x). destruct (rlp_encode_string x); simpl; [done|lia].
Qed.

Lemma rlp_list_encode xs : Forall sized xs -> Z.of_nat (length (concat (rlp_encode_string <$> xs))) < 2 ^ 64 ->
  rlp_list (rlp_wrap_list (concat (rlp_encode_string <$> xs))) = Some xs.
Proof.
  intros Hx Hl. pose proof (rlp_strings_encode xs _ Hx (concat_encode_length xs)) as Hs.
  set (items := concat (rlp_encode_string <$> xs)) in *. unfold rlp_wrap_list. cbv zeta.
  destruct (Z.leb_spec (Z.of_nat (length items)) 55).
  - unfold wrap_u8. rewrite Z.mod_small by lia. cbn [app rlp_list]. rewrite (proj2 (Z.ltb_ge _ _)) by lia.
    pose proof (rlp_payload_short 0xc0 items [] ltac:(lia)) as Hp. rewrite app_nil_r in Hp. rewrite Hp. exact Hs.
  - pose proof (count_length_8 (Z.of_nat (length items)) ltac:(lia)). unfold wrap_u8. rewrite Z.mod_small by lia. cbn [app rlp_list].
    rewrite (proj2 (Z.ltb_ge _ _)) by lia. pose proof (rlp_payload_long 0xc0 items [] ltac:(lia)) as Hp. rewrite app_nil_r in Hp.
    replace (0xf7 + count_length_bytes (Z.of_nat (length items))) with (0xc0 + 55 + count_length_bytes (Z.of_nat (length items))) by lia.
    rewrite Hp. exact Hs.
Qed.

(** Integers are strings without leading zeros. *)
Lemma be_value_strip l : be_value (strip_zeros l) = be_value l.
Proof. induction l as [|b l IH]; [done|]. cbn [strip_zeros]. destruct (Z.eqb_spec b 0) as [->|]; [rewrite IH; simpl; lia|done]. Qed.
Lemma strip_sized l : sized l -> sized (strip_zeros l).
Proof.
  intros [Hb Hl]. induction l as [|b l IH]; [done|]. cbn [strip_zeros]. case_match; [|done].
  apply IH; [by inversion Hb|simpl in Hl; lia].
Qed.
Lemma be_bytes_byte n v : Forall is_byte (be_bytes n v).
Proof.
  revert v. induction n as [|n IH]; intros v; [constructor|]. cbn [be_bytes]. apply Forall_app. split; [apply IH|].
  repeat constructor; rewrite land255_mod; apply Z.mod_pos_bound; lia.
Qed.

Lemma rlp_uint64_string v : rlp_encode_uint64 v = rlp_encode_string (strip_zeros (be_bytes 8 v)).
Proof. unfold rlp_encode_uint64. by destruct (Z.eqb_spec v 0) as [->|]. Qed.
Lemma rlp_uint256_string l : rlp_encode_uint256 l = rlp_encode_string (strip_zeros l).
Proof. unfold rlp_encode_uint256. by destruct (strip_zeros l). Qed.

(** ** Signed transactions *)
Record RawTxParams := mkRawTxParams {
  tp_nonce : Z;
  tp_gas_price : Z;
  tp_gas_limit : Z;
  tp_to : list Z;
  tp_value : Z;
  tp_data : list Z;
  tp_chain_id : Z }.

Section Transactions.
Context `{CryptoLib}.
Implicit Types (p : RawTxParams).

Definition encode_tx_fields p : list Z :=
  rlp_encode_uint64 (tp_nonce p) ++ rlp_encode_uint64 (tp_gas_price p) ++ rlp_encode_uint64 (tp_gas_limit p) ++
  rlp_encode_string (tp_to p) ++ rlp_encode_uint64 (tp_value p) ++ rlp_encode_string (tp_data p).
Definition unsigned_tx p : list Z :=
  rlp_wrap_list (encode_tx_fields p ++ rlp_encode_uint64 (tp_chain_id p) ++ rlp_encode_uint64 0 ++ rlp_encode_uint64 0).
(** The empty vector when signing fails. *)
Definition build_signed_transaction p : list Z :=
  match sign_hash (keccak256 (unsigned_tx p)) with
  | None => []
  | Some sig =>
      let recid := wrap_u8 (array_get sig 64 - 27) in
      let v := wrap_u64 (tp_chain_id p * 2 + 35 + recid) in
      rlp_wrap_list (encode_tx_fields p ++ rlp_encode_uint64 v ++ rlp_encode_uint256 (take 32 sig) ++
                     rlp_encode_uint256 (take 32 (drop 32 sig)))
  end.
Definition compute_tx_hash (signed_tx : list Z) : list Z := keccak256 signed_tx.

(** The transaction that bytes denote. *)
Record ChainTx := mkChainTx {
  ct_nonce : Z; ct_gas_price : Z; ct_gas_limit : Z; ct_to : list Z; ct_value : Z; ct_data : list Z;
  ct_v : Z; ct_r : Z; ct_s : Z }.
Definition read_tx (l : list Z) : option ChainTx :=
  match rlp_list l with
  | Some [nonce; price; limit; to; value; data; v; r; s] =>
      Some (mkChainTx (be_value nonce) (be_value price) (be_value limit) to (be_value value) data (be_value v) (be_value r) (be_value s))
  | _ => None
  end.

Record tx_wf p : Prop := {
  tw_nonce : 0 <= tp_nonce p < 2 ^ 64;
  tw_gas_price : 0 <= tp_gas_price p < 2 ^ 64;
  tw_gas_limit : 0 <= tp_gas_limit p < 2 ^ 64;
  tw_to : length (tp_to p) = 20%nat /\ Forall is_byte (tp_to p);
  tw_value : 0 <= tp_value p < 2 ^ 64;
  tw_data : Forall is_byte (tp_data p) /\ Z.of_nat (length (tp_data p)) < 2 ^ 63;
  tw_chain_id : 0 <= tp_chain_id p < 2 ^ 64 }.

(** The strings of a transaction. *)
Definition uint_string (v : Z) : list Z := strip_zeros (be_bytes 8 v).
Definition tx_strings p (v : Z) (r s : list Z) : list (list Z) :=
  [uint_string (tp_nonce p); uint_string (tp_gas_price p); uint_string (tp_gas_limit p); tp_to p; uint_string (tp_value p);
   tp_data p; uint_string v; strip_zeros r; strip_zeros s].

Lemma strip_length l : (length (strip_zeros l) <= length l)%nat.
Proof. induction l as [|b l IH]; [done|]. cbn [strip_zeros]. case_match; simpl; lia. Qed.
Lemma uint_string_value v : 0 <= v < 2 ^ 64 -> be_value (uint_string v) = v.
Proof. intros Hv. unfold uint_string. rewrite be_value_strip. exact (be_value_be_bytes 8 v Hv). Qed.
Lemma uint_string_length v : (length (uint_string v) <= 8)%nat.
Proof. unfold uint_string. pose proof (strip_length (be_bytes 8 v)) as Hl. by rewrite length_be_bytes in Hl. Qed.
Lemma rlp_encode_string_length data : sized data -> (length (rlp_encode_string data) <= 9 + length data)%nat.
Proof.
  intros [_ Hl]. unfold rlp_encode_string. cbv zeta. case_match; [simpl; lia|]. case_match; [simpl; lia|].
  simpl. rewrite length_app. destruct (length_loop_spec 8 (Z.of_nat (length data))) as (_ & Hn & Hc & _);
    [change (256 ^ Z.of_nat 8) with (2 ^ 64); lia|]. unfold encode_length_bytes. lia.
Qed.

Lemma tx_strings_sized p v r s : tx_wf p -> length r = 32%nat -> length s = 32%nat -> Forall is_byte r -> Forall is_byte s ->
  Forall sized (tx_strings p v r s).
Proof.
  intros [] Hr Hs Hbr Hbs. assert (forall w, sized (uint_string w)) as Hu
    by (intros w; apply strip_sized; split; [apply be_bytes_byte|by rewrite length_be_bytes]).
  assert (forall l, length l = 32%nat -> Forall is_byte l -> sized (strip_zeros l)) as H32
    by (intros l Hl Hb; apply strip_sized; split; [done|rewrite Hl; lia]).
  destruct tw_to0 as [Hto Hbt], tw_data0 as [Hbd Hd].
  repeat constructor; try apply Hu; try (by apply H32); try done; [rewrite Hto; lia|lia].
Qed.

Lemma tx_read p v r s : tx_wf p -> 0 <= v < 2 ^ 64 -> length r = 32%nat -> length s = 32%nat -> Forall is_byte r -> Forall is_byte s ->
  read_tx (rlp_wrap_list (encode_tx_fields p ++ rlp_encode_uint64 v ++ rlp_encode_uint256 r ++ rlp_encode_uint256 s)) =
    Some (mkChainTx (tp_nonce p) (tp_gas_price p) (tp_gas_limit p) (tp_to p) (tp_value p) (tp_data p) v (be_value r) (be_value s)).
Proof.
  intros Hw Hv Hr Hs Hbr Hbs. pose proof (tx_strings_sized p v r s Hw Hr Hs Hbr Hbs) as Hsz.
  assert (encode_tx_fields p ++ rlp_encode_uint64 v ++ rlp_encode_uint256 r ++ rlp_encode_uint256 s =
          concat (rlp_encode_string <$> tx_strings p v r s)) as ->.
  { destruct Hw. unfold encode_tx_fields, tx_strings. cbn [fmap list_fmap concat]. rewrite app_nil_r, <- !app_assoc, !rlp_uint256_string.
    by rewrite !rlp_uint64_string. }
  unfold read_tx. rewrite rlp_list_encode; [|done|].
  - unfold tx_strings. destruct Hw. rewrite !be_value_strip, !uint_string_value by assumption. reflexivity.
  - assert (length (concat (rlp_encode_string <$> tx_strings p v r s)) <= 213 + length (tp_data p))%nat; [|destruct Hw; lia].
    destruct Hw. pose proof (strip_length r). pose proof (strip_length s).
    pose proof (Forall_impl _ _ _ Hsz rlp_encode_string_length) as Hls. unfold tx_strings in *. cbn [fmap list_fmap concat].
    rewrite !length_app. rewrite !Forall_cons in Hls. destruct Hls as (L1 & L2 & L3 & L4 & L5 & L6 & L7 & L8 & L9 & _).
    pose proof (uint_string_length (tp_nonce p)). pose proof (uint_string_length (tp_gas_price p)). pose proof (uint_string_length (tp_gas_limit p)).
    pose proof (uint_string_length (tp_value p)). pose proof (uint_string_length v).
    change (length []) with 0%nat. destruct tw_to0. lia.
Qed.

(** The reader of the format gives back every transaction.  For every well-formed
    transaction the signature is made over the hash of bytes that denote exactly its
    fields with the chain's number (the replay protection of EIP-155), and the bytes
    that are sent denote exactly its fields with the signature and
    [v = 2 * chain_id + 35 + recovery id]. *)
Theorem signed_tx_roundtrip p (sig : list Z) (recid : Z)
    (Hw : tx_wf p) (Hsign : ecdsa_sign_recoverable (keccak256 (unsigned_tx p)) = Some (sig, recid)) :
  let fields := mkChainTx (tp_nonce p) (tp_gas_price p) (tp_gas_limit p) (tp_to p) (tp_value p) (tp_data p) in
  read_tx (unsigned_tx p) = Some (fields (tp_chain_id p) 0 0) /\
  read_tx (build_signed_transaction p) =
    Some (fields (wrap_u64 (tp_chain_id p * 2 + 35 + wrap_u8 recid)) (be_value (take 32 sig)) (be_value (drop 32 sig))).
Proof.
  cbv zeta. destruct (ecdsa_bytes _ _ _ Hsign) as [Hls Hbs]. split.
  - unfold unsigned_tx. change (rlp_encode_uint64 0) with (rlp_encode_uint256 (replicate 32 0)).
    apply tx_read; [done|by destruct Hw|done|done|by apply Forall_replicate|by apply Forall_replicate].
  - unfold build_signed_transaction, sign_hash. rewrite Hsign. cbn [mbind option_bind]. cbv zeta.
    assert (array_get (sig ++ [wrap_u8 (27 + recid)]) 64 = wrap_u8 (27 + recid)) as ->.
    { unfold array_get. change (Z.to_nat 64) with 64%nat. rewrite lookup_total_app_r, Hls by lia. done. }
    rewrite take_app_le, drop_app_le, take_app_le by (rewrite ?length_drop; lia). rewrite (take_ge (drop 32 sig)) by (rewrite length_drop; lia).
    replace (wrap_u8 (wrap_u8 (27 + recid) - 27)) with (wrap_u8 recid)
      by (unfold wrap_u8; rewrite Zminus_mod_idemp_l; f_equal; lia).
    apply tx_read; [done|apply Z.mod_pos_bound; lia|rewrite length_take; lia|rewrite length_drop; lia|by apply Forall_take|by apply Forall_drop].
Qed.
End Transactions.

(** ** Calls of contracts *)
Definition CTF_CONTRACT_ADDRESS : list Z :=
  [0x4D; 0x97; 0xDC; 0xd9; 0x7e; 0xC9; 0x45; 0xf4; 0x0c; 0xF6; 0x5F; 0x87; 0x09; 0x7A; 0xCe; 0x5E; 0xA0; 0x47; 0x60; 0x45].
Definition USDC_E_ADDRESS : list Z :=
  [0x27; 0x91; 0xBc; 0xa1; 0xf2; 0xde; 0x46; 0x61; 0xED; 0x88; 0xA3; 0x0C; 0x99; 0xA7; 0xa9; 0x44; 0x9A; 0xa8; 0x41; 0x74].
Definition PROXY_FACTORY_ADDRESS : list Z :=
  [0xaB; 0x45; 0xc5; 0xA4; 0xB0; 0xc9; 0x41; 0xa2; 0xF2; 0x31; 0xC0; 0x4C; 0x3f; 0x49; 0x18; 0x2e; 0x1A; 0x25; 0x40; 0x52].
Definition RELAY_HUB_ADDRESS : list Z :=
  [0xD2; 0x16; 0x15; 0x3c; 0x06; 0xE8; 0x57; 0xcD; 0x7f; 0x72; 0x66; 0x5E; 0x0a; 0xF1; 0xd7; 0xD8; 0x21; 0x72; 0xF4; 0x94].

Definition write_zero32 : list Z := replicate 32 0.
Definition write_address32 (addr : list Z) : list Z := replicate 12 0 ++ addr.
Definition write_uint256 (val : Z) : list Z := uint64_to_uint256_be val.

Definition SPLIT_SIGNATURE : string := "splitPosition(address,bytes32,bytes32,uint256[],uint256)".
Definition MERGE_SIGNATURE : string := "mergePositions(address,bytes32,bytes32,uint256[],uint256)".
Definition REDEEM_SIGNATURE : string := "redeemPositions(address,bytes32,bytes32,uint256[])".
Definition APPROVE_SIGNATURE : string := "approve(address,uint256)".
Definition PROXY_SIGNATURE : string := "proxy((uint8,address,uint256,bytes)[])".

Section Calls.
Context `{CryptoLib}.

Definition selector (signature : string) : list Z := take 4 (keccak256 (bytes_of signature)).

Definition encode_split_position (condition_id : list Z) (amount_usdc6 : Z) : list Z :=
  selector SPLIT_SIGNATURE ++ write_address32 USDC_E_ADDRESS ++ write_zero32 ++ condition_id ++ write_uint256 160 ++
  write_uint256 amount_usdc6 ++ write_uint256 2 ++ write_uint256 1 ++ write_uint256 2.
Definition encode_merge_positions (condition_id : list Z) (amount_usdc6 : Z) : list Z :=
  selector MERGE_SIGNATURE ++ write_address32 USDC_E_ADDRESS ++ write_zero32 ++ condition_id ++ write_uint256 160 ++
  write_uint256 amount_usdc6 ++ write_uint256 2 ++ write_uint256 1 ++ write_uint256 2.
Definition encode_redeem_positions (condition_id : list Z) : list Z :=
  selector REDEEM_SIGNATURE ++ write_address32 USDC_E_ADDRESS ++ write_zero32 ++ condition_id ++ write_uint256 128 ++
  write_uint256 2 ++ write_uint256 1 ++ write_uint256 2.
Definition encode_usdc_approve_ctf : list Z :=
  selector APPROVE_SIGNATURE ++ write_address32 CTF_CONTRACT_ADDRESS ++ replicate 32 0xFF.

(** One call of [target_contract], wrapped for the proxy factory. *)
Definition encode_proxy_call_data (target_contract inner_call_data : list Z) : list Z :=
  let size := Z.of_nat (length inner_call_data) in
  let padded_data_len := (size + 31) / 32 * 32 in
  selector PROXY_SIGNATURE ++ write_uint256 32 ++ write_uint256 1 ++ write_uint256 32 ++ write_uint256 1 ++
  write_address32 target_contract ++ write_uint256 0 ++ write_uint256 128 ++ write_uint256 size ++ inner_call_data ++
  replicate (Z.to_nat (padded_data_len - size)) 0.

(** *** The reader *)

(** The word, the integer and the address at a byte offset of the arguments. *)
Definition abi_word (args : list Z) (off : Z) : list Z := take 32 (drop (Z.to_nat off) args).
Definition abi_uint (args : list Z) (off : Z) : Z := be_value (abi_word args off).
Definition abi_address (args : list Z) (off : Z) : list Z := drop 12 (abi_word args off).
(** The array of integers, and the bytes, whose length is at an offset. *)
Definition abi_uints (args : list Z) (off : Z) : list Z :=
  (fun i => abi_uint args (off + 32 * (i + 1))) <$> seqZ 0 (abi_uint args off).
Definition abi_bytes (args : list Z) (off : Z) : list Z :=
  take (Z.to_nat (abi_uint args off)) (drop (Z.to_nat (off + 32)) args).

(** What a call of the token contract does: a static argument is in its place, a
    dynamic one behind the offset there. *)
Inductive CtfCall :=
  | CtfSplit (collateral parent condition : list Z) (partition : list Z) (amount : Z)
  | CtfMerge (collateral parent condition : list Z) (partition : list Z) (amount : Z)
  | CtfRedeem (collateral parent condition : list Z) (index_sets : list Z)
  | Erc20Approve (spender : list Z) (amount : Z).
Definition read_call (data : list Z) : option CtfCall :=
  let args := drop 4 data in
  let sets := abi_uints args (abi_uint args 96) in
  let is_call sig := bool_decide (take 4 data = selector sig) in
  if is_call SPLIT_SIGNATURE then Some (CtfSplit (abi_address args 0) (abi_word args 32) (abi_word args 64) sets (abi_uint args 128))
  else if is_call MERGE_SIGNATURE then Some (CtfMerge (abi_address args 0) (abi_word args 32) (abi_word args 64) sets (abi_uint args 128))
  else if is_call REDEEM_SIGNATURE then Some (CtfRedeem (abi_address args 0) (abi_word args 32) (abi_word args 64) sets)
  else if is_call APPROVE_SIGNATURE then Some (Erc20Approve (abi_address args 0) (abi_uint args 32))
  else None.

(** The calls (kind, target, value, data) of a proxy call with one element. *)
Definition read_proxy_call (data : list Z) : option (Z * list Z * Z * list Z) :=
  let args := drop 4 data in
  let array := abi_uint args 0 in
  let tuple := array + 32 + abi_uint args (array + 32) in
  if bool_decide (take 4 data = selector PROXY_SIGNATURE) && (abi_uint args array =? 1) then
    Some (abi_uint args tuple, abi_address args (tuple + 32), abi_uint args (tuple + 64), abi_bytes args (tuple + abi_uint args (tuple + 96)))
  else None.

(** *** Round trips *)
Lemma length_selector sig : length (selector sig) = 4%nat.
Proof. unfold selector. by rewrite length_take, keccak256_length. Qed.
Lemma take_selector sig rest : take 4 (selector sig ++ rest) = selector sig.
Proof. rewrite <- (length_selector sig). apply take_app_length. Qed.
Lemma drop_selector sig rest : drop 4 (selector sig ++ rest) = rest.
Proof. rewrite <- (length_selector sig). apply drop_app_length. Qed.

(** Arguments as a list of words. *)
Definition words_of (ws : list (list Z)) (rest : list Z) : list Z := concat ws ++ rest.
Lemma words_length ws : Forall (fun w => length w = 32%nat) ws -> length (words_of ws []) = (32 * length ws)%nat.
Proof.
  intros Hw. unfold words_of. rewrite app_nil_r. induction Hw as [|w ws Hx _ IH]; [done|]. cbn [concat length]. rewrite length_app, IH, Hx. lia.
Qed.
Lemma abi_word_at ws rest i w : Forall (fun w => length w = 32%nat) ws -> ws !! i = Some w ->
  abi_word (words_of ws rest) (32 * Z.of_nat i) = w.
Proof.
  intros Hws. unfold abi_word, words_of. replace (Z.to_nat (32 * Z.of_nat i)) with (32 * i)%nat by lia. revert i.
  induction Hws as [|x ws Hx _ IH]; intros i Hi; [done|]. cbn [concat]. rewrite <- app_assoc. destruct i as [|i].
  - injection Hi as ->. change (32 * 0)%nat with 0%nat. rewrite drop_0, <- Hx. apply take_app_length.
  - replace (32 * S i)%nat with (length x + 32 * i)%nat by lia. rewrite <- drop_drop, drop_app_length. by apply IH.
Qed.

Lemma uint256_length v : length (write_uint256 v) = 32%nat.
Proof. unfold write_uint256, uint64_to_uint256_be. by rewrite length_app, length_be_bytes. Qed.
Lemma address32_length a : length a = 20%nat -> length (write_address32 a) = 32%nat.
Proof. intros Ha. unfold write_address32. by rewrite length_app, Ha. Qed.
Lemma address32_read a : drop 12 (write_address32 a) = a.
Proof. done. Qed.

(** The length of the first words and of what is read from a word. *)
Lemma abi_word_lit ws rest (i : nat) off w : off = 32 * Z.of_nat i -> Forall (fun w => length w = 32%nat) ws -> ws !! i = Some w ->
  abi_word (words_of ws rest) off = w.
Proof. intros ->. apply abi_word_at. Qed.
Lemma abi_uint_lit ws rest (i : nat) off v : off = 32 * Z.of_nat i -> Forall (fun w => length w = 32%nat) ws ->
  ws !! i = Some (write_uint256 v) -> 0 <= v < 2 ^ 64 -> abi_uint (words_of ws rest) off = v.
Proof. intros Ho Hw Hi Hv. unfold abi_uint. rewrite (abi_word_lit ws rest i off _ Ho Hw Hi). exact (uint64_be_value v Hv). Qed.
Lemma abi_address_lit ws rest (i : nat) off a : off = 32 * Z.of_nat i -> Forall (fun w => length w = 32%nat) ws ->
  ws !! i = Some (write_address32 a) -> abi_address (words_of ws rest) off = a.
Proof. intros Ho Hw Hi. unfold abi_address. rewrite (abi_word_lit ws rest i off _ Ho Hw Hi). apply address32_read. Qed.

(** The partition [1; 2] at word [i]. *)
Lemma abi_partition ws rest (i : nat) off : off = 32 * Z.of_nat i -> Forall (fun w => length w = 32%nat) ws ->
  ws !! i = Some (write_uint256 2) -> ws !! (i + 1)%nat = Some (write_uint256 1) -> ws !! (i + 2)%nat = Some (write_uint256 2) ->
  abi_uints (words_of ws rest) off = [1; 2].
Proof.
  intros Ho Hw H0 H1 H2. unfold abi_uints. rewrite (abi_uint_lit ws rest i off 2 Ho Hw H0) by lia.
  change (seqZ 0 2) with [0; 1]. cbn [fmap list_fmap].
  rewrite (abi_uint_lit ws rest (i + 1) (off + 32 * (0 + 1)) 1 ltac:(lia) Hw H1) by lia.
  rewrite (abi_uint_lit ws rest (i + 2) (off + 32 * (1 + 1)) 2 ltac:(lia) Hw H2) by lia. done.
Qed.

Ltac word_lengths := repeat constructor; first [exact (uint256_length _)|apply address32_length; first [assumption|reflexivity]|assumption|reflexivity].

Definition position_words (condition_id : list Z) (amount : Z) : list (list Z) :=
  [write_address32 USDC_E_ADDRESS; write_zero32; condition_id; write_uint256 160; write_uint256 amount; write_uint256 2;
   write_uint256 1; write_uint256 2].
Lemma position_words_sized condition_id amount : length condition_id = 32%nat ->
  Forall (fun w => length w = 32%nat) (position_words condition_id amount).
Proof. intros Hc. word_lengths. Qed.
Lemma position_words_read condition_id amount (Hc : length condition_id = 32%nat) (Ha : 0 <= amount < 2 ^ 64) :
  let args := words_of (position_words condition_id amount) [] in
  abi_address args 0 = USDC_E_ADDRESS /\ abi_word args 32 = replicate 32 0 /\ abi_word args 64 = condition_id /\
  abi_uints args (abi_uint args 96) = [1; 2] /\ abi_uint args 128 = amount.
Proof.
  pose proof (position_words_sized condition_id amount Hc) as Hw. intros args. split_and!.
  - by apply (abi_address_lit _ _ 0).
  - by apply (abi_word_lit _ _ 1).
  - by apply (abi_word_lit _ _ 2).
  - assert (abi_uint args 96 = 160) as -> by (apply (abi_uint_lit _ _ 3); done || lia). by apply (abi_partition _ _ 5).
  - by apply (abi_uint_lit _ _ 4).
Qed.
Definition redeem_words (condition_id : list Z) : list (list Z) :=
  [write_address32 USDC_E_ADDRESS; write_zero32; condition_id; write_uint256 128; write_uint256 2; write_uint256 1; write_uint256 2].
Lemma redeem_words_sized condition_id : length condition_id = 32%nat -> Forall (fun w => length w = 32%nat) (redeem_words condition_id).
Proof. intros Hc. word_lengths. Qed.
Lemma redeem_words_read condition_id (Hc : length condition_id = 32%nat) :
  let args := words_of (redeem_words condition_id) [] in
  abi_address args 0 = USDC_E_ADDRESS /\ abi_word args 32 = replicate 32 0 /\ abi_word args 64 = condition_id /\
  abi_uints args (abi_uint args 96) = [1; 2].
Proof.
  pose proof (redeem_words_sized condition_id Hc) as Hw. intros args. split_and!.
  - by apply (abi_address_lit _ _ 0).
  - by apply (abi_word_lit _ _ 1).
  - by apply (abi_word_lit _ _ 2).
  - assert (abi_uint args 96 = 128) as -> by (apply (abi_uint_lit _ _ 3); done || lia). by apply (abi_partition _ _ 4).
Qed.

Lemma encode_split_words c a : encode_split_position c a = selector SPLIT_SIGNATURE ++ words_of (position_words c a) [].
Proof. unfold encode_split_position, words_of, position_words. cbn [concat]. by rewrite <- !app_assoc, !app_nil_r. Qed.
Lemma encode_merge_words c a : encode_merge_positions c a = selector MERGE_SIGNATURE ++ words_of (position_words c a) [].
Proof. unfold encode_merge_positions, words_of, position_words. cbn [concat]. by rewrite <- !app_assoc, !app_nil_r. Qed.
Lemma encode_redeem_words c : encode_redeem_positions c = selector REDEEM_SIGNATURE ++ words_of (redeem_words c) [].
Proof. unfold encode_redeem_positions, words_of, redeem_words. cbn [concat]. by rewrite <- !app_assoc, !app_nil_r. Qed.

(** The first four bytes of the hashes of the four signatures differ. *)
Definition selectors_differ : Prop :=
  NoDup (selector <$> [SPLIT_SIGNATURE; MERGE_SIGNATURE; REDEEM_SIGNATURE; APPROVE_SIGNATURE]).
Lemma selectors_apart : selectors_differ ->
  selector MERGE_SIGNATURE <> selector SPLIT_SIGNATURE /\
  (selector REDEEM_SIGNATURE <> selector SPLIT_SIGNATURE /\ selector REDEEM_SIGNATURE <> selector MERGE_SIGNATURE) /\
  selector APPROVE_SIGNATURE <> selector SPLIT_SIGNATURE /\ selector APPROVE_SIGNATURE <> selector MERGE_SIGNATURE /\
  selector APPROVE_SIGNATURE <> selector REDEEM_SIGNATURE.
Proof.
  unfold selectors_differ. cbn [fmap list_fmap]. rewrite !NoDup_cons, !not_elem_of_cons.
  intros ((?&?&?&?)&(?&?&?)&(?&?)&?&?). split_and!; by apply not_eq_sym.
Qed.

Lemma read_call_split c a : length c = 32%nat -> 0 <= a < 2 ^ 64 ->
  read_call (encode_split_position c a) = Some (CtfSplit USDC_E_ADDRESS (replicate 32 0) c [1; 2] a).
Proof.
  intros Hc Ha. destruct (position_words_read c a Hc Ha) as (E1 & E2 & E3 & E4 & E5).
  unfold read_call. rewrite encode_split_words, take_selector, drop_selector. cbv zeta.
  rewrite bool_decide_eq_true_2 by done. by rewrite E1, E2, E3, E4, E5.
Qed.
Lemma read_call_merge c a : selectors_differ -> length c = 32%nat -> 0 <= a < 2 ^ 64 ->
  read_call (encode_merge_positions c a) = Some (CtfMerge USDC_E_ADDRESS (replicate 32 0) c [1; 2] a).
Proof.
  intros Hd Hc Ha. destruct (position_words_read c a Hc Ha) as (E1 & E2 & E3 & E4 & E5).
  apply selectors_apart in Hd as (D1 & (D2 & D3) & D4 & D5 & D6). unfold read_call. rewrite encode_merge_words, take_selector, drop_selector. cbv zeta.
  rewrite bool_decide_eq_false_2, bool_decide_eq_true_2 by first [assumption|reflexivity]. by rewrite E1, E2, E3, E4, E5.
Qed.
Lemma read_call_redeem c : selectors_differ -> length c = 32%nat ->
  read_call (encode_redeem_positions c) = Some (CtfRedeem USDC_E_ADDRESS (replicate 32 0) c [1; 2]).
Proof.
  intros Hd Hc. destruct (redeem_words_read c Hc) as (E1 & E2 & E3 & E4).
  apply selectors_apart in Hd as (D1 & (D2 & D3) & D4 & D5 & D6). unfold read_call. rewrite encode_redeem_words, take_selector, drop_selector. cbv zeta.
  rewrite !bool_decide_eq_false_2, bool_decide_eq_true_2 by first [assumption|reflexivity]. by rewrite E1, E2, E3, E4.
Qed.
Lemma read_call_approve : selectors_differ ->
  read_call encode_usdc_approve_ctf = Some (Erc20Approve CTF_CONTRACT_ADDRESS (2 ^ 256 - 1)).
Proof.
  intros Hd. apply selectors_apart in Hd as (D1 & (D2 & D3) & D4 & D5 & D6). unfold read_call, encode_usdc_approve_ctf. rewrite take_selector, drop_selector. cbv zeta.
  rewrite !bool_decide_eq_false_2, bool_decide_eq_true_2 by first [assumption|reflexivity]. reflexivity.
Qed.

(** *** Proxy calls *)
Definition proxy_words (target : list Z) (size : Z) : list (list Z) :=
  [write_uint256 32; write_uint256 1; write_uint256 32; write_uint256 1; write_address32 target; write_uint256 0; write_uint256 128;
   write_uint256 size].
Lemma read_proxy_encode target inner : length target = 20%nat -> Z.of_nat (length inner) < 2 ^ 64 ->
  read_proxy_call (encode_proxy_call_data target inner) = Some (1, target, 0, inner).
Proof.
  intros Ht Hi. set (pad := replicate (Z.to_nat ((Z.of_nat (length inner) + 31) / 32 * 32 - Z.of_nat (length inner))) 0).
  assert (encode_proxy_call_data target inner =
    selector PROXY_SIGNATURE ++ words_of (proxy_words target (Z.of_nat (length inner))) (inner ++ pad)) as ->.
  { unfold encode_proxy_call_data, words_of, proxy_words. cbn [concat]. by rewrite <- !app_assoc. }
  assert (Forall (fun w => length w = 32%nat) (proxy_words target (Z.of_nat (length inner)))) as Hw by word_lengths.
  unfold read_proxy_call. rewrite take_selector, drop_selector. cbv zeta.
  set (args := words_of _ _).
  assert (abi_uint args 0 = 32) as -> by (apply (abi_uint_lit _ _ 0); done || lia).
  assert (abi_uint args (32 + 32) = 32) as -> by (apply (abi_uint_lit _ _ 2); done || lia).
  assert (abi_uint args 32 = 1) as -> by (apply (abi_uint_lit _ _ 1); done || lia).
  change (32 + 32 + 32) with 96. change (96 + 32) with 128. change (96 + 64) with 160. change (96 + 96) with 192.
  assert (abi_uint args 192 = 128) as -> by (apply (abi_uint_lit _ _ 6); done || lia).
  rewrite bool_decide_eq_true_2 by done. cbn [andb Z.eqb Pos.eqb].
  assert (abi_uint args 96 = 1) as -> by (apply (abi_uint_lit _ _ 3); done || lia).
  assert (abi_address args 128 = target) as -> by (by apply (abi_address_lit _ _ 4)).
  assert (abi_uint args 160 = 0) as -> by (apply (abi_uint_lit _ _ 5); done || lia).
  assert (abi_bytes args (96 + 128) = inner) as ->; [|done].
  unfold abi_bytes. assert (abi_uint args (96 + 128) = Z.of_nat (length inner)) as -> by (apply (abi_uint_lit _ _ 7); done || lia).
  rewrite Nat2Z.id. unfold args, words_of.
  replace (Z.to_nat (96 + 128 + 32)) with (length (concat (proxy_words target (Z.of_nat (length inner))))).
  - by rewrite drop_app_length, take_app_length.
  - unfold proxy_words. cbn [concat]. rewrite !length_app, !uint256_length, (address32_length _ Ht). done.
Qed.
End Calls.

(** ** What is signed for the relayer *)
Record SafeTxFields := mkSafeTxFields {
  sf_to : list Z;
  sf_data : list Z;
  sf_nonce : Z;
  sf_operation : Z }.
Record ProxyTxParams := mkProxyTxParams {
  pp_from : list Z;
  pp_to : list Z;
  pp_data : list Z;
  pp_tx_fee : Z;
  pp_gas_price : Z;
  pp_gas_limit : Z;
  pp_nonce : Z;
  pp_relay_hub : list Z;
  pp_relay : list Z }.
Definition PROXY_DEFAULT_GAS_LIMIT : Z := 500000.
Definition SAFE_FACTORY : list Z :=
  [0xaa; 0xcf; 0xee; 0xa0; 0x3e; 0xb1; 0x56; 0x1c; 0x4e; 0x67; 0xd6; 0x61; 0xe4; 0x06; 0x82; 0xbd; 0x20; 0xe3; 0x54; 0x1b].
Definition SAFE_INIT_CODE_HASH : list Z :=
  [0x2b; 0xce; 0x21; 0x27; 0xff; 0x07; 0xfb; 0x63; 0x2d; 0x16; 0xc8; 0x34; 0x7c; 0x4e; 0xbf; 0x50;
   0x1f; 0x48; 0x41; 0x16; 0x8b; 0xed; 0x00; 0xd9; 0xe6; 0xef; 0x71; 0x5d; 0xdb; 0x6f; 0xce; 0xcf].
Definition PROXY_INIT_CODE_HASH : list Z :=
  [0xd2; 0x1d; 0xf8; 0xdc; 0x65; 0x88; 0x0a; 0x86; 0x06; 0xf0; 0x9f; 0xe0; 0xce; 0x3d; 0xf9; 0xb8;
   0x86; 0x92; 0x87; 0xab; 0x0b; 0x05; 0x8b; 0xe0; 0x5a; 0xa9; 0xe8; 0xaf; 0x63; 0x30; 0xa0; 0x0b].

Definition SAFE_DOMAIN_TYPE : string := "EIP712Domain(uint256 chainId,address verifyingContract)".
Definition SAFE_TX_TYPE : string :=
  "SafeTx(address to,uint256 value,bytes data,uint8 operation,uint256 safeTxGas,uint256 baseGas,uint256 gasPrice,address gasToken,address refundReceiver,uint256 nonce)".

Section Signed.
Context `{CryptoLib}.

Definition SAFE_DOMAIN_TYPEHASH : list Z := keccak256 (bytes_of SAFE_DOMAIN_TYPE).
Definition SAFE_TX_TYPEHASH : list Z := keccak256 (bytes_of SAFE_TX_TYPE).

Definition compute_safe_domain_separator (safe_address : list Z) (chain_id : Z) : list Z :=
  keccak256 (SAFE_DOMAIN_TYPEHASH ++ uint64_to_uint256_be chain_id ++ address_to_bytes32 safe_address).

(** The buffer of 11 words; those not written stay zero. *)
Definition safe_tx_bytes (f : SafeTxFields) : list Z :=
  SAFE_TX_TYPEHASH ++ address_to_bytes32 (sf_to f) ++ replicate 32 0 ++ keccak256 (sf_data f) ++
  (replicate 31 0 ++ [sf_operation f]) ++ replicate 160 0 ++ uint64_to_uint256_be (sf_nonce f).
Definition hash_safe_tx_struct (f : SafeTxFields) : list Z := keccak256 (safe_tx_bytes f).
Definition safe_tx_signing_hash (domain_sep : list Z) (f : SafeTxFields) : list Z :=
  eip712_signing_hash domain_sep (hash_safe_tx_struct f).

(** Addresses of deployed accounts (CREATE2). *)
Definition create2_address (factory salt init_code_hash : list Z) : list ascii :=
  txt "0x" ++ hex_encode (take 20 (drop 12 (keccak256 (0xff :: factory ++ salt ++ init_code_hash)))).
Definition derive_safe_address (eoa : list Z) : list ascii :=
  create2_address SAFE_FACTORY (keccak256 (address_to_bytes32 eoa)) SAFE_INIT_CODE_HASH.
Definition derive_proxy_address (eoa : list Z) : list ascii :=
  create2_address PROXY_FACTORY_ADDRESS (keccak256 eoa) PROXY_INIT_CODE_HASH.

Definition eth_sign_hash (hash : list Z) : list Z :=
  keccak256 (0x19 :: bytes_of "Ethereum Signed Message:" ++ [10] ++ bytes_of "32" ++ hash).

Definition proxy_message (p : ProxyTxParams) : list Z :=
  bytes_of "rlx:" ++ pp_from p ++ pp_to p ++ pp_data p ++ uint64_to_uint256_be (pp_tx_fee p) ++
  uint64_to_uint256_be (pp_gas_price p) ++ uint64_to_uint256_be (pp_gas_limit p) ++ uint64_to_uint256_be (pp_nonce p) ++
  pp_relay_hub p ++ pp_relay p.
Definition create_proxy_struct_hash (p : ProxyTxParams) : list Z := keccak256 (proxy_message p).

(** Signing the prefixed hash of a message is what [personal_sign] does with its 32 bytes. *)
Definition text_of (bytes : list Z) : string := String.string_of_list_ascii ((fun b => ascii_of_N (Z.to_N b)) <$> bytes).
Lemma bytes_of_text bytes : Forall is_byte bytes -> bytes_of (text_of bytes) = bytes.
Proof.
  intros Hb. unfold bytes_of, text_of, txt. rewrite String.list_ascii_of_string_of_list_ascii.
  induction Hb as [|b bytes Hb0 _ IH]; [done|]. cbn [fmap list_fmap]. f_equal; [|exact IH].
  unfold char_code. rewrite N_ascii_embedding; lia.
Qed.
Lemma eth_sign_is_personal_sign (hash : list Z) : length hash = 32%nat -> Forall is_byte hash ->
  sign_hash (eth_sign_hash hash) = personal_sign (text_of hash).
Proof.
  intros Hl Hb. unfold personal_sign, eth_sign_hash. rewrite (bytes_of_text hash Hb).
  assert (String.length (text_of hash) = 32%nat) as ->; [|reflexivity].
  assert (forall l, String.length (String.string_of_list_ascii l) = length l) as Hs by (induction l; simpl; congruence).
  unfold text_of. by rewrite Hs, length_fmap.
Qed.

Record proxy_wf (p : ProxyTxParams) : Prop := {
  pw_from : length (pp_from p) = 20%nat;
  pw_to : length (pp_to p) = 20%nat;
  pw_tx_fee : 0 <= pp_tx_fee p < 2 ^ 64;
  pw_gas_price : 0 <= pp_gas_price p < 2 ^ 64;
  pw_gas_limit : 0 <= pp_gas_limit p < 2 ^ 64;
  pw_nonce : 0 <= pp_nonce p < 2 ^ 64;
  pw_relay_hub : length (pp_relay_hub p) = 20%nat;
  pw_relay : length (pp_relay p) = 20%nat }.

(** The message for the relayer determines the transaction although it has no
    delimiters: the call data is its only part of variable length. *)
Theorem proxy_message_injective (p q : ProxyTxParams) (Hp : proxy_wf p) (Hq : proxy_wf q) :
  proxy_message p = proxy_message q -> p = q.
Proof.
  destruct Hp, Hq. unfold proxy_message. intros E.
  assert (length (pp_data p) = length (pp_data q)) as Hd.
  { apply (f_equal length) in E. unfold uint64_to_uint256_be in E. rewrite !length_app, !length_be_bytes, !length_replicate in E. lia. }
  split_blocks E.
  repeat match goal with B : uint64_to_uint256_be _ = _ |- _ => apply uint64_be_inj in B; [|done|done] end.
  destruct p, q; simpl in *. simplify_eq. done.
Qed.
End Signed.

(** ** Witnesses *)
Definition sample_tx : RawTxParams := mkRawTxParams 7 30000000000 500000 PROXY_FACTORY_ADDRESS 0 (replicate 100 1) 137.
Lemma sample_tx_wf : tx_wf sample_tx.
Proof. split; simpl; try lia; split; try done; try lia; repeat constructor; lia. Qed.

Lemma signed_tx_roundtrip_witness :
  let sig := toy_hash (toy_hash (unsigned_tx sample_tx)) in
  read_tx (build_signed_transaction (H := toy_crypto) sample_tx) =
    Some (mkChainTx 7 30000000000 500000 PROXY_FACTORY_ADDRESS 0 (replicate 100 1) 310 (be_value sig) (be_value sig)).
Proof.
  cbv zeta. rewrite (proj2 (signed_tx_roundtrip (H := toy_crypto) sample_tx _ 1 sample_tx_wf eq_refl)).
  vm_compute. reflexivity.
Defined.

Definition sample_proxy (nonce : Z) : ProxyTxParams :=
  mkProxyTxParams (replicate 20 1) PROXY_FACTORY_ADDRESS [1; 2; 3] 0 0 PROXY_DEFAULT_GAS_LIMIT nonce RELAY_HUB_ADDRESS (replicate 20 2).
Lemma proxy_message_injective_witness : proxy_message (sample_proxy 1) <> proxy_message (sample_proxy 2).
Proof.
  assert (forall n, 0 <= n < 2 ^ 64 -> proxy_wf (sample_proxy n)) as Hw
    by (intros n Hn; split; unfold PROXY_DEFAULT_GAS_LIMIT; simpl; try reflexivity; unfold PROXY_DEFAULT_GAS_LIMIT; lia).
  intros E. pose proof (proxy_message_injective _ _ (Hw 1 ltac:(lia)) (Hw 2 ltac:(lia)) E) as Ep. discriminate Ep.
Defined.

Lemma toy_selectors_differ : selectors_differ (H := toy_crypto).
Proof. unfold selectors_differ. apply (bool_decide_eq_true_1 (NoDup _)). vm_compute. reflexivity. Qed.
