(* ===== verification/Auth.v ===== *)
(** Authentication of requests: [src/crypto/hmac_sha256.cpp], [src/rest/rest_auth.cpp],
    [src/inventory/relayer_auth.cpp].

    The keyed hash and the Base64 codec are OpenSSL's: the class [OpenSsl], with what
    its documentation says of the codec.  [base64_decode] and [base64url_encode] are
    the program's wrappers around it, which translate the URL-safe alphabet.

    Shown: what the wrapper encodes it decodes, with or without the padding, so
    that a secret means the same bytes in either spelling; the REST and the relayer
    headers carry the same signature for the same request. *)
From Stdlib Require Import Ascii.
From S2P Require Import Prelude Types Price Crypto OrderBuilder.

(** The 64 characters and the padding. *)
Definition base64_char (c : ascii) : bool :=
  let n := char_code c in
  ((65 <=? n) && (n <=? 90)) || ((97 <=? n) && (n <=? 122)) || ((48 <=? n) && (n <=? 57)) || (n =? 43) || (n =? 47).

(** [ssl_decode]: the bytes, or failure; [ssl_encode] writes one line. *)
Class OpenSsl := {
  ssl_hmac : list Z -> list Z -> list Z;
  ssl_encode : list Z -> list ascii;
  ssl_decode : list ascii -> option (list Z);
  ssl_roundtrip : forall data, Forall (fun b => 0 <= b < 256) data -> ssl_decode (ssl_encode data) = Some data;
  ssl_shape : forall data, Forall (fun b => 0 <= b < 256) data -> exists body pad, ssl_encode data = body ++ replicate pad "="%char /\
    Forall (fun c => base64_char c = true) body /\ (pad <= 2)%nat /\ (length (ssl_encode data) mod 4 = 0)%nat;
  ssl_hmac_bytes : forall key msg, Forall (fun b => 0 <= b < 256) (ssl_hmac key msg) }.

Definition char_eqb (a b : ascii) : bool := Ascii.eqb a b.
Definition from_url (c : ascii) : ascii := if char_eqb c "-" then "+"%char else if char_eqb c "_" then "/"%char else c.
Definition to_url (c : ascii) : ascii := if char_eqb c "+" then "-"%char else if char_eqb c "/" then "_"%char else c.

(** The padding the loop adds. *)
Definition padded (l : list ascii) : list ascii := l ++ replicate ((4 - length l mod 4) mod 4) "="%char.

Inductive HttpMethod := GET | POST | DELETE_METHOD.
Definition http_method_str (m : HttpMethod) : string := match m with GET => "GET" | POST => "POST" | DELETE_METHOD => "DELETE" end.

Record L2Headers := mkL2Headers {
  lh_api_key : string; lh_signature : list ascii; lh_timestamp : list ascii; lh_passphrase : string; lh_address : list ascii }.
Record BuilderAuthHeaders := mkBuilderAuthHeaders {
  bh_api_key : string; bh_signature : list ascii; bh_timestamp : list ascii; bh_passphrase : string }.
Record RestAuth := mkRestAuth {
  ra_api_key_ : string;
  ra_api_secret_decoded_ : list Z;
  ra_passphrase_ : string;
  ra_address_ : list ascii }.

Section Auth.
Context `{OpenSsl}.

Definition base64_decode (b64 : list ascii) : list Z := default [] (ssl_decode (padded (from_url <$> b64))).
Definition base64url_encode (data : list Z) : list ascii := to_url <$> ssl_encode data.

(** [None] where the constructor throws. *)
Definition RestAuth_new (api_key api_secret_b64 passphrase address : string) : option RestAuth :=
  match base64_decode (txt api_secret_b64) with
  | [] => None
  | secret => Some (mkRestAuth api_key secret passphrase (to_lower <$> txt address))
  end.
(** From the environment: every variable has to be set. *)
Definition RestAuth_env (getenv : string -> option string) : option RestAuth :=
  key ← getenv "POLY_API_KEY"%string; secret ← getenv "POLY_API_SECRET"%string; pass ← getenv "POLY_API_PASSPHRASE"%string;
  addr ← getenv "POLY_ADDRESS"%string; RestAuth_new key secret pass addr.

(** The signed text: time, method, path and body. *)
Definition auth_message (now_s : Z) (method path : list ascii) (body : list ascii) : list Z :=
  char_code <$> (int_to_chars now_s ++ method ++ path ++ body).
Definition auth_signature (secret : list Z) (now_s : Z) (method path body : list ascii) : list ascii :=
  base64url_encode (ssl_hmac secret (auth_message now_s method path body)).

Definition build_headers (now_s : Z) (method : HttpMethod) (path : string) (body : list ascii) (a : RestAuth) : L2Headers :=
  mkL2Headers (ra_api_key_ a) (auth_signature (ra_api_secret_decoded_ a) now_s (txt (http_method_str method)) (txt path) body)
    (int_to_chars now_s) (ra_passphrase_ a) (ra_address_ a).
Definition build_builder_headers (now_s : Z) (api_key api_secret_b64 passphrase : string) (method path body : list ascii) : BuilderAuthHeaders :=
  mkBuilderAuthHeaders api_key (auth_signature (base64_decode (txt api_secret_b64)) now_s method path body) (int_to_chars now_s) passphrase.

Definition prefix_of (n : nat) (l : list ascii) : list ascii := take n l.
Definition suffix_of (n : nat) (l : list ascii) : list ascii := drop (length l - n) l.
Definition redacted_summary (a : RestAuth) : list ascii :=
  txt "RestAuth{key=" ++
  (if (8 <? length (txt (ra_api_key_ a)))%nat then prefix_of 4 (txt (ra_api_key_ a)) ++ txt "..." ++ suffix_of 4 (txt (ra_api_key_ a)) else txt "****") ++
  txt ", addr=" ++
  (if (10 <? length (ra_address_ a))%nat then prefix_of 6 (ra_address_ a) ++ txt "..." ++ suffix_of 4 (ra_address_ a) else txt "****") ++
  txt "}".

(** ** The codec *)
Lemma base64_char_url c : base64_char c = true \/ c = "="%char -> from_url (to_url c) = c.
Proof.
  intros Hc. unfold from_url, to_url, char_eqb.
  destruct (Ascii.eqb_spec c "+") as [->|]; [done|]. destruct (Ascii.eqb_spec c "/") as [->|]; [done|].
  destruct (Ascii.eqb_spec c "-") as [->|]; [destruct Hc as [Hc|Hc]; discriminate Hc|].
  destruct (Ascii.eqb_spec c "_") as [->|]; [destruct Hc as [Hc|Hc]; discriminate Hc|done].
Qed.
Lemma from_to_url l : Forall (fun c => base64_char c = true \/ c = "="%char) l -> from_url <$> (to_url <$> l) = l.
Proof. induction 1 as [|c l Hc _ IH]; [done|]. cbn [fmap list_fmap]. by rewrite base64_char_url, IH. Qed.

Lemma padded_stripped body pad : (pad <= 2)%nat -> ((length body + pad) mod 4 = 0)%nat -> padded body = body ++ replicate pad "="%char.
Proof.
  intros Hp Hm. unfold padded. do 2 f_equal. pose proof (Nat.div_mod_eq (length body) 4) as Hd.
  pose proof (Nat.mod_upper_bound (length body) 4 ltac:(lia)). set (r := (length body mod 4)%nat) in *. set (q := (length body / 4)%nat) in *.
  rewrite Hd in Hm. replace (4 * q + r + pad)%nat with (r + pad + q * 4)%nat in Hm by lia. rewrite Nat.Div0.mod_add in Hm.
  assert (r = 0 \/ r = 1 \/ r = 2 \/ r = 3)%nat as [E|[E|[E|E]]] by lia; rewrite E in *; destruct pad as [|[|[|]]]; simpl in *; lia.
Qed.

(** A secret means the same bytes however it is spelt: encoded by the program, with
    its padding or without it (in the URL-safe alphabet), it decodes to itself. *)
Theorem base64url_roundtrip (data : list Z) (Hb : Forall (fun b => 0 <= b < 256) data) :
  base64_decode (base64url_encode data) = data /\
  exists body pad, base64url_encode data = body ++ replicate pad "="%char /\ base64_decode body = data.
Proof.
  destruct (ssl_shape data Hb) as (body & pad & E & Hbody & Hpad & Hlen). rewrite E, length_app, length_replicate in Hlen.
  assert (Forall (fun c => base64_char c = true \/ c = "="%char) body) as Hc by (eapply Forall_impl; [exact Hbody|auto]).
  assert (base64url_encode data = (to_url <$> body) ++ replicate pad "="%char) as Eu
    by (unfold base64url_encode; rewrite E, fmap_app, fmap_replicate; done).
  assert (forall l, padded (from_url <$> l) = ssl_encode data -> base64_decode l = data) as Hdec
    by (intros l Hl; unfold base64_decode; by rewrite Hl, ssl_roundtrip).
  split.
  - apply Hdec. rewrite Eu, fmap_app, fmap_replicate, (from_to_url body Hc). change (from_url "=") with "="%char.
    unfold padded. rewrite length_app, length_replicate, Hlen. by rewrite app_nil_r.
  - exists (to_url <$> body), pad. split; [done|]. apply Hdec. rewrite (from_to_url body Hc), E. by apply padded_stripped.
Qed.

(** The relayer and the exchange accept the same signature for the same request. *)
Lemma headers_agree now_s (m : HttpMethod) path body key secret pass addr a :
  RestAuth_new key secret pass addr = Some a ->
  let l2 := build_headers now_s m path body a in
  let b := build_builder_headers now_s key secret pass (txt (http_method_str m)) (txt path) body in
  lh_signature l2 = bh_signature b /\ lh_timestamp l2 = bh_timestamp b /\ lh_api_key l2 = bh_api_key b /\ lh_passphrase l2 = bh_passphrase b.
Proof. unfold RestAuth_new. destruct (base64_decode (txt secret)) eqn:E; [done|]. intros [= <-]. simpl. by rewrite E. Qed.
End Auth.

(** ** The standard codec *)

(** Base64 as the standard defines it, as an instance of the codec. *)
Definition b64_char (d : Z) : ascii :=
  ascii_of_N (Z.to_N (if d <? 26 then 65 + d else if d <? 52 then 71 + d else if d <? 62 then d - 4 else if d =? 62 then 43 else 47)).
Definition b64_val (c : ascii) : option Z :=
  let n := char_code c in
  if (65 <=? n) && (n <=? 90) then Some (n - 65) else if (97 <=? n) && (n <=? 122) then Some (n - 71)
  else if (48 <=? n) && (n <=? 57) then Some (n + 4) else if n =? 43 then Some 62 else if n =? 47 then Some 63 else None.
Fixpoint b64_encode (data : list Z) : list ascii :=
  match data with
  | [] => []
  | [a] => [b64_char (a / 4); b64_char (a mod 4 * 16); "="; "="]%char
  | [a; b] => [b64_char (a / 4); b64_char (a mod 4 * 16 + b / 16); b64_char (b mod 16 * 4); "="%char]
  | a :: b :: c :: data =>
      b64_char (a / 4) :: b64_char (a mod 4 * 16 + b / 16) :: b64_char (b mod 16 * 4 + c / 64) :: b64_char (c mod 64) :: b64_encode data
  end.
Fixpoint b64_decode (l : list ascii) : option (list Z) :=
  match l with
  | [] => Some []
  | w :: x :: y :: z :: l =>
      w ← b64_val w; x ← b64_val x;
      match b64_val y, b64_val z with
      | None, None => Some [w * 4 + x / 16]
      | Some y, None => Some [w * 4 + x / 16; x mod 16 * 16 + y / 4]
      | Some y, Some z => r ← b64_decode l; Some (w * 4 + x / 16 :: x mod 16 * 16 + y / 4 :: y mod 4 * 64 + z :: r)
      | None, Some _ => None
      end
  | _ => None
  end.

Lemma b64_val_char d : 0 <= d < 64 -> b64_val (b64_char d) = Some d /\ base64_char (b64_char d) = true.
Proof.
  intros Hd. pose proof (range_forall (fun d => bool_decide (b64_val (b64_char d) = Some d) && base64_char (b64_char d)) 64 eq_refl d Hd) as Hc.
  cbv beta in Hc. apply andb_true_iff in Hc as [Hv Hc]. by apply bool_decide_eq_true_1 in Hv.
Qed.

(** Induction by three. *)
Lemma list_ind3 {A} (P : list A -> Prop) : P [] -> (forall a, P [a]) -> (forall a b, P [a; b]) ->
  (forall a b c l, P l -> P (a :: b :: c :: l)) -> forall l, P l.
Proof. intros H0 H1 H2 H3. fix IH 1. intros [|a [|b [|c l]]]; [done|apply H1|apply H2|apply H3, IH]. Qed.

(** Division and remainder by constants. *)
Ltac div_lia := Z.to_euclidean_division_equations; lia.
Ltac b64_digits :=
  repeat match goal with |- context [b64_val (b64_char ?d)] => rewrite (proj1 (b64_val_char d ltac:(div_lia))) end.

Lemma b64_roundtrip data : Forall (fun b => 0 <= b < 256) data -> b64_decode (b64_encode data) = Some data.
Proof.
  induction data as [|a|a b|a b c data IH] using list_ind3; intros Hb; [done| | |]; rewrite ?Forall_cons in Hb;
    cbn [b64_encode b64_decode]; b64_digits; cbn [mbind option_bind].
  - change (b64_val "=") with (@None Z). do 2 f_equal. div_lia.
  - change (b64_val "=") with (@None Z). do 2 f_equal; [div_lia|]. f_equal. div_lia.
  - rewrite IH by naive_solver. cbn [mbind option_bind]. repeat f_equal; div_lia.
Qed.

Lemma b64_shape data : Forall (fun b => 0 <= b < 256) data -> exists body pad, b64_encode data = body ++ replicate pad "="%char /\
  Forall (fun c => base64_char c = true) body /\ (pad <= 2)%nat /\ (length (b64_encode data) mod 4 = 0)%nat.
Proof.
  induction data as [|a|a b|a b c data IH] using list_ind3; intros Hb; rewrite ?Forall_cons in Hb.
  - exists [], 0%nat. split_and!; [done|constructor|lia|done].
  - exists [b64_char (a / 4); b64_char (a mod 4 * 16)], 2%nat. split_and!; [done| |lia|done].
    repeat constructor; apply b64_val_char; div_lia.
  - exists [b64_char (a / 4); b64_char (a mod 4 * 16 + b / 16); b64_char (b mod 16 * 4)], 1%nat. split_and!; [done| |lia|done].
    repeat constructor; apply b64_val_char; div_lia.
  - destruct IH as (body & pad & E & Hbody & Hpad & Hlen); [naive_solver|].
    exists (b64_char (a / 4) :: b64_char (a mod 4 * 16 + b / 16) :: b64_char (b mod 16 * 4 + c / 64) :: b64_char (c mod 64) :: body), pad.
    cbn [b64_encode]. split_and!; [by rewrite E| |done|].
    + repeat (constructor; [apply b64_val_char; div_lia|]). done.
    + cbn [length]. replace (S (S (S (S (length (b64_encode data)))))) with (length (b64_encode data) + 1 * 4)%nat by lia.
      by rewrite Nat.Div0.mod_add.
Qed.

(** The codec with a stand-in for the keyed hash. *)
#[refine] Definition toy_ssl : OpenSsl :=
  {| ssl_hmac key msg := toy_hash (key ++ msg); ssl_encode data := b64_encode data; ssl_decode := b64_decode |}.
Proof.
  - apply b64_roundtrip.
  - apply b64_shape.
  - intros key msg. apply toy_hash_ok.
Defined.

Example base64url_spellings :
  base64url_encode (H := toy_ssl) [251; 255; 190; 255] = txt "-_--_w==" /\ base64_decode (H := toy_ssl) (txt "-_--_w") = [251; 255; 190; 255].
Proof. split; vm_compute; reflexivity. Qed.
