(* ===== verification/Gateway.v ===== *)
(** The execution gateway: [src/exec/execution_gateway.cpp].

    The gateway takes intents from the strategy thread's queue, sends requests to
    the exchange and publishes feedback.  Its asynchronous requests are
    defunctionalised: [pending_] holds the requests whose callback has not run,
    and answering one runs the callback's handler.  A handler reads the clock
    once; [Env] carries the clock, the random draws and what the consumer of the
    feedback queue does while the gateway retries a push.  [None] is undefined
    behaviour in the order builder's amount product.

    Transport, request headers, logging and metrics are not modelled; of a
    feedback message the fields that reach the scheduler's event are.

    Shown for every run: the reserved SELL quantity of a token is the sum of its
    SELLs in flight and nothing stays reserved or correlated when no request is
    pending; one heartbeat at a time; one cancel-all per streak of failed
    heartbeats.  Every order of a batch gets exactly one outcome, whatever the
    exchange answers.  Feedback the strategy must see is delivered or the process
    is told to stop. *)
From Stdlib Require Import Ascii.
From S2P Require Import Prelude Types Price Events Json MarketParser MessageRoundtrip SpscQueue TokenInventory.
From S2P Require Import RiskGate RateLimiter Crypto OrderBuilder.

(** ** Configuration, requests and feedback *)
Record GatewayConfig := mkGatewayConfig {
  batch_orders_enabled : bool;
  batch_max_size : Z;
  cancel_connection_redundancy : Z;
  order_connection_pool_size : Z }.

Record RestResponse := mkRestResponse {
  timed_out : bool;
  http_status : Z;
  resp_latency_ns : Z;
  resp_body : string }.

Record BatchEntry := mkBatchEntry { be_intent_id : Z; be_client_oid : OrderId }.

(** The lambda a request was sent with. *)
Inductive Callback :=
  | CbOrder (intent_id : Z) (client_oid : OrderId)
  | CbBatch (entries : list BatchEntry)
  | CbCancel (intent_id : Z) (client_oid exchange_oid : OrderId)
  | CbHeartbeat
  | CbIgnore.

Inductive Connection := OrderConn (i : Z) | CancelConn (i : Z).

Record RestRequest := mkRestRequest {
  req_connection : Connection;
  req_method : string;
  req_path : string;
  req_body : list ascii;
  req_callback : Callback }.

Record ExecFeedback := mkExecFeedback {
  fb_kind : ExecFeedbackKind;
  fb_intent_id : Z;
  fb_client_order_id : OrderId;
  fb_exchange_order_id : OrderId;
  fb_http_status : Z }.
Definition ExecFeedback_of (k : ExecFeedbackKind) : ExecFeedback := mkExecFeedback k 0 "" "" 0.

Definition is_critical_feedback (k : ExecFeedbackKind) : bool :=
  match k with
  | ExecFeedbackKind.ORDER_REJECTED | ExecFeedbackKind.TIMEOUT | ExecFeedbackKind.EXCHANGE_UNAVAILABLE => true
  | _ => false
  end.

(** The kinds that end a request of an intent: a reservation is released. *)
Definition releases_reservation (k : ExecFeedbackKind) : bool :=
  match k with
  | ExecFeedbackKind.REQUEST_SENT | ExecFeedbackKind.HEARTBEAT_OK | ExecFeedbackKind.HEARTBEAT_FAILED
  | ExecFeedbackKind.GATEWAY_DEGRADED | ExecFeedbackKind.GATEWAY_RECOVERED => false
  | _ => true
  end.

Definition from_exec_feedback (now : Z) (fb : ExecFeedback) : SchedulerEvent :=
  let '(k, accepted) :=
    match fb_kind fb with
    | ExecFeedbackKind.ORDER_ACCEPTED => (SchedulerEventKind.EXEC_ORDER_ACK, true)
    | ExecFeedbackKind.ORDER_REJECTED | ExecFeedbackKind.RATE_LIMITED | ExecFeedbackKind.EXCHANGE_UNAVAILABLE =>
        (SchedulerEventKind.EXEC_ORDER_REJECT, false)
    | ExecFeedbackKind.TIMEOUT => (SchedulerEventKind.EXEC_ORDER_ACK, false)
    | ExecFeedbackKind.CANCEL_CONFIRMED => (SchedulerEventKind.EXEC_ORDER_ACK, true)
    | ExecFeedbackKind.HEARTBEAT_OK | ExecFeedbackKind.HEARTBEAT_FAILED | ExecFeedbackKind.GATEWAY_DEGRADED
    | ExecFeedbackKind.GATEWAY_RECOVERED | ExecFeedbackKind.REQUEST_SENT => (SchedulerEventKind.EXEC_ORDER_ACK, true)
    end in
  SchedulerEvent_default <| source := EventSource.EXEC_INTERNAL |> <| recv_ts := now |> <| kind := k |>
    <| exec_accepted := accepted |> <| intent_ref_id := fb_intent_id fb |> <| client_order_id := fb_client_order_id fb |>
    <| order_id := fb_exchange_order_id fb |> <| exec_feedback_kind := fb_kind fb |>
    <| exec_http_status := fb_http_status fb |>.

Definition is_place_intent (t : ExecIntentType) : bool :=
  bool_decide (t = ExecIntentType.PLACE_ORDER) || bool_decide (t = ExecIntentType.REPLACE_ORDER).

Definition kFeedbackOverflowFatalThreshold : Z := 1000.
Definition kCriticalSpinLimit : nat := Z.to_nat 1024.
Definition kMaxCorrelation : nat := Z.to_nat 1024.
Definition kPollLimit : nat := 16.

(** What the response's status says when it is not a success: timeouts and
    connection errors first, then the rate and availability codes, the failed
    authentication, and the other codes, of which 502 and 504 are ambiguous. *)
Definition failure_kind (resp : RestResponse) : option ExecFeedbackKind :=
  let s := http_status resp in
  if timed_out resp || (s =? 0) then Some ExecFeedbackKind.TIMEOUT
  else if s =? 429 then Some ExecFeedbackKind.RATE_LIMITED
  else if s =? 503 then Some ExecFeedbackKind.EXCHANGE_UNAVAILABLE
  else if s =? 425 then Some ExecFeedbackKind.RATE_LIMITED
  else if (s =? 401) || (s =? 403) then Some ExecFeedbackKind.ORDER_REJECTED
  else if (s <? 200) || (s >=? 300) then
    Some (if (s =? 502) || (s =? 504) then ExecFeedbackKind.TIMEOUT else ExecFeedbackKind.ORDER_REJECTED)
  else None.

Section Gateway.
Context `{JsonParser} `{CryptoLib} {Q : Type -> Type} `{RingQueue Q}.
(** The parser library's compact printing of an element, for diagnostics. *)
Variable minify : Json -> string.

Abbreviation FeedbackQueue := (SpscQueue Q SchedulerEvent).

Record Env := mkEnv {
  env_now : Z;
  env_jitter : Z -> Z;
  env_salt : Z -> Z;   (* by intent *)
  env_yield : nat -> FeedbackQueue -> FeedbackQueue }.

Record CorrelationEntry := mkCorrelationEntry {
  ce_client_order_id : OrderId; ce_type : ExecIntentType; ce_sent_ts : Z }.

Record Gateway := mkGateway {
  config_ : GatewayConfig;
  order_builder_ : OrderBuilder;
  intent_queue_ : SpscQueue Q ExecIntent;
  feedback_queue_ : FeedbackQueue;
  fatal_flag_ : option bool;
  inventory_view_ : option TokenInventory;
  order_pool_next_ : Z;
  cancel_next_ : Z;
  cancel_responded_ : gset Z;
  rate_limiter_ : RateLimiter;
  heartbeat_mgr_ : HeartbeatManager;
  heartbeat_in_flight_ : bool;
  heartbeat_cancel_all_latched_ : bool;
  was_degraded_ : bool;
  feedback_overflow_count_ : Z;
  inflight_sell_qty_ : gmap AssetId Z;
  inflight_sell_intents_ : gmap Z (AssetId * Z);
  feedback_overflow_escalated_ : bool;
  feedback_overflow_fatal_ : bool;
  correlation_ : gmap Z CorrelationEntry;
  batch_buf_ : list ExecIntent;
  pending_ : list RestRequest }.

Implicit Types (g : Gateway) (e : Env).

(** The state before [run]; building the authentication or the order builder can
    fail, in which case there is no gateway. *)
Definition Gateway_new (cfg : GatewayConfig) (rate_limit : RateLimitConfig) (heartbeat : HeartbeatConfig) (ob : OrderBuilder)
    (iq : SpscQueue Q ExecIntent) (fq : FeedbackQueue) (fatal : option bool) (inv : option TokenInventory) : Gateway :=
  mkGateway cfg ob iq fq fatal inv 0 0 ∅ (RateLimiter_new rate_limit) (HeartbeatManager_new heartbeat)
    false false false 0 ∅ ∅ false false ∅ [] [].

Definition order_pool_size g : Z := Z.max 1 (order_connection_pool_size (config_ g)).
Definition cancel_clients g : Z := Z.max 1 (cancel_connection_redundancy (config_ g)).

Definition set_fatal g : Gateway := g <| fatal_flag_ ::= fmap (fun _ => true) |>.
Definition async_send (conn : Connection) (method path : string) (body : list ascii) (cb : Callback) g : Gateway :=
  g <| pending_ ::= fun l => l ++ [mkRestRequest conn method path body cb] |>.
Definition next_order_client g : Connection * Gateway :=
  (OrderConn (order_pool_next_ g mod order_pool_size g), g <| order_pool_next_ ::= fun n => wrap_u32 (n + 1) |>).

(** ** Feedback *)

(** [inflight_sell_qty_[asset]] *)
Definition inflight g (a : AssetId) : Z := default 0 (inflight_sell_qty_ g !! a).

Definition release_reservation (intent_id : Z) g : Gateway :=
  match inflight_sell_intents_ g !! intent_id with
  | None => g
  | Some (a, qty) =>
      let q := inflight g a in
      g <| inflight_sell_qty_ ::= <[a := if q >? qty then q - qty else 0]> |> <| inflight_sell_intents_ ::= delete intent_id |>
  end.

(** The retries of a push; the consumer may pop after a failed attempt. *)
Fixpoint critical_push e (n attempt : nat) (ev : SchedulerEvent) (q : FeedbackQueue) : FeedbackQueue * bool :=
  match n with
  | O => (q, false)
  | S n =>
      let '(q, ok) := try_push ev q in
      if (ok : bool) then (q, true) else critical_push e n (S attempt) ev (env_yield e attempt q)
  end.

Definition publish_feedback_raw e (fb : ExecFeedback) g : Gateway :=
  let g := if releases_reservation (fb_kind fb) then release_reservation (fb_intent_id fb) g else g in
  let ev := from_exec_feedback (env_now e) fb in
  if is_critical_feedback (fb_kind fb) then
    let '(q, ok) := critical_push e kCriticalSpinLimit 0 ev (feedback_queue_ g) in
    let g := g <| feedback_queue_ := q |> in
    if (ok : bool) then g else set_fatal (g <| feedback_overflow_count_ ::= Z.succ |>)
  else
    let '(q, ok) := try_push ev (feedback_queue_ g) in
    let g := g <| feedback_queue_ := q |> in
    if (ok : bool) then g else
    let g := g <| feedback_overflow_count_ ::= Z.succ |> <| feedback_overflow_escalated_ := true |> in
    if negb (feedback_overflow_fatal_ g) && bool_decide (is_Some (fatal_flag_ g)) &&
       (feedback_overflow_count_ g >=? kFeedbackOverflowFatalThreshold)
    then set_fatal (g <| feedback_overflow_fatal_ := true |>) else g.

Definition publish_feedback e (k : ExecFeedbackKind) (intent : ExecIntent) (status : Z) g : Gateway :=
  publish_feedback_raw e (mkExecFeedback k (xi_intent_id intent) (xi_client_order_id intent) "" status) g.

Definition check_degraded_transition e g : Gateway :=
  let now_degraded := is_degraded (rate_limiter_ g) || exchange_unavailable_ (rate_limiter_ g) || is_failed (heartbeat_mgr_ g) in
  if now_degraded && negb (was_degraded_ g) then
    publish_feedback_raw e (ExecFeedback_of ExecFeedbackKind.GATEWAY_DEGRADED) (g <| was_degraded_ := true |>)
  else if negb now_degraded && was_degraded_ g then
    publish_feedback_raw e (ExecFeedback_of ExecFeedbackKind.GATEWAY_RECOVERED) (g <| was_degraded_ := false |>)
  else g.

(** The start of every response handler. *)
Definition record_status e (resp : RestResponse) g : Gateway :=
  g <| rate_limiter_ ::= record_response (env_jitter e) (http_status resp) (env_now e) |>.
Definition record_outcome e (resp : RestResponse) g : Gateway :=
  check_degraded_transition e ((record_status e resp g) <| rate_limiter_ ::= record_rtt (resp_latency_ns resp) |>).

(** The end of a failed response: ten 425s in a row and failed authentication
    stop the process. *)
Definition after_failure (resp : RestResponse) g : Gateway :=
  let s := http_status resp in
  if timed_out resp then g
  else if (s =? 425) && is_matching_engine_down (rate_limiter_ g) then set_fatal g
  else if (s =? 401) || (s =? 403) then set_fatal g
  else g.

(** ** Orders *)
Definition register_order (o : OrderId) g : Gateway := g <| inventory_view_ ::= fmap (register_our_order o) |>.
Definition reserve (intent : ExecIntent) g : Gateway :=
  g <| inflight_sell_qty_ ::= <[xi_asset_id intent := inflight g (xi_asset_id intent) + xi_size intent]> |>
    <| inflight_sell_intents_ ::= <[xi_intent_id intent := (xi_asset_id intent, xi_size intent)]> |>.
Definition is_ask (intent : ExecIntent) : bool := side_eqb (xi_side intent) ASK.
Definition reject_inventory e (intent : ExecIntent) g : Gateway :=
  publish_feedback_raw e
    (mkExecFeedback ExecFeedbackKind.ORDER_REJECTED (xi_intent_id intent) (xi_client_order_id intent) "" 0) g.

Definition correlate (intent : ExecIntent) (sent_ts : Z) g : Gateway :=
  if (size (correlation_ g) <? kMaxCorrelation)%nat
  then g <| correlation_ ::= <[xi_intent_id intent := mkCorrelationEntry (xi_client_order_id intent) (xi_type intent) sent_ts]> |>
  else g.

Definition send_place_order e (intent : ExecIntent) g : option Gateway :=
  let available_ := available (check_inventory_for_intent intent (inventory_view_ g)) in
  if is_ask intent && (available_ - inflight g (xi_asset_id intent) <? xi_size intent)
  then Some (reject_inventory e intent g) else
  let g := if is_ask intent then reserve intent g else g in
  match build (env_salt e (xi_intent_id intent)) (order_builder_ g) intent with
  | None => None
  | Some (Err _) => Some (publish_feedback e ExecFeedbackKind.ORDER_REJECTED intent 0 g)
  | Some (Value p) =>
      let g := register_order (op_predicted_exchange_oid p) g in
      let g := correlate intent (env_now e) g in
      let g := publish_feedback e ExecFeedbackKind.REQUEST_SENT intent 0 g in
      let '(conn, g) := next_order_client g in
      Some (async_send conn "POST" "/order" (op_json_body p) (CbOrder (xi_intent_id intent) (xi_client_order_id intent)) g)
  end.

(** The body of a successful response. *)
Definition order_reply e (intent_id : Z) (client_oid : OrderId) (resp : RestResponse) g : Gateway :=
  let reply k oid := mkExecFeedback k intent_id client_oid oid (http_status resp) in
  match parse_order_response (resp_body resp) with
  | Value r =>
      if or_success r && nonempty (or_order_id r) then
        let oid := mk_OrderId (or_order_id r) in
        publish_feedback_raw e (reply ExecFeedbackKind.ORDER_ACCEPTED oid) (register_order oid g)
      else publish_feedback_raw e (reply ExecFeedbackKind.ORDER_REJECTED ""%string) g
  | Err _ => publish_feedback_raw e (reply ExecFeedbackKind.ORDER_REJECTED ""%string) g
  end.

Definition on_order_response e (intent_id : Z) (client_oid : OrderId) (resp : RestResponse) g : Gateway :=
  let g := record_outcome e resp g in
  let g := g <| correlation_ ::= delete intent_id |> in
  match failure_kind resp with
  | Some k => after_failure resp (publish_feedback_raw e (mkExecFeedback k intent_id client_oid "" (http_status resp)) g)
  | None => order_reply e intent_id client_oid resp g
  end.

(** *** Batches *)

(** The first loop: SELLs without inventory are rejected, the rest collected. *)
Fixpoint filter_batch e (intents valid : list ExecIntent) g : list ExecIntent * Gateway :=
  match intents with
  | [] => (valid, g)
  | i :: intents =>
      let available_ := available (check_inventory_for_intent i (inventory_view_ g)) in
      let inflight_ := inflight g (xi_asset_id i) in
      let effective_available := if available_ >? inflight_ then available_ - inflight_ else 0 in
      if is_ask i && (effective_available <? xi_size i)
      then filter_batch e intents valid (reject_inventory e i g)
      else filter_batch e intents (valid ++ [i]) g
  end.

Definition reserve_asks (intents : list ExecIntent) g : Gateway :=
  foldl (fun g i => if is_ask i then reserve i g else g) g intents.
Definition publish_all e (k : ExecFeedbackKind) (intents : list ExecIntent) g : Gateway :=
  foldl (fun g i => publish_feedback e k i 0 g) g intents.

Definition send_place_order_batch e (intents : list ExecIntent) g : option Gateway :=
  match filter_batch e intents [] g with
  | ([], g) => Some g
  | ([i], g) => send_place_order e i g
  | (valid, g) =>
      let g := reserve_asks valid g in
      match build_batch (fun i => env_salt e (default 0 (xi_intent_id <$> valid !! i))) (order_builder_ g) valid with
      | None => None
      | Some (Err _) => Some (publish_all e ExecFeedbackKind.ORDER_REJECTED valid g)
      | Some (Value b) =>
          let g := foldl (fun g o => register_order o g) g (bp_predicted_exchange_oids b) in
          let entries := zip_with mkBatchEntry (xi_intent_id <$> valid) (bp_client_order_ids b) in
          let g := publish_all e ExecFeedbackKind.REQUEST_SENT valid g in
          let '(conn, g) := next_order_client g in
          Some (async_send conn "POST" "/orders" (bp_json_body b) (CbBatch entries) g)
      end
  end.

Definition flush_order_batch e g : option Gateway :=
  match batch_buf_ g with
  | [] => Some g
  | [i] => g ← send_place_order e i g; Some (g <| batch_buf_ := [] |>)
  | l => g ← send_place_order_batch e l g; Some (g <| batch_buf_ := [] |>)
  end.

(** The outcome of an order of a batch by the item at its index. *)
Definition batch_result e (resp : RestResponse) (entry : BatchEntry) (item : option OrderResponse) g : Gateway :=
  let reply k oid := mkExecFeedback k (be_intent_id entry) (be_client_oid entry) oid (http_status resp) in
  match item with
  | Some item =>
      if or_success item && nonempty (or_order_id item) then
        let oid := mk_OrderId (or_order_id item) in
        publish_feedback_raw e (reply ExecFeedbackKind.ORDER_ACCEPTED oid) (register_order oid g)
      else publish_feedback_raw e (reply ExecFeedbackKind.ORDER_REJECTED ""%string) g
  | None => publish_feedback_raw e (reply ExecFeedbackKind.ORDER_REJECTED ""%string) g
  end.

(** The loop over the entries with their items, then over the entries the
    response has no item for. *)
Fixpoint batch_results e (resp : RestResponse) (entries : list BatchEntry) (items : list OrderResponse) g : Gateway :=
  match entries with
  | [] => g
  | entry :: entries => batch_results e resp entries (tail items) (batch_result e resp entry (head items) g)
  end.

Definition publish_entries e (k : ExecFeedbackKind) (status : Z) (entries : list BatchEntry) g : Gateway :=
  foldl (fun g entry => publish_feedback_raw e (mkExecFeedback k (be_intent_id entry) (be_client_oid entry) "" status) g)
    g entries.

Definition on_batch_order_response e (entries : list BatchEntry) (resp : RestResponse) g : Gateway :=
  let g := record_outcome e resp g in
  match failure_kind resp with
  | Some k => after_failure resp (publish_entries e k (http_status resp) entries g)
  | None =>
      match parse_batch_order_response minify (resp_body resp) with
      | Err _ => publish_entries e ExecFeedbackKind.ORDER_REJECTED (http_status resp) entries g
      | Value items => batch_results e resp entries items g
      end
  end.

(** ** Cancels *)
Definition send_cancel_order e (intent : ExecIntent) g : Gateway :=
  if negb (nonempty (xi_exchange_order_id intent))
  then publish_feedback e ExecFeedbackKind.ORDER_REJECTED intent 0 g else
  let body := append_json_escaped (txt "{" ++ quoted (txt "orderID") ++ txt ":" ++ [dquote]) (txt (xi_exchange_order_id intent))
              ++ [dquote] ++ txt "}" in
  let g := publish_feedback e ExecFeedbackKind.REQUEST_SENT intent 0 g in
  let conn := CancelConn (cancel_next_ g mod cancel_clients g) in
  let g := g <| cancel_next_ ::= fun n => wrap_u32 (n + 1) |> in
  async_send conn "DELETE" "/order" body
    (CbCancel (xi_intent_id intent) (xi_client_order_id intent) (xi_exchange_order_id intent)) g.

(** [s.find(sub) != npos] *)
Definition str_contains (sub s : string) : bool :=
  match String.index 0 sub s with Some _ => true | None => false end.

(** The body of a successful response: the orders that could not be cancelled, then
    those that were. *)
Definition cancel_reply e (intent_id : Z) (client_oid exchange_oid : OrderId) (resp : RestResponse) g : Gateway :=
  let reply k oid := mkExecFeedback k intent_id client_oid oid (http_status resp) in
  match parse_cancel_response (resp_body resp) with
  | Err _ => publish_feedback_raw e (reply ExecFeedbackKind.ORDER_REJECTED ""%string) g
  | Value r =>
      match cr_not_canceled r with
      | first :: _ =>
          let order_is_gone := str_contains "already canceled" first.2 || str_contains "matched orders" first.2 in
          publish_feedback_raw e
            (reply (if order_is_gone then ExecFeedbackKind.CANCEL_CONFIRMED else ExecFeedbackKind.ORDER_REJECTED) exchange_oid) g
      | [] =>
          if nonempty exchange_oid && negb (existsb (id_eqb exchange_oid) (cr_canceled r))
          then publish_feedback_raw e (reply ExecFeedbackKind.ORDER_REJECTED ""%string) g
          else publish_feedback_raw e (reply ExecFeedbackKind.CANCEL_CONFIRMED ""%string) g
      end
  end.

Definition on_cancel_response e (intent_id : Z) (client_oid exchange_oid : OrderId) (resp : RestResponse) g : Gateway :=
  if (cancel_clients g >? 1) && bool_decide (intent_id ∈ cancel_responded_ g) then g else
  let g := if cancel_clients g >? 1 then g <| cancel_responded_ ::= fun s => {[intent_id]} ∪ s |> else g in
  let g := record_outcome e resp g in
  match failure_kind resp with
  | Some k => after_failure resp (publish_feedback_raw e (mkExecFeedback k intent_id client_oid "" (http_status resp)) g)
  | None => cancel_reply e intent_id client_oid exchange_oid resp g
  end.

(** One request on every cancel connection. *)
Definition send_cancel_all (intent : ExecIntent) g : Gateway :=
  foldl (fun g i => async_send (CancelConn i) "DELETE" "/cancel-all" [] (CbCancel (xi_intent_id intent) "" "") g)
    g (seqZ 0 (cancel_clients g)).

(** ** Heartbeats *)
Definition heartbeat_body (current_id : string) : list ascii :=
  txt "{" ++ quoted (txt "heartbeat_id") ++ txt ":" ++
  (if negb (nonempty current_id) then txt "null" else append_json_escaped [dquote] (txt current_id) ++ [dquote]) ++ txt "}".

Definition send_heartbeat g : Gateway :=
  let g := g <| heartbeat_in_flight_ := true |> in
  let g := async_send (CancelConn 0) "POST" "/v1/heartbeats" (heartbeat_body (current_id_ (heartbeat_mgr_ g))) CbHeartbeat g in
  let g := foldl (fun g i => async_send (OrderConn i) "GET" "/time" [] CbIgnore g) g (seqZ 0 (order_pool_size g)) in
  foldl (fun g i => async_send (CancelConn i) "GET" "/time" [] CbIgnore g) g (seqZ 1 (cancel_clients g - 1)).

Definition check_heartbeat e g : Gateway :=
  if heartbeat_in_flight_ g then g else
  if negb (is_due (env_now e) (heartbeat_mgr_ g)) then g else
  let '(rl, ok) := try_acquire ExecIntentType.HEARTBEAT (env_now e) (rate_limiter_ g) in
  let g := g <| rate_limiter_ := rl |> in
  if negb ok then g else send_heartbeat g.

Definition heartbeat_failure e (status : Z) g : Gateway :=
  let g := g <| heartbeat_mgr_ ::= on_failure (env_now e) |> in
  let g := publish_feedback_raw e (mkExecFeedback ExecFeedbackKind.HEARTBEAT_FAILED 0 "" "" status) g in
  let g := if should_cancel_all (heartbeat_mgr_ g) && negb (heartbeat_cancel_all_latched_ g)
           then send_cancel_all (ExecIntent_default <| xi_type := ExecIntentType.CANCEL_ALL |> <| xi_created_ts := env_now e |>)
                  (g <| heartbeat_cancel_all_latched_ := true |>)
           else g in
  check_degraded_transition e g.

Definition on_heartbeat_response e (resp : RestResponse) g : Gateway :=
  let s := http_status resp in
  let g := g <| heartbeat_in_flight_ := false |> in
  let g := record_status e resp g in
  if timed_out resp || (s =? 0) then heartbeat_failure e s g
  else if (s =? 401) || (s =? 403) then set_fatal (heartbeat_failure e s g)
  else if s =? 429 then check_degraded_transition e g
  else if s =? 425 then
    check_degraded_transition e (if is_matching_engine_down (rate_limiter_ g) then set_fatal g else g)
  else if (s <? 200) || (s >=? 300) then heartbeat_failure e s g
  else
    match parse_heartbeat_response (resp_body resp) with
    | Err _ => heartbeat_failure e s g
    | Value id =>
        if negb (nonempty id) then heartbeat_failure e s g else
        let g := g <| heartbeat_mgr_ ::= on_success id (env_now e) |> <| heartbeat_cancel_all_latched_ := false |> in
        let g := publish_feedback_raw e (mkExecFeedback ExecFeedbackKind.HEARTBEAT_OK 0 "" "" s) g in
        check_degraded_transition e g
    end.

(** ** The poll cycle *)
Definition throttled e (intent : ExecIntent) g : Gateway := publish_feedback e ExecFeedbackKind.RATE_LIMITED intent 0 g.

Definition process_intent e (intent : ExecIntent) g : option Gateway :=
  let '(rl, ok) := try_acquire (xi_type intent) (env_now e) (rate_limiter_ g) in
  let g := g <| rate_limiter_ := rl |> in
  if negb ok then Some (throttled e intent g) else
  match xi_type intent with
  | ExecIntentType.PLACE_ORDER | ExecIntentType.REPLACE_ORDER => send_place_order e intent g
  | ExecIntentType.CANCEL_ORDER => Some (send_cancel_order e intent g)
  | ExecIntentType.CANCEL_ALL => Some (send_cancel_all intent g)
  | ExecIntentType.HEARTBEAT => Some (send_heartbeat g)
  end.

Definition effective_batch_max g : Z := Z.min (batch_max_size (config_ g)) (Z.of_nat kBatchMaxOrders).

(** An intent of the queue: accumulated when it is an order and batching is on,
    else processed. *)
Definition accept_intent e (intent : ExecIntent) g : option Gateway :=
  if batch_orders_enabled (config_ g) && is_place_intent (xi_type intent) then
    let '(rl, ok) := try_acquire (xi_type intent) (env_now e) (rate_limiter_ g) in
    let g := g <| rate_limiter_ := rl |> in
    if negb ok then Some (throttled e intent g) else
    let g := g <| batch_buf_ ::= fun l => l ++ [intent] |> in
    if Z.of_nat (length (batch_buf_ g)) >=? effective_batch_max g then flush_order_batch e g else Some g
  else process_intent e intent g.

Fixpoint poll_loop e (n : nat) g : option Gateway :=
  match n with
  | O => Some g
  | S n =>
      match front (intent_queue_ g) with
      | None => Some g
      | Some intent => g ← accept_intent e intent (g <| intent_queue_ ::= pop |>); poll_loop e n g
      end
  end.
Definition poll_intents e g : option Gateway :=
  g ← poll_loop e kPollLimit g;
  match batch_buf_ g with [] => Some g | _ => flush_order_batch e g end.

(** ** Responses *)
Definition run_callback e (cb : Callback) (resp : RestResponse) g : Gateway :=
  match cb with
  | CbOrder id oid => on_order_response e id oid resp g
  | CbBatch entries => on_batch_order_response e entries resp g
  | CbCancel id oid xoid => on_cancel_response e id oid xoid resp g
  | CbHeartbeat => on_heartbeat_response e resp g
  | CbIgnore => g
  end.

(** The answer to the [i]-th pending request. *)
Definition respond e (i : nat) (resp : RestResponse) g : Gateway :=
  match pending_ g !! i with
  | None => g
  | Some req => run_callback e (req_callback req) resp (g <| pending_ ::= delete i |>)
  end.

(** ** What the handlers leave alone *)

(** The parts of the state the invariant speaks about. *)
Record same_view g g' : Prop := {
  sv_qty : inflight_sell_qty_ g' = inflight_sell_qty_ g;
  sv_intents : inflight_sell_intents_ g' = inflight_sell_intents_ g;
  sv_corr : correlation_ g' = correlation_ g;
  sv_pending : pending_ g' = pending_ g;
  sv_flight : heartbeat_in_flight_ g' = heartbeat_in_flight_ g;
  sv_latch : heartbeat_cancel_all_latched_ g' = heartbeat_cancel_all_latched_ g;
  sv_mgr : heartbeat_mgr_ g' = heartbeat_mgr_ g;
  sv_buf : batch_buf_ g' = batch_buf_ g;
  sv_config : config_ g' = config_ g;
  sv_queue : intent_queue_ g' = intent_queue_ g }.

Lemma same_view_refl g : same_view g g.
Proof. by split. Qed.
Lemma same_view_trans g1 g2 g3 : same_view g1 g2 -> same_view g2 g3 -> same_view g1 g3.
Proof. intros [] []. split; congruence. Qed.
#[local] Hint Resolve same_view_refl : core.

Lemma set_fatal_view g : same_view g (set_fatal g).
Proof. by split. Qed.
Lemma register_order_view o g : same_view g (register_order o g).
Proof. by split. Qed.
Lemma next_client_view f g : same_view g (g <| order_pool_next_ ::= f |>).
Proof. by split. Qed.
Lemma record_status_view e resp g : same_view g (record_status e resp g).
Proof. by split. Qed.
Lemma after_failure_view resp g : same_view g (after_failure resp g).
Proof. unfold after_failure. repeat case_match; auto using set_fatal_view. Qed.

(** Publishing releases at most the reservation of its intent. *)
Definition maybe_release (fb : ExecFeedback) g : Gateway :=
  if releases_reservation (fb_kind fb) then release_reservation (fb_intent_id fb) g else g.

Lemma publish_view e fb g : same_view (maybe_release fb g) (publish_feedback_raw e fb g).
Proof.
  unfold publish_feedback_raw. fold (maybe_release fb g). generalize (maybe_release fb g). clear g. intros g.
  destruct (is_critical_feedback _).
  - destruct (critical_push _ _ _ _ _) as [q []]; by split.
  - destruct (try_push _ _) as [q []]; [by split|]. case_match; by split.
Qed.

#[local] Opaque publish_feedback_raw.

Lemma publish_quiet e fb g : releases_reservation (fb_kind fb) = false -> same_view g (publish_feedback_raw e fb g).
Proof. intros Hk. pose proof (publish_view e fb g) as Hv. unfold maybe_release in Hv. by rewrite Hk in Hv. Qed.

Lemma check_degraded_view e g : same_view g (check_degraded_transition e g).
Proof.
  unfold check_degraded_transition. case_match; [|case_match; [|done]];
    (eapply same_view_trans; [|by apply publish_quiet]); by split.
Qed.
Lemma record_outcome_view e resp g : same_view g (record_outcome e resp g).
Proof. unfold record_outcome. eapply same_view_trans; [|apply check_degraded_view]. by split. Qed.

(** ** Reservations *)

(** The identifiers of the orders in pending requests. *)
Definition placed_of (cb : Callback) : list Z :=
  match cb with CbOrder id _ => [id] | CbBatch es => be_intent_id <$> es | _ => [] end.
Definition placed_ids (l : list RestRequest) : list Z := concat ((fun r => placed_of (req_callback r)) <$> l).
Definition single_of (cb : Callback) : list Z := match cb with CbOrder id _ => [id] | _ => [] end.
Definition single_ids (l : list RestRequest) : list Z := concat ((fun r => single_of (req_callback r)) <$> l).
Definition is_heartbeat (r : RestRequest) : bool := match req_callback r with CbHeartbeat => true | _ => false end.
Definition heartbeats (l : list RestRequest) : Z := sum_list_Z (fun r => if is_heartbeat r then 1 else 0) l.

Definition sell_of (a : AssetId) (x : AssetId * Z) : Z := if decide (x.1 = a) then x.2 else 0.
Definition reserved (m : gmap Z (AssetId * Z)) (a : AssetId) : Z := map_fold (fun _ x acc => sell_of a x + acc) 0 m.

Lemma reserved_insert m id x a : m !! id = None -> reserved (<[id := x]> m) a = sell_of a x + reserved m a.
Proof. intros Hn. unfold reserved. by rewrite (map_fold_insert_L _ _ id x m) by (intros; lia || done). Qed.
Lemma reserved_delete m id x a : m !! id = Some x -> reserved m a = sell_of a x + reserved (delete id m) a.
Proof. intros Hx. rewrite <- (reserved_insert (delete id m) id) by apply lookup_delete_eq. by rewrite insert_delete_id. Qed.

Lemma reserved_nonneg m a : (forall id x, m !! id = Some x -> 0 < x.2) -> 0 <= reserved m a.
Proof.
  induction m as [|id x m Hn IH] using map_ind; intros Hp; [done|]. rewrite reserved_insert by done.
  assert (0 < x.2) by (apply (Hp id); apply lookup_insert_eq).
  assert (0 <= reserved m a).
  { apply IH. intros id' x' Hx'. apply (Hp id'). rewrite lookup_insert_ne by (intros ->; congruence). done. }
  unfold sell_of. case_decide; lia.
Qed.

(** The invariant of a run.  [X] are orders being sent, [Y] orders still to be
    looked at: their identifiers are not in use. *)
Record gw_inv (X Y : list Z) g : Prop := {
  gi_sum : forall a, inflight g a = reserved (inflight_sell_intents_ g) a;
  gi_pos : forall id x, inflight_sell_intents_ g !! id = Some x -> 0 < x.2;
  gi_owned : forall id, is_Some (inflight_sell_intents_ g !! id) -> id ∈ placed_ids (pending_ g) \/ id ∈ X;
  gi_corr : forall id, is_Some (correlation_ g !! id) -> id ∈ single_ids (pending_ g) \/ id ∈ X;
  gi_fresh : NoDup (placed_ids (pending_ g) ++ X ++ Y);
  gi_flight : heartbeats (pending_ g) = if heartbeat_in_flight_ g then 1 else 0;
  gi_latch : heartbeat_cancel_all_latched_ g = should_cancel_all (heartbeat_mgr_ g);
  gi_max : 0 < max_consecutive_failures (hb_config_ (heartbeat_mgr_ g)) }.

Lemma gw_inv_view X Y g g' : same_view g g' -> gw_inv X Y g -> gw_inv X Y g'.
Proof.
  intros [Eq Ei Ec Ep Ef El Em _ _ _] [Hs Hp Ho Hc Hf Hh Hl Hm].
  split; unfold inflight in *; rewrite ?Eq, ?Ei, ?Ec, ?Ep, ?Ef, ?El, ?Em; done.
Qed.

Lemma gw_inv_perm X X' Y g : X ≡ₚ X' -> gw_inv X Y g -> gw_inv X' Y g.
Proof.
  intros HX [Hs Hp Ho Hc Hf Hh Hl Hm]. split; try done; try (intros id; rewrite <- HX; by auto). by rewrite <- HX.
Qed.

Lemma gw_inv_weaken X Y Y' g : (exists Z0, Y ≡ₚ Y' ++ Z0) -> gw_inv X Y g -> gw_inv X Y' g.
Proof.
  intros [Z0 Hp] []. split; try done. rewrite Hp, !app_assoc in gi_fresh0.
  apply NoDup_app in gi_fresh0 as (Hn & _ & _). by rewrite <- app_assoc in Hn.
Qed.

(** Releasing a reservation keeps the books balanced, whatever the identifier. *)
Lemma release_inv X Y id g : gw_inv X Y g ->
  gw_inv X Y (release_reservation id g) /\ inflight_sell_intents_ (release_reservation id g) !! id = None /\
  correlation_ (release_reservation id g) = correlation_ g /\ batch_buf_ (release_reservation id g) = batch_buf_ g /\
  config_ (release_reservation id g) = config_ g /\ intent_queue_ (release_reservation id g) = intent_queue_ g /\
  forall id', inflight_sell_intents_ g !! id' = None -> inflight_sell_intents_ (release_reservation id g) !! id' = None.
Proof.
  intros [Hs Hp Ho Hc Hf Hh Hl Hm]. unfold release_reservation.
  destruct (inflight_sell_intents_ g !! id) as [[a q]|] eqn:E; [|by split_and!].
  simpl. split_and!; try done; [|by apply lookup_delete_eq|].
  2: { intros id' Hn. apply lookup_delete_None. by right. }
  split; simpl; try done.
  - intros a'. unfold inflight. simpl.
    pose proof (reserved_delete _ _ _ a' E) as Hd. rewrite <- Hs in Hd. unfold sell_of in Hd; simpl in Hd.
    assert (0 <= reserved (delete id (inflight_sell_intents_ g)) a').
    { apply reserved_nonneg. intros id' x Hx. apply lookup_delete_Some in Hx as [_ Hx]. by eapply Hp. }
    destruct (decide (a = a')) as [->|Hne].
    + rewrite lookup_insert_eq. simpl. unfold inflight in *. destruct (Z.gtb_spec (default 0 (inflight_sell_qty_ g !! a')) q); lia.
    + rewrite lookup_insert_ne by done. unfold inflight in *. lia.
  - intros id' x Hx. apply lookup_delete_Some in Hx as [_ Hx]. by eapply Hp.
  - intros id' [x Hx]. apply lookup_delete_Some in Hx as [_ Hx]. by apply Ho.
Qed.

Lemma publish_inv X Y e fb g : gw_inv X Y g -> gw_inv X Y (publish_feedback_raw e fb g).
Proof.
  intros Hi. eapply gw_inv_view; [apply publish_view|]. unfold maybe_release. case_match; [by apply release_inv|done].
Qed.

Lemma perm_NoDup (l k : list Z) : l ≡ₚ k -> NoDup l -> NoDup k.
Proof. by intros ->. Qed.

(** The other parts of the state that publishing keeps. *)
Lemma publish_keeps e fb g :
  correlation_ (publish_feedback_raw e fb g) = correlation_ g /\
  batch_buf_ (publish_feedback_raw e fb g) = batch_buf_ g /\
  config_ (publish_feedback_raw e fb g) = config_ g /\
  intent_queue_ (publish_feedback_raw e fb g) = intent_queue_ g /\
  pending_ (publish_feedback_raw e fb g) = pending_ g.
Proof.
  destruct (publish_view e fb g) as [_ _ -> -> _ _ _ -> -> ->].
  unfold maybe_release, release_reservation. repeat case_match; done.
Qed.

(** A terminal feedback leaves no reservation of its intent. *)
Lemma publish_released X Y e fb g :
  gw_inv X Y g -> releases_reservation (fb_kind fb) = true ->
  inflight_sell_intents_ (publish_feedback_raw e fb g) !! fb_intent_id fb = None.
Proof.
  intros Hi Hk. destruct (publish_view e fb g) as [_ -> _ _ _ _ _ _ _ _].
  unfold maybe_release. rewrite Hk. by destruct (release_inv X Y (fb_intent_id fb) g Hi) as (_ & ? & _).
Qed.
Lemma publish_keeps_released e fb g id :
  inflight_sell_intents_ g !! id = None -> inflight_sell_intents_ (publish_feedback_raw e fb g) !! id = None.
Proof.
  intros Hn. destruct (publish_view e fb g) as [_ -> _ _ _ _ _ _ _ _].
  unfold maybe_release, release_reservation. repeat case_match; try done; simpl; apply lookup_delete_None; by right.
Qed.

Lemma placed_ids_app l1 l2 : placed_ids (l1 ++ l2) = placed_ids l1 ++ placed_ids l2.
Proof. unfold placed_ids. by rewrite fmap_app, concat_app. Qed.
Lemma single_ids_app l1 l2 : single_ids (l1 ++ l2) = single_ids l1 ++ single_ids l2.
Proof. unfold single_ids. by rewrite fmap_app, concat_app. Qed.
Lemma single_placed id l : id ∈ single_ids l -> id ∈ placed_ids l.
Proof.
  induction l as [|r l IH]; [done|]. change (r :: l) with ([r] ++ l). rewrite single_ids_app, placed_ids_app, !elem_of_app.
  intros [Hr|Hl]; [left|right; by apply IH]. unfold single_ids, placed_ids in *. simpl in *.
  rewrite app_nil_r in *. destruct (req_callback r); simpl in *; try done; by apply not_elem_of_nil in Hr.
Qed.
Lemma heartbeats_app l1 l2 : heartbeats (l1 ++ l2) = heartbeats l1 + heartbeats l2.
Proof. apply sum_list_Z_app. Qed.

(** Sending a request takes its orders from [X]. *)
Lemma send_inv conn m p b cb ids X Y g :
  placed_of cb ≡ₚ ids -> is_heartbeat (mkRestRequest conn m p b cb) = false ->
  (forall id, id ∈ ids -> is_Some (correlation_ g !! id) -> id ∈ single_of cb) ->
  gw_inv (ids ++ X) Y g -> gw_inv X Y (async_send conn m p b cb g).
Proof.
  intros Hids Hhb Hcb [Hs Hp Ho Hc Hf Hh Hl Hm]. split; simpl; try done.
  - intros id Hid. rewrite placed_ids_app, elem_of_app. unfold placed_ids at 2. simpl. rewrite app_nil_r, Hids.
    destruct (Ho id Hid) as [?|[?|?]%elem_of_app]; auto.
  - intros id Hid. rewrite single_ids_app, elem_of_app. unfold single_ids at 2. simpl. rewrite app_nil_r.
    destruct (Hc id Hid) as [?|[?|?]%elem_of_app]; auto.
  - rewrite placed_ids_app. unfold placed_ids at 2. simpl. rewrite app_nil_r, Hids.
    by rewrite <- !app_assoc in *.
  - rewrite heartbeats_app. unfold heartbeats at 2. simpl. rewrite Hhb. lia.
Qed.
Lemma send_other_inv conn m p b cb X Y g :
  placed_of cb = [] -> is_heartbeat (mkRestRequest conn m p b cb) = false ->
  gw_inv X Y g -> gw_inv X Y (async_send conn m p b cb g).
Proof. intros Hc Hh Hi. apply (send_inv _ _ _ _ _ []); [by rewrite Hc|done| |done].
  intros id Hid. by apply not_elem_of_nil in Hid. Qed.

(** Reserving takes an order from [Y] to [X]. *)
Lemma reserve_inv intent X Y g :
  0 < xi_size intent -> gw_inv X (xi_intent_id intent :: Y) g -> gw_inv (xi_intent_id intent :: X) Y (reserve intent g).
Proof.
  intros Hsz [Hs Hp Ho Hc Hf Hh Hl Hm].
  assert (xi_intent_id intent ∉ placed_ids (pending_ g) ++ X) as Hnew.
  { rewrite app_assoc in Hf. apply NoDup_app in Hf as (_ & Hd & _). intros Hin. apply (Hd _ Hin). by left. }
  assert (inflight_sell_intents_ g !! xi_intent_id intent = None) as Hn.
  { apply eq_None_not_Some. intros Hid. apply Hnew, elem_of_app, Ho, Hid. }
  split; simpl; try done.
  - intros a. unfold inflight. simpl. rewrite reserved_insert by done. unfold sell_of; simpl. rewrite <- Hs.
    destruct (decide (xi_asset_id intent = a)) as [->|Hne];
      [rewrite lookup_insert_eq|rewrite lookup_insert_ne by done]; simpl; unfold inflight; lia.
  - intros id x. destruct (decide (id = xi_intent_id intent)) as [->|Hne].
    + rewrite lookup_insert_eq. by intros [= <-].
    + rewrite lookup_insert_ne by done. apply Hp.
  - intros id. destruct (decide (id = xi_intent_id intent)) as [->|Hne]; [right; by left|].
    rewrite lookup_insert_ne by done. intros Hid. destruct (Ho id Hid); [by left|right; by right].
  - intros id Hid. destruct (Hc id Hid); [by left|right; by right].
  - eapply perm_NoDup; [|exact Hf]. solve_Permutation.
Qed.

(** An order in [X] that is neither reserved nor correlated can be dropped. *)
Lemma drop_inv id X Y g :
  inflight_sell_intents_ g !! id = None -> correlation_ g !! id = None -> gw_inv (id :: X) Y g -> gw_inv X Y g.
Proof.
  intros Hn Hcn [Hs Hp Ho Hc Hf Hh Hl Hm]. split; try done.
  - intros id' Hid. destruct (Ho id' Hid) as [?|[->|?]%elem_of_cons]; auto. rewrite Hn in Hid. by destruct Hid.
  - intros id' Hid. destruct (Hc id' Hid) as [?|[->|?]%elem_of_cons]; auto. rewrite Hcn in Hid. by destruct Hid.
  - assert (NoDup (id :: placed_ids (pending_ g) ++ X ++ Y)) as Hd by (eapply perm_NoDup; [|exact Hf]; solve_Permutation).
    by apply NoDup_cons in Hd as [_ ?].
Qed.
(** Moving an order from [Y] to [X] without a reservation. *)
Lemma take_inv id X Y g : gw_inv X (id :: Y) g -> gw_inv (id :: X) Y g.
Proof.
  intros [Hs Hp Ho Hc Hf Hh Hl Hm]. split; try done.
  - intros id' Hid. destruct (Ho id' Hid); [by left|right; by right].
  - intros id' Hid. destruct (Hc id' Hid); [by left|right; by right].
  - eapply perm_NoDup; [|exact Hf]. solve_Permutation.
Qed.
Lemma fresh_not_correlated id X Y g : gw_inv X (id :: Y) g -> correlation_ g !! id = None.
Proof.
  intros [Hs Hp Ho Hc Hf Hh Hl Hm]. apply eq_None_not_Some. intros Hid.
  rewrite app_assoc in Hf. apply NoDup_app in Hf as (_ & Hd & _). apply (Hd id); [|by left].
  apply elem_of_app. destruct (Hc id Hid); [left; by apply single_placed|by right].
Qed.

Lemma correlate_inv intent ts X Y g :
  gw_inv (xi_intent_id intent :: X) Y g -> gw_inv (xi_intent_id intent :: X) Y (correlate intent ts g).
Proof.
  intros Hi. unfold correlate. case_match; [|done]. destruct Hi as [Hs Hp Ho Hc Hf Hh Hl Hm]. split; simpl; try done.
  intros id. destruct (decide (id = xi_intent_id intent)) as [->|Hne]; [right; by left|].
  rewrite lookup_insert_ne by done. apply Hc.
Qed.

(** ** The handlers keep the invariant *)
Lemma correlate_buf intent ts g :
  batch_buf_ (correlate intent ts g) = batch_buf_ g /\ config_ (correlate intent ts g) = config_ g /\
  intent_queue_ (correlate intent ts g) = intent_queue_ g.
Proof. unfold correlate. by case_match. Qed.

(** The buffer, the configuration and the intent queue. *)
Definition keeps g g' : Prop :=
  batch_buf_ g' = batch_buf_ g /\ config_ g' = config_ g /\ intent_queue_ g' = intent_queue_ g.
Lemma keeps_refl g : keeps g g.
Proof. by split. Qed.
Lemma keeps_trans g1 g2 g3 : keeps g1 g2 -> keeps g2 g3 -> keeps g1 g3.
Proof. intros (? & ? & ?) (? & ? & ?). split_and!; congruence. Qed.
Lemma view_keeps g g' : same_view g g' -> keeps g g'.
Proof. by intros []. Qed.
Lemma publish_keeps' e fb g : keeps g (publish_feedback_raw e fb g).
Proof. by destruct (publish_keeps e fb g) as (_ & ? & ? & ? & _). Qed.
Lemma reserve_keeps i g : keeps g (reserve i g).
Proof. by split. Qed.

Lemma send_place_order_inv e intent X Y g g' :
  0 < xi_size intent -> gw_inv X (xi_intent_id intent :: Y) g ->
  send_place_order e intent g = Some g' -> gw_inv X Y g' /\ keeps g g'.
Proof.
  intros Hsz Hi. unfold send_place_order.
  assert (exists Z0, xi_intent_id intent :: Y ≡ₚ Y ++ Z0) as Hw by (exists [xi_intent_id intent]; solve_Permutation).
  destruct (is_ask intent && _) eqn:Erej.
  { intros [= <-]. unfold reject_inventory. split; [|apply publish_keeps'].
    apply (gw_inv_weaken X _ Y _ Hw). by apply publish_inv. }
  pose proof (fresh_not_correlated _ _ _ _ Hi) as Hnc.
  set (g1 := if is_ask intent then reserve intent g else g).
  assert (gw_inv (xi_intent_id intent :: X) Y g1 /\ keeps g g1 /\ correlation_ g1 !! xi_intent_id intent = None) as (Hi1 & Hk1 & Hc1).
  { unfold g1. destruct (is_ask intent); split_and!; try done; [by apply reserve_inv|by apply take_inv]. }
  destruct (build _ _ _) as [[p|er]|]; [|intros [= <-]|done].
  - destruct (next_order_client _) as [conn g2] eqn:En. intros [= <-].
    injection En as <- <-. split.
    + apply (send_inv _ _ _ _ _ [xi_intent_id intent] X Y); [done|done|by intros id Hid _|].
      eapply gw_inv_view; [apply next_client_view|]. apply publish_inv, correlate_inv.
      eapply gw_inv_view; [apply register_order_view|done].
    + eapply keeps_trans; [exact Hk1|]. unfold publish_feedback.
      eapply keeps_trans; [apply (view_keeps _ _ (register_order_view (op_predicted_exchange_oid p) g1))|].
      eapply keeps_trans; [apply (correlate_buf intent (env_now e))|].
      eapply keeps_trans; [apply publish_keeps'|]. by split.
  - split; [|eapply keeps_trans; [exact Hk1|apply publish_keeps']].
    apply (drop_inv (xi_intent_id intent)).
    + by apply (publish_released _ _ e (mkExecFeedback ExecFeedbackKind.ORDER_REJECTED _ _ _ _) g1 Hi1).
    + unfold publish_feedback. by destruct (publish_keeps e
        (mkExecFeedback ExecFeedbackKind.ORDER_REJECTED (xi_intent_id intent) (xi_client_order_id intent) "" 0) g1) as (-> & _).
    + by apply publish_inv.
Qed.

(** *** Batches *)
Abbreviation ids l := (xi_intent_id <$> l).
Definition sized (l : list ExecIntent) : Prop := Forall (fun i => 0 < xi_size i) l.

Lemma filter_batch_inv e l valid X Y g :
  sized l -> sized valid -> gw_inv X (ids l ++ ids valid ++ Y) g ->
  let r := filter_batch e l valid g in
  gw_inv X (ids r.1 ++ Y) r.2 /\ sized r.1 /\ keeps g r.2.
Proof.
  intros Hl. revert valid g. induction Hl as [|i l Hi0 Hl IH]; intros valid g Hv Hi; cbn [filter_batch].
  { split_and!; try done. }
  case_match.
  - destruct (IH valid (reject_inventory e i g)) as (? & ? & Hk); [done| |].
    + apply publish_inv. eapply gw_inv_weaken; [|exact Hi]. exists [xi_intent_id i]. rewrite fmap_cons. solve_Permutation.
    + split_and!; try done. eapply keeps_trans; [apply publish_keeps'|exact Hk].
  - apply IH; [apply Forall_app; split; [done|by repeat constructor]|].
    eapply gw_inv_weaken; [|exact Hi]. exists []. rewrite fmap_cons, fmap_app. simpl. solve_Permutation.
Qed.

Lemma reserve_asks_inv l X Y g :
  sized l -> gw_inv X (ids l ++ Y) g -> gw_inv (ids l ++ X) Y (reserve_asks l g) /\ keeps g (reserve_asks l g) /\
  correlation_ (reserve_asks l g) = correlation_ g.
Proof.
  intros Hl. revert X g. induction Hl as [|i l Hi0 Hl IH]; intros X g Hi; [done|].
  unfold reserve_asks. cbn [foldl]. fold (reserve_asks l (if is_ask i then reserve i g else g)).
  set (g1 := if is_ask i then reserve i g else g).
  assert (gw_inv (xi_intent_id i :: X) (ids l ++ Y) g1 /\ keeps g g1 /\ correlation_ g1 = correlation_ g) as (Hi1 & Hk1 & Hc1).
  { unfold g1. destruct (is_ask i); split_and!; try done; [by apply reserve_inv|by apply take_inv]. }
  destruct (IH _ _ Hi1) as (Hi2 & Hk2 & Hc2). split_and!; [|by eapply keeps_trans|congruence].
  eapply gw_inv_perm; [|exact Hi2]. rewrite fmap_cons. solve_Permutation.
Qed.

(** A terminal feedback for each order of a list drops the list from [X]. *)
Lemma publish_drop e fb X Y g :
  releases_reservation (fb_kind fb) = true -> correlation_ g !! fb_intent_id fb = None ->
  gw_inv (fb_intent_id fb :: X) Y g -> gw_inv X Y (publish_feedback_raw e fb g).
Proof.
  intros Hk Hc Hi. apply (drop_inv (fb_intent_id fb)); [by eapply publish_released| |by apply publish_inv].
  by destruct (publish_keeps e fb g) as (-> & _).
Qed.

Lemma publish_all_drop {A} e (f : A -> Gateway -> Gateway) (id_of : A -> Z) l X Y g :
  (forall x, exists fb, fb_intent_id fb = id_of x /\ releases_reservation (fb_kind fb) = true /\
     forall g, exists g0, same_view g g0 /\ f x g = publish_feedback_raw e fb g0) ->
  (forall x, x ∈ l -> correlation_ g !! id_of x = None) ->
  gw_inv ((id_of <$> l) ++ X) Y g ->
  gw_inv X Y (foldl (fun g x => f x g) g l) /\ keeps g (foldl (fun g x => f x g) g l).
Proof.
  intros Hf. revert g. induction l as [|x l IH]; intros g Hc Hi; [done|]. cbn [foldl].
  destruct (Hf x) as (fb & Hid & Hk & Hg). destruct (Hg g) as (g0 & Hv & ->).
  destruct (IH (publish_feedback_raw e fb g0)) as [Hi' Hk'].
  - intros y Hy. destruct (publish_keeps e fb g0) as (-> & _). rewrite (sv_corr _ _ Hv). apply Hc. by right.
  - apply publish_drop; [done| |].
    + rewrite (sv_corr _ _ Hv), Hid. apply Hc. by left.
    + rewrite Hid. by eapply gw_inv_view.
  - split; [done|]. eapply keeps_trans; [by apply view_keeps|]. eapply keeps_trans; [apply publish_keeps'|done].
Qed.

Lemma publish_all_quiet e k l g : releases_reservation k = false -> same_view g (publish_all e k l g).
Proof.
  intros Hk. unfold publish_all. revert g. induction l as [|i l IH]; intros g; [done|]. cbn [foldl].
  eapply same_view_trans; [|apply IH]. by apply publish_quiet.
Qed.
Lemma register_all_view os g : same_view g (foldl (fun g o => register_order o g) g os).
Proof.
  revert g. induction os as [|o os IH]; intros g; [done|]. cbn [foldl].
  eapply same_view_trans; [apply register_order_view|apply IH].
Qed.

Lemma build_loop_lengths draws ob i l b :
  build_loop draws ob i l = Some (Value b) -> bp_client_order_ids b = xi_client_order_id <$> l.
Proof.
  revert i b. induction l as [|x l IH]; intros i b; cbn [build_loop]; [by intros [= <-]|].
  intros ?. inv_expect. simpl. erewrite IH by eassumption.
  match goal with Hb : build _ _ _ = _ |- _ => unfold build in Hb; revert Hb end.
  destruct (_ && _); [done|]. destruct (_ || _); [done|]. destruct (price_amount_of _ _); [|done]. cbn.
  destruct (if side_eqb _ _ then _ else _) as [m k]. destruct (sign_order _ _); [|done]. by intros [= <-].
Qed.

Lemma send_place_order_batch_inv e l X Y g g' :
  sized l -> gw_inv X (ids l ++ Y) g -> send_place_order_batch e l g = Some g' -> gw_inv X Y g' /\ keeps g g'.
Proof.
  intros Hl Hi. unfold send_place_order_batch.
  destruct (filter_batch_inv e l [] X Y g Hl) as (Hi1 & Hs1 & Hk1); [constructor|done|].
  destruct (filter_batch e l [] g) as [valid g1]. cbn [fst snd] in *.
  destruct valid as [|i [|j valid]].
  - intros [= <-]. done.
  - intros Hsend. apply Forall_cons in Hs1 as [Hs1 _].
    destruct (send_place_order_inv e i X Y g1 g' Hs1 Hi1 Hsend). split; [done|by eapply keeps_trans].
  - set (v := i :: j :: valid) in *. clearbody v.
    destruct (reserve_asks_inv v X Y g1 Hs1 Hi1) as (Hi2 & Hk2 & Hc2).
    assert (forall x, x ∈ v -> correlation_ (reserve_asks v g1) !! xi_intent_id x = None) as Hnc.
    { intros x Hx. rewrite Hc2. apply (fresh_not_correlated _ X []).
      eapply gw_inv_weaken; [|exact Hi1]. apply elem_of_Permutation in Hx as [v' Hp].
      exists (ids v' ++ Y). rewrite Hp. simpl. solve_Permutation. }
    destruct (build_batch _ _ _) as [[b|er]|] eqn:Eb; [|intros [= <-]|done].
    + destruct (next_order_client _) as [conn g2] eqn:En. intros [= <-]. injection En as <- <-.
      set (g2 := publish_all e ExecFeedbackKind.REQUEST_SENT v
             (foldl (fun g o => register_order o g) (reserve_asks v g1) (bp_predicted_exchange_oids b))).
      assert (same_view (reserve_asks v g1) g2) as Hv2.
      { eapply same_view_trans; [apply register_all_view|by apply publish_all_quiet]. }
      assert (bp_client_order_ids b = xi_client_order_id <$> v) as Hoid.
      { unfold build_batch in Eb. destruct (_ || _); [done|]. inv_expect. simpl. by eapply build_loop_lengths. }
      split.
      * apply (send_inv _ _ _ _ _ (ids v) X Y); [|done| |].
        -- simpl. rewrite Hoid. clear. induction v as [|x v IH]; [done|]. simpl. by rewrite IH.
        -- intros id Hid Hs. apply list_elem_of_fmap in Hid as (x & -> & Hx). cbn in Hs.
           rewrite (sv_corr _ _ Hv2), Hnc in Hs by done. by destruct Hs.
        -- eapply gw_inv_view; [apply next_client_view|]. by eapply gw_inv_view.
      * eapply keeps_trans; [exact Hk1|]. eapply keeps_trans; [exact Hk2|].
        eapply keeps_trans; [by apply view_keeps|]. by split.
    + destruct (publish_all_drop e (fun i => publish_feedback e ExecFeedbackKind.ORDER_REJECTED i 0) xi_intent_id v X Y
                  (reserve_asks v g1)) as [Hi3 Hk3]; [|done|done|].
      * intros x. eexists. split; [|split; [|intros g0; exists g0; by split]]; done.
      * split; [done|]. eapply keeps_trans; [exact Hk1|]. by eapply keeps_trans.
Qed.

Lemma flush_inv e Y g g' :
  sized (batch_buf_ g) -> gw_inv [] (ids (batch_buf_ g) ++ Y) g -> flush_order_batch e g = Some g' ->
  gw_inv [] Y g' /\ batch_buf_ g' = [] /\ config_ g' = config_ g /\ intent_queue_ g' = intent_queue_ g.
Proof.
  unfold flush_order_batch. intros Hs Hi. destruct (batch_buf_ g) as [|i [|j l]] eqn:Eb.
  - intros [= <-]. done.
  - destruct (send_place_order e i g) as [g1|] eqn:E; [|done]. cbn. intros [= <-].
    apply Forall_cons in Hs as [Hs _]. destruct (send_place_order_inv e i [] Y g g1 Hs Hi E) as [Hi1 (_ & Hc & Hq)].
    split_and!; try done. destruct Hi1. by split.
  - destruct (send_place_order_batch e _ g) as [g1|] eqn:E; [|done]. cbn. intros [= <-].
    destruct (send_place_order_batch_inv e _ [] Y g g1 Hs Hi E) as [Hi1 (_ & Hc & Hq)].
    split_and!; try done. destruct Hi1. by split.
Qed.

(** *** Cancels and heartbeats *)
Lemma send_cancel_order_inv e intent Y g :
  gw_inv [] Y g -> gw_inv [] Y (send_cancel_order e intent g) /\ keeps g (send_cancel_order e intent g).
Proof.
  intros Hi. unfold send_cancel_order. case_match; [split; [by apply publish_inv|apply publish_keeps']|]. split.
  - apply send_other_inv; [done|done|]. apply (gw_inv_view _ _ (publish_feedback e ExecFeedbackKind.REQUEST_SENT intent 0 g));
      [by split|by apply publish_inv].
  - eapply keeps_trans; [apply publish_keeps'|]. by split.
Qed.

(** Requests without orders, one per connection. *)
Lemma send_many_inv (conn : Z -> Connection) m p b cb l X Y g :
  placed_of cb = [] -> (forall i, is_heartbeat (mkRestRequest (conn i) m p b cb) = false) -> gw_inv X Y g ->
  let g' := foldl (fun g i => async_send (conn i) m p b cb g) g l in gw_inv X Y g' /\ keeps g g' /\ heartbeat_mgr_ g' = heartbeat_mgr_ g.
Proof.
  intros Hp Hh. revert g. induction l as [|i l IH]; intros g Hi; [done|]. cbn [foldl].
  destruct (IH (async_send (conn i) m p b cb g)) as (? & ? & ?); [by apply send_other_inv|].
  split_and!; [done|by eapply keeps_trans; [|eassumption]|done].
Qed.
Lemma send_cancel_all_inv intent X Y g :
  gw_inv X Y g -> gw_inv X Y (send_cancel_all intent g) /\ keeps g (send_cancel_all intent g).
Proof. intros Hi. by destruct (send_many_inv CancelConn "DELETE" "/cancel-all" [] _ (seqZ 0 (cancel_clients g)) X Y g
  (eq_refl : placed_of (CbCancel (xi_intent_id intent) "" "") = []) (fun _ => eq_refl) Hi) as (? & ? & _). Qed.

Lemma send_heartbeat_inv X Y g :
  heartbeat_in_flight_ g = false -> gw_inv X Y g -> gw_inv X Y (send_heartbeat g) /\ keeps g (send_heartbeat g).
Proof.
  intros Hfl [Hs Hp Ho Hc Hf Hh Hl Hm]. unfold send_heartbeat.
  set (g1 := async_send (CancelConn 0) "POST" "/v1/heartbeats" _ CbHeartbeat _).
  assert (gw_inv X Y g1) as Hi1.
  { split; simpl; try done; rewrite ?placed_ids_app, ?single_ids_app, ?heartbeats_app; unfold placed_ids at 2 || unfold single_ids at 2 || unfold heartbeats at 2;
      simpl; rewrite ?app_nil_r; try done. rewrite Hh, Hfl. done. }
  destruct (send_many_inv OrderConn "GET" "/time" [] CbIgnore (seqZ 0 (order_pool_size g1)) X Y g1 eq_refl (fun _ => eq_refl) Hi1)
    as (Hi2 & Hk2 & _).
  destruct (send_many_inv CancelConn "GET" "/time" [] CbIgnore (seqZ 1 (cancel_clients (foldl (fun g i => async_send (OrderConn i)
    "GET" "/time" [] CbIgnore g) g1 (seqZ 0 (order_pool_size g1))) - 1)) X Y _ eq_refl (fun _ => eq_refl) Hi2) as (Hi3 & Hk3 & _).
  split; [exact Hi3|]. eapply keeps_trans; [|exact Hk3]. eapply keeps_trans; [|exact Hk2]. by split.
Qed.

Lemma check_heartbeat_inv e Y g : gw_inv [] Y g -> gw_inv [] Y (check_heartbeat e g) /\ keeps g (check_heartbeat e g).
Proof.
  intros Hi. unfold check_heartbeat. destruct (heartbeat_in_flight_ g) eqn:Ef; [done|].
  destruct (negb _); [done|]. destruct (try_acquire _ _ _) as [rl ok].
  assert (gw_inv [] Y (g <| rate_limiter_ := rl |>)) as Hi1 by (eapply gw_inv_view; [|exact Hi]; by split).
  destruct (negb ok); [done|]. destruct (send_heartbeat_inv [] Y (g <| rate_limiter_ := rl |>)) as [? ?]; [done|done|].
  split; [done|]. eapply keeps_trans; [|eassumption]. by split.
Qed.

Lemma should_cancel_all_mono now h :
  should_cancel_all h = true -> should_cancel_all (on_failure now h) = true.
Proof.
  unfold should_cancel_all. simpl. rewrite !andb_true_iff, !Z.geb_leb, !Z.leb_le. intros [? ?]. split; [done|lia].
Qed.

Lemma set_latch_view b g g' : same_view g g' -> same_view (g <| heartbeat_cancel_all_latched_ := b |>) (g' <| heartbeat_cancel_all_latched_ := b |>).
Proof. intros []. by split. Qed.

Lemma heartbeat_failure_inv e s Y g : gw_inv [] Y g -> gw_inv [] Y (heartbeat_failure e s g) /\ keeps g (heartbeat_failure e s g).
Proof.
  intros Hi. unfold heartbeat_failure. set (g1 := g <| heartbeat_mgr_ ::= on_failure (env_now e) |>).
  assert (keeps g g1) as Hkg1 by (by split).
  set (fb := mkExecFeedback ExecFeedbackKind.HEARTBEAT_FAILED 0 "" "" s).
  pose proof (publish_quiet e fb g1 eq_refl) as Hv. pose proof (sv_mgr _ _ Hv) as Em. pose proof (sv_latch _ _ Hv) as El.
  set (g2 := publish_feedback_raw e fb g1) in *. rewrite Em, El.
  change (heartbeat_mgr_ g1) with (on_failure (env_now e) (heartbeat_mgr_ g)).
  change (heartbeat_cancel_all_latched_ g1) with (heartbeat_cancel_all_latched_ g).
  assert (forall b, b = should_cancel_all (on_failure (env_now e) (heartbeat_mgr_ g)) ->
    gw_inv [] Y (g1 <| heartbeat_cancel_all_latched_ := b |>)) as Hset.
  { intros b Hb. destruct Hi. by split. }
  destruct (should_cancel_all (on_failure _ _) && negb _) eqn:Ec.
  - apply andb_true_iff in Ec as [Ec _].
    set (g3 := g2 <| heartbeat_cancel_all_latched_ := true |>).
    assert (gw_inv [] Y g3) as Hi3 by (eapply gw_inv_view; [apply set_latch_view, Hv|]; by apply Hset).
    destruct (send_cancel_all_inv (ExecIntent_default <| xi_type := ExecIntentType.CANCEL_ALL |> <| xi_created_ts := env_now e |>) [] Y g3 Hi3) as [Hi4 Hk4].
    split; [eapply gw_inv_view; [apply check_degraded_view|exact Hi4]|].
    eapply keeps_trans; [|apply view_keeps, check_degraded_view]. eapply keeps_trans; [|exact Hk4].
    apply (keeps_trans _ g2); [|by split]. eapply keeps_trans; [exact Hkg1|by apply view_keeps].
  - assert (gw_inv [] Y g2) as Hi2.
    { eapply gw_inv_view; [exact Hv|].
      assert (heartbeat_cancel_all_latched_ g = should_cancel_all (on_failure (env_now e) (heartbeat_mgr_ g))) as Hb.
      { pose proof (gi_latch _ _ _ Hi) as Hl. pose proof (should_cancel_all_mono (env_now e) (heartbeat_mgr_ g)).
        destruct (heartbeat_cancel_all_latched_ g), (should_cancel_all (on_failure _ _)); naive_solver. }
      specialize (Hset _ Hb). destruct Hset. by split. }
    split; [eapply gw_inv_view; [apply check_degraded_view|exact Hi2]|].
    eapply keeps_trans; [|apply view_keeps, check_degraded_view]. eapply keeps_trans; [exact Hkg1|by apply view_keeps].
Qed.

(** *** Responses *)
Lemma lookup_split {A} (l : list A) i x :
  l !! i = Some x -> exists l1 l2, l = l1 ++ x :: l2 /\ delete i l = l1 ++ l2.
Proof.
  intros Hx. exists (take i l), (drop (S i) l). split; [by symmetry; apply take_drop_middle|].
  by rewrite delete_take_drop.
Qed.

Lemma placed_ids_middle l1 r l2 : placed_ids (l1 ++ r :: l2) ≡ₚ placed_of (req_callback r) ++ placed_ids (l1 ++ l2).
Proof. change (r :: l2) with ([r] ++ l2). rewrite !placed_ids_app. unfold placed_ids at 2. simpl. rewrite app_nil_r. solve_Permutation. Qed.
Lemma single_ids_middle l1 r l2 : single_ids (l1 ++ r :: l2) ≡ₚ single_of (req_callback r) ++ single_ids (l1 ++ l2).
Proof. change (r :: l2) with ([r] ++ l2). rewrite !single_ids_app. unfold single_ids at 2. simpl. rewrite app_nil_r. solve_Permutation. Qed.

(** Answering a request that is not a heartbeat puts its orders into [X]. *)
Lemma answer_inv Y i req g :
  pending_ g !! i = Some req -> is_heartbeat req = false -> gw_inv [] Y g ->
  gw_inv (placed_of (req_callback req)) Y (g <| pending_ ::= delete i |>) /\
  (forall id, id ∈ placed_of (req_callback req) -> is_Some (correlation_ g !! id) -> id ∈ single_of (req_callback req)).
Proof.
  intros Hp Hh [Hs Hpos Ho Hc Hf Hhb Hl Hm]. apply lookup_split in Hp as (l1 & l2 & Hl12 & Hd).
  rewrite Hl12 in *. rewrite placed_ids_middle in Hf. split.
  - split; simpl; rewrite ?Hl12, ?Hd; try done.
    + intros id Hid. destruct (Ho id Hid) as [Hin|Hin]; [|by apply not_elem_of_nil in Hin].
      rewrite placed_ids_middle in Hin. apply elem_of_app in Hin as [?|?]; auto.
    + intros id Hid. destruct (Hc id Hid) as [Hin|Hin]; [|by apply not_elem_of_nil in Hin].
      rewrite single_ids_middle in Hin. apply elem_of_app in Hin as [Hsg|?]; [right|by left].
      destruct (req_callback req); simpl in *; try done; by apply not_elem_of_nil in Hsg.
    + eapply perm_NoDup; [|exact Hf]. solve_Permutation.
    + rewrite <- Hhb, !heartbeats_app. unfold heartbeats at 4. simpl. rewrite Hh. unfold heartbeats. lia.
  - intros id Hin Hid. destruct (Hc id Hid) as [Hsi|Hsi]; [|by apply not_elem_of_nil in Hsi].
    rewrite single_ids_middle in Hsi. apply elem_of_app in Hsi as [?|Hsi]; [done|].
    apply single_placed in Hsi. rewrite <- app_assoc in Hf. apply NoDup_app in Hf as (_ & Hdis & _).
    exfalso. apply (Hdis id Hin). apply elem_of_app. by left.
Qed.

Lemma heartbeats_nonneg l : 0 <= heartbeats l.
Proof. apply sum_list_Z_nonneg. intros. case_match; lia. Qed.

Lemma answer_heartbeat_inv Y i req g :
  pending_ g !! i = Some req -> req_callback req = CbHeartbeat -> gw_inv [] Y g ->
  gw_inv [] Y (g <| pending_ ::= delete i |> <| heartbeat_in_flight_ := false |>).
Proof.
  intros Hp Hcb [Hs Hpos Ho Hc Hf Hhb Hl Hm]. apply lookup_split in Hp as (l1 & l2 & Hl12 & Hd).
  rewrite Hl12 in *. rewrite placed_ids_middle, Hcb in Hf. split; simpl; rewrite ?Hl12, ?Hd; try done.
  - intros id Hid. specialize (Ho id Hid). by rewrite placed_ids_middle, Hcb in Ho.
  - intros id Hid. specialize (Hc id Hid). by rewrite single_ids_middle, Hcb in Hc.
  - pose proof (heartbeats_nonneg l1). pose proof (heartbeats_nonneg l2).
    change (req :: l2) with ([req] ++ l2) in Hhb. rewrite !heartbeats_app in *. unfold heartbeats at 2 in Hhb. simpl in Hhb.
    unfold is_heartbeat in Hhb. rewrite Hcb in Hhb. destruct (heartbeat_in_flight_ g); lia.
Qed.

Lemma failure_kind_releases resp k : failure_kind resp = Some k -> releases_reservation k = true.
Proof.
  unfold failure_kind. destruct (_ || _); [by intros [= <-]|]. destruct (_ =? 429); [by intros [= <-]|].
  destruct (_ =? 503); [by intros [= <-]|]. destruct (_ =? 425); [by intros [= <-]|].
  destruct (_ || _); [by intros [= <-]|]. destruct (_ || _); [|done].
  destruct (_ || _); by intros [= <-].
Qed.

Lemma on_order_response_inv e id oid resp Y g :
  gw_inv [id] Y g -> gw_inv [] Y (on_order_response e id oid resp g) /\ keeps g (on_order_response e id oid resp g).
Proof.
  intros Hi. unfold on_order_response, order_reply. pose proof (record_outcome_view e resp g) as Hv.
  set (g1 := (record_outcome e resp g) <| correlation_ ::= delete id |>).
  assert (gw_inv [id] Y g1 /\ keeps g g1 /\ correlation_ g1 !! id = None) as (Hi1 & Hk1 & Hc1).
  { split_and!; [|eapply keeps_trans; [by apply view_keeps|by split]|simpl; by apply lookup_delete_eq].
    apply (gw_inv_view _ _ _ _ Hv) in Hi as [Hs Hpos Ho Hc Hf Hhb Hl Hm]. split; simpl; try done.
    intros id' [x Hx]. apply lookup_delete_Some in Hx as [_ Hx]. by apply Hc. }
  assert (forall k xoid g2, same_view g1 g2 -> releases_reservation k = true ->
    let g3 := publish_feedback_raw e (mkExecFeedback k id oid xoid (http_status resp)) g2 in
    gw_inv [] Y g3 /\ keeps g g3) as Hpub.
  { intros k xoid g2 Hv2 Hk g3. split.
    - apply publish_drop; [done| |by eapply gw_inv_view]. simpl. by rewrite (sv_corr _ _ Hv2).
    - eapply keeps_trans; [exact Hk1|]. eapply keeps_trans; [by apply view_keeps|apply publish_keeps']. }
  destruct (failure_kind resp) as [k|] eqn:Ek.
  - pose proof (failure_kind_releases _ _ Ek) as Hk.
    destruct (Hpub k ""%string g1 (same_view_refl _) Hk) as [? ?].
    split; [eapply gw_inv_view; [apply after_failure_view|done]|].
    eapply keeps_trans; [eassumption|apply view_keeps, after_failure_view].
  - destruct (parse_order_response _) as [r|]; [|exact (Hpub ExecFeedbackKind.ORDER_REJECTED _ g1 (same_view_refl _) eq_refl)]. case_match.
    + exact (Hpub ExecFeedbackKind.ORDER_ACCEPTED _ _ (register_order_view _ _) eq_refl).
    + exact (Hpub ExecFeedbackKind.ORDER_REJECTED _ g1 (same_view_refl _) eq_refl).
Qed.

Lemma batch_results_inv e resp entries items Y g :
  (forall x, x ∈ entries -> correlation_ g !! be_intent_id x = None) ->
  gw_inv (be_intent_id <$> entries) Y g ->
  gw_inv [] Y (batch_results e resp entries items g) /\ keeps g (batch_results e resp entries items g).
Proof.
  revert items g. induction entries as [|x entries IH]; intros items g Hc Hi; [done|]. cbn [batch_results].
  assert (exists fb g0, same_view g g0 /\ fb_intent_id fb = be_intent_id x /\ releases_reservation (fb_kind fb) = true /\
    batch_result e resp x (head items) g = publish_feedback_raw e fb g0) as (fb & g0 & Hv & Hid & Hk & ->).
  { unfold batch_result. destruct (head items) as [item|]; [case_match|].
    - eexists _, _. split; [apply register_order_view|]. split; [|split; [|reflexivity]]; done.
    - eexists _, _. split; [apply same_view_refl|]. split; [|split; [|reflexivity]]; done.
    - eexists _, _. split; [apply same_view_refl|]. split; [|split; [|reflexivity]]; done. }
  destruct (IH (tail items) (publish_feedback_raw e fb g0)) as [? Hk'].
  - intros y Hy. destruct (publish_keeps e fb g0) as (-> & _). rewrite (sv_corr _ _ Hv). apply Hc. by right.
  - apply publish_drop; [done|rewrite (sv_corr _ _ Hv), Hid; apply Hc; by left|rewrite Hid; by eapply gw_inv_view].
  - split; [done|]. eapply keeps_trans; [by apply view_keeps|]. eapply keeps_trans; [apply publish_keeps'|exact Hk'].
Qed.

Lemma on_batch_response_inv e entries resp Y g :
  (forall x, x ∈ entries -> correlation_ g !! be_intent_id x = None) ->
  gw_inv (be_intent_id <$> entries) Y g ->
  gw_inv [] Y (on_batch_order_response e entries resp g) /\ keeps g (on_batch_order_response e entries resp g).
Proof.
  intros Hc Hi. unfold on_batch_order_response. pose proof (record_outcome_view e resp g) as Hv.
  apply (gw_inv_view _ _ _ _ Hv) in Hi. set (g1 := record_outcome e resp g) in *.
  assert (forall x, x ∈ entries -> correlation_ g1 !! be_intent_id x = None) as Hc1.
  { intros x Hx. rewrite (sv_corr _ _ Hv). by apply Hc. }
  assert (forall k, releases_reservation k = true ->
    gw_inv [] Y (publish_entries e k (http_status resp) entries g1) /\ keeps g (publish_entries e k (http_status resp) entries g1)) as Hpub.
  { intros k Hk. destruct (publish_all_drop e (fun entry => publish_feedback_raw e
      (mkExecFeedback k (be_intent_id entry) (be_client_oid entry) "" (http_status resp))) be_intent_id entries [] Y g1)
      as [? ?]; [|done|by rewrite app_nil_r|].
    - intros x. eexists. split; [|split; [|intros g0; exists g0; by split]]; done.
    - split; [done|]. eapply keeps_trans; [by apply view_keeps|done]. }
  destruct (failure_kind resp) as [k|] eqn:Ek.
  - destruct (Hpub k) as [? ?]; [by eapply failure_kind_releases|].
    split; [eapply gw_inv_view; [apply after_failure_view|done]|].
    eapply keeps_trans; [eassumption|apply view_keeps, after_failure_view].
  - destruct (parse_batch_order_response _ _) as [items|]; [|by apply Hpub].
    destruct (batch_results_inv e resp entries items Y g1 Hc1 Hi) as [? ?].
    split; [done|]. eapply keeps_trans; [by apply view_keeps|done].
Qed.

Lemma on_cancel_response_inv e id oid xoid resp Y g :
  gw_inv [] Y g ->
  gw_inv [] Y (on_cancel_response e id oid xoid resp g) /\ keeps g (on_cancel_response e id oid xoid resp g).
Proof.
  intros Hi. unfold on_cancel_response, cancel_reply. case_match; [done|].
  set (g1 := if cancel_clients g >? 1 then _ else g).
  assert (same_view g g1) as Hv1 by (unfold g1; case_match; by split).
  pose proof (same_view_trans _ _ _ Hv1 (record_outcome_view e resp g1)) as Hv. set (g2 := record_outcome e resp g1) in *.
  assert (forall fb, gw_inv [] Y (publish_feedback_raw e fb g2) /\ keeps g (publish_feedback_raw e fb g2)) as Hpub.
  { intros fb. split; [apply publish_inv; by eapply gw_inv_view|]. eapply keeps_trans; [by apply view_keeps|apply publish_keeps']. }
  destruct (failure_kind resp) as [k|].
  - split; [eapply gw_inv_view; [apply after_failure_view|apply Hpub]|].
    eapply keeps_trans; [apply Hpub|apply view_keeps, after_failure_view].
  - destruct (parse_cancel_response _) as [r|]; [|apply Hpub]. destruct (cr_not_canceled r); [|apply Hpub].
    case_match; apply Hpub.
Qed.

Lemma on_heartbeat_response_inv e resp Y g :
  gw_inv [] Y (g <| heartbeat_in_flight_ := false |>) ->
  gw_inv [] Y (on_heartbeat_response e resp g) /\ keeps g (on_heartbeat_response e resp g).
Proof.
  intros Hi. unfold on_heartbeat_response.
  set (g0 := g <| heartbeat_in_flight_ := false |>) in *. pose proof (record_status_view e resp g0) as Hv.
  set (g1 := record_status e resp g0) in *. apply (gw_inv_view _ _ _ _ Hv) in Hi.
  assert (keeps g g1) as Hk1 by (eapply keeps_trans; [|by apply view_keeps]; by split).
  destruct (heartbeat_failure_inv e (http_status resp) Y g1 Hi) as [Hif Hkf].
  assert (gw_inv [] Y (heartbeat_failure e (http_status resp) g1) /\ keeps g (heartbeat_failure e (http_status resp) g1)) as Hfail
    by (split; [done|by eapply keeps_trans]).
  assert (forall g2, same_view g1 g2 -> gw_inv [] Y (check_degraded_transition e g2) /\ keeps g (check_degraded_transition e g2)) as Hchk.
  { intros g2 Hv2. pose proof (same_view_trans _ _ _ Hv2 (check_degraded_view e g2)) as Hv3.
    split; [by eapply gw_inv_view|]. eapply keeps_trans; [exact Hk1|by apply view_keeps]. }
  destruct (_ || _); [done|]. destruct (_ || _).
  { split; [by eapply gw_inv_view; [apply set_fatal_view|]|]. eapply keeps_trans; [by apply Hfail|by split]. }
  destruct (_ =? 429); [by apply Hchk|].
  destruct (_ =? 425); [apply Hchk; case_match; [apply set_fatal_view|done]|].
  destruct (_ || _); [done|]. destruct (parse_heartbeat_response _) as [id|]; [|done]. destruct (negb _); [done|].
  set (g2 := g1 <| heartbeat_mgr_ ::= on_success id (env_now e) |> <| heartbeat_cancel_all_latched_ := false |>).
  assert (gw_inv [] Y g2) as Hi2.
  { destruct Hi as [Hs Hp Ho Hc Hf Hh Hl Hm]. split; try done. simpl. unfold should_cancel_all. simpl.
    destruct (cancel_all_on_failure _); [|done]. symmetry. rewrite Z.geb_leb. apply Z.leb_gt. exact Hm. }
  set (fb := mkExecFeedback ExecFeedbackKind.HEARTBEAT_OK 0 "" "" (http_status resp)).
  pose proof (same_view_trans _ _ _ (publish_quiet e fb g2 eq_refl) (check_degraded_view e (publish_feedback_raw e fb g2))) as Hv2.
  split; [by eapply gw_inv_view|]. eapply keeps_trans; [exact Hk1|]. eapply keeps_trans; [|by apply view_keeps]. by split.
Qed.

(** ** The poll cycle keeps the invariant *)
(** The orders among intents. *)
Definition orders (l : list ExecIntent) : list ExecIntent := filter (fun i => is_place_intent (xi_type i) = true) l.
Definition no_heartbeat (l : list ExecIntent) : Prop := Forall (fun i => xi_type i <> ExecIntentType.HEARTBEAT) l.

Lemma process_intent_inv e intent Y g g' :
  xi_type intent <> ExecIntentType.HEARTBEAT -> sized (orders [intent]) ->
  gw_inv [] (ids (orders [intent]) ++ Y) g -> process_intent e intent g = Some g' -> gw_inv [] Y g' /\ keeps g g'.
Proof.
  intros Hnh Hsz Hi. unfold process_intent. destruct (try_acquire _ _ _) as [rl ok].
  set (g1 := g <| rate_limiter_ := rl |>). assert (same_view g g1) as Hv by (by split).
  apply (gw_inv_view _ _ _ _ Hv) in Hi. assert (keeps g g1) as Hk by (by apply view_keeps).
  assert (gw_inv [] Y g1) as HiY.
  { eapply gw_inv_weaken; [|exact Hi]. exists (ids (orders [intent])). solve_Permutation. }
  assert (forall g2, gw_inv [] Y g2 /\ keeps g1 g2 -> gw_inv [] Y g2 /\ keeps g g2) as Hdone.
  { intros g2 [? ?]. split; [done|by eapply keeps_trans]. }
  assert (is_place_intent (xi_type intent) = true -> send_place_order e intent g1 = Some g' -> gw_inv [] Y g' /\ keeps g g') as Hplace.
  { intros Hp Hsend. unfold orders in *. rewrite filter_cons_True, filter_nil in Hi, Hsz by done.
    apply Forall_cons in Hsz as [Hsz _]. apply Hdone. by eapply send_place_order_inv. }
  destruct (negb ok).
  { intros [= <-]. apply Hdone. split; [by apply publish_inv|apply publish_keeps']. }
  unfold is_place_intent in Hplace. destruct (xi_type intent); try done; try (by apply Hplace); intros [= <-].
  - apply Hdone. by apply send_cancel_order_inv.
  - apply Hdone. by apply send_cancel_all_inv.
Qed.

Lemma accept_intent_inv e intent Y g g' :
  xi_type intent <> ExecIntentType.HEARTBEAT -> sized (orders [intent]) -> sized (batch_buf_ g) ->
  gw_inv [] (ids (batch_buf_ g) ++ ids (orders [intent]) ++ Y) g -> accept_intent e intent g = Some g' ->
  gw_inv [] (ids (batch_buf_ g') ++ Y) g' /\ sized (batch_buf_ g') /\ intent_queue_ g' = intent_queue_ g.
Proof.
  intros Hnh Hsz Hbuf Hi. unfold accept_intent. destruct (batch_orders_enabled _ && _) eqn:Eb.
  2: { intros Hp. destruct (process_intent_inv e intent (ids (batch_buf_ g) ++ Y) g g' Hnh Hsz) as [Hi' (Hb & _ & Hq)]; [|done|].
       - eapply gw_inv_weaken; [|exact Hi]. exists []. solve_Permutation.
       - by rewrite Hb. }
  apply andb_true_iff in Eb as [_ Ep].
  assert (orders [intent] = [intent]) as Ho by (unfold orders; by rewrite filter_cons_True, filter_nil).
  rewrite Ho in *. destruct (try_acquire _ _ _) as [rl ok].
  set (g1 := g <| rate_limiter_ := rl |>). assert (same_view g g1) as Hv by (by split).
  apply (gw_inv_view _ _ _ _ Hv) in Hi.
  destruct (negb ok).
  { intros [= <-]. unfold throttled, publish_feedback. destruct (publish_keeps e
      (mkExecFeedback ExecFeedbackKind.RATE_LIMITED (xi_intent_id intent) (xi_client_order_id intent) "" 0) g1) as (_ & -> & _ & -> & _).
    split_and!; try done. apply publish_inv. eapply gw_inv_weaken; [|exact Hi]. exists [xi_intent_id intent]. simpl. solve_Permutation. }
  set (g2 := g1 <| batch_buf_ ::= fun l => l ++ [intent] |>).
  assert (gw_inv [] (ids (batch_buf_ g2) ++ Y) g2) as Hi2.
  { simpl. rewrite fmap_app, <- app_assoc. destruct Hi. by split. }
  assert (sized (batch_buf_ g2)) as Hs2 by (simpl; by apply Forall_app).
  destruct (_ >=? _); [|by intros [= <-]].
  intros Hfl. destruct (flush_inv e Y g2 g' Hs2 Hi2 Hfl) as (Hi' & -> & _ & Hq). split_and!; [done|constructor|by rewrite Hq].
Qed.

Lemma poll_loop_inv e n g g' :
  no_heartbeat (take n (contents (intent_queue_ g))) -> sized (orders (take n (contents (intent_queue_ g)))) ->
  sized (batch_buf_ g) -> gw_inv [] (ids (batch_buf_ g) ++ ids (orders (take n (contents (intent_queue_ g))))) g ->
  poll_loop e n g = Some g' -> gw_inv [] (ids (batch_buf_ g')) g' /\ sized (batch_buf_ g').
Proof.
  revert g. induction n as [|n IH]; intros g Hnh Hsz Hbuf Hi; cbn [poll_loop].
  { intros [= <-]. split; [|done]. simpl in Hi. by rewrite app_nil_r in Hi. }
  destruct (front (intent_queue_ g)) as [intent|] eqn:Ef.
  2: { intros [= <-]. split; [|done]. eapply gw_inv_weaken; [|exact Hi].
       exists (ids (orders (take (S n) (contents (intent_queue_ g))))). done. }
  apply front_contents in Ef. rewrite Ef in *. cbn [take] in *.
  apply Forall_cons in Hnh as [Hnh1 Hnh]. change (intent :: ?l) with ([intent] ++ l) in Hsz, Hi.
  unfold orders in Hsz, Hi. rewrite filter_app in Hsz, Hi. fold (orders [intent]) in Hsz, Hi.
  fold (orders (take n (contents (pop (intent_queue_ g))))) in Hsz, Hi. apply Forall_app in Hsz as [Hsz1 Hsz].
  set (g1 := g <| intent_queue_ ::= pop |>).
  destruct (accept_intent e intent g1) as [g2|] eqn:Ea; [|done]. cbn.
  destruct (accept_intent_inv e intent (ids (orders (take n (contents (pop (intent_queue_ g)))))) g1 g2 Hnh1 Hsz1 Hbuf) as (Hi2 & Hb2 & Hq2);
    [|done|].
  - rewrite fmap_app in Hi. destruct Hi. by split.
  - apply IH; try done; rewrite Hq2; done.
Qed.

Lemma poll_inv e g g' :
  no_heartbeat (take kPollLimit (contents (intent_queue_ g))) -> sized (orders (take kPollLimit (contents (intent_queue_ g)))) ->
  batch_buf_ g = [] -> gw_inv [] (ids (orders (take kPollLimit (contents (intent_queue_ g))))) g ->
  poll_intents e g = Some g' -> gw_inv [] [] g' /\ batch_buf_ g' = [].
Proof.
  intros Hnh Hsz Hb Hi. unfold poll_intents. destruct (poll_loop e kPollLimit g) as [g1|] eqn:El; [|done]. cbn.
  destruct (poll_loop_inv e kPollLimit g g1 Hnh Hsz) as [Hi1 Hs1]; [by rewrite Hb; constructor|by rewrite Hb|done|].
  destruct (batch_buf_ g1) as [|i l] eqn:Eb.
  - intros [= <-]. by rewrite Eb.
  - intros Hfl. rewrite <- Eb in *. destruct (flush_inv e [] g1 g' Hs1) as (? & ? & _); [by rewrite app_nil_r|done|done].
Qed.

(** ** Runs of the gateway *)

(** What the strategy thread puts into the queue: orders with positive sizes and
    identifiers that are not in use, and no heartbeats. *)
Definition intents_ok g : Prop :=
  let l := take kPollLimit (contents (intent_queue_ g)) in
  no_heartbeat l /\ sized (orders l) /\ NoDup (placed_ids (pending_ g) ++ ids (orders l)).

(** The poll timer, the heartbeat timer and a response of the exchange; the other
    threads add intents, consume feedback and move the inventory. *)
Inductive gw_step : Gateway -> Gateway -> Prop :=
  | StepPoll e g g' : intents_ok g -> poll_intents e g = Some g' -> gw_step g g'
  | StepHeartbeat e g : gw_step g (check_heartbeat e g)
  | StepResponse e i resp g : gw_step g (respond e i resp g)
  | StepIntents q g : gw_step g (g <| intent_queue_ := q |>)
  | StepFeedback q g : gw_step g (g <| feedback_queue_ := q |>)
  | StepInventory inv g : gw_step g (g <| inventory_view_ := inv |>).

Lemma respond_inv e i resp g : gw_inv [] [] g -> gw_inv [] [] (respond e i resp g) /\ keeps g (respond e i resp g).
Proof.
  intros Hi. unfold respond. destruct (pending_ g !! i) as [req|] eqn:Ep; [|by split; [|apply keeps_refl]].
  assert (keeps g (g <| pending_ ::= delete i |>)) as Hk by (by split).
  assert (forall g2, gw_inv [] [] g2 /\ keeps (g <| pending_ ::= delete i |>) g2 -> gw_inv [] [] g2 /\ keeps g g2) as Hdone.
  { intros g2 [? ?]. split; [done|by eapply keeps_trans]. }
  destruct (is_heartbeat req) eqn:Eh.
  - pose proof (answer_heartbeat_inv [] i req g Ep) as Ha. unfold is_heartbeat in Eh.
    destruct (req_callback req); try done. cbn [run_callback]. apply Hdone, on_heartbeat_response_inv. by apply Ha.
  - destruct (answer_inv [] i req g Ep Eh Hi) as [Ha Hsg]. unfold is_heartbeat in Eh.
    destruct (req_callback req) as [id oid|entries|id oid xoid| |]; try done; cbn [run_callback placed_of single_of] in *.
    + by apply Hdone, on_order_response_inv.
    + apply Hdone, on_batch_response_inv; [|done]. intros x Hx. apply eq_None_not_Some. intros Hs.
      apply (not_elem_of_nil (be_intent_id x)), Hsg; [by apply list_elem_of_fmap_2|done].
    + by apply Hdone, on_cancel_response_inv.
Qed.

Lemma gw_step_inv g g' : gw_step g g' -> gw_inv [] [] g -> batch_buf_ g = [] -> gw_inv [] [] g' /\ batch_buf_ g' = [].
Proof.
  intros Hs Hi Hb. destruct Hs as [e g g' (Hnh & Hsz & Hnd) Hp|e g|e i resp g|q g|q g|inv g].
  - apply (poll_inv e g); [done|done|done| |done]. destruct Hi. split; try done.
  - destruct (check_heartbeat_inv e [] g Hi) as [? (-> & _)]. done.
  - destruct (respond_inv e i resp g Hi) as [? (-> & _)]. done.
  - split; [|done]. destruct Hi. by split.
  - split; [|done]. eapply gw_inv_view; [|exact Hi]. by split.
  - split; [|done]. eapply gw_inv_view; [|exact Hi]. by split.
Qed.

Lemma gw_run_inv g g' : rtc gw_step g g' -> gw_inv [] [] g -> batch_buf_ g = [] -> gw_inv [] [] g' /\ batch_buf_ g' = [].
Proof.
  induction 1 as [|g1 g2 g3 Hs _ IH]; intros Hi Hb; [done|].
  destruct (gw_step_inv _ _ Hs Hi Hb) as [? ?]. by apply IH.
Qed.

Lemma gw_initial cfg rl hb ob iq fq fatal inv :
  0 < max_consecutive_failures hb -> gw_inv [] [] (Gateway_new cfg rl hb ob iq fq fatal inv).
Proof.
  intros Hm. split; try done; simpl.
  - intros id [x Hx]. done.
  - intros id [x Hx]. done.
  - constructor.
  - unfold should_cancel_all. simpl. destruct (cancel_all_on_failure hb); [|done]. symmetry. rewrite Z.geb_leb. by apply Z.leb_gt.
Qed.


(** C18: the single-order path never sells what the inventory does not cover: a
    SELL is either refused, without a request, or sent with everything reserved
    for its token, itself included, within the position the gateway sees. *)
Theorem single_sell_covered e intent g g' inv
    (Hask : xi_side intent = ASK) (Hinv : inventory_view_ g = Some inv)
    (Hsend : send_place_order e intent g = Some g') :
  pending_ g' = pending_ g \/
  (inflight g' (xi_asset_id intent) = inflight g (xi_asset_id intent) + xi_size intent /\
   inflight g' (xi_asset_id intent) <= position_for inv (xi_asset_id intent)).
Proof.
  revert Hsend. unfold send_place_order, check_inventory_for_intent, is_ask. rewrite Hinv, Hask. cbn [side_eqb available].
  replace (side_eqb ASK ASK) with true by reflexivity. cbn [andb].
  destruct (Z.ltb_spec (position_for inv (xi_asset_id intent) - inflight g (xi_asset_id intent)) (xi_size intent)) as [Hlt|Hge].
  { intros [= <-]. left. by destruct (publish_keeps e
      (mkExecFeedback ExecFeedbackKind.ORDER_REJECTED (xi_intent_id intent) (xi_client_order_id intent) "" 0) g) as (_ & _ & _ & _ & ?). }
  destruct (build _ _ _) as [[p|er]|]; [|intros [= <-]|done].
  - destruct (next_order_client _) as [conn g2] eqn:En. intros [= <-]. injection En as <- <-. right.
    set (g2 := correlate intent (env_now e) (register_order (op_predicted_exchange_oid p) (reserve intent g))).
    pose proof (publish_quiet e (mkExecFeedback ExecFeedbackKind.REQUEST_SENT (xi_intent_id intent) (xi_client_order_id intent) "" 0)
      g2 eq_refl) as [Eq _ _ _ _ _ _ _ _ _].
    assert (inflight_sell_qty_ g2 = inflight_sell_qty_ (reserve intent g)) as Eg2 by (unfold g2, correlate; by case_match).
    unfold inflight. simpl. unfold publish_feedback. fold g2. rewrite Eq, Eg2. simpl. rewrite lookup_insert_eq. simpl.
    unfold inflight in *. split; [done|]. simpl in Hge. lia.
  - left. by destruct (publish_keeps e
      (mkExecFeedback ExecFeedbackKind.ORDER_REJECTED (xi_intent_id intent) (xi_client_order_id intent) "" 0) (reserve intent g))
      as (_ & _ & _ & _ & ?).
Qed.

(** ** Delivery of feedback *)
#[local] Transparent publish_feedback_raw.

Definition feedback_of e (fb : ExecFeedback) : SchedulerEvent := from_exec_feedback (env_now e) fb.
Definition queued g : list SchedulerEvent := contents (feedback_queue_ g).
Definition room (n : nat) g : Prop := (length (queued g) + n <= capacity (feedback_queue_ g))%nat.

Lemma release_feedback id g :
  feedback_queue_ (release_reservation id g) = feedback_queue_ g /\ fatal_flag_ (release_reservation id g) = fatal_flag_ g /\
  feedback_overflow_count_ (release_reservation id g) = feedback_overflow_count_ g /\
  feedback_overflow_fatal_ (release_reservation id g) = feedback_overflow_fatal_ g.
Proof. unfold release_reservation. repeat case_match; done. Qed.
Lemma maybe_release_feedback fb g :
  feedback_queue_ (maybe_release fb g) = feedback_queue_ g /\ fatal_flag_ (maybe_release fb g) = fatal_flag_ g /\
  feedback_overflow_count_ (maybe_release fb g) = feedback_overflow_count_ g /\
  feedback_overflow_fatal_ (maybe_release fb g) = feedback_overflow_fatal_ g.
Proof. unfold maybe_release. case_match; [apply release_feedback|done]. Qed.

(** A push with room succeeds at the first attempt and appends the event. *)
Lemma try_push_appends {T} (x : T) (q : SpscQueue Q T) :
  (length (contents q) < capacity q)%nat ->
  exists q', try_push x q = (q', true) /\ contents q' = contents q ++ [x] /\ capacity q' = capacity q.
Proof.
  intros Hr. pose proof (try_push_room x q Hr) as Hok. pose proof (try_push_spec x q) as Hs.
  destruct (try_push x q) as [q' ok]. simpl in Hok. subst ok. destruct Hs as (? & Hs & _). exists q'. naive_solver.
Qed.

Lemma publish_room e fb g n : room (S n) g ->
  queued (publish_feedback_raw e fb g) = queued g ++ [feedback_of e fb] /\ room n (publish_feedback_raw e fb g).
Proof.
  unfold room, queued. intros Hr. unfold publish_feedback_raw. fold (maybe_release fb g).
  destruct (maybe_release_feedback fb g) as (Eq & _). set (g1 := maybe_release fb g) in *. rewrite <- Eq in Hr |- *. clearbody g1.
  destruct (try_push_appends (feedback_of e fb) (feedback_queue_ g1)) as (q' & Hp & Hc & Hcap); [lia|].
  assert (critical_push e kCriticalSpinLimit 0 (feedback_of e fb) (feedback_queue_ g1) = (q', true)) as Hcp.
  { change kCriticalSpinLimit with (S (pred kCriticalSpinLimit)). cbn [critical_push]. by rewrite Hp. }
  unfold feedback_of in Hp, Hcp, Hc. rewrite Hp, Hcp.
  destruct (is_critical_feedback _); simpl; rewrite Hc, Hcap; (split; [done|rewrite length_app; simpl; lia]).
Qed.

(** A retried push that succeeds leaves the event last in the queue. *)
Lemma critical_push_last e n k ev q q' : critical_push e n k ev q = (q', true) -> last (contents q') = Some ev.
Proof.
  revert k q. induction n as [|n IH]; intros k q; cbn [critical_push]; [done|].
  pose proof (try_push_spec ev q) as Hs. destruct (try_push ev q) as [q1 []].
  - intros [= <-]. destruct Hs as (_ & Hs & _). destruct (Hs eq_refl) as [-> _]. apply last_snoc.
  - apply IH.
Qed.

Lemma publish_delivers e fb g b :
  fatal_flag_ g = Some b -> (feedback_overflow_fatal_ g = true -> b = true) ->
  let g' := publish_feedback_raw e fb g in
  (exists b', fatal_flag_ g' = Some b' /\ (b = true -> b' = true) /\ (feedback_overflow_fatal_ g' = true -> b' = true)) /\
  (last (queued g') = Some (feedback_of e fb) \/
   feedback_overflow_count_ g' = feedback_overflow_count_ g + 1 /\
   (is_critical_feedback (fb_kind fb) = true \/ kFeedbackOverflowFatalThreshold <= feedback_overflow_count_ g' ->
    fatal_flag_ g' = Some true)).
Proof.
  intros Hb Hof. cbv zeta. unfold publish_feedback_raw, queued. fold (maybe_release fb g). fold (feedback_of e fb).
  destruct (maybe_release_feedback fb g) as (Eq & Ef & Ec & Eo). set (g1 := maybe_release fb g) in *. clearbody g1.
  rewrite <- Ef in Hb. rewrite <- Eo in Hof. rewrite <- Ec. destruct (is_critical_feedback _).
  - destruct (critical_push _ _ _ _ _) as [q []] eqn:Ep.
    + split; [by exists b|left]. by eapply critical_push_last.
    + unfold set_fatal. simpl. rewrite Hb. split; [by exists true|]. right. done.
  - pose proof (try_push_spec (feedback_of e fb) (feedback_queue_ g1)) as Hs.
    destruct (try_push _ _) as [q []].
    + split; [by exists b|left]. destruct Hs as (_ & Hs & _). destruct (Hs eq_refl) as [Hq _]. simpl. rewrite Hq. apply last_snoc.
    + unfold set_fatal. simpl. rewrite Hb. rewrite bool_decide_eq_true_2 by done.
      destruct (feedback_overflow_fatal_ g1) eqn:Eof; simpl.
      { rewrite (Hof eq_refl) in *. split; [by exists true|]. right. split; [lia|done]. }
      rewrite Z.geb_leb. destruct (Z.leb_spec kFeedbackOverflowFatalThreshold (Z.succ (feedback_overflow_count_ g1))); simpl; rewrite ?Hb.
      * split; [by exists true|]. right. done.
      * split; [exists b; split_and!; [done|done|congruence]|]. right. split; [lia|]. intros [?|?]; [done|lia].
Qed.
#[local] Opaque publish_feedback_raw.

(** Feedback is never lost silently.  Publishing puts the event at the end of
    the queue the strategy reads, or counts the loss; losing an outcome the
    strategy must see (a rejection, a timeout, an unavailable exchange) after the
    last retry, or the thousandth of any kind, raises the process's stop flag,
    which is never taken back. *)
Theorem feedback_not_lost e fb g b
    (Hb : fatal_flag_ g = Some b) (Hof : feedback_overflow_fatal_ g = true -> b = true) :
  let g' := publish_feedback_raw e fb g in
  (exists b', fatal_flag_ g' = Some b' /\ (b = true -> b' = true) /\ (feedback_overflow_fatal_ g' = true -> b' = true)) /\
  (last (queued g') = Some (feedback_of e fb) \/
   feedback_overflow_count_ g' = feedback_overflow_count_ g + 1 /\
   (is_critical_feedback (fb_kind fb) = true \/ kFeedbackOverflowFatalThreshold <= feedback_overflow_count_ g' ->
    fatal_flag_ g' = Some true)).
Proof. by apply publish_delivers. Qed.

(** *** The outcome of a batch, by index *)
Definition entry_feedback (resp : RestResponse) (items : list OrderResponse) (i : nat) (entry : BatchEntry) : ExecFeedback :=
  let reply k oid := mkExecFeedback k (be_intent_id entry) (be_client_oid entry) oid (http_status resp) in
  match items !! i with
  | Some item =>
      if or_success item && nonempty (or_order_id item)
      then reply ExecFeedbackKind.ORDER_ACCEPTED (mk_OrderId (or_order_id item))
      else reply ExecFeedbackKind.ORDER_REJECTED ""%string
  | None => reply ExecFeedbackKind.ORDER_REJECTED ""%string
  end.
Definition batch_outcomes (resp : RestResponse) (entries : list BatchEntry) : list ExecFeedback :=
  let all k := (fun x => mkExecFeedback k (be_intent_id x) (be_client_oid x) "" (http_status resp)) <$> entries in
  match failure_kind resp with
  | Some k => all k
  | None =>
      match parse_batch_order_response minify (resp_body resp) with
      | Err _ => all ExecFeedbackKind.ORDER_REJECTED
      | Value items => imap (entry_feedback resp items) entries
      end
  end.

Lemma publish_entries_queued e k status entries g n : room (length entries + n) g ->
  queued (publish_entries e k status entries g) = queued g ++ (feedback_of e <$>
    ((fun x => mkExecFeedback k (be_intent_id x) (be_client_oid x) "" status) <$> entries)).
Proof.
  revert g. induction entries as [|x entries IH]; intros g Hr; [by rewrite app_nil_r|].
  destruct (publish_room e (mkExecFeedback k (be_intent_id x) (be_client_oid x) "" status) g _ Hr) as [Hq Hr'].
  unfold publish_entries in *. cbn [foldl]. rewrite IH by done. rewrite Hq, <- app_assoc. done.
Qed.

Lemma batch_results_queued e resp entries items g n : room (length entries + n) g ->
  queued (batch_results e resp entries items g) = queued g ++ (feedback_of e <$> imap (entry_feedback resp items) entries).
Proof.
  revert items g. induction entries as [|x entries IH]; intros items g Hr; [by rewrite app_nil_r|]. cbn [batch_results].
  assert (exists g0, room (S (length entries + n)) g0 /\ queued g0 = queued g /\
    batch_result e resp x (head items) g = publish_feedback_raw e (entry_feedback resp items 0 x) g0) as (g0 & Hr0 & <- & ->).
  { unfold batch_result, entry_feedback. destruct items as [|item items]; [by exists g|]. cbn [head lookup list_lookup].
    case_match; [|by exists g]. by exists (register_order (mk_OrderId (or_order_id item)) g). }
  destruct (publish_room e (entry_feedback resp items 0 x) g0 _ Hr0) as [Hq Hr'].
  rewrite IH by done. rewrite Hq, <- app_assoc. cbn [imap fmap list_fmap app]. do 3 f_equal.
  apply imap_ext. intros i y _. unfold entry_feedback. by destruct items.
Qed.

Lemma record_outcome_queued e resp g n : room (S n) g -> exists pre,
  queued (record_outcome e resp g) = queued g ++ pre /\ (length pre <= 1)%nat /\
  Forall (fun ev => intent_ref_id ev = 0) pre /\ room n (record_outcome e resp g).
Proof.
  intros Hr. unfold record_outcome, check_degraded_transition.
  set (g1 := (record_status e resp g) <| rate_limiter_ ::= record_rtt (resp_latency_ns resp) |>).
  set (gd := g1 <| was_degraded_ := true |>). set (gr := g1 <| was_degraded_ := false |>).
  case_match; [|case_match].
  - destruct (publish_room e (ExecFeedback_of ExecFeedbackKind.GATEWAY_DEGRADED) gd n Hr) as [-> ?].
    eexists. split; [reflexivity|]. split_and!; [done|by repeat constructor|done].
  - destruct (publish_room e (ExecFeedback_of ExecFeedbackKind.GATEWAY_RECOVERED) gr n Hr) as [-> ?].
    eexists. split; [reflexivity|]. split_and!; [done|by repeat constructor|done].
  - exists []. rewrite app_nil_r. split_and!; [done|simpl; lia|constructor|]. unfold room, queued in *. simpl. lia.
Qed.

Lemma after_failure_queued resp g : queued (after_failure resp g) = queued g.
Proof. unfold after_failure. repeat case_match; done. Qed.

Lemma on_batch_queued e entries resp g : room (S (length entries)) g -> exists pre,
  queued (on_batch_order_response e entries resp g) =
    queued g ++ pre ++ (feedback_of e <$> batch_outcomes resp entries) /\
  (length pre <= 1)%nat /\ Forall (fun ev => intent_ref_id ev = 0) pre.
Proof.
  intros Hr. destruct (record_outcome_queued e resp g _ Hr) as (pre & Hq & Hl & Hp & Hr1). exists pre. split; [|done].
  rewrite <- (Nat.add_0_r (length entries)) in Hr1. rewrite app_assoc, <- Hq. unfold on_batch_order_response, batch_outcomes.
  destruct (failure_kind resp); [by rewrite after_failure_queued, (publish_entries_queued _ _ _ _ _ _ Hr1)|].
  destruct (parse_batch_order_response _ _); [by apply (batch_results_queued _ _ _ _ _ _ Hr1)|].
  by apply (publish_entries_queued _ _ _ _ _ _ Hr1).
Qed.

Lemma batch_outcomes_ids resp entries :
  fb_intent_id <$> batch_outcomes resp entries = be_intent_id <$> entries /\
  Forall (fun fb => releases_reservation (fb_kind fb) = true) (batch_outcomes resp entries).
Proof.
  assert (forall k, releases_reservation k = true ->
    let l := (fun x => mkExecFeedback k (be_intent_id x) (be_client_oid x) "" (http_status resp)) <$> entries in
    fb_intent_id <$> l = be_intent_id <$> entries /\ Forall (fun fb => releases_reservation (fb_kind fb) = true) l) as Hall.
  { intros k Hk l. unfold l. split; [by rewrite <- list_fmap_compose|]. by apply Forall_fmap, Forall_true. }
  unfold batch_outcomes. destruct (failure_kind resp) eqn:Ek; [by apply Hall, (failure_kind_releases resp)|].
  destruct (parse_batch_order_response _ _) as [items|]; [|by apply Hall]. split.
  - rewrite fmap_imap. apply list_eq. intros i. rewrite list_lookup_imap, list_lookup_fmap.
    destruct (entries !! i); [|done]. simpl. f_equal. unfold entry_feedback. repeat case_match; done.
  - apply Forall_lookup. intros i fb. rewrite list_lookup_imap. destruct (entries !! i); [|done]. simpl. intros [= <-].
    unfold entry_feedback. repeat case_match; done.
Qed.

(** C9: every order of a batch gets exactly one terminal outcome, in the order
    they were sent, whatever the exchange answers.  With room in the feedback queue
    for one event more than the batch has orders the strategy sees at most one change of the gateway's own health and then one
    event per order: the failure of the request for all of them, or for each the
    item at its index, accepted exactly when the item reports success with an
    identifier and rejected when the answer has no item for it. *)
Theorem batch_outcome_each e entries resp g
    (Hroom : room (S (length entries)) g) :
  exists pre,
    queued (on_batch_order_response e entries resp g) =
      queued g ++ pre ++ (feedback_of e <$> batch_outcomes resp entries) /\
    (length pre <= 1)%nat /\ Forall (fun ev => intent_ref_id ev = 0) pre /\
    fb_intent_id <$> batch_outcomes resp entries = be_intent_id <$> entries /\
    Forall (fun fb => releases_reservation (fb_kind fb) = true) (batch_outcomes resp entries).
Proof.
  destruct (on_batch_queued e entries resp g Hroom) as (pre & ? & ? & ?). exists pre.
  pose proof (batch_outcomes_ids resp entries) as [? ?]. done.
Qed.

(** ** Two behaviours the code does not intend *)

(** The batch path checks every SELL of a batch against the inventory before
    it reserves any of them, so that two SELLs that each fit but do not fit
    together are both sent: what is reserved for the token then exceeds the
    position (the single-order path refuses the second one). *)
Theorem batch_sells_uncovered e i1 i2 g inv b
    (Ha1 : xi_side i1 = ASK) (Ha2 : xi_side i2 = ASK) (Hsame : xi_asset_id i2 = xi_asset_id i1)
    (Hinv : inventory_view_ g = Some inv)
    (Hs1 : 0 < xi_size i1 <= position_for inv (xi_asset_id i1) - inflight g (xi_asset_id i1))
    (Hs2 : 0 < xi_size i2 <= position_for inv (xi_asset_id i1) - inflight g (xi_asset_id i1))
    (Hover : position_for inv (xi_asset_id i1) - inflight g (xi_asset_id i1) < xi_size i1 + xi_size i2)
    (Hbuild : build_batch (fun i => env_salt e (default 0 (xi_intent_id <$> [i1; i2] !! i))) (order_builder_ g) [i1; i2] =
              Some (Value b)) :
  exists g', send_place_order_batch e [i1; i2] g = Some g' /\
    placed_ids (pending_ g') = placed_ids (pending_ g) ++ [xi_intent_id i1; xi_intent_id i2] /\
    position_for inv (xi_asset_id i1) < inflight g' (xi_asset_id i1).
Proof.
  assert (filter_batch e [i1; i2] [] g = ([i1; i2], g)) as Hf.
  { cbn [filter_batch]. unfold check_inventory_for_intent, is_ask. rewrite Hinv, Ha1, Ha2, Hsame. cbn [available].
    rewrite Z.gtb_ltb. destruct (Z.ltb_spec (inflight g (xi_asset_id i1)) (position_for inv (xi_asset_id i1))); [|lia].
    replace (side_eqb ASK ASK) with true by reflexivity. cbn [andb].
    destruct (Z.ltb_spec (position_for inv (xi_asset_id i1) - inflight g (xi_asset_id i1)) (xi_size i1)); [lia|].
    destruct (Z.ltb_spec (position_for inv (xi_asset_id i1) - inflight g (xi_asset_id i1)) (xi_size i2)); [lia|]. done. }
  assert (bp_client_order_ids b = [xi_client_order_id i1; xi_client_order_id i2]) as Hoid.
  { pose proof Hbuild as Eb. unfold build_batch in Eb. destruct (_ || _); [done|]. inv_expect. simpl. by erewrite build_loop_lengths by eassumption. }
  unfold send_place_order_batch. rewrite Hf.
  set (gr := reserve_asks [i1; i2] g).
  assert (order_builder_ gr = order_builder_ g) as -> by (unfold gr, reserve_asks; cbn; repeat case_match; done).
  rewrite Hbuild. cbn [next_order_client].
  set (g2 := publish_all e ExecFeedbackKind.REQUEST_SENT [i1; i2]
         (foldl (fun g o => register_order o g) gr (bp_predicted_exchange_oids b))).
  assert (same_view gr g2) as Hv.
  { eapply same_view_trans; [apply register_all_view|by apply publish_all_quiet]. }
  assert (pending_ gr = pending_ g) as Hpe by (unfold gr, reserve_asks; cbn; repeat case_match; done).
  eexists. split; [reflexivity|]. split.
  - change (placed_ids (pending_ g2 ++ [mkRestRequest (OrderConn (order_pool_next_ g2 mod order_pool_size g2)) "POST" "/orders"
      (bp_json_body b) (CbBatch (zip_with mkBatchEntry (xi_intent_id <$> [i1; i2]) (bp_client_order_ids b)))]) =
      placed_ids (pending_ g) ++ [xi_intent_id i1; xi_intent_id i2]).
    by rewrite placed_ids_app, (sv_pending _ _ Hv), Hpe, Hoid.
  - unfold inflight at 1. cbn -[g2]. rewrite (sv_qty _ _ Hv). unfold gr, reserve_asks, is_ask. cbn [foldl].
    rewrite Ha1, Ha2. replace (side_eqb ASK ASK) with true by reflexivity. cbn [reserve].
    unfold reserve. cbn. unfold inflight. cbn. rewrite Hsame, !lookup_insert_eq. cbn. unfold inflight in *. cbn in *. lia.
Qed.

(** With several cancel connections the second answer to an identifier is dropped,
    and the cancel-all of a heartbeat failure always has identifier 0. *)
Lemma cancel_reply_ignored e id oid xoid resp g :
  cancel_clients g > 1 -> id ∈ cancel_responded_ g -> on_cancel_response e id oid xoid resp g = g.
Proof.
  intros Hc Hin. unfold on_cancel_response. rewrite Z.gtb_ltb. destruct (Z.ltb_spec 1 (cancel_clients g)); [|lia].
  by rewrite bool_decide_eq_true_2.
Qed.
End Gateway.

(** ** Witnesses *)
Definition empty_queue {T} (n : nat) : SpscQueue BoundedList T := mkSpscQueue (mkBoundedList [] n) 0 0 0.
Definition sample_env : Env (Q := BoundedList) := mkEnv 5 (fun x => x) (fun id => id) (fun _ q => q).
Definition sample_sell (id size : Z) : ExecIntent :=
  ExecIntent_default <| xi_asset_id := "1234567890"%string |> <| xi_side := ASK |> <| xi_intent_id := id |>
    <| xi_price := 5200 |> <| xi_size := size |>.
Definition sample_inventory : TokenInventory :=
  set_position "1234567890" 10000000 (register_token "1234567890" TokenInventory_new).
Definition sample_gateway (l : list ExecIntent) : Gateway (Q := BoundedList) :=
  Gateway_new (mkGatewayConfig false 5 1 1) RateLimitConfig_default (mkHeartbeatConfig 5000 3 true) sample_builder
    (mkSpscQueue (mkBoundedList l 16) 0 0 0) (empty_queue 16) (Some false) (Some sample_inventory).
Definition wire_parser : JsonParser := constant_parser JNull.
Definition sample_minify (_ : Json) : string := ""%string.


Lemma single_sell_covered_witness :
  exists g', send_place_order (H0 := toy_crypto) sample_env (sample_sell 7 6000000) (sample_gateway []) = Some g' /\
    inflight g' "1234567890" <= position_for sample_inventory "1234567890".
Proof.
  destruct (send_place_order (H0 := toy_crypto) sample_env (sample_sell 7 6000000) (sample_gateway [])) as [g'|] eqn:E;
    [|exfalso; revert E; vm_compute; discriminate].
  exists g'. split; [done|].
  destruct (single_sell_covered (H0 := toy_crypto) sample_env (sample_sell 7 6000000) (sample_gateway []) g' sample_inventory
    eq_refl eq_refl E) as [Hp|[_ Hle]]; [|exact Hle].
  exfalso. assert ((fun g => length (pending_ g)) <$> send_place_order (H0 := toy_crypto) sample_env (sample_sell 7 6000000)
    (sample_gateway []) = Some 1%nat) as Hv by (vm_compute; reflexivity).
  rewrite E in Hv. injection Hv as Hv. rewrite Hp in Hv. discriminate.
Defined.

Definition sample_entries : list BatchEntry := [mkBatchEntry 7 "a"%string; mkBatchEntry 8 "b"%string].
Definition sample_response : RestResponse := mkRestResponse false 429 3000 "".
Lemma batch_outcome_each_witness :
  exists pre, queued (on_batch_order_response (H := wire_parser) sample_minify sample_env sample_entries sample_response (sample_gateway [])) =
    pre ++ (feedback_of sample_env <$> batch_outcomes (H := wire_parser) sample_minify sample_response sample_entries) /\
    fb_kind <$> batch_outcomes (H := wire_parser) sample_minify sample_response sample_entries =
      [ExecFeedbackKind.RATE_LIMITED; ExecFeedbackKind.RATE_LIMITED].
Proof.
  destruct (batch_outcome_each (H := wire_parser) sample_minify sample_env sample_entries sample_response (sample_gateway []))
    as (pre & Hq & _); [unfold room; cbn; lia|].
  exists pre. split; [exact Hq|reflexivity].
Defined.

Lemma feedback_not_lost_witness :
  let fb := mkExecFeedback ExecFeedbackKind.TIMEOUT 7 "a" "" 0 in
  let g' := publish_feedback_raw sample_env fb (sample_gateway []) in
  last (queued g') = Some (feedback_of sample_env fb).
Proof.
  intros fb g'. destruct (feedback_not_lost sample_env fb (sample_gateway []) false eq_refl) as [_ [Hl|[Hc _]]];
    [discriminate|exact Hl|]. exfalso. revert Hc. vm_compute. discriminate.
Defined.

Lemma batch_sells_uncovered_witness :
  exists g', send_place_order_batch (H0 := toy_crypto) sample_env [sample_sell 7 6000000; sample_sell 8 6000000] (sample_gateway []) = Some g' /\
    position_for sample_inventory "1234567890" = 10000000 /\ inflight g' "1234567890" = 12000000.
Proof.
  destruct (build_batch (H := toy_crypto) (fun i => default 0 (xi_intent_id <$> [sample_sell 7 6000000; sample_sell 8 6000000] !! i))
    sample_builder [sample_sell 7 6000000; sample_sell 8 6000000]) as [[b|]|] eqn:E;
    [|exfalso; revert E; vm_compute; discriminate|exfalso; revert E; vm_compute; discriminate].
  destruct (batch_sells_uncovered (H0 := toy_crypto) sample_env (sample_sell 7 6000000) (sample_sell 8 6000000) (sample_gateway [])
    sample_inventory b eq_refl eq_refl eq_refl eq_refl ltac:(vm_compute; split; [reflexivity|discriminate])
    ltac:(vm_compute; split; [reflexivity|discriminate]) ltac:(vm_compute; reflexivity) E) as (g' & Hs & _ & _).
  exists g'. split; [exact Hs|]. split; [done|].
  assert ((fun g => inflight g "1234567890") <$> send_place_order_batch (H0 := toy_crypto) sample_env
    [sample_sell 7 6000000; sample_sell 8 6000000] (sample_gateway []) = Some 12000000) as Hv by (vm_compute; reflexivity).
  rewrite Hs in Hv. injection Hv as Hv. exact Hv.
Defined.
