(* ===== verification/Transport.v ===== *)
(** What the two clients of the exchange's REST interface share:
    [src/rest/rest_transport.h], [rest_types.h].

    A client is a single-threaded object driven by an event loop.  Its methods call
    each other and the callbacks of the requests, and a callback may send a request
    before it returns: the gateway's heartbeat callback sends a cancel-all on the same
    connection.  A method is therefore a function that returns the new state and the
    calls it goes on to make, in order; [run_calls] executes them with a stack.

    [RestTransport] is the contract of [IRestTransport]: along every run a request
    is answered once, or is still held by the client. *)
From Stdlib Require Import Ascii.
From S2P Require Import Prelude Types Events Auth Gateway.

(** ** Requests and callbacks *)
Record RestRequest := mkRestRequest {
  rr_method : HttpMethod;
  rr_path : string;
  rr_body : list ascii;
  rr_created_ts : Z }.

(** A callback, named by a number.  [cb_sends] is what it sends on the same client
    before it returns, given the response: at most one request, whose own callback
    sends nothing. *)
Record Callback := mkCallback {
  cb_id : nat;
  cb_sends : option (RestResponse -> option (RestRequest * L2Headers * nat)) }.
Definition plain (id : nat) : Callback := mkCallback id None.
Definition sends (cb : Callback) (resp : RestResponse) : option (RestRequest * L2Headers * nat) :=
  match cb_sends cb with Some f => f resp | None => None end.

(** [RestResponse] as it is before its fields are set. *)
Definition failed_response (timed_out : bool) (latency_ns : Z) : RestResponse := mkRestResponse timed_out 0 latency_ns "".

(** ** Reconnecting *)
(** The delay of the next attempt, and the following back-off; [draw] is the random
    number. *)
Definition reconnect_delay_ms (backoff draw : Z) : Z :=
  let delay_ms := backoff + draw in
  if delay_ms <? 1 then 1 else delay_ms.
Definition next_backoff_ms (backoff max_ms : Z) : Z := Z.min (backoff * 2) max_ms.
(** What the uniform distribution may draw. *)
Definition jitter_ok (backoff draw : Z) : Prop := - (backoff ÷ 4) <= draw <= backoff ÷ 4.
Definition kDnsCacheExpiryNs : Z := 300000000000.

Lemma reconnect_delay_bounds backoff draw : 4 <= backoff -> jitter_ok backoff draw ->
  3 * backoff <= 4 * reconnect_delay_ms backoff draw <= 5 * backoff.
Proof.
  unfold jitter_ok, reconnect_delay_ms. intros Hb Hd. rewrite Z.quot_div_nonneg in Hd by lia.
  pose proof (Z.mul_div_le backoff 4 ltac:(lia)). destruct (Z.ltb_spec (backoff + draw) 1); lia.
Qed.

(** ** Calls *)
Section Calls.
Context {F C : Type} (call : F -> C -> list F * C).

Fixpoint run_calls (fuel : nat) (k : list F) (c : C) : option C :=
  match k, fuel with
  | [], _ => Some c
  | _, O => None
  | f :: k, S fuel => let '(k', c') := call f c in run_calls fuel (k' ++ k) c'
  end.

Lemma run_calls_inv (P : list F -> C -> Prop) fuel k c c' :
  (forall f k c, P (f :: k) c -> let '(k', c') := call f c in P (k' ++ k) c') ->
  P k c -> run_calls fuel k c = Some c' -> P [] c'.
Proof.
  intros Hs. revert k c. induction fuel as [|fuel IH]; intros [|f k] c Hp E; cbn [run_calls] in E; try (by injection E as <-); [discriminate E|].
  specialize (Hs f k c Hp). destruct (call f c) as [k' c1]. exact (IH _ _ Hs E).
Qed.

(** Every call pays for those it makes. *)
Lemma run_calls_total (P : list F -> Prop) (mu : list F -> C -> nat) k c :
  (forall f k c, P (f :: k) -> let '(k', c') := call f c in P (k' ++ k) /\ (mu (k' ++ k) c' < mu (f :: k) c)%nat) -> P k -> is_Some (run_calls (mu k c) k c).
Proof.
  intros Hs. remember (mu k c) as n eqn:E. assert (mu k c <= n)%nat as Hn by lia. clear E. revert k c Hn.
  induction n as [|n IH]; intros [|f k] c Hn Hp; cbn [run_calls]; try (by eexists).
  - specialize (Hs f k c Hp). destruct (call f c). lia.
  - specialize (Hs f k c Hp). destruct (call f c) as [k' c'], Hs as [Hp' Hlt]. apply IH; [lia|done].
Qed.
End Calls.

(** ** The interface *)
(** [C] is the state of a client and [Ev] what can happen to it: a request, a
    shutdown, the completion of an operation. *)
Class RestTransport (C Ev : Type) := {
  transport_step : C -> Ev -> C;
  transport_new : C -> Prop;
  sent_ids : C -> list nat;        (* of the requests accepted or refused so far *)
  answered_ids : C -> list nat;    (* of the callbacks that were called *)
  held_ids : C -> list nat;        (* of the requests that wait for an answer *)
  transport_inv : C -> Prop;
  new_ok c : transport_new c -> transport_inv c;
  step_ok c i : transport_inv c -> transport_inv (transport_step c i);
  inv_conserves c : transport_inv c -> sent_ids c ≡ₚ answered_ids c ++ held_ids c }.

Section Transport.
Context `{T : RestTransport C Ev}.
Definition transport_run (c : C) (l : list Ev) : C := foldl transport_step c l.
Lemma run_conserves c l : transport_new c ->
  let c' := transport_run c l in sent_ids c' ≡ₚ answered_ids c' ++ held_ids c'.
Proof.
  cbv zeta. intros Hn%new_ok. apply inv_conserves. unfold transport_run. revert c Hn.
  induction l as [|i l IH]; intros c Hn; [done|]. by apply IH, step_ok.
Qed.
End Transport.
