(* ===== verification/RestClient.v ===== *)
(** The HTTP/1.1 client of the exchange's REST interface: [src/rest/rest_client.cpp].

    The client keeps one TLS connection, writes requests into it before the earlier
    ones are answered (pipelining) and gives the responses to the requests in the
    order they were written.  Every completion handler of the code is a function on
    [Client]; [step] completes one of the outstanding operations, sends a request or
    shuts the client down.  Streams are numbered: an operation on the connection carries
    the number of its stream, and a stream that was dropped is never used again.

    Of the network library: an operation completes with success only on the current
    stream, and once a stream was dropped its operations complete with an error,
    before any other operation completes with success (their handlers are queued when
    the stream is dropped); a timer ends with an error only when it is cancelled.  Resumption of TLS sessions is left out.  What is written,
    answered and received is recorded.

    Shown: every request is answered exactly once or still held, in the order and
    within the limit of the queue; the n-th response parsed from a stream answers the
    n-th request written into it, and is the stream's n-th as long as none was thrown
    away with the read buffer (which the code empties before every read); while the client holds a request some operation is
    outstanding.  And what is not so: a request that waits for a connection has no time
    limit, and one sent after the shutdown is never answered. *)
From Stdlib Require Import Ascii.
From S2P Require Import Prelude Types Price Events Auth Gateway Transport.

(** ** Decompression *)
(** The results of zlib's [inflate], called on a body with a buffer of
    [kInflateBuffer] bytes until it stops: the code and the bytes produced.  A call
    after the last makes no progress, which is an error. *)
Inductive InflateCode := Z_OK | Z_STREAM_END | Z_ERROR.
Class Zlib := inflate_calls : string -> option (list (InflateCode * string)).
Definition kInflateBuffer : nat := 16384.
Fixpoint inflate_loop (calls : list (InflateCode * string)) (out : string) : option string :=
  match calls with
  | [] | (Z_ERROR, _) :: _ => None
  | (Z_STREAM_END, b) :: _ => Some (out ++ b)%string
  | (Z_OK, b) :: calls =>
      if (String.length b =? kInflateBuffer)%nat then inflate_loop calls (out ++ b)%string else Some (out ++ b)%string
  end.
Definition gzip_decompress `{Zlib} (compressed : string) : option string :=
  calls ← inflate_calls compressed; inflate_loop calls ""%string.

(** ** State *)
Record RestClientConfig := mkRestClientConfig {
  host : string;
  request_timeout_ms : Z;
  max_pending_requests : nat;
  max_pipeline_depth : nat;
  reconnect_base_ms : Z;
  reconnect_max_ms : Z }.
Definition RestClientConfig_default : RestClientConfig := mkRestClientConfig "clob.polymarket.com" 5000 64 4 500 30000.

(** A request as it is written. *)
Record HttpRequest := mkHttpRequest {
  hq_verb : HttpMethod; hq_target : string; hq_fields : list (string * list ascii); hq_body : list ascii }.
Record HttpResponse := mkHttpResponse { hs_status : Z; hs_encoding : string; hs_body : string }.

Record PendingRequest := mkPendingRequest { pr_req : RestRequest; pr_headers : L2Headers; pr_cb : Callback }.
(** [if_stream]: where it was written. *)
Record InFlightRequest := mkInFlightRequest { if_cb : Callback; if_send_ts : Z; if_stream : nat }.

Inductive Op := OResolve | OReconnect | OConnect (sid : nat) | OHandshake (sid : nat) | OWrite (sid : nat) | ORead (sid : nat).
#[export] Instance Op_eq_dec : EqDecision Op.
Proof. solve_decision. Defined.

Record Client := mkClient {
  config : RestClientConfig;
  stream : option nat;
  reconnect_backoff_ms : Z;
  reconnect_timer_ms : Z;                     (* the delay it was last set to *)
  reconnect_scheduled : bool;
  shutdown_requested : bool;
  connected : bool;
  connecting : bool;
  pending_ : list PendingRequest;
  in_flight_ : list InFlightRequest;
  writing_ : bool;
  reading_ : bool;
  has_cached_endpoints_ : bool;
  dns_cached_at_ : Z;
  deadline_ms : option Z;                     (* of the stream, from when it was set *)
  buffer : nat * nat;                         (* whole responses behind the last one parsed: stream, how many *)
  next_stream : nat;
  outstanding : list Op;
  offered : list nat;                         (* the requests passed to [enqueue_request] *)
  accepted : list nat;                        (* those that entered the queue *)
  written : list (nat * nat * HttpRequest);   (* stream, request *)
  received : list (nat * nat * RestResponse); (* stream, the request its response was given to *)
  arrived : nat;                              (* responses of the present stream that were parsed or thrown away *)
  numbers : list (nat * nat);                 (* for each entry of [received]: stream, place of the response in it *)
  lost : list (nat * nat);                    (* responses that were thrown away *)
  answers : list (nat * RestResponse) }.
Definition Client_new (cfg : RestClientConfig) : Client :=
  mkClient cfg None (reconnect_base_ms cfg) 0 false false false false [] [] false false false 0 None (0, 0)%nat 0 [] [] [] [] [] 0 [] [] [].

(** The clock, the random draw and whether the library accepts the host's name. *)
Record NetEnv := mkNetEnv { ne_now : Z; ne_draw : Z; ne_sni_ok : bool }.
Implicit Types (c : Client) (e : NetEnv).

(** What a method goes on to call. *)
Inductive Call :=
  | CAnswer (cb : Callback) (resp : RestResponse)                              (* cb(resp) *)
  | CEnqueue (req : RestRequest) (headers : L2Headers) (cb : Callback)         (* enqueue_request *)
  | CTryWrite                                                                  (* try_write_next *)
  | CFailInFlight (timed_out : bool)                                           (* the loop of fail_in_flight *)
  | CFailPending                                                               (* the loop of fail_all *)
  | CFailed                                                                    (* the end of fail_all *)
  | CReconnect                                                                 (* the end of on_write_error, on_read_error *)
  | CNextRead.                                                                 (* on_response after its callback *)

(** ** Connecting *)
Definition launch (op : Op) c : Client := c <| outstanding ::= fun l => l ++ [op] |>.
Definition schedule_reconnect e c : Client :=
  if shutdown_requested c || reconnect_scheduled c then c else
  launch OReconnect (c <| reconnect_scheduled := true |> <| reconnect_timer_ms := reconnect_delay_ms (reconnect_backoff_ms c) (ne_draw e) |>
    <| reconnect_backoff_ms := next_backoff_ms (reconnect_backoff_ms c) (reconnect_max_ms (config c)) |>).
Definition reconnect_if_waiting e c : Client :=
  if negb (shutdown_requested c) && negb (bool_decide (pending_ c = [])) then schedule_reconnect e c else c.
Definition drop_connection c : Client :=
  c <| connected := false |> <| connecting := false |> <| writing_ := false |> <| reading_ := false |> <| stream := None |>.
Definition on_connect_error e c : Client := reconnect_if_waiting e (drop_connection c).
Definition on_resolve e c : Client :=
  let sid := next_stream c in
  let c := c <| stream := Some sid |> <| next_stream ::= S |> <| arrived := 0%nat |> in
  if negb (ne_sni_ok e) then on_connect_error e c else
  launch (OConnect sid) (c <| deadline_ms := Some 10000 |>).
Definition start_connect e c : Client :=
  if connecting c || connected c || shutdown_requested c then c else
  let c := c <| connecting := true |> in
  if has_cached_endpoints_ c then
    if ne_now e - dns_cached_at_ c >? kDnsCacheExpiryNs then launch OResolve (c <| has_cached_endpoints_ := false |>)
    else on_resolve e c
  else launch OResolve c.

(** ** Requests *)
Definition fail_all : list Call := [CFailInFlight false; CFailPending; CFailed].
Definition http_request (cfg : RestClientConfig) (req : RestRequest) (headers : L2Headers) : HttpRequest :=
  mkHttpRequest (rr_method req) (rr_path req)
    ([("Host"%string, txt (host cfg)); ("User-Agent"%string, txt "LiveTradingv2/1.0"); ("Connection"%string, txt "keep-alive");
      ("Accept"%string, txt "application/json")] ++
     match rr_method req with GET => [("Accept-Encoding"%string, txt "gzip")] | _ => [] end ++
     [("POLY_API_KEY"%string, txt (lh_api_key headers)); ("POLY_SIGNATURE"%string, lh_signature headers);
      ("POLY_TIMESTAMP"%string, lh_timestamp headers); ("POLY_PASSPHRASE"%string, txt (lh_passphrase headers));
      ("POLY_ADDRESS"%string, lh_address headers)] ++
     match rr_body req with [] => [] | _ => [("Content-Type"%string, txt "application/json")] end)
    (rr_body req).

Definition pipeline_depth (cfg : RestClientConfig) : nat := if (max_pipeline_depth cfg =? 0)%nat then 1 else max_pipeline_depth cfg.
(** A connected client has a stream ([connected_has_stream]). *)
Definition try_write_next e c : list Call * Client :=
  match pending_ c, stream c with
  | front :: rest, Some sid =>
      if writing_ c || negb (connected c) then ([], c) else
      if shutdown_requested c then (fail_all, c) else
      if (pipeline_depth (config c) <=? length (in_flight_ c))%nat then ([], c) else
      ([], launch (OWrite sid)
             (c <| writing_ := true |> <| pending_ := rest |>
                <| in_flight_ ::= fun l => l ++ [mkInFlightRequest (pr_cb front) (ne_now e) sid] |>
                <| written ::= fun w => w ++ [(sid, cb_id (pr_cb front), http_request (config c) (pr_req front) (pr_headers front))] |>
                <| deadline_ms := Some (request_timeout_ms (config c)) |>))
  | _, _ => ([], c)
  end.
Definition queue_full c : bool :=
  (0 <? max_pending_requests (config c))%nat && (max_pending_requests (config c) <=? length (pending_ c) + length (in_flight_ c))%nat.
Definition enqueue_request e (req : RestRequest) (headers : L2Headers) (cb : Callback) c : list Call * Client :=
  let c := c <| offered ::= fun l => l ++ [cb_id cb] |> in
  if queue_full c then ([CAnswer cb (failed_response false 0)], c) else
  let c := c <| pending_ ::= fun l => l ++ [mkPendingRequest req headers cb] |> <| accepted ::= fun l => l ++ [cb_id cb] |> in
  if negb (connected c) && negb (connecting c) && negb (reconnect_scheduled c) then ([], start_connect e c)
  else if connected c then ([CTryWrite], c) else ([], c).

(** ** Responses and failures *)
(** [buffer.clear()]: what the last read took from the connection behind its response
    is thrown away. *)
Definition clear_buffer (sid : nat) c : Client :=
  let ahead := if ((buffer c).1 =? sid)%nat then (buffer c).2 else 0%nat in
  c <| lost ::= fun l => l ++ ((fun k => (sid, arrived c + k)%nat) <$> seq 0 ahead) |> <| arrived ::= fun n => (n + ahead)%nat |>
    <| buffer := (sid, 0%nat) |>.
Definition do_read c : Client :=
  match in_flight_ c, stream c with
  | _ :: _, Some sid =>
      if reading_ c || negb (connected c) then c else
      launch (ORead sid) (clear_buffer sid (c <| reading_ := true |> <| deadline_ms := Some (request_timeout_ms (config c)) |>))
  | _, _ => c
  end.
Definition next_read c : Client :=
  match in_flight_ c with
  | _ :: _ => do_read c
  | [] => match stream c with Some _ => c <| deadline_ms := None |> | None => c end
  end.
Definition answer (cb : Callback) (resp : RestResponse) c : list Call * Client :=
  (match sends cb resp with Some (req, headers, id) => [CEnqueue req headers (plain id)] | None => [] end,
   c <| answers ::= fun l => l ++ [(cb_id cb, resp)] |>).
Definition fail_in_flight (timed_out : bool) c : list Call * Client :=
  match in_flight_ c with
  | [] => ([], c)
  | req :: rest => ([CAnswer (if_cb req) (failed_response timed_out 0); CFailInFlight timed_out], c <| in_flight_ := rest |>)
  end.
Definition fail_pending c : list Call * Client :=
  match pending_ c with
  | [] => ([], c)
  | front :: rest => ([CAnswer (pr_cb front) (failed_response false 0); CFailPending], c <| pending_ := rest |>)
  end.

Definition call e (f : Call) c : list Call * Client :=
  match f with
  | CAnswer cb resp => answer cb resp c
  | CEnqueue req headers cb => enqueue_request e req headers cb c
  | CTryWrite => try_write_next e c
  | CFailInFlight timed_out => fail_in_flight timed_out c
  | CFailPending => fail_pending c
  | CFailed => ([], c <| writing_ := false |> <| reading_ := false |>)
  | CReconnect => ([], reconnect_if_waiting e c)
  | CNextRead => ([], next_read c)
  end.

(** ** Completion handlers *)
Definition connect_step_failed e c : list Call * Client :=
  if shutdown_requested c then (fail_all, c <| connecting := false |>) else ([], on_connect_error e c).
Definition on_resolved e (ok : bool) c : list Call * Client :=
  if negb ok || shutdown_requested c then connect_step_failed e c else
  ([], on_resolve e (c <| has_cached_endpoints_ := true |> <| dns_cached_at_ := ne_now e |>)).
Definition on_tcp_connect (sid : nat) c : Client := launch (OHandshake sid) (c <| deadline_ms := Some 10000 |>).
Definition on_connected e (sid : nat) (ok : bool) c : list Call * Client :=
  if negb ok || shutdown_requested c then connect_step_failed e c else ([], on_tcp_connect sid c).
Definition on_handshake e (ok : bool) c : list Call * Client :=
  if negb ok || shutdown_requested c then connect_step_failed e c else
  ([CTryWrite], c <| deadline_ms := None |> <| connecting := false |> <| connected := true |>
                  <| reconnect_backoff_ms := reconnect_base_ms (config c) |>).
Definition on_reconnect_timer e (ok : bool) c : Client :=
  let c := c <| reconnect_scheduled := false |> in
  if negb ok || shutdown_requested c then c else start_connect e c.
Definition on_write_error (timeout : bool) c : list Call * Client := ([CFailInFlight timeout; CReconnect], drop_connection c).
Definition on_read_error (timeout : bool) c : list Call * Client := ([CFailInFlight timeout; CReconnect], drop_connection c).
Definition on_written (error : option bool) c : list Call * Client :=
  let c := c <| writing_ := false |> in
  match error with
  | Some timeout => on_write_error timeout c
  | None => ([CTryWrite], if negb (reading_ c) then do_read c else c)
  end.
Section Responses.
Context {ZL : Zlib}.
Definition rest_response e (res : HttpResponse) (req : InFlightRequest) : RestResponse :=
  let body := hs_body res in
  mkRestResponse false (hs_status res) (ne_now e - if_send_ts req)
    (if bool_decide (hs_encoding res = "gzip"%string) && nonempty body then default body (gzip_decompress body) else body).
(** The response is the next one of its connection; [ahead] whole ones behind it are in
    the buffer. *)
Definition on_response e (sid : nat) (res : HttpResponse) (ahead : nat) c : list Call * Client :=
  let c := c <| reading_ := false |> <| buffer := (sid, ahead) |> in
  let number := arrived c in
  match in_flight_ c with
  | [] => ([CTryWrite], c <| arrived ::= S |> <| lost ::= fun l => l ++ [(sid, number)] |>)
  | front :: rest =>
      ([CAnswer (if_cb front) (rest_response e res front); CNextRead; CTryWrite],
       c <| arrived ::= S |> <| numbers ::= fun l => l ++ [(sid, number)] |> <| in_flight_ := rest |>
         <| received ::= fun l => l ++ [(sid, cb_id (if_cb front), rest_response e res front)] |>)
  end.

(** The result of an operation; of an error whether it is the stream's time limit, of a
    read also how many whole responses it took from the connection beyond its own.  (A
    read that begins inside a response, part of which was thrown away, is an error.) *)
Inductive Result := ROk | RErr (timeout : bool) | RResponse (res : HttpResponse) (ahead : nat).
Definition complete e (op : Op) (r : Result) c : list Call * Client :=
  match op, r with
  | OResolve, ROk => on_resolved e true c
  | OResolve, RErr _ => on_resolved e false c
  | OReconnect, ROk => ([], on_reconnect_timer e true c)
  | OReconnect, RErr _ => ([], on_reconnect_timer e false c)
  | OConnect sid, ROk => on_connected e sid true c
  | OConnect sid, RErr _ => on_connected e sid false c
  | OHandshake _, ROk => on_handshake e true c
  | OHandshake _, RErr _ => on_handshake e false c
  | OWrite _, ROk => on_written None c
  | OWrite _, RErr timeout => on_written (Some timeout) c
  | ORead sid, RResponse res ahead => on_response e sid res ahead c
  | ORead _, RErr timeout => on_read_error timeout c
  | _, _ => ([], c)
  end.

Inductive Input :=
  | ISend (req : RestRequest) (headers : L2Headers) (cb : Callback)
  | IShutdown
  | IComplete (op : Op) (r : Result).

Definition stream_of (op : Op) : option nat :=
  match op with OResolve | OReconnect => None | OConnect sid | OHandshake sid | OWrite sid | ORead sid => Some sid end.
(** The stream of the operation was dropped. *)
Definition stale c (op : Op) : bool :=
  match stream_of op with Some sid => negb (bool_decide (stream c = Some sid)) | None => false end.
Definition result_fits (op : Op) (r : Result) : bool :=
  match op, r with
  | _, RErr _ => true
  | ORead _, RResponse _ _ => true
  | ORead _, _ => false
  | _, ROk => true
  | _, _ => false
  end.
Definition may_complete (op : Op) (r : Result) c : bool :=
  bool_decide (op ∈ outstanding c) && result_fits op r &&
  match r with RErr _ => negb (bool_decide (op = OReconnect)) || shutdown_requested c | _ => forallb (fun o => negb (stale c o)) (outstanding c) end.
Fixpoint remove_op (op : Op) (l : list Op) : list Op :=
  match l with
  | [] => []
  | x :: l => if bool_decide (x = op) then l else x :: remove_op op l
  end.

(** Enough fuel for the calls: each pays for those it makes. *)
Definition answer_weight (cb : Callback) : nat := match cb_sends cb with Some _ => 8 | None => 1 end.
Definition call_weight (f : Call) : nat :=
  match f with CAnswer cb _ => answer_weight cb | CEnqueue _ _ cb => answer_weight cb + 6 | CTryWrite => 4 | _ => 1 end.
Definition held c : list Callback := (if_cb <$> in_flight_ c) ++ (pr_cb <$> pending_ c).
Definition weight (k : list Call) c : nat :=
  sum_list_with call_weight k + sum_list_with (fun cb => S (answer_weight cb)) (held c).
Definition run_handler e (k : list Call * Client) : Client := default k.2 (run_calls (call e) (weight k.1 k.2) k.1 k.2).

Definition shutdown c : list Call * Client := (fail_all, c <| shutdown_requested := true |> <| reconnect_scheduled := false |>).
Definition step c (i : NetEnv * Input) : Client :=
  let '(e, i) := i in
  match i with
  | ISend req headers cb => run_handler e ([CEnqueue req headers cb], c)
  | IShutdown => run_handler e (shutdown c)
  | IComplete op r =>
      if may_complete op r c then run_handler e (complete e op r (c <| outstanding ::= remove_op op |>)) else c
  end.
Definition run c (l : list (NetEnv * Input)) : Client := foldl step c l.
End Responses.

(** ** The calls end *)
Lemma held_weight (l : list InFlightRequest) (p : list PendingRequest) :
  sum_list_with (fun cb => S (answer_weight cb)) ((if_cb <$> l) ++ (pr_cb <$> p)) =
  (sum_list_with (fun x => S (answer_weight (if_cb x))) l + sum_list_with (fun x => S (answer_weight (pr_cb x))) p)%nat.
Proof. rewrite sum_list_with_app. f_equal; [induction l as [|x l IH]|induction p as [|x p IH]]; cbn; [done|by rewrite IH|done|by rewrite IH]. Qed.
Lemma schedule_reconnect_held e c : held (schedule_reconnect e c) = held c.
Proof. unfold schedule_reconnect. by case_match. Qed.
Lemma reconnect_if_waiting_held e c : held (reconnect_if_waiting e c) = held c.
Proof. unfold reconnect_if_waiting. case_match; [apply schedule_reconnect_held|done]. Qed.
Lemma on_resolve_held e c : held (on_resolve e c) = held c.
Proof. unfold on_resolve. case_match; [unfold on_connect_error; by rewrite reconnect_if_waiting_held|done]. Qed.
Lemma start_connect_held e c : held (start_connect e c) = held c.
Proof. unfold start_connect. repeat case_match; try done. by rewrite on_resolve_held. Qed.
Lemma next_read_held c : held (next_read c) = held c.
Proof. unfold next_read, do_read, held, launch. destruct (in_flight_ c) eqn:E, (stream c); repeat case_match; cbn; by rewrite ?E. Qed.

Lemma call_pays e f k c : let '(k', c') := call e f c in (weight (k' ++ k) c' < weight (f :: k) c)%nat.
Proof.
  unfold weight. destruct f as [cb resp|req headers cb| |t| | | |]; cbn [call sum_list_with foldr call_weight].
  - unfold answer, sends, answer_weight. change (held (c <| answers ::= _ |>)) with (held c). destruct (cb_sends cb) as [f|]; [|cbn; lia].
    destruct (f resp) as [[[req headers] id]|]; cbn; lia.
  - unfold enqueue_request. set (c1 := c <| offered ::= _ |>). assert (held c1 = held c) as E by done. clearbody c1. destruct (queue_full c1); [cbn; rewrite E; lia|].
    set (c2 := c1 <| pending_ ::= _ |> <| accepted ::= _ |>).
    assert (sum_list_with (fun cb => S (answer_weight cb)) (held c2) = sum_list_with (fun cb => S (answer_weight cb)) (held c) + S (answer_weight cb))%nat as E2.
    { rewrite <- E. unfold held, c2. cbn. rewrite fmap_app, !sum_list_with_app. cbn. lia. }
    clearbody c2. destruct (_ && negb (reconnect_scheduled c2)); [cbv beta iota; rewrite start_connect_held; cbn; lia|]. destruct (connected c2); cbn; lia.
  - unfold try_write_next. destruct (pending_ c) as [|front rest] eqn:Ep; [cbn; lia|]. destruct (stream c); [|cbn; lia].
    destruct (writing_ c || _); [cbn; lia|]. destruct (shutdown_requested c); [cbn; lia|]. destruct (_ <=? _)%nat; [cbn; lia|].
    unfold held. cbn. rewrite Ep, !held_weight, sum_list_with_app. cbn. lia.
  - unfold fail_in_flight, held. destruct (in_flight_ c) as [|x l] eqn:E; cbn; rewrite ?E; cbn; lia.
  - unfold fail_pending, held. destruct (pending_ c) as [|x l] eqn:E; cbn; rewrite ?E, !sum_list_with_app; cbn; lia.
  - unfold held. cbn. lia.
  - rewrite reconnect_if_waiting_held. cbn. lia.
  - rewrite next_read_held. cbn. lia.
Qed.
(** So the handlers run to their end. *)
Lemma run_handler_calls e k c : run_calls (call e) (weight k c) k c = Some (run_handler e (k, c)).
Proof.
  unfold run_handler. cbn [fst snd]. destruct (run_calls_total (call e) (fun _ => True) weight k c) as [c' ->]; [|done..].
  intros f k' c' _. pose proof (call_pays e f k' c') as Hp. by destruct (call e f c').
Qed.
Lemma run_handler_inv e (P : list Call -> Client -> Prop) k c :
  (forall f k c, P (f :: k) c -> let '(k', c') := call e f c in P (k' ++ k) c') -> P k c -> P [] (run_handler e (k, c)).
Proof. intros Hs Hp. exact (run_calls_inv (call e) P _ k c _ Hs Hp (run_handler_calls e k c)). Qed.

(** ** What connecting leaves alone *)
Record same_requests c c' : Prop := {
  sr_pending : pending_ c' = pending_ c;
  sr_in_flight : in_flight_ c' = in_flight_ c;
  sr_config : config c' = config c;
  sr_shutdown : shutdown_requested c' = shutdown_requested c;
  sr_offered : offered c' = offered c;
  sr_accepted : accepted c' = accepted c;
  sr_written : written c' = written c;
  sr_received : received c' = received c;
  sr_answers : answers c' = answers c }.
#[export] Instance same_requests_refl : Reflexive same_requests.
Proof. by intros c. Qed.
Lemma schedule_reconnect_same e c : same_requests c (schedule_reconnect e c).
Proof. unfold schedule_reconnect. by case_match. Qed.
Lemma reconnect_if_waiting_same e c : same_requests c (reconnect_if_waiting e c).
Proof. unfold reconnect_if_waiting. case_match; [apply schedule_reconnect_same|done]. Qed.
Lemma on_connect_error_same e c : same_requests c (on_connect_error e c).
Proof. unfold on_connect_error. destruct (reconnect_if_waiting_same e (drop_connection c)). by split. Qed.
Lemma on_resolve_same e c : same_requests c (on_resolve e c).
Proof.
  unfold on_resolve. case_match; [|done]. by destruct (on_connect_error_same e (c <| stream := Some (next_stream c) |> <| next_stream ::= S |> <| arrived := 0%nat |>)).
Qed.
Lemma start_connect_same e c : same_requests c (start_connect e c).
Proof.
  unfold start_connect. destruct (_ || _); [done|]. set (c1 := c <| connecting := true |>). destruct (has_cached_endpoints_ c1); [|done].
  destruct (_ >? _); [done|]. by destruct (on_resolve_same e c1).
Qed.
Lemma next_read_same c : same_requests c (next_read c).
Proof. unfold next_read, do_read. destruct (in_flight_ c), (stream c); try done. by case_match. Qed.
#[export] Hint Resolve schedule_reconnect_same reconnect_if_waiting_same on_connect_error_same on_resolve_same start_connect_same next_read_same : trading.

(** ** Every request is answered once *)
Definition call_ids (k : list Call) : list nat := concat ((fun f => match f with CAnswer cb _ => [cb_id cb] | _ => [] end) <$> k).
Definition held_requests c : list nat := cb_id <$> held c.
Definition written_ids c : list nat := (fun w => w.1.2) <$> written c.
Definition pending_ids c : list nat := (fun p => cb_id (pr_cb p)) <$> pending_ c.
(** The calls of [fail_all] past its first loop. *)
Definition shuts (k : list Call) : bool := existsb (fun f => match f with CFailPending | CFailed => true | _ => false end) k.

Record counted (k : list Call) c : Prop := {
  ct_ids : offered c ≡ₚ (fst <$> answers c) ++ held_requests c ++ call_ids k;
  ct_order : shutdown_requested c = false -> shuts k = false /\ written_ids c ++ pending_ids c = accepted c;
  ct_bound : (0 < max_pending_requests (config c))%nat -> (length (pending_ c) + length (in_flight_ c) <= max_pending_requests (config c))%nat }.
Lemma counted_same k c c' : same_requests c c' -> counted k c -> counted k c'.
Proof.
  intros [Hp Hi Hc Hs Ho Ha Hw Hr Hn] [Hids Hord Hb]. unfold held_requests, held, written_ids, pending_ids in *.
  split; unfold held_requests, held, written_ids, pending_ids; by rewrite ?Hp, ?Hi, ?Hc, ?Hs, ?Ho, ?Ha, ?Hw, ?Hn.
Qed.
Lemma counted_pop f k c : call_ids [f] = [] -> counted (f :: k) c -> counted k c.
Proof.
  intros Hf [Hids Hord Hb]. split; [|intros Hs; destruct (Hord Hs) as [Hk ?]; split; [|done]; by apply orb_false_iff in Hk as [_ ?]|done].
  by destruct f; try discriminate Hf.
Qed.

Lemma call_counted e f k c : counted (f :: k) c -> let '(k', c') := call e f c in counted (k' ++ k) c'.
Proof.
  destruct f as [cb resp|req headers cb| |t| | | |]; cbn [call]; intros H.
  - destruct H as [Hids Hord Hb]. unfold answer. split; [|by destruct (sends cb resp) as [[[? ?] ?]|]|done].
    assert (forall l, call_ids (match sends cb resp with Some (req, headers, id) => [CEnqueue req headers (plain id)] | None => [] end ++ l) = call_ids l) as ->
      by (by destruct (sends cb resp) as [[[? ?] ?]|]).
    rewrite Hids. cbn. rewrite fmap_app. cbn. solve_Permutation.
  - apply counted_pop in H; [|done]. destruct H as [Hids Hord Hb]. unfold enqueue_request.
    set (c1 := c <| offered ::= _ |>). destruct (queue_full c1) eqn:Ef.
    { split; [|done..]. cbn. rewrite Hids. solve_Permutation. }
    set (c2 := c1 <| pending_ ::= _ |> <| accepted ::= _ |>).
    assert (counted k c2) as H2.
    { split.
      - cbn. rewrite Hids. unfold held_requests, held. cbn. rewrite !fmap_app. cbn. solve_Permutation.
      - intros Hs. destruct (Hord Hs) as [? Ho]. split; [done|]. cbn. rewrite <- Ho. unfold written_ids, pending_ids. cbn. by rewrite fmap_app, app_assoc.
      - cbn. intros Hm. unfold queue_full in Ef. rewrite length_app. cbn.
        apply andb_false_iff in Ef as [Ef%Nat.ltb_ge|Ef%Nat.leb_gt]; cbn in Ef; lia. }
    clearbody c2. destruct (_ && negb (reconnect_scheduled c2)); [eapply counted_same; [apply start_connect_same|done]|].
    destruct (connected c2); [|done]. destruct H2. by split.
  - apply counted_pop in H; [|done]. unfold try_write_next. destruct (pending_ c) as [|front rest] eqn:Ep; [done|]. destruct (stream c) as [sid|]; [|done].
    destruct (writing_ c || _); [done|]. destruct H as [Hids Hord Hb]. destruct (shutdown_requested c) eqn:Es.
    { split; [done|by rewrite Es|done]. }
    destruct (_ <=? _)%nat; [by split; rewrite ?Es|]. split.
    + cbn. rewrite Hids. unfold held_requests, held. cbn. rewrite Ep, !fmap_app. cbn. solve_Permutation.
    + intros _. destruct (Hord eq_refl) as [? Ho]. split; [done|]. cbn. rewrite <- Ho. unfold written_ids, pending_ids. cbn.
      rewrite Ep, fmap_app, <- app_assoc. done.
    + cbn. intros Hm. specialize (Hb Hm). rewrite Ep in Hb. rewrite length_app. cbn in *. lia.
  - destruct H as [Hids Hord Hb]. unfold fail_in_flight. destruct (in_flight_ c) as [|x l] eqn:E; split; cbn in *; rewrite ?E in *; try done.
    + rewrite Hids. unfold held_requests, held. cbn. rewrite E. cbn. solve_Permutation.
    + intros Hm. specialize (Hb Hm). lia.
  - destruct H as [Hids Hord Hb]. unfold fail_pending. destruct (pending_ c) as [|x l] eqn:E; split; cbn in *; rewrite ?E in *; try done.
    + intros Hs. by destruct (Hord Hs).
    + rewrite Hids. unfold held_requests, held. cbn. rewrite E, !fmap_app. cbn. solve_Permutation.
    + intros Hs. by destruct (Hord Hs).
    + intros Hm. specialize (Hb Hm). lia.
  - apply counted_pop in H; [|done]. by destruct H.
  - apply counted_pop in H; [|done]. eapply counted_same; [apply reconnect_if_waiting_same|done].
  - apply counted_pop in H; [|done]. eapply counted_same; [apply next_read_same|done].
Qed.

Lemma drop_connection_same c : same_requests c (drop_connection c).
Proof. done. Qed.
Lemma counted_calls k c : counted [] c -> call_ids k = [] -> (shutdown_requested c = false -> shuts k = false) -> counted k c.
Proof. intros [Hids Hord Hb] Hk Hs. split; [by rewrite Hk|intros E; destruct (Hord E); auto|done]. Qed.
Lemma connect_step_failed_counted e c : counted [] c -> let '(k, c') := connect_step_failed e c in counted k c'.
Proof.
  intros H. unfold connect_step_failed. destruct (shutdown_requested c) eqn:Es.
  - apply counted_calls; [by destruct H|done|]. cbn. by rewrite Es.
  - eapply counted_same; [apply on_connect_error_same|done].
Qed.
Lemma do_read_same c : same_requests c (do_read c).
Proof. unfold do_read. destruct (in_flight_ c), (stream c); try done. by case_match. Qed.

Section Runs.
Context {ZL : Zlib}.
Lemma complete_counted e op r c : counted [] c -> let '(k, c') := complete e op r c in counted k c'.
Proof.
  intros H. destruct op as [| |sid|sid|sid|sid], r as [|t|res]; cbn [complete]; try done.
  - unfold on_resolved. destruct (_ || _); [by apply connect_step_failed_counted|].
    destruct (on_resolve_same e (c <| has_cached_endpoints_ := true |> <| dns_cached_at_ := ne_now e |>)). eapply counted_same; [|exact H]. by split.
  - by apply connect_step_failed_counted.
  - unfold on_reconnect_timer. destruct (_ || _); [by destruct H|]. eapply counted_same; [|exact H].
    by destruct (start_connect_same e (c <| reconnect_scheduled := false |>)).
  - by destruct H.
  - unfold on_connected. destruct (_ || _); [by apply connect_step_failed_counted|by destruct H].
  - by apply connect_step_failed_counted.
  - unfold on_handshake. destruct (_ || _); [by apply connect_step_failed_counted|]. by apply counted_calls; [destruct H|..].
  - by apply connect_step_failed_counted.
  - unfold on_written. apply counted_calls; [|done..]. destruct (negb _); [|by destruct H]. eapply counted_same; [apply do_read_same|by destruct H].
  - by apply counted_calls; [destruct H|..].
  - by apply counted_calls; [destruct H|..].
  - unfold on_response. cbn. destruct (in_flight_ c) as [|front rest] eqn:E; [apply counted_calls; [by destruct H|done..]|]. destruct H as [Hids Hord Hb].
    split; cbn in *; [|done|rewrite E in Hb; cbn in Hb; intros Hm; specialize (Hb Hm); lia].
    rewrite Hids. unfold held_requests, held. cbn. rewrite E. cbn. solve_Permutation.
Qed.
Lemma handler_counted e k : counted k.1 k.2 -> counted [] (run_handler e k).
Proof. destruct k as [k c]. intros H. apply (run_handler_inv e counted); [|done]. intros f k' c'. apply call_counted. Qed.
Lemma step_counted i c : counted [] c -> counted [] (step c i).
Proof.
  intros H. destruct i as [e [req headers cb| |op r]]; cbn [step].
  - apply handler_counted. by apply counted_calls.
  - apply handler_counted. apply counted_calls; [|done..]. destruct H. by split.
  - destruct (may_complete op r c); [|done]. apply handler_counted.
    assert (counted [] (c <| outstanding ::= remove_op op |>)) as H' by (by destruct H).
    apply (complete_counted e op r) in H'. by destruct (complete e op r _).
Qed.
End Runs.

(** ** Streams, responses and progress *)
Definition fails (k : list Call) : bool := existsb (fun f => match f with CFailInFlight _ => true | _ => false end) k.
Definition tries (k : list Call) : bool := existsb (fun f => match f with CTryWrite => true | _ => false end) k.
Definition waits (k : list Call) : bool := existsb (fun f => match f with CReconnect => true | _ => false end) k.
Definition reads (k : list Call) : bool := existsb (fun f => match f with CNextRead => true | _ => false end) k.

(** The requests of a stream. *)
Definition on (s : nat) (l : list (nat * nat)) : list nat := (filter (fun p => p.1 = s) l).*2.
Lemma on_app s l l' : on s (l ++ l') = on s l ++ on s l'.
Proof. unfold on. by rewrite filter_app, fmap_app. Qed.
Lemma on_same s l : Forall (fun p => p.1 = s) l -> on s l = l.*2.
Proof. intros H. unfold on. f_equal. induction H as [|x l Hx _ IH]; [done|]. rewrite filter_cons_True by done. by f_equal. Qed.
Lemma on_other s l : Forall (fun p => p.1 <> s) l -> on s l = [].
Proof. intros H. unfold on. induction H as [|x l Hx _ IH]; [done|]. by rewrite filter_cons_False. Qed.
Lemma on_fresh s l : Forall (fun p => (p.1 < s)%nat) l -> on s l = [].
Proof. intros H. apply on_other. eapply Forall_impl; [done|]. simpl. lia. Qed.

Definition written_on c : list (nat * nat) := fst <$> written c.
Definition received_on c : list (nat * nat) := fst <$> received c.
Definition flying c : list (nat * nat) := (fun x => (if_stream x, cb_id (if_cb x))) <$> in_flight_ c.
Definition busy c (s : nat) : Prop := OWrite s ∈ outstanding c \/ ORead s ∈ outstanding c.
Arguments on _ _ : simpl never.
Arguments written_on _ : simpl never.
Arguments flying _ : simpl never.
Arguments received_on _ : simpl never.

Record core (k : list Call) c : Prop := {
  i_op : forall op s, op ∈ outstanding c -> stream_of op = Some s -> (s < next_stream c)%nat;
  i_st : forall s, stream c = Some s -> (s < next_stream c)%nat;
  i_fl : Forall (fun p => (p.1 < next_stream c)%nat) (flying c);
  i_wr : Forall (fun p => (p.1 < next_stream c)%nat) (written_on c);
  i_rc : Forall (fun p => (p.1 < next_stream c)%nat) (received_on c);
  i_conn : connected c = true -> is_Some (stream c);
  i_io : forall s, stream c = Some s -> busy c s -> connected c = true;
  i_cur : forall p, p ∈ flying c -> stream c = Some p.1 -> connected c = true;
  i_reading : reading_ c = true -> exists s, ORead s ∈ outstanding c;
  i_writing : writing_ c = true -> exists s, OWrite s ∈ outstanding c;
  i_busy : fails k = false ->
    (forall p, p ∈ flying c -> busy c p.1) \/
    (reads k = true /\ connected c = true /\ reading_ c = false /\ forall p, p ∈ flying c -> stream c = Some p.1);
  i_fails : fails k = true -> shutdown_requested c = true \/ connected c = false;
  i_shuts : shuts k = true -> shutdown_requested c = true;
  i_down : shutdown_requested c = true -> in_flight_ c = [] \/ fails k = true;
  i_sched : reconnect_scheduled c = true -> OReconnect ∈ outstanding c;
  i_idle : shutdown_requested c = false -> connected c = true -> pending_ c <> [] -> writing_ c = true \/ in_flight_ c <> [] \/ tries k = true;
  i_match : forall s, shutdown_requested c = false -> stream c = Some s -> on s (written_on c) = on s (received_on c) ++ on s (flying c);
  i_prefix : forall s, on s (received_on c) `prefix_of` on s (written_on c) }.
Definition connecting_ok c : Prop :=
  connecting c = true -> OResolve ∈ outstanding c \/ exists s, stream c = Some s /\ (OConnect s ∈ outstanding c \/ OHandshake s ∈ outstanding c).
Definition waits_ok (k : list Call) c : Prop :=
  shutdown_requested c = false -> pending_ c <> [] -> connected c = true \/ connecting c = true \/ reconnect_scheduled c = true \/ waits k = true.
Definition inv (k : list Call) c : Prop := core k c /\ connecting_ok c /\ waits_ok k c.

(** More operations of the kinds that connect. *)
Definition connects (op : Op) : bool := match op with OWrite _ | ORead _ => false | _ => true end.
Lemma core_launch op k c : core k c -> connects op = true -> (forall s, stream_of op = Some s -> (s < next_stream c)%nat) -> core k (launch op c).
Proof.
  intros [] Hop Hs. assert (forall s, busy (launch op c) s <-> busy c s) as Hb.
  { intros s. unfold busy. cbn. rewrite !elem_of_app, !list_elem_of_singleton. destruct op; naive_solver. }
  split; try done.
  - cbn. intros o s [Ho|Ho]%elem_of_app; [eauto|]. apply list_elem_of_singleton in Ho as ->. auto.
  - intros s Hst. rewrite Hb. by apply i_io0.
  - intros Hr. destruct (i_reading0 Hr) as [s ?]. exists s. cbn. set_solver.
  - intros Hr. destruct (i_writing0 Hr) as [s ?]. exists s. cbn. set_solver.
  - intros Hf. destruct (i_busy0 Hf) as [Hp|?]; [left|by right]. intros p Hp'. apply Hb. auto.
  - intros Hr. cbn. rewrite elem_of_app. auto.
Qed.
Lemma core_schedule e k c : core k c -> core k (schedule_reconnect e c).
Proof.
  intros H. unfold schedule_reconnect. destruct (_ || _); [done|]. 
  assert (core k (launch OReconnect c)) as [] by (by apply core_launch). split; try done. cbn. intros _. set_solver.
Qed.
Lemma core_drop k c : core k c -> (reads k = true -> connected c = false) -> core k (drop_connection c).
Proof.
  intros [] Hr. split; try done; [|by right].
  intros Hf. left. destruct (i_busy0 Hf) as [?|(Hk & Hc & _)]; [done|]. rewrite (Hr Hk) in Hc. done.
Qed.
Lemma core_new_stream k c : core k c -> (reads k = true -> connected c = false) -> core k (c <| stream := Some (next_stream c) |> <| next_stream ::= S |> <| arrived := 0%nat |>).
Proof.
  intros [] Hr. set (c1 := c <| stream := _ |> <| next_stream ::= S |> <| arrived := _ |>). assert (forall l, Forall (fun p : nat * nat => (p.1 < next_stream c)%nat) l -> Forall (fun p => (p.1 < next_stream c1)%nat) l) as Hl.
  { intros l Hl. eapply Forall_impl; [exact Hl|]. cbn. lia. }
  split; try done; cbn.
  - intros op s Ho Hs. pose proof (i_op0 op s Ho Hs). lia.
  - intros s [= <-]. lia.
  - auto.
  - auto.
  - auto.
  - intros s [= <-] [Hb|Hb]; [pose proof (i_op0 _ (next_stream c) Hb eq_refl)|pose proof (i_op0 _ (next_stream c) Hb eq_refl)]; lia.
  - intros p Hp [= E]. rewrite Forall_forall in i_fl0. specialize (i_fl0 p Hp). cbn in i_fl0. lia.
  - intros Hf. destruct (i_busy0 Hf) as [?|(Hk & Hc & _)]; [by left|]. rewrite (Hr Hk) in Hc. done.
  - intros s _ [= <-]. by rewrite !on_fresh.
Qed.

Lemma inv_on_connect_error e k c : core k c -> (reads k = true -> connected c = false) -> inv k (on_connect_error e c).
Proof.
  intros H Hr. pose proof (core_drop k c H Hr) as Hd. unfold on_connect_error, reconnect_if_waiting.
  split; [destruct (_ && _); [by apply core_schedule|done]|]. unfold schedule_reconnect, waits_ok, connecting_ok. cbn. split.
  - by repeat case_match.
  - destruct (shutdown_requested c) eqn:Es, (pending_ c) eqn:Ep; cbn; rewrite ?Es, ?Ep; try done.
    destruct (reconnect_scheduled c) eqn:Er; cbn; rewrite ?Er; by auto.
Qed.
Lemma inv_on_resolve e k c : core k c -> (reads k = true -> connected c = false) -> waits_ok k c -> inv k (on_resolve e c).
Proof.
  intros H Hr Hw. pose proof (core_new_stream k c H Hr) as Hn. unfold on_resolve. set (c1 := c <| stream := _ |> <| next_stream ::= S |> <| arrived := _ |>) in *.
  destruct (negb _); [by apply inv_on_connect_error|]. set (c2 := c1 <| deadline_ms := _ |>).
  assert (core k c2) as H2 by (destruct Hn; by split). split; [|split].
  - apply core_launch; [done..|]. intros s [= <-]. cbn. lia.
  - intros _. right. exists (next_stream c). split; [done|]. left. cbn. set_solver.
  - exact Hw.
Qed.
Lemma inv_start_connect e k c : core k c -> connecting_ok c -> (reads k = true -> connected c = false) -> inv k (start_connect e c).
Proof.
  intros H Hc Hr. unfold start_connect. destruct (_ || _) eqn:E.
  { split; [done|split; [done|]]. intros Hs _. rewrite Hs, orb_false_r in E. apply orb_true_iff in E as [?|?]; auto. }
  set (c1 := c <| connecting := true |>). assert (core k c1) as H1 by (destruct H; by split).
  assert (forall c', core k c' -> connecting c' = true -> OResolve ∈ outstanding c' -> inv k c') as Hres.
  { intros c' Hc' Hn Ho. split; [done|]. split; [by left|]. intros _ _. auto. }
  destruct (has_cached_endpoints_ c1).
  - destruct (_ >? _).
    + apply Hres; [|done|cbn; set_solver]. apply core_launch; [|done..]. destruct H1. by split.
    + apply inv_on_resolve; [done..|]. intros _ _. auto.
  - apply Hres; [|done|cbn; set_solver]. by apply core_launch.
Qed.

(** The calls keep the invariant. *)
Lemma core_pop f k c : core (f :: k) c -> fails [f] = false -> tries [f] = false -> reads [f] = false -> core k c.
Proof.
  intros [] Hf Ht Hr. unfold fails, tries, reads, shuts in *. cbn [existsb] in *. rewrite orb_false_r in Hf, Ht, Hr. rewrite Hf, Ht, Hr in *.
  split; try done. intros E. apply i_shuts0, orb_true_iff. by right.
Qed.
Lemma core_push f k c : core k c -> fails [f] = false -> shuts [f] = false -> core (f :: k) c.
Proof.
  intros [] Hf Hs. assert (fails (f :: k) = fails k) as Ef by (by destruct f). assert (shuts (f :: k) = shuts k) as Es by (by destruct f).
  split; rewrite ?Ef, ?Es; try done.
  - intros E. destruct (i_busy0 E) as [?|[? ?]]; [by left|right]. split; [|done]. apply orb_true_iff. by right.
  - intros A B C. destruct (i_idle0 A B C) as [?|[?|?]]; auto. right. right. apply orb_true_iff. by right.
Qed.
Lemma inv_pop f k c : inv (f :: k) c -> fails [f] = false -> tries [f] = false -> reads [f] = false -> waits [f] = false -> inv k c.
Proof.
  intros (H & Hc & Hw) Hf Ht Hr Hv. split; [by eapply core_pop|]. split; [done|]. unfold waits_ok, waits in *. cbn [existsb] in *.
  rewrite orb_false_r in Hv. by rewrite Hv in Hw.
Qed.
Lemma inv_push f k c : inv k c -> fails [f] = false -> shuts [f] = false -> inv (f :: k) c.
Proof.
  intros (H & Hc & Hw) Hf Hs. split; [by apply core_push|]. split; [done|]. unfold waits_ok, waits in *. cbn [existsb].
  intros A B. destruct (Hw A B) as [?|[?|[?|?]]]; auto. right. right. right. apply orb_true_iff. by right.
Qed.

Lemma enqueue_inv e req headers cb k c : inv k c -> let '(k', c') := enqueue_request e req headers cb c in inv (k' ++ k) c'.
Proof.
  intros H. unfold enqueue_request. set (c1 := c <| offered ::= _ |>). assert (inv k c1) as H1 by (destruct H as ([] & ? & ?); split; [by split|done]).
  destruct (queue_full c1); [by apply inv_push|]. clearbody c1. clear c H.
  set (c2 := c1 <| pending_ ::= _ |> <| accepted ::= _ |>). destruct H1 as (Hk & Hc & Hw).
  assert (connected c1 = false -> core k c2) as Hoff by (intros E; destruct Hk; split; try done; cbn; congruence).
  destruct (connected c2) eqn:En.
  - cbn. split; [|split; [done|intros _ _; by left]]. destruct (core_push CTryWrite k c1 Hk eq_refl eq_refl). split; try done. cbn. auto.
  - specialize (Hoff En). destruct (connecting c2) eqn:Eg; [|destruct (reconnect_scheduled c2) eqn:Er]; cbn.
    + split; [done|]. split; [done|]. intros _ _. auto.
    + split; [done|]. split; [done|]. intros _ _. auto.
    + by apply inv_start_connect.
Qed.

(** [CTryWrite] leaves the state alone. *)
Lemma core_no_try k c : core (CTryWrite :: k) c ->
  (shutdown_requested c = false -> connected c = true -> pending_ c <> [] -> writing_ c = true \/ in_flight_ c <> []) -> core k c.
Proof. intros [] Hi. split; try done. intros A B C. destruct (Hi A B C); auto. Qed.
(** The calls of [fail_all] on top. *)
Lemma fail_all_inv k c : inv k c -> shutdown_requested c = true -> inv (fail_all ++ k) c.
Proof.
  intros ([] & Hc & Hw) Hs. split; [|split; [done|unfold waits_ok; by rewrite Hs]]. split; try done.
  - intros _. by left.
  - intros _. by right.
Qed.
Lemma try_write_inv e k c : inv (CTryWrite :: k) c -> let '(k', c') := try_write_next e c in inv (k' ++ k) c'.
Proof.
  intros (H & Hc & Hw). change (waits_ok k c) in Hw. unfold try_write_next.
  assert ((shutdown_requested c = false -> connected c = true -> pending_ c <> [] -> writing_ c = true \/ in_flight_ c <> []) -> inv k c) as Hsame.
  { intros Hi. split; [by apply core_no_try|done]. }
  destruct (pending_ c) as [|front rest] eqn:Ep; [by apply Hsame|]. destruct (stream c) as [sid|] eqn:Es.
  2: { apply Hsame. intros _ Hn. destruct H. destruct (i_conn0 Hn). congruence. }
  destruct (writing_ c) eqn:Ew; [apply Hsame; auto|]. destruct (connected c) eqn:En; [|apply Hsame; congruence]. cbn [orb negb].
  destruct (shutdown_requested c) eqn:Eq.
  { apply fail_all_inv; [|done]. apply Hsame. congruence. }
  destruct (Nat.leb_spec (pipeline_depth (config c)) (length (in_flight_ c))) as [Hl|_].
  { apply Hsame. intros _ _ _. right. unfold pipeline_depth in Hl. destruct (in_flight_ c); [|done]. destruct (Nat.eqb_spec (max_pipeline_depth (config c)) 0); cbn in Hl; lia. }
  cbn [app]. split; [|split; [|intros _ _; by left]].
  - set (c' := launch _ _). assert (written_on c' = written_on c ++ [(sid, cb_id (pr_cb front))]) as Hwr by (unfold written_on; cbn; by rewrite fmap_app).
    assert (flying c' = flying c ++ [(sid, cb_id (pr_cb front))]) as Hfl by (unfold flying; cbn; by rewrite fmap_app).
    assert (forall s, busy c s -> busy c' s) as Hb by (unfold busy; cbn; set_solver).
    assert (busy c' sid) as Hbs by (unfold busy; cbn; set_solver).
    destruct H. specialize (i_st0 sid Es). split; rewrite ?Hwr, ?Hfl; try done; cbn.
    + intros op s [Ho|Ho]%elem_of_app Hst; [by eapply i_op0|]. apply list_elem_of_singleton in Ho as ->. by injection Hst as <-.
    + intros s. rewrite Es. by intros [= <-].
    + apply Forall_app. split; [done|]. by apply Forall_singleton.
    + apply Forall_app. split; [done|]. by apply Forall_singleton.
    + intros Hr. destruct (i_reading0 Hr) as [s ?]. exists s. set_solver.
    + intros _. exists sid. set_solver.
    + intros Hf. destruct (i_busy0 Hf) as [Hp|(? & ? & ? & Hp)]; [left|right].
      * intros p [Hi|Hi]%elem_of_app; [by apply Hb, Hp|]. by apply list_elem_of_singleton in Hi as ->.
      * repeat (split; [done|]). intros p [Hi|Hi]%elem_of_app; [by apply Hp|]. by apply list_elem_of_singleton in Hi as ->.
    + intros Hs. congruence.
    + intros Hs. set_solver.
    + auto.
    + intros s Hs Hst. rewrite !on_app, (i_match0 s Hs Hst). by rewrite app_assoc.
    + intros s. rewrite on_app. by apply prefix_app_r.
  - intros Hn. destruct (Hc Hn) as [?|(s & ? & ?)]; [left|right; exists s; split; [done|]]; cbn; set_solver.
Qed.

Lemma fail_in_flight_inv t k c : inv (CFailInFlight t :: k) c -> let '(k', c') := fail_in_flight t c in inv (k' ++ k) c'.
Proof.
  intros (H & Hc & Hw). change (waits_ok k c) in Hw. unfold fail_in_flight. destruct (in_flight_ c) as [|x l] eqn:E.
  { split; [|done]. destruct H. split; try done; [|by auto|by auto]. intros _. left. unfold flying. rewrite E. intros p []%elem_of_nil. }
  set (c' := c <| in_flight_ := l |>). split; [|done].
  assert (flying c = (if_stream x, cb_id (if_cb x)) :: flying c') as Hf by (unfold flying, c'; cbn; by rewrite E).
  destruct H. rewrite Hf in *. split; try done.
  - by apply Forall_cons in i_fl0 as [_ ?].
  - intros p Hp. apply i_cur0. by right.
  - intros _. by right.
  - intros A B. destruct (i_fails0 eq_refl); cbn in *; congruence.
  - intros s A B. destruct (i_fails0 eq_refl) as [?|Hn]; [cbn in *; congruence|].
    change (on s (written_on c) = on s (received_on c) ++ on s (flying c')). rewrite (i_match0 s A B). f_equal.
    change (?a :: ?b) with ([a] ++ b). rewrite on_app, (on_other s [_]); [done|]. apply Forall_singleton. cbn. intros <-.
    rewrite (i_cur0 (if_stream x, cb_id (if_cb x))) in Hn; [done|by left|done].
Qed.
Lemma fail_pending_inv k c : inv (CFailPending :: k) c -> let '(k', c') := fail_pending c in inv (k' ++ k) c'.
Proof.
  intros H. unfold fail_pending. destruct (pending_ c) as [|x l] eqn:E; [by apply (inv_pop CFailPending)|].
  assert (shutdown_requested c = true) as Hs by (by destruct H as [[] _]; apply i_shuts0).
  apply (inv_push (CAnswer (pr_cb x) (failed_response false 0))); [|done..]. destruct H as ([] & Hc & Hw).
  split; [|split; [done|unfold waits_ok; cbn; congruence]]. split; try done. cbn. congruence.
Qed.
Lemma failed_inv k c : inv (CFailed :: k) c -> inv k (c <| writing_ := false |> <| reading_ := false |>).
Proof.
  intros H. assert (shutdown_requested c = true) as Hs by (by destruct H as [[] _]; apply i_shuts0).
  apply inv_pop in H as ([] & Hc & Hw); [|done..]. split; [|done]. split; try done; [|cbn; congruence].
  intros Hf. destruct (i_busy0 Hf) as [?|(? & ? & ? & ?)]; [by left|by right].
Qed.
Lemma reconnect_inv e k c : inv (CReconnect :: k) c -> inv k (reconnect_if_waiting e c).
Proof.
  intros (H & Hc & Hw). apply core_pop in H; [|done..]. unfold reconnect_if_waiting. split; [destruct (_ && _); [by apply core_schedule|done]|].
  unfold schedule_reconnect, waits_ok, connecting_ok in *. destruct (shutdown_requested c) eqn:Es, (pending_ c) eqn:Ep; cbn; rewrite ?Es, ?Ep; try done.
  destruct (reconnect_scheduled c) eqn:Er; cbn; rewrite ?Er; split; auto.
  intros Hn. destruct (Hc Hn) as [?|(s & ? & ?)]; [left|right; exists s; split; [done|]]; set_solver.
Qed.
(** Reading goes on. *)
Lemma core_no_read k c : core (CNextRead :: k) c -> (fails k = false -> forall p, p ∈ flying c -> busy c p.1) -> core k c.
Proof. intros [] Hb. split; try done. auto. Qed.
Lemma read_core sid k c : core (CNextRead :: k) c -> stream c = Some sid -> connected c = true ->
  core k (launch (ORead sid) (clear_buffer sid (c <| reading_ := true |> <| deadline_ms := Some (request_timeout_ms (config c)) |>))).
Proof.
  intros [] Es En. set (c' := launch _ _). assert (forall s, busy c s -> busy c' s) as Hb by (unfold busy; cbn; set_solver).
  split; try done; cbn.
  - intros op s [Ho|Ho]%elem_of_app Hst; [by eapply i_op0|]. apply list_elem_of_singleton in Ho as ->. injection Hst as <-. auto.
  - intros _. exists sid. set_solver.
  - intros Hr. destruct (i_writing0 Hr) as [s ?]. exists s. set_solver.
  - intros Hf. left. destruct (i_busy0 Hf) as [?|(_ & _ & _ & Hp)]; [by auto|]. intros p Hi. specialize (Hp p Hi). rewrite Es in Hp. injection Hp as <-.
    right. cbn. set_solver.
  - intros Hs. set_solver.
Qed.
Lemma do_read_core k c : core (CNextRead :: k) c -> core k (do_read c).
Proof.
  intros H. unfold do_read. assert (reading_ c = true \/ connected c = false \/ in_flight_ c = [] -> core k c) as Hn.
  { intros Hd. apply core_no_read; [done|]. intros Hf. destruct H. destruct (i_busy0 Hf) as [?|(_ & ? & ? & _)]; [done|].
    destruct Hd as [?|[?|E]]; [congruence..|]. intros p. unfold flying. rewrite E. by intros ?%elem_of_nil. }
  destruct (in_flight_ c) eqn:E; [auto|]. destruct (stream c) as [sid|] eqn:Es.
  2: { apply Hn. destruct H. destruct (connected c); [|auto]. destruct (i_conn0 eq_refl). congruence. }
  destruct (reading_ c) eqn:Er; [auto|]. destruct (connected c) eqn:En; [|auto]. by apply read_core.
Qed.
Lemma do_read_connecting k c : connecting_ok c /\ waits_ok k c -> connecting_ok (do_read c) /\ waits_ok k (do_read c).
Proof.
  unfold do_read. destruct (in_flight_ c), (stream c) eqn:E; try done. destruct (_ || _); [done|]. intros [Hc Hw]. split; [|done].
  intros Hn. destruct (Hc Hn) as [?|(s & ? & ?)]; [left|right; exists s; split; [done|]]; cbn; set_solver.
Qed.
Lemma next_read_inv k c : inv (CNextRead :: k) c -> inv k (next_read c).
Proof.
  intros (H & Hc). change (connecting_ok c /\ waits_ok k c) in Hc. unfold next_read. destruct (in_flight_ c) eqn:E.
  - assert (core k c) as Hk by (apply do_read_core in H; unfold do_read in H; by rewrite E in H).
    destruct (stream c); [|by split]. split; [destruct Hk; by split|done].
  - split; [by apply do_read_core|by apply do_read_connecting].
Qed.

Lemma call_inv e f k c : inv (f :: k) c -> let '(k', c') := call e f c in inv (k' ++ k) c'.
Proof.
  destruct f as [cb resp|req headers cb| |t| | | |]; cbn [call]; intros H.
  - apply inv_pop in H as ([] & ? & ?); [|done..]. unfold answer. assert (inv k (c <| answers ::= fun l => l ++ [(cb_id cb, resp)] |>)) by (by split).
    destruct (sends cb resp) as [[[req headers] id]|]; [by apply inv_push|done].
  - apply inv_pop in H; [|done..]. by apply enqueue_inv.
  - by apply try_write_inv.
  - by apply fail_in_flight_inv.
  - by apply fail_pending_inv.
  - by apply failed_inv.
  - by apply reconnect_inv.
  - by apply next_read_inv.
Qed.

(** ** Completions *)
Lemma remove_op_sub op l x : x ∈ remove_op op l -> x ∈ l.
Proof. induction l as [|y l IH]; cbn; [done|]. case_bool_decide; set_solver. Qed.
Lemma remove_op_other op l x : x ∈ l -> x <> op -> x ∈ remove_op op l.
Proof. induction l as [|y l IH]; cbn; [done|]. case_bool_decide; set_solver. Qed.

Section Completions.
Context (op : Op) (c : Client).
Hypothesis Hc : inv [] c.
Let c0 : Client := c <| outstanding ::= remove_op op |>.

Lemma removed_sub x : x ∈ outstanding c0 -> x ∈ outstanding c.
Proof. apply remove_op_sub. Qed.
Lemma removed_other x : x ∈ outstanding c -> x <> op -> x ∈ outstanding c0.
Proof. apply remove_op_other. Qed.
Lemma busy_removed s : busy c0 s -> busy c s.
Proof. intros [H|H]; [left|right]; by apply removed_sub. Qed.
Lemma removed_core : connects op = true -> op <> OReconnect -> core [] c0.
Proof.
  intros Ho Hr. destruct Hc as [[] _].
  assert (forall s, busy c s -> busy c0 s) as Hb by (intros s [H|H]; [left|right]; apply removed_other; try done; by intros <-).
  split; try done; cbn.
  - intros o s Hin. apply i_op0. by apply removed_sub.
  - intros s Hs Hb'. eapply i_io0; [done|]. by apply busy_removed.
  - intros E. destruct (i_reading0 E) as [s Hs]. exists s. apply removed_other; [done|]. by intros <-.
  - intros E. destruct (i_writing0 E) as [s Hs]. exists s. apply removed_other; [done|]. by intros <-.
  - intros _. destruct (i_busy0 eq_refl) as [?|[? _]]; [left; auto|done].
  - intros E. by apply removed_other; [auto|].
Qed.
Lemma step_failed_inv e : connects op = true -> op <> OReconnect -> let '(k, c') := connect_step_failed e c0 in inv k c'.
Proof.
  intros Ho Hr. pose proof (removed_core Ho Hr) as H. unfold connect_step_failed. destruct (shutdown_requested c0) eqn:Es.
  - rewrite <- (app_nil_r fail_all). apply fail_all_inv; [|done]. split; [destruct H; by split|]. split; [done|]. intros E. cbn in *. congruence.
  - by apply inv_on_connect_error.
Qed.
Lemma io_error_inv t : op <> OReconnect -> inv [CFailInFlight t; CReconnect] (drop_connection c0).
Proof.
  intros Hr. destruct Hc as [[] _]. split; [|split; [done|intros _ _; auto]]. split; try done; cbn; auto.
  - intros o s Hin. apply i_op0. by apply removed_sub.
  - intros E. by apply removed_other; [auto|].
Qed.
Lemma timer_inv e ok : op = OReconnect -> ok = true \/ shutdown_requested c = true -> inv [] (on_reconnect_timer e ok c0).
Proof.
  intros Ho Hok. set (c1 := c0 <| reconnect_scheduled := false |>). destruct Hc as ([] & Hcn & Hw).
  assert (core [] c1) as H1.
  { assert (forall s, busy c s -> busy c1 s) as Hb by (intros s [H|H]; [left|right]; apply removed_other; by try rewrite Ho).
    split; try done; cbn.
    - intros o s Hin. apply i_op0. by apply removed_sub.
    - intros s Hs Hb'. eapply i_io0; [done|]. by apply busy_removed.
    - intros E. destruct (i_reading0 E) as [s Hs]. exists s. apply removed_other; [done|]. by rewrite Ho.
    - intros E. destruct (i_writing0 E) as [s Hs]. exists s. apply removed_other; [done|]. by rewrite Ho.
    - intros _. destruct (i_busy0 eq_refl) as [?|[? _]]; [left; auto|done]. }
  assert (connecting_ok c1) as H2.
  { intros E. destruct (Hcn E) as [?|(s & ? & [?|?])]; [left|right; exists s; split; [done|left]|right; exists s; split; [done|right]];
      apply removed_other; by try rewrite Ho. }
  unfold on_reconnect_timer. fold c1. destruct (negb ok || shutdown_requested c1) eqn:E; [|by apply inv_start_connect].
  split; [done|]. split; [done|]. intros Hs. cbn in Hs. destruct Hok as [->|?]; [|congruence]. cbn in E. congruence.
Qed.

(** Nothing dropped is outstanding. *)
Hypothesis Hin : op ∈ outstanding c.
Hypothesis Hfresh : forall o s, o ∈ outstanding c -> stream_of o = Some s -> stream c = Some s.

Lemma flying_current p : p ∈ flying c -> stream c = Some p.1.
Proof. intros Hp. destruct Hc as [[] _]. destruct (i_busy0 eq_refl) as [Hb|[? _]]; [|done]. by destruct (Hb p Hp) as [H|H]; apply (Hfresh _ _ H). Qed.
Lemma connected_inv sid : op = OConnect sid -> inv [] (on_tcp_connect sid c0).
Proof.
  intros Ho. assert (core [] c0) as Hk by (by apply removed_core; rewrite Ho). destruct Hc as ([] & Hcn & Hw).
  assert (stream c = Some sid) as Hs by (apply (Hfresh op); [done|by rewrite Ho]).
  split; [|split].
  - apply core_launch; [destruct Hk; by split|done|]. intros s [= <-]. cbn. auto.
  - intros _. right. exists sid. split; [done|]. right. cbn. set_solver.
  - exact Hw.
Qed.
Lemma handshake_inv e sid : op = OHandshake sid -> let '(k, c') := on_handshake e true c0 in inv k c'.
Proof.
  intros Ho. unfold on_handshake. cbn [negb orb]. destruct (shutdown_requested c0) eqn:Es; [by apply step_failed_inv; rewrite Ho|].
  assert (core [] c0) as Hk by (by apply removed_core; rewrite Ho).
  assert (stream c = Some sid) as Hs by (apply (Hfresh op); [done|by rewrite Ho]).
  split; [|split; [done|intros _ _; by left]]. destruct Hk. split; try done; cbn; eauto.
  intros _. destruct (i_busy0 eq_refl) as [?|[? _]]; [by left|done].
Qed.
Lemma on_written_inv sid : op = OWrite sid -> let '(k, c') := on_written None c0 in inv k c'.
Proof.
  intros Ho. set (c1 := c0 <| writing_ := false |>). assert (stream c = Some sid) as Hs by (apply (Hfresh op); [done|by rewrite Ho]).
  pose proof flying_current as Hfl. destruct Hc as ([] & Hcn & Hw).
  assert (connected c = true) as Hconn by (apply (i_io0 sid Hs); left; by rewrite <- Ho).
  assert (connecting_ok c1 /\ waits_ok [CTryWrite] c1) as Hrest.
  { split; [|intros _ _; by left]. intros E. destruct (Hcn E) as [?|(s & ? & [?|?])]; [left|right; exists s; split; [done|left]|right; exists s; split; [done|right]];
      apply removed_other; by try rewrite Ho. }
  assert (reading_ c = false \/ (forall p, p ∈ flying c1 -> busy c1 p.1) -> core [CNextRead; CTryWrite] c1) as Hcore.
  { intros Hr. split; try done; cbn.
    - intros o s Ho'. apply i_op0. by apply removed_sub.
    - intros E. destruct (i_reading0 E) as [s Hs']. exists s. apply removed_other; [done|]. by rewrite Ho.
    - intros _. destruct Hr; [right|by left]. done.
    - intros E. apply removed_other; [auto|by rewrite Ho].
    - auto. }
  unfold on_written. fold c1. destruct (reading_ c1) eqn:Er; cbn [negb].
  - split; [|done]. assert (forall p, p ∈ flying c1 -> busy c1 p.1) as Hb.
    { intros p Hp. destruct (i_reading0 Er) as [s Hr]. specialize (Hfl p Hp). pose proof (Hfresh _ s Hr eq_refl) as Hs'. right.
      apply removed_other; [congruence|]. by rewrite Ho. }
    apply core_no_read; auto.
  - split; [by apply do_read_core; auto|by apply do_read_connecting].
Qed.
Lemma response_inv {ZL : Zlib} e sid res ahead : op = ORead sid -> let '(k, c') := on_response e sid res ahead c0 in inv k c'.
Proof.
  intros Ho. assert (stream c = Some sid) as Hs by (apply (Hfresh op); [done|by rewrite Ho]).
  pose proof flying_current as Hfl. destruct Hc as ([] & Hcn & Hw).
  assert (connected c = true) as Hconn by (apply (i_io0 sid Hs); right; by rewrite <- Ho).
  assert (connecting_ok c0 /\ forall k, waits_ok k c0) as [Hc1 Hc2].
  { split; [|intros k _ _; by left]. intros E. destruct (Hcn E) as [?|(s & ? & [?|?])]; [left|right; exists s; split; [done|left]|right; exists s; split; [done|right]];
      apply removed_other; by try rewrite Ho. }
  assert (forall x, x ∈ outstanding c0 -> x ∈ outstanding c) as Hsub by apply removed_sub.
  assert (writing_ c = true -> exists s, OWrite s ∈ outstanding c0) as Hwr.
  { intros E. destruct (i_writing0 E) as [s Hs']. exists s. apply removed_other; [done|]. by rewrite Ho. }
  assert (reconnect_scheduled c = true -> OReconnect ∈ outstanding c0) as Hsc by (intros E; apply removed_other; [auto|by rewrite Ho]).
  unfold on_response. cbv zeta. change (in_flight_ (c0 <| reading_ := false |> <| buffer := (sid, ahead) |>)) with (in_flight_ c). destruct (in_flight_ c) as [|front rest] eqn:E.
  - split; [|split; [done|apply Hc2]]. split; try done; cbn; eauto.
    intros _. left. unfold flying. cbn. rewrite E. by intros p ?%elem_of_nil.
  - set (c' := _ <| received ::= _ |>).
    assert (flying c = (if_stream front, cb_id (if_cb front)) :: flying c') as Hf by (unfold flying, c'; cbn; by rewrite E).
    assert (received_on c' = received_on c ++ [(sid, cb_id (if_cb front))]) as Hrc by (unfold received_on; cbn; by rewrite fmap_app).
    assert (if_stream front = sid) as Hfs by (pose proof (Hfl (if_stream front, cb_id (if_cb front)) ltac:(rewrite Hf; by left)) as Hx; cbn in Hx; congruence).
    assert (shutdown_requested c = false) as Hsh by (destruct (shutdown_requested c); [|done]; destruct (i_down0 eq_refl); [congruence|done]).
    rewrite Hf in *. split; [|split; [done|apply Hc2]]. split; rewrite ?Hrc; try done; cbn.
    + eauto.
    + by apply Forall_cons in i_fl0 as [_ ?].
    + apply Forall_app. split; [done|]. apply Forall_singleton. cbn. auto.
    + intros _. right. repeat split; try done. intros p Hp. apply Hfl. by right.
    + congruence.
    + auto.
    + intros s _ Hs'. assert (s = sid) as -> by congruence. change (on sid (written_on c) = on sid (received_on c ++ [(sid, cb_id (if_cb front))]) ++ on sid (flying c')).
      rewrite (i_match0 sid Hsh Hs), on_app, <- app_assoc. f_equal. change (?a :: flying c') with ([a] ++ flying c'). rewrite on_app. f_equal.
      by rewrite !on_same by (by apply Forall_singleton).
    + intros s. change (on s (received_on c ++ [(sid, cb_id (if_cb front))]) `prefix_of` on s (written_on c)). rewrite on_app. destruct (decide (s = sid)) as [->|Hne].
      * rewrite (i_match0 sid Hsh Hs). apply prefix_app. change (?a :: flying c') with ([a] ++ flying c'). rewrite on_app.
        rewrite !on_same by (by apply Forall_singleton). by apply prefix_app_r.
      * rewrite (on_other s [_]) by (apply Forall_singleton; cbn; congruence). by rewrite app_nil_r.
Qed.
End Completions.

Section Results.
Context {ZL : Zlib}.
Lemma complete_inv e op r c : inv [] c -> may_complete op r c = true ->
  let '(k, c') := complete e op r (c <| outstanding ::= remove_op op |>) in inv k c'.
Proof.
  intros Hc Hm. unfold may_complete in Hm. apply andb_true_iff in Hm as [Hm Hr]. apply andb_true_iff in Hm as [Hin Hfit]. apply bool_decide_eq_true_1 in Hin.
  assert ((forall t, r <> RErr t) -> forall o s, o ∈ outstanding c -> stream_of o = Some s -> stream c = Some s) as Hfresh.
  { intros Hne. assert (forallb (fun o => negb (stale c o)) (outstanding c) = true) as Hf by (destruct r as [|t|]; [done|by destruct (Hne t)|done]).
    intros o s Ho Hs. rewrite forallb_forall in Hf. specialize (Hf o (proj1 (list_elem_of_In _ _) Ho)). unfold stale in Hf. rewrite Hs in Hf.
    apply negb_true_iff, negb_false_iff in Hf. by apply bool_decide_eq_true_1 in Hf. }
  destruct op as [| |sid|sid|sid|sid], r as [|t|res]; try done; cbn [complete].
  - unfold on_resolved. cbn [negb orb]. destruct (shutdown_requested _) eqn:Es; [by apply step_failed_inv|].
    pose proof (removed_core OResolve c Hc eq_refl ltac:(done)) as Hk. apply inv_on_resolve; [by destruct Hk|done|]. by destruct Hc as (_ & _ & Hw).
  - by apply step_failed_inv.
  - by apply timer_inv; [| |left].
  - apply timer_inv; [done|done|right]. by destruct (shutdown_requested c).
  - unfold on_connected. cbn [negb orb]. destruct (shutdown_requested _) eqn:Es; [by apply step_failed_inv|]. apply connected_inv; by try apply Hfresh.
  - by apply step_failed_inv.
  - eapply handshake_inv; by try apply Hfresh.
  - by apply step_failed_inv.
  - eapply on_written_inv; by try apply Hfresh.
  - exact (io_error_inv (OWrite sid) c Hc t ltac:(done)).
  - exact (io_error_inv (ORead sid) c Hc t ltac:(done)).
  - apply response_inv; by try apply Hfresh.
Qed.
Lemma handler_inv e k : inv k.1 k.2 -> inv [] (run_handler e k).
Proof. destruct k as [k c]. intros H. apply (run_handler_inv e inv); [|done]. intros f k' c'. apply call_inv. Qed.
Lemma client_step_inv i c : inv [] c -> inv [] (step c i).
Proof.
  intros H. destruct i as [e [req headers cb| |op r]]; cbn [step].
  - apply handler_inv. by apply inv_push.
  - apply handler_inv. cbn. set (c1 := c <| shutdown_requested := true |> <| reconnect_scheduled := false |>).
    rewrite <- (app_nil_r fail_all). destruct H as ([] & Hc & Hw). split; [|split; [done|unfold waits_ok; cbn; congruence]].
    split; try done; cbn; auto.
  - destruct (may_complete op r c) eqn:Em; [|done]. apply handler_inv. apply (complete_inv e op r c) in H; [|done]. by destruct (complete e op r _).
Qed.

(** A response that was read is given to its callback. *)
Definition delivered (k : list Call) c : Prop :=
  forall r, r ∈ received c -> (r.1.2, r.2) ∈ answers c \/ exists cb, cb_id cb = r.1.2 /\ CAnswer cb r.2 ∈ k.
Lemma call_keeps e f c : let '(_, c') := call e f c in
  received c' = received c /\ answers c' = answers c ++ match f with CAnswer cb resp => [(cb_id cb, resp)] | _ => [] end.
Proof.
  assert (forall c', same_requests c c' -> received c' = received c /\ answers c' = answers c ++ []) as Hs by (intros c' []; by rewrite app_nil_r).
  destruct f as [cb resp|req headers cb| |t| | | |]; cbn [call]; try (apply Hs; solve [auto with trading]).
  - done.
  - unfold enqueue_request. set (c1 := c <| offered ::= _ |>). rewrite app_nil_r. destruct (queue_full c1); [done|].
    set (c2 := c1 <| pending_ ::= _ |> <| accepted ::= _ |>). destruct (_ && negb (reconnect_scheduled c2)); [by destruct (start_connect_same e c2)|].
    by destruct (connected c2).
  - unfold try_write_next. rewrite app_nil_r. destruct (pending_ c), (stream c); try done. repeat (destruct (_ : bool); [done|]). done.
  - unfold fail_in_flight. rewrite app_nil_r. by destruct (in_flight_ c).
  - unfold fail_pending. rewrite app_nil_r. by destruct (pending_ c).
  - by rewrite app_nil_r.
Qed.
Lemma handler_delivered e k : delivered k.1 k.2 -> delivered [] (run_handler e k).
Proof.
  destruct k as [k c]. intros H. apply (run_handler_inv e delivered); [|done]. clear k c H. intros f k c H. pose proof (call_keeps e f c) as Hk.
  destruct (call e f c) as [k' c']. destruct Hk as [Hr Ha]. intros r. rewrite Hr, Ha. intros Hin. destruct (H r Hin) as [?|(cb & Hid & Hf)].
  - left. set_solver.
  - apply elem_of_cons in Hf as [<-|Hf]; [left; rewrite Hid; set_solver|]. right. exists cb. set_solver.
Qed.
Lemma complete_received e op r c : let '(k, c') := complete e op r c in answers c' = answers c /\
  (received c' = received c \/ exists x cb, received c' = received c ++ [x] /\ cb_id cb = x.1.2 /\ CAnswer cb x.2 ∈ k).
Proof.
  assert (forall c', same_requests c c' -> answers c' = answers c /\ received c' = received c) as Hs by (by intros c' []).
  assert (forall c', same_requests c c' -> let '(k, c2) := connect_step_failed e c' in answers c2 = answers c /\ received c2 = received c) as Hf.
  { intros c' []. unfold connect_step_failed. destruct (shutdown_requested c'); [done|]. destruct (on_connect_error_same e c'). split; congruence. }
  destruct op as [| |sid|sid|sid|sid], r as [|t|res ahead]; cbn [complete]; try by auto.
  - unfold on_resolved. destruct (_ || _); [specialize (Hf c ltac:(done)); destruct (connect_step_failed e c); naive_solver|].
    destruct (on_resolve_same e (c <| has_cached_endpoints_ := true |> <| dns_cached_at_ := ne_now e |>)). auto.
  - unfold on_resolved. specialize (Hf c ltac:(done)). cbn. destruct (connect_step_failed e c). naive_solver.
  - unfold on_reconnect_timer. destruct (_ || _); [by auto|]. destruct (start_connect_same e (c <| reconnect_scheduled := false |>)). auto.
  - unfold on_connected. destruct (_ || _); [specialize (Hf c ltac:(done)); destruct (connect_step_failed e c); naive_solver|by auto].
  - unfold on_connected. specialize (Hf c ltac:(done)). cbn. destruct (connect_step_failed e c). naive_solver.
  - unfold on_handshake. destruct (_ || _); [specialize (Hf c ltac:(done)); destruct (connect_step_failed e c); naive_solver|by auto].
  - unfold on_handshake. specialize (Hf c ltac:(done)). cbn. destruct (connect_step_failed e c). naive_solver.
  - unfold on_written. cbn. destruct (negb _); [|by auto]. destruct (do_read_same (c <| writing_ := false |>)). auto.
  - split; [done|by left].
  - split; [done|by left].
  - unfold on_response. cbn. destruct (in_flight_ c) as [|front rest]; cbn; [by auto|]. split; [done|]. right.
    exists (sid, cb_id (if_cb front), rest_response e res front), (if_cb front). split; [done|]. split; [done|]. cbn. by left.
Qed.
Lemma step_delivered i c : delivered [] c -> delivered [] (step c i).
Proof.
  intros H. destruct i as [e [req headers cb| |op r]]; cbn [step].
  - apply handler_delivered. intros x Hx. destruct (H x Hx) as [?|(? & _ & ?%elem_of_nil)]; [by left|done].
  - apply handler_delivered. intros x Hx. destruct (H x Hx) as [?|(? & _ & ?%elem_of_nil)]; [by left|done].
  - destruct (may_complete op r c); [|done]. apply handler_delivered. set (c0 := c <| outstanding ::= remove_op op |>).
    pose proof (complete_received e op r c0) as Hk. destruct (complete e op r c0) as [k c']. destruct Hk as [Ha Hr]. intros x. cbn [fst snd]. rewrite Ha.
    intros Hx. assert (x ∈ received c0 -> (x.1.2, x.2) ∈ answers c0) as Hold by (intros Hx'; destruct (H x Hx') as [?|(? & _ & ?%elem_of_nil)]; done).
    destruct Hr as [E|(y & cb & E & Hy)]; rewrite E in Hx; [by auto|]. apply elem_of_app in Hx as [?|Hx]; [by auto|].
    apply list_elem_of_singleton in Hx as ->. right. by exists cb.
Qed.

(** ** Theorems *)
Definition reachable (cfg : RestClientConfig) (l : list (NetEnv * Input)) : Client := run (Client_new cfg) l.
Lemma new_inv cfg : inv [] (Client_new cfg).
Proof.
  split; [|split; [by intros ?|intros _ H; by destruct H]]. split; try done; cbn; try (by intros ? ?%elem_of_nil); auto.
  - intros op s H. by apply elem_of_nil in H.
  - intros _. left. by intros ? ?%elem_of_nil.
Qed.

Lemma run_ind (P : Client -> Prop) cfg l : P (Client_new cfg) -> (forall i c, P c -> P (step c i)) -> P (reachable cfg l).
Proof. intros H0 Hs. unfold reachable, run. revert H0. generalize (Client_new cfg). induction l as [|i l IH]; intros c H0; [done|]. apply IH, Hs, H0. Qed.
Lemma reachable_inv cfg l : inv [] (reachable cfg l).
Proof. apply run_ind; [apply new_inv|intros i c; apply client_step_inv]. Qed.
Lemma reachable_counted cfg l : counted [] (reachable cfg l).
Proof. apply run_ind; [by split; cbn; auto with lia|intros i c; apply step_counted]. Qed.
(** The configuration does not change. *)
Lemma call_config e f c : config (call e f c).2 = config c.
Proof.
  destruct f as [cb resp|req headers cb| |t| | | |]; cbn [call]; try done.
  - unfold enqueue_request. destruct (queue_full _); [done|]. destruct (_ && _); [exact (sr_config _ _ (start_connect_same e _))|]. by destruct (connected _).
  - unfold try_write_next. destruct (pending_ c), (stream c); try done. destruct (_ || _), (shutdown_requested c); try done; by destruct (_ <=? _)%nat.
  - unfold fail_in_flight. by destruct (in_flight_ c).
  - unfold fail_pending. by destruct (pending_ c).
  - exact (sr_config _ _ (reconnect_if_waiting_same e c)).
  - exact (sr_config _ _ (next_read_same c)).
Qed.
Lemma connect_step_failed_config e c : config (connect_step_failed e c).2 = config c.
Proof. unfold connect_step_failed. destruct (shutdown_requested c); [done|]. exact (sr_config _ _ (on_connect_error_same e c)). Qed.
Lemma complete_config e op r c : config (complete e op r c).2 = config c.
Proof.
  destruct op, r; cbn [complete]; try done; try apply connect_step_failed_config.
  - unfold on_resolved. destruct (_ || _); [apply connect_step_failed_config|exact (sr_config _ _ (on_resolve_same e _))].
  - unfold on_reconnect_timer. destruct (_ || _); [done|exact (sr_config _ _ (start_connect_same e _))].
  - unfold on_connected. destruct (_ || _); [apply connect_step_failed_config|done].
  - unfold on_handshake. destruct (_ || _); [apply connect_step_failed_config|done].
  - unfold on_written. cbn [snd]. destruct (negb _); [exact (sr_config _ _ (do_read_same _))|done].
  - unfold on_response. cbn [in_flight_]. by destruct (in_flight_ _).
Qed.
Lemma reachable_config cfg l : config (reachable cfg l) = cfg.
Proof.
  apply (run_ind (fun c => config c = cfg)); [done|]. intros i c <-. assert (forall e k, config (run_handler e k) = config k.2) as H.
  { intros e k. destruct k as [k c0]. apply (run_handler_inv e (fun _ c' => config c' = config c0)); [|done]. intros f k' c1 E.
    pose proof (call_config e f c1) as E1. destruct (call e f c1). cbn in E1. congruence. }
  destruct i as [e [req headers cb| |op r]]; cbn [step]; rewrite ?H; try done. destruct (may_complete op r c); [|done]. by rewrite H, complete_config.
Qed.
Lemma connected_has_stream cfg l : connected (reachable cfg l) = true -> is_Some (stream (reachable cfg l)).
Proof. destruct (reachable_inv cfg l) as [[] _]. auto. Qed.

(** C19: every request sent on the client is answered exactly once or still held: along
    every run, in every order of completions, with callbacks that send further requests,
    the requests offered are those whose callback was called together with those that
    are queued or in flight.  Until the shutdown the requests are written in the order
    they were accepted, and the client never holds more than its limit. *)
Theorem every_request_once (cfg : RestClientConfig) (l : list (NetEnv * Input)) :
  let c := reachable cfg l in
  offered c ≡ₚ (fst <$> answers c) ++ held_requests c /\
  (shutdown_requested c = false -> written_ids c ++ pending_ids c = accepted c) /\
  ((0 < max_pending_requests cfg)%nat -> (length (held_requests c) <= max_pending_requests cfg)%nat).
Proof.
  cbv zeta. destruct (reachable_counted cfg l) as [Hids Hord Hb]. rewrite reachable_config in Hb. split; [by rewrite app_nil_r in Hids|]. split; [intros Hs; by destruct (Hord Hs)|].
  intros Hm. specialize (Hb Hm). unfold held_requests, held. rewrite length_fmap, length_app, !length_fmap. lia.
Qed.

(** *** Places in the connection *)
Record numbered c : Prop := {
  nb_st : forall s, stream c = Some s -> (s < next_stream c)%nat;
  nb_num : Forall (fun p => (p.1 < next_stream c)%nat) (numbers c);
  nb_lost : Forall (fun p => (p.1 < next_stream c)%nat) (lost c);
  nb_each : (numbers c).*1 = (received_on c).*1;
  nb_seq : forall s, on s (lost c) = [] ->
    on s (numbers c) = seq 0 (length (on s (numbers c))) /\ (stream c = Some s -> arrived c = length (on s (numbers c))) }.
Lemma numbered_same c c' : stream c' = stream c \/ stream c' = None -> next_stream c' = next_stream c -> numbers c' = numbers c ->
  lost c' = lost c -> received c' = received c -> arrived c' = arrived c -> numbered c -> numbered c'.
Proof.
  intros Es En Enum El Er Ea []. unfold received_on in *. split; rewrite ?En, ?Enum, ?El; unfold received_on; rewrite ?Er, ?Ea; try done.
  - intros s Hs. destruct Es as [E|E]; rewrite E in Hs; [auto|done].
  - intros s Hs. destruct (nb_seq0 s Hs) as [H1 H2]. split; [done|]. intros E'. apply H2. destruct Es; congruence.
Qed.
Ltac same_numbers := match goal with H : numbered ?c |- numbered _ => apply (numbered_same c); [first [by left|by right]|done..] end.
Lemma numbered_reconnect e c : numbered c -> numbered (reconnect_if_waiting e c).
Proof. intros H. unfold reconnect_if_waiting, schedule_reconnect. repeat case_match; try done; same_numbers. Qed.
Lemma numbered_drop e c : numbered c -> numbered (on_connect_error e c).
Proof. intros H. apply numbered_reconnect. same_numbers. Qed.
Lemma numbered_new_stream c : numbered c -> numbered (c <| stream := Some (next_stream c) |> <| next_stream ::= S |> <| arrived := 0%nat |>).
Proof.
  intros []. split; cbn; try done.
  - intros s [= <-]. lia.
  - eapply Forall_impl; [exact nb_num0|]. cbn. lia.
  - eapply Forall_impl; [exact nb_lost0|]. cbn. lia.
  - intros s Hs. destruct (nb_seq0 s Hs) as [H1 _]. split; [done|]. intros [= <-]. by rewrite on_fresh.
Qed.
Lemma numbered_resolve e c : numbered c -> numbered (on_resolve e c).
Proof.
  intros H. apply numbered_new_stream in H. unfold on_resolve. set (c1 := c <| stream := _ |> <| next_stream ::= S |> <| arrived := _ |>) in *.
  destruct (negb _); [by apply numbered_drop|]. same_numbers.
Qed.
Lemma numbered_start e c : numbered c -> numbered (start_connect e c).
Proof.
  intros H. unfold start_connect. destruct (_ || _); [done|]. cbv zeta. destruct (has_cached_endpoints_ _); [|same_numbers].
  destruct (_ >? _); [same_numbers|]. apply numbered_resolve. same_numbers.
Qed.
Lemma numbered_read c : numbered c -> numbered (do_read c).
Proof.
  intros H. unfold do_read. destruct (in_flight_ c); [done|]. destruct (stream c) as [sid|] eqn:Es; [|done]. destruct (_ || _); [done|].
  unfold clear_buffer. cbn -[on]. set (ahead := if (_ =? sid)%nat then _ else _). destruct ahead as [|n].
  - cbn [seq fmap list_fmap]. destruct H. unfold received_on in *. split; unfold received_on; cbn -[on]; rewrite ?app_nil_r, ?Nat.add_0_r; done.
  - destruct H. unfold received_on in *. split; unfold received_on; cbn -[on seq]; try done.
    + apply Forall_app. split; [done|]. apply Forall_fmap, Forall_forall. intros k _. cbn. auto.
    + intros s. rewrite on_app. intros [Hs1 Hs2]%app_nil. destruct (nb_seq0 s Hs1) as [H1 H2]. split; [done|]. intros E.
      exfalso. assert (s = sid) as -> by congruence. by rewrite on_same in Hs2 by (apply Forall_fmap, Forall_forall; done).
Qed.
Lemma numbered_next c : numbered c -> numbered (next_read c).
Proof. intros H. unfold next_read. destruct (in_flight_ c); [destruct (stream c) eqn:E; [|done]; same_numbers|by apply numbered_read]. Qed.
Lemma numbered_call e f c : numbered c -> numbered (call e f c).2.
Proof.
  intros H. destruct f as [cb resp|req headers cb| |t| | | |]; cbn [call].
  - same_numbers.
  - unfold enqueue_request. cbv zeta. destruct (queue_full _); [same_numbers|]. destruct (_ && _); [apply numbered_start; same_numbers|].
    destruct (connected _); same_numbers.
  - unfold try_write_next. destruct (pending_ c); [done|]. destruct (stream c) eqn:E; [|done]. repeat (destruct (_ : bool); [done|]). same_numbers.
  - unfold fail_in_flight. destruct (in_flight_ c); [done|same_numbers].
  - unfold fail_pending. destruct (pending_ c); [done|same_numbers].
  - same_numbers.
  - by apply numbered_reconnect.
  - by apply numbered_next.
Qed.
Lemma numbered_handler e k : numbered k.2 -> numbered (run_handler e k).
Proof.
  destruct k as [k c]. intros H. apply (run_handler_inv e (fun _ => numbered)); [|done]. intros f k' c' H'.
  pose proof (numbered_call e f c' H') as Hn. by destruct (call e f c').
Qed.
Lemma numbered_response e sid res ahead c : numbered c -> stream c = Some sid -> numbered (on_response e sid res ahead c).2.
Proof.
  intros [] Es. unfold received_on in *. unfold on_response. cbv zeta. cbn -[on]. destruct (in_flight_ c) as [|front rest];
    split; unfold received_on; cbn -[on]; rewrite ?fmap_app; try done; try (apply Forall_app; split; [done|apply Forall_singleton; cbn; auto]).
  - intros s. rewrite on_app. intros [Hs1 Hs2]%app_nil. destruct (nb_seq0 s Hs1) as [H1 H2]. split; [done|]. intros E.
    exfalso. assert (s = sid) as -> by congruence. by rewrite on_same in Hs2 by (by apply Forall_singleton).
  - by rewrite nb_each0.
  - intros s Hs. destruct (nb_seq0 s Hs) as [H1 H2]. rewrite on_app. destruct (decide (s = sid)) as [->|Hne].
    + rewrite (on_same sid [_]) by (by apply Forall_singleton). cbn [fmap list_fmap snd]. specialize (H2 Es). rewrite H2, length_app. cbn [length].
      rewrite Nat.add_1_r, seq_S, Nat.add_0_l. split; [by rewrite <- H1|done].
    + rewrite (on_other s [_]) by (apply Forall_singleton; cbn; congruence). rewrite app_nil_r. split; [done|]. congruence.
Qed.
Lemma numbered_failed e c : numbered c -> numbered (connect_step_failed e c).2.
Proof. intros H. unfold connect_step_failed. destruct (shutdown_requested c); [same_numbers|by apply numbered_drop]. Qed.
Lemma numbered_complete e op r c : numbered c -> (forall res ahead sid, r = RResponse res ahead -> op = ORead sid -> stream c = Some sid) ->
  numbered (complete e op r c).2.
Proof.
  intros H Hr. destruct op as [| |sid|sid|sid|sid], r as [|t|res ahead]; cbn [complete]; try done.
  - unfold on_resolved. destruct (_ || _); [by apply numbered_failed|]. apply numbered_resolve. same_numbers.
  - by apply numbered_failed.
  - unfold on_reconnect_timer. destruct (_ || _); [same_numbers|]. apply numbered_start. same_numbers.
  - unfold on_reconnect_timer. cbn. same_numbers.
  - unfold on_connected. destruct (_ || _); [by apply numbered_failed|same_numbers].
  - by apply numbered_failed.
  - unfold on_handshake. destruct (_ || _); [by apply numbered_failed|same_numbers].
  - by apply numbered_failed.
  - unfold on_written. cbv zeta. cbn [snd]. destruct (negb _); [apply numbered_read|]; same_numbers.
  - same_numbers.
  - same_numbers.
  - apply numbered_response; [done|]. by eapply Hr.
Qed.
Lemma step_numbered i c : numbered c -> numbered (step c i).
Proof.
  intros H. destruct i as [e [req headers cb| |op r]]; cbn [step].
  - by apply numbered_handler.
  - apply numbered_handler. cbn. same_numbers.
  - destruct (may_complete op r c) eqn:Em; [|done]. apply numbered_handler, numbered_complete; [same_numbers|].
    intros res ahead sid -> ->. unfold may_complete in Em. rewrite !andb_true_iff in Em. destruct Em as [[Hin%bool_decide_eq_true_1 _] Hf].
    rewrite forallb_forall in Hf. apply list_elem_of_In in Hin. specialize (Hf _ Hin). unfold stale in Hf. cbn [stream_of] in Hf.
    rewrite negb_involutive in Hf. by apply bool_decide_eq_true_1 in Hf.
Qed.

(** C20: with pipelining the answers are not mixed up unless a response was thrown away.
    Along every run: the n-th response parsed from a connection is given to the n-th
    request that was written into it, and to its callback; and as long as no response of
    the connection was lost - thrown away with the buffer when the next read begins, or
    read with no request waiting - that is the n-th response the connection carries.
    ([pipelined_response_lost] shows that otherwise it need not be.) *)
Theorem responses_match_requests (cfg : RestClientConfig) (l : list (NetEnv * Input)) :
  let c := reachable cfg l in
  (forall s, on s (received_on c) `prefix_of` on s (written_on c)) /\
  (forall s id resp, (s, id, resp) ∈ received c -> (id, resp) ∈ answers c) /\
  (forall s, on s (lost c) = [] -> on s (numbers c) = seq 0 (length (on s (received_on c)))).
Proof.
  cbv zeta. split; [by destruct (reachable_inv cfg l) as [[] _]|]. split.
  - intros s id resp H.
    assert (delivered [] (reachable cfg l)) as Hd by (apply run_ind; [by intros r ?%elem_of_nil|intros i c; apply step_delivered]).
    destruct (Hd _ H) as [?|(? & _ & ?%elem_of_nil)]; done.
  - assert (numbered (reachable cfg l)) as [_ _ _ He Hs]
      by (apply run_ind; [split; cbn; try done; by intros s _|intros i c; apply step_numbered]).
    intros s Hl. destruct (Hs s Hl) as [E _]. rewrite E. f_equal.
    generalize (numbers (reachable cfg l)), (received_on (reachable cfg l)), He. clear. unfold on.
    intros l1. induction l1 as [|x l1 IH]; intros [|y l2] E; try done. cbn in E. injection E as E1 E2. rewrite !length_fmap in *.
    specialize (IH l2 E2). rewrite !length_fmap in IH. rewrite !filter_cons, E1. case_decide; cbn; congruence.
Qed.

(** C21: no request is stranded: along every run that was not shut down, a request in
    flight has a read or a write outstanding on its connection, and a request that
    waits has one too or the client is looking the host up, connecting or waiting for
    its timer. *)
Theorem no_request_stranded (cfg : RestClientConfig) (l : list (NetEnv * Input)) :
  let c := reachable cfg l in
  shutdown_requested c = false ->
  (forall p, p ∈ flying c -> busy c p.1) /\
  (pending_ c <> [] -> exists op, op ∈ outstanding c /\
     (if connected c then connects op = false else connects op = true)).
Proof.
  cbv zeta. intros Hs. destruct (reachable_inv cfg l) as ([] & Hc & Hw). set (c := reachable cfg l) in *. clearbody c.
  assert (forall p, p ∈ flying c -> busy c p.1) as Hb by (destruct (i_busy0 eq_refl) as [?|[? _]]; done). split; [done|].
  intros Hp. destruct (connected c) eqn:En.
  - destruct (i_idle0 Hs eq_refl Hp) as [E|[E|?]]; [destruct (i_writing0 E) as [s ?]; by exists (OWrite s)| |done].
    destruct (in_flight_ c) as [|x fl] eqn:Ex; [done|]. destruct (Hb (if_stream x, cb_id (if_cb x))) as [H|H]; [unfold flying; rewrite Ex; by left|by eexists..].
  - destruct (Hw Hs Hp) as [?|[E|[E|?]]]; [congruence| | |done].
    + destruct (Hc E) as [?|(s & _ & [?|?])]; by eexists.
    + specialize (i_sched0 E). by eexists.
Qed.

#[export] Instance RestClient_transport : RestTransport Client (NetEnv * Input).
Proof.
  refine {| transport_step := step; transport_new := fun c => exists cfg, c = Client_new cfg;
            sent_ids := offered; answered_ids := fun c => fst <$> answers c; held_ids := held_requests; transport_inv := counted [] |}.
  - intros c [cfg ->]. by split; cbn; auto with lia.
  - intros c i. apply step_counted.
  - intros c [H _ _]. by rewrite app_nil_r in H.
Defined.

(** ** What is not bounded *)
Lemma step_complete e op r c : may_complete op r c = true ->
  step c (e, IComplete op r) = run_handler e (complete e op r (c <| outstanding ::= remove_op op |>)).
Proof. intros Hm. cbn [step]. by rewrite Hm. Qed.
(** Connecting fails and the timer expires, any number of times. *)
Definition failed_attempts (l : list (NetEnv * NetEnv)) : list (NetEnv * Input) :=
  concat ((fun '(e1, e2) => [(e1, IComplete OResolve (RErr false)); (e2, IComplete OReconnect ROk)]) <$> l).
(** A request that waits for a connection has no time limit.  As long as the host
    cannot be looked up the request stays in the queue: its callback is not called, with
    a failure or a timeout, however many attempts are made. *)
Theorem unreachable_host_unanswered (cfg : RestClientConfig) (req : RestRequest) (headers : L2Headers) (cb : Callback)
    (e : NetEnv) (attempts : list (NetEnv * NetEnv)) :
  let c := reachable cfg ((e, ISend req headers cb) :: failed_attempts attempts) in
  answers c = [] /\ pending_ c = [mkPendingRequest req headers cb] /\ outstanding c = [OResolve].
Proof.
  cbv zeta. unfold reachable, run. cbn [foldl]. set (c0 := step _ _).
  assert (pending_ c0 = [mkPendingRequest req headers cb] /\ answers c0 = [] /\ outstanding c0 = [OResolve] /\ stream c0 = None /\
    shutdown_requested c0 = false /\ reconnect_scheduled c0 = false /\ connecting c0 = true /\ connected c0 = false /\ has_cached_endpoints_ c0 = false /\ in_flight_ c0 = []) as H0.
  { unfold c0. destruct cfg as [h t [|m] d b x], cb as [id [f|]]; by repeat split. }
  clearbody c0. revert c0 H0. induction attempts as [|[e1 e2] l IH]; intros c (H1 & H2 & H3 & H4 & H5 & H6 & H7 & H8 & H9 & H10); [done|].
  cbn [failed_attempts fmap list_fmap concat app foldl]. apply IH.
  destruct c. cbn in H1, H2, H3, H4, H5, H6, H7, H8, H9, H10. subst.
  rewrite (step_complete e1 OResolve) by reflexivity. rewrite (step_complete e2 OReconnect) by reflexivity. by repeat split.
Qed.

(** Sent after the shutdown, a request waits for ever: no operation is outstanding. *)
Lemma sent_after_shutdown cfg req headers cb e e' :
  let c := reachable cfg [(e, IShutdown); (e', ISend req headers cb)] in
  answers c = [] /\ pending_ c = [mkPendingRequest req headers cb] /\ outstanding c = [].
Proof.
  cbv zeta. unfold reachable, run. cbn [foldl].
  assert (step (Client_new cfg) (e, IShutdown) = (Client_new cfg) <| shutdown_requested := true |>) as -> by reflexivity.
  destruct cfg as [h t [|m] d b x], cb as [id [f|]]; by repeat split.
Qed.
End Results.

(** A body that ends before its stream does is taken for complete. *)
Lemma truncated_body_accepted : gzip_decompress (H := fun _ => Some [(Z_OK, "abc"%string)]) "x" = Some "abc"%string.
Proof. done. Qed.

(** ** Examples *)
Section Examples.
#[local] Instance no_zlib : Zlib := fun _ => None.
Definition sample_net : NetEnv := mkNetEnv 1000 0 true.
Definition sample_request (path : string) : RestRequest := mkRestRequest GET path [] 0.
Definition sample_headers : L2Headers := mkL2Headers "key" [] [] "pass" [].
(** Three requests; two are written into the connection, one is answered. *)
Definition sample_run : list (NetEnv * Input) := (fun i => (sample_net, i)) <$>
  [ISend (sample_request "/a") sample_headers (plain 1); ISend (sample_request "/b") sample_headers (plain 2);
   IComplete OResolve ROk; IComplete (OConnect 0) ROk; IComplete (OHandshake 0) ROk; IComplete (OWrite 0) ROk;
   IComplete (ORead 0) (RResponse (mkHttpResponse 200 "" "one") 0); ISend (sample_request "/c") sample_headers (plain 3)].
Example sample_state :
  let c := reachable RestClientConfig_default sample_run in
  answers c = [(1%nat, mkRestResponse false 200 0 "one")] /\ written_ids c = [1; 2]%nat /\ pending_ids c = [3]%nat /\
  outstanding c = [OWrite 0; ORead 0].
Proof. by repeat split. Qed.
(** The server answers three pipelined requests at once, and the read of the first
    response takes the second one into the buffer, too: it is thrown away when the next
    read begins, the second request gets the third response, and the third waits for a
    response that does not come. *)
Definition pipelined_run : list (NetEnv * Input) := (fun i => (sample_net, i)) <$>
  [ISend (sample_request "/a") sample_headers (plain 1); ISend (sample_request "/b") sample_headers (plain 2);
   ISend (sample_request "/c") sample_headers (plain 3);
   IComplete OResolve ROk; IComplete (OConnect 0) ROk; IComplete (OHandshake 0) ROk; IComplete (OWrite 0) ROk; IComplete (OWrite 0) ROk;
   IComplete (OWrite 0) ROk; IComplete (ORead 0) (RResponse (mkHttpResponse 200 "" "a") 1); IComplete (ORead 0) (RResponse (mkHttpResponse 200 "" "c") 0)].
Lemma pipelined_response_lost :
  let c := reachable RestClientConfig_default pipelined_run in
  received_on c = [(0, 1); (0, 2)]%nat /\ numbers c = [(0, 0); (0, 2)]%nat /\ lost c = [(0, 1)]%nat /\
  answers c = [(1%nat, mkRestResponse false 200 0 "a"); (2%nat, mkRestResponse false 200 0 "c")] /\ held_requests c = [3]%nat.
Proof. by repeat split. Qed.
Lemma no_request_stranded_witness :
  let c := reachable RestClientConfig_default sample_run in
  pending_ c <> [] /\ exists op, op ∈ outstanding c /\ (if connected c then connects op = false else connects op = true).
Proof.
  cbv zeta. assert (pending_ (reachable RestClientConfig_default sample_run) <> []) as Hp by (vm_compute; discriminate). split; [exact Hp|].
  apply (no_request_stranded RestClientConfig_default sample_run); [vm_compute; reflexivity|exact Hp].
Defined.
(** The heartbeat's callback sends a cancel-all when the connection fails: the client
    reconnects at once and waits for its timer too. *)
Definition heartbeat_callback : Callback :=
  mkCallback 1 (Some (fun resp => if http_status resp =? 0 then Some (mkRestRequest DELETE_METHOD "/cancel-all" [] 0, sample_headers, 2%nat) else None)).
Definition resend_run : list (NetEnv * Input) := (fun i => (sample_net, i)) <$>
  [ISend (sample_request "/v1/heartbeats") sample_headers heartbeat_callback;
   IComplete OResolve ROk; IComplete (OConnect 0) ROk; IComplete (OHandshake 0) ROk; IComplete (OWrite 0) ROk; IComplete (ORead 0) (RErr true)].
Example cancel_all_queued :
  let c := reachable RestClientConfig_default resend_run in
  answers c = [(1%nat, mkRestResponse true 0 0 "")] /\ pending_ids c = [2]%nat /\ outstanding c = [OConnect 1; OReconnect] /\
  reconnect_timer_ms c = 500.
Proof. by repeat split. Qed.
End Examples.
