(* ===== verification/Http2Client.v ===== *)
(** The HTTP/2 client of the exchange's REST interface: [src/rest/http2_client.cpp],
    and the choice between the two clients, [rest_transport.cpp].

    Requests are streams of one TLS connection, multiplexed by the library nghttp2,
    which is the class [Nghttp2]: it numbers the streams, turns what is submitted into
    bytes to send and asks for the bodies.  What it reports while it reads is an input,
    a list of its callbacks.  TLS streams and scans of the timeout timer are numbered as
    in RestClient, with the same behaviour of the network library: success only on what
    is current, and the handlers of dropped operations run before any other success.

    [streams] is kept in the order of insertion (the code's map has no order).  Log
    messages and the resumption of TLS sessions are left out.

    Shown, until the shutdown and in runs where no call of the library's
    nghttp2_session_mem_send fails: every request is answered exactly once or held, the
    streams stay within the configured limit, and the bytes of a connection are the
    session's in order, in one write at a time.  And what goes wrong: when such a call
    fails in the callback of a timed-out request, that request is answered twice, bytes left from a broken connection are written before the
    preface of the next, library functions are called from its callbacks, a request
    behind a GOAWAY has no time limit, and one sent by a callback during the shutdown is
    lost. *)
From Stdlib Require Import Ascii.
From S2P Require Import Prelude Types Price Events MessageRoundtrip Crypto OrderBuilder Auth Gateway Transport RestClient.
#[local] Abbreviation text := (list ascii).

(** ** The library *)
Inductive SendItem := SBytes (b : text) | SBody (stream_id : Z) (length : nat).   (* a call of the body's reader *)
Class Nghttp2 (S : Type) := {
  session_client_new : option S;
  submit_settings : Z -> S -> S;
  submit_request : list (string * text) -> bool -> S -> Z * S;     (* with a body or not; a negative number is an error *)
  submit_rst_stream : Z -> S -> S;
  mem_send : S -> list SendItem * bool * S;                          (* until nothing is left; false is an error *)
  used : S -> Z -> Prop;                                              (* the streams numbered so far *)
  submit_fresh h b s id s' : submit_request h b s = (id, s') -> 0 <= id -> ~ used s id /\ used s' id;
  submit_mono h b s i : used s i -> used (submit_request h b s).2 i;
  settings_mono n s i : used s i -> used (submit_settings n s) i;
  rst_mono n s i : used s i -> used (submit_rst_stream n s) i;
  send_mono s i : used s i -> used (mem_send s).2 i }.

(** What the library reports while it reads. *)
Inductive RecvEvent :=
  | EHeader (headers_frame : bool) (stream_id : Z) (name value : text)
  | EData (stream_id : Z) (chunk : string)
  | EStreamClose (stream_id : Z)
  | EGoaway
  | ESettings (ack : bool) (max_concurrent_streams : Z)
  | EOther.

(** ** State *)
Record Http2ClientConfig := mkHttp2ClientConfig {
  h2_host : string;
  h2_request_timeout_ms : Z;
  max_concurrent_streams : Z;
  h2_reconnect_base_ms : Z;
  h2_reconnect_max_ms : Z }.
Definition Http2ClientConfig_default : Http2ClientConfig := mkHttp2ClientConfig "clob.polymarket.com" 5000 100 500 30000.
Definition kMaxResponseBody : Z := 1048576.

Record BodyProvider := mkBodyProvider { bp_body : text; bp_offset : nat }.
Record StreamContext := mkStreamContext {
  sc_cb : Callback; sc_http_status : Z; sc_response_body : string; sc_send_ts : Z; sc_body_provider : BodyProvider }.

Inductive Op2 :=
  | HResolve | HReconnect | HScan (n : nat) | HConnect (sid : nat) | HHandshake (sid : nat) | HWrite (sid : nat) | HRead (sid : nat).
#[export] Instance Op2_eq_dec : EqDecision Op2.
Proof. solve_decision. Defined.

Record Http2 {S : Type} := mkHttp2 {
  h_config : Http2ClientConfig;
  tls_stream : option nat;
  session : option S;
  streams : list (Z * StreamContext);
  pending : list PendingRequest;
  h_shutdown_requested : bool;
  h_connected : bool;
  h_connecting : bool;
  writing : bool;
  reading : bool;
  h_reconnect_scheduled : bool;
  goaway_received : bool;
  h_reconnect_backoff_ms : Z;
  h_has_cached_endpoints : bool;
  h_dns_cached_at : Z;
  write_bufs_ : text * text;                 (* write_bufs_[0], write_bufs_[1] *)
  active_buf_ : bool;                        (* the index 1 *)
  staged_pending_ : bool;
  server_max_streams : Z;
  timeout_scan : option nat;                 (* the scan that waits *)
  h_next_stream : nat;
  next_scan : nat;
  h_outstanding : list Op2;
  in_callback : bool;                        (* the library is reading *)
  misused : bool;                            (* it was called, or deleted, meanwhile *)
  send_failed : bool;                        (* a call of nghttp2_session_mem_send failed *)
  h_offered : list nat;
  h_answers : list (nat * RestResponse);
  wire : list (nat * text);                  (* stream, buffer handed to [async_write] *)
  leftover : text;                           (* staged when the connection was made *)
  produced : text }.                         (* by its session since *)
Arguments Http2 : clear implicits.
Arguments mkHttp2 {S}.
Definition Http2_new {S} (cfg : Http2ClientConfig) : Http2 S :=
  mkHttp2 cfg None None [] [] false false false false false false false (h2_reconnect_base_ms cfg) false 0 ([], []) false false 100
    None 0 0 [] false false false [] [] [] [] [].

(** What a method goes on to call. *)
Inductive Call2 :=
  | HAnswer (cb : Callback) (resp : RestResponse)
  | HEnqueue (req : RestRequest) (headers : L2Headers) (cb : Callback)
  | HTrySubmit                                       (* try_submit_pending *)
  | HSubmit                                          (* its loop *)
  | HSend                                            (* session_send *)
  | HFailStreams (todo : list (Z * StreamContext))   (* the loop of fail_all_streams *)
  | HFailPending                                     (* fail_all_pending *)
  | HClosed                                          (* the end of on_connection_error *)
  | HRetry                                           (* schedule_reconnect unless shut down *)
  | HScanTimeouts (todo : list Z)                    (* the second loop of scan_timeouts *)
  | HErase (id : Z)                                  (* its last statement *)
  | HRescan                                          (* schedule_timeout_scan *)
  | HEvents (todo : list RecvEvent)                  (* the library reads *)
  | HReceived (ok : bool)                            (* the reader's handler after it *)
  | HReadOn                                          (* its end *)
  | HSubmitted                                       (* the end of on_tls_handshake *)
  | HShutDown.                                       (* the end of request_shutdown_impl *)

Section Http2.
Context {S : Type} {NG : Nghttp2 S}.
Implicit Types (c : Http2 S) (e : NetEnv).

Definition hlaunch (op : Op2) c : Http2 S := c <| h_outstanding ::= fun l => l ++ [op] |>.
Definition staging c : text := if active_buf_ c then (write_bufs_ c).1 else (write_bufs_ c).2.
Definition active c : text := if active_buf_ c then (write_bufs_ c).2 else (write_bufs_ c).1.
Definition set_staging (b : text) c : Http2 S :=
  c <| write_bufs_ ::= fun '(b0, b1) => if active_buf_ c then (b, b1) else (b0, b) |>.
Definition clear_active c : Http2 S :=
  c <| write_bufs_ ::= fun '(b0, b1) => if active_buf_ c then (b0, []) else ([], b1) |>.

(** ** Connecting *)
Definition h2_schedule_reconnect e c : Http2 S :=
  if h_shutdown_requested c || h_reconnect_scheduled c then c else
  hlaunch HReconnect (c <| h_reconnect_scheduled := true |>
    <| h_reconnect_backoff_ms := next_backoff_ms (h_reconnect_backoff_ms c) (h2_reconnect_max_ms (h_config c)) |>).
Definition h2_on_resolve c : Http2 S :=
  let sid := h_next_stream c in
  hlaunch (HConnect sid) (c <| tls_stream := Some sid |> <| h_next_stream ::= Datatypes.S |>).
Definition h2_start_connect e c : Http2 S :=
  if h_connecting c || h_connected c || h_shutdown_requested c then c else
  let c := c <| h_connecting := true |> in
  if h_has_cached_endpoints c then
    if ne_now e - h_dns_cached_at c >? kDnsCacheExpiryNs then hlaunch HResolve (c <| h_has_cached_endpoints := false |>)
    else h2_on_resolve c
  else hlaunch HResolve c.

(** ** Submitting *)
Definition request_headers (cfg : Http2ClientConfig) (req : RestRequest) (headers : L2Headers) : list (string * text) :=
  [(":method"%string, txt (http_method_str (rr_method req))); (":path"%string, txt (rr_path req)); (":scheme"%string, txt "https");
   (":authority"%string, txt (h2_host cfg)); ("user-agent"%string, txt "LiveTradingv2/1.0"); ("accept"%string, txt "application/json");
   ("poly_api_key"%string, txt (lh_api_key headers)); ("poly_signature"%string, lh_signature headers);
   ("poly_timestamp"%string, lh_timestamp headers); ("poly_passphrase"%string, txt (lh_passphrase headers));
   ("poly_address"%string, lh_address headers)] ++
  match rr_body req with
  | [] => []
  | body => [("content-type"%string, txt "application/json"); ("content-length"%string, int_to_chars (Z.of_nat (length body)))]
  end.
Fixpoint find_stream (id : Z) (l : list (Z * StreamContext)) : option StreamContext :=
  match l with [] => None | (i, x) :: l => if i =? id then Some x else find_stream id l end.
Definition erase_stream (id : Z) (l : list (Z * StreamContext)) : list (Z * StreamContext) := filter (fun x => x.1 <> id) l.
Definition emplace (id : Z) (ctx : StreamContext) (l : list (Z * StreamContext)) : list (Z * StreamContext) :=
  match find_stream id l with Some _ => l | None => l ++ [(id, ctx)] end.
Definition update_stream (id : Z) (f : StreamContext -> StreamContext) (l : list (Z * StreamContext)) : list (Z * StreamContext) :=
  (fun x => if x.1 =? id then (x.1, f x.2) else x) <$> l.
Definition submit_one e (s : S) (req : RestRequest) (headers : L2Headers) (cb : Callback) c : list Call2 * Http2 S :=
  let '(id, s') := submit_request (request_headers (h_config c) req headers) (negb (bool_decide (rr_body req = []))) s in
  let c := c <| session := Some s' |> in
  if id <? 0 then ([HAnswer cb (failed_response false 0)], c) else
  ([], c <| streams ::= emplace id (mkStreamContext cb 0 "" (ne_now e) (mkBodyProvider (rr_body req) 0)) |>).
Definition u32 (z : Z) : Z := z mod 2 ^ 32.
Definition stream_limit c : Z := Z.min (server_max_streams c) (u32 (max_concurrent_streams (h_config c))).
Definition try_submit_pending c : list Call2 :=
  match session c with Some _ => if goaway_received c then [] else [HSubmit; HSend] | None => [] end.
Definition submit_loop e c : list Call2 * Http2 S :=
  match pending c, session c with
  | x :: rest, Some s =>
      if u32 (Z.of_nat (length (streams c))) >=? stream_limit c then ([], c) else
      let '(k, c) := submit_one e s (pr_req x) (pr_headers x) (pr_cb x) (c <| pending := rest |>) in (k ++ [HSubmit], c)
  | _, _ => ([], c)
  end.
Definition h2_enqueue_request e (req : RestRequest) (headers : L2Headers) (cb : Callback) c : list Call2 * Http2 S :=
  let c := c <| h_offered ::= fun l => l ++ [cb_id cb] |> <| pending ::= fun l => l ++ [mkPendingRequest req headers cb] |> in
  if negb (h_connected c) && negb (h_connecting c) && negb (h_reconnect_scheduled c) then ([], h2_start_connect e c)
  else if h_connected c then ([HTrySubmit], c) else ([], c).

(** ** Writing and reading *)
(** The body's reader: the bytes it copies and whether they are the last. *)
Definition body_read_cb (id : Z) (len : nat) c : text * bool * Http2 S :=
  match find_stream id (streams c) with
  | None => ([], true, c)
  | Some ctx =>
      let bp := sc_body_provider ctx in
      let b := take len (drop (bp_offset bp) (bp_body bp)) in
      let bp' := mkBodyProvider (bp_body bp) (bp_offset bp + length b) in
      (b, (length (bp_body bp) <=? bp_offset bp')%nat,
       c <| streams ::= update_stream id (fun x => x <| sc_body_provider := bp' |>) |>)
  end.
Definition send_item (i : SendItem) c : Http2 S :=
  match i with
  | SBytes b => set_staging (staging c ++ b) (c <| produced ::= fun p => p ++ b |>)
  | SBody id len => let '(b, _, c) := body_read_cb id len c in set_staging (staging c ++ b) (c <| produced ::= fun p => p ++ b |>)
  end.
(** Setting off a write; a connected client has a stream. *)
Definition flush_staged c : Http2 S :=
  if negb (staged_pending_ c) then c else
  let c := c <| active_buf_ ::= negb |> <| staged_pending_ := false |> <| writing := true |> in
  match tls_stream c with
  | Some sid => hlaunch (HWrite sid) (c <| wire ::= fun w => w ++ [(sid, active c)] |>)
  | None => c
  end.
Definition on_connection_error c : list Call2 * Http2 S :=
  ([HFailStreams (streams c); HFailPending; HClosed],
   c <| h_connected := false |> <| writing := false |> <| reading := false |> <| timeout_scan := None |>).
Definition session_send c : list Call2 * Http2 S :=
  match session c with
  | Some s =>
      if negb (h_connected c) then ([], c) else
      let '(items, ok, s') := mem_send s in
      let c := foldl (fun c i => send_item i c) (c <| session := Some s' |> <| misused ::= orb (in_callback c) |>) items in
      if negb ok then on_connection_error (c <| send_failed := true |>) else
      let c := if bool_decide (staging c = []) then c else c <| staged_pending_ := true |> in
      ([], if writing c then c else flush_staged c)
  | None => ([], c)
  end.
Definition h2_do_read c : Http2 S :=
  match tls_stream c with
  | Some sid => if reading c || negb (h_connected c) then c else hlaunch (HRead sid) (c <| reading := true |>)
  | None => c
  end.

(** ** Failures *)
Definition answer2 (cb : Callback) (resp : RestResponse) c : list Call2 * Http2 S :=
  (match sends cb resp with Some (req, headers, id) => [HEnqueue req headers (plain id)] | None => [] end,
   c <| h_answers ::= fun l => l ++ [(cb_id cb, resp)] |>).
Definition fail_all_streams e (todo : list (Z * StreamContext)) c : list Call2 * Http2 S :=
  match todo with
  | [] => ([], c <| streams := [] |>)
  | (_, ctx) :: rest => ([HAnswer (sc_cb ctx) (failed_response false (ne_now e - sc_send_ts ctx)); HFailStreams rest], c)
  end.
(** The code removes the front after its callback, which until the shutdown can only
    append. *)
Definition fail_all_pending c : list Call2 * Http2 S :=
  match pending c with
  | [] => ([], c)
  | x :: rest => ([HAnswer (pr_cb x) (failed_response false 0); HFailPending], c <| pending := rest |>)
  end.
Definition connection_closed e c : Http2 S :=
  let c := c <| tls_stream := None |> <| session := None |>
             <| misused ::= orb (in_callback c && bool_decide (is_Some (session c))) |> in
  if h_shutdown_requested c then c else h2_schedule_reconnect e c.

(** ** Timeouts *)
Definition schedule_timeout_scan c : Http2 S :=
  if h_shutdown_requested c then c else
  let n := next_scan c in
  hlaunch (HScan n) (c <| timeout_scan := Some n |> <| next_scan ::= Datatypes.S |>).
Definition overdue e c : list Z :=
  fst <$> filter (fun x => ne_now e - sc_send_ts x.2 > h2_request_timeout_ms (h_config c) * 1000000) (streams c).
Definition scan_timeouts e (todo : list Z) c : list Call2 * Http2 S :=
  match todo with
  | [] => ([], c)
  | id :: rest =>
      let c := c <| session ::= fmap (submit_rst_stream id) |> in
      match find_stream id (streams c) with
      | Some ctx => ([HAnswer (sc_cb ctx) (failed_response true (ne_now e - sc_send_ts ctx)); HErase id; HScanTimeouts rest], c)
      | None => ([HScanTimeouts rest], c)
      end
  end.
Definition scan_start e c : list Call2 :=
  match session c with
  | Some _ => HScanTimeouts (overdue e c) :: if bool_decide (overdue e c = []) then [] else [HSend]
  | None => []
  end.

(** ** The library's callbacks *)
Definition status_of (value : text) : Z := foldl (fun s ch => s * 10 + (char_code ch - 48)) 0 value.
Definition on_header_cb (headers_frame : bool) (id : Z) (name value : text) c : Http2 S :=
  if negb headers_frame then c else
  if bool_decide (name = txt ":status") then c <| streams ::= update_stream id (fun x => x <| sc_http_status := status_of value |>) |> else c.
Definition on_data_chunk_cb (id : Z) (chunk : string) c : Http2 S :=
  c <| streams ::= update_stream id (fun x =>
    if Z.of_nat (String.length (sc_response_body x) + String.length chunk) >? kMaxResponseBody then x
    else x <| sc_response_body := (sc_response_body x ++ chunk)%string |>) |>.
Definition on_stream_close_cb e (id : Z) c : list Call2 * Http2 S :=
  match find_stream id (streams c) with
  | None => ([], c)
  | Some ctx =>
      let resp := mkRestResponse false (sc_http_status ctx) (ne_now e - sc_send_ts ctx) (sc_response_body ctx) in
      let c := c <| streams ::= erase_stream id |> in
      ([HAnswer (sc_cb ctx) resp; HTrySubmit], c)
  end.
Definition on_frame_recv_cb (f : RecvEvent) c : list Call2 * Http2 S :=
  match f with
  | EGoaway =>
      let c := c <| goaway_received := true |> in
      if bool_decide (streams c = []) then on_connection_error c else ([], c)
  | ESettings false val => ([], if val >? 0 then c <| server_max_streams := val |> else c)
  | _ => ([], c)
  end.
(** A session that was deleted reports nothing more. *)
Definition recv_events e (todo : list RecvEvent) c : list Call2 * Http2 S :=
  match todo, session c with
  | ev :: rest, Some _ =>
      let '(k, c) := match ev with
        | EHeader h id name value => ([], on_header_cb h id name value c)
        | EData id chunk => ([], on_data_chunk_cb id chunk c)
        | EStreamClose id => on_stream_close_cb e id c
        | _ => on_frame_recv_cb ev c
        end in (k ++ [HEvents rest], c)
  | _, _ => ([], c)
  end.
Definition received_bytes (ok : bool) c : list Call2 * Http2 S :=
  let c := c <| in_callback := false |> in
  if negb ok then on_connection_error c else ([HSend; HReadOn], c).

Definition h2_shutdown_end c : Http2 S := c <| tls_stream := None |> <| session := None |>.

Definition call2 e (f : Call2) c : list Call2 * Http2 S :=
  match f with
  | HAnswer cb resp => answer2 cb resp c
  | HEnqueue req headers cb => h2_enqueue_request e req headers cb c
  | HTrySubmit => (try_submit_pending c, c)
  | HSubmit => submit_loop e c
  | HSend => session_send c
  | HFailStreams todo => fail_all_streams e todo c
  | HFailPending => fail_all_pending c
  | HClosed => ([], connection_closed e c)
  | HRetry => ([], if h_shutdown_requested c then c else h2_schedule_reconnect e c)
  | HScanTimeouts todo => scan_timeouts e todo c
  | HErase id => ([], c <| streams ::= erase_stream id |>)
  | HRescan => ([], schedule_timeout_scan c)
  | HEvents todo => recv_events e todo c
  | HReceived ok => received_bytes ok c
  | HReadOn => ([], h2_do_read c)
  | HSubmitted => ([HTrySubmit], schedule_timeout_scan (h2_do_read c))
  | HShutDown => ([], h2_shutdown_end c)
  end.

(** ** Completion handlers *)
Definition connect_failed c : list Call2 * Http2 S := ([HFailPending; HRetry], c <| h_connecting := false |>).
Definition h2_on_resolved e (ok : bool) c : list Call2 * Http2 S :=
  if negb ok || h_shutdown_requested c then connect_failed c else
  ([], h2_on_resolve (c <| h_has_cached_endpoints := true |> <| h_dns_cached_at := ne_now e |>)).
Definition h2_on_connected (sid : nat) (ok : bool) c : list Call2 * Http2 S :=
  if negb ok || h_shutdown_requested c then connect_failed c else ([], hlaunch (HHandshake sid) c).
(** [alpn]: the server selected h2. *)
Definition on_tls_handshake e (alpn : bool) c : list Call2 * Http2 S :=
  if negb alpn then connect_failed c else
  match session_client_new with
  | None => ([], h2_schedule_reconnect e (c <| session := None |> <| h_connecting := false |>))
  | Some s =>
      ([HSend; HSubmitted],
       c <| session := Some (submit_settings (max_concurrent_streams (h_config c)) s) |> <| h_connecting := false |> <| h_connected := true |>
         <| goaway_received := false |> <| h_reconnect_backoff_ms := h2_reconnect_base_ms (h_config c) |>
         <| leftover := staging c |> <| produced := [] |>)
  end.
Definition h2_on_handshake e (result : option bool) c : list Call2 * Http2 S :=
  match result with
  | Some alpn => if h_shutdown_requested c then connect_failed c else on_tls_handshake e alpn c
  | None => connect_failed c
  end.
Definition h2_on_reconnect_timer e (ok : bool) c : Http2 S :=
  let c := c <| h_reconnect_scheduled := false |> in
  if negb ok || h_shutdown_requested c then c else h2_start_connect e c.
Definition h2_on_written (ok : bool) c : list Call2 * Http2 S :=
  let c := clear_active (c <| writing := false |>) in
  if negb ok then on_connection_error c else ([HSend], c).
Definition h2_on_read (result : option (list RecvEvent * bool)) c : list Call2 * Http2 S :=
  let c := c <| reading := false |> in
  match result with
  | None => on_connection_error c
  | Some (events, ok) => ([HEvents events; HReceived ok], c <| in_callback := true |>)
  end.
Definition on_scan_timer e (ok : bool) c : list Call2 * Http2 S :=
  if negb ok || h_shutdown_requested c then ([], c) else
  (scan_start e c ++ [HRescan], c <| timeout_scan := None |>).
Definition request_shutdown_impl c : list Call2 * Http2 S :=
  ([HFailStreams (streams c); HFailPending; HShutDown], c <| h_shutdown_requested := true |> <| timeout_scan := None |>).

Inductive Result2 := R2Ok | R2Err | R2Alpn (h2 : bool) | R2Recv (events : list RecvEvent) (ok : bool).
Definition complete2 e (op : Op2) (r : Result2) c : list Call2 * Http2 S :=
  match op, r with
  | HResolve, R2Ok => h2_on_resolved e true c
  | HResolve, R2Err => h2_on_resolved e false c
  | HReconnect, R2Ok => ([], h2_on_reconnect_timer e true c)
  | HReconnect, R2Err => ([], h2_on_reconnect_timer e false c)
  | HScan _, R2Ok => on_scan_timer e true c
  | HScan _, R2Err => on_scan_timer e false c
  | HConnect sid, R2Ok => h2_on_connected sid true c
  | HConnect sid, R2Err => h2_on_connected sid false c
  | HHandshake _, R2Alpn h2 => h2_on_handshake e (Some h2) c
  | HHandshake _, R2Err => h2_on_handshake e None c
  | HWrite _, R2Ok => h2_on_written true c
  | HWrite _, R2Err => h2_on_written false c
  | HRead _, R2Recv events ok => h2_on_read (Some (events, ok)) c
  | HRead _, R2Err => h2_on_read None c
  | _, _ => ([], c)
  end.
Definition dropped c (op : Op2) : bool :=
  match op with
  | HResolve | HReconnect => false
  | HScan n => negb (bool_decide (timeout_scan c = Some n))
  | HConnect sid | HHandshake sid | HWrite sid | HRead sid => negb (bool_decide (tls_stream c = Some sid))
  end.
Definition result2_fits (op : Op2) (r : Result2) : bool :=
  match op, r with
  | _, R2Err => true
  | HHandshake _, R2Alpn _ | HRead _, R2Recv _ _ => true
  | (HHandshake _ | HRead _), _ => false
  | _, R2Ok => true
  | _, _ => false
  end.
Definition may_complete2 (op : Op2) (r : Result2) c : bool :=
  bool_decide (op ∈ h_outstanding c) && result2_fits op r &&
  match r with
  | R2Err => match op with HReconnect => h_shutdown_requested c | HScan _ => dropped c op | _ => true end
  | _ => forallb (fun o => negb (dropped c o)) (h_outstanding c)
  end.
Fixpoint remove_op2 (op : Op2) (l : list Op2) : list Op2 :=
  match l with
  | [] => []
  | x :: l => if bool_decide (x = op) then l else x :: remove_op2 op l
  end.

(** Enough fuel: a call pays for those it makes, a queued request for its stream and a
    stream for each way it can fail. *)
Definition cb_weight (cb : Callback) : nat := match cb_sends cb with Some _ => 12 | None => 1 end.
Definition streams_weight (l : list (Z * StreamContext)) : nat := sum_list_with (fun x => cb_weight (sc_cb x.2) + 1)%nat l.
Arguments streams_weight _ : simpl never.
Arguments cb_weight _ : simpl never.
Definition call2_weight (f : Call2) : nat :=
  match f with
  | HAnswer cb _ => cb_weight cb
  | HEnqueue _ _ cb => 3 * cb_weight cb + 8
  | HTrySubmit => 3
  | HFailStreams todo => 1 + streams_weight todo
  | HScanTimeouts todo => 1 + 15 * length todo
  | HEvents todo => 1 + 5 * length todo
  | HReceived _ => 4
  | HSubmitted => 4
  | _ => 1
  end.
Definition receiving (k : list Call2) : bool := existsb (fun f => match f with HReceived _ => true | _ => false end) k.
Arguments receiving _ : simpl never.
Definition weight2 (k : list Call2) c : nat :=
  sum_list_with call2_weight k + sum_list_with (fun x => 3 * cb_weight (pr_cb x) + 4)%nat (pending c) +
  (1 + (if h_connected c then 1 else 0) + (if receiving k then 1 else 0)) * streams_weight (streams c) + (if h_connected c then 5 else 0).
Definition run_handler2 e (k : list Call2 * Http2 S) : Http2 S := default k.2 (run_calls (call2 e) (weight2 k.1 k.2) k.1 k.2).

Inductive Input2 :=
  | H2Send (req : RestRequest) (headers : L2Headers) (cb : Callback)
  | H2Shutdown
  | H2Complete (op : Op2) (r : Result2).
Definition step2 c (i : NetEnv * Input2) : Http2 S :=
  let '(e, i) := i in
  match i with
  | H2Send req headers cb => run_handler2 e ([HEnqueue req headers cb], c)
  | H2Shutdown => run_handler2 e (request_shutdown_impl c)
  | H2Complete op r =>
      if may_complete2 op r c then run_handler2 e (complete2 e op r (c <| h_outstanding ::= remove_op2 op |>)) else c
  end.
Definition run2 (cfg : Http2ClientConfig) (l : list (NetEnv * Input2)) : Http2 S := foldl step2 (Http2_new cfg) l.

(** ** The calls end *)
Lemma sw_app l l' : streams_weight (l ++ l') = (streams_weight l + streams_weight l')%nat.
Proof. apply sum_list_with_app. Qed.
Lemma sw_update id f l : (forall x, sc_cb (f x) = sc_cb x) -> streams_weight (update_stream id f l) = streams_weight l.
Proof.
  intros Hf. unfold streams_weight. induction l as [|[i x] l IH]; [done|].
  change (update_stream id f ((i, x) :: l)) with ((if i =? id then (i, f x) else (i, x)) :: update_stream id f l). cbn [sum_list_with foldr].
  rewrite IH. destruct (i =? id); cbn; by rewrite ?Hf.
Qed.
Lemma sw_erase_le id l : (streams_weight (erase_stream id l) <= streams_weight l)%nat.
Proof. unfold streams_weight, erase_stream. induction l as [|[i x] l IH]; [done|]. rewrite filter_cons. case_decide; cbn [sum_list_with foldr]; lia. Qed.
Lemma sw_erase id l ctx : find_stream id l = Some ctx -> (streams_weight (erase_stream id l) + cb_weight (sc_cb ctx) + 1 <= streams_weight l)%nat.
Proof.
  unfold streams_weight, erase_stream. induction l as [|[i x] l IH]; [done|]. rewrite filter_cons. cbn [find_stream]. pose proof (sw_erase_le id l) as Hle.
  unfold streams_weight, erase_stream in Hle. destruct (Z.eqb_spec i id) as [->|Hn].
  - intros [= ->]. case_decide; [done|]. cbn [sum_list_with foldr]. cbn [fst snd]. lia.
  - intros E. specialize (IH E). case_decide as Hd; cbn [sum_list_with foldr]; [lia|]. by destruct Hd.
Qed.
Lemma sw_emplace id ctx l : (streams_weight (emplace id ctx l) <= streams_weight l + cb_weight (sc_cb ctx) + 1)%nat.
Proof. unfold emplace. destruct (find_stream id l); [lia|]. rewrite sw_app. unfold streams_weight. cbn. lia. Qed.

(** What sending and connecting leave alone. *)
Record same_weight c c' : Prop := {
  sw_pending : pending c' = pending c;
  sw_streams : streams_weight (streams c') = streams_weight (streams c);
  sw_connected : h_connected c' = h_connected c }.
Lemma same_weight_mu k c c' : same_weight c c' -> weight2 k c' = weight2 k c.
Proof. intros [E1 E2 E3]. unfold weight2. by rewrite E1, E2, E3. Qed.
Lemma send_item_weight i c : same_weight c (send_item i c).
Proof.
  destruct i as [b|id len]; [done|]. cbn [send_item]. unfold body_read_cb. destruct (find_stream id (streams c)); [|done].
  split; [done| |done]. cbn. by apply sw_update.
Qed.
Lemma send_items_weight items c : same_weight c (foldl (fun c i => send_item i c) c items).
Proof.
  revert c. induction items as [|i items IH]; intros c; [done|]. cbn [foldl]. destruct (send_item_weight i c), (IH (send_item i c)). split; congruence.
Qed.
Lemma start_connect2_weight e c : same_weight c (h2_start_connect e c).
Proof. unfold h2_start_connect. repeat case_match; done. Qed.
Lemma schedule2_weight e c : same_weight c (h2_schedule_reconnect e c).
Proof. unfold h2_schedule_reconnect. by case_match. Qed.
Lemma closed_weight e c : same_weight c (connection_closed e c).
Proof. unfold connection_closed. case_match; [done|]. by destruct (schedule2_weight e (c <| tls_stream := None |> <| session := None |> <| misused ::= orb (in_callback c && bool_decide (is_Some (session c))) |>)). Qed.
Lemma do_read2_weight c : same_weight c (h2_do_read c).
Proof. unfold h2_do_read. by repeat case_match. Qed.
Lemma rescan_weight c : same_weight c (schedule_timeout_scan c).
Proof. unfold schedule_timeout_scan. by case_match. Qed.
Lemma weight2_app k k' c : receiving k = false -> weight2 (k ++ k') c = (sum_list_with call2_weight k + weight2 k' c)%nat.
Proof. intros Hr. unfold weight2, receiving in *. rewrite sum_list_with_app, existsb_app, Hr. cbn [orb]. lia. Qed.
Lemma weight2_cons f k c : receiving [f] = false -> weight2 (f :: k) c = (call2_weight f + weight2 k c)%nat.
Proof. intros Hr. change (f :: k) with ([f] ++ k). rewrite (weight2_app [f] k c Hr). cbn [sum_list_with foldr]. lia. Qed.
(** An error of the connection is paid by the connection. *)
Lemma error_weight k c : h_connected c = true ->
  let '(k', c') := on_connection_error c in (weight2 (k' ++ k) c' + 2 <= weight2 k c)%nat.
Proof.
  intros Hc. unfold on_connection_error. rewrite weight2_app by done. unfold weight2. cbn. rewrite Hc. destruct (receiving k); lia.
Qed.
Lemma goaway_weight k c : streams c = [] -> let '(k', c') := on_connection_error c in (weight2 (k' ++ k) c' <= weight2 k c + 3)%nat.
Proof.
  intros Hs. unfold on_connection_error. rewrite weight2_app by done. unfold weight2. cbn. rewrite Hs. change (streams_weight []) with 0%nat. destruct (h_connected c), (receiving k); lia.
Qed.
Lemma submit_weight e k c : let '(k', c') := submit_loop e c in (weight2 (k' ++ k) c' < weight2 (HSubmit :: k) c)%nat.
Proof.
  unfold submit_loop. rewrite (weight2_cons HSubmit) by done. cbn [call2_weight]. destruct (pending c) as [|x rest] eqn:Ep; [cbn [app]; lia|].
  destruct (session c) as [s|]; [|cbn [app]; lia]. destruct (_ >=? _); [cbn [app]; lia|]. unfold submit_one. destruct (submit_request _ _ s) as [id s'].
  destruct (id <? 0).
  - rewrite weight2_app by done. unfold weight2. cbn. rewrite Ep. cbn. destruct (h_connected c), (receiving k); lia.
  - rewrite weight2_app by done. unfold weight2. cbn. rewrite Ep. cbn.
    pose proof (sw_emplace id (mkStreamContext (pr_cb x) 0 "" (ne_now e) (mkBodyProvider (rr_body (pr_req x)) 0)) (streams c)) as Hs. cbn in Hs.
    destruct (h_connected c), (receiving k); lia.
Qed.
Lemma session_send_weight k c : let '(k', c') := session_send c in (weight2 (k' ++ k) c' < weight2 (HSend :: k) c)%nat.
Proof.
  rewrite (weight2_cons HSend) by done. cbn [call2_weight]. unfold session_send. destruct (session c) as [s|]; [|cbn [app]; lia].
  destruct (h_connected c) eqn:Ec; [|cbn [negb app]; lia]. cbn [negb]. destruct (mem_send s) as [[items ok] s'].
  set (c0 := c <| session := Some s' |> <| misused ::= _ |>). pose proof (send_items_weight items c0) as Hw. set (c1 := foldl _ c0 items) in *.
  assert (weight2 k c1 = weight2 k c) as Hk by (by rewrite (same_weight_mu k c0 c1 Hw)).
  assert (h_connected c1 = true) as Hc1 by (rewrite (sw_connected _ _ Hw); exact Ec). clearbody c1. destruct ok; cbn [negb].
  - set (c2 := if bool_decide (staging c1 = []) then c1 else c1 <| staged_pending_ := true |>).
    assert (same_weight c1 c2) as H2 by (unfold c2; destruct (bool_decide _); by split). rewrite <- Hk, <- (same_weight_mu k c1 c2 H2). cbn [app].
    destruct (writing c2); [lia|]. unfold flush_staged. destruct (negb _); [lia|]. destruct (tls_stream _); unfold weight2; cbn; lia.
  - match goal with |- context [on_connection_error ?x] => pose proof (error_weight k x Hc1) as He; change (weight2 k x) with (weight2 k c1) in He;
      destruct (on_connection_error x); lia end.
Qed.
Lemma events_weight e todo k c : let '(k', c') := recv_events e todo c in (weight2 (k' ++ k) c' < weight2 (HEvents todo :: k) c)%nat.
Proof.
  rewrite (weight2_cons (HEvents todo)) by done. cbn [call2_weight]. unfold recv_events. destruct todo as [|ev rest]; [cbn [app]; lia|].
  destruct (session c); [|cbn [app]; lia]. cbn [length].
  assert (forall c', same_weight c c' -> weight2 (([] ++ [HEvents rest]) ++ k) c' < 1 + 5 * Datatypes.S (length rest) + weight2 k c)%nat as Hsame.
  { intros c' Hw. cbn [app]. rewrite (weight2_cons (HEvents rest)) by done. rewrite (same_weight_mu k c c' Hw). cbn [call2_weight]. lia. }
  destruct ev as [h id name value|id chunk|id| |ack v|].
  - apply Hsame. unfold on_header_cb. repeat case_match; try done. split; [done| |done]. cbn. by apply sw_update.
  - apply Hsame. split; [done| |done]. cbn. apply sw_update. intros x. by case_match.
  - unfold on_stream_close_cb. destruct (find_stream id (streams c)) as [ctx|] eqn:E; [|by apply Hsame].
    rewrite weight2_app by done. unfold weight2. cbn. pose proof (sw_erase id (streams c) ctx E). destruct (h_connected c), (receiving k); lia.
  - cbn [on_frame_recv_cb]. case_bool_decide as Hs.
    + pose proof (goaway_weight (HEvents rest :: k) (c <| goaway_received := true |>) Hs) as He. unfold on_connection_error in *. rewrite <- app_assoc. cbn [app] in *.
      rewrite (weight2_cons (HEvents rest) k (c <| goaway_received := true |>)) in He by done. cbn [call2_weight] in He.
      change (weight2 k (c <| goaway_received := true |>)) with (weight2 k c) in He. lia.
    + by apply Hsame.
  - cbn [on_frame_recv_cb]. destruct ack; [by apply Hsame|]. destruct (v >? 0); by apply Hsame.
  - by apply Hsame.
Qed.
Lemma receiving_cons g k : receiving (g :: k) = receiving [g] || receiving k.
Proof. unfold receiving. cbn. by rewrite orb_false_r. Qed.
(** The library reads once. *)
Definition reads_once (k : list Call2) : Prop := (length (filter (fun f => receiving [f] = true) k) <= 1)%nat.
Lemma call2_pays e f k c : reads_once (f :: k) -> let '(k', c') := call2 e f c in (weight2 (k' ++ k) c' < weight2 (f :: k) c)%nat.
Proof.
  intros Hone.
  assert (forall c', receiving [f] = false -> same_weight c c' -> (0 < call2_weight f)%nat -> (weight2 ([] ++ k) c' < weight2 (f :: k) c)%nat) as Hsame.
  { intros c' Hr Hw Hp. rewrite (weight2_cons f) by done. cbn [app]. rewrite (same_weight_mu k c c' Hw). lia. }
  destruct f as [cb resp|req headers cb| | | |todo| | | |todo|id| |todo|ok| | |]; cbn [call2].
  - rewrite (weight2_cons (HAnswer cb resp)) by done. unfold answer2, sends. set (c1 := c <| h_answers ::= _ |>).
    change (weight2 k c) with (weight2 k c1). cbn [call2_weight]. unfold cb_weight. destruct (cb_sends cb) as [g|]; [|cbn [app]; lia].
    destruct (g resp) as [[[req headers] id]|]; [rewrite weight2_app by done; cbn; change (cb_weight (plain id)) with 1%nat|cbn [app]]; lia.
  - rewrite (weight2_cons (HEnqueue req headers cb)) by done. cbn [call2_weight]. unfold h2_enqueue_request. set (c1 := c <| h_offered ::= _ |> <| pending ::= _ |>).
    assert (weight2 k c1 = weight2 k c + (3 * cb_weight cb + 4))%nat as E by (unfold weight2; cbn; rewrite sum_list_with_app; cbn; lia). clearbody c1.
    destruct (_ && _); [cbn [app]; rewrite (same_weight_mu k c1 _ (start_connect2_weight e c1)); lia|].
    destruct (h_connected c1); [rewrite (weight2_app [HTrySubmit]) by done; cbn [sum_list_with foldr call2_weight]|cbn [app]]; lia.
  - rewrite (weight2_cons HTrySubmit) by done. unfold try_submit_pending. destruct (session c); [|cbn [app call2_weight]; lia].
    destruct (goaway_received c); [cbn [app call2_weight]; lia|]. rewrite weight2_app by done. cbn. lia.
  - apply submit_weight.
  - apply session_send_weight.
  - rewrite (weight2_cons (HFailStreams todo)) by done. unfold fail_all_streams. destruct todo as [|[id ctx] rest].
    + cbn [app]. unfold weight2, streams_weight. cbn. lia.
    + rewrite weight2_app by done. cbn [call2_weight sum_list_with foldr]. change (streams_weight ((id, ctx) :: rest)) with (cb_weight (sc_cb ctx) + 1 + streams_weight rest)%nat. lia.
  - rewrite (weight2_cons HFailPending) by done. unfold fail_all_pending. destruct (pending c) as [|x rest] eqn:E; [cbn [app call2_weight]; lia|].
    rewrite weight2_app by done. unfold weight2. cbn. rewrite E. cbn. lia.
  - apply Hsame; [done|apply closed_weight|cbn; lia].
  - apply Hsame; [done| |cbn; lia]. case_match; [done|apply schedule2_weight].
  - rewrite (weight2_cons (HScanTimeouts todo)) by done. unfold scan_timeouts. destruct todo as [|id rest]; [cbn [app call2_weight]; lia|].
    destruct (find_stream id _) as [ctx|].
    + rewrite weight2_app by done. change (weight2 k (c <| session ::= _ |>)) with (weight2 k c). cbn [call2_weight sum_list_with foldr length].
      unfold cb_weight. destruct (cb_sends (sc_cb ctx)); lia.
    + rewrite weight2_app by done. change (weight2 k (c <| session ::= _ |>)) with (weight2 k c). cbn [call2_weight sum_list_with foldr length]. lia.
  - rewrite (weight2_cons (HErase id)) by done. unfold weight2. cbn. pose proof (sw_erase_le id (streams c)). destruct (h_connected c), (receiving k); lia.
  - apply Hsame; [done|apply rescan_weight|cbn; lia].
  - apply events_weight.
  - unfold received_bytes. set (c1 := c <| in_callback := false |>).
    assert (weight2 (HReceived ok :: k) c = 4 + weight2 k c1 + (if receiving k then 0 else streams_weight (streams c)))%nat as E.
    { unfold weight2. change (receiving (HReceived ok :: k)) with true. cbn. destruct (h_connected c), (receiving k); lia. }
    assert (receiving k = false) as Er.
    { unfold reads_once in Hone. rewrite filter_cons_True in Hone by done. cbn [length] in Hone. clear -Hone. induction k as [|g k IH]; [done|].
      rewrite filter_cons in Hone. case_decide as Hg; [cbn [length] in Hone; lia|]. rewrite receiving_cons, IH, orb_false_r by done. by apply not_true_iff_false. }
    rewrite E, Er. destruct ok; cbn [negb].
    + rewrite weight2_app by done. cbn. lia.
    + unfold on_connection_error. rewrite weight2_app by done. unfold weight2. cbn. rewrite Er. destruct (h_connected c); lia.
  - apply Hsame; [done|apply do_read2_weight|cbn; lia].
  - rewrite (weight2_cons HSubmitted), (weight2_app [HTrySubmit]) by done.
    rewrite (same_weight_mu k _ _ (rescan_weight (h2_do_read c))), (same_weight_mu k _ _ (do_read2_weight c)). cbn. lia.
  - apply Hsame; [done|done|cbn; lia].
Qed.
Lemma call2_reads e f c : let '(k', _) := call2 e f c in receiving k' = false.
Proof.
  destruct f as [cb resp|req headers cb| | | |todo| | | |todo|id| |todo|ok| | |]; cbn [call2]; try done.
  - unfold answer2. by destruct (sends cb resp) as [[[? ?] ?]|].
  - unfold h2_enqueue_request. by repeat (destruct (_ : bool); [done|]).
  - unfold try_submit_pending. destruct (session c); [|done]. by destruct (goaway_received c).
  - unfold submit_loop. destruct (pending c); [done|]. destruct (session c) as [s|]; [|done]. destruct (_ >=? _); [done|].
    unfold submit_one. destruct (submit_request _ _ s) as [id s']. by destruct (id <? 0).
  - unfold session_send. destruct (session c) as [s|]; [|done]. destruct (negb _); [done|]. destruct (mem_send s) as [[items ok] s']. by destruct (negb ok).
  - unfold fail_all_streams. by destruct todo as [|[? ?] ?].
  - unfold fail_all_pending. by destruct (pending c).
  - unfold scan_timeouts. destruct todo; [done|]. by destruct (find_stream _ _).
  - unfold recv_events. destruct todo as [|ev rest]; [done|]. destruct (session c); [|done]. destruct ev as [h id name value|id chunk|id| |[] v|]; try done.
    + unfold on_stream_close_cb. by destruct (find_stream id (streams c)).
    + cbn. by case_bool_decide.
  - unfold received_bytes. by destruct (negb ok).
Qed.
Lemma run_handler2_calls e k c : reads_once k -> run_calls (call2 e) (weight2 k c) k c = Some (run_handler2 e (k, c)).
Proof.
  intros Hk. unfold run_handler2. cbn [fst snd]. destruct (run_calls_total (call2 e) reads_once weight2 k c) as [c' ->]; [|done..].
  intros f k' c' H1. pose proof (call2_pays e f k' c' H1) as Hp. pose proof (call2_reads e f c') as Hr. destruct (call2 e f c') as [k2 c2]. split; [|done].
  unfold reads_once in *. rewrite filter_app, length_app. replace (filter (fun f => receiving [f] = true) k2) with (@nil Call2).
  - rewrite filter_cons in H1. case_decide; cbn in *; lia.
  - clear -Hr. induction k2 as [|g k2 IH]; [done|]. rewrite receiving_cons in Hr. apply orb_false_iff in Hr as [Hg Hk].
    rewrite filter_cons_False; [by apply IH|]. by rewrite Hg.
Qed.
Lemma run_handler2_inv e (P : list Call2 -> Http2 S -> Prop) k c :
  (forall f k c, P (f :: k) c -> let '(k', c') := call2 e f c in P (k' ++ k) c') -> reads_once k -> P k c -> P [] (run_handler2 e (k, c)).
Proof. intros Hs Hk Hp. exact (run_calls_inv (call2 e) P _ k c _ Hs Hp (run_handler2_calls e k c Hk)). Qed.

(** ** Every request is answered once *)
(** A stream's number and request. *)
Definition ids (l : list (Z * StreamContext)) : list (Z * nat) := (fun x => (x.1, cb_id (sc_cb x.2))) <$> l.
Arguments ids _ : simpl never.
Lemma ids_update id f l : (forall x, sc_cb (f x) = sc_cb x) -> ids (update_stream id f l) = ids l.
Proof. intros Hf. unfold ids, update_stream. rewrite <- list_fmap_compose. apply list_fmap_ext. intros i [j x] _. cbn. destruct (j =? id); cbn; by rewrite ?Hf. Qed.
Lemma find_ids id l : match find_stream id l with Some ctx => (id, cb_id (sc_cb ctx)) ∈ ids l | None => id ∉ (ids l).*1 end.
Proof.
  induction l as [|[i x] l IH]; [by intros ?%elem_of_nil|]. cbn [find_stream]. change (ids ((i, x) :: l)) with ((i, cb_id (sc_cb x)) :: ids l).
  destruct (Z.eqb_spec i id) as [->|Hn]; [by left|]. destruct (find_stream id l); [by right|]. cbn. rewrite not_elem_of_cons. done.
Qed.
Lemma ids_erase id l : ids (erase_stream id l) = filter (fun p => p.1 <> id) (ids l).
Proof.
  unfold erase_stream. induction l as [|[i x] l IH]; [done|]. rewrite filter_cons. change (ids ((i, x) :: l)) with ((i, cb_id (sc_cb x)) :: ids l).
  rewrite filter_cons. cbn [fst]. destruct (decide (i <> id)); [|done]. change (ids ((i, x) :: filter (fun x => x.1 <> id) l)) with ((i, cb_id (sc_cb x)) :: ids (filter (fun x => x.1 <> id) l)). by rewrite IH.
Qed.

Fixpoint failing (k : list Call2) : option (list (Z * StreamContext)) :=
  match k with [] => None | HFailStreams l :: _ => Some l | _ :: k => failing k end.
Definition erasing (k : list Call2) : list Z := omap (fun f => match f with HErase id => Some id | _ => None end) k.
Definition closing (k : list Call2) : bool := existsb (fun f => match f with HClosed => true | _ => false end) k.
Definition call2_ids (k : list Call2) : list nat := omap (fun f => match f with HAnswer cb _ => Some (cb_id cb) | _ => None end) k.
Definition quiet (k : list Call2) : Prop := failing k = None /\ erasing k = [] /\ closing k = false.
(** How the calls can be stacked. *)
Fixpoint stacked (k : list Call2) : Prop :=
  match k with
  | [] => True
  | f :: k => stacked k /\
      match f with
      | HFailStreams _ => failing k = None /\ erasing k = []
      | HScanTimeouts _ | HErase _ | HEvents _ | HReceived _ => quiet k
      | HTrySubmit | HSubmit | HSubmitted | HClosed => failing k = None /\ closing k = false
      | HShutDown => False
      | _ => True
      end
  end.
(** The requests that are streams and not answered yet. *)
Definition live (k : list Call2) c : list nat :=
  match failing k with
  | Some l => (ids l).*2
  | None => (filter (fun p => p.1 ∉ erasing k) (ids (streams c))).*2
  end.
Definition queued c : list nat := (fun x => cb_id (pr_cb x)) <$> pending c.

Record inv2 (k : list Call2) c : Prop := {
  n_stack : stacked k;
  n_ids : h_offered c ≡ₚ (fst <$> h_answers c) ++ queued c ++ live k c ++ call2_ids k;
  n_keys : NoDup (ids (streams c)).*1;
  n_used : forall id, id ∈ (ids (streams c)).*1 -> exists s, session c = Some s /\ used s id;
  n_erasing : forall id, id ∈ erasing k -> id ∈ (ids (streams c)).*1;
  n_fail : is_Some (failing k) -> h_connected c = false;
  n_closing : closing k = true -> h_connected c = false /\ (streams c = [] \/ is_Some (failing k));
  n_off : h_connected c = false -> closing k = false -> session c = None /\ streams c = [];
  n_limit : Z.of_nat (length (streams c)) <= u32 (max_concurrent_streams (h_config c)) }.
(** The calls that change none of this on their way. *)
Definition neutral (f : Call2) : bool :=
  match f with HAnswer _ _ | HFailStreams _ | HErase _ | HClosed => false | _ => true end.
Lemma inv2_pop f k c : neutral f = true -> inv2 (f :: k) c -> inv2 k c.
Proof. intros Hf [[Hs _] Hi Hk Hu He Hfl Hc Ho Hl]. by destruct f; try discriminate Hf; split. Qed.
Lemma inv2_push f k c : neutral f = true -> stacked (f :: k) -> inv2 k c -> inv2 (f :: k) c.
Proof. intros Hf Hk [Hs Hi Hks Hu He Hfl Hc Ho Hl]. by destruct f; try discriminate Hf; split. Qed.
Record same2 c c' : Prop := {
  s2_offered : h_offered c' = h_offered c;
  s2_answers : h_answers c' = h_answers c;
  s2_pending : pending c' = pending c;
  s2_streams : ids (streams c') = ids (streams c);
  s2_session : forall s i, session c = Some s -> used s i -> exists s', session c' = Some s' /\ used s' i;
  s2_none : session c = None -> session c' = None;
  s2_connected : h_connected c' = h_connected c;
  s2_config : h_config c' = h_config c }.
Lemma inv2_same k c c' : same2 c c' -> inv2 k c -> inv2 k c'.
Proof.
  intros [E1 E2 E3 E4 E5 E6 E7 E8] [Hs Hi Hk Hu He Hfl Hc Ho Hl].
  assert (length (streams c') = length (streams c)) as El by (apply (f_equal length) in E4; unfold ids in E4; by rewrite !length_fmap in E4).
  assert (streams c = [] -> streams c' = []) as En by (intros E; rewrite E in El; by destruct (streams c')).
  split; rewrite ?E1, ?E2, ?E4, ?E7, ?E8, ?El; try done.
  - unfold live, queued. by rewrite E3, E4.
  - intros id Hid. destruct (Hu id Hid) as (s & Hs' & Hus). eauto.
  - intros Hcl. destruct (Hc Hcl) as [? [?|?]]; auto.
  - intros A B. destruct (Ho A B). auto.
Qed.
#[export] Instance same2_refl : Reflexive same2.
Proof. intros c. split; eauto. Qed.
Lemma same2_trans c1 c2 c3 : same2 c1 c2 -> same2 c2 c3 -> same2 c1 c3.
Proof.
  intros [] []. split; try congruence; [|by auto]. intros s i E Hu. destruct (s2_session0 s i E Hu) as (s' & E' & Hu'). eauto.
Qed.
(** Changes of fields the invariant does not speak about. *)
Ltac same2_tac := by split; cbn; eauto.
Lemma start_connect2_same e c : same2 c (h2_start_connect e c).
Proof.
  unfold h2_start_connect. destruct (_ || _); [done|]. destruct (h_has_cached_endpoints _); [destruct (_ >? _)|]; same2_tac.
Qed.
Lemma schedule2_same e c : same2 c (h2_schedule_reconnect e c).
Proof. unfold h2_schedule_reconnect. destruct (_ || _); [done|same2_tac]. Qed.
Lemma do_read2_same c : same2 c (h2_do_read c).
Proof. unfold h2_do_read. destruct (tls_stream c); [|done]. destruct (_ || _); [done|same2_tac]. Qed.
Lemma rescan_same c : same2 c (schedule_timeout_scan c).
Proof. unfold schedule_timeout_scan. destruct (h_shutdown_requested c); [done|same2_tac]. Qed.
Lemma update_same id f c : (forall x, sc_cb (f x) = sc_cb x) -> same2 c (c <| streams ::= update_stream id f |>).
Proof. intros Hf. split; cbn; eauto. by apply ids_update. Qed.
Lemma send_item_same i c : same2 c (send_item i c).
Proof.
  destruct i as [b|id len]; [same2_tac|]. cbn [send_item]. unfold body_read_cb. destruct (find_stream id (streams c)); [|same2_tac].
  eapply same2_trans; [apply (update_same id)|same2_tac]. done.
Qed.
Lemma send_items_same items c : same2 c (foldl (fun c i => send_item i c) c items).
Proof. revert c. induction items as [|i items IH]; intros c; [done|]. eapply same2_trans; [apply send_item_same|apply IH]. Qed.
Lemma flush_same c : same2 c (flush_staged c).
Proof. unfold flush_staged. destruct (negb _); [done|]. destruct (tls_stream _); same2_tac. Qed.
Lemma session_send_same c : (forall s, (mem_send s).1.2 = true) -> (session_send c).1 = [] /\ same2 c (session_send c).2.
Proof.
  intros Hok. unfold session_send. destruct (session c) as [s|] eqn:Es; [|done]. destruct (negb _); [done|].
  specialize (Hok s). pose proof (send_mono s) as Hm. destruct (mem_send s) as [[items ok] s']. cbn in Hok, Hm. subst ok. cbn [negb].
  set (c0 := c <| session := Some s' |> <| misused ::= _ |>).
  assert (same2 c c0) as H0 by (split; cbn; eauto; [|congruence]; intros s0 i [= <-]%(eq_trans (eq_sym Es)) Hu; eauto).
  pose proof (send_items_same items c0) as H1. set (c1 := foldl _ c0 items) in *. clearbody c1.
  set (c2 := if bool_decide (staging c1 = []) then c1 else c1 <| staged_pending_ := true |>).
  assert (same2 c1 c2) as H2 by (unfold c2; destruct (bool_decide _); [done|same2_tac]). split; [done|]. cbn [snd].
  eapply same2_trans; [|destruct (writing c2); [reflexivity|apply flush_same]]. by eapply same2_trans; [|eapply same2_trans].
Qed.

Lemma filter_none (l : list (Z * nat)) : filter (fun p => p.1 ∉ @nil Z) l = l.
Proof. induction l as [|x l IH]; [done|]. rewrite filter_cons_True by (by apply not_elem_of_nil). by rewrite IH. Qed.
(** An error of the connection. *)
Lemma error_inv2 k c : inv2 k c -> quiet k -> let '(k', c') := on_connection_error c in inv2 (k' ++ k) c'.
Proof.
  intros [Hs Hi Hk Hu He Hfl Hc Ho Hl] (Qf & Qe & Qc). unfold on_connection_error. split; cbn; try done.
  - rewrite Hi. unfold live. cbn. by rewrite Qf, Qe, filter_none.
  - intros _. split; [done|]. right. by eexists.
Qed.
Lemma answer_inv2 cb resp k c : inv2 (HAnswer cb resp :: k) c -> let '(k', c') := answer2 cb resp c in inv2 (k' ++ k) c'.
Proof.
  intros [[Hs _] Hi Hk Hu He Hfl Hc Ho Hl]. unfold answer2. set (c1 := c <| h_answers ::= _ |>). assert (inv2 k c1) as H1.
  { split; try done. cbn. rewrite Hi. cbn. rewrite fmap_app. change (live (HAnswer cb resp :: k) c) with (live k c). change (live k c1) with (live k c). solve_Permutation. }
  destruct (sends cb resp) as [[[req headers] id]|]; [by apply inv2_push|done].
Qed.
Lemma enqueue_inv2 e req headers cb k c : inv2 k c -> let '(k', c') := h2_enqueue_request e req headers cb c in inv2 (k' ++ k) c'.
Proof.
  intros [Hs Hi Hk Hu He Hfl Hc Ho Hl]. unfold h2_enqueue_request. set (c1 := c <| h_offered ::= _ |> <| pending ::= _ |>). assert (inv2 k c1) as H1.
  { split; try done. cbn. rewrite Hi. unfold queued. cbn. rewrite fmap_app. cbn. change (live k c1) with (live k c). solve_Permutation. }
  destruct (_ && _); [eapply inv2_same; [apply start_connect2_same|done]|]. destruct (h_connected c1) eqn:Ec; [|done].
  apply inv2_push; [done| |done]. split; [done|]. split.
  - destruct (failing k); [|done]. cbn in Ec. rewrite Hfl in Ec; [done|by eexists].
  - destruct (closing k); [|done]. destruct (Hc eq_refl) as [E _]. cbn in Ec. congruence.
Qed.
Lemma u32_pos z : 0 <= u32 z < 2 ^ 32.
Proof. by apply Z.mod_pos_bound. Qed.
Lemma below_limit c : Z.of_nat (length (streams c)) <= u32 (max_concurrent_streams (h_config c)) ->
  u32 (Z.of_nat (length (streams c))) < stream_limit c -> Z.of_nat (length (streams c) + 1) <= u32 (max_concurrent_streams (h_config c)).
Proof.
  intros H1. pose proof (u32_pos (max_concurrent_streams (h_config c))). unfold u32 at 1. rewrite Z.mod_small by lia. unfold stream_limit. lia.
Qed.
Lemma submit_inv2 e k c : inv2 (HSubmit :: k) c -> let '(k', c') := submit_loop e c in inv2 (k' ++ k) c'.
Proof.
  intros H. assert (inv2 k c) as Hk by (by apply (inv2_pop HSubmit)). destruct H as [[Hs [Sf Sc]] _ _ _ _ _ _ _ _]. unfold submit_loop.
  destruct (pending c) as [|x rest] eqn:Ep; [done|]. destruct (session c) as [s|] eqn:Es; [|done].
  destruct (Z.geb_spec (u32 (Z.of_nat (length (streams c)))) (stream_limit c)) as [|Hlt]; [done|]. unfold submit_one.
  destruct (submit_request _ _ s) as [id s'] eqn:Er. destruct Hk as [_ Hi Hkeys Hu He Hfl Hc Ho Hl].
  assert (forall i, used s i -> used s' i) as Hm by (intros i Hi'; pose proof (submit_mono (request_headers (h_config (c <| pending := rest |>)) (pr_req x) (pr_headers x)) (negb (bool_decide (rr_body (pr_req x) = []))) s i Hi') as Hx; by rewrite Er in Hx).
  assert (forall i, i ∈ (ids (streams c)).*1 -> used s i) as Hus by (intros i Hin; destruct (Hu i Hin) as (s0 & E & ?); congruence).
  destruct (Z.ltb_spec id 0) as [Hneg|Hpos].
  - cbn [app]. split; cbn; try done.
    + rewrite Hi. unfold queued. rewrite Ep. cbn. change (live (HAnswer (pr_cb x) (failed_response false 0) :: HSubmit :: k) _) with (live k c). solve_Permutation.
    + intros i Hin. eauto.
    + intros A B. destruct (Ho A B). congruence.
  - destruct (submit_fresh _ _ _ _ _ Er Hpos) as [Hfr Hus'].
    set (ctx := mkStreamContext (pr_cb x) 0 "" (ne_now e) (mkBodyProvider (rr_body (pr_req x)) 0)).
    assert (id ∉ (ids (streams c)).*1) as Hnin by (intros Hin; by apply Hfr, Hus).
    assert (emplace id ctx (streams c) = streams c ++ [(id, ctx)]) as Eem.
    { unfold emplace. pose proof (find_ids id (streams c)) as Hf. destruct (find_stream id (streams c)) as [y|]; [|done]. destruct Hnin. apply (list_elem_of_fmap_2 fst) in Hf. done. }
    assert (ids (emplace id ctx (streams c)) = ids (streams c) ++ [(id, cb_id (pr_cb x))]) as Eids by (rewrite Eem; unfold ids; by rewrite fmap_app).
    cbn [app]. split; cbn; rewrite ?Eids, ?fmap_app; try done.
    + rewrite Hi. unfold queued, live. rewrite Ep. cbn. rewrite Sf, Eids, filter_app, filter_cons_True, filter_nil, fmap_app; [cbn; solve_Permutation|].
      cbn. intros Hin. by apply Hnin, He.
    + apply NoDup_app. split; [done|]. split; [|apply NoDup_singleton]. intros i Hin. cbn. rewrite list_elem_of_singleton. by intros ->.
    + intros i [Hin|Hin]%elem_of_app; [eauto|]. apply list_elem_of_singleton in Hin as ->. eauto.
    + intros i Hin. apply elem_of_app. auto.
    + intros A. assert (closing k = true) by exact A. congruence.
    + intros A B. destruct (Ho A B). congruence.
    + rewrite Eem, length_app. cbn. apply (below_limit c); [done|lia].
Qed.
Lemma fail_streams_inv2 e todo k c : inv2 (HFailStreams todo :: k) c -> let '(k', c') := fail_all_streams e todo c in inv2 (k' ++ k) c'.
Proof.
  intros [[Hs (Qf & Qe)] Hi Hk Hu He Hfl Hc Ho Hl]. unfold fail_all_streams. destruct todo as [|[id ctx] rest].
  - cbn [app]. split; cbn; try done.
    + rewrite Hi. unfold live. by rewrite Qf.
    + constructor.
    + intros i Hin. by apply elem_of_nil in Hin.
    + intros i Hin. assert (i ∈ erasing k) as Hin' by exact Hin. rewrite Qe in Hin'. by apply elem_of_nil in Hin'.
    + intros A. rewrite Qf in A. by destruct A.
    + intros A. destruct (Hc A). auto.
    + intros A B. destruct (Ho A B). auto.
    + lia.
  - cbn [app]. split; try done; [|intros _; apply Hfl; by eexists|intros A; split; [apply Hfl; by eexists|right; by eexists]].
    rewrite Hi. unfold live. cbn [failing call2_ids omap list_omap].
    change (ids ((id, ctx) :: rest)) with ((id, cb_id (sc_cb ctx)) :: ids rest). cbn. solve_Permutation.
Qed.
Lemma fail_pending_inv2 k c : inv2 (HFailPending :: k) c -> let '(k', c') := fail_all_pending c in inv2 (k' ++ k) c'.
Proof.
  intros H. unfold fail_all_pending. destruct (pending c) as [|x rest] eqn:Ep; [by apply (inv2_pop HFailPending)|].
  destruct H as [Hs Hi Hk Hu He Hfl Hc Ho Hl]. cbn [app]. split; try done. cbn. rewrite Hi. unfold queued. rewrite Ep. cbn.
  change (live (HFailPending :: k) c) with (live k c). change (live (HAnswer _ _ :: HFailPending :: k) _) with (live k c). solve_Permutation.
Qed.
Lemma closed_inv2 e k c : inv2 (HClosed :: k) c -> inv2 k (connection_closed e c).
Proof.
  intros [[Hs [Qf Qc]] Hi Hk Hu He Hfl Hc Ho Hl]. unfold connection_closed. set (c1 := c <| tls_stream := None |> <| session := None |> <| misused ::= _ |>).
  destruct (Hc eq_refl) as [Hcn [Hst|[l Hst]]]; [|cbn in Hst; congruence]. assert (inv2 k c1) as H1.
  { split; try done; cbn; rewrite Hst in *; try done.
    - intros id Hin. by apply elem_of_nil in Hin.
    - intros A. assert (closing k = true) by exact A. congruence. }
  destruct (h_shutdown_requested c1); [done|]. eapply inv2_same; [apply schedule2_same|done].
Qed.
Lemma filter_other (id : Z) (l : list (Z * nat)) : id ∉ l.*1 -> filter (fun p => p.1 ∉ [id]) l = l.
Proof.
  induction l as [|x l IH]; [done|]. rewrite fmap_cons, not_elem_of_cons. intros [? ?]. rewrite filter_cons_True by (rewrite list_elem_of_singleton; congruence). by rewrite IH.
Qed.
Lemma one_less (id : Z) (n : nat) (l : list (Z * nat)) : NoDup l.*1 -> (id, n) ∈ l -> l.*2 ≡ₚ n :: (filter (fun p => p.1 ∉ [id]) l).*2.
Proof.
  intros Hk Hf. induction l as [|x l IH]; [by apply elem_of_nil in Hf|]. rewrite fmap_cons in Hk. apply NoDup_cons in Hk as [Hni Hk].
  apply elem_of_cons in Hf as [<-|Hf].
  - rewrite filter_cons_False by (cbn; rewrite list_elem_of_singleton; auto). rewrite (filter_other id l Hni). done.
  - assert (x.1 <> id) as Hne by (intros E; apply Hni; rewrite E; by apply (list_elem_of_fmap_2 fst) in Hf).
    rewrite filter_cons_True by (by rewrite list_elem_of_singleton). rewrite !fmap_cons, (IH Hk Hf). apply Permutation_swap.
Qed.
(** A stream is answered and about to be removed. *)
Lemma mark_inv2 id ctx k k1 c : find_stream id (streams c) = Some ctx -> quiet k -> inv2 k c -> stacked k1 -> failing k1 = failing k ->
  erasing k1 = id :: erasing k -> closing k1 = closing k -> call2_ids k1 = cb_id (sc_cb ctx) :: call2_ids k -> inv2 k1 c.
Proof.
  intros Hf (Qf & Qe & Qc) [_ Hi Hk Hu He Hfl Hc Ho Hl] Hs Ef Ee Ec Ei. pose proof (find_ids id (streams c)) as Hin. rewrite Hf in Hin.
  split; rewrite ?Ef, ?Ee, ?Ec, ?Ei; try done.
  - assert (live k c = (ids (streams c)).*2) as E1 by (unfold live; by rewrite Qf, Qe, filter_none).
    assert (live k1 c = (filter (fun p => p.1 ∉ [id]) (ids (streams c))).*2) as E2 by (unfold live; by rewrite Ef, Ee, Qf, Qe).
    rewrite Hi, E1, E2, (one_less id (cb_id (sc_cb ctx)) (ids (streams c)) Hk Hin). solve_Permutation.
  - rewrite Qe. intros i ->%list_elem_of_singleton. by apply (list_elem_of_fmap_2 fst) in Hin.
Qed.
Lemma scan_inv2 e todo k c : inv2 (HScanTimeouts todo :: k) c -> let '(k', c') := scan_timeouts e todo c in inv2 (k' ++ k) c'.
Proof.
  intros H. assert (inv2 k c) as Hk by (by apply (inv2_pop (HScanTimeouts todo))). destruct H as [[Hs (Qf & Qe & Qc)] _ _ _ _ _ _ _ _].
  unfold scan_timeouts. destruct todo as [|id rest]; [done|]. set (c1 := c <| session ::= _ |>).
  assert (same2 c c1) as Hsame.
  { split; cbn; eauto; [|intros ->; done]. intros s i E Hu. rewrite E. cbn. eexists. split; [done|]. by apply rst_mono. }
  assert (inv2 k c1) as H1 by (by eapply inv2_same). clearbody c1. clear c Hsame Hk. 
  destruct (find_stream id (streams c1)) as [ctx|] eqn:Hf; [|by apply inv2_push].
  by apply (mark_inv2 id ctx k).
Qed.
Lemma erase_inv2 id k c : inv2 (HErase id :: k) c -> inv2 k (c <| streams ::= erase_stream id |>).
Proof.
  intros [[Hs (Qf & Qe & Qc)] Hi Hk Hu He Hfl Hc Ho Hl]. assert ((ids (erase_stream id (streams c))).*1 ⊆ (ids (streams c)).*1) as Hsub.
  { rewrite ids_erase. intros i (p & -> & Hp)%list_elem_of_fmap. apply list_elem_of_filter in Hp as [_ Hp]. by apply (list_elem_of_fmap_2 fst). }
  split; cbn; try done.
  - rewrite Hi. unfold live. change (failing (HErase id :: k)) with (failing k). change (erasing (HErase id :: k)) with (id :: erasing k).
    rewrite Qf, Qe. cbn [streams]. change (ids (streams (c <| streams ::= erase_stream id |>))) with (ids (erase_stream id (streams c))). rewrite ids_erase, filter_none.
    enough (filter (fun p : Z * nat => p.1 ∉ [id]) (ids (streams c)) = filter (fun p => p.1 <> id) (ids (streams c))) as -> by done.
    apply list_filter_iff. intros p. set_solver.
  - rewrite ids_erase. clear -Hk. induction (ids (streams c)) as [|x l IH]; [done|]. cbn in Hk. apply NoDup_cons in Hk as [Hn Hk].
    rewrite filter_cons. case_decide; [|by apply IH]. cbn. apply NoDup_cons. split; [|by apply IH].
    intros (p & E & Hp)%list_elem_of_fmap. apply Hn. rewrite E. apply list_elem_of_filter in Hp as [_ Hp]. by apply (list_elem_of_fmap_2 fst).
  - intros i Hin. by apply Hu, Hsub.
  - intros i Hin. assert (i ∈ erasing k) as Hin' by exact Hin. rewrite Qe in Hin'. by apply elem_of_nil in Hin'.
  - intros A. destruct (Hc A) as [? [E|?]]; [|by auto]. rewrite E. auto.
  - intros A B. destruct (Ho A B) as [? ->]. done.
  - pose proof (length_filter (fun x : Z * StreamContext => x.1 <> id) (streams c)). unfold erase_stream. lia.
Qed.
Lemma events_inv2 e todo k c : inv2 (HEvents todo :: k) c -> let '(k', c') := recv_events e todo c in inv2 (k' ++ k) c'.
Proof.
  intros H. assert (inv2 k c) as Hk by (by apply (inv2_pop (HEvents todo))). destruct H as [[Hs Hq] _ _ _ _ _ _ _ _].
  unfold recv_events. destruct todo as [|ev rest]; [done|]. destruct (session c); [|done].
  assert (forall c', same2 c c' -> inv2 (([] ++ [HEvents rest]) ++ k) c') as Hsame by (intros c' Hc'; apply inv2_push; [done..|by eapply inv2_same]).
  destruct ev as [h id name value|id chunk|id| |ack v|].
  - apply Hsame. unfold on_header_cb. destruct (negb h); [done|]. case_bool_decide; [by apply update_same|done].
  - apply Hsame. apply update_same. intros x. by destruct (_ >? _).
  - unfold on_stream_close_cb. destruct (find_stream id (streams c)) as [ctx|] eqn:E; [|by apply Hsame]. cbn [app].
    set (resp := mkRestResponse _ _ _ _). assert (quiet (HEvents rest :: k)) as Hq' by done. destruct Hq as (Qf & Qe & Qc).
    assert (inv2 (HEvents rest :: k) c) as H1 by (by apply inv2_push).
    apply (erase_inv2 id (HAnswer (sc_cb ctx) resp :: HTrySubmit :: HEvents rest :: k)).
    by apply (mark_inv2 id ctx (HEvents rest :: k)).
  - cbn [on_frame_recv_cb]. case_bool_decide; [|by apply Hsame; same2_tac].
    assert (inv2 (HEvents rest :: k) (c <| goaway_received := true |>)) as H1 by (apply inv2_push; [done..|eapply inv2_same; [|exact Hk]; same2_tac]).
    pose proof (error_inv2 _ _ H1 Hq) as He. unfold on_connection_error in *. by rewrite <- app_assoc.
  - cbn [on_frame_recv_cb]. destruct ack; [by apply Hsame|]. apply Hsame. destruct (v >? 0); [same2_tac|done].
  - by apply Hsame.
Qed.

Section Sending.
(** Sending does not fail (the library's only error here is to run out of memory). *)
Hypothesis Hsend : forall s, (mem_send s).1.2 = true.
Lemma call2_inv e f k c : inv2 (f :: k) c -> let '(k', c') := call2 e f c in inv2 (k' ++ k) c'.
Proof.
  intros H. destruct f as [cb resp|req headers cb| | | |todo| | | |todo|id| |todo|ok| | |]; cbn [call2].
  - by apply answer_inv2.
  - by apply enqueue_inv2, (inv2_pop (HEnqueue req headers cb)).
  - assert (inv2 k c) as Hk by (by apply (inv2_pop HTrySubmit)). destruct H as [[Hs Hq] _ _ _ _ _ _ _ _]. unfold try_submit_pending.
    destruct (session c); [|done]. destruct (goaway_received c); [done|]. by repeat apply inv2_push.
  - by apply submit_inv2.
  - apply inv2_pop in H; [|done]. pose proof (session_send_same c Hsend) as [E1 E2]. destruct (session_send c) as [k' c']. cbn in E1, E2. subst. by eapply inv2_same.
  - by apply fail_streams_inv2.
  - by apply fail_pending_inv2.
  - by apply closed_inv2.
  - apply inv2_pop in H; [|done]. destruct (h_shutdown_requested c); [done|]. eapply inv2_same; [apply schedule2_same|done].
  - by apply scan_inv2.
  - by apply erase_inv2.
  - apply inv2_pop in H; [|done]. eapply inv2_same; [apply rescan_same|done].
  - by apply events_inv2.
  - assert (quiet k) as Hq by (by destruct H as [[_ Hq] _]). apply inv2_pop in H; [|done]. unfold received_bytes.
    assert (inv2 k (c <| in_callback := false |>)) as H1 by (eapply inv2_same; [|exact H]; same2_tac).
    destruct (negb ok); [by apply error_inv2|]. apply inv2_push; [done| |apply inv2_push; [done| |done]]; by destruct H1.
  - apply inv2_pop in H; [|done]. eapply inv2_same; [apply do_read2_same|done].
  - assert (failing k = None /\ closing k = false) as Hq by (by destruct H as [[_ Hq] _]). apply inv2_pop in H; [|done]. apply inv2_push; [done| |].
    + by destruct H.
    + eapply inv2_same; [eapply same2_trans; [apply do_read2_same|apply rescan_same]|done].
  - by destruct H as [[_ []] _].
Qed.

(** At most one attempt to connect is under way, and none while connected. *)
Definition connect_op (op : Op2) : bool := match op with HResolve | HConnect _ | HHandshake _ => true | _ => false end.
Definition attempts (l : list Op2) : list Op2 := filter (fun op => connect_op op = true) l.
Arguments attempts _ : simpl never.
Definition one_attempt c : Prop :=
  length (attempts (h_outstanding c)) = (if h_connecting c then 1%nat else 0%nat) /\ (h_connecting c = true -> h_connected c = false).
Lemma attempts_app l l' : attempts (l ++ l') = attempts l ++ attempts l'.
Proof. apply filter_app. Qed.
Lemma launch_attempt op c : connect_op op = false -> one_attempt c -> one_attempt (hlaunch op c).
Proof.
  intros Ho [H1 H2]. split; [|done]. cbn. rewrite attempts_app, length_app, H1. unfold attempts. rewrite filter_cons_False by (by rewrite Ho). cbn. by destruct (h_connecting c).
Qed.
Lemma start_connect_attempt e c : one_attempt c -> one_attempt (h2_start_connect e c).
Proof.
  intros H. unfold h2_start_connect. destruct (h_connecting c) eqn:E1; [done|]. destruct (h_connected c) eqn:E2; [done|]. destruct (h_shutdown_requested c); [done|].
  cbn [orb]. destruct H as [H _]. rewrite E1 in H. assert (forall op, connect_op op = true -> length (attempts (h_outstanding c ++ [op])) = 1%nat) as Ha.
  { intros op Ho. rewrite attempts_app, length_app, H. unfold attempts. by rewrite filter_cons_True. }
  destruct (h_has_cached_endpoints _); [destruct (_ >? _)|]; (split; [apply Ha; done|done]).
Qed.
Lemma one_attempt_same c c' : h_outstanding c' = h_outstanding c -> h_connecting c' = h_connecting c -> (h_connected c' = true -> h_connected c = true) ->
  one_attempt c -> one_attempt c'.
Proof. intros E1 E2 E3 [H1 H2]. split; rewrite ?E1, ?E2; [done|]. intros Hc. specialize (H2 Hc). destruct (h_connected c'); [|done]. rewrite E3 in H2; done. Qed.
Lemma send_items_conn items c : let c' := foldl (fun c i => send_item i c) c items in
  h_outstanding c' = h_outstanding c /\ h_connecting c' = h_connecting c /\ h_connected c' = h_connected c.
Proof.
  cbv zeta. revert c. induction items as [|i items IH]; intros c; [done|]. cbn [foldl]. destruct (IH (send_item i c)) as (-> & -> & ->).
  destruct i as [b|id len]; [done|]. cbn [send_item]. unfold body_read_cb. by destruct (find_stream id (streams c)).
Qed.
Lemma schedule2_attempt e c : one_attempt c -> one_attempt (h2_schedule_reconnect e c).
Proof. intros H. unfold h2_schedule_reconnect. destruct (_ || _); [done|]. by apply launch_attempt. Qed.
Lemma do_read2_attempt c : one_attempt c -> one_attempt (h2_do_read c).
Proof. intros H. unfold h2_do_read. destruct (tls_stream c); [|done]. destruct (_ || _); [done|]. by apply launch_attempt. Qed.
Lemma rescan_attempt c : one_attempt c -> one_attempt (schedule_timeout_scan c).
Proof. intros H. unfold schedule_timeout_scan. destruct (h_shutdown_requested c); [done|]. by apply launch_attempt. Qed.
Lemma error_attempt c : one_attempt c -> one_attempt (on_connection_error c).2.
Proof. by apply one_attempt_same. Qed.
Lemma session_send_attempt c : one_attempt c -> one_attempt (session_send c).2.
Proof.
  intros H. unfold session_send. destruct (session c) as [s|]; [|done]. destruct (negb _); [done|]. destruct (mem_send s) as [[items ok] s'].
  set (c0 := c <| session := Some s' |> <| misused ::= _ |>). destruct (send_items_conn items c0) as (E1 & E2 & E3). set (c1 := foldl _ c0 items) in *.
  assert (one_attempt c1) as H1 by (apply (one_attempt_same c); by rewrite ?E1, ?E2, ?E3). clearbody c1. destruct (negb ok); [by apply error_attempt, (one_attempt_same c1)|]. cbn [snd].
  set (c2 := if bool_decide (staging c1 = []) then c1 else c1 <| staged_pending_ := true |>).
  assert (one_attempt c2) as H2 by (unfold c2; by destruct (bool_decide _)). destruct (writing c2); [done|]. unfold flush_staged. destruct (negb _); [done|].
  destruct (tls_stream _); [|done]. by apply launch_attempt.
Qed.
Lemma call2_attempt e f c : one_attempt c -> one_attempt (call2 e f c).2.
Proof.
  intros H. destruct f as [cb resp|req headers cb| | | |todo| | | |todo|id| |todo|ok| | |]; cbn [call2]; try done.
  - unfold h2_enqueue_request. destruct (_ && _); [by apply start_connect_attempt|]. by destruct (h_connected _).
  - unfold submit_loop. destruct (pending c); [done|]. destruct (session c) as [s|]; [|done]. destruct (_ >=? _); [done|].
    unfold submit_one. destruct (submit_request _ _ s) as [id s']. by destruct (id <? 0).
  - by apply session_send_attempt.
  - unfold fail_all_streams. by destruct todo as [|[? ?] ?].
  - unfold fail_all_pending. by destruct (pending c).
  - cbn [snd]. unfold connection_closed. destruct (h_shutdown_requested _); [done|]. by apply schedule2_attempt.
  - cbn [snd]. destruct (h_shutdown_requested c); [done|]. by apply schedule2_attempt.
  - unfold scan_timeouts. destruct todo; [done|]. by destruct (find_stream _ _).
  - by apply rescan_attempt.
  - unfold recv_events. destruct todo as [|ev rest]; [done|]. destruct (session c); [|done]. destruct ev as [h id name value|id chunk|id| |[] v|]; try done.
    + cbn. unfold on_header_cb. destruct (negb h); [done|]. by case_bool_decide.
    + unfold on_stream_close_cb. by destruct (find_stream id (streams c)).
    + cbn. case_bool_decide; [|done]. cbn. by apply (one_attempt_same c).
    + cbn. by destruct (v >? 0).
  - unfold received_bytes. destruct (negb ok); [|done]. cbn. by apply (one_attempt_same c).
  - by apply do_read2_attempt.
  - by apply rescan_attempt, do_read2_attempt.
Qed.

(** Removing a completed operation. *)
Lemma remove_attempt op l : op ∈ l -> length (attempts l) = ((if connect_op op then 1 else 0) + length (attempts (remove_op2 op l)))%nat.
Proof.
  induction l as [|x l IH]; [by intros ?%elem_of_nil|]. intros Hin. cbn [remove_op2]. unfold attempts in *. rewrite filter_cons. case_bool_decide as E.
  - subst x. destruct (connect_op op); case_decide; done.
  - apply elem_of_cons in Hin as [->|Hin]; [done|]. rewrite filter_cons. case_decide; cbn [length]; rewrite (IH Hin); lia.
Qed.
Lemma removed_attempt op c : op ∈ h_outstanding c -> connect_op op = false -> one_attempt c -> one_attempt (c <| h_outstanding ::= remove_op2 op |>).
Proof. intros Hin Ho [H1 H2]. split; [|done]. cbn. rewrite (remove_attempt op _ Hin), Ho in H1. done. Qed.
(** The attempt that completed was the only one. *)
Lemma removed_last op c : op ∈ h_outstanding c -> connect_op op = true -> one_attempt c ->
  h_connecting c = true /\ h_connected c = false /\ attempts (remove_op2 op (h_outstanding c)) = [].
Proof.
  intros Hin Ho [H1 H2]. rewrite (remove_attempt op _ Hin), Ho in H1. destruct (h_connecting c); [|lia]. split; [done|]. split; [auto|].
  destruct (attempts _); [done|]. cbn in H1. lia.
Qed.

Ltac reads_tac := unfold reads_once; apply Nat.leb_le; reflexivity.
Definition good (k : list Call2) c : Prop := inv2 k c /\ one_attempt c.
Lemma call2_good e f k c : good (f :: k) c -> let '(k', c') := call2 e f c in good (k' ++ k) c'.
Proof.
  intros [H1 H2]. pose proof (call2_inv e f k c H1) as H. pose proof (call2_attempt e f c H2) as H'. by destruct (call2 e f c).
Qed.
Lemma good_same k c c' : good k c -> same2 c c' -> one_attempt c' -> good k c'.
Proof. intros [H _] Hs Ha. split; [by eapply inv2_same|done]. Qed.
Lemma error_good c : good [] c -> let '(k, c') := on_connection_error c in good k c'.
Proof. intros [H1 H2]. pose proof (error_inv2 [] c H1 ltac:(done)) as H. apply error_attempt in H2. by split. Qed.
Lemma complete2_good e op r c : good [] c -> may_complete2 op r c = true ->
  let '(k, c') := complete2 e op r (c <| h_outstanding ::= remove_op2 op |>) in reads_once k /\ good k c'.
Proof.
  intros Hg Hm. unfold may_complete2 in Hm. apply andb_true_iff in Hm as [Hm _]. apply andb_true_iff in Hm as [Hin Hfit]. apply bool_decide_eq_true_1 in Hin.
  set (c0 := c <| h_outstanding ::= remove_op2 op |>). assert (inv2 [] c0) as H0 by (destruct Hg as [H _]; eapply inv2_same; [|exact H]; same2_tac).
  assert (connect_op op = false -> good [] c0) as Hother by (intros Ho; split; [done|]; by apply removed_attempt; [| |destruct Hg]).
  assert (connect_op op = true -> h_connecting c0 = true /\ h_connected c0 = false /\ attempts (h_outstanding c0) = []) as Hconn
    by (intros Ho; exact (removed_last op c Hin Ho (proj2 Hg))).
  assert (connect_op op = true -> reads_once (connect_failed c0).1 /\ good (connect_failed c0).1 (connect_failed c0).2) as Hfail.
  { intros Ho. destruct (Hconn Ho) as (E1 & E2 & E3). split; [reads_tac|]. split.
    - cbn [connect_failed fst snd]. apply inv2_push; [done..|]. apply inv2_push; [done..|]. eapply inv2_same; [|exact H0]. same2_tac.
    - split; [|done]. change (length (attempts (h_outstanding c0)) = 0%nat). by rewrite E3. }
  assert (forall o c1, connect_op op = true -> connect_op o = true -> same2 c0 c1 -> h_outstanding c1 = h_outstanding c0 -> h_connecting c1 = true ->
    reads_once [] /\ good [] (hlaunch o c1)) as Hnext.
  { intros o c1 Ho Ho1 Hs E1 E2. destruct (Hconn Ho) as (F1 & F2 & F3). split; [reads_tac|]. split; [eapply inv2_same; [|exact H0]; eapply same2_trans; [exact Hs|same2_tac]|].
    split; [|intros _; exact (eq_trans (s2_connected _ _ Hs) F2)]. cbn. rewrite E2, attempts_app, E1, F3. unfold attempts. by rewrite filter_cons_True. }
  destruct op as [| |n|sid|sid|sid|sid], r as [| |h2|events ok]; try done; cbn [complete2].
  - unfold h2_on_resolved. cbn [negb orb]. destruct (h_shutdown_requested c0); [by apply Hfail|]. destruct (Hconn eq_refl) as (E1 & _).
    unfold h2_on_resolve. set (c1 := c0 <| h_has_cached_endpoints := true |> <| h_dns_cached_at := ne_now e |>).
    apply (Hnext (HConnect (h_next_stream c1)) (c1 <| tls_stream := Some (h_next_stream c1) |> <| h_next_stream ::= Datatypes.S |>)); [done..|same2_tac|done|done].
  - by apply Hfail.
  - split; [reads_tac|]. unfold h2_on_reconnect_timer. assert (good [] (c0 <| h_reconnect_scheduled := false |>)) as H1
      by (destruct (Hother eq_refl); eapply good_same; [by split|same2_tac|done]).
    destruct (_ || _); [done|]. destruct H1. eapply good_same; [by split|apply start_connect2_same|by apply start_connect_attempt].
  - split; [reads_tac|]. unfold h2_on_reconnect_timer. cbn [negb orb]. destruct (Hother eq_refl). eapply good_same; [by split|same2_tac|done].
  - unfold on_scan_timer. cbn [negb orb]. destruct (h_shutdown_requested c0); [split; [reads_tac|by apply Hother]|].
    assert (good [] (c0 <| timeout_scan := None |>)) as [H1 H2] by (destruct (Hother eq_refl); eapply good_same; [by split|same2_tac|done]).
    unfold scan_start. destruct (session c0); [|split; [reads_tac|]; split; [by apply inv2_push|done]].
    destruct (bool_decide _); cbn [app]; (split; [reads_tac|]; split; [|done]); by repeat apply inv2_push.
  - split; [reads_tac|]. by apply Hother.
  - unfold h2_on_connected. cbn [negb orb]. destruct (h_shutdown_requested c0); [by apply Hfail|]. destruct (Hconn eq_refl) as (E1 & _). by apply Hnext.
  - by apply Hfail.
  - by apply Hfail.
  - cbn [h2_on_handshake]. destruct (h_shutdown_requested c0); [by apply Hfail|]. unfold on_tls_handshake. destruct (negb h2); [by apply Hfail|].
    destruct (Hconn eq_refl) as (E1 & E2 & E3). destruct H0 as [_ Hi Hk Hu He Hfl Hc Ho Hl]. destruct (Ho E2 eq_refl) as [Es El].
    destruct session_client_new as [s|].
    + split; [reads_tac|]. split; [|split; [change (length (attempts (h_outstanding c0)) = 0%nat); by rewrite E3|done]].
      split; cbn; try done. intros id Hid. change (streams c = []) in El. rewrite El in Hid. by apply elem_of_nil in Hid.
    + split; [reads_tac|]. split.
      * eapply inv2_same; [apply schedule2_same|]. split; cbn; try done. intros id Hid. change (streams c = []) in El. rewrite El in Hid. by apply elem_of_nil in Hid.
      * apply schedule2_attempt. split; [|done]. change (length (attempts (h_outstanding c0)) = 0%nat). by rewrite E3.
  - unfold h2_on_written. cbn [negb]. split; [reads_tac|]. destruct (Hother eq_refl) as [G1 G2]. split; [|done].
    apply inv2_push; [done..|]. eapply inv2_same; [|exact G1]. same2_tac.
  - unfold h2_on_written. cbn [negb]. destruct (Hother eq_refl) as [G1 G2]. set (c1 := clear_active _).
    assert (good [] c1) as G by (split; [eapply inv2_same; [|exact G1]; same2_tac|done]). apply error_good in G. split; [reads_tac|done].
  - cbn [h2_on_read]. split; [reads_tac|]. destruct (Hother eq_refl) as [G1 G2]. set (c1 := c0 <| reading := false |>).
    assert (good [] c1) as G by (split; [eapply inv2_same; [|exact G1]; same2_tac|done]). by apply error_good in G.
  - cbn [h2_on_read]. split; [reads_tac|]. destruct (Hother eq_refl) as [G1 G2]. split; [|done].
    apply inv2_push; [done..|]. apply inv2_push; [done..|]. eapply inv2_same; [|exact G1]. same2_tac.
Qed.
Lemma handler2_good e k c : reads_once k -> good k c -> good [] (run_handler2 e (k, c)).
Proof. intros Hr Hg. by apply (run_handler2_inv e good k c (call2_good e)). Qed.
Lemma step2_good i c : i.2 <> H2Shutdown -> good [] c -> good [] (step2 c i).
Proof.
  intros Hi Hg. destruct i as [e [req headers cb| |op r]]; cbn [step2]; [|done|].
  - apply handler2_good; [reads_tac|]. destruct Hg as [H1 H2]. split; [by apply inv2_push|done].
  - destruct (may_complete2 op r c) eqn:Hm; [|done]. pose proof (complete2_good e op r c Hg Hm) as Hc.
    destruct (complete2 e op r _) as [k c'], Hc. by apply handler2_good.
Qed.
Lemma new2_good cfg : good [] (Http2_new cfg).
Proof.
  split; [|done]. split; cbn; try done; try (by intros ? ?%elem_of_nil); [constructor|apply u32_pos].
Qed.
Lemma run2_good cfg l : Forall (fun i => i.2 <> H2Shutdown) l -> good [] (run2 cfg l).
Proof.
  unfold run2. generalize (new2_good cfg). generalize (Http2_new (S := S) cfg). induction l as [|i l IH]; intros c Hc Hl; [done|].
  apply Forall_cons in Hl as [Hi Hl]. apply IH; [by apply step2_good|done].
Qed.
Lemma good_held c : good [] c -> h_offered c ≡ₚ (fst <$> h_answers c) ++ queued c ++ (ids (streams c)).*2.
Proof. intros [[] _]. unfold live in n_ids0. cbn in n_ids0. by rewrite filter_none, app_nil_r in n_ids0. Qed.

(** ** The bytes of a connection *)
Definition net_op (op : Op2) : bool := match op with HConnect _ | HHandshake _ | HWrite _ => true | _ => false end.
Definition net_ops (l : list Op2) : list Op2 := filter (fun op => net_op op = true) l.
Arguments net_ops _ : simpl never.
Definition writes (l : list Op2) : list Op2 := filter (fun op => match op with HWrite _ => true | _ => false end = true) (net_ops l).
Arguments writes _ : simpl never.
Definition bytes_on (sid : nat) (w : list (nat * text)) : text := concat (filter (fun x => x.1 = sid) w).*2.
Arguments bytes_on _ _ : simpl never.
Record wires c : Prop := {
  w_fresh : forall sid, sid ∈ (wire c).*1 -> (sid < h_next_stream c)%nat;
  w_conn : forall sid, HConnect sid ∈ net_ops (h_outstanding c) \/ HHandshake sid ∈ net_ops (h_outstanding c) -> (sid < h_next_stream c)%nat /\ sid ∉ (wire c).*1;
  w_write : forall sid, HWrite sid ∈ net_ops (h_outstanding c) -> sid ∈ (wire c).*1;
  w_one : (length (writes (h_outstanding c)) <= 1)%nat;
  w_active : writes (h_outstanding c) = [] -> active c = [];
  w_off : h_connected c = false -> writing c = false;
  w_on : h_connected c = true -> exists sid, tls_stream c = Some sid /\ (sid < h_next_stream c)%nat /\ bytes_on sid (wire c) ++ staging c = leftover c ++ produced c /\
    writes (h_outstanding c) = if writing c then [HWrite sid] else [];
  w_full : Forall (fun x => x.2 <> []) (wire c);
  w_staged : staged_pending_ c = true -> staging c <> [] }.
(** A stream that is not connected was not written to. *)
Definition unwritten c : Prop := forall sid, tls_stream c = Some sid -> (sid < h_next_stream c)%nat /\ sid ∉ (wire c).*1.
Definition wired (k : list Call2) c : Prop := wires c /\ (h_connected c = false -> closing k = false -> unwritten c).

Record same_wire c c' : Prop := {
  v_wire : wire c' = wire c;
  v_next : h_next_stream c' = h_next_stream c;
  v_ops : net_ops (h_outstanding c') = net_ops (h_outstanding c);
  v_bufs : write_bufs_ c' = write_bufs_ c;
  v_index : active_buf_ c' = active_buf_ c;
  v_staged : staged_pending_ c' = staged_pending_ c;
  v_connected : h_connected c' = h_connected c;
  v_writing : writing c' = writing c;
  v_tls : tls_stream c' = tls_stream c;
  v_left : leftover c' = leftover c;
  v_produced : produced c' = produced c }.
Lemma wired_same k k' c c' : (closing k' = false -> closing k = false) -> same_wire c c' -> wired k c -> wired k' c'.
Proof.
  intros Hk [E1 E2 E3 E4 E5 Eg E6 E7 E8 E9 E10] [[H1 H2 H3 H4 H5 H6 H7 Hfl Hsg] H8]. unfold wired, unwritten, active, staging, writes in *.
  rewrite ?E1, ?E2, ?E6, ?E8. split; [|by auto]. split; unfold active, staging, writes; rewrite ?E1, ?E2, ?E3, ?E4, ?E5, ?Eg, ?E6, ?E7, ?E8, ?E9, ?E10; done.
Qed.
Lemma launch_wire op c : net_op op = false -> same_wire c (hlaunch op c).
Proof. intros Ho. split; try done. cbn. unfold net_ops. rewrite filter_app, filter_cons_False by (by rewrite Ho). by rewrite app_nil_r. Qed.
#[local] Hint Resolve launch_wire : core.
Lemma schedule2_wire e c : same_wire c (h2_schedule_reconnect e c).
Proof. unfold h2_schedule_reconnect. destruct (_ || _); [done|]. by destruct (launch_wire HReconnect c). Qed.
Lemma do_read2_wire c : same_wire c (h2_do_read c).
Proof. unfold h2_do_read. destruct (tls_stream c) as [sid|] eqn:E; [|done]. destruct (_ || _); [done|]. by destruct (launch_wire (HRead sid) c). Qed.
Lemma rescan_wire c : same_wire c (schedule_timeout_scan c).
Proof. unfold schedule_timeout_scan. destruct (h_shutdown_requested c); [done|]. by destruct (launch_wire (HScan (next_scan c)) c). Qed.
Lemma bytes_on_app sid w w' : bytes_on sid (w ++ w') = bytes_on sid w ++ bytes_on sid w'.
Proof. unfold bytes_on. by rewrite filter_app, fmap_app, concat_app. Qed.
Lemma bytes_on_none sid w : sid ∉ w.*1 -> bytes_on sid w = [].
Proof.
  unfold bytes_on. induction w as [|x w IH]; [done|]. rewrite fmap_cons, not_elem_of_cons. intros [Hn Hw]. rewrite filter_cons_False by congruence. auto.
Qed.
Lemma net_ops_app l op : net_op op = true -> net_ops (l ++ [op]) = net_ops l ++ [op].
Proof. intros Ho. unfold net_ops. by rewrite filter_app, filter_cons_True. Qed.
Lemma writes_app l op : writes (l ++ [op]) = writes l ++ match op with HWrite _ => [op] | _ => [] end.
Proof. unfold writes, net_ops. by destruct op; rewrite filter_app, ?filter_app. Qed.
Lemma elem_net l op : op ∈ net_ops l <-> net_op op = true /\ op ∈ l.
Proof. unfold net_ops. by rewrite list_elem_of_filter. Qed.
(** A new stream. *)
Lemma on_resolve_wired k c : h_connected c = false -> wires c -> wired k (h2_on_resolve c).
Proof.
  intros Hc [H1 H2 H3 H4 H5 H6 H7 Hfl Hsg]. split.
  - split; try done; cbn; rewrite ?net_ops_app, ?writes_app, ?app_nil_r by done; try done.
    + intros sid Hin. specialize (H1 _ Hin). lia.
    + assert (h_next_stream c ∉ (wire c).*1) as Hn by (intros Hin; specialize (H1 _ Hin); lia). intros sid [[Hin|Hin]%elem_of_app|[Hin|Hin]%elem_of_app].
      * destruct (H2 sid ltac:(by left)). split; [lia|done].
      * apply list_elem_of_singleton in Hin as [= ->]. split; [lia|done].
      * destruct (H2 sid ltac:(by right)). split; [lia|done].
      * apply list_elem_of_singleton in Hin. discriminate Hin.
    + intros sid [Hin|Hin]%elem_of_app; [auto|]. apply list_elem_of_singleton in Hin. discriminate Hin.
    + intros E. congruence.
  - intros _ _ sid [= <-]. cbn. split; [lia|]. intros Hin. specialize (H1 _ Hin). lia.
Qed.
Lemma start_connect_wired e k c : wired k c -> wired k (h2_start_connect e c).
Proof.
  intros H. unfold h2_start_connect. destruct (h_connecting c); [done|]. destruct (h_connected c) eqn:Ec; [done|]. destruct (h_shutdown_requested c); [done|]. cbn [orb].
  set (c1 := c <| h_connecting := true |>). assert (wired k c1) as H1 by (by eapply wired_same; [| |exact H]).
  assert (forall c', same_wire c1 c' -> wired k c') as Hs by (intros c' Hv; by eapply wired_same; [| |exact H1]).
  destruct (h_has_cached_endpoints c1); [destruct (_ >? _)|]; [by apply Hs; destruct (launch_wire HResolve c1)| |by apply Hs, launch_wire].
  apply on_resolve_wired; [exact Ec|by destruct H1].
Qed.
(** Bytes are staged, and flushed when no write is under way. *)
Lemma send_item_wires i c : wires c -> h_connected c = true -> wires (send_item i c) /\ h_connected (send_item i c) = true.
Proof.
  intros [H1 H2 H3 H4 H5 H6 H7 Hfl Hsg] Hc.
  assert (forall b c', c' = set_staging (staging c ++ b) (c <| produced ::= fun p => p ++ b |> <| streams := streams c' |>) -> wires c' /\ h_connected c' = true) as Hb.
  { intros b c' ->. split; [|exact Hc]. destruct (H7 Hc) as (sid & E1 & En & E2 & E3).
    split; try done; unfold active, staging in *; destruct (write_bufs_ c) as [b0 b1] eqn:Eb; cbn in *; rewrite ?Eb; destruct (active_buf_ c) eqn:Ea; cbn in *; rewrite ?Ea, ?Eb; try done;
    first [intros Hp Hn; apply app_nil in Hn as [Hn _]; by apply (Hsg Hp)
          |intros _; exists sid; (split; [done|]; split; [done|]; split; [by rewrite !app_assoc, E2|done])]. }
  destruct i as [b|id len]; cbn [send_item]; [by apply (Hb b)|]. unfold body_read_cb. destruct (find_stream id (streams c)); by eapply Hb.
Qed.
Lemma send_items_wires items c : wires c -> h_connected c = true ->
  let c' := foldl (fun c i => send_item i c) c items in wires c' /\ h_connected c' = true.
Proof. cbv zeta. revert c. induction items as [|i items IH]; intros c H Hc; [done|]. destruct (send_item_wires i c H Hc). by apply IH. Qed.
Lemma connected_ops c op : one_attempt c -> h_connected c = true -> op ∈ h_outstanding c -> connect_op op = false.
Proof.
  intros [H1 H2] Hc Hin. destruct (h_connecting c); [specialize (H2 eq_refl); congruence|]. destruct (connect_op op) eqn:Ho; [|done].
  assert (op ∈ attempts (h_outstanding c)) as Ha by (unfold attempts; by rewrite list_elem_of_filter). destruct (attempts _); [by apply elem_of_nil in Ha|discriminate H1].
Qed.
Lemma flush_wires c : one_attempt c -> wires c -> h_connected c = true -> writing c = false -> wires (flush_staged c).
Proof.
  intros Ha [H1 H2 H3 H4 H5 H6 H7 Hfl Hsg] Hc Hw. unfold flush_staged. destruct (staged_pending_ c) eqn:Esp; cbn [negb]; [|split; try done; by rewrite Esp]. destruct (H7 Hc) as (sid & E1 & En & E2 & E3). cbn. rewrite E1.
  rewrite Hw in E3. specialize (H5 E3). split; cbn; rewrite ?net_ops_app, ?writes_app, ?fmap_app, ?E3 by done; try done.
  - intros s [Hin|Hin]%elem_of_app; [auto|]. by apply list_elem_of_singleton in Hin as ->.
  - intros s Hs. exfalso. assert (exists op, op ∈ h_outstanding c /\ connect_op op = true) as (op & Hin & Ho).
    { destruct Hs as [Hs|Hs]; apply elem_of_app in Hs as [Hs|Hs]; try (by apply list_elem_of_singleton in Hs); apply elem_net in Hs as [_ Hs]; by eexists. }
    by rewrite (connected_ops c op Ha Hc Hin) in Ho.
  - intros s [Hin|Hin]%elem_of_app; apply elem_of_app; [auto|]. apply list_elem_of_singleton in Hin as [= ->]. right. by left.
  - congruence.
  - intros _. exists sid. split; [done|]. split; [done|]. split; [|done]. rewrite bytes_on_app. rewrite <- E2. unfold bytes_on at 2. rewrite filter_cons_True by done.
    unfold active, staging in *. cbn. destruct (active_buf_ c); cbn; by rewrite H5, !app_nil_r.
  - apply Forall_app. split; [done|]. constructor; [|done]. specialize (Hsg eq_refl). unfold active, staging in *. cbn. by destruct (active_buf_ c).
Qed.
Lemma session_send_wired k c : one_attempt c -> wired k c -> wired k (session_send c).2.
Proof.
  intros Ha H. unfold session_send. destruct (session c) as [s|]; [|done]. destruct (h_connected c) eqn:Hc; [|done]. cbn [negb].
  specialize (Hsend s). destruct (mem_send s) as [[items ok] s']. cbn in Hsend. subst ok. cbn [negb snd].
  set (c0 := c <| session := Some s' |> <| misused ::= _ |>). assert (wired k c0) as [H0 _] by (by eapply wired_same; [| |exact H]).
  destruct (send_items_wires items c0 H0 Hc) as [H1 Hc1]. destruct (send_items_conn items c0) as (E1 & E2 & E3). set (c1 := foldl _ c0 items) in *.
  assert (one_attempt c1) as Ha1 by (by apply (one_attempt_same c)). clearbody c1.
  set (c2 := if bool_decide (staging c1 = []) then c1 else c1 <| staged_pending_ := true |>).
  assert (wires c2 /\ one_attempt c2 /\ h_connected c2 = true) as (Hw2 & Ha2 & Hc2)
    by (unfold c2; case_bool_decide; [done|]; split; [by destruct H1|done]).
  clearbody c2. destruct (writing c2) eqn:Ew; [by split; [|congruence]|].
  split; [by apply flush_wires|]. intros E. rewrite (s2_connected _ _ (flush_same c2)) in E. congruence.
Qed.
(** Without a connection the stream may be dropped. *)
Lemma error_wired c : wires c -> wires (on_connection_error c).2.
Proof. intros [H1 H2 H3 H4 H5 H6 H7 Hfl Hsg]. split; try done. Qed.
Lemma call2_wired e f k c : good (f :: k) c -> wired (f :: k) c -> let '(k', c') := call2 e f c in wired (k' ++ k) c'.
Proof.
  intros [Hi Ha] Hw.
  assert (forall k' c', closing [f] = false \/ closing k' = true -> same_wire c c' -> wired (k' ++ k) c') as Hsame.
  { intros k' c' Hf Hv. eapply wired_same; [|exact Hv|exact Hw]. unfold closing. rewrite existsb_app. intros E%orb_false_iff. cbn. destruct Hf as [Hf|Hf].
    - cbn in Hf. rewrite orb_false_r in Hf. rewrite Hf. by destruct E.
    - unfold closing in Hf. destruct E. congruence. }
  destruct f as [cb resp|req headers cb| | | |todo| | | |todo|id| |todo|ok| | |]; cbn [call2].
  - unfold answer2. by apply Hsame; [left|].
  - unfold h2_enqueue_request. set (c1 := c <| h_offered ::= _ |> <| pending ::= _ |>). assert (forall k', wired (k' ++ k) c1) as H1 by (intros; apply Hsame; [by left|done]).
    destruct (_ && _); [apply start_connect_wired, (H1 [])|]. destruct (h_connected c1); apply H1.
  - apply Hsame; by auto.
  - unfold submit_loop. destruct (pending c); [apply Hsame; by auto|]. destruct (session c) as [s|]; [|apply Hsame; by auto]. destruct (_ >=? _); [apply Hsame; by auto|].
    unfold submit_one. destruct (submit_request _ _ s) as [id s']. destruct (id <? 0); apply Hsame; by auto.
  - pose proof (session_send_same c Hsend) as [E _]. assert (wired k (session_send c).2) as H1 by (apply session_send_wired; [done|]; apply (Hsame []); by auto).
    destruct (session_send c) as [k' c']. cbn in E, H1. by subst k'.
  - unfold fail_all_streams. destruct todo as [|[? ?] ?]; apply Hsame; by auto.
  - unfold fail_all_pending. destruct (pending c); apply Hsame; by auto.
  - unfold connection_closed. destruct (n_closing _ _ Hi eq_refl) as [Hc _]. set (c1 := c <| tls_stream := None |> <| session := None |> <| misused ::= _ |>). assert (wired k c1) as H1.
    { destruct Hw as [[H1 H2 H3 H4 H5 H6 H7 Hfl Hsg] _]. split; [|done]. split; try done. cbn. congruence. }
    destruct (h_shutdown_requested c1); [done|]. eapply wired_same; [|apply schedule2_wire|exact H1]. done.
  - destruct (h_shutdown_requested c); [apply Hsame; by auto|]. apply Hsame; [by auto|apply schedule2_wire].
  - unfold scan_timeouts. destruct todo; [apply Hsame; by auto|]. destruct (find_stream _ _); apply Hsame; by auto.
  - apply Hsame; by auto.
  - apply Hsame; [by auto|apply rescan_wire].
  - unfold recv_events. destruct todo as [|ev rest]; [apply Hsame; by auto|]. destruct (session c); [|apply Hsame; by auto].
    destruct ev as [h id name value|id chunk|id| |[] v|]; try (apply Hsame; by auto).
    + apply Hsame; [by auto|]. unfold on_header_cb. destruct (negb h); [done|]. by case_bool_decide.
    + unfold on_stream_close_cb. destruct (find_stream id (streams c)); apply Hsame; by auto.
    + cbn [on_frame_recv_cb]. case_bool_decide; [|apply Hsame; by auto]. split; [|done]. destruct Hw as [[H1 H2 H3 H4 H5 H6 H7 Hfl Hsg] _]. by split.
    + cbn [on_frame_recv_cb]. apply Hsame; [by auto|]. by destruct (v >? 0).
  - unfold received_bytes. destruct (negb ok); [|apply Hsame; by auto]. split; [|done]. destruct Hw as [[H1 H2 H3 H4 H5 H6 H7 Hfl Hsg] _]. by split.
  - apply Hsame; [by auto|apply do_read2_wire].
  - apply Hsame; [by auto|]. destruct (do_read2_wire c), (rescan_wire (h2_do_read c)). split; congruence.
  - destruct Hi as [[_ []] _].
Qed.
(** Completing an operation. *)
Lemma remove_sub op x l : x ∈ remove_op2 op l -> x ∈ l.
Proof.
  induction l as [|y l IH]; [done|]. cbn [remove_op2]. case_bool_decide; [by right|]. intros [->|Hx]%elem_of_cons; [by left|right; auto].
Qed.
Lemma remove_writes op l : op ∈ l -> length (writes l) = ((if decide (writes [op] = []) then 0 else 1) + length (writes (remove_op2 op l)))%nat.
Proof.
  assert (forall x l, writes (x :: l) = writes [x] ++ writes l) as Hc by (intros x l'; unfold writes, net_ops; by destruct x).
  induction l as [|x l IH]; [by intros ?%elem_of_nil|]. intros Hin. cbn [remove_op2]. rewrite Hc, length_app. case_bool_decide as E.
  - subst x. case_decide as Hd; [by rewrite Hd|]. by destruct op.
  - apply elem_of_cons in Hin as [->|Hin]; [done|]. rewrite (IH Hin), (Hc x (remove_op2 op l)), length_app. lia.
Qed.
Lemma remove_writes_other op l : writes [op] = [] -> writes (remove_op2 op l) = writes l.
Proof.
  assert (forall x l, writes (x :: l) = writes [x] ++ writes l) as Hc by (intros x l'; unfold writes, net_ops; by destruct x).
  intros Ho. induction l as [|x l IH]; [done|]. cbn [remove_op2]. case_bool_decide as E; [subst x; by rewrite Hc, Ho|]. by rewrite Hc, IH, <- Hc.
Qed.
Lemma removed_wires op c : writes [op] = [] -> wires c -> wires (c <| h_outstanding ::= remove_op2 op |>).
Proof.
  intros Ho [H1 H2 H3 H4 H5 H6 H7 Hfl Hsg]. assert (forall x, x ∈ net_ops (remove_op2 op (h_outstanding c)) -> x ∈ net_ops (h_outstanding c)) as Hsub
    by (intros x; rewrite !elem_net; intros [? ?%remove_sub]; done).
  split; cbn; rewrite ?(remove_writes_other op _ Ho); try done.
  - intros sid [?%Hsub|?%Hsub]; auto.
  - intros sid ?%Hsub. auto.
Qed.
(** A write is over. *)
Lemma written_wires sid c : HWrite sid ∈ h_outstanding c -> wires c ->
  wires (clear_active (c <| h_outstanding ::= remove_op2 (HWrite sid) |> <| writing := false |>)).
Proof.
  intros Hin [H1 H2 H3 H4 H5 H6 H7 Hfl Hsg]. pose proof (remove_writes _ _ Hin) as El. rewrite decide_False in El by done. assert (writes (remove_op2 (HWrite sid) (h_outstanding c)) = []) as E.
  { destruct (writes (remove_op2 _ _)); [done|]. cbn in El. lia. }
  assert (forall x, x ∈ net_ops (remove_op2 (HWrite sid) (h_outstanding c)) -> x ∈ net_ops (h_outstanding c)) as Hsub
    by (intros x; rewrite !elem_net; intros [? ?%remove_sub]; done).
  split; cbn; rewrite ?E; try done; try (cbn; lia).
  - intros s [?%Hsub|?%Hsub]; auto.
  - intros s ?%Hsub. auto.
  - intros _. unfold active. cbn. destruct (write_bufs_ c) as [b0 b1]; cbn. by destruct (active_buf_ c).
  - intros Hc. destruct (H7 Hc) as (s & E1 & En & E2 & _). exists s. do 2 (split; [done|]). split; [|done].
    unfold staging in *. cbn. destruct (write_bufs_ c) as [b0 b1]; cbn in *. by destruct (active_buf_ c).
  - intros Hp. specialize (Hsg Hp). unfold staging in *. cbn. destruct (write_bufs_ c) as [b0 b1]; cbn in *. by destruct (active_buf_ c).
Qed.
(** The connection is made: no earlier write is left. *)
Lemma handshake_wired (z : Z) sid s c : wires c -> h_connected c = false -> HHandshake sid ∈ h_outstanding c ->
  forallb (fun o => negb (dropped c o)) (h_outstanding c) = true ->
  let c0 := c <| h_outstanding ::= remove_op2 (HHandshake sid) |> in
  wires (c0 <| session := s |> <| h_connecting := false |> <| h_connected := true |> <| goaway_received := false |>
            <| h_reconnect_backoff_ms := z |> <| leftover := staging c0 |> <| produced := [] |>).
Proof.
  intros H Hc Hin Hd. cbv zeta. assert (forall o, o ∈ h_outstanding c -> dropped c o = false) as Hnd.
  { intros o Ho. rewrite forallb_forall in Hd. apply list_elem_of_In in Ho. specialize (Hd o Ho). by destruct (dropped c o). }
  pose proof (Hnd _ Hin) as E. cbn in E. apply negb_false_iff, bool_decide_eq_true in E.
  destruct (removed_wires (HHandshake sid) c ltac:(done) H) as [H1 H2 H3 H4 H5 H6 H7 Hfl Hsg].
  destruct (w_conn _ H sid) as [Hlt Hnw]; [right; by rewrite elem_net|]. split; try done. cbn. intros _. exists sid. do 2 (split; [done|]).
  rewrite (bytes_on_none _ _ Hnw). split; [by rewrite app_nil_r|]. rewrite (w_off _ H Hc), (remove_writes_other (HHandshake sid)) by done.
  destruct (writes (h_outstanding c)) as [|o l] eqn:Ew; [done|]. assert (o ∈ writes (h_outstanding c)) as Ho by (rewrite Ew; by left). unfold writes in Ho. rewrite list_elem_of_filter in Ho.
  destruct Ho as [Hk Ho]. destruct o as [| |?|?|?|s'|?]; try discriminate Hk. pose proof (w_write _ H s' Ho) as Hs. apply elem_net in Ho as [_ Ho].
  specialize (Hnd _ Ho). cbn in Hnd. apply negb_false_iff, bool_decide_eq_true in Hnd. congruence.
Qed.
Lemma complete2_wired e op r c : good [] c -> wired [] c -> may_complete2 op r c = true ->
  let '(k, c') := complete2 e op r (c <| h_outstanding ::= remove_op2 op |>) in wired k c'.
Proof.
  intros Hg Hw Hm. unfold may_complete2 in Hm. apply andb_true_iff in Hm as [Hm Hnd]. apply andb_true_iff in Hm as [Hin Hfit]. apply bool_decide_eq_true_1 in Hin.
  set (c0 := c <| h_outstanding ::= remove_op2 op |>).
  assert (writes [op] = [] -> wires c0 /\ (h_connected c0 = false -> unwritten c0)) as H0.
  { intros Ho. destruct Hw as [H1 H2]. split; [by apply removed_wires|]. intros E. exact (H2 E eq_refl). }
  assert (connect_op op = true -> h_connected c0 = false) as Hoff by (intros Ho; by destruct (removed_last op c Hin Ho (proj2 Hg)) as (_ & ? & _)).
  assert (forall k c', writes [op] = [] -> same_wire c0 c' -> wired k c') as Hsame.
  { intros k c' Ho Hv. apply (wired_same [] k c0 c'); [done|done|]. destruct (H0 Ho). by split; [|auto]. }
  destruct op as [| |n|sid|sid|sid|sid], r as [| |h2|events ok]; try done; cbn [complete2].
  - unfold h2_on_resolved. destruct (_ || _); [by apply Hsame|]. destruct (H0 eq_refl) as [H1 _]. apply on_resolve_wired; [by apply Hoff|]. destruct H1. by split.
  - by apply Hsame.
  - unfold h2_on_reconnect_timer. destruct (_ || _); [by apply Hsame|]. apply start_connect_wired. by apply Hsame.
  - by apply Hsame.
  - unfold on_scan_timer. destruct (_ || _); by apply Hsame.
  - by apply Hsame.
  - unfold h2_on_connected. destruct (_ || _); [by apply Hsame|]. destruct (H0 eq_refl) as [[H1 H2 H3 H4 H5 H6 H7 Hfl Hsg] Hu]. split; [|intros E _; exact (Hu E)].
    destruct (w_conn _ (proj1 Hw) sid) as [Hlt Hn]; [left; by rewrite elem_net|].
    split; cbn; rewrite ?net_ops_app, ?writes_app, ?app_nil_r by done; try done.
    + intros s [[Hs|Hs]%elem_of_app|[Hs|Hs]%elem_of_app]; [by apply H2; left|by apply list_elem_of_singleton in Hs|by apply H2; right|].
      by apply list_elem_of_singleton in Hs as [= ->].
    + intros s [Hs|Hs]%elem_of_app; [by apply H3|by apply list_elem_of_singleton in Hs].
  - by apply Hsame.
  - by apply Hsame.
  - cbn [h2_on_handshake]. destruct (h_shutdown_requested c0); [by apply Hsame|]. unfold on_tls_handshake. destruct (negb h2); [by apply Hsame|].
    destruct session_client_new as [s|]; [|apply Hsame; [done|]; by destruct (schedule2_wire e (c0 <| session := None |> <| h_connecting := false |>))].
    split; [|done]. apply handshake_wired; [by destruct Hw|by apply Hoff|done|exact Hnd].
  - unfold h2_on_written. cbn [negb]. destruct Hw as [H1 H2]. split; [by apply written_wires|]. intros E _. exact (H2 E eq_refl).
  - unfold h2_on_written. cbn [negb]. split; [|done]. apply error_wired, written_wires; by destruct Hw.
  - cbn [h2_on_read]. destruct (H0 eq_refl) as [H1 _]. split; [|done]. apply error_wired. by destruct H1.
  - by apply Hsame.
Qed.
(** Nothing stays staged while no write is under way, but to the next call of
    [session_send]. *)
Definition flushed (k : list Call2) c : Prop :=
  h_connected c = true -> is_Some (session c) /\ (staging c = [] \/ writing c = true \/ HSend ∈ k).
Record same_flush c c' : Prop := {
  f_connected : h_connected c' = true -> h_connected c = true;
  f_session : is_Some (session c) -> is_Some (session c');
  f_staging : staging c' = staging c;
  f_writing : writing c' = writing c }.
Lemma flushed_same f k k' c c' : f <> HSend -> same_flush c c' -> flushed (f :: k) c -> flushed (k' ++ k) c'.
Proof.
  intros Hf [Hc Hs Est Hw] H E. destruct (H (Hc E)) as [H1 H2]. split; [auto|]. rewrite Est, Hw. destruct H2 as [?|[?|H2]]; [by left|by right; left|].
  apply elem_of_cons in H2 as [?|?]; [congruence|]. right. right. apply elem_of_app. by right.
Qed.
Lemma start_connect_flush e c : same_flush c (h2_start_connect e c).
Proof. unfold h2_start_connect. destruct (_ || _); [done|]. destruct (h_has_cached_endpoints _); [by destruct (_ >? _)|done]. Qed.
Lemma schedule2_flush e c : same_flush c (h2_schedule_reconnect e c).
Proof. unfold h2_schedule_reconnect. by destruct (_ || _). Qed.
Lemma rescan_flush c : same_flush c (schedule_timeout_scan c).
Proof. unfold schedule_timeout_scan. by destruct (h_shutdown_requested c). Qed.
Lemma do_read2_flush c : same_flush c (h2_do_read c).
Proof. unfold h2_do_read. destruct (tls_stream c); [|done]. by destruct (_ || _). Qed.
Lemma session_send_flushed k c : flushed (HSend :: k) c -> flushed k (session_send c).2.
Proof.
  intros H. unfold session_send. destruct (h_connected c) eqn:Hc; cycle 1.
  { destruct (session c); intros E; cbn in E; congruence. }
  destruct (H Hc) as [[s Es] _]. rewrite Es. cbn [negb]. specialize (Hsend s). destruct (mem_send s) as [[items ok] s']. cbn in Hsend. subst ok. cbn [negb snd].
  set (c0 := c <| session := Some s' |> <| misused ::= _ |>). assert (is_Some (session (foldl (fun c i => send_item i c) c0 items))) as H1.
  { clear -NG. assert (is_Some (session c0)) as H0 by by eexists. revert H0. generalize c0. induction items as [|i items IH]; intros c1 H0; [done|]. apply IH.
    destruct i as [b|id len]; [done|]. cbn [send_item]. unfold body_read_cb. by destruct (find_stream id (streams c1)). }
  set (c1 := foldl _ c0 items) in *. clearbody c1. case_bool_decide as Est.
  - destruct (writing c1) eqn:Ew; [by intros _; split; [|right; left]|]. unfold flush_staged. destruct (negb _); [by intros _; split; [|left]|].
    destruct (tls_stream _); intros _; (split; [done|by right; left]).
  - destruct (writing _) eqn:Ew; [by intros _; split; [|right; left]|]. unfold flush_staged. cbn [negb]. 
    destruct (tls_stream _); intros _; (split; [done|by right; left]).
Qed.
Lemma call2_flushed e f k c : good (f :: k) c -> flushed (f :: k) c -> let '(k', c') := call2 e f c in flushed (k' ++ k) c'.
Proof.
  intros [Hi Ha] H. assert (forall k' c', f <> HSend -> same_flush c c' -> flushed (k' ++ k) c') as Hsame by (intros; by eapply flushed_same).
  destruct f as [cb resp|req headers cb| | | |todo| | | |todo|id| |todo|ok| | |]; cbn [call2]; try (by apply Hsame).
  - unfold h2_enqueue_request. set (c1 := c <| h_offered ::= _ |> <| pending ::= _ |>). destruct (_ && _); [apply Hsame; [done|]; by destruct (start_connect_flush e c1)|].
    by destruct (h_connected c1); apply Hsame.
  - unfold submit_loop. destruct (pending c); [by apply Hsame|]. destruct (session c) as [s|] eqn:Es; [|by apply Hsame]. destruct (_ >=? _); [by apply Hsame|].
    unfold submit_one. destruct (submit_request _ _ s) as [id s']. destruct (id <? 0); apply Hsame; try done; split; try done; by eexists.
  - pose proof (session_send_same c Hsend) as [E _]. apply session_send_flushed in H. destruct (session_send c) as [k' c']. cbn in E, H. by subst k'.
  - unfold fail_all_streams. destruct todo as [|[? ?] ?]; by apply Hsame.
  - unfold fail_all_pending. destruct (pending c); by apply Hsame.
  - destruct (n_closing _ _ Hi eq_refl) as [Hc _]. intros E. unfold connection_closed in E. destruct (h_shutdown_requested _); [cbn in E; congruence|].
    apply (f_connected _ _ (schedule2_flush e _)) in E. cbn in E. congruence.
  - destruct (h_shutdown_requested c); apply Hsame; [done..|apply schedule2_flush].
  - unfold scan_timeouts. destruct todo; [by apply Hsame|]. assert (same_flush c (c <| session ::= fmap (submit_rst_stream z) |>)) as Hs by (split; try done; cbn; intros [s ->]; by eexists).
    destruct (find_stream _ _); by apply Hsame.
  - apply Hsame; [done|apply rescan_flush].
  - unfold recv_events. destruct todo as [|ev rest]; [by apply Hsame|]. destruct (session c); [|by apply Hsame].
    destruct ev as [h id name value|id chunk|id| |[] v|]; try (by apply Hsame).
    + apply Hsame; [done|]. unfold on_header_cb. destruct (negb h); [done|]. by case_bool_decide.
    + unfold on_stream_close_cb. destruct (find_stream id (streams c)); by apply Hsame.
    + cbn [on_frame_recv_cb]. case_bool_decide; [|by apply Hsame]. by intros E.
    + cbn [on_frame_recv_cb]. apply Hsame; [done|]. by destruct (v >? 0).
  - unfold received_bytes. destruct (negb ok); [by intros E|by apply Hsame].
  - apply Hsame; [done|apply do_read2_flush].
  - apply Hsame; [done|]. destruct (do_read2_flush c), (rescan_flush (h2_do_read c)). split; [auto|auto|congruence|congruence].
  - destruct Hi as [[_ []] _].
Qed.
Lemma complete2_flushed e op r c : good [] c -> flushed [] c -> op ∈ h_outstanding c ->
  let '(k, c') := complete2 e op r (c <| h_outstanding ::= remove_op2 op |>) in flushed k c'.
Proof.
  intros Hg H Hin. set (c0 := c <| h_outstanding ::= remove_op2 op |>).
  assert (forall k c', same_flush c0 c' -> flushed k c') as Hsame.
  { intros k c' Hs. rewrite <- (app_nil_r k). apply (flushed_same HRetry [] k c0); [done|done|]. intros E. destruct (H E) as [H1 [?|[?|?%elem_of_nil]]]; [|by split; [|right; left]|done]. by split; [|left]. }
  destruct op as [| |n|sid|sid|sid|sid], r as [| |h2|events ok]; cbn [complete2]; try (by apply Hsame).
  - unfold h2_on_resolved. destruct (_ || _); by apply Hsame.
  - unfold h2_on_reconnect_timer. destruct (_ || _); [by apply Hsame|]. apply Hsame. by destruct (start_connect_flush e (c0 <| h_reconnect_scheduled := false |>)).
  - unfold on_scan_timer. destruct (_ || _); by apply Hsame.
  - unfold h2_on_connected. destruct (_ || _); by apply Hsame.
  - cbn [h2_on_handshake]. destruct (h_shutdown_requested c0); [by apply Hsame|]. unfold on_tls_handshake. destruct (negb h2); [by apply Hsame|].
    destruct session_client_new as [s|]; [intros _; split; [by eexists|right; right; by left]|]. intros E. apply (f_connected _ _ (schedule2_flush e _)) in E. cbn in E.
    destruct (removed_last _ c Hin eq_refl (proj2 Hg)) as (_ & E2 & _). congruence.
  - unfold h2_on_written. cbn [negb]. intros E. destruct (H E) as [Hs _]. split; [exact Hs|]. right. right. by left.
  - unfold h2_on_written. cbn [negb]. by intros E.
  - by intros E.
Qed.
Definition delivers (k : list Call2) c : Prop := good k c /\ wired k c /\ flushed k c.
Lemma new2_delivers cfg : delivers [] (Http2_new cfg).
Proof.
  split; [apply new2_good|]. split; [|done]. split; [|by intros _ _ ?]. split; cbn; try done; try (by intros ? ?%elem_of_nil); [by intros sid [?%elem_of_nil|?%elem_of_nil]|].
  unfold writes, net_ops. cbn. lia.
Qed.
Lemma handler2_delivers e k c : reads_once k -> delivers k c -> delivers [] (run_handler2 e (k, c)).
Proof.
  intros Hr Hp. apply (run_handler2_inv e delivers); [|done..]. intros f k1 c1 (H1 & H2 & H3). pose proof (call2_good e f k1 c1 H1) as H4.
  pose proof (call2_wired e f k1 c1 H1 H2) as H5. pose proof (call2_flushed e f k1 c1 H1 H3) as H6. by destruct (call2 e f c1).
Qed.
Lemma run2_delivers cfg l : Forall (fun i => i.2 <> H2Shutdown) l -> delivers [] (run2 cfg l).
Proof.
  unfold run2. generalize (new2_delivers cfg). generalize (Http2_new (S := S) cfg). induction l as [|i l IH]; intros c H Hl; [done|].
  apply Forall_cons in Hl as [Hi Hl]. apply IH; [|done]. destruct H as (Hg & Hw & Hf), i as [e [req headers cb| |op r]]; cbn [step2]; [|done|].
  - apply handler2_delivers; [reads_tac|]. destruct Hg as [H1 H2]. split; [split; [by apply inv2_push|done]|]. split; [by eapply wired_same; [| |exact Hw]|].
    intros E. destruct (Hf E) as [Hs [?|[?|?%elem_of_nil]]]; [|by split; [|right; left]|done]. by split; [|left].
  - destruct (may_complete2 op r c) eqn:Hm; [|by split]. pose proof (complete2_good e op r c Hg Hm) as Hc. pose proof (complete2_wired e op r c Hg Hw Hm) as Hc'.
    assert (op ∈ h_outstanding c) as Hin by (unfold may_complete2 in Hm; apply andb_true_iff in Hm as [Hm _]; apply andb_true_iff in Hm as [Hm _]; by apply bool_decide_eq_true_1 in Hm).
    pose proof (complete2_flushed e op r c Hg Hf Hin) as Hc2. destruct (complete2 e op r _) as [k c'], Hc. by apply handler2_delivers.
Qed.
End Sending.

(** The configuration does not change. *)
Lemma send_items_config items c : h_config (foldl (fun c i => send_item i c) c items) = h_config c.
Proof. apply (s2_config _ _ (send_items_same items c)). Qed.
Lemma session_send_config c : h_config (session_send c).2 = h_config c.
Proof.
  unfold session_send. destruct (session c) as [s|]; [|done]. destruct (negb _); [done|]. destruct (mem_send s) as [[items ok] s'].
  set (c0 := c <| session := Some s' |> <| misused ::= _ |>). pose proof (send_items_config items c0) as E. set (c1 := foldl _ c0 items) in *.
  change (h_config c0) with (h_config c) in E. rewrite <- E. destruct (negb ok); [done|]. cbn [snd]. case_bool_decide; destruct (writing _); try done; by rewrite (s2_config _ _ (flush_same _)).
Qed.
Lemma call2_config e f c : h_config (call2 e f c).2 = h_config c.
Proof.
  destruct f as [cb resp|req headers cb| | | |todo| | | |todo|id| |todo|ok| | |]; cbn [call2]; try done.
  - unfold h2_enqueue_request. destruct (_ && _); [cbn [snd]; by rewrite (s2_config _ _ (start_connect2_same e _))|]. by destruct (h_connected _).
  - unfold submit_loop. destruct (pending c); [done|]. destruct (session c) as [s|]; [|done]. destruct (_ >=? _); [done|].
    unfold submit_one. destruct (submit_request _ _ s) as [id s']. by destruct (id <? 0).
  - apply session_send_config.
  - unfold fail_all_streams. by destruct todo as [|[? ?] ?].
  - unfold fail_all_pending. by destruct (pending c).
  - cbn [snd]. unfold connection_closed. destruct (h_shutdown_requested _); [done|]. by rewrite (s2_config _ _ (schedule2_same e _)).
  - cbn [snd]. destruct (h_shutdown_requested c); [done|]. by rewrite (s2_config _ _ (schedule2_same e _)).
  - unfold scan_timeouts. destruct todo; [done|]. by destruct (find_stream _ _).
  - cbn [snd]. by rewrite (s2_config _ _ (rescan_same _)).
  - unfold recv_events. destruct todo as [|ev rest]; [done|]. destruct (session c); [|done]. destruct ev as [h id name value|id chunk|id| |[] v|]; try done.
    + cbn. unfold on_header_cb. destruct (negb h); [done|]. by case_bool_decide.
    + unfold on_stream_close_cb. by destruct (find_stream id (streams c)).
    + cbn. by case_bool_decide.
    + cbn. by destruct (v >? 0).
  - unfold received_bytes. by destruct (negb ok).
  - cbn [snd]. by rewrite (s2_config _ _ (do_read2_same _)).
  - cbn [snd]. by rewrite (s2_config _ _ (rescan_same _)), (s2_config _ _ (do_read2_same _)).
Qed.
Lemma complete2_config e op r c : h_config (complete2 e op r c).2 = h_config c.
Proof.
  destruct op, r; cbn [complete2]; try done.
  - unfold h2_on_resolved. by destruct (_ || _).
  - unfold h2_on_reconnect_timer. cbn [snd]. destruct (_ || _); [done|]. by rewrite (s2_config _ _ (start_connect2_same e _)).
  - unfold on_scan_timer. by destruct (_ || _).
  - unfold h2_on_connected. by destruct (_ || _).
  - unfold h2_on_handshake, on_tls_handshake. destruct (h_shutdown_requested c); [done|]. destruct (negb _); [done|]. destruct session_client_new; [done|].
    cbn [snd]. by rewrite (s2_config _ _ (schedule2_same e _)).
Qed.
Lemma run_calls_config e fuel k c c' : run_calls (call2 e) fuel k c = Some c' -> h_config c' = h_config c.
Proof.
  apply (run_calls_inv (call2 e) (fun _ c' => h_config c' = h_config c)); [|done]. intros f k' c1 H. pose proof (call2_config e f c1) as E.
  destruct (call2 e f c1). cbn in E. congruence.
Qed.
Lemma step2_config i c : h_config (step2 c i) = h_config c.
Proof.
  assert (forall e k, h_config (run_handler2 e k) = h_config k.2) as H.
  { intros e k. unfold run_handler2. destruct (run_calls _ _ _ _) as [c'|] eqn:E; [|done]. by apply run_calls_config in E. }
  destruct i as [e [req headers cb| |op r]]; cbn [step2]; rewrite ?H; try done. destruct (may_complete2 op r c); [|done]. rewrite H. by rewrite complete2_config.
Qed.
Lemma run2_config cfg l : h_config (run2 cfg l) = cfg.
Proof.
  unfold run2. change cfg with (h_config (Http2_new (S := S) cfg)) at 2. generalize (Http2_new (S := S) cfg). induction l as [|i l IH]; intros c; [done|].
  cbn [foldl]. by rewrite IH, step2_config.
Qed.

(** Where the library never fails to serialise its frames. *)
Lemma h2_once_if_sends (cfg : Http2ClientConfig) (l : list (NetEnv * Input2)) :
  (forall s, (mem_send s).1.2 = true) -> Forall (fun i => i.2 <> H2Shutdown) l ->
  let c := run2 cfg l in
  h_offered c ≡ₚ (fst <$> h_answers c) ++ queued c ++ (ids (streams c)).*2 /\
  NoDup (streams c).*1 /\
  Z.of_nat (length (streams c)) <= u32 (max_concurrent_streams cfg) /\
  (length (attempts (h_outstanding c)) <= 1)%nat.
Proof.
  intros Hsend Hl c. pose proof (run2_good Hsend cfg l Hl) as Hg. fold c in Hg. split; [by apply good_held|]. destruct Hg as [[] [Ha _]].
  unfold c in n_limit0. rewrite run2_config in n_limit0. split; [|split; [done|rewrite Ha; by destruct (h_connecting c); lia]].
  unfold ids in n_keys0. rewrite <- list_fmap_compose in n_keys0. exact n_keys0.
Qed.

(** The two write buffers lose and mix up nothing: until the shutdown, along every
    run, what was handed to the network on the current connection, write after write,
    followed by what is staged, is what was left staged when the connection was made
    followed by everything its session produced, in order; one write is under way at a
    time, none is empty, and nothing stays staged while none is under way. *)
Theorem connection_bytes_in_order (cfg : Http2ClientConfig) (l : list (NetEnv * Input2)) :
  (forall s, (mem_send s).1.2 = true) -> Forall (fun i => i.2 <> H2Shutdown) l ->
  let c := run2 cfg l in
  h_connected c = true ->
  exists sid, tls_stream c = Some sid /\ bytes_on sid (wire c) ++ staging c = leftover c ++ produced c /\
    writes (h_outstanding c) = (if writing c then [HWrite sid] else []) /\
    (writing c = false -> staging c = []) /\ Forall (fun x => x.2 <> []) (wire c).
Proof.
  intros Hsend Hl c Hc. destruct (run2_delivers Hsend cfg l Hl) as (_ & [Hw _] & Hf). destruct (w_on _ Hw Hc) as (sid & E1 & _ & E2 & E3). exists sid.
  split; [done|]. split; [done|]. split; [done|]. split; [|by destruct Hw]. intros E. destruct (Hf Hc) as [_ [Est|[Ew|Hin%elem_of_nil]]]; [exact Est|unfold c in E; congruence|done].
Qed.
End Http2.

(** *** Runs in which no call of the library fails *)
Section NoFailure.
Context {S : Type} {NG : Nghttp2 S}.
Implicit Types (c : Http2 S) (e : NetEnv).

(** The same library, whose errors of serialising go unnoticed. *)
Definition trusting : Nghttp2 S := {|
  session_client_new := session_client_new; submit_settings := submit_settings; submit_request := submit_request;
  submit_rst_stream := submit_rst_stream; mem_send := fun s => ((mem_send s).1.1, true, (mem_send s).2); used := used;
  submit_fresh := submit_fresh; submit_mono := submit_mono; settings_mono := settings_mono; rst_mono := rst_mono; send_mono := send_mono |}.

Lemma send_items_flag items c : send_failed (foldl (fun c i => send_item i c) c items) = send_failed c.
Proof.
  revert c. induction items as [|i items IH]; intros c; [done|]. cbn [foldl]. rewrite IH.
  destruct i as [b|id len]; [done|]. cbn [send_item]. unfold body_read_cb. by destruct (find_stream id (streams c)).
Qed.
Lemma session_send_trusts c : send_failed (session_send c).2 = false -> session_send (NG := trusting) c = session_send c.
Proof.
  unfold session_send. destruct (session c) as [s|]; [|done]. destruct (negb (h_connected c)); [done|].
  cbn [mem_send trusting]. destruct (mem_send s) as [[items ok] s']. by destruct ok.
Qed.
Lemma session_send_sticky c : send_failed c = true -> send_failed (session_send c).2 = true.
Proof.
  intros Hc. unfold session_send. destruct (session c) as [s|]; [|done]. destruct (negb (h_connected c)); [done|].
  destruct (mem_send s) as [[items ok] s']. set (c0 := c <| session := Some s' |> <| misused ::= _ |>).
  pose proof (send_items_flag items c0) as E. set (c1 := foldl _ c0 items) in *. change (send_failed c0) with (send_failed c) in E.
  destruct ok; [|done]. cbn [negb snd]. unfold flush_staged. case_bool_decide; repeat case_match; cbn; congruence.
Qed.
Lemma call2_trusts e f c : send_failed (call2 e f c).2 = false -> call2 (NG := trusting) e f c = call2 e f c.
Proof. destruct f; try (intros _; reflexivity). apply session_send_trusts. Qed.
Lemma start2_flag e c : send_failed (h2_start_connect e c) = send_failed c.
Proof. unfold h2_start_connect. by repeat case_match. Qed.
Lemma schedule2_flag e c : send_failed (h2_schedule_reconnect e c) = send_failed c.
Proof. unfold h2_schedule_reconnect. by case_match. Qed.
Lemma call2_sticky e f c : send_failed c = true -> send_failed (call2 e f c).2 = true.
Proof.
  intros Hc. destruct f as [cb resp|req headers cb| | | |todo| | | |todo|id| |todo|ok| | |]; cbn [call2 snd]; try done.
  - unfold h2_enqueue_request. destruct (_ && _); [cbn [snd]; by rewrite start2_flag|]. by destruct (h_connected _).
  - unfold submit_loop. destruct (pending c); [done|]. destruct (session c) as [s|]; [|done]. destruct (_ >=? _); [done|].
    unfold submit_one. destruct (submit_request _ _ s) as [id s']. by destruct (id <? 0).
  - by apply session_send_sticky.
  - unfold fail_all_streams. by destruct todo as [|[? ?] ?].
  - unfold fail_all_pending. by destruct (pending c).
  - unfold connection_closed. destruct (h_shutdown_requested _); [done|]. by rewrite schedule2_flag.
  - destruct (h_shutdown_requested c); [done|]. by rewrite schedule2_flag.
  - unfold scan_timeouts. destruct todo; [done|]. by destruct (find_stream _ _).
  - unfold schedule_timeout_scan. by case_match.
  - unfold recv_events. destruct todo as [|ev rest]; [done|]. destruct (session c); [|done]. destruct ev as [h id name value|id chunk|id| |[] v|]; try done.
    + cbn. unfold on_header_cb. destruct (negb h); [done|]. by case_bool_decide.
    + unfold on_stream_close_cb. by destruct (find_stream id (streams c)).
    + cbn. by case_bool_decide.
    + cbn. by destruct (v >? 0).
  - unfold received_bytes. by destruct (negb ok).
  - unfold h2_do_read. by repeat case_match.
  - unfold schedule_timeout_scan, h2_do_read. by repeat case_match.
Qed.
Lemma run_calls_trusts e fuel k c c' : run_calls (call2 e) fuel k c = Some c' -> send_failed c' = false ->
  run_calls (call2 (NG := trusting) e) fuel k c = Some c' /\ send_failed c = false.
Proof.
  revert k c. induction fuel as [|fuel IH]; intros [|f k] c E Hc'; cbn [run_calls] in *; try (injection E as <-; done); [done|].
  pose proof (call2_sticky e f c) as Hst. pose proof (call2_trusts e f c) as Htr. destruct (call2 e f c) as [k' c1]. cbn [snd] in *.
  destruct (IH _ _ E Hc') as [E' Hc1]. rewrite (Htr Hc1). split; [done|]. destruct (send_failed c); [|done]. by rewrite (Hst eq_refl) in Hc1.
Qed.
Lemma handler2_trusts e k c : reads_once k -> send_failed (run_handler2 e (k, c)) = false ->
  run_handler2 (NG := trusting) e (k, c) = run_handler2 e (k, c) /\ send_failed c = false.
Proof.
  intros Hk Hf. pose proof (run_handler2_calls e k c Hk) as E. destruct (run_calls_trusts _ _ _ _ _ E Hf) as [E' Hc]. split; [|done].
  unfold run_handler2 at 1. cbn [fst snd]. by rewrite E'.
Qed.
#[local] Ltac reads_once_tac := unfold reads_once; apply Nat.leb_le; reflexivity.
Lemma complete2_reads e op r c : reads_once (complete2 e op r c).1.
Proof.
  destruct op, r; cbn [complete2]; try reads_once_tac; unfold h2_on_resolved, on_scan_timer, scan_start, h2_on_connected, h2_on_handshake, on_tls_handshake,
    h2_on_written, h2_on_read; repeat case_match; reads_once_tac.
Qed.
Lemma complete2_trusts e op r c : complete2 (NG := trusting) e op r c = complete2 e op r c.
Proof. by destruct op, r. Qed.
Lemma complete2_flag e op r c : send_failed (complete2 e op r c).2 = send_failed c.
Proof.
  destruct op, r; cbn [complete2]; try done.
  - unfold h2_on_resolved. by destruct (_ || _).
  - unfold h2_on_reconnect_timer. cbn [snd]. destruct (_ || _); [done|]. by rewrite start2_flag.
  - unfold on_scan_timer. by destruct (_ || _).
  - unfold h2_on_connected. by destruct (_ || _).
  - unfold h2_on_handshake, on_tls_handshake. destruct (h_shutdown_requested c); [done|]. destruct (negb _); [done|]. destruct session_client_new; [done|].
    cbn [snd]. by rewrite schedule2_flag.
Qed.
Lemma step2_trusts i c : send_failed (step2 c i) = false -> step2 (NG := trusting) c i = step2 c i /\ send_failed c = false.
Proof.
  destruct i as [e [req headers cb| |op r]]; cbn [step2].
  - apply handler2_trusts. reads_once_tac.
  - unfold request_shutdown_impl. intros H. apply handler2_trusts in H; [done|]. reads_once_tac.
  - destruct (may_complete2 op r c); [|done]. rewrite complete2_trusts. set (c0 := c <| h_outstanding ::= _ |>).
    pose proof (complete2_reads e op r c0) as Hr. pose proof (complete2_flag e op r c0) as Hc. destruct (complete2 e op r c0) as [k c1]. cbn [fst snd] in *.
    intros H. apply handler2_trusts in H as [E H]; [|done]. split; [done|]. change (send_failed c0 = false). by rewrite <- Hc.
Qed.
Lemma run2_trusts cfg l : send_failed (run2 cfg l) = false -> run2 (NG := trusting) cfg l = run2 cfg l.
Proof.
  unfold run2. induction l as [|i l IH] using rev_ind; [done|]. rewrite !foldl_app. cbn [foldl]. intros H.
  destruct (step2_trusts i _ H) as [E Hc]. by rewrite (IH Hc).
Qed.

(** C22: every request sent on the HTTP/2 client is answered exactly once or still held:
    along every run before a shutdown in which no call of nghttp2_session_mem_send
    reported an error, in every order of completions and whatever frames the server
    sends, with callbacks that send further requests, the requests offered are those
    whose callback was called together with those queued and the open streams.  The
    stream numbers are distinct and their count stays within the configured limit, and
    at most one attempt to connect is under way.  ([failed_send_answers_twice] shows that
    the condition is needed.) *)
Theorem h2_every_request_once (cfg : Http2ClientConfig) (l : list (NetEnv * Input2))
    (Hsends : send_failed (run2 cfg l) = false) (Hup : Forall (fun i => i.2 <> H2Shutdown) l) :
  let c := run2 cfg l in
  h_offered c ≡ₚ (fst <$> h_answers c) ++ queued c ++ (ids (streams c)).*2 /\
  NoDup (streams c).*1 /\
  Z.of_nat (length (streams c)) <= u32 (max_concurrent_streams cfg) /\
  (length (attempts (h_outstanding c)) <= 1)%nat.
Proof.
  rewrite <- (run2_trusts cfg l Hsends). by apply (h2_once_if_sends (NG := trusting)).
Qed.
End NoFailure.

(** ** The choice between the clients *)
Section Factory.
Context {S : Type} {NG : Nghttp2 S} {ZL : Zlib}.
Inductive AnyTransport := RestClientAdapter (client_ : Client) | Http2Transport (c : Http2 S).
Definition make_rest_transport (cfg : RestClientConfig) (use_http2 : bool) (max_streams : Z) : AnyTransport :=
  if use_http2 then
    Http2Transport (Http2_new (mkHttp2ClientConfig (host cfg) (request_timeout_ms cfg) max_streams (reconnect_base_ms cfg) (reconnect_max_ms cfg)))
  else RestClientAdapter (Client_new cfg).
(** What happens to the chosen client; to the HTTP/2 client, until its shutdown. *)
Inductive TransportEvent := RestEvent (i : NetEnv * Input) | Http2Event (i : NetEnv * Input2) (H : i.2 <> H2Shutdown).
Definition any_step (t : AnyTransport) (i : TransportEvent) : AnyTransport :=
  match t, i with
  | RestClientAdapter c, RestEvent i => RestClientAdapter (step c i)
  | Http2Transport c, Http2Event i _ => Http2Transport (step2 c i)
  | _, _ => t
  end.
Definition is_connected (t : AnyTransport) : bool :=
  match t with RestClientAdapter c => connected c | Http2Transport c => h_connected c end.

(** Whichever is chosen, the gateway's requests are answered once or held. *)
Definition any_transport (Hsend : forall s : S, (mem_send s).1.2 = true) : RestTransport AnyTransport TransportEvent.
Proof.
  refine {| transport_step := any_step;
    transport_new := fun t => exists cfg use_http2 n, t = make_rest_transport cfg use_http2 n;
    sent_ids := fun t => match t with RestClientAdapter c => offered c | Http2Transport c => h_offered c end;
    answered_ids := fun t => fst <$> match t with RestClientAdapter c => answers c | Http2Transport c => h_answers c end;
    held_ids := fun t => match t with RestClientAdapter c => held_requests c | Http2Transport c => queued c ++ (ids (streams c)).*2 end;
    transport_inv := fun t => match t with RestClientAdapter c => counted [] c | Http2Transport c => good [] c end |}.
  - intros t (cfg & [] & n & ->); [apply new2_good|]. by split; cbn; auto with lia.
  - intros [c|c] [i|i Hi]; cbn; [apply step_counted|done..|]. by apply step2_good.
  - intros [c|c] H; [|by apply good_held]. destruct H as [H _ _]. by rewrite app_nil_r in H.
Defined.
Lemma chosen_transport_conserves (Hsend : forall s : S, (mem_send s).1.2 = true) cfg use_http2 n (l : list TransportEvent) :
  let t := foldl any_step (make_rest_transport cfg use_http2 n) l in
  match t with
  | RestClientAdapter c => offered c ≡ₚ (fst <$> answers c) ++ held_requests c
  | Http2Transport c => h_offered c ≡ₚ (fst <$> h_answers c) ++ queued c ++ (ids (streams c)).*2
  end.
Proof.
  cbv zeta. pose proof (run_conserves (T := any_transport Hsend) (make_rest_transport cfg use_http2 n) l) as H.
  unfold transport_run in H. cbn -[make_rest_transport] in H. specialize (H ltac:(by eexists _, _, _)). by destruct (foldl any_step _ l).
Qed.
End Factory.

(** ** Examples *)
Section Examples.
(** A library that numbers the streams 1, 3, 5, ... and writes a letter for a frame. *)
Record Toy := mkToy { toy_next : Z; toy_out : list SendItem }.
#[local] Instance toy_nghttp2 : Nghttp2 Toy.
Proof.
  refine {| session_client_new := Some (mkToy 1 [SBytes (txt "P")]);
    submit_settings := fun _ s => mkToy (toy_next s) (toy_out s ++ [SBytes (txt "S")]);
    submit_request := fun _ b s => (toy_next s, mkToy (toy_next s + 2) (toy_out s ++ SBytes (txt "H") :: if b then [SBody (toy_next s) 16384] else []));
    submit_rst_stream := fun _ s => mkToy (toy_next s) (toy_out s ++ [SBytes (txt "R")]);
    mem_send := fun s => (toy_out s, true, mkToy (toy_next s) []);
    used := fun s i => i < toy_next s |}.
  - intros h b s id s' [= <- <-] _. cbn. lia.
  - cbn. lia.
  - done.
  - done.
  - done.
Defined.
Definition body_request : RestRequest := mkRestRequest POST "/orders" (txt "[1]") 0.
Definition later_net : NetEnv := mkNetEnv 9000000000 0 true.
Definition connect_inputs (sid : nat) : list Input2 := [H2Complete (HConnect sid) R2Ok; H2Complete (HHandshake sid) (R2Alpn true)].
(** Two requests; the first is answered. *)
Definition h2_sample : list (NetEnv * Input2) := (fun i => (sample_net, i)) <$>
  [H2Send body_request sample_headers (plain 1); H2Complete HResolve R2Ok] ++ connect_inputs 0 ++
  [H2Send (sample_request "/b") sample_headers (plain 2); H2Complete (HWrite 0) R2Ok;
   H2Complete (HRead 0) (R2Recv [EHeader true 1 (txt ":status") (txt "200"); EData 1 "ok"; EStreamClose 1] true)].
Example h2_sample_state :
  let c := run2 (S := Toy) Http2ClientConfig_default h2_sample in
  h_answers c = [(1%nat, mkRestResponse false 200 0 "ok")] /\ ids (streams c) = [(3, 2%nat)] /\
  wire c = [(0%nat, txt "PS"); (0%nat, txt "H[1]H")] /\ h_outstanding c = [HScan 0; HWrite 0; HRead 0].
Proof. by vm_compute. Qed.
Lemma h2_every_request_once_witness :
  let c := run2 (S := Toy) Http2ClientConfig_default h2_sample in
  h_offered c ≡ₚ (fst <$> h_answers c) ++ queued c ++ (ids (streams c)).*2 /\ (length (attempts (h_outstanding c)) <= 1)%nat.
Proof.
  pose proof (h2_every_request_once (S := Toy) Http2ClientConfig_default h2_sample) as H. cbv zeta in *.
  destruct H as (H1 & _ & _ & H2); [vm_compute; reflexivity|by repeat constructor|]. by split.
Defined.

(** A library that fails to serialise from its third stream on. *)
Definition failing_nghttp2 : Nghttp2 Toy.
Proof.
  refine {| session_client_new := Some (mkToy 1 [SBytes (txt "P")]);
    submit_settings := fun _ s => mkToy (toy_next s) (toy_out s ++ [SBytes (txt "S")]);
    submit_request := fun _ b s => (toy_next s, mkToy (toy_next s + 2) (toy_out s ++ [SBytes (txt "H")]));
    submit_rst_stream := fun _ s => s;
    mem_send := fun s => (toy_out s, toy_next s <=? 3, mkToy (toy_next s) []);
    used := fun s i => i < toy_next s |}.
  - intros h b s id s' [= <- <-] _. cbn. lia.
  - cbn. lia.
  - done.
  - done.
  - done.
Defined.
(** A request times out; its callback sends another one, and the library cannot
    serialise it.  The connection is given up while the timed-out stream is still in the
    table: its request is answered a second time, as failed. *)
Definition resending_callback : Callback :=
  mkCallback 1 (Some (fun resp => if timed_out resp then Some (sample_request "/retry", sample_headers, 2%nat) else None)).
Definition failing_run : list (NetEnv * Input2) :=
  ((fun i => (sample_net, i)) <$> [H2Send (sample_request "/a") sample_headers resending_callback; H2Complete HResolve R2Ok] ++ connect_inputs 0) ++
  [(later_net, H2Complete (HScan 0) R2Ok)].
Lemma failed_send_answers_twice :
  let c := run2 (S := Toy) (NG := failing_nghttp2) Http2ClientConfig_default failing_run in
  send_failed c = true /\ h_offered c = [1; 2]%nat /\ fst <$> h_answers c = [1; 1; 2]%nat.
Proof. by vm_compute. Qed.

Lemma connection_bytes_in_order_witness :
  let c := run2 (S := Toy) Http2ClientConfig_default h2_sample in
  produced c = txt "PSH[1]H" /\
  exists sid, tls_stream c = Some sid /\ bytes_on sid (wire c) ++ staging c = leftover c ++ produced c /\
    writes (h_outstanding c) = (if writing c then [HWrite sid] else []) /\
    (writing c = false -> staging c = []) /\ Forall (fun x => x.2 <> []) (wire c).
Proof.
  split; [by vm_compute|]. apply (connection_bytes_in_order (S := Toy) Http2ClientConfig_default h2_sample); [done|by repeat constructor|by vm_compute].
Defined.

(** A request is staged while the first bytes are being written, and then the
    connection fails: what was staged is written into the next connection before its
    preface, for a stream that no longer exists. *)
Definition broken_run : list (NetEnv * Input2) := (fun i => (sample_net, i)) <$>
  [H2Send body_request sample_headers (plain 1); H2Complete HResolve R2Ok] ++ connect_inputs 0 ++
  [H2Complete (HRead 0) R2Err; H2Complete (HWrite 0) R2Err; H2Complete (HScan 0) R2Err; H2Complete HReconnect R2Ok] ++ connect_inputs 1.
Lemma stale_bytes_before_preface :
  let c := run2 (S := Toy) Http2ClientConfig_default broken_run in
  h_answers c = [(1%nat, failed_response false 0)] /\ wire c = [(0%nat, txt "PS"); (1%nat, txt "H[1]PS")] /\ leftover c = txt "H[1]".
Proof. by vm_compute. Qed.
(** The library's functions are called while it reads: closing a stream sends, and a
    GOAWAY deletes the session. *)
Lemma library_called_from_callback :
  misused (run2 (S := Toy) Http2ClientConfig_default h2_sample) = true /\
  let l := h2_sample ++ [(sample_net, H2Complete (HRead 0) (R2Recv [EStreamClose 3] true)); (sample_net, H2Complete (HRead 0) (R2Recv [EGoaway] true))] in
  session (run2 (S := Toy) Http2ClientConfig_default l) = None.
Proof. by vm_compute. Qed.
(** A request sent after a GOAWAY waits for the server to close the connection: the
    scans answer streams only, whatever the time. *)
Definition goaway_run : list (NetEnv * Input2) :=
  h2_sample ++ ((fun i => (sample_net, i)) <$>
    [H2Complete (HRead 0) (R2Recv [EGoaway; EStreamClose 3] true); H2Send (sample_request "/c") sample_headers (plain 4)]) ++
  ((fun i => (later_net, i)) <$> [H2Complete (HScan 0) R2Ok; H2Complete (HScan 1) R2Ok; H2Complete (HScan 2) R2Ok]).
Lemma request_behind_goaway_waits :
  let c := run2 (S := Toy) Http2ClientConfig_default goaway_run in
  queued c = [4%nat] /\ (fst <$> h_answers c) = [1; 2]%nat /\ streams c = [] /\ h_connected c = true.
Proof. by vm_compute. Qed.
(** A request that a callback sends during the shutdown is dropped. *)
Definition resend_callback : Callback := mkCallback 1 (Some (fun _ => Some (sample_request "/c", sample_headers, 2%nat))).
Definition shutdown_run : list (NetEnv * Input2) := (fun i => (sample_net, i)) <$>
  [H2Send body_request sample_headers resend_callback; H2Complete HResolve R2Ok] ++ connect_inputs 0 ++ [H2Shutdown].
Lemma request_lost_in_shutdown :
  let c := run2 (S := Toy) Http2ClientConfig_default shutdown_run in
  h_offered c = [1; 2]%nat /\ (fst <$> h_answers c) = [1%nat] /\ queued c = [] /\ streams c = [].
Proof. by vm_compute. Qed.
End Examples.
