(* ===== verification/Slots.v ===== *)
(** Market slots: the rolling five- and fifteen-minute markets.

    - [src/slot/slot_token_map.h]: the strategy thread's table of tokens by slot
      ([SlotTokenMap]) and the slot events the scheduler applies to it
      ([src/scheduler/strategy_scheduler.cpp], [slot_event]);
    - [src/slot/market_slot_manager.cpp]: the manager thread's state machine over
      six slots (current, next and previous for both time frames): start-up,
      rotation, redemption and discovery.  The network look-ups (discovery,
      negative-risk flag, fee rate) are a parameter of every step, a record of
      answers that may differ from step to step; the callbacks into other
      threads are recorded as a trace;
    - [src/scheduler/trading_session.h]: the session's end time.

    Shown: windows stay aligned, adjacent and one period long, the previous slot
    holds the window just before the current one, and the current window follows
    the clock; a rotation emits its four events in order and the table ends with
    the new market active and the old one inactive; the session end compares
    exactly on window boundaries.  Also shown: previous markets are never
    removed, so the seventh market finds the table full, and a market that could
    not be discovered is activated with an empty identifier. *)
From Stdlib Require Import Ascii.
From stdpp Require Import functions.
From S2P Require Import Prelude Types Events SpscQueue MarketPair.

(** ** Time frames and slots *)
Inductive BtcTimeframe := BTC_5M | BTC_15M.
#[export] Instance BtcTimeframe_eq_dec : EqDecision BtcTimeframe.
Proof. solve_decision. Defined.

Definition timeframe_period_seconds (tf : BtcTimeframe) : Z :=
  match tf with BTC_5M => 300 | BTC_15M => 900 end.

Definition is_current_slot (s : SlotName) : bool :=
  match s with SlotName.CURRENT_5M | SlotName.CURRENT_15M => true | _ => false end.

Definition is_previous_slot (s : SlotName) : bool :=
  match s with SlotName.PREVIOUS_5M | SlotName.PREVIOUS_15M => true | _ => false end.

Definition slot_timeframe (s : SlotName) : BtcTimeframe :=
  match s with
  | SlotName.CURRENT_5M | SlotName.NEXT_5M | SlotName.PREVIOUS_5M => BTC_5M
  | SlotName.CURRENT_15M | SlotName.NEXT_15M | SlotName.PREVIOUS_15M => BTC_15M
  end.

Definition current_slot_for (tf : BtcTimeframe) : SlotName :=
  match tf with BTC_5M => SlotName.CURRENT_5M | BTC_15M => SlotName.CURRENT_15M end.
Definition next_slot_for (tf : BtcTimeframe) : SlotName :=
  match tf with BTC_5M => SlotName.NEXT_5M | BTC_15M => SlotName.NEXT_15M end.
Definition previous_slot_for (tf : BtcTimeframe) : SlotName :=
  match tf with BTC_5M => SlotName.PREVIOUS_5M | BTC_15M => SlotName.PREVIOUS_15M end.

Module SlotPhase.
Inductive SlotPhase := EMPTY | DISCOVERING | REGISTERED | SUBSCRIBING | ACTIVE | CLOSING | PREVIOUS.
#[export] Instance SlotPhase_eq_dec : EqDecision SlotPhase.
Proof. solve_decision. Defined.
End SlotPhase.
Export (hints) SlotPhase.
Abbreviation SlotPhase := SlotPhase.SlotPhase.

(** ** The token table *)
Record SlotEntry := mkSlotEntry {
  se_token_id : AssetId;
  se_condition_id : AssetId;
  se_slot : SlotName;
  se_active : bool;
  se_occupied : bool }.

(** The first [count_] entries of the array, in order. *)
Definition SlotTokenMap := list SlotEntry.
Definition kMaxEntries : nat := 12.

Definition find_by_token (token : AssetId) (m : SlotTokenMap) : option SlotEntry :=
  List.find (fun e => se_occupied e && id_eqb (se_token_id e) token) m.

Definition map_find_by_condition (cond : AssetId) (m : SlotTokenMap) : option SlotEntry :=
  List.find (fun e => se_occupied e && id_eqb (se_condition_id e) cond) m.

Definition is_active_token (token : AssetId) (m : SlotTokenMap) : bool :=
  match find_by_token token m with Some e => se_active e | None => false end.

Definition is_active_condition (cond : AssetId) (m : SlotTokenMap) : bool :=
  match map_find_by_condition cond m with Some e => se_active e | None => false end.

Definition slot_for_token (token : AssetId) (m : SlotTokenMap) : option SlotName :=
  se_slot <$> find_by_token token m.

Definition map_add (slot : SlotName) (cond token_up token_down : AssetId) (active : bool)
    (m : SlotTokenMap) : SlotTokenMap :=
  if (kMaxEntries <? length m + 2)%nat then m
  else m ++ [mkSlotEntry token_up cond slot active true; mkSlotEntry token_down cond slot active true].

Definition map_remove (slot : SlotName) (m : SlotTokenMap) : SlotTokenMap :=
  filter (fun e => se_slot e <> slot) m.

Definition in_slot (slot : SlotName) (e : SlotEntry) : bool := bool_decide (se_slot e = slot).

Definition map_set_active (slot : SlotName) (active : bool) (m : SlotTokenMap) : SlotTokenMap :=
  (fun e => if in_slot slot e then e <| se_active := active |> else e) <$> m.

Definition map_promote (from_slot to_slot : SlotName) (m : SlotTokenMap) : SlotTokenMap :=
  (fun e => if in_slot from_slot e then e <| se_slot := to_slot |> else e) <$> m.

Definition map_demote (from_slot to_slot : SlotName) (m : SlotTokenMap) : SlotTokenMap :=
  (fun e => if in_slot from_slot e
            then e <| se_slot := to_slot |> <| se_active := false |> else e) <$> m.

(** What a slot event of the manager does to the table. *)
Definition slot_event (pairs : option MarketPairRegistry) (event : SchedulerEvent) (m : SlotTokenMap)
    : SlotTokenMap :=
  let slot := slot_name event in
  let cond := control_condition_id event in
  let tf := slot_timeframe slot in
  match kind event with
  | SchedulerEventKind.SLOT_ACTIVATED =>
      let m := match pairs with
        | None => m
        | Some reg =>
            match find_by_condition reg cond, map_find_by_condition cond m with
            | Some p, None =>
                map_add slot cond (token_id_up p) (token_id_down p) (is_current_slot slot) m
            | _, _ => m
            end
        end in
      map_set_active slot true m
  | SchedulerEventKind.SLOT_CLOSING => map_set_active slot false m
  | SchedulerEventKind.SLOT_PROMOTED =>
      map_set_active (current_slot_for tf) true (map_promote (next_slot_for tf) (current_slot_for tf) m)
  | SchedulerEventKind.SLOT_DEMOTED =>
      map_demote (current_slot_for tf) (previous_slot_for tf) (map_set_active slot false m)
  | SchedulerEventKind.SLOT_REMOVED => map_remove slot m
  | _ => m
  end.

(** ** The manager *)
Record DiscoveredMarket := mkDiscoveredMarket {
  dm_condition_id : string;
  dm_token_id_up : string;
  dm_token_id_down : string;
  dm_is_closed : bool;
  dm_neg_risk : bool;
  dm_fee_rate_bps : Z }.

Definition DiscoveredMarket_default : DiscoveredMarket := mkDiscoveredMarket "" "" "" false false 0.

Record MarketSlot := mkMarketSlot {
  ms_phase : SlotPhase;
  ms_market : DiscoveredMarket;
  ms_timeframe : BtcTimeframe;
  window_start_unix_s : Z;
  window_end_unix_s : Z }.

Definition MarketSlot_default : MarketSlot :=
  mkMarketSlot SlotPhase.EMPTY DiscoveredMarket_default BTC_5M 0 0.

Definition slot_clear (s : MarketSlot) : MarketSlot :=
  s <| ms_phase := SlotPhase.EMPTY |> <| ms_market := DiscoveredMarket_default |>
    <| window_start_unix_s := 0 |> <| window_end_unix_s := 0 |>.

Record PreviousMarketState := mkPreviousMarketState {
  pm_market : DiscoveredMarket;
  pm_window_start_unix_s : Z;
  pm_window_end_unix_s : Z;
  awaiting_resolved : bool;
  awaiting_redeem : bool;
  redeem_fire_time_s : Z }.

Definition PreviousMarketState_default : PreviousMarketState :=
  mkPreviousMarketState DiscoveredMarket_default 0 0 true false 0.
Definition previous_clear : PreviousMarketState :=
  mkPreviousMarketState DiscoveredMarket_default 0 0 false false 0.

(** Calls into the other threads. *)
Inductive SlotCall :=
| SubscribeMarketWs (token_ids : list string) | UnsubscribeMarketWs (token_ids : list string)
| SubscribeUserWs (condition_ids : list string) | UnsubscribeUserWs (condition_ids : list string)
| StartMarketWs (token_ids : list string) | StartUserWs (condition_ids : list string)
| RegisterMarket (mkt : DiscoveredMarket) | RegisterToken (id : string)
| SeedMarketState (id : string) | SeedSchedulerState (id : string) | SeedStrategyBook (id : string)
| BootstrapPositions (condition_ids : list string)
| FireRedeem (condition_id token_id_up token_id_down : string)
| UpdateUiSlot (slot : SlotName) (condition_id : string) (window_start window_end : Z) (phase : SlotPhase).

(** Which of the callbacks are set. *)
Record SlotManagerCallbacks := mkSlotManagerCallbacks {
  subscribe_market_ws : bool; unsubscribe_market_ws : bool;
  subscribe_user_ws : bool; unsubscribe_user_ws : bool;
  start_market_ws : bool; start_user_ws : bool;
  register_market : bool; register_token_cb : bool; seed_market_state : bool;
  seed_scheduler_state : bool; seed_strategy_book : bool;
  bootstrap_positions : bool; fire_redeem : bool; update_ui_slot : bool }.

Record SlotManagerConfig := mkSlotManagerConfig {
  discovery_poll_ms : Z;
  pre_subscribe_ms : Z;
  redeem_delay_ms : Z;
  enable_5m : bool;
  enable_15m : bool }.

(** The answers of the network during one step. *)
Record SlotNet := mkSlotNet {
  net_discover : BtcTimeframe -> Z -> option DiscoveredMarket;
  net_neg_risk : string -> Expected bool;
  net_fee_rate : string -> Expected Z }.

Section Manager.
Context {Q : Type -> Type} `{RingQueue Q}.

Record MarketSlotManager := mkMarketSlotManager {
  sm_config_ : SlotManagerConfig;
  slot_queue_ : SpscQueue Q SchedulerEvent;
  slots_ : SlotName -> MarketSlot;
  previous_ : BtcTimeframe -> PreviousMarketState;
  resolved_ : BtcTimeframe -> bool;
  sm_stop_requested_ : bool;
  fatal_flag_ : bool;
  calls_ : list SlotCall }.

Implicit Types (m : MarketSlotManager).

Definition with_queue (q : SpscQueue Q SchedulerEvent) m : MarketSlotManager :=
  mkMarketSlotManager (sm_config_ m) q (slots_ m) (previous_ m) (resolved_ m) (sm_stop_requested_ m)
    (fatal_flag_ m) (calls_ m).
Definition with_slot (s : SlotName) (x : MarketSlot) m : MarketSlotManager :=
  mkMarketSlotManager (sm_config_ m) (slot_queue_ m) (<[s := x]> (slots_ m)) (previous_ m) (resolved_ m)
    (sm_stop_requested_ m) (fatal_flag_ m) (calls_ m).
Definition with_previous (tf : BtcTimeframe) (x : PreviousMarketState) m : MarketSlotManager :=
  mkMarketSlotManager (sm_config_ m) (slot_queue_ m) (slots_ m) (<[tf := x]> (previous_ m)) (resolved_ m)
    (sm_stop_requested_ m) (fatal_flag_ m) (calls_ m).
Definition with_resolved (tf : BtcTimeframe) (x : bool) m : MarketSlotManager :=
  mkMarketSlotManager (sm_config_ m) (slot_queue_ m) (slots_ m) (previous_ m) (<[tf := x]> (resolved_ m))
    (sm_stop_requested_ m) (fatal_flag_ m) (calls_ m).
Definition with_fatal m : MarketSlotManager :=
  mkMarketSlotManager (sm_config_ m) (slot_queue_ m) (slots_ m) (previous_ m) (resolved_ m)
    (sm_stop_requested_ m) true (calls_ m).
Definition request_shutdown m : MarketSlotManager :=
  mkMarketSlotManager (sm_config_ m) (slot_queue_ m) (slots_ m) (previous_ m) (resolved_ m)
    true (fatal_flag_ m) (calls_ m).

(** Invoke a callback that is set. *)
Definition call (is_set : bool) (c : SlotCall) m : MarketSlotManager :=
  if is_set
  then mkMarketSlotManager (sm_config_ m) (slot_queue_ m) (slots_ m) (previous_ m) (resolved_ m)
         (sm_stop_requested_ m) (fatal_flag_ m) (calls_ m ++ [c])
  else m.

Definition MarketSlotManager_new (c : SlotManagerConfig) (q : SpscQueue Q SchedulerEvent) : MarketSlotManager :=
  mkMarketSlotManager c q (fun _ => MarketSlot_default) (fun _ => PreviousMarketState_default)
    (fun _ => false) false false [].

Definition window_start_for (tf : BtcTimeframe) (unix_s : Z) : Z :=
  (unix_s ÷ timeframe_period_seconds tf) * timeframe_period_seconds tf.

Definition window_end_for (tf : BtcTimeframe) (unix_s : Z) : Z :=
  (unix_s ÷ timeframe_period_seconds tf) * timeframe_period_seconds tf + timeframe_period_seconds tf.

Definition discover_market (net : SlotNet) (tf : BtcTimeframe) (window_start_s : Z) : option DiscoveredMarket :=
  match net_discover net tf window_start_s with
  | None => None
  | Some r =>
      let r := match net_neg_risk net (dm_token_id_up r) with
               | Value b => r <| dm_neg_risk := b |> | Err _ => r end in
      let r := match net_fee_rate net (dm_token_id_up r) with
               | Value f => r <| dm_fee_rate_bps := f |> | Err _ => r end in
      Some r
  end.

Definition register_market_full (cb : SlotManagerCallbacks) (mkt : DiscoveredMarket) m : MarketSlotManager :=
  let both (is_set : bool) (c : string -> SlotCall) m :=
    call is_set (c (dm_token_id_down mkt)) (call is_set (c (dm_token_id_up mkt)) m) in
  let m := call (register_market cb) (RegisterMarket mkt) m in
  let m := both (register_token_cb cb) RegisterToken m in
  let m := both (seed_market_state cb) SeedMarketState m in
  let m := both (seed_scheduler_state cb) SeedSchedulerState m in
  both (seed_strategy_book cb) SeedStrategyBook m.

(** An event that does not fit is dropped (and logged). *)
Definition push_event (ev : SchedulerEvent) m : MarketSlotManager :=
  with_queue (try_push ev (slot_queue_ m)).1 m.

Definition push_slot_event (k : SchedulerEventKind) (slot : SlotName) (cond : string) m : MarketSlotManager :=
  push_event (make_slot_event k slot (mk_AssetId cond)) m.

(** *** Start-up *)

(** Up to [n] attempts; [net i] answers the attempt with [i] attempts left, and
    the pause between attempts ends the start-up when a stop was requested. *)
Fixpoint discover_retry (net : nat -> SlotNet) (stop : bool) (tf : BtcTimeframe) (start : Z) (n : nat)
    : option DiscoveredMarket :=
  match n with
  | O => None
  | S n =>
      match discover_market (net n) tf start with
      | Some mkt => Some mkt
      | None => if stop then None else discover_retry net stop tf start n
      end
  end.

Definition discovery_targets (now_s : Z) (c : SlotManagerConfig) : list (SlotName * BtcTimeframe * Z) :=
  let target tf :=
    let start := window_start_for tf now_s in
    [(current_slot_for tf, tf, start); (next_slot_for tf, tf, start + timeframe_period_seconds tf)] in
  (if enable_5m c then target BTC_5M else []) ++ (if enable_15m c then target BTC_15M else []).

Fixpoint discover_targets (net : SlotName -> nat -> SlotNet) (cb : SlotManagerCallbacks)
    (ts : list (SlotName * BtcTimeframe * Z)) m : MarketSlotManager * bool :=
  match ts with
  | [] => (m, true)
  | (s, tf, start) :: ts =>
      if sm_stop_requested_ m then (m, false) else
      match discover_retry (net s) (sm_stop_requested_ m) tf start 10 with
      | None => (m, false)
      | Some mkt =>
          let m := register_market_full cb mkt m in
          let m := with_slot s (mkMarketSlot SlotPhase.REGISTERED mkt tf start
                                  (start + timeframe_period_seconds tf)) m in
          discover_targets net cb ts m
      end
  end.

Definition initial_discovery (net : SlotName -> nat -> SlotNet) (cb : SlotManagerCallbacks) (now_s : Z) m
    : MarketSlotManager * bool :=
  discover_targets net cb (discovery_targets now_s (sm_config_ m)) m.

Definition all_slots : list SlotName :=
  [SlotName.CURRENT_5M; SlotName.NEXT_5M; SlotName.PREVIOUS_5M;
   SlotName.CURRENT_15M; SlotName.NEXT_15M; SlotName.PREVIOUS_15M].

(** The slots that hold a discovered market. *)
Definition discovered_slots m : list MarketSlot :=
  filter (fun s => ms_phase s <> SlotPhase.EMPTY /\ ms_phase s <> SlotPhase.DISCOVERING)
    (slots_ m <$> all_slots).

Definition enabled (c : SlotManagerConfig) (tf : BtcTimeframe) : bool :=
  match tf with BTC_5M => enable_5m c | BTC_15M => enable_15m c end.

Definition ui_slot (cb : SlotManagerCallbacks) (s : SlotName) m : MarketSlotManager :=
  let x := slots_ m s in
  call (update_ui_slot cb)
    (UpdateUiSlot s (dm_condition_id (ms_market x)) (window_start_unix_s x) (window_end_unix_s x) (ms_phase x)) m.

Definition activate_current (cb : SlotManagerCallbacks) (tf : BtcTimeframe) m : MarketSlotManager :=
  if enabled (sm_config_ m) tf then
    let s := current_slot_for tf in
    let m := with_slot s ((slots_ m s) <| ms_phase := SlotPhase.ACTIVE |>) m in
    let m := push_slot_event SchedulerEventKind.SLOT_ACTIVATED s (dm_condition_id (ms_market (slots_ m s))) m in
    ui_slot cb s m
  else m.

Definition subscribe_initial_next (tf : BtcTimeframe) m : MarketSlotManager :=
  if enabled (sm_config_ m) tf
  then with_slot (next_slot_for tf) ((slots_ m (next_slot_for tf)) <| ms_phase := SlotPhase.SUBSCRIBING |>) m
  else m.

(** [run] up to its main loop. *)
Definition run_start (net : SlotName -> nat -> SlotNet) (cb : SlotManagerCallbacks) (now_s : Z) m
    : MarketSlotManager * bool :=
  let '(m, ok) := initial_discovery net cb now_s m in
  if negb ok then (with_fatal m, false) else
  let conds := (fun s => dm_condition_id (ms_market s)) <$> discovered_slots m in
  let tokens := flat_map (fun s => [dm_token_id_up (ms_market s); dm_token_id_down (ms_market s)])
                  (discovered_slots m) in
  let m := call (bootstrap_positions cb) (BootstrapPositions conds) m in
  let m := call (start_market_ws cb) (StartMarketWs tokens) m in
  let m := call (start_user_ws cb) (StartUserWs conds) m in
  let m := activate_current cb BTC_15M (activate_current cb BTC_5M m) in
  (subscribe_initial_next BTC_15M (subscribe_initial_next BTC_5M m), true).

(** *** The main loop *)
Definition subscribe_next (cb : SlotManagerCallbacks) (now_s : Z) (tf : BtcTimeframe) m : MarketSlotManager :=
  let next := slots_ m (next_slot_for tf) in
  if bool_decide (ms_phase next = SlotPhase.REGISTERED) &&
     ((window_start_unix_s next - now_s) * 1000 <=? pre_subscribe_ms (sm_config_ m)) then
    let m := call (subscribe_market_ws cb)
               (SubscribeMarketWs [dm_token_id_up (ms_market next); dm_token_id_down (ms_market next)]) m in
    let m := call (subscribe_user_ws cb) (SubscribeUserWs [dm_condition_id (ms_market next)]) m in
    with_slot (next_slot_for tf) (next <| ms_phase := SlotPhase.SUBSCRIBING |>) m
  else m.

Definition start_next (now_s : Z) (tf : BtcTimeframe) m : MarketSlotManager :=
  let next := slots_ m (next_slot_for tf) in
  if bool_decide (ms_phase next = SlotPhase.SUBSCRIBING) && (now_s >=? window_start_unix_s next)
  then with_slot (next_slot_for tf) (next <| ms_phase := SlotPhase.ACTIVE |>) m
  else m.

Definition rotate (cb : SlotManagerCallbacks) (tf : BtcTimeframe) m : MarketSlotManager :=
  let cur := current_slot_for tf in
  let nxt := next_slot_for tf in
  let prv := previous_slot_for tf in
  let current := slots_ m cur in
  let next := slots_ m nxt in
  let m := push_slot_event SchedulerEventKind.SLOT_CLOSING cur (dm_condition_id (ms_market current)) m in
  let m := with_slot cur (current <| ms_phase := SlotPhase.CLOSING |>) m in
  let m := with_previous tf ((previous_ m tf)
             <| pm_market := ms_market current |>
             <| pm_window_start_unix_s := window_start_unix_s current |>
             <| pm_window_end_unix_s := window_end_unix_s current |>
             <| awaiting_resolved := true |> <| awaiting_redeem := false |>) m in
  let m := with_slot prv (mkMarketSlot SlotPhase.PREVIOUS (ms_market current) tf
             (window_start_unix_s current) (window_end_unix_s current)) m in
  let m := push_slot_event SchedulerEventKind.SLOT_DEMOTED prv (dm_condition_id (ms_market current)) m in
  let m := with_slot cur (mkMarketSlot SlotPhase.ACTIVE (ms_market next) (ms_timeframe next)
             (window_start_unix_s next) (window_end_unix_s next)) m in
  let m := push_event (make_slot_promoted cur (mk_AssetId (dm_condition_id (ms_market next)))
                         (window_end_unix_s next)) m in
  let m := push_slot_event SchedulerEventKind.SLOT_ACTIVATED cur (dm_condition_id (ms_market next)) m in
  let new_next_start := window_end_unix_s next in
  let m := with_slot nxt ((slot_clear next)
             <| ms_phase := SlotPhase.DISCOVERING |> <| ms_timeframe := tf |>
             <| window_start_unix_s := new_next_start |>
             <| window_end_unix_s := new_next_start + timeframe_period_seconds tf |>) m in
  ui_slot cb cur m.

Definition check_rotation (cb : SlotManagerCallbacks) (now_s : Z) (tf : BtcTimeframe) m : MarketSlotManager :=
  let m := start_next now_s tf (subscribe_next cb now_s tf m) in
  let current := slots_ m (current_slot_for tf) in
  if bool_decide (ms_phase current = SlotPhase.ACTIVE) && (now_s >=? window_end_unix_s current)
  then rotate cb tf m else m.

Definition check_one (cb : SlotManagerCallbacks) (now_s : Z) (tf : BtcTimeframe) m : MarketSlotManager :=
  let s := previous_slot_for tf in
  if negb (bool_decide (ms_phase (slots_ m s) = SlotPhase.PREVIOUS)) then m else
  let m := if awaiting_resolved (previous_ m tf) && resolved_ m tf
           then with_resolved tf false (with_previous tf ((previous_ m tf)
                  <| awaiting_resolved := false |> <| awaiting_redeem := true |>
                  <| redeem_fire_time_s := now_s + redeem_delay_ms (sm_config_ m) ÷ 1000 |>) m)
           else m in
  let prev := previous_ m tf in
  if awaiting_redeem prev && (now_s >=? redeem_fire_time_s prev) then
    let mkt := pm_market prev in
    let m := call (fire_redeem cb)
               (FireRedeem (dm_condition_id mkt) (dm_token_id_up mkt) (dm_token_id_down mkt)) m in
    let m := call (unsubscribe_market_ws cb) (UnsubscribeMarketWs [dm_token_id_up mkt; dm_token_id_down mkt]) m in
    let m := call (unsubscribe_user_ws cb) (UnsubscribeUserWs [dm_condition_id mkt]) m in
    let m := push_slot_event SchedulerEventKind.SLOT_REMOVED s (dm_condition_id mkt) m in
    with_slot s (slot_clear (slots_ m s)) (with_previous tf previous_clear m)
  else m.

Definition check_previous_markets (cb : SlotManagerCallbacks) (now_s : Z) m : MarketSlotManager :=
  check_one cb now_s BTC_15M (check_one cb now_s BTC_5M m).

Definition discover_slot (net : SlotNet) (cb : SlotManagerCallbacks) m (s : SlotName) : MarketSlotManager :=
  let x := slots_ m s in
  if bool_decide (ms_phase x = SlotPhase.DISCOVERING) && negb (sm_stop_requested_ m) then
    match discover_market net (ms_timeframe x) (window_start_unix_s x) with
    | None => m
    | Some mkt =>
        with_slot s (x <| ms_market := mkt |> <| ms_phase := SlotPhase.REGISTERED |>)
          (register_market_full cb mkt m)
    end
  else m.

Definition check_pending_discoveries (net : SlotNet) (cb : SlotManagerCallbacks) m : MarketSlotManager :=
  foldl (discover_slot net cb) m all_slots.

(** One turn of the main loop. *)
Definition tick (net : SlotNet) (cb : SlotManagerCallbacks) (now_s : Z) m : MarketSlotManager :=
  let m := if enable_5m (sm_config_ m) then check_rotation cb now_s BTC_5M m else m in
  let m := if enable_15m (sm_config_ m) then check_rotation cb now_s BTC_15M m else m in
  check_pending_discoveries net cb (check_previous_markets cb now_s m).

(** ** Frames *)
Lemma slots_eq s x m : slots_ (with_slot s x m) s = x.
Proof. apply fn_lookup_insert. Qed.
Lemma slots_ne s s' x m : s <> s' -> slots_ (with_slot s x m) s' = slots_ m s'.
Proof. apply fn_lookup_insert_ne. Qed.
Lemma previous_eq tf x m : previous_ (with_previous tf x m) tf = x.
Proof. apply fn_lookup_insert. Qed.
Lemma previous_ne tf tf' x m : tf <> tf' -> previous_ (with_previous tf x m) tf' = previous_ m tf'.
Proof. apply fn_lookup_insert_ne. Qed.

(** [m'] differs from [m] in the recorded calls only. *)
Definition same_state m m' : Prop :=
  sm_config_ m' = sm_config_ m /\ slot_queue_ m' = slot_queue_ m /\ slots_ m' = slots_ m /\
  previous_ m' = previous_ m /\ resolved_ m' = resolved_ m /\ sm_stop_requested_ m' = sm_stop_requested_ m.

Lemma same_state_trans m1 m2 m3 : same_state m1 m2 -> same_state m2 m3 -> same_state m1 m3.
Proof. unfold same_state. intuition congruence. Qed.

Lemma call_same b c m : same_state m (call b c m).
Proof. by destruct b. Qed.

Lemma ui_slot_same cb s m : same_state m (ui_slot cb s m).
Proof. apply call_same. Qed.

Lemma register_same cb mkt m : same_state m (register_market_full cb mkt m).
Proof. unfold register_market_full. repeat (eapply same_state_trans; [|apply call_same]). by split_and!. Qed.

Lemma call_slots b c m s : slots_ (call b c m) s = slots_ m s.
Proof. by destruct b. Qed.
Lemma ui_slots cb s m s' : slots_ (ui_slot cb s m) s' = slots_ m s'.
Proof. apply call_slots. Qed.
Lemma push_slots k s c m s' : slots_ (push_slot_event k s c m) s' = slots_ m s'.
Proof. done. Qed.
Lemma push_event_slots ev m s' : slots_ (push_event ev m) s' = slots_ m s'.
Proof. done. Qed.
Lemma previous_slots tf x m s : slots_ (with_previous tf x m) s = slots_ m s.
Proof. done. Qed.
Lemma register_slots cb mkt m s : slots_ (register_market_full cb mkt m) s = slots_ m s.
Proof. destruct (register_same cb mkt m) as (_ & _ & E & _). by rewrite E. Qed.

Lemma slot_names_distinct tf :
  current_slot_for tf <> next_slot_for tf /\ current_slot_for tf <> previous_slot_for tf /\
  next_slot_for tf <> previous_slot_for tf.
Proof. by destruct tf. Qed.

End Manager.

(** Look-ups after slot updates. *)
Ltac slot_lookup :=
  repeat first
    [ rewrite call_slots | rewrite ui_slots | rewrite push_slots | rewrite push_event_slots
    | rewrite previous_slots | rewrite register_slots | rewrite slots_eq
    | rewrite slots_ne by done | rewrite fn_lookup_insert | rewrite fn_lookup_insert_ne by done ].

Section ManagerProofs.
Context {Q : Type -> Type} `{RingQueue Q}.
Implicit Types (m : MarketSlotManager (Q := Q)).

(** ** Windows *)
Record windows_ok (tf : BtcTimeframe) m : Prop := {
  wo_active : ms_phase (slots_ m (current_slot_for tf)) = SlotPhase.ACTIVE;
  wo_length : window_end_unix_s (slots_ m (current_slot_for tf)) =
    window_start_unix_s (slots_ m (current_slot_for tf)) + timeframe_period_seconds tf;
  wo_aligned : (timeframe_period_seconds tf | window_start_unix_s (slots_ m (current_slot_for tf)));
  wo_next : window_start_unix_s (slots_ m (next_slot_for tf)) = window_end_unix_s (slots_ m (current_slot_for tf));
  wo_next_length : window_end_unix_s (slots_ m (next_slot_for tf)) =
    window_start_unix_s (slots_ m (next_slot_for tf)) + timeframe_period_seconds tf;
  wo_next_phase : ms_phase (slots_ m (next_slot_for tf)) <> SlotPhase.EMPTY /\
    ms_phase (slots_ m (next_slot_for tf)) <> SlotPhase.PREVIOUS;
  wo_previous : ms_phase (slots_ m (previous_slot_for tf)) = SlotPhase.EMPTY \/
    ms_phase (slots_ m (previous_slot_for tf)) = SlotPhase.PREVIOUS /\
    window_end_unix_s (slots_ m (previous_slot_for tf)) = window_start_unix_s (slots_ m (current_slot_for tf)) /\
    window_end_unix_s (slots_ m (previous_slot_for tf)) =
      window_start_unix_s (slots_ m (previous_slot_for tf)) + timeframe_period_seconds tf }.

(** No resolution was reported. *)
Definition unresolved m : Prop := forall tf, resolved_ m tf = false /\ awaiting_redeem (previous_ m tf) = false.

(** Two managers that agree on the slots of a time frame up to the next slot's
    phase and market. *)
Definition same_windows (tf : BtcTimeframe) m m' : Prop :=
  slots_ m' (current_slot_for tf) = slots_ m (current_slot_for tf) /\
  slots_ m' (previous_slot_for tf) = slots_ m (previous_slot_for tf) /\
  window_start_unix_s (slots_ m' (next_slot_for tf)) = window_start_unix_s (slots_ m (next_slot_for tf)) /\
  window_end_unix_s (slots_ m' (next_slot_for tf)) = window_end_unix_s (slots_ m (next_slot_for tf)) /\
  ((ms_phase (slots_ m (next_slot_for tf)) <> SlotPhase.EMPTY /\
    ms_phase (slots_ m (next_slot_for tf)) <> SlotPhase.PREVIOUS) ->
   ms_phase (slots_ m' (next_slot_for tf)) <> SlotPhase.EMPTY /\
   ms_phase (slots_ m' (next_slot_for tf)) <> SlotPhase.PREVIOUS).

Lemma same_windows_ok tf m m' : same_windows tf m m' -> windows_ok tf m -> windows_ok tf m'.
Proof.
  intros (E1 & E2 & E3 & E4 & E5) [H1 H2 H3 H4 H5 H6 H7].
  split; rewrite ?E1, ?E2, ?E3, ?E4; auto.
Qed.

Lemma same_windows_refl tf m : same_windows tf m m.
Proof. by split_and!. Qed.

Lemma same_windows_trans tf m1 m2 m3 :
  same_windows tf m1 m2 -> same_windows tf m2 m3 -> same_windows tf m1 m3.
Proof.
  intros (A1 & A2 & A3 & A4 & A5) (B1 & B2 & B3 & B4 & B5).
  split_and!; [congruence|congruence|congruence|congruence|auto].
Qed.

Lemma subscribe_next_windows cb now tf tf' m : same_windows tf' m (subscribe_next cb now tf m).
Proof.
  unfold subscribe_next. destruct (_ && _); [|apply same_windows_refl].
  destruct tf, tf'; split_and!; simpl; slot_lookup; done.
Qed.

Lemma start_next_windows now tf tf' m : same_windows tf' m (start_next now tf m).
Proof.
  unfold start_next. destruct (_ && _); [|apply same_windows_refl].
  destruct tf, tf'; split_and!; simpl; slot_lookup; done.
Qed.

Lemma rotate_other cb tf tf' m : tf <> tf' -> same_windows tf' m (rotate cb tf m).
Proof.
  intros Hne. unfold rotate. destruct tf, tf'; [done| | |done];
    split_and!; simpl; slot_lookup; done.
Qed.

Lemma rotate_windows cb tf m : windows_ok tf m ->
  windows_ok tf (rotate cb tf m) /\
  window_start_unix_s (slots_ (rotate cb tf m) (current_slot_for tf)) =
    window_end_unix_s (slots_ m (current_slot_for tf)).
Proof.
  intros [H1 H2 H3 H4 H5 H6 H7]. unfold rotate.
  destruct tf; (split; [split|]); simpl in *; slot_lookup; simpl; try done.
  all: try (rewrite H4, H2; by apply Z.divide_add_r).
  all: by right.
Qed.

(** The next slot prepared, the current one as it was. *)
Lemma prepared_windows cb now tf tf' m : same_windows tf' m (start_next now tf (subscribe_next cb now tf m)).
Proof. eapply same_windows_trans; [apply subscribe_next_windows|apply start_next_windows]. Qed.

Lemma check_rotation_other cb now tf tf' m :
  tf <> tf' -> same_windows tf' m (check_rotation cb now tf m).
Proof.
  intros Hne. unfold check_rotation. pose proof (prepared_windows cb now tf tf' m) as Hp.
  destruct (_ && _); [|done]. eapply same_windows_trans; [done|by apply rotate_other].
Qed.

(** The current window follows the clock. *)
Definition tracks (tf : BtcTimeframe) (now : Z) m : Prop :=
  window_start_unix_s (slots_ m (current_slot_for tf)) <= now <
  window_end_unix_s (slots_ m (current_slot_for tf)).

Lemma same_windows_tracks tf now m m' : same_windows tf m m' -> tracks tf now m -> tracks tf now m'.
Proof. intros (E & _). unfold tracks. by rewrite E. Qed.

Lemma check_rotation_windows cb now tf m :
  windows_ok tf m -> window_start_unix_s (slots_ m (current_slot_for tf)) <= now ->
  now < window_end_unix_s (slots_ m (current_slot_for tf)) + timeframe_period_seconds tf ->
  windows_ok tf (check_rotation cb now tf m) /\ tracks tf now (check_rotation cb now tf m).
Proof.
  intros Hok Hlo Hhi. unfold check_rotation. set (m1 := start_next now tf _).
  pose proof (prepared_windows cb now tf tf m) as Hp. fold m1 in Hp.
  pose proof (same_windows_ok _ _ _ Hp Hok) as Hok1. destruct Hp as (E & _).
  destruct (_ && _) eqn:Ec.
  - apply andb_true_iff in Ec as [_ Ec]. rewrite Z.geb_leb in Ec. bool_to_prop. rewrite E in Ec.
    destruct (rotate_windows cb tf m1 Hok1) as [Hok2 Hs]. split; [done|].
    pose proof (wo_length _ _ Hok2) as Hl. unfold tracks. rewrite Hl, Hs, E. lia.
  - split; [done|]. rewrite (wo_active _ _ Hok1), bool_decide_eq_true_2 in Ec by done.
    simpl in Ec. rewrite Z.geb_leb, E in Ec. bool_to_prop. unfold tracks. rewrite E. lia.
Qed.

Lemma check_rotation_unresolved cb now tf m : unresolved m -> unresolved (check_rotation cb now tf m).
Proof.
  intros Hu.
  assert (forall m', resolved_ m' = resolved_ m -> previous_ m' = previous_ m -> unresolved m') as Hsame.
  { intros m' E1 E2 tf'. by rewrite E1, E2. }
  assert (unresolved (start_next now tf (subscribe_next cb now tf m))) as Hp.
  { apply Hsame; unfold start_next, subscribe_next; repeat case_match; simpl; try done;
      by destruct (subscribe_user_ws cb), (subscribe_market_ws cb). }
  clear Hsame. unfold check_rotation. case_match; [|done]. revert Hp. generalize (start_next now tf (subscribe_next cb now tf m)).
  intros m1 Hp tf'. unfold rotate.
  unfold ui_slot, call. destruct (update_ui_slot cb); simpl.
  all: split; [apply Hp|].
  all: destruct (decide (tf = tf')) as [<-|Hne];
    [rewrite fn_lookup_insert; done|rewrite fn_lookup_insert_ne by done; apply Hp].
Qed.

Lemma check_one_unresolved cb now tf m : unresolved m -> check_one cb now tf m = m.
Proof.
  intros Hu. unfold check_one. destruct (Hu tf) as [E1 E2].
  case_match; [done|]. rewrite E1, andb_false_r, E2. done.
Qed.

Lemma discover_slot_frame net cb m s :
  let m' := discover_slot net cb m s in
  (forall tf, windows_ok tf m -> windows_ok tf m') /\ (forall tf now, windows_ok tf m -> tracks tf now m -> tracks tf now m') /\
  (unresolved m -> unresolved m') /\ slot_queue_ m' = slot_queue_ m /\ sm_config_ m' = sm_config_ m.
Proof.
  unfold discover_slot. destruct (_ && _) eqn:Ec; [|by split_and!].
  apply andb_true_iff in Ec as [Ec%bool_decide_eq_true _].
  destruct (discover_market _ _ _) as [mkt|]; [|by split_and!].
  destruct (register_same cb mkt m) as (E1 & E2 & E3 & E4 & E5 & _).
  assert (forall tf, windows_ok tf m ->
    same_windows tf m (with_slot s ((slots_ m s) <| ms_market := mkt |> <| ms_phase := SlotPhase.REGISTERED |>)
      (register_market_full cb mkt m))) as Hsame.
  { intros tf [H1 _ _ _ _ _ H7].
    destruct (decide (s = current_slot_for tf)) as [->|]; [congruence|].
    destruct (decide (s = previous_slot_for tf)) as [->|]; [destruct H7 as [|[? _]]; congruence|].
    split_and!; slot_lookup; try done.
    all: destruct (decide (s = next_slot_for tf)) as [->|]; slot_lookup; done. }
  split_and!.
  - intros tf Hok. eapply same_windows_ok; [by apply Hsame|done].
  - intros tf now Hok. by apply same_windows_tracks, Hsame.
  - intros Hu tf. simpl. rewrite E4, E5. apply Hu.
  - simpl. done.
  - simpl. done.
Qed.

Lemma pending_discoveries_frame net cb m :
  let m' := check_pending_discoveries net cb m in
  (forall tf, windows_ok tf m -> windows_ok tf m') /\ (forall tf now, windows_ok tf m -> tracks tf now m -> tracks tf now m') /\
  (unresolved m -> unresolved m') /\ slot_queue_ m' = slot_queue_ m /\ sm_config_ m' = sm_config_ m.
Proof.
  unfold check_pending_discoveries. generalize all_slots. intros ss. revert m.
  induction ss as [|s ss IH]; intros m; cbn [foldl]; [by split_and!|].
  destruct (discover_slot_frame net cb m s) as (A1 & A2 & A3 & A4 & A5).
  destruct (IH (discover_slot net cb m s)) as (B1 & B2 & B3 & B4 & B5).
  split_and!; [auto|auto|auto|congruence|congruence].
Qed.

Lemma check_rotation_config cb now tf m : sm_config_ (check_rotation cb now tf m) = sm_config_ m.
Proof.
  unfold check_rotation. assert (sm_config_ (start_next now tf (subscribe_next cb now tf m)) = sm_config_ m) as E.
  { unfold start_next, subscribe_next; repeat case_match; simpl; try done;
      by destruct (subscribe_user_ws cb), (subscribe_market_ws cb). }
  case_match; [|done]. rewrite <- E. unfold rotate, ui_slot, call. by destruct (update_ui_slot cb).
Qed.

(** One turn of the loop: the state between the rotations and the discoveries. *)
Definition rotations cb (now : Z) m : MarketSlotManager (Q := Q) :=
  let m := if enable_5m (sm_config_ m) then check_rotation cb now BTC_5M m else m in
  if enable_15m (sm_config_ m) then check_rotation cb now BTC_15M m else m.

Lemma rotations_config cb now m : sm_config_ (rotations cb now m) = sm_config_ m.
Proof. unfold rotations. repeat case_match; rewrite ?check_rotation_config; done. Qed.

Lemma rotations_unresolved cb now m : unresolved m -> unresolved (rotations cb now m).
Proof. unfold rotations. intros. repeat case_match; auto using check_rotation_unresolved. Qed.

Lemma tick_unfold net cb now m : unresolved m ->
  tick net cb now m = check_pending_discoveries net cb (rotations cb now m).
Proof.
  intros Hu. unfold tick, check_previous_markets. fold (rotations cb now m).
  apply (rotations_unresolved cb now) in Hu. rewrite !check_one_unresolved; auto.
  by rewrite check_one_unresolved.
Qed.

Lemma rotations_windows cb now tf m :
  enabled (sm_config_ m) tf = true -> windows_ok tf m ->
  window_start_unix_s (slots_ m (current_slot_for tf)) <= now ->
  now < window_end_unix_s (slots_ m (current_slot_for tf)) + timeframe_period_seconds tf ->
  windows_ok tf (rotations cb now m) /\ tracks tf now (rotations cb now m).
Proof.
  intros Hen Hok Hlo Hhi. unfold rotations. destruct tf; simpl in Hen.
  - rewrite Hen. destruct (check_rotation_windows cb now BTC_5M m Hok Hlo Hhi) as [H1 H2].
    case_match; [|done]. pose proof (check_rotation_other cb now BTC_15M BTC_5M (check_rotation cb now BTC_5M m)).
    split; [eapply same_windows_ok|eapply same_windows_tracks]; eauto.
  - assert (same_windows BTC_15M m (if enable_5m (sm_config_ m) then check_rotation cb now BTC_5M m else m)) as Hs.
    { case_match; [by apply check_rotation_other|apply same_windows_refl]. }
    set (m1 := if enable_5m _ then _ else _) in *.
    assert (sm_config_ m1 = sm_config_ m) as -> by (unfold m1; case_match; rewrite ?check_rotation_config; done).
    rewrite Hen. pose proof (same_windows_ok _ _ _ Hs Hok). destruct Hs as (E & _).
    apply check_rotation_windows; rewrite ?E; done.
Qed.

(** ** Start-up *)
Definition discovered (tf : BtcTimeframe) (start : Z) (x : MarketSlot) : Prop :=
  ms_phase x = SlotPhase.REGISTERED /\ window_start_unix_s x = start /\
  window_end_unix_s x = start + timeframe_period_seconds tf.

Lemma discover_targets_spec net cb ts m m' :
  discover_targets net cb ts m = (m', true) -> NoDup ts.*1.*1 ->
  sm_config_ m' = sm_config_ m /\ resolved_ m' = resolved_ m /\ previous_ m' = previous_ m /\
  Forall (fun '(s, tf, start) => discovered tf start (slots_ m' s)) ts /\
  (forall s, s ∉ ts.*1.*1 -> slots_ m' s = slots_ m s).
Proof.
  revert m. induction ts as [|[[s tf] start] ts IH]; intros m Hd Hnd; cbn [discover_targets] in Hd.
  { simplify_eq. split_and!; try done. }
  destruct (sm_stop_requested_ m); [done|]. destruct (discover_retry _ _ _ _ _) as [mkt|]; [|done].
  rewrite !fmap_cons in Hnd. apply NoDup_cons in Hnd as [Hs Hnd].
  destruct (IH _ Hd Hnd) as (A1 & A2 & A3 & A4 & A5).
  destruct (register_same cb mkt m) as (E1 & _ & E3 & E4 & E5 & _).
  split_and!.
  - rewrite A1. simpl. done.
  - rewrite A2. simpl. done.
  - rewrite A3. simpl. done.
  - constructor; [|done]. rewrite A5 by done. slot_lookup. by split_and!.
  - intros s' Hs'. rewrite !fmap_cons, not_elem_of_cons in Hs'. destruct Hs' as [Hne Hs'].
    rewrite A5 by done. simpl in Hne. by slot_lookup.
Qed.

Lemma activate_current_other cb tf m s :
  s <> current_slot_for tf -> slots_ (activate_current cb tf m) s = slots_ m s.
Proof. intros. unfold activate_current. case_match; [|done]. by slot_lookup. Qed.

Lemma activate_current_slot cb tf m : enabled (sm_config_ m) tf = true ->
  slots_ (activate_current cb tf m) (current_slot_for tf) =
    (slots_ m (current_slot_for tf)) <| ms_phase := SlotPhase.ACTIVE |>.
Proof. intros E. unfold activate_current. rewrite E. by slot_lookup. Qed.

Lemma activate_current_frame cb tf m :
  sm_config_ (activate_current cb tf m) = sm_config_ m /\
  resolved_ (activate_current cb tf m) = resolved_ m /\ previous_ (activate_current cb tf m) = previous_ m.
Proof. unfold activate_current, ui_slot, call. by repeat case_match. Qed.

Lemma subscribe_initial_other tf m s :
  s <> next_slot_for tf -> slots_ (subscribe_initial_next tf m) s = slots_ m s.
Proof. intros. unfold subscribe_initial_next. case_match; [|done]. by rewrite slots_ne. Qed.

Lemma subscribe_initial_slot tf m : enabled (sm_config_ m) tf = true ->
  slots_ (subscribe_initial_next tf m) (next_slot_for tf) =
    (slots_ m (next_slot_for tf)) <| ms_phase := SlotPhase.SUBSCRIBING |>.
Proof. intros E. unfold subscribe_initial_next. rewrite E. by slot_lookup. Qed.

Lemma subscribe_initial_frame tf m :
  sm_config_ (subscribe_initial_next tf m) = sm_config_ m /\
  resolved_ (subscribe_initial_next tf m) = resolved_ m /\ previous_ (subscribe_initial_next tf m) = previous_ m.
Proof. unfold subscribe_initial_next. by case_match. Qed.

(** The slots after the start-up, for an enabled time frame. *)
Lemma started_slots cb tf m :
  let m' := subscribe_initial_next BTC_15M (subscribe_initial_next BTC_5M
              (activate_current cb BTC_15M (activate_current cb BTC_5M m))) in
  enabled (sm_config_ m) tf = true ->
  slots_ m' (current_slot_for tf) = (slots_ m (current_slot_for tf)) <| ms_phase := SlotPhase.ACTIVE |> /\
  slots_ m' (next_slot_for tf) = (slots_ m (next_slot_for tf)) <| ms_phase := SlotPhase.SUBSCRIBING |> /\
  slots_ m' (previous_slot_for tf) = slots_ m (previous_slot_for tf).
Proof.
  intros m' E. unfold m'.
  assert (forall tf', sm_config_ (activate_current cb tf' m) = sm_config_ m) as Ea
    by (intros; apply activate_current_frame).
  assert (forall tf1 tf2, sm_config_ (activate_current cb tf2 (activate_current cb tf1 m)) = sm_config_ m) as Eb
    by (intros; rewrite (proj1 (activate_current_frame _ _ _)); apply Ea).
  assert (forall m tf', sm_config_ (subscribe_initial_next tf' m) = sm_config_ m) as Es
    by (intros; apply subscribe_initial_frame).
  destruct tf; split_and!;
    repeat first [rewrite subscribe_initial_other by done | rewrite activate_current_other by done
      | rewrite (subscribe_initial_slot BTC_5M) by (by rewrite ?Es, Eb)
      | rewrite (subscribe_initial_slot BTC_15M) by (by rewrite ?Es, Eb)
      | rewrite (activate_current_slot cb BTC_5M) by done
      | rewrite (activate_current_slot cb BTC_15M) by (by rewrite Ea)]; done.
Qed.

Lemma window_start_aligned tf now : 0 <= now ->
  (timeframe_period_seconds tf | window_start_for tf now) /\
  window_start_for tf now <= now < window_start_for tf now + timeframe_period_seconds tf.
Proof.
  intros Hn. assert (0 < timeframe_period_seconds tf) as Hp by (by destruct tf).
  unfold window_start_for. pose proof (quot_mul_le now _ Hn Hp). pose proof (quot_mul_gt now _ Hn Hp).
  split; [apply Z.divide_factor_r|lia].
Qed.

Lemma run_start_windows net cb now c q m0 tf :
  run_start net cb now (MarketSlotManager_new c q) = (m0, true) -> 0 <= now -> enabled c tf = true ->
  sm_config_ m0 = c /\ unresolved m0 /\ windows_ok tf m0 /\ tracks tf now m0.
Proof.
  unfold run_start, initial_discovery. simpl sm_config_. intros Hrun Hn Hen.
  destruct (discover_targets net cb _ _) as [m1 ok] eqn:Ed. destruct ok; [|done]. cbn [negb] in Hrun.
  injection Hrun as <-.
  assert (NoDup (discovery_targets now c).*1.*1) as Hnd.
  { unfold discovery_targets. destruct (enable_5m c), (enable_15m c); by apply (bool_decide_unpack _). }
  destruct (discover_targets_spec _ _ _ _ _ Ed Hnd) as (A1 & A2 & A3 & A4 & A5). clear Ed.
  match goal with |- context [activate_current cb BTC_5M ?m] => set (m2 := m) end.
  assert (same_state m1 m2) as (E1 & _ & E3 & E4 & E5 & _).
  { unfold m2. repeat (eapply same_state_trans; [|apply call_same]). by split_and!. }
  set (m3 := subscribe_initial_next _ _).
  assert (sm_config_ m3 = c /\ resolved_ m3 = resolved_ m1 /\ previous_ m3 = previous_ m1) as (F1 & F2 & F3).
  { unfold m3. destruct (subscribe_initial_frame BTC_15M (subscribe_initial_next BTC_5M
      (activate_current cb BTC_15M (activate_current cb BTC_5M m2)))) as (-> & -> & ->).
    destruct (subscribe_initial_frame BTC_5M (activate_current cb BTC_15M (activate_current cb BTC_5M m2))) as (-> & -> & ->).
    destruct (activate_current_frame cb BTC_15M (activate_current cb BTC_5M m2)) as (-> & -> & ->).
    destruct (activate_current_frame cb BTC_5M m2) as (-> & -> & ->). by rewrite E1, E4, E5. }
  split; [done|]. split. { intros tf'. rewrite F2, F3, A2, A3. done. }
  destruct (started_slots cb tf m2) as (S1 & S2 & S3); [by rewrite E1, A1|]. fold m3 in S1, S2, S3.
  rewrite E3 in S1, S2, S3. rewrite Forall_forall in A4.
  destruct (A4 (current_slot_for tf, tf, window_start_for tf now)) as (D1 & D2 & D3).
  { unfold discovery_targets. destruct tf; simpl in Hen; rewrite Hen; set_solver. }
  destruct (A4 (next_slot_for tf, tf, window_start_for tf now + timeframe_period_seconds tf)) as (N1 & N2 & N3).
  { unfold discovery_targets. destruct tf; simpl in Hen; rewrite Hen; set_solver. }
  assert (slots_ m1 (previous_slot_for tf) = MarketSlot_default) as P.
  { rewrite A5; [done|]. unfold discovery_targets.
    destruct tf, (enable_5m c), (enable_15m c); by apply (bool_decide_unpack _). }
  destruct (window_start_aligned tf now Hn) as [Ha Hb].
  split.
  - split; rewrite ?S1, ?S2, ?S3; simpl; [done|lia|by rewrite D2|lia|lia|done|left; by rewrite P].
  - unfold tracks. rewrite S1. simpl. lia.
Qed.

(** ** Runs *)
Definition run_ticks cb (ticks : list (SlotNet * Z)) m : MarketSlotManager (Q := Q) :=
  foldl (fun m t => tick t.1 cb t.2 m) m ticks.

Lemma run_ticks_cons cb net now ticks m :
  run_ticks cb ((net, now) :: ticks) m = run_ticks cb ticks (tick net cb now m).
Proof. unfold run_ticks. cbn [foldl fst snd]. reflexivity. Qed.

(** The clock readings never go back and are at most one five-minute period
    apart. *)
Fixpoint steady (now : Z) (ticks : list (SlotNet * Z)) : Prop :=
  match ticks with
  | [] => True
  | t :: ticks => now <= t.2 <= now + 300 /\ steady t.2 ticks
  end.

Definition last_time (now : Z) (ticks : list (SlotNet * Z)) : Z := default now (snd <$> last ticks).

Lemma last_time_cons now t ticks : last_time now (t :: ticks) = last_time t.2 ticks.
Proof. unfold last_time. rewrite last_cons. by destruct (last ticks). Qed.

Lemma run_ticks_windows cb ticks tf now m :
  enabled (sm_config_ m) tf = true -> unresolved m -> windows_ok tf m -> tracks tf now m -> steady now ticks ->
  let m' := run_ticks cb ticks m in windows_ok tf m' /\ tracks tf (last_time now ticks) m'.
Proof.
  revert now m. induction ticks as [|[net t] ticks IH]; intros now m Hen Hu Hok Ht Hs; [done|].
  rewrite last_time_cons. destruct Hs as [Hst Hs]; simpl in Hst, Hs.
  cbv zeta. rewrite run_ticks_cons.
  rewrite tick_unfold by done.
  assert (300 <= timeframe_period_seconds tf) by (destruct tf; simpl; lia). unfold tracks in Ht.
  destruct (rotations_windows cb t tf m Hen Hok) as [H1 H2]; [lia|lia|].
  destruct (pending_discoveries_frame net cb (rotations cb t m)) as (P1 & P2 & P3 & _ & P5).
  apply IH; [by rewrite P5, rotations_config|by apply P3, rotations_unresolved|by apply P1|by apply P2|done].
Qed.

(** C33: Slots follow the clock: after a successful start-up and any number of
    turns of the manager's loop, provided that the clock never goes back and
    that at most 300 seconds pass from the reading of start-up to the first turn
    and between two turns ([steady]), with whatever answers of the network, every
    enabled time frame has an active current slot whose window contains the
    time, is one period long and starts on a multiple of the period; the next
    slot's window follows it and the previous slot's, if any, precedes it
    without a gap. *)
Theorem windows_follow_clock net cb now c q m0 ticks tf
    (Hstart : run_start net cb now (MarketSlotManager_new c q) = (m0, true))
    (Hnow : 0 <= now) (Hen : enabled c tf = true) (Hsteady : steady now ticks) :
  let m := run_ticks cb ticks m0 in windows_ok tf m /\ tracks tf (last_time now ticks) m.
Proof.
  destruct (run_start_windows _ _ _ _ _ _ tf Hstart Hnow Hen) as (E & Hu & Hok & Ht).
  apply run_ticks_windows; try done. by rewrite E.
Qed.

(** ** Events of a rotation *)
Definition rotation_events (tf : BtcTimeframe) (old new : AssetId) (new_end : Z) : list SchedulerEvent :=
  [make_slot_event SchedulerEventKind.SLOT_CLOSING (current_slot_for tf) old;
   make_slot_event SchedulerEventKind.SLOT_DEMOTED (previous_slot_for tf) old;
   make_slot_promoted (current_slot_for tf) new new_end;
   make_slot_event SchedulerEventKind.SLOT_ACTIVATED (current_slot_for tf) new].

Definition market_of m (s : SlotName) : AssetId := mk_AssetId (dm_condition_id (ms_market (slots_ m s))).

Lemma push_event_room ev m :
  (length (contents (slot_queue_ m)) < capacity (slot_queue_ m))%nat ->
  contents (slot_queue_ (push_event ev m)) = contents (slot_queue_ m) ++ [ev] /\
  capacity (slot_queue_ (push_event ev m)) = capacity (slot_queue_ m).
Proof.
  intros Hr. unfold push_event. simpl. pose proof (try_push_spec ev (slot_queue_ m)) as Hs.
  destruct (try_push ev (slot_queue_ m)) as [q ok]. destruct Hs as (Hc & Ht & Hf). simpl.
  destruct ok; [by destruct (Ht eq_refl)|]. destruct (Hf eq_refl). lia.
Qed.

Lemma prepared_queue cb now tf m :
  slot_queue_ (start_next now tf (subscribe_next cb now tf m)) = slot_queue_ m.
Proof.
  unfold start_next, subscribe_next; repeat case_match; simpl; try done;
    by destruct (subscribe_user_ws cb), (subscribe_market_ws cb).
Qed.

Lemma prepared_market cb now tf m s :
  market_of (start_next now tf (subscribe_next cb now tf m)) s = market_of m s.
Proof.
  unfold market_of. do 2 f_equal.
  assert (forall m, ms_market (slots_ (start_next now tf m) s) = ms_market (slots_ m s)) as ->.
  { intros m'. unfold start_next. case_match; [|done].
    destruct (decide (next_slot_for tf = s)) as [<-|]; by slot_lookup. }
  unfold subscribe_next. case_match; [|done].
  destruct (decide (next_slot_for tf = s)) as [<-|]; by slot_lookup.
Qed.

Lemma rotate_queue cb tf m :
  (length (contents (slot_queue_ m)) + 4 <= capacity (slot_queue_ m))%nat ->
  contents (slot_queue_ (rotate cb tf m)) = contents (slot_queue_ m) ++
    rotation_events tf (market_of m (current_slot_for tf)) (market_of m (next_slot_for tf))
      (window_end_unix_s (slots_ m (next_slot_for tf))).
Proof.
  intros Hroom. unfold rotate.
  match goal with |- context [ui_slot cb ?s ?x] => destruct (ui_slot_same cb s x) as (_ & -> & _) end.
  unfold push_slot_event. simpl.
  set (cur := current_slot_for tf). set (nxt := next_slot_for tf). set (prv := previous_slot_for tf).
  set (old := mk_AssetId (dm_condition_id (ms_market (slots_ m cur)))).
  set (new := mk_AssetId (dm_condition_id (ms_market (slots_ m nxt)))).
  assert (forall ev (q : SpscQueue Q SchedulerEvent), (length (contents q) < capacity q)%nat ->
    contents (try_push ev q).1 = contents q ++ [ev] /\ capacity (try_push ev q).1 = capacity q) as Hp.
  { intros ev q Hr. by apply (push_event_room ev (with_queue q m)). }
  set (e1 := make_slot_event _ cur old). set (e2 := make_slot_event _ prv old).
  set (e3 := make_slot_promoted cur new _). set (e4 := make_slot_event _ cur new).
  destruct (Hp e1 (slot_queue_ m)) as [C1 K1]; [lia|].
  destruct (Hp e2 (try_push e1 (slot_queue_ m)).1) as [C2 K2]; [rewrite C1, K1, length_app; simpl; lia|].
  destruct (Hp e3 (try_push e2 (try_push e1 (slot_queue_ m)).1).1) as [C3 K3];
    [rewrite C2, K2, C1, K1, !length_app; simpl; lia|].
  destruct (Hp e4 (try_push e3 (try_push e2 (try_push e1 (slot_queue_ m)).1).1).1) as [C4 K4];
    [rewrite C3, K3, C2, K2, C1, K1, !length_app; simpl; lia|].
  rewrite C4, C3, C2, C1. by rewrite <- !app_assoc.
Qed.

Lemma check_rotation_queue cb now tf m :
  windows_ok tf m -> window_end_unix_s (slots_ m (current_slot_for tf)) <= now ->
  (length (contents (slot_queue_ m)) + 4 <= capacity (slot_queue_ m))%nat ->
  contents (slot_queue_ (check_rotation cb now tf m)) = contents (slot_queue_ m) ++
    rotation_events tf (market_of m (current_slot_for tf)) (market_of m (next_slot_for tf))
      (window_end_unix_s (slots_ m (next_slot_for tf))).
Proof.
  intros Hok Hnow Hroom. unfold check_rotation.
  pose proof (prepared_windows cb now tf tf m) as Hp. pose proof (prepared_queue cb now tf m) as Hq.
  pose proof (prepared_market cb now tf m) as Hm. set (m1 := start_next now tf _) in *.
  pose proof (same_windows_ok _ _ _ Hp Hok) as Hok1. destruct Hp as (E1 & _ & _ & E4 & _).
  rewrite (wo_active _ _ Hok1), bool_decide_eq_true_2, E1, Z.geb_leb by done.
  rewrite (proj2 (Z.leb_le _ _)) by done. simpl.
  rewrite rotate_queue by (by rewrite Hq). by rewrite Hq, !Hm, E4.
Qed.
End ManagerProofs.

(** ** The token table across a rotation *)
Definition retire (tf : BtcTimeframe) (e : SlotEntry) : SlotEntry :=
  if in_slot (current_slot_for tf) e
  then e <| se_slot := previous_slot_for tf |> <| se_active := false |>
  else if in_slot (previous_slot_for tf) e then e <| se_active := false |> else e.

Definition slot_events (pairs : option MarketPairRegistry) (evs : list SchedulerEvent) (t : SlotTokenMap)
    : SlotTokenMap := foldl (fun t ev => slot_event pairs ev t) t evs.

Definition no_next (t : SlotTokenMap) : Prop :=
  Forall (fun e => se_slot e <> SlotName.NEXT_5M /\ se_slot e <> SlotName.NEXT_15M) t.

(** Closing and demoting retire the entries of the current slot. *)
Lemma closing_retires tf e0 :
  se_slot e0 <> SlotName.NEXT_5M /\ se_slot e0 <> SlotName.NEXT_15M ->
  let close e := if in_slot (current_slot_for tf) e then e <| se_active := false |> else e in
  let deactivate e := if in_slot (previous_slot_for tf) e then e <| se_active := false |> else e in
  let demote e := if in_slot (current_slot_for tf) e
                  then e <| se_slot := previous_slot_for tf |> <| se_active := false |> else e in
  let promote e := if in_slot (next_slot_for tf) e then e <| se_slot := current_slot_for tf |> else e in
  let activate e := if in_slot (current_slot_for tf) e then e <| se_active := true |> else e in
  activate (promote (demote (deactivate (close e0)))) = retire tf e0 /\
  activate (retire tf e0) = retire tf e0 /\ se_condition_id (retire tf e0) = se_condition_id e0 /\
  se_slot (retire tf e0) <> current_slot_for tf.
Proof. destruct e0 as [tk c s a o]. simpl. intros Hn. by destruct tf, s, Hn. Qed.

Lemma find_retire tf c t :
  map_find_by_condition c (retire tf <$> t) = None <-> map_find_by_condition c t = None.
Proof.
  unfold map_find_by_condition. induction t as [|e t IH]; [done|]. rewrite fmap_cons. simpl.
  assert (se_occupied (retire tf e) = se_occupied e /\ se_condition_id (retire tf e) = se_condition_id e) as [-> ->].
  { unfold retire. by repeat case_match. }
  by destruct (_ && _).
Qed.

Lemma retired_promoted tf (t : SlotTokenMap) : no_next t ->
  map_set_active (current_slot_for tf) true (map_promote (next_slot_for tf) (current_slot_for tf)
    (map_demote (current_slot_for tf) (previous_slot_for tf)
      (map_set_active (previous_slot_for tf) false (map_set_active (current_slot_for tf) false t)))) =
  retire tf <$> t /\
  map_set_active (current_slot_for tf) true (retire tf <$> t) = retire tf <$> t.
Proof.
  unfold no_next, map_set_active, map_promote, map_demote. intros Hn. rewrite <- !list_fmap_compose.
  split; apply Forall_fmap_ext_1; (eapply Forall_impl; [exact Hn|]); intros e He; simpl;
    destruct (closing_retires tf e He) as (H1 & H2 & _); done.
Qed.

Lemma rotation_table reg tf old new new_end (t : SlotTokenMap) : no_next t ->
  slot_events (Some reg) (rotation_events tf old new new_end) t =
    match find_by_condition reg new, map_find_by_condition new t with
    | Some p, None =>
        if (kMaxEntries <? length t + 2)%nat then retire tf <$> t
        else (retire tf <$> t) ++
             [mkSlotEntry (token_id_up p) new (current_slot_for tf) true true;
              mkSlotEntry (token_id_down p) new (current_slot_for tf) true true]
    | _, _ => retire tf <$> t
    end.
Proof.
  intros Hn. destruct (retired_promoted tf t Hn) as [H1 H2].
  unfold slot_events, rotation_events. cbn [foldl].
  assert (slot_timeframe (previous_slot_for tf) = tf) as E1 by (by destruct tf).
  assert (slot_timeframe (current_slot_for tf) = tf) as E2 by (by destruct tf).
  unfold slot_event; simpl. rewrite E1, E2, H1.
  destruct (find_by_condition reg new) as [p|]; [|done].
  pose proof (find_retire tf new t) as Hf.
  destruct (map_find_by_condition new t) as [e|], (map_find_by_condition new (retire tf <$> t)) as [e'|];
    [done|by destruct Hf as [Hf _]; specialize (Hf eq_refl)|by destruct Hf as [_ Hf]; specialize (Hf eq_refl)|].
  unfold map_add. rewrite length_fmap. destruct (_ <? _)%nat; [done|].
  unfold map_set_active in *. rewrite fmap_app. f_equal; [done|]. by destruct tf.
Qed.

(** Rotation hand-over: when the current window of a time frame has ended,
    the manager's turn and the scheduler's reading of the events it pushed (the
    queue being empty with room for four) leave the scheduler's token table as
    it was, with every entry of the current slot relabelled as previous and
    inactive, followed by the two tokens of the new market, active; so the
    current slot holds exactly the new market.  The table must have room for
    two more entries, the new market must be registered and not yet in the
    table. *)
Theorem rotation_handover {Q} `{RingQueue Q} cb now tf (m : MarketSlotManager (Q := Q)) reg (t : SlotTokenMap) p
    (Hok : windows_ok tf m) (Hnow : window_end_unix_s (slots_ m (current_slot_for tf)) <= now)
    (Hempty : contents (slot_queue_ m) = []) (Hcap : (4 <= capacity (slot_queue_ m))%nat)
    (Hnext : no_next t) (Hroom : (length t + 2 <= kMaxEntries)%nat)
    (Hreg : find_by_condition reg (market_of m (next_slot_for tf)) = Some p)
    (Hnew : map_find_by_condition (market_of m (next_slot_for tf)) t = None) :
  let m' := check_rotation cb now tf m in
  let t' := slot_events (Some reg) (contents (slot_queue_ m')) t in
  let entry tok := mkSlotEntry tok (market_of m (next_slot_for tf)) (current_slot_for tf) true true in
  t' = (retire tf <$> t) ++ [entry (token_id_up p); entry (token_id_down p)] /\
  filter (fun e => se_slot e = current_slot_for tf) t' = [entry (token_id_up p); entry (token_id_down p)] /\
  market_of m' (current_slot_for tf) = market_of m (next_slot_for tf).
Proof.
  intros m' t' entry.
  assert (t' = (retire tf <$> t) ++ [entry (token_id_up p); entry (token_id_down p)]) as E.
  { unfold t', m'. rewrite check_rotation_queue, Hempty; [|done|done|rewrite Hempty; simpl; lia].
    simpl app. rewrite rotation_table, Hreg, Hnew by done.
    by rewrite (proj2 (Nat.ltb_ge _ _)) by done. }
  split; [done|]. split.
  - rewrite E. unfold SlotTokenMap. rewrite filter_app.
    assert (filter (fun e => se_slot e = current_slot_for tf) (retire tf <$> t) = []) as ->.
    { unfold no_next in Hnext. clear -Hnext. induction t as [|e t IH]; [done|].
      apply Forall_cons in Hnext as [He Ht]. rewrite fmap_cons, filter_cons_False; [by apply IH|].
      apply (closing_retires tf e He). }
    simpl. by rewrite !filter_cons_True.
  - unfold m', check_rotation. pose proof (prepared_market cb now tf m) as Hm.
    pose proof (prepared_windows cb now tf tf m) as Hp. set (m1 := start_next now tf _) in *.
    pose proof (same_windows_ok _ _ _ Hp Hok) as Hok1. destruct Hp as (E1 & _).
    rewrite (wo_active _ _ Hok1), bool_decide_eq_true_2, E1, Z.geb_leb by done.
    rewrite (proj2 (Z.leb_le _ _)) by done. simpl. rewrite <- Hm. unfold market_of, rotate.
    destruct tf; simpl; slot_lookup; done.
Qed.

(** ** Concrete runs *)
Section SlotExamples.

Definition sample_market (n : Z) : DiscoveredMarket :=
  let nm := (fun p => String p (String (ascii_of_nat (65 + Z.to_nat n)) EmptyString)) in
  mkDiscoveredMarket (nm "c"%char) (nm "u"%char) (nm "d"%char) false false 0.

(** A network that knows every market, and one that knows none. *)
Definition sample_net : SlotNet :=
  mkSlotNet (fun _ start => Some (sample_market (start ÷ 300))) (fun _ => Err ErrorCode.NETWORK_ERROR)
    (fun _ => Err ErrorCode.NETWORK_ERROR).
Definition silent_net : SlotNet :=
  mkSlotNet (fun _ _ => None) (fun _ => Err ErrorCode.NETWORK_ERROR) (fun _ => Err ErrorCode.NETWORK_ERROR).

Definition sample_cb : SlotManagerCallbacks :=
  mkSlotManagerCallbacks true true true true true true true true true true true true true true.
Definition sample_config : SlotManagerConfig := mkSlotManagerConfig 15000 150000 180000 true false.

Definition sample_start : MarketSlotManager (Q := BoundedList) :=
  (run_start (fun _ _ => sample_net) sample_cb 0
     (MarketSlotManager_new sample_config (mkSpscQueue (mkBoundedList [] 64) 0 0 0))).1.

Definition sample_registry : MarketPairRegistry :=
  add_pairs ((fun n => let k := sample_market n in
      mkMarketPair (dm_condition_id k) (dm_token_id_up k) (dm_token_id_down k) false 0) <$> [0;1;2;3;4;5;6;7])
    MarketPairRegistry_new.

(** Ticks at the ends of the first [n] windows. *)
Definition sample_ticks (net : SlotNet) (n : nat) : list (SlotNet * Z) :=
  (fun i => (net, 300 * Z.of_nat i)) <$> seq 1 n.

Lemma sample_started :
  run_start (fun _ _ => sample_net) sample_cb 0
    (MarketSlotManager_new sample_config (mkSpscQueue (mkBoundedList [] 64) 0 0 0)) = (sample_start, true).
Proof.
  unfold sample_start. rewrite (surjective_pairing (run_start _ _ _ _)) at 1.
  f_equal.
Qed.

Lemma windows_follow_clock_witness :
  let m := run_ticks sample_cb (sample_ticks sample_net 3) sample_start in
  windows_ok BTC_5M m /\ tracks BTC_5M 900 m /\ market_of m SlotName.CURRENT_5M = "cD"%string.
Proof.
  split; [|split].
  - apply (windows_follow_clock (fun _ _ => sample_net) sample_cb 0 sample_config
      (mkSpscQueue (mkBoundedList [] 64) 0 0 0) sample_start (sample_ticks sample_net 3) BTC_5M);
      [exact sample_started|done|reflexivity|by vm_compute].
  - split; by vm_compute.
  - vm_compute. reflexivity.
Defined.

(** The loop rotates one window per turn: when more than a window passes before the
    first turn, the window falls behind, and catches up one window per turn. *)
Definition window_of (m : MarketSlotManager (Q := BoundedList)) : Z * Z :=
  (window_start_unix_s (slots_ m SlotName.CURRENT_5M), window_end_unix_s (slots_ m SlotName.CURRENT_5M)).
Lemma late_turn_lags :
  window_of (run_ticks sample_cb [(sample_net, 1000)] sample_start) = (300, 600) /\
  window_of (run_ticks sample_cb [(sample_net, 1000); (sample_net, 1000)] sample_start) = (600, 900).
Proof. split; vm_compute; reflexivity. Qed.

Lemma rotation_handover_witness :
  let m' := check_rotation sample_cb 300 BTC_5M
              (with_queue (mkSpscQueue (mkBoundedList [] 64) 0 0 0) sample_start) in
  let t' := slot_events (Some sample_registry) (contents (slot_queue_ m'))
              [mkSlotEntry "uA" "cA" SlotName.CURRENT_5M true true] in
  is_active_token "uA" t' = false /\ is_active_token "uB" t' = true /\
  market_of m' SlotName.CURRENT_5M = "cB"%string.
Proof.
  split; [by vm_compute|split; [by vm_compute|]].
  refine (proj2 (proj2 (rotation_handover sample_cb 300 BTC_5M
    (with_queue (mkSpscQueue (mkBoundedList [] 64) 0 0 0) sample_start) sample_registry
    [mkSlotEntry "uA" "cA" SlotName.CURRENT_5M true true] (mkMarketPair "cB" "uB" "dB" false 0)
    _ _ _ _ _ _ _ _))).
  - split; try (by vm_compute); [by exists 0|by left; vm_compute].
  - by vm_compute.
  - reflexivity.
  - apply Nat.leb_le. reflexivity.
  - repeat constructor; done.
  - apply Nat.leb_le. reflexivity.
  - by vm_compute.
  - by vm_compute.
Defined.

(** The token table fills up: the manager never learns that a market was
    resolved (nothing sets its flags), so it never announces a removal; after
    six rotations the table is full of retired markets and the seventh market,
    which the manager reports as its active current slot, is not in it. *)
Theorem seventh_market_unmapped :
  let m := run_ticks sample_cb (sample_ticks sample_net 6) sample_start in
  let t := slot_events (Some sample_registry) (contents (slot_queue_ m)) [] in
  ms_phase (slots_ m SlotName.CURRENT_5M) = SlotPhase.ACTIVE /\
  market_of m SlotName.CURRENT_5M = "cG"%string /\ length t = kMaxEntries /\
  Forall (fun e => se_active e = false) t /\ map_find_by_condition "cG" t = None /\
  Forall (fun ev => kind ev <> SchedulerEventKind.SLOT_REMOVED) (contents (slot_queue_ m)).
Proof.
  split_and!; first [by vm_compute | apply (bool_decide_unpack _); by vm_compute].
Qed.

(** A market that was never found goes live: when the next market cannot be
    discovered before its window starts, the rotation makes the empty slot
    current and active all the same and announces the activation of a market
    with an empty identifier. *)
Theorem undiscovered_market_activated :
  let m := run_ticks sample_cb (sample_ticks silent_net 2) sample_start in
  ms_phase (slots_ m SlotName.CURRENT_5M) = SlotPhase.ACTIVE /\
  ms_market (slots_ m SlotName.CURRENT_5M) = DiscoveredMarket_default /\
  last (contents (slot_queue_ m)) =
    Some (make_slot_event SchedulerEventKind.SLOT_ACTIVATED SlotName.CURRENT_5M ""%string).
Proof. split_and!; by vm_compute. Qed.
End SlotExamples.

(** ** Trading sessions *)
Module SessionState.
Inductive SessionState := IDLE | PENDING | ACTIVE.
#[export] Instance SessionState_eq_dec : EqDecision SessionState.
Proof. solve_decision. Defined.
End SessionState.
Export (hints) SessionState.
Abbreviation SessionState := SessionState.SessionState.

Record TradingSession := mkTradingSession {
  ss_state : SessionState;
  end_time_s : Z;
  effective_end_s : Z;
  started_at_ms : Z;
  markets_entered : Z }.

Definition TradingSession_default : TradingSession := mkTradingSession SessionState.IDLE 0 0 0 0.

Definition exceeds_end (window_end_s : Z) (s : TradingSession) : bool :=
  (effective_end_s s >? 0) && (window_end_s >? effective_end_s s).

(** The last window boundary of a period at or before the end time. *)
Definition last_boundary (end_time_s period : Z) : Z :=
  let window_start := (end_time_s ÷ period) * period in
  let window_end := window_start + period in
  if window_end <=? end_time_s then window_end else window_start.

Definition compute_effective_end (end_time_s : Z) : Z :=
  if end_time_s <=? 0 then 0
  else foldl (fun effective period => Z.max effective (last_boundary end_time_s period)) 0 [300; 900].

Lemma last_boundary_floor e p : 0 < e -> 0 < p -> last_boundary e p = p * (e / p).
Proof.
  intros He Hp. unfold last_boundary. rewrite quot_nonneg_div by lia.
  pose proof (Z.mod_pos_bound e p Hp). pose proof (Z.div_mod e p ltac:(lia)).
  case_match; bool_to_prop; lia.
Qed.

(** Session end: an end time is snapped to the last five-minute boundary not
    after it, and a market whose window ends on a boundary of either time frame
    exceeds the session exactly when its window ends after the end time; an end
    time within the first five minutes of the epoch counts as no end at all. *)
Theorem session_end_exact (e w : Z) (tf : BtcTimeframe) (s : TradingSession)
    (Hs : effective_end_s s = compute_effective_end e) (He : 300 <= e)
    (Hw : (timeframe_period_seconds tf | w)) :
  effective_end_s s = 300 * (e / 300) /\ (exceeds_end w s = true <-> e < w) /\
  forall e', e' < 300 -> compute_effective_end e' = 0.
Proof.
  assert (forall x, 0 < x -> compute_effective_end x = 300 * (x / 300)) as Hc.
  { intros x Hx. unfold compute_effective_end. rewrite (proj2 (Z.leb_gt _ _) Hx). cbn [foldl].
    rewrite !last_boundary_floor by lia.
    pose proof (Z.mod_pos_bound x 300 ltac:(lia)). pose proof (Z.div_mod x 300 ltac:(lia)).
    pose proof (Z.mod_pos_bound x 900 ltac:(lia)). pose proof (Z.div_mod x 900 ltac:(lia)).
    assert (0 <= x / 300) by (apply Z.div_pos; lia). lia. }
  assert ((300 | w)) as [k ->] by (destruct tf; [done|]; etrans; [|exact Hw]; by exists 3).
  rewrite Hs, Hc by lia. split; [done|]. split.
  - unfold exceeds_end. rewrite Hs, Hc, andb_true_iff, !Z.gtb_lt by lia.
    pose proof (Z.mod_pos_bound e 300 ltac:(lia)). pose proof (Z.div_mod e 300 ltac:(lia)). lia.
  - intros e' He'. destruct (Z.leb_spec e' 0) as [Hl|Hl].
    + unfold compute_effective_end. by rewrite (proj2 (Z.leb_le _ _) Hl).
    + rewrite Hc by lia. rewrite Z.div_small; lia.
Qed.

Lemma session_end_exact_witness :
  let s := TradingSession_default <| effective_end_s := compute_effective_end 1000 |> in
  exceeds_end 900 s = false /\ exceeds_end 1800 s = true.
Proof.
  split; [reflexivity|].
  apply (session_end_exact 1000 1800 BTC_15M); [reflexivity|lia|by exists 2|lia].
Defined.
