(* ===== verification/UiCommands.v ===== *)
(** The commands of the user interface: [src/ui_bridge/ui_command_parser.cpp].

    The document of a command is read by the third-party parser, the class
    [JsonParser]; a command that is not valid is [None].

    Shown: every command reads back as the event it stands for, through the real
    text of its document; the quantities of inventory operations are whole shares
    that fit 64 bits; the two kinds of command exclude each other; texts that are
    not commands are refused. *)
From Stdlib Require Import Ascii.
From S2P Require Import Prelude Types Price Events Json MessageRoundtrip OrderBuilder JsonText Slots.

Definition parse_mode_string (mode_str : string) : option ExecutionMode :=
  if id_eqb mode_str "DRY_RUN" then Some ExecutionMode.DRY_RUN
  else if id_eqb mode_str "LIVE" then Some ExecutionMode.LIVE else None.

Definition kMaxShares : Z := INT64_MAX ÷ kQtyScale.
Definition shares_to_qty (shares : Z) : option Z :=
  if shares <? 0 then None else if shares >? kMaxShares then None else Some (qty_from_int shares).

Definition parse_timeframe (key : string) : option BtcTimeframe :=
  if id_eqb key "BTC_5m" then Some BTC_5M else if id_eqb key "BTC_15m" then Some BTC_15M else None.

Module WatchCommandType.
Inductive Type_ := SUBSCRIBE | UNSUBSCRIBE | REQUEST_LIST.
End WatchCommandType.
Record WatchCommand := mkWatchCommand { wc_type : WatchCommandType.Type_; wc_timeframe : BtcTimeframe }.

(** A field that may be missing: a default; a field of another type: an error. *)
Definition optional {A} (d : A) (r : Simd A) : option A :=
  match r with inl a => Some a | inr SimdError.NO_SUCH_FIELD => Some d | inr _ => None end.
Definition required {A} (r : Simd A) : option A := match r with inl a => Some a | inr _ => None end.

Section Commands.
Context `{JsonParser}.

(** The document and its command name. *)
Definition command_of (json : string) : option (Json * string) :=
  if negb (nonempty json) then None else doc ← parse_json json; cmd ← required (get_string (field "cmd" doc)); Some (doc, cmd).

Definition parse_split_merge (doc : Json) (make : AssetId -> Z -> SchedulerEvent) : option SchedulerEvent :=
  condition_sv ← required (get_string (field "condition_id" doc));
  shares ← required (get_int64 (field "shares" doc));
  qty ← shares_to_qty shares;
  if qty <=? 0 then None else Some (make (mk_AssetId condition_sv) qty).
Definition parse_redeem (doc : Json) : option SchedulerEvent :=
  condition_sv ← required (get_string (field "condition_id" doc));
  token_sv ← optional "" (get_string (field "token_id" doc));
  qty ← (match get_int64 (field "shares" doc) with
         | inl shares => shares_to_qty shares
         | inr SimdError.NO_SUCH_FIELD => Some 0
         | inr _ => None
         end);
  Some (make_inventory_redeem (mk_AssetId condition_sv) (mk_AssetId token_sv) qty).

Definition parse_ui_command (json : string) : option SchedulerEvent :=
  '(doc, cmd) ← command_of json;
  if id_eqb cmd "enable_strategy" then Some (make_enable_strategy true)
  else if id_eqb cmd "disable_strategy" then Some (make_enable_strategy false)
  else if id_eqb cmd "cancel_all" then Some make_cancel_all
  else if id_eqb cmd "set_mode" then
    mode_str ← required (get_string (field "mode" doc)); mode ← parse_mode_string mode_str; Some (make_set_mode mode)
  else if id_eqb cmd "start_session" then
    end_time ← optional 0 (get_int64 (field "end_time" doc)); Some (make_start_session end_time)
  else if id_eqb cmd "stop_session" then Some make_stop_session
  else if id_eqb cmd "inventory_split" then parse_split_merge doc make_inventory_split
  else if id_eqb cmd "inventory_merge" then parse_split_merge doc make_inventory_merge
  else if id_eqb cmd "inventory_redeem" then parse_redeem doc
  else if id_eqb cmd "latency_probe" then Some make_latency_probe
  else if id_eqb cmd "market_sell_all" then Some make_market_sell_all
  else if id_eqb cmd "market_sell_down" then Some make_market_sell_down
  else None.

Definition series_key (doc : Json) : option BtcTimeframe := key ← required (get_string (field "series_key" doc)); parse_timeframe key.
Definition parse_watch_command (json : string) : option WatchCommand :=
  '(doc, cmd) ← command_of json;
  if id_eqb cmd "watch_subscribe" then tf ← series_key doc; Some (mkWatchCommand WatchCommandType.SUBSCRIBE tf)
  else if id_eqb cmd "watch_unsubscribe" then tf ← series_key doc; Some (mkWatchCommand WatchCommandType.UNSUBSCRIBE tf)
  else if id_eqb cmd "request_series_list" then Some (mkWatchCommand WatchCommandType.REQUEST_LIST BTC_5M)
  else None.
Definition is_watch_command (json : string) : bool :=
  match command_of json with
  | Some (_, cmd) => id_eqb cmd "watch_subscribe" || id_eqb cmd "watch_unsubscribe" || id_eqb cmd "request_series_list"
  | None => false
  end.

(** ** What is accepted *)

(** The quantities of inventory operations. *)
Definition inventory_qty (ev : SchedulerEvent) : option Z :=
  match kind ev with
  | SchedulerEventKind.CONTROL_INVENTORY_SPLIT | SchedulerEventKind.CONTROL_INVENTORY_MERGE | SchedulerEventKind.CONTROL_INVENTORY_REDEEM =>
      Some (control_qty_param ev)
  | _ => None
  end.
Lemma shares_to_qty_spec shares qty : shares_to_qty shares = Some qty <-> 0 <= shares <= kMaxShares /\ qty = shares * kQtyScale.
Proof.
  unfold shares_to_qty, qty_from_int. destruct (Z.ltb_spec shares 0); [split; [done|lia]|]. rewrite Z.gtb_ltb.
  destruct (Z.ltb_spec kMaxShares shares); [split; [done|lia]|]. split; [intros [= <-]; lia|intros [_ ->]; done].
Qed.
Lemma max_shares_fit shares : 0 <= shares <= kMaxShares -> 0 <= shares * kQtyScale <= INT64_MAX.
Proof.
  unfold kMaxShares. intros Hs. rewrite quot_nonneg_div in Hs by done. unfold kQtyScale in *.
  pose proof (Z.mul_div_le INT64_MAX 1000000 ltac:(lia)). lia.
Qed.

Lemma split_merge_qty doc make ev (Hmake : forall a q, inventory_qty (make a q) = Some q) :
  parse_split_merge doc make = Some ev -> exists shares, inventory_qty ev = Some (shares * kQtyScale) /\ 0 < shares <= kMaxShares.
Proof.
  unfold parse_split_merge. destruct (required (get_string _)) as [c|]; [|done]. destruct (required (get_int64 _)) as [s|]; [|done]. cbn [mbind option_bind].
  destruct (shares_to_qty s) as [q|] eqn:E; [|done]. cbn [mbind option_bind]. destruct (Z.leb_spec q 0); [done|]. intros [= <-].
  apply shares_to_qty_spec in E as [Hs ->]. exists s. rewrite Hmake. split; [done|]. unfold kQtyScale in *. lia.
Qed.
Lemma redeem_qty doc ev : parse_redeem doc = Some ev -> exists shares, inventory_qty ev = Some (shares * kQtyScale) /\ 0 <= shares <= kMaxShares.
Proof.
  unfold parse_redeem. destruct (required (get_string _)) as [c|]; [|done]. destruct (optional _ _) as [t|]; [|done]. cbn [mbind option_bind].
  destruct (get_int64 _) as [s|[]]; cbn [mbind option_bind]; try done.
  - destruct (shares_to_qty s) as [q|] eqn:E; [|done]. intros [= <-]. apply shares_to_qty_spec in E as [Hs ->]. by exists s.
  - intros [= <-]. by exists 0.
Qed.

(** Every inventory operation that is accepted is for a whole number of shares whose
    quantity fits 64 bits, and only a redemption may be for none (all). *)
Theorem command_quantities (json : string) (ev : SchedulerEvent) (qty : Z) :
  parse_ui_command json = Some ev -> inventory_qty ev = Some qty ->
  qty mod kQtyScale = 0 /\ 0 <= qty <= INT64_MAX /\ (qty = 0 -> kind ev = SchedulerEventKind.CONTROL_INVENTORY_REDEEM).
Proof.
  assert (forall shares, 0 <= shares <= kMaxShares -> inventory_qty ev = Some (shares * kQtyScale) -> inventory_qty ev = Some qty ->
    qty = shares * kQtyScale /\ qty mod kQtyScale = 0 /\ 0 <= qty <= INT64_MAX) as Hq.
  { intros s Hs E1 E2. rewrite E1 in E2. injection E2 as <-. split; [done|]. rewrite Z.mod_mul by done. split; [done|]. by apply max_shares_fit. }
  unfold parse_ui_command. destruct (command_of json) as [[doc cmd]|]; [|done]. cbn [mbind option_bind].
  repeat (case_match; [intros [= <-]; simpl; done|]). all: case_match.
  1: { destruct (required _) as [m|]; [|done]. simpl. destruct (parse_mode_string m); simpl; [|done]. intros [= <-]. done. }
  case_match. 1: { destruct (optional _ _); simpl; [|done]. intros [= <-]. done. }
  case_match; [intros [= <-]; done|].
  case_match; [|case_match]; [| |case_match].
  1,2: intros E Hinv; apply split_merge_qty in E as (s & Hs & Hb); [|done]; destruct (Hq s) as (-> & ? & ?); try done; try lia; (split; [done|]); split; [done|];
    unfold kQtyScale; lia.
  - intros E Hinv. pose proof E as E'. apply redeem_qty in E as (s & Hs & Hb). destruct (Hq s) as (-> & ? & ?); try done; try lia. split; [done|]. split; [done|]. intros _.
    unfold parse_redeem in E'. destruct (required _); [|done]. destruct (optional _ _); [|done]. cbn [mbind option_bind] in E'.
    destruct (match get_int64 _ with inl _ => _ | inr _ => _ end); [|done]. cbn [mbind option_bind] in E'. by injection E' as <-.
  - repeat (case_match; [intros [= <-]; done|]). done.
Qed.
End Commands.

(** ** Commands read back *)
Inductive Command :=
  | CEnable (enabled : bool) | CCancelAll | CSetMode (mode : ExecutionMode) | CStartSession (end_time : option Z) | CStopSession
  | CSplit (condition : string) (shares : Z) | CMerge (condition : string) (shares : Z)
  | CRedeem (condition : string) (token : option string) (shares : option Z) | CProbe | CSellAll | CSellDown.
Section Documents.
Local Open Scope string_scope.
Definition cmd_doc (cmd : string) (fields : list (string * Json)) : Json := JObject (("cmd", JString cmd) :: fields).
Definition opt_field {A} (key : string) (f : A -> Json) (a : option A) : list (string * Json) :=
  match a with Some a => [(key, f a)] | None => [] end.
Definition command_doc (c : Command) : Json :=
  match c with
  | CEnable b => cmd_doc (if b then "enable_strategy" else "disable_strategy") []
  | CCancelAll => cmd_doc "cancel_all" []
  | CSetMode m => cmd_doc "set_mode" [("mode", JString (match m with ExecutionMode.DRY_RUN => "DRY_RUN" | ExecutionMode.LIVE => "LIVE" end))]
  | CStartSession t => cmd_doc "start_session" (opt_field "end_time" JInt t)
  | CStopSession => cmd_doc "stop_session" []
  | CSplit c n => cmd_doc "inventory_split" [("condition_id", JString c); ("shares", JInt n)]
  | CMerge c n => cmd_doc "inventory_merge" [("condition_id", JString c); ("shares", JInt n)]
  | CRedeem c t n => cmd_doc "inventory_redeem" (("condition_id", JString c) :: opt_field "token_id" JString t ++ opt_field "shares" JInt n)%list
  | CProbe => cmd_doc "latency_probe" []
  | CSellAll => cmd_doc "market_sell_all" []
  | CSellDown => cmd_doc "market_sell_down" []
  end.
End Documents.
(** The event a command stands for; none for a quantity that is not representable. *)
Definition shares_ok (positive : bool) (shares : Z) : bool := ((if positive then 1 else 0) <=? shares) && (shares <=? kMaxShares).
Definition command_event (c : Command) : option SchedulerEvent :=
  match c with
  | CEnable b => Some (make_enable_strategy b)
  | CCancelAll => Some make_cancel_all
  | CSetMode m => Some (make_set_mode m)
  | CStartSession t => Some (make_start_session (default 0 t))
  | CStopSession => Some make_stop_session
  | CSplit c n => if shares_ok true n then Some (make_inventory_split (mk_AssetId c) (n * kQtyScale)) else None
  | CMerge c n => if shares_ok true n then Some (make_inventory_merge (mk_AssetId c) (n * kQtyScale)) else None
  | CRedeem c t n => if shares_ok false (default 0 n)
                     then Some (make_inventory_redeem (mk_AssetId c) (mk_AssetId (default ""%string t)) (default 0 n * kQtyScale)) else None
  | CProbe => Some make_latency_probe
  | CSellAll => Some make_market_sell_all
  | CSellDown => Some make_market_sell_down
  end.
(** The integers of a command are 64-bit values. *)
Definition command_ints (c : Command) : list Z :=
  match c with CStartSession t => option_list t | CSplit _ n | CMerge _ n => [n] | CRedeem _ _ n => option_list n | _ => [] end.

Lemma int64_digits z : fits_i64 z = true -> (Z.abs z <? 10 ^ 20) = true.
Proof. unfold fits_i64, INT64_MIN, INT64_MAX. rewrite Z.ltb_lt. bool_to_prop. lia. Qed.
Lemma command_numbers c : Forall (fun z => fits_i64 z = true) (command_ints c) -> numbers_ok (command_doc c) = true.
Proof.
  destruct c as [[]| |[]|[t|]| |c n|c n|c [t|] [n|]| | |]; try reflexivity; cbn [command_ints option_list]; intros Hf; apply Forall_cons in Hf as [Hn%int64_digits _];
    cbn [command_doc cmd_doc opt_field numbers_ok forallb app snd]; by rewrite Hn.
Qed.
Lemma shares_event positive n : fits_i64 n = true ->
  (if shares_ok positive n then Some (n * kQtyScale) else None) = (q ← shares_to_qty n; if positive && (q <=? 0) then None else Some q).
Proof.
  intros _. unfold shares_ok, shares_to_qty, qty_from_int. rewrite Z.gtb_ltb.
  destruct (Z.ltb_spec n 0); destruct (Z.ltb_spec kMaxShares n); destruct positive; cbn [mbind option_bind andb];
    repeat match goal with |- context [?a <=? ?b] => destruct (Z.leb_spec a b) end; try done; unfold kQtyScale in *; try lia.
Qed.

Lemma get_int64_fits n : fits_i64 n = true -> get_int64 (inl (JInt n)) = inl n.
Proof. intros Hn. cbn [get_int64]. by rewrite Hn. Qed.
Lemma split_merge_doc cmd c n make : fits_i64 n = true ->
  parse_split_merge (cmd_doc cmd [("condition_id", JString c); ("shares", JInt n)]%string) make =
  if shares_ok true n then Some (make (mk_AssetId c) (n * kQtyScale)) else None.
Proof.
  intros Hn. unfold parse_split_merge. change (field "condition_id" _) with (inl (JString c) : Simd Json). change (field "shares" _) with (inl (JInt n) : Simd Json).
  rewrite (get_int64_fits n Hn). cbn [get_string required mbind option_bind]. pose proof (shares_event true n Hn) as He.
  destruct (shares_ok true n), (shares_to_qty n) as [q|]; cbn [mbind option_bind andb] in *; try done; destruct (q <=? 0); congruence.
Qed.
Lemma redeem_doc c t n : Forall (fun z => fits_i64 z = true) (option_list n) -> parse_redeem (command_doc (CRedeem c t n)) = command_event (CRedeem c t n).
Proof.
  intros Hn. assert (get_string (field "token_id" (command_doc (CRedeem c t n))) = match t with Some t => inl t | None => inr SimdError.NO_SUCH_FIELD end) as Ht
    by (destruct t, n; reflexivity).
  assert (get_int64 (field "shares" (command_doc (CRedeem c t n))) = match n with Some n => inl n | None => inr SimdError.NO_SUCH_FIELD end) as Hs.
  { destruct n as [n|]; [|destruct t; reflexivity]. apply Forall_cons in Hn as [Hn _]. rewrite <- (get_int64_fits n Hn). destruct t; reflexivity. }
  unfold parse_redeem. rewrite Ht, Hs. change (field "condition_id" _) with (inl (JString c) : Simd Json). cbn [get_string required mbind option_bind].
  assert (forall t', (match n with Some n => shares_to_qty n | None => Some 0 end) ≫= (fun qty => Some (make_inventory_redeem (mk_AssetId c) t' qty)) =
    if shares_ok false (default 0 n) then Some (make_inventory_redeem (mk_AssetId c) t' (default 0 n * kQtyScale)) else None) as Hq.
  { intros t'. destruct n as [n|]; [change (default 0 (Some n)) with n|reflexivity]. apply Forall_cons in Hn as [Hn _]. pose proof (shares_event false n Hn) as He.
    destruct (shares_ok false n), (shares_to_qty n) as [q|]; cbn [mbind option_bind andb] in *; congruence. }
  destruct t as [t|]; cbn [optional mbind option_bind command_event]; rewrite <- Hq; by destruct n.
Qed.

(** Every command of the user interface reads back, through the text of its
    document, as the event it stands for: enabling and disabling, modes, sessions,
    inventory operations with their condition, token and quantity, probes and sales.
    An operation on a number of shares that is negative, not representable in 64
    bits, or zero for a split or merge, is refused, and the text is never taken for a
    watcher command. *)
Theorem command_roundtrip (c : Command) (Hints : Forall (fun z => fits_i64 z = true) (command_ints c)) :
  let json := str_of (print_json (command_doc c)) in
  parse_ui_command (H := json_reader) json = command_event c /\ is_watch_command (H := json_reader) json = false.
Proof.
  cbv zeta. assert (forall cmd fields, command_doc c = cmd_doc cmd fields ->
    command_of (H := json_reader) (str_of (print_json (command_doc c))) = Some (command_doc c, cmd)) as Hc.
  { intros cmd fields E. unfold command_of. cbn [parse_json json_reader]. rewrite txt_str_of, json_roundtrip by (by apply command_numbers).
    replace (nonempty (str_of (print_json (command_doc c)))) with true by (rewrite E; reflexivity). cbn [negb mbind option_bind].
    rewrite E. reflexivity. }
  unfold parse_ui_command, is_watch_command.
  destruct c as [[]| |[]|[t|]| |c n|c n|c t n| | |]; rewrite (Hc _ _ eq_refl); cbn [mbind option_bind]; (split; [|reflexivity]);
    try reflexivity; try (apply Forall_cons in Hints as [Hn _]).
  - change (field "end_time" _) with (inl (JInt t) : Simd Json). rewrite (get_int64_fits t Hn). reflexivity.
  - apply (split_merge_doc "inventory_split" c n make_inventory_split Hn).
  - apply (split_merge_doc "inventory_merge" c n make_inventory_merge Hn).
  - apply (redeem_doc c t n Hints).
Qed.

Lemma command_roundtrip_witness :
  let json := str_of (print_json (command_doc (CSplit "0xc0nd" 25))) in
  parse_ui_command (H := json_reader) json = Some (make_inventory_split "0xc0nd" 25000000) /\
  parse_ui_command (H := json_reader) (str_of (print_json (command_doc (CSplit "0xc0nd" 0)))) = None.
Proof.
  cbv zeta. split.
  - exact (proj1 (command_roundtrip (CSplit "0xc0nd" 25) (Forall_cons_2 _ 25 [] eq_refl (Forall_nil_2 _)))).
  - exact (proj1 (command_roundtrip (CSplit "0xc0nd" 0) (Forall_cons_2 _ 0 [] eq_refl (Forall_nil_2 _)))).
Defined.
