(* ===== verification/Discovery.v ===== *)
(** The look-up of markets: [src/common/discovery.cpp].

    The engine asks the exchange's public service for the market of a window, and
    the trading service for its flags.  The HTTPS client is a parameter [https_get]
    that gives the body of a successful response and the empty text otherwise; the
    third-party parser is the class [JsonParser].  The functions that build the
    readable one-hour names are not called and are left out.

    Shown: the window of a time contains it and is aligned; the market of a response
    has the token listed for the outcome Up as its UP token, in whatever order the
    outcomes come and however the tokens are encoded; the composed look-up is the
    network the slot manager is proved against. *)
From Stdlib Require Import Ascii.
From S2P Require Import Prelude Types Price Json Slots.

(** ** Names and windows *)
Definition timeframe_slug (tf : BtcTimeframe) : string := match tf with BTC_5M => "5m" | BTC_15M => "15m" end.

(** [s.substr(n)] *)
Definition substr_from (n : nat) (s : string) : string := String.substring n (String.length s - n) s.

Definition extract_host (url : string) : string :=
  match String.index 0 "://" url with
  | None => url
  | Some pos =>
      let start := (pos + 3)%nat in
      match String.index start "/" url with
      | None => substr_from start url
      | Some e => String.substring start (e - start) url
      end
  end.

Definition extract_path (url : string) : string :=
  match String.index 0 "://" url with
  | None => "/"
  | Some pos => match String.index (pos + 3) "/" url with None => "/" | Some slash => substr_from slash url end
  end.

Definition align_window_with_offset (unix_ts period offset_s : Z) : Z :=
  let aligned := ((unix_ts - offset_s) ÷ period) * period + offset_s in
  if aligned >? unix_ts then aligned - period else aligned.

(** One candidate per time frame; sorting it in descending order changes nothing. *)
Definition discovery_window_candidates (tf : BtcTimeframe) (unix_ts : Z) : list Z :=
  let period := timeframe_period_seconds tf in
  if period <=? 0 then [] else [align_window_with_offset unix_ts period 0].

(** [%lld] *)
Definition print_i64 (z : Z) : string :=
  if z <? 0 then String "-" (String.string_of_list_ascii (to_string (- z))) else String.string_of_list_ascii (to_string z).

Definition build_discovery_targets (tf : BtcTimeframe) (window_start_unix_s : Z) : list string :=
  [("/events?slug=btc-updown-" +:+ timeframe_slug tf +:+ "-" +:+ print_i64 window_start_unix_s)%string].

(** ** The answer of the public service *)
Definition strings_of (l : list Json) : list string := omap (fun j => match j with JString s => Some s | _ => None end) l.

(** The positions of the outcomes Up and Down, from [idx] on. *)
Fixpoint outcome_indices (outcomes : list Json) (idx : nat) (up_down : nat * nat) : nat * nat :=
  match outcomes with
  | [] => up_down
  | o :: outcomes =>
      outcome_indices outcomes (S idx)
        match o with
        | JString s => if id_eqb s "Up" then (idx, snd up_down) else if id_eqb s "Down" then (fst up_down, idx) else up_down
        | _ => up_down
        end
  end.

Section Discovery.
Context `{JsonParser}.

(** The token ids are an array, or a text that holds one. *)
Definition clob_token_ids (market : Json) : list string :=
  match get_array (field "clobTokenIds" market) with
  | inl tokens => strings_of tokens
  | inr _ =>
      match get_string (field "clobTokenIds" market) with
      | inl text =>
          match parse_json text with
          | Some inner => match get_array (inl inner) with inl tokens => strings_of tokens | inr _ => [] end
          | None => []
          end
      | inr _ => []
      end
  end.

Definition gamma_market (market : Json) : option DiscoveredMarket :=
  match get_string (field "conditionId" market) with
  | inr _ => None
  | inl cid =>
      let closed := or_default false (get_bool (field "closed" market)) in
      let '(up_idx, down_idx) :=
        match get_array (field "outcomes" market) with
        | inl outcomes => outcome_indices outcomes 0 (0, 1)%nat
        | inr _ => (0, 1)%nat
        end in
      let token_ids := clob_token_ids market in
      if (Nat.max up_idx down_idx <? length token_ids)%nat
      then Some (mkDiscoveredMarket cid (nth up_idx token_ids ""%string) (nth down_idx token_ids ""%string) closed false 0)
      else None
  end.

(** The first element that gives a result. *)
Fixpoint first_some {A B} (f : A -> option B) (l : list A) : option B :=
  match l with
  | [] => None
  | x :: l => match f x with Some b => Some b | None => first_some f l end
  end.

Definition parse_gamma_response (body : string) : option DiscoveredMarket :=
  if negb (nonempty body) || id_eqb body "[]" then None else
  match parse_json body with
  | None => None
  | Some doc =>
      match get_array (inl doc) with
      | inr _ => None
      | inl events =>
          first_some (fun event =>
            match get_array (field "markets" event) with
            | inr _ => None
            | inl markets => first_some gamma_market markets
            end) events
      end
  end.

(** ** Requests *)
Context (https_get : string -> string -> string).

Definition discover_btc_market_for_window (host : string) (tf : BtcTimeframe) (window_start_unix_s : Z) : option DiscoveredMarket :=
  first_some (fun target => parse_gamma_response (https_get host target)) (build_discovery_targets tf window_start_unix_s).

Definition kClobHost : string := "clob.polymarket.com".
Definition query_neg_risk (token_id : string) : Expected bool :=
  let body := https_get kClobHost ("/neg-risk?token_id=" +:+ token_id) in
  if negb (nonempty body) then Err ErrorCode.REST_CONNECTION_FAILED else
  match (match parse_json body with Some doc => get_bool (field "neg_risk" doc) | None => inr SimdError.INCORRECT_TYPE end) with
  | inl val => Value val
  | inr _ =>
      if id_eqb body "true" then Value true else if id_eqb body "false" then Value false else Err ErrorCode.INVALID_FORMAT
  end.

Definition query_fee_rate (token_id : string) : Expected Z :=
  let body := https_get kClobHost ("/fee-rate?token_id=" +:+ token_id) in
  if negb (nonempty body) then Err ErrorCode.REST_CONNECTION_FAILED else
  match parse_json body with
  | None => Err ErrorCode.JSON_PARSE_ERROR
  | Some doc =>
      match get_int64 (field "base_fee" doc) with
      | inr _ => Err ErrorCode.JSON_MISSING_FIELD
      | inl fee => if (fee <? 0) || (fee >? 10000) then Err ErrorCode.OUT_OF_RANGE else Value fee
      end
  end.

(** The network of the slot manager. *)
Definition slot_net (host : string) : SlotNet :=
  mkSlotNet (discover_btc_market_for_window host) query_neg_risk query_fee_rate.

(** ** Windows *)
Lemma align_window_spec unix_ts period : 0 < period ->
  (period | align_window_with_offset unix_ts period 0) /\
  align_window_with_offset unix_ts period 0 <= unix_ts < align_window_with_offset unix_ts period 0 + period.
Proof.
  intros Hp. unfold align_window_with_offset. rewrite Z.sub_0_r, Z.add_0_r.
  pose proof (Z.quot_rem' unix_ts period) as Hq. pose proof (Z.rem_bound_abs unix_ts period) as Hr.
  destruct (Z.gtb_spec (unix_ts ÷ period * period) unix_ts) as [Hgt|Hle].
  - split; [exists (unix_ts ÷ period - 1); lia|]. lia.
  - split; [by exists (unix_ts ÷ period)|].
    assert (0 <= Z.rem unix_ts period) by lia. lia.
Qed.
Lemma window_candidates tf unix_ts :
  exists w, discovery_window_candidates tf unix_ts = [w] /\ (timeframe_period_seconds tf | w) /\
    w <= unix_ts < w + timeframe_period_seconds tf.
Proof.
  unfold discovery_window_candidates. assert (0 < timeframe_period_seconds tf) as Hp by (by destruct tf).
  destruct (Z.leb_spec (timeframe_period_seconds tf) 0); [lia|]. eexists. split; [done|]. by apply align_window_spec.
Qed.

(** ** Tokens by outcome *)
Definition market_json (cid : string) (closed : bool) (outcomes tokens : Json) : Json :=
  JObject [("conditionId", JString cid); ("closed", JBool closed); ("outcomes", outcomes); ("clobTokenIds", tokens)]%string.

(** What a field that names the two tokens looks like. *)
Definition names_tokens (t0 t1 : string) (tokens : Json) : Prop :=
  tokens = JArray [JString t0; JString t1] \/
  exists text, tokens = JString text /\ parse_json text = Some (JArray [JString t0; JString t1]).

Lemma clob_tokens cid closed outcomes tokens t0 t1 : names_tokens t0 t1 tokens ->
  clob_token_ids (market_json cid closed outcomes tokens) = [t0; t1].
Proof. intros [-> | (text & -> & Hp)]; [done|]. unfold clob_token_ids. simpl. by rewrite Hp. Qed.

(** A discovered market has the condition id of the response and, as UP and DOWN
    tokens, those listed for the outcomes Up and Down; without outcomes the
    first token is UP. *)
Theorem gamma_tokens (body cid t0 t1 : string) (closed up_first : bool) (outcomes tokens : Json)
    (Hbody : nonempty body = true /\ body <> "[]"%string)
    (Hparse : parse_json body = Some (JArray [JObject [("markets"%string, JArray [market_json cid closed outcomes tokens])]]))
    (Htokens : names_tokens t0 t1 tokens)
    (Houtcomes : outcomes = JArray (if up_first then [JString "Up"; JString "Down"] else [JString "Down"; JString "Up"]) \/
                 (up_first = true /\ outcomes = JNull)) :
  parse_gamma_response body =
    Some (mkDiscoveredMarket cid (if up_first then t0 else t1) (if up_first then t1 else t0) closed false 0).
Proof.
  destruct Hbody as [Hne Hnb%id_eqb_false]. unfold parse_gamma_response. rewrite Hne, Hnb, Hparse. simpl.
  unfold gamma_market. rewrite (clob_tokens _ _ _ _ t0 t1 Htokens). simpl.
  destruct Houtcomes as [-> | [-> ->]]; [|done]. by destruct up_first.
Qed.
(** The fee rate is in basis points of at most one. *)
Lemma fee_rate_range token_id fee : query_fee_rate token_id = Value fee -> 0 <= fee <= 10000.
Proof. unfold query_fee_rate. repeat case_match; try done. intros [= <-]. bool_to_prop. lia. Qed.
End Discovery.
