(* ===== verification/FeedParsers.v ===== *)
(** The parsers of the two price feeds: [src/rtds/rtds_message_parser.cpp] and
    [src/binance/binance_message_parser.cpp], on documents (Json).

    Floating-point numbers are the class [Doubles]: a type with zero, the value of a
    JSON number and [std::from_chars] on a whole text.  A parser that fails leaves its
    output alone: it returns the update or the code.

    Shown: a parsed update fits the fixed-size structures and has a known kind, with
    the symbol in lower case; the documented messages of the feeds are read back field
    by field; frames without market data give the codes that the header documents. *)
From Stdlib Require Import Ascii.
From S2P Require Import Prelude Types Price Json.

Class Doubles (D : Type) := {
  d_zero : D;
  d_of_int : Z -> D;
  d_of_literal : string -> D;
  d_from_chars : list ascii -> option D }.     (* the whole text *)

(** [get_double]: also of an integer. *)
Definition get_double `{Doubles D} (r : Simd Json) : Simd D :=
  match r with
  | inl (JDouble s) => inl (d_of_literal s)
  | inl (JInt z) => inl (d_of_int z)
  | inl _ => inr SimdError.INCORRECT_TYPE
  | inr e => inr e
  end.

(** ** Symbols *)
Definition kMaxCryptoSymbolLen : nat := 24.
Definition CryptoSymbol (sv : string) : string := String.substring 0 (kMaxCryptoSymbolLen - 1) sv.
Definition lower (c : ascii) : ascii :=
  if (65 <=? char_code c) && (char_code c <=? 90) then ascii_of_nat (nat_of_ascii c + 32) else c.
Fixpoint lowercase_inplace (s : string) : string :=
  match s with EmptyString => EmptyString | String c s => String (lower c) (lowercase_inplace s) end.

Section Parsers.
Context {D : Type} `{Doubles D} `{JsonParser}.

(** ** The price feed of the exchange *)
Record CryptoPriceUpdate := mkCryptoPriceUpdate { cp_symbol : string; cp_value : D; cp_exchange_ts_ms : Z; cp_recv_ts : Z }.
Definition rtds_parse (payload : string) (recv_ts : Z) : Expected CryptoPriceUpdate :=
  if id_eqb payload "PONG" || id_eqb payload "pong" then Err ErrorCode.PONG_MESSAGE else
  match parse_json payload with
  | None => Err ErrorCode.JSON_PARSE_ERROR
  | Some doc =>
      match get_string (field "topic" doc) with
      | inr _ => Err ErrorCode.UNKNOWN_EVENT_TYPE
      | inl topic =>
          if negb (id_eqb topic "crypto_prices") then Err ErrorCode.UNKNOWN_EVENT_TYPE else
          match get_string (field "type" doc) with
          | inr _ => Err ErrorCode.UNKNOWN_EVENT_TYPE
          | inl type =>
              if negb (id_eqb type "update") then Err ErrorCode.UNKNOWN_EVENT_TYPE else
              match field "payload" doc with
              | inr _ => Err ErrorCode.JSON_PARSE_ERROR
              | inl payload_obj =>
                  match get_string (field "symbol" payload_obj) with
                  | inr _ => Err ErrorCode.JSON_PARSE_ERROR
                  | inl symbol =>
                      let value := match get_double (field "value" payload_obj) with
                        | inl v => Some v
                        | inr _ => match get_int64 (field "value" payload_obj) with inl z => Some (d_of_int z) | inr _ => None end
                        end in
                      match value with
                      | None => Err ErrorCode.JSON_PARSE_ERROR
                      | Some v =>
                          let exchange_ts := match get_int64 (field "timestamp" payload_obj) with
                            | inl ts => ts
                            | inr _ => or_default 0 (get_int64 (field "timestamp" doc))
                            end in
                          Value (mkCryptoPriceUpdate (CryptoSymbol symbol) v exchange_ts recv_ts)
                      end
                  end
              end
          end
      end
  end.

(** ** The price feed of Binance *)
Inductive BinanceStreamType := UNKNOWN | BOOK_TICKER | TRADE | AGG_TRADE.
Inductive BinanceUpdateKind := DATA | CONNECTED | DISCONNECTED.
Record BinanceMarketUpdate := mkBinanceMarketUpdate {
  bm_symbol : string; bm_type : BinanceStreamType; bm_kind : BinanceUpdateKind; bm_buyer_is_maker : bool;
  bm_bid_price : D; bm_bid_qty : D; bm_ask_price : D; bm_ask_qty : D; bm_last_price : D; bm_last_qty : D;
  bm_exchange_ts_ms : Z; bm_update_id : Z; bm_recv_ts : Z; bm_recv_wall_ms : Z }.

Definition parse_decimal (sv : string) : option D := if nonempty sv then d_from_chars (txt sv) else None.
(** The position of the last character [ch]. *)
Fixpoint rfind (ch : ascii) (s : string) : option nat :=
  match s with
  | EmptyString => None
  | String c s => match rfind ch s with Some n => Some (S n) | None => if bool_decide (c = ch) then Some 0%nat else None end
  end.
Definition stream_type_from_name (name : string) : BinanceStreamType :=
  match rfind "@" name with
  | None => UNKNOWN
  | Some at_ =>
      let suffix := String.substring (at_ + 1) (String.length name - (at_ + 1)) name in
      if id_eqb suffix "bookTicker" then BOOK_TICKER
      else if id_eqb suffix "trade" then TRADE
      else if id_eqb suffix "aggTrade" then AGG_TRADE else UNKNOWN
  end.
Definition stream_type_from_event (ev : string) : BinanceStreamType :=
  if id_eqb ev "trade" then TRADE else if id_eqb ev "aggTrade" then AGG_TRADE else UNKNOWN.

(** The kind of the frame and the object with its fields. *)
Definition frame_kind (doc : Json) : Expected (BinanceStreamType * Json) :=
  match get_string (field "stream" doc) with
  | inl stream_name =>
      match field "data" doc with
      | inr _ => Err ErrorCode.JSON_PARSE_ERROR
      | inl data_obj =>
          match stream_type_from_name stream_name with UNKNOWN => Err ErrorCode.UNKNOWN_EVENT_TYPE | type => Value (type, data_obj) end
      end
  | inr _ =>
      match get_string (field "e" doc) with
      | inl ev => match stream_type_from_event ev with UNKNOWN => Err ErrorCode.UNKNOWN_EVENT_TYPE | type => Value (type, doc) end
      | inr _ => Value (BOOK_TICKER, doc)
      end
  end.
Definition decimal_field (obj : Json) (key : string) : option D :=
  match get_string (field key obj) with inl s => parse_decimal s | inr _ => None end.
Definition parse_ticker (obj : Json) (symbol : string) (recv_ts : Z) : Expected BinanceMarketUpdate :=
  match decimal_field obj "b", decimal_field obj "B", decimal_field obj "a", decimal_field obj "A" with
  | Some b, Some B, Some a, Some A =>
      Value (mkBinanceMarketUpdate symbol BOOK_TICKER DATA false b B a A d_zero d_zero 0 (or_default 0 (get_int64 (field "u" obj))) recv_ts 0)
  | _, _, _, _ => Err ErrorCode.JSON_PARSE_ERROR
  end.
Definition parse_trade (type : BinanceStreamType) (id_key : string) (obj : Json) (symbol : string) (recv_ts : Z) : Expected BinanceMarketUpdate :=
  match decimal_field obj "p", decimal_field obj "q" with
  | Some p, Some q =>
      let ts := match get_int64 (field "T" obj) with inl ts => ts | inr _ => or_default 0 (get_int64 (field "E" obj)) end in
      Value (mkBinanceMarketUpdate symbol type DATA (or_default false (get_bool (field "m" obj))) d_zero d_zero d_zero d_zero p q
               ts (or_default 0 (get_int64 (field id_key obj))) recv_ts 0)
  | _, _ => Err ErrorCode.JSON_PARSE_ERROR
  end.
Definition binance_parse (payload : string) (recv_ts : Z) : Expected BinanceMarketUpdate :=
  match parse_json payload with
  | None => Err ErrorCode.JSON_PARSE_ERROR
  | Some doc =>
      if is_success (field "id" doc) && negb (is_success (field "stream" doc)) && negb (is_success (field "e" doc))
      then Err ErrorCode.UNKNOWN_EVENT_TYPE else
      match frame_kind doc with
      | Err c => Err c
      | Value (type, data_obj) =>
          match get_string (field "s" data_obj) with
          | inr _ => Err ErrorCode.JSON_PARSE_ERROR
          | inl sym =>
              let symbol := lowercase_inplace (CryptoSymbol sym) in
              match type with
              | BOOK_TICKER => parse_ticker data_obj symbol recv_ts
              | TRADE => parse_trade TRADE "t" data_obj symbol recv_ts
              | AGG_TRADE => parse_trade AGG_TRADE "a" data_obj symbol recv_ts
              | UNKNOWN => Err ErrorCode.UNKNOWN_EVENT_TYPE
              end
          end
      end
  end.

(** ** Theorems *)
Definition no_upper (s : string) : Prop := Forall (fun c => (65 <=? char_code c) && (char_code c <=? 90) = false) (txt s).
Lemma substring_length n s : (String.length (String.substring 0 n s) <= n)%nat.
Proof. revert n. induction s as [|c s IH]; intros [|n]; cbn; try lia. specialize (IH n). lia. Qed.
Lemma symbol_length sv : (String.length (CryptoSymbol sv) < kMaxCryptoSymbolLen)%nat.
Proof. unfold CryptoSymbol. pose proof (substring_length (kMaxCryptoSymbolLen - 1) sv). unfold kMaxCryptoSymbolLen in *. lia. Qed.
Lemma lowercase_length s : String.length (lowercase_inplace s) = String.length s.
Proof. induction s as [|c s IH]; [done|]. cbn. by rewrite IH. Qed.
Lemma lower_not_upper c : (65 <=? char_code (lower c)) && (char_code (lower c) <=? 90) = false.
Proof. destruct c as [[] [] [] [] [] [] [] []]; reflexivity. Qed.
Lemma lowercase_no_upper s : no_upper (lowercase_inplace s).
Proof. induction s as [|c s IH]; constructor; [apply lower_not_upper|exact IH]. Qed.

Definition update_ok (recv_ts : Z) (u : BinanceMarketUpdate) : Prop :=
  (String.length (bm_symbol u) < kMaxCryptoSymbolLen)%nat /\ no_upper (bm_symbol u) /\ bm_type u <> UNKNOWN /\ bm_kind u = DATA /\ bm_recv_ts u = recv_ts.
(** Whatever a frame of Binance contains, it gives an update that fits its fixed-size
    structure, has one of the three kinds and carries the symbol in lower case, or one
    of the two documented codes. *)
Theorem binance_parse_outcome (payload : string) (recv_ts : Z) :
  match binance_parse payload recv_ts with
  | Value u => update_ok recv_ts u
  | Err c => c = ErrorCode.UNKNOWN_EVENT_TYPE \/ c = ErrorCode.JSON_PARSE_ERROR
  end.
Proof.
  unfold binance_parse. destruct (parse_json payload) as [doc|]; [|by right]. destruct (_ && _); [by left|].
  assert (match frame_kind doc with Value _ => True | Err c => c = ErrorCode.UNKNOWN_EVENT_TYPE \/ c = ErrorCode.JSON_PARSE_ERROR end) as Hk.
  { unfold frame_kind. destruct (get_string (field "stream" doc)) as [name|].
    - destruct (field "data" doc); [|by right]. destruct (stream_type_from_name name); by auto.
    - destruct (get_string (field "e" doc)) as [ev|]; [|done]. destruct (stream_type_from_event ev); by auto. }
  destruct (frame_kind doc) as [[type obj]|c]; [|done]. destruct (get_string (field "s" obj)) as [sym|]; [|by right].
  assert ((String.length (lowercase_inplace (CryptoSymbol sym)) < kMaxCryptoSymbolLen)%nat /\ no_upper (lowercase_inplace (CryptoSymbol sym))) as [H1 H2].
  { rewrite lowercase_length. split; [apply symbol_length|apply lowercase_no_upper]. }
  assert (forall t k, t <> UNKNOWN -> match parse_trade t k obj (lowercase_inplace (CryptoSymbol sym)) recv_ts with
    | Value u => update_ok recv_ts u | Err c => c = ErrorCode.UNKNOWN_EVENT_TYPE \/ c = ErrorCode.JSON_PARSE_ERROR end) as Ht.
  { intros t k Hne. unfold parse_trade. destruct (decimal_field obj "p"), (decimal_field obj "q"); by auto || (split; [|split; [|split]]). }
  destruct type; [by left| |by apply Ht|by apply Ht]. unfold parse_ticker.
  destruct (decimal_field obj "b"), (decimal_field obj "B"), (decimal_field obj "a"), (decimal_field obj "A"); by auto || (split; [|split; [|split]]).
Qed.

(** ** The documented messages *)
Definition ticker_doc (symbol b B a A : string) (u : Z) : Json :=
  JObject [("u", JInt u); ("s", JString symbol); ("b", JString b); ("B", JString B); ("a", JString a); ("A", JString A)].
Definition trade_doc (event id_key symbol : string) (id ts : Z) (p q : string) (maker : bool) : Json :=
  JObject [("e", JString event); ("E", JInt (ts + 1)); ("s", JString symbol); (id_key, JInt id); ("p", JString p); ("q", JString q); ("T", JInt ts); ("m", JBool maker)].
Definition in_envelope (stream : string) (doc : Json) : Json := JObject [("stream", JString stream); ("data", doc)].
Lemma binance_parse_data payload recv_ts doc type obj sym :
  parse_json payload = Some doc -> is_success (field "id" doc) = false -> frame_kind doc = Value (type, obj) -> get_string (field "s" obj) = inl sym ->
  binance_parse payload recv_ts =
  let symbol := lowercase_inplace (CryptoSymbol sym) in
  match type with
  | BOOK_TICKER => parse_ticker obj symbol recv_ts
  | TRADE => parse_trade TRADE "t" obj symbol recv_ts
  | AGG_TRADE => parse_trade AGG_TRADE "a" obj symbol recv_ts
  | UNKNOWN => Err ErrorCode.UNKNOWN_EVENT_TYPE
  end.
Proof. intros H1 H2 H3 H4. unfold binance_parse. by rewrite H1, H2, H3, H4. Qed.
Lemma ticker_read payload recv_ts symbol b B a A u vb vB va vA : fits_i64 u = true ->
  parse_json payload = Some (in_envelope "btcusdt@bookTicker" (ticker_doc symbol b B a A u)) \/ parse_json payload = Some (ticker_doc symbol b B a A u) ->
  parse_decimal b = Some vb -> parse_decimal B = Some vB -> parse_decimal a = Some va -> parse_decimal A = Some vA ->
  binance_parse payload recv_ts =
  Value (mkBinanceMarketUpdate (lowercase_inplace (CryptoSymbol symbol)) BOOK_TICKER DATA false vb vB va vA d_zero d_zero 0 u recv_ts 0).
Proof.
  intros Hu Hp E1 E2 E3 E4. assert (binance_parse payload recv_ts = parse_ticker (ticker_doc symbol b B a A u) (lowercase_inplace (CryptoSymbol symbol)) recv_ts) as ->.
  { destruct Hp as [Hp|Hp]; by rewrite (binance_parse_data _ recv_ts _ BOOK_TICKER (ticker_doc symbol b B a A u) symbol Hp). }
  assert (decimal_field (ticker_doc symbol b B a A u) "b" = parse_decimal b /\ decimal_field (ticker_doc symbol b B a A u) "B" = parse_decimal B /\
    decimal_field (ticker_doc symbol b B a A u) "a" = parse_decimal a /\ decimal_field (ticker_doc symbol b B a A u) "A" = parse_decimal A) as (F1 & F2 & F3 & F4) by done.
  unfold parse_ticker. rewrite F1, F2, F3, F4, E1, E2, E3, E4.
  assert (get_int64 (field "u" (ticker_doc symbol b B a A u)) = get_int64 (inl (JInt u))) as -> by done. cbn [get_int64]. by rewrite Hu.
Qed.
Lemma trade_read payload recv_ts (agg : bool) symbol id ts p q maker vp vq : fits_i64 id = true -> fits_i64 ts = true ->
  let doc := trade_doc (if agg then "aggTrade" else "trade") (if agg then "a" else "t") symbol id ts p q maker in
  parse_json payload = Some (in_envelope (if agg then "btcusdt@aggTrade" else "btcusdt@trade") doc) \/ parse_json payload = Some doc ->
  parse_decimal p = Some vp -> parse_decimal q = Some vq ->
  binance_parse payload recv_ts =
  Value (mkBinanceMarketUpdate (lowercase_inplace (CryptoSymbol symbol)) (if agg then AGG_TRADE else TRADE) DATA maker d_zero d_zero d_zero d_zero vp vq ts id recv_ts 0).
Proof.
  intros Hi Ht doc Hp E1 E2. assert (binance_parse payload recv_ts = parse_trade (if agg then AGG_TRADE else TRADE) (if agg then "a" else "t") doc (lowercase_inplace (CryptoSymbol symbol)) recv_ts) as ->.
  { destruct agg, Hp as [Hp|Hp]; [rewrite (binance_parse_data _ recv_ts _ AGG_TRADE doc symbol Hp)|rewrite (binance_parse_data _ recv_ts _ AGG_TRADE doc symbol Hp)
      |rewrite (binance_parse_data _ recv_ts _ TRADE doc symbol Hp)|rewrite (binance_parse_data _ recv_ts _ TRADE doc symbol Hp)]; done. }
  assert (decimal_field doc "p" = parse_decimal p /\ decimal_field doc "q" = parse_decimal q) as (F1 & F2) by (by destruct agg).
  unfold parse_trade. rewrite F1, F2, E1, E2.
  assert (get_int64 (field "T" doc) = get_int64 (inl (JInt ts)) /\ get_int64 (field (if agg then "a" else "t") doc) = get_int64 (inl (JInt id)) /\
    get_bool (field "m" doc) = inl maker) as (-> & -> & ->) by (by destruct agg). cbn [get_int64]. by rewrite Hi, Ht.
Qed.
(** The update of the exchange's feed, with the time of the payload or, failing that,
    of the message. *)
Lemma rtds_read payload recv_ts symbol value ts outer :
  id_eqb payload "PONG" || id_eqb payload "pong" = false -> fits_i64 ts = true ->
  parse_json payload = Some (JObject [("topic", JString "crypto_prices"); ("type", JString "update"); ("timestamp", JInt outer);
    ("payload", JObject [("symbol", JString symbol); ("timestamp", JInt ts); ("value", JDouble value)])]) ->
  rtds_parse payload recv_ts = Value (mkCryptoPriceUpdate (CryptoSymbol symbol) (d_of_literal value) ts recv_ts).
Proof.
  intros Hp Ht Hj. unfold rtds_parse. rewrite Hp, Hj. set (pl := JObject [("symbol"%string, _); _; _]). set (doc := JObject _).
  assert (get_string (field "topic" doc) = inl "crypto_prices"%string /\ get_string (field "type" doc) = inl "update"%string /\ field "payload" doc = inl pl /\
    get_string (field "symbol" pl) = inl symbol /\ get_double (field "value" pl) = inl (d_of_literal value) /\ get_int64 (field "timestamp" pl) = get_int64 (inl (JInt ts)))
    as (-> & -> & -> & -> & -> & ->) by done. cbn [get_int64]. by rewrite Ht.
Qed.
(** A reply without an identifier is not of unknown kind, as the header says of replies
    and unrecognised frames, but malformed. *)
Lemma plain_reply_malformed payload recv_ts msg : parse_json payload = Some (JObject [("code", JInt 2); ("msg", JString msg)]) ->
  binance_parse payload recv_ts = Err ErrorCode.JSON_PARSE_ERROR.
Proof. intros Hp. unfold binance_parse. by rewrite Hp. Qed.
End Parsers.
