(* ===== verification/FeedClients.v ===== *)
(** The web-socket clients of the two price feeds: [src/rtds/rtds_ws_client.cpp] and
    [src/binance/binance_ws_client.cpp], and what they share with the clients of the
    exchange's own streams (WsClients).

    A client owns one stream at a time, numbered.  Its asynchronous operations are
    outstanding until their handler runs, with success or failure, in any order: also
    the handlers of a stream that was cancelled and dropped run later.  A timer is armed
    or not; the handlers of cancelled waits do nothing, so that cancelling a timer
    disarms it.  What the callbacks do is an input ([e_throws]: the callback throws).
    The callbacks that were called are the trace [events].

    Shown: neither client is ever stuck before its shutdown: its reconnect timer is
    armed or an operation of its current attempt is outstanding; the delay stays within
    its bounds; the status callbacks of the Binance client alternate.  And what goes
    wrong: the read of the stream that a planned reconnect replaces fails after the new
    attempt has begun, and is taken for a failure of the new stream; from the first
    rotation on the Binance client drops every connection it makes. *)
From Stdlib Require Import Ascii.
From S2P Require Import Prelude Types Price Events Json Crypto OrderBuilder Slots Discovery.

(** A text of the program, with its quotation marks written as apostrophes. *)
Definition lit (s : string) : list ascii := (fun ch => if bool_decide (ch = "'"%char) then dquote else ch) <$> txt s.

(** ** Endpoints *)
Record Endpoint := mkEndpoint { ep_host : string; ep_port : string; ep_path : string }.
Definition starts_with (p s : string) : bool := String.prefix p s.
Definition strip_scheme (url : string) : string :=
  if starts_with "wss://" url then substr_from 6 url
  else if starts_with "ws://" url then substr_from 5 url else url.
Definition host_and_path (url : string) : string * string :=
  match String.index 0 "/" url with
  | Some slash_pos => (String.substring 0 slash_pos url, substr_from slash_pos url)
  | None => (url, "/"%string)
  end.
Definition host_and_port (host default_port : string) : string * string :=
  match String.index 0 ":" host with
  | Some colon_pos => (String.substring 0 colon_pos host, substr_from (colon_pos + 1) host)
  | None => (host, default_port)
  end.
(** The constructors of three clients. *)
Definition parse_url (endpoint : string) : Endpoint :=
  let '(host, path) := host_and_path (strip_scheme endpoint) in
  let '(host, port) := host_and_port host (if id_eqb (String.substring 0 3 endpoint) "wss" then "443" else "80") in
  mkEndpoint host port path.
Definition parse_endpoint (url_in : string) : Endpoint :=
  let is_wss := starts_with "wss://" url_in in
  let '(hostport, path) := host_and_path (strip_scheme url_in) in
  let '(host, port) := host_and_port hostport (if is_wss then "443" else "80") in
  mkEndpoint host port path.

(** The two readings of an address agree when it has a scheme. *)
Lemma endpoints_agree (secure : bool) (rest : string) :
  let url := ((if secure then "wss://" else "ws://") +:+ rest)%string in parse_url url = parse_endpoint url.
Proof.
  cbv zeta. unfold parse_url, parse_endpoint. destruct (host_and_path _) as [host path].
  enough (id_eqb (String.substring 0 3 ((if secure then "wss://" else "ws://") +:+ rest)) "wss" = starts_with "wss://" ((if secure then "wss://" else "ws://") +:+ rest)) as -> by done.
  destruct secure; vm_compute; [by destruct rest|done].
Qed.

(** ** Streams *)
Inductive WOp :=
  | WResolve | WConnect (s : nat) | WSsl (s : nat) | WHandshake (s : nat) | WSubscribe (s : nat) | WPing (s : nat) | WQueued (s : nat)
  | WRead (s : nat).
#[export] Instance WOp_eq_dec : EqDecision WOp.
Proof. solve_decision. Defined.
Inductive WResult := WOk (payload : string) | WErr (message : string).
(** The clock, whether the library accepts the host's name, and whether the callback
    throws. *)
Record WEnv := mkWEnv { e_now : Z; e_sni_ok : bool; e_throws : bool }.
Implicit Types e : WEnv.

Record Link := mkLink {
  ws : option nat;
  next_ws : nat;
  ops : list WOp;
  reconnecting : bool;
  reconnect_armed : bool;
  reconnect_delay_ms : Z }.
Definition Link_new (delay : Z) : Link := mkLink None 0 [] false false delay.
Implicit Types l : Link.
Definition launch (op : WOp) l : Link := l <| ops ::= fun o => o ++ [op] |>.
(** The statements of [start_connect] after its guard. *)
Definition new_stream l : Link :=
  launch WResolve (l <| reconnecting := false |> <| ws := Some (next_ws l) |> <| next_ws ::= S |>).
(** The statements of [schedule_reconnect] after its guard. *)
Definition arm_reconnect (max_ms : Z) l : Link :=
  l <| reconnecting := true |> <| reconnect_armed := true |> <| reconnect_delay_ms := Z.min (reconnect_delay_ms l * 2) max_ms |>.
Fixpoint remove_op (op : WOp) (o : list WOp) : list WOp :=
  match o with [] => [] | x :: o => if bool_decide (x = op) then o else x :: remove_op op o end.

(** An operation that carries the current attempt on. *)
Definition chain l (op : WOp) : bool :=
  match op with
  | WResolve => true
  | WConnect s | WSsl s | WHandshake s | WRead s => bool_decide (ws l = Some s)
  | _ => false
  end.
Record link_ok l : Prop := {
  k_ws : is_Some (ws l);
  k_armed : reconnecting l = true -> reconnect_armed l = true;
  k_live : reconnecting l = false -> exists op, op ∈ ops l /\ chain l op = true }.

(** The same where there may be no stream, while the reconnect timer is armed. *)
Record attempt_ok l : Prop := {
  a_ws : ws l = None -> reconnecting l = true;
  a_armed : reconnecting l = true -> reconnect_armed l = true;
  a_live : reconnecting l = false -> exists op, op ∈ ops l /\ chain l op = true }.

Lemma elem_remove op x (o : list WOp) : x ∈ o -> x <> op -> x ∈ remove_op op o.
Proof.
  induction o as [|y o IH]; [done|]. intros Hin Hne. cbn [remove_op]. case_bool_decide; [subst; by apply elem_of_cons in Hin as [?|?]|].
  apply elem_of_cons in Hin as [->|?]; [by left|right; auto].
Qed.
Lemma new_stream_ok l : link_ok (new_stream l).
Proof. split; cbn; [by eexists|done|]. intros _. exists WResolve. split; [|done]. apply elem_of_app. right. by left. Qed.
Lemma arm_ok max_ms l : is_Some (ws l) -> link_ok (arm_reconnect max_ms l).
Proof. intros H. by split. Qed.
Lemma launch_ok op l : is_Some (ws l) -> (reconnecting l = true -> reconnect_armed l = true) -> chain l op = true -> link_ok (launch op l).
Proof. intros Hw Ha Ho. split; [done|done|]. intros _. exists op. split; [apply elem_of_app; right; by left|by destruct op]. Qed.
(** Launching and completing what does not carry the attempt. *)
Lemma launch_more op l : link_ok l -> link_ok (launch op l).
Proof. intros [H1 H2 H3]. split; [done|done|]. intros E. destruct (H3 E) as (o & Hin & Ho). exists o. split; [apply elem_of_app; by left|by destruct o]. Qed.
Lemma remove_ok op l : chain l op = false -> link_ok l -> link_ok (l <| ops ::= remove_op op |>).
Proof.
  intros Hop [H1 H2 H3]. split; [done|done|]. intros E. destruct (H3 E) as (o & Hin & Ho). exists o. split; [|by destruct o].
  apply elem_remove; [done|]. intros ->. congruence.
Qed.

(** The delay never exceeds the larger of the configured bounds, and never falls below
    the smaller. *)
Definition delay_ok (base max_ms : Z) l : Prop := Z.min base max_ms <= reconnect_delay_ms l <= Z.max base max_ms.
Lemma arm_delay base max_ms l : 0 <= base -> 0 <= max_ms -> delay_ok base max_ms l -> delay_ok base max_ms (arm_reconnect max_ms l).
Proof. unfold delay_ok. cbn. lia. Qed.

(** Until the handler of an operation has launched the next. *)
Record link_weak l : Prop := { w_ws : is_Some (ws l); w_armed : reconnecting l = true -> reconnect_armed l = true }.
Lemma ok_weak l : link_ok l -> link_weak l.
Proof. by intros []. Qed.
Lemma remove_weak op l : link_ok l -> link_weak (l <| ops ::= remove_op op |>).
Proof. by intros []. Qed.
Lemma reconnecting_ok l : link_weak l -> reconnecting l = true -> link_ok l.
Proof. intros [H1 H2] E. split; [done|done|congruence]. Qed.
Lemma weak_launch op l : link_weak l -> chain l op = true -> link_ok (launch op l).
Proof. intros [H1 H2]. by apply launch_ok. Qed.
#[export] Hint Resolve ok_weak remove_weak arm_ok new_stream_ok launch_more : trading.

Inductive FeedEvent :=
  | EvConnected
  | EvDisconnected (reason : string)
  | EvStatus (up : bool)
  | EvMessage (payload : string) (recv_ts : Z)
  | EvWrite (s : nat) (payload : list ascii).
#[export] Instance FeedEvent_eq_dec : EqDecision FeedEvent.
Proof. solve_decision. Defined.
Definition reason_text (unknown where_ : string) (message : option string) : string :=
  (where_ +:+ ": " +:+ default unknown message)%string.

(** ** The price feed of the exchange *)
Module Rtds.
Record RtdsWsConfig := mkRtdsWsConfig {
  endpoint : string; ping_interval_ms : Z; reconnect_base_ms : Z; reconnect_max_ms : Z; stale_threshold_ms : Z }.
Definition RtdsWsConfig_default : RtdsWsConfig := mkRtdsWsConfig "wss://ws-live-data.polymarket.com" 5000 1000 30000 15000.
Definition kSubscribeMsg : list ascii := lit "{'action':'subscribe','subscriptions':[{'topic':'crypto_prices','type':'update'}]}".
Definition kPingMsg : list ascii := lit "PING".

Record Client := mkClient {
  config : RtdsWsConfig;
  link : Link;
  ping_armed : bool;
  stale_armed : bool;
  last_message_ts : Z;
  shutdown_requested : bool;
  stopped : bool;
  events : list FeedEvent }.
Definition Client_new (cfg : RtdsWsConfig) : Client := mkClient cfg (Link_new (reconnect_base_ms cfg)) false false 0 false false [].
Implicit Types c : Client.

Definition emit (ev : FeedEvent) c : Client := c <| events ::= fun evs => evs ++ [ev] |>.
(** On the stream the client has, once it was started. *)
Definition launch_on (op : nat -> WOp) c : Client :=
  match ws (link c) with Some s => c <| link ::= launch (op s) |> | None => c end.
Definition write_on (op : nat -> WOp) (payload : list ascii) c : Client :=
  match ws (link c) with Some s => emit (EvWrite s payload) (c <| link ::= launch (op s) |>) | None => c end.

Definition schedule_reconnect c : Client :=
  if shutdown_requested c then c else c <| link ::= arm_reconnect (reconnect_max_ms (config c)) |>.
Definition handle_error (where_ : string) (message : option string) c : Client :=
  if shutdown_requested c || reconnecting (link c) then c else
  schedule_reconnect (emit (EvDisconnected (reason_text "unknown error" where_ message)) (c <| ping_armed := false |> <| stale_armed := false |>)).
Definition start_connect c : Client := if shutdown_requested c then c else c <| link ::= new_stream |>.
Definition on_resolve c : Client := launch_on WConnect c.
Definition on_tcp_connect e c : Client := if negb (e_sni_ok e) then handle_error "ssl_sni" None c else launch_on WSsl c.
Definition on_ssl_handshake c : Client := launch_on WHandshake c.
Definition send_subscribe c : Client := write_on WSubscribe kSubscribeMsg c.
Definition start_ping_timer c : Client := if shutdown_requested c then c else c <| ping_armed := true |>.
Definition send_ping c : Client := if shutdown_requested c then c else write_on WPing kPingMsg c.
Definition start_stale_timer c : Client :=
  if shutdown_requested c || (stale_threshold_ms (config c) <=? 0) then c else c <| stale_armed := true |>.
Definition do_read c : Client := if shutdown_requested c then c else launch_on WRead c.
Definition on_ws_connected e c : Client :=
  let c := emit EvConnected (c <| link ::= fun l => l <| reconnect_delay_ms := reconnect_base_ms (config c) |> |>) in
  if e_throws e then handle_error "on_connected" None c else do_read (start_stale_timer (send_subscribe c)).

(** The handlers. *)
Definition guarded (where_ : string) (r : WResult) (next : Client -> Client) c : Client :=
  match r with
  | WErr m => handle_error where_ (Some m) c
  | WOk _ => if shutdown_requested c then handle_error where_ None c else next c
  end.
Definition on_write (where_ : string) (r : WResult) c : Client :=
  match r with WErr m => handle_error where_ (Some m) c | WOk _ => start_ping_timer c end.
Definition on_read e (r : WResult) c : Client :=
  if shutdown_requested c then c else
  match r with
  | WErr m => handle_error "read" (Some m) c
  | WOk payload =>
      let c := emit (EvMessage payload (e_now e)) (c <| last_message_ts := e_now e |>) in
      if e_throws e then handle_error "on_message" None c else do_read c
  end.
Definition complete e (op : WOp) (r : WResult) c : Client :=
  match op with
  | WResolve => guarded "resolve" r on_resolve c
  | WConnect _ => guarded "connect" r (on_tcp_connect e) c
  | WSsl _ => guarded "ssl_handshake" r on_ssl_handshake c
  | WHandshake _ => guarded "ws_handshake" r (on_ws_connected e) c
  | WSubscribe _ => on_write "subscribe_write" r c
  | WPing _ => on_write "ping_write" r c
  | WRead _ => on_read e r c
  | WQueued _ => c
  end.
Definition on_ping_timer c : Client := if shutdown_requested c then c else send_ping c.
Definition on_stale_timer e c : Client :=
  if shutdown_requested c then c else
  if (last_message_ts c >? 0) && (e_now e - last_message_ts c >? stale_threshold_ms (config c) * 1000000)
  then handle_error "stale_watchdog" None c else start_stale_timer c.
Definition on_reconnect_timer c : Client := if shutdown_requested c then c else start_connect c.
(** The function posted by [shutdown]. *)
Definition stop c : Client :=
  c <| ping_armed := false |> <| stale_armed := false |> <| link ::= fun l => l <| reconnect_armed := false |> |> <| stopped := true |>.

Inductive Input := IOp (op : WOp) (r : WResult) | IPing | IStale | IReconnect | IShutdown | IStop.
Definition step c (i : WEnv * Input) : Client :=
  let '(e, i) := i in
  if stopped c then c else
  match i with
  | IOp op r => if bool_decide (op ∈ ops (link c)) then complete e op r (c <| link ::= fun l => l <| ops ::= remove_op op |> |>) else c
  | IPing => if ping_armed c then on_ping_timer (c <| ping_armed := false |>) else c
  | IStale => if stale_armed c then on_stale_timer e (c <| stale_armed := false |>) else c
  | IReconnect => if reconnect_armed (link c) then on_reconnect_timer (c <| link ::= fun l => l <| reconnect_armed := false |> |>) else c
  | IShutdown => c <| shutdown_requested := true |>
  | IStop => if shutdown_requested c then stop c else c
  end.
Definition run (cfg : RtdsWsConfig) (l : list (WEnv * Input)) : Client := foldl step (start_connect (Client_new cfg)) l.

(** *** It is never stuck *)
Definition bounded c : Prop := delay_ok (reconnect_base_ms (config c)) (reconnect_max_ms (config c)) (link c).
Definition nonneg c : Prop := 0 <= reconnect_base_ms (config c) /\ 0 <= reconnect_max_ms (config c).
Definition ok c : Prop := nonneg c -> shutdown_requested c = false -> link_ok (link c) /\ bounded c.
Definition weak c : Prop := nonneg c -> shutdown_requested c = false -> link_weak (link c) /\ bounded c.
Lemma rtds_handle_error_ok where_ m c : weak c -> ok (handle_error where_ m c).
Proof.
  intros H. unfold handle_error. destruct (shutdown_requested c) eqn:Es; [intros _ E; cbn in E; congruence|]. destruct (reconnecting (link c)) eqn:Er; cbn [orb].
  - intros Hn _. destruct (H Hn Es). split; [by apply reconnecting_ok|done].
  - unfold schedule_reconnect. cbn. rewrite Es. intros Hn _. destruct (H Hn Es) as [[Hw _] Hb], Hn. split; [by apply arm_ok|by apply arm_delay].
Qed.
Lemma rtds_launch_on_ok (op : nat -> WOp) c : (forall s, ws (link c) = Some s -> chain (link c) (op s) = true) -> weak c -> ok (launch_on op c).
Proof.
  intros Ho H Hn Es. unfold launch_on in *. destruct (ws (link c)) as [s|] eqn:E.
  - destruct (H Hn Es). split; [by apply weak_launch, Ho|done].
  - destruct (H Hn Es) as [[[? Hw] _] _]. congruence.
Qed.
Lemma launch_chain (op : nat -> WOp) c : op ∈ [WConnect; WSsl; WHandshake; WRead] -> weak c -> ok (launch_on op c).
Proof.
  intros Hin H. apply rtds_launch_on_ok; [|done]. intros s E. repeat (apply elem_of_cons in Hin as [->|Hin]; [cbn; by apply bool_decide_eq_true|]). by apply elem_of_nil in Hin.
Qed.
Lemma write_on_weak op p c : weak c -> weak (write_on op p c).
Proof. intros H. unfold write_on. destruct (ws (link c)) eqn:E; [|done]. intros Hn Es. by destruct (H Hn Es) as [[] ?]. Qed.
Lemma write_on_ok op p c : ok c -> ok (write_on op p c).
Proof. intros H. unfold write_on. destruct (ws (link c)); [|done]. intros Hn Es. destruct (H Hn Es). split; [by apply launch_more|done]. Qed.
Lemma rtds_do_read_ok c : weak c -> ok (do_read c).
Proof. intros H. unfold do_read. destruct (shutdown_requested c) eqn:E; [intros _ ?; congruence|]. apply launch_chain; [set_solver|done]. Qed.
Lemma start_stale_weak c : weak c -> weak (start_stale_timer c).
Proof. intros H. unfold start_stale_timer. by destruct (_ || _). Qed.
Lemma rtds_on_ws_connected_ok e c : weak c -> ok (on_ws_connected e c).
Proof.
  intros H. unfold on_ws_connected. set (c1 := emit EvConnected _). assert (weak c1) as H1.
  { intros Hn Es. destruct (H Hn Es) as [[] _]. split; [done|]. unfold bounded, delay_ok. cbn. lia. }
  destruct (e_throws e); [by apply rtds_handle_error_ok|]. by apply rtds_do_read_ok, start_stale_weak, write_on_weak.
Qed.
Lemma rtds_guarded_ok where_ r next c : (weak c -> ok (next c)) -> weak c -> ok (guarded where_ r next c).
Proof. intros Hn H. unfold guarded. destruct r; [|by apply rtds_handle_error_ok]. destruct (shutdown_requested c); [by apply rtds_handle_error_ok|auto]. Qed.
Lemma rtds_start_ping_ok c : ok c -> ok (start_ping_timer c).
Proof. intros H. unfold start_ping_timer. by destruct (shutdown_requested c). Qed.
Lemma rtds_complete_ok e op r c : ok c -> ok (complete e op r (c <| link ::= fun l => l <| ops ::= remove_op op |> |>)).
Proof.
  intros H. set (c0 := c <| link ::= _ |>). assert (weak c0) as H0 by (intros Hn Es; by destruct (H Hn Es) as [[] ?]).
  assert (chain (link c) op = false -> ok c0) as H1 by (intros Ho Hn Es; destruct (H Hn Es); split; [by apply remove_ok|done]).
  destruct op as [|s|s|s|s|s|s|s]; cbn [complete].
  - apply rtds_guarded_ok; [|done]. apply launch_chain. set_solver.
  - apply rtds_guarded_ok; [|done]. unfold on_tcp_connect. intros Hw. destruct (negb _); [by apply rtds_handle_error_ok|]. apply launch_chain; [set_solver|done].
  - apply rtds_guarded_ok; [|done]. apply launch_chain. set_solver.
  - apply rtds_guarded_ok; [|done]. apply rtds_on_ws_connected_ok.
  - unfold on_write. destruct r; [by apply rtds_start_ping_ok, H1|by apply rtds_handle_error_ok].
  - unfold on_write. destruct r; [by apply rtds_start_ping_ok, H1|by apply rtds_handle_error_ok].
  - by apply H1.
  - unfold on_read. destruct (shutdown_requested c0) eqn:E; [intros _ ?; congruence|]. destruct r; [|by apply rtds_handle_error_ok].
    set (c1 := emit _ _). assert (weak c1) by exact H0. destruct (e_throws e); [by apply rtds_handle_error_ok|by apply rtds_do_read_ok].
Qed.
Lemma rtds_step_ok i c : ok c -> ok (step c i).
Proof.
  intros H. destruct i as [e i]. cbn [step]. destruct (stopped c); [done|]. assert (weak c) as Hw by (intros Hn Es; by destruct (H Hn Es) as [[] ?]).
  destruct i as [op r| | | | |].
  - destruct (bool_decide _); [by apply rtds_complete_ok|done].
  - destruct (ping_armed c); [|done]. unfold on_ping_timer, send_ping. cbn. destruct (shutdown_requested c); [done|]. by apply write_on_ok.
  - destruct (stale_armed c); [|done]. unfold on_stale_timer. cbn. destruct (shutdown_requested c); [done|].
    destruct (_ && _); [by apply rtds_handle_error_ok|]. unfold start_stale_timer. by destruct (_ || _).
  - destruct (reconnect_armed _); [|done]. unfold on_reconnect_timer, start_connect. cbn. destruct (shutdown_requested c) eqn:Es; [intros _ E; cbn in E; congruence|].
    intros Hn _. destruct (H Hn Es) as [_ Hb]. split; [apply new_stream_ok|exact Hb].
  - intros _ E. discriminate E.
  - destruct (shutdown_requested c) eqn:Es; [|done]. intros _ E. cbn in E. congruence.
Qed.
Lemma step_config i c : config (step c i) = config c.
Proof.
  assert (forall where_ m c, config (handle_error where_ m c) = config c) as He by (intros w m c'; unfold handle_error; destruct (_ || _); [done|]; unfold schedule_reconnect; by destruct (shutdown_requested _)).
  assert (forall op c, config (launch_on op c) = config c) as Hl by (intros op c'; unfold launch_on; by destruct (ws _)).
  assert (forall op p c, config (write_on op p c) = config c) as Hw by (intros op p c'; unfold write_on; by destruct (ws _)).
  assert (forall c, config (do_read c) = config c) as Hr by (intros c'; unfold do_read; destruct (shutdown_requested c'); [done|apply Hl]).
  assert (forall c, config (start_stale_timer c) = config c) as Hs by (intros c'; unfold start_stale_timer; by destruct (_ || _)).
  assert (forall where_ r next c, (forall c, config (next c) = config c) -> config (guarded where_ r next c) = config c) as Hg
    by (intros where_ r next c' Hn; unfold guarded; destruct r; [destruct (shutdown_requested c')|]; by rewrite ?He, ?Hn).
  destruct i as [e i]. cbn [step]. destruct (stopped c); [done|]. destruct i as [op r| | | | |]; try done.
  - destruct (bool_decide _); [|done]. set (c0 := c <| link ::= _ |>). change (config c) with (config c0). clearbody c0. destruct op; cbn [complete]; try apply Hg; try done.
    + apply Hl.
    + intros c'. unfold on_tcp_connect. destruct (negb _); [apply He|apply Hl].
    + apply Hl.
    + intros c'. unfold on_ws_connected. destruct (e_throws e); [by rewrite He|]. unfold send_subscribe. by rewrite Hr, Hs, Hw.
    + unfold on_write, start_ping_timer. destruct r; [by destruct (shutdown_requested _)|by rewrite He].
    + unfold on_write, start_ping_timer. destruct r; [by destruct (shutdown_requested _)|by rewrite He].
    + unfold on_read. destruct (shutdown_requested _); [done|]. destruct r; [|by rewrite He]. destruct (e_throws e); by rewrite ?He, ?Hr.
  - destruct (ping_armed c); [|done]. unfold on_ping_timer, send_ping. destruct (shutdown_requested _); [done|]. by rewrite Hw.
  - destruct (stale_armed c); [|done]. unfold on_stale_timer. destruct (shutdown_requested _); [done|]. destruct (_ && _); by rewrite ?He, ?Hs.
  - destruct (reconnect_armed _); [|done]. unfold on_reconnect_timer, start_connect. by destruct (shutdown_requested _).
  - by destruct (shutdown_requested c).
Qed.

(** The client of the price feed is never stuck before its shutdown: whatever the
    network and the callbacks do, its reconnect timer is armed or an operation of its
    current attempt is outstanding, and the delay is within its bounds. *)
Theorem rtds_never_stuck (cfg : RtdsWsConfig) (l : list (WEnv * Input)) :
  0 <= reconnect_base_ms cfg -> 0 <= reconnect_max_ms cfg -> let c := run cfg l in
  shutdown_requested c = false -> link_ok (link c) /\ delay_ok (reconnect_base_ms cfg) (reconnect_max_ms cfg) (link c).
Proof.
  intros Hb Hm. cbv zeta. assert (config (run cfg l) = cfg /\ ok (run cfg l)) as [Ec Hok].
  { unfold run. assert (config (start_connect (Client_new cfg)) = cfg /\ ok (start_connect (Client_new cfg))) as H0.
    { split; [done|]. intros _ _. split; [apply new_stream_ok|]. unfold bounded, delay_ok. cbn. lia. }
    revert H0. generalize (start_connect (Client_new cfg)). induction l as [|i l IH]; intros c [E H]; [done|].
    apply IH. split; [by rewrite step_config|by apply rtds_step_ok]. }
  intros Hs. unfold ok, nonneg, bounded in Hok. rewrite Ec in Hok. auto.
Qed.

(** After a silence that the watchdog ends, the connections that are made without any
    failure are dropped one after the other, as with Binance's rotation. *)
Definition at_time (now : Z) : list Input -> list (WEnv * Input) := fmap (fun i => (mkWEnv now true false, i)).
Definition connected_inputs (s : nat) : list Input :=
  [IOp WResolve (WOk ""); IOp (WConnect s) (WOk ""); IOp (WSsl s) (WOk ""); IOp (WHandshake s) (WOk ""); IOp (WSubscribe s) (WOk "")].
Definition silence_run : list (WEnv * Input) :=
  at_time 1000 (connected_inputs 0 ++ [IOp (WRead 0) (WOk "PONG")]) ++
  at_time 60000000000 ([IStale; IReconnect; IOp (WRead 0) (WErr "Operation canceled")] ++ connected_inputs 1 ++ [IReconnect]) ++
  at_time 61000000000 ([IOp (WRead 1) (WErr "Operation canceled")] ++ connected_inputs 2 ++ [IReconnect]).
Lemma silence_never_settles :
  let c := run RtdsWsConfig_default silence_run in
  ws (link c) = Some 3%nat /\ ops (link c) = [WRead 2; WResolve] /\
  omap (fun ev => match ev with EvDisconnected r => Some r | _ => None end) (events c) =
    ["stale_watchdog: unknown error"; "read: Operation canceled"; "read: Operation canceled"]%string.
Proof. by vm_compute. Qed.
Lemma rtds_never_stuck_witness :
  let c := run RtdsWsConfig_default silence_run in shutdown_requested c = false /\ link_ok (link c).
Proof.
  split; [by vm_compute|]. refine (proj1 (rtds_never_stuck RtdsWsConfig_default silence_run _ _ _)); [by vm_compute..|by vm_compute].
Defined.
End Rtds.

(** ** The price feed of Binance *)
Module Binance.
Record BinanceWsConfig := mkBinanceWsConfig {
  endpoint : string; reconnect_base_ms : Z; reconnect_max_ms : Z; stale_threshold_ms : Z; rotate_interval_ms : Z }.
Definition BinanceWsConfig_default (endpoint : string) : BinanceWsConfig := mkBinanceWsConfig endpoint 1000 30000 60000 (23 * 60 * 60 * 1000).
Definition base_ms (cfg : BinanceWsConfig) : Z := Z.max 1 (reconnect_base_ms cfg).

Record Client := mkClient {
  config : BinanceWsConfig;
  link : Link;
  stale_armed : bool;
  rotate_armed : bool;
  connected_ : bool;
  last_message_ts : Z;
  shutdown_requested : bool;
  stopped : bool;            (* [ioc.run] has returned *)
  undefined : bool;          (* the stream was used after it was destroyed *)
  events : list FeedEvent }.
Definition Client_new (cfg : BinanceWsConfig) : Client := mkClient cfg (Link_new (base_ms cfg)) false false false 0 false false false [].
Implicit Types c : Client.

Definition emit (ev : FeedEvent) c : Client := c <| events ::= fun evs => evs ++ [ev] |>.
Definition launch_on (op : nat -> WOp) c : Client :=
  match ws (link c) with Some s => c <| link ::= launch (op s) |> | None => c <| undefined := true |> <| stopped := true |> end.

Definition schedule_reconnect c : Client :=
  if shutdown_requested c then c else c <| link ::= arm_reconnect (reconnect_max_ms (config c)) |>.
Definition handle_error (where_ : string) (message : option string) c : Client :=
  if shutdown_requested c || reconnecting (link c) then c else
  let was_connected := connected_ c in
  let c := c <| stale_armed := false |> <| rotate_armed := false |> <| connected_ := false |> in
  let c := if was_connected then emit (EvStatus false) c else c in
  schedule_reconnect (emit (EvDisconnected (reason_text "planned" where_ message)) c).
Definition start_connect c : Client := if shutdown_requested c then c else c <| link ::= new_stream |>.
Definition on_resolve c : Client := launch_on WConnect c.
Definition on_tcp_connect e c : Client :=
  match ws (link c) with
  | None => c <| undefined := true |> <| stopped := true |>
  | Some s =>
      if negb (e_sni_ok e) then handle_error "ssl_sni" None (c <| link ::= fun l => l <| ws := None |> |>)
      else c <| link ::= launch (WSsl s) |>
  end.
Definition on_ssl_handshake c : Client := launch_on WHandshake c.
Definition start_stale_timer c : Client :=
  if shutdown_requested c || (stale_threshold_ms (config c) <=? 0) then c else c <| stale_armed := true |>.
Definition start_rotate_timer c : Client :=
  if shutdown_requested c || (rotate_interval_ms (config c) <=? 0) then c else c <| rotate_armed := true |>.
Definition do_read c : Client := if shutdown_requested c then c else launch_on WRead c.
Definition on_ws_connected e c : Client :=
  let was_connected := connected_ c in
  let c := c <| link ::= fun l => l <| reconnect_delay_ms := base_ms (config c) |> |> <| last_message_ts := e_now e |> <| connected_ := true |> in
  let c := if negb was_connected then emit (EvStatus true) c else c in
  let c := emit EvConnected c in
  if e_throws e then handle_error "on_connected" None c else do_read (start_rotate_timer (start_stale_timer c)).

Definition guarded (where_ : string) (r : WResult) (next : Client -> Client) c : Client :=
  match r with
  | WErr m => handle_error where_ (Some m) c
  | WOk _ => if shutdown_requested c then handle_error where_ None c else next c
  end.
(** An exception of the callback leaves [ioc.run]. *)
Definition on_read e (r : WResult) c : Client :=
  if shutdown_requested c then c else
  match r with
  | WErr m => handle_error "read" (Some m) c
  | WOk payload =>
      let c := emit (EvMessage payload (e_now e)) (c <| last_message_ts := e_now e |>) in
      if e_throws e then c <| stopped := true |> else do_read c
  end.
Definition complete e (op : WOp) (r : WResult) c : Client :=
  match op with
  | WResolve => guarded "resolve" r on_resolve c
  | WConnect _ => guarded "connect" r (on_tcp_connect e) c
  | WSsl _ => guarded "ssl_handshake" r on_ssl_handshake c
  | WHandshake _ => guarded "ws_handshake" r (on_ws_connected e) c
  | WRead _ => on_read e r c
  | WSubscribe _ | WPing _ | WQueued _ => c
  end.
Definition on_stale_timer e c : Client :=
  if shutdown_requested c then c else
  if (last_message_ts c >? 0) && (e_now e - last_message_ts c >? stale_threshold_ms (config c) * 1000000)
  then handle_error "stale_watchdog" None c else start_stale_timer c.
Definition on_rotate_timer c : Client := if shutdown_requested c then c else handle_error "rotate" None c.
Definition on_reconnect_timer c : Client := if shutdown_requested c then c else start_connect c.
Definition stop c : Client :=
  c <| connected_ := false |> <| stale_armed := false |> <| rotate_armed := false |>
    <| link ::= fun l => l <| reconnect_armed := false |> |> <| stopped := true |>.

Inductive Input := IOp (op : WOp) (r : WResult) | IStale | IRotate | IReconnect | IShutdown | IStop.
Definition step c (i : WEnv * Input) : Client :=
  let '(e, i) := i in
  if stopped c then c else
  match i with
  | IOp op r => if bool_decide (op ∈ ops (link c)) then complete e op r (c <| link ::= fun l => l <| ops ::= remove_op op |> |>) else c
  | IStale => if stale_armed c then on_stale_timer e (c <| stale_armed := false |>) else c
  | IRotate => if rotate_armed c then on_rotate_timer (c <| rotate_armed := false |>) else c
  | IReconnect => if reconnect_armed (link c) then on_reconnect_timer (c <| link ::= fun l => l <| reconnect_armed := false |> |>) else c
  | IShutdown => c <| shutdown_requested := true |>
  | IStop => if shutdown_requested c then stop c else c
  end.
Definition run (cfg : BinanceWsConfig) (l : list (WEnv * Input)) : Client := foldl step (start_connect (Client_new cfg)) l.

(** *** The status callbacks alternate *)
Definition statuses (evs : list FeedEvent) : list bool := omap (fun ev => match ev with EvStatus b => Some b | _ => None end) evs.
(** Alternating, and ending with [up] ([false] when empty). *)
Fixpoint alternates (start : bool) (l : list bool) (up : bool) : Prop :=
  match l with [] => start = up | b :: l => b = negb start /\ alternates b l up end.
Lemma alternates_snoc start (l : list bool) b up : alternates start l up -> b = negb up -> alternates start (l ++ [b]) b.
Proof. revert start. induction l as [|x l IH]; intros start; cbn; [by intros -> ->|]. intros [-> H] Hb. split; [done|auto]. Qed.
Lemma statuses_app (l l' : list FeedEvent) : statuses (l ++ l') = statuses l ++ statuses l'.
Proof. apply omap_app. Qed.

Definition told c : Prop := exists up, alternates false (statuses (events c)) up /\ (stopped c = false -> up = connected_ c).
Definition ok c : Prop := told c /\ (stopped c = false -> shutdown_requested c = false -> attempt_ok (link c)).
(** While an operation is being completed. *)
Definition weak c : Prop := told c /\ (shutdown_requested c = false -> (ws (link c) = None -> reconnecting (link c) = true) /\ (reconnecting (link c) = true -> reconnect_armed (link c) = true)).
Lemma binance_handle_error_ok where_ m c : told c -> stopped c = false ->
  (shutdown_requested c = false -> reconnecting (link c) = true -> reconnect_armed (link c) = true) -> ok (handle_error where_ m c).
Proof.
  intros [up [Ht Hc]] Hst Ha. specialize (Hc Hst). subst up. unfold handle_error. destruct (shutdown_requested c) eqn:Es; cbn [orb].
  { split; [by exists (connected_ c)|]. intros _ E. congruence. }
  destruct (reconnecting (link c)) eqn:Er.
  { split; [by exists (connected_ c)|]. intros _ _. split; [done|auto|congruence]. }
  unfold schedule_reconnect. split.
  - exists false. destruct (connected_ c) eqn:Ec; cbn; rewrite ?Es; cbn; rewrite !statuses_app; cbn; rewrite ?app_nil_r; (split; [|done]); [|done].
    by apply (alternates_snoc false _ false true).
  - destruct (connected_ c); cbn; rewrite Es; intros _ _; by split.
Qed.
Lemma binance_launch_on_ok (op : nat -> WOp) c : (forall l s, ws l = Some s -> chain l (op s) = true) -> weak c -> ok (launch_on op c).
Proof.
  intros Ho [Ht Hw]. unfold launch_on. destruct (ws (link c)) as [s|] eqn:E.
  - split; [done|]. intros _ Es. destruct (Hw Es) as [_ H2]. split; cbn; [congruence|done|]. intros _. exists (op s).
    split; [apply elem_of_app; right; by left|]. by apply Ho.
  - destruct Ht as (up & Ht & _). split; [by exists up|done].
Qed.
Lemma chain_stream (op : nat -> WOp) : op ∈ [WConnect; WSsl; WHandshake; WRead] -> forall l s, ws l = Some s -> chain l (op s) = true.
Proof. intros Hin l s E. repeat (apply elem_of_cons in Hin as [->|Hin]; [cbn; by apply bool_decide_eq_true|]). by apply elem_of_nil in Hin. Qed.
Lemma binance_do_read_ok c : weak c -> ok (do_read c).
Proof. intros [Ht Hw]. unfold do_read. destruct (shutdown_requested c) eqn:E; [split; [done|congruence]|]. apply binance_launch_on_ok; [apply chain_stream; set_solver|by split; rewrite ?E]. Qed.
Lemma on_tcp_connect_ok e c : stopped c = false -> weak c -> ok (on_tcp_connect e c).
Proof.
  intros Hst [Ht Hw]. unfold on_tcp_connect. destruct (ws (link c)) as [s|] eqn:E; cycle 1.
  { destruct Ht as (up & Ht & _). split; [by exists up|done]. }
  destruct (negb _).
  - apply binance_handle_error_ok; [done|done|]. cbn. intros Es. by destruct (Hw Es).
  - split; [done|]. intros _ Es. destruct (Hw Es) as [_ H2]. split; cbn; [congruence|done|]. intros _. exists (WSsl s).
    split; [apply elem_of_app; right; by left|]. cbn. by apply bool_decide_eq_true.
Qed.
Lemma binance_on_ws_connected_ok e c : stopped c = false -> weak c -> ok (on_ws_connected e c).
Proof.
  intros Hst [(up & Ht & Hc) Hw]. specialize (Hc Hst). subst up. unfold on_ws_connected.
  set (c1 := c <| link ::= _ |> <| last_message_ts := _ |> <| connected_ := true |>). set (c2 := emit EvConnected _).
  assert (weak c2 /\ stopped c2 = false) as [H2 Hs2].
  { unfold c2. split; [split|by destruct (connected_ c)].
    - exists true. destruct (connected_ c) eqn:Ec; cbn; rewrite !statuses_app; cbn; rewrite ?app_nil_r; [done|]. split; [|done]. by apply (alternates_snoc false _ true false).
    - destruct (connected_ c); exact Hw. }
  clearbody c2. destruct (e_throws e); [destruct H2 as [H2 H3]; apply binance_handle_error_ok; [done|done|]; intros Es; by destruct (H3 Es)|].
  apply binance_do_read_ok. unfold start_rotate_timer, start_stale_timer. by destruct (_ || _), (_ || _).
Qed.
Lemma binance_guarded_ok where_ r next c : stopped c = false -> (weak c -> ok (next c)) -> weak c -> ok (guarded where_ r next c).
Proof.
  intros Hst Hn H. assert (forall m, ok (handle_error where_ m c)) as He by (intros m; destruct H as [H1 H2]; apply binance_handle_error_ok; [done|done|]; intros Es; by destruct (H2 Es)).
  unfold guarded. destruct r; [|apply He]. destruct (shutdown_requested c); [apply He|auto].
Qed.
Lemma binance_complete_ok e op r c : stopped c = false -> ok c -> ok (complete e op r (c <| link ::= fun l => l <| ops ::= remove_op op |> |>)).
Proof.
  intros Hst [Ht Ha]. set (c0 := c <| link ::= _ |>). assert (weak c0) as H0 by (split; [done|]; intros Es; by destruct (Ha Hst Es)).
  assert (chain (link c) op = false -> ok c0) as H1.
  { intros Ho. split; [done|]. intros _ Es. destruct (Ha Hst Es) as [K1 K2 K3]. split; [done|done|]. intros E. destruct (K3 E) as (o & Hin & Hc). exists o.
    split; [|by destruct o]. apply elem_remove; [done|]. intros ->. congruence. }
  destruct op as [|s|s|s|s|s|s|s]; cbn [complete]; try (by apply H1).
  - apply binance_guarded_ok; [done| |done]. apply binance_launch_on_ok, chain_stream. set_solver.
  - apply binance_guarded_ok; [done| |done]. by apply on_tcp_connect_ok.
  - apply binance_guarded_ok; [done| |done]. apply binance_launch_on_ok, chain_stream. set_solver.
  - apply binance_guarded_ok; [done| |done]. by apply binance_on_ws_connected_ok.
  - unfold on_read. destruct (shutdown_requested c0) eqn:E; [split; [done|congruence]|].
    destruct r; [|apply binance_handle_error_ok; [done|done|]; intros Es; by destruct H0 as [_ H0]; destruct (H0 Es)].
    set (c1 := emit _ _). assert (weak c1) as Hw1.
    { destruct H0 as [(up & H2 & H3) H4]. split; [|exact H4]. exists up. split; [|exact H3]. cbn. rewrite statuses_app. cbn. by rewrite app_nil_r. }
    destruct (e_throws e); [|by apply binance_do_read_ok]. destruct Hw1 as [(up & H2 & _) _]. split; [by exists up|done].
Qed.
Lemma binance_step_ok i c : ok c -> ok (step c i).
Proof.
  intros H. destruct i as [e i]. cbn [step]. destruct (stopped c) eqn:Hst; [done|]. destruct (H) as [Ht Ha].
  assert (shutdown_requested c = false -> reconnecting (link c) = true -> reconnect_armed (link c) = true) as Hr by (intros Es; by destruct (Ha Hst Es)).
  destruct i as [op r| | | | |].
  - destruct (bool_decide _); [by apply binance_complete_ok|done].
  - destruct (stale_armed c); [|done]. unfold on_stale_timer. cbn. destruct (shutdown_requested c); [done|].
    destruct (_ && _); [apply binance_handle_error_ok; [done|done|]; intros _; exact (Hr eq_refl)|]. unfold start_stale_timer. by destruct (_ || _).
  - destruct (rotate_armed c); [|done]. unfold on_rotate_timer. cbn. destruct (shutdown_requested c) eqn:Es; [done|]. apply binance_handle_error_ok; [done|done|]. intros _. exact (Hr eq_refl).
  - destruct (reconnect_armed _); [|done]. unfold on_reconnect_timer, start_connect. cbn. destruct (shutdown_requested c) eqn:Es; [split; [done|cbn; congruence]|].
    split; [done|]. intros _ _. destruct (new_stream_ok ((link c) <| reconnect_armed := false |>)) as [_ K2 K3]. split; [done|exact K2|exact K3].
  - split; [done|]. intros _ E. discriminate E.
  - destruct (shutdown_requested c) eqn:Es; [|done]. destruct Ht as (up & Ht & _). split; [by exists up|done].
Qed.

(** The Binance client reports its state faithfully and is never stuck: whatever the
    network, the timers and the callbacks do, in any order, its status callbacks are
    called exactly once for every change, starting with the connection, and the flag it
    publishes is the last one reported; until the shutdown its reconnect timer is armed
    or an operation of its current attempt is outstanding. *)
Theorem binance_status_alternates (cfg : BinanceWsConfig) (l : list (WEnv * Input)) :
  let c := run cfg l in
  exists up, alternates false (statuses (events c)) up /\ (stopped c = false -> connected_ c = up) /\
    (stopped c = false -> shutdown_requested c = false ->
     if reconnecting (link c) then reconnect_armed (link c) = true else exists op, op ∈ ops (link c) /\ chain (link c) op = true).
Proof.
  cbv zeta. assert (ok (run cfg l)) as [(up & Ht & Hc) Ha].
  { unfold run. assert (ok (start_connect (Client_new cfg))) as H0.
    { split; [by exists false|]. intros _ _. destruct (new_stream_ok (Link_new (base_ms cfg))) as [_ K2 K3]. split; [done|exact K2|exact K3]. }
    revert H0. generalize (start_connect (Client_new cfg)). induction l as [|i l IH]; intros c H; [done|]. by apply IH, binance_step_ok. }
  exists up. split; [done|]. split; [intros Hst; by rewrite Hc|]. intros Hst Hs. destruct (Ha Hst Hs) as [K1 K2 K3]. destruct (reconnecting _); auto.
Qed.

(** *** A rotation that repeats *)
Definition fine (e : WEnv) : Prop := e_sni_ok e = true /\ e_throws e = false.
Definition connect_all e (s : nat) : list (WEnv * Input) :=
  (fun i => (e, i)) <$> [IOp WResolve (WOk ""); IOp (WConnect s) (WOk ""); IOp (WSsl s) (WOk ""); IOp (WHandshake s) (WOk "")].
(** The read of the stream that was replaced is cancelled, the new stream connects
    without any failure, and the reconnect timer expires. *)
Definition healthy_cycle e (s : nat) : list (WEnv * Input) :=
  (e, IOp (WRead s) (WErr "Operation canceled")) :: connect_all e (S s) ++ [(e, IReconnect)].
Fixpoint healthy_cycles (es : list WEnv) (s : nat) : list (WEnv * Input) :=
  match es with [] => [] | e :: es => healthy_cycle e s ++ healthy_cycles es (S s) end.
Definition connections (evs : list FeedEvent) : nat := sum_list_with (fun ev => match ev with EvConnected => 1 | _ => 0 end)%nat evs.
Section Cycles.
Context (cfg : BinanceWsConfig) (un : bool).
Definition st l (sa ra cn : bool) (lm : Z) (evs : list FeedEvent) : Client := mkClient cfg l sa ra cn lm false false un evs.
Lemma head_in op (o : list WOp) : bool_decide (op ∈ op :: o) = true.
Proof. apply bool_decide_eq_true. by left. Qed.
Lemma remove_head op (o : list WOp) : remove_op op (op :: o) = o.
Proof. cbn [remove_op]. by rewrite bool_decide_eq_true_2. Qed.
Lemma step_head e op r w nx o rc a d sa ra cn lm evs :
  step (st (mkLink w nx (op :: o) rc a d) sa ra cn lm evs) (e, IOp op r) = complete e op r (st (mkLink w nx o rc a d) sa ra cn lm evs).
Proof. cbn [step st stopped link ops]. rewrite head_in. cbv iota.
  change (complete e op r (st (mkLink w nx (remove_op op (op :: o)) rc a d) sa ra cn lm evs) = complete e op r (st (mkLink w nx o rc a d) sa ra cn lm evs)).
  by rewrite remove_head.
Qed.
(** A failure of the current attempt, or one taken for it. *)
Lemma failure where_ m w nx o a d sa ra cn lm evs : handle_error where_ m (st (mkLink w nx o false a d) sa ra cn lm evs) =
  st (mkLink w nx o true true (Z.min (d * 2) (reconnect_max_ms cfg))) false false false lm
    ((evs ++ (if cn then [EvStatus false] else [])) ++ [EvDisconnected (reason_text "planned" where_ m)]).
Proof. destruct cn; cbn; by rewrite ?app_nil_r. Qed.
Lemma connecting e w nx rc a d sa ra cn lm evs : fine e ->
  foldl step (st (mkLink (Some w) nx [WResolve] rc a d) sa ra cn lm evs) (connect_all e w) =
  st (mkLink (Some w) nx [WRead w] rc a (base_ms cfg)) (if stale_threshold_ms cfg <=? 0 then sa else true) (if rotate_interval_ms cfg <=? 0 then ra else true) true (e_now e)
    ((evs ++ (if cn then [] else [EvStatus true])) ++ [EvConnected]).
Proof.
  intros [H1 H2]. unfold connect_all. cbn [fmap list_fmap foldl]. rewrite step_head.
  change (complete e WResolve _ _) with (st (mkLink (Some w) nx [WConnect w] rc a d) sa ra cn lm evs). rewrite step_head.
  assert (complete e (WConnect w) (WOk "") (st (mkLink (Some w) nx [] rc a d) sa ra cn lm evs) = st (mkLink (Some w) nx [WSsl w] rc a d) sa ra cn lm evs) as -> by (cbn; by rewrite H1).
  rewrite step_head. change (complete e (WSsl w) _ _) with (st (mkLink (Some w) nx [WHandshake w] rc a d) sa ra cn lm evs). rewrite step_head.
  cbn [complete guarded st shutdown_requested]. unfold on_ws_connected, start_rotate_timer, start_stale_timer.
  destruct cn; cbn -[Z.leb]; rewrite H2; destruct (stale_threshold_ms cfg <=? 0); cbn -[Z.leb]; destruct (rotate_interval_ms cfg <=? 0); cbn; by rewrite ?app_nil_r.
Qed.
Lemma reconnects e w nx o rc d sa ra cn lm evs :
  step (st (mkLink w nx o rc true d) sa ra cn lm evs) (e, IReconnect) = st (mkLink (Some nx) (S nx) (o ++ [WResolve]) false false d) sa ra cn lm evs.
Proof. done. Qed.
Lemma cycle e s d sa ra cn lm evs : fine e ->
  exists sa' ra' lm' d' evs', foldl step (st (mkLink (Some (S s)) (S (S s)) [WRead s; WResolve] false false d) sa ra cn lm evs) (healthy_cycle e s) =
    st (mkLink (Some (S (S s))) (S (S (S s))) [WRead (S s); WResolve] false false d') sa' ra' true lm' evs' /\
    connections evs' = S (connections evs).
Proof.
  intros He. unfold healthy_cycle. cbn [foldl]. rewrite step_head. cbn [complete on_read st shutdown_requested].
  change (mkClient cfg ?l sa ra cn lm false false un evs) with (st l sa ra cn lm evs). rewrite failure, foldl_app, (connecting e _ _ _ _ _ _ _ _ _ _ He). cbn [foldl]. rewrite reconnects.
  eexists _, _, _, _, _. split; [reflexivity|]. unfold connections. rewrite !sum_list_with_app. destruct cn; cbn; lia.
Qed.
End Cycles.

(** C25: a planned rotation of the Binance client can repeat without end.  The schedule
    is the one in which, each time, the handler of the cancelled read of the stream that
    was replaced runs after the new attempt to connect has begun (the reconnect timer
    expired first): the handler takes it for a failure of the new stream and arms the
    reconnect timer once more; the look-up, the connection and the handshakes of the new
    stream then succeed, the timer expires and drops that connection, and its read is
    cancelled in turn.  For every number of such rounds, with the network never failing:
    the client has dropped the connection of the last round, waits for its next look-up
    with the cancelled read outstanding, and has announced every connection.  (Where the
    cancelled read's handler runs before the timer expires, the client settles:
    [rotation_can_settle].) *)
Theorem rotation_repeats (cfg : BinanceWsConfig) (e0 : WEnv) (es : list WEnv) :
  fine e0 -> Forall fine es -> rotate_interval_ms cfg > 0 ->
  let c := run cfg (connect_all e0 0 ++ [(e0, IRotate); (e0, IReconnect)] ++ healthy_cycles es 0) in
  let n := length es in
  ws (link c) = Some (S n) /\ ops (link c) = [WRead n; WResolve] /\ reconnecting (link c) = false /\
  connections (events c) = S n.
Proof.
  intros He Hes Hr. cbv zeta. unfold run. rewrite !foldl_app.
  change (start_connect (Client_new cfg)) with (st cfg false (mkLink (Some 0%nat) 1 [WResolve] false false (base_ms cfg)) false false false 0 []).
  rewrite (connecting cfg false e0 _ _ _ _ _ _ _ _ _ _ He). destruct (Z.leb_spec (rotate_interval_ms cfg) 0); [lia|].
  assert (forall l sa cn lm evs, reconnecting l = false -> step (st cfg false l sa true cn lm evs) (e0, IRotate) = handle_error "rotate" None (st cfg false l sa false cn lm evs)) as Hrot by done.
  cbn [foldl]. rewrite Hrot by done. rewrite failure, reconnects. cbn [app].
  assert (forall s d sa ra cn lm evs, connections evs = S s -> exists d' sa' ra' cn' lm' evs',
    foldl step (st cfg false (mkLink (Some (S s)) (S (S s)) [WRead s; WResolve] false false d) sa ra cn lm evs) (healthy_cycles es s) =
    st cfg false (mkLink (Some (S (length es + s))) (S (S (length es + s))) [WRead (length es + s); WResolve] false false d') sa' ra' cn' lm' evs' /\
    connections evs' = S (length es + s)) as Hrun.
  { clear -Hes. induction Hes as [|e es He Hes IH]; intros s d sa ra cn lm evs E; [by eexists _, _, _, _, _, _|]. cbn [healthy_cycles length]. rewrite foldl_app.
    destruct (cycle cfg false e s d sa ra cn lm evs He) as (sa' & ra' & lm' & d' & evs' & -> & E'). rewrite !Nat.add_succ_comm. apply IH. congruence. }
  edestruct (Hrun 0%nat) as (d' & sa' & ra' & cn' & lm' & evs' & -> & E); cycle 1.
  - rewrite Nat.add_0_r in *. done.
  - reflexivity.
Qed.
Definition fine_net : WEnv := mkWEnv 1000 true false.
(** When the old stream's read ends by itself before the timer expires, the next
    connection stays. *)
Lemma rotation_can_settle :
  let c := run (BinanceWsConfig_default "wss://stream.binance.com:9443/stream")
    (connect_all fine_net 0 ++ [(fine_net, IRotate); (fine_net, IOp (WRead 0) (WErr "End of file")); (fine_net, IReconnect)] ++ connect_all fine_net 1) in
  ws (link c) = Some 1%nat /\ ops (link c) = [WRead 1] /\ reconnecting (link c) = false /\ reconnect_armed (link c) = false.
Proof. by vm_compute. Qed.
Lemma rotation_repeats_witness :
  let c := run (BinanceWsConfig_default "wss://stream.binance.com:9443/stream") (connect_all fine_net 0 ++ [(fine_net, IRotate); (fine_net, IReconnect)] ++ healthy_cycles (replicate 3 fine_net) 0) in
  ws (link c) = Some 4%nat /\ statuses (events c) = [true; false; true; false; true; false; true].
Proof.
  split; [|by vm_compute]. refine (proj1 (rotation_repeats (BinanceWsConfig_default "wss://stream.binance.com:9443/stream") fine_net (replicate 3 fine_net) _ _ _)).
  - done.
  - by repeat constructor.
  - reflexivity.
Defined.
End Binance.
