(* ===== verification/WsClients.v ===== *)
(** The web-socket clients of the exchange's market and user streams:
    [src/ws/market_ws_client.cpp] and [src/ws/user_ws_client.cpp].

    Both keep several redundant connections, each with its stream, timers and queue of
    writes, drop what another connection has delivered already (MarketFeed), and repeat
    the subscriptions made meanwhile when a connection is made anew.  The two share
    their structure; a [Policy] says what differs: the texts they send, and that the
    user client needs credentials, counts refused authentications, restarts the clock of
    a connection and cancels its operations.  Operations, timers and callbacks are as in
    FeedClients.

    Shown: as long as no credentials are missing or refused, no connection is ever
    stuck; the queue of a connection is written one message at a time, and its front
    exists when it is removed; what is handed to the program is exactly what the
    duplicate filter passes of what was read; the subscription of the user client is the
    document with its credentials and markets.  And what goes wrong: two writes are
    started on one stream, a subscription that was cancelled is repeated, the count of
    connections goes wrong, and a watchdog's reconnect never settles. *)
From Stdlib Require Import Ascii.
From S2P Require Import Prelude Types Price OrderBook Events Json MarketParser MessageRoundtrip Crypto OrderBuilder JsonText.
From S2P Require Import SpscQueue StrategyBookStore MarketStateStore BookReplication MarketFeed Slots Discovery FeedClients.
#[local] Abbreviation text := (list ascii).

(** ** Texts *)
Fixpoint id_list (render : string -> text) (first : bool) (ids : list string) : text :=
  match ids with
  | [] => []
  | id :: ids => (if first then [] else txt ",") ++ quoted (render id) ++ id_list render false ids
  end.
Definition market_subscribe (asset_ids : list string) : text :=
  lit "{'assets_ids':[" ++ id_list txt true asset_ids ++ lit "],'type':'market','custom_feature_enabled':true}".
Definition market_subscribe_add (ids : list string) : text :=
  lit "{'assets_ids':[" ++ id_list txt true ids ++ lit "],'operation':'subscribe','custom_feature_enabled':true}".
Definition market_unsubscribe (ids : list string) : text :=
  lit "{'assets_ids':[" ++ id_list txt true ids ++ lit "],'operation':'unsubscribe'}".
Definition json_escape (s : string) : text := append_json_escaped [] (txt s).
Definition user_subscribe (api_key api_secret api_passphrase : string) (market_ids : list string) : text :=
  lit "{'auth':{'apiKey':'" ++ json_escape api_key ++ lit "','secret':'" ++ json_escape api_secret ++ lit "','passphrase':'" ++
  json_escape api_passphrase ++ lit "'},'type':'user'" ++
  match market_ids with [] => [] | _ => lit ",'markets':[" ++ id_list json_escape true market_ids ++ lit "]" end ++ lit "}".
Definition user_subscribe_add (ids : list string) : text :=
  lit "{'markets':[" ++ id_list json_escape true ids ++ lit "],'operation':'subscribe'}".
Definition user_unsubscribe (ids : list string) : text :=
  lit "{'markets':[" ++ id_list json_escape true ids ++ lit "],'operation':'unsubscribe'}".

(** ** Configuration *)
Record WsClientConfig := mkWsClientConfig {
  mc_asset_ids : list string; mc_reconnect_base_ms : Z; mc_reconnect_max_ms : Z; mc_stale_threshold_ms : Z; mc_redundancy : Z }.
Definition WsClientConfig_default : WsClientConfig := mkWsClientConfig [] 1000 30000 30000 1.
Record UserWsClientConfig := mkUserWsClientConfig {
  uc_api_key : string; uc_api_secret : string; uc_api_passphrase : string; uc_market_ids : list string;
  uc_reconnect_base_ms : Z; uc_reconnect_max_ms : Z; uc_stale_threshold_ms : Z; uc_max_auth_failures : Z; uc_redundancy : Z }.
Record Policy := mkPolicy {
  p_user : bool;
  p_credentials : bool;
  p_subscribe : option text;                (* the first message, if any *)
  p_add : list string -> text;
  p_remove : list string -> text;
  p_base_ms : Z;
  p_max_ms : Z;
  p_stale_ms : Z;
  p_max_auth_failures : Z;
  p_redundancy : Z }.
Definition market_policy (cfg : WsClientConfig) : Policy :=
  mkPolicy false true (match mc_asset_ids cfg with [] => None | ids => Some (market_subscribe ids) end) market_subscribe_add market_unsubscribe
    (mc_reconnect_base_ms cfg) (mc_reconnect_max_ms cfg) (mc_stale_threshold_ms cfg) 0 (mc_redundancy cfg).
(** Credentials that are not configured are taken from the environment. *)
Definition from_env (configured : string) (env : option string) : string := if nonempty configured then configured else default ""%string env.
Definition with_env (key secret pass : option string) (cfg : UserWsClientConfig) : UserWsClientConfig :=
  cfg <| uc_api_key ::= fun s => from_env s key |> <| uc_api_secret ::= fun s => from_env s secret |> <| uc_api_passphrase ::= fun s => from_env s pass |>.
Definition user_policy (cfg : UserWsClientConfig) : Policy :=
  mkPolicy true (nonempty (uc_api_key cfg) && nonempty (uc_api_secret cfg) && nonempty (uc_api_passphrase cfg))
    (Some (user_subscribe (uc_api_key cfg) (uc_api_secret cfg) (uc_api_passphrase cfg) (uc_market_ids cfg))) user_subscribe_add user_unsubscribe
    (uc_reconnect_base_ms cfg) (uc_reconnect_max_ms cfg) (uc_stale_threshold_ms cfg) (uc_max_auth_failures cfg) (uc_redundancy cfg).

(** ** State *)
Record Conn := mkConn {
  link : Link;
  ping_armed : bool;
  last_message_ts : Z;
  write_queue : list text;
  writing : bool;
  subscribe_sent : bool;
  first_data_received : bool;
  subscribe_ts : Z }.
Definition Conn_new (base_delay : Z) : Conn := mkConn (Link_new base_delay) false 0 [] false false false 0.
Inductive WsEvent :=
  | WsConnected
  | WsDisconnected (reason : string)
  | WsMessage (payload : string) (recv_ts : Z)
  | WsWrite (conn stream : nat) (payload : text).
Record WsClient := mkWsClient {
  conns_ : list Conn;
  connected_count_ : Z;
  consecutive_auth_failures_ : Z;
  dedup_ : list Z;
  active_subscriptions_ : list string;
  stale_armed : bool;
  staggered : list nat;                     (* connections whose first start is due *)
  shutdown_requested : bool;
  stopped : bool;
  fatal_flag : bool;
  events : list WsEvent;
  reads : list string }.                    (* what the connections read, in order *)
Implicit Types (s : WsClient) (c : Conn).

(** The environment, and the reason with which the server closed the stream. *)
Record SEnv := mkSEnv { se_net : WEnv; se_close : option (Z * string) }.
Implicit Types e : SEnv.

Section Client.
Context (p : Policy).
Definition n_conns : nat := Z.to_nat (Z.max 1 (p_redundancy p)).
Definition WsClient_new : WsClient :=
  mkWsClient (replicate n_conns (Conn_new (p_base_ms p))) 0 0 MessageDedup_new [] false [] false false false [] [].

Definition emit (ev : WsEvent) s : WsClient := s <| events ::= fun evs => evs ++ [ev] |>.
Definition upd (i : nat) (f : Conn -> Conn) s : WsClient := s <| conns_ ::= alter f i |>.
Definition on_link (f : Link -> Link) c : Conn := c <| link ::= f |>.
Definition stream_of (i : nat) s : option nat := c ← conns_ s !! i; ws (link c).
Definition launch_on (i : nat) (op : nat -> WOp) s : WsClient :=
  match stream_of i s with Some w => upd i (on_link (launch (op w))) s | None => s end.
Definition write_on (i : nat) (op : nat -> WOp) (payload : text) s : WsClient :=
  match stream_of i s with Some w => emit (WsWrite i w payload) (upd i (on_link (launch (op w))) s) | None => s end.

(** ** Errors and reconnecting *)
Definition schedule_reconnect (i : nat) s : WsClient :=
  if shutdown_requested s then s else upd i (on_link (arm_reconnect (p_max_ms p))) s.
Definition reason_of e (i : nat) (where_ : string) (message : option string) : string :=
  (where_ +:+ "[" +:+ print_i64 (Z.of_nat i) +:+ "]: " +:+ default "unknown error" message +:+
   if p_user p then match se_close e with
     | Some (code, reason) => " [ws_close: code=" +:+ print_i64 code +:+ (if nonempty reason then " reason=" +:+ reason else "") +:+ "]"
     | None => "" end
   else "")%string.
Definition kAuthWindowMs : Z := 5000.
Definition auth_failed e (i : nat) c : bool :=
  p_user p && (i =? 0)%nat && subscribe_sent c && negb (first_data_received c) &&
  ((e_now (se_net e) - subscribe_ts c) ÷ 1000000 <? kAuthWindowMs).
(** The end of [handle_error]. *)
Definition disconnected (i : nat) (reason : string) s : WsClient :=
  schedule_reconnect i (if (i =? 0)%nat || (connected_count_ s <=? 0) then emit (WsDisconnected reason) s else s).
Definition handle_error e (i : nat) (where_ : string) (message : option string) s : WsClient :=
  match conns_ s !! i with
  | None => s
  | Some c =>
      if shutdown_requested s || reconnecting (link c) then s else
      let s := upd i (fun c => c <| ping_armed := false |>) s in
      let s := if connected_count_ s >? 0 then s <| connected_count_ ::= Z.pred |> else s in
      let reason := reason_of e i where_ message in
      if auth_failed e i c then
        let n := consecutive_auth_failures_ s + 1 in
        let s := s <| consecutive_auth_failures_ := n |> in
        let reason := ("auth_failure(" +:+ print_i64 n +:+ "): " +:+ reason)%string in
        if n >=? p_max_auth_failures p then (emit (WsDisconnected reason) s) <| fatal_flag := true |>
        else disconnected i reason s
      else disconnected i reason s
  end.
Definition kMissingCredentials : string := "Missing credentials: set POLY_API_KEY, POLY_API_SECRET, POLY_API_PASSPHRASE env vars".
Definition start_connect (i : nat) s : WsClient :=
  if shutdown_requested s then s else
  if negb (p_credentials p) then (emit (WsDisconnected kMissingCredentials) s) <| fatal_flag := true |>
  else upd i (on_link new_stream) s.

(** ** Writing *)
Definition conn_drain_write (i : nat) s : WsClient :=
  match conns_ s !! i with
  | None => s
  | Some c =>
      match write_queue c, ws (link c) with
      | msg :: _, Some _ => write_on i WQueued msg (upd i (fun c => c <| writing := true |>) s)
      | _, _ => upd i (fun c => c <| writing := false |>) s
      end
  end.
Definition conn_enqueue_write (i : nat) (payload : text) s : WsClient :=
  match conns_ s !! i with
  | None => s
  | Some c =>
      let s := upd i (fun c => c <| write_queue ::= fun q => q ++ [payload] |>) s in
      if writing c then s else conn_drain_write i s
  end.
Definition on_queued (i : nat) (r : WResult) s : WsClient :=
  let s := upd i (fun c => c <| write_queue ::= tail |>) s in
  match r with
  | WErr _ => upd i (fun c => c <| writing := false |>) s
  | WOk _ => conn_drain_write i s
  end.
Definition start_ping_timer (i : nat) s : WsClient := if shutdown_requested s then s else upd i (fun c => c <| ping_armed := true |>) s.
Definition send_ping (i : nat) s : WsClient := if shutdown_requested s then s else write_on i WPing (lit "PING") s.
Definition send_subscribe (i : nat) s : WsClient :=
  match p_subscribe p with None => start_ping_timer i s | Some payload => write_on i WSubscribe payload s end.
Definition on_subscribed e (i : nat) (r : WResult) s : WsClient :=
  match r with
  | WErr m => handle_error e i "subscribe_write" (Some m) s
  | WOk _ =>
      start_ping_timer i (if p_user p then upd i (fun c => c <| subscribe_sent := true |> <| subscribe_ts := e_now (se_net e) |>) s else s)
  end.
Definition on_ping_written e (i : nat) (r : WResult) s : WsClient :=
  match r with WErr m => handle_error e i "ping_write" (Some m) s | WOk _ => start_ping_timer i s end.

(** ** Connecting and reading *)
Definition start_stale_timer s : WsClient :=
  if shutdown_requested s || (p_stale_ms p <=? 0) then s else s <| stale_armed := true |>.
Definition do_read (i : nat) s : WsClient := if shutdown_requested s then s else launch_on i WRead s.
Definition on_tcp_connect e (i : nat) s : WsClient :=
  if negb (e_sni_ok (se_net e)) then handle_error e i "ssl_sni" None s else launch_on i WSsl s.
Definition fresh_conn e c : Conn :=
  let c := on_link (fun l => l <| reconnect_delay_ms := p_base_ms p |>) c in
  if p_user p then c <| last_message_ts := e_now (se_net e) |> <| subscribe_sent := false |> <| first_data_received := false |> else c.
Definition on_ws_connected e (i : nat) s : WsClient :=
  let s := upd i (fresh_conn e) s in
  let s := s <| connected_count_ ::= Z.succ |> in
  let s := if connected_count_ s =? 1 then emit WsConnected s else s in
  let s := send_subscribe i s in
  let s := match active_subscriptions_ s with [] => s | ids => conn_enqueue_write i (p_add p ids) s end in
  let s := if connected_count_ s =? 1 then start_stale_timer s else s in
  do_read i s.
Definition guarded e (i : nat) (where_ : string) (r : WResult) (next : WsClient -> WsClient) s : WsClient :=
  match r with
  | WErr m => handle_error e i where_ (Some m) s
  | WOk _ => if shutdown_requested s then handle_error e i where_ None s else next s
  end.
(** The user client forgets refused authentications with the first data. *)
Definition first_data (i : nat) s : WsClient :=
  match conns_ s !! i with
  | Some c => if p_user p && negb (first_data_received c) then (upd i (fun c => c <| first_data_received := true |>) s) <| consecutive_auth_failures_ := 0 |> else s
  | None => s
  end.
Definition deliver e (i : nat) (payload : string) s : WsClient :=
  let s := emit (WsMessage payload (e_now (se_net e))) s in
  if e_throws (se_net e) then handle_error e i "on_message" None s else do_read i s.
Definition on_read e (i : nat) (r : WResult) s : WsClient :=
  if shutdown_requested s then s else
  match r with
  | WErr m => handle_error e i "read" (Some m) s
  | WOk payload =>
      let s := first_data i (upd i (fun c => c <| last_message_ts := e_now (se_net e) |>) s) in
      let s := s <| reads ::= fun l => l ++ [payload] |> in
      if (1 <? length (conns_ s))%nat then
        let '(dup, table) := is_duplicate payload (dedup_ s) in
        let s := s <| dedup_ := table |> in
        if (dup : bool) then do_read i s else deliver e i payload s
      else deliver e i payload s
  end.
Definition complete e (i : nat) (op : WOp) (r : WResult) s : WsClient :=
  match op with
  | WResolve => guarded e i "resolve" r (launch_on i WConnect) s
  | WConnect _ => guarded e i "connect" r (on_tcp_connect e i) s
  | WSsl _ => guarded e i "ssl_handshake" r (launch_on i WHandshake) s
  | WHandshake _ => guarded e i "ws_handshake" r (on_ws_connected e i) s
  | WSubscribe _ => on_subscribed e i r s
  | WPing _ => on_ping_written e i r s
  | WQueued _ => on_queued i r s
  | WRead _ => on_read e i r s
  end.

(** ** Timers, subscriptions and shutdown *)
Definition newest s : Z := foldl (fun n c => if last_message_ts c >? n then last_message_ts c else n) 0 (conns_ s).
Definition stale_all e s : WsClient :=
  foldl (fun s i => match conns_ s !! i with
                    | Some c => if reconnecting (link c) then s else handle_error e i "stale_watchdog" None s
                    | None => s end) s (seq 0 (length (conns_ s))).
Definition on_stale_timer e s : WsClient :=
  if shutdown_requested s then s else
  if (newest s >? 0) && (e_now (se_net e) - newest s >? p_stale_ms p * 1000000) then stale_all e s else start_stale_timer s.
Definition on_ping_timer (i : nat) s : WsClient := if shutdown_requested s then s else send_ping i s.
Definition on_reconnect_timer (i : nat) s : WsClient := if shutdown_requested s then s else start_connect i s.
(** The loop over the connections that have a stream. *)
Definition write_all (payload : text) s : WsClient :=
  foldl (fun s i => match stream_of i s with
                    | Some _ => if shutdown_requested s then s else conn_enqueue_write i payload s
                    | None => s end) s (seq 0 (length (conns_ s))).
Definition do_subscribe_add (ids : list string) s : WsClient :=
  match ids with [] => s | _ => write_all (p_add p ids) (s <| active_subscriptions_ ::= fun l => l ++ ids |>) end.
Definition do_unsubscribe (ids : list string) s : WsClient :=
  match ids with [] => s | _ => write_all (p_remove p ids) s end.
Definition stop s : WsClient :=
  s <| stale_armed := false |> <| conns_ ::= fmap (fun c => on_link (fun l => l <| reconnect_armed := false |>) (c <| ping_armed := false |>)) |> <| stopped := true |>.
(** [run] up to its event loop. *)
Definition start : WsClient := start_connect 0 (WsClient_new <| staggered := seq 1 (n_conns - 1) |>).

Inductive Input :=
  | IOp (i : nat) (op : WOp) (r : WResult) | IPing (i : nat) | IReconnect (i : nat) | IStagger (i : nat) | IStale
  | ISubscribe (ids : list string) | IUnsubscribe (ids : list string) | IShutdown | IStop.
Definition has_op (i : nat) (op : WOp) s : bool := match conns_ s !! i with Some c => bool_decide (op ∈ ops (link c)) | None => false end.
Definition armed (i : nat) (f : Conn -> bool) s : bool := match conns_ s !! i with Some c => f c | None => false end.
Definition step s (i : SEnv * Input) : WsClient :=
  let '(e, i) := i in
  if stopped s then s else
  match i with
  | IOp i op r => if has_op i op s then complete e i op r (upd i (on_link (fun l => l <| ops ::= remove_op op |>)) s) else s
  | IPing i => if armed i ping_armed s then on_ping_timer i (upd i (fun c => c <| ping_armed := false |>) s) else s
  | IReconnect i =>
      if armed i (fun c => reconnect_armed (link c)) s then on_reconnect_timer i (upd i (on_link (fun l => l <| reconnect_armed := false |>)) s) else s
  | IStagger i => if bool_decide (i ∈ staggered s) then start_connect i (s <| staggered ::= filter (fun j => j <> i) |>) else s
  | IStale => if stale_armed s then on_stale_timer e (s <| stale_armed := false |>) else s
  | ISubscribe ids => do_subscribe_add ids s
  | IUnsubscribe ids => do_unsubscribe ids s
  | IShutdown => s <| shutdown_requested := true |>
  | IStop => if shutdown_requested s then stop s else s
  end.
Definition run (l : list (SEnv * Input)) : WsClient := foldl step start l.
End Client.

(** ** No connection is stuck *)
Section Stuck.
Context (p : Policy).
Record attempt_weak (l : Link) : Prop := {
  aw_ws : ws l = None -> reconnecting l = true;
  aw_armed : reconnecting l = true -> reconnect_armed l = true }.
(** Of the connection [j], whose handler is running, less is known. *)
Definition good_at (j : option nat) (i : nat) (l : Link) : Prop := if bool_decide (j = Some i) then attempt_weak l else attempt_ok l.
Definition going (j : option nat) s : Prop :=
  shutdown_requested s = false -> fatal_flag s = false -> forall i c, conns_ s !! i = Some c -> i ∈ staggered s \/ good_at j i (link c).
Lemma attempt_ok_weak l : attempt_ok l -> attempt_weak l.
Proof. by intros []. Qed.
Lemma good_none i l : good_at None i l = attempt_ok l.
Proof. done. Qed.
Lemma good_self i l : good_at (Some i) i l = attempt_weak l.
Proof. unfold good_at. by rewrite bool_decide_eq_true_2. Qed.
Lemma good_other i k l : k <> i -> good_at (Some i) k l = attempt_ok l.
Proof. intros H. unfold good_at. rewrite bool_decide_eq_false_2; [done|congruence]. Qed.
Lemma lookup_upd i k f s c : conns_ (upd i f s) !! k = Some c -> (k = i /\ exists c', conns_ s !! i = Some c' /\ c = f c') \/ (k <> i /\ conns_ s !! k = Some c).
Proof.
  cbn. intros H. destruct (decide (k = i)) as [->|Hne]; [left|right].
  - rewrite list_lookup_alter_eq in H. destruct (conns_ s !! i) as [c'|]; [|done]. injection H as <-. eauto.
  - by rewrite list_lookup_alter_ne in H.
Qed.
Lemma going_weaken i s : going None s -> going (Some i) s.
Proof.
  intros H Hs Hf k c Hk. destruct (H Hs Hf k c Hk) as [?|Hok]; [by left|right]. destruct (decide (k = i)) as [->|Hne]; [rewrite good_self; by apply attempt_ok_weak|by rewrite good_other].
Qed.
Lemma going_mono j i f s : (forall c, attempt_ok (link c) -> attempt_ok (link (f c))) -> (forall c, attempt_weak (link c) -> attempt_weak (link (f c))) ->
  going j s -> going j (upd i f s).
Proof.
  intros H1 H2 H Hs Hf k c [(-> & c' & Hc & ->)|[Hne Hk]]%lookup_upd; [|by apply H]. destruct (H Hs Hf i c' Hc) as [?|Hg]; [by left|right].
  unfold good_at in *. destruct (bool_decide _); auto.
Qed.
Lemma going_fix i f s : (forall c, attempt_weak (link c) -> attempt_ok (link (f c))) -> going (Some i) s -> going None (upd i f s).
Proof.
  intros Hf H Hs Hfl k c [(-> & c' & Hc & ->)|[Hne Hk]]%lookup_upd; (destruct (H Hs Hfl _ _ ltac:(eassumption)) as [?|Hg]; [by left|right]).
  - rewrite good_self in Hg. by apply Hf.
  - by rewrite good_other in Hg.
Qed.
Lemma arm_attempt max_ms l : attempt_ok (arm_reconnect max_ms l).
Proof. by split. Qed.
Lemma ws_launch_attempt op l : attempt_ok l -> attempt_ok (launch op l).
Proof. intros [H1 H2 H3]. split; [done|done|]. intros E. destruct (H3 E) as (o & Hin & Ho). exists o. split; [apply elem_of_app; by left|by destruct o]. Qed.
Lemma new_stream_attempt l : attempt_ok (new_stream l).
Proof. destruct (new_stream_ok l) as [_ H2 H3]. by split. Qed.
Lemma ws_remove_attempt op l : chain l op = false -> attempt_ok l -> attempt_ok (l <| ops ::= remove_op op |>).
Proof.
  intros Hop [H1 H2 H3]. split; [done|done|]. intros E. destruct (H3 E) as (o & Hin & Ho). exists o. split; [|by destruct o]. apply elem_remove; [done|]. intros ->. congruence.
Qed.
#[local] Hint Resolve arm_attempt ws_launch_attempt new_stream_attempt : core.

Lemma schedule_going i s : going (Some i) s -> going None (schedule_reconnect p i s).
Proof. intros H. unfold schedule_reconnect. destruct (shutdown_requested s) eqn:Es; [intros E; congruence|]. apply going_fix; [|done]. intros c _. apply arm_attempt. Qed.
Lemma disconnected_going i reason s : going (Some i) s -> going None (disconnected p i reason s).
Proof. intros H. unfold disconnected. apply schedule_going. by destruct (_ || _). Qed.
Lemma handle_error_going e i where_ m s : going (Some i) s -> going None (handle_error p e i where_ m s).
Proof.
  intros H. unfold handle_error. destruct (conns_ s !! i) as [c|] eqn:Hc; cycle 1.
  { intros Hs Hf k c Hk. destruct (H Hs Hf k c Hk) as [?|Hg]; [by left|right]. rewrite good_other in Hg; [done|]. intros ->. congruence. }
  destruct (shutdown_requested s) eqn:Es; [intros E; cbn in E; congruence|]. destruct (reconnecting (link c)) eqn:Er; cbn [orb].
  { intros _ Hf k c' Hk. destruct (H Es Hf k c' Hk) as [?|Hg]; [by left|right]. destruct (decide (k = i)) as [->|Hne]; [|by rewrite good_other in Hg].
    rewrite good_self in Hg. assert (c' = c) as -> by congruence. destruct Hg. split; [done|done|congruence]. }
  set (s1 := upd i _ s). assert (going (Some i) s1) as H1 by (by apply going_mono).
  set (s2 := if connected_count_ s1 >? 0 then _ else s1). assert (going (Some i) s2) as H2 by (unfold s2; by destruct (_ >? 0)). clearbody s2.
  destruct (auth_failed p e i c); [|by apply disconnected_going]. destruct (_ >=? _); [intros _ E; discriminate E|by apply disconnected_going].
Qed.
Lemma launch_on_going i (op : nat -> WOp) s : (forall l w, ws l = Some w -> chain l (op w) = true) -> going (Some i) s -> going None (launch_on i op s).
Proof.
  intros Ho H. unfold launch_on, stream_of. destruct (conns_ s !! i) as [c|] eqn:Hc; cbn.
  - destruct (ws (link c)) as [w|] eqn:Ew.
    + intros Hs Hf k c' [(-> & c1 & Hc1 & ->)|[Hne Hk]]%lookup_upd; (destruct (H Hs Hf _ _ ltac:(eassumption)) as [?|Hg]; [by left|right]); [|by rewrite good_other in Hg].
      rewrite good_self in Hg. assert (c1 = c) as -> by congruence. destruct Hg as [G1 G2]. split; cbn; [congruence|done|]. intros _. exists (op w).
      split; [apply elem_of_app; right; by left|]. by apply Ho.
    + intros Hs Hf k c' Hk. destruct (H Hs Hf k c' Hk) as [?|Hg]; [by left|right]. destruct (decide (k = i)) as [->|Hne]; [|by rewrite good_other in Hg].
      rewrite good_self in Hg. assert (c' = c) as -> by congruence. destruct Hg as [G1 G2]. specialize (G1 Ew). split; [done|done|congruence].
  - intros Hs Hf k c Hk. destruct (H Hs Hf k c Hk) as [?|Hg]; [by left|right]. rewrite good_other in Hg; [done|]. intros ->. congruence.
Qed.
Lemma stream_chain (op : nat -> WOp) : op ∈ [WConnect; WSsl; WHandshake; WRead] -> forall l w, ws l = Some w -> chain l (op w) = true.
Proof. intros Hin l s E. repeat (apply elem_of_cons in Hin as [->|Hin]; [cbn; by apply bool_decide_eq_true|]). by apply elem_of_nil in Hin. Qed.
Lemma write_on_going j i op payload s : going j s -> going j (write_on i op payload s).
Proof.
  intros H. unfold write_on. destruct (stream_of i s); [|done]. change (going j (upd i (on_link (launch (op n))) s)). apply going_mono; [|by intros c []|done].
  intros c. apply ws_launch_attempt.
Qed.
Lemma start_ping_going j i s : going j s -> going j (start_ping_timer i s).
Proof. intros H. unfold start_ping_timer. destruct (shutdown_requested s); [done|by apply going_mono]. Qed.
Lemma drain_going j i s : going j s -> going j (conn_drain_write i s).
Proof.
  intros H. unfold conn_drain_write. destruct (conns_ s !! i) as [c|]; [|done]. assert (forall b, going j (upd i (fun c => c <| writing := b |>) s)) as Hb by (intros b; by apply going_mono).
  destruct (write_queue c); [apply Hb|]. destruct (ws (link c)); [apply write_on_going|]; apply Hb.
Qed.
Lemma enqueue_going j i payload s : going j s -> going j (conn_enqueue_write i payload s).
Proof.
  intros H. unfold conn_enqueue_write. destruct (conns_ s !! i) as [c|]; [|done]. set (s1 := upd i _ s). assert (going j s1) by (by apply going_mono).
  destruct (writing c); [done|by apply drain_going].
Qed.
Lemma do_read_going i s : going (Some i) s -> going None (do_read i s).
Proof. intros H. unfold do_read. destruct (shutdown_requested s) eqn:Es; [intros E; congruence|]. apply launch_on_going; [apply stream_chain; set_solver|done]. Qed.
Lemma start_stale_going j s : going j s -> going j (start_stale_timer p s).
Proof. intros H. unfold start_stale_timer. by destruct (_ || _). Qed.
Lemma on_ws_connected_going e i s : going (Some i) s -> going None (on_ws_connected p e i s).
Proof.
  intros H. unfold on_ws_connected. set (s1 := upd i (fresh_conn p e) s).
  assert (going (Some i) s1) as H1 by (apply going_mono; [intros c [G1 G2 G3]|intros c [G1 G2]|done]; unfold fresh_conn; destruct (p_user p); by split).
  set (s2 := s1 <| connected_count_ ::= Z.succ |>). assert (going (Some i) s2) as H2 by exact H1. clearbody s2.
  set (s3 := if connected_count_ s2 =? 1 then emit WsConnected s2 else s2). assert (going (Some i) s3) as H3 by (unfold s3; by destruct (_ =? 1)). clearbody s3.
  assert (going (Some i) (send_subscribe p i s3)) as H4 by (unfold send_subscribe; destruct (p_subscribe p); [by apply write_on_going|by apply start_ping_going]).
  set (s4 := send_subscribe p i s3) in *. clearbody s4. set (s5 := match active_subscriptions_ s4 with [] => s4 | _ => _ end).
  assert (going (Some i) s5) as H5 by (unfold s5; destruct (active_subscriptions_ s4); [done|by apply enqueue_going]). clearbody s5.
  apply do_read_going. destruct (_ =? 1); [by apply start_stale_going|done].
Qed.
Lemma guarded_going e i where_ r next s : (going (Some i) s -> going None (next s)) -> going (Some i) s -> going None (guarded p e i where_ r next s).
Proof. intros Hn H. unfold guarded. destruct r; [|by apply handle_error_going]. destruct (shutdown_requested s); [by apply handle_error_going|auto]. Qed.
Lemma deliver_going e i payload s : going (Some i) s -> going None (deliver p e i payload s).
Proof. intros H. unfold deliver. set (s1 := emit _ s). assert (going (Some i) s1) by exact H. destruct (e_throws _); [by apply handle_error_going|by apply do_read_going]. Qed.
Lemma on_read_going e i r s : going (Some i) s -> going None (on_read p e i r s).
Proof.
  intros H. unfold on_read. destruct (shutdown_requested s) eqn:Es; [intros E; congruence|]. destruct r; [|by apply handle_error_going].
  set (s1 := upd i _ s). assert (going (Some i) s1) as H1 by (by apply going_mono). assert (going (Some i) (first_data p i s1)) as H2.
  { unfold first_data. destruct (conns_ s1 !! i); [|done]. destruct (_ && _); [|done]. change (going (Some i) (upd i (fun c => c <| first_data_received := true |>) s1)). by apply going_mono. }
  set (s2 := (first_data p i s1) <| reads ::= _ |>). assert (going (Some i) s2) as H3 by exact H2. clearbody s2. destruct (_ <? _)%nat; [|by apply deliver_going].
  destruct (is_duplicate payload (dedup_ s2)) as [dup table]. destruct dup; [by apply do_read_going|by apply deliver_going].
Qed.
Lemma complete_going e i op r s : going None s -> going None (complete p e i op r (upd i (on_link (fun l => l <| ops ::= remove_op op |>)) s)).
Proof.
  intros H. set (s0 := upd i _ s). assert (going (Some i) s0) as H0.
  { intros Hs Hf k c [(-> & c' & Hc & ->)|[Hne Hk]]%lookup_upd; (destruct (H Hs Hf _ _ ltac:(eassumption)) as [?|[G1 G2 G3]]; [by left|right]).
    - rewrite good_self. by split.
    - rewrite good_other by done. by split. }
  assert ((forall l, chain l op = false) -> going None s0) as H1.
  { intros Ho Hs Hf k c [(-> & c' & Hc & ->)|[Hne Hk]]%lookup_upd; (destruct (H Hs Hf _ _ ltac:(eassumption)) as [?|Hg]; [by left|right]); [|done].
    by apply ws_remove_attempt. }
  clearbody s0. destruct op as [|w|w|w|w|w|w|w]; cbn [complete].
  - apply guarded_going; [|done]. apply launch_on_going, stream_chain. set_solver.
  - apply guarded_going; [|done]. unfold on_tcp_connect. intros Hw. destruct (negb _); [by apply handle_error_going|]. apply launch_on_going; [apply stream_chain; set_solver|done].
  - apply guarded_going; [|done]. apply launch_on_going, stream_chain. set_solver.
  - apply guarded_going; [|done]. apply on_ws_connected_going.
  - unfold on_subscribed. destruct r; [|by apply handle_error_going]. apply start_ping_going. destruct (p_user p); [apply going_mono|]; auto.
  - unfold on_ping_written. destruct r; [|by apply handle_error_going]. by apply start_ping_going, H1.
  - unfold on_queued. set (s1 := upd i _ s0). assert (going None s1) by (apply going_mono; auto). destruct r; [by apply drain_going|by apply going_mono].
  - by apply on_read_going.
Qed.
Lemma start_going i s :
  (shutdown_requested s = false -> fatal_flag s = false -> forall k c, conns_ s !! k = Some c -> k <> i -> k ∈ staggered s \/ attempt_ok (link c)) ->
  going None (start_connect p i s).
Proof.
  intros H. unfold start_connect. destruct (shutdown_requested s) eqn:Es; [intros E; congruence|]. destruct (negb _); [intros _ E; discriminate E|].
  intros _ Hf k c [(-> & c' & Hc & ->)|[Hne Hk]]%lookup_upd; [right; apply new_stream_attempt|]. by apply H.
Qed.
Lemma loop_going (f : WsClient -> nat -> WsClient) idxs s : (forall s i, going None s -> going None (f s i)) -> going None s -> going None (foldl f s idxs).
Proof. intros Hf. revert s. induction idxs as [|i idxs IH]; intros s H; [done|]. by apply IH, Hf. Qed.
Lemma write_all_going payload s : going None s -> going None (write_all payload s).
Proof.
  intros H. unfold write_all. apply loop_going; [|done]. intros s1 i H1. destruct (stream_of i s1); [|done]. destruct (shutdown_requested s1); [done|by apply enqueue_going].
Qed.
Lemma step_going i s : going None s -> going None (step p s i).
Proof.
  intros H. destruct i as [e i]. cbn [step]. destruct (stopped s); [done|]. destruct i as [i op r|i|i|i| |ids|ids| |].
  - destruct (has_op i op s); [by apply complete_going|done].
  - destruct (armed i ping_armed s); [|done]. unfold on_ping_timer, send_ping. set (s1 := upd i _ s). assert (going None s1) by (by apply going_mono).
    destruct (shutdown_requested s1); [done|]. by apply write_on_going.
  - destruct (armed i _ s); [|done]. unfold on_reconnect_timer. set (s1 := upd i _ s). destruct (shutdown_requested s1) eqn:Es; [intros E; congruence|].
    apply start_going. intros Hs Hf k c [(-> & c' & Hc & ->)|[Hne Hk]]%lookup_upd; [done|]. intros _. exact (H Hs Hf k c Hk).
  - destruct (bool_decide _); [|done]. apply start_going. intros Hs Hf k c Hk Hne. destruct (H Hs Hf k c Hk) as [Hin|?]; [left; cbn; by rewrite list_elem_of_filter|by right].
  - destruct (stale_armed s); [|done]. unfold on_stale_timer. cbn. destruct (shutdown_requested s) eqn:Es; [intros E; cbn in E; congruence|].
    set (s1 := s <| stale_armed := false |>). assert (going None s1) as H1 by exact H. destruct (_ && _); [|by apply start_stale_going]. unfold stale_all. apply loop_going; [|done].
    intros s2 i H2. destruct (conns_ s2 !! i) as [c|]; [|done]. destruct (reconnecting _); [done|]. by apply handle_error_going, going_weaken.
  - unfold do_subscribe_add. destruct ids; [done|]. by apply write_all_going.
  - unfold do_unsubscribe. destruct ids; [done|]. by apply write_all_going.
  - intros E. discriminate E.
  - destruct (shutdown_requested s) eqn:Es; [|done]. intros E. cbn in E. congruence.
Qed.
Lemma start_is_going : going None (start p).
Proof.
  apply start_going. cbn. intros _ _ k c Hk Hne. left. apply elem_of_seq. apply lookup_lt_Some in Hk. rewrite length_replicate in Hk. lia.
Qed.
Lemma run_going l : going None (run p l).
Proof. unfold run. generalize start_is_going. generalize (start p). induction l as [|i l IH]; intros s H; [done|]. by apply IH, step_going. Qed.
End Stuck.

(** ** The queue of writes *)
Section Writes.
Context (p : Policy).
Definition is_queued (op : WOp) : bool := match op with WQueued _ => true | _ => false end.
Definition queued_ops (o : list WOp) : nat := length (filter (fun op => is_queued op = true) o).
Arguments queued_ops _ : simpl never.
(** One queued write is under way exactly when the flag says so, and then the queue has
    its message. *)
Definition writes_ok c : Prop := queued_ops (ops (link c)) = (if writing c then 1 else 0)%nat /\ (writing c = true -> write_queue c <> []).
Definition all_ok s : Prop := Forall writes_ok (conns_ s).
Lemma queued_app o o' : queued_ops (o ++ o') = (queued_ops o + queued_ops o')%nat.
Proof. unfold queued_ops. by rewrite filter_app, length_app. Qed.
Lemma queued_launch op o : is_queued op = false -> queued_ops (o ++ [op]) = queued_ops o.
Proof. intros H. rewrite queued_app. unfold queued_ops at 2. rewrite filter_cons_False by (by rewrite H). cbn. lia. Qed.
Lemma queued_remove op o : op ∈ o -> queued_ops o = ((if is_queued op then 1 else 0) + queued_ops (remove_op op o))%nat.
Proof.
  unfold queued_ops. induction o as [|x o IH]; [by intros ?%elem_of_nil|]. intros Hin. cbn [remove_op]. rewrite filter_cons. case_bool_decide as E.
  - subst x. destruct (is_queued op) eqn:Ho; case_decide; congruence || done.
  - apply elem_of_cons in Hin as [->|Hin]; [done|]. rewrite filter_cons. case_decide; cbn [length]; rewrite (IH Hin); lia.
Qed.
Lemma upd_ok i f s : (forall c, writes_ok c -> writes_ok (f c)) -> all_ok s -> all_ok (upd i f s).
Proof. intros Hf H. unfold all_ok. cbn. apply Forall_alter; [done|]. intros c _. apply Hf. Qed.
Lemma launch_ok_writes i op s : (forall w, is_queued (op w) = false) -> all_ok s -> all_ok (launch_on i op s).
Proof. intros Ho H. unfold launch_on. destruct (stream_of i s) as [w|]; [|done]. apply upd_ok; [|done]. intros c [H1 H2]. split; [|done]. cbn. by rewrite queued_launch. Qed.
Lemma write_ok_writes i op payload s : (forall w, is_queued (op w) = false) -> all_ok s -> all_ok (write_on i op payload s).
Proof.
  intros Ho H. unfold write_on. destruct (stream_of i s) as [w|]; [|done]. change (all_ok (upd i (on_link (launch (op w))) s)).
  apply upd_ok; [|done]. intros c [H1 H2]. split; [|done]. cbn. by rewrite queued_launch.
Qed.
(** Draining starts with no queued write under way. *)
Lemma drain_ok i s : (forall k c, conns_ s !! k = Some c -> if decide (k = i) then queued_ops (ops (link c)) = 0%nat else writes_ok c) -> all_ok (conn_drain_write i s).
Proof.
  intros H. unfold all_ok. apply Forall_lookup. intros k c Hk. unfold conn_drain_write in Hk. destruct (conns_ s !! i) as [ci|] eqn:Hi; cycle 1.
  { specialize (H k c Hk). case_decide; [congruence|done]. }
  pose proof (H i ci Hi) as Hq. rewrite decide_True in Hq by done.
  assert (forall k c, k <> i -> conns_ s !! k = Some c -> writes_ok c) as Hother by (intros k' c' Hne Hk'; specialize (H k' c' Hk'); by rewrite decide_False in H).
  destruct (write_queue ci) as [|msg rest] eqn:Eq.
  { apply lookup_upd in Hk as [(-> & c' & Hc & ->)|[Hne Hk]]; [|eauto]. assert (c' = ci) as -> by congruence. split; cbn; [done|done]. }
  destruct (ws (link ci)) as [w|] eqn:Ew; cycle 1.
  { apply lookup_upd in Hk as [(-> & c' & Hc & ->)|[Hne Hk]]; [|eauto]. assert (c' = ci) as -> by congruence. split; cbn; [done|done]. }
  unfold write_on in Hk. assert (stream_of i (upd i (fun c => c <| writing := true |>) s) = Some w) as Es
    by (unfold stream_of; cbn; rewrite list_lookup_alter_eq, Hi; done). rewrite Es in Hk.
  change (conns_ (upd i (on_link (launch (WQueued w))) (upd i (fun c => c <| writing := true |>) s)) !! k = Some c) in Hk.
  apply lookup_upd in Hk as [(-> & c' & Hc & ->)|[Hne Hk]]; [|apply lookup_upd in Hk as [(-> & _)|[_ Hk]]; [done|eauto]].
  apply lookup_upd in Hc as [(_ & c2 & Hc & ->)|[? _]]; [|done]. assert (c2 = ci) as -> by congruence.
  split; cbn; [by rewrite queued_app, Hq|]. by rewrite Eq.
Qed.
Lemma enqueue_ok i payload s : all_ok s -> all_ok (conn_enqueue_write i payload s).
Proof.
  intros H. unfold conn_enqueue_write. destruct (conns_ s !! i) as [c|] eqn:Hc; [|done]. pose proof (proj1 (Forall_lookup _ _) H i c Hc) as [H1 H2].
  destruct (writing c) eqn:Ew.
  - apply upd_ok; [|done]. intros c' [G1 G2]. split; [done|]. cbn. intros _ E. by apply app_nil in E as [_ ?].
  - apply drain_ok. intros k c' [(-> & c2 & Hc2 & ->)|[Hne Hk]]%lookup_upd.
    + rewrite decide_True by done. assert (c2 = c) as -> by congruence. exact H1.
    + rewrite decide_False by done. exact (proj1 (Forall_lookup _ _) H k c' Hk).
Qed.
Lemma ws_handle_error_ok e i where_ m s : all_ok s -> all_ok (handle_error p e i where_ m s).
Proof.
  intros H. unfold handle_error. destruct (conns_ s !! i) as [c|]; [|done]. destruct (_ || _); [done|]. set (s1 := upd i _ s).
  assert (all_ok s1) as H1 by (by apply upd_ok). set (s2 := if connected_count_ s1 >? 0 then _ else s1). assert (all_ok s2) as H2 by (unfold s2; by destruct (_ >? 0)). clearbody s2.
  assert (forall reason s3, all_ok s3 -> all_ok (disconnected p i reason s3)) as Hd.
  { intros reason s3 H3. unfold disconnected, schedule_reconnect. set (s4 := if _ : bool then _ else s3). assert (all_ok s4) by (unfold s4; by destruct (_ || _)).
    destruct (shutdown_requested s4); [done|]. by apply upd_ok. }
  destruct (auth_failed p e i c); [|by apply Hd]. destruct (_ >=? _); [done|by apply Hd].
Qed.
Lemma ws_start_ping_ok i s : all_ok s -> all_ok (start_ping_timer i s).
Proof. intros H. unfold start_ping_timer. destruct (shutdown_requested s); [done|by apply upd_ok]. Qed.
Lemma ws_do_read_ok i s : all_ok s -> all_ok (do_read i s).
Proof. intros H. unfold do_read. destruct (shutdown_requested s); [done|by apply launch_ok_writes]. Qed.
Lemma ws_guarded_ok e i where_ r next s : (all_ok s -> all_ok (next s)) -> all_ok s -> all_ok (guarded p e i where_ r next s).
Proof. intros Hn H. unfold guarded. destruct r; [|by apply ws_handle_error_ok]. destruct (shutdown_requested s); [by apply ws_handle_error_ok|auto]. Qed.
Lemma ws_on_ws_connected_ok e i s : all_ok s -> all_ok (on_ws_connected p e i s).
Proof.
  intros H. unfold on_ws_connected. set (s1 := upd i (fresh_conn p e) s).
  assert (all_ok s1) as H1 by (apply upd_ok; [|done]; intros c Hc; unfold fresh_conn; by destruct (p_user p)).
  set (s2 := s1 <| connected_count_ ::= Z.succ |>). assert (all_ok s2) as H2 by exact H1. clearbody s2.
  set (s3 := if connected_count_ s2 =? 1 then emit WsConnected s2 else s2). assert (all_ok s3) as H3 by (unfold s3; by destruct (_ =? 1)). clearbody s3.
  assert (all_ok (send_subscribe p i s3)) as H4 by (unfold send_subscribe; destruct (p_subscribe p); [by apply write_ok_writes|by apply ws_start_ping_ok]).
  set (s4 := send_subscribe p i s3) in *. clearbody s4. set (s5 := match active_subscriptions_ s4 with [] => s4 | _ => _ end).
  assert (all_ok s5) as H5 by (unfold s5; destruct (active_subscriptions_ s4); [done|by apply enqueue_ok]). clearbody s5.
  apply ws_do_read_ok. destruct (_ =? 1); [|done]. unfold start_stale_timer. by destruct (_ || _).
Qed.
Lemma deliver_ok e i payload s : all_ok s -> all_ok (deliver p e i payload s).
Proof. intros H. unfold deliver. set (s1 := emit _ s). assert (all_ok s1) by exact H. destruct (e_throws _); [by apply ws_handle_error_ok|by apply ws_do_read_ok]. Qed.
Lemma on_read_ok e i r s : all_ok s -> all_ok (on_read p e i r s).
Proof.
  intros H. unfold on_read. destruct (shutdown_requested s); [done|]. destruct r; [|by apply ws_handle_error_ok]. set (s1 := upd i _ s). assert (all_ok s1) as H1 by (by apply upd_ok).
  assert (all_ok (first_data p i s1)) as H2.
  { unfold first_data. destruct (conns_ s1 !! i); [|done]. destruct (_ && _); [|done]. change (all_ok (upd i (fun c => c <| first_data_received := true |>) s1)). by apply upd_ok. }
  set (s2 := (first_data p i s1) <| reads ::= _ |>). assert (all_ok s2) as H3 by exact H2. clearbody s2. destruct (_ <? _)%nat; [|by apply deliver_ok].
  destruct (is_duplicate payload (dedup_ s2)) as [dup table]. destruct dup; [by apply ws_do_read_ok|by apply deliver_ok].
Qed.
Lemma ws_complete_ok e i op r s : has_op i op s = true -> all_ok s -> all_ok (complete p e i op r (upd i (on_link (fun l => l <| ops ::= remove_op op |>)) s)).
Proof.
  intros Ho H. unfold has_op in Ho. destruct (conns_ s !! i) as [ci|] eqn:Hi; [|done]. apply bool_decide_eq_true_1 in Ho. set (s0 := upd i _ s).
  assert (forall k c, conns_ s0 !! k = Some c -> (k = i /\ c = on_link (fun l => l <| ops ::= remove_op op |>) ci) \/ (k <> i /\ writes_ok c)) as Hlook.
  { intros k c [(-> & c' & Hc & ->)|[Hne Hk]]%lookup_upd; [left; split; [done|congruence]|right; split; [done|]]. exact (proj1 (Forall_lookup _ _) H k c Hk). }
  pose proof (proj1 (Forall_lookup _ _) H i ci Hi) as [H1 H2]. pose proof (queued_remove op _ Ho) as Hr.
  assert (is_queued op = false -> all_ok s0) as H0.
  { intros E. apply Forall_lookup. intros k c Hk. destruct (Hlook k c Hk) as [[-> ->]|[_ ?]]; [|done]. rewrite E in Hr. cbn in Hr. split; [|exact H2]. cbn. congruence. }
  destruct op as [|w|w|w|w|w|w|w]; cbn [complete].
  - apply ws_guarded_ok; [by apply launch_ok_writes|by apply H0].
  - apply ws_guarded_ok; [|by apply H0]. unfold on_tcp_connect. destruct (negb _); [by apply ws_handle_error_ok|by apply launch_ok_writes].
  - apply ws_guarded_ok; [by apply launch_ok_writes|by apply H0].
  - apply ws_guarded_ok; [apply ws_on_ws_connected_ok|by apply H0].
  - unfold on_subscribed. specialize (H0 eq_refl). destruct r; [|by apply ws_handle_error_ok]. apply ws_start_ping_ok. destruct (p_user p); [by apply upd_ok|done].
  - unfold on_ping_written. specialize (H0 eq_refl). destruct r; [by apply ws_start_ping_ok|by apply ws_handle_error_ok].
  - unfold on_queued. cbn in Hr. assert (queued_ops (remove_op (WQueued w) (ops (link ci))) = 0%nat) as Hz by (destruct (writing ci); lia). destruct r.
    + apply drain_ok. intros k c [(-> & c' & Hc & ->)|[Hne Hk]]%lookup_upd.
      * rewrite decide_True by done. destruct (Hlook i c' Hc) as [[_ ->]|[? _]]; [exact Hz|done].
      * rewrite decide_False by done. by destruct (Hlook k c Hk) as [[? _]|[_ ?]].
    + apply Forall_lookup. intros k c [(-> & c' & Hc & ->)|[Hne Hk]]%lookup_upd.
      * apply lookup_upd in Hc as [(_ & c2 & Hc & ->)|[? _]]; [|done]. destruct (Hlook i c2 Hc) as [[_ ->]|[? _]]; [|done]. by split.
      * apply lookup_upd in Hk as [(-> & _)|[_ Hk]]; [done|]. by destruct (Hlook k c Hk) as [[? _]|[_ ?]].
  - apply on_read_ok. by apply H0.
Qed.
Lemma loop_ok (f : WsClient -> nat -> WsClient) idxs s : (forall s i, all_ok s -> all_ok (f s i)) -> all_ok s -> all_ok (foldl f s idxs).
Proof. intros Hf. revert s. induction idxs as [|i idxs IH]; intros s H; [done|]. by apply IH, Hf. Qed.
Lemma start_connect_ok i s : all_ok s -> all_ok (start_connect p i s).
Proof.
  intros H. unfold start_connect. destruct (shutdown_requested s); [done|]. destruct (negb _); [done|]. apply upd_ok; [|done]. intros c [H1 H2]. split; [|done].
  cbn. by rewrite queued_launch.
Qed.
Lemma write_all_ok payload s : all_ok s -> all_ok (write_all payload s).
Proof.
  intros H. unfold write_all. apply loop_ok; [|done]. intros s1 i H1. destruct (stream_of i s1); [|done]. destruct (shutdown_requested s1); [done|by apply enqueue_ok].
Qed.
Lemma ws_step_ok i s : all_ok s -> all_ok (step p s i).
Proof.
  intros H. destruct i as [e i]. cbn [step]. destruct (stopped s); [done|]. destruct i as [i op r|i|i|i| |ids|ids| |].
  - destruct (has_op i op s) eqn:Ho; [by apply ws_complete_ok|done].
  - destruct (armed i ping_armed s); [|done]. unfold on_ping_timer, send_ping. set (s1 := upd i _ s). assert (all_ok s1) by (by apply upd_ok).
    destruct (shutdown_requested s1); [done|]. by apply write_ok_writes.
  - destruct (armed i _ s); [|done]. unfold on_reconnect_timer. set (s1 := upd i _ s). assert (all_ok s1) by (by apply upd_ok). destruct (shutdown_requested s1); [done|].
    by apply start_connect_ok.
  - destruct (bool_decide _); [|done]. by apply start_connect_ok.
  - destruct (stale_armed s); [|done]. unfold on_stale_timer. set (s1 := s <| stale_armed := false |>). assert (all_ok s1) as H1 by exact H. destruct (shutdown_requested s1); [done|].
    destruct (_ && _); [|unfold start_stale_timer; by destruct (_ || _)]. unfold stale_all. apply loop_ok; [|done].
    intros s2 i H2. destruct (conns_ s2 !! i) as [c|]; [|done]. destruct (reconnecting _); [done|]. by apply ws_handle_error_ok.
  - unfold do_subscribe_add. destruct ids; [done|]. by apply write_all_ok.
  - unfold do_unsubscribe. destruct ids; [done|]. by apply write_all_ok.
  - done.
  - destruct (shutdown_requested s); [|done]. unfold all_ok. cbn. apply Forall_fmap. eapply Forall_impl; [exact H|]. intros c Hc. exact Hc.
Qed.
Lemma ws_run_ok l : all_ok (run p l).
Proof.
  unfold run. assert (all_ok (start p)) as H0 by (apply start_connect_ok, Forall_replicate; by split).
  revert H0. generalize (start p). induction l as [|i l IH]; intros s H; [done|]. by apply IH, ws_step_ok.
Qed.
End Writes.

(** C23: no connection of the two streams is ever stuck: whatever the network, the timers
    and the callbacks do, in any order, as long as the client is not shut down and its
    credentials are neither missing nor refused, a connection waits for its first start,
    has its reconnect timer armed, or has an operation of its current attempt
    outstanding.  Its queue is written one message at a time, and while a write is under
    way the message it removes is there. *)
Theorem ws_connections_live (p : Policy) (l : list (SEnv * Input)) (i : nat) (c : Conn) :
  let s := run p l in
  conns_ s !! i = Some c ->
  (shutdown_requested s = false -> fatal_flag s = false ->
   i ∈ staggered s \/ if reconnecting (link c) then reconnect_armed (link c) = true else exists op, op ∈ ops (link c) /\ chain (link c) op = true) /\
  queued_ops (ops (link c)) = (if writing c then 1 else 0)%nat /\ (writing c = true -> write_queue c <> []).
Proof.
  cbv zeta. intros Hc. split.
  - intros Hs Hf. destruct (run_going p l Hs Hf i c Hc) as [?|[G1 G2 G3]]; [by left|right]. destruct (reconnecting (link c)); auto.
  - exact (proj1 (Forall_lookup _ _) (ws_run_ok p l) i c Hc).
Qed.

(** ** What is handed to the program *)
Section Delivery.
Context (p : Policy).
Definition payloads (evs : list WsEvent) : list string := omap (fun ev => match ev with WsMessage m _ => Some m | _ => None end) evs.
Record same_msgs s s' : Prop := {
  sm_payloads : payloads (events s') = payloads (events s);
  sm_reads : reads s' = reads s;
  sm_dedup : dedup_ s' = dedup_ s;
  sm_conns : length (conns_ s') = length (conns_ s) }.
#[local] Instance same_msgs_refl : Reflexive same_msgs.
Proof. by intros s. Qed.
Lemma same_trans s1 s2 s3 : same_msgs s1 s2 -> same_msgs s2 s3 -> same_msgs s1 s3.
Proof. intros [] []. split; congruence. Qed.
Lemma payloads_app l l' : payloads (l ++ l') = payloads l ++ payloads l'.
Proof. apply omap_app. Qed.
Lemma emit_same ev s : (forall m t, ev <> WsMessage m t) -> same_msgs s (emit ev s).
Proof. intros Hn. split; try done. cbn. rewrite payloads_app. destruct ev; try (cbn; by rewrite app_nil_r). by destruct (Hn payload recv_ts). Qed.
Lemma upd_same i f s : same_msgs s (upd i f s).
Proof. split; try done. cbn. apply length_alter. Qed.
#[local] Hint Resolve emit_same upd_same same_msgs_refl : core.
#[local] Hint Extern 1 (same_msgs _ _) => reflexivity : core.
Lemma launch_on_same i op s : same_msgs s (launch_on i op s).
Proof. unfold launch_on. destruct (stream_of i s); auto. Qed.
Lemma write_on_same i op payload s : same_msgs s (write_on i op payload s).
Proof. unfold write_on. destruct (stream_of i s); [|auto]. eapply same_trans; [apply upd_same|by apply emit_same]. Qed.
Lemma schedule_same i s : same_msgs s (schedule_reconnect p i s).
Proof. unfold schedule_reconnect. destruct (shutdown_requested s); auto. Qed.
Lemma disconnected_same i reason s : same_msgs s (disconnected p i reason s).
Proof. unfold disconnected. eapply same_trans; [|apply schedule_same]. destruct (_ || _); [by apply emit_same|auto]. Qed.
Lemma handle_error_same e i where_ m s : same_msgs s (handle_error p e i where_ m s).
Proof.
  unfold handle_error. destruct (conns_ s !! i) as [c|]; [|auto]. destruct (_ || _); [auto|]. set (s1 := upd i _ s). set (s2 := if connected_count_ s1 >? 0 then _ else s1).
  assert (same_msgs s s2) as H2 by (unfold s2; destruct (_ >? 0); [|apply upd_same]; by destruct (upd_same i (fun c => c <| ping_armed := false |>) s)). clearbody s2.
  destruct (auth_failed p e i c); [|eapply same_trans; [exact H2|apply disconnected_same]].
  set (s3 := s2 <| consecutive_auth_failures_ := _ |>). assert (same_msgs s s3) as H3 by (by destruct H2).
  destruct (_ >=? _); [|eapply same_trans; [exact H3|apply disconnected_same]].
  eapply same_trans; [exact H3|]. set (ev := WsDisconnected _). destruct (emit_same ev s3 ltac:(done)). by split.
Qed.
Lemma ws_start_connect_same i s : same_msgs s (start_connect p i s).
Proof. unfold start_connect. destruct (shutdown_requested s); [auto|]. destruct (negb _); [|auto]. by destruct (emit_same (WsDisconnected kMissingCredentials) s ltac:(done)). Qed.
Lemma drain_same i s : same_msgs s (conn_drain_write i s).
Proof.
  unfold conn_drain_write. destruct (conns_ s !! i) as [c|]; [|auto]. destruct (write_queue c); [auto|]. destruct (ws (link c)); [|auto].
  eapply same_trans; [apply upd_same|apply write_on_same].
Qed.
Lemma enqueue_same i payload s : same_msgs s (conn_enqueue_write i payload s).
Proof.
  unfold conn_enqueue_write. destruct (conns_ s !! i) as [c|]; [|auto]. destruct (writing c); [auto|]. eapply same_trans; [apply upd_same|apply drain_same].
Qed.
Lemma start_ping_same i s : same_msgs s (start_ping_timer i s).
Proof. unfold start_ping_timer. destruct (shutdown_requested s); auto. Qed.
Lemma ws_do_read_same i s : same_msgs s (do_read i s).
Proof. unfold do_read. destruct (shutdown_requested s); [auto|apply launch_on_same]. Qed.
Lemma on_ws_connected_same e i s : same_msgs s (on_ws_connected p e i s).
Proof.
  unfold on_ws_connected. set (s1 := upd i (fresh_conn p e) s). set (s2 := s1 <| connected_count_ ::= Z.succ |>).
  assert (same_msgs s s2) as H2 by (by destruct (upd_same i (fresh_conn p e) s)). clearbody s2. eapply same_trans; [exact H2|].
  set (s3 := if connected_count_ s2 =? 1 then emit WsConnected s2 else s2). assert (same_msgs s2 s3) as H3 by (unfold s3; destruct (_ =? 1); [by apply emit_same|auto]). clearbody s3.
  eapply same_trans; [exact H3|]. assert (same_msgs s3 (send_subscribe p i s3)) as H4 by (unfold send_subscribe; destruct (p_subscribe p); [apply write_on_same|apply start_ping_same]).
  set (s4 := send_subscribe p i s3) in *. clearbody s4. eapply same_trans; [exact H4|]. set (s5 := match active_subscriptions_ s4 with [] => s4 | _ => _ end).
  assert (same_msgs s4 s5) as H5 by (unfold s5; destruct (active_subscriptions_ s4); [auto|apply enqueue_same]). clearbody s5. eapply same_trans; [exact H5|].
  eapply same_trans; [|apply ws_do_read_same]. destruct (_ =? 1); [|auto]. unfold start_stale_timer. by destruct (_ || _).
Qed.
Lemma loop_same (f : WsClient -> nat -> WsClient) idxs s : (forall s i, same_msgs s (f s i)) -> same_msgs s (foldl f s idxs).
Proof. intros Hf. revert s. induction idxs as [|i idxs IH]; intros s; [done|]. cbn [foldl]. eapply same_trans; [apply Hf|apply IH]. Qed.
Lemma write_all_same payload s : same_msgs s (write_all payload s).
Proof. unfold write_all. apply loop_same. intros s1 i. destruct (stream_of i s1); [|auto]. destruct (shutdown_requested s1); [auto|apply enqueue_same]. Qed.

(** The table of the filter after some messages. *)
Fixpoint filter_table (r : Z) (table : list Z) (l : list string) : list Z :=
  match l with [] => table | m :: l => if r >? 1 then filter_table r (is_duplicate m table).2 l else filter_table r table l end.
Lemma filter_table_app r table l m : filter_table r table (l ++ [m]) = if r >? 1 then (is_duplicate m (filter_table r table l)).2 else filter_table r table l.
Proof. revert table. induction l as [|x l IH]; intros table; cbn; [by destruct (r >? 1)|]. destruct (r >? 1) eqn:E; by rewrite IH. Qed.
Lemma delivered_snoc r table l m : delivered r table (l ++ [m]) =
  delivered r table l ++ (if r >? 1 then if (is_duplicate m (filter_table r table l)).1 then [] else [m] else [m]).
Proof.
  revert table. induction l as [|x l IH]; intros table; cbn [delivered filter_table app].
  - destruct (r >? 1); [|done]. by destruct (is_duplicate m table) as [[] ?].
  - destruct (r >? 1) eqn:E; [|by rewrite IH]. destruct (is_duplicate x table) as [[] t]; cbn [snd]; by rewrite IH.
Qed.
Definition filtered s : Prop :=
  payloads (events s) = delivered (p_redundancy p) MessageDedup_new (reads s) /\ dedup_ s = filter_table (p_redundancy p) MessageDedup_new (reads s) /\
  length (conns_ s) = n_conns p.
Lemma filtered_same s s' : same_msgs s s' -> filtered s -> filtered s'.
Proof. intros [E1 E2 E3 E4] (H1 & H2 & H3). split; [|split]; congruence. Qed.
Lemma deliver_payloads e i m s : let s' := deliver p e i m s in
  payloads (events s') = payloads (events s) ++ [m] /\ reads s' = reads s /\ dedup_ s' = dedup_ s /\ length (conns_ s') = length (conns_ s).
Proof.
  cbv zeta. unfold deliver. set (s1 := emit _ s). assert (payloads (events s1) = payloads (events s) ++ [m]) as E by (cbn; by rewrite payloads_app).
  destruct (e_throws _); [destruct (handle_error_same e i "on_message" None s1) as [-> -> -> ->]|destruct (ws_do_read_same i s1) as [-> -> -> ->]]; done.
Qed.
Lemma filtered_next m s s' : filtered s -> reads s' = reads s ++ [m] -> length (conns_ s') = length (conns_ s) ->
  dedup_ s' = (if p_redundancy p >? 1 then (is_duplicate m (dedup_ s)).2 else dedup_ s) ->
  payloads (events s') = payloads (events s) ++ (if p_redundancy p >? 1 then if (is_duplicate m (dedup_ s)).1 then [] else [m] else [m]) -> filtered s'.
Proof. intros (H1 & H2 & H3) E1 E2 E3 E4. split; [|split]; [by rewrite E4, E1, delivered_snoc, H1, H2|by rewrite E3, E1, filter_table_app, H2|congruence]. Qed.
Lemma on_read_filtered e i r s : filtered s -> filtered (on_read p e i r s).
Proof.
  intros H. unfold on_read. destruct (shutdown_requested s); [done|]. destruct r as [m|m]; [|eapply filtered_same; [apply handle_error_same|done]].
  set (s1 := upd i _ s). assert (same_msgs s (first_data p i s1)) as Hs.
  { apply (same_trans s s1); [apply upd_same|]. unfold first_data. destruct (conns_ s1 !! i) as [c|]; [|auto]. destruct (_ && _); [|auto].
    by destruct (upd_same i (fun c => c <| first_data_received := true |>) s1). }
  set (s2 := first_data p i s1) in *. clearbody s2. clear s1. assert (filtered s2) as H2 by (by apply (filtered_same s)). set (s3 := s2 <| reads ::= _ |>).
  assert ((1 <? length (conns_ s3))%nat = (p_redundancy p >? 1)) as Er.
  { change (conns_ s3) with (conns_ s2). destruct H2 as (_ & _ & ->). unfold n_conns. destruct (Nat.ltb_spec 1 (Z.to_nat (Z.max 1 (p_redundancy p)))), (Z.gtb_spec (p_redundancy p) 1); lia. }
  rewrite Er. change (dedup_ s3) with (dedup_ s2). destruct (p_redundancy p >? 1) eqn:Eg.
  - destruct (is_duplicate m (dedup_ s2)) as [dup table] eqn:Ed. destruct dup.
    + eapply filtered_same; [apply ws_do_read_same|]. apply (filtered_next m s2); rewrite ?Eg, ?Ed; try done. symmetry. apply app_nil_r.
    + destruct (deliver_payloads e i m (s3 <| dedup_ := table |>)) as (E1 & E2 & E3 & E4). apply (filtered_next m s2); rewrite ?Eg, ?Ed, ?E1, ?E2, ?E3, ?E4; done.
  - destruct (deliver_payloads e i m s3) as (E1 & E2 & E3 & E4). apply (filtered_next m s2); rewrite ?Eg, ?E1, ?E2, ?E3, ?E4; done.
Qed.
Lemma guarded_same e i where_ r next s : same_msgs s (next s) -> same_msgs s (guarded p e i where_ r next s).
Proof. intros Hn. unfold guarded. destruct r; [|apply handle_error_same]. destruct (shutdown_requested s); [apply handle_error_same|done]. Qed.
Lemma complete_filtered e i op r s : filtered s -> filtered (complete p e i op r s).
Proof.
  intros H. destruct op; cbn [complete]; try (by apply on_read_filtered); (eapply filtered_same; [|exact H]).
  - apply guarded_same, launch_on_same.
  - apply guarded_same. unfold on_tcp_connect. destruct (negb _); [apply handle_error_same|apply launch_on_same].
  - apply guarded_same, launch_on_same.
  - apply guarded_same, on_ws_connected_same.
  - unfold on_subscribed. destruct r; [|apply handle_error_same]. eapply same_trans; [|apply start_ping_same]. destruct (p_user p); auto.
  - unfold on_ping_written. destruct r; [apply start_ping_same|apply handle_error_same].
  - unfold on_queued. eapply same_trans; [apply upd_same|]. destruct r; [apply drain_same|apply upd_same].
Qed.
Lemma step_filtered i s : filtered s -> filtered (step p s i).
Proof.
  intros H. destruct i as [e i]. cbn [step]. destruct (stopped s); [done|]. destruct i as [i op r|i|i|i| |ids|ids| |].
  - destruct (has_op i op s); [|done]. apply complete_filtered. eapply filtered_same; [apply upd_same|done].
  - destruct (armed i ping_armed s); [|done]. eapply filtered_same; [|exact H]. unfold on_ping_timer, send_ping. eapply same_trans; [apply upd_same|].
    destruct (shutdown_requested _); [auto|apply write_on_same].
  - destruct (armed i _ s); [|done]. eapply filtered_same; [|exact H]. unfold on_reconnect_timer. eapply same_trans; [apply upd_same|].
    destruct (shutdown_requested _); [auto|apply ws_start_connect_same].
  - destruct (bool_decide _); [|done]. eapply filtered_same; [|exact H]. by destruct (ws_start_connect_same i (s <| staggered ::= filter (fun j => j <> i) |>)).
  - destruct (stale_armed s); [|done]. eapply filtered_same; [|exact H]. unfold on_stale_timer. set (s1 := s <| stale_armed := false |>). assert (same_msgs s s1) as H1 by done.
    destruct (shutdown_requested s1); [done|]. eapply same_trans; [exact H1|]. destruct (_ && _); [|unfold start_stale_timer; by destruct (_ || _)].
    unfold stale_all. apply loop_same. intros s2 i. destruct (conns_ s2 !! i) as [c|]; [|auto]. destruct (reconnecting _); [auto|apply handle_error_same].
  - unfold do_subscribe_add. destruct ids as [|id ids]; [done|]. eapply filtered_same; [|exact H]. by destruct (write_all_same (p_add p (id :: ids)) (s <| active_subscriptions_ ::= fun l => l ++ id :: ids |>)).
  - unfold do_unsubscribe. destruct ids; [done|]. eapply filtered_same; [apply write_all_same|done].
  - done.
  - destruct (shutdown_requested s); [|done]. destruct H as (H1 & H2 & H3). split; [done|]. split; [done|]. cbn. by rewrite length_fmap.
Qed.
End Delivery.

(** C24: what the stream clients hand to the program is exactly what their duplicate
    filter passes of what their connections read, in that order: along every run,
    whatever the number of connections, nothing is lost, repeated or reordered besides. *)
Theorem ws_delivers_filtered (p : Policy) (l : list (SEnv * Input)) :
  let s := run p l in payloads (events s) = delivered (p_redundancy p) MessageDedup_new (reads s).
Proof.
  cbv zeta. enough (filtered p (run p l)) as [H _] by done. unfold run. assert (filtered p (start p)) as H0.
  { unfold start. eapply filtered_same; [apply ws_start_connect_same|]. split; [done|]. split; [done|]. cbn. apply length_replicate. }
  revert H0. generalize (start p). induction l as [|i l IH]; intros s H; [done|]. by apply IH, step_filtered.
Qed.


(** ** The documents that are sent *)
Definition ids_json (ids : list string) : Json := JArray (JString <$> ids).
Definition user_subscribe_doc (api_key api_secret api_passphrase : string) (market_ids : list string) : Json :=
  JObject ([("auth", JObject [("apiKey", JString api_key); ("secret", JString api_secret); ("passphrase", JString api_passphrase)]); ("type", JString "user")]%string ++
           match market_ids with [] => [] | _ => [("markets"%string, ids_json market_ids)] end).
Definition user_change_doc (operation : string) (ids : list string) : Json := JObject [("markets", ids_json ids); ("operation", JString operation)]%string.
Lemma id_list_print first ids : id_list json_escape first ids = print_elements first (JString <$> ids).
Proof. revert first. induction ids as [|id ids IH]; intros first; [done|]. cbn. by rewrite IH. Qed.
Lemma print_ids ids : print_json (ids_json ids) = txt "[" ++ id_list json_escape true ids ++ txt "]".
Proof. unfold ids_json. by rewrite print_array, id_list_print. Qed.
Lemma ids_numbers ids : numbers_ok (ids_json ids) = true.
Proof. unfold ids_json. cbn. induction ids as [|id ids IH]; [done|exact IH]. Qed.
(** The fixed texts, evaluated. *)
Ltac eval_texts :=
  repeat match goal with
  | |- context [print_key ?k] => let v := eval vm_compute in (print_key k) in change (print_key k) with v
  | |- context [print_json (JString ?k)] => let v := eval vm_compute in (print_json (JString k)) in change (print_json (JString k)) with v
  | |- context [lit ?k] => let v := eval vm_compute in (lit k) in change (lit k) with v
  | |- context [txt ?k] => let v := eval vm_compute in (txt k) in change (txt k) with v
  end; repeat (cbn [app]; rewrite <- ?app_assoc); cbn [app].
Lemma user_subscribe_print key secret pass ids : user_subscribe key secret pass ids = print_json (user_subscribe_doc key secret pass ids).
Proof.
  unfold user_subscribe_doc. rewrite print_object. cbn [print_members app]. rewrite print_object. cbn [print_members].
  change (print_json (JString key)) with (quoted (json_escape key)). change (print_json (JString secret)) with (quoted (json_escape secret)).
  change (print_json (JString pass)) with (quoted (json_escape pass)). unfold user_subscribe. generalize (json_escape key), (json_escape secret), (json_escape pass). intros a b d.
  unfold quoted. destruct ids as [|id ids].
  - cbn [print_members]. by eval_texts.
  - cbn [print_members]. rewrite print_ids. generalize (id_list json_escape true (id :: ids)). intros x. by eval_texts.
Qed.
Lemma user_change_print op ids : print_json (user_change_doc op ids) =
  lit "{'markets':[" ++ id_list json_escape true ids ++ lit "],'operation':" ++ print_json (JString op) ++ lit "}".
Proof.
  unfold user_change_doc. rewrite print_object. cbn [print_members]. rewrite print_ids. generalize (id_list json_escape true ids), (print_json (JString op)).
  intros x y. by eval_texts.
Qed.

(** What the user client sends when it subscribes reads as the document with its
    credentials and markets, whatever characters these contain; and so do its later
    changes. *)
Theorem user_subscribe_reads key secret pass ids :
  read_json (user_subscribe key secret pass ids) = Some (user_subscribe_doc key secret pass ids) /\
  read_json (user_subscribe_add ids) = Some (user_change_doc "subscribe" ids) /\
  read_json (user_unsubscribe ids) = Some (user_change_doc "unsubscribe" ids).
Proof.
  assert (forall op, numbers_ok (user_change_doc op ids) = true) as Hn by (intros op; cbn; by rewrite (ids_numbers ids : forallb numbers_ok (JString <$> ids) = true)).
  split; [|split].
  - rewrite user_subscribe_print. apply json_roundtrip. unfold user_subscribe_doc. destruct ids as [|id ids]; [done|].
    cbn [app numbers_ok forallb]. exact (f_equal (fun b => b && true) (ids_numbers (id :: ids))).
  - rewrite <- (json_roundtrip _ (Hn "subscribe"%string)), user_change_print. unfold user_subscribe_add. generalize (id_list json_escape true ids). intros x. by eval_texts.
  - rewrite <- (json_roundtrip _ (Hn "unsubscribe"%string)), user_change_print. unfold user_unsubscribe. generalize (id_list json_escape true ids). intros x. by eval_texts.
Qed.
(** The market client writes its ids as they are; for ids without characters that JSON
    escapes, as the exchange's tokens are, this is the document as well. *)
Definition market_subscribe_doc (ids : list string) : Json :=
  JObject [("assets_ids", ids_json ids); ("type", JString "market"); ("custom_feature_enabled", JBool true)]%string.
Lemma id_list_plain first ids : Forall (fun id => plain (txt id)) ids -> id_list txt first ids = id_list json_escape first ids.
Proof. intros H. revert first. induction H as [|id ids Hid H IH]; intros first; [done|]. cbn [id_list]. unfold json_escape at 1. by rewrite (escape_plain _ Hid), IH. Qed.
Lemma market_subscribe_reads ids : Forall (fun id => plain (txt id)) ids -> read_json (market_subscribe ids) = Some (market_subscribe_doc ids).
Proof.
  intros H. assert (numbers_ok (market_subscribe_doc ids) = true) as Hn by (cbn; by rewrite (ids_numbers ids : forallb numbers_ok (JString <$> ids) = true)).
  rewrite <- (json_roundtrip _ Hn). f_equal. unfold market_subscribe, market_subscribe_doc. rewrite (id_list_plain true ids H), print_object. cbn [print_members].
  rewrite print_ids. change (print_json (JBool true)) with (txt "true"). generalize (id_list json_escape true ids). intros x. by eval_texts.
Qed.

(** ** What goes wrong *)
Definition at_ms (now_ms : Z) : list Input -> list (SEnv * Input) := fmap (fun i => (mkSEnv (mkWEnv (now_ms * 1000000) true false) None, i)).
(** Connection [i] connects its stream [w]. *)
Definition connects (i w : nat) : list Input := (fun op => IOp i op (WOk "")) <$> [WResolve; WConnect w; WSsl w; WHandshake w].
Definition cancelled (i : nat) (op : WOp) : Input := IOp i op (WErr "Operation canceled").
Definition market_example (redundancy : Z) : Policy :=
  market_policy (WsClientConfig_default <| mc_asset_ids := ["1"; "2"]%string |> <| mc_redundancy := redundancy |>).
Definition disconnects (evs : list WsEvent) : list string := omap (fun ev => match ev with WsDisconnected r => Some r | _ => None end) evs.
Definition writes (i : nat) (evs : list WsEvent) : list text := omap (fun ev => match ev with WsWrite j _ m => if (j =? i)%nat then Some m else None | _ => None end) evs.

(** A connection that is made after a subscription was added starts the write of the
    queue while the write of its subscription is under way: a stream allows one write at
    a time. *)
Definition late_subscription : list (SEnv * Input) :=
  at_ms 0 ([ISubscribe ["3"%string]; cancelled 0 (WQueued 0)] ++ connects 0 0).
Lemma overlapping_writes :
  (ops ∘ link <$> conns_ (run (market_example 1) late_subscription)) = [[WSubscribe 0; WQueued 0; WRead 0]] /\
  writes 0 (events (run (market_example 1) late_subscription)) = [market_subscribe_add ["3"]; market_subscribe ["1"; "2"]; market_subscribe_add ["3"]]%string.
Proof. split; by vm_compute. Qed.
(** A subscription that was cancelled is repeated when the connection is made anew. *)
Definition cancelled_subscription : list (SEnv * Input) :=
  at_ms 0 (connects 0 0 ++ [IOp 0 (WSubscribe 0) (WOk ""); ISubscribe ["3"%string]; IOp 0 (WQueued 0) (WOk ""); IUnsubscribe ["3"%string]; IOp 0 (WQueued 0) (WOk "");
                            IOp 0 (WRead 0) (WErr "End of file"); IReconnect 0] ++ connects 0 1).
Lemma unsubscribed_repeated :
  (writes 0 (events (run (market_example 1) cancelled_subscription))) = (
    [market_subscribe ["1"; "2"]; market_subscribe_add ["3"]; market_unsubscribe ["3"]; market_subscribe ["1"; "2"]; market_subscribe_add ["3"]])%string.
Proof. by vm_compute. Qed.
(** A second connection that was never made counts as one that is lost: the program is
    told that the stream is down while the first connection reads, and that it is up
    again when the second one succeeds. *)
Definition failed_second : list (SEnv * Input) :=
  at_ms 0 (connects 0 0 ++ [IStagger 1; IOp 1 WResolve (WErr "Host not found (authoritative)"); IReconnect 1] ++ connects 1 1).
Definition told_up (evs : list WsEvent) : list bool := omap (fun ev => match ev with WsConnected => Some true | WsDisconnected _ => Some false | _ => None end) evs.
Lemma count_drifts :
  let s := run (market_example 2) failed_second in
  told_up (events s) = [true; false; true] /\ disconnects (events s) = ["resolve[1]: Host not found (authoritative)"%string] /\
  connected_count_ s = 1 /\ Forall (fun c => WRead (default 0%nat (ws (link c))) ∈ ops (link c)) (conns_ s).
Proof. cbv zeta. repeat (split; [by vm_compute|]). apply (bool_decide_unpack _). by vm_compute. Qed.
(** After a silence the market client drops every connection it makes, as the clients of
    the price feeds do. *)
Definition market_silence : list (SEnv * Input) :=
  at_ms 1000 (connects 0 0 ++ [IOp 0 (WSubscribe 0) (WOk ""); IOp 0 (WRead 0) (WOk "[]")]) ++
  at_ms 41000 ([IStale; IReconnect 0; cancelled 0 (WRead 0)] ++ connects 0 1 ++ [IOp 0 (WSubscribe 1) (WOk ""); IReconnect 0; cancelled 0 (WRead 1)]) ++
  at_ms 43000 (connects 0 2 ++ [IOp 0 (WSubscribe 2) (WOk ""); IReconnect 0]).
Lemma market_silence_never_settles :
  disconnects (events (run (market_example 1) market_silence)) =
    ["stale_watchdog[0]: unknown error"; "read[0]: Operation canceled"; "read[0]: Operation canceled"]%string /\
  (link <$> conns_ (run (market_example 1) market_silence)) = [mkLink (Some 3%nat) 4 [WRead 2; WResolve] false false 1000].
Proof. split; by vm_compute. Qed.
Lemma ws_connections_live_witness :
  exists c op, conns_ (run (market_example 2) failed_second) !! 1%nat = Some c /\ op ∈ ops (link c) /\ chain (link c) op = true.
Proof.
  assert (exists c, conns_ (run (market_example 2) failed_second) !! 1%nat = Some c /\ reconnecting (link c) = false) as (c & Hc & Hr)
    by (eexists; split; [vm_compute; reflexivity|reflexivity]).
  destruct (ws_connections_live (market_example 2) failed_second 1 c Hc) as [[Hs|H] _]; [by vm_compute|by vm_compute| |].
  - assert (staggered (run (market_example 2) failed_second) = []) as E by (by vm_compute). rewrite E in Hs. destruct (not_elem_of_nil 1%nat Hs).
  - rewrite Hr in H. destruct H as (op & H1 & H2). eauto.
Defined.
