(* ===== verification/Watcher.v ===== *)
(** The watcher of the user interface: [src/ui_bridge/series_rolling_fsm.cpp],
    [src/ui_bridge/watch_manager.cpp], [src/ui_bridge/btc_series_registry.cpp],
    [src/ui_bridge/watcher_book_store.cpp], [src/ui_bridge/watcher_types.h].

    The state machine of a watched series, the reference-counted subscriptions, the
    known markets of each series and the books from which a merged ladder is shown.
    The arrays over the two time frames are the record [ByTf].  [std::sort] does not
    say how it orders equal prices: the class [LevelSort].

    Shown: the state machine follows its published transition table, and is
    disconnected exactly when nobody watches; every book keeps its sides strictly
    ordered; the merged ladder is, level by level, the sum of the UP book and the
    mirrored DOWN book, best prices first. *)
From Stdlib Require Import Sorted.
From S2P Require Import Prelude Types Slots.

(** ** Arrays over the time frames *)
Record ByTf (A : Type) := mkByTf { by_5m : A; by_15m : A }.
Arguments mkByTf {A} _ _.
Arguments by_5m {A} _.
Arguments by_15m {A} _.
Definition at_tf {A} (tf : BtcTimeframe) (e : ByTf A) : A := match tf with BTC_5M => by_5m e | BTC_15M => by_15m e end.
Definition set_tf {A} (tf : BtcTimeframe) (a : A) (e : ByTf A) : ByTf A :=
  match tf with BTC_5M => mkByTf a (by_15m e) | BTC_15M => mkByTf (by_5m e) a end.
Definition kTimeframes : list BtcTimeframe := [BTC_5M; BTC_15M].

Lemma at_set_tf {A} tf tf' (a : A) e : at_tf tf' (set_tf tf a e) = if decide (tf = tf') then a else at_tf tf' e.
Proof. by destruct tf, tf'. Qed.
Lemma at_set_eq {A} tf (a : A) e : at_tf tf (set_tf tf a e) = a.
Proof. by destruct tf. Qed.
#[export] Hint Rewrite @at_set_eq : trading.

(** ** The state machine of a series *)
Module WatcherState.
Inductive WatcherState := DISCONNECTED | CONNECTING | CONNECTED | STALE | ROLL_PENDING | ROLLING.
#[export] Instance WatcherState_eq_dec : EqDecision WatcherState.
Proof. solve_decision. Defined.
End WatcherState.
Export (hints) WatcherState.
Abbreviation WatcherState := WatcherState.WatcherState.

Module SeriesRollingFsm.
(** The new state, and whether it changed. *)
Definition on_subscribe (st : WatcherState) : WatcherState * bool :=
  if negb (bool_decide (st = WatcherState.DISCONNECTED)) then (st, false) else (WatcherState.CONNECTING, true).
Definition on_unsubscribe (st : WatcherState) : WatcherState * bool :=
  if bool_decide (st = WatcherState.DISCONNECTED) then (st, false) else (WatcherState.DISCONNECTED, true).
Definition on_ws_connected (st : WatcherState) : WatcherState * bool :=
  if negb (bool_decide (st = WatcherState.CONNECTING)) then (st, false) else (WatcherState.CONNECTED, true).
Definition on_ws_stale (st : WatcherState) : WatcherState * bool :=
  if negb (bool_decide (st = WatcherState.CONNECTED)) then (st, false) else (WatcherState.STALE, true).
Definition on_ws_recovered (st : WatcherState) : WatcherState * bool :=
  if negb (bool_decide (st = WatcherState.STALE)) then (st, false) else (WatcherState.CONNECTED, true).
Definition on_market_closed (next_exists : bool) (st : WatcherState) : WatcherState * bool :=
  if negb (bool_decide (st = WatcherState.CONNECTED)) && negb (bool_decide (st = WatcherState.STALE)) then (st, false)
  else (if next_exists then WatcherState.ROLLING else WatcherState.ROLL_PENDING, true).
Definition on_next_discovered (st : WatcherState) : WatcherState * bool :=
  if negb (bool_decide (st = WatcherState.ROLL_PENDING)) then (st, false) else (WatcherState.ROLLING, true).
Definition on_switch_complete (st : WatcherState) : WatcherState * bool :=
  if negb (bool_decide (st = WatcherState.ROLLING)) then (st, false) else (WatcherState.CONNECTING, true).

Definition is_active (st : WatcherState) : bool := negb (bool_decide (st = WatcherState.DISCONNECTED)).
Definition needs_ws_connection (st : WatcherState) : bool := bool_decide (st = WatcherState.CONNECTING).
Definition is_rolling (st : WatcherState) : bool := bool_decide (st = WatcherState.ROLLING).
Definition is_waiting_for_next (st : WatcherState) : bool := bool_decide (st = WatcherState.ROLL_PENDING).

Inductive Input := Subscribe | Unsubscribe | WsConnected | WsStale | WsRecovered | MarketClosed (next_exists : bool)
  | NextDiscovered | SwitchComplete.
Definition input (i : Input) : WatcherState -> WatcherState * bool :=
  match i with
  | Subscribe => on_subscribe | Unsubscribe => on_unsubscribe | WsConnected => on_ws_connected | WsStale => on_ws_stale
  | WsRecovered => on_ws_recovered | MarketClosed n => on_market_closed n | NextDiscovered => on_next_discovered
  | SwitchComplete => on_switch_complete
  end.

(** The transition table of the header's comment. *)
Inductive documented : WatcherState -> Input -> WatcherState -> Prop :=
  | doc_subscribe : documented WatcherState.DISCONNECTED Subscribe WatcherState.CONNECTING
  | doc_connected : documented WatcherState.CONNECTING WsConnected WatcherState.CONNECTED
  | doc_stale : documented WatcherState.CONNECTED WsStale WatcherState.STALE
  | doc_recovered : documented WatcherState.STALE WsRecovered WatcherState.CONNECTED
  | doc_closed_next : documented WatcherState.CONNECTED (MarketClosed true) WatcherState.ROLLING
  | doc_closed : documented WatcherState.CONNECTED (MarketClosed false) WatcherState.ROLL_PENDING
  | doc_next : documented WatcherState.ROLL_PENDING NextDiscovered WatcherState.ROLLING
  | doc_switch : documented WatcherState.ROLLING SwitchComplete WatcherState.CONNECTING
  | doc_unsubscribe st : st <> WatcherState.DISCONNECTED -> documented st Unsubscribe WatcherState.DISCONNECTED.

(** The machine follows the table, with one transition the table does not list: a
    stale series rolls when its market closes.  An input that does not apply changes
    nothing and says so. *)
Theorem fsm_follows_table (i : Input) (st : WatcherState) :
  let '(st', changed) := input i st in
  if changed then documented st i st' \/ (st = WatcherState.STALE /\ exists n, i = MarketClosed n)
  else st' = st /\ forall st'', ~ documented st i st''.
Proof.
  destruct i as [| | | | | []| |], st; vm_compute; first
    [by left; constructor | right; by eauto | split; [done|]; intros st'' Hd; inversion Hd; congruence | idtac].
Qed.
End SeriesRollingFsm.
Import SeriesRollingFsm.

(** ** Known markets *)
Record SeriesMarketInfo := mkSeriesMarketInfo {
  sm_condition_id : string;
  sm_token_id_up : string;
  sm_token_id_down : string;
  sm_is_closed : bool }.
Definition SeriesMarketInfo_default : SeriesMarketInfo := mkSeriesMarketInfo "" "" "" false.
(** The setters keep 127 characters, and the buffers are read up to the first NUL. *)
Fixpoint c_str (s : string) : string :=
  match s with
  | EmptyString => EmptyString
  | String c s => if (Z.of_N (Ascii.N_of_ascii c) =? 0) then EmptyString else String c (c_str s)
  end.
Definition clip127 (s : string) : string := c_str (String.substring 0 127 s).
Definition series_market_info (condition_id up down : string) (closed : bool) : SeriesMarketInfo :=
  mkSeriesMarketInfo (clip127 condition_id) (clip127 up) (clip127 down) closed.
Definition sm_empty (m : SeriesMarketInfo) : bool := negb (nonempty (sm_condition_id m)).

Module BtcSeriesRegistry.
Record Entry := mkEntry {
  current_ : SeriesMarketInfo; next_market_ : SeriesMarketInfo; has_current_ : bool; has_next_market_ : bool }.
Definition Entry_default : Entry := mkEntry SeriesMarketInfo_default SeriesMarketInfo_default false false.
Definition Registry : Type := ByTf Entry.
Definition Registry_new : Registry := mkByTf Entry_default Entry_default.
Implicit Types (r : Registry).

Definition update_from_discovery tf (current : SeriesMarketInfo) (next : option SeriesMarketInfo) r : Registry :=
  set_tf tf (mkEntry current (default SeriesMarketInfo_default next) true (match next with Some _ => true | None => false end)) r.
Definition current tf r : option SeriesMarketInfo := if has_current_ (at_tf tf r) then Some (current_ (at_tf tf r)) else None.
Definition next tf r : option SeriesMarketInfo := if has_next_market_ (at_tf tf r) then Some (next_market_ (at_tf tf r)) else None.
Definition has_next tf r : bool := has_next_market_ (at_tf tf r).
Definition promote_next tf r : Registry :=
  if negb (has_next_market_ (at_tf tf r)) then r
  else set_tf tf (mkEntry (next_market_ (at_tf tf r)) SeriesMarketInfo_default true false) r.
Definition mark_closed tf r : Registry :=
  let e := at_tf tf r in
  if has_current_ e then set_tf tf (e <| current_ := (current_ e) <| sm_is_closed := true |> |>) r else r.
Definition clear tf r : Registry := set_tf tf Entry_default r.
Definition has_current tf r : bool := has_current_ (at_tf tf r).

Lemma update_current tf c n r : current tf (update_from_discovery tf c n r) = Some c.
Proof. unfold current, update_from_discovery. by rewrite at_set_eq. Qed.
Lemma update_next tf c n r : next tf (update_from_discovery tf c n r) = n.
Proof. unfold next, update_from_discovery. rewrite at_set_eq. by destruct n. Qed.
Lemma promote_current tf r : current tf (promote_next tf r) = match next tf r with Some n => Some n | None => current tf r end.
Proof. unfold current, promote_next, next. destruct (has_next_market_ (at_tf tf r)) eqn:E; simpl; [by rewrite at_set_eq|done]. Qed.
End BtcSeriesRegistry.
Abbreviation Registry := BtcSeriesRegistry.Registry.

(** ** Subscriptions *)
Module WatchManager.
Record WatchEntry := mkWatchEntry { fsm : WatcherState; watchers_count : Z; last_book_update_ns : Z }.
Definition WatchManager : Type := ByTf WatchEntry.
Definition WatchManager_new : WatchManager :=
  mkByTf (mkWatchEntry WatcherState.DISCONNECTED 0 0) (mkWatchEntry WatcherState.DISCONNECTED 0 0).
Implicit Types (m : WatchManager) (e : WatchEntry).

(** The state machine of an entry takes an input. *)
Definition drive (i : Input) e : WatchEntry := e <| fsm := (input i (fsm e)).1 |>.
Definition on_entry tf (f : WatchEntry -> WatchEntry) m : WatchManager := set_tf tf (f (at_tf tf m)) m.

Definition subscribe tf m : WatchManager * bool :=
  let e := (at_tf tf m) <| watchers_count ::= Z.succ |> in
  if watchers_count e =? 1 then (set_tf tf ((drive Subscribe e) <| last_book_update_ns := 0 |>) m, true) else (set_tf tf e m, false).
Definition unsubscribe tf m : WatchManager * bool :=
  if watchers_count (at_tf tf m) <=? 0 then (m, false) else
  let e := (at_tf tf m) <| watchers_count ::= Z.pred |> in
  if watchers_count e =? 0 then (set_tf tf ((drive Unsubscribe e) <| last_book_update_ns := 0 |>) m, true) else (set_tf tf e m, false).
Definition is_subscribed tf m : bool := watchers_count (at_tf tf m) >? 0.
Definition watcher_count tf m : Z := watchers_count (at_tf tf m).

Definition tick_entry (now stale_threshold_ns : Z) e : WatchEntry :=
  if watchers_count e <=? 0 then e else
  if bool_decide (fsm e = WatcherState.CONNECTED) && (last_book_update_ns e >? 0) then
    if now - last_book_update_ns e >? stale_threshold_ns then drive WsStale e else e
  else if bool_decide (fsm e = WatcherState.STALE) && (last_book_update_ns e >? 0) then
    if now - last_book_update_ns e <=? stale_threshold_ns then drive WsRecovered e else e
  else e.
Definition tick (now stale_threshold_ns : Z) m : WatchManager :=
  mkByTf (tick_entry now stale_threshold_ns (by_5m m)) (tick_entry now stale_threshold_ns (by_15m m)).
Definition on_book_data_received tf (now : Z) m : WatchManager := on_entry tf (fun e => e <| last_book_update_ns := now |>) m.
Definition last_book_update tf m : Z := last_book_update_ns (at_tf tf m).

Definition asset_ids_of (info : SeriesMarketInfo) : list string :=
  (if nonempty (sm_token_id_up info) then [sm_token_id_up info] else []) ++
  (if nonempty (sm_token_id_down info) then [sm_token_id_down info] else []).
Definition active_asset_ids (registry : Registry) m : list string :=
  flat_map (fun tf =>
    if watchers_count (at_tf tf m) <=? 0 then [] else
    match BtcSeriesRegistry.current tf registry with
    | Some info => if sm_empty info then [] else asset_ids_of info
    | None => []
    end) kTimeframes.
Definition subscribed_timeframes m : list BtcTimeframe := filter (fun tf => is_subscribed tf m = true) kTimeframes.
Definition active_count m : nat := length (subscribed_timeframes m).

(** The state machine is disconnected exactly when nobody watches. *)
Definition entry_ok e : Prop := 0 <= watchers_count e /\ (fsm e = WatcherState.DISCONNECTED <-> watchers_count e = 0).
Definition manager_ok m : Prop := forall tf, entry_ok (at_tf tf m).

Lemma manager_set tf e m : manager_ok m -> entry_ok e -> manager_ok (set_tf tf e m).
Proof. intros Hm He tf'. rewrite at_set_tf. by case_decide. Qed.
(** Only (un)subscribing connects and disconnects. *)
Definition internal (i : Input) : bool := match i with Subscribe | Unsubscribe => false | _ => true end.
Lemma drive_ok i e : internal i = true -> entry_ok e -> entry_ok (drive i e).
Proof. intros Hi [Hc Hf]. split; [done|]. destruct e as [st c l], i as [| | | | | []| |], st; simpl in *; try done; naive_solver. Qed.

Inductive Op := OSubscribe (tf : BtcTimeframe) | OUnsubscribe (tf : BtcTimeframe) | OTick (now threshold : Z)
  | OBookData (tf : BtcTimeframe) (now : Z) | OInput (tf : BtcTimeframe) (i : Input).
Definition op (o : Op) m : WatchManager :=
  match o with
  | OSubscribe tf => (subscribe tf m).1
  | OUnsubscribe tf => (unsubscribe tf m).1
  | OTick now threshold => tick now threshold m
  | OBookData tf now => on_book_data_received tf now m
  | OInput tf i => if internal i then on_entry tf (drive i) m else m
  end.

Lemma tick_entry_ok now th e : entry_ok e -> entry_ok (tick_entry now th e).
Proof. intros He. unfold tick_entry. repeat case_match; try done; by apply drive_ok. Qed.
Lemma op_ok o m : manager_ok m -> manager_ok (op o m).
Proof.
  intros Hm. destruct o as [tf|tf|now th|tf now|tf i]; simpl.
  - destruct (Hm tf) as [Hc Hf]. unfold subscribe. cbv zeta. destruct (at_tf tf m) as [st c l]. simpl in *.
    destruct (Z.eqb_spec (Z.succ c) 1); simpl; apply manager_set; try done; (split; simpl; [lia|]).
    + assert (c = 0) as -> by lia. rewrite (proj2 Hf eq_refl). done.
    + rewrite Hf. lia.
  - destruct (Hm tf) as [Hc Hf]. unfold unsubscribe. cbv zeta. destruct (at_tf tf m) as [st c l]. simpl in *.
    destruct (Z.leb_spec c 0); [done|]. destruct (Z.eqb_spec (Z.pred c) 0) as [E|]; simpl; apply manager_set; try done; (split; simpl; [lia|]).
    + rewrite E. destruct st; naive_solver.
    + rewrite Hf. lia.
  - intros []; simpl; apply tick_entry_ok; [apply (Hm BTC_5M)|apply (Hm BTC_15M)].
  - unfold on_book_data_received, on_entry. apply manager_set; [done|]. apply (Hm tf).
  - case_match; [|done]. unfold on_entry. apply manager_set; [done|]. by apply drive_ok.
Qed.

(** Whatever is watched, received and driven, a series' machine is disconnected
    exactly when nobody watches it. *)
Theorem watched_iff_connected (ops : list Op) tf :
  let m := foldl (fun m o => op o m) WatchManager_new ops in
  fsm (at_tf tf m) = WatcherState.DISCONNECTED <-> is_subscribed tf m = false.
Proof.
  assert (forall m, manager_ok m -> manager_ok (foldl (fun m o => op o m) m ops)) as Hall
    by (induction ops as [|o ops IH]; intros m Hm; [done|]; apply IH, op_ok, Hm).
  cbv zeta. destruct (Hall WatchManager_new) with (tf := tf) as [Hc Hf]; [by intros []|].
  rewrite Hf. unfold is_subscribed. rewrite Z.gtb_ltb, Z.ltb_ge. lia.
Qed.
End WatchManager.

(** ** Books *)
Record WatcherBookLevel := mkLevel { wl_price : Z; wl_size : Z }.
Implicit Types (l : list WatcherBookLevel).

(** The order of a side: bids descending, asks ascending. *)
Definition better (is_bid : bool) (a b : WatcherBookLevel) : bool :=
  if is_bid then wl_price a >? wl_price b else wl_price a <? wl_price b.
Definition not_worse (is_bid : bool) (a b : WatcherBookLevel) : Prop := better is_bid b a = false.

(** [std::sort] *)
Class LevelSort := {
  level_sort : bool -> list WatcherBookLevel -> list WatcherBookLevel;
  level_sort_perm : forall side l, level_sort side l ≡ₚ l;
  level_sort_sorted : forall side l, StronglySorted (not_worse side) (level_sort side l) }.

Record TokenBook := mkTokenBook { tb_bids : list WatcherBookLevel; tb_asks : list WatcherBookLevel }.
Definition TokenBook_default : TokenBook := mkTokenBook [] [].

(** The first level at a price is removed; or set to a new size, if there is one. *)
Fixpoint remove_level (price : Z) l : list WatcherBookLevel :=
  match l with
  | [] => []
  | x :: l => if wl_price x =? price then l else x :: remove_level price l
  end.
Fixpoint update_level (price size : Z) l : option (list WatcherBookLevel) :=
  match l with
  | [] => None
  | x :: l => if wl_price x =? price then Some (mkLevel price size :: l) else (cons x) <$> update_level price size l
  end.
(** [lower_bound] and [insert]: before the first level that is not better. *)
Fixpoint insert_level (is_bid : bool) (level : WatcherBookLevel) l : list WatcherBookLevel :=
  match l with
  | [] => [level]
  | x :: l' => if better is_bid x level then x :: insert_level is_bid level l' else level :: l
  end.
Definition change_level (is_bid : bool) (price new_size : Z) l : list WatcherBookLevel :=
  if new_size =? 0 then remove_level price l else
  match update_level price new_size l with
  | Some l' => l'
  | None => insert_level is_bid (mkLevel price new_size) l
  end.

Section Books.
Context `{LevelSort}.

Record WatcherBookStore := mkWatcherBookStore { wb_books_ : gmap string TokenBook }.
Definition WatcherBookStore_new : WatcherBookStore := mkWatcherBookStore ∅.
Implicit Types (st : WatcherBookStore) (token_id : string).

Definition book_of token_id st : TokenBook := default TokenBook_default (wb_books_ st !! token_id).
Definition watcher_apply_snapshot token_id (bids asks : list WatcherBookLevel) st : WatcherBookStore :=
  st <| wb_books_ ::= <[token_id := mkTokenBook (level_sort true bids) (level_sort false asks)]> |>.
Definition watcher_apply_price_change token_id (price new_size : Z) (is_bid : bool) st : WatcherBookStore :=
  let b := book_of token_id st in
  st <| wb_books_ ::= <[token_id := if is_bid then mkTokenBook (change_level true price new_size (tb_bids b)) (tb_asks b)
                                    else mkTokenBook (tb_bids b) (change_level false price new_size (tb_asks b))]> |>.
Definition clear_book token_id st : WatcherBookStore := st <| wb_books_ ::= delete token_id |>.
Definition has_book token_id st : bool := match wb_books_ st !! token_id with Some _ => true | None => false end.

Definition complement_levels l : list WatcherBookLevel :=
  omap (fun x => let comp := kPriceMax - wl_price x in
                 if (comp >=? kPriceMin) && (comp <=? kPriceMax) then Some (mkLevel comp (wl_size x)) else None) l.
(** Sizes at a known price are added, other levels appended. *)
Fixpoint add_level (s : WatcherBookLevel) (dest : list WatcherBookLevel) : list WatcherBookLevel :=
  match dest with
  | [] => [s]
  | d :: dest => if wl_price d =? wl_price s then mkLevel (wl_price d) (wl_size d + wl_size s) :: dest else d :: add_level s dest
  end.
Definition merge_levels (dest src : list WatcherBookLevel) : list WatcherBookLevel := foldl (fun d s => add_level s d) dest src.

Record MergedLadder := mkMergedLadder { ml_buy_levels : list WatcherBookLevel; ml_sell_levels : list WatcherBookLevel }.
Definition truncate (max_depth : Z) l : list WatcherBookLevel := if max_depth >? 0 then take (Z.to_nat max_depth) l else l.
Definition build_merged_ladder (token_id_up token_id_down : string) (max_depth : Z) st : MergedLadder :=
  let up := book_of token_id_up st in
  let down := book_of token_id_down st in
  let buy := merge_levels (tb_bids up) (complement_levels (tb_asks down)) in
  let sell := merge_levels (tb_asks up) (complement_levels (tb_bids down)) in
  mkMergedLadder (truncate max_depth (level_sort true buy)) (truncate max_depth (level_sort false sell)).

(** *** The merged ladder *)

(** The quantity of a side at a price. *)
Definition qty_at (p : Z) l : Z := sum_list_Z (fun x => if wl_price x =? p then wl_size x else 0) l.
Definition distinct l : Prop := NoDup (wl_price <$> l).

Lemma qty_at_perm p l l' : l ≡ₚ l' -> qty_at p l = qty_at p l'.
Proof. unfold qty_at. induction 1; simpl; lia. Qed.
Lemma qty_at_add p s dest : qty_at p (add_level s dest) = qty_at p dest + (if wl_price s =? p then wl_size s else 0).
Proof.
  unfold qty_at. induction dest as [|d dest IH]; simpl; [lia|]. destruct (Z.eqb_spec (wl_price d) (wl_price s)) as [E|]; simpl.
  - rewrite E. case_match; lia.
  - rewrite IH. lia.
Qed.
Lemma qty_at_merge p dest src : qty_at p (merge_levels dest src) = qty_at p dest + qty_at p src.
Proof.
  unfold merge_levels. revert dest. induction src as [|s src IH]; intros dest; cbn [foldl]; [change (qty_at p []) with 0; lia|].
  rewrite IH, qty_at_add. change (qty_at p (s :: src)) with ((if wl_price s =? p then wl_size s else 0) + qty_at p src). lia.
Qed.
Lemma complement_cons x l : complement_levels (x :: l) =
  (if (kPriceMin <=? kPriceMax - wl_price x) && (kPriceMax - wl_price x <=? kPriceMax)
   then [mkLevel (kPriceMax - wl_price x) (wl_size x)] else []) ++ complement_levels l.
Proof.
  unfold complement_levels. unfold omap at 1. cbn [list_omap]. cbv zeta. rewrite Z.geb_leb. destruct (_ && _); reflexivity.
Qed.
Lemma qty_at_complement p l : kPriceMin <= p <= kPriceMax -> qty_at p (complement_levels l) = qty_at (kPriceMax - p) l.
Proof.
  intros Hp. induction l as [|x l IH]; [done|]. rewrite complement_cons.
  change (qty_at (kPriceMax - p) (x :: l)) with ((if wl_price x =? kPriceMax - p then wl_size x else 0) + qty_at (kPriceMax - p) l).
  rewrite <- IH. destruct (_ && _) eqn:E.
  - unfold qty_at at 1. simpl. fold (qty_at p (complement_levels l)). destruct (Z.eqb_spec (kPriceMax - wl_price x) p), (Z.eqb_spec (wl_price x) (kPriceMax - p)); lia.
  - rewrite app_nil_l. destruct (Z.eqb_spec (wl_price x) (kPriceMax - p)) as [E'|]; [|lia]. apply andb_false_iff in E as [E|E]; bool_to_prop; lia.
Qed.

Lemma add_level_prices s dest q : q ∈ wl_price <$> add_level s dest <-> q = wl_price s \/ q ∈ wl_price <$> dest.
Proof.
  induction dest as [|d dest IH]; simpl; [set_solver|]. destruct (Z.eqb_spec (wl_price d) (wl_price s)) as [E|]; simpl.
  - rewrite !elem_of_cons. rewrite <- E. tauto.
  - rewrite !elem_of_cons, IH. tauto.
Qed.
Lemma distinct_add s dest : distinct dest -> distinct (add_level s dest).
Proof.
  unfold distinct. induction dest as [|d dest IH]; simpl; intros Hd; [by repeat constructor; apply not_elem_of_nil|].
  apply NoDup_cons in Hd as [Hn Hd]. destruct (Z.eqb_spec (wl_price d) (wl_price s)); simpl; apply NoDup_cons; [done|].
  split; [|by apply IH]. rewrite add_level_prices. intros [?|?]; [done|done].
Qed.
Lemma distinct_merge dest src : distinct dest -> distinct (merge_levels dest src).
Proof. unfold merge_levels. revert dest. induction src as [|s src IH]; intros dest Hd; [done|]. apply IH, distinct_add, Hd. Qed.
Lemma distinct_perm l l' : l ≡ₚ l' -> distinct l -> distinct l'.
Proof. intros Hp Hd. unfold distinct in *. by rewrite <- Hp. Qed.

(** Strictly ordered: best price first, every price once. *)
Definition ordered (is_bid : bool) l : Prop := StronglySorted (fun a b => better is_bid a b = true) l.
Lemma not_worse_distinct side a b : not_worse side a b -> wl_price a <> wl_price b -> better side a b = true.
Proof. unfold not_worse, better. destruct side; bool_to_prop; lia. Qed.
Lemma sorted_distinct side l : StronglySorted (not_worse side) l -> distinct l -> ordered side l.
Proof.
  unfold ordered, distinct. induction 1 as [|x l Hs IH Hall]; simpl; intros Hd; constructor; apply NoDup_cons in Hd as [Hn Hd]; [by apply IH|].
  rewrite Forall_forall in Hall |- *. intros y Hy. apply not_worse_distinct; [by apply Hall|].
  intros E. apply Hn. rewrite E. by apply list_elem_of_fmap_2.
Qed.
Lemma ordered_distinct side l : ordered side l -> distinct l.
Proof.
  unfold ordered, distinct. induction 1 as [|x l Hs IH Hall]; simpl; [constructor|]. apply NoDup_cons. split; [|done].
  intros Hin. apply list_elem_of_fmap in Hin as (y & E & Hy). rewrite Forall_forall in Hall. specialize (Hall y Hy).
  unfold better in Hall. rewrite E in Hall. destruct side; bool_to_prop; lia.
Qed.

(** *** The books stay ordered *)
Definition book_ok (b : TokenBook) : Prop := ordered true (tb_bids b) /\ ordered false (tb_asks b).
Definition store_ok st : Prop := map_Forall (fun _ b => book_ok b) (wb_books_ st).

Lemma better_trans side a b c : better side a b = true -> better side b c = true -> better side a c = true.
Proof. unfold better. destruct side; rewrite ?Z.gtb_ltb; bool_to_prop; lia. Qed.
Lemma remove_ordered side p l : ordered side l -> ordered side (remove_level p l) /\ Forall (fun y => y ∈ l) (remove_level p l).
Proof.
  unfold ordered. induction 1 as [|x l Hs IH Hall]; simpl; [split; constructor|]. destruct IH as [IH1 IH2].
  case_match; [split; [done|]; apply Forall_forall; intros y Hy; by right|].
  split; [constructor; [done|]|constructor; [by left|eapply Forall_impl; [exact IH2|]; intros y Hy; by right]].
  rewrite Forall_forall in *. auto.
Qed.
Lemma update_ordered side p q l l' : ordered side l -> update_level p q l = Some l' -> ordered side l' /\ wl_price <$> l' = wl_price <$> l.
Proof.
  unfold ordered. intros Hs. revert l'. induction Hs as [|x l Hs IH Hall]; intros l' Hu; simpl in Hu; [done|].
  destruct (Z.eqb_spec (wl_price x) p) as [<-|].
  - injection Hu as <-. split; [|done]. constructor; [done|]. eapply Forall_impl; [exact Hall|]. by intros y.
  - destruct (update_level p q l) as [l2|] eqn:E; [|done]. injection Hu as <-. destruct (IH l2 eq_refl) as [IH1 IH2]. split; [|by rewrite !fmap_cons, IH2].
    constructor; [done|]. rewrite Forall_forall in Hall |- *. intros y Hy.
    assert (wl_price y ∈ wl_price <$> l) as Hin by (rewrite <- IH2; by apply list_elem_of_fmap_2).
    apply list_elem_of_fmap in Hin as (z & Ez & Hz). specialize (Hall z Hz). unfold better in *. by rewrite Ez.
Qed.
Lemma update_none p q l : update_level p q l = None -> Forall (fun y => wl_price y <> p) l.
Proof.
  induction l as [|x l IH]; simpl; [constructor|]. destruct (Z.eqb_spec (wl_price x) p); [done|]. destruct (update_level p q l); [done|].
  intros _. constructor; [done|by apply IH].
Qed.
Lemma insert_ordered side x l : ordered side l -> Forall (fun y => wl_price y <> wl_price x) l -> ordered side (insert_level side x l).
Proof.
  unfold ordered. induction 1 as [|y l Hs IH Hall]; intros Hne; simpl; [by repeat constructor|]. apply Forall_cons in Hne as [Hy Hne].
  destruct (better side y x) eqn:E.
  - constructor; [by apply IH|]. rewrite Forall_forall in Hall |- *. intros z Hz.
    assert (forall l', z ∈ insert_level side x l' -> z = x \/ z ∈ l') as Hin.
    { induction l' as [|w l' IHl]; simpl; [set_solver|]. case_match; rewrite !elem_of_cons; naive_solver. }
    destruct (Hin l Hz) as [->|?]; [done|by apply Hall].
  - assert (better side x y = true) as Hxy by (apply not_worse_distinct; [exact E|congruence]).
    constructor; [by constructor|]. constructor; [done|]. eapply Forall_impl; [exact Hall|]. intros z Hz. by eapply better_trans.
Qed.
Lemma change_ordered side p q l : ordered side l -> ordered side (change_level side p q l).
Proof.
  intros Hl. unfold change_level. case_match; [by apply remove_ordered|]. destruct (update_level p q l) as [l'|] eqn:E.
  - by destruct (update_ordered side p q l l' Hl E).
  - apply insert_ordered; [done|]. exact (update_none _ _ _ E).
Qed.

Inductive BookOp := BSnapshot (token_id : string) (bids asks : list WatcherBookLevel)
  | BChange (token_id : string) (price new_size : Z) (is_bid : bool) | BClear (token_id : string).
Definition book_op (o : BookOp) st : WatcherBookStore :=
  match o with
  | BSnapshot t bids asks => watcher_apply_snapshot t bids asks st
  | BChange t p q is_bid => watcher_apply_price_change t p q is_bid st
  | BClear t => clear_book t st
  end.
(** Snapshots list every price once. *)
Definition book_op_ok (o : BookOp) : Prop := match o with BSnapshot _ bids asks => distinct bids /\ distinct asks | _ => True end.

Lemma book_of_ok t st : store_ok st -> book_ok (book_of t st).
Proof.
  intros Hst. unfold book_of. destruct (wb_books_ st !! t) as [b|] eqn:E; simpl; [by apply (Hst t)|]. split; constructor.
Qed.
Lemma sort_ordered side l : distinct l -> ordered side (level_sort side l).
Proof. intros Hd. apply sorted_distinct; [apply level_sort_sorted|]. eapply distinct_perm; [symmetry; apply level_sort_perm|done]. Qed.
Lemma book_op_store_ok o st : book_op_ok o -> store_ok st -> store_ok (book_op o st).
Proof.
  intros Ho Hst. destruct o as [t bids asks|t p q is_bid|t]; simpl.
  - apply map_Forall_insert_2; [|done]. destruct Ho as [Hb Ha]. split; by apply sort_ordered.
  - apply map_Forall_insert_2; [|done]. destruct (book_of_ok t st Hst) as [Hb Ha]. destruct is_bid; split; simpl; try done; by apply change_ordered.
  - by apply map_Forall_delete.
Qed.

(** C35: the ladder that is shown is the merge of the two books.  After any sequence of
    snapshots (with distinct prices), changes and clears, each side of the ladder is
    the best [max_depth] levels of a side that is strictly ordered, best price first,
    and has at every price exactly the quantity of the UP book there plus the
    quantity of the opposite side of the DOWN book at the complementary price. *)
Theorem merged_ladder_correct (ops : list BookOp) (up down : string) (max_depth : Z) (Hops : Forall book_op_ok ops) :
  let st := foldl (fun st o => book_op o st) WatcherBookStore_new ops in
  let ladder := build_merged_ladder up down max_depth st in
  exists buy sell, ml_buy_levels ladder = truncate max_depth buy /\ ml_sell_levels ladder = truncate max_depth sell /\
    ordered true buy /\ ordered false sell /\
    forall p, kPriceMin <= p <= kPriceMax ->
      qty_at p buy = qty_at p (tb_bids (book_of up st)) + qty_at (kPriceMax - p) (tb_asks (book_of down st)) /\
      qty_at p sell = qty_at p (tb_asks (book_of up st)) + qty_at (kPriceMax - p) (tb_bids (book_of down st)).
Proof.
  cbv zeta. assert (store_ok (foldl (fun st o => book_op o st) WatcherBookStore_new ops)) as Hst.
  { assert (store_ok WatcherBookStore_new) as H0 by apply map_Forall_empty. revert H0. generalize WatcherBookStore_new.
    induction Hops as [|o ops Ho _ IH]; intros st Hst; [done|]. by apply IH, book_op_store_ok. }
  set (st := foldl _ _ _) in *. clearbody st. destruct (book_of_ok up st Hst) as [Hub Hua].
  eexists _, _. split; [reflexivity|]. split; [reflexivity|]. split; [|split].
  - apply sort_ordered, distinct_merge. exact (ordered_distinct true _ Hub).
  - apply sort_ordered, distinct_merge. exact (ordered_distinct false _ Hua).
  - intros p Hp. rewrite !(qty_at_perm p _ _ (level_sort_perm _ _)), !qty_at_merge, !qty_at_complement by done. done.
Qed.
End Books.

(** ** Witnesses *)

(** Sorting by insertion. *)
Definition insertion_sort (side : bool) l : list WatcherBookLevel := foldr (insert_level side) [] l.
Lemma insert_perm side x l : insert_level side x l ≡ₚ x :: l.
Proof. induction l as [|y l IH]; simpl; [done|]. case_match; [|done]. rewrite IH. apply Permutation_swap. Qed.
Lemma insert_sorted side x l : StronglySorted (not_worse side) l -> StronglySorted (not_worse side) (insert_level side x l).
Proof.
  assert (forall a b c, not_worse side a b -> not_worse side b c -> not_worse side a c) as Htrans
    by (unfold not_worse, better; destruct side; intros a b c; rewrite ?Z.gtb_ltb; bool_to_prop; lia).
  induction 1 as [|y l Hs IH Hall]; simpl; [by repeat constructor|]. destruct (better side y x) eqn:E.
  - constructor; [done|]. rewrite insert_perm. constructor; [|done].
    unfold not_worse, better in *. destruct side; rewrite ?Z.gtb_ltb in *; bool_to_prop; lia.
  - constructor; [by constructor|]. constructor; [exact E|]. eapply Forall_impl; [exact Hall|]. intros z Hz. by eapply Htrans.
Qed.
#[refine] Definition sort_by_insertion : LevelSort := {| level_sort := insertion_sort |}.
Proof.
  - intros side l. induction l as [|x l IH]; simpl; [done|]. by rewrite insert_perm, IH.
  - intros side l. induction l as [|x l IH]; simpl; [constructor|]. by apply insert_sorted.
Defined.

Lemma merged_ladder_correct_witness :
  let ops := [BSnapshot "u" [mkLevel 4500 10; mkLevel 4800 5] [mkLevel 5200 7]; BSnapshot "d" [mkLevel 4700 3] [mkLevel 5200 4];
              BChange "u" 4600 2 true] in
  let st := foldl (fun st o => book_op (H := sort_by_insertion) o st) WatcherBookStore_new ops in
  build_merged_ladder (H := sort_by_insertion) "u" "d" 2 st =
    mkMergedLadder [mkLevel 4800 9; mkLevel 4600 2] [mkLevel 5200 7; mkLevel 5300 3] /\
  exists buy, ml_buy_levels (build_merged_ladder (H := sort_by_insertion) "u" "d" 2 st) = truncate 2 buy /\ ordered true buy.
Proof.
  cbv zeta. split; [vm_compute; reflexivity|].
  destruct (merged_ladder_correct (H := sort_by_insertion)
    [BSnapshot "u" [mkLevel 4500 10; mkLevel 4800 5] [mkLevel 5200 7]; BSnapshot "d" [mkLevel 4700 3] [mkLevel 5200 4]; BChange "u" 4600 2 true]
    "u" "d" 2) as (buy & sell & Hb & _ & Ho & _).
  - assert (forall l, bool_decide (NoDup (wl_price <$> l)) = true -> distinct l) as Hd by (intros l; apply bool_decide_eq_true_1).
    apply Forall_cons; split; [split; apply Hd; reflexivity|]. apply Forall_cons; split; [split; apply Hd; reflexivity|]. by apply Forall_singleton.
  - exists buy. split; [exact Hb|exact Ho].
Defined.
