(* ===== verification/UiMirror.v ===== *)
(** The scheduler's account view for the user interface: [on_user_order_event_for_ui],
    [on_user_trade_event_for_ui] and [on_exec_feedback_for_ui] of
    [src/scheduler/strategy_scheduler.cpp].  The periodic snapshot made
    from it is in [UiSnapshot.v].

    Three vectors are kept: working orders, closed orders (at most 128) and
    trades (at most 128).  Elements are removed by swapping with the last one.
    The sequence numbers are 64-bit counters; their wrap-around is left out.

    Shown: whatever events arrive, a record among the working orders is in the
    working state and a record among the closed ones is not, the histories stay
    bounded and no trade is listed twice; an order that ends leaves no working
    row under its identifiers and is the newest closed record. *)
From S2P Require Import Prelude Types Events WorkingOrderTracker.

Module UiOrderLifecycleState.
Inductive UiOrderLifecycleState := WORKING | FILLED | CANCELED_NO_FILL | CANCELED_WITH_FILL | REJECTED.
#[export] Instance UiOrderLifecycleState_eq_dec : EqDecision UiOrderLifecycleState.
Proof. solve_decision. Defined.
End UiOrderLifecycleState.
Export (hints) UiOrderLifecycleState.
Abbreviation UiOrderLifecycleState := UiOrderLifecycleState.UiOrderLifecycleState.

Definition kMaxUiClosedOrders : nat := 128.
Definition kMaxUiTrades : nat := 128.

Record UiOrderRecord := mkUiOrderRecord {
  uor_exchange_order_id : OrderId;
  uor_client_order_id : OrderId;
  uor_asset_id : AssetId;
  uor_market_id : AssetId;
  uor_side : Side;
  uor_price : Z;
  uor_original_size : Z;
  uor_filled_size : Z;
  uor_lifecycle_state : UiOrderLifecycleState;
  uor_is_live : bool;
  uor_is_pending : bool;
  uor_last_update_ts : Z;
  uor_update_seq : Z }.

Definition UiOrderRecord_default : UiOrderRecord :=
  mkUiOrderRecord "" "" "" "" BID 0 0 0 UiOrderLifecycleState.WORKING false false 0 0.
#[export] Instance UiOrderRecord_inhabited : Inhabited UiOrderRecord := populate UiOrderRecord_default.

Record UiTradeRecord := mkUiTradeRecord {
  utr_trade_id : TradeId;
  utr_order_id : OrderId;
  utr_asset_id : AssetId;
  utr_market_id : AssetId;
  utr_side : Side;
  utr_price : Z;
  utr_size : Z;
  utr_trade_status : TradeStatus;
  utr_last_update_ts : Z;
  utr_update_seq : Z }.

Definition UiTradeRecord_default : UiTradeRecord :=
  mkUiTradeRecord "" "" "" "" BID 0 0 TradeStatus.UNKNOWN 0 0.

Record UiMirror := mkUiMirror {
  ui_account_working_orders_ : list UiOrderRecord;
  ui_closed_orders_ : list UiOrderRecord;
  ui_trade_history_ : list UiTradeRecord;
  ui_order_update_seq_ : Z;
  ui_trade_update_seq_ : Z }.

Definition UiMirror_new : UiMirror := mkUiMirror [] [] [] 0 0.

(** ** Helpers of the anonymous namespace *)
Definition classify_lifecycle (status : OrderStatus) (filled_size : Z) : UiOrderLifecycleState :=
  match status with
  | OrderStatus.LIVE | OrderStatus.PARTIAL | OrderStatus.UNKNOWN => UiOrderLifecycleState.WORKING
  | OrderStatus.FILLED => UiOrderLifecycleState.FILLED
  | OrderStatus.CANCELED =>
      if filled_size >? 0 then UiOrderLifecycleState.CANCELED_WITH_FILL
      else UiOrderLifecycleState.CANCELED_NO_FILL
  | OrderStatus.FAILED => UiOrderLifecycleState.REJECTED
  end.

Definition same_non_empty (lhs rhs : OrderId) : bool := nonempty lhs && nonempty rhs && id_eqb lhs rhs.

Definition ids_match (exchange_a client_a exchange_b client_b : OrderId) : bool :=
  same_non_empty exchange_a exchange_b || same_non_empty client_a client_b ||
  same_non_empty exchange_a client_b || same_non_empty client_a exchange_b.

(** ** Vectors *)

(** Overwrite position [i] with the last element and drop the last. *)
Definition swap_pop {A} (i : nat) (l : list A) : list A :=
  match last l with
  | Some x => take (length l - 1) (<[i := x]> l)
  | None => l
  end.

(** The first index whose element satisfies [p]. *)
Fixpoint find_index {A} (p : A -> bool) (l : list A) : option nat :=
  match l with
  | [] => None
  | x :: l => if p x then Some O else S <$> find_index p l
  end.

(** The only index whose element satisfies [p], if it is the only one. *)
Fixpoint unique_index {A} (p : A -> bool) (i : nat) (candidate : option nat) (l : list A) : option nat :=
  match l with
  | [] => candidate
  | x :: l =>
      if p x then match candidate with Some _ => None | None => unique_index p (S i) (Some i) l end
      else unique_index p (S i) candidate l
  end.

(** Append to a bounded history, dropping the oldest entry when it overflows. *)
Definition push_bounded {A} (cap : nat) (x : A) (l : list A) : list A :=
  let l := l ++ [x] in if (cap <? length l)%nat then tail l else l.

Definition matches_target (target rec : UiOrderRecord) : bool :=
  ids_match (uor_exchange_order_id rec) (uor_client_order_id rec)
    (uor_exchange_order_id target) (uor_client_order_id target) ||
  (nonempty (uor_asset_id target) && id_eqb (uor_asset_id rec) (uor_asset_id target) &&
   side_eqb (uor_side rec) (uor_side target) && (uor_price rec =? uor_price target) &&
   (uor_original_size rec =? uor_original_size target)).

(** The loop from the last index down to zero. *)
Fixpoint remove_matching (p : UiOrderRecord -> bool) (n : nat) (l : list UiOrderRecord) : list UiOrderRecord :=
  match n with
  | O => l
  | S i => remove_matching p i (if p (l !!! i) then swap_pop i l else l)
  end.

Definition remove_matching_working (target : UiOrderRecord) (m : UiMirror) : UiMirror :=
  m <| ui_account_working_orders_ ::= fun l => remove_matching (matches_target target) (length l) l |>.

Definition upsert_closed (rec : UiOrderRecord) (m : UiMirror) : UiMirror :=
  m <| ui_closed_orders_ ::= fun l =>
         push_bounded kMaxUiClosedOrders rec
           (match find_index (matches_target rec) l with Some i => swap_pop i l | None => l end) |>.

Definition push_working (rec : UiOrderRecord) (m : UiMirror) : UiMirror :=
  m <| ui_account_working_orders_ ::= fun l => l ++ [rec] |>.

Definition set_working (i : nat) (rec : UiOrderRecord) (m : UiMirror) : UiMirror :=
  m <| ui_account_working_orders_ ::= <[i := rec]> |>.

(** ** Order updates *)

(** The identity of the order an event is about, completed from what is known. *)
Record Resolved := mkResolved {
  resolved_exchange_id : OrderId;
  resolved_client_id : OrderId;
  resolved_asset_id : AssetId;
  resolved_market_id : AssetId;
  resolved_side : Side;
  resolved_price : Z;
  resolved_original_size : Z;
  resolved_filled_size : Z }.

Definition resolved_of (ev : SchedulerEvent) : Resolved :=
  mkResolved (order_id ev) (client_order_id ev) (asset_id ev) (user_market_id ev) (user_side ev)
    (user_price ev) (user_original_size ev) (user_cumulative_filled ev).

(** Complete the empty fields from a known order; the larger fill wins. *)
Definition hydrate (exchange client asset market : string) (price original filled : Z) (r : Resolved) : Resolved :=
  mkResolved
    (if negb (nonempty (resolved_exchange_id r)) && nonempty exchange then exchange else resolved_exchange_id r)
    (if negb (nonempty (resolved_client_id r)) && nonempty client then client else resolved_client_id r)
    (if negb (nonempty (resolved_asset_id r)) && nonempty asset then asset else resolved_asset_id r)
    (if negb (nonempty (resolved_market_id r)) && nonempty market then market else resolved_market_id r)
    (resolved_side r)
    (if resolved_price r =? 0 then price else resolved_price r)
    (if resolved_original_size r <=? 0 then original else resolved_original_size r)
    (if filled >? resolved_filled_size r then filled else resolved_filled_size r).

(** Look up an order by client identifier, then by exchange identifier. *)
Definition tracker_by_ids (t : WorkingOrderTracker) (exchange client : OrderId) : option WorkingOrder :=
  match (if nonempty client then find_by_client_id client t else None) with
  | Some wo => Some wo
  | None => if nonempty exchange then find_by_exchange_id exchange t else None
  end.

Definition tracker_lookup (t : WorkingOrderTracker) (r : Resolved) : option WorkingOrder :=
  match tracker_by_ids t (resolved_exchange_id r) (resolved_client_id r) with
  | Some wo => Some wo
  | None =>
      if nonempty (resolved_market_id r) then
        match find_by_market_side (resolved_market_id r) (resolved_side r) t with
        | Some wo =>
            if (negb (nonempty (resolved_asset_id r)) || id_eqb (wo_asset_id wo) (resolved_asset_id r)) &&
               ((resolved_price r <=? 0) || (wo_price wo =? resolved_price r))
            then Some wo else None
        | None => None
        end
      else None
  end.

Definition hydrate_from_tracker (tracker : option WorkingOrderTracker) (r : Resolved) : Resolved :=
  match tracker with
  | None => r
  | Some t =>
      match tracker_lookup t r with
      | None => r
      | Some wo => hydrate (wo_exchange_order_id wo) (wo_client_order_id wo) (wo_asset_id wo) (wo_market_id wo)
                     (wo_price wo) (wo_original_size wo) (wo_filled_size wo) r
      end
  end.

Definition ids_of_record (r : Resolved) (rec : UiOrderRecord) : bool :=
  ids_match (uor_exchange_order_id rec) (uor_client_order_id rec) (resolved_exchange_id r) (resolved_client_id r).

Definition attributes_match (r : Resolved) (rec : UiOrderRecord) : bool :=
  id_eqb (uor_asset_id rec) (resolved_asset_id r) && side_eqb (uor_side rec) (resolved_side r) &&
  negb (nonempty (resolved_market_id r) && nonempty (uor_market_id rec) &&
        negb (id_eqb (uor_market_id rec) (resolved_market_id r))) &&
  negb ((resolved_price r >? 0) && negb (uor_price rec =? resolved_price r)) &&
  negb ((resolved_original_size r >? 0) && negb (uor_original_size rec =? resolved_original_size r)).

Definition find_record_idx (rows : list UiOrderRecord) (allow_attribute_fallback : bool) (r : Resolved) : option nat :=
  match find_index (ids_of_record r) rows with
  | Some i => Some i
  | None =>
      if negb allow_attribute_fallback || negb (nonempty (resolved_asset_id r)) then None
      else unique_index (attributes_match r) 0 None rows
  end.

Definition hydrate_from_row (rec : UiOrderRecord) (r : Resolved) : Resolved :=
  hydrate (uor_exchange_order_id rec) (uor_client_order_id rec) (uor_asset_id rec) (uor_market_id rec)
    (uor_price rec) (uor_original_size rec) (uor_filled_size rec) r.

Definition hydrate_from_existing (m : UiMirror) (r : Resolved) : Resolved :=
  match find_record_idx (ui_account_working_orders_ m) false r with
  | Some i => hydrate_from_row (ui_account_working_orders_ m !!! i) r
  | None =>
      match find_record_idx (ui_closed_orders_ m) false r with
      | Some i => hydrate_from_row (ui_closed_orders_ m !!! i) r
      | None => r
      end
  end.

(** The record after the update; the lifecycle comes from the reported status. *)
Definition updated_record (ev : SchedulerEvent) (r : Resolved) (seq : Z) (rec : UiOrderRecord) : UiOrderRecord :=
  let keep (a b : string) := if nonempty a then a else b in
  let filled := if resolved_filled_size r >? uor_filled_size rec then resolved_filled_size r
                else uor_filled_size rec in
  let status := order_status_raw ev in
  mkUiOrderRecord
    (keep (resolved_exchange_id r) (uor_exchange_order_id rec))
    (keep (resolved_client_id r) (uor_client_order_id rec))
    (keep (resolved_asset_id r) (uor_asset_id rec))
    (keep (resolved_market_id r) (uor_market_id rec))
    (resolved_side r)
    (if (resolved_price r >? 0) || (uor_price rec =? 0) then resolved_price r else uor_price rec)
    (if (resolved_original_size r >? 0) || (uor_original_size rec =? 0) then resolved_original_size r
     else uor_original_size rec)
    filled (classify_lifecycle status filled)
    (bool_decide (status = OrderStatus.LIVE) || bool_decide (status = OrderStatus.PARTIAL))
    false (recv_ts ev) seq.

Definition on_user_order_event_for_ui (tracker : option WorkingOrderTracker) (ev : SchedulerEvent) (m : UiMirror)
    : UiMirror :=
  let r := hydrate_from_existing m (hydrate_from_tracker tracker (resolved_of ev)) in
  let working_idx := find_record_idx (ui_account_working_orders_ m) true r in
  let closed_idx := find_record_idx (ui_closed_orders_ m) true r in
  let rec := match working_idx, closed_idx with
             | Some i, _ => ui_account_working_orders_ m !!! i
             | None, Some i => ui_closed_orders_ m !!! i
             | None, None => UiOrderRecord_default
             end in
  let m := m <| ui_order_update_seq_ ::= Z.succ |> in
  let rec := updated_record ev r (ui_order_update_seq_ m) rec in
  if bool_decide (uor_lifecycle_state rec = UiOrderLifecycleState.WORKING) then
    match working_idx, closed_idx with
    | None, Some _ => m
    | Some i, _ => set_working i rec m
    | None, None => push_working rec (remove_matching_working rec m)
    end
  else upsert_closed rec (remove_matching_working rec m).

(** ** Trades *)
Definition trade_row (ev : SchedulerEvent) (rec : UiTradeRecord) : bool :=
  nonempty (utr_trade_id rec) && id_eqb (utr_trade_id rec) (trade_id ev).

Definition on_user_trade_event_for_ui (ev : SchedulerEvent) (m : UiMirror) : UiMirror :=
  let existing_idx := find_index (trade_row ev) (ui_trade_history_ m) in
  let rec := match existing_idx with
             | Some i => default UiTradeRecord_default (ui_trade_history_ m !! i)
             | None => UiTradeRecord_default end in
  let keep (a b : string) := if nonempty a then a else b in
  let m := m <| ui_trade_update_seq_ ::= Z.succ |> in
  let rec := mkUiTradeRecord (trade_id ev) (keep (order_id ev) (utr_order_id rec))
               (keep (asset_id ev) (utr_asset_id rec)) (keep (user_market_id ev) (utr_market_id rec))
               (user_side ev) (user_price ev) (user_fill_size ev) (trade_status_raw ev) (recv_ts ev)
               (ui_trade_update_seq_ m) in
  m <| ui_trade_history_ ::= fun l =>
         push_bounded kMaxUiTrades rec (match existing_idx with Some i => swap_pop i l | None => l end) |>.

(** ** Execution feedback *)

(** The row of the tracker for the identifiers, and the identifiers completed
    from it. *)
Definition build_from_tracker (tracker : option WorkingOrderTracker) (ids : OrderId * OrderId)
    : (OrderId * OrderId) * UiOrderRecord :=
  let '(exchange, client) := ids in
  match t ← tracker; tracker_by_ids t exchange client with
  | None => (ids, UiOrderRecord_default)
  | Some wo =>
      ((if negb (nonempty exchange) && nonempty (wo_exchange_order_id wo) then wo_exchange_order_id wo else exchange,
        if negb (nonempty client) && nonempty (wo_client_order_id wo) then wo_client_order_id wo else client),
       UiOrderRecord_default
         <| uor_exchange_order_id := wo_exchange_order_id wo |> <| uor_client_order_id := wo_client_order_id wo |>
         <| uor_asset_id := wo_asset_id wo |> <| uor_market_id := wo_market_id wo |>
         <| uor_side := wo_side wo |> <| uor_price := wo_price wo |>
         <| uor_original_size := wo_original_size wo |> <| uor_filled_size := wo_filled_size wo |>
         <| uor_is_live := wo_is_live wo |> <| uor_is_pending := wo_is_pending wo |>)
  end.

Definition row_matches (row rec : UiOrderRecord) : bool :=
  id_eqb (uor_asset_id rec) (uor_asset_id row) && side_eqb (uor_side rec) (uor_side row) &&
  negb (nonempty (uor_market_id rec) && nonempty (uor_market_id row) &&
        negb (id_eqb (uor_market_id rec) (uor_market_id row))) &&
  (uor_price rec =? uor_price row) && (uor_original_size rec =? uor_original_size row).

(** The look-up by attributes asks the tracker again, which may complete the
    identifiers. *)
Definition find_feedback_idx (tracker : option WorkingOrderTracker) (rows : list UiOrderRecord)
    (ids : OrderId * OrderId) : (OrderId * OrderId) * option nat :=
  match find_index (fun rec => ids_match (uor_exchange_order_id rec) (uor_client_order_id rec) ids.1 ids.2) rows with
  | Some i => (ids, Some i)
  | None =>
      let '(ids, row) := build_from_tracker tracker ids in
      (ids, if nonempty (uor_asset_id row) then unique_index (row_matches row) 0 None rows else None)
  end.

(** The record of the order, with its identifiers, in a new state. *)
Definition feedback_record (ids : OrderId * OrderId) (state : UiOrderRecord -> UiOrderLifecycleState) (live : bool)
    (now seq : Z) (rec : UiOrderRecord) : UiOrderRecord :=
  let rec := if nonempty ids.2 then rec <| uor_client_order_id := ids.2 |> else rec in
  let rec := if nonempty ids.1 then rec <| uor_exchange_order_id := ids.1 |> else rec in
  rec <| uor_lifecycle_state := state rec |> <| uor_is_live := live |> <| uor_is_pending := false |>
      <| uor_last_update_ts := now |> <| uor_update_seq := seq |>.

Definition has_ids (rec : UiOrderRecord) : bool :=
  nonempty (uor_client_order_id rec) || nonempty (uor_exchange_order_id rec).

(** Close the order with a terminal state. *)
Definition close_order (rec : UiOrderRecord) (m : UiMirror) : UiMirror :=
  let m := remove_matching_working rec m in
  if has_ids rec || nonempty (uor_asset_id rec) then upsert_closed rec m else m.

(** [now] is the clock reading. *)
Definition on_exec_feedback_for_ui (now : Z) (tracker : option WorkingOrderTracker) (ev : SchedulerEvent)
    (m : UiMirror) : UiMirror :=
  let now := if recv_ts ev >? 0 then recv_ts ev else now in
  let '(ids, tracker_rec) := build_from_tracker tracker (order_id ev, client_order_id ev) in
  let '(ids, working_idx) := find_feedback_idx tracker (ui_account_working_orders_ m) ids in
  let '(ids, closed_idx) := find_feedback_idx tracker (ui_closed_orders_ m) ids in
  let base := match working_idx with Some i => ui_account_working_orders_ m !!! i | None => tracker_rec end in
  let m' := m <| ui_order_update_seq_ ::= Z.succ |> in
  let record state live := feedback_record ids state live now (ui_order_update_seq_ m') base in
  match exec_feedback_kind ev with
  | ExecFeedbackKind.ORDER_ACCEPTED =>
      match working_idx, closed_idx with
      | None, Some _ => m
      | _, _ =>
          let rec := record (fun _ => UiOrderLifecycleState.WORKING) true in
          match working_idx with
          | Some i => set_working i rec m'
          | None => if has_ids rec then push_working rec (remove_matching_working rec m') else m'
          end
      end
  | ExecFeedbackKind.ORDER_REJECTED => close_order (record (fun _ => UiOrderLifecycleState.REJECTED) false) m'
  | ExecFeedbackKind.CANCEL_CONFIRMED =>
      close_order (record (fun rec => if uor_filled_size rec >? 0 then UiOrderLifecycleState.CANCELED_WITH_FILL
                                      else UiOrderLifecycleState.CANCELED_NO_FILL) false) m'
  | _ => m
  end.

(** ** Vector lemmas *)
Lemma swap_pop_snoc {A} i (l : list A) y :
  (i <= length l)%nat -> swap_pop i (l ++ [y]) = if decide (i = length l) then l else <[i := y]> l.
Proof.
  intros Hi. unfold swap_pop. rewrite last_snoc, length_app. simpl.
  replace (length l + 1 - 1)%nat with (length l) by lia. destruct (decide (i = length l)) as [->|Hne].
  - rewrite insert_app_r_alt, Nat.sub_diag by lia. simpl. by rewrite take_app_length.
  - rewrite insert_app_l by lia. rewrite take_app_le; [|rewrite length_insert; lia].
    rewrite take_ge; [done|rewrite length_insert; lia].
Qed.

Lemma swap_pop_perm {A} i (l : list A) x : l !! i = Some x -> l ≡ₚ x :: swap_pop i l.
Proof.
  destruct l as [|y l _] using rev_ind; [done|]. intros Hi.
  pose proof (lookup_lt_Some _ _ _ Hi) as Hlt. rewrite length_app in Hlt. simpl in Hlt.
  rewrite swap_pop_snoc by lia. destruct (decide _) as [->|Hne].
  - rewrite list_lookup_middle in Hi by done. simplify_eq. by rewrite Permutation_app_comm.
  - rewrite lookup_app_l in Hi by lia. rewrite (insert_take_drop l i y) by lia.
    rewrite <- (take_drop_middle l i x Hi) at 1. rewrite <- app_assoc. simpl.
    rewrite <- Permutation_middle. constructor. apply Permutation_app_head.
    symmetry. apply Permutation_cons_append.
Qed.

Lemma swap_pop_lookup {A} i (l : list A) j :
  (i < length l)%nat -> (j < length l - 1)%nat ->
  swap_pop i l !! j = if decide (j = i) then last l else l !! j.
Proof.
  destruct l as [|y l _] using rev_ind; [simpl; lia|]. rewrite length_app. simpl. intros Hi Hj.
  rewrite swap_pop_snoc, last_snoc by lia. destruct (decide (i = length l)).
  - rewrite decide_False by lia. by rewrite lookup_app_l by lia.
  - destruct (decide (j = i)) as [->|]; [by rewrite list_lookup_insert_eq by lia|].
    rewrite list_lookup_insert_ne by done. by rewrite lookup_app_l by lia.
Qed.

Lemma swap_pop_length {A} i (l : list A) : (i < length l)%nat -> length (swap_pop i l) = (length l - 1)%nat.
Proof.
  destruct l as [|y l _] using rev_ind; [simpl; lia|]. rewrite length_app. simpl. intros.
  rewrite swap_pop_snoc by lia. case_decide; rewrite ?length_insert; lia.
Qed.

Lemma find_index_Some {A} (p : A -> bool) l i : find_index p l = Some i -> exists x, l !! i = Some x /\ p x = true.
Proof.
  revert i. induction l as [|y l IH]; intros i; simpl; [done|]. destruct (p y) eqn:E; [intros [= <-]; by exists y|].
  destruct (find_index p l) as [j|]; [|done]. intros [= <-]. by apply IH.
Qed.

Lemma find_index_None {A} (p : A -> bool) l : find_index p l = None -> Forall (fun x => p x = false) l.
Proof.
  induction l as [|y l IH]; simpl; [constructor|]. destruct (p y) eqn:E; [done|].
  destruct (find_index p l); [done|]. constructor; auto.
Qed.

Lemma remove_matching_spec (p : UiOrderRecord -> bool) n l :
  (n <= length l)%nat -> (forall j x, (n <= j)%nat -> l !! j = Some x -> p x = false) ->
  Forall (fun x => p x = false) (remove_matching p n l) /\ remove_matching p n l ⊆ l.
Proof.
  revert l. induction n as [|i IH]; intros l Hn Hp; simpl.
  { split; [|done]. apply Forall_lookup. intros j x. apply Hp. lia. }
  destruct (lookup_lt_is_Some_2 l i) as [x Hx]; [lia|].
  rewrite (list_lookup_total_correct _ _ _ Hx). destruct (p x) eqn:E.
  - destruct (IH (swap_pop i l)) as [H1 H2]; [rewrite swap_pop_length; lia| |].
    + intros j y Hj Hy. pose proof (lookup_lt_Some _ _ _ Hy) as Hlt. rewrite swap_pop_length in Hlt by lia.
      rewrite swap_pop_lookup in Hy by lia. destruct (decide (j = i)) as [->|].
      * rewrite last_lookup in Hy. apply (Hp (pred (length l))); [lia|done].
      * apply (Hp j); [lia|done].
    + split; [done|]. etrans; [exact H2|]. rewrite (swap_pop_perm i l x Hx) at 2. set_solver.
  - apply IH; [lia|]. intros j y Hj Hy. destruct (decide (j = i)) as [->|]; [congruence|].
    apply (Hp j); [lia|done].
Qed.

Lemma push_bounded_length {A} cap (x : A) l : (length l <= cap)%nat -> (length (push_bounded cap x l) <= cap)%nat.
Proof.
  intros Hl. unfold push_bounded. rewrite length_app. simpl. destruct (Nat.ltb_spec cap (length l + 1)).
  - destruct l; simpl in *; [lia|]. rewrite length_app. simpl. lia.
  - rewrite length_app. simpl. lia.
Qed.

Lemma push_bounded_last {A} cap (x : A) l : (0 < cap)%nat -> last (push_bounded cap x l) = Some x.
Proof.
  intros Hc. unfold push_bounded. destruct (Nat.ltb_spec cap (length (l ++ [x]))) as [H|H]; [|by rewrite last_snoc].
  destruct l as [|y l]; [simpl in H; lia|]. simpl. by rewrite last_snoc.
Qed.

Lemma push_bounded_sub {A} cap (x : A) l : exists l0, l0 ++ push_bounded cap x l = l ++ [x].
Proof.
  unfold push_bounded. destruct (_ <? _)%nat; [|by exists []]. destruct (l ++ [x]) as [|y l']; [by exists []|].
  by exists [y].
Qed.

Lemma push_bounded_Forall {A} (P : A -> Prop) cap x l : P x -> Forall P l -> Forall P (push_bounded cap x l).
Proof.
  intros Hx Hl. destruct (push_bounded_sub cap x l) as [l0 E].
  assert (Forall P (l0 ++ push_bounded cap x l)) as H by (rewrite E; by apply Forall_app_2; [|constructor]).
  by apply Forall_app in H as [_ ?].
Qed.

(** ** Consistency *)
Definition listed_trades (l : list UiTradeRecord) : list TradeId :=
  filter (fun id => nonempty id = true) (utr_trade_id <$> l).

Record ui_inv (m : UiMirror) : Prop := {
  ui_working : Forall (fun r => uor_lifecycle_state r = UiOrderLifecycleState.WORKING) (ui_account_working_orders_ m);
  ui_closed : Forall (fun r => uor_lifecycle_state r <> UiOrderLifecycleState.WORKING) (ui_closed_orders_ m);
  ui_closed_bound : (length (ui_closed_orders_ m) <= kMaxUiClosedOrders)%nat;
  ui_trade_bound : (length (ui_trade_history_ m) <= kMaxUiTrades)%nat;
  ui_trade_once : NoDup (listed_trades (ui_trade_history_ m)) }.
#[local] Opaque kMaxUiClosedOrders kMaxUiTrades.

Lemma remove_working_spec rec m :
  Forall (fun r => matches_target rec r = false) (ui_account_working_orders_ (remove_matching_working rec m)) /\
  ui_account_working_orders_ (remove_matching_working rec m) ⊆ ui_account_working_orders_ m.
Proof.
  simpl. apply remove_matching_spec; [lia|]. intros j x Hj Hx. apply lookup_lt_Some in Hx. lia.
Qed.

Lemma remove_working_inv rec m : ui_inv m -> ui_inv (remove_matching_working rec m).
Proof.
  intros [H1 H2 H3 H4 H5]. split; try done. destruct (remove_working_spec rec m) as [_ Hs].
  rewrite Forall_forall in *. auto.
Qed.

Lemma push_working_inv rec m :
  uor_lifecycle_state rec = UiOrderLifecycleState.WORKING -> ui_inv m -> ui_inv (push_working rec m).
Proof. intros Hr [H1 H2 H3 H4 H5]. split; try done. simpl. apply Forall_app_2; [done|by constructor]. Qed.

Lemma set_working_inv i rec m :
  uor_lifecycle_state rec = UiOrderLifecycleState.WORKING -> ui_inv m -> ui_inv (set_working i rec m).
Proof. intros Hr [H1 H2 H3 H4 H5]. split; try done. simpl. by apply Forall_insert. Qed.

Lemma ui_seq_inv f m : ui_inv m -> ui_inv (m <| ui_order_update_seq_ ::= f |>).
Proof. by intros [H1 H2 H3 H4 H5]. Qed.

Lemma swap_found_sub {A} (p : A -> bool) (l : list A) :
  let l' := match find_index p l with Some i => swap_pop i l | None => l end in
  l' ⊆ l /\ (length l' <= length l)%nat.
Proof.
  simpl. destruct (find_index p l) as [i|] eqn:E; [|done].
  apply find_index_Some in E as (x & Hx & _). pose proof (lookup_lt_Some _ _ _ Hx).
  split; [|rewrite swap_pop_length; lia]. rewrite (swap_pop_perm i l x Hx) at 2. set_solver.
Qed.

Lemma upsert_closed_inv rec m :
  uor_lifecycle_state rec <> UiOrderLifecycleState.WORKING -> ui_inv m -> ui_inv (upsert_closed rec m).
Proof.
  intros Hr [H1 H2 H3 H4 H5]. split; try done; simpl;
    destruct (swap_found_sub (matches_target rec) (ui_closed_orders_ m)) as [Hs Hl].
  - apply push_bounded_Forall; [done|]. rewrite Forall_forall in *. auto.
  - apply push_bounded_length. lia.
Qed.

Lemma close_order_inv rec m :
  uor_lifecycle_state rec <> UiOrderLifecycleState.WORKING -> ui_inv m -> ui_inv (close_order rec m).
Proof.
  intros Hr Hm. unfold close_order. apply (remove_working_inv rec) in Hm.
  case_match; [by apply upsert_closed_inv|done].
Qed.

Lemma on_order_inv tracker ev m : ui_inv m -> ui_inv (on_user_order_event_for_ui tracker ev m).
Proof.
  intros Hm. unfold on_user_order_event_for_ui. apply (ui_seq_inv Z.succ) in Hm.
  set (rec := updated_record _ _ _ _).
  case_bool_decide as E; [|by apply upsert_closed_inv, remove_working_inv].
  destruct (find_record_idx (ui_account_working_orders_ m) _ _) as [i|]; [by apply set_working_inv|].
  destruct (find_record_idx (ui_closed_orders_ m) _ _); [done|].
  by apply push_working_inv, remove_working_inv.
Qed.

Lemma on_feedback_inv now tracker ev m : ui_inv m -> ui_inv (on_exec_feedback_for_ui now tracker ev m).
Proof.
  intros Hm. unfold on_exec_feedback_for_ui.
  destruct (build_from_tracker _ _) as [ids rec]. destruct (find_feedback_idx _ _ _) as [ids1 wi].
  destruct (find_feedback_idx _ _ _) as [ids2 ci]. pose proof (ui_seq_inv Z.succ m Hm) as Hm'.
  destruct (exec_feedback_kind ev); try done.
  - destruct wi as [i|].
    + apply set_working_inv; [|done]. by destruct ci.
    + destruct ci; [done|]. case_match; [|done]. apply push_working_inv; [done|]. by apply remove_working_inv.
  - by apply close_order_inv.
  - apply close_order_inv; [|done]. simpl. by case_match.
Qed.

Lemma listed_trades_app l1 l2 : listed_trades (l1 ++ l2) = listed_trades l1 ++ listed_trades l2.
Proof. unfold listed_trades. by rewrite fmap_app, filter_app. Qed.

#[export] Instance listed_trades_perm : Proper ((≡ₚ) ==> (≡ₚ)) listed_trades.
Proof. intros l1 l2 E. unfold listed_trades. by rewrite E. Qed.

Lemma on_trade_inv ev m : ui_inv m -> ui_inv (on_user_trade_event_for_ui ev m).
Proof.
  intros [H1 H2 H3 H4 H5]. unfold on_user_trade_event_for_ui. split; try done; simpl.
  - apply push_bounded_length. destruct (swap_found_sub (trade_row ev) (ui_trade_history_ m)). lia.
  - set (rec := mkUiTradeRecord _ _ _ _ _ _ _ _ _ _).
    set (l := match find_index _ _ with Some i => _ | None => _ end).
    assert (NoDup (listed_trades (l ++ [rec]))) as Hn.
    { rewrite listed_trades_app. unfold listed_trades at 2. simpl.
      destruct (nonempty (trade_id ev)) eqn:Ee.
      2:{ rewrite filter_cons_False by (simpl; by rewrite Ee). rewrite app_nil_r. unfold l.
          destruct (find_index _ _) as [i|] eqn:Ei; [|done].
          apply find_index_Some in Ei as (x & Hx & _). rewrite (swap_pop_perm i _ x Hx) in H5.
          change (x :: ?l') with ([x] ++ l') in H5. rewrite listed_trades_app in H5. by apply NoDup_app in H5 as (_ & _ & ?). }
      rewrite filter_cons_True by done. rewrite <- Permutation_cons_append. unfold l.
      destruct (find_index _ _) as [i|] eqn:Ei.
      - apply find_index_Some in Ei as (x & Hx & Ht). rewrite (swap_pop_perm i _ x Hx) in H5.
        unfold trade_row in Ht. apply andb_true_iff in Ht as [_ Ht%id_eqb_true].
        unfold listed_trades in *. rewrite fmap_cons, filter_cons_True in H5 by (by rewrite Ht).
        by rewrite <- Ht.
      - constructor; [|done]. intros Hin. unfold listed_trades in Hin.
        apply list_elem_of_filter in Hin as [_ (x & E & Hx)%list_elem_of_fmap].
        apply find_index_None in Ei. rewrite Forall_forall in Ei. specialize (Ei x Hx).
        unfold trade_row in Ei. rewrite <- E, Ee in Ei. by rewrite (proj2 (id_eqb_true _ _) eq_refl) in Ei. }
    destruct (push_bounded_sub kMaxUiTrades rec l) as [l0 E]. rewrite <- E, listed_trades_app in Hn.
    by apply NoDup_app in Hn as (_ & _ & ?).
Qed.

(** What the scheduler feeds to the mirror. *)
Inductive ui_op :=
| UiOrder (tracker : option WorkingOrderTracker) (ev : SchedulerEvent)
| UiTrade (ev : SchedulerEvent)
| UiFeedback (now : Z) (tracker : option WorkingOrderTracker) (ev : SchedulerEvent).

Definition ui_step (m : UiMirror) (op : ui_op) : UiMirror :=
  match op with
  | UiOrder tracker ev => on_user_order_event_for_ui tracker ev m
  | UiTrade ev => on_user_trade_event_for_ui ev m
  | UiFeedback now tracker ev => on_exec_feedback_for_ui now tracker ev m
  end.

Lemma ui_run_inv ops m : ui_inv m -> ui_inv (foldl ui_step m ops).
Proof.
  revert m. induction ops as [|[] ops IH]; intros m Hm; [done| | |]; apply IH;
    [by apply on_order_inv|by apply on_trade_inv|by apply on_feedback_inv].
Qed.

Lemma ui_new_inv : ui_inv UiMirror_new.
Proof. split; try apply Nat.le_0_l; constructor. Qed.

(** The identifiers of an event survive the completion. *)
Lemma hydrate_exchange e c a k p o f r : nonempty (resolved_exchange_id r) = true ->
  resolved_exchange_id (hydrate e c a k p o f r) = resolved_exchange_id r.
Proof. intros H. simpl. by rewrite H. Qed.

Lemma completed_exchange tracker ev m : nonempty (order_id ev) = true ->
  resolved_exchange_id (hydrate_from_existing m (hydrate_from_tracker tracker (resolved_of ev))) = order_id ev.
Proof.
  intros H. assert (resolved_exchange_id (hydrate_from_tracker tracker (resolved_of ev)) = order_id ev) as E.
  { unfold hydrate_from_tracker. repeat case_match; rewrite ?hydrate_exchange; done. }
  unfold hydrate_from_existing, hydrate_from_row. repeat case_match; rewrite ?hydrate_exchange; rewrite ?E; done.
Qed.

(** The account view is consistent: after any sequence of order updates,
    trades and execution feedback (with whatever tracker contents), working
    rows are in the working state, closed rows are not, both histories hold at
    most 128 rows and no trade is listed twice; and an update that ends an
    order (filled, cancelled or failed) makes it the newest closed row and
    leaves no working row under its exchange identifier. *)
Theorem ui_mirror_consistent ops tracker ev
    (Hid : nonempty (order_id ev) = true)
    (Hend : order_status_raw ev = OrderStatus.FILLED \/ order_status_raw ev = OrderStatus.CANCELED \/
            order_status_raw ev = OrderStatus.FAILED) :
  let m := foldl ui_step UiMirror_new ops in
  ui_inv m /\
  exists rec, last (ui_closed_orders_ (on_user_order_event_for_ui tracker ev m)) = Some rec /\
    uor_exchange_order_id rec = order_id ev /\
    Forall (fun w => uor_exchange_order_id w <> order_id ev)
      (ui_account_working_orders_ (on_user_order_event_for_ui tracker ev m)).
Proof.
  intros m. split; [apply ui_run_inv, ui_new_inv|]. unfold on_user_order_event_for_ui.
  pose proof (completed_exchange tracker ev m Hid) as Hx. set (r := hydrate_from_existing m _) in *.
  set (m1 := m <| ui_order_update_seq_ ::= Z.succ |>). set (rec := updated_record ev r _ _).
  assert (uor_exchange_order_id rec = order_id ev) as Er by (unfold rec; simpl; by rewrite Hx, Hid).
  rewrite bool_decide_eq_false_2.
  2:{ unfold rec. simpl. destruct Hend as [-> | [-> | ->]]; simpl; try done. by case_match. }
  exists rec. split_and!; [apply push_bounded_last; by apply Nat.ltb_lt|done|].
  destruct (remove_working_spec rec m1) as [Hm _]. eapply Forall_impl; [exact Hm|].
  intros w Hw E. unfold matches_target, ids_match, same_non_empty in Hw.
  rewrite Er, E, Hid in Hw. simpl in Hw. by rewrite (proj2 (id_eqb_true _ _) eq_refl) in Hw.
Qed.

Lemma ui_mirror_consistent_witness :
  let ev := SchedulerEvent_default <| order_id := "x1"%string |> <| order_status_raw := OrderStatus.FILLED |> in
  let live := SchedulerEvent_default <| order_id := "x1"%string |> <| order_status_raw := OrderStatus.LIVE |> in
  let m := foldl ui_step UiMirror_new [UiOrder None live] in
  length (ui_account_working_orders_ m) = 1%nat /\ ui_inv m.
Proof.
  split; [reflexivity|].
  apply (ui_mirror_consistent
    [UiOrder None (SchedulerEvent_default <| order_id := "x1"%string |> <| order_status_raw := OrderStatus.LIVE |>)]
    None (SchedulerEvent_default <| order_id := "x1"%string |> <| order_status_raw := OrderStatus.FILLED |>));
    [reflexivity|by left].
Defined.
