(* ===== verification/UiSnapshot.v ===== *)
(** The periodic snapshot for the user interface: the rows of
    [StrategyScheduler::maybe_push_ui_state] ([src/scheduler/strategy_scheduler.cpp]).

    The working rows are the mirror's ([UiMirror.v]) followed by the tracker's
    orders the mirror does not show yet; they are sorted newest first and the first
    64 are copied.  [std::sort] and [std::partial_sort] leave the order of
    equivalent rows open: they are the class [RowSort] of the permutations that are
    sorted by the comparison.

    Shown: the comparison is a strict weak order, which the two algorithms require;
    the snapshot shows every working order of mirror and tracker when there are at
    most 64 rows, and otherwise the newest ones. *)
From Stdlib Require Import Ascii Sorted.
From stdpp Require Import sorting.
From S2P Require Import Prelude Types Price Events WorkingOrderTracker UiMirror.

Definition kMaxUiWorkingOrders : nat := 64.
Definition kMaxUiPositions : nat := 64.

(** ** Rows *)
Definition is_working_row (rec : UiOrderRecord) : bool :=
  bool_decide (uor_lifecycle_state rec = UiOrderLifecycleState.WORKING).

(** A tracked order the existing row already shows. *)
Definition shows (existing : UiOrderRecord) (wo : WorkingOrder) : bool :=
  ids_match (uor_exchange_order_id existing) (uor_client_order_id existing) (wo_exchange_order_id wo) (wo_client_order_id wo) ||
  (negb (nonempty (uor_exchange_order_id existing)) && negb (nonempty (uor_client_order_id existing)) &&
   negb (nonempty (wo_exchange_order_id wo)) && negb (nonempty (wo_client_order_id wo)) &&
   id_eqb (uor_asset_id existing) (wo_asset_id wo) && side_eqb (uor_side existing) (wo_side wo) &&
   (uor_price existing =? wo_price wo) && (uor_original_size existing =? wo_original_size wo) &&
   (uor_filled_size existing =? wo_filled_size wo)).

Definition row_of (wo : WorkingOrder) : UiOrderRecord :=
  mkUiOrderRecord (wo_exchange_order_id wo) (wo_client_order_id wo) (wo_asset_id wo) (wo_market_id wo) (wo_side wo)
    (wo_price wo) (wo_original_size wo) (wo_filled_size wo) UiOrderLifecycleState.WORKING (wo_is_live wo) (wo_is_pending wo)
    (wo_sent_ts wo) 0.

(** The loop over the tracker's slots. *)
Definition overlay (rows : list UiOrderRecord) (wo : WorkingOrder) : list UiOrderRecord :=
  if negb (wo_occupied wo) || wo_is_terminal wo then rows else
  if existsb (fun existing => shows existing wo) rows then rows else rows ++ [row_of wo].

Definition working_rows (tracker : option WorkingOrderTracker) (ui : UiMirror) : list UiOrderRecord :=
  let rows := filter (fun r => is_working_row r = true) (ui_account_working_orders_ ui) in
  match tracker with
  | Some t => foldl overlay rows t
  | None => rows
  end.

(** ** The order of the rows *)

(** [std::memcmp] over the shorter length. *)
Fixpoint memcmp (a b : list ascii) : comparison :=
  match a, b with
  | x :: a, y :: b => match N.compare (N_of_ascii x) (N_of_ascii y) with Eq => memcmp a b | c => c end
  | _, _ => Eq
  end.
Definition oid_before (a b : OrderId) : bool :=
  match memcmp (txt a) (txt b) with
  | Lt => true
  | Gt => false
  | Eq => (length (txt a) <? length (txt b))%nat
  end.
Definition row_before (a b : UiOrderRecord) : bool :=
  if negb (uor_update_seq a =? uor_update_seq b) then uor_update_seq a >? uor_update_seq b else
  if negb (uor_last_update_ts a =? uor_last_update_ts b) then uor_last_update_ts a >? uor_last_update_ts b else
  oid_before (uor_exchange_order_id a) (uor_exchange_order_id b).

(** No row comes before an earlier one. *)
Definition in_order (a b : UiOrderRecord) : Prop := row_before b a = false.

Class RowSort := {
  row_sort : list UiOrderRecord -> list UiOrderRecord;
  row_sort_perm : forall l, row_sort l ≡ₚ l;
  row_sort_sorted : forall l, StronglySorted in_order (row_sort l) }.

(** ** The snapshot *)
Record UiWorkingOrder := mkUiWorkingOrder {
  uw_client_order_id : OrderId; uw_exchange_order_id : OrderId; uw_asset_id : AssetId; uw_market_id : AssetId;
  uw_side : Side; uw_price : Z; uw_original_size : Z; uw_filled_size : Z; uw_is_live : bool; uw_is_pending : bool;
  uw_lifecycle_state : UiOrderLifecycleState; uw_last_update_ts : Z }.
Record UiClosedOrder := mkUiClosedOrder {
  uc_client_order_id : OrderId; uc_exchange_order_id : OrderId; uc_asset_id : AssetId; uc_market_id : AssetId;
  uc_side : Side; uc_price : Z; uc_original_size : Z; uc_filled_size : Z;
  uc_lifecycle_state : UiOrderLifecycleState; uc_last_update_ts : Z }.
Record UiTrade := mkUiTrade {
  ut_trade_id : TradeId; ut_order_id : OrderId; ut_asset_id : AssetId; ut_market_id : AssetId;
  ut_side : Side; ut_price : Z; ut_size : Z; ut_trade_status : TradeStatus; ut_last_update_ts : Z }.

Definition to_working (r : UiOrderRecord) : UiWorkingOrder :=
  mkUiWorkingOrder (uor_client_order_id r) (uor_exchange_order_id r) (uor_asset_id r) (uor_market_id r) (uor_side r)
    (uor_price r) (uor_original_size r) (uor_filled_size r) (uor_is_live r) (uor_is_pending r) (uor_lifecycle_state r)
    (uor_last_update_ts r).
Definition to_closed (r : UiOrderRecord) : UiClosedOrder :=
  mkUiClosedOrder (uor_client_order_id r) (uor_exchange_order_id r) (uor_asset_id r) (uor_market_id r) (uor_side r)
    (uor_price r) (uor_original_size r) (uor_filled_size r) (uor_lifecycle_state r) (uor_last_update_ts r).
Definition to_trade (r : UiTradeRecord) : UiTrade :=
  mkUiTrade (utr_trade_id r) (utr_order_id r) (utr_asset_id r) (utr_market_id r) (utr_side r) (utr_price r) (utr_size r)
    (utr_trade_status r) (utr_last_update_ts r).

Section Snapshot.
Context `{RowSort}.

Definition sorted_rows (rows : list UiOrderRecord) : list UiOrderRecord :=
  if (1 <? length rows)%nat then row_sort rows else rows.
Definition snapshot_working (tracker : option WorkingOrderTracker) (ui : UiMirror) : list UiWorkingOrder :=
  to_working <$> take kMaxUiWorkingOrders (sorted_rows (working_rows tracker ui)).
(** The newest closed orders and trades first. *)
Definition snapshot_closed (ui : UiMirror) : list UiClosedOrder :=
  to_closed <$> take kMaxUiClosedOrders (reverse (ui_closed_orders_ ui)).
Definition snapshot_trades (ui : UiMirror) : list UiTrade :=
  to_trade <$> take kMaxUiTrades (reverse (ui_trade_history_ ui)).
End Snapshot.

(** ** The comparison is a strict weak order *)
Lemma memcmp_refl a : memcmp a a = Eq.
Proof. induction a as [|x a IH]; [done|]. simpl. by rewrite N.compare_refl. Qed.
Lemma memcmp_antisym a b : memcmp b a = CompOpp (memcmp a b).
Proof.
  revert b. induction a as [|x a IH]; intros [|y b]; try done. simpl. rewrite (N.compare_antisym (N_of_ascii x)).
  destruct (N.compare _ _); simpl; auto.
Qed.

(** Three-way comparison of identifiers. *)
Definition oid_compare (a b : list ascii) : comparison :=
  match memcmp a b with Eq => Nat.compare (length a) (length b) | c => c end.
Lemma oid_compare_cons x a y b :
  oid_compare (x :: a) (y :: b) = match N.compare (N_of_ascii x) (N_of_ascii y) with Eq => oid_compare a b | c => c end.
Proof. unfold oid_compare. simpl. by destruct (N.compare _ _). Qed.
Lemma oid_compare_antisym a b : oid_compare b a = CompOpp (oid_compare a b).
Proof.
  unfold oid_compare. rewrite (memcmp_antisym a b), (Nat.compare_antisym (length a)). by destruct (memcmp a b).
Qed.
Lemma oid_compare_nil_l b : oid_compare [] b <> Gt.
Proof. by destruct b. Qed.
Lemma oid_compare_le_trans a b c : oid_compare a b <> Gt -> oid_compare b c <> Gt -> oid_compare a c <> Gt.
Proof.
  revert b c. induction a as [|x a IH]; intros [|y b] [|z c]; try done.
  rewrite !oid_compare_cons.
  destruct (N.compare_spec (N_of_ascii x) (N_of_ascii y)), (N.compare_spec (N_of_ascii y) (N_of_ascii z)),
    (N.compare_spec (N_of_ascii x) (N_of_ascii z)); try done; try (exfalso; lia). apply IH.
Qed.
Lemma oid_before_compare a b : oid_before a b = match oid_compare (txt a) (txt b) with Lt => true | _ => false end.
Proof.
  unfold oid_before, oid_compare. destruct (memcmp _ _); try done. unfold Nat.ltb.
  destruct (Nat.compare_spec (length (txt a)) (length (txt b))); destruct (Nat.leb_spec (S (length (txt a))) (length (txt b))); try done; lia.
Qed.
Lemma in_order_spec a b : in_order a b <->
  uor_update_seq b < uor_update_seq a \/
  uor_update_seq b = uor_update_seq a /\
    (uor_last_update_ts b < uor_last_update_ts a \/
     uor_last_update_ts b = uor_last_update_ts a /\ oid_compare (txt (uor_exchange_order_id a)) (txt (uor_exchange_order_id b)) <> Gt).
Proof.
  unfold in_order, row_before. rewrite oid_before_compare, (oid_compare_antisym (txt (uor_exchange_order_id a))).
  rewrite !Z.gtb_ltb.
  destruct (Z.eqb_spec (uor_update_seq b) (uor_update_seq a)) as [E|E]; simpl.
  - destruct (Z.eqb_spec (uor_last_update_ts b) (uor_last_update_ts a)) as [E2|E2]; simpl.
    + split; [intros Hc; right; split; [done|right; split; [done|]]; by destruct (oid_compare _ _)|].
      intros [?|[_ [?|[_ Hc]]]]; [lia..|]. by destruct (oid_compare _ _).
    + rewrite Z.ltb_ge. split; [intros; right; split; [done|left; lia]|]. intros [?|[_ [?|[? _]]]]; lia.
  - rewrite Z.ltb_ge. split; [intros; left; lia|]. intros [?|[? _]]; lia.
Qed.

#[export] Instance in_order_trans : Transitive in_order.
Proof.
  intros a b c. rewrite !in_order_spec. intros [?|[? [?|[? H1]]]] [?|[? [?|[? H2]]]]; try (left; lia);
    try (right; split; [lia|left; lia]). right. split; [lia|]. right. split; [lia|]. by eapply oid_compare_le_trans.
Qed.
#[export] Instance in_order_total : Total in_order.
Proof.
  intros a b. rewrite !in_order_spec.
  destruct (Z.lt_trichotomy (uor_update_seq a) (uor_update_seq b)) as [?|[?|?]]; [right; left; lia| |left; left; lia].
  destruct (Z.lt_trichotomy (uor_last_update_ts a) (uor_last_update_ts b)) as [?|[?|?]];
    [right; right; split; [lia|left; lia]| |left; right; split; [lia|left; lia]].
  destruct (oid_compare (txt (uor_exchange_order_id a)) (txt (uor_exchange_order_id b))) eqn:E.
  1,2: left; right; split; [lia|right; split; [lia|done]].
  right; right; split; [lia|right; split; [lia|]]. rewrite oid_compare_antisym, E. done.
Qed.
#[export] Instance in_order_dec a b : Decision (in_order a b).
Proof. unfold in_order. apply _. Defined.

(** Rows that are in order both ways are equivalent for the comparison, so that it
    is a strict weak order. *)
Lemma row_before_strict_weak :
  (forall a, row_before a a = false) /\
  (forall a b c, row_before a b = true -> row_before b c = true -> row_before a c = true) /\
  (forall a b c, row_before a b = false -> row_before b a = false -> row_before b c = false -> row_before c b = false ->
     row_before a c = false /\ row_before c a = false).
Proof.
  split_and!.
  - intros a. destruct (total in_order a a) as [Ha|Ha]; exact Ha.
  - intros a b c Hab Hbc. apply not_false_is_true. intros Hac.
    assert (in_order c a) as Hca by exact Hac.
    assert (in_order b c) as Hb by (destruct (total in_order b c) as [Hx|Hx]; [done|unfold in_order in Hx; congruence]).
    pose proof (in_order_trans _ _ _ Hb Hca) as Hba. unfold in_order in Hba. congruence.
  - intros a b c H1 H2 H3 H4. split; [exact (in_order_trans c b a H3 H1)|exact (in_order_trans a b c H2 H4)].
Qed.

(** A sorting algorithm. *)
#[refine] Definition merge_row_sort : RowSort := {| row_sort := merge_sort in_order |}.
Proof.
  - intros l. apply merge_sort_Permutation.
  - intros l. apply (StronglySorted_merge_sort in_order).
Defined.

(** ** What the snapshot shows *)
Lemma row_of_shows wo : shows (row_of wo) wo = true.
Proof.
  unfold shows, ids_match, same_non_empty, row_of. simpl.
  assert (forall x, id_eqb x x = true) as Hr by (intros; by apply bool_decide_eq_true_2).
  rewrite !Hr, !Z.eqb_refl. replace (side_eqb (wo_side wo) (wo_side wo)) with true by (by destruct (wo_side wo)).
  destruct (nonempty (wo_exchange_order_id wo)), (nonempty (wo_client_order_id wo)); reflexivity.
Qed.

Lemma overlay_grows rows wo : exists extra, overlay rows wo = rows ++ extra.
Proof.
  unfold overlay. destruct (_ || _); [exists []; by rewrite app_nil_r|].
  destruct (existsb _ _); [exists []; by rewrite app_nil_r|by eexists].
Qed.
Lemma overlay_shows rows wo : active wo = true -> exists r, r ∈ overlay rows wo /\ shows r wo = true.
Proof.
  intros Ha. unfold overlay, active in *. destruct (wo_occupied wo), (wo_is_terminal wo); try done. simpl.
  destruct (existsb _ rows) eqn:E.
  - apply existsb_exists in E as (r & Hr & Hs). exists r. split; [by apply list_elem_of_In|done].
  - exists (row_of wo). split; [apply elem_of_app; right; by left|apply row_of_shows].
Qed.
Lemma overlay_all t rows :
  (exists extra, foldl overlay rows t = rows ++ extra) /\
  (forall wo, wo ∈ active_orders t -> exists r, r ∈ foldl overlay rows t /\ shows r wo = true).
Proof.
  revert rows. induction t as [|wo t IH]; intros rows.
  { split; [exists []; by rewrite app_nil_r|]. intros wo Hw. by apply not_elem_of_nil in Hw. }
  cbn [foldl]. destruct (IH (overlay rows wo)) as [[ex Hex] Hall]. destruct (overlay_grows rows wo) as [ex1 Hex1].
  split; [exists (ex1 ++ ex); rewrite Hex, Hex1; by rewrite app_assoc|].
  intros w. unfold active_orders. rewrite list_elem_of_filter. intros [Ha [->|Hw]%elem_of_cons].
  - destruct (overlay_shows rows wo Ha) as (r & Hr & Hs). exists r. rewrite Hex. split; [apply elem_of_app; by left|done].
  - apply Hall. unfold active_orders. by apply list_elem_of_filter.
Qed.

Lemma sorted_split n l : StronglySorted in_order l -> forall a b, a ∈ take n l -> b ∈ drop n l -> in_order a b.
Proof.
  intros Hs. revert n. induction Hs as [|x l Hs IH Hx]; intros [|n] a b; simpl; try (by intros Hn; apply not_elem_of_nil in Hn).
  intros [->|Ha]%elem_of_cons Hb; [|by eapply IH].
  rewrite Forall_forall in Hx. apply Hx. rewrite <- (take_drop n l). apply elem_of_app. by right.
Qed.

Section SnapshotSpec.
Context `{RowSort}.

Lemma sorted_rows_spec rows : sorted_rows rows ≡ₚ rows /\ StronglySorted in_order (sorted_rows rows).
Proof.
  unfold sorted_rows. destruct (Nat.ltb_spec 1 (length rows)); [split; [apply row_sort_perm|apply row_sort_sorted]|].
  split; [done|]. destruct rows as [|r [|? ?]]; [constructor|repeat constructor|simpl in *; lia].
Qed.

(** The snapshot shows the newest working orders.  Its rows are the first 64 of a
    list that is sorted newest first, contains every working order of the mirror
    and, for every order the tracker has working, a row that matches it; the rows
    left out come after all rows shown. *)
Theorem snapshot_shows_newest (tracker : option WorkingOrderTracker) (ui : UiMirror) :
  exists l, l ≡ₚ working_rows tracker ui /\ StronglySorted in_order l /\
    snapshot_working tracker ui = to_working <$> take kMaxUiWorkingOrders l /\
    (forall a b, a ∈ take kMaxUiWorkingOrders l -> b ∈ drop kMaxUiWorkingOrders l -> in_order a b) /\
    (forall r, r ∈ ui_account_working_orders_ ui -> is_working_row r = true -> r ∈ l) /\
    (forall t wo, tracker = Some t -> wo ∈ active_orders t -> exists r, r ∈ l /\ shows r wo = true).
Proof.
  destruct (sorted_rows_spec (working_rows tracker ui)) as [Hp Hs].
  exists (sorted_rows (working_rows tracker ui)). split_and!; [done|done|done|by apply sorted_split|..].
  - intros r Hr Hw. rewrite Hp. unfold working_rows.
    set (rows := filter _ _). assert (r ∈ rows) as Hin by (by apply list_elem_of_filter).
    destruct tracker as [t|]; [|done]. destruct (overlay_all t rows) as [[ex ->] _]. apply elem_of_app. by left.
  - intros t wo -> Hw. unfold working_rows. destruct (overlay_all t (filter (fun r => is_working_row r = true) (ui_account_working_orders_ ui))) as [_ Hall].
    destruct (Hall wo Hw) as (r & Hr & Hm). exists r. by rewrite Hp.
Qed.
End SnapshotSpec.
