(* ===== verification/Scheduler.v ===== *)
(** The strategy scheduler's event pipeline: [src/scheduler/strategy_scheduler.cpp]
    ([process_event], [send_all_cancels], [send_market_cancels], the latency
    probe), with [src/scheduler/strategy_state_stub.cpp], [strategy_stub.cpp],
    [risk_gate_stub.cpp] and the interfaces [src/scheduler/strategy.h] and
    [src/inventory/inventory_sink.h].

    The strategy, the execution sink and the inventory sink are classes of
    operations (the scheduler calls them through virtual functions).  One record
    [Env] holds what an event sees from outside: the clock readings (all
    readings during one event are taken as equal), the inventory view and the
    registry.  The journal is the trace of the calls made to it.  Metrics and
    log messages are left out, except the probe's status.

    The simulator belongs to the scheduler and is shared with the mode sink:
    with a mode sink the shared object is the sink's [dry_sim_] field.

    Shown, for any strategy, sinks and inventory: without a live command a
    dry-running scheduler lets nothing but cancel-alls through to the exchange;
    tracked orders stay within the risk limits along market events; the
    emergency stop cancels every working order first; session and mode follow a
    small automaton.  Two ways in which the tracker and the exchange get out of
    step are exhibited at the end. *)
From stdpp Require Import functions.
From S2P Require Import Prelude Types OrderBook Events Price SpscQueue MarketPair TokenInventory.
From S2P Require Import StrategyBookStore Sinks WorkingOrderTracker RiskGate Slots UiMirror.

(** ** Strategy state *)
Record AssetSchedulerState := mkAssetSchedulerState {
  last_seen_ts : Z;
  event_count : Z;
  asset_trigger_count : Z;
  last_bbo : BBO }.
Definition AssetSchedulerState_default : AssetSchedulerState := mkAssetSchedulerState 0 0 0 BBO_default.

(** The enumerators in order; the counters of the source have 33 places. *)
Definition kind_index (k : SchedulerEventKind) : Z :=
  match k with
  | SchedulerEventKind.MARKET_BOOK_SNAPSHOT => 0 | SchedulerEventKind.MARKET_PRICE_CHANGE => 1
  | SchedulerEventKind.MARKET_BBO_UPDATE => 2 | SchedulerEventKind.MARKET_TICK_SIZE_CHANGE => 3
  | SchedulerEventKind.MARKET_LAST_TRADE => 4
  | SchedulerEventKind.USER_ORDER_UPDATE => 5 | SchedulerEventKind.USER_TRADE_UPDATE => 6
  | SchedulerEventKind.USER_BALANCE_UPDATE => 7
  | SchedulerEventKind.EXEC_ORDER_ACK => 8 | SchedulerEventKind.EXEC_ORDER_REJECT => 9
  | SchedulerEventKind.EXEC_FILL => 10
  | SchedulerEventKind.CONTROL_SHUTDOWN => 11 | SchedulerEventKind.CONTROL_PAUSE => 12
  | SchedulerEventKind.CONTROL_RESUME => 13 | SchedulerEventKind.CONTROL_CONFIG_UPDATE => 14
  | SchedulerEventKind.CONTROL_CANCEL_ALL => 15 | SchedulerEventKind.CONTROL_SET_MODE => 16
  | SchedulerEventKind.CONTROL_SET_SPREAD => 17 | SchedulerEventKind.CONTROL_SET_SIZE => 18
  | SchedulerEventKind.CONTROL_ENABLE_STRATEGY => 19
  | SchedulerEventKind.CONTROL_INVENTORY_SPLIT => 20 | SchedulerEventKind.CONTROL_INVENTORY_MERGE => 21
  | SchedulerEventKind.CONTROL_INVENTORY_REDEEM => 22
  | SchedulerEventKind.MARKET_NEW_MARKET => 23 | SchedulerEventKind.MARKET_RESOLVED => 24
  | SchedulerEventKind.SLOT_ACTIVATED => 25 | SchedulerEventKind.SLOT_CLOSING => 26
  | SchedulerEventKind.SLOT_PROMOTED => 27 | SchedulerEventKind.SLOT_DEMOTED => 28
  | SchedulerEventKind.SLOT_REMOVED => 29
  | SchedulerEventKind.CONTROL_START_SESSION => 30 | SchedulerEventKind.CONTROL_STOP_SESSION => 31
  | SchedulerEventKind.CONTROL_LATENCY_PROBE => 32
  | SchedulerEventKind.CONTROL_MARKET_SELL_ALL => 33 | SchedulerEventKind.CONTROL_MARKET_SELL_DOWN => 34
  end.
Definition kSchedulerEventKindCount : Z := 33.
Definition kMaxTraceEntries : nat := 1024.

Record StrategyStateStub := mkStrategyStateStub {
  total_events_ : Z;
  cycle_count_ : Z;
  trigger_count_ : Z;
  source_counts_ : EventSource -> Z;
  kind_counts_ : SchedulerEventKind -> Z;
  asset_states_ : gmap AssetId AssetSchedulerState;
  trace_buf_ : list (EventSource * SchedulerEventKind * Z);
  trace_enabled_ : bool;
  strict_assets_ : bool }.
Definition StrategyStateStub_new : StrategyStateStub :=
  mkStrategyStateStub 0 0 0 (fun _ => 0) (fun _ => 0) ∅ [] false false.

Definition touch_asset (ev : SchedulerEvent) (a : AssetSchedulerState) : AssetSchedulerState :=
  let a := a <| last_seen_ts := recv_ts ev |> <| event_count ::= Z.succ |> in
  if bool_decide (source ev = EventSource.MARKET_WS) then a <| last_bbo := ev_bbo ev |> else a.

Definition state_on_event (ev : SchedulerEvent) (s : StrategyStateStub) : StrategyStateStub :=
  let s := s <| total_events_ ::= Z.succ |>
             <| source_counts_ ::= fun f => <[source ev := f (source ev) + 1]> f |> in
  let s := if kind_index (kind ev) <? kSchedulerEventKindCount
           then s <| kind_counts_ ::= fun f => <[kind ev := f (kind ev) + 1]> f |> else s in
  let s := if nonempty (asset_id ev) then
             match asset_states_ s !! asset_id ev with
             | Some a => s <| asset_states_ ::= <[asset_id ev := touch_asset ev a]> |>
             | None => if strict_assets_ s then s
                       else s <| asset_states_ ::= <[asset_id ev := touch_asset ev AssetSchedulerState_default]> |>
             end
           else s in
  if trace_enabled_ s && (length (trace_buf_ s) <? kMaxTraceEntries)%nat
  then s <| trace_buf_ ::= fun l => l ++ [(source ev, kind ev, seqno ev)] |> else s.

(** ** Interfaces *)
Inductive InventoryOpType := SPLIT | MERGE | REDEEM.
Record InventoryOpRequest := mkInventoryOpRequest {
  ior_type : InventoryOpType;
  ior_condition_id : AssetId;
  ior_token_id : AssetId;
  ior_token_id_up : AssetId;
  ior_token_id_down : AssetId;
  ior_quantity : Z;
  ior_request_id : Z;
  ior_created_ts : Z }.
Class InventoryOpSink (K : Type) := { try_request : InventoryOpRequest -> K -> K * bool }.

Record StrategyContext (I : Type) := mkStrategyContext {
  ctx_event : SchedulerEvent;
  ctx_books : StrategyBookStore;
  ctx_inventory : option I;
  ctx_tracker : option WorkingOrderTracker;
  ctx_pairs : option MarketPairRegistry;
  ctx_state : StrategyStateStub;
  ctx_current_time : Z;
  ctx_slot_map : option SlotTokenMap;
  ctx_planner : QuotePlanner }.

(** A strategy [S] that reads an inventory [I] and may ask an inventory sink [K]
    for operations.  [set_dry_run] is the identity but for the quoting strategy. *)
Class Strategy (S I K : Type) := {
  st_evaluate : StrategyContext I -> option K -> S -> S * option K * list ExecutionIntent;
  st_set_enabled : bool -> S -> S;
  st_enabled : S -> bool;
  st_set_size : Z -> S -> S;
  st_set_dry_run : bool -> S -> S;
  st_reset_all_quotes : S -> S;
  st_on_gateway_degraded : S -> S;
  st_on_gateway_recovered : S -> S;
  st_on_rate_limited : S -> S }.

(** ** Stubs used when no strategy or gate is configured *)
Record StrategyStub := mkStrategyStub {
  emit_intents_ : bool;
  invocation_count_ : Z;
  next_intent_id_ : Z }.

Definition stub_evaluate (now : Z) (ev : SchedulerEvent) (s : StrategyStub) : StrategyStub * list ExecutionIntent :=
  let s := s <| invocation_count_ ::= Z.succ |> in
  if negb (emit_intents_ s) then (s, []) else
  if bool_decide (source ev = EventSource.MARKET_WS) && negb (best_bid (ev_bbo ev) =? kInvalidPrice) &&
     negb (best_ask (ev_bbo ev) =? kInvalidPrice) then
    let intent action price id := ExecutionIntent_default
      <| ei_action := action |> <| ei_asset_id := asset_id ev |> <| ei_price := price |>
      <| ei_qty := 100 |> <| ei_created_ts := now |> <| ei_intent_id := id |> in
    let id := next_intent_id_ s in
    (s <| next_intent_id_ := wrap_u32 (wrap_u32 (id + 1) + 1) |>,
     batch_add (batch_add [] (intent IntentAction.WOULD_PLACE_BID (best_bid (ev_bbo ev)) id))
       (intent IntentAction.WOULD_PLACE_ASK (best_ask (ev_bbo ev)) (wrap_u32 (id + 1))))
  else (s, []).

Record RiskGateStub := mkRiskGateStub { stub_check_count_ : Z; stub_allow_count_ : Z; stub_deny_count_ : Z }.
Definition stub_gate_evaluate (g : RiskGateStub) : RiskGateStub * RiskDecision :=
  (g <| stub_check_count_ ::= Z.succ |> <| stub_allow_count_ ::= Z.succ |>, ALLOW).

(** ** Journal, probe and counters *)
Inductive JournalEntry :=
| JOrderStatus (ev : SchedulerEvent)
| JFill (ev : SchedulerEvent) (net_position_after : Z)
| JExecFeedback (ev : SchedulerEvent)
| JModeChange (old_mode new_mode : ExecutionMode)
| JCancelAll (trigger_source : EventSource) (working_count : Z)
| JStrategyEval (ev : SchedulerEvent) (bid ask price0 price1 qty0 : Z) (intents : Z)
| JRiskDecision (intent : ExecutionIntent) (d : RiskDecision) (r : RiskDenyReason) (position notional : Z)
| JOrderSent (intent : ExecutionIntent) (bid ask : Z).

Module ProbePhase.
Inductive ProbePhase := IDLE | PLACING | WAITING_CANCEL | CANCELLING | DONE | FAILED.
#[export] Instance ProbePhase_eq_dec : EqDecision ProbePhase.
Proof. solve_decision. Defined.
End ProbePhase.
Export (hints) ProbePhase.
Abbreviation ProbePhase := ProbePhase.ProbePhase.

Record ProbeState := mkProbeState {
  pb_phase : ProbePhase;
  pb_client_order_id : OrderId;
  pb_exchange_order_id : OrderId;
  pb_place_intent_id : Z;
  pb_cancel_intent_id : Z;
  pb_place_sent_ts : Z;
  pb_place_ack_ts : Z;
  pb_cancel_sent_ts : Z;
  pb_cancel_ack_ts : Z;
  pb_probe_start_ts : Z;
  pb_order_rtt_ns : Z;
  pb_cancel_rtt_ns : Z;
  pb_roundtrip_ns : Z;
  pb_asset_id : AssetId;
  pb_market_id : AssetId }.
Definition ProbeState_default : ProbeState :=
  mkProbeState ProbePhase.IDLE "" "" 0 0 0 0 0 0 0 0 0 0 "" "".

Record CycleCounters := mkCycleCounters {
  cc_events : Z;
  cc_events_market : Z;
  cc_events_user : Z;
  cc_events_exec : Z;
  cc_events_control : Z;
  cc_strategy_calls : Z;
  cc_risk_checks : Z;
  cc_intents_produced : Z;
  cc_intents_allowed : Z }.
Definition CycleCounters_default : CycleCounters := mkCycleCounters 0 0 0 0 0 0 0 0 0.

(** ** The scheduler *)
Section Scheduler.
Context {I SK ST K : Type} `{InventoryView I} `{ExecSink SK} `{InventoryOpSink K} `{Strategy ST I K}.

Record Env := mkEnv {
  env_now : Z;
  env_wall_ms : Z;
  env_inventory : option I;
  env_pairs : option MarketPairRegistry }.

Record StrategyScheduler := mkStrategyScheduler {
  state_ : StrategyStateStub;
  strategy_books_ : StrategyBookStore;
  quote_planner_ : QuotePlanner;
  strategy_ : StrategyStub;
  strategy_ptr_ : option ST;
  risk_gate_ : RiskGateStub;
  risk_gate_ptr_ : option RiskGate;
  active_sink_ : SK;
  mode_sink_ : option (ModeFilteredSink SK);
  own_dry_run_sim_ : DryRunSimulator;
  working_tracker_ : option WorkingOrderTracker;
  session_ : TradingSession;
  journal_ : option (list JournalEntry);
  inventory_op_sink_ : option K;
  next_inventory_request_id_ : Z;
  has_slot_queue_ : bool;
  slot_token_map_ : SlotTokenMap;
  ui_ : UiMirror;
  probe_ : ProbeState;
  next_probe_intent_id_ : Z;
  probe_status_ : Z;
  sell_all_id_ : Z;
  cycle_counters_ : CycleCounters;
  recv_to_proc_max_ns_ : Z }.

Implicit Types (s : StrategyScheduler) (env : Env) (ev : SchedulerEvent).

(** The constructor: the simulator is wired into the mode sink and enabled when
    that starts in dry-run mode.  The probe's and the flattening's intent
    numbers have their own ranges. *)
Definition StrategyScheduler_new (emit_intents : bool) (sink : SK) (strategy : option ST)
    (gate : option RiskGate) (mode_sink : option (ModeFilteredSink SK))
    (tracker : option WorkingOrderTracker) (inventory_op_sink : option K)
    (journal_writer : option (list JournalEntry)) (slot_queue : bool) : StrategyScheduler :=
  let wire m := mkModeFilteredSink (inner_ m) (mode_ m)
    (Some (set_enabled (bool_decide (mode_ m = ExecutionMode.DRY_RUN)) DryRunSimulator_new))
    (dry_run_logged_ m) (forwarded_ m) in
  mkStrategyScheduler StrategyStateStub_new StrategyBookStore_new QuotePlanner_new (mkStrategyStub emit_intents 0 0)
    strategy (mkRiskGateStub 0 0 0) gate sink (wire <$> mode_sink) DryRunSimulator_new tracker
    TradingSession_default journal_writer inventory_op_sink 1 slot_queue [] UiMirror_new
    ProbeState_default 900000 0 800000 CycleCounters_default 0.

(** *** Shared objects *)
Definition with_sim (f : DryRunSimulator -> DryRunSimulator) s : StrategyScheduler :=
  match mode_sink_ s with
  | Some m => s <| mode_sink_ := Some (mkModeFilteredSink (inner_ m) (mode_ m) (f <$> dry_sim_ m)
                                          (dry_run_logged_ m) (forwarded_ m)) |>
  | None => s <| own_dry_run_sim_ ::= f |>
  end.

Definition with_strategy (f : ST -> ST) s : StrategyScheduler := s <| strategy_ptr_ ::= fmap f |>.

Definition journal (e : JournalEntry) s : StrategyScheduler := s <| journal_ ::= fmap (fun l => l ++ [e]) |>.

(** The mode sink when there is one, else the active sink. *)
Definition sink_accept (intent : ExecutionIntent) s : StrategyScheduler * SinkResult :=
  match mode_sink_ s with
  | Some m => let '(m, r) := accept intent m in (s <| mode_sink_ := Some m |>, r)
  | None => let '(k, r) := accept intent (active_sink_ s) in (s <| active_sink_ := k |>, r)
  end.

Definition sink_accept_all (intents : list ExecutionIntent) s : StrategyScheduler :=
  foldl (fun s i => (sink_accept i s).1) s intents.

Definition in_dry_run s : bool :=
  match mode_sink_ s with Some m => bool_decide (mode_ m = ExecutionMode.DRY_RUN) | None => false end.

Definition set_sink_mode (mode : ExecutionMode) s : StrategyScheduler := s <| mode_sink_ ::= fmap (set_mode mode) |>.

(** Switch the mode sink, with a journal record. *)
Definition change_mode (mode : ExecutionMode) s : StrategyScheduler :=
  match mode_sink_ s with
  | Some m => set_sink_mode mode (journal (JModeChange (mode_ m) mode) s)
  | None => s
  end.

Definition send_all_cancels s : StrategyScheduler :=
  match working_tracker_ s with
  | None => s
  | Some t => sink_accept_all (cancel_of <$> active_orders t) s
  end.

Definition send_market_cancels (condition_id : AssetId) s : StrategyScheduler :=
  match working_tracker_ s with
  | None => s
  | Some t => sink_accept_all
      (cancel_of <$> filter (fun o => wo_market_id o = condition_id) (active_orders t)) s
  end.

Definition cancel_all_intent (now : Z) : ExecutionIntent :=
  ExecutionIntent_default <| ei_action := IntentAction.WOULD_CANCEL_ALL |> <| ei_created_ts := now |>.

(** Cancel every known order, then everything at the exchange. *)
Definition cancel_everything env s : StrategyScheduler :=
  (sink_accept (cancel_all_intent (env_now env)) (send_all_cancels s)).1.

(** *** Bookkeeping before the strategy *)
Definition update_state env ev s : StrategyScheduler :=
  let s := if recv_ts ev >? 0
           then s <| recv_to_proc_max_ns_ ::= fun m => Z.max m (env_now env - recv_ts ev) |> else s in
  let s := s <| state_ ::= state_on_event ev |> in
  if bool_decide (source ev = EventSource.MARKET_WS) &&
     bool_decide (kind ev = SchedulerEventKind.MARKET_TICK_SIZE_CHANGE) && (market_tick_size ev >? 0)
  then s <| quote_planner_ ::= planner_set_tick_size (asset_id ev) (market_tick_size ev) |> else s.

Definition position_of_env env (tok : AssetId) : Z :=
  match env_inventory env with Some i => position_for i tok | None => 0 end.

Definition journal_user env ev s : StrategyScheduler :=
  if negb (bool_decide (source ev = EventSource.USER_WS)) then s else
  match kind ev with
  | SchedulerEventKind.USER_ORDER_UPDATE => journal (JOrderStatus ev) s
  | SchedulerEventKind.USER_TRADE_UPDATE =>
      if is_new_fill ev then journal (JFill ev (position_of_env env (asset_id ev))) s else s
  | _ => s
  end.

Definition update_ui env ev s : StrategyScheduler :=
  match source ev with
  | EventSource.USER_WS =>
      match kind ev with
      | SchedulerEventKind.USER_ORDER_UPDATE =>
          s <| ui_ ::= on_user_order_event_for_ui (working_tracker_ s) ev |>
      | SchedulerEventKind.USER_TRADE_UPDATE => s <| ui_ ::= on_user_trade_event_for_ui ev |>
      | _ => s
      end
  | EventSource.EXEC_INTERNAL =>
      if in_dry_run s then s
      else s <| ui_ ::= on_exec_feedback_for_ui (env_now env) (working_tracker_ s) ev |>
  | _ => s
  end.

Definition feed_tracker ev s : StrategyScheduler :=
  if in_dry_run s then s else
  match source ev with
  | EventSource.EXEC_INTERNAL => s <| working_tracker_ ::= fmap (on_exec_feedback ev) |>
  | EventSource.USER_WS => s <| working_tracker_ ::= fmap (on_user_update ev) |>
  | _ => s
  end.

Definition journal_exec ev s : StrategyScheduler :=
  if bool_decide (source ev = EventSource.EXEC_INTERNAL) then journal (JExecFeedback ev) s else s.

(** *** Execution feedback *)
Definition emergency_stop env s : StrategyScheduler :=
  let s := cancel_everything env s in
  let s := change_mode ExecutionMode.DRY_RUN s in
  let s := with_sim (set_enabled true) s in
  if bool_decide (ss_state (session_ s) = SessionState.IDLE) then s
  else s <| session_ := TradingSession_default |>.

Definition route_feedback env ev s : StrategyScheduler :=
  match strategy_ptr_ s with
  | None => s
  | Some _ =>
      if negb (bool_decide (source ev = EventSource.EXEC_INTERNAL)) then s else
      match exec_feedback_kind ev with
      | ExecFeedbackKind.GATEWAY_DEGRADED => with_strategy st_on_gateway_degraded s
      | ExecFeedbackKind.GATEWAY_RECOVERED => with_strategy st_on_gateway_recovered s
      | ExecFeedbackKind.EXCHANGE_UNAVAILABLE => emergency_stop env s
      | ExecFeedbackKind.RATE_LIMITED => with_strategy st_on_rate_limited s
      | _ => s
      end
  end.

(** *** Control events *)
Definition control_set_mode ev s : StrategyScheduler :=
  let new_mode := control_mode ev in
  let dry := bool_decide (new_mode = ExecutionMode.DRY_RUN) in
  let old_mode := match mode_sink_ s with Some m => mode_ m | None => ExecutionMode.DRY_RUN end in
  let s := journal (JModeChange old_mode new_mode) s in
  let s := set_sink_mode new_mode s in
  let s := with_sim (set_enabled dry) s in
  let s := with_strategy (st_set_dry_run dry) s in
  if dry then s else
  let s := with_sim sim_reset s in
  let s := s <| working_tracker_ ::= fmap clear_all |> in
  with_strategy st_reset_all_quotes s.

Definition control_cancel_all env ev s : StrategyScheduler :=
  let working := match working_tracker_ s with Some t => working_count t | None => 0 end in
  cancel_everything env (journal (JCancelAll (source ev) working) s).

Definition control_inventory env ev (op : InventoryOpType) s : StrategyScheduler :=
  match inventory_op_sink_ s with
  | None => s
  | Some k =>
      let req := mkInventoryOpRequest op (control_condition_id ev) (control_token_id ev) "" ""
                   (control_qty_param ev) (next_inventory_request_id_ s) (env_now env) in
      s <| next_inventory_request_id_ ::= fun n => wrap_u32 (n + 1) |>
        <| inventory_op_sink_ := Some (try_request req k).1 |>
  end.

Definition slot_closing env ev s : StrategyScheduler :=
  let s := s <| slot_token_map_ ::= slot_event (env_pairs env) ev |> in
  match working_tracker_ s with
  | None => s
  | Some t => sink_accept_all (cancel_intents_for_market (control_condition_id ev) t) s
  end.

(** The session's reaction to a promoted market: pending sessions go live at
    this boundary, active ones end when the market exceeds their end. *)
Definition session_go_live env s : StrategyScheduler :=
  let s := s <| session_ ::= fun x => x <| ss_state := SessionState.ACTIVE |>
                                        <| started_at_ms := env_wall_ms env |> |> in
  let s := change_mode ExecutionMode.LIVE s in
  let s := with_sim (fun d => sim_reset (set_enabled false d)) s in
  with_strategy (st_set_dry_run false) s.

Definition session_end env s : StrategyScheduler :=
  let s := cancel_everything env s in
  let s := change_mode ExecutionMode.DRY_RUN s in
  let s := with_sim (set_enabled true) s in
  let s := with_strategy (fun x => st_set_dry_run true (st_set_enabled false x)) s in
  s <| session_ := TradingSession_default |>.

Definition slot_promoted env ev s : StrategyScheduler :=
  let s := s <| slot_token_map_ ::= slot_event (env_pairs env) ev |> in
  let window_end_s := control_qty_param ev in
  match ss_state (session_ s) with
  | SessionState.PENDING =>
      if exceeds_end window_end_s (session_ s) then s <| session_ := TradingSession_default |>
      else session_go_live env s
  | SessionState.ACTIVE =>
      let s := s <| session_ ::= fun x => x <| markets_entered ::= Z.succ |> |> in
      if exceeds_end window_end_s (session_ s) then session_end env s else s
  | SessionState.IDLE => s
  end.

Definition start_session ev s : StrategyScheduler :=
  if negb (bool_decide (ss_state (session_ s) = SessionState.IDLE)) then s else
  let s := s <| session_ ::= fun x => x <| end_time_s := control_qty_param ev |>
             <| effective_end_s := compute_effective_end (control_qty_param ev) |>
             <| ss_state := SessionState.PENDING |> |> in
  with_strategy (st_set_enabled true) s.

Definition stop_session env s : StrategyScheduler :=
  if bool_decide (ss_state (session_ s) = SessionState.IDLE) then s else
  let s := cancel_everything env s in
  let s := change_mode ExecutionMode.DRY_RUN s in
  let s := with_sim (set_enabled true) s in
  s <| session_ := TradingSession_default |>.

(** *** The latency probe *)
Definition probe_fail s : StrategyScheduler := s <| probe_status_ := 3 |>.

(** The market of the first active entry of the token table that is registered. *)
Fixpoint probe_entry (reg : MarketPairRegistry) (m : SlotTokenMap) : option MarketPair :=
  match m with
  | [] => None
  | e :: m =>
      if se_active e then
        match find_by_condition reg (se_condition_id e) with
        | Some p => Some p
        | None => probe_entry reg m
        end
      else probe_entry reg m
  end.

(** Otherwise any registered market (the source takes the first in the hash
    table's order; here the first in the map's). *)
Definition probe_target env s : option MarketPair :=
  match env_pairs env with
  | None => None
  | Some reg =>
      match probe_entry reg (slot_token_map_ s) with
      | Some p => Some p
      | None => snd <$> head (map_to_list (by_condition_ reg))
      end
  end.

(** ["PROBE_%u"] *)
Definition probe_order_id (id : Z) : OrderId := mk_OrderId ("PROBE_" +:+ String.string_of_list_ascii (to_string id)).

Definition latency_probe env s : StrategyScheduler :=
  match pb_phase (probe_ s) with
  | ProbePhase.IDLE | ProbePhase.DONE | ProbePhase.FAILED =>
      if in_dry_run s then probe_fail s else
      if match strategy_ptr_ s with Some x => st_enabled x | None => false end then probe_fail s else
      match probe_target env s with
      | None => probe_fail s
      | Some p =>
          let now := env_now env in
          let id := next_probe_intent_id_ s in
          let oid := probe_order_id id in
          let s := s <| probe_ := ProbeState_default
                        <| pb_phase := ProbePhase.PLACING |> <| pb_probe_start_ts := now |>
                        <| pb_asset_id := token_id_up p |> <| pb_market_id := condition_id p |>
                        <| pb_place_intent_id := id |> <| pb_client_order_id := oid |>
                        <| pb_place_sent_ts := now |> |>
                     <| next_probe_intent_id_ := wrap_u32 (id + 1) |> in
          let place := ExecutionIntent_default
            <| ei_action := IntentAction.WOULD_PLACE_BID |> <| ei_asset_id := token_id_up p |>
            <| ei_market_id := condition_id p |> <| ei_client_order_id := oid |>
            <| ei_price := 100 |> <| ei_qty := qty_from_int 5 |> <| ei_intent_id := id |>
            <| ei_created_ts := now |> <| ei_order_type := GTC |>
            <| ei_neg_risk := neg_risk p |> <| ei_fee_rate_bps := fee_rate_bps p |> in
          let '(s, result) := sink_accept place s in
          if bool_decide (result = SinkResult.ACCEPTED) then s <| probe_status_ := 1 |>
          else probe_fail (s <| probe_ ::= fun x => x <| pb_phase := ProbePhase.FAILED |> |>)
      end
  | _ => s
  end.

Definition handle_probe_feedback env ev s : StrategyScheduler :=
  let p := probe_ s in
  let now := env_now env in
  let failed := probe_fail (s <| probe_ := p <| pb_phase := ProbePhase.FAILED |> |>) in
  if negb (id_eqb (client_order_id ev) (pb_client_order_id p)) then s else
  match pb_phase p with
  | ProbePhase.PLACING =>
      match exec_feedback_kind ev with
      | ExecFeedbackKind.ORDER_ACCEPTED =>
          s <| probe_ := p <| pb_place_ack_ts := now |> <| pb_order_rtt_ns := now - pb_place_sent_ts p |>
                           <| pb_exchange_order_id := order_id ev |> <| pb_phase := ProbePhase.WAITING_CANCEL |> |>
      | ExecFeedbackKind.ORDER_REJECTED | ExecFeedbackKind.RATE_LIMITED | ExecFeedbackKind.TIMEOUT => failed
      | _ => s
      end
  | ProbePhase.CANCELLING =>
      match exec_feedback_kind ev with
      | ExecFeedbackKind.CANCEL_CONFIRMED =>
          s <| probe_ := p <| pb_cancel_ack_ts := now |> <| pb_cancel_rtt_ns := now - pb_cancel_sent_ts p |>
                           <| pb_roundtrip_ns := now - pb_probe_start_ts p |> <| pb_phase := ProbePhase.DONE |> |>
            <| probe_status_ := 2 |>
      | ExecFeedbackKind.ORDER_REJECTED | ExecFeedbackKind.TIMEOUT => failed
      | _ => s
      end
  | _ => s
  end.

Definition check_probe_cancel_timer env s : StrategyScheduler :=
  let p := probe_ s in
  let now := env_now env in
  if negb (bool_decide (pb_phase p = ProbePhase.WAITING_CANCEL)) then s else
  if now - pb_place_ack_ts p <? 1000000000 then s else
  let id := next_probe_intent_id_ s in
  let s := s <| next_probe_intent_id_ := wrap_u32 (id + 1) |>
             <| probe_ := p <| pb_cancel_intent_id := id |> <| pb_cancel_sent_ts := now |>
                            <| pb_phase := ProbePhase.CANCELLING |> |> in
  let cancel := ExecutionIntent_default
    <| ei_action := IntentAction.WOULD_CANCEL_BID |> <| ei_asset_id := pb_asset_id p |>
    <| ei_market_id := pb_market_id p |> <| ei_exchange_order_id := pb_exchange_order_id p |>
    <| ei_client_order_id := pb_client_order_id p |> <| ei_intent_id := id |> <| ei_created_ts := now |> in
  (sink_accept cancel s).1.

Definition check_probe_timeout env s : StrategyScheduler :=
  match pb_phase (probe_ s) with
  | ProbePhase.IDLE | ProbePhase.DONE | ProbePhase.FAILED => s
  | _ =>
      if env_now env - pb_probe_start_ts (probe_ s) >? 10000000000
      then probe_fail (s <| probe_ ::= fun x => x <| pb_phase := ProbePhase.FAILED |> |>) else s
  end.

(** *** Flattening: sell every positive position *)
Definition sell_tokens (sell_down : bool) (p : MarketPair) : list AssetId :=
  if sell_down then [token_id_down p] else [token_id_up p; token_id_down p].

Definition sell_token env (cond_id : AssetId) (p : MarketPair) s (token : AssetId) : StrategyScheduler :=
  let pos := position_of_env env token in
  if pos <=? 0 then s else
  let rounded := (pos ÷ 10000) * 10000 in
  if rounded <=? 0 then s else
  let fak := ExecutionIntent_default
    <| ei_action := IntentAction.WOULD_PLACE_ASK |> <| ei_asset_id := token |> <| ei_market_id := cond_id |>
    <| ei_price := 100 |> <| ei_qty := rounded |> <| ei_order_type := FAK |>
    <| ei_intent_id := sell_all_id_ s |> <| ei_created_ts := env_now env |>
    <| ei_neg_risk := neg_risk p |> <| ei_fee_rate_bps := fee_rate_bps p |> in
  (sink_accept fak (s <| sell_all_id_ ::= fun n => wrap_u32 (n + 1) |>)).1.

Definition sell_market env (sell_down : bool) s (entry : AssetId * MarketPair) : StrategyScheduler :=
  foldl (sell_token env entry.1 entry.2) s (sell_tokens sell_down entry.2).

Definition market_sell env (sell_down : bool) s : StrategyScheduler :=
  match mode_sink_ s with
  | None => s
  | Some m =>
      let s := with_strategy (st_set_enabled false) s in
      let prev_mode := mode_ m in
      let s := if bool_decide (prev_mode = ExecutionMode.LIVE) then s else set_sink_mode ExecutionMode.LIVE s in
      let s := send_all_cancels s in
      let s := match env_inventory env, env_pairs env with
               | Some _, Some reg => foldl (sell_market env sell_down) s (map_to_list (by_condition_ reg))
               | _, _ => s
               end in
      if bool_decide (prev_mode = ExecutionMode.LIVE) then s else set_sink_mode prev_mode s
  end.

(** *** All control events *)
Definition handle_control env ev s : StrategyScheduler :=
  if negb (bool_decide (source ev = EventSource.CONTROL)) then s else
  match kind ev with
  | SchedulerEventKind.CONTROL_SET_MODE => control_set_mode ev s
  | SchedulerEventKind.CONTROL_SET_SIZE =>
      with_strategy (st_set_size (control_int_param ev * kQtyScale)) s
  | SchedulerEventKind.CONTROL_ENABLE_STRATEGY => with_strategy (st_set_enabled (control_bool_param ev)) s
  | SchedulerEventKind.CONTROL_CANCEL_ALL => control_cancel_all env ev s
  | SchedulerEventKind.CONTROL_INVENTORY_SPLIT => control_inventory env ev SPLIT s
  | SchedulerEventKind.CONTROL_INVENTORY_MERGE => control_inventory env ev MERGE s
  | SchedulerEventKind.CONTROL_INVENTORY_REDEEM => control_inventory env ev REDEEM s
  | SchedulerEventKind.SLOT_ACTIVATED | SchedulerEventKind.SLOT_DEMOTED | SchedulerEventKind.SLOT_REMOVED =>
      s <| slot_token_map_ ::= slot_event (env_pairs env) ev |>
  | SchedulerEventKind.SLOT_CLOSING => slot_closing env ev s
  | SchedulerEventKind.SLOT_PROMOTED => slot_promoted env ev s
  | SchedulerEventKind.CONTROL_START_SESSION => start_session ev s
  | SchedulerEventKind.CONTROL_STOP_SESSION => stop_session env s
  | SchedulerEventKind.CONTROL_LATENCY_PROBE => latency_probe env s
  | SchedulerEventKind.CONTROL_MARKET_SELL_ALL => market_sell env false s
  | SchedulerEventKind.CONTROL_MARKET_SELL_DOWN => market_sell env true s
  | _ => s
  end.

(** *** Counters and trigger *)
Definition count_event ev s : StrategyScheduler :=
  s <| cycle_counters_ ::= fun c =>
    (match source ev with
     | EventSource.MARKET_WS => c <| cc_events_market ::= Z.succ |>
     | EventSource.USER_WS => c <| cc_events_user ::= Z.succ |>
     | EventSource.EXEC_INTERNAL => c <| cc_events_exec ::= Z.succ |>
     | EventSource.CONTROL => c <| cc_events_control ::= Z.succ |>
     end) <| cc_events ::= Z.succ |> |>.

Definition should_trigger ev : bool :=
  match source ev with
  | EventSource.MARKET_WS =>
      match kind ev with
      | SchedulerEventKind.MARKET_BOOK_SNAPSHOT | SchedulerEventKind.MARKET_PRICE_CHANGE
      | SchedulerEventKind.MARKET_BBO_UPDATE | SchedulerEventKind.MARKET_RESOLVED => true
      | _ => false
      end
  | EventSource.USER_WS | EventSource.EXEC_INTERNAL => true
  | EventSource.CONTROL =>
      match kind ev with
      | SchedulerEventKind.SLOT_ACTIVATED | SchedulerEventKind.SLOT_CLOSING => true
      | _ => false
      end
  end.

(** *** Strategy, planner, gate, sink *)
Definition call_strategy env ev s : StrategyScheduler * list ExecutionIntent :=
  match strategy_ptr_ s with
  | Some x =>
      let is_live := match mode_sink_ s with Some m => negb (bool_decide (mode_ m = ExecutionMode.DRY_RUN))
                                           | None => false end in
      let ctx := mkStrategyContext I ev (strategy_books_ s) (env_inventory env) (working_tracker_ s)
                   (env_pairs env) (state_ s) (env_now env)
                   (if has_slot_queue_ s then Some (slot_token_map_ s) else None) (quote_planner_ s) in
      let '(x, k, intents) := st_evaluate ctx (if is_live then inventory_op_sink_ s else None) x in
      (s <| strategy_ptr_ := Some x |> <| inventory_op_sink_ := if is_live then k else inventory_op_sink_ s |>,
       intents)
  | None =>
      let '(x, intents) := stub_evaluate (env_now env) ev (strategy_ s) in
      (s <| strategy_ := x |>, intents)
  end.

(** Negative-risk flag and fee rate of the intent's market. *)
Definition enrich env (i : ExecutionIntent) : ExecutionIntent :=
  match env_pairs env with
  | None => i
  | Some reg =>
      if nonempty (ei_market_id i) then
        match find_by_condition reg (ei_market_id i) with
        | Some p => i <| ei_neg_risk := neg_risk p |> <| ei_fee_rate_bps := fee_rate_bps p |>
        | None => i
        end
      else i
  end.

Definition gate_evaluate env (i : ExecutionIntent) s : StrategyScheduler * RiskResult :=
  match risk_gate_ptr_ s with
  | Some g =>
      let '(g, r) := evaluate (env_inventory env) (working_tracker_ s) (env_pairs env) i g in
      (s <| risk_gate_ptr_ := Some g |>, r)
  | None =>
      let '(g, d) := stub_gate_evaluate (risk_gate_ s) in
      (s <| risk_gate_ := g |>, mkRiskResult d RiskDenyReason.NONE)
  end.

Definition journal_risk env (i : ExecutionIntent) (r : RiskResult) s : StrategyScheduler :=
  let notional := match working_tracker_ s with Some t => total_working_notional t | None => 0 end in
  journal (JRiskDecision i (decision r) (reason r) (position_of_env env (ei_asset_id i)) notional) s.

(** One planned intent through the gate, the sink and the tracker. *)
Definition submit env ev s (i : ExecutionIntent) : StrategyScheduler :=
  let '(s, r) := gate_evaluate env i s in
  let s := s <| cycle_counters_ ::= fun c => c <| cc_risk_checks ::= Z.succ |> |> in
  if negb (bool_decide (decision r = ALLOW)) then journal_risk env i r s else
  let s := s <| cycle_counters_ ::= fun c => c <| cc_intents_allowed ::= Z.succ |> |> in
  let s := journal_risk env i r s in
  let '(s, result) := sink_accept i s in
  if negb (bool_decide (result = SinkResult.ACCEPTED)) then s else
  let s := if in_dry_run s then s else s <| working_tracker_ ::= fmap (fun t => (on_intent_sent i t).1) |> in
  journal (JOrderSent i (best_bid (ev_bbo ev)) (best_ask (ev_bbo ev))) s.

Definition journal_eval ev (intents : list ExecutionIntent) s : StrategyScheduler :=
  match intents with
  | [] => s
  | i :: rest =>
      journal (JStrategyEval ev (best_bid (ev_bbo ev)) (best_ask (ev_bbo ev)) (ei_price i)
        (match rest with j :: _ => ei_price j | [] => 0 end) (ei_qty i) (Z.of_nat (length intents))) s
  end.

Definition gate_cancel_all s : StrategyScheduler :=
  match risk_gate_ptr_ s with
  | Some g =>
      if pending_cancel_all_ g
      then (send_all_cancels s) <| risk_gate_ptr_ ::= fmap clear_pending_cancel_all |> else s
  | None => s
  end.

Definition trigger env ev s : StrategyScheduler :=
  let s := s <| state_ ::= fun x => x <| trigger_count_ ::= Z.succ |> |> in
  let '(s, intents) := call_strategy env ev s in
  let s := s <| cycle_counters_ ::= fun c => c <| cc_strategy_calls ::= Z.succ |> |> in
  let s := journal_eval ev intents s in
  let planned := flat_map plan (enrich env <$> intents) in
  let s := foldl (submit env ev) s planned in
  let s := s <| cycle_counters_ ::= fun c => c <| cc_intents_produced ::= fun n => n + Z.of_nat (length planned) |> |> in
  let s := gate_cancel_all s in
  if bool_decide (kind ev = SchedulerEventKind.MARKET_RESOLVED) && nonempty (resolved_condition_id ev)
  then send_market_cancels (resolved_condition_id ev) s else s.

(** *** The whole pipeline *)
Definition process_event env ev s : StrategyScheduler :=
  let s := update_state env ev s in
  let s := journal_user env ev s in
  let s := update_ui env ev s in
  let s := feed_tracker ev s in
  let s := journal_exec ev s in
  let s := route_feedback env ev s in
  let s := handle_control env ev s in
  let s := if bool_decide (source ev = EventSource.EXEC_INTERNAL) then handle_probe_feedback env ev s else s in
  let s := count_event ev s in
  if should_trigger ev then trigger env ev s else s.

(** ** Dry-run isolation *)

(** Steps that keep a dry-running, idle scheduler so, and let nothing but
    cancel-all requests through to the exchange side. *)
Definition isolated s s' : Prop :=
  forall m, mode_sink_ s = Some m -> mode_ m = ExecutionMode.DRY_RUN ->
    ss_state (session_ s) = SessionState.IDLE ->
  exists m' l, mode_sink_ s' = Some m' /\ mode_ m' = ExecutionMode.DRY_RUN /\
    ss_state (session_ s') = SessionState.IDLE /\
    Forall (fun i => ei_action i = IntentAction.WOULD_CANCEL_ALL) l /\
    inner_ m' = accept_all l <$> inner_ m.

Lemma accept_all_app {T} `{ExecSink T} l1 l2 (x : T) : accept_all (l1 ++ l2) x = accept_all l2 (accept_all l1 x).
Proof. unfold accept_all. by rewrite foldl_app. Qed.

Lemma isolated_trans s1 s2 s3 : isolated s1 s2 -> isolated s2 s3 -> isolated s1 s3.
Proof.
  intros H12 H23 m Hm Hd Hi. destruct (H12 m Hm Hd Hi) as (m2 & l2 & Hm2 & Hd2 & Hi2 & Hl2 & E2).
  destruct (H23 m2 Hm2 Hd2 Hi2) as (m3 & l3 & Hm3 & Hd3 & Hi3 & Hl3 & E3).
  exists m3, (l2 ++ l3). split_and!; try done; [by apply Forall_app_2|].
  rewrite E3, E2. destruct (inner_ m); simpl; [|done]. by rewrite accept_all_app.
Qed.

Lemma isolated_same s s' : mode_sink_ s' = mode_sink_ s -> session_ s' = session_ s -> isolated s s'.
Proof.
  intros E1 E2 m Hm Hd Hi. exists m, []. rewrite E1, E2. split_and!; try done. by destruct (inner_ m).
Qed.

Lemma isolated_accept i s : isolated s (sink_accept i s).1.
Proof.
  intros m Hm Hd Hi. unfold sink_accept. rewrite Hm.
  pose proof (accept_mode i m) as E1. pose proof (accept_inner i m) as E2. rewrite Hd in E1, E2.
  destruct (accept i m) as [m' r]. simpl in *. unfold passes in E2.
  destruct (bool_decide (ei_action i = _)) eqn:Ea.
  - apply bool_decide_eq_true in Ea. exists m', [i]. split_and!; [done|done|done|by repeat constructor|].
    rewrite E2. by destruct (inner_ m).
  - exists m', []. split_and!; try done. simpl in E2. rewrite E2. by destruct (inner_ m).
Qed.

Lemma isolated_accept_all l s : isolated s (sink_accept_all l s).
Proof.
  revert s. induction l as [|i l IH]; intros s; [by apply isolated_same|].
  eapply isolated_trans; [apply isolated_accept|apply IH].
Qed.

Lemma isolated_sim f s : isolated s (with_sim f s).
Proof.
  intros m Hm Hd Hi. unfold with_sim. rewrite Hm. simpl. eexists _, []. split_and!; try done.
  simpl. by destruct (inner_ m).
Qed.

Lemma isolated_set_dry s : isolated s (set_sink_mode ExecutionMode.DRY_RUN s).
Proof.
  intros m Hm Hd Hi. unfold set_sink_mode. simpl. rewrite Hm. simpl. eexists _, []. split_and!; try done.
  simpl. by destruct (inner_ m).
Qed.

Lemma isolated_change_dry s : isolated s (change_mode ExecutionMode.DRY_RUN s).
Proof.
  unfold change_mode. destruct (mode_sink_ s) as [m|] eqn:E; [|by apply isolated_same].
  eapply isolated_trans; [|apply isolated_set_dry]. by apply isolated_same.
Qed.

Lemma isolated_reset s : isolated s (s <| session_ := TradingSession_default |>).
Proof.
  intros m Hm Hd Hi. exists m, []. split_and!; try done. by destruct (inner_ m).
Qed.

Lemma isolated_cancels s : isolated s (send_all_cancels s).
Proof. unfold send_all_cancels. case_match; [apply isolated_accept_all|by apply isolated_same]. Qed.

Lemma isolated_market_cancels c s : isolated s (send_market_cancels c s).
Proof. unfold send_market_cancels. case_match; [apply isolated_accept_all|by apply isolated_same]. Qed.

Lemma isolated_cancel_everything env s : isolated s (cancel_everything env s).
Proof. eapply isolated_trans; [apply isolated_cancels|apply isolated_accept]. Qed.

Lemma isolated_stop env s : isolated s (with_sim (set_enabled true) (change_mode ExecutionMode.DRY_RUN (cancel_everything env s))).
Proof.
  eapply isolated_trans; [apply isolated_cancel_everything|].
  eapply isolated_trans; [apply isolated_change_dry|apply isolated_sim].
Qed.

(** Commands that can take the scheduler out of dry-run mode. *)
Definition goes_live ev : bool :=
  bool_decide (source ev = EventSource.CONTROL) &&
  match kind ev with
  | SchedulerEventKind.CONTROL_SET_MODE => bool_decide (control_mode ev = ExecutionMode.LIVE)
  | SchedulerEventKind.CONTROL_START_SESSION | SchedulerEventKind.CONTROL_MARKET_SELL_ALL
  | SchedulerEventKind.CONTROL_MARKET_SELL_DOWN => true
  | _ => false
  end.

Lemma isolated_feedback env ev s : isolated s (route_feedback env ev s).
Proof.
  unfold route_feedback. destruct (strategy_ptr_ s); [|by apply isolated_same].
  destruct (negb _); [by apply isolated_same|]. destruct (exec_feedback_kind ev); try by apply isolated_same.
  unfold emergency_stop. destruct (bool_decide (ss_state _ = _)); [apply isolated_stop|].
  eapply isolated_trans; [apply isolated_stop|apply isolated_reset].
Qed.

Lemma isolated_promoted env ev s : isolated s (slot_promoted env ev s).
Proof.
  intros m Hm Hd Hi. unfold slot_promoted. simpl. rewrite Hi.
  exists m, []. split_and!; try done. by destruct (inner_ m).
Qed.

Lemma isolated_stop_session env s : isolated s (stop_session env s).
Proof.
  unfold stop_session. destruct (bool_decide _); [by apply isolated_same|].
  eapply isolated_trans; [apply isolated_stop|apply isolated_reset].
Qed.

Lemma isolated_set_mode ev s : control_mode ev = ExecutionMode.DRY_RUN -> isolated s (control_set_mode ev s).
Proof.
  intros E. unfold control_set_mode. rewrite E. simpl.
  set (j := journal _ s). assert (isolated s j) as Hj by (by apply isolated_same).
  eapply isolated_trans; [exact Hj|]. eapply isolated_trans; [apply isolated_set_dry|].
  eapply isolated_trans; [apply isolated_sim|]. by apply isolated_same.
Qed.

Lemma isolated_probe env s : isolated s (latency_probe env s).
Proof.
  intros m Hm Hd Hi. unfold latency_probe.
  assert (in_dry_run s = true) as -> by (unfold in_dry_run; rewrite Hm, Hd; done).
  destruct (pb_phase (probe_ s)); (eapply isolated_same; [| |exact Hm|exact Hd|exact Hi]; done).
Qed.

Lemma isolated_control env ev s : goes_live ev = false -> isolated s (handle_control env ev s).
Proof.
  unfold goes_live, handle_control. destruct (bool_decide (source ev = _)); simpl; [|intros; by apply isolated_same].
  destruct (kind ev); intros Hg; try done; try by apply isolated_same.
  - eapply isolated_trans; [|apply isolated_cancel_everything]. by apply isolated_same.
  - apply isolated_set_mode. apply bool_decide_eq_false in Hg. by destruct (control_mode ev).
  - unfold control_inventory. case_match; by apply isolated_same.
  - unfold control_inventory. case_match; by apply isolated_same.
  - unfold control_inventory. case_match; by apply isolated_same.
  - unfold slot_closing. set (s1 := s <| slot_token_map_ ::= _ |>).
    assert (isolated s s1) by (by apply isolated_same).
    case_match; [|done]. eapply isolated_trans; [done|apply isolated_accept_all].
  - apply isolated_promoted.
  - apply isolated_stop_session.
  - apply isolated_probe.
Qed.

Lemma isolated_submit env ev s i : isolated s (submit env ev s i).
Proof.
  unfold submit. assert (isolated s (gate_evaluate env i s).1) as Hg.
  { unfold gate_evaluate. repeat case_match; by apply isolated_same. }
  destruct (gate_evaluate env i s) as [s1 r]. simpl in Hg.
  eapply isolated_trans; [exact Hg|]. clear Hg.
  destruct (negb _); [by apply isolated_same|].
  match goal with |- context [sink_accept i ?x] => set (s2 := x) end.
  assert (isolated s1 s2) as H12 by (by apply isolated_same).
  pose proof (isolated_accept i s2) as H23. destruct (sink_accept i s2) as [s3 res]. simpl in H23.
  pose proof (isolated_trans _ _ _ H12 H23) as H13.
  destruct (negb _); [done|]. eapply isolated_trans; [exact H13|].
  case_match; by apply isolated_same.
Qed.

Lemma isolated_submits env ev l s : isolated s (foldl (submit env ev) s l).
Proof.
  revert s. induction l as [|i l IH]; intros s; [by apply isolated_same|].
  eapply isolated_trans; [apply isolated_submit|apply IH].
Qed.

Lemma isolated_gate_cancel s : isolated s (gate_cancel_all s).
Proof.
  unfold gate_cancel_all. repeat case_match; try by apply isolated_same.
  eapply isolated_trans; [apply isolated_cancels|by apply isolated_same].
Qed.

Lemma isolated_call env ev s : isolated s (call_strategy env ev s).1.
Proof. unfold call_strategy. repeat case_match; by apply isolated_same. Qed.

Lemma isolated_trigger env ev s : isolated s (trigger env ev s).
Proof.
  unfold trigger. set (s1 := s <| state_ ::= _ |>). assert (isolated s s1) as P1 by (by apply isolated_same).
  pose proof (isolated_call env ev s1) as P2. destruct (call_strategy env ev s1) as [s2 intents]. simpl in P2.
  pose proof (isolated_trans _ _ _ P1 P2) as H12. clear P1 P2.
  match goal with |- context [foldl (submit env ev) ?x ?l] =>
    assert (isolated s2 x) as P3 by (unfold journal_eval; case_match; by apply isolated_same);
    pose proof (isolated_submits env ev l x) as P4; set (s3 := foldl (submit env ev) x l) in * end.
  match goal with |- context [gate_cancel_all ?x] =>
    assert (isolated s3 x) as P5 by (by apply isolated_same); pose proof (isolated_gate_cancel x) as P6;
    set (s4 := gate_cancel_all x) in * end.
  assert (isolated s s4) as PH by eauto using isolated_trans.
  case_match; [|done]. eapply isolated_trans; [exact PH|apply isolated_market_cancels].
Qed.

Lemma isolated_before env ev s :
  isolated s (journal_exec ev (feed_tracker ev (update_ui env ev (journal_user env ev (update_state env ev s))))).
Proof.
  eapply isolated_trans; [|eapply isolated_trans; [|eapply isolated_trans; [|eapply isolated_trans]]].
  - instantiate (1 := update_state env ev s). unfold update_state. repeat case_match; by apply isolated_same.
  - instantiate (1 := journal_user env ev (update_state env ev s)).
    unfold journal_user. repeat case_match; by apply isolated_same.
  - instantiate (1 := update_ui env ev (journal_user env ev (update_state env ev s))).
    unfold update_ui. repeat case_match; by apply isolated_same.
  - instantiate (1 := feed_tracker ev (update_ui env ev (journal_user env ev (update_state env ev s)))).
    unfold feed_tracker. repeat case_match; by apply isolated_same.
  - unfold journal_exec. case_match; by apply isolated_same.
Qed.

Lemma isolated_probe_feedback env ev s : isolated s (handle_probe_feedback env ev s).
Proof. unfold handle_probe_feedback. repeat case_match; by apply isolated_same. Qed.

Lemma isolated_event env ev s : goes_live ev = false -> isolated s (process_event env ev s).
Proof.
  intros Hg. unfold process_event. pose proof (isolated_before env ev s) as P1.
  set (s1 := journal_exec ev _) in *.
  pose proof (isolated_feedback env ev s1) as P2. set (s2 := route_feedback env ev s1) in *.
  pose proof (isolated_control env ev s2 Hg) as P3. set (s3 := handle_control env ev s2) in *.
  assert (isolated s3 (if bool_decide (source ev = EventSource.EXEC_INTERNAL)
                       then handle_probe_feedback env ev s3 else s3)) as P4.
  { case_match; [apply isolated_probe_feedback|by apply isolated_same]. }
  set (s4 := if bool_decide _ then _ else _) in *.
  assert (isolated s4 (count_event ev s4)) as P5 by (by apply isolated_same).
  assert (isolated s (count_event ev s4)) as PH by eauto 8 using isolated_trans.
  case_match; [|done]. eapply isolated_trans; [exact PH|apply isolated_trigger].
Qed.

(** C4: Dry-run isolation: as long as no operator command asks for live trading
    (set the mode to live, start a session, or flatten), a scheduler in dry-run
    mode without a session stays in dry-run mode and idle through any sequence
    of events, whatever its strategy proposes, and the exchange-side sink sees
    nothing but cancel-all requests. *)
Theorem dry_run_isolation (evs : list (Env * SchedulerEvent)) s m
    (Hm : mode_sink_ s = Some m) (Hdry : mode_ m = ExecutionMode.DRY_RUN)
    (Hidle : ss_state (session_ s) = SessionState.IDLE)
    (Hev : Forall (fun e => goes_live e.2 = false) evs) :
  exists m' l, mode_sink_ (foldl (fun s e => process_event e.1 e.2 s) s evs) = Some m' /\
    mode_ m' = ExecutionMode.DRY_RUN /\
    ss_state (session_ (foldl (fun s e => process_event e.1 e.2 s) s evs)) = SessionState.IDLE /\
    Forall (fun i => ei_action i = IntentAction.WOULD_CANCEL_ALL) l /\
    inner_ m' = accept_all l <$> inner_ m.
Proof.
  assert (isolated s (foldl (fun s e => process_event e.1 e.2 s) s evs)) as Hi.
  { clear Hm Hdry Hidle. revert s Hev. induction evs as [|e evs IH]; intros s Hev; [by apply isolated_same|].
    apply Forall_cons in Hev as [He Hev]. eapply isolated_trans; [by apply isolated_event|by apply IH]. }
  destruct (Hi m Hm Hdry Hidle) as (m' & l & P1' & P2' & Pi' & P3' & P4'). by exists m', l.
Qed.

(** ** Frames of the sink *)
Lemma sink_accept_frame i s :
  let s' := (sink_accept i s).1 in
  working_tracker_ s' = working_tracker_ s /\ risk_gate_ptr_ s' = risk_gate_ptr_ s /\
  in_dry_run s' = in_dry_run s /\ session_ s' = session_ s /\ strategy_ptr_ s' = strategy_ptr_ s.
Proof.
  unfold sink_accept, in_dry_run. destruct (mode_sink_ s) as [m|] eqn:Em.
  - pose proof (accept_mode i m) as E. destruct (accept i m) as [m' r]. simpl in *. by rewrite E.
  - destruct (accept i (active_sink_ s)). simpl. by rewrite Em.
Qed.

Lemma sink_accept_all_frame l s :
  let s' := sink_accept_all l s in
  working_tracker_ s' = working_tracker_ s /\ risk_gate_ptr_ s' = risk_gate_ptr_ s /\
  in_dry_run s' = in_dry_run s /\ session_ s' = session_ s /\ strategy_ptr_ s' = strategy_ptr_ s.
Proof.
  revert s. induction l as [|i l IH]; intros s; [done|].
  destruct (IH (sink_accept i s).1) as (A1 & A2 & A3 & A4 & A5).
  destruct (sink_accept_frame i s) as (B1 & B2 & B3 & B4 & B5).
  split_and!; etrans; eauto.
Qed.

Lemma send_all_cancels_frame s :
  let s' := send_all_cancels s in
  working_tracker_ s' = working_tracker_ s /\ risk_gate_ptr_ s' = risk_gate_ptr_ s /\
  in_dry_run s' = in_dry_run s /\ session_ s' = session_ s /\ strategy_ptr_ s' = strategy_ptr_ s.
Proof.
  unfold send_all_cancels. destruct (working_tracker_ s) as [t|] eqn:E; [|by rewrite E].
  rewrite <- E. apply sink_accept_all_frame.
Qed.

(** In live mode everything goes through. *)
Lemma sink_accept_live l s m :
  mode_sink_ s = Some m -> mode_ m = ExecutionMode.LIVE ->
  exists m', mode_sink_ (sink_accept_all l s) = Some m' /\ mode_ m' = ExecutionMode.LIVE /\
    inner_ m' = accept_all l <$> inner_ m.
Proof.
  revert s m. induction l as [|i l IH]; intros s m Hm Hl.
  { exists m. split_and!; try done. by destruct (inner_ m). }
  pose proof (accept_mode i m) as E1. pose proof (accept_inner i m) as E2. rewrite Hl in E1, E2.
  unfold passes in E2. rewrite orb_true_r in E2.
  destruct (IH (sink_accept i s).1 (accept i m).1) as (m' & A1 & A2 & A3).
  - unfold sink_accept. rewrite Hm. by destruct (accept i m).
  - done.
  - exists m'. split_and!; [done|done|]. rewrite A3, E2. by destruct (inner_ m).
Qed.

(** A market event touches the state, the counters and the trigger only. *)
Lemma process_market_event env ev s : source ev = EventSource.MARKET_WS ->
  process_event env ev s =
  if should_trigger ev then trigger env ev (count_event ev (update_state env ev s))
  else count_event ev (update_state env ev s).
Proof.
  intros Hsrc. unfold process_event. set (s1 := update_state env ev s).
  assert (journal_user env ev s1 = s1) as -> by (unfold journal_user; by rewrite Hsrc).
  assert (update_ui env ev s1 = s1) as -> by (unfold update_ui; by rewrite Hsrc).
  assert (feed_tracker ev s1 = s1) as -> by (unfold feed_tracker; rewrite Hsrc; by case_match).
  assert (journal_exec ev s1 = s1) as -> by (unfold journal_exec; by rewrite Hsrc).
  assert (route_feedback env ev s1 = s1) as -> by (unfold route_feedback; rewrite Hsrc; by case_match).
  assert (handle_control env ev s1 = s1) as -> by (unfold handle_control; by rewrite Hsrc).
  by rewrite Hsrc.
Qed.

(** ** Risk limits through the pipeline *)
Section PipelineLimits.
Variables (inv : I) (reg : MarketPairRegistry) (c : RiskConfig).

(** A live scheduler with a strategy, whose tracked orders are within the
    limits. *)
Definition limits_kept s : Prop :=
  in_dry_run s = false /\ is_Some (strategy_ptr_ s) /\
  exists t g, working_tracker_ s = Some t /\ tracker_inv t /\ risk_gate_ptr_ s = Some g /\
    config_ g = c /\ within_limits inv reg c t.

Lemma limits_same s s' :
  in_dry_run s' = in_dry_run s -> working_tracker_ s' = working_tracker_ s ->
  risk_gate_ptr_ s' = risk_gate_ptr_ s -> strategy_ptr_ s' = strategy_ptr_ s ->
  limits_kept s -> limits_kept s'.
Proof. intros E1 E2 E3 E4 (Hd & Hx & Hl). unfold limits_kept. by rewrite E1, E2, E3, E4. Qed.

Lemma submit_limits env ev s i :
  env_inventory env = Some inv -> env_pairs env = Some reg -> registry_inv reg -> consistent reg i ->
  limits_kept s -> limits_kept (submit env ev s i).
Proof.
  intros Hi Hp Hreg Hc (Hd & Hx & t & g & Ht & Hti & Hg & Hcfg & Hl). unfold submit, gate_evaluate.
  rewrite Hg, Hi, Ht, Hp.
  pose proof (gate_step_limits inv reg g t i Hti Hreg Hc) as Hs. rewrite Hcfg in Hs. specialize (Hs Hl).
  pose proof (evaluate_config (Some inv) (Some t) (Some reg) i g) as Hec. unfold gate_step in Hs.
  destruct (evaluate (Some inv) (Some t) (Some reg) i g) as [g' r]. simpl in Hec.
  assert (forall s0, in_dry_run s0 = false -> is_Some (strategy_ptr_ s0) -> working_tracker_ s0 = Some t ->
    risk_gate_ptr_ s0 = Some g' -> limits_kept s0) as Hkeep.
  { intros s0 E1 E2 E3 E4. split_and!; [done|done|]. exists t, g'. split_and!; try done. congruence. }
  destruct (decision r) eqn:Er; simpl; [|by apply Hkeep].
  match goal with |- context [sink_accept i ?x] => set (s2 := x) end.
  destruct (sink_accept_frame i s2) as (F1 & F2 & F3 & _ & F5).
  destruct (sink_accept i s2) as [s3 res]. simpl in F1, F2, F3, F5.
  assert (in_dry_run s3 = false) as Hd3 by (rewrite F3; exact Hd).
  assert (working_tracker_ s3 = Some t) as Ht3 by (rewrite F1; exact Ht).
  assert (risk_gate_ptr_ s3 = Some g') as Hg3 by (rewrite F2; done).
  assert (is_Some (strategy_ptr_ s3)) as Hx3 by (rewrite F5; exact Hx).
  destruct (bool_decide (res = _)); simpl; [|by apply Hkeep]. rewrite Hd3.
  destruct Hs as (E1 & E2 & E3). split_and!; [exact Hd3|exact Hx3|].
  exists (on_intent_sent i t).1, g'. simpl. rewrite Ht3, Hg3. split_and!; try done; congruence.
Qed.

Lemma submits_limits env ev l s :
  env_inventory env = Some inv -> env_pairs env = Some reg -> registry_inv reg -> Forall (consistent reg) l ->
  limits_kept s -> limits_kept (foldl (submit env ev) s l).
Proof.
  intros Hi Hp Hreg Hc. revert s. induction Hc as [|i l Hc0 Hc IH]; intros s Hs; [done|].
  cbn [foldl]. apply IH. by apply submit_limits.
Qed.

Lemma enrich_consistent env i : consistent reg i -> consistent reg (enrich env i).
Proof. unfold enrich. by repeat case_match. Qed.

Lemma planned_consistent env l : Forall (consistent reg) l ->
  Forall (consistent reg) (flat_map plan (enrich env <$> l)).
Proof.
  induction 1 as [|i l Hi Hl IH]; [constructor|]. rewrite fmap_cons. simpl.
  constructor; [by apply enrich_consistent|exact IH].
Qed.

Lemma gate_cancel_limits s : limits_kept s -> limits_kept (gate_cancel_all s).
Proof.
  intros (Hd & Hx & t & g & Ht & Hti & Hg & Hcfg & Hl). unfold gate_cancel_all. rewrite Hg.
  destruct (pending_cancel_all_ g); [|split_and!; [done|done|by exists t, g]].
  destruct (send_all_cancels_frame s) as (F1 & F2 & F3 & _ & F5).
  split_and!; [etrans; [exact F3|done]|simpl; by rewrite F5|].
  exists t, (clear_pending_cancel_all g). simpl. rewrite F1, F2, Hg. done.
Qed.

Lemma market_cancels_limits m s : limits_kept s -> limits_kept (send_market_cancels m s).
Proof.
  intros Hs. unfold send_market_cancels. destruct (working_tracker_ s) as [t|] eqn:Et; [|exact Hs].
  match goal with |- limits_kept (sink_accept_all ?l ?s0) =>
    destruct (sink_accept_all_frame l s0) as (F1 & F2 & F3 & _ & F5) end.
  by apply (limits_same s).
Qed.

Lemma trigger_limits env ev s :
  env_inventory env = Some inv -> env_pairs env = Some reg -> registry_inv reg ->
  (forall ctx k y, Forall (consistent reg) (st_evaluate ctx k y).2) ->
  limits_kept s -> limits_kept (trigger env ev s).
Proof.
  intros Hi Hp Hreg Hst Hs. pose proof Hs as (_ & [x Hx] & _). unfold trigger, call_strategy. simpl. rewrite Hx.
  match goal with |- context [st_evaluate ?a ?b x] => pose proof (Hst a b x) as Hc; destruct (st_evaluate a b x) as [[x' k] l] end.
  simpl in Hc. apply (planned_consistent env) in Hc.
  match goal with |- context [foldl (submit env ev) ?s1 ?pl] =>
    assert (limits_kept s1) as P0; [|pose proof (submits_limits env ev pl s1 Hi Hp Hreg Hc P0) as P1] end.
  { destruct Hs as (Hd & _ & Hl). unfold journal_eval. case_match; (split_and!; [exact Hd|by eexists|exact Hl]). }
  match goal with |- context [gate_cancel_all ?y] =>
    assert (limits_kept y) as P2 by (by eapply limits_same; [| | | |exact P1]) end.
  apply gate_cancel_limits in P2.
  destruct (bool_decide (kind ev = SchedulerEventKind.MARKET_RESOLVED) && nonempty (resolved_condition_id ev));
    [by apply market_cancels_limits|exact P2].
Qed.

Lemma market_event_limits env ev s :
  env_inventory env = Some inv -> env_pairs env = Some reg -> registry_inv reg ->
  (forall ctx k y, Forall (consistent reg) (st_evaluate ctx k y).2) -> source ev = EventSource.MARKET_WS ->
  limits_kept s -> limits_kept (process_event env ev s).
Proof.
  intros Hi Hp Hreg Hst Hsrc Hs. rewrite (process_market_event _ _ _ Hsrc).
  assert (limits_kept (count_event ev (update_state env ev s))) as P1.
  { apply (limits_same s); try done; unfold update_state; by repeat case_match. }
  case_match; [by apply trigger_limits|done].
Qed.
End PipelineLimits.

(** C14: Limits through the pipeline: a live scheduler whose tracked orders are
    within the limits keeps them there through any sequence of market-data
    events, whatever its strategy proposes (as long as it names registered
    tokens with their market), whatever the sink answers, positions being
    unchanged meanwhile. *)
Theorem pipeline_within_limits (evs : list (Env * SchedulerEvent)) s (inv : I) (ps : list MarketPair) (c : RiskConfig)
    (Henv : Forall (fun e => env_inventory e.1 = Some inv /\
                             env_pairs e.1 = Some (add_pairs ps MarketPairRegistry_new) /\
                             source e.2 = EventSource.MARKET_WS) evs)
    (Hst : forall ctx k y, Forall (consistent (add_pairs ps MarketPairRegistry_new)) (st_evaluate ctx k y).2)
    (Hs : limits_kept inv (add_pairs ps MarketPairRegistry_new) c s) :
  limits_kept inv (add_pairs ps MarketPairRegistry_new) c (foldl (fun s e => process_event e.1 e.2 s) s evs).
Proof.
  revert s Hs. induction Henv as [|[env ev] evs (E1 & E2 & E3) Henv IH]; intros s Hs; [done|].
  cbn [foldl]. apply IH. apply market_event_limits; try done. apply add_pairs_inv, registry_new_inv.
Qed.

(** ** Emergency stop *)
Lemma update_state_frame env ev s :
  let s' := update_state env ev s in
  mode_sink_ s' = mode_sink_ s /\ working_tracker_ s' = working_tracker_ s /\ strategy_ptr_ s' = strategy_ptr_ s.
Proof. unfold update_state. by repeat case_match. Qed.

(** The stages before the feedback is routed, for execution feedback in live mode. *)
Lemma exec_stages_live env ev s m t :
  source ev = EventSource.EXEC_INTERNAL -> mode_sink_ s = Some m -> mode_ m = ExecutionMode.LIVE ->
  working_tracker_ s = Some t ->
  let s' := journal_exec ev (feed_tracker ev (update_ui env ev (journal_user env ev (update_state env ev s)))) in
  mode_sink_ s' = Some m /\ working_tracker_ s' = Some (on_exec_feedback ev t) /\ strategy_ptr_ s' = strategy_ptr_ s.
Proof.
  intros Hsrc Hm Hl Ht. destruct (update_state_frame env ev s) as (E1 & E2 & E3).
  set (s0 := update_state env ev s) in *. rewrite Hm in E1. rewrite Ht in E2.
  assert (journal_user env ev s0 = s0) as -> by (unfold journal_user; by rewrite Hsrc).
  assert (in_dry_run s0 = false) as Hd by (unfold in_dry_run; by rewrite E1, Hl).
  unfold update_ui. rewrite Hsrc, Hd. set (s1 := s0 <| ui_ ::= _ |>).
  assert (in_dry_run s1 = false) as Hd1 by exact Hd. unfold feed_tracker. rewrite Hd1, Hsrc.
  unfold journal_exec. rewrite Hsrc. simpl. by rewrite E1, E2.
Qed.

Lemma cancel_everything_all env s t : working_tracker_ s = Some t ->
  cancel_everything env s =
  sink_accept_all ((cancel_of <$> active_orders t) ++ [cancel_all_intent (env_now env)]) s.
Proof.
  intros Ht. unfold cancel_everything, send_all_cancels. rewrite Ht. unfold sink_accept_all. by rewrite foldl_app.
Qed.

Lemma emergency_stop_live env s m t :
  mode_sink_ s = Some m -> mode_ m = ExecutionMode.LIVE -> working_tracker_ s = Some t ->
  exists m', mode_sink_ (emergency_stop env s) = Some m' /\ mode_ m' = ExecutionMode.DRY_RUN /\
    ss_state (session_ (emergency_stop env s)) = SessionState.IDLE /\
    inner_ m' = accept_all ((cancel_of <$> active_orders t) ++ [cancel_all_intent (env_now env)]) <$> inner_ m.
Proof.
  intros Hm Hl Ht.
  destruct (sink_accept_live ((cancel_of <$> active_orders t) ++ [cancel_all_intent (env_now env)]) s m Hm Hl)
    as (m1 & C1 & C2 & C3).
  unfold emergency_stop. rewrite (cancel_everything_all _ _ _ Ht). set (s3 := sink_accept_all _ s) in *.
  unfold change_mode. rewrite C1. set (s4 := set_sink_mode _ _).
  assert (mode_sink_ s4 = Some (set_mode ExecutionMode.DRY_RUN m1)) as C4 by (simpl; by rewrite C1).
  unfold with_sim. rewrite C4. simpl.
  destruct (bool_decide _) eqn:Eb; (eexists; split_and!; [done|done| |exact C3]); [|done].
  by apply bool_decide_eq_true in Eb.
Qed.

(** Nothing after the stop leaves dry-run mode. *)
Lemma after_emergency_stop env ev s :
  source ev = EventSource.EXEC_INTERNAL -> exec_feedback_kind ev = ExecFeedbackKind.EXCHANGE_UNAVAILABLE ->
  is_Some (strategy_ptr_ s) ->
  let s1 := journal_exec ev (feed_tracker ev (update_ui env ev (journal_user env ev (update_state env ev s)))) in
  strategy_ptr_ s1 = strategy_ptr_ s ->
  isolated (emergency_stop env s1) (process_event env ev s).
Proof.
  intros Hsrc Hkind [x Hx] s1 E. unfold process_event. fold s1.
  assert (route_feedback env ev s1 = emergency_stop env s1) as ->
    by (unfold route_feedback; rewrite E, Hx, Hsrc, Hkind; done).
  set (s2 := emergency_stop env s1).
  assert (handle_control env ev s2 = s2) as -> by (unfold handle_control; by rewrite Hsrc).
  rewrite Hsrc. simpl.
  assert (isolated s2 (count_event ev (handle_probe_feedback env ev s2))) as Hc.
  { eapply isolated_trans; [apply isolated_probe_feedback|by apply isolated_same]. }
  case_match; [|done]. eapply isolated_trans; [exact Hc|apply isolated_trigger].
Qed.

(** C15: Emergency stop: when the exchange reports itself unavailable to a live
    scheduler with a strategy, the exchange-side sink is sent, in this order, a
    cancel for every order still working and a cancel-all, and then nothing but
    cancel-alls; the scheduler ends in dry-run mode with its session reset,
    even though the strategy is evaluated on the same event. *)
Theorem emergency_stop_cancels env ev s m t x
    (Hsrc : source ev = EventSource.EXEC_INTERNAL)
    (Hkind : exec_feedback_kind ev = ExecFeedbackKind.EXCHANGE_UNAVAILABLE)
    (Hm : mode_sink_ s = Some m) (Hlive : mode_ m = ExecutionMode.LIVE)
    (Ht : working_tracker_ s = Some t) (Hx : strategy_ptr_ s = Some x) :
  exists m' l, mode_sink_ (process_event env ev s) = Some m' /\ mode_ m' = ExecutionMode.DRY_RUN /\
    ss_state (session_ (process_event env ev s)) = SessionState.IDLE /\
    Forall (fun i => ei_action i = IntentAction.WOULD_CANCEL_ALL) l /\
    inner_ m' = accept_all ((cancel_of <$> active_orders (on_exec_feedback ev t)) ++
                            cancel_all_intent (env_now env) :: l) <$> inner_ m.
Proof.
  destruct (exec_stages_live env ev s m t Hsrc Hm Hlive Ht) as (A1 & A2 & A3).
  pose proof (after_emergency_stop env ev s Hsrc Hkind (mk_is_Some _ _ Hx) A3) as Hiso.
  destruct (emergency_stop_live env _ _ _ A1 Hlive A2) as (m2 & B1 & B2 & B3 & B4).
  destruct (Hiso m2 B1 B2 B3) as (m' & l & D1 & D2 & D3 & D4 & D5). exists m', l. split_and!; try done.
  rewrite D5, B4. destruct (inner_ m); simpl; [|done]. f_equal. rewrite <- accept_all_app.
  by rewrite <- app_assoc.
Qed.
(** ** Sessions and modes *)

(** What the session logic works on: the session, the mode of the mode sink and
    whether a strategy is configured. *)
Record SessionView := mkSessionView {
  sv_session : TradingSession;
  sv_mode : option ExecutionMode;
  sv_strategy : bool }.

Definition session_view s : SessionView :=
  mkSessionView (session_ s) (mode_ <$> mode_sink_ s)
    (match strategy_ptr_ s with Some _ => true | None => false end).

(** A stop: dry-run mode, and the session is over. *)
Definition spec_stop (v : SessionView) : SessionView :=
  mkSessionView
    (if bool_decide (ss_state (sv_session v) = SessionState.IDLE) then sv_session v else TradingSession_default)
    ((fun _ => ExecutionMode.DRY_RUN) <$> sv_mode v) (sv_strategy v).

(** The session automaton: a session is started by the operator, goes live at
    the next market boundary if that market ends within it, and ends with the
    first market that does not, by the operator, or with the exchange. *)
Definition session_spec (wall_ms : Z) ev (v : SessionView) : SessionView :=
  let x := sv_session v in
  match source ev with
  | EventSource.EXEC_INTERNAL =>
      if sv_strategy v && bool_decide (exec_feedback_kind ev = ExecFeedbackKind.EXCHANGE_UNAVAILABLE)
      then spec_stop v else v
  | EventSource.CONTROL =>
      match kind ev, ss_state x with
      | SchedulerEventKind.CONTROL_SET_MODE, _ =>
          mkSessionView x ((fun _ => control_mode ev) <$> sv_mode v) (sv_strategy v)
      | SchedulerEventKind.CONTROL_START_SESSION, SessionState.IDLE =>
          mkSessionView (x <| end_time_s := control_qty_param ev |>
            <| effective_end_s := compute_effective_end (control_qty_param ev) |>
            <| ss_state := SessionState.PENDING |>) (sv_mode v) (sv_strategy v)
      | SchedulerEventKind.CONTROL_STOP_SESSION, (SessionState.PENDING | SessionState.ACTIVE) => spec_stop v
      | SchedulerEventKind.SLOT_PROMOTED, SessionState.PENDING =>
          if exceeds_end (control_qty_param ev) x
          then mkSessionView TradingSession_default (sv_mode v) (sv_strategy v)
          else mkSessionView (x <| ss_state := SessionState.ACTIVE |> <| started_at_ms := wall_ms |>)
                 ((fun _ => ExecutionMode.LIVE) <$> sv_mode v) (sv_strategy v)
      | SchedulerEventKind.SLOT_PROMOTED, SessionState.ACTIVE =>
          if exceeds_end (control_qty_param ev) x then spec_stop v
          else mkSessionView (x <| markets_entered ::= Z.succ |>) (sv_mode v) (sv_strategy v)
      | _, _ => v
      end
  | _ => v
  end.

Lemma view_accept i s : session_view (sink_accept i s).1 = session_view s.
Proof.
  unfold sink_accept, session_view. destruct (mode_sink_ s) as [m|] eqn:Em.
  - pose proof (accept_mode i m) as E. destruct (accept i m) as [m' r]. simpl in *. by rewrite E.
  - destruct (accept i (active_sink_ s)). simpl. by rewrite Em.
Qed.

Lemma view_accept_all l s : session_view (sink_accept_all l s) = session_view s.
Proof.
  revert s. induction l as [|i l IH]; intros s; [done|]. etrans; [apply IH|apply view_accept].
Qed.

Lemma view_all_cancels s : session_view (send_all_cancels s) = session_view s.
Proof. unfold send_all_cancels. case_match; [apply view_accept_all|done]. Qed.

Lemma view_market_cancels c s : session_view (send_market_cancels c s) = session_view s.
Proof. unfold send_market_cancels. case_match; [apply view_accept_all|done]. Qed.

Lemma view_cancel_everything env s : session_view (cancel_everything env s) = session_view s.
Proof. etrans; [apply view_accept|apply view_all_cancels]. Qed.

Lemma view_sim f s : session_view (with_sim f s) = session_view s.
Proof. unfold with_sim, session_view. destruct (mode_sink_ s) eqn:E; simpl; by rewrite ?E. Qed.

Lemma view_strategy f s : session_view (with_strategy f s) = session_view s.
Proof. unfold session_view. simpl. by destruct (strategy_ptr_ s). Qed.

Lemma view_set_mode mode s : session_view (set_sink_mode mode s) =
  mkSessionView (session_ s) ((fun _ => mode) <$> sv_mode (session_view s)) (sv_strategy (session_view s)).
Proof. unfold session_view. simpl. by destruct (mode_sink_ s). Qed.

Lemma view_change_mode mode s : session_view (change_mode mode s) =
  mkSessionView (session_ s) ((fun _ => mode) <$> sv_mode (session_view s)) (sv_strategy (session_view s)).
Proof.
  unfold change_mode. destruct (mode_sink_ s) as [m|] eqn:E; [etrans; [apply view_set_mode|done]|].
  unfold session_view. by rewrite E.
Qed.

Lemma view_stop env s :
  session_view (with_sim (set_enabled true) (change_mode ExecutionMode.DRY_RUN (cancel_everything env s))) =
  mkSessionView (session_ s) ((fun _ => ExecutionMode.DRY_RUN) <$> sv_mode (session_view s))
    (sv_strategy (session_view s)).
Proof.
  rewrite view_sim, view_change_mode. rewrite !view_cancel_everything.
  pose proof (f_equal sv_session (view_cancel_everything env s)) as E. simpl in E. by rewrite E.
Qed.

Lemma view_emergency_stop env s : session_view (emergency_stop env s) = spec_stop (session_view s).
Proof.
  unfold emergency_stop. pose proof (view_stop env s) as E. set (s1 := with_sim _ _) in *.
  pose proof (f_equal sv_session E) as E1. simpl in E1. unfold spec_stop. simpl. rewrite E1.
  destruct (bool_decide _); [exact E|]. unfold session_view in *. simpl in *. injection E as _ -> ->. done.
Qed.

Lemma view_before env ev s :
  session_view (journal_exec ev (feed_tracker ev (update_ui env ev (journal_user env ev (update_state env ev s)))))
  = session_view s.
Proof.
  etrans; [|etrans; [|etrans; [|etrans]]].
  - instantiate (1 := session_view (feed_tracker ev (update_ui env ev (journal_user env ev (update_state env ev s))))).
    unfold journal_exec. by case_match.
  - instantiate (1 := session_view (update_ui env ev (journal_user env ev (update_state env ev s)))).
    unfold feed_tracker. by repeat case_match.
  - instantiate (1 := session_view (journal_user env ev (update_state env ev s))).
    unfold update_ui. by repeat case_match.
  - instantiate (1 := session_view (update_state env ev s)). unfold journal_user. by repeat case_match.
  - unfold update_state. by repeat case_match.
Qed.

Lemma view_submit env ev s i : session_view (submit env ev s i) = session_view s.
Proof.
  unfold submit. assert (session_view (gate_evaluate env i s).1 = session_view s) as Hg.
  { unfold gate_evaluate. by repeat case_match. }
  destruct (gate_evaluate env i s) as [s1 r]. simpl in Hg. rewrite <- Hg. clear Hg.
  destruct (negb _); [done|].
  match goal with |- context [sink_accept i ?x] => pose proof (view_accept i x) as E;
    destruct (sink_accept i x) as [s3 res] end. simpl in E.
  destruct (negb _); [exact E|]. etrans; [|exact E]. by case_match.
Qed.

Lemma view_submits env ev l s : session_view (foldl (submit env ev) s l) = session_view s.
Proof.
  revert s. induction l as [|i l IH]; intros s; [done|]. etrans; [apply IH|apply view_submit].
Qed.

Lemma view_call env ev s : session_view (call_strategy env ev s).1 = session_view s.
Proof.
  unfold call_strategy. destruct (strategy_ptr_ s) as [x|] eqn:Ex.
  - destruct (st_evaluate _ _ x) as [[x' k] l]. unfold session_view. simpl. by rewrite Ex.
  - by destruct (stub_evaluate _ _ _).
Qed.

Lemma view_trigger env ev s : session_view (trigger env ev s) = session_view s.
Proof.
  unfold trigger. set (s1 := s <| state_ ::= _ |>). change (session_view s) with (session_view s1).
  pose proof (view_call env ev s1) as E1.
  destruct (call_strategy env ev s1) as [s2 intents]. simpl in E1. rewrite <- E1. clear E1.
  match goal with |- context [foldl (submit env ev) ?x ?l] => pose proof (view_submits env ev l x) as E2;
    assert (session_view x = session_view s2) as E3 by (unfold journal_eval; by case_match);
    set (s3 := foldl (submit env ev) x l) in * end.
  assert (forall y, session_view (gate_cancel_all y) = session_view y) as E4.
  { intros y. unfold gate_cancel_all. repeat case_match; try done. exact (view_all_cancels y). }
  assert (session_view s3 = session_view s2) as E5 by (by etrans).
  case_match; [rewrite view_market_cancels|]; rewrite E4; exact E5.
Qed.

Lemma view_session_end env s : ss_state (session_ s) <> SessionState.IDLE ->
  session_view (session_end env s) = spec_stop (session_view s).
Proof.
  intros Hs. pose proof (view_stop env s) as E. unfold session_end. set (s1 := with_sim _ _) in *.
  unfold spec_stop. rewrite bool_decide_false by exact Hs.
  pose proof (view_strategy (fun x => st_set_dry_run true (st_set_enabled false x)) s1) as E2. rewrite E in E2.
  unfold session_view in *. simpl in *. injection E2 as _ -> ->. done.
Qed.

Lemma view_stop_session env s : ss_state (session_ s) <> SessionState.IDLE ->
  session_view (stop_session env s) = spec_stop (session_view s).
Proof.
  intros Hs. pose proof (view_stop env s) as E. unfold stop_session.
  rewrite bool_decide_false by exact Hs. set (s1 := with_sim _ _) in *.
  unfold spec_stop. rewrite bool_decide_false by exact Hs.
  unfold session_view in *. simpl in *. injection E as _ -> ->. done.
Qed.

Lemma view_go_live env s :
  session_view (session_go_live env s) =
  mkSessionView ((session_ s) <| ss_state := SessionState.ACTIVE |> <| started_at_ms := env_wall_ms env |>)
    ((fun _ => ExecutionMode.LIVE) <$> sv_mode (session_view s)) (sv_strategy (session_view s)).
Proof. unfold session_go_live. rewrite view_strategy, view_sim, view_change_mode. done. Qed.

Lemma view_control_mode ev s :
  session_view (control_set_mode ev s) =
  mkSessionView (session_ s) ((fun _ => control_mode ev) <$> sv_mode (session_view s)) (sv_strategy (session_view s)).
Proof.
  unfold control_set_mode.
  assert (forall b f y, session_view (with_strategy f (with_sim b (set_sink_mode (control_mode ev)
    (journal y s)))) = mkSessionView (session_ s) ((fun _ => control_mode ev) <$> sv_mode (session_view s))
    (sv_strategy (session_view s))) as E.
  { intros b f y. rewrite view_strategy, view_sim, view_set_mode. done. }
  case_match; [apply E|]. rewrite view_strategy.
  match goal with |- session_view (_ _ ?x) = _ => transitivity (session_view x); [done|] end.
  rewrite view_sim. apply E.
Qed.

Lemma view_sell env sd s e : session_view (sell_market env sd s e) = session_view s.
Proof.
  unfold sell_market. generalize (sell_tokens sd e.2) as l. intros l. revert s.
  induction l as [|tok l IH]; intros s; [done|]. simpl. etrans; [apply IH|].
  unfold sell_token. destruct (_ <=? 0); [done|]. destruct (_ <=? 0); [done|]. etrans; [apply view_accept|done].
Qed.

Lemma view_market_sell env sd s : session_view (market_sell env sd s) = session_view s.
Proof.
  unfold market_sell. destruct (mode_sink_ s) as [m|] eqn:Em; [|done].
  set (s1 := with_strategy _ s). assert (session_view s1 = session_view s) as E1 by apply view_strategy.
  assert (forall l s0, session_view (foldl (sell_market env sd) s0 l) = session_view s0) as Es.
  { intros l. induction l as [|e l IH]; intros s0; [done|]. etrans; [apply IH|apply view_sell]. }
  assert (forall s0, session_view (match env_inventory env, env_pairs env with
     | Some _, Some reg => foldl (sell_market env sd) s0 (map_to_list (by_condition_ reg)) | _, _ => s0 end)
     = session_view s0) as Em2 by (intros s0; repeat case_match; try done; apply Es).
  destruct (bool_decide (mode_ m = _)) eqn:El.
  - by rewrite Em2, view_all_cancels.
  - rewrite view_set_mode. match goal with |- context [session_ ?x] => set (s2 := x) end.
    assert (session_view s2 = session_view (set_sink_mode ExecutionMode.LIVE s1)) as E2
      by (unfold s2; by rewrite Em2, view_all_cancels).
    rewrite view_set_mode in E2. rewrite E1 in E2. change (session_ s2) with (sv_session (session_view s2)).
    rewrite E2. simpl. unfold session_view. by rewrite Em.
Qed.

Lemma view_promoted env ev s : source ev = EventSource.CONTROL -> kind ev = SchedulerEventKind.SLOT_PROMOTED ->
  session_view (slot_promoted env ev s) = session_spec (env_wall_ms env) ev (session_view s).
Proof.
  intros Hsrc Hk. unfold session_spec. rewrite Hsrc, Hk. unfold slot_promoted.
  set (s1 := s <| slot_token_map_ ::= _ |>). change (session_view s) with (session_view s1).
  change (sv_session (session_view s1)) with (session_ s1). generalize s1. clear. intros s.
  destruct (ss_state (session_ s)) eqn:Es; [done| |].
  - destruct (exceeds_end _ _); [done|apply view_go_live].
  - set (s2 := s <| session_ ::= _ |>).
    change (exceeds_end (control_qty_param ev) (session_ s2)) with (exceeds_end (control_qty_param ev) (session_ s)).
    destruct (exceeds_end _ _); [|done].
    assert (ss_state (session_ s2) <> SessionState.IDLE) as Hn by (simpl; by rewrite Es).
    rewrite (view_session_end _ _ Hn). unfold spec_stop.
    rewrite bool_decide_false by exact Hn. rewrite bool_decide_false; [done|simpl; by rewrite Es].
Qed.

Lemma view_probe env s : session_view (latency_probe env s) = session_view s.
Proof.
  unfold latency_probe. set (g := match strategy_ptr_ s with Some x => st_enabled x | None => false end).
  assert (forall i x p0, session_view x = session_view s -> session_view (let '(s1, r) := sink_accept i x in
    if bool_decide (r = SinkResult.ACCEPTED) then s1 <| probe_status_ := 1 |>
    else probe_fail (s1 <| probe_ ::= p0 |>)) = session_view s) as Ha.
  { intros i x p0 Hx. rewrite <- Hx. rewrite <- (view_accept i x). destruct (sink_accept i x). by case_match. }
  destruct (pb_phase (probe_ s)); try done; (destruct (in_dry_run s); [done|]); (destruct g; [done|]);
    (destruct (probe_target env s); [|done]); by apply Ha.
Qed.

Lemma view_control env ev s : source ev = EventSource.CONTROL ->
  session_view (handle_control env ev s) = session_spec (env_wall_ms env) ev (session_view s).
Proof.
  intros Hsrc. unfold handle_control. rewrite Hsrc. simpl.
  destruct (kind ev) eqn:Hk; try exact (view_promoted env ev s Hsrc Hk);
    unfold session_spec; rewrite Hsrc, Hk; try done.
  - unfold control_cancel_all. etrans; [apply view_cancel_everything|done].
  - apply view_control_mode.
  - apply view_strategy.
  - apply view_strategy.
  - unfold control_inventory. by case_match.
  - unfold control_inventory. by case_match.
  - unfold control_inventory. by case_match.
  - unfold slot_closing. case_match; [etrans; [apply view_accept_all|done]|done].
  - unfold start_session. change (sv_session (session_view s)) with (session_ s).
    destruct (ss_state (session_ s)); [|done|done]. etrans; [apply view_strategy|done].
  - change (sv_session (session_view s)) with (session_ s). destruct (ss_state (session_ s)) eqn:Es.
    + unfold stop_session. by rewrite Es.
    + apply view_stop_session. by rewrite Es.
    + apply view_stop_session. by rewrite Es.
  - apply view_probe.
  - apply view_market_sell.
  - apply view_market_sell.
Qed.

Lemma view_feedback env ev s : source ev = EventSource.EXEC_INTERNAL ->
  session_view (route_feedback env ev s) = session_spec (env_wall_ms env) ev (session_view s).
Proof.
  intros Hsrc. unfold route_feedback, session_spec. rewrite Hsrc. simpl.
  destruct (strategy_ptr_ s) eqn:Ex; simpl; [|done].
  destruct (exec_feedback_kind ev); simpl; try done; try apply view_strategy. apply view_emergency_stop.
Qed.

Lemma view_event env ev s :
  session_view (process_event env ev s) = session_spec (env_wall_ms env) ev (session_view s).
Proof.
  unfold process_event. rewrite <- (view_before env ev s). set (s1 := journal_exec _ _). clearbody s1.
  assert (forall s0, session_view (if should_trigger ev then trigger env ev s0 else s0) = session_view s0) as Et
    by (intros s0; case_match; [apply view_trigger|done]).
  rewrite Et. clear Et.
  match goal with |- session_view (count_event ev ?x) = _ => transitivity (session_view x); [done|] end.
  destruct (source ev) eqn:Hsrc; simpl.
  - unfold handle_control, route_feedback, session_spec. rewrite Hsrc. simpl. by case_match.
  - unfold handle_control, route_feedback, session_spec. rewrite Hsrc. simpl. by case_match.
  - transitivity (session_view (handle_control env ev (route_feedback env ev s1))).
    { unfold handle_probe_feedback. by repeat case_match. }
    unfold handle_control. rewrite Hsrc. simpl. by apply view_feedback.
  - unfold route_feedback. rewrite Hsrc. simpl. rewrite <- (view_control env ev s1 Hsrc). by case_match.
Qed.

(** C3: Session automaton: through any sequence of events, whatever the strategy,
    the gate, the sinks, the probe and flattening do meanwhile, the trading
    session and the execution mode follow the session automaton: live trading is
    entered only by the operator's mode command or by a pending session at a
    market boundary within its end, and is left for dry-run mode when the session
    reaches its end, is stopped, or the exchange becomes unavailable. *)
Theorem session_refinement (evs : list (Env * SchedulerEvent)) s :
  session_view (foldl (fun s e => process_event e.1 e.2 s) s evs) =
  foldl (fun v e => session_spec (env_wall_ms e.1) e.2 v) (session_view s) evs.
Proof.
  revert s. induction evs as [|e evs IH]; intros s; [done|]. simpl. by rewrite IH, view_event.
Qed.

End Scheduler.

(** ** A concrete scheduler

    One market, a strategy that always proposes the same bid, the queue sink in
    front of the exchange. *)
Section SchedulerExample.
Local Open Scope string_scope.

Record FixedStrategy := mkFixedStrategy { fixed_enabled : bool }.

#[local] Instance FixedStrategy_strategy : Strategy FixedStrategy TokenInventory unit := {|
  st_evaluate ctx k x := (x, k, if fixed_enabled x then [(sample_bid 40) <| ei_client_order_id := "c" |>] else []);
  st_set_enabled b x := mkFixedStrategy b;
  st_enabled := fixed_enabled;
  st_set_size q x := x;
  st_set_dry_run b x := x;
  st_reset_all_quotes x := x;
  st_on_gateway_degraded x := x;
  st_on_gateway_recovered x := x;
  st_on_rate_limited x := x |}.

#[local] Instance unit_inventory_sink : InventoryOpSink unit := {| try_request r k := (k, true) |}.

Definition sample_queue : ExecQueueSink (Q := BoundedList) :=
  mkExecQueueSink (mkSpscQueue (mkBoundedList [] 16) 0 0 0) 0 0.

Abbreviation SampleScheduler :=
  (StrategyScheduler (SK := ExecQueueSink (Q := BoundedList)) (ST := FixedStrategy) (K := unit)).

Definition sample_scheduler (mode : ExecutionMode) : SampleScheduler :=
  StrategyScheduler_new false sample_queue (Some (mkFixedStrategy true))
    (Some (RiskGate_new RiskGate.sample_config))
    (Some (mkModeFilteredSink (Some sample_queue) mode None 0 0))
    (Some WorkingOrderTracker_new) (Some tt) (Some []) true.

Definition sample_env : Env (I := TokenInventory) :=
  mkEnv 1000 1000 (Some TokenInventory_new) (Some (add_pairs sample_pairs MarketPairRegistry_new)).

Definition sample_market_event : SchedulerEvent :=
  SchedulerEvent_default <| source := EventSource.MARKET_WS |>
    <| kind := SchedulerEventKind.MARKET_BBO_UPDATE |> <| asset_id := "u" |>.

Definition run_sample (s : SampleScheduler) (evs : list SchedulerEvent) : SampleScheduler :=
  foldl (fun s e => process_event e.1 e.2 s) s ((fun ev => (sample_env, ev)) <$> evs).

(** In dry-run mode the strategy's bids stay with the simulator and an operator's
    cancel-all goes through. *)
Lemma dry_run_isolation_witness :
  let s := sample_scheduler ExecutionMode.DRY_RUN in
  let evs := [sample_market_event;
              SchedulerEvent_default <| source := EventSource.CONTROL |>
                <| kind := SchedulerEventKind.CONTROL_CANCEL_ALL |>] in
  exists m' l, mode_sink_ (run_sample s evs) = Some m' /\ mode_ m' = ExecutionMode.DRY_RUN /\
    Forall (fun i => ei_action i = IntentAction.WOULD_CANCEL_ALL) l /\
    inner_ m' = Some (accept_all l sample_queue) /\
    eqs_intent_count_ <$> inner_ m' = Some 1.
Proof.
  intros s evs.
  edestruct (dry_run_isolation ((fun ev => (sample_env, ev)) <$> evs) s) as (m' & l & E1 & E2 & _ & E3 & E4).
  - reflexivity.
  - reflexivity.
  - reflexivity.
  - repeat constructor.
  - exists m', l. split_and!; [exact E1|exact E2|exact E3|exact E4|].
    assert (Some (eqs_intent_count_ <$> inner_ m') = Some (Some 1)) as E; [|by injection E].
    transitivity ((fun m => eqs_intent_count_ <$> inner_ m) <$> mode_sink_ (run_sample s evs)).
    + unfold run_sample. by rewrite E1.
    + vm_compute. reflexivity.
Defined.

Lemma pipeline_within_limits_witness :
  limits_kept TokenInventory_new (add_pairs sample_pairs MarketPairRegistry_new) RiskGate.sample_config
    (run_sample (sample_scheduler ExecutionMode.LIVE) [sample_market_event; sample_market_event]) /\
  total_working_notional <$> working_tracker_ (run_sample (sample_scheduler ExecutionMode.LIVE)
    [sample_market_event; sample_market_event]) = Some 200000.
Proof.
  split; [|vm_compute; reflexivity].
  apply (pipeline_within_limits ((fun ev => (sample_env, ev)) <$> [sample_market_event; sample_market_event])).
  - repeat constructor.
  - intros ctx k y. simpl. destruct (fixed_enabled y); repeat constructor; done.
  - split_and!; [reflexivity|by eexists|]. exists WorkingOrderTracker_new, (RiskGate_new RiskGate.sample_config).
    split_and!; [reflexivity|apply tracker_new_inv|reflexivity|reflexivity|apply sample_within_limits].
Defined.

(** One bid is working when the exchange becomes unavailable. *)
Lemma emergency_stop_cancels_witness :
  let s := run_sample (sample_scheduler ExecutionMode.LIVE) [sample_market_event] in
  let ev := SchedulerEvent_default <| source := EventSource.EXEC_INTERNAL |>
              <| kind := SchedulerEventKind.EXEC_ORDER_REJECT |>
              <| exec_feedback_kind := ExecFeedbackKind.EXCHANGE_UNAVAILABLE |> in
  exists m m' t l, mode_sink_ s = Some m /\ working_tracker_ s = Some t /\
    length (active_orders (on_exec_feedback ev t)) = 1%nat /\
    mode_sink_ (process_event sample_env ev s) = Some m' /\ mode_ m' = ExecutionMode.DRY_RUN /\
    inner_ m' = accept_all ((cancel_of <$> active_orders (on_exec_feedback ev t)) ++
                            cancel_all_intent 1000 :: l) <$> inner_ m.
Proof.
  intros s ev.
  destruct (mode_sink_ s) as [m|] eqn:Em; [|by vm_compute in Em].
  destruct (working_tracker_ s) as [t|] eqn:Et; [|by vm_compute in Et].
  destruct (emergency_stop_cancels sample_env ev s m t (mkFixedStrategy true)) as (m' & l & E1 & E2 & E3 & E4 & E5).
  - reflexivity.
  - reflexivity.
  - exact Em.
  - apply (f_equal (fmap mode_)) in Em. vm_compute in Em. by injection Em.
  - exact Et.
  - vm_compute. reflexivity.
  - exists m, m', t, l. split_and!; [done|done| |exact E1|exact E2|exact E5].
    apply (f_equal (fmap (fun t => length (active_orders (on_exec_feedback ev t))))) in Et.
    vm_compute in Et. simpl in Et. by injection Et.
Defined.

(** Asking for live mode in live mode drops the working orders from the tracker
    without cancelling them at the exchange. *)
Lemma live_mode_forgets_orders :
  let s := run_sample (sample_scheduler ExecutionMode.LIVE) [sample_market_event] in
  let s' := process_event sample_env (SchedulerEvent_default <| source := EventSource.CONTROL |>
              <| kind := SchedulerEventKind.CONTROL_SET_MODE |> <| control_mode := ExecutionMode.LIVE |>) s in
  working_count <$> working_tracker_ s = Some 1 /\ working_count <$> working_tracker_ s' = Some 0 /\
  (inner_ <$> mode_sink_ s') = (inner_ <$> mode_sink_ s).
Proof. vm_compute. split_and!; reflexivity. Qed.
(** An order is working when a session ends: it is cancelled, but the
    confirmation arrives in dry-run mode and is ignored, and the next session
    goes live with the cancelled order still counted as working. *)
Lemma cancelled_orders_survive_session :
  let control k := SchedulerEvent_default <| source := EventSource.CONTROL |> <| kind := k |> in
  let start := (control SchedulerEventKind.CONTROL_START_SESSION) <| control_qty_param := 1000 |> in
  let promoted w := (control SchedulerEventKind.SLOT_PROMOTED) <| control_qty_param := w |> in
  let feedback k := SchedulerEvent_default <| source := EventSource.EXEC_INTERNAL |>
                      <| kind := SchedulerEventKind.EXEC_ORDER_ACK |> <| exec_feedback_kind := k |>
                      <| client_order_id := "c" |> <| order_id := "x" |> in
  let trading := run_sample (sample_scheduler ExecutionMode.DRY_RUN)
    [start; promoted 900; sample_market_event; feedback ExecFeedbackKind.ORDER_ACCEPTED] in
  let again := run_sample trading
    [promoted 1200; feedback ExecFeedbackKind.CANCEL_CONFIRMED; start <| control_qty_param := 3000 |>; promoted 1500] in
  ss_state (session_ trading) = SessionState.ACTIVE /\ working_count <$> working_tracker_ trading = Some 1 /\
  working_count ∘ on_exec_feedback (feedback ExecFeedbackKind.CANCEL_CONFIRMED) <$> working_tracker_ trading = Some 0 /\
  ss_state (session_ again) = SessionState.ACTIVE /\ in_dry_run again = false /\
  working_count <$> working_tracker_ again = Some 1.
Proof. vm_compute. split_and!; reflexivity. Qed.
End SchedulerExample.
