(* ===== verification/SchedulerLoop.v ===== *)
(** The loop of the strategy thread: [StrategyScheduler::run],
    [maybe_push_ui_state] and [request_shutdown] of
    [src/scheduler/strategy_scheduler.cpp], with [SchedulerConfig] and the members
    of [strategy_scheduler.h] they use.

    The loop drains eight queues in a fixed order, some of them up to a limit per
    pass, others until they are empty, while the other threads push.  It is a state
    machine: [Phase] is the place in the loop body, [step] one iteration of an inner
    loop, and a run is a list of actions of this thread and of the others, so that
    a theorem about all lists is one about all interleavings.  [Env] is what an
    iteration sees from outside.  Metrics, back-off sleeps and log messages are left
    out; an exception ends the loop and is not modelled (no operation throws here).

    Shown: with a strategy that answers acknowledgements with a bounded number of
    intents every pass ends after a bounded number of iterations plus one per
    element pushed meanwhile, while a strategy that always answers keeps the loop
    in the simulator for ever; no lane starves: after [k] passes at least [k] times the
    lane's limit of the events that were queued have been processed, in order. *)
From S2P Require Import Prelude Types OrderBook Events SpscQueue Ring MarketPair TokenInventory.
From S2P Require Import StrategyBookStore Sinks WorkingOrderTracker RiskGate Slots UiMirror UiSnapshot Scheduler.

(** ** Configuration *)
Record SchedulerConfig := mkSchedulerConfig {
  max_user_events_per_pass : Z;
  max_exec_events_per_pass : Z;
  max_market_events_per_pass : Z;
  max_control_events_per_pass : Z;
  max_binance_md_events_per_pass : Z;
  stats_interval_ms : Z;
  poll_strategy : Z;
  sleep_us : Z }.

Definition clamp (v lo hi : Z) : Z :=
  let v := if v <? lo then lo else v in if v >? hi then hi else v.
Definition validate (c : SchedulerConfig) : SchedulerConfig :=
  mkSchedulerConfig (clamp (max_user_events_per_pass c) 1 4096) (clamp (max_exec_events_per_pass c) 1 4096)
    (clamp (max_market_events_per_pass c) 1 4096) (clamp (max_control_events_per_pass c) 1 4096)
    (clamp (max_binance_md_events_per_pass c) 1 4096)
    (if stats_interval_ms c <? 100 then 100 else stats_interval_ms c)
    (if (poll_strategy c <? 0) || (poll_strategy c >? 2) then 2 else poll_strategy c)
    (if sleep_us c <? 0 then 100 else sleep_us c).

Module RotationPhase.
Inductive RotationPhase := NORMAL | PAUSE_REQUESTED | PAUSED | RESUME_REQUESTED.
#[export] Instance RotationPhase_eq_dec : EqDecision RotationPhase.
Proof. solve_decision. Defined.
End RotationPhase.
Export (hints) RotationPhase.
Abbreviation RotationPhase := RotationPhase.RotationPhase.

(** The rest of the strategy interface: price feeds [C] and [B], the timing context
    [T] of a rotation, and the parameters shown to the user. *)
Class FeedStrategy (S C B T : Type) := {
  st_on_crypto_price : C -> S -> S;
  st_on_binance_update : B -> S -> S;
  st_set_rotation_timing : T -> S -> S;
  st_spread_ticks : S -> Z;
  st_quote_size : S -> Z }.

(** ** The snapshot for the user interface *)
Record UiStateSnapshot := mkUiStateSnapshot {
  us_working_orders : list UiWorkingOrder;
  us_closed_orders : list UiClosedOrder;
  us_trades : list UiTrade;
  us_strategy_enabled : bool;
  us_spread_ticks : Z;
  us_quote_size : Z;
  us_execution_mode : ExecutionMode;
  us_session_state : SessionState;
  us_session_end_time_s : Z;
  us_session_markets_entered : Z;
  us_risk_checks : Z;
  us_risk_allows : Z;
  us_risk_denies : Z;
  us_positions : list (AssetId * Z);
  us_timestamp : Z }.

(** ** The loop *)
Inductive Phase :=
  | PTop | PPaused | PResume
  | PDelta | PUser (i : Z) | PExec (i : Z) | PSim | PSimLoop | PMarket (i : Z) | PRtds | PBinance (i : Z) | PSlot
  | PControl (i : Z) | PCycleEnd | PStopped.

Record QueuePops := mkQueuePops {
  queue_pops_market : Z; queue_pops_user : Z; queue_pops_exec : Z; queue_pops_control : Z; queue_pops_binance_md : Z }.
Definition QueuePops_default : QueuePops := mkQueuePops 0 0 0 0 0.

(** The high-water marks of the queues' depths. *)
Record DepthMarks := mkDepthMarks {
  hw_market_ : Z; hw_user_ : Z; hw_exec_ : Z; hw_binance_md_ : Z; hw_backlog_ : Z; max_backlog_observed_ : Z }.
Definition DepthMarks_default : DepthMarks := mkDepthMarks 0 0 0 0 0 0.

Section Loop.
Context {I SK ST K C B T : Type} `{InventoryView I} `{ExecSink SK} `{InventoryOpSink K} `{Strategy ST I K}.
Context `{FeedStrategy ST C B T} `{RowSort} {Q : Type -> Type} `{RingQueue Q}.

Abbreviation Scheduler := (StrategyScheduler (SK := SK) (ST := ST) (K := K)).

Record Loop := mkLoop {
  lp_s : Scheduler;
  lp_config : SchedulerConfig;
  user_queue_ : SpscQueue Q SchedulerEvent;
  exec_queue_ : SpscQueue Q SchedulerEvent;
  market_queue_ : SpscQueue Q MarketNotification;
  control_queue_ : SpscQueue Q SchedulerEvent;
  book_delta_queue_ : option (SpscQueue Q BookDelta);
  rtds_queue_ : option (SpscQueue Q C);
  binance_md_queue_ : option (SpscQueue Q B);
  slot_queue_ : option (SpscQueue Q SchedulerEvent);
  ui_state_queue_ : option (SpscQueue Q UiStateSnapshot);
  stop_requested_ : bool;
  rotation_phase_ : option RotationPhase;
  rotation_timing_ : option T;
  last_ui_state_push_ts_ : Z;
  ui_state_push_interval_ns_ : Z;
  last_stats_time_ : Z;
  empty_polls_ : Z;
  spin_count : Z;
  events_this_cycle : Z;
  lp_pops : QueuePops;
  lp_marks : DepthMarks;
  pc : Phase }.

Implicit Types (l : Loop) (env : Env (I := I)) (s : Scheduler).

Definition goto (p : Phase) l : Loop := l <| pc := p |>.
Definition on_s (f : Scheduler -> Scheduler) l : Loop := l <| lp_s ::= f |>.
Definition processed (env : Env (I := I)) (ev : SchedulerEvent) l : Loop :=
  on_s (process_event env ev) l <| events_this_cycle ::= Z.succ |>.

(** The simulator: the mode sink's when there is one. *)
Definition sim_of s : option DryRunSimulator :=
  match mode_sink_ s with Some m => dry_sim_ m | None => Some (own_dry_run_sim_ s) end.
Definition sim_enabled s : bool := match sim_of s with Some d => enabled_ d | None => false end.
Definition pop_sim s : Scheduler * option SchedulerEvent :=
  (with_sim (fun d => (sim_pop d).1) s, match sim_of s with Some d => (sim_pop d).2 | None => None end).

(** *** The end of a pass *)

(** The positions of the pairs, two entries each, as many as fit. *)
Fixpoint pair_positions env (pos_idx : nat) (pairs : list MarketPair) : list (AssetId * Z) :=
  match pairs with
  | [] => []
  | p :: pairs =>
      if (kMaxUiPositions <=? pos_idx + 1)%nat then []
      else (token_id_up p, position_of_env env (token_id_up p)) ::
           (token_id_down p, position_of_env env (token_id_down p)) :: pair_positions env (pos_idx + 2) pairs
  end.

Definition ui_snapshot env s : UiStateSnapshot :=
  let strat {A} (f : ST -> A) (d : A) := match strategy_ptr_ s with Some x => f x | None => d end in
  let gate (f : RiskGate -> Z) := match risk_gate_ptr_ s with Some g => f g | None => 0 end in
  mkUiStateSnapshot (snapshot_working (working_tracker_ s) (ui_ s)) (snapshot_closed (ui_ s)) (snapshot_trades (ui_ s))
    (strat st_enabled false) (strat st_spread_ticks 0) (strat st_quote_size 0)
    (match mode_sink_ s with Some m => mode_ m | None => ExecutionMode.DRY_RUN end)
    (ss_state (session_ s)) (effective_end_s (session_ s)) (markets_entered (session_ s))
    (gate check_count_) (gate allow_count_) (gate deny_count_)
    (match env_inventory env, env_pairs env with
     | Some _, Some reg => pair_positions env 0 (snd <$> map_to_list (by_condition_ reg))
     | _, _ => []
     end)
    (env_now env).

Definition maybe_push_ui_state env l : Loop :=
  match ui_state_queue_ l with
  | None => l
  | Some q =>
      if env_now env - last_ui_state_push_ts_ l <? ui_state_push_interval_ns_ l then l else
      l <| last_ui_state_push_ts_ := env_now env |>
        <| ui_state_queue_ := Some (try_push (ui_snapshot env (lp_s l)) q).1 |>
  end.

Definition depth {A} (q : SpscQueue Q A) : Z := Z.of_nat (length (contents q)).
Definition sample_depths l : Loop :=
  let mkt := depth (market_queue_ l) in
  let usr := depth (user_queue_ l) in
  let exc := depth (exec_queue_ l) in
  let bmd := match binance_md_queue_ l with Some q => depth q | None => 0 end in
  let backlog := mkt + usr + exc + depth (control_queue_ l) in
  l <| lp_marks ::= fun m =>
    mkDepthMarks (Z.max (hw_market_ m) mkt) (Z.max (hw_user_ m) usr) (Z.max (hw_exec_ m) exc) (Z.max (hw_binance_md_ m) bmd)
      (Z.max (hw_backlog_ m) backlog) (Z.max (max_backlog_observed_ m) backlog) |>.

Definition kStaleAgeNs : Z := 30000000000.
Definition periodic_stats env l : Loop :=
  if env_now env - last_stats_time_ l >? stats_interval_ms (lp_config l) * 1000000
  then on_s (fun s => s <| working_tracker_ ::= fmap (fun t => (gc_stale_pending (env_now env) kStaleAgeNs t).1) |>) l
         <| last_stats_time_ := env_now env |>
  else l.

Definition back_off l : Loop :=
  if events_this_cycle l >? 0 then l <| spin_count := 0 |>
  else let l := l <| empty_polls_ ::= Z.succ |> in
       if (poll_strategy (lp_config l) =? 0) || (poll_strategy (lp_config l) =? 1) then l else l <| spin_count ::= Z.succ |>.

Definition end_cycle env l : Loop :=
  let l := on_s (fun s => s <| state_ ::= fun x => x <| cycle_count_ ::= Z.succ |> |>
                            <| cycle_counters_ := CycleCounters_default |>) l <| lp_pops := QueuePops_default |> in
  let l := maybe_push_ui_state env l in
  let l := on_s (check_probe_cancel_timer env) l in
  let l := on_s (check_probe_timeout env) l in
  let l := back_off l in
  let l := sample_depths l in
  goto PTop (periodic_stats env l).

(** *** The rotation pause *)
Definition pause l : Loop :=
  on_s (fun s => with_strategy (st_set_enabled false) (send_all_cancels s)) l
    <| rotation_phase_ := Some RotationPhase.PAUSED |> <| pc := PPaused |>.
Definition resume l : Loop :=
  let l := match rotation_timing_ l with
           | Some t => on_s (with_strategy (fun x => st_set_enabled true (st_set_rotation_timing t x))) l
           | None => l
           end in
  l <| rotation_phase_ := Some RotationPhase.NORMAL |>.
Definition start_cycle l : Loop := l <| events_this_cycle := 0 |> <| pc := PDelta |>.

(** *** One iteration *)
Definition step env l : Loop :=
  let cfg := lp_config l in
  match pc l with
  | PTop =>
      if stop_requested_ l then goto PStopped l else
      if bool_decide (rotation_phase_ l = Some RotationPhase.PAUSE_REQUESTED) then pause l else start_cycle l
  | PPaused =>
      if stop_requested_ l then goto PStopped l else
      if bool_decide (rotation_phase_ l = Some RotationPhase.RESUME_REQUESTED) then goto PResume l else l
  | PResume => if stop_requested_ l then goto PStopped l else start_cycle (resume l)
  | PDelta =>
      match book_delta_queue_ l with
      | Some q =>
          match front q with
          | Some d => on_s (fun s => s <| strategy_books_ ::= apply_delta d |>) l <| book_delta_queue_ := Some (pop q) |>
          | None => goto (PUser 0) l
          end
      | None => goto (PUser 0) l
      end
  | PUser i =>
      if negb (i <? max_user_events_per_pass cfg) then goto (PExec 0) l else
      match front (user_queue_ l) with
      | None => goto (PExec 0) l
      | Some ev =>
          let l := l <| user_queue_ ::= pop |> <| lp_pops ::= fun p => p <| queue_pops_user ::= Z.succ |> |> in
          goto (PUser (i + 1)) (processed env ev l)
      end
  | PExec i =>
      if negb (i <? max_exec_events_per_pass cfg) then goto PSim l else
      match front (exec_queue_ l) with
      | None => goto PSim l
      | Some ev =>
          let l := l <| exec_queue_ ::= pop |> <| lp_pops ::= fun p => p <| queue_pops_exec ::= Z.succ |> |> in
          goto (PExec (i + 1)) (processed env ev l)
      end
  | PSim => goto (if sim_enabled (lp_s l) then PSimLoop else PMarket 0) l
  | PSimLoop =>
      let '(s, r) := pop_sim (lp_s l) in
      let l := l <| lp_s := s |> in
      match r with
      | None => goto (PMarket 0) l
      | Some ev =>
          on_s (fun s => s <| cycle_counters_ ::= fun c => c <| cc_events_exec ::= Z.succ |> |>) (processed env ev l)
      end
  | PMarket i =>
      if negb (i <? max_market_events_per_pass cfg) then goto PRtds l else
      match front (market_queue_ l) with
      | None => goto PRtds l
      | Some n =>
          let l := l <| market_queue_ ::= pop |> <| lp_pops ::= fun p => p <| queue_pops_market ::= Z.succ |> |> in
          goto (PMarket (i + 1)) (processed env (from_market n) l)
      end
  | PRtds =>
      match rtds_queue_ l, strategy_ptr_ (lp_s l) with
      | Some q, Some _ =>
          match front q with
          | Some price =>
              on_s (with_strategy (st_on_crypto_price price)) l <| rtds_queue_ := Some (pop q) |>
                <| events_this_cycle ::= Z.succ |>
          | None => goto (PBinance 0) l
          end
      | _, _ => goto (PBinance 0) l
      end
  | PBinance i =>
      match binance_md_queue_ l, strategy_ptr_ (lp_s l) with
      | Some q, Some _ =>
          if negb (i <? max_binance_md_events_per_pass cfg) then goto PSlot l else
          match front q with
          | Some upd =>
              let l := on_s (with_strategy (st_on_binance_update upd)) l <| binance_md_queue_ := Some (pop q) |>
                <| lp_pops ::= fun p => p <| queue_pops_binance_md ::= Z.succ |> |> <| events_this_cycle ::= Z.succ |> in
              goto (PBinance (i + 1)) l
          | None => goto PSlot l
          end
      | _, _ => goto PSlot l
      end
  | PSlot =>
      match slot_queue_ l with
      | Some q =>
          match front q with
          | Some ev => processed env ev (l <| slot_queue_ := Some (pop q) |>)
          | None => goto (PControl 0) l
          end
      | None => goto (PControl 0) l
      end
  | PControl i =>
      if negb (i <? max_control_events_per_pass cfg) then goto PCycleEnd l else
      match front (control_queue_ l) with
      | None => goto PCycleEnd l
      | Some ev =>
          let l := l <| control_queue_ ::= pop |> <| lp_pops ::= fun p => p <| queue_pops_control ::= Z.succ |> |> in
          let l := processed env ev l in
          if bool_decide (kind ev = SchedulerEventKind.CONTROL_SHUTDOWN)
          then goto PCycleEnd (l <| stop_requested_ := true |>) else goto (PControl (i + 1)) l
      end
  | PCycleEnd => end_cycle env l
  | PStopped => l
  end.

(** The entry of [run]. *)
Definition run_start env l : Loop := l <| last_stats_time_ := env_now env |> <| spin_count := 0 |> <| pc := PTop |>.
Definition request_shutdown l : Loop := l <| stop_requested_ := true |>.

(** ** How an event changes simulator and gate

    Every operation of the pipeline is a sequence of the primitive changes below;
    the gate is evaluated by [submit] only ([g]). *)
Inductive prim (g : bool) s : Scheduler -> Prop :=
  | PrimOther s' : mode_sink_ s' = mode_sink_ s -> own_dry_run_sim_ s' = own_dry_run_sim_ s ->
      risk_gate_ptr_ s' = risk_gate_ptr_ s -> prim g s s'
  | PrimAccept i : prim g s (sink_accept i s).1
  | PrimEnable b : prim g s (with_sim (set_enabled b) s)
  | PrimReset : prim g s (with_sim sim_reset s)
  | PrimMode m : prim g s (set_sink_mode m s)
  | PrimGate x : g = true -> prim g s (s <| risk_gate_ptr_ := x |>).
Definition prims (g : bool) : Scheduler -> Scheduler -> Prop := rtc (prim g).

Lemma prims_other g s s' : mode_sink_ s' = mode_sink_ s -> own_dry_run_sim_ s' = own_dry_run_sim_ s ->
  risk_gate_ptr_ s' = risk_gate_ptr_ s -> prims g s s'.
Proof. intros. apply rtc_once. by apply PrimOther. Qed.
Lemma prims_trans g s1 s2 s3 : prims g s1 s2 -> prims g s2 s3 -> prims g s1 s3.
Proof. unfold prims. intros. by etrans. Qed.
Lemma prims_accept g i s : prims g s (sink_accept i s).1.
Proof. apply rtc_once, PrimAccept. Qed.
Lemma prims_accept_all g xs s : prims g s (sink_accept_all xs s).
Proof.
  revert s. induction xs as [|i xs IH]; intros s; [apply rtc_refl|]. eapply prims_trans; [apply prims_accept|apply IH].
Qed.
Lemma prims_enable g b s : prims g s (with_sim (set_enabled b) s).
Proof. apply rtc_once, PrimEnable. Qed.
Lemma prims_reset g s : prims g s (with_sim sim_reset s).
Proof. apply rtc_once, PrimReset. Qed.
Lemma prims_mode g m s : prims g s (set_sink_mode m s).
Proof. apply rtc_once, PrimMode. Qed.
Lemma prims_all_cancels g s : prims g s (send_all_cancels s).
Proof. unfold send_all_cancels. case_match; [apply prims_accept_all|apply rtc_refl]. Qed.
Lemma prims_market_cancels g c s : prims g s (send_market_cancels c s).
Proof. unfold send_market_cancels. case_match; [apply prims_accept_all|apply rtc_refl]. Qed.
Lemma prims_cancel_everything g env s : prims g s (cancel_everything env s).
Proof. eapply prims_trans; [apply prims_all_cancels|apply prims_accept]. Qed.
Lemma prims_change_mode g m s : prims g s (change_mode m s).
Proof.
  unfold change_mode. case_match; [|apply rtc_refl]. eapply prims_trans; [|apply prims_mode]. by apply prims_other.
Qed.

(** One step of a chain: a primitive, or a change outside simulator and gate. *)
Ltac prims_step :=
  first [ apply rtc_refl | apply prims_accept_all | apply prims_all_cancels | apply prims_market_cancels
        | apply prims_cancel_everything | apply prims_change_mode | apply prims_mode | apply prims_enable | apply prims_reset
        | apply prims_accept | by apply prims_other ].
Ltac prims_via x := apply (prims_trans _ _ x); [try prims_step|try prims_step].

Lemma prims_stop g env s :
  prims g s (with_sim (set_enabled true) (change_mode ExecutionMode.DRY_RUN (cancel_everything env s))).
Proof. prims_via (change_mode ExecutionMode.DRY_RUN (cancel_everything env s)). prims_via (cancel_everything env s). Qed.

Lemma prims_feedback g env ev s : prims g s (route_feedback env ev s).
Proof.
  unfold route_feedback. case_match; [|prims_step]. case_match; [prims_step|]. case_match; try prims_step.
  unfold emergency_stop. pose proof (prims_stop g env s) as Hst. case_match; [done|].
  eapply prims_trans; [exact Hst|prims_step].
Qed.

Lemma with_sim_compose f h s : with_sim (fun d => f (h d)) s = with_sim f (with_sim h s).
Proof. unfold with_sim. destruct (mode_sink_ s) as [m|] eqn:Em; simpl; [|by rewrite Em]. by destruct (dry_sim_ m). Qed.

Lemma prims_set_mode g ev s : prims g s (control_set_mode ev s).
Proof.
  unfold control_set_mode. cbv zeta. set (j := journal _ s).
  set (s1 := with_sim _ (set_sink_mode (control_mode ev) j)).
  assert (prims g s s1) as P1 by (prims_via (set_sink_mode (control_mode ev) j); prims_via j).
  case_match.
  - eapply prims_trans; [exact P1|prims_step].
  - eapply prims_trans; [exact P1|]. prims_via (with_sim sim_reset (with_strategy (st_set_dry_run false) s1)).
    prims_via (with_strategy (st_set_dry_run false) s1).
Qed.

Lemma prims_go_live g env s : prims g s (session_go_live env s).
Proof.
  unfold session_go_live. cbv zeta. rewrite with_sim_compose. set (s1 := s <| session_ ::= _ |>).
  prims_via (with_sim sim_reset (with_sim (set_enabled false) (change_mode ExecutionMode.LIVE s1))).
  prims_via (with_sim (set_enabled false) (change_mode ExecutionMode.LIVE s1)).
  prims_via (change_mode ExecutionMode.LIVE s1). prims_via s1.
Qed.
Lemma prims_session_end g env s : prims g s (session_end env s).
Proof. unfold session_end. eapply prims_trans; [apply (prims_stop g env)|prims_step]. Qed.
Lemma prims_promoted g env ev s : prims g s (slot_promoted env ev s).
Proof.
  unfold slot_promoted. cbv zeta. set (s1 := s <| slot_token_map_ ::= _ |>). case_match; [prims_step|..]; case_match; try prims_step.
  - prims_via s1. apply prims_go_live.
  - match goal with |- context [session_end env ?x] => prims_via x end. apply prims_session_end.
Qed.
Lemma prims_stop_session g env s : prims g s (stop_session env s).
Proof.
  unfold stop_session. case_match; [prims_step|]. eapply prims_trans; [apply (prims_stop g env)|prims_step].
Qed.

Lemma prims_probe g env s : prims g s (latency_probe env s).
Proof.
  unfold latency_probe. repeat case_match; try prims_step; cbv zeta in *;
    match goal with Ha : sink_accept ?i ?x = (?s3, _) |- _ =>
      apply (prims_trans _ _ s3); [|prims_step]; apply (prims_trans _ _ x); [prims_step|];
      pose proof (prims_accept g i x) as Hacc; rewrite Ha in Hacc; exact Hacc end.
Qed.
Lemma prims_sell_token g env c p tok s : prims g s (sell_token env c p s tok).
Proof.
  unfold sell_token. cbv zeta. repeat (case_match; [prims_step|]).
  match goal with |- context [sink_accept ?i ?x] => prims_via x end.
Qed.
Lemma prims_foldl {A} g (f : Scheduler -> A -> Scheduler) xs s : (forall s x, prims g s (f s x)) -> prims g s (foldl f s xs).
Proof.
  intros Hf. revert s. induction xs as [|x xs IH]; intros s; [apply rtc_refl|]. eapply prims_trans; [apply Hf|apply IH].
Qed.
Lemma prims_market_sell g env b s : prims g s (market_sell env b s).
Proof.
  unfold market_sell. case_match; [|prims_step]. cbv zeta.
  match goal with |- context [send_all_cancels ?x] => set (s1 := x) end.
  match goal with |- context [if bool_decide (mode_ ?m = ExecutionMode.LIVE) then ?x else _] => set (s2 := x) end.
  assert (prims g s s1) as P1.
  { unfold s1. case_match; [prims_step|]. prims_via (with_strategy (st_set_enabled false) s). }
  assert (prims g s1 s2) as P2.
  { prims_via (send_all_cancels s1). unfold s2. repeat case_match; try prims_step. apply prims_foldl. intros s' [c p].
    unfold sell_market. apply prims_foldl. intros. apply prims_sell_token. }
  eapply prims_trans; [exact P1|]. eapply prims_trans; [exact P2|]. case_match; prims_step.
Qed.

Lemma prims_control g env ev s : prims g s (handle_control env ev s).
Proof.
  unfold handle_control. case_match; [prims_step|].
  destruct (kind ev); try prims_step; try apply prims_set_mode; try apply prims_promoted; try apply prims_stop_session;
    try apply prims_probe; try apply prims_market_sell.
  - unfold control_cancel_all. cbv zeta. match goal with |- context [cancel_everything env ?x] => prims_via x end.
  - unfold control_inventory. case_match; prims_step.
  - unfold control_inventory. case_match; prims_step.
  - unfold control_inventory. case_match; prims_step.
  - unfold slot_closing. cbv zeta. set (s1 := s <| slot_token_map_ ::= _ |>). case_match; [|prims_step]. prims_via s1.
  - unfold start_session. case_match; prims_step.
Qed.

Lemma before_other env ev s :
  let s' := journal_exec ev (feed_tracker ev (update_ui env ev (journal_user env ev (update_state env ev s)))) in
  mode_sink_ s' = mode_sink_ s /\ own_dry_run_sim_ s' = own_dry_run_sim_ s /\ risk_gate_ptr_ s' = risk_gate_ptr_ s /\
  strategy_ptr_ s' = strategy_ptr_ s.
Proof.
  cbv zeta. set (s1 := update_state env ev s). set (s2 := journal_user env ev s1). set (s3 := update_ui env ev s2).
  set (s4 := feed_tracker ev s3).
  assert (mode_sink_ s1 = mode_sink_ s /\ own_dry_run_sim_ s1 = own_dry_run_sim_ s /\ risk_gate_ptr_ s1 = risk_gate_ptr_ s /\
    strategy_ptr_ s1 = strategy_ptr_ s) as (<- & <- & <- & <-) by (unfold s1, update_state; repeat case_match; done).
  assert (mode_sink_ s2 = mode_sink_ s1 /\ own_dry_run_sim_ s2 = own_dry_run_sim_ s1 /\ risk_gate_ptr_ s2 = risk_gate_ptr_ s1 /\
    strategy_ptr_ s2 = strategy_ptr_ s1) as (<- & <- & <- & <-) by (unfold s2, journal_user; repeat case_match; done).
  assert (mode_sink_ s3 = mode_sink_ s2 /\ own_dry_run_sim_ s3 = own_dry_run_sim_ s2 /\ risk_gate_ptr_ s3 = risk_gate_ptr_ s2 /\
    strategy_ptr_ s3 = strategy_ptr_ s2) as (<- & <- & <- & <-) by (unfold s3, update_ui; repeat case_match; done).
  assert (mode_sink_ s4 = mode_sink_ s3 /\ own_dry_run_sim_ s4 = own_dry_run_sim_ s3 /\ risk_gate_ptr_ s4 = risk_gate_ptr_ s3 /\
    strategy_ptr_ s4 = strategy_ptr_ s3) as (<- & <- & <- & <-) by (unfold s4, feed_tracker; repeat case_match; done).
  unfold journal_exec. by case_match.
Qed.
Lemma prims_before g env ev s :
  prims g s (journal_exec ev (feed_tracker ev (update_ui env ev (journal_user env ev (update_state env ev s))))).
Proof. destruct (before_other env ev s) as (? & ? & ? & _). by apply prims_other. Qed.
Lemma prims_probe_feedback g env ev s : prims g s (handle_probe_feedback env ev s).
Proof. unfold handle_probe_feedback. repeat case_match; prims_step. Qed.

Lemma prims_submit env ev s i : prims true s (submit env ev s i).
Proof.
  unfold submit. assert (prims true s (gate_evaluate env i s).1) as Hg.
  { unfold gate_evaluate. repeat case_match; [by apply rtc_once, PrimGate|prims_step]. }
  destruct (gate_evaluate env i s) as [s1 r]. simpl in Hg. eapply prims_trans; [exact Hg|]. clear Hg.
  destruct (negb _); [prims_step|].
  match goal with |- context [sink_accept i ?x] => pose proof (prims_accept true i x) as P2; assert (prims true s1 x) as P1 by prims_step;
    destruct (sink_accept i x) as [s3 res] end. simpl in P2. pose proof (prims_trans _ _ _ _ P1 P2) as P3.
  destruct (negb _); [done|]. eapply prims_trans; [exact P3|]. case_match; prims_step.
Qed.

(** The steps up to the strategy. *)
Definition before_trigger env ev s : Scheduler :=
  let s := journal_exec ev (feed_tracker ev (update_ui env ev (journal_user env ev (update_state env ev s)))) in
  let s := handle_control env ev (route_feedback env ev s) in
  count_event ev (if bool_decide (source ev = EventSource.EXEC_INTERNAL) then handle_probe_feedback env ev s else s).
Lemma process_event_split env ev s :
  process_event env ev s = if should_trigger ev then trigger env ev (before_trigger env ev s) else before_trigger env ev s.
Proof. done. Qed.
Lemma prims_before_trigger g env ev s : prims g s (before_trigger env ev s).
Proof.
  unfold before_trigger. cbv zeta. pose proof (prims_before g env ev s) as P1. set (s1 := journal_exec ev _) in *.
  pose proof (prims_feedback g env ev s1) as P2. pose proof (prims_control g env ev (route_feedback env ev s1)) as P3.
  set (s3 := handle_control env ev _) in *.
  assert (prims g s s3) as P4 by (do 2 (eapply prims_trans; [eassumption|]); done).
  eapply prims_trans; [exact P4|]. case_match; [|prims_step]. eapply prims_trans; [apply prims_probe_feedback|prims_step].
Qed.

(** The proposals that reach the gate, and the state they are made in. *)
Definition proposals env ev s : Scheduler * list ExecutionIntent :=
  let '(s, intents) := call_strategy env ev (s <| state_ ::= fun x => x <| trigger_count_ ::= Z.succ |> |>) in
  (journal_eval ev intents (s <| cycle_counters_ ::= fun c => c <| cc_strategy_calls ::= Z.succ |> |>),
   flat_map plan (enrich env <$> intents)).
Lemma trigger_split env ev s :
  trigger env ev s =
    let '(s, planned) := proposals env ev s in
    let s := foldl (submit env ev) s planned in
    let s := gate_cancel_all (s <| cycle_counters_ ::= fun c => c <| cc_intents_produced ::= fun n => n + Z.of_nat (length planned) |> |>) in
    if bool_decide (kind ev = SchedulerEventKind.MARKET_RESOLVED) && nonempty (resolved_condition_id ev)
    then send_market_cancels (resolved_condition_id ev) s else s.
Proof. unfold trigger, proposals. by destruct (call_strategy _ _ _). Qed.
Lemma proposals_other env ev s :
  mode_sink_ (proposals env ev s).1 = mode_sink_ s /\ own_dry_run_sim_ (proposals env ev s).1 = own_dry_run_sim_ s /\
  risk_gate_ptr_ (proposals env ev s).1 = risk_gate_ptr_ s.
Proof.
  unfold proposals, call_strategy. simpl. destruct (strategy_ptr_ s) as [x|].
  - destruct (st_evaluate _ _ x) as [[x1 k] xs]. simpl. unfold journal_eval. by case_match.
  - destruct (stub_evaluate _ _ _) as [x xs]. simpl. unfold journal_eval. by case_match.
Qed.
Lemma prims_gate_cancel s : prims true s (gate_cancel_all s).
Proof.
  unfold gate_cancel_all. repeat case_match; try prims_step. eapply prims_trans; [apply prims_all_cancels|].
  by apply rtc_once, PrimGate.
Qed.
Lemma prims_trigger env ev s : prims true s (trigger env ev s).
Proof.
  rewrite trigger_split. destruct (proposals_other env ev s) as (P1 & P2 & P3).
  destruct (proposals env ev s) as [s1 planned]. simpl in P1, P2, P3. cbv zeta.
  match goal with |- context [gate_cancel_all ?x] => set (s2 := x) end.
  assert (prims true s s2) as P4.
  { apply (prims_trans _ _ s1); [by apply prims_other|]. apply (prims_trans _ _ (foldl (submit env ev) s1 planned)); [|prims_step].
    apply prims_foldl. intros. apply prims_submit. }
  pose proof (prims_trans _ _ _ _ P4 (prims_gate_cancel s2)) as P5.
  case_match; [|done]. eapply prims_trans; [exact P5|apply prims_market_cancels].
Qed.
Lemma prims_event env ev s : prims true s (process_event env ev s).
Proof.
  rewrite process_event_split. pose proof (prims_before_trigger true env ev s) as P1. case_match; [|done].
  eapply prims_trans; [exact P1|apply prims_trigger].
Qed.

(** ** The simulator holds acknowledgements *)
Definition is_ack (ev : SchedulerEvent) : bool :=
  bool_decide (source ev = EventSource.EXEC_INTERNAL) && bool_decide (kind ev = SchedulerEventKind.EXEC_ORDER_ACK) &&
  (bool_decide (exec_feedback_kind ev = ExecFeedbackKind.ORDER_ACCEPTED) ||
   bool_decide (exec_feedback_kind ev = ExecFeedbackKind.CANCEL_CONFIRMED)).

Definition sim_good (d : DryRunSimulator) : Prop := sim_inv d /\ Forall (fun ev => is_ack ev = true) (sim_list d).
Definition sched_ok s : Prop := forall d, sim_of s = Some d -> sim_good d.

Lemma ack_of_is_ack seq i ev : ack_of seq i = Some ev -> is_ack ev = true.
Proof. unfold ack_of. repeat case_match; by intros [= <-]. Qed.
Lemma on_intent_good i d : sim_good d -> sim_good (on_intent i d).
Proof.
  intros [Hi Ha]. destruct (on_intent_spec i d Hi) as [Hi' Hl]. split; [done|]. rewrite Hl. apply Forall_app. split; [done|].
  case_match; [|constructor]. destruct (ack_of (sim_seq_ d) i) eqn:E; [|constructor].
  constructor; [by eapply ack_of_is_ack|constructor].
Qed.
Lemma set_enabled_good b d : sim_good d -> sim_good (set_enabled b d).
Proof. intros [[Hr Ht] Ha]. by split. Qed.
Lemma sim_reset_good d : sim_good d -> sim_good (sim_reset d).
Proof. intros [Hi _]. destruct (sim_reset_spec d Hi) as [? E]. split; [done|]. rewrite E. constructor. Qed.

Lemma with_sim_ok f s : (forall d, sim_good d -> sim_good (f d)) -> sched_ok s -> sched_ok (with_sim f s).
Proof.
  intros Hf Hs d. unfold sched_ok, sim_of, with_sim in *. destruct (mode_sink_ s) as [m|] eqn:Em; simpl.
  - destruct (dry_sim_ m) as [d'|]; [|done]. intros [= <-]. by apply Hf, Hs.
  - rewrite Em. intros [= <-]. by apply Hf, Hs.
Qed.
Lemma accept_ok i s : sched_ok s -> sched_ok (sink_accept i s).1.
Proof.
  intros Hs d. unfold sched_ok, sim_of, sink_accept in *. destruct (mode_sink_ s) as [m|] eqn:Em.
  - unfold accept. simpl. assert (forall d', dry_sim_ (forward i m).1 = Some d' -> sim_good d') as Hf.
    { intros d'. unfold forward. destruct (inner_ m) as [x|]; [destruct (accept i x)|]; apply Hs. }
    destruct (bool_decide _); [destruct (forward i m); apply Hf|].
    destruct (mode_ m); [|destruct (forward i m); apply Hf].
    destruct (dry_sim_ m) as [d'|]; simpl; [|done]. intros [= <-]. by apply on_intent_good, Hs.
  - destruct (accept i (active_sink_ s)). simpl. rewrite Em. apply Hs.
Qed.
Lemma prims_ok g s s' : prims g s s' -> sched_ok s -> sched_ok s'.
Proof.
  induction 1 as [|s1 s2 s3 Hp _ IH]; [done|]. intros Hs. apply IH. clear IH. destruct Hp as [s' Em Eo _|i|b| |m|x _].
  - intros d. unfold sim_of. rewrite Em, Eo. apply Hs.
  - by apply accept_ok.
  - apply with_sim_ok; [apply set_enabled_good|done].
  - apply with_sim_ok; [apply sim_reset_good|done].
  - intros d. unfold sim_of, set_sink_mode. simpl. specialize (Hs d). unfold sim_of in Hs. by destruct (mode_sink_ s1).
  - exact Hs.
Qed.

(** *** The cancel-all request of the gate is consumed with the event that raised it *)
Definition gate_idle s : Prop := forall x, risk_gate_ptr_ s = Some x -> pending_cancel_all_ x = false.
Lemma prims_gate s s' : prims false s s' -> risk_gate_ptr_ s' = risk_gate_ptr_ s.
Proof.
  induction 1 as [|s1 s2 s3 Hp _ IH]; [done|]. rewrite IH. destruct Hp as [s' _ _ E|i|b| |m|x E]; try done.
  - unfold sink_accept. case_match; case_match; done.
  - unfold with_sim. by case_match.
  - unfold with_sim. by case_match.
Qed.
Lemma gate_cancel_idle s : gate_idle (gate_cancel_all s).
Proof.
  intros x. unfold gate_cancel_all. destruct (risk_gate_ptr_ s) as [y|] eqn:E; [|by rewrite E].
  destruct (pending_cancel_all_ y) eqn:Ep; [|rewrite E; by intros [= <-]]. simpl.
  rewrite (prims_gate _ _ (prims_all_cancels false s)), E. by intros [= <-].
Qed.
Lemma trigger_idle env ev s : gate_idle (trigger env ev s).
Proof.
  rewrite trigger_split. destruct (proposals env ev s) as [s1 planned]. cbv zeta. case_match; [|apply gate_cancel_idle].
  intros x. rewrite (prims_gate _ _ (prims_market_cancels false _ _)). apply gate_cancel_idle.
Qed.
Lemma process_event_idle env ev s : gate_idle s -> gate_idle (process_event env ev s).
Proof.
  intros Hg. rewrite process_event_split. case_match; [apply trigger_idle|].
  intros x. rewrite (prims_gate _ _ (prims_before_trigger false env ev s)). apply Hg.
Qed.

(** ** A pass ends *)

(** The intents a strategy answers acknowledgements with are paid from a budget
    of at most [bmax], which its answers never refill.  The budget of a
    strategy that does not answer them at all is 0. *)
Definition frugal_strategy (bmax : nat) (budget : ST -> nat) : Prop :=
  (forall x, (budget x <= bmax)%nat) /\
  forall (ctx : StrategyContext I) (k : option K) (x : ST), is_ack (ctx_event I ctx) = true ->
    let '(x', _, xs) := st_evaluate ctx k x in (length xs + budget x' <= budget x)%nat.

Lemma is_ack_inv ev : is_ack ev = true ->
  source ev = EventSource.EXEC_INTERNAL /\ kind ev = SchedulerEventKind.EXEC_ORDER_ACK /\
  (exec_feedback_kind ev = ExecFeedbackKind.ORDER_ACCEPTED \/ exec_feedback_kind ev = ExecFeedbackKind.CANCEL_CONFIRMED).
Proof. unfold is_ack. intros [[?%bool_decide_eq_true_1 ?%bool_decide_eq_true_1]%andb_prop [?%bool_decide_eq_true_1|?%bool_decide_eq_true_1]%orb_prop]%andb_prop; auto. Qed.

Lemma before_trigger_ack env ev s : is_ack ev = true ->
  let s' := before_trigger env ev s in
  mode_sink_ s' = mode_sink_ s /\ own_dry_run_sim_ s' = own_dry_run_sim_ s /\ risk_gate_ptr_ s' = risk_gate_ptr_ s /\
  strategy_ptr_ s' = strategy_ptr_ s.
Proof.
  intros (Hs & Hk & Hf)%is_ack_inv. cbv zeta. unfold before_trigger.
  destruct (before_other env ev s) as (E1 & E2 & E3 & E4). set (s1 := journal_exec ev _) in *.
  assert (route_feedback env ev s1 = s1) as ->.
  { unfold route_feedback. destruct (strategy_ptr_ s1); [|done]. case_match; [done|]. by destruct Hf as [-> | ->]. }
  assert (handle_control env ev s1 = s1) as -> by (unfold handle_control; by rewrite Hs).
  rewrite Hs, bool_decide_eq_true_2 by done. unfold count_event, handle_probe_feedback. cbv zeta.
  repeat case_match; simpl; done.
Qed.

(** What follows the strategy's answer leaves the strategy alone. *)
Lemma accept_strategy i s : strategy_ptr_ (sink_accept i s).1 = strategy_ptr_ s.
Proof. unfold sink_accept. case_match; case_match; done. Qed.
Lemma accept_all_strategy xs s : strategy_ptr_ (sink_accept_all xs s) = strategy_ptr_ s.
Proof. revert s. induction xs as [|i xs IH]; intros s; [done|]. simpl. by rewrite IH, accept_strategy. Qed.
Lemma submit_strategy env ev s i : strategy_ptr_ (submit env ev s i) = strategy_ptr_ s.
Proof.
  unfold submit. assert (strategy_ptr_ (gate_evaluate env i s).1 = strategy_ptr_ s) as Hg
    by (unfold gate_evaluate; by repeat case_match).
  destruct (gate_evaluate env i s) as [s1 r]. simpl in Hg. rewrite <- Hg. clear Hg. destruct (negb _); [done|].
  match goal with |- context [sink_accept i ?x] =>
    pose proof (accept_strategy i x) as Ha; destruct (sink_accept i x) as [s3 res] end. simpl in Ha.
  destruct (negb _); [done|]. case_match; done.
Qed.
Lemma trigger_strategy env ev s : strategy_ptr_ (trigger env ev s) = strategy_ptr_ (proposals env ev s).1.
Proof.
  rewrite trigger_split. destruct (proposals env ev s) as [s1 planned]. cbv zeta. simpl fst.
  assert (strategy_ptr_ (foldl (submit env ev) s1 planned) = strategy_ptr_ s1) as Hf.
  { revert s1. induction planned as [|i xs IH]; intros s1; [done|]. simpl. by rewrite IH, submit_strategy. }
  rewrite <- Hf. generalize (foldl (submit env ev) s1 planned). clear. intros s1.
  assert (forall s, strategy_ptr_ (gate_cancel_all s) = strategy_ptr_ s) as Hg.
  { intros s. unfold gate_cancel_all, send_all_cancels. repeat case_match; simpl; rewrite ?accept_all_strategy; done. }
  case_match; [|by rewrite Hg]. unfold send_market_cancels. case_match; rewrite ?accept_all_strategy; by rewrite Hg.
Qed.

(** The answer to an acknowledgement leaves the simulator as it is or costs a part
    of the budget. *)
Definition budget_of (budget : ST -> nat) s : nat := match strategy_ptr_ s with Some x => budget x | None => 0%nat end.

Lemma proposals_frugal bmax budget env ev s : frugal_strategy bmax budget -> is_ack ev = true ->
  (length (proposals env ev s).2 + budget_of budget (proposals env ev s).1 <= budget_of budget s)%nat.
Proof.
  intros [_ Hq] Ha. unfold proposals, call_strategy, budget_of. simpl. destruct (strategy_ptr_ s) as [x|] eqn:Ex.
  - match goal with |- context [st_evaluate ?ctx ?k x] => pose proof (Hq ctx k x Ha) as E; destruct (st_evaluate ctx k x) as [[x1 k1] xs] end.
    assert (length (flat_map plan (enrich env <$> xs)) = length xs) as Hl.
    { clear. induction xs as [|i xs IH]; [done|]. cbn [fmap list_fmap flat_map]. rewrite length_app, IH. done. }
    cbn [snd fst]. rewrite Hl. unfold journal_eval. destruct xs; exact E.
  - apply is_ack_inv in Ha as (Hs & _). unfold stub_evaluate. rewrite Hs. destruct (negb _); simpl; rewrite Ex; lia.
Qed.

Lemma ack_frugal bmax budget env ev s : frugal_strategy bmax budget -> is_ack ev = true -> gate_idle s ->
  (sim_of (process_event env ev s) = sim_of s /\ (budget_of budget (process_event env ev s) <= budget_of budget s)%nat) \/
  (budget_of budget (process_event env ev s) < budget_of budget s)%nat.
Proof.
  intros Hq Ha Hg. rewrite process_event_split. destruct (before_trigger_ack env ev s Ha) as (E1 & E2 & E3 & E4).
  assert (budget_of budget (before_trigger env ev s) = budget_of budget s) as Eb by (unfold budget_of; by rewrite E4).
  set (s1 := before_trigger env ev s) in *. destruct (is_ack_inv ev Ha) as (Hs & Hk & _).
  assert (should_trigger ev = true) as -> by (unfold should_trigger; by rewrite Hs).
  pose proof (proposals_frugal bmax budget env ev s1 Hq Ha) as Ep. destruct (proposals_other env ev s1) as (F1 & F2 & F3).
  assert (budget_of budget (trigger env ev s1) = budget_of budget (proposals env ev s1).1) as Et
    by (unfold budget_of; by rewrite trigger_strategy).
  rewrite Et. destruct (proposals env ev s1) as [s2 planned] eqn:Epr. simpl in *.
  destruct planned as [|i planned]; [left|right; simpl in Ep; lia]. split; [|simpl in Ep; lia].
  rewrite trigger_split, Epr. cbn [foldl]. rewrite Hk. cbn. unfold gate_cancel_all. simpl. rewrite F3, E3.
  assert (sim_of s2 = sim_of s) as Es by (unfold sim_of; by rewrite F1, F2, E1, E2).
  destruct (risk_gate_ptr_ s) as [y|] eqn:Ey; [|exact Es]. rewrite (Hg y Ey). exact Es.
Qed.

(** *** The work left in a pass *)
Definition qlen {A} (o : option (SpscQueue Q A)) : nat := match o with Some q => length (contents q) | None => 0%nat end.
Definition left_of (max i : Z) : nat := Z.to_nat (max - i).
Definition sim_count s : nat := match sim_of s with Some d => count_ d | None => 0%nat end.

(** An answer to an acknowledgement fills the simulator at most. *)
Definition answers (budget : nat) : nat := (S kMaxBuffered * budget)%nat.
Definition work (bmax : nat) (budget : ST -> nat) l : nat :=
  let c := lp_config l in
  let control i := (1 + left_of (max_control_events_per_pass c) i)%nat in
  let slot := (1 + qlen (slot_queue_ l) + control 0%Z)%nat in
  let binance i := (1 + left_of (max_binance_md_events_per_pass c) i + slot)%nat in
  let rtds := (1 + qlen (rtds_queue_ l) + binance 0%Z)%nat in
  let market i := (1 + left_of (max_market_events_per_pass c) i + rtds)%nat in
  let sim := (2 + kMaxBuffered + answers bmax + market 0%Z)%nat in
  let exec i := (1 + left_of (max_exec_events_per_pass c) i + sim)%nat in
  let user i := (1 + left_of (max_user_events_per_pass c) i + exec 0%Z)%nat in
  match pc l with
  | PDelta => 1 + qlen (book_delta_queue_ l) + user 0%Z
  | PUser i => user i
  | PExec i => exec i
  | PSim => sim
  | PSimLoop => 1 + sim_count (lp_s l) + answers (budget_of budget (lp_s l)) + market 0%Z
  | PMarket i => market i
  | PRtds => rtds
  | PBinance i => binance i
  | PSlot => slot
  | PControl i => control i
  | _ => 0
  end%nat.
Definition draining l : bool :=
  match pc l with PTop | PPaused | PResume | PCycleEnd | PStopped => false | _ => true end.
Definition loop_ok l : Prop := sched_ok (lp_s l) /\ gate_idle (lp_s l).

Lemma event_ok env ev l : loop_ok l -> loop_ok (processed env ev l).
Proof. intros [? ?]. split; simpl; [by eapply prims_ok; [apply prims_event|]|by apply process_event_idle]. Qed.
Lemma loop_ok_same l l' : lp_s l' = lp_s l -> loop_ok l -> loop_ok l'.
Proof. intros E [? ?]. split; by rewrite E. Qed.
Lemma prims_loop_ok f l : (forall s, prims false s (f s)) -> loop_ok l -> loop_ok (on_s f l).
Proof.
  intros Hf [? ?]. split; simpl; [by eapply prims_ok; [apply Hf|]|]. intros x. rewrite (prims_gate _ _ (Hf _)). auto.
Qed.
Lemma left_of_step max i : i < max -> left_of max i = S (left_of max (i + 1)).
Proof. unfold left_of. intros. lia. Qed.

Lemma sim_count_bound s : sched_ok s -> (sim_count s <= kMaxBuffered)%nat.
Proof.
  intros Hs. unfold sim_count. destruct (sim_of s) as [d|] eqn:E; [|lia]. destruct (Hs d E) as [[Hr _] _].
  exact (rg_count _ _ Hr).
Qed.

(** Popping the simulator takes the first acknowledgement. *)
Lemma sim_pop_good d ev : sim_good d -> (sim_pop d).2 = Some ev ->
  is_ack ev = true /\ sim_good (sim_pop d).1 /\ count_ d = S (count_ (sim_pop d).1).
Proof.
  intros [Hi Ha] Hev. pose proof (sim_pop_spec d Hi) as Hp. assert (count_ d = S (count_ (sim_pop d).1)) as Hc.
  { revert Hev. unfold sim_pop. destruct (Nat.eqb_spec (count_ d) 0); [done|]. simpl. lia. }
  destruct (sim_pop d) as [d' r]. simpl in *. subst r. destruct Hp as (Hi' & _ & _ & Hl & _). rewrite Hl in Ha.
  apply Forall_cons in Ha as [Ha Ha']. by split_and!.
Qed.
Lemma pop_sim_some s s' ev : sched_ok s -> gate_idle s -> pop_sim s = (s', Some ev) ->
  is_ack ev = true /\ sched_ok s' /\ gate_idle s' /\ sim_count s = S (sim_count s').
Proof.
  intros Hs Hg [= <- Hev]. unfold sched_ok, gate_idle, sim_count, sim_of, with_sim in *.
  destruct (mode_sink_ s) as [m|] eqn:Em; simpl in *; rewrite ?Em.
  - destruct (dry_sim_ m) as [d|] eqn:Ed; [|done]. destruct (sim_pop_good d ev (Hs d eq_refl) Hev) as (? & ? & ?).
    simpl. split_and!; [done|by intros ? [= <-]|done|done].
  - destruct (sim_pop_good _ ev (Hs _ eq_refl) Hev) as (? & ? & ?). split_and!; [done|by intros ? [= <-]|done|done].
Qed.
Lemma sim_pop_none d : (sim_pop d).2 = None -> (sim_pop d).1 = d.
Proof. unfold sim_pop. by destruct (_ =? _)%nat. Qed.
Lemma pop_sim_none s s' : sched_ok s -> gate_idle s -> pop_sim s = (s', None) -> sched_ok s' /\ gate_idle s'.
Proof.
  intros Hs Hg [= <- Hev]. unfold sched_ok, gate_idle, sim_of, with_sim in *.
  destruct (mode_sink_ s) as [m|] eqn:Em; simpl in *.
  - split; [|done]. destruct (dry_sim_ m) as [d|]; [|done]. simpl. rewrite sim_pop_none by done. done.
  - rewrite Em. split; [|done]. by rewrite sim_pop_none.
Qed.
Lemma pop_sim_budget budget s : budget_of budget (pop_sim s).1 = budget_of budget s.
Proof. unfold budget_of, pop_sim, with_sim. simpl. destruct (mode_sink_ s); done. Qed.
#[local] Opaque process_event end_cycle kMaxBuffered.

(** What the steps of the loop do to the scheduler. *)
Lemma end_cycle_ok env l : loop_ok l -> loop_ok (end_cycle env l).
Proof.
  intros Hok. Transparent end_cycle. unfold end_cycle. cbv zeta. set (l1 := on_s _ l <| lp_pops := _ |>).
  assert (loop_ok l1) as P1.
  { apply (prims_loop_ok (fun s => s <| state_ ::= fun x => x <| cycle_count_ ::= Z.succ |> |>
      <| cycle_counters_ := CycleCounters_default |>)); [intros; by apply prims_other|done]. }
  assert (loop_ok (maybe_push_ui_state env l1)) as P2 
    by (apply (loop_ok_same l1); [unfold maybe_push_ui_state; by repeat case_match|exact P1]).
  set (l2 := maybe_push_ui_state env l1) in *.
  assert (forall s, prims false s (check_probe_cancel_timer env s)) as Hc.
  { intros s. unfold check_probe_cancel_timer. repeat (case_match; [apply rtc_refl|]). cbv zeta.
    match goal with |- context [sink_accept ?i ?x] => prims_via x end. }
  assert (forall s, prims false s (check_probe_timeout env s)) as Ht
    by (intros s; unfold check_probe_timeout; repeat case_match; prims_step).
  pose proof (prims_loop_ok _ _ Ht (prims_loop_ok _ _ Hc P2)) as P3. set (l3 := on_s (check_probe_timeout env) _) in *.
  assert (loop_ok (sample_depths (back_off l3))) as P4 
    by (apply (loop_ok_same l3); [change (lp_s (back_off l3) = lp_s l3); unfold back_off; by repeat case_match|exact P3]).
  unfold periodic_stats. case_match; [|exact P4].
  apply (loop_ok_same (on_s (fun s => s <| working_tracker_ ::= fmap (fun t => (gc_stale_pending (env_now env) kStaleAgeNs t).1) |>)
    (sample_depths (back_off l3)))); [done|]. apply prims_loop_ok; [intros; by apply prims_other|exact P4].
Qed.
#[local] Opaque end_cycle.

Lemma step_ok env l : loop_ok l -> loop_ok (step env l).
Proof.
  intros Hok. unfold step. destruct (pc l) as [| | | |i|i| | |i| |i| |i| |]; try done.
  - repeat (case_match; [done || idtac|]); [|done].
    apply (loop_ok_same (on_s (fun s => with_strategy (st_set_enabled false) (send_all_cancels s)) l)); [done|].
    apply prims_loop_ok; [|done]. intros s. prims_via (send_all_cancels s).
  - by repeat case_match.
  - case_match; [done|]. unfold start_cycle, resume. case_match; first [done|by apply prims_loop_ok; [intros; by apply prims_other|]].
  - repeat case_match; first [done|by apply prims_loop_ok; [intros; by apply prims_other|]].
  - repeat case_match; try done. by apply event_ok.
  - repeat case_match; try done. by apply event_ok.
  - destruct Hok as [Hs Hg]. destruct (pop_sim (lp_s l)) as [s' [ev|]] eqn:Ep.
    + destruct (pop_sim_some _ _ _ Hs Hg Ep) as (_ & Hs' & Hg' & _).
      apply prims_loop_ok; [intros; by apply prims_other|by apply event_ok].
    + by destruct (pop_sim_none _ _ Hs Hg Ep).
  - repeat case_match; try done. by apply event_ok.
  - repeat case_match; first [done|by apply prims_loop_ok; [intros; by apply prims_other|]].
  - repeat case_match; first [done|by apply prims_loop_ok; [intros; by apply prims_other|]].
  - repeat case_match; try done. by apply event_ok.
  - repeat case_match; try done; by apply event_ok.
  - by apply end_cycle_ok.
Qed.

(** Leaving a phase for the next one, and serving an event of a lane. *)
Ltac leave_phase := split; [unfold work; simpl; lia|first [by left|by right]].
Ltac serve_lane i := split; [|by left]; unfold work; simpl; rewrite (left_of_step _ i) by done; lia.

Lemma step_drains bmax budget env l : frugal_strategy bmax budget -> loop_ok l -> draining l = true ->
  (work bmax budget (step env l) < work bmax budget l)%nat /\ (draining (step env l) = true \/ pc (step env l) = PCycleEnd).
Proof.
  intros Hq Hok Hd. unfold draining in Hd. unfold step, draining.
  destruct (pc l) as [| | | |i|i| | |i| |i| |i| |] eqn:Epc; try done; unfold work at 2; rewrite Epc.
  - destruct (book_delta_queue_ l) as [q|] eqn:Eq; [destruct (front q) as [d|] eqn:Ef|].
    { simpl. rewrite Epc. split; [|by left]. unfold work. simpl. rewrite Epc. apply front_contents in Ef. rewrite Ef. simpl. lia. }
    all: leave_phase.
  - destruct (Z.ltb_spec i (max_user_events_per_pass (lp_config l))) as [Hi|Hi]; simpl;
      [destruct (front (user_queue_ l)) as [ev|] eqn:Ef|].
    { serve_lane i. }
    all: leave_phase.
  - destruct (Z.ltb_spec i (max_exec_events_per_pass (lp_config l))) as [Hi|Hi]; simpl;
      [destruct (front (exec_queue_ l)) as [ev|] eqn:Ef|].
    { serve_lane i. }
    all: leave_phase.
  - pose proof (sim_count_bound (lp_s l) (proj1 Hok)).
    assert (answers (budget_of budget (lp_s l)) <= answers bmax)%nat.
    { unfold answers. apply Nat.mul_le_mono_l. unfold budget_of. case_match; [apply Hq|lia]. }
    split; [|left; simpl; by destruct (sim_enabled _)]. unfold work. simpl. destruct (sim_enabled _); lia.
  - destruct Hok as [Hs Hg]. destruct (pop_sim (lp_s l)) as [s' [ev|]] eqn:Ep.
    + destruct (pop_sim_some _ _ _ Hs Hg Ep) as (Ha & Hs' & Hg' & Hc).
      simpl. rewrite Epc. split; [|by left]. unfold work. simpl. rewrite Epc.
      assert (sched_ok (process_event env ev s')) as Hok' by (by eapply prims_ok; [apply prims_event|]).
      pose proof (sim_count_bound _ Hok') as Hb. pose proof (pop_sim_budget budget (lp_s l)) as Hpb. rewrite Ep in Hpb. simpl in Hpb.
      assert (sim_count (process_event env ev s') + answers (budget_of budget (process_event env ev s')) <=
        sim_count s' + answers (budget_of budget s'))%nat as Hle.
      { destruct (ack_frugal bmax budget env ev s' Hq Ha Hg') as [[Es Hbu]|Hbu].
        - apply Nat.add_le_mono; [unfold sim_count; by rewrite Es|]. by apply Nat.mul_le_mono_l.
        - unfold answers. nia. }
      rewrite <- Hpb, Hc. unfold sim_count, sim_of, budget_of in *. simpl. lia.
    + leave_phase.
  - destruct (Z.ltb_spec i (max_market_events_per_pass (lp_config l))) as [Hi|Hi]; simpl;
      [destruct (front (market_queue_ l)) as [ev|] eqn:Ef|].
    { serve_lane i. }
    all: leave_phase.
  - destruct (rtds_queue_ l) as [q|] eqn:Eq; [destruct (strategy_ptr_ (lp_s l)) as [x|] eqn:Ex|];
      [destruct (front q) as [d|] eqn:Ef| |].
    { simpl. rewrite Epc. split; [|by left]. unfold work. simpl. rewrite Epc. apply front_contents in Ef. rewrite Ef. simpl. lia. }
    all: leave_phase.
  - destruct (binance_md_queue_ l) as [q|] eqn:Eq; [destruct (strategy_ptr_ (lp_s l)) as [x|] eqn:Ex|];
      [destruct (Z.ltb_spec i (max_binance_md_events_per_pass (lp_config l))) as [Hi|Hi]; simpl;
        [destruct (front q) as [d|] eqn:Ef|]| |].
    { serve_lane i. }
    all: leave_phase.
  - destruct (slot_queue_ l) as [q|] eqn:Eq; [destruct (front q) as [d|] eqn:Ef|].
    { simpl. rewrite Epc. split; [|by left]. unfold work. simpl. rewrite Epc.
      apply front_contents in Ef. rewrite Ef. simpl. lia. }
    all: leave_phase.
  - destruct (Z.ltb_spec i (max_control_events_per_pass (lp_config l))) as [Hi|Hi]; simpl;
      [destruct (front (control_queue_ l)) as [ev|] eqn:Ef|].
    { case_match; [leave_phase|serve_lane i]. }
    all: leave_phase.
Qed.

(** ** Runs *)
Inductive Action :=
  | Consume (env : Env (I := I))
  | PushUser (ev : SchedulerEvent) | PushExec (ev : SchedulerEvent) | PushMarket (n : MarketNotification)
  | PushControl (ev : SchedulerEvent) | PushDelta (d : BookDelta) | PushRtds (c : C) | PushBinance (b : B)
  | PushSlot (ev : SchedulerEvent) | Shutdown | SetRotation (p : RotationPhase) (t : option T).

Definition push {A} (x : A) (q : SpscQueue Q A) : SpscQueue Q A := (try_push x q).1.
Definition act (a : Action) l : Loop :=
  match a with
  | Consume env => step env l
  | PushUser ev => l <| user_queue_ ::= push ev |>
  | PushExec ev => l <| exec_queue_ ::= push ev |>
  | PushMarket n => l <| market_queue_ ::= push n |>
  | PushControl ev => l <| control_queue_ ::= push ev |>
  | PushDelta d => l <| book_delta_queue_ ::= fmap (push d) |>
  | PushRtds c => l <| rtds_queue_ ::= fmap (push c) |>
  | PushBinance b => l <| binance_md_queue_ ::= fmap (push b) |>
  | PushSlot ev => l <| slot_queue_ ::= fmap (push ev) |>
  | Shutdown => request_shutdown l
  | SetRotation p t => l <| rotation_phase_ ::= fmap (fun _ => p) |> <| rotation_timing_ := t |>
  end.
Definition run (acts : list Action) l : Loop := foldl (fun l a => act a l) l acts.
Definition is_consume (a : Action) : bool := match a with Consume _ => true | _ => false end.
Definition consumes (acts : list Action) : nat := length (filter (fun a => is_consume a = true) acts).
Definition pushes (acts : list Action) : nat := length (filter (fun a => is_consume a = false) acts).

Lemma push_contents {A} (x : A) (q : SpscQueue Q A) : contents (push x q) = contents q \/ contents (push x q) = contents q ++ [x].
Proof.
  unfold push. pose proof (try_push_spec x q) as Hs. destruct (try_push x q) as [q' []]; naive_solver.
Qed.
Lemma qlen_push {A} (x : A) (o : option (SpscQueue Q A)) : (qlen (push x <$> o) <= S (qlen o))%nat.
Proof.
  destruct o as [q|]; simpl; [|lia]. destruct (push_contents x q) as [-> | ->]; [lia|]. rewrite length_app. simpl. lia.
Qed.
Lemma push_same a l : is_consume a = false -> lp_s (act a l) = lp_s l /\ pc (act a l) = pc l.
Proof. by destruct a. Qed.
Lemma push_work bmax budget a l : is_consume a = false -> (work bmax budget (act a l) <= S (work bmax budget l))%nat.
Proof.
  destruct a; try done; intros _; unfold work; simpl; destruct (pc l); try lia.
  all: match goal with |- context [qlen (push ?x <$> ?o)] => pose proof (qlen_push x o) end; lia.
Qed.

Lemma act_ok a l : loop_ok l -> loop_ok (act a l).
Proof.
  intros Hok. destruct (is_consume a) eqn:Ea; [destruct a; try done; by apply step_ok|].
  destruct (push_same a l Ea) as [Es _]. by eapply loop_ok_same.
Qed.
Lemma run_ok acts l : loop_ok l -> loop_ok (run acts l).
Proof. revert l. induction acts as [|a acts IH]; intros l Hok; [done|]. apply IH. by apply act_ok. Qed.

(** A new scheduler is in order. *)
Lemma new_sched_ok emit sink strategy gate mode_sink tracker ops jw slot :
  (forall x, gate = Some x -> pending_cancel_all_ x = false) ->
  sched_ok (StrategyScheduler_new emit sink strategy gate mode_sink tracker ops jw slot) /\
  gate_idle (StrategyScheduler_new emit sink strategy gate mode_sink tracker ops jw slot).
Proof.
  intros Hg. split; [|exact Hg]. intros d. unfold sim_of. simpl.
  assert (sim_good DryRunSimulator_new) as Hn by (split; [apply sim_new_inv|constructor]).
  destruct mode_sink as [m|]; simpl; intros [= <-]; [by apply set_enabled_good|done].
Qed.

Lemma drain_terminates bmax budget acts l : frugal_strategy bmax budget -> loop_ok l -> draining l = true ->
  (work bmax budget l + pushes acts < consumes acts)%nat ->
  exists acts1 acts2, acts = acts1 ++ acts2 /\ pc (run acts1 l) = PCycleEnd /\
    (consumes acts1 <= work bmax budget l + pushes acts1)%nat.
Proof.
  intros Hq. revert l. induction acts as [|a acts IH]; intros l Hok Hd Hw; [unfold consumes in Hw; simpl in Hw; lia|].
  assert (forall l', loop_ok l' -> draining l' = true \/ pc l' = PCycleEnd -> l' = act a l ->
    (work bmax budget l' + consumes [a] <= work bmax budget l + pushes [a])%nat ->
    exists acts1 acts2, a :: acts = acts1 ++ acts2 /\ pc (run acts1 l) = PCycleEnd /\
      (consumes acts1 <= work bmax budget l + pushes acts1)%nat) as Hnext.
  { intros l' Hok' Hd' -> Hle. unfold consumes, pushes in *. rewrite !filter_cons in *. 
    destruct Hd' as [Hd'|Hd'].
    - destruct (IH (act a l) Hok' Hd') as (a1 & a2 & -> & Hp & Hc); [destruct (is_consume a); simpl in *; lia|].
      exists (a :: a1), a2. split; [done|]. split; [done|]. rewrite !filter_cons. destruct (is_consume a); simpl in *; lia.
    - exists [a], acts. split; [done|]. split; [done|]. rewrite !filter_cons. destruct (is_consume a); simpl in *; lia. }
  destruct (is_consume a) eqn:Ea.
  - destruct a as [env| | | | | | | | | |]; try done. destruct (step_drains bmax budget env l Hq Hok Hd) as (Hlt & Hd').
    apply (Hnext _ (step_ok env l Hok) Hd' eq_refl). unfold consumes, pushes. simpl. lia.
  - destruct (push_same a l Ea) as (Es & Ep). pose proof (push_work bmax budget a l Ea) as Hle.
    apply (Hnext (act a l)); [by eapply loop_ok_same| |done|].
    + left. unfold draining in *. by rewrite Ep.
    + unfold consumes, pushes. rewrite !filter_cons, Ea. simpl. lia.
Qed.

(** C6: every pass of the loop ends.  With a strategy whose answers to
    acknowledgements are paid from a bounded budget (0 when it does not answer
    them), and whatever the other threads push meanwhile, the thread is at the end
    of the pass after at most as many iterations as there is work (the limits of the
    lanes, the lengths of the queues that are drained completely, the 64 places of
    the simulator and as much again for each answer), plus one for each action of
    another thread. *)
Theorem pass_terminates (bmax : nat) (budget : ST -> nat) (acts : list Action) l
    (Hfrugal : frugal_strategy bmax budget) (Hok : loop_ok l) (Hdrain : draining l = true)
    (Hlong : (work bmax budget l + pushes acts < consumes acts)%nat) :
  exists acts1 acts2, acts = acts1 ++ acts2 /\ pc (run acts1 l) = PCycleEnd /\
    (consumes acts1 <= work bmax budget l + pushes acts1)%nat.
Proof. by apply drain_terminates. Qed.

(** ** No lane starves *)
Inductive Lane := LUser | LExec | LMarket | LControl.
Definition lane_events (ln : Lane) l : list SchedulerEvent :=
  match ln with
  | LUser => contents (user_queue_ l)
  | LExec => contents (exec_queue_ l)
  | LMarket => from_market <$> contents (market_queue_ l)
  | LControl => contents (control_queue_ l)
  end.
Definition lane_max (ln : Lane) (c : SchedulerConfig) : Z :=
  match ln with
  | LUser => max_user_events_per_pass c
  | LExec => max_exec_events_per_pass c
  | LMarket => max_market_events_per_pass c
  | LControl => max_control_events_per_pass c
  end.
(** The place in the lane's loop. *)
Definition lane_index (ln : Lane) (p : Phase) : option Z :=
  match ln, p with
  | LUser, PUser i | LExec, PExec i | LMarket, PMarket i | LControl, PControl i => Some i
  | _, _ => None
  end.

(** The event of the lane that the next iteration processes. *)
Definition served_by (ln : Lane) l : option SchedulerEvent :=
  match lane_index ln (pc l) with
  | Some i => if i <? lane_max ln (lp_config l) then head (lane_events ln l) else None
  | None => None
  end.
Fixpoint served (ln : Lane) (acts : list Action) l : list SchedulerEvent :=
  match acts with
  | [] => []
  | a :: acts => (if is_consume a then option_list (served_by ln l) else []) ++ served ln acts (act a l)
  end.
(** The passes that are completed. *)
Fixpoint passes (acts : list Action) l : Z :=
  match acts with
  | [] => 0
  | a :: acts => (match a, pc l with Consume _, PCycleEnd => 1 | _, _ => 0 end) + passes acts (act a l)
  end.

(** The phases in the order of the loop body. *)
Definition phase_rank (p : Phase) : Z :=
  match p with
  | PTop | PPaused | PResume | PStopped => 0
  | PDelta => 1 | PUser _ => 2 | PExec _ => 3 | PSim => 4 | PSimLoop => 5 | PMarket _ => 6 | PRtds => 7
  | PBinance _ => 8 | PSlot => 9 | PControl _ => 10 | PCycleEnd => 11
  end.
Definition lane_rank (ln : Lane) : Z := match ln with LUser => 2 | LExec => 3 | LMarket => 6 | LControl => 10 end.
(** What the lane has used up of its limit in the current pass. *)
Definition credit (ln : Lane) l : Z :=
  match lane_index ln (pc l) with
  | Some i => i
  | None => if phase_rank (pc l) <? lane_rank ln then 0 else lane_max ln (lp_config l)
  end.

Lemma front_head {A} (q : SpscQueue Q A) : front q = head (contents q).
Proof. unfold front, contents. apply rq_front_spec. Qed.
Lemma contents_nil {A} (q : SpscQueue Q A) : front q = None -> contents q = [].
Proof. rewrite front_head. by destruct (contents q). Qed.

(** The fields the lanes depend on, but the place in the loop. *)
Definition same_lanes l l' : Prop :=
  lp_config l' = lp_config l /\ stop_requested_ l' = stop_requested_ l /\
  user_queue_ l' = user_queue_ l /\ exec_queue_ l' = exec_queue_ l /\
  market_queue_ l' = market_queue_ l /\ control_queue_ l' = control_queue_ l.
Lemma same_lanes_trans l1 l2 l3 : same_lanes l1 l2 -> same_lanes l2 l3 -> same_lanes l1 l3.
Proof. intros (? & ? & ? & ? & ? & ?) (? & ? & ? & ? & ? & ?). split_and!; congruence. Qed.
Lemma same_lane_events l l' ln : same_lanes l l' -> lane_events ln l' = lane_events ln l.
Proof. intros (_ & _ & Eu & Ee & Em & Ec). destruct ln; simpl; congruence. Qed.
Lemma end_cycle_frame env l : pc (end_cycle env l) = PTop /\ same_lanes l (end_cycle env l).
Proof.
  Transparent end_cycle. unfold end_cycle. cbv zeta. split; [done|]. set (l1 := on_s _ l <| lp_pops := _ |>).
  apply (same_lanes_trans _ l1); [by split_and!|].
  apply (same_lanes_trans _ (maybe_push_ui_state env l1)); [unfold maybe_push_ui_state; repeat case_match; by split_and!|].
  set (l2 := maybe_push_ui_state env l1). set (l3 := on_s (check_probe_timeout env) _).
  apply (same_lanes_trans _ l3); [by split_and!|].
  apply (same_lanes_trans _ (back_off l3)); [unfold back_off; repeat case_match; by split_and!|].
  apply (same_lanes_trans _ (sample_depths (back_off l3))); [by split_and!|]. generalize (sample_depths (back_off l3)). intros l4.
  unfold periodic_stats. case_match; by split_and!.
Qed.
#[local] Opaque end_cycle.

(** An iteration outside the lane. *)
Lemma step_elsewhere ln env l : lane_index ln (pc l) = None -> pc l <> PCycleEnd ->
  lane_events ln (step env l) = lane_events ln l /\ lp_config (step env l) = lp_config l /\
  (stop_requested_ l = true -> stop_requested_ (step env l) = true) /\
  credit ln (step env l) <= credit ln l /\ (0 <= lane_max ln (lp_config l) -> 0 <= credit ln (step env l)).
Proof.
  intros Hi Hne. unfold credit. rewrite Hi. unfold step.
  destruct (pc l) as [| | | |i|i| | |i| |i| |i| |] eqn:Epc; try done; destruct ln; try done;
    repeat (case_match; simpl in *; try done); simplify_eq; simpl; rewrite ?Epc; try done.
Qed.
(** An iteration of the lane's loop. *)
Lemma step_in_lane ln env l i : lane_index ln (pc l) = Some i ->
  lane_events ln l = option_list (served_by ln l) ++ lane_events ln (step env l) /\
  lp_config (step env l) = lp_config l /\ (stop_requested_ l = true -> stop_requested_ (step env l) = true) /\
  (forall ev, served_by ln l = Some ev -> lp_s (step env l) = process_event env ev (lp_s l)) /\
  match served_by ln l with
  | Some _ => stop_requested_ (step env l) = false -> credit ln (step env l) = credit ln l + 1
  | None => (credit ln (step env l) <= credit ln l \/ lane_events ln l = []) /\
            (0 <= lane_max ln (lp_config l) -> 0 <= credit ln (step env l))
  end.
Proof.
  intros Hi. unfold served_by, credit. rewrite Hi. unfold step.
  destruct ln, (pc l) as [| | | |j|j| | |j| |j| |j| |] eqn:Epc; try done; injection Hi as ->; cbn [lane_max lane_events];
    match goal with |- context [i <? ?m] => destruct (Z.ltb_spec i m) as [Hm|Hm] end; cbn [negb];
    try (split_and!; try done; simpl; first [lia|left; lia]);
    match goal with |- context [front ?q] => destruct (front q) as [ev|] eqn:Ef end;
    try (pose proof (contents_nil _ Ef) as Hn; simpl; rewrite ?Hn; split_and!; try done; simpl; rewrite ?Hn; split; [by right|lia]);
    pose proof (front_contents _ _ Ef) as Hc; rewrite Hc; cbn [head fmap list_fmap]; split_and!; try done;
    try (by intros ? [= <-]); try (by case_match); try (intros ? [= <-]; by case_match);
    case_match; simpl; try done.
Qed.

(** One iteration, in or outside the lane. *)
Lemma step_lane ln env l :
  lane_events ln l = option_list (served_by ln l) ++ lane_events ln (step env l) /\
  lp_config (step env l) = lp_config l /\ (stop_requested_ l = true -> stop_requested_ (step env l) = true) /\
  (forall ev, served_by ln l = Some ev -> lp_s (step env l) = process_event env ev (lp_s l)) /\
  (stop_requested_ (step env l) = false ->
     match pc l with
     | PCycleEnd => served_by ln l = None /\ credit ln l = lane_max ln (lp_config l) /\ credit ln (step env l) = 0
     | _ => match served_by ln l with
            | Some _ => credit ln (step env l) = credit ln l + 1
            | None => (credit ln (step env l) <= credit ln l \/ lane_events ln l = []) /\
                      (0 <= lane_max ln (lp_config l) -> 0 <= credit ln (step env l))
            end
     end).
Proof.
  destruct (lane_index ln (pc l)) as [i|] eqn:Ei.
  - destruct (step_in_lane ln env l i Ei) as (He & Hc & Hst & Hp & Hcr). split_and!; try done. intros Hns.
    assert (pc l <> PCycleEnd) as Hne by (intros Epc; rewrite Epc in Ei; by destruct ln).
    destruct (served_by ln l); [specialize (Hcr Hns)|]; by destruct (pc l).
  - assert (served_by ln l = None) as Es by (unfold served_by; by rewrite Ei). rewrite Es.
    assert (pc l = PCycleEnd \/ pc l <> PCycleEnd) as [Epc|Hne] by (destruct (pc l); auto).
    + destruct (end_cycle_frame env l) as [Ep Hsame]. unfold step. rewrite Epc. pose proof Hsame as (Hcf & Hst & _).
      split_and!; [by rewrite (same_lane_events _ _ _ Hsame)|done|congruence|done|]. intros _. split; [done|].
      unfold credit. rewrite Epc, Ep. by destruct ln.
    + destruct (step_elsewhere ln env l Ei Hne) as (He & Hc & Hst & Hcr & Hnn).
      split_and!; [by rewrite He|done|done|done|]. intros _. destruct (pc l); try done; (split; [by left|done]).
Qed.

Lemma push_lane ln a l : is_consume a = false ->
  (exists added, lane_events ln (act a l) = lane_events ln l ++ added) /\ lp_config (act a l) = lp_config l /\
  (stop_requested_ l = true -> stop_requested_ (act a l) = true) /\ credit ln (act a l) = credit ln l.
Proof.
  intros Ha. assert (exists added, lane_events ln (act a l) = lane_events ln l ++ added) as Hadd.
  { assert (lane_events ln (act a l) = lane_events ln l -> exists added, lane_events ln (act a l) = lane_events ln l ++ added) as Hsame
      by (intros ->; exists []; by rewrite app_nil_r).
    destruct a as [|ev|ev|n|ev| | | | | |]; try done; try (apply Hsame; by destruct ln); destruct ln; try (by apply Hsame); simpl;
      match goal with |- context [push ?x ?q] => destruct (push_contents x q) as [-> | ->] end;
      rewrite ?fmap_app; first [by eexists|exists []; by rewrite app_nil_r]. }
  split; [done|]. split; [by destruct a|]. split; [by destruct a|]. unfold credit. by destruct a.
Qed.

Lemma stop_mono acts l : stop_requested_ l = true -> stop_requested_ (run acts l) = true.
Proof.
  revert l. induction acts as [|a acts IH]; intros l Hs; [done|]. apply IH. destruct (is_consume a) eqn:Ea.
  - destruct a; try done. by apply (step_lane LUser).
  - by apply (push_lane LUser a l Ea).
Qed.

Lemma lane_served ln acts l : stop_requested_ (run acts l) = false -> 0 <= lane_max ln (lp_config l) -> 0 <= credit ln l ->
  (exists added, lane_events ln l ++ added = served ln acts l ++ lane_events ln (run acts l)) /\
  Z.min (Z.of_nat (length (lane_events ln l))) (passes acts l * lane_max ln (lp_config l) - credit ln l) <=
    Z.of_nat (length (served ln acts l)) /\
  0 <= passes acts l.
Proof.
  revert l. induction acts as [|a acts IH]; intros l Hns Hmx Hcn.
  { simpl. split; [exists []; by rewrite app_nil_r|]. lia. }
  change (run (a :: acts) l) with (run acts (act a l)) in *.
  assert (stop_requested_ (act a l) = false) as Hns1.
  { destruct (stop_requested_ (act a l)) eqn:E; [|done]. by rewrite (stop_mono acts _ E) in Hns. }
  cbn [served passes]. destruct (is_consume a) eqn:Ea.
  - destruct a as [env| | | | | | | | | |]; try done. change (act (Consume env) l) with (step env l) in *.
    destruct (step_lane ln env l) as (He & Hc & _ & _ & Hcr). specialize (Hcr Hns1).
    destruct (IH (step env l) Hns) as ((added & Hadd) & Hmin & Hk); [by rewrite Hc|..].
    { destruct (pc l); [..|destruct Hcr as (_ & _ & Hcr); lia|]; (destruct (served_by ln l); [lia|naive_solver]). }
    rewrite Hc in Hmin. split; [exists added; by rewrite He, <- !app_assoc, Hadd|]. rewrite He, !length_app.
    destruct (pc l) eqn:Epc; [..|destruct Hcr as (-> & Hcr1 & Hcr2); simpl; lia|];
      (destruct (served_by ln l) as [ev|]; simpl in *; [lia|]); (destruct Hcr as [[Hcr|Hcr] _]; [lia|]);
      rewrite Hcr in He; simpl in *; rewrite <- He; simpl; lia.
  - destruct (push_lane ln a l Ea) as ((ad & Had) & Hc & _ & Hcr).
    destruct (IH (act a l) Hns) as ((added & Hadd) & Hmin & Hk); [by rewrite Hc|by rewrite Hcr|].
    rewrite Hc, Hcr in Hmin. rewrite Had in *.
    split; [exists (ad ++ added); by rewrite app_assoc|]. rewrite length_app in Hmin.
    assert (match a, pc l with Consume _, PCycleEnd => 1 | _, _ => 0 end = 0) as -> by (by destruct a). simpl. lia.
Qed.

Lemma validate_lane_max ln c : 1 <= lane_max ln (validate c) <= 4096.
Proof. destruct ln; simpl; unfold clamp; repeat case_match; bool_to_prop; lia. Qed.

(** C7: no lane starves.  Whatever the other threads push into the queues, once
    [k] passes are completed at least the first [k] times the limit of the events
    that were queued in a lane (user, execution, market or control) have been
    taken, in the order they were queued, and every event that is taken is processed:
    the scheduler after that iteration is the result of [process_event] on it.  A
    validated configuration's limits are positive, so that every queued event is
    processed.  Only a shutdown ends this. *)
Theorem no_lane_starves ln (acts : list Action) l (cfg : SchedulerConfig)
    (Htop : pc l = PTop) (Hcfg : lp_config l = validate cfg) (Hrunning : stop_requested_ (run acts l) = false) :
  1 <= lane_max ln (lp_config l) /\
  take (Z.to_nat (passes acts l * lane_max ln (lp_config l))) (lane_events ln l) `prefix_of` served ln acts l /\
  (forall before env after ev, acts = before ++ Consume env :: after -> served_by ln (run before l) = Some ev ->
     lp_s (run (before ++ [Consume env]) l) = process_event env ev (lp_s (run before l))).
Proof.
  assert (credit ln l = 0) as Hcr by (unfold credit; rewrite Htop; by destruct ln).
  pose proof (validate_lane_max ln cfg) as Hv. rewrite <- Hcfg in Hv.
  destruct (lane_served ln acts l Hrunning) as ((added & Hadd) & Hmin & Hk); [lia|lia|].
  rewrite Hcr, Z.sub_0_r in Hmin. split; [lia|]. split; [|intros before env after ev _ Hsv; unfold run; rewrite foldl_app; by apply (step_lane ln env (run before l))].
  set (m := Z.to_nat (passes acts l * lane_max ln (lp_config l))).
  assert (take m (lane_events ln l) = take (min m (length (lane_events ln l))) (served ln acts l)) as ->; [|apply prefix_take].
  assert (min m (length (lane_events ln l)) <= length (served ln acts l))%nat as Hle by lia.
  rewrite <- (take_app_le (served ln acts l) (lane_events ln (run acts l))) by done. rewrite <- Hadd, take_app_le by lia.
  destruct (Nat.le_gt_cases m (length (lane_events ln l))); [by rewrite Nat.min_l|].
  rewrite Nat.min_r by lia. by rewrite !take_ge by lia.
Qed.

(** ** A strategy that answers acknowledgements keeps the loop in the simulator *)
Definition eager_strategy : Prop :=
  forall (ctx : StrategyContext I) (k : option K) (x : ST), is_ack (ctx_event I ctx) = true ->
    exists i, (st_evaluate ctx k x).2 = [i] /\ is_placement (ei_action i) = true.

(** The dry-running scheduler with an acknowledgement to deliver. *)
Definition echoing s : Prop :=
  is_Some (strategy_ptr_ s) /\
  exists m d, mode_sink_ s = Some m /\ mode_ m = ExecutionMode.DRY_RUN /\ dry_sim_ m = Some d /\ sim_good d /\
    enabled_ d = true /\ (0 < count_ d)%nat.
(** The gate, if there is one, has no cancellation pending and allows every answer of the
    strategy, with the positions and markets of [env]. *)
Definition gate_lets env s : Prop :=
  forall g, risk_gate_ptr_ s = Some g -> pending_cancel_all_ g = false /\
    forall (g' : RiskGate) (ctx : StrategyContext I) (k : option K) (x : ST) i, config_ g' = config_ g -> is_ack (ctx_event I ctx) = true ->
      i ∈ (st_evaluate ctx k x).2 -> decision (evaluate (env_inventory env) (working_tracker_ s) (env_pairs env) (enrich env i) g').2 = ALLOW.
(** What the drain keeps of the gate and the tracker. *)
Definition same_gate s s' : Prop :=
  working_tracker_ s' = working_tracker_ s /\
  match risk_gate_ptr_ s, risk_gate_ptr_ s' with
  | None, None => True
  | Some g, Some g' => config_ g' = config_ g /\ pending_cancel_all_ g' = pending_cancel_all_ g
  | _, _ => False
  end.
Lemma same_gate_eq s s' : working_tracker_ s' = working_tracker_ s -> risk_gate_ptr_ s' = risk_gate_ptr_ s -> same_gate s s'.
Proof. intros Ht Hg. split; [done|]. rewrite Hg. by destruct (risk_gate_ptr_ s). Qed.
Lemma same_gate_trans s1 s2 s3 : same_gate s1 s2 -> same_gate s2 s3 -> same_gate s1 s3.
Proof. intros [E1 G1] [E2 G2]. split; [congruence|]. destruct (risk_gate_ptr_ s1), (risk_gate_ptr_ s2), (risk_gate_ptr_ s3); try done. naive_solver congruence. Qed.
Lemma gate_lets_same env s s' : same_gate s s' -> gate_lets env s -> gate_lets env s'.
Proof.
  intros [Et Hg] Hl g' Hg'. rewrite Hg' in Hg. destruct (risk_gate_ptr_ s) as [g|] eqn:Eg; [|done]. destruct Hg as [Hc Hp].
  destruct (Hl g Eg) as [Hpend Hall]. split; [congruence|]. intros g'' ctx k x i Hc''. rewrite Et. apply Hall. congruence.
Qed.

Lemma on_intent_count i d : sim_good d -> enabled_ d = true -> (count_ d < kMaxBuffered)%nat -> is_placement (ei_action i) = true ->
  enabled_ (on_intent i d) = true /\ count_ (on_intent i d) = S (count_ d).
Proof.
  intros [Hi _] He Hlt Hp. destruct (ack_of (sim_seq_ d) i) as [ev|] eqn:Ea; [|unfold ack_of in Ea; by rewrite Hp in Ea].
  destruct (on_intent_push i d ev Hi He Hlt Ea) as (Hr & _ & He'). split; [done|].
  pose proof (f_equal ring_count Hr) as Hc. unfold ring_push in Hc. destruct Hi as [[Hcap _ _] _]. rewrite Hcap in Hc.
  simpl in Hc. rewrite (proj2 (Nat.leb_gt _ _) Hlt) in Hc. exact Hc.
Qed.

Lemma evaluate_allow_keeps oi ot om i g g' r : evaluate (I := I) oi ot om i g = (g', r) -> decision r = ALLOW ->
  config_ g' = config_ g /\ pending_cancel_all_ g' = pending_cancel_all_ g.
Proof.
  unfold evaluate, deny, allow. intros He Hd. destruct (ei_action i); repeat case_match; injection He as <- <-; try discriminate Hd; done.
Qed.
Lemma gate_allows env i s : (forall g, risk_gate_ptr_ s = Some g -> decision (evaluate (env_inventory env) (working_tracker_ s) (env_pairs env) i g).2 = ALLOW) ->
  decision (gate_evaluate env i s).2 = ALLOW /\ same_gate s (gate_evaluate env i s).1 /\ mode_sink_ (gate_evaluate env i s).1 = mode_sink_ s /\
  strategy_ptr_ (gate_evaluate env i s).1 = strategy_ptr_ s.
Proof.
  intros Ha. unfold gate_evaluate, same_gate. destruct (risk_gate_ptr_ s) as [g|] eqn:Eg.
  - specialize (Ha g eq_refl). destruct (evaluate _ _ _ i g) as [g' r] eqn:Ee. cbn in Ha. destruct (evaluate_allow_keeps _ _ _ _ _ _ _ Ee Ha). by rewrite ?Eg.
  - cbn. by rewrite ?Eg.
Qed.
Lemma submit_echo env ev i s m d :
  (forall g, risk_gate_ptr_ s = Some g -> decision (evaluate (env_inventory env) (working_tracker_ s) (env_pairs env) i g).2 = ALLOW) ->
  mode_sink_ s = Some m -> mode_ m = ExecutionMode.DRY_RUN -> dry_sim_ m = Some d ->
  is_placement (ei_action i) = true ->
  strategy_ptr_ (submit env ev s i) = strategy_ptr_ s /\ same_gate s (submit env ev s i) /\
  exists m', mode_sink_ (submit env ev s i) = Some m' /\ mode_ m' = ExecutionMode.DRY_RUN /\ dry_sim_ m' = Some (on_intent i d).
Proof.
  intros Hg Hm Hd Hs Hp. unfold submit. destruct (gate_allows env i s Hg) as (Ga & Gs & Gm & Gx). destruct (gate_evaluate env i s) as [s1 r]. cbn [fst snd] in *.
  rewrite Ga, bool_decide_eq_true_2 by done. cbn [negb]. unfold sink_accept. simpl. rewrite Gm, Hm. simpl.
  rewrite bool_decide_eq_false_2 by (by destruct (ei_action i)). rewrite Hd, Hs. simpl. unfold in_dry_run. simpl.
  split; [done|]. split; [exact Gs|]. by eexists.
Qed.

Lemma enrich_action env i : ei_action (enrich env i) = ei_action i.
Proof. unfold enrich. by repeat case_match. Qed.

Lemma before_trigger_tracker env ev s m : is_ack ev = true -> mode_sink_ s = Some m -> mode_ m = ExecutionMode.DRY_RUN ->
  working_tracker_ (before_trigger env ev s) = working_tracker_ s.
Proof.
  intros (Hs & Hk & Hf)%is_ack_inv Hm Hd. unfold before_trigger. cbv zeta.
  assert (working_tracker_ (update_state env ev s) = working_tracker_ s /\ mode_sink_ (update_state env ev s) = Some m) as [<- Hm0]
    by (unfold update_state; repeat case_match; done).
  set (s0 := update_state env ev s) in *. assert (journal_user env ev s0 = s0) as -> by (unfold journal_user; by rewrite Hs).
  assert (in_dry_run s0 = true) as Hdry by (unfold in_dry_run; by rewrite Hm0, Hd).
  assert (working_tracker_ (update_ui env ev s0) = working_tracker_ s0 /\ in_dry_run (update_ui env ev s0) = true) as [<- Hdry1].
  { unfold update_ui. rewrite Hs, Hdry. repeat case_match; split; done. }
  set (s1 := update_ui env ev s0) in *. unfold feed_tracker. rewrite Hdry1. set (s2 := journal_exec ev s1).
  assert (working_tracker_ s2 = working_tracker_ s1) as <- by (unfold s2, journal_exec; by case_match).
  assert (route_feedback env ev s2 = s2) as ->.
  { unfold route_feedback. destruct (strategy_ptr_ s2); [|done]. case_match; [done|]. by destruct Hf as [-> | ->]. }
  assert (handle_control env ev s2 = s2) as -> by (unfold handle_control; by rewrite Hs).
  rewrite Hs, bool_decide_eq_true_2 by done. unfold count_event, handle_probe_feedback. cbv zeta. repeat case_match; done.
Qed.
Lemma proposals_tracker env ev s : working_tracker_ (proposals env ev s).1 = working_tracker_ s.
Proof.
  unfold proposals, call_strategy. simpl. destruct (strategy_ptr_ s) as [x|].
  - destruct (st_evaluate _ _ x) as [[x1 k] xs]. simpl. unfold journal_eval. by case_match.
  - destruct (stub_evaluate _ _ _) as [x xs]. simpl. unfold journal_eval. by case_match.
Qed.

Lemma ack_echo env ev s m d : eager_strategy -> is_ack ev = true -> is_Some (strategy_ptr_ s) -> gate_lets env s ->
  mode_sink_ s = Some m -> mode_ m = ExecutionMode.DRY_RUN -> dry_sim_ m = Some d -> sim_good d -> enabled_ d = true ->
  (count_ d < kMaxBuffered)%nat -> echoing (process_event env ev s) /\ same_gate s (process_event env ev s).
Proof.
  intros He Ha [x Hx] Hg Hm Hd Hs Hgood Hen Hlt. destruct (is_ack_inv ev Ha) as (Hsrc & Hk & _).
  rewrite process_event_split. destruct (before_trigger_ack env ev s Ha) as (E1 & _ & E3 & E4).
  pose proof (before_trigger_tracker env ev s m Ha Hm Hd) as E5.
  assert (strategy_ptr_ (before_trigger env ev s) = Some x) as Hx1 by (by rewrite E4).
  set (s1 := before_trigger env ev s) in *. assert (same_gate s s1) as S1 by (by apply same_gate_eq). clearbody s1.
  assert (should_trigger ev = true) as -> by (unfold should_trigger; by rewrite Hsrc). rewrite trigger_split.
  destruct (proposals_other env ev s1) as (F1 & _ & F3). pose proof (proposals_tracker env ev s1) as F5.
  assert (exists s2 i, proposals env ev s1 = (s2, [i]) /\ is_placement (ei_action i) = true /\ is_Some (strategy_ptr_ s2) /\
    forall g, risk_gate_ptr_ s1 = Some g -> decision (evaluate (env_inventory env) (working_tracker_ s1) (env_pairs env) i g).2 = ALLOW)
    as (s2 & i & Hprop & Hpl & Hst & Hall).
  { unfold proposals, call_strategy. simpl. rewrite Hx1.
    match goal with |- context [st_evaluate ?ctx ?k x] => destruct (He ctx k x Ha) as (i & Ei & Hi);
      pose proof (fun g Hgg => proj2 (gate_lets_same env s s1 S1 Hg g Hgg) g ctx k x i eq_refl Ha) as Hall; destruct (st_evaluate ctx k x) as [[x2 k2] xs] end.
    simpl in Ei, Hall. subst xs. eexists _, (enrich env i). split; [reflexivity|]. rewrite enrich_action. split; [done|]. split; [by eexists|].
    intros g Hgg. apply Hall; [done|by left]. }
  rewrite Hprop in F1, F3, F5. simpl in F1, F3, F5. rewrite Hprop. cbn [foldl]. rewrite Hk. cbn [andb bool_decide].
  assert (same_gate s s2) as S2 by (eapply same_gate_trans; [exact S1|by apply same_gate_eq]).
  destruct (submit_echo env ev i s2 m d) as (G1 & G2 & m' & G3 & G4 & G5); [|congruence|done|done|done|].
  { intros g Hgg. rewrite F5. apply Hall. congruence. }
  set (s3 := submit env ev s2 i) in *. pose proof (same_gate_trans _ _ _ S2 G2) as S3.
  assert (gate_cancel_all (s3 <| cycle_counters_ ::= fun c => c <| cc_intents_produced ::= fun n => n + Z.of_nat (length [i]) |> |>) =
    s3 <| cycle_counters_ ::= fun c => c <| cc_intents_produced ::= fun n => n + Z.of_nat (length [i]) |> |>) as ->.
  { unfold gate_cancel_all. simpl. destruct (risk_gate_ptr_ s3) as [g3|] eqn:Eg3; [|done]. by rewrite (proj1 (gate_lets_same env s s3 S3 Hg g3 Eg3)). }
  destruct (on_intent_count i d Hgood Hen Hlt Hpl) as [Hen' Hc]. simpl. split; [|exact S3].
  split; [simpl; by rewrite G1|]. exists m', (on_intent i d). simpl. split_and!; try done; [by apply on_intent_good|lia].
Qed.

Lemma sim_step_echo env l : eager_strategy -> pc l = PSimLoop -> echoing (lp_s l) -> gate_lets env (lp_s l) ->
  pc (step env l) = PSimLoop /\ echoing (lp_s (step env l)) /\ same_gate (lp_s l) (lp_s (step env l)).
Proof.
  intros He Hpc (Hst & m & d & Hm & Hd & Hs & Hgood & Hen & Hc) Hg. unfold step. rewrite Hpc.
  unfold pop_sim, sim_of. rewrite Hm, Hs.
  destruct (sim_pop d).2 as [ev|] eqn:Ev; [|revert Ev; unfold sim_pop; destruct (Nat.eqb_spec (count_ d) 0); [lia|done]].
  destruct (sim_pop_good d ev Hgood Ev) as (Ha & Hgood' & Hc').
  assert (enabled_ (sim_pop d).1 = true) as Hen' by (unfold sim_pop; by destruct (_ =? _)%nat).
  pose proof (rg_count _ _ (si_ring _ (proj1 Hgood))) as Hb. simpl in Hb.
  set (s1 := with_sim _ _). assert (mode_sink_ s1 = Some (mkModeFilteredSink (inner_ m) (mode_ m) (Some (sim_pop d).1)
    (dry_run_logged_ m) (forwarded_ m))) as Hm1 by (unfold s1, with_sim; rewrite Hm; simpl; by rewrite Hs).
  assert (strategy_ptr_ s1 = strategy_ptr_ (lp_s l) /\ same_gate (lp_s l) s1) as [Hst1 Hg1]
    by (unfold s1, with_sim; rewrite Hm; split; [done|by apply same_gate_eq]).
  split; [exact Hpc|].
  assert (echoing (process_event env ev s1) /\ same_gate s1 (process_event env ev s1)) as [Hecho Hsame].
  { eapply (ack_echo env ev s1); [done|done|by rewrite Hst1|by eapply gate_lets_same|exact Hm1|done|done|done|done|lia]. }
  split; [exact Hecho|]. eapply same_gate_trans; [exact Hg1|exact Hsame].
Qed.

(** C40: with a strategy that answers every acknowledgement with one order, a dry-running
    scheduler that has come to the drain of the simulator with an acknowledgement to
    deliver never leaves it, whether it has no gate or one that allows these orders with
    the tracked orders, positions and markets it sees (the tracker is not fed in dry-run
    mode, so that the gate's view does not change): the loop has no limit there, every
    order adds the acknowledgement that is drained next, and no action of another thread
    ends it, not even the request to shut down. *)
Theorem simulator_livelock (acts : list Action) l
    (Heager : eager_strategy) (Hpc : pc l = PSimLoop) (Hecho : echoing (lp_s l))
    (Hgate : forall env, Consume env ∈ acts -> gate_lets env (lp_s l)) :
  pc (run acts l) = PSimLoop.
Proof.
  revert l Hpc Hecho Hgate. induction acts as [|a acts IH]; intros l Hpc Hecho Hgate; [done|].
  change (pc (run acts (act a l)) = PSimLoop). destruct (is_consume a) eqn:Ea.
  - destruct a as [env| | | | | | | | | |]; try done. destruct (sim_step_echo env l Heager Hpc Hecho) as (? & ? & Hs); [apply Hgate; by left|].
    apply IH; [done|done|]. intros env' Hin. apply (gate_lets_same env' (lp_s l)); [done|]. apply Hgate. by right.
  - destruct (push_same a l Ea) as (Es & Ep). apply IH; [by rewrite Ep|by rewrite Es|]. intros env' Hin. rewrite Es. apply Hgate. by right.
Qed.
End Loop.

(** ** Witnesses *)
Section LoopExample.
(** A strategy that bids on market events, and on acknowledgements when [echo]. *)
Definition bidding (echo : bool) : Strategy unit TokenInventory unit := {|
  st_evaluate ctx k x :=
    (x, k, if echo || negb (is_ack (ctx_event _ ctx)) then [(sample_bid 40) <| ei_client_order_id := "c"%string |>] else []);
  st_set_enabled b x := x;
  st_enabled x := true;
  st_set_size q x := x;
  st_set_dry_run b x := x;
  st_reset_all_quotes x := x;
  st_on_gateway_degraded x := x;
  st_on_gateway_recovered x := x;
  st_on_rate_limited x := x |}.
#[local] Instance unit_feeds : FeedStrategy unit unit unit unit := {|
  st_on_crypto_price c x := x; st_on_binance_update b x := x; st_set_rotation_timing t x := x;
  st_spread_ticks x := 30; st_quote_size x := 5000000 |}.
#[local] Instance unit_requests : InventoryOpSink unit := {| try_request r k := (k, true) |}.
#[local] Existing Instance merge_row_sort.

Definition loop_config : SchedulerConfig := validate (mkSchedulerConfig 2 2 2 2 2 5000 2 100).
Definition event_queue (evs : list SchedulerEvent) : SpscQueue BoundedList SchedulerEvent :=
  mkSpscQueue (mkBoundedList evs 16) 0 0 0.
Definition sample_event (ts : Z) : SchedulerEvent :=
  SchedulerEvent_default <| source := EventSource.USER_WS |> <| kind := SchedulerEventKind.USER_ORDER_UPDATE |> <| recv_ts := ts |>.
Definition sample_loop (p : Phase) : Loop (ST := unit) (K := unit) (SK := ExecQueueSink (Q := BoundedList))
    (C := unit) (B := unit) (T := unit) (Q := BoundedList) :=
  mkLoop
    (StrategyScheduler_new false (mkExecQueueSink (mkSpscQueue (mkBoundedList [] 16) 0 0 0) 0 0) (Some tt) None
       (Some (mkModeFilteredSink None ExecutionMode.DRY_RUN None 0 0)) (Some WorkingOrderTracker_new) (Some tt) None true)
    loop_config (event_queue (sample_event <$> [1; 2; 3])) (event_queue []) (mkSpscQueue (mkBoundedList [] 16) 0 0 0)
    (event_queue []) (Some (mkSpscQueue (mkBoundedList [] 16) 0 0 0)) (Some (mkSpscQueue (mkBoundedList [] 16) 0 0 0))
    (Some (mkSpscQueue (mkBoundedList [] 16) 0 0 0)) (Some (event_queue [])) None false None None 0 50000000 0 0 0 0
    QueuePops_default DepthMarks_default p.
Definition loop_env : Env (I := TokenInventory) := mkEnv 1000 1000 (Some TokenInventory_new) None.
Definition ticks (n : nat) : list (Action (I := TokenInventory) (C := unit) (B := unit) (T := unit)) :=
  replicate n (Consume loop_env).

Lemma bidding_quiet : frugal_strategy (H2 := bidding false) 0 (fun _ => 0%nat).
Proof. split; [done|]. intros ctx k x Ha. simpl. by rewrite Ha. Qed.
Lemma bidding_eager : eager_strategy (H2 := bidding true).
Proof. intros ctx k x Ha. by eexists. Qed.
Lemma sample_loop_ok p : loop_ok (sample_loop p).
Proof. apply new_sched_ok. done. Qed.


Lemma pass_terminates_witness :
  exists acts1 acts2, ticks 101 = acts1 ++ acts2 /\ pc (run (H2 := bidding false) acts1 (sample_loop PDelta)) = PCycleEnd.
Proof.
  destruct (pass_terminates (H2 := bidding false) 0 (fun _ => 0%nat) (ticks 101) (sample_loop PDelta) bidding_quiet (sample_loop_ok _) eq_refl)
    as (acts1 & acts2 & Hsplit & Hpc & _); [vm_compute; lia|].
  exists acts1, acts2. split; [exact Hsplit|exact Hpc].
Defined.

Lemma no_lane_starves_witness :
  sample_event <$> [1; 2; 3] `prefix_of` served (H2 := bidding false) LUser (ticks 40) (sample_loop PTop).
Proof.
  assert (stop_requested_ (run (H2 := bidding false) (ticks 40) (sample_loop PTop)) = false) as Hs by (vm_compute; reflexivity).
  destruct (no_lane_starves (H2 := bidding false) LUser (ticks 40) (sample_loop PTop) (mkSchedulerConfig 2 2 2 2 2 5000 2 100)
    eq_refl eq_refl Hs) as (_ & Hp & _).
  assert (passes (H2 := bidding false) (ticks 40) (sample_loop PTop) = 2) as Hk by (vm_compute; reflexivity).
  rewrite Hk in Hp. exact Hp.
Defined.

(** The same scheduler with a gate of the default limits. *)
Definition gated_loop : Loop (ST := unit) (K := unit) (SK := ExecQueueSink (Q := BoundedList)) (C := unit) (B := unit) (T := unit) (Q := BoundedList) :=
  let l := sample_loop PTop in l <| lp_s := (lp_s l) <| risk_gate_ptr_ := Some (RiskGate_new RiskGate.sample_config) |> |>.
Lemma gated_loop_ok : loop_ok gated_loop.
Proof. split; [exact (proj1 (sample_loop_ok PTop))|]. intros x Hx. by injection Hx as <-. Qed.
Definition echo_loop := run (H2 := bidding true) (ticks 7) gated_loop.
Lemma echo_loop_echoing : echoing (lp_s echo_loop).
Proof.
  assert (sched_ok (lp_s echo_loop)) as Hs
    by exact (proj1 (run_ok (H2 := bidding true) (ticks 7) gated_loop gated_loop_ok)).
  assert ((fun m => (mode_ m, (fun d => (enabled_ d, count_ d)) <$> dry_sim_ m)) <$> mode_sink_ (lp_s echo_loop) =
    Some (ExecutionMode.DRY_RUN, Some (true, 2%nat))) as Hv by (vm_compute; reflexivity).
  assert (strategy_ptr_ (lp_s echo_loop) = Some tt) as Hst by (vm_compute; reflexivity).
  revert Hs Hv Hst. generalize (lp_s echo_loop). intros s Hs Hv Hst. unfold sched_ok, sim_of in Hs.
  destruct (mode_sink_ s) as [m|] eqn:Em; [|discriminate]. simpl in Hv.
  destruct (dry_sim_ m) as [d|] eqn:Ed; [|discriminate]. injection Hv as Hm He Hc.
  split; [by rewrite Hst|]. exists m, d. split_and!; try done; [by apply Hs|lia].
Qed.
Lemma echo_gate_lets : gate_lets (H2 := bidding true) loop_env (lp_s echo_loop).
Proof.
  assert (working_tracker_ (lp_s echo_loop) = Some WorkingOrderTracker_new) as Ht by (vm_compute; reflexivity).
  assert ((fun g => (config_ g, pending_cancel_all_ g)) <$> risk_gate_ptr_ (lp_s echo_loop) = Some (RiskGate.sample_config, false)) as Hg by (vm_compute; reflexivity).
  intros g Eg. rewrite Eg in Hg. injection Hg as Hc Hp. split; [done|]. intros g' ctx k x i Hc' _ Hin. apply list_elem_of_singleton in Hin as ->. rewrite Ht.
  destruct g' as [c p n1 n2 n3]. cbn in Hc'. rewrite Hc' , Hc. vm_compute. reflexivity.
Qed.
Lemma simulator_livelock_witness :
  pc (run (H2 := bidding true) (ticks 500 ++ [Shutdown] ++ ticks 500) echo_loop) = PSimLoop.
Proof.
  apply (simulator_livelock (H2 := bidding true) (ticks 500 ++ [Shutdown] ++ ticks 500) echo_loop bidding_eager
    ltac:(vm_compute; reflexivity) echo_loop_echoing).
  intros env Hin. assert (env = loop_env) as ->; [|exact echo_gate_lets]. unfold ticks in Hin.
  rewrite !elem_of_app, list_elem_of_singleton in Hin. destruct Hin as [Hin|[Hin|Hin]]; [|discriminate Hin|];
    apply elem_of_replicate in Hin as [Hin _]; by injection Hin.
Defined.
End LoopExample.
