(* ===== verification/UiSerializer.v ===== *)
(** The messages for the user interface: [src/ui_bridge/ui_serializer.cpp] and the
    types of [ui_serializer.h].

    Messages are texts, built as the code appends to its output string.  A
    [snprintf] into a buffer of [n] bytes keeps [n - 1] of them ([bounded]).  The text
    of a floating-point value ([%.2f], [%.4f]) is the class [PrintfDouble]; string
    literals with quotes are written with apostrophes ([js]).

    Shown: every message is the text of a JSON document, read back by the reader of
    [JsonText.v] with every string and number it was given, no buffer cutting
    anything off; a bid for the DOWN token is shown as an offer of UP at the
    complementary price. *)
From Stdlib Require Import Ascii.
From S2P Require Import Prelude Types Price OrderBook Events Json MessageRoundtrip Crypto OrderBuilder JsonText.
From S2P Require Import MarketStateStore Slots Watcher UiMirror UiSnapshot SchedulerLoop.

(** A literal, its quotes written as apostrophes. *)
Definition js (s : string) : text := (fun c => if bool_decide (c = "'"%char) then dquote else c) <$> txt s.
Definition bounded (size : nat) (s : text) : text := take (size - 1) s.

(** ** What is shown *)
Record UiMarketSnapshot := mkUiMarketSnapshot {
  um_condition_id : AssetId; um_token_id_up : AssetId; um_token_id_down : AssetId; um_series_label : string;
  um_book_up : option UiBookUpdate; um_book_down : option UiBookUpdate; um_position_up : Z; um_position_down : Z }.
Record UiGatewayHealth := mkUiGatewayHealth { ug_degraded : bool; ug_heartbeat_ok : Z; ug_heartbeat_fail : Z }.
Record UiMetricsSnapshot := mkUiMetricsSnapshot {
  ms_ws_frames : Z; ms_parse_ok : Z; ms_sched_cycles : Z; ms_sched_events : Z; ms_rest_requests : Z; ms_rest_errors : Z;
  ms_ui_snapshots_dropped : Z; ms_ui_book_drops : Z; ms_ui_state_drops : Z }.
Record UiRotationInfo := mkUiRotationInfo {
  ri_market_condition : string; ri_window_start : Z; ri_window_end : Z; ri_rotation_count : Z; ri_in_no_trade : bool }.
Record UiLatencySnapshot := mkUiLatencySnapshot {
  ul_order_rtt_avg_ns : Z; ul_order_rtt_p95_ns : Z; ul_cancel_rtt_avg_ns : Z; ul_cancel_rtt_p95_ns : Z;
  ul_engine_avg_ns : Z; ul_engine_p95_ns : Z; ul_pipeline_avg_ns : Z; ul_pipeline_p95_ns : Z;
  ul_ws_book_avg_ns : Z; ul_ws_book_p95_ns : Z; ul_exchange_to_recv_avg_ns : Z; ul_exchange_to_recv_p95_ns : Z;
  ul_binance_md_avg_ns : Z; ul_binance_md_p95_ns : Z; ul_probe_order_rtt_ns : Z; ul_probe_cancel_rtt_ns : Z;
  ul_probe_roundtrip_ns : Z; ul_probe_status : Z }.

(** Floating-point values [D]: [fixed k d] is [printf("%.kf", d)], [micro_dollars z] is
    [static_cast<double>(z) / 1000000.0]. *)
Class PrintfDouble (D : Type) := { fixed : nat -> D -> text; micro_dollars : Z -> D; double_zero : D }.

Section Serializer.
Context {D : Type} `{PrintfDouble D}.

Record UiAccountBalance := mkUiAccountBalance {
  ab_position_value : D; ab_usdc_balance : Z; ab_realized_pnl : Z; ab_pol_balance : D; ab_available : bool; ab_error : string }.
Record EngineSnapshot := mkEngineSnapshot {
  es_timestamp_ns : Z;
  es_markets : list UiMarketSnapshot;
  es_state : option UiStateSnapshot;
  es_metrics : UiMetricsSnapshot;
  es_gateway : UiGatewayHealth;
  es_account_name : string;
  es_account_address : string;
  es_rotation : UiRotationInfo;
  es_account_balance : UiAccountBalance;
  es_latency : UiLatencySnapshot }.
Implicit Types (snap : EngineSnapshot).

(** ** Pieces *)
Definition ui_format_price (price : Z) : text :=
  if price <? 0 then txt "-1" else
  let whole := price ÷ kPriceScale in
  let frac := Z.rem price kPriceScale in
  int_to_chars whole ++ txt "." ++ pad_digits 4 frac.

Definition append_key_int (key : string) (val : Z) : text := bounded 64 (quoted (txt key) ++ txt ":" ++ int_to_chars val).
Definition append_key_bool (key : string) (val : bool) : text := quoted (txt key) ++ txt ":" ++ txt (if val then "true" else "false").
Definition escaped_char (ch : ascii) : text :=
  let uch := char_code ch in
  if uch =? 92 then [backslash; backslash]
  else if uch =? 34 then [backslash; dquote]
  else if uch =? 8 then [backslash; "b"%char]
  else if uch =? 12 then [backslash; "f"%char]
  else if uch =? 10 then [backslash; "n"%char]
  else if uch =? 13 then [backslash; "r"%char]
  else if uch =? 9 then [backslash; "t"%char]
  else if uch <? 32 then backslash :: "u"%char :: hex4 uch
  else [ch].
Definition append_escaped_json_string (val : text) : text := concat (escaped_char <$> val).
Definition append_key_str (key val : string) : text :=
  quoted (txt key) ++ txt ":" ++ quoted (append_escaped_json_string (txt val)).

(** The loops put a comma before every element but the first. *)
Fixpoint comma_list (l : list text) : text :=
  match l with
  | [] => []
  | [x] => x
  | x :: l => x ++ txt "," ++ comma_list l
  end.

Definition level_text (price size : Z) : text :=
  bounded 128 (js "{'price':" ++ int_to_chars price ++ js ",'size':" ++ int_to_chars size ++ txt "}").
Definition serialize_book_levels (key : string) (levels : list (Z * Z)) : text :=
  quoted (txt key) ++ txt ":[" ++ comma_list ((fun '(p, q) => level_text p q) <$> levels) ++ txt "]".
Definition serialize_bbo (key : string) (bbo : BBO) : text :=
  bounded 256 (quoted (txt key) ++ js ":{'best_bid':" ++ int_to_chars (best_bid bbo) ++ js ",'best_ask':" ++ int_to_chars (best_ask bbo) ++
    js ",'bid_size':" ++ int_to_chars (bid_size bbo) ++ js ",'ask_size':" ++ int_to_chars (ask_size bbo) ++ txt "}").
Definition serialize_book_update (key : string) (book : option UiBookUpdate) : text :=
  quoted (txt key) ++ txt ":{" ++
  match book with
  | Some b => serialize_bbo "bbo" (ub_bbo b) ++ txt "," ++ serialize_book_levels "bids" (ub_bids b) ++ txt "," ++
              serialize_book_levels "asks" (ub_asks b)
  | None => js "'bbo':{'best_bid':-1,'best_ask':-1,'bid_size':0,'ask_size':0}" ++ js ",'bids':[],'asks':[]"
  end ++ txt "}".

Definition side_name (s : Side) : string := if side_eqb s BID then "BID" else "ASK".
Definition order_lifecycle_name (st : UiOrderLifecycleState) : string :=
  match st with
  | UiOrderLifecycleState.WORKING => "WORKING" | UiOrderLifecycleState.FILLED => "FILLED"
  | UiOrderLifecycleState.CANCELED_NO_FILL => "CANCELED_NO_FILL" | UiOrderLifecycleState.CANCELED_WITH_FILL => "CANCELED_WITH_FILL"
  | UiOrderLifecycleState.REJECTED => "REJECTED"
  end.
Definition trade_status_name (st : TradeStatus) : string :=
  match st with
  | TradeStatus.UNKNOWN => "UNKNOWN" | TradeStatus.MATCHED => "MATCHED" | TradeStatus.MINED => "MINED"
  | TradeStatus.CONFIRMED => "CONFIRMED" | TradeStatus.RETRYING => "RETRYING" | TradeStatus.FAILED => "FAILED"
  end.
Definition execution_mode_name (mode : ExecutionMode) : string :=
  match mode with ExecutionMode.DRY_RUN => "DRY_RUN" | ExecutionMode.LIVE => "LIVE" end.
Definition session_state_name (s : SessionState) : string :=
  match s with SessionState.IDLE => "IDLE" | SessionState.PENDING => "PENDING" | SessionState.ACTIVE => "ACTIVE" end.

Definition find_market_snapshot snap (market_id asset_id : string) : option UiMarketSnapshot :=
  match (if nonempty market_id then List.find (fun m => id_eqb (um_condition_id m) market_id) (es_markets snap) else None) with
  | Some m => Some m
  | None => if nonempty asset_id
            then List.find (fun m => id_eqb (um_token_id_up m) asset_id || id_eqb (um_token_id_down m) asset_id) (es_markets snap)
            else None
  end.
Definition market_label snap (market_id asset_id : string) : string :=
  match find_market_snapshot snap market_id asset_id with
  | Some m =>
      let prefix := if nonempty (um_series_label m) then um_series_label m else "MARKET"%string in
      if nonempty asset_id then
        if id_eqb (um_token_id_up m) asset_id then String.append prefix " UP"
        else if id_eqb (um_token_id_down m) asset_id then String.append prefix " DOWN" else prefix
      else prefix
  | None => "MARKET"%string
  end.
Definition append_market_label snap (market_id asset_id : string) : text := append_key_str "market_label" (market_label snap market_id asset_id).

(** A bid for the DOWN token is displayed as an offer at the complementary price. *)
Definition display snap (market_id asset_id : string) (side : Side) (price : Z) : Side * Z :=
  match find_market_snapshot snap market_id asset_id with
  | Some mkt => if side_eqb side BID && id_eqb (um_token_id_down mkt) asset_id then (ASK, kPriceScale - price) else (side, price)
  | None => (side, price)
  end.

(** ** Rows *)
Definition market_text (m : UiMarketSnapshot) : text :=
  txt "{" ++ append_key_str "condition_id" (um_condition_id m) ++ txt "," ++ append_key_str "token_id_up" (um_token_id_up m) ++ txt "," ++
  append_key_str "token_id_down" (um_token_id_down m) ++ txt "," ++ append_key_str "series_label" (um_series_label m) ++ txt "," ++
  serialize_book_update "book_up" (um_book_up m) ++ txt "," ++ serialize_book_update "book_down" (um_book_down m) ++ txt "," ++
  append_key_int "position_up" (um_position_up m) ++ txt "," ++ append_key_int "position_down" (um_position_down m) ++ txt "}".
Definition working_text snap (wo : UiWorkingOrder) : text :=
  let '(display_side, display_price) := display snap (uw_market_id wo) (uw_asset_id wo) (uw_side wo) (uw_price wo) in
  txt "{" ++ append_key_str "client_order_id" (uw_client_order_id wo) ++ txt "," ++
  append_key_str "exchange_order_id" (uw_exchange_order_id wo) ++ txt "," ++ append_key_str "asset_id" (uw_asset_id wo) ++ txt "," ++
  append_key_str "market_id" (uw_market_id wo) ++ txt "," ++ append_market_label snap (uw_market_id wo) (uw_asset_id wo) ++ txt "," ++
  append_key_str "side" (side_name display_side) ++ txt "," ++ append_key_int "price" display_price ++ txt "," ++
  append_key_int "original_size" (uw_original_size wo) ++ txt "," ++ append_key_int "filled_size" (uw_filled_size wo) ++ txt "," ++
  append_key_bool "is_live" (uw_is_live wo) ++ txt "," ++ append_key_bool "is_pending" (uw_is_pending wo) ++ txt "," ++
  append_key_str "lifecycle_state" (order_lifecycle_name (uw_lifecycle_state wo)) ++ txt "," ++
  append_key_int "last_update_ts" (uw_last_update_ts wo) ++ txt "}".
Definition closed_text snap (co : UiClosedOrder) : text :=
  let '(co_display_side, co_display_price) := display snap (uc_market_id co) (uc_asset_id co) (uc_side co) (uc_price co) in
  txt "{" ++ append_key_str "client_order_id" (uc_client_order_id co) ++ txt "," ++
  append_key_str "exchange_order_id" (uc_exchange_order_id co) ++ txt "," ++ append_key_str "asset_id" (uc_asset_id co) ++ txt "," ++
  append_key_str "market_id" (uc_market_id co) ++ txt "," ++ append_market_label snap (uc_market_id co) (uc_asset_id co) ++ txt "," ++
  append_key_str "side" (side_name co_display_side) ++ txt "," ++ append_key_int "price" co_display_price ++ txt "," ++
  append_key_int "original_size" (uc_original_size co) ++ txt "," ++ append_key_int "filled_size" (uc_filled_size co) ++ txt "," ++
  append_key_str "lifecycle_state" (order_lifecycle_name (uc_lifecycle_state co)) ++ txt "," ++
  append_key_int "last_update_ts" (uc_last_update_ts co) ++ txt "}".
Definition trade_text snap (tr : UiTrade) : text :=
  let '(tr_display_side, tr_display_price) := display snap (ut_market_id tr) (ut_asset_id tr) (ut_side tr) (ut_price tr) in
  txt "{" ++ append_key_str "trade_id" (ut_trade_id tr) ++ txt "," ++ append_key_str "order_id" (ut_order_id tr) ++ txt "," ++
  append_key_str "asset_id" (ut_asset_id tr) ++ txt "," ++ append_key_str "market_id" (ut_market_id tr) ++ txt "," ++
  append_market_label snap (ut_market_id tr) (ut_asset_id tr) ++ txt "," ++ append_key_str "side" (side_name tr_display_side) ++ txt "," ++
  append_key_int "price" tr_display_price ++ txt "," ++ append_key_int "size" (ut_size tr) ++ txt "," ++
  append_key_str "status" (trade_status_name (ut_trade_status tr)) ++ txt "," ++ append_key_int "last_update_ts" (ut_last_update_ts tr) ++ txt "}".
Definition position_text (pos : AssetId * Z) : text :=
  txt "{" ++ append_key_str "token_id" pos.1 ++ txt "," ++ append_key_int "position" pos.2 ++ txt "}".

(** ** The snapshot *)
Definition state_params (state : option UiStateSnapshot) : text :=
  match state with
  | Some st =>
      txt "," ++ append_key_bool "strategy_enabled" (us_strategy_enabled st) ++ txt "," ++
      append_key_int "spread_ticks" (us_spread_ticks st) ++ txt "," ++ append_key_int "quote_size" (us_quote_size st) ++ txt "," ++
      append_key_str "execution_mode" (execution_mode_name (us_execution_mode st)) ++ txt "," ++
      append_key_int "risk_checks" (us_risk_checks st) ++ txt "," ++ append_key_int "risk_allows" (us_risk_allows st) ++ txt "," ++
      append_key_int "risk_denies" (us_risk_denies st) ++ txt "," ++
      append_key_str "session_state" (session_state_name (us_session_state st)) ++ txt "," ++
      append_key_int "session_end_time_s" (us_session_end_time_s st) ++ txt "," ++
      append_key_int "session_markets_entered" (us_session_markets_entered st)
  | None =>
      js ",'strategy_enabled':false,'spread_ticks':0,'quote_size':0" ++ js ",'execution_mode':'DRY_RUN'" ++
      js ",'risk_checks':0,'risk_allows':0,'risk_denies':0" ++
      js ",'session_state':'IDLE','session_end_time_s':0,'session_markets_entered':0"
  end.
Definition state_rows {A} snap (rows : UiStateSnapshot -> list A) (f : A -> text) : text :=
  match es_state snap with Some st => comma_list (f <$> rows st) | None => [] end.
Definition state_text snap : text :=
  js ",'state':{" ++ js "'working_orders':[" ++ state_rows snap us_working_orders (working_text snap) ++ txt "]" ++
  js ",'closed_orders':[" ++ state_rows snap us_closed_orders (closed_text snap) ++ txt "]" ++
  js ",'trades':[" ++ state_rows snap us_trades (trade_text snap) ++ txt "]" ++
  js ",'positions':[" ++ state_rows snap us_positions position_text ++ txt "]" ++
  state_params (es_state snap) ++ txt "}".
Definition metrics_text (m : UiMetricsSnapshot) : text :=
  js ",'metrics':{" ++ append_key_int "ws_frames" (ms_ws_frames m) ++ txt "," ++ append_key_int "parse_ok" (ms_parse_ok m) ++ txt "," ++
  append_key_int "sched_cycles" (ms_sched_cycles m) ++ txt "," ++ append_key_int "sched_events" (ms_sched_events m) ++ txt "," ++
  append_key_int "rest_requests" (ms_rest_requests m) ++ txt "," ++ append_key_int "rest_errors" (ms_rest_errors m) ++ txt "," ++
  append_key_int "ui_snapshots_dropped" (ms_ui_snapshots_dropped m) ++ txt "," ++ append_key_int "ui_book_drops" (ms_ui_book_drops m) ++
  txt "," ++ append_key_int "ui_state_drops" (ms_ui_state_drops m) ++ txt "}".
Definition gateway_text (g : UiGatewayHealth) : text :=
  js ",'gateway':{" ++ append_key_bool "degraded" (ug_degraded g) ++ txt "," ++ append_key_int "heartbeat_ok" (ug_heartbeat_ok g) ++ txt "," ++
  append_key_int "heartbeat_fail" (ug_heartbeat_fail g) ++ txt "}".
Definition account_text snap : text :=
  js ",'account':{" ++ append_key_str "name" (c_str (es_account_name snap)) ++ txt "," ++
  append_key_str "address" (c_str (es_account_address snap)) ++ txt "}".
Definition rotation_text (r : UiRotationInfo) : text :=
  js ",'rotation':{" ++ append_key_str "market" (c_str (ri_market_condition r)) ++ txt "," ++
  append_key_int "window_start" (ri_window_start r) ++ txt "," ++ append_key_int "window_end" (ri_window_end r) ++ txt "," ++
  append_key_int "rotations" (ri_rotation_count r) ++ txt "," ++ append_key_bool "no_trade" (ri_in_no_trade r) ++ txt "}".
Definition balance_text (b : UiAccountBalance) : text :=
  js ",'balance':{" ++
  bounded 64 (js "'position_value':" ++ fixed 2 (ab_position_value b)) ++
  bounded 64 (js ",'usdc_balance':" ++ fixed 2 (micro_dollars (ab_usdc_balance b))) ++
  bounded 64 (js ",'realized_pnl':" ++ fixed 2 (micro_dollars (ab_realized_pnl b))) ++
  bounded 64 (js ",'pol_balance':" ++ fixed 4 (ab_pol_balance b)) ++
  txt "," ++ append_key_bool "available" (ab_available b) ++
  (if nonempty (c_str (ab_error b)) then txt "," ++ append_key_str "error" (c_str (ab_error b)) else []) ++ txt "}".
Definition latency_text (l : UiLatencySnapshot) : text :=
  js ",'latency':{" ++
  append_key_int "order_rtt_avg_ns" (ul_order_rtt_avg_ns l) ++ txt "," ++ append_key_int "order_rtt_p95_ns" (ul_order_rtt_p95_ns l) ++ txt "," ++
  append_key_int "cancel_rtt_avg_ns" (ul_cancel_rtt_avg_ns l) ++ txt "," ++ append_key_int "cancel_rtt_p95_ns" (ul_cancel_rtt_p95_ns l) ++ txt "," ++
  append_key_int "engine_avg_ns" (ul_engine_avg_ns l) ++ txt "," ++ append_key_int "engine_p95_ns" (ul_engine_p95_ns l) ++ txt "," ++
  append_key_int "pipeline_avg_ns" (ul_pipeline_avg_ns l) ++ txt "," ++ append_key_int "pipeline_p95_ns" (ul_pipeline_p95_ns l) ++ txt "," ++
  append_key_int "ws_book_avg_ns" (ul_ws_book_avg_ns l) ++ txt "," ++ append_key_int "ws_book_p95_ns" (ul_ws_book_p95_ns l) ++ txt "," ++
  append_key_int "exchange_to_recv_avg_ns" (ul_exchange_to_recv_avg_ns l) ++ txt "," ++
  append_key_int "exchange_to_recv_p95_ns" (ul_exchange_to_recv_p95_ns l) ++ txt "," ++
  append_key_int "binance_md_avg_ns" (ul_binance_md_avg_ns l) ++ txt "," ++ append_key_int "binance_md_p95_ns" (ul_binance_md_p95_ns l) ++ txt "," ++
  append_key_int "probe_order_rtt_ns" (ul_probe_order_rtt_ns l) ++ txt "," ++
  append_key_int "probe_cancel_rtt_ns" (ul_probe_cancel_rtt_ns l) ++ txt "," ++
  append_key_int "probe_roundtrip_ns" (ul_probe_roundtrip_ns l) ++ txt "," ++ append_key_int "probe_status" (ul_probe_status l) ++ txt "}".
Definition serialize_engine_snapshot snap : text :=
  txt "{" ++ append_key_str "type" "engine_snapshot" ++ txt "," ++ append_key_int "timestamp_ns" (es_timestamp_ns snap) ++
  js ",'markets':[" ++ comma_list (market_text <$> es_markets snap) ++ txt "]" ++
  state_text snap ++ metrics_text (es_metrics snap) ++ gateway_text (es_gateway snap) ++ account_text snap ++
  rotation_text (es_rotation snap) ++ balance_text (es_account_balance snap) ++ latency_text (es_latency snap) ++ txt "}".

(** ** The watcher's messages *)
Record SeriesListEntry := mkSeriesListEntry { sl_timeframe : BtcTimeframe; sl_condition_id : string; sl_status : WatcherState; sl_has_next : bool }.
Definition timeframe_name (tf : BtcTimeframe) : string := match tf with BTC_5M => "BTC_5m" | BTC_15M => "BTC_15m" end.
Definition watcher_state_name (s : WatcherState) : string :=
  match s with
  | WatcherState.DISCONNECTED => "DISCONNECTED" | WatcherState.CONNECTING => "CONNECTING" | WatcherState.CONNECTED => "CONNECTED"
  | WatcherState.STALE => "STALE" | WatcherState.ROLL_PENDING => "ROLL_PENDING" | WatcherState.ROLLING => "ROLLING"
  end.
Definition series_text (e : SeriesListEntry) : text :=
  txt "{" ++ append_key_str "series_key" (timeframe_name (sl_timeframe e)) ++ txt "," ++
  append_key_str "condition_id" (sl_condition_id e) ++ txt "," ++ append_key_str "status" (watcher_state_name (sl_status e)) ++ txt "," ++
  append_key_bool "has_next" (sl_has_next e) ++ txt "}".
Definition serialize_series_list (entries : list SeriesListEntry) : text :=
  txt "{" ++ append_key_str "type" "series_list" ++ js ",'series':[" ++ comma_list (series_text <$> entries) ++ txt "]}".
Definition ladder_text (l : list WatcherBookLevel) : text := comma_list ((fun x => level_text (wl_price x) (wl_size x)) <$> l).
Definition serialize_watcher_books (tf : BtcTimeframe) (condition_id : string) (ladder : MergedLadder) (trades : list WatcherBookLevel)
    (tick_size : Z) : text :=
  txt "{" ++ append_key_str "type" "watcher_books" ++ txt "," ++ append_key_str "series_key" (timeframe_name tf) ++ txt "," ++
  append_key_str "condition_id" condition_id ++ js ",'buy_levels':[" ++ ladder_text (ml_buy_levels ladder) ++ txt "]" ++
  js ",'sell_levels':[" ++ ladder_text (ml_sell_levels ladder) ++ txt "]" ++ js ",'trades':[" ++ ladder_text trades ++ txt "]" ++
  bounded 64 (js ",'tick_size':" ++ int_to_chars tick_size) ++ txt "}".
Definition serialize_watcher_status (tf : BtcTimeframe) (state : WatcherState) : text :=
  txt "{" ++ append_key_str "type" "watcher_status" ++ txt "," ++ append_key_str "series_key" (timeframe_name tf) ++ txt "," ++
  append_key_str "status" (watcher_state_name state) ++ txt "}".
End Serializer.

(** ** The documents *)
Section Documents.
Context {D : Type} `{PrintfDouble D}.
Implicit Types (snap : EngineSnapshot (D := D)).
Local Open Scope string_scope.

(** The vocabulary of the protocol, as tables, and what a row shows, in terms of the
    market that owns it: the first one with its condition, else the first one that
    trades its token. *)
Definition named {A} `{EqDecision A} (table : list (A * string)) (x : A) : string :=
  match List.find (fun e => bool_decide (e.1 = x)) table with Some e => e.2 | None => "" end.
Definition side_table : list (Side * string) := [(BID, "BID"); (ASK, "ASK")].
Definition lifecycle_table : list (UiOrderLifecycleState * string) :=
  [(UiOrderLifecycleState.WORKING, "WORKING"); (UiOrderLifecycleState.FILLED, "FILLED");
   (UiOrderLifecycleState.CANCELED_NO_FILL, "CANCELED_NO_FILL");
   (UiOrderLifecycleState.CANCELED_WITH_FILL, "CANCELED_WITH_FILL"); (UiOrderLifecycleState.REJECTED, "REJECTED")].
Definition trade_table : list (TradeStatus * string) :=
  [(TradeStatus.UNKNOWN, "UNKNOWN"); (TradeStatus.MATCHED, "MATCHED"); (TradeStatus.MINED, "MINED");
   (TradeStatus.CONFIRMED, "CONFIRMED"); (TradeStatus.RETRYING, "RETRYING"); (TradeStatus.FAILED, "FAILED")].
Definition mode_table : list (ExecutionMode * string) := [(ExecutionMode.DRY_RUN, "DRY_RUN"); (ExecutionMode.LIVE, "LIVE")].
Definition session_table : list (SessionState * string) :=
  [(SessionState.IDLE, "IDLE"); (SessionState.PENDING, "PENDING"); (SessionState.ACTIVE, "ACTIVE")].
Definition series_table : list (BtcTimeframe * string) := [(BTC_5M, "BTC_5m"); (BTC_15M, "BTC_15m")].
Definition watcher_table : list (WatcherState * string) :=
  [(WatcherState.DISCONNECTED, "DISCONNECTED"); (WatcherState.CONNECTING, "CONNECTING"); (WatcherState.CONNECTED, "CONNECTED");
   (WatcherState.STALE, "STALE"); (WatcherState.ROLL_PENDING, "ROLL_PENDING"); (WatcherState.ROLLING, "ROLLING")].

Definition owners snap (market_id asset_id : string) : list UiMarketSnapshot :=
  (filter (fun m => market_id <> "" /\ um_condition_id m = market_id) (es_markets snap) ++
   filter (fun m => asset_id <> "" /\ (um_token_id_up m = asset_id \/ um_token_id_down m = asset_id)) (es_markets snap))%list.
Definition owner snap (market_id asset_id : string) : option UiMarketSnapshot := head (owners snap market_id asset_id).
Definition shown_label snap (market_id asset_id : string) : string :=
  match owner snap market_id asset_id with
  | None => "MARKET"
  | Some m => String.append (if decide (um_series_label m = "") then "MARKET" else um_series_label m)
                (if decide (asset_id = "") then "" else if decide (um_token_id_up m = asset_id) then " UP"
                 else if decide (um_token_id_down m = asset_id) then " DOWN" else "")
  end.
(** A bid for the DOWN token is shown as an offer at 10000 minus its price. *)
Definition is_down_bid snap (market_id asset_id : string) (side : Side) : bool :=
  match owner snap market_id asset_id, side with
  | Some m, BID => bool_decide (um_token_id_down m = asset_id)
  | _, _ => false
  end.
Definition shown_side snap (market_id asset_id : string) (side : Side) : Side :=
  if is_down_bid snap market_id asset_id side then ASK else side.
Definition shown_price snap (market_id asset_id : string) (side : Side) (price : Z) : Z :=
  if is_down_bid snap market_id asset_id side then 10000 - price else price.

Definition level_doc (price size : Z) : Json := JObject [("price", JInt price); ("size", JInt size)].
Definition levels_doc (levels : list (Z * Z)) : Json := JArray ((fun '(p, q) => level_doc p q) <$> levels).
Definition bbo_doc (b : BBO) : Json :=
  JObject [("best_bid", JInt (best_bid b)); ("best_ask", JInt (best_ask b)); ("bid_size", JInt (bid_size b)); ("ask_size", JInt (ask_size b))].
(** A book that is not known is empty. *)
Definition book_doc (book : option UiBookUpdate) : Json :=
  match book with
  | Some b => JObject [("bbo", bbo_doc (ub_bbo b)); ("bids", levels_doc (ub_bids b)); ("asks", levels_doc (ub_asks b))]
  | None => JObject [("bbo", bbo_doc (mkBBO (-1) (-1) 0 0)); ("bids", JArray []); ("asks", JArray [])]
  end.
Definition market_doc (m : UiMarketSnapshot) : Json :=
  JObject [("condition_id", JString (um_condition_id m)); ("token_id_up", JString (um_token_id_up m));
    ("token_id_down", JString (um_token_id_down m)); ("series_label", JString (um_series_label m));
    ("book_up", book_doc (um_book_up m)); ("book_down", book_doc (um_book_down m));
    ("position_up", JInt (um_position_up m)); ("position_down", JInt (um_position_down m))].
Definition working_doc snap (wo : UiWorkingOrder) : Json :=
  let row {A} (show : EngineSnapshot (D := D) -> string -> string -> A) := show snap (uw_market_id wo) (uw_asset_id wo) in
  JObject [("client_order_id", JString (uw_client_order_id wo)); ("exchange_order_id", JString (uw_exchange_order_id wo));
    ("asset_id", JString (uw_asset_id wo)); ("market_id", JString (uw_market_id wo));
    ("market_label", JString (row shown_label));
    ("side", JString (named side_table (row shown_side (uw_side wo)))); ("price", JInt (row shown_price (uw_side wo) (uw_price wo))); ("original_size", JInt (uw_original_size wo));
    ("filled_size", JInt (uw_filled_size wo)); ("is_live", JBool (uw_is_live wo)); ("is_pending", JBool (uw_is_pending wo));
    ("lifecycle_state", JString (named lifecycle_table (uw_lifecycle_state wo))); ("last_update_ts", JInt (uw_last_update_ts wo))].
Definition closed_doc snap (co : UiClosedOrder) : Json :=
  let row {A} (show : EngineSnapshot (D := D) -> string -> string -> A) := show snap (uc_market_id co) (uc_asset_id co) in
  JObject [("client_order_id", JString (uc_client_order_id co)); ("exchange_order_id", JString (uc_exchange_order_id co));
    ("asset_id", JString (uc_asset_id co)); ("market_id", JString (uc_market_id co));
    ("market_label", JString (row shown_label));
    ("side", JString (named side_table (row shown_side (uc_side co)))); ("price", JInt (row shown_price (uc_side co) (uc_price co))); ("original_size", JInt (uc_original_size co));
    ("filled_size", JInt (uc_filled_size co));
    ("lifecycle_state", JString (named lifecycle_table (uc_lifecycle_state co))); ("last_update_ts", JInt (uc_last_update_ts co))].
Definition trade_doc snap (tr : UiTrade) : Json :=
  let row {A} (show : EngineSnapshot (D := D) -> string -> string -> A) := show snap (ut_market_id tr) (ut_asset_id tr) in
  JObject [("trade_id", JString (ut_trade_id tr)); ("order_id", JString (ut_order_id tr)); ("asset_id", JString (ut_asset_id tr));
    ("market_id", JString (ut_market_id tr)); ("market_label", JString (row shown_label));
    ("side", JString (named side_table (row shown_side (ut_side tr)))); ("price", JInt (row shown_price (ut_side tr) (ut_price tr))); ("size", JInt (ut_size tr));
    ("status", JString (named trade_table (ut_trade_status tr))); ("last_update_ts", JInt (ut_last_update_ts tr))].
Definition position_doc (pos : AssetId * Z) : Json := JObject [("token_id", JString pos.1); ("position", JInt pos.2)].

Definition rows_doc {A} (state : option UiStateSnapshot) (rows : UiStateSnapshot -> list A) (f : A -> Json) : Json :=
  JArray (match state with Some st => f <$> rows st | None => [] end).
Definition params_doc (state : option UiStateSnapshot) : list (string * Json) :=
  let get {A} (f : UiStateSnapshot -> A) (d : A) := match state with Some st => f st | None => d end in
  [("strategy_enabled", JBool (get us_strategy_enabled false)); ("spread_ticks", JInt (get us_spread_ticks 0));
   ("quote_size", JInt (get us_quote_size 0)); ("execution_mode", JString (named mode_table (get us_execution_mode ExecutionMode.DRY_RUN)));
   ("risk_checks", JInt (get us_risk_checks 0)); ("risk_allows", JInt (get us_risk_allows 0)); ("risk_denies", JInt (get us_risk_denies 0));
   ("session_state", JString (named session_table (get us_session_state SessionState.IDLE)));
   ("session_end_time_s", JInt (get us_session_end_time_s 0)); ("session_markets_entered", JInt (get us_session_markets_entered 0))].
Definition state_doc snap : Json :=
  JObject ([("working_orders", rows_doc (es_state snap) us_working_orders (working_doc snap));
    ("closed_orders", rows_doc (es_state snap) us_closed_orders (closed_doc snap));
    ("trades", rows_doc (es_state snap) us_trades (trade_doc snap));
    ("positions", rows_doc (es_state snap) us_positions position_doc)] ++ params_doc (es_state snap))%list.
Definition metrics_doc (m : UiMetricsSnapshot) : Json :=
  JObject [("ws_frames", JInt (ms_ws_frames m)); ("parse_ok", JInt (ms_parse_ok m)); ("sched_cycles", JInt (ms_sched_cycles m));
    ("sched_events", JInt (ms_sched_events m)); ("rest_requests", JInt (ms_rest_requests m)); ("rest_errors", JInt (ms_rest_errors m));
    ("ui_snapshots_dropped", JInt (ms_ui_snapshots_dropped m)); ("ui_book_drops", JInt (ms_ui_book_drops m));
    ("ui_state_drops", JInt (ms_ui_state_drops m))].
Definition gateway_doc (g : UiGatewayHealth) : Json :=
  JObject [("degraded", JBool (ug_degraded g)); ("heartbeat_ok", JInt (ug_heartbeat_ok g)); ("heartbeat_fail", JInt (ug_heartbeat_fail g))].
Definition account_doc snap : Json :=
  JObject [("name", JString (c_str (es_account_name snap))); ("address", JString (c_str (es_account_address snap)))].
Definition rotation_doc (r : UiRotationInfo) : Json :=
  JObject [("market", JString (c_str (ri_market_condition r))); ("window_start", JInt (ri_window_start r)); ("window_end", JInt (ri_window_end r));
    ("rotations", JInt (ri_rotation_count r)); ("no_trade", JBool (ri_in_no_trade r))].
Definition balance_doc (b : UiAccountBalance (D := D)) : Json :=
  JObject ([("position_value", JDouble (str_of (fixed 2 (ab_position_value b))));
    ("usdc_balance", JDouble (str_of (fixed 2 (micro_dollars (ab_usdc_balance b)))));
    ("realized_pnl", JDouble (str_of (fixed 2 (micro_dollars (ab_realized_pnl b)))));
    ("pol_balance", JDouble (str_of (fixed 4 (ab_pol_balance b)))); ("available", JBool (ab_available b))] ++
    (if nonempty (c_str (ab_error b)) then [("error", JString (c_str (ab_error b)))] else []))%list.
Definition latency_doc (l : UiLatencySnapshot) : Json :=
  JObject [("order_rtt_avg_ns", JInt (ul_order_rtt_avg_ns l)); ("order_rtt_p95_ns", JInt (ul_order_rtt_p95_ns l));
    ("cancel_rtt_avg_ns", JInt (ul_cancel_rtt_avg_ns l)); ("cancel_rtt_p95_ns", JInt (ul_cancel_rtt_p95_ns l));
    ("engine_avg_ns", JInt (ul_engine_avg_ns l)); ("engine_p95_ns", JInt (ul_engine_p95_ns l));
    ("pipeline_avg_ns", JInt (ul_pipeline_avg_ns l)); ("pipeline_p95_ns", JInt (ul_pipeline_p95_ns l));
    ("ws_book_avg_ns", JInt (ul_ws_book_avg_ns l)); ("ws_book_p95_ns", JInt (ul_ws_book_p95_ns l));
    ("exchange_to_recv_avg_ns", JInt (ul_exchange_to_recv_avg_ns l)); ("exchange_to_recv_p95_ns", JInt (ul_exchange_to_recv_p95_ns l));
    ("binance_md_avg_ns", JInt (ul_binance_md_avg_ns l)); ("binance_md_p95_ns", JInt (ul_binance_md_p95_ns l));
    ("probe_order_rtt_ns", JInt (ul_probe_order_rtt_ns l)); ("probe_cancel_rtt_ns", JInt (ul_probe_cancel_rtt_ns l));
    ("probe_roundtrip_ns", JInt (ul_probe_roundtrip_ns l)); ("probe_status", JInt (ul_probe_status l))].
Definition engine_doc snap : Json :=
  JObject [("type", JString "engine_snapshot"); ("timestamp_ns", JInt (es_timestamp_ns snap));
    ("markets", JArray (market_doc <$> es_markets snap)); ("state", state_doc snap); ("metrics", metrics_doc (es_metrics snap));
    ("gateway", gateway_doc (es_gateway snap)); ("account", account_doc snap); ("rotation", rotation_doc (es_rotation snap));
    ("balance", balance_doc (es_account_balance snap)); ("latency", latency_doc (es_latency snap))].

Definition series_doc (e : SeriesListEntry) : Json :=
  JObject [("series_key", JString (named series_table (sl_timeframe e))); ("condition_id", JString (sl_condition_id e));
    ("status", JString (named watcher_table (sl_status e))); ("has_next", JBool (sl_has_next e))].
Definition series_list_doc (entries : list SeriesListEntry) : Json :=
  JObject [("type", JString "series_list"); ("series", JArray (series_doc <$> entries))].
Definition ladder_doc (l : list WatcherBookLevel) : Json := JArray ((fun x => level_doc (wl_price x) (wl_size x)) <$> l).
Definition watcher_books_doc (tf : BtcTimeframe) (condition_id : string) (ladder : MergedLadder) (trades : list WatcherBookLevel)
    (tick_size : Z) : Json :=
  JObject [("type", JString "watcher_books"); ("series_key", JString (named series_table tf)); ("condition_id", JString condition_id);
    ("buy_levels", ladder_doc (ml_buy_levels ladder)); ("sell_levels", ladder_doc (ml_sell_levels ladder));
    ("trades", ladder_doc trades); ("tick_size", JInt tick_size)].
Definition watcher_status_doc (tf : BtcTimeframe) (state : WatcherState) : Json :=
  JObject [("type", JString "watcher_status"); ("series_key", JString (named series_table tf)); ("status", JString (named watcher_table state))].
End Documents.

(** ** The texts are the documents *)
Definition print_field (m : string * Json) : text := print_key m.1 ++ txt ":" ++ print_json m.2.
Lemma print_members_comma l : print_members true l = comma_list (print_field <$> l).
Proof.
  induction l as [|[k j] l IH]; [done|]. cbn [print_members app fmap list_fmap]. destruct l as [|m l].
  - cbn [print_members comma_list fmap list_fmap]. unfold print_field. by rewrite app_nil_r.
  - rewrite print_members_next, IH. unfold print_field at 2. cbn [fst snd fmap list_fmap comma_list]. by rewrite <- !app_assoc.
Qed.
Lemma print_elements_comma l : print_elements true l = comma_list (print_json <$> l).
Proof.
  induction l as [|j l IH]; [done|]. cbn [print_elements app fmap list_fmap]. destruct l as [|m l].
  - cbn [print_elements comma_list fmap list_fmap]. by rewrite app_nil_r.
  - rewrite print_elements_next, IH. reflexivity.
Qed.
Lemma print_obj l : print_json (JObject l) = txt "{" ++ comma_list (print_field <$> l) ++ txt "}".
Proof. by rewrite print_object, print_members_comma. Qed.
Lemma print_arr l : print_json (JArray l) = txt "[" ++ comma_list (print_json <$> l) ++ txt "]".
Proof. by rewrite print_array, print_elements_comma. Qed.
Lemma arr_field k l : print_field (k, JArray l) = print_key k ++ txt ":" ++ txt "[" ++ comma_list (print_json <$> l) ++ txt "]".
Proof. unfold print_field. cbn [fst snd]. by rewrite print_arr. Qed.
Lemma comma_cons x y l : comma_list (x :: y :: l) = x ++ txt "," ++ comma_list (y :: l).
Proof. done. Qed.

(** Keys need no escaping and leave room for a number. *)
Definition key_ok (k : string) : bool := bool_decide (append_json_escaped [] (txt k) = txt k) && (length (txt k) <=? 39)%nat.
Lemma key_plain k : key_ok k = true -> print_key k = quoted (txt k).
Proof. unfold key_ok, print_key. intros [E%bool_decide_eq_true_1 _]%andb_true_iff. by rewrite E. Qed.
Lemma int_length z : (length (int_to_chars z) <= 21)%nat.
Proof.
  assert (forall f n, length (dec_digits f n) <= f)%nat as Hd.
  { induction f as [|f IH]; intros n; [done|]. cbn [dec_digits]. rewrite length_app. specialize (IH (n / 10)). destruct (n <? 10); cbn [length]; lia. }
  unfold int_to_chars, to_string. pose proof (Hd 20%nat (- z)). pose proof (Hd 20%nat z). destruct (z <? 0); cbn [length]; lia.
Qed.
Lemma bounded_all n s : (length s < n)%nat -> bounded n s = s.
Proof. intros Hn. unfold bounded. apply take_ge. lia. Qed.
Lemma escaped_same s : append_escaped_json_string s = append_json_escaped [] s.
Proof.
  unfold append_escaped_json_string, append_json_escaped. cbn [app]. f_equal. apply list_fmap_ext. intros _ c _.
  destruct c as [[] [] [] [] [] [] [] []]; reflexivity.
Qed.
Lemma key_int_field k v : key_ok k = true -> append_key_int k v = print_field (k, JInt v).
Proof.
  intros Hk. unfold append_key_int, print_field. cbn [fst snd print_json]. rewrite (key_plain k Hk). apply bounded_all.
  unfold key_ok in Hk. apply andb_true_iff in Hk as [_ Hl%Nat.leb_le]. pose proof (int_length v).
  unfold quoted. rewrite !length_app. simpl. rewrite length_app. simpl. lia.
Qed.
Lemma key_bool_field k v : key_ok k = true -> append_key_bool k v = print_field (k, JBool v).
Proof. intros Hk. unfold append_key_bool, print_field. cbn [fst snd print_json]. by rewrite (key_plain k Hk). Qed.
Lemma key_str_field k v : key_ok k = true -> append_key_str k v = print_field (k, JString v).
Proof. intros Hk. unfold append_key_str, print_field. cbn [fst snd print_json]. by rewrite (key_plain k Hk), escaped_same. Qed.

(** Members of an object, one after the other. *)
Ltac members :=
  rewrite ?print_obj; cbn [fmap list_fmap comma_list app];
  rewrite ?key_int_field, ?key_bool_field, ?key_str_field by reflexivity;
  rewrite <- ?app_assoc; try reflexivity.

Lemma level_text_doc p q : level_text p q = print_json (level_doc p q).
Proof.
  unfold level_text, level_doc. rewrite bounded_all; [members|]. pose proof (int_length p). pose proof (int_length q).
  rewrite !length_app. change (length (js "{'price':")) with 9%nat. change (length (js ",'size':")) with 8%nat. simpl. lia.
Qed.
Lemma bbo_field k b : key_ok k = true -> serialize_bbo k b = print_field (k, bbo_doc b).
Proof.
  intros Hk. unfold serialize_bbo, print_field, bbo_doc. cbn [fst snd]. rewrite (key_plain k Hk), bounded_all; [members|].
  pose proof (int_length (best_bid b)). pose proof (int_length (best_ask b)). pose proof (int_length (bid_size b)). pose proof (int_length (ask_size b)).
  unfold key_ok in Hk. apply andb_true_iff in Hk as [_ Hl%Nat.leb_le].
  unfold quoted. rewrite !length_app. change (length (js ":{'best_bid':")) with 13%nat. change (length (js ",'best_ask':")) with 12%nat.
  change (length (js ",'bid_size':")) with 12%nat. change (length (js ",'ask_size':")) with 12%nat. simpl. rewrite length_app. simpl. lia.
Qed.
Lemma levels_field k l : key_ok k = true -> serialize_book_levels k l = print_field (k, levels_doc l).
Proof.
  intros Hk. unfold serialize_book_levels, print_field, levels_doc. cbn [fst snd]. rewrite (key_plain k Hk), print_arr, <- list_fmap_compose.
  rewrite (list_fmap_ext (fun '(p, q) => level_text p q) (print_json ∘ (fun '(p, q) => level_doc p q)) l); [reflexivity|].
  intros _ [p q] _. apply level_text_doc.
Qed.
Lemma book_field k b : key_ok k = true -> serialize_book_update k b = print_field (k, book_doc b).
Proof.
  intros Hk. unfold serialize_book_update, print_field, book_doc. cbn [fst snd]. rewrite (key_plain k Hk).
  destruct b as [b|]; [|reflexivity]. rewrite bbo_field, !levels_field by reflexivity. members.
Qed.

Section Texts.
Context {D : Type} `{PrintfDouble D}.
Implicit Types (snap : EngineSnapshot (D := D)).

(** The code's names and displayed values are those of the protocol. *)
Lemma side_named x : side_name x = named side_table x. Proof. by destruct x. Qed.
Lemma lifecycle_named x : order_lifecycle_name x = named lifecycle_table x. Proof. by destruct x. Qed.
Lemma trade_named x : trade_status_name x = named trade_table x. Proof. by destruct x. Qed.
Lemma mode_named x : execution_mode_name x = named mode_table x. Proof. by destruct x. Qed.
Lemma session_named x : session_state_name x = named session_table x. Proof. by destruct x. Qed.
Lemma timeframe_named x : timeframe_name x = named series_table x. Proof. by destruct x. Qed.
Lemma watcher_named x : watcher_state_name x = named watcher_table x. Proof. by destruct x. Qed.

Lemma find_head {A} (f : A -> bool) (P : A -> Prop) `{forall x, Decision (P x)} l :
  (forall x, f x = true <-> P x) -> List.find f l = head (filter P l).
Proof.
  intros Hf. induction l as [|x l IH]; [done|]. cbn [List.find]. rewrite filter_cons.
  destruct (f x) eqn:E; [by rewrite decide_True by (by apply Hf)|].
  rewrite decide_False; [done|]. rewrite <- Hf, E. done.
Qed.
Lemma nonempty_decide t : nonempty t = bool_decide (t <> ""%string).
Proof. by destruct t. Qed.
Lemma owner_found snap m a : find_market_snapshot snap m a = owner snap m a.
Proof.
  unfold find_market_snapshot, owner, owners. rewrite !nonempty_decide.
  assert (forall (P : Prop) `{Decision P} f (Q : UiMarketSnapshot -> Prop) `{forall x, Decision (Q x)} l,
    (forall x, f x = true <-> Q x) ->
    (if bool_decide P then List.find f l else None) = head (filter (fun x => P /\ Q x) l)) as Hf.
  { intros P ? f R ? l Hr. case_bool_decide as HP.
    - apply find_head. intros x. rewrite Hr. naive_solver.
    - symmetry. induction l as [|x l IH]; [done|]. rewrite filter_cons_False; [done|naive_solver]. }
  rewrite (Hf (m <> "") _ (fun x => id_eqb (um_condition_id x) m) (fun x => um_condition_id x = m) _) by (intros x; apply bool_decide_eq_true).
  rewrite (Hf (a <> "") _ (fun x => id_eqb (um_token_id_up x) a || id_eqb (um_token_id_down x) a)
             (fun x => um_token_id_up x = a \/ um_token_id_down x = a) _)
    by (intros x; rewrite orb_true_iff; unfold id_eqb; by rewrite !bool_decide_eq_true).
  by destruct (filter _ (es_markets snap)).
Qed.
Lemma label_shown snap m a : market_label snap m a = shown_label snap m a.
Proof.
  unfold market_label, shown_label. rewrite owner_found. destruct (owner snap m a) as [x|]; [|done].
  rewrite !nonempty_decide. unfold id_eqb. cbv zeta.
  assert (forall t : string, String.append t "" = t) as Happ
    by (induction t as [|c t IH]; [done|exact (f_equal (String.String c) IH)]).
  repeat (case_bool_decide || case_decide); try done; by rewrite Happ.
Qed.
Lemma display_shown snap m a sd p : display snap m a sd p = (shown_side snap m a sd, shown_price snap m a sd p).
Proof.
  unfold display, shown_side, shown_price, is_down_bid. rewrite owner_found. destruct (owner snap m a) as [x|]; [|done].
  destruct sd; [|done]. unfold id_eqb. simpl. by case_bool_decide.
Qed.

Lemma market_text_doc m : market_text m = print_json (market_doc m).
Proof. unfold market_text, market_doc. rewrite !book_field by reflexivity. members. Qed.
Lemma working_text_doc snap wo : working_text snap wo = print_json (working_doc snap wo).
Proof. unfold working_text, working_doc, append_market_label. cbv zeta. rewrite display_shown, label_shown, side_named, lifecycle_named. members. Qed.
Lemma closed_text_doc snap co : closed_text snap co = print_json (closed_doc snap co).
Proof. unfold closed_text, closed_doc, append_market_label. cbv zeta. rewrite display_shown, label_shown, side_named, lifecycle_named. members. Qed.
Lemma trade_text_doc snap tr : trade_text snap tr = print_json (trade_doc snap tr).
Proof. unfold trade_text, trade_doc, append_market_label. cbv zeta. rewrite display_shown, label_shown, side_named, trade_named. members. Qed.
Lemma position_text_doc pos : position_text pos = print_json (position_doc pos).
Proof. unfold position_text, position_doc. members. Qed.

Lemma rows_text {A} snap (rows : UiStateSnapshot -> list A) f g :
  (forall a, f a = print_json (g a)) -> txt "[" ++ state_rows snap rows f ++ txt "]" = print_json (rows_doc (es_state snap) rows g).
Proof.
  intros Hf. unfold state_rows, rows_doc. rewrite print_arr. destruct (es_state snap); [|reflexivity].
  rewrite <- list_fmap_compose. do 2 f_equal. f_equal. apply list_fmap_ext. intros _ a _. apply Hf.
Qed.
Lemma params_text state : state_params state = concat ((fun m => txt "," ++ print_field m) <$> params_doc state).
Proof.
  unfold state_params, params_doc. destruct state as [st|]; [|reflexivity]. cbv beta iota zeta. rewrite mode_named, session_named. cbn [fmap list_fmap concat]. rewrite app_nil_r. members.
Qed.
Lemma comma_concat x l : comma_list (x :: l) = x ++ concat ((fun y => txt "," ++ y) <$> l).
Proof.
  revert x. induction l as [|y l IH]; intros x; [by rewrite app_nil_r|]. rewrite comma_cons, IH. cbn [fmap list_fmap concat]. by rewrite <- app_assoc.
Qed.
Lemma state_text_doc snap : state_text snap = txt "," ++ print_field ("state"%string, state_doc snap).
Proof.
  unfold state_text, state_doc, print_field at 1. cbn [fst snd]. rewrite print_obj, fmap_app. cbn [fmap list_fmap app]. rewrite comma_concat.
  cbn [fmap list_fmap concat]. unfold print_field at 1 2 3 4. cbn [fst snd]. rewrite params_text.
  rewrite <- (rows_text snap us_working_orders (working_text snap) _ (working_text_doc snap)),
    <- (rows_text snap us_closed_orders (closed_text snap) _ (closed_text_doc snap)),
    <- (rows_text snap us_trades (trade_text snap) _ (trade_text_doc snap)),
    <- (rows_text snap us_positions position_text _ position_text_doc).
  rewrite <- list_fmap_compose. rewrite <- ?app_assoc. reflexivity.
Qed.
Lemma metrics_text_doc m : metrics_text m = txt "," ++ print_field ("metrics"%string, metrics_doc m).
Proof. unfold metrics_text, metrics_doc, print_field at 1. cbn [fst snd]. members. Qed.
Lemma gateway_text_doc g : gateway_text g = txt "," ++ print_field ("gateway"%string, gateway_doc g).
Proof. unfold gateway_text, gateway_doc, print_field at 1. cbn [fst snd]. members. Qed.
Lemma account_text_doc snap : account_text snap = txt "," ++ print_field ("account"%string, account_doc snap).
Proof. unfold account_text, account_doc, print_field at 1. cbn [fst snd]. members. Qed.
Lemma rotation_text_doc r : rotation_text r = txt "," ++ print_field ("rotation"%string, rotation_doc r).
Proof. unfold rotation_text, rotation_doc, print_field at 1. cbn [fst snd]. members. Qed.
Lemma latency_text_doc l : latency_text l = txt "," ++ print_field ("latency"%string, latency_doc l).
Proof. unfold latency_text, latency_doc, print_field at 1. cbn [fst snd]. members. Qed.

(** The texts of floating-point values fit their buffers. *)
Definition balance_fits (b : UiAccountBalance (D := D)) : bool :=
  forallb (fun t : text => (length t <=? 40)%nat)
    [fixed 2 (ab_position_value b); fixed 2 (micro_dollars (ab_usdc_balance b)); fixed 2 (micro_dollars (ab_realized_pnl b)); fixed 4 (ab_pol_balance b)].
Lemma balance_text_doc b : balance_fits b = true -> balance_text b = txt "," ++ print_field ("balance"%string, balance_doc b).
Proof.
  unfold balance_fits. cbn [forallb]. rewrite !andb_true_iff, !Nat.leb_le. intros (H1 & H2 & H3 & H4 & _).
  unfold balance_text, balance_doc, print_field at 1. cbn [fst snd].
  rewrite !bounded_all by (rewrite length_app; (change (length (js "'position_value':")) with 17%nat || change (length (js ",'usdc_balance':")) with 16%nat ||
    change (length (js ",'realized_pnl':")) with 16%nat || change (length (js ",'pol_balance':")) with 15%nat); lia).
  rewrite print_obj, fmap_app. cbn [fmap list_fmap app]. rewrite comma_concat. cbn [fmap list_fmap concat]. rewrite !key_bool_field by reflexivity.
  assert (forall k t, print_field (k, JDouble (str_of t)) = print_key k ++ txt ":" ++ t) as Hd
    by (intros; unfold print_field; cbn [fst snd print_json]; by rewrite txt_str_of).
  rewrite !Hd. destruct (nonempty (c_str (ab_error b))); cbn [fmap list_fmap app concat]; rewrite ?app_nil_r, <- ?app_assoc.
  - rewrite key_str_field by reflexivity. rewrite <- ?app_assoc. reflexivity.
  - reflexivity.
Qed.
End Texts.

(** ** The messages read back *)
Section Messages.
Context {D : Type} `{PrintfDouble D}.

Inductive UiMessage :=
  | MEngine (snap : EngineSnapshot (D := D))
  | MSeriesList (entries : list SeriesListEntry)
  | MBooks (tf : BtcTimeframe) (condition_id : string) (ladder : MergedLadder) (trades : list WatcherBookLevel) (tick_size : Z)
  | MStatus (tf : BtcTimeframe) (state : WatcherState).
Definition message_text (m : UiMessage) : text :=
  match m with
  | MEngine snap => serialize_engine_snapshot snap
  | MSeriesList entries => serialize_series_list entries
  | MBooks tf c ladder trades tick => serialize_watcher_books tf c ladder trades tick
  | MStatus tf state => serialize_watcher_status tf state
  end.
Definition message_doc (m : UiMessage) : Json :=
  match m with
  | MEngine snap => engine_doc snap
  | MSeriesList entries => series_list_doc entries
  | MBooks tf c ladder trades tick => watcher_books_doc tf c ladder trades tick
  | MStatus tf state => watcher_status_doc tf state
  end.
(** The numbers are 64-bit integers or well-formed literals that fit their buffer. *)
Definition message_ok (m : UiMessage) : bool :=
  numbers_ok (message_doc m) && match m with MEngine snap => balance_fits (es_account_balance snap) | _ => true end.

Lemma texts_doc {A} (f : A -> text) (g : A -> Json) l : (forall a, f a = print_json (g a)) -> comma_list (f <$> l) = comma_list (print_json <$> (g <$> l)).
Proof. intros Hf. rewrite <- list_fmap_compose. f_equal. apply list_fmap_ext. intros _ a _. apply Hf. Qed.
Lemma engine_text_doc (snap : EngineSnapshot (D := D)) : balance_fits (es_account_balance snap) = true ->
  serialize_engine_snapshot snap = print_json (engine_doc snap).
Proof.
  intros Hb. unfold serialize_engine_snapshot, engine_doc.
  rewrite state_text_doc, metrics_text_doc, gateway_text_doc, account_text_doc, rotation_text_doc, (balance_text_doc _ Hb), latency_text_doc.
  rewrite (texts_doc market_text market_doc _ market_text_doc). rewrite print_obj. cbn [fmap list_fmap comma_list].
  rewrite key_int_field, key_str_field by reflexivity. rewrite arr_field, <- ?app_assoc. reflexivity.
Qed.
Lemma series_text_doc e : series_text e = print_json (series_doc e).
Proof. unfold series_text, series_doc. rewrite timeframe_named, watcher_named. members. Qed.
Lemma ladder_text_doc l : txt "[" ++ ladder_text l ++ txt "]" = print_json (ladder_doc l).
Proof.
  unfold ladder_text, ladder_doc. rewrite print_arr.
  by rewrite (texts_doc (fun x => level_text (wl_price x) (wl_size x)) (fun x => level_doc (wl_price x) (wl_size x))) by (intros; apply level_text_doc).
Qed.
Lemma books_text_doc tf c ladder trades tick :
  serialize_watcher_books tf c ladder trades tick = print_json (watcher_books_doc tf c ladder trades tick).
Proof.
  unfold serialize_watcher_books, watcher_books_doc. rewrite timeframe_named, bounded_all.
  - rewrite print_obj. cbn [fmap list_fmap comma_list]. rewrite !key_str_field by reflexivity.
    assert (forall k l, print_field (k, ladder_doc l) = print_key k ++ txt ":" ++ txt "[" ++ ladder_text l ++ txt "]") as Hl
      by (intros; unfold print_field; cbn [fst snd]; by rewrite <- ladder_text_doc).
    rewrite !Hl, <- ?app_assoc. reflexivity.
  - rewrite length_app. change (length (js ",'tick_size':")) with 13%nat. pose proof (int_length tick). lia.
Qed.
Lemma message_text_doc m : message_ok m = true -> message_text m = print_json (message_doc m).
Proof.
  unfold message_ok. intros [_ Hb]%andb_true_iff. destruct m as [snap|entries|tf c ladder trades tick|tf st]; cbn [message_text message_doc].
  - by apply engine_text_doc.
  - unfold serialize_series_list, series_list_doc. rewrite (texts_doc series_text series_doc _ series_text_doc), print_obj. cbn [fmap list_fmap comma_list].
    rewrite key_str_field by reflexivity. rewrite arr_field, <- ?app_assoc. reflexivity.
  - apply books_text_doc.
  - unfold serialize_watcher_status, watcher_status_doc. rewrite timeframe_named, watcher_named. members.
Qed.

(** C34: every message for the user interface is a JSON document with exactly the
    fields and values it was built from, named by the protocol's own vocabulary: the
    expected document gives the words for sides, modes, states and statuses by
    tables, the label of a row by its owning market, and a bid for a DOWN token as an
    offer at 10000 minus its price.  Whatever strings occur in it (quotes, backslashes
    and control characters included), reading the text gives that document, and
    nothing was cut off by a buffer, as long as the integers have at most 20 digits (those of 64 bits do) and the
    floating-point values are printed as ordinary numbers of at most 40 characters. *)
Theorem ui_messages_roundtrip (m : UiMessage) (Hok : message_ok m = true) : read_json (message_text m) = Some (message_doc m).
Proof.
  rewrite message_text_doc by done. apply json_roundtrip. unfold message_ok in Hok. by apply andb_true_iff in Hok as [Hn _].
Qed.
End Messages.

(** ** Examples *)

(** Dollar amounts as whole micro-dollars. *)
Definition printf_micro : PrintfDouble Z := {|
  fixed := fun k z => (if z <? 0 then txt "-" else []) ++ to_string (Z.abs z / 10 ^ 6) ++ txt "." ++ pad_digits k (Z.abs z mod 10 ^ 6 / 10 ^ (6 - Z.of_nat k));
  micro_dollars := id; double_zero := 0 |}.

Definition sample_order : UiWorkingOrder :=
  mkUiWorkingOrder "c1" "0xab" "tok_down" "cond" BID 4800 25000000 0 true false UiOrderLifecycleState.WORKING 77.
Definition sample_state : UiStateSnapshot :=
  mkUiStateSnapshot [sample_order] [] [mkUiTrade "t1" "0xab" "tok_up" "cond" ASK 5300 10000000 TradeStatus.MATCHED 78]
    true 2 25000000 ExecutionMode.LIVE SessionState.ACTIVE 0 1 10 9 1 [("tok_up"%string, 5000000)] 79.
Definition sample_market : UiMarketSnapshot :=
  mkUiMarketSnapshot "cond" "tok_up" "tok_down" "BTC 5M" (Some (mkUiBookUpdate "tok_up" (mkBBO 5200 5300 100 200) [(5200, 100)] [(5300, 200); (5400, 1)] 76))
    None 5000000 0.
(** An account name with a quotation mark, a backslash and a line break. *)
Definition sample_name : string := str_of (txt "my " ++ [dquote; backslash; "010"%char]).
Definition sample_engine : EngineSnapshot (D := Z) :=
  mkEngineSnapshot 80 [sample_market] (Some sample_state) (mkUiMetricsSnapshot 1 2 3 4 5 6 7 8 9) (mkUiGatewayHealth false 12 0)
    sample_name "0x0" (mkUiRotationInfo "cond" 300 600 1 false) (mkUiAccountBalance 12345678 (-2500000) 0 1000000 true "")
    (mkUiLatencySnapshot 1 2 3 4 5 6 7 8 9 10 11 12 13 14 15 16 17 2).

Lemma ui_messages_roundtrip_witness :
  read_json (message_text (H := printf_micro) (MEngine sample_engine)) = Some (engine_doc (H := printf_micro) sample_engine) /\
  (doc ← read_json (message_text (H := printf_micro) (MEngine sample_engine));
   match get_array (field "working_orders" (or_default JNull (field "state" doc))) with
   | inl [wo] => Some (get_string (field "side" wo), get_int64 (field "price" wo), get_string (field "market_label" wo))
   | _ => None
   end) = Some (inl "ASK"%string, inl 5200, inl "BTC 5M DOWN"%string) /\
  (doc ← read_json (message_text (H := printf_micro) (MEngine sample_engine));
   Some (get_string (field "name" (or_default JNull (field "account" doc))))) = Some (inl sample_name).
Proof.
  split; [apply (ui_messages_roundtrip (H := printf_micro) (MEngine sample_engine)); vm_compute; reflexivity|].
  split; vm_compute; reflexivity.
Defined.
