(* ===== verification/IpcBridge.v ===== *)
(** The bridge to the user interface: [src/ui_bridge/ipc_bridge.cpp].

    The bridge is one thread with an event loop: every handler of the code is a
    function on [Bridge], and a step of the loop ([step]) completes one of the
    outstanding asynchronous operations ([Pending]) or runs a function posted by
    another thread.  A run is a list of inputs, so that a theorem about all lists is
    one about every order of completions.  The library's part is documented
    behaviour: an operation on a stream completes with success only while that
    stream is the current one, and with an error once the stream was destroyed;
    closing the acceptor and cancelling a timer complete their operations with an
    error.  Streams are numbered.  What is handed to [async_write] is recorded, as
    are the messages passed to [send_message] while a client is connected.

    Other threads' data is in [Env]: clock, balances, latency samples, and what the
    consumer of the control queue does between two attempts to push.  Log messages are
    left out; [WatcherService] appears through the subscriptions it is given.

    Shown: a stream never has two reads, two writes or two handshakes outstanding;
    messages reach a connected client in order; a valid command is queued or counted
    as dropped; a connected series follows its market, a connecting one does not; the
    detected tick is the largest standard one that divides the prices; and, by
    concrete runs, what goes wrong when a client is replaced or disconnects. *)
From Stdlib Require Import Ascii.
From S2P Require Import Prelude Types Price OrderBook Events Json SpscQueue MessageRoundtrip Crypto OrderBuilder JsonText Metrics.
From S2P Require Import MarketStateStore Slots UiCommands Watcher UiMirror UiSnapshot SchedulerLoop UiSerializer.

(** ** Tick detection *)
(** The loop of Euclid's algorithm. *)
Fixpoint gcd_loop (fuel : nat) (a b : Z) : Z :=
  match fuel with
  | O => a
  | S fuel => if b =? 0 then a else gcd_loop fuel b (Z.rem a b)
  end.
Definition price_gcd (a b : Z) : Z := gcd_loop (S (Z.to_nat b)) a b.
Definition detect_tick_from_prices (prices : list Z) : Z :=
  if (length prices <? 2)%nat then 100 else
  let g := foldl (fun g p => if p >? 0 then if g =? 0 then p else price_gcd g p else g) 0 prices in
  if (g >=? 1000) && (Z.rem g 1000 =? 0) then 1000 else
  if (g >=? 500) && (Z.rem g 500 =? 0) then 500 else 100.

(** ** Configuration *)
Record MarketPairConfig := mkMarketPairConfig { mp_condition_id : string; mp_token_id_up : string; mp_token_id_down : string }.
Record IpcBridgeConfig := mkIpcBridgeConfig {
  ws_port : Z; snapshot_rate_hz : Z; book_depth : Z; watcher_enabled : bool; watcher_discovery_poll_ms : Z; watcher_status_poll_ms : Z;
  watcher_stale_threshold_ms : Z; ladder_update_interval_ms : Z; ladder_max_depth : Z; account_poll_interval_ms : Z;
  polygon_rpc_url : string; balance_poll_interval_ms : Z; eoa_address : string; auth_token : string; bind_address : string }.
Definition IpcBridgeConfig_default : IpcBridgeConfig :=
  mkIpcBridgeConfig 9090 20 10 false 30000 10000 15000 100 200 15000 "" 1000 "" "" "0.0.0.0".

Module LatencyTrackerId.
Inductive LatencyTrackerId := ORDER_RTT | CANCEL_RTT | FULL_PIPELINE | ENGINE_SPEED | WS_TO_PROCESS | EXCHANGE_TO_RECV | BINANCE_MD_EXCH_TO_RECV.
End LatencyTrackerId.
Abbreviation LatencyTrackerId := LatencyTrackerId.LatencyTrackerId.

(** ** The session with the client *)
(** Outstanding operations; those on a stream carry its number. *)
Inductive Pending :=
  | PAccept                 (* acceptor_.async_accept *)
  | PUpgrade (sid : nat)    (* reading the upgrade request *)
  | PWsAccept (sid : nat)   (* ws_->async_accept of a client that is let in *)
  | PReject (sid : nat)     (* ws_->async_accept of a client to be turned away *)
  | PRejectClose (sid : nat)
  | PRead (sid : nat)
  | PWrite (sid : nat)
  | PSnapshotTimer
  | PWatcherTimer.
#[export] Instance Pending_eq_dec : EqDecision Pending.
Proof. solve_decision. Defined.
Inductive Result := ROk | RErr | RTarget (target : string) | RData (json : string).
#[export] Instance Result_eq_dec : EqDecision Result.
Proof. solve_decision. Defined.

Record Session := mkSession {
  ws_ : option nat;
  connected_ : bool;
  write_in_progress_ : bool;
  snapshot_pending_ : bool;
  pending_snapshot_buf_ : option text;
  write_queue_ : list text;
  next_stream : nat;
  outstanding : list Pending;
  writes : list (nat * bool * text);   (* stream, message rather than snapshot, text *)
  offered : list text;
  closes : list (nat * list Pending) }.   (* synchronous closes: stream, its operations outstanding then *)
Definition Session_new : Session := mkSession None false false false None [] 0 [] [] [] [].
Implicit Types (s : Session).

Definition launch (op : Pending) s : Session := s <| outstanding ::= fun p => p ++ [op] |>.
Definition start_accept s : Session := launch PAccept s.
Definition start_read s : Session :=
  match ws_ s with Some sid => if connected_ s then launch (PRead sid) s else s | None => s end.
Definition async_write (sid : nat) (message : bool) (buf : text) s : Session :=
  launch (PWrite sid) (s <| write_in_progress_ := true |> <| writes ::= fun w => w ++ [(sid, message, buf)] |>).

Definition send_snapshot (json : text) s : Session :=
  match ws_ s with
  | Some sid =>
      if negb (connected_ s) then s else
      if write_in_progress_ s then s <| snapshot_pending_ := true |> <| pending_snapshot_buf_ := Some json |>
      else async_write sid false json s
  | None => s
  end.
Definition kMaxWriteQueue : nat := 1024.
(** The second component: the oldest message was dropped. *)
Definition send_message_session (json : text) s : Session * bool :=
  match ws_ s with
  | Some sid =>
      if negb (connected_ s) then (s, false) else
      let s := s <| offered ::= fun l => l ++ [json] |> in
      if write_in_progress_ s then
        let full := (kMaxWriteQueue <=? length (write_queue_ s))%nat in
        (s <| write_queue_ := (if full then tail (write_queue_ s) else write_queue_ s) ++ [json] |>, full)
      else (async_write sid true json s, false)
  | None => (s, false)
  end.
(** The stream an operation is on. *)
Definition stream_of (op : Pending) : option nat :=
  match op with PUpgrade sid | PWsAccept sid | PReject sid | PRejectClose sid | PRead sid | PWrite sid => Some sid | _ => None end.
(** [ws_->close]: writes a close frame and reads until the peer's, at once, whatever
    asynchronous operations of the stream are outstanding; these complete with an
    error later. *)
Definition ws_close s : Session :=
  match ws_ s with
  | Some sid => s <| closes ::= fun l => l ++ [(sid, filter (fun op => stream_of op = Some sid) (outstanding s))] |> <| ws_ := None |>
  | None => s
  end.
(** The second component: a client was connected. *)
Definition close_session_session s : Session * bool :=
  (ws_close (s <| connected_ := false |> <| write_in_progress_ := false |> <| snapshot_pending_ := false |>
               <| pending_snapshot_buf_ := None |>), connected_ s).
Definition next_write s : Session :=
  match ws_ s with
  | Some sid =>
      if negb (connected_ s) then s <| snapshot_pending_ := false |> else
      match write_queue_ s with
      | next_buf :: rest => async_write sid true next_buf (s <| write_queue_ := rest |>)
      | [] =>
          match pending_snapshot_buf_ s with
          | Some buf =>
              if snapshot_pending_ s
              then async_write sid false buf (s <| snapshot_pending_ := false |> <| pending_snapshot_buf_ := None |>)
              else s <| snapshot_pending_ := false |>
          | None => s <| snapshot_pending_ := false |>
          end
      end
  | None => s <| snapshot_pending_ := false |>
  end.
(** [token] of the query string. *)
Definition auth_ok (expected target : string) : bool :=
  match String.index 0 "token=" target with
  | None => false
  | Some qpos =>
      let token_start := (qpos + 6)%nat in
      let token := match String.index token_start "&" target with
                   | Some token_end => String.substring token_start (token_end - token_start) target
                   | None => String.substring token_start (String.length target - token_start) target
                   end in
      id_eqb token expected
  end.
(** A new stream takes the place of the old one. *)
Definition new_stream s : Session := s <| ws_ := Some (next_stream s) |> <| next_stream ::= S |>.
Definition drop_stream s : Session := start_accept (s <| ws_ := None |>).
Definition contains (sub str : string) : bool := match String.index 0 sub str with Some _ => true | None => false end.

(** ** The bridge *)
Section Bridge.
Context {D : Type} `{PrintfDouble D} {Q : Type -> Type} `{RingQueue Q} `{LevelSort} `{JsonParser}.

Record AccountPollResult := mkAccountPollResult {
  ar_position_value : D; ar_value_ok : bool; ar_pol_balance : D; ar_pol_ok : bool; ar_balance_ok : bool; ar_error : string }.

Record Bridge := mkBridge {
  br_config : IpcBridgeConfig;
  market_pair_configs_ : option (list MarketPairConfig);
  book_queue_ : SpscQueue Q UiBookUpdate;
  state_queue_ : SpscQueue Q UiStateSnapshot;
  br_control_queue_ : SpscQueue Q SchedulerEvent;
  metrics_ : Counters.Metrics;
  fatal_flag_ : bool;
  br_stop_requested_ : bool;
  ioc_stopped : bool;
  session : Session;
  latest_books_ : gmap AssetId UiBookUpdate;
  latest_state_ : option UiStateSnapshot;   (* [None]: not [has_state_] *)
  watch_manager_ : WatchManager.WatchManager;
  series_registry_ : Registry;
  watcher_books_ : WatcherBookStore;
  watcher_service_ : option (list (list string));   (* the subscriptions requested, in order *)
  watcher_pending_trades_ : ByTf (list WatcherBookLevel);
  watcher_tick_size_ : ByTf Z;
  account_name_ : string;
  account_address_ : string;
  rotation_info_ : UiRotationInfo;
  position_value_ : D;
  pol_balance_ : D;
  has_account_data_ : bool;
  account_poll_error_ : string }.
Implicit Types (b : Bridge).

Record Env := mkEnv {
  env_now : Z;
  env_usdc_balance : option Z;
  env_realized_pnl : option Z;
  env_tracker : LatencyTrackerId -> LatencyTracker.LatencyTracker;
  env_probe : Z * Z * Z * Z;
  (* per attempt to push: the stop flag, and how many elements the consumer took before *)
  env_attempt : nat -> bool * nat }.
Implicit Types (env : Env).

Definition inc_metric (id : MetricId) b : Bridge := b <| metrics_ ::= Counters.inc id |>.
Definition on_session (f : Session -> Session) b : Bridge := b <| session ::= f |>.

Definition send_message (json : text) b : Bridge :=
  let '(s, dropped) := send_message_session json (session b) in
  let b := b <| session := s |> in
  if dropped then inc_metric MetricId.UI_SNAPSHOTS_DROPPED b else b.
Definition close_session b : Bridge :=
  let '(s, was) := close_session_session (session b) in
  let b := b <| session := s |> in
  if was then inc_metric MetricId.UI_WS_DISCONNECTED b else b.

(** *** Accepting *)
Definition on_accept (ok : bool) b : Bridge :=
  if negb ok then (if br_stop_requested_ b then b else on_session start_accept b) else
  let b := if connected_ (session b) then close_session b else b in
  let sid := next_stream (session b) in
  let b := on_session new_stream b in
  if nonempty (auth_token (br_config b)) then on_session (launch (PUpgrade sid)) b else on_session (launch (PWsAccept sid)) b.
Definition on_upgrade (target : option string) (sid : nat) b : Bridge :=
  match target with
  | None => on_session drop_stream b
  | Some target =>
      if auth_ok (auth_token (br_config b)) target then on_session (launch (PWsAccept sid)) b
      else on_session (launch (PReject sid)) b
  end.
Definition on_ws_accept (ok : bool) b : Bridge :=
  if negb ok then on_session drop_stream b else
  on_session start_read (inc_metric MetricId.UI_WS_CONNECTED
    (on_session (fun s => s <| connected_ := true |> <| write_in_progress_ := false |>) b)).
Definition on_reject b : Bridge :=
  match ws_ (session b) with Some sid => on_session (launch (PRejectClose sid)) b | None => b end.
Definition on_reject_close b : Bridge := on_session drop_stream b.

(** *** The watcher *)
Definition refresh_watcher_subscriptions b : Bridge :=
  match watcher_service_ b with
  | None => b
  | Some calls => b <| watcher_service_ := Some (calls ++ [WatchManager.active_asset_ids (series_registry_ b) (watch_manager_ b)]) |>
  end.
Definition fsm_state tf b : WatcherState := WatchManager.fsm (at_tf tf (watch_manager_ b)).
Definition drive_fsm tf (i : SeriesRollingFsm.Input) b : Bridge :=
  b <| watch_manager_ ::= WatchManager.on_entry tf (WatchManager.drive i) |>.
Definition send_watcher_status tf b : Bridge := send_message (serialize_watcher_status tf (fsm_state tf b)) b.
Definition send_series_list b : Bridge :=
  let entry tf := mkSeriesListEntry tf
    (match BtcSeriesRegistry.current tf (series_registry_ b) with Some info => sm_condition_id info | None => ""%string end)
    (fsm_state tf b) (BtcSeriesRegistry.has_next tf (series_registry_ b)) in
  send_message (serialize_series_list (entry <$> kTimeframes)) b.
Definition handle_watch_command (cmd : WatchCommand) b : Bridge :=
  let tf := wc_timeframe cmd in
  match wc_type cmd with
  | WatchCommandType.SUBSCRIBE =>
      send_watcher_status tf (refresh_watcher_subscriptions (b <| watch_manager_ ::= fun m => (WatchManager.subscribe tf m).1 |>))
  | WatchCommandType.UNSUBSCRIBE =>
      send_watcher_status tf (refresh_watcher_subscriptions (b <| watch_manager_ ::= fun m => (WatchManager.unsubscribe tf m).1 |>))
  | WatchCommandType.REQUEST_LIST => send_series_list b
  end.

Definition send_watcher_snapshot b tf : Bridge :=
  match BtcSeriesRegistry.current tf (series_registry_ b) with
  | None => b
  | Some info =>
      if sm_empty info then b else
      let ladder := build_merged_ladder (sm_token_id_up info) (sm_token_id_down info) (ladder_max_depth (br_config b)) (watcher_books_ b) in
      let json := serialize_watcher_books tf (sm_condition_id info) ladder (at_tf tf (watcher_pending_trades_ b)) (at_tf tf (watcher_tick_size_ b)) in
      (send_message json b) <| watcher_pending_trades_ ::= set_tf tf [] |>
  end.
Definition send_watcher_snapshots b : Bridge :=
  if negb (connected_ (session b)) then b else
  foldl send_watcher_snapshot b (WatchManager.subscribed_timeframes (watch_manager_ b)).
Definition start_watcher_timer b : Bridge := on_session (launch PWatcherTimer) b.
Definition on_watcher_tick env (ok : bool) b : Bridge :=
  if negb ok || br_stop_requested_ b then b else
  let stale_ns := watcher_stale_threshold_ms (br_config b) * 1000000 in
  let b := b <| watch_manager_ ::= WatchManager.tick (env_now env) stale_ns |> in
  start_watcher_timer (send_watcher_snapshots b).

(** The series a token belongs to. *)
Definition series_of (token_id : string) b : option BtcTimeframe :=
  List.find (fun tf => match BtcSeriesRegistry.current tf (series_registry_ b) with
                       | Some info => id_eqb token_id (sm_token_id_up info) || id_eqb token_id (sm_token_id_down info)
                       | None => false
                       end) kTimeframes.
Definition kMaxWatcherBookDepth : nat := 1024.
Definition to_level (l : PriceLevel) : WatcherBookLevel := mkLevel (pl_price l) (pl_size l).
Definition on_book_snapshot_watch env (p : BookSnapshot) b : Bridge :=
  let token_id := snap_asset_id p in
  let bids := to_level <$> take kMaxWatcherBookDepth (snap_bids p) in
  let asks := to_level <$> take kMaxWatcherBookDepth (snap_asks p) in
  let b := b <| watcher_books_ ::= watcher_apply_snapshot token_id bids asks |> in
  let detected := detect_tick_from_prices ((wl_price <$> bids) ++ (wl_price <$> asks)) in
  match series_of token_id b with
  | None => b
  | Some tf =>
      let b := b <| watcher_tick_size_ ::= set_tf tf detected |> in
      let b := b <| watch_manager_ ::= WatchManager.on_book_data_received tf (env_now env) |> in
      if bool_decide (fsm_state tf b = WatcherState.CONNECTING)
      then send_watcher_status tf (drive_fsm tf SeriesRollingFsm.WsConnected b) else b
  end.
Definition on_asset_change_watch env b (ac : AssetPriceChange) : Bridge :=
  let token_id := apc_asset_id ac in
  let b := foldl (fun b c => b <| watcher_books_ ::= watcher_apply_price_change token_id (pc_price c) (pc_size c) (side_eqb (pc_side c) BID) |>)
             b (apc_changes ac) in
  match series_of token_id b with
  | Some tf => b <| watch_manager_ ::= WatchManager.on_book_data_received tf (env_now env) |>
  | None => b
  end.
Definition on_trade_watch (p : LastTradePriceEvent) b : Bridge :=
  match series_of (ltp_asset_id p) b with
  | None => b
  | Some tf =>
      let is_up := match BtcSeriesRegistry.current tf (series_registry_ b) with
                   | Some info => id_eqb (ltp_asset_id p) (sm_token_id_up info) | None => false end in
      let price := if is_up then ltp_price p else kPriceMax - ltp_price p in
      b <| watcher_pending_trades_ ::= set_tf tf (at_tf tf (watcher_pending_trades_ b) ++ [mkLevel price (ltp_size p)]) |>
  end.
Definition on_watcher_book_data env (event : MarketEvent) b : Bridge :=
  match me_payload event with
  | EvBookSnapshot p => on_book_snapshot_watch env p b
  | EvPriceChange p => foldl (on_asset_change_watch env) b (pce_asset_changes p)
  | EvLastTradePrice p => on_trade_watch p b
  | EvTickSizeChange p =>
      match series_of (tsc_asset_id p) b with
      | Some tf => b <| watcher_tick_size_ ::= set_tf tf (tsc_new_tick_size p) |>
      | None => b
      end
  | _ => b
  end.

Definition execute_rollover tf b : Bridge :=
  let '(old_up, old_down) := match BtcSeriesRegistry.current tf (series_registry_ b) with
                             | Some info => (sm_token_id_up info, sm_token_id_down info)
                             | None => (""%string, ""%string)
                             end in
  let b := b <| series_registry_ ::= BtcSeriesRegistry.promote_next tf |> in
  let b := if nonempty old_up then b <| watcher_books_ ::= clear_book old_up |> else b in
  let b := if nonempty old_down then b <| watcher_books_ ::= clear_book old_down |> else b in
  let b := b <| watcher_pending_trades_ ::= set_tf tf [] |> <| watcher_tick_size_ ::= set_tf tf 100 |> in
  let b := b <| watch_manager_ ::= WatchManager.on_book_data_received tf 0 |> in
  let b := refresh_watcher_subscriptions b in
  let b := drive_fsm tf SeriesRollingFsm.SwitchComplete b in
  send_watcher_status tf b.

Definition usable (next : option SeriesMarketInfo) : bool :=
  match next with Some n => negb (sm_is_closed n) && negb (sm_empty n) | None => false end.
(** The state machine is watched, not rolling and not waiting for the next market. *)
Definition following tf b : bool :=
  let st := fsm_state tf b in
  SeriesRollingFsm.is_active st && negb (SeriesRollingFsm.is_rolling st) && negb (SeriesRollingFsm.is_waiting_for_next st).
Definition roll_or_report tf b : Bridge :=
  if SeriesRollingFsm.is_rolling (fsm_state tf b) then execute_rollover tf b else send_watcher_status tf b.
Definition update_registry tf (current : SeriesMarketInfo) (next : option SeriesMarketInfo) b : Bridge :=
  b <| series_registry_ ::= BtcSeriesRegistry.update_from_discovery tf current next |>.
Definition on_discovery_result tf (current : SeriesMarketInfo) (next : option SeriesMarketInfo) b : Bridge :=
  if sm_is_closed current && following tf b then
    let b := update_registry tf current next b in
    roll_or_report tf (drive_fsm tf (SeriesRollingFsm.MarketClosed (usable next)) b)
  else
    let changed := match BtcSeriesRegistry.current tf (series_registry_ b) with
                   | Some reg_current =>
                       if negb (sm_is_closed current) && negb (sm_empty current) && negb (sm_empty reg_current) && following tf b &&
                          negb (id_eqb (sm_condition_id current) (sm_condition_id reg_current)) then Some reg_current else None
                   | None => None
                   end in
    match changed with
    | Some reg_current =>
        let b := update_registry tf reg_current (Some current) b in
        let b := drive_fsm tf (SeriesRollingFsm.MarketClosed true) b in
        let b := if SeriesRollingFsm.is_rolling (fsm_state tf b) then execute_rollover tf b else b in
        if usable next then
          match BtcSeriesRegistry.current tf (series_registry_ b) with
          | Some new_current => update_registry tf new_current next b
          | None => b
          end
        else b
    | None =>
        let b := update_registry tf current next b in
        if SeriesRollingFsm.is_waiting_for_next (fsm_state tf b) && BtcSeriesRegistry.has_next tf (series_registry_ b)
        then roll_or_report tf (drive_fsm tf SeriesRollingFsm.NextDiscovered b)
        else refresh_watcher_subscriptions b
    end.

(** *** Commands *)
Definition consume (n : nat) (q : SpscQueue Q SchedulerEvent) : SpscQueue Q SchedulerEvent :=
  Nat.iter n (fun q => match front q with Some _ => pop q | None => q end) q.
(** At most [n] attempts; between them the consumer may make room. *)
Fixpoint push_retry env (n i : nat) (ev : SchedulerEvent) (q : SpscQueue Q SchedulerEvent) : SpscQueue Q SchedulerEvent * bool :=
  match n with
  | O => (q, false)
  | S n =>
      let '(stop, taken) := env_attempt env i in
      if stop then (q, false) else
      let '(q, pushed) := try_push ev (consume taken q) in
      if pushed then (q, true) else push_retry env n (S i) ev q
  end.
Definition kMaxPushRetries : nat := 8.
(** A string literal of the text, with its quotes. *)
Definition literal (s : string) : string := str_of (quoted (txt s)).

Definition on_read env (json : option string) b : Bridge :=
  match json with
  | None => on_session start_accept (close_session b)
  | Some json =>
      if contains (literal "shutdown") json && contains (literal "cmd") json then on_session start_read (b <| fatal_flag_ := true |>) else
      if is_watch_command json then
        let b := match parse_watch_command json with
                 | Some wcmd => handle_watch_command wcmd b
                 | None => inc_metric MetricId.UI_COMMANDS_INVALID b
                 end in
        on_session start_read b
      else
        let b := match parse_ui_command json with
                 | Some ev =>
                     let b := inc_metric MetricId.UI_COMMANDS_RECEIVED b in
                     let '(q, pushed) := push_retry env kMaxPushRetries 0 ev (br_control_queue_ b) in
                     let b := b <| br_control_queue_ := q |> in
                     if pushed then b else inc_metric MetricId.UI_COMMANDS_DROPPED b
                 | None => inc_metric MetricId.UI_COMMANDS_INVALID b
                 end in
        on_session start_read b
  end.
Definition on_write (ok : bool) b : Bridge :=
  let b := on_session (fun s => s <| write_in_progress_ := false |>) b in
  if negb ok then
    on_session start_accept (close_session
      (on_session (fun s => s <| write_queue_ := [] |> <| snapshot_pending_ := false |> <| pending_snapshot_buf_ := None |>) b))
  else on_session next_write (inc_metric MetricId.UI_SNAPSHOTS_SENT b).

(** *** Snapshots *)
(** The queues are drained until they are empty. *)
Definition drain_queues b : Bridge :=
  let books := foldl (fun m u => <[ub_asset_id u := u]> m) (latest_books_ b) (contents (book_queue_ b)) in
  let state := match last (contents (state_queue_ b)) with Some st => Some st | None => latest_state_ b end in
  b <| latest_books_ := books |> <| latest_state_ := state |>
    <| book_queue_ ::= Nat.iter (length (contents (book_queue_ b))) pop |>
    <| state_queue_ ::= Nat.iter (length (contents (state_queue_ b))) pop |>.

Record MarketSeed := mkMarketSeed { sd_condition_id : AssetId; sd_token_id_up : AssetId; sd_token_id_down : AssetId; sd_series_label : string }.
Definition timeframe_label (tf : BtcTimeframe) : string := match tf with BTC_5M => "BTC 5M" | BTC_15M => "BTC 15M" end.
Fixpoint label_seed (condition_id : AssetId) (label : string) (seeds : list MarketSeed) : option (list MarketSeed) :=
  match seeds with
  | [] => None
  | seed :: seeds =>
      if id_eqb (sd_condition_id seed) condition_id
      then Some ((if negb (nonempty (sd_series_label seed)) && nonempty label then seed <| sd_series_label := label |> else seed) :: seeds)
      else (cons seed) <$> label_seed condition_id label seeds
  end.
Definition add_seed (condition_id up down : AssetId) (label : string) (seeds : list MarketSeed) : list MarketSeed :=
  if negb (nonempty condition_id) || negb (nonempty up) || negb (nonempty down) then seeds else
  match label_seed condition_id label seeds with
  | Some seeds => seeds
  | None => seeds ++ [mkMarketSeed condition_id up down label]
  end.
Definition config_seed (seeds : list MarketSeed) (c : MarketPairConfig) : list MarketSeed :=
  add_seed (mk_AssetId (mp_condition_id c)) (mk_AssetId (mp_token_id_up c)) (mk_AssetId (mp_token_id_down c)) "" seeds.
Definition series_seed (r : Registry) (seeds : list MarketSeed) tf : list MarketSeed :=
  match BtcSeriesRegistry.current tf r with
  | Some cur => if sm_empty cur then seeds
                else add_seed (mk_AssetId (sm_condition_id cur)) (mk_AssetId (sm_token_id_up cur)) (mk_AssetId (sm_token_id_down cur)) (timeframe_label tf) seeds
  | None => seeds
  end.
Definition market_seeds b : list MarketSeed :=
  foldl (series_seed (series_registry_ b)) (foldl config_seed [] (default [] (market_pair_configs_ b))) kTimeframes.
Definition seed_market b (seed : MarketSeed) : UiMarketSnapshot :=
  let '(pos_up, pos_down) :=
    foldl (fun '(u, d) '(tok, p) => if id_eqb tok (sd_token_id_up seed) then (p, d) else if id_eqb tok (sd_token_id_down seed) then (u, p) else (u, d))
      (0, 0) (match latest_state_ b with Some st => us_positions st | None => [] end) in
  mkUiMarketSnapshot (sd_condition_id seed) (sd_token_id_up seed) (sd_token_id_down seed) (sd_series_label seed)
    (latest_books_ b !! sd_token_id_up seed) None pos_up pos_down.

Definition latency_of env : UiLatencySnapshot :=
  let fill id := let '(n, buf) := LatencyTracker.snapshot LatencyTracker.kLatencyRingSize (env_tracker env id) in LatencyTracker.compute_percentiles n buf in
  let avg id := LatencyTracker.avg_ns (fill id) in
  let p95 id := LatencyTracker.p95_ns (fill id) in
  let '(order_rtt, cancel_rtt, roundtrip, status) := env_probe env in
  mkUiLatencySnapshot (avg LatencyTrackerId.ORDER_RTT) (p95 LatencyTrackerId.ORDER_RTT) (avg LatencyTrackerId.CANCEL_RTT)
    (p95 LatencyTrackerId.CANCEL_RTT) (avg LatencyTrackerId.ENGINE_SPEED) (p95 LatencyTrackerId.ENGINE_SPEED)
    (avg LatencyTrackerId.FULL_PIPELINE) (p95 LatencyTrackerId.FULL_PIPELINE) (avg LatencyTrackerId.WS_TO_PROCESS)
    (p95 LatencyTrackerId.WS_TO_PROCESS) (avg LatencyTrackerId.EXCHANGE_TO_RECV) (p95 LatencyTrackerId.EXCHANGE_TO_RECV)
    (avg LatencyTrackerId.BINANCE_MD_EXCH_TO_RECV) (p95 LatencyTrackerId.BINANCE_MD_EXCH_TO_RECV) order_rtt cancel_rtt roundtrip status.
Definition metrics_of (m : Counters.Metrics) : UiMetricsSnapshot :=
  let get id := Counters.get id m in
  mkUiMetricsSnapshot (get MetricId.WS_FRAMES_RECEIVED) (get MetricId.PARSE_OK) (get MetricId.SCHED_CYCLES) (get MetricId.SCHED_EVENTS)
    (get MetricId.EXEC_REST_REQUESTS_ORDER + get MetricId.EXEC_REST_REQUESTS_CANCEL) (get MetricId.EXEC_REST_ERRORS)
    (get MetricId.UI_SNAPSHOTS_DROPPED) (get MetricId.UI_BOOK_DROPS) (get MetricId.UI_STATE_DROPS).
Definition gateway_of (m : Counters.Metrics) : UiGatewayHealth :=
  mkUiGatewayHealth (Counters.get MetricId.EXEC_GATEWAY_DEGRADED_COUNT m >? 0) (Counters.get MetricId.EXEC_HEARTBEAT_OK m)
    (Counters.get MetricId.EXEC_HEARTBEAT_FAIL m).
Definition balance_of env b : UiAccountBalance (D := D) :=
  mkUiAccountBalance (if has_account_data_ b then position_value_ b else double_zero) (default 0 (env_usdc_balance env))
    (default 0 (env_realized_pnl env)) (pol_balance_ b) (has_account_data_ b) (account_poll_error_ b).
Definition assemble env b : EngineSnapshot (D := D) :=
  mkEngineSnapshot (env_now env) (seed_market b <$> market_seeds b) (latest_state_ b) (metrics_of (metrics_ b)) (gateway_of (metrics_ b))
    (account_name_ b) (account_address_ b) (rotation_info_ b) (balance_of env b) (latency_of env).
Definition assemble_and_send env b : Bridge :=
  if negb (connected_ (session b)) || write_in_progress_ (session b) then
    if connected_ (session b)
    then inc_metric MetricId.UI_SNAPSHOTS_DROPPED (on_session (fun s => s <| snapshot_pending_ := true |>) b) else b
  else
    let b := on_session (fun s => s <| snapshot_pending_ := false |>) b in
    on_session (send_snapshot (serialize_engine_snapshot (assemble env b))) b.
Definition snapshot_interval_ms (c : IpcBridgeConfig) : Z := let i := 1000 ÷ snapshot_rate_hz c in if i <? 1 then 1 else i.
Definition start_snapshot_timer b : Bridge := on_session (launch PSnapshotTimer) b.
Definition on_snapshot_tick env (ok : bool) b : Bridge :=
  if negb ok || br_stop_requested_ b then b else start_snapshot_timer (assemble_and_send env (drain_queues b)).

(** *** The event loop *)
(** Functions posted by other threads. *)
Inductive Posted :=
  | PostBookData (event : MarketEvent)
  | PostDiscovery (tf : BtcTimeframe) (current : SeriesMarketInfo) (next : option SeriesMarketInfo)
  | PostRotation (info : UiRotationInfo)
  | PostAccount (result : AccountPollResult)
  | PostShutdown.
Definition on_account_result (r : AccountPollResult) b : Bridge :=
  let b := if ar_value_ok r then b <| position_value_ := ar_position_value r |> else b in
  let b := if ar_pol_ok r then b <| pol_balance_ := ar_pol_balance r |> else b in
  b <| has_account_data_ := ar_value_ok r || ar_balance_ok r |> <| account_poll_error_ := ar_error r |>.
Definition run_posted env (p : Posted) b : Bridge :=
  match p with
  | PostBookData event => on_watcher_book_data env event b
  | PostDiscovery tf current next => on_discovery_result tf current next b
  | PostRotation info => b <| rotation_info_ := info |>
  | PostAccount result => on_account_result result b
  | PostShutdown => (close_session b) <| ioc_stopped := true |>
  end.

Definition may_succeed (op : Pending) s : bool := match stream_of op with Some sid => bool_decide (ws_ s = Some sid) | None => true end.
Definition complete env (op : Pending) (r : Result) b : Bridge :=
  match op, r with
  | PAccept, ROk => on_accept true b
  | PAccept, RErr => on_accept false b
  | PUpgrade sid, RTarget target => on_upgrade (Some target) sid b
  | PUpgrade sid, RErr => on_upgrade None sid b
  | PWsAccept _, ROk => on_ws_accept true b
  | PWsAccept _, RErr => on_ws_accept false b
  | PReject _, (ROk | RErr) => on_reject b
  | PRejectClose _, (ROk | RErr) => on_reject_close b
  | PRead _, RData json => on_read env (Some json) b
  | PRead _, RErr => on_read env None b
  | PWrite _, ROk => on_write true b
  | PWrite _, RErr => on_write false b
  | PSnapshotTimer, ROk => on_snapshot_tick env true b
  | PSnapshotTimer, RErr => on_snapshot_tick env false b
  | PWatcherTimer, ROk => on_watcher_tick env true b
  | PWatcherTimer, RErr => on_watcher_tick env false b
  | _, _ => b
  end.
Inductive Input :=
  | IComplete (op : Pending) (r : Result)
  | IPost (p : Posted)
  | IPush (book : option UiBookUpdate) (state : option UiStateSnapshot)   (* the producers of the queues *)
  | ICounters (ops : list Counters.CounterOp)                               (* other threads' counters *)
  | IStop.                                                                  (* the stop flag *)
Definition result_fits (op : Pending) (r : Result) : bool :=
  match op, r with
  | _, RErr => true
  | PUpgrade _, RTarget _ => true
  | PRead _, RData _ => true
  | (PUpgrade _ | PRead _), _ => false
  | _, ROk => true
  | _, _ => false
  end.
Fixpoint remove_op (op : Pending) (l : list Pending) : option (list Pending) :=
  match l with
  | [] => None
  | x :: l => if bool_decide (x = op) then Some l else (cons x) <$> remove_op op l
  end.
Definition push_opt {A} (a : option A) (q : SpscQueue Q A) : SpscQueue Q A := match a with Some a => (try_push a q).1 | None => q end.
Definition step b (i : Env * Input) : Bridge :=
  let '(env, i) := i in
  match i with
  | IPush book state => b <| book_queue_ ::= push_opt book |> <| state_queue_ ::= push_opt state |>
  | ICounters ops => b <| metrics_ ::= fun m => foldl Counters.counter_op m ops |>
  | IStop => b <| br_stop_requested_ := true |>
  | IPost p => if ioc_stopped b then b else run_posted env p b
  | IComplete op r =>
      if ioc_stopped b then b else
      match remove_op op (outstanding (session b)) with
      | None => b
      | Some rest =>
          if result_fits op r && (bool_decide (r = RErr) || may_succeed op (session b))
          then complete env op r (on_session (fun s => s <| outstanding := rest |>) b) else b
      end
  end.
Definition run_start (watcher : bool) b : Bridge :=
  let b := start_snapshot_timer (on_session start_accept b) in
  if watcher then start_watcher_timer (b <| watcher_service_ := Some [] |>) else b.
Definition Bridge_new (config : IpcBridgeConfig) (pairs : option (list MarketPairConfig)) (bq : SpscQueue Q UiBookUpdate)
    (sq : SpscQueue Q UiStateSnapshot) (cq : SpscQueue Q SchedulerEvent) (name address : string) : Bridge :=
  mkBridge config pairs bq sq cq Counters.Metrics_new false false false Session_new ∅ None WatchManager.WatchManager_new
    BtcSeriesRegistry.Registry_new WatcherBookStore_new None (mkByTf [] []) (mkByTf 100 100) name address
    (mkUiRotationInfo "" 0 0 0 false) double_zero double_zero false "".
(** A run of the loop. *)
Definition run (watcher : bool) b (inputs : list (Env * Input)) : Bridge := foldl step (run_start watcher b) inputs.
End Bridge.

(** ** The session *)

(** The operations of which a stream may have at most one at a time. *)
Definition tracked (op : Pending) : bool := match op with PRead _ | PWrite _ | PUpgrade _ | PWsAccept _ => true | _ => false end.
Definition tracked_ops (l : list Pending) : list Pending := filter (fun op => tracked op = true) l.

Record base_inv s : Prop := {
  bi_nodup : NoDup (tracked_ops (outstanding s));
  bi_bound : forall op sid, op ∈ outstanding s -> stream_of op = Some sid -> (sid < next_stream s)%nat;
  bi_ws : forall sid, ws_ s = Some sid -> (sid < next_stream s)%nat;
  bi_hand : forall sid, PUpgrade sid ∈ outstanding s -> PWsAccept sid ∉ outstanding s;
  bi_queue : (length (write_queue_ s) <= kMaxWriteQueue)%nat;
  bi_snap : pending_snapshot_buf_ s = None;
  bi_closed : NoDup (closes s).*1 /\ forall sid, sid ∈ (closes s).*1 -> (sid < next_stream s)%nat /\ ws_ s <> Some sid }.
(** A connected stream has a write outstanding exactly when the flag says so and is
    past its handshake; before it has neither reads nor writes. *)
Record session_inv s : Prop := {
  si_base : base_inv s;
  si_conn : forall sid, ws_ s = Some sid -> connected_ s = true ->
    (PWrite sid ∈ outstanding s <-> write_in_progress_ s = true) /\ PUpgrade sid ∉ outstanding s /\ PWsAccept sid ∉ outstanding s;
  si_idle : forall sid, ws_ s = Some sid -> connected_ s = false -> PRead sid ∉ outstanding s /\ PWrite sid ∉ outstanding s }.

Lemma tracked_elem op l : tracked op = true -> op ∈ l -> op ∈ tracked_ops l.
Proof. intros Ht Hin. by apply list_elem_of_filter. Qed.
Lemma launch_base op s : base_inv s -> (tracked op = true -> op ∉ outstanding s) ->
  (forall sid, stream_of op = Some sid -> (sid < next_stream s)%nat) ->
  (forall sid, op = PUpgrade sid -> PWsAccept sid ∉ outstanding s) -> (forall sid, op = PWsAccept sid -> PUpgrade sid ∉ outstanding s) ->
  base_inv (launch op s).
Proof.
  intros [Hn Hb Hw Hh Hq Hs Hcl] Hf Hsid Hu Ha. constructor; simpl; try done.
  - unfold tracked_ops in *. rewrite filter_app, filter_cons, filter_nil. apply NoDup_app. split; [done|]. case_decide as Ht.
    + split; [|apply NoDup_singleton]. intros x Hx ->%list_elem_of_singleton. apply list_elem_of_filter in Hx as [_ Hx]. by apply Hf.
    + split; [|constructor]. intros x _ Hx. by apply not_elem_of_nil in Hx.
  - intros o sid [Ho| ->%list_elem_of_singleton]%elem_of_app; eauto.
  - intros sid [Ho|E%list_elem_of_singleton]%elem_of_app; rewrite elem_of_app, list_elem_of_singleton.
    + intros [Hx|E]; [by eapply Hh|]. by apply (Ha sid).
    + intros [Hx|E']; [by apply (Hu sid)|congruence].
Qed.
Lemma launch_inv op s : session_inv s -> tracked op = false -> (forall sid, stream_of op = Some sid -> (sid < next_stream s)%nat) ->
  session_inv (launch op s).
Proof.
  intros [Hb Hc Hi] Ht Hsid. split.
  - apply launch_base; [done|by rewrite Ht|done|by intros sid ->|by intros sid ->].
  - intros sid Hw Hcn. simpl in *. rewrite !elem_of_app, !list_elem_of_singleton. destruct (Hc sid Hw Hcn) as (H1 & H2 & H3).
    destruct op; simpl in Ht; try done; naive_solver.
  - intros sid Hw Hcn. simpl in *. rewrite !elem_of_app, !list_elem_of_singleton. destruct (Hi sid Hw Hcn). destruct op; simpl in Ht; try done; naive_solver.
Qed.
Lemma accept_inv s : session_inv s -> session_inv (start_accept s).
Proof. intros Hs. by apply launch_inv. Qed.

(** A write of the connected stream. *)
Lemma write_inv sid m buf s : session_inv s -> ws_ s = Some sid -> connected_ s = true -> write_in_progress_ s = false ->
  session_inv (async_write sid m buf s).
Proof.
  intros [Hb Hc Hi] Hw Hcn Hp. destruct (Hc sid Hw Hcn) as (H1 & H2 & H3).
  assert (PWrite sid ∉ outstanding s) as Hno by (rewrite H1, Hp; done).
  split.
  - apply launch_base; [by destruct Hb|done|..|done|done]. intros ? [= <-]. by apply (bi_ws s Hb).
  - intros sid' Hw' _. simpl in *. rewrite Hw in Hw'. injection Hw' as <-. rewrite !elem_of_app, !list_elem_of_singleton. naive_solver.
  - intros sid' Hw' Hcn'. simpl in *. congruence.
Qed.

(** Dropping the stream. *)
Lemma no_stream_inv s : base_inv s -> ws_ s = None -> session_inv s.
Proof. intros Hb Hw. split; [done|intros sid E; congruence..]. Qed.
Lemma close_session_inv s : base_inv s -> session_inv (close_session_session s).1.
Proof.
  intros [Hn Hb Hw Hh Hq Hs [Hc1 Hc2]]. unfold close_session_session, ws_close. simpl. destruct (ws_ s) as [sid|] eqn:Ew; cbn [fst];
    (apply no_stream_inv; [|done]); constructor; simpl; try done; [|intros sid' E; simpl in E; congruence|]; rewrite ?fmap_app; split; try done.
  - apply NoDup_app. split; [done|]. split; [|apply NoDup_singleton]. intros x Hx ->%list_elem_of_singleton. by apply (proj2 (Hc2 _ Hx)).
  - intros x [Hx| ->%list_elem_of_singleton]%elem_of_app; (split; [|done]); [by apply Hc2|by apply Hw].
  - intros x Hx. destruct (Hc2 x Hx). split; [done|congruence].
Qed.
Lemma drop_stream_inv s : base_inv s -> session_inv (drop_stream s).
Proof. intros [Hn Hb Hw Hh Hq Hs [Hc1 Hc2]]. apply accept_inv, no_stream_inv; [|done]. constructor; try done. split; [done|]. intros x Hx. split; [by apply Hc2|done]. Qed.

(** Only these components matter. *)
Lemma inv_same s s' : session_inv s -> outstanding s' = outstanding s -> closes s' = closes s -> next_stream s' = next_stream s -> ws_ s' = ws_ s ->
  connected_ s' = connected_ s -> write_in_progress_ s' = write_in_progress_ s -> (length (write_queue_ s') <= kMaxWriteQueue)%nat ->
  pending_snapshot_buf_ s' = None -> session_inv s'.
Proof.
  intros [[Hn Hb Hw Hh Hq Hs Hcl] Hc Hi] Eo Ecl En Ew Ec Ep Hq' Hs'. split; [constructor|..]; rewrite ?Eo, ?Ecl, ?En, ?Ew, ?Ec, ?Ep; done.
Qed.

(** Messages. *)
Lemma send_message_inv json s : session_inv s -> session_inv (send_message_session json s).1.
Proof.
  intros Hs. unfold send_message_session. destruct (ws_ s) as [sid|] eqn:Hw; [|done]. destruct (connected_ s) eqn:Hc; [|done]. cbn [negb].
  set (s1 := s <| offered ::= _ |>). assert (session_inv s1) as H1 by (by apply (inv_same s); try done; apply Hs).
  change (write_in_progress_ s1) with (write_in_progress_ s). destruct (write_in_progress_ s) eqn:Hp; cbn [fst].
  - apply (inv_same s1); try done; [|apply H1]. pose proof (bi_queue s (si_base s Hs)) as Hq.
    change (length ((if (kMaxWriteQueue <=? length (write_queue_ s))%nat then tail (write_queue_ s) else write_queue_ s) ++ [json]) <= kMaxWriteQueue)%nat.
    rewrite length_app. cbn [length]. destruct (Nat.leb_spec kMaxWriteQueue (length (write_queue_ s))); [|lia]. destruct (write_queue_ s); cbn [tail length] in *; unfold kMaxWriteQueue in *; lia.
  - by apply write_inv.
Qed.
Lemma send_snapshot_inv json s : session_inv s -> write_in_progress_ s = false -> session_inv (send_snapshot json s).
Proof.
  intros Hs Hp. unfold send_snapshot. destruct (ws_ s) as [sid|] eqn:Hw; [|done]. destruct (connected_ s) eqn:Hc; [|done]. cbn [negb].
  rewrite Hp. by apply write_inv.
Qed.
(** After a write of the stream has completed. *)
Lemma next_write_inv s : session_inv s -> write_in_progress_ s = false -> session_inv (next_write s).
Proof.
  intros Hs Hp. assert (session_inv (s <| snapshot_pending_ := false |>)) as Hf by (by apply (inv_same s); try done; apply Hs).
  unfold next_write. destruct (ws_ s) as [sid|] eqn:Hw; [|done]. destruct (connected_ s) eqn:Hc; [|done]. cbn [negb].
  rewrite (bi_snap s (si_base s Hs)). destruct (write_queue_ s) as [|x q] eqn:Eq; [done|]. apply write_inv; try done.
  pose proof (bi_queue s (si_base s Hs)) as Hq. rewrite Eq in Hq. cbn [length] in Hq. apply (inv_same s); try done; [simpl; lia|apply Hs].
Qed.

(** An operation completes. *)
Lemma remove_op_perm op l rest : remove_op op l = Some rest -> l ≡ₚ op :: rest.
Proof.
  revert rest. induction l as [|x l IH]; intros rest; simpl; [done|]. case_bool_decide as E; [intros [= <-]; by subst|].
  destruct (remove_op op l) as [r|]; simpl; [|done]. intros [= <-]. rewrite (IH r eq_refl). apply Permutation_swap.
Qed.
Lemma remove_elem op l rest x : remove_op op l = Some rest -> x ∈ l <-> x = op \/ x ∈ rest.
Proof. intros Hr. rewrite (remove_op_perm _ _ _ Hr). apply elem_of_cons. Qed.
Lemma remove_once op s rest : base_inv s -> remove_op op (outstanding s) = Some rest -> tracked op = true -> op ∉ rest.
Proof.
  intros Hb Hr Ht Hin. pose proof (bi_nodup s Hb) as Hn. unfold tracked_ops in Hn. rewrite (remove_op_perm _ _ _ Hr), filter_cons, decide_True in Hn by done.
  apply NoDup_cons in Hn as [Hn _]. apply Hn. by apply list_elem_of_filter.
Qed.
Lemma remove_base op s rest : base_inv s -> remove_op op (outstanding s) = Some rest -> base_inv (s <| outstanding := rest |>).
Proof.
  intros [Hn Hb Hw Hh Hq Hs Hcl] Hr. pose proof (fun x => remove_elem op _ rest x Hr) as He. constructor; simpl; try done.
  - unfold tracked_ops in *. rewrite (remove_op_perm _ _ _ Hr), filter_cons in Hn. case_decide; [by apply NoDup_cons in Hn as [_ Hn]|done].
  - intros o sid Ho. apply Hb, He. by right.
  - intros sid Hu Ha. eapply Hh; apply He; right; eassumption.
Qed.
Lemma remove_inv op s rest : session_inv s -> remove_op op (outstanding s) = Some rest -> (forall sid, op <> PWrite sid) ->
  session_inv (s <| outstanding := rest |>).
Proof.
  intros [Hb Hc Hi] Hr Hop. pose proof (fun x => remove_elem op _ rest x Hr) as He. split; [by eapply remove_base|..].
  - intros sid Hw Hcn. simpl in *. destruct (Hc sid Hw Hcn) as (H1 & H2 & H3). rewrite He in H1, H2, H3. specialize (Hop sid). naive_solver.
  - intros sid Hw Hcn. simpl in *. destruct (Hi sid Hw Hcn) as [H1 H2]. rewrite He in H1, H2. naive_solver.
Qed.
(** The write of the current stream has completed. *)
Lemma written_inv sid s rest : session_inv s -> remove_op (PWrite sid) (outstanding s) = Some rest -> ws_ s = Some sid ->
  session_inv (s <| outstanding := rest |> <| write_in_progress_ := false |>).
Proof.
  intros Hs Hr Hw. destruct Hs as [Hb Hc Hi]. pose proof (fun x => remove_elem _ _ rest x Hr) as He.
  pose proof (remove_once _ _ _ Hb Hr eq_refl) as Hno. split.
  - pose proof (remove_base _ _ _ Hb Hr) as [? ? ? ? ? ? ?]. by constructor.
  - intros sid' Hw' Hcn. simpl in *. assert (sid' = sid) as -> by congruence. destruct (Hc sid Hw Hcn) as (H1 & H2 & H3). rewrite He in H2, H3. naive_solver.
  - intros sid' Hw' Hcn. simpl in *. destruct (Hi sid' Hw' Hcn) as [H1 H2]. rewrite He in H1, H2. naive_solver.
Qed.

(** Messages leave the rest of the session as it is. *)
Inductive sends : Session -> Session -> Prop :=
  | sends_refl s : sends s s
  | sends_more s s' json : sends s s' -> sends s (send_message_session json s').1.
#[local] Hint Constructors sends : trading.
Lemma sends_trans s1 s2 s3 : sends s1 s2 -> sends s2 s3 -> sends s1 s3.
Proof. intros H1 H2. induction H2; eauto with trading. Qed.
Lemma send_message_keeps json s : let s' := (send_message_session json s).1 in
  ws_ s' = ws_ s /\ connected_ s' = connected_ s /\ next_stream s' = next_stream s /\
  forall op, (forall sid, op <> PWrite sid) -> op ∈ outstanding s' <-> op ∈ outstanding s.
Proof.
  cbv zeta. unfold send_message_session. destruct (ws_ s) as [sid|] eqn:Hw; [|done]. destruct (connected_ s) eqn:Hc; [|done]. cbn [negb].
  destruct (write_in_progress_ _); cbn [fst]; [done|]. simpl. split_and!; try done. intros op Hop. rewrite elem_of_app, list_elem_of_singleton. specialize (Hop sid). naive_solver.
Qed.
Lemma sends_keeps s s' : sends s s' -> (session_inv s -> session_inv s') /\ ws_ s' = ws_ s /\ connected_ s' = connected_ s /\
  forall op, (forall sid, op <> PWrite sid) -> op ∈ outstanding s' <-> op ∈ outstanding s.
Proof.
  induction 1 as [|s s' json Hs (IH1 & IH2 & IH3 & IH4)]; [done|]. destruct (send_message_keeps json s') as (H1 & H2 & _ & H4).
  split; [intros Hi; by apply send_message_inv, IH1|]. split; [congruence|]. split; [congruence|]. intros op Hop. rewrite H4, IH4 by done. done.
Qed.
(** Reading on. *)
Lemma read_inv s : session_inv s -> (forall sid, ws_ s = Some sid -> connected_ s = true -> PRead sid ∉ outstanding s) -> session_inv (start_read s).
Proof.
  intros Hs Hno. unfold start_read. destruct (ws_ s) as [sid|] eqn:Hw; [|done]. destruct (connected_ s) eqn:Hc; [|done].
  specialize (Hno sid eq_refl eq_refl). destruct Hs as [Hb Hcn Hi]. split.
  - apply launch_base; [done|done|..|done|done]. intros ? [= <-]. by apply (bi_ws s Hb).
  - intros sid' Hw' Hc'. simpl in *. rewrite !elem_of_app, !list_elem_of_singleton. destruct (Hcn sid' Hw' Hc') as (H1 & H2 & H3). naive_solver.
  - intros sid' Hw' Hc'. simpl in *. congruence.
Qed.

Section SessionSteps.
Context {D : Type} `{PrintfDouble D} {Q : Type -> Type} `{RingQueue Q} `{LevelSort} `{JsonParser}.
Implicit Types (b : Bridge (D := D) (Q := Q)) (env : Env).

Lemma sends_message json b : sends (session b) (session (send_message json b)).
Proof.
  unfold send_message. pose proof (sends_more (session b) (session b) json (sends_refl _)) as Hs. destruct (send_message_session json (session b)) as [s []]; exact Hs.
Qed.
Lemma session_refresh b : session (refresh_watcher_subscriptions b) = session b.
Proof. unfold refresh_watcher_subscriptions. by case_match. Qed.
Lemma sends_status tf b : sends (session b) (session (send_watcher_status tf b)).
Proof. apply sends_message. Qed.
Lemma sends_watch_command cmd b : sends (session b) (session (handle_watch_command cmd b)).
Proof.
  unfold handle_watch_command. destruct (wc_type cmd).
  1,2: eapply sends_trans; [|apply sends_status]; rewrite session_refresh; apply sends_refl. apply sends_message.
Qed.
Lemma sends_snapshots b : sends (session b) (session (send_watcher_snapshots b)).
Proof.
  unfold send_watcher_snapshots. destruct (negb _); [apply sends_refl|]. generalize (WatchManager.subscribed_timeframes (watch_manager_ b)). intros l.
  revert b. induction l as [|tf l IH]; intros b; [apply sends_refl|]. cbn [foldl]. eapply sends_trans; [|apply IH].
  unfold send_watcher_snapshot. case_match; [|apply sends_refl]. case_match; [apply sends_refl|]. apply sends_message.
Qed.
Lemma sends_asset_changes env l b : sends (session b) (session (foldl (on_asset_change_watch env) b l)).
Proof.
  revert b. induction l as [|ac l IH]; intros b; [apply sends_refl|]. cbn [foldl]. eapply sends_trans; [|apply IH].
  assert (forall cs b', session (foldl (fun b c => b <| watcher_books_ ::= watcher_apply_price_change (apc_asset_id ac) (pc_price c) (pc_size c) (side_eqb (pc_side c) BID) |>) b' cs) = session b') as Hf
    by (induction cs as [|c cs IHc]; intros b'; [done|]; cbn [foldl]; by rewrite IHc).
  unfold on_asset_change_watch. case_match; [|rewrite Hf; apply sends_refl]. cbn [session set]. rewrite Hf. apply sends_refl.
Qed.
Lemma sends_book_data env event b : sends (session b) (session (on_watcher_book_data env event b)).
Proof.
  unfold on_watcher_book_data. destruct (me_payload event); try apply sends_refl.
  - unfold on_book_snapshot_watch. case_match; [|apply sends_refl]. case_match; [|apply sends_refl].
    eapply sends_trans; [|apply sends_status]. apply sends_refl.
  - apply sends_asset_changes.
  - case_match; apply sends_refl.
  - unfold on_trade_watch. case_match; apply sends_refl.
Qed.
Lemma sends_rollover tf b : sends (session b) (session (execute_rollover tf b)).
Proof.
  unfold execute_rollover. destruct (match BtcSeriesRegistry.current tf (series_registry_ b) with Some _ => _ | None => _ end) as [up down].
  eapply sends_trans; [|apply sends_status]. unfold drive_fsm. cbn [session set]. rewrite session_refresh. destruct (nonempty up), (nonempty down); apply sends_refl.
Qed.
Lemma sends_roll_or_report tf b : sends (session b) (session (roll_or_report tf b)).
Proof. unfold roll_or_report. case_match; [apply sends_rollover|apply sends_status]. Qed.
Lemma sends_discovery tf current next b : sends (session b) (session (on_discovery_result tf current next b)).
Proof.
  unfold on_discovery_result. destruct (_ && _).
  - eapply sends_trans; [|apply sends_roll_or_report]. apply sends_refl.
  - destruct (match BtcSeriesRegistry.current tf (series_registry_ b) with Some _ => _ | None => _ end) as [rc|].
    + assert (forall b', sends (session b) (session b') -> sends (session b) (session (if usable next then
        match BtcSeriesRegistry.current tf (series_registry_ b') with Some nc => update_registry tf nc next b' | None => b' end else b'))) as Hu
        by (intros b' Hb'; destruct (usable next); [|done]; by case_match).
      set (b1 := drive_fsm tf _ _). apply (Hu (if SeriesRollingFsm.is_rolling (fsm_state tf b1) then execute_rollover tf b1 else b1)).
      destruct (SeriesRollingFsm.is_rolling _); [exact (sends_rollover tf b1)|apply sends_refl].
    + case_match; [|rewrite session_refresh; apply sends_refl]. eapply sends_trans; [|apply sends_roll_or_report]. apply sends_refl.
Qed.

Lemma close_step b : base_inv (session b) -> session_inv (session (close_session b)).
Proof.
  intros Hb. pose proof (close_session_inv (session b) Hb) as Hs. unfold close_session.
  destruct (close_session_session (session b)) as [s []]; exact Hs.
Qed.
Lemma close_keeps b : ws_ (session (close_session b)) = None /\ connected_ (session (close_session b)) = false /\
  next_stream (session (close_session b)) = next_stream (session b) /\ outstanding (session (close_session b)) = outstanding (session b).
Proof. unfold close_session, close_session_session, ws_close. simpl. by destruct (connected_ (session b)), (ws_ (session b)) eqn:E. Qed.

Lemma new_stream_inv s : session_inv s -> connected_ s = false -> let s' := new_stream s in
  session_inv s' /\ forall op, stream_of op = Some (next_stream s) -> op ∉ outstanding s'.
Proof.
  intros [Hb Hc Hi] Hcn. cbv zeta. assert (forall op, stream_of op = Some (next_stream s) -> op ∉ outstanding s) as Hfresh.
  { intros op Ho Hin. pose proof (bi_bound s Hb op _ Hin Ho). lia. }
  split; [|done]. destruct Hb as [Hn Hbd Hw Hh Hq Hs [Hc1 Hc2]]. split.
  - constructor; simpl; try done; [intros op sid Hop Ho; specialize (Hbd op sid Hop Ho); lia|intros sid [= <-]; lia|].
    split; [done|]. intros sid Hin. destruct (Hc2 sid Hin). split; [lia|]. intros [= E]. lia.
  - intros sid _ Hc'. simpl in Hc'. congruence.
  - intros sid [= <-] _. split; by apply Hfresh.
Qed.
Lemma accept_step ok b : session_inv (session b) -> session_inv (session (on_accept ok b)).
Proof.
  intros Hs. unfold on_accept. destruct ok; cbn [negb].
  2: { destruct (br_stop_requested_ b); [done|]. by apply accept_inv. }
  set (b1 := if connected_ (session b) then close_session b else b).
  assert (session_inv (session b1) /\ connected_ (session b1) = false) as [Hi1 Hc1].
  { unfold b1. destruct (connected_ (session b)) eqn:E; [|done]. split; [by apply close_step, Hs|apply close_keeps]. }
  clearbody b1. destruct (new_stream_inv (session b1) Hi1 Hc1) as [Hi2 Hfresh]. set (sid := next_stream (session b1)) in *.
  assert (forall op, op = PUpgrade sid \/ op = PWsAccept sid -> session_inv (launch op (new_stream (session b1)))) as Hl.
  { intros op Hop. destruct Hi2 as [Hb Hc Hi]. assert (stream_of op = Some sid) as Hso by (by destruct Hop as [->| ->]). split.
    - apply launch_base; [done|intros _; by apply Hfresh| |intros x ->; apply Hfresh; naive_solver|intros x ->; apply Hfresh; naive_solver].
      intros x Hx. assert (x = sid) as -> by congruence. unfold sid. simpl. lia.
    - intros x Hw Hcn. simpl in Hcn. congruence.
    - intros x [= <-] _. simpl. rewrite !elem_of_app, !list_elem_of_singleton. split; (intros [Hin|E]; [|destruct Hop; congruence]);
        [exact (Hfresh (PRead sid) eq_refl Hin)|exact (Hfresh (PWrite sid) eq_refl Hin)]. }
  unfold on_session. case_match; apply Hl; auto.
Qed.
Lemma upgrade_step target sid rest b : session_inv (session b) -> remove_op (PUpgrade sid) (outstanding (session b)) = Some rest ->
  (target <> None -> ws_ (session b) = Some sid) ->
  session_inv (session (on_upgrade target sid (on_session (fun s => s <| outstanding := rest |>) b))).
Proof.
  intros Hs Hr Hws. pose proof (remove_inv _ _ _ Hs Hr ltac:(done)) as Hs'. pose proof (fun x => remove_elem _ _ rest x Hr) as He.
  unfold on_upgrade. destruct target as [target|]; [|apply drop_stream_inv, Hs']. specialize (Hws ltac:(done)).
  destruct Hs as [Hb Hc Hi]. assert (connected_ (session b) = false) as Hcn.
  { apply not_true_is_false. intros E. destruct (Hc sid Hws E) as (_ & Hu & _). exfalso. apply Hu, He. by left. }
  case_match.
  - pose proof (remove_once _ _ _ Hb Hr eq_refl) as Hno. assert (PWsAccept sid ∉ rest) as Hna.
    { intros Hin. eapply (bi_hand _ Hb sid); apply He; [by left|by right]. }
    destruct Hs' as [Hb' Hc' Hi']. split.
    + apply launch_base; [done|done|intros ? [= <-]; by apply (bi_ws _ Hb)|done|by intros ? [= <-]].
    + intros x Hw Hcn'. simpl in *. congruence.
    + intros x Hw _. simpl in *. destruct (Hi' x Hw Hcn) as [H5 H6]. simpl in *. rewrite !elem_of_app, !list_elem_of_singleton. naive_solver.
  - apply launch_inv; [done|done|]. intros ? [= <-]. by apply (bi_ws _ Hb).
Qed.
Lemma ws_accept_step ok sid rest b : session_inv (session b) -> remove_op (PWsAccept sid) (outstanding (session b)) = Some rest ->
  (ok = true -> ws_ (session b) = Some sid) ->
  session_inv (session (on_ws_accept ok (on_session (fun s => s <| outstanding := rest |>) b))).
Proof.
  intros Hs Hr Hws. pose proof (remove_inv _ _ _ Hs Hr ltac:(done)) as Hs'. pose proof (fun x => remove_elem _ _ rest x Hr) as He.
  unfold on_ws_accept. destruct ok; [cbn [negb]|apply drop_stream_inv, Hs']. specialize (Hws eq_refl).
  destruct Hs as [Hb Hc Hi]. assert (connected_ (session b) = false) as Hcn.
  { apply not_true_is_false. intros E. destruct (Hc sid Hws E) as (_ & _ & Hu). exfalso. apply Hu, He. by left. }
  destruct (Hi sid Hws Hcn) as [Hnr Hnw]. assert (PRead sid ∉ rest /\ PWrite sid ∉ rest) as [Hnr' Hnw'] by (rewrite He in Hnr, Hnw; naive_solver).
  pose proof (remove_once _ _ _ Hb Hr eq_refl) as Hno. assert (PUpgrade sid ∉ rest) as Hnu.
  { intros Hin. eapply (bi_hand _ Hb sid); apply He; [by right|by left]. }
  apply read_inv.
  - destruct Hs' as [[Hn Hbd Hw Hh Hq Hsn Hcl] _ _]. split; [by constructor|..]; simpl in *.
    + intros x Hx _. assert (x = sid) as -> by congruence. naive_solver.
    + done.
  - intros x Hx _. simpl in *. assert (x = sid) as -> by congruence. done.
Qed.
Lemma read_step env json sid rest b : session_inv (session b) -> remove_op (PRead sid) (outstanding (session b)) = Some rest ->
  (json <> None -> ws_ (session b) = Some sid) ->
  session_inv (session (on_read env json (on_session (fun s => s <| outstanding := rest |>) b))).
Proof.
  intros Hs Hr Hws. pose proof (remove_inv _ _ _ Hs Hr ltac:(done)) as Hs'. pose proof (remove_once _ _ _ (si_base _ Hs) Hr eq_refl) as Hno.
  set (b1 := on_session (fun s => s <| outstanding := rest |>) b). assert (session_inv (session b1)) as Hb1 by exact Hs'.
  unfold on_read. destruct json as [json|]; [|apply accept_inv, close_step, Hb1]. specialize (Hws ltac:(done)).
  assert (forall b2, sends (session b1) (session b2) -> session_inv (session (on_session start_read b2))) as Hread.
  { intros b2 Hb2. destruct (sends_keeps _ _ Hb2) as (Hi & Hw & _ & Ho). apply read_inv; [by apply Hi|]. intros x Hx _. rewrite Ho by done.
    rewrite Hw in Hx. change (ws_ (session b1)) with (ws_ (session b)) in Hx. assert (x = sid) as -> by congruence. exact Hno. }
  case_match; [apply Hread, sends_refl|]. case_match.
  - apply Hread. case_match; [apply sends_watch_command|apply sends_refl].
  - apply Hread. case_match; [|apply sends_refl]. destruct (push_retry _ _ _ _ _) as [q []]; apply sends_refl.
Qed.
Lemma write_step ok sid rest b : session_inv (session b) -> remove_op (PWrite sid) (outstanding (session b)) = Some rest ->
  (ok = true -> ws_ (session b) = Some sid) ->
  session_inv (session (on_write ok (on_session (fun s => s <| outstanding := rest |>) b))).
Proof.
  intros Hs Hr Hws. unfold on_write. destruct ok; cbn [negb].
  - apply next_write_inv; [|done]. exact (written_inv sid _ _ Hs Hr (Hws eq_refl)).
  - apply accept_inv, close_step. pose proof (remove_base _ _ _ (si_base _ Hs) Hr) as [Hn Hb Hw Hh Hq Hsn Hcl]. constructor; simpl in *; try done. lia.
Qed.
Lemma snapshot_step env ok b : session_inv (session b) -> session_inv (session (on_snapshot_tick env ok b)).
Proof.
  intros Hs. unfold on_snapshot_tick. case_match; [done|]. apply launch_inv; [|done|done]. unfold assemble_and_send.
  change (session (drain_queues b)) with (session b). destruct (connected_ (session b)) eqn:Hc; cbn [negb orb]; [|done].
  destruct (write_in_progress_ (session b)) eqn:Hp.
  - apply (inv_same (session b)); try done; apply Hs.
  - apply send_snapshot_inv; [|done]. apply (inv_same (session b)); try done; apply Hs.
Qed.
Lemma watcher_step env ok b : session_inv (session b) -> session_inv (session (on_watcher_tick env ok b)).
Proof.
  intros Hs. unfold on_watcher_tick. case_match; [done|]. apply launch_inv; [|done|done].
  eapply sends_keeps; [apply sends_snapshots|]. exact Hs.
Qed.
Lemma step_inv b i : session_inv (session b) -> session_inv (session (step b i)).
Proof.
  intros Hs. destruct i as [env [op r|p|book state|ops|]]; unfold step; try exact Hs.
  - destruct (ioc_stopped b); [done|]. destruct (remove_op op (outstanding (session b))) as [rest|] eqn:Hr; [|done].
    destruct (result_fits op r && _) eqn:Hok; [|done]. apply andb_true_iff in Hok as [Hfit Hok].
    assert (r <> RErr -> forall sid, stream_of op = Some sid -> ws_ (session b) = Some sid) as Hws.
    { intros Hne sid Hso. rewrite bool_decide_eq_false_2 in Hok by done. cbn [orb] in Hok. unfold may_succeed in Hok. rewrite Hso in Hok. by apply bool_decide_eq_true_1 in Hok. }
    assert ((forall sid, op <> PWrite sid) -> session_inv (session (on_session (fun s => s <| outstanding := rest |>) b))) as Hrm by (by apply remove_inv).
    destruct op as [|sid|sid|sid|sid|sid|sid| |], r as [| |target|json]; try discriminate Hfit; cbn [complete].
    1,2: by apply accept_step, Hrm.
    1,2: apply upgrade_step; [done|done|]. 1: done. 1: intros _; by apply Hws.
    1,2: apply (ws_accept_step _ sid); [done|done|]. 1: intros _; by apply Hws. 1: done.
    1,2: unfold on_reject; case_match; [|by apply Hrm]; apply launch_inv; [by apply Hrm|done|]; intros ? [= <-];
      by apply (bi_ws _ (si_base _ (Hrm ltac:(done)))).
    1,2: by apply drop_stream_inv, Hrm.
    1,2: apply (read_step _ _ sid); [done|done|]. 1: done. 1: intros _; by apply Hws.
    1,2: apply (write_step _ sid); [done|done|]. 1: intros _; by apply Hws. 1: done.
    1,2: by apply snapshot_step, Hrm. 1,2: by apply watcher_step, Hrm.
  - destruct (ioc_stopped b); [done|]. destruct p; cbn [run_posted].
    + eapply sends_keeps; [apply sends_book_data|done].
    + eapply sends_keeps; [apply sends_discovery|done].
    + done.
    + unfold on_account_result. repeat case_match; exact Hs.
    + apply (close_step b), Hs.
Qed.
End SessionSteps.

Section SessionTheorems.
Context {D : Type} `{PrintfDouble D} {Q : Type -> Type} `{RingQueue Q} `{LevelSort} `{JsonParser}.
Implicit Types (b : Bridge (D := D) (Q := Q)) (env : Env).

Lemma run_inv watcher b inputs : session b = Session_new -> session_inv (session (run watcher b inputs)).
Proof.
  intros Hnew. assert (session_inv Session_new) as H0'.
  { apply no_stream_inv; [|done]. constructor; simpl; try done; try (by intros ? ? Hin; apply not_elem_of_nil in Hin); [constructor|lia|]. split; [constructor|]. by intros ? ?%not_elem_of_nil. }
  unfold run. assert (session_inv (session (run_start watcher b))) as Hs.
  { unfold run_start. rewrite <- Hnew in H0'. assert (session_inv (session (start_snapshot_timer (on_session start_accept b)))) as H3
      by (apply launch_inv; [by apply accept_inv|done|done]). destruct watcher; [|done]. by apply launch_inv. }
  revert Hs. generalize (run_start watcher b). induction inputs as [|i inputs IH]; intros b' Hs; [done|]. cbn [foldl]. by apply IH, step_inv.
Qed.


(** *** Order of the messages *)
Definition messages (w : list (nat * bool * text)) : list text := omap (fun '(_, m, t) => if (m : bool) then Some t else None) w.
Lemma messages_snoc w sid m t : messages (w ++ [(sid, m, t)]) = messages w ++ if m then [t] else [].
Proof. unfold messages. rewrite omap_app. by destruct m. Qed.

(** Since the start: what was offered, and what of it was written or is waiting. *)
Record fifo (o0 m0 : list text) s : Prop := {
  ff_on : is_Some (ws_ s) /\ connected_ s = true;
  ff_idle : write_in_progress_ s = false -> write_queue_ s = [];
  ff_order : exists o m, offered s = o0 ++ o /\ messages (writes s) = m0 ++ m /\ sublist (m ++ write_queue_ s) o /\
    ((length o <= kMaxWriteQueue)%nat -> m ++ write_queue_ s = o) }.
Lemma fifo_send o0 m0 json s : fifo o0 m0 s -> fifo o0 m0 (send_message_session json s).1.
Proof.
  intros [Hon Hidle (o & m & Ho & Hm & Hsub & Heq)]. unfold send_message_session. destruct Hon as [[sid Hw] Hc]. rewrite Hw, Hc. cbn [negb].
  change (write_in_progress_ (s <| offered ::= fun l => l ++ [json] |>)) with (write_in_progress_ s). destruct (write_in_progress_ s) eqn:Hp; cbn [fst].
  - set (full := (kMaxWriteQueue <=? _)%nat). set (q := if full then tail (write_queue_ s) else write_queue_ s).
    assert (sublist q (write_queue_ s)) as Hq by (unfold q; destruct full; [|done]; destruct (write_queue_ s); [done|by apply sublist_cons]).
    constructor; [by split|intros E; simpl in E; congruence|]. exists (o ++ [json]), m. simpl. rewrite Ho. split; [by rewrite app_assoc|]. split; [done|].
    rewrite app_assoc. split; [apply sublist_app; [|done]; etrans; [|exact Hsub]; by apply sublist_app|].
    rewrite length_app. cbn [length]. intros Hl. rewrite <- (Heq ltac:(lia)). do 2 f_equal. unfold q.
    destruct full eqn:E; [|done]. apply Nat.leb_le in E. pose proof (Heq ltac:(lia)) as <-. rewrite length_app in Hl. change (write_queue_ (s <| offered ::= _ |>)) with (write_queue_ s) in E. lia.
  - constructor; [by split|intros E; simpl in E; congruence|]. exists (o ++ [json]), (m ++ [json]). simpl. rewrite Ho, messages_snoc, Hm.
    split; [by rewrite app_assoc|]. split; [by rewrite app_assoc|]. rewrite (Hidle eq_refl) in *. rewrite !app_nil_r in *. split; [by apply sublist_app|].
    rewrite length_app. intros Hl. by rewrite Heq by lia.
Qed.
Lemma fifo_sends o0 m0 s s' : sends s s' -> fifo o0 m0 s -> fifo o0 m0 s'.
Proof. induction 1; [done|]. intros Hf. by apply fifo_send, IHsends. Qed.
Lemma fifo_next_write o0 m0 s : fifo o0 m0 s -> pending_snapshot_buf_ s = None ->
  fifo o0 m0 (next_write (s <| write_in_progress_ := false |>)).
Proof.
  intros [Hon Hidle (o & m & Ho & Hm & Hsub & Heq)] Hsn. unfold next_write. destruct Hon as [[sid Hw] Hc].
  change (ws_ (s <| write_in_progress_ := false |>)) with (ws_ s). rewrite Hw. change (connected_ (s <| write_in_progress_ := false |>)) with (connected_ s). rewrite Hc. cbn [negb].
  change (write_queue_ (s <| write_in_progress_ := false |>)) with (write_queue_ s).
  change (pending_snapshot_buf_ (s <| write_in_progress_ := false |>)) with (pending_snapshot_buf_ s). rewrite Hsn.
  destruct (write_queue_ s) as [|x q] eqn:Eq.
  - constructor; [by split|by intros _|]. exists o, m. simpl. by rewrite Eq.
  - constructor; [by split|by intros E|]. exists o, (m ++ [x]). simpl. rewrite messages_snoc, Hm. rewrite <- !app_assoc. done.
Qed.
(** Inputs that do not end the session. *)
Definition quiet (i : Input (D := D)) : bool :=
  match i with
  | IComplete (PWrite _ | PSnapshotTimer | PWatcherTimer) ROk | IComplete (PRead _) (RData _) => true
  | IComplete _ _ | IPost PostShutdown => false
  | _ => true
  end.
Lemma fifo_launch o0 m0 op s : fifo o0 m0 s -> fifo o0 m0 (launch op s).
Proof. intros [? ? ?]. by constructor. Qed.
Lemma fifo_outstanding o0 m0 rest s : fifo o0 m0 s -> fifo o0 m0 (s <| outstanding := rest |>).
Proof. intros [? ? ?]. by constructor. Qed.
Lemma fifo_read o0 m0 s : fifo o0 m0 s -> fifo o0 m0 (start_read s).
Proof. intros Hf. unfold start_read. repeat case_match; try done. by apply fifo_launch. Qed.
Lemma fifo_snapshot o0 m0 env b : fifo o0 m0 (session b) -> fifo o0 m0 (session (assemble_and_send env b)).
Proof.
  intros Hf. pose proof Hf as [[[sid Hw] Hc] Hidle (o & m & Ho & Hm & Hr)]. unfold assemble_and_send. rewrite Hc. cbn [negb orb].
  destruct (write_in_progress_ (session b)) eqn:Hp; [destruct Hf; by constructor|].
  set (b1 := on_session _ b). change (session (on_session (send_snapshot (serialize_engine_snapshot (assemble env b1))) b1))
    with (send_snapshot (serialize_engine_snapshot (assemble env b1)) (session b1)). unfold send_snapshot.
  change (ws_ (session b1)) with (ws_ (session b)). change (connected_ (session b1)) with (connected_ (session b)).
  change (write_in_progress_ (session b1)) with (write_in_progress_ (session b)). rewrite Hw, Hc, Hp. cbn [negb].
  constructor; [by split|by intros E|]. exists o, m. split; [exact Ho|]. split; [|exact Hr]. simpl. by rewrite messages_snoc, app_nil_r.
Qed.
Lemma fifo_step o0 m0 b i : session_inv (session b) -> quiet i.2 = true -> fifo o0 m0 (session b) -> fifo o0 m0 (session (step b i)).
Proof.
  intros Hs Hq Hf. destruct i as [env [op r|p|book state|ops|]]; unfold step; try exact Hf; cbn [snd] in Hq.
  - destruct (ioc_stopped b); [done|]. destruct (remove_op op (outstanding (session b))) as [rest|] eqn:Hr; [|done].
    destruct (result_fits op r && _); [|done]. set (b1 := on_session _ b).
    assert (fifo o0 m0 (session b1)) as Hf1 by (by apply fifo_outstanding). assert (pending_snapshot_buf_ (session b1) = None) as Hsn by apply Hs.
    clearbody b1. destruct op, r; try discriminate Hq; cbn [complete].
    + unfold on_read. assert (forall b2, sends (session b1) (session b2) -> fifo o0 m0 (session (on_session start_read b2))) as Hread
        by (intros b2 Hb2; by eapply fifo_read, fifo_sends).
      case_match; [apply Hread, sends_refl|]. case_match; apply Hread.
      * case_match; [apply sends_watch_command|apply sends_refl].
      * case_match; [|apply sends_refl]. destruct (push_retry _ _ _ _ _) as [q []]; apply sends_refl.
    + by apply (fifo_next_write o0 m0 (session b1)).
    + unfold on_snapshot_tick. case_match; [done|]. apply fifo_launch, fifo_snapshot. exact Hf1.
    + unfold on_watcher_tick. case_match; [done|]. apply fifo_launch. eapply fifo_sends; [apply sends_snapshots|]. exact Hf1.
  - destruct (ioc_stopped b); [done|]. destruct p; try discriminate Hq; cbn [run_posted].
    + by eapply fifo_sends; [apply sends_book_data|].
    + by eapply fifo_sends; [apply sends_discovery|].
    + done.
    + unfold on_account_result. repeat case_match; exact Hf.
Qed.

(** Messages reach a client in the order they were sent.  While a client stays
    connected, from any moment at which no message waits, the messages written since
    and those waiting are among those sent since, in the same order, and they are all
    of them as long as no more than 1024 were sent. *)
Theorem messages_in_order (watcher : bool) b (before after : list (Env * Input)) :
  session b = Session_new -> forallb (fun i => quiet i.2) after = true ->
  let s0 := session (run watcher b before) in
  let s := session (run watcher b (before ++ after)) in
  is_Some (ws_ s0) -> connected_ s0 = true -> write_queue_ s0 = [] ->
  exists o m, offered s = offered s0 ++ o /\ messages (writes s) = messages (writes s0) ++ m /\ sublist (m ++ write_queue_ s) o /\
    ((length o <= kMaxWriteQueue)%nat -> m ++ write_queue_ s = o).
Proof.
  intros Hnew Hq. cbv zeta. pose proof (run_inv watcher b before Hnew) as Hs. unfold run in *. rewrite foldl_app.
  set (b0 := foldl step (run_start watcher b) before) in *. clearbody b0. intros Hw Hc Hqe.
  assert (fifo (offered (session b0)) (messages (writes (session b0))) (session b0)) as Hf.
  { constructor; [by split|done|]. exists [], []. rewrite !app_nil_r, Hqe. done. }
  enough (fifo (offered (session b0)) (messages (writes (session b0))) (session (foldl step b0 after))) as [_ _ Ho] by done.
  revert Hs Hf. generalize (offered (session b0)) (messages (writes (session b0))). intros o0 m0. clear Hw Hc Hqe. revert b0.
  induction after as [|i after IH]; intros b0 Hs Hf; [done|]. cbn [forallb] in Hq. apply andb_true_iff in Hq as [Hi Hq].
  cbn [foldl]. apply IH; [done|by apply step_inv|by apply fifo_step].
Qed.
End SessionTheorems.

(** ** Series *)
Section Series.
Context {D : Type} `{PrintfDouble D} {Q : Type -> Type} `{RingQueue Q} `{LevelSort} `{JsonParser}.
Implicit Types (b : Bridge (D := D) (Q := Q)) (tf : BtcTimeframe).

(** What the watcher keeps; sending changes none of it. *)
Record watch_same b b' : Prop := {
  wm_same : watch_manager_ b' = watch_manager_ b; sr_same : series_registry_ b' = series_registry_ b; wb_same : watcher_books_ b' = watcher_books_ b;
  ws_same : watcher_service_ b' = watcher_service_ b; pt_same : watcher_pending_trades_ b' = watcher_pending_trades_ b;
  ts_same : watcher_tick_size_ b' = watcher_tick_size_ b }.
Lemma send_same json b : watch_same b (send_message json b).
Proof. unfold send_message. destruct (send_message_session json (session b)) as [s []]; by constructor. Qed.

Definition opens (old current : SeriesMarketInfo) : bool :=
  negb (sm_is_closed current) && negb (sm_empty current) && negb (sm_empty old) && negb (id_eqb (sm_condition_id current) (sm_condition_id old)).

Lemma discovery_changed tf old current next b : BtcSeriesRegistry.current tf (series_registry_ b) = Some old -> following tf b = true -> opens old current = true ->
  on_discovery_result tf current next b =
    let b := drive_fsm tf (SeriesRollingFsm.MarketClosed true) (update_registry tf old (Some current) b) in
    let b := if SeriesRollingFsm.is_rolling (fsm_state tf b) then execute_rollover tf b else b in
    if usable next then match BtcSeriesRegistry.current tf (series_registry_ b) with Some c => update_registry tf c next b | None => b end else b.
Proof.
  intros Hcur Hf Ho. unfold opens in Ho. rewrite !andb_true_iff in Ho. destruct Ho as [[[Hcl He] Heo] Hd].
  unfold on_discovery_result. apply negb_true_iff in Hcl as Hcl'. rewrite Hcl', Hcur, Hf, He, Heo, Hd. reflexivity.
Qed.

Lemma fsm_drive tf i b : fsm_state tf (drive_fsm tf i b) = (SeriesRollingFsm.input i (fsm_state tf b)).1.
Proof. unfold fsm_state, drive_fsm, WatchManager.on_entry. simpl. by rewrite at_set_eq. Qed.
Lemma fsm_drive_ne tf tf' i b : tf <> tf' -> fsm_state tf' (drive_fsm tf i b) = fsm_state tf' b.
Proof. intros Hne. unfold fsm_state, drive_fsm, WatchManager.on_entry. simpl. rewrite at_set_tf. by rewrite decide_False. Qed.


Lemma active_drive r tf i m : WatchManager.active_asset_ids r (WatchManager.on_entry tf (WatchManager.drive i) m) = WatchManager.active_asset_ids r m.
Proof.
  unfold WatchManager.active_asset_ids. assert (forall tf', WatchManager.watchers_count (at_tf tf' (WatchManager.on_entry tf (WatchManager.drive i) m)) =
    WatchManager.watchers_count (at_tf tf' m)) as Hw by (intros tf'; unfold WatchManager.on_entry; rewrite at_set_tf; case_decide; [by subst|done]).
  unfold kTimeframes. cbn [flat_map]. by rewrite !Hw.
Qed.
(** The state before the status is sent. *)
Lemma rollover_state tf old b : BtcSeriesRegistry.current tf (series_registry_ b) = Some old -> exists b2,
  execute_rollover tf b = send_watcher_status tf b2 /\ series_registry_ b2 = BtcSeriesRegistry.promote_next tf (series_registry_ b) /\
  watch_manager_ b2 = WatchManager.on_entry tf (WatchManager.drive SeriesRollingFsm.SwitchComplete) (WatchManager.on_book_data_received tf 0 (watch_manager_ b)) /\
  watcher_books_ b2 = (if nonempty (sm_token_id_down old) then clear_book (sm_token_id_down old) else id)
                        ((if nonempty (sm_token_id_up old) then clear_book (sm_token_id_up old) else id) (watcher_books_ b)) /\
  watcher_pending_trades_ b2 = set_tf tf [] (watcher_pending_trades_ b) /\ watcher_tick_size_ b2 = set_tf tf 100 (watcher_tick_size_ b) /\
  watcher_service_ b2 = (fun calls => calls ++ [WatchManager.active_asset_ids (series_registry_ b2) (watch_manager_ b2)]) <$> watcher_service_ b.
Proof.
  intros Hcur. unfold execute_rollover. rewrite Hcur. cbv zeta iota. eexists. split; [reflexivity|]. unfold drive_fsm, refresh_watcher_subscriptions.
  destruct (nonempty (sm_token_id_up old)), (nonempty (sm_token_id_down old)), (watcher_service_ b) as [calls|] eqn:E; simpl; rewrite ?E; simpl;
    rewrite ?active_drive; split_and!; first [reflexivity|exact E].
Qed.

Lemma clear_has t t' (st : WatcherBookStore) : has_book t (clear_book t' st) = if decide (t = t') then false else has_book t st.
Proof.
  unfold has_book, clear_book. simpl. case_decide as E; [subst; by rewrite lookup_delete_eq|by rewrite lookup_delete_ne by congruence].
Qed.
Lemma clear_other t t' (st : WatcherBookStore) : t <> t' -> book_of t (clear_book t' st) = book_of t st.
Proof. intros Hne. unfold book_of, clear_book. simpl. by rewrite lookup_delete_ne by congruence. Qed.

(** What a rollover does to its series, and to the other one. *)
Lemma rollover_spec tf old current b : BtcSeriesRegistry.current tf (series_registry_ b) = Some old ->
  BtcSeriesRegistry.next tf (series_registry_ b) = Some current -> fsm_state tf b = WatcherState.ROLLING ->
  let b' := execute_rollover tf b in
  BtcSeriesRegistry.current tf (series_registry_ b') = Some current /\ BtcSeriesRegistry.next tf (series_registry_ b') = None /\
  fsm_state tf b' = WatcherState.CONNECTING /\ WatchManager.last_book_update tf (watch_manager_ b') = 0 /\
  at_tf tf (watcher_pending_trades_ b') = [] /\ at_tf tf (watcher_tick_size_ b') = 100 /\
  (forall t, t = sm_token_id_up old \/ t = sm_token_id_down old -> nonempty t = true -> has_book t (watcher_books_ b') = false) /\
  (forall t, t <> sm_token_id_up old -> t <> sm_token_id_down old -> book_of t (watcher_books_ b') = book_of t (watcher_books_ b)) /\
  (forall calls, watcher_service_ b = Some calls ->
     watcher_service_ b' = Some (calls ++ [WatchManager.active_asset_ids (series_registry_ b') (watch_manager_ b')])) /\
  (forall tf', tf <> tf' -> at_tf tf' (series_registry_ b') = at_tf tf' (series_registry_ b) /\ fsm_state tf' b' = fsm_state tf' b /\
     at_tf tf' (watcher_pending_trades_ b') = at_tf tf' (watcher_pending_trades_ b) /\ at_tf tf' (watcher_tick_size_ b') = at_tf tf' (watcher_tick_size_ b)).
Proof.
  intros Hcur Hnext Hst. cbv zeta. destruct (rollover_state tf old b Hcur) as (b2 & -> & Er & Em & Eb & Et & Ek & Es).
  destruct (send_same (serialize_watcher_status tf (fsm_state tf b2)) b2) as [Sm Sr Sb Ss Sp Sk]. unfold send_watcher_status.
  set (b' := send_message _ b2) in *. clearbody b'. unfold fsm_state in *. rewrite Sm, Sr, Sb, Ss, Sp, Sk, Et, Ek, Es, Eb.
  split_and!.
  - rewrite Er, BtcSeriesRegistry.promote_current, Hnext. done.
  - rewrite Er. unfold BtcSeriesRegistry.next, BtcSeriesRegistry.promote_next in *. destruct (BtcSeriesRegistry.has_next_market_ (at_tf tf (series_registry_ b))) eqn:En; [|done].
    cbn [negb]. by rewrite at_set_eq.
  - rewrite Em. unfold WatchManager.on_entry, WatchManager.on_book_data_received, WatchManager.on_entry. rewrite !at_set_eq. cbn [WatchManager.drive WatchManager.fsm set].
    simpl. by rewrite Hst.
  - rewrite Em. unfold WatchManager.last_book_update, WatchManager.on_entry, WatchManager.on_book_data_received, WatchManager.on_entry. by rewrite !at_set_eq.
  - by rewrite at_set_eq.
  - by rewrite at_set_eq.
  - intros t Ht Hn. destruct (nonempty (sm_token_id_down old)) eqn:E1, (nonempty (sm_token_id_up old)) eqn:E2; unfold id; rewrite ?clear_has;
      repeat case_decide; try done; destruct Ht; congruence.
  - intros t H1' H2'. destruct (nonempty (sm_token_id_down old)), (nonempty (sm_token_id_up old)); unfold id; by rewrite ?clear_other by done.
  - intros calls ->. done.
  - intros tf' Hne. rewrite Er, Em. unfold BtcSeriesRegistry.promote_next, WatchManager.on_entry, WatchManager.on_book_data_received, WatchManager.on_entry.
    rewrite !at_set_tf, !decide_False by done. split_and!; try done.
    destruct (BtcSeriesRegistry.has_next_market_ _); cbn [negb]; [|done]. rewrite at_set_tf. by rewrite decide_False.
Qed.

(** A series follows its market.  When discovery finds a new open market for a
    series that is connected (or stale) on another one, the new market becomes the
    series' market, with the one discovered after it as the next; the books of the old
    tokens are gone, its trades and tick size are reset, the series is connecting
    again with no data seen, the service is asked for the tokens of the new market,
    and the other series is untouched. *)
Theorem series_rolls_over tf (old current : SeriesMarketInfo) (next : option SeriesMarketInfo) (b : Bridge (D := D) (Q := Q))
    (Hcur : BtcSeriesRegistry.current tf (series_registry_ b) = Some old) (Hnew : opens old current = true)
    (Hst : fsm_state tf b = WatcherState.CONNECTED \/ fsm_state tf b = WatcherState.STALE) :
  let b' := on_discovery_result tf current next b in
  BtcSeriesRegistry.current tf (series_registry_ b') = Some current /\
  BtcSeriesRegistry.next tf (series_registry_ b') = (if usable next then next else None) /\
  fsm_state tf b' = WatcherState.CONNECTING /\ WatchManager.last_book_update tf (watch_manager_ b') = 0 /\
  at_tf tf (watcher_pending_trades_ b') = [] /\ at_tf tf (watcher_tick_size_ b') = 100 /\
  (forall t, t = sm_token_id_up old \/ t = sm_token_id_down old -> nonempty t = true -> has_book t (watcher_books_ b') = false) /\
  (forall calls, watcher_service_ b = Some calls ->
     watcher_service_ b' = Some (calls ++ [WatchManager.active_asset_ids (series_registry_ b') (watch_manager_ b')])) /\
  (forall tf', tf <> tf' -> at_tf tf' (series_registry_ b') = at_tf tf' (series_registry_ b) /\ fsm_state tf' b' = fsm_state tf' b).
Proof.
  cbv zeta. assert (following tf b = true) as Hf by (unfold following; destruct Hst as [->| ->]; reflexivity).
  rewrite (discovery_changed tf old current next b Hcur Hf Hnew). cbv zeta. set (b1 := drive_fsm tf _ _).
  assert (fsm_state tf b1 = WatcherState.ROLLING) as Hr by (unfold b1; rewrite fsm_drive; change (fsm_state tf (update_registry _ _ _ b)) with (fsm_state tf b);
    by destruct Hst as [->| ->]).
  rewrite Hr. change (SeriesRollingFsm.is_rolling WatcherState.ROLLING) with true. cbv iota.
  destruct (rollover_spec tf old current b1) as (R1 & R2 & R3 & R4 & R5 & R6 & R7 & _ & R9 & R10);
    [apply BtcSeriesRegistry.update_current|apply BtcSeriesRegistry.update_next|exact Hr|]. set (b2 := execute_rollover tf b1) in *.
  assert (forall tf', tf <> tf' -> at_tf tf' (series_registry_ b2) = at_tf tf' (series_registry_ b) /\ fsm_state tf' b2 = fsm_state tf' b) as Hother.
  { intros tf' Hne. destruct (R10 tf' Hne) as (E1 & E2 & _). rewrite E1, E2. split.
    - change (at_tf tf' (series_registry_ b1)) with (at_tf tf' (BtcSeriesRegistry.update_from_discovery tf old (Some current) (series_registry_ b))).
      unfold BtcSeriesRegistry.update_from_discovery. by rewrite at_set_tf, decide_False.
    - unfold b1. by rewrite fsm_drive_ne. }
  clearbody b2. destruct (usable next) eqn:Hu; [|by split_and!].
  assert (forall m, WatchManager.active_asset_ids (BtcSeriesRegistry.update_from_discovery tf current next (series_registry_ b2)) m =
    WatchManager.active_asset_ids (series_registry_ b2) m) as Hact.
  { intros m. unfold WatchManager.active_asset_ids. assert (forall tf', BtcSeriesRegistry.current tf' (BtcSeriesRegistry.update_from_discovery tf current next (series_registry_ b2)) =
      BtcSeriesRegistry.current tf' (series_registry_ b2)) as Hc.
    { intros tf'. destruct (decide (tf = tf')) as [<-|Hne]; [by rewrite BtcSeriesRegistry.update_current|].
      unfold BtcSeriesRegistry.current, BtcSeriesRegistry.update_from_discovery. by rewrite at_set_tf, decide_False. }
    unfold kTimeframes. cbn [flat_map]. by rewrite !Hc. }
  rewrite R1. split_and!; try done.
  - apply BtcSeriesRegistry.update_current.
  - apply BtcSeriesRegistry.update_next.
  - intros calls Hcalls. change (watcher_service_ (update_registry tf current next b2)) with (watcher_service_ b2). rewrite (R9 calls Hcalls).
    change (series_registry_ (update_registry tf current next b2)) with (BtcSeriesRegistry.update_from_discovery tf current next (series_registry_ b2)).
    by rewrite Hact.
  - intros tf' Hne. destruct (Hother tf' Hne) as [E1 E2]. split; [|exact E2]. rewrite <- E1.
    change (series_registry_ (update_registry tf current next b2)) with (BtcSeriesRegistry.update_from_discovery tf current next (series_registry_ b2)).
    unfold BtcSeriesRegistry.update_from_discovery. by rewrite at_set_tf, decide_False.
Qed.

(** A series that is still connecting never rolls over.  If no book of its market has
    arrived yet, then however often discovery reports that the market was replaced
    by an open one, the series keeps the old market, stays connecting and no other
    tokens are subscribed. *)
Theorem connecting_series_stuck tf (old : SeriesMarketInfo) (found : list (SeriesMarketInfo * option SeriesMarketInfo)) (b : Bridge (D := D) (Q := Q))
    (Hcur : BtcSeriesRegistry.current tf (series_registry_ b) = Some old) (Hst : fsm_state tf b = WatcherState.CONNECTING)
    (Hfound : Forall (fun '(current, _) => opens old current = true) found) :
  let b' := foldl (fun b '(current, next) => on_discovery_result tf current next b) b found in
  BtcSeriesRegistry.current tf (series_registry_ b') = Some old /\ fsm_state tf b' = WatcherState.CONNECTING /\
  watcher_service_ b' = watcher_service_ b.
Proof.
  cbv zeta. revert b Hcur Hst. induction Hfound as [|[current next] found Hnew _ IH]; intros b Hcur Hst; [done|]. cbn [foldl].
  assert (following tf b = true) as Hf by (unfold following; by rewrite Hst).
  rewrite (discovery_changed tf old current next b Hcur Hf Hnew). cbv zeta. set (b1 := drive_fsm tf _ _).
  assert (fsm_state tf b1 = WatcherState.CONNECTING) as Hr by (unfold b1; rewrite fsm_drive; change (fsm_state tf (update_registry _ _ _ b)) with (fsm_state tf b); by rewrite Hst).
  rewrite Hr. change (SeriesRollingFsm.is_rolling WatcherState.CONNECTING) with false. cbv iota.
  assert (BtcSeriesRegistry.current tf (series_registry_ b1) = Some old) as Hc1 by apply BtcSeriesRegistry.update_current.
  assert (watcher_service_ b1 = watcher_service_ b) as Hs1 by done.
  destruct (usable next); [|rewrite <- Hs1; by apply IH]. rewrite Hc1, <- Hs1.
  apply (IH (update_registry tf old next b1)); [apply BtcSeriesRegistry.update_current|exact Hr].
Qed.
End Series.

(** ** Tick detection *)
Lemma gcd_loop_spec fuel a b : 0 <= a -> 0 <= b -> (Z.to_nat b < fuel)%nat -> gcd_loop fuel a b = Z.gcd a b.
Proof.
  revert a b. induction fuel as [|fuel IH]; intros a b Ha Hb Hf; [lia|]. cbn [gcd_loop]. destruct (Z.eqb_spec b 0) as [->|Hn].
  - rewrite Z.gcd_0_r. by rewrite Z.abs_eq.
  - rewrite Z.rem_mod_nonneg by lia. pose proof (Z.mod_pos_bound a b ltac:(lia)). rewrite IH by lia. rewrite Z.gcd_comm, Z.gcd_mod by lia. apply Z.gcd_comm.
Qed.
Lemma detect_fold prices g : 0 <= g -> let g' := foldl (fun g p => if p >? 0 then if g =? 0 then p else price_gcd g p else g) g prices in
  0 <= g' /\ (0 < g' <-> 0 < g \/ Exists (fun p => 0 < p) prices) /\
  forall t, (t | g') <-> (t | g) /\ Forall (fun p => 0 < p -> (t | p)) prices.
Proof.
  revert g. induction prices as [|p prices IH]; intros g Hg; cbv zeta; cbn [foldl].
  { split; [done|]. rewrite Exists_nil. split; [tauto|]. intros t. split; [by split|tauto]. }
  set (g1 := if p >? 0 then if g =? 0 then p else price_gcd g p else g).
  assert (0 <= g1 /\ (0 < g1 <-> 0 < g \/ 0 < p) /\ forall t, (t | g1) <-> (t | g) /\ (0 < p -> (t | p))) as (Hg1 & Hp1 & Hd1).
  { unfold g1. rewrite Z.gtb_ltb. destruct (Z.ltb_spec 0 p); [|split; [lia|]; split; [lia|]; intros t; split; [|tauto]; intros Ht; split; [done|lia]].
    destruct (Z.eqb_spec g 0) as [->|Hn].
    - split; [lia|]. split; [lia|]. intros t. split; [intros Ht; split; [apply Z.divide_0_r|done]|]. intros [_ Ht]. by apply Ht.
    - unfold price_gcd. rewrite gcd_loop_spec by lia. pose proof (Z.gcd_nonneg g p). split; [done|].
      assert (Z.gcd g p <> 0) by (intros E; apply Z.gcd_eq_0_l in E; lia). split; [lia|]. intros t. split.
      + intros Ht. split; [etrans; [exact Ht|apply Z.gcd_divide_l]|]. intros _. etrans; [exact Ht|apply Z.gcd_divide_r].
      + intros [Ha Hb]. apply Z.gcd_greatest; [done|]. by apply Hb. }
  destruct (IH g1 Hg1) as (H1 & H2 & H3). split; [done|]. rewrite Exists_cons. split; [rewrite H2, Hp1; tauto|].
  intros t. rewrite H3, Hd1, Forall_cons. tauto.
Qed.
(** The tick is the largest of 0.10, 0.05 and 0.01 that divides the positive prices. *)
Theorem tick_detected (prices : list Z) : (2 <= length prices)%nat ->
  let all_multiples t := Exists (fun p => 0 < p) prices /\ Forall (fun p => 0 < p -> (t | p)) prices in
  (detect_tick_from_prices prices = 1000 <-> all_multiples 1000) /\
  (detect_tick_from_prices prices = 500 <-> all_multiples 500 /\ ~ all_multiples 1000) /\
  (detect_tick_from_prices prices = 100 <-> ~ all_multiples 500).
Proof.
  intros Hl. cbv zeta. unfold detect_tick_from_prices. rewrite (proj2 (Nat.ltb_ge _ 2)) by done.
  destruct (detect_fold prices 0 ltac:(lia)) as (Hg & Hpos & Hdiv). set (g := foldl _ 0 prices) in *. clearbody g.
  assert (forall t, 0 < t -> (g >=? t) && (Z.rem g t =? 0) = true <-> Exists (fun p => 0 < p) prices /\ Forall (fun p => 0 < p -> (t | p)) prices) as Ht.
  { intros t Ht. specialize (Hdiv t). pose proof (Z.divide_0_r t). rewrite andb_true_iff, Z.geb_leb, Z.leb_le, Z.eqb_eq, Z.rem_mod_nonneg by lia.
    rewrite Z.mod_divide by lia. split.
    - intros [Hge Hd]. apply Hdiv in Hd. assert (0 < g) as Hg0 by lia. apply Hpos in Hg0. split; [|tauto]. destruct Hg0; [lia|done].
    - intros [He Hall]. assert (0 < g) as Hg0 by (apply Hpos; by right). assert (t | g) as Hd by (by apply Hdiv). split; [|done]. by apply Z.divide_pos_le. }
  pose proof (Ht 1000 ltac:(done)) as H1. pose proof (Ht 500 ltac:(done)) as H5. clear Ht Hdiv Hpos.
  assert (Forall (fun p => 0 < p -> (1000 | p)) prices -> Forall (fun p => 0 < p -> (500 | p)) prices) as Himp.
  { intros Hall. eapply Forall_impl; [exact Hall|]. intros p Hp Hp0. etrans; [|by apply Hp]. by exists 2. }
  destruct ((g >=? 1000) && _), ((g >=? 500) && _); split_and!; split; intros; try done; naive_solver.
Qed.

(** ** Commands *)
Section Delivery.
Context {D : Type} `{PrintfDouble D} {Q : Type -> Type} `{RingQueue Q} `{LevelSort} `{JsonParser}.
Implicit Types (b : Bridge (D := D) (Q := Q)) (env : Env) (q : SpscQueue Q SchedulerEvent).

Lemma consume_contents n q : contents (consume n q) = drop n (contents q).
Proof.
  unfold consume. induction n as [|n IH]; [by rewrite drop_0|]. cbn [Nat.iter nat_rect]. set (q1 := Nat.iter n _ q) in *.
  change (nat_rect _ _ _ n) with q1. destruct (front q1) as [x|] eqn:E.
  - pose proof (front_contents q1 x E) as Hc. rewrite <- Nat.add_1_r, <- drop_drop, <- IH, Hc. done.
  - unfold front in E. rewrite rq_front_spec in E. unfold contents in *. destruct (rq_contents (queue_ q1)) as [|x l] eqn:Ec; [|done].
    rewrite <- Nat.add_1_r, <- drop_drop, <- IH. done.
Qed.
Lemma push_retry_spec env n i ev q : exists k, let '(q', pushed) := push_retry env n i ev q in
  contents q' = drop k (contents q) ++ (if pushed : bool then [ev] else []).
Proof.
  revert i q. induction n as [|n IH]; intros i q; cbn [push_retry].
  { exists 0%nat. by rewrite drop_0, app_nil_r. }
  destruct (env_attempt env i) as [stop taken]. destruct stop; [exists 0%nat; by rewrite drop_0, app_nil_r|].
  pose proof (try_push_spec ev (consume taken q)) as Hs. destruct (try_push ev (consume taken q)) as [q1 []].
  - exists taken. destruct Hs as (_ & Hs & _). rewrite <- consume_contents. by apply Hs.
  - destruct Hs as (_ & _ & Hs). destruct (IH (S i) q1) as [k Hk]. exists (taken + k)%nat. destruct (push_retry env n (S i) ev q1) as [q' pushed].
    rewrite Hk, (proj1 (Hs eq_refl)), consume_contents, drop_drop. done.
Qed.

(** A valid command is put at the end of the control queue, behind what its consumer
    has not taken yet, or it is counted as dropped: never both and never neither. *)
Theorem command_delivered env json ev b : parse_ui_command json = Some ev -> is_watch_command json = false ->
  contains (literal "shutdown") json && contains (literal "cmd") json = false -> Counters.metrics_ok (metrics_ b) ->
  let b' := on_read env (Some json) b in
  fatal_flag_ b' = fatal_flag_ b /\
  exists k, (contents (br_control_queue_ b') = drop k (contents (br_control_queue_ b)) ++ [ev] /\
             Counters.get MetricId.UI_COMMANDS_DROPPED (metrics_ b') = Counters.get MetricId.UI_COMMANDS_DROPPED (metrics_ b)) \/
            (contents (br_control_queue_ b') = drop k (contents (br_control_queue_ b)) /\
             Counters.get MetricId.UI_COMMANDS_DROPPED (metrics_ b') =
               TokenInventory.wrap_i64 (Counters.get MetricId.UI_COMMANDS_DROPPED (metrics_ b) + 1)).
Proof.
  intros Hp Hw Hs Hm. cbv zeta. unfold on_read. rewrite Hs, Hw, Hp. destruct (push_retry_spec env kMaxPushRetries 0 ev (br_control_queue_ b)) as [k Hk].
  change (br_control_queue_ (inc_metric MetricId.UI_COMMANDS_RECEIVED b)) with (br_control_queue_ b).
  destruct (push_retry env kMaxPushRetries 0 ev (br_control_queue_ b)) as [q' []]; (split; [reflexivity|]); exists k; [left|right]; simpl;
    (split; [rewrite Hk, ?app_nil_r; reflexivity|]).
  - unfold Counters.inc. rewrite Counters.get_add by done. by rewrite decide_False.
  - unfold Counters.inc. rewrite Counters.get_add by (by apply Counters.with_cell_ok). rewrite decide_True by done. f_equal. rewrite Counters.get_add by done. by rewrite decide_False.
Qed.
End Delivery.

(** ** Examples *)
Section Examples.
#[local] Existing Instance printf_micro.
#[local] Existing Instance sort_by_insertion.
#[local] Existing Instance json_reader.

Definition empty_queue {A} : SpscQueue BoundedList A := mkSpscQueue (mkBoundedList [] 16) 0 0 0.
Definition sample_bridge : Bridge (D := Z) (Q := BoundedList) :=
  Bridge_new IpcBridgeConfig_default None empty_queue empty_queue empty_queue "me" "0x0".
Definition sample_env : Env := mkEnv 1000 None None (fun _ => LatencyTracker.mkLatencyTracker [] 0) (0, 0, 0, 0) (fun _ => (false, 0%nat)).
Definition now (i : Input (D := Z)) : Env * Input := (sample_env, i).
Definition done_ op r : Env * Input := now (IComplete op r).
(** A client connects on stream [sid]. *)
Definition connects (sid : nat) : list (Env * Input) := [done_ PAccept ROk; done_ (PWsAccept sid) ROk].
Definition command (cmd : string) (fields : list (string * Json)) : string := str_of (print_json (cmd_doc cmd fields)).
Definition says (sid : nat) (json : string) : Env * Input := done_ (PRead sid) (RData json).
Definition list_request : string := command "request_series_list" [].
Definition subscribe_request : string := command "watch_subscribe" [("series_key"%string, JString "BTC_5m")].


(** The bridge is shut down while the client's read and a write are outstanding, and a
    read fails while a write is outstanding: the stream is closed synchronously beside
    them. *)
Lemma close_beside_read :
  let busy := connects 0 ++ [says 0 list_request] in
  closes (session (run false sample_bridge (busy ++ [now (IPost PostShutdown)]))) = [(0%nat, [PWrite 0; PRead 0])] /\
  closes (session (run false sample_bridge (busy ++ [done_ (PRead 0) RErr]))) = [(0%nat, [PWrite 0])].
Proof. cbv zeta. split; vm_compute; reflexivity. Qed.

(** A client that disconnects while a message waits leaves it to the next client,
    who gets it after a newer one. *)
Lemma next_client_gets_old_messages :
  let inputs := connects 0 ++ [says 0 list_request; says 0 subscribe_request; done_ (PRead 0) RErr] ++
                connects 1 ++ [says 1 list_request; done_ (PWrite 1) ROk] in
  let s := session (run false sample_bridge inputs) in
  exists old_list new_list old_status, messages (writes s) = [old_list; new_list; old_status] /\
    (fst <$> (fst <$> writes s)) = [0; 1; 1]%nat /\ offered s = [old_list; old_status; new_list] /\
    old_status = serialize_watcher_status BTC_5M WatcherState.CONNECTING.
Proof. cbv zeta. do 3 eexists. split_and!; vm_compute; reflexivity. Qed.

(** After a failed write two accepts are outstanding.  The client that connects last
    is closed by the aborted read of the one it replaces. *)
Lemma aborted_read_closes_next_client :
  let failed := connects 0 ++ [says 0 list_request; done_ (PWrite 0) RErr; done_ (PRead 0) RErr] in
  let taken_over := failed ++ connects 1 ++ [done_ PAccept ROk] in
  length (filter (fun op => op = PAccept) (outstanding (session (run false sample_bridge failed)))) = 2%nat /\
  ws_ (session (run false sample_bridge taken_over)) = Some 2%nat /\
  ws_ (session (run false sample_bridge (taken_over ++ [done_ (PRead 1) RErr]))) = None.
Proof. cbv zeta. split_and!; vm_compute; reflexivity. Qed.

(** A command that mentions the word anywhere stops the process and is not delivered. *)
Lemma shutdown_word_in_command :
  let json := command "inventory_redeem" [("condition_id"%string, JString "0xc0"); ("token_id"%string, JString "shutdown")] in
  let b := run false sample_bridge (connects 0 ++ [says 0 json]) in
  parse_ui_command json = Some (make_inventory_redeem "0xc0" "shutdown" 0) /\ fatal_flag_ b = true /\ contents (br_control_queue_ b) = [].
Proof. cbv zeta. split_and!; vm_compute; reflexivity. Qed.

Definition market (c : string) : SeriesMarketInfo := series_market_info c (String.append c "-up") (String.append c "-down") false.
Definition post_discovery (current : SeriesMarketInfo) : Env * Input := now (IPost (PostDiscovery BTC_5M current None)).
Definition post_book (token : string) : Env * Input :=
  now (IPost (PostBookData (mkMarketEvent (EvBookSnapshot (mkBookSnapshot token "m" [mkPriceLevel 4500 10; mkPriceLevel 4000 5] [] 0 "")) 0 0))).
(** Watching the 5-minute series of market [a], with and without its first book. *)
Definition watching : list (Env * Input) := connects 0 ++ [post_discovery (market "a"); says 0 subscribe_request].

Lemma series_rolls_over_witness :
  let b := run true sample_bridge (watching ++ [post_book "a-up"]) in
  let b' := on_discovery_result BTC_5M (market "b") None b in
  fsm_state BTC_5M b = WatcherState.CONNECTED /\ has_book "a-up" (watcher_books_ b) = true /\ at_tf BTC_5M (watcher_tick_size_ b) = 500 /\
  BtcSeriesRegistry.current BTC_5M (series_registry_ b') = Some (market "b") /\ fsm_state BTC_5M b' = WatcherState.CONNECTING /\
  has_book "a-up" (watcher_books_ b') = false /\ watcher_service_ b' = Some [[]; ["a-up"; "a-down"]; ["b-up"; "b-down"]]%string.
Proof.
  cbv zeta. do 3 (split; [vm_compute; reflexivity|]). set (b := run true sample_bridge _).
  destruct (series_rolls_over BTC_5M (market "a") (market "b") None b) as (H1 & _ & H2 & _ & _ & _ & H3 & _).
  - vm_compute. reflexivity.
  - vm_compute. reflexivity.
  - left. vm_compute. reflexivity.
  - split; [exact H1|]. split; [exact H2|]. split; [apply (H3 "a-up"%string); [left; vm_compute; reflexivity|reflexivity]|]. vm_compute. reflexivity.
Defined.

Lemma connecting_series_stuck_witness :
  let b := run true sample_bridge watching in
  let found := [(market "b", None); (market "c", Some (market "d")); (market "e", None)] in
  let b' := foldl (fun b '(current, next) => on_discovery_result BTC_5M current next b) b found in
  BtcSeriesRegistry.current BTC_5M (series_registry_ b') = Some (market "a") /\ fsm_state BTC_5M b' = WatcherState.CONNECTING /\
  watcher_service_ b' = Some [[]; ["a-up"; "a-down"]]%string.
Proof.
  cbv zeta. set (b := run true sample_bridge _).
  destruct (connecting_series_stuck BTC_5M (market "a") [(market "b", None); (market "c", Some (market "d")); (market "e", None)] b) as (H1 & H2 & H3).
  - vm_compute. reflexivity.
  - vm_compute. reflexivity.
  - repeat (apply Forall_cons; split; [vm_compute; reflexivity|]). apply Forall_nil_2.
  - split; [exact H1|]. split; [exact H2|]. rewrite H3. vm_compute. reflexivity.
Defined.
End Examples.
