(* ===== verification/Strategies.v ===== *)
(** The strategies that ship with the engine: [src/scheduler/test_strategy.cpp],
    [inventory_test_strategy.cpp] and [quoter_v2_strategy.h], as instances of the
    interfaces [Strategy] and [FeedStrategy] of [strategy.h].

    The smoke test is a state machine of three phases over two order slots; the
    inventory test drives split, merge and redemption; the quoting strategy is the
    published template, which emits nothing.  Strategy and scheduler hold the same
    market registry, which is that of the context.  The log file is left out.

    Shown: whatever events arrive and however often the smoke test is enabled, it
    sends at most eleven intents, all for one token, with client ids that are all
    different, and cancels only orders it has placed; the inventory test asks at
    most for one split, one merge and one redemption, in this order; the answers of
    each strategy to acknowledgements are within a budget, so that the passes of
    the strategy thread end. *)
From S2P Require Import Prelude Types Price OrderBook Events MarketPair RiskGate Scheduler SchedulerLoop.

(** ** The smoke test *)
Module TestPhase.
Inductive TestPhase :=
  | WAIT_FOR_BBO
  | P1_PLACE | P1_WAIT_ACCEPTED | P1_WAIT_LIVE | P1_HOLD | P1_CANCEL | P1_WAIT_CANCELED
  | P2_PLACE | P2_WAIT_ACCEPTED | P2_WAIT_FILLS | P2_CLEANUP | P2_WAIT_CLEANUP
  | P3_FAK_BUY | P3_WAIT_BUY | P3_FAK_SELL | P3_WAIT_SELL
  | DONE.
#[export] Instance TestPhase_eq_dec : EqDecision TestPhase.
Proof. solve_decision. Defined.
End TestPhase.
Export (hints) TestPhase.
Abbreviation TestPhase := TestPhase.TestPhase.

Record OrderSlot := mkOrderSlot {
  os_client_id : OrderId;
  os_exchange_id : OrderId;
  os_accepted : bool;
  os_live : bool;
  os_filled : bool;
  os_canceled : bool;
  os_rejected : bool;
  os_filled_qty : Z;
  os_side : Side }.
Definition OrderSlot_reset : OrderSlot := mkOrderSlot "" "" false false false false false 0 BID.

Record TestStrategy := mkTestStrategy {
  ts_enabled_ : bool;
  phase_ : TestPhase;
  ts_next_intent_id_ : Z;
  state_entered_ts_ : Z;
  captured_asset_id_ : AssetId;
  captured_market_id_ : AssetId;
  latest_bid_ : Z;
  latest_ask_ : Z;
  slot_0 : OrderSlot;
  slot_1 : OrderSlot;
  cleanup_hedge_done_ : bool;
  cleanup_cancel_done_ : bool;
  cleanup_unfilled_idx_ : Z;
  cleanup_retry_issued_ : bool }.
Definition TestStrategy_new : TestStrategy :=
  mkTestStrategy false TestPhase.WAIT_FOR_BBO 0 0 "" "" kInvalidPrice kInvalidPrice OrderSlot_reset OrderSlot_reset
    false false (-1) false.

Definition kMinLimitQty : Z := 5 * kQtyScale.
Definition kMinTakerNotional : Z := 10000.
Definition kTimeoutNs : Z := 30000000000.
Definition kHoldNs : Z := 10000000000.

Implicit Types (t : TestStrategy) (ev : SchedulerEvent) (now : Z).

(** [slot_[i]] *)
Definition slot_at (i : Z) t : OrderSlot := if i =? 0 then slot_0 t else slot_1 t.
Definition set_slot (i : Z) (f : OrderSlot -> OrderSlot) t : TestStrategy :=
  if i =? 0 then t <| slot_0 ::= f |> else t <| slot_1 ::= f |>.
Definition reset_slots t : TestStrategy := t <| slot_0 := OrderSlot_reset |> <| slot_1 := OrderSlot_reset |>.

Definition transition (next : TestPhase) now t : TestStrategy := t <| phase_ := next |> <| state_entered_ts_ := now |>.

Definition taker_qty_for_price (price : Z) : Z :=
  if price <=? 0 then kMinLimitQty else Z.max kMinLimitQty (((kMinTakerNotional + price - 1) ÷ price) * kQtyScale).

(** [state_entered_ts_ > 0 && now > 0 && (now - state_entered_ts_)] against a limit. *)
Definition check_timeout now t : option TestStrategy :=
  if (state_entered_ts_ t >? 0) && (now >? 0) && (now - state_entered_ts_ t >? kTimeoutNs)
  then Some (t <| phase_ := TestPhase.DONE |> <| ts_enabled_ := false |>) else None.
Definition held now t : bool := (state_entered_ts_ t >? 0) && (now >? 0) && (now - state_entered_ts_ t >=? kHoldNs).

(** A market event with top-of-book prices. *)
Definition is_book_event ev : bool :=
  bool_decide (source ev = EventSource.MARKET_WS) &&
  (bool_decide (kind ev = SchedulerEventKind.MARKET_BBO_UPDATE) ||
   bool_decide (kind ev = SchedulerEventKind.MARKET_BOOK_SNAPSHOT) ||
   bool_decide (kind ev = SchedulerEventKind.MARKET_PRICE_CHANGE)).

Definition refresh_bbo ev t : TestStrategy :=
  if negb (is_book_event ev) then t else
  if nonempty (captured_asset_id_ t) && negb (id_eqb (asset_id ev) (captured_asset_id_ t)) then t else
  let t := if best_bid (ev_bbo ev) =? kInvalidPrice then t else t <| latest_bid_ := best_bid (ev_bbo ev) |> in
  if best_ask (ev_bbo ev) =? kInvalidPrice then t else t <| latest_ask_ := best_ask (ev_bbo ev) |>.

(** *** Reports on the two orders *)

(** The loop over the slots: the first that matches is updated. *)
Definition first_slot (matches : OrderSlot -> bool) (f : OrderSlot -> OrderSlot) t : TestStrategy :=
  if matches (slot_0 t) then t <| slot_0 ::= f |> else if matches (slot_1 t) then t <| slot_1 ::= f |> else t.

Definition on_feedback ev (o : OrderSlot) : OrderSlot :=
  match exec_feedback_kind ev with
  | ExecFeedbackKind.ORDER_ACCEPTED =>
      if exec_accepted ev then o <| os_accepted := true |> <| os_exchange_id := order_id ev |> <| os_live := true |> else o
  | ExecFeedbackKind.ORDER_REJECTED | ExecFeedbackKind.RATE_LIMITED | ExecFeedbackKind.EXCHANGE_UNAVAILABLE =>
      o <| os_rejected := true |>
  | ExecFeedbackKind.CANCEL_CONFIRMED => o <| os_canceled := true |>
  | _ => o
  end.

Definition on_order_update ev (o : OrderSlot) : OrderSlot :=
  let o := if user_cumulative_filled ev >? os_filled_qty o then o <| os_filled_qty := user_cumulative_filled ev |> else o in
  let status := order_status_raw ev in
  let o := if bool_decide (status = OrderStatus.LIVE) then o <| os_live := true |> else o in
  let o := if bool_decide (status = OrderStatus.PARTIAL) && (os_filled_qty o >? 0) then o <| os_filled := true |> else o in
  let o := if bool_decide (status = OrderStatus.CANCELED) then o <| os_canceled := true |> else o in
  if bool_decide (status = OrderStatus.FILLED) then o <| os_filled := true |> else o.

Definition on_trade_update ev (o : OrderSlot) : OrderSlot :=
  let o := o <| os_filled := true |> in
  if user_fill_size ev >? 0 then o <| os_filled_qty ::= Z.add (user_fill_size ev) |> else o.

Definition process_order_event ev t : TestStrategy :=
  match source ev, kind ev with
  | EventSource.EXEC_INTERNAL, (SchedulerEventKind.EXEC_ORDER_ACK | SchedulerEventKind.EXEC_ORDER_REJECT) =>
      first_slot (fun o => nonempty (os_client_id o) && id_eqb (client_order_id ev) (os_client_id o)) (on_feedback ev) t
  | EventSource.USER_WS, SchedulerEventKind.USER_ORDER_UPDATE =>
      first_slot (fun o => nonempty (os_client_id o) &&
        ((id_eqb (order_id ev) (os_exchange_id o) && nonempty (os_exchange_id o)) || id_eqb (client_order_id ev) (os_client_id o)))
        (on_order_update ev) t
  | EventSource.USER_WS, SchedulerEventKind.USER_TRADE_UPDATE =>
      if is_new_fill ev
      then first_slot (fun o => nonempty (os_exchange_id o) && id_eqb (order_id ev) (os_exchange_id o)) (on_trade_update ev) t
      else t
  | _, _ => t
  end.

(** *** The handlers of the phases *)

(** The client id of an intent: [lt-test-%u]. *)
Definition test_oid (intent_id : Z) : OrderId :=
  mk_OrderId ("lt-test-" +:+ String.string_of_list_ascii (to_string intent_id)).

Definition next_id t : TestStrategy := t <| ts_next_intent_id_ ::= fun n => wrap_u32 (n + 1) |>.
Definition placement (action : IntentAction) (price qty : Z) (ot : OrderType) now t : ExecutionIntent :=
  ExecutionIntent_default <| ei_action := action |> <| ei_asset_id := captured_asset_id_ t |>
    <| ei_market_id := captured_market_id_ t |> <| ei_price := price |> <| ei_qty := qty |> <| ei_order_type := ot |>
    <| ei_intent_id := ts_next_intent_id_ t |> <| ei_recv_ts := now |> <| ei_client_order_id := test_oid (ts_next_intent_id_ t) |>.
Definition cancellation (action : IntentAction) (o : OrderSlot) now t : ExecutionIntent :=
  ExecutionIntent_default <| ei_action := action |> <| ei_asset_id := captured_asset_id_ t |>
    <| ei_market_id := captured_market_id_ t |> <| ei_exchange_order_id := os_exchange_id o |>
    <| ei_client_order_id := os_client_id o |> <| ei_intent_id := ts_next_intent_id_ t |> <| ei_recv_ts := now |>.

Abbreviation Answer := (TestStrategy * list ExecutionIntent)%type.

(** The two orders of phase one and of phase two. *)
Definition place_both (bid_price ask_price : Z) (next : TestPhase) now t : Answer :=
  let t := t <| slot_0 := OrderSlot_reset <| os_side := BID |> |> <| slot_1 := OrderSlot_reset <| os_side := ASK |> |> in
  let bid := placement IntentAction.WOULD_PLACE_BID bid_price kMinLimitQty GTC now t in
  let t := next_id t <| slot_0 ::= fun o => o <| os_client_id := ei_client_order_id bid |> |> in
  let ask := placement IntentAction.WOULD_PLACE_ASK ask_price kMinLimitQty GTC now t in
  let t := next_id t <| slot_1 ::= fun o => o <| os_client_id := ei_client_order_id ask |> |> in
  (transition next now t, batch_add (batch_add [] bid) ask).
Definition cancel_both (next : TestPhase) now t : Answer :=
  let c0 := cancellation IntentAction.WOULD_CANCEL_BID (slot_0 t) now t in
  let t := next_id t in
  let c1 := cancellation IntentAction.WOULD_CANCEL_ASK (slot_1 t) now t in
  let t := next_id t <| slot_0 ::= fun o => o <| os_canceled := false |> |> <| slot_1 ::= fun o => o <| os_canceled := false |> |> in
  (transition next now t, batch_add (batch_add [] c0) c1).

Definition handle_p1_place now t : Answer := place_both 100 9900 TestPhase.P1_WAIT_ACCEPTED now t.
Definition handle_p1_cancel now t : Answer := cancel_both TestPhase.P1_WAIT_CANCELED now t.
Definition handle_p1_wait_accepted t : Answer :=
  if os_accepted (slot_0 t) && os_accepted (slot_1 t) then (transition TestPhase.P1_WAIT_LIVE (state_entered_ts_ t) t, [])
  else if os_rejected (slot_0 t) || os_rejected (slot_1 t)
  then handle_p1_cancel (state_entered_ts_ t) (transition TestPhase.P1_CANCEL (state_entered_ts_ t) t) else (t, []).
Definition handle_p1_wait_live t : Answer :=
  if os_live (slot_0 t) && os_live (slot_1 t) then (transition TestPhase.P1_HOLD (state_entered_ts_ t) t, []) else (t, []).
Definition handle_p1_hold now t : Answer :=
  if held now t then handle_p1_cancel now (transition TestPhase.P1_CANCEL now t) else (t, []).

Definition handle_p2_place now t : Answer := place_both (latest_ask_ t) (latest_bid_ t) TestPhase.P2_WAIT_ACCEPTED now t.
Definition finished (o : OrderSlot) : bool := os_canceled o || os_rejected o.
Definition handle_p1_wait_canceled t : Answer :=
  if finished (slot_0 t) && finished (slot_1 t)
  then handle_p2_place (state_entered_ts_ t) (transition TestPhase.P2_PLACE (state_entered_ts_ t) (reset_slots t)) else (t, []).

(** The aggressive orders of phase three. *)
Definition handle_p3_fak_buy now t : Answer :=
  let t := t <| slot_0 := OrderSlot_reset <| os_side := BID |> |> in
  let intent := placement IntentAction.WOULD_PLACE_BID (latest_ask_ t) (taker_qty_for_price (latest_ask_ t)) FAK now t in
  let t := next_id t <| slot_0 ::= fun o => o <| os_client_id := ei_client_order_id intent |> |> in
  (transition TestPhase.P3_WAIT_BUY now t, batch_add [] intent).
Definition handle_p3_fak_sell now t : Answer :=
  let t := t <| slot_1 := OrderSlot_reset <| os_side := ASK |> |> in
  let intent := placement IntentAction.WOULD_PLACE_ASK (latest_bid_ t) (taker_qty_for_price (10000 - latest_bid_ t)) FAK now t in
  let t := next_id t <| slot_1 ::= fun o => o <| os_client_id := ei_client_order_id intent |> |> in
  (transition TestPhase.P3_WAIT_SELL now t, batch_add [] intent).
Definition settled (o : OrderSlot) : bool := os_accepted o || os_filled o || os_rejected o.
Definition handle_p3_wait_buy t : Answer :=
  if settled (slot_0 t)
  then handle_p3_fak_sell (state_entered_ts_ t)
         (transition TestPhase.P3_FAK_SELL (state_entered_ts_ t) (t <| slot_0 := OrderSlot_reset |>)) else (t, []).
Definition handle_p3_wait_sell t : Answer :=
  if settled (slot_1 t) then (transition TestPhase.DONE (state_entered_ts_ t) t <| ts_enabled_ := false |>, []) else (t, []).

(** The order that flattens a filled side; [slot_[idx]] then follows it. *)
Definition hedge_order (idx : Z) (action : IntentAction) (price qty : Z) now t : Answer :=
  let hedge := placement action price qty FAK now t in
  (set_slot idx (fun _ => OrderSlot_reset
     <| os_side := if bool_decide (action = IntentAction.WOULD_PLACE_BID) then BID else ASK |>
     <| os_client_id := ei_client_order_id hedge |> <| os_filled_qty := qty |>) (next_id t), batch_add [] hedge).

(** One side is filled: flatten it and cancel the other order. *)
Definition hedge_and_cancel (bid_filled : bool) now t : Answer :=
  let filled_idx := if bid_filled then 0 else 1 in
  let unfilled_idx := if bid_filled then 1 else 0 in
  let t := t <| cleanup_unfilled_idx_ := unfilled_idx |> in
  let hedge_qty := os_filled_qty (slot_at filled_idx t) in
  let hedge_qty := if hedge_qty <=? 0 then kMinLimitQty else hedge_qty in
  let hedge_qty := Z.min hedge_qty kMinLimitQty in
  let '(t, hedge) := if bid_filled then hedge_order filled_idx IntentAction.WOULD_PLACE_ASK (latest_bid_ t) hedge_qty now t
                     else hedge_order filled_idx IntentAction.WOULD_PLACE_BID (latest_ask_ t) hedge_qty now t in
  let cancel := cancellation (if unfilled_idx =? 0 then IntentAction.WOULD_CANCEL_BID else IntentAction.WOULD_CANCEL_ASK)
                  (slot_at unfilled_idx t) now t in
  let t := set_slot unfilled_idx (fun o => o <| os_canceled := false |>) (next_id t) in
  (transition TestPhase.P2_WAIT_CLEANUP now t, batch_add hedge cancel).

Definition handle_p2_cleanup now t : Answer :=
  let t := t <| cleanup_hedge_done_ := false |> <| cleanup_cancel_done_ := false |> <| cleanup_unfilled_idx_ := -1 |>
             <| cleanup_retry_issued_ := false |> in
  let bid_filled := os_filled (slot_0 t) in
  let ask_filled := os_filled (slot_1 t) in
  if bid_filled && ask_filled then
    let t := t <| cleanup_hedge_done_ := true |> <| cleanup_cancel_done_ := true |> in
    handle_p3_fak_buy now (reset_slots (transition TestPhase.P3_FAK_BUY now t))
  else if negb bid_filled && negb ask_filled then
    cancel_both TestPhase.P2_WAIT_CLEANUP now (t <| cleanup_hedge_done_ := true |>)
  else hedge_and_cancel bid_filled now t.

Definition handle_p2_wait_accepted t : Answer :=
  if os_accepted (slot_0 t) && os_accepted (slot_1 t) then (transition TestPhase.P2_WAIT_FILLS (state_entered_ts_ t) t, [])
  else if os_rejected (slot_0 t) || os_rejected (slot_1 t)
  then handle_p2_cleanup (state_entered_ts_ t) (transition TestPhase.P2_CLEANUP (state_entered_ts_ t) t) else (t, []).
Definition handle_p2_wait_fills now t : Answer :=
  if os_filled (slot_0 t) && os_filled (slot_1 t)
  then handle_p3_fak_buy now (transition TestPhase.P3_FAK_BUY now (reset_slots t))
  else if held now t then handle_p2_cleanup now (transition TestPhase.P2_CLEANUP now t) else (t, []).

(** The hedge order was rejected: once more, then the strategy stops. *)
Definition hedge_rejected (hedge_idx : Z) ev t : Answer :=
  let now := if recv_ts ev >? 0 then recv_ts ev else state_entered_ts_ t in
  if negb (cleanup_retry_issued_ t) then
    let action := if side_eqb (os_side (slot_at hedge_idx t)) BID then IntentAction.WOULD_PLACE_BID else IntentAction.WOULD_PLACE_ASK in
    let price := if bool_decide (action = IntentAction.WOULD_PLACE_BID) then latest_ask_ t else latest_bid_ t in
    let price := if price =? kInvalidPrice then 5000 else price in
    let '(t, retry) := hedge_order hedge_idx action price kMinLimitQty now t in
    (t <| cleanup_retry_issued_ := true |>, retry)
  else
    let t := t <| cleanup_unfilled_idx_ := -1 |> <| cleanup_retry_issued_ := false |> in
    (transition TestPhase.DONE now t <| ts_enabled_ := false |>, []).

Definition handle_p2_wait_cleanup ev t : Answer :=
  let buy t := handle_p3_fak_buy (state_entered_ts_ t) (transition TestPhase.P3_FAK_BUY (state_entered_ts_ t) t) in
  if cleanup_unfilled_idx_ t <? 0 then
    if finished (slot_0 t) && finished (slot_1 t) then buy (reset_slots t <| cleanup_retry_issued_ := false |>) else (t, [])
  else
    let unfilled_idx := cleanup_unfilled_idx_ t in
    let hedge_idx := 1 - unfilled_idx in
    if finished (slot_at unfilled_idx t) then
      if os_accepted (slot_at hedge_idx t) || os_filled (slot_at hedge_idx t)
      then buy (reset_slots t <| cleanup_unfilled_idx_ := -1 |> <| cleanup_retry_issued_ := false |>)
      else if os_rejected (slot_at hedge_idx t) then hedge_rejected hedge_idx ev t else (t, [])
    else (t, []).

Definition handle_wait_for_bbo (pairs : option MarketPairRegistry) ev t : Answer :=
  if negb (is_book_event ev) then (t, []) else
  if (best_bid (ev_bbo ev) =? kInvalidPrice) || (best_ask (ev_bbo ev) =? kInvalidPrice) then (t, []) else
  match pairs with
  | None => (t, [])
  | Some reg =>
      match condition_for_token reg (asset_id ev) with
      | None => (t, [])
      | Some cond =>
          match find_by_condition reg cond with
          | None => (t, [])
          | Some mp =>
              if negb (id_eqb (asset_id ev) (token_id_up mp)) && negb (id_eqb (asset_id ev) (token_id_down mp)) then (t, [])
              else
                let t := t <| captured_asset_id_ := asset_id ev |> <| captured_market_id_ := cond |>
                           <| latest_bid_ := best_bid (ev_bbo ev) |> <| latest_ask_ := best_ask (ev_bbo ev) |> in
                handle_p1_place (recv_ts ev) (transition TestPhase.P1_PLACE (recv_ts ev) t)
          end
      end
  end.

Definition dispatch (pairs : option MarketPairRegistry) ev t : Answer :=
  let now := recv_ts ev in
  match phase_ t with
  | TestPhase.WAIT_FOR_BBO => handle_wait_for_bbo pairs ev t
  | TestPhase.P1_PLACE => handle_p1_place now t
  | TestPhase.P1_WAIT_ACCEPTED => handle_p1_wait_accepted t
  | TestPhase.P1_WAIT_LIVE => handle_p1_wait_live t
  | TestPhase.P1_HOLD => handle_p1_hold now t
  | TestPhase.P1_CANCEL => handle_p1_cancel now t
  | TestPhase.P1_WAIT_CANCELED => handle_p1_wait_canceled t
  | TestPhase.P2_PLACE => handle_p2_place now t
  | TestPhase.P2_WAIT_ACCEPTED => handle_p2_wait_accepted t
  | TestPhase.P2_WAIT_FILLS => handle_p2_wait_fills now t
  | TestPhase.P2_CLEANUP => handle_p2_cleanup now t
  | TestPhase.P2_WAIT_CLEANUP => handle_p2_wait_cleanup ev t
  | TestPhase.P3_FAK_BUY => handle_p3_fak_buy now t
  | TestPhase.P3_WAIT_BUY => handle_p3_wait_buy t
  | TestPhase.P3_FAK_SELL => handle_p3_fak_sell now t
  | TestPhase.P3_WAIT_SELL => handle_p3_wait_sell t
  | TestPhase.DONE => (t <| ts_enabled_ := false |>, [])
  end.

Definition test_evaluate (pairs : option MarketPairRegistry) ev t : Answer :=
  if negb (ts_enabled_ t) then (t, []) else
  if bool_decide (phase_ t = TestPhase.DONE) then (t, []) else
  if bool_decide (kind ev = SchedulerEventKind.MARKET_RESOLVED)
  then (t <| phase_ := TestPhase.DONE |> <| ts_enabled_ := false |>, []) else
  let t := refresh_bbo ev t in
  match (if bool_decide (phase_ t = TestPhase.WAIT_FOR_BBO) then None else check_timeout (recv_ts ev) t) with
  | Some t => (t, [])
  | None => dispatch pairs ev (process_order_event ev t)
  end.

(** ** The inventory test *)
Module InvTestPhase.
Inductive InvTestPhase :=
  | WAIT_FOR_BBO | SPLIT_REQUEST | WAIT_SPLIT_HOLD | MERGE_REQUEST | WAIT_RESOLVED | REDEEM_REQUEST | DONE.
#[export] Instance InvTestPhase_eq_dec : EqDecision InvTestPhase.
Proof. solve_decision. Defined.
End InvTestPhase.
Export (hints) InvTestPhase.
Abbreviation InvTestPhase := InvTestPhase.InvTestPhase.

Record InventoryTestStrategy := mkInventoryTestStrategy {
  it_enabled_ : bool;
  it_phase_ : InvTestPhase;
  next_request_id_ : Z;
  it_state_entered_ts_ : Z;
  captured_condition_id_ : AssetId }.
Definition InventoryTestStrategy_new : InventoryTestStrategy :=
  mkInventoryTestStrategy false InvTestPhase.WAIT_FOR_BBO 0 0 "".

Definition kSplitQty : Z := 2 * kQtyScale.
Definition kMergeQty : Z := 1 * kQtyScale.

Definition it_transition (next : InvTestPhase) now (t : InventoryTestStrategy) : InventoryTestStrategy :=
  t <| it_phase_ := next |> <| it_state_entered_ts_ := now |>.
Definition it_abort (t : InventoryTestStrategy) : InventoryTestStrategy :=
  t <| it_phase_ := InvTestPhase.DONE |> <| it_enabled_ := false |>.
Definition it_check_timeout now (t : InventoryTestStrategy) : option InventoryTestStrategy :=
  if (it_state_entered_ts_ t >? 0) && (now >? 0) && (now - it_state_entered_ts_ t >? kTimeoutNs)
  then Some (it_abort t) else None.

Section InventoryTest.
Context {K : Type} `{InventoryOpSink K}.
Implicit Types (k : option K) (pairs : option MarketPairRegistry).

(** What the three request handlers share: without a sink, or when it refuses, the
    test is aborted. *)
Definition send_request (type : InventoryOpType) (token : AssetId) (quantity : Z) (next : InvTestPhase) (last : bool)
    pairs ev k (t : InventoryTestStrategy) : InventoryTestStrategy * option K :=
  match k with
  | None => (it_abort t, None)
  | Some sink =>
      let found := match pairs with Some reg => find_by_condition reg (captured_condition_id_ t) | None => None end in
      let req := mkInventoryOpRequest type (captured_condition_id_ t) token
        (match found with Some p => token_id_up p | None => ""%string end)
        (match found with Some p => token_id_down p | None => ""%string end)
        quantity (next_request_id_ t) (recv_ts ev) in
      let t := t <| next_request_id_ ::= fun n => wrap_u32 (n + 1) |> in
      let '(sink, ok) := try_request req sink in
      (if negb ok then it_abort t
       else if last then it_transition next (recv_ts ev) t <| it_enabled_ := false |>
       else it_transition next (recv_ts ev) t, Some sink)
  end.
Definition handle_split_request pairs ev k (t : InventoryTestStrategy) : InventoryTestStrategy * option K :=
  send_request SPLIT "" kSplitQty InvTestPhase.WAIT_SPLIT_HOLD false pairs ev k t.
Definition handle_merge_request pairs ev k (t : InventoryTestStrategy) : InventoryTestStrategy * option K :=
  send_request MERGE "" kMergeQty InvTestPhase.WAIT_RESOLVED false pairs ev k t.
Definition handle_redeem_request pairs ev k (t : InventoryTestStrategy) : InventoryTestStrategy * option K :=
  send_request REDEEM (resolved_winning_asset_id ev) 0 InvTestPhase.DONE true pairs ev k t.

Definition it_handle_wait_for_bbo pairs ev k (t : InventoryTestStrategy) : InventoryTestStrategy * option K :=
  if negb (is_book_event ev) then (t, k) else
  if (best_bid (ev_bbo ev) =? kInvalidPrice) || (best_ask (ev_bbo ev) =? kInvalidPrice) then (t, k) else
  match pairs with
  | None => (t, k)
  | Some reg =>
      match condition_for_token reg (asset_id ev) with
      | None => (t, k)
      | Some cond =>
          let t := t <| captured_condition_id_ := cond |> in
          handle_split_request pairs ev k (it_transition InvTestPhase.SPLIT_REQUEST (recv_ts ev) t)
      end
  end.
Definition handle_wait_split_hold pairs ev k (t : InventoryTestStrategy) : InventoryTestStrategy * option K :=
  if (it_state_entered_ts_ t >? 0) && (recv_ts ev >? 0) && (recv_ts ev - it_state_entered_ts_ t >=? kHoldNs)
  then handle_merge_request pairs ev k (it_transition InvTestPhase.MERGE_REQUEST (recv_ts ev) t) else (t, k).
Definition handle_wait_resolved pairs ev k (t : InventoryTestStrategy) : InventoryTestStrategy * option K :=
  if negb (bool_decide (kind ev = SchedulerEventKind.MARKET_RESOLVED)) then (t, k) else
  if negb (id_eqb (resolved_condition_id ev) (captured_condition_id_ t)) then (t, k) else
  handle_redeem_request pairs ev k (it_transition InvTestPhase.REDEEM_REQUEST (recv_ts ev) t).

Definition inventory_test_evaluate pairs ev k (t : InventoryTestStrategy) : InventoryTestStrategy * option K :=
  if negb (it_enabled_ t) then (t, k) else
  if bool_decide (it_phase_ t = InvTestPhase.DONE) then (t, k) else
  let timed := bool_decide (it_phase_ t = InvTestPhase.WAIT_FOR_BBO) || bool_decide (it_phase_ t = InvTestPhase.WAIT_SPLIT_HOLD) in
  match (if timed then it_check_timeout (recv_ts ev) t else None) with
  | Some t => (t, k)
  | None =>
      match it_phase_ t with
      | InvTestPhase.WAIT_FOR_BBO => it_handle_wait_for_bbo pairs ev k t
      | InvTestPhase.SPLIT_REQUEST => handle_split_request pairs ev k t
      | InvTestPhase.WAIT_SPLIT_HOLD => handle_wait_split_hold pairs ev k t
      | InvTestPhase.MERGE_REQUEST => handle_merge_request pairs ev k t
      | InvTestPhase.WAIT_RESOLVED => handle_wait_resolved pairs ev k t
      | InvTestPhase.REDEEM_REQUEST => handle_redeem_request pairs ev k t
      | InvTestPhase.DONE => (t <| it_enabled_ := false |>, k)
      end
  end.
End InventoryTest.

(** ** The quoting strategy's template *)
Inductive SkewMode := SYMMETRIC | ASYMMETRIC.
Record QuoterV2Config := mkQuoterV2Config {
  offset : Z; skew_strength : Z; max_skew : Z; max_inventory : Z; qv_quote_size : Z; min_order_size : Z; emergency_qty : Z;
  price_floor : Z; price_ceiling : Z; initial_split_size : Z; inventory_low_water : Z; inventory_replenish_size : Z;
  inventory_merge_threshold : Z; inventory_merge_size : Z; inventory_cooldown_ms : Z; max_replaces_per_second : Z;
  min_quote_lifetime_ms : Z; degraded_refresh_ms : Z; deterministic_timing : bool; skew_mode : SkewMode;
  soft_max_inventory : Z; hard_max_inventory : Z; market_duration_ms : Z; hard_cutoff_ms : Z; gamma_power_x1000 : Z;
  offset_growth_fp4 : Z; time_floor_mult_x1000 : Z; time_floor_threshold_ms : Z; fak_cooldown_ms : Z;
  fak_gamma_floor_x1000 : Z; stop_loss_distance_fp4 : Z }.
Definition QuoterV2Config_default : QuoterV2Config :=
  mkQuoterV2Config 300 20 200 50 20 5 10 900 9100 200 100 100 250 50 30000 5 500 5000 false SYMMETRIC 20 50 300000 12000
    1200 100 3000 20000 200 0 1500.
Record QuoterV2Strategy := mkQuoterV2Strategy {
  qv_config_ : QuoterV2Config;
  qv_enabled_ : bool;
  qv_degraded_ : bool;
  qv_dry_run_ : bool }.
Definition QuoterV2Strategy_new (c : QuoterV2Config) : QuoterV2Strategy := mkQuoterV2Strategy c false false true.

Definition qv_set_spread_ticks (ticks : Z) (q : QuoterV2Strategy) : QuoterV2Strategy :=
  q <| qv_config_ ::= fun c => c <| offset := ticks * 100 |> |>.
Definition qv_set_size (size : Z) (q : QuoterV2Strategy) : QuoterV2Strategy :=
  q <| qv_config_ ::= fun c => c <| qv_quote_size := wrap_i32 (size ÷ kQtyScale) |> |>.

(** ** The strategies as instances *)
Section Instances.
Context {I K : Type} `{InventoryOpSink K}.

#[export] Instance TestStrategy_strategy : Strategy TestStrategy I K := {|
  st_evaluate ctx k t := let '(t, batch) := test_evaluate (ctx_pairs I ctx) (ctx_event I ctx) t in (t, k, batch);
  st_set_enabled b t := t <| ts_enabled_ := b |>;
  st_enabled := ts_enabled_;
  st_set_size q t := t;
  st_set_dry_run b t := t;
  st_reset_all_quotes t := t;
  st_on_gateway_degraded t := t;
  st_on_gateway_recovered t := t;
  st_on_rate_limited t := t |}.
#[export] Instance InventoryTestStrategy_strategy : Strategy InventoryTestStrategy I K := {|
  st_evaluate ctx k x := let '(x, k) := inventory_test_evaluate (ctx_pairs I ctx) (ctx_event I ctx) k x in (x, k, []);
  st_set_enabled b x := x <| it_enabled_ := b |>;
  st_enabled := it_enabled_;
  st_set_size q x := x;
  st_set_dry_run b x := x;
  st_reset_all_quotes x := x;
  st_on_gateway_degraded x := x;
  st_on_gateway_recovered x := x;
  st_on_rate_limited x := x |}.
#[export] Instance QuoterV2Strategy_strategy : Strategy QuoterV2Strategy I K := {|
  st_evaluate ctx k q := (q, k, []);
  st_set_enabled b q := q <| qv_enabled_ := b |>;
  st_enabled := qv_enabled_;
  st_set_size := qv_set_size;
  st_set_dry_run b q := q <| qv_dry_run_ := b |>;
  st_reset_all_quotes q := q;
  st_on_gateway_degraded q := q <| qv_degraded_ := true |>;
  st_on_gateway_recovered q := q <| qv_degraded_ := false |>;
  st_on_rate_limited q := q <| qv_degraded_ := true |> |}.
End Instances.

Section Feeds.
Context {C B T : Type}.
#[export] Instance TestStrategy_feeds : FeedStrategy TestStrategy C B T := {|
  st_on_crypto_price c t := t; st_on_binance_update b t := t; st_set_rotation_timing x t := t;
  st_spread_ticks t := 30; st_quote_size t := 5 * kQtyScale |}.
#[export] Instance InventoryTestStrategy_feeds : FeedStrategy InventoryTestStrategy C B T := {|
  st_on_crypto_price c x := x; st_on_binance_update b x := x; st_set_rotation_timing y x := x;
  st_spread_ticks x := 30; st_quote_size x := qty_from_int 5 |}.
#[export] Instance QuoterV2Strategy_feeds : FeedStrategy QuoterV2Strategy C B T := {|
  st_on_crypto_price c q := q; st_on_binance_update b q := q; st_set_rotation_timing x q := q;
  st_spread_ticks q := offset (qv_config_ q) ÷ 100; st_quote_size q := qty_from_int (qv_quote_size (qv_config_ q)) |}.
End Feeds.

(** ** Runs of a strategy *)
Section Calls.
Context {ST I K C B T : Type} `{Strategy ST I K} `{FeedStrategy ST C B T}.

Inductive StrategyCall :=
  | CallEvaluate (ctx : StrategyContext I) (k : option K)
  | CallSetEnabled (b : bool) | CallSetSize (q : Z) | CallSetDryRun (b : bool) | CallResetQuotes
  | CallDegraded | CallRecovered | CallRateLimited
  | CallCryptoPrice (c : C) | CallBinance (b : B) | CallRotation (x : T).

Definition strategy_call (c : StrategyCall) (x : ST) : ST * list ExecutionIntent :=
  match c with
  | CallEvaluate ctx k => let '(x, _, out) := st_evaluate ctx k x in (x, out)
  | CallSetEnabled b => (st_set_enabled b x, [])
  | CallSetSize q => (st_set_size q x, [])
  | CallSetDryRun b => (st_set_dry_run b x, [])
  | CallResetQuotes => (st_reset_all_quotes x, [])
  | CallDegraded => (st_on_gateway_degraded x, [])
  | CallRecovered => (st_on_gateway_recovered x, [])
  | CallRateLimited => (st_on_rate_limited x, [])
  | CallCryptoPrice p => (st_on_crypto_price p x, [])
  | CallBinance b => (st_on_binance_update b x, [])
  | CallRotation y => (st_set_rotation_timing y x, [])
  end.
(** The strategy after the calls, and all intents it has answered. *)
Fixpoint strategy_run (calls : list StrategyCall) (x : ST) : ST * list ExecutionIntent :=
  match calls with
  | [] => (x, [])
  | c :: calls =>
      let '(x, out) := strategy_call c x in
      let '(x, outs) := strategy_run calls x in (x, out ++ outs)
  end.

Lemma strategy_run_inv (P : list ExecutionIntent -> ST -> Prop) calls hist x :
  (forall c hist x, P hist x -> P (hist ++ (strategy_call c x).2) (strategy_call c x).1) ->
  P hist x -> P (hist ++ (strategy_run calls x).2) (strategy_run calls x).1.
Proof.
  intros Hstep. revert hist x. induction calls as [|c calls IH]; intros hist x Hp; simpl; [by rewrite app_nil_r|].
  specialize (Hstep c hist x Hp). destruct (strategy_call c x) as [x1 out]. simpl in Hstep.
  specialize (IH _ _ Hstep). destruct (strategy_run calls x1) as [x2 outs]. simpl in *. by rewrite app_assoc.
Qed.
End Calls.

(** ** The intents of the smoke test *)

(** The intents that can still be sent. *)
Definition budget t : nat :=
  match phase_ t with
  | TestPhase.WAIT_FOR_BBO | TestPhase.P1_PLACE => 11
  | TestPhase.P1_WAIT_ACCEPTED | TestPhase.P1_WAIT_LIVE | TestPhase.P1_HOLD | TestPhase.P1_CANCEL => 9
  | TestPhase.P1_WAIT_CANCELED | TestPhase.P2_PLACE => 7
  | TestPhase.P2_WAIT_ACCEPTED | TestPhase.P2_WAIT_FILLS | TestPhase.P2_CLEANUP => 5
  | TestPhase.P2_WAIT_CLEANUP => if cleanup_retry_issued_ t then 2 else 3
  | TestPhase.P3_FAK_BUY => 2
  | TestPhase.P3_WAIT_BUY | TestPhase.P3_FAK_SELL => 1
  | TestPhase.P3_WAIT_SELL | TestPhase.DONE => 0
  end.

(** The intents sent so far are numbered, placements carry the client id of their
    number, and cancellations name the client id of an earlier placement. *)
Definition placed (hist : list ExecutionIntent) (c : OrderId) : Prop :=
  exists j, j ∈ hist /\ is_placement (ei_action j) = true /\ ei_client_order_id j = c.
Record history (hist : list ExecutionIntent) t : Prop := {
  hi_next : ts_next_intent_id_ t = Z.of_nat (length hist);
  hi_ids : forall n i, hist !! n = Some i -> ei_intent_id i = Z.of_nat n;
  hi_place : forall i, i ∈ hist -> is_placement (ei_action i) = true -> ei_client_order_id i = test_oid (ei_intent_id i);
  hi_cancel : forall n i, hist !! n = Some i -> is_placement (ei_action i) = false -> placed (take n hist) (ei_client_order_id i);
  hi_token : forall i, i ∈ hist -> ei_asset_id i = captured_asset_id_ t /\ ei_market_id i = captured_market_id_ t }.

Lemma placed_app hist l c : placed hist c -> placed (hist ++ l) c.
Proof. intros (j & Hj & Hr). exists j. split; [|done]. apply elem_of_app. by left. Qed.
Lemma lookup_snoc {A} (l : list A) x n y : (l ++ [x]) !! n = Some y -> (l !! n = Some y /\ (n < length l)%nat) \/ (n = length l /\ y = x).
Proof.
  intros Hn. destruct (decide (n < length l)%nat); [left|right].
  - by rewrite lookup_app_l in Hn.
  - rewrite lookup_app_r in Hn by lia. apply list_lookup_singleton_Some in Hn as [? <-]. split; [lia|done].
Qed.

(** Sending one more intent. *)
Lemma history_snoc hist t i :
  history hist t -> (length hist < 12)%nat -> ei_intent_id i = ts_next_intent_id_ t ->
  ei_asset_id i = captured_asset_id_ t -> ei_market_id i = captured_market_id_ t ->
  (if is_placement (ei_action i) then ei_client_order_id i = test_oid (ts_next_intent_id_ t) else placed hist (ei_client_order_id i)) ->
  history (hist ++ [i]) (next_id t).
Proof.
  intros [Hn Hi Hp Hc Ht] Hlen Eid Ea Em Hkind. split; simpl.
  - rewrite length_app, Hn. simpl. unfold wrap_u32. rewrite Z.mod_small; lia.
  - intros n j [[Hj _]|[-> ->]]%lookup_snoc; [by apply Hi|lia].
  - intros j [Hj| ->%list_elem_of_singleton]%elem_of_app Hpl; [by apply Hp|]. rewrite Hpl in Hkind. by rewrite Eid.
  - intros n j [[Hj Hlt]|[-> ->]]%lookup_snoc Hpl; [rewrite take_app_le by lia; by apply Hc|].
    rewrite take_app_length. by rewrite Hpl in Hkind.
  - intros j [Hj| ->%list_elem_of_singleton]%elem_of_app; [by apply Ht|done].
Qed.
(** The other fields do not matter. *)
Lemma history_same hist t t' : history hist t -> ts_next_intent_id_ t' = ts_next_intent_id_ t ->
  captured_asset_id_ t' = captured_asset_id_ t -> captured_market_id_ t' = captured_market_id_ t -> history hist t'.
Proof. intros [? ? ? ? Ht] E1 E2 E3. split; rewrite ?E1; try done. by rewrite E2, E3. Qed.

(** In these phases both slots hold orders that were sent. *)
Definition sent_both (p : TestPhase) : bool :=
  match p with
  | TestPhase.P1_WAIT_ACCEPTED | TestPhase.P1_WAIT_LIVE | TestPhase.P1_HOLD | TestPhase.P1_CANCEL | TestPhase.P1_WAIT_CANCELED
  | TestPhase.P2_WAIT_ACCEPTED | TestPhase.P2_WAIT_FILLS | TestPhase.P2_CLEANUP => true
  | _ => false
  end.
Record test_inv (hist : list ExecutionIntent) t : Prop := {
  ti_history : history hist t;
  ti_budget : (length hist + budget t <= 11)%nat;
  ti_slots : sent_both (phase_ t) = true ->
    placed hist (os_client_id (slot_0 t)) /\ placed hist (os_client_id (slot_1 t));
  ti_start : phase_ t = TestPhase.WAIT_FOR_BBO -> hist = [] }.

(** The state after an answer, and what the answer costs. *)
Definition answered (hist : list ExecutionIntent) (b : nat) (r : Answer) : Prop :=
  test_inv (hist ++ r.2) r.1 /\ (length r.2 + budget r.1 <= b)%nat.

Lemma placed_last hist i c : is_placement (ei_action i) = true -> ei_client_order_id i = c -> placed (hist ++ [i]) c.
Proof. intros Hp <-. exists i. split; [apply elem_of_app; right; by apply list_elem_of_singleton|done]. Qed.

Lemma place_both_ok hist bp ap next now t : history hist t -> (length hist <= 9)%nat -> next <> TestPhase.WAIT_FOR_BBO ->
  let '(t', out) := place_both bp ap next now t in
  history (hist ++ out) t' /\ length out = 2%nat /\ phase_ t' = next /\
  placed (hist ++ out) (os_client_id (slot_0 t')) /\ placed (hist ++ out) (os_client_id (slot_1 t')).
Proof.
  intros Hh Hl Hn. unfold place_both. cbv zeta.
  set (t0 := t <| slot_0 := _ |> <| slot_1 := _ |>). set (bid := placement _ bp _ _ _ _).
  set (t1 := next_id t0 <| slot_0 ::= _ |>). set (ask := placement _ ap _ _ _ _).
  change (batch_add (batch_add [] bid) ask) with ([bid] ++ [ask]). rewrite app_assoc.
  assert (history (hist ++ [bid]) (next_id t0)) as H1
    by (apply history_snoc; [by apply (history_same _ t)|lia|done|done|done|done]).
  assert (history ((hist ++ [bid]) ++ [ask]) (next_id t1)) as H2.
  { apply history_snoc; [by apply (history_same _ (next_id t0))|rewrite length_app; simpl; lia|done|done|done|done]. }
  split; [by apply (history_same _ (next_id t1))|]. split; [done|]. split; [done|].
  split; [apply placed_app|]; by apply placed_last.
Qed.

Lemma cancel_both_ok hist next now t : history hist t -> (length hist <= 9)%nat ->
  placed hist (os_client_id (slot_0 t)) -> placed hist (os_client_id (slot_1 t)) ->
  let '(t', out) := cancel_both next now t in
  history (hist ++ out) t' /\ length out = 2%nat /\ phase_ t' = next /\ cleanup_retry_issued_ t' = cleanup_retry_issued_ t /\
  placed (hist ++ out) (os_client_id (slot_0 t')) /\ placed (hist ++ out) (os_client_id (slot_1 t')).
Proof.
  intros Hh Hl P0 P1. unfold cancel_both. cbv zeta. set (c0 := cancellation _ _ _ t). set (c1 := cancellation _ _ _ (next_id t)).
  change (batch_add (batch_add [] c0) c1) with ([c0] ++ [c1]). rewrite app_assoc.
  assert (history (hist ++ [c0]) (next_id t)) as H1 by (apply history_snoc; [done|lia|done|done|done|done]).
  assert (history ((hist ++ [c0]) ++ [c1]) (next_id (next_id t))) as H2.
  { apply history_snoc; [done|rewrite length_app; simpl; lia|done|done|done|by apply placed_app]. }
  split; [by apply (history_same _ (next_id (next_id t)))|]. do 3 (split; [done|]). split; by apply placed_app, placed_app.
Qed.

(** One placement that ends in a phase without two orders. *)
Lemma place_one_ok hist i t t' :
  history hist t -> (length hist <= 10)%nat -> (length hist + 1 + budget t' <= 11)%nat -> is_placement (ei_action i) = true ->
  ei_intent_id i = ts_next_intent_id_ t -> ei_asset_id i = captured_asset_id_ t -> ei_market_id i = captured_market_id_ t ->
  ei_client_order_id i = test_oid (ts_next_intent_id_ t) -> ts_next_intent_id_ t' = ts_next_intent_id_ (next_id t) ->
  captured_asset_id_ t' = captured_asset_id_ t -> captured_market_id_ t' = captured_market_id_ t ->
  sent_both (phase_ t') = false -> phase_ t' <> TestPhase.WAIT_FOR_BBO -> test_inv (hist ++ [i]) t'.
Proof.
  intros Hh Hl Hb Hp E1 E2 E3 E4 F1 F2 F3 Hs Hw.
  assert (history (hist ++ [i]) (next_id t)) as H1 by (apply history_snoc; [done|lia|done|done|done|by rewrite Hp]).
  split; [by apply (history_same _ (next_id t))|rewrite length_app; simpl; lia|by rewrite Hs|done].
Qed.

Lemma fak_buy_ok hist now t b : history hist t -> (length hist + b <= 11)%nat -> (2 <= b)%nat ->
  answered hist b (handle_p3_fak_buy now t).
Proof.
  intros Hh Hl Hb. unfold handle_p3_fak_buy. split; [|simpl; unfold budget; simpl; lia]. cbn [fst snd batch_add].
  eapply (place_one_ok hist _ (t <| slot_0 := OrderSlot_reset <| os_side := BID |> |>)); try done; [by apply (history_same _ t)|lia|unfold budget; simpl; lia].
Qed.
Lemma fak_sell_ok hist now t b : history hist t -> (length hist + b <= 11)%nat -> (1 <= b)%nat ->
  answered hist b (handle_p3_fak_sell now t).
Proof.
  intros Hh Hl Hb. unfold handle_p3_fak_sell. split; [|simpl; unfold budget; simpl; lia]. cbn [fst snd batch_add].
  eapply (place_one_ok hist _ (t <| slot_1 := OrderSlot_reset <| os_side := ASK |> |>)); try done; [by apply (history_same _ t)|lia|unfold budget; simpl; lia].
Qed.

Lemma place_both_answered hist bp ap next now t b : history hist t -> (length hist + b <= 11)%nat -> next <> TestPhase.WAIT_FOR_BBO ->
  (forall t', phase_ t' = next -> 2 + budget t' <= b)%nat -> answered hist b (place_both bp ap next now t).
Proof.
  intros Hh Hl Hn Hb. pose proof (place_both_ok hist bp ap next now t Hh) as Hp. destruct (place_both bp ap next now t) as [t' out] eqn:E.
  assert (phase_ t' = next) as Ep by (unfold place_both in E; by injection E as <- <-). specialize (Hb t' Ep).
  destruct Hp as (H1 & H2 & _ & H4 & H5); [lia|done|]. split; simpl; [|rewrite H2; lia].
  split; [done|rewrite length_app; lia|done|by rewrite Ep].
Qed.
Lemma cancel_both_answered hist next now t b : history hist t -> (length hist + b <= 11)%nat -> next <> TestPhase.WAIT_FOR_BBO ->
  placed hist (os_client_id (slot_0 t)) -> placed hist (os_client_id (slot_1 t)) ->
  (forall t', phase_ t' = next -> cleanup_retry_issued_ t' = cleanup_retry_issued_ t -> 2 + budget t' <= b)%nat ->
  answered hist b (cancel_both next now t).
Proof.
  intros Hh Hl Hn P0 P1 Hb. pose proof (cancel_both_ok hist next now t Hh) as Hp. 
  destruct (cancel_both next now t) as [t' out] eqn:E. assert (phase_ t' = next /\ cleanup_retry_issued_ t' = cleanup_retry_issued_ t) as [Ep Er]
    by (unfold cancel_both in E; by injection E as <- <-). specialize (Hb t' Ep Er).
  destruct Hp as (H1 & H2 & _ & _ & H4 & H5); [lia|done|done|]. split; simpl; [|rewrite H2; lia].
  split; [done|rewrite length_app; lia|done|by rewrite Ep].
Qed.

(** A step without an intent. *)
Lemma move_inv hist t t' : test_inv hist t -> ts_next_intent_id_ t' = ts_next_intent_id_ t ->
  captured_asset_id_ t' = captured_asset_id_ t -> captured_market_id_ t' = captured_market_id_ t ->
  os_client_id (slot_0 t') = os_client_id (slot_0 t) -> os_client_id (slot_1 t') = os_client_id (slot_1 t) ->
  (budget t' <= budget t)%nat -> (sent_both (phase_ t') = true -> sent_both (phase_ t) = true) ->
  (phase_ t' = TestPhase.WAIT_FOR_BBO -> phase_ t = TestPhase.WAIT_FOR_BBO) -> test_inv hist t'.
Proof.
  intros [Hh Hb Hs Hw] E1 E2 E3 E4 E5 Hb' Hs' Hw'. split; [by apply (history_same _ t)|lia|rewrite E4, E5; auto|auto].
Qed.
Lemma move_answered hist t t' : test_inv hist t' -> (budget t' <= budget t)%nat -> answered hist (budget t) (t', []).
Proof. intros Hi Hb. split; simpl; [by rewrite app_nil_r|done]. Qed.
Lemma stay_answered hist t : test_inv hist t -> answered hist (budget t) (t, []).
Proof. intros. by apply move_answered. Qed.

Lemma set_slot_same i f t : ts_next_intent_id_ (set_slot i f t) = ts_next_intent_id_ t /\
  captured_asset_id_ (set_slot i f t) = captured_asset_id_ t /\ captured_market_id_ (set_slot i f t) = captured_market_id_ t /\
  phase_ (set_slot i f t) = phase_ t /\ cleanup_retry_issued_ (set_slot i f t) = cleanup_retry_issued_ t /\
  (i = 0 -> slot_1 (set_slot i f t) = slot_1 t) /\ (i <> 0 -> slot_0 (set_slot i f t) = slot_0 t).
Proof. unfold set_slot. destruct (Z.eqb_spec i 0); by split_and!. Qed.

Lemma hedge_order_ok hist idx action price qty now t : history hist t -> (length hist <= 10)%nat -> is_placement action = true ->
  exists i t', hedge_order idx action price qty now t = (t', [i]) /\ history (hist ++ [i]) t' /\
    phase_ t' = phase_ t /\ cleanup_retry_issued_ t' = cleanup_retry_issued_ t /\
    (idx = 0 -> slot_1 t' = slot_1 t) /\ (idx <> 0 -> slot_0 t' = slot_0 t).
Proof.
  intros Hh Hl Hp. eexists _, _. split; [reflexivity|]. split; [|apply (set_slot_same idx _ (next_id t))].
  apply (history_same _ (next_id t)); [|apply (set_slot_same idx _ (next_id t))..].
  apply history_snoc; [done|lia|done|done|done|simpl; by rewrite Hp].
Qed.

Lemma hedge_and_cancel_ok hist bid_filled now t : history hist t -> (length hist + 5 <= 11)%nat -> cleanup_retry_issued_ t = false ->
  placed hist (os_client_id (slot_0 t)) -> placed hist (os_client_id (slot_1 t)) -> answered hist 5 (hedge_and_cancel bid_filled now t).
Proof.
  intros Hh Hl Hr P0 P1. unfold hedge_and_cancel. cbv zeta. set (t0 := t <| cleanup_unfilled_idx_ := _ |>). set (q := Z.min _ _).
  set (idx := if bid_filled then 0 else 1).
  assert (exists h t1, (if bid_filled then hedge_order idx IntentAction.WOULD_PLACE_ASK (latest_bid_ t0) q now t0
       else hedge_order idx IntentAction.WOULD_PLACE_BID (latest_ask_ t0) q now t0) = (t1, [h]) /\ history (hist ++ [h]) t1 /\
    phase_ t1 = phase_ t0 /\ cleanup_retry_issued_ t1 = cleanup_retry_issued_ t0 /\
    (idx = 0 -> slot_1 t1 = slot_1 t0) /\ (idx <> 0 -> slot_0 t1 = slot_0 t0)) as (h & t1 & -> & H1 & F4 & F5 & F6 & F7).
  { destruct bid_filled; apply hedge_order_ok; try done; first [by apply (history_same _ t)|lia]. }
  set (c := cancellation _ _ now t1).
  assert (history ((hist ++ [h]) ++ [c]) (next_id t1)) as H2.
  { apply history_snoc; [done|rewrite length_app; simpl; lia|done|done|done|].
    clear - F6 F7 P0 P1. unfold c. destruct bid_filled; simpl; apply placed_app; unfold slot_at; simpl.
    - by rewrite F6.
    - by rewrite F7. }
  rewrite <- app_assoc in H2. simpl app in H2. clearbody c.
  match goal with |- context [set_slot ?i ?g (next_id t1)] => destruct (set_slot_same i g (next_id t1)) as (G1 & G2 & G3 & G4 & G5 & _);
    set (t2 := set_slot i g (next_id t1)) in * end.
  change (batch_add [h] c) with [h; c]. clearbody t2.
  assert (budget (transition TestPhase.P2_WAIT_CLEANUP now t2) = 3%nat) as Eb.
  { unfold budget. simpl. rewrite G5. simpl. rewrite F5. simpl. by rewrite Hr. }
  split; [|cbn [fst snd length]; by rewrite Eb]. split; [by apply (history_same _ (next_id t1))| |done|done].
  cbn [fst snd]. rewrite Eb, length_app. simpl. lia.
Qed.

Lemma cleanup_ok hist now t : history hist t -> (length hist + 5 <= 11)%nat ->
  placed hist (os_client_id (slot_0 t)) -> placed hist (os_client_id (slot_1 t)) -> answered hist 5 (handle_p2_cleanup now t).
Proof.
  intros Hh Hl P0 P1. unfold handle_p2_cleanup. cbv zeta.
  set (t0 := t <| cleanup_hedge_done_ := _ |> <| cleanup_cancel_done_ := _ |> <| cleanup_unfilled_idx_ := _ |> <| cleanup_retry_issued_ := _ |>).
  assert (history hist t0) as Hh0 by (by apply (history_same _ t)).
  destruct (os_filled (slot_0 t0)) eqn:E0, (os_filled (slot_1 t0)) eqn:E1; cbn [andb negb].
  - apply fak_buy_ok; [by apply (history_same _ t0)|lia|lia].
  - by apply hedge_and_cancel_ok.
  - by apply hedge_and_cancel_ok.
  - apply cancel_both_answered; [by apply (history_same _ t0)|lia|done|done|done|].
    intros t' Ep Er. unfold budget. rewrite Ep, Er. simpl. lia.
Qed.
Lemma hedge_rejected_ok hist idx ev t : test_inv hist t -> phase_ t = TestPhase.P2_WAIT_CLEANUP ->
  answered hist (budget t) (hedge_rejected idx ev t).
Proof.
  intros Hi Ep. pose proof (ti_budget _ _ Hi) as Hb. unfold hedge_rejected. cbv zeta.
  destruct (cleanup_retry_issued_ t) eqn:Er; cbn [negb].
  - apply move_answered; [|unfold budget; simpl; lia]. apply (move_inv hist t); try done; unfold budget; simpl; lia.
  - assert (budget t = 3%nat) as Eb by (unfold budget; by rewrite Ep, Er). rewrite Eb in *.
    unfold hedge_order. cbv zeta. set (now := if _ >? _ then _ else _). set (action := if side_eqb _ _ then _ else _).
    set (price := if _ =? kInvalidPrice then _ else _). cbn [batch_add].
    set (t1 := set_slot idx _ (next_id t)).
    assert (ts_next_intent_id_ t1 = ts_next_intent_id_ (next_id t) /\ captured_asset_id_ t1 = captured_asset_id_ t /\
      captured_market_id_ t1 = captured_market_id_ t /\ phase_ t1 = TestPhase.P2_WAIT_CLEANUP) as (F1 & F2 & F3 & F4)
      by (unfold t1, set_slot; by case_match).
    assert (budget (t1 <| cleanup_retry_issued_ := true |>) = 2%nat) as Eb' by (unfold budget; simpl; by rewrite F4).
    split; [|cbn [fst snd length]; by rewrite Eb'].
    apply (place_one_ok hist _ t); cbn [fst snd phase_ sent_both]; rewrite ?Eb'; try done; try lia; [apply Hi| |simpl; by rewrite F4|simpl; by rewrite F4].
    unfold action. by case_match.
Qed.

(** Reports change neither the client ids nor the phase. *)
Lemma first_slot_ids matches f t : (forall o, os_client_id (f o) = os_client_id o) ->
  let t' := first_slot matches f t in
  ts_next_intent_id_ t' = ts_next_intent_id_ t /\ captured_asset_id_ t' = captured_asset_id_ t /\
  captured_market_id_ t' = captured_market_id_ t /\ os_client_id (slot_0 t') = os_client_id (slot_0 t) /\
  os_client_id (slot_1 t') = os_client_id (slot_1 t) /\ phase_ t' = phase_ t /\ cleanup_retry_issued_ t' = cleanup_retry_issued_ t.
Proof. intros Hf. unfold first_slot. cbv zeta. repeat case_match; simpl; by rewrite ?Hf. Qed.
Lemma report_inv hist ev t : test_inv hist t ->
  test_inv hist (process_order_event ev (refresh_bbo ev t)) /\ budget (process_order_event ev (refresh_bbo ev t)) = budget t /\
  phase_ (process_order_event ev (refresh_bbo ev t)) = phase_ t.
Proof.
  intros Hi. set (t1 := refresh_bbo ev t).
  assert (ts_next_intent_id_ t1 = ts_next_intent_id_ t /\ captured_asset_id_ t1 = captured_asset_id_ t /\
    captured_market_id_ t1 = captured_market_id_ t /\ slot_0 t1 = slot_0 t /\ slot_1 t1 = slot_1 t /\
    phase_ t1 = phase_ t /\ cleanup_retry_issued_ t1 = cleanup_retry_issued_ t) as (E1 & E2 & E3 & E4 & E5 & E6 & E7)
    by (unfold t1, refresh_bbo; repeat case_match; done).
  set (t2 := process_order_event ev t1).
  assert (ts_next_intent_id_ t2 = ts_next_intent_id_ t1 /\ captured_asset_id_ t2 = captured_asset_id_ t1 /\
    captured_market_id_ t2 = captured_market_id_ t1 /\ os_client_id (slot_0 t2) = os_client_id (slot_0 t1) /\
    os_client_id (slot_1 t2) = os_client_id (slot_1 t1) /\ phase_ t2 = phase_ t1 /\
    cleanup_retry_issued_ t2 = cleanup_retry_issued_ t1) as (F1 & F2 & F3 & F4 & F5 & F6 & F7).
  { unfold t2, process_order_event. repeat case_match; try done; apply first_slot_ids; intros o.
    - unfold on_order_update. cbv zeta. repeat case_match; done.
    - unfold on_trade_update. cbv zeta. repeat case_match; done.
    - unfold on_feedback. repeat case_match; done.
    - unfold on_feedback. repeat case_match; done. }
  assert (budget t2 = budget t) as Eb by (unfold budget; by rewrite F6, F7, E6, E7).
  split; [|split; [done|congruence]]. apply (move_inv hist t); try congruence. lia.
Qed.

(** The handlers of the phases, for a state with budget [b]. *)
Ltac with_budget t Ep b :=
  assert (budget t = b) as Eb by (unfold budget; by rewrite Ep); rewrite Eb in *.
Ltac cost := intros; unfold budget; simplify_eq/=; repeat match goal with E : phase_ _ = _ |- _ => rewrite E end; simpl; lia.

Lemma advance_ok hist t p now : test_inv hist t -> (budget (transition p now t) <= budget t)%nat ->
  (sent_both p = true -> sent_both (phase_ t) = true) -> p <> TestPhase.WAIT_FOR_BBO ->
  answered hist (budget t) (transition p now t, []).
Proof. intros Hi Hb Hs Hp. apply move_answered; [|done]. by apply (move_inv hist t). Qed.

Lemma cancel_ok hist t p p' now now' : test_inv hist t -> budget t = 9%nat -> sent_both (phase_ t) = true ->
  p' = TestPhase.P1_WAIT_CANCELED -> answered hist 9 (cancel_both p' now (transition p now' t)).
Proof.
  intros Hi Eb Hs ->. destruct (ti_slots _ _ Hi Hs). pose proof (ti_budget _ _ Hi).
  apply cancel_both_answered; [by apply (history_same _ t); [apply Hi|..]|lia|done|done|done|]. cost.
Qed.
Lemma cleanup_answered hist t p now now' : test_inv hist t -> budget t = 5%nat -> sent_both (phase_ t) = true ->
  answered hist 5 (handle_p2_cleanup now (transition p now' t)).
Proof.
  intros Hi Eb Hs. destruct (ti_slots _ _ Hi Hs). pose proof (ti_budget _ _ Hi).
  apply cleanup_ok; [by apply (history_same _ t); [apply Hi|..]|lia|done|done].
Qed.
Lemma wait_for_bbo_ok hist pairs ev t : test_inv hist t -> phase_ t = TestPhase.WAIT_FOR_BBO ->
  answered hist (budget t) (handle_wait_for_bbo pairs ev t).
Proof.
  intros Hi Ep. pose proof (ti_budget _ _ Hi) as Hb. pose proof (stay_answered hist t Hi) as Hstay. with_budget t Ep 11%nat.
  pose proof (ti_start _ _ Hi Ep) as ->. unfold handle_wait_for_bbo. repeat (case_match; [exact Hstay|]).
  destruct pairs as [reg|]; [|done]. repeat (case_match; try exact Hstay).
  apply place_both_answered; [|simpl; lia|done|cost].
  split; try (intros *; set_solver); [exact (hi_next _ _ (ti_history _ _ Hi))|..]; intros *; simpl; by rewrite lookup_nil.
Qed.
Lemma wait_cleanup_ok hist ev t : test_inv hist t -> phase_ t = TestPhase.P2_WAIT_CLEANUP ->
  answered hist (budget t) (handle_p2_wait_cleanup ev t).
Proof.
  intros Hi Ep. pose proof (ti_budget _ _ Hi) as Hb. pose proof (stay_answered hist t Hi) as Hstay.
  assert (2 <= budget t)%nat as Hb2 by (unfold budget; rewrite Ep; case_match; lia).
  unfold handle_p2_wait_cleanup. cbv zeta. repeat case_match; try exact Hstay; try by apply hedge_rejected_ok.
  all: apply fak_buy_ok; [by apply (history_same _ t); [apply Hi|..]|lia|lia].
Qed.

Lemma dispatch_ok hist pairs ev t : test_inv hist t -> answered hist (budget t) (dispatch pairs ev t).
Proof.
  intros Hi. pose proof (ti_budget _ _ Hi) as Hb. pose proof (ti_history _ _ Hi) as Hh. pose proof (stay_answered hist t Hi) as Hstay.
  unfold dispatch. destruct (phase_ t) eqn:Ep.
  - by apply wait_for_bbo_ok.
  - with_budget t Ep 11%nat. apply place_both_answered; [done|lia|done|cost].
  - unfold handle_p1_wait_accepted. repeat case_match; try done.
    + apply advance_ok; [done|cost|by rewrite Ep|done].
    + with_budget t Ep 9%nat. apply cancel_ok; [done|done|by rewrite Ep|done].
  - unfold handle_p1_wait_live. case_match; [|done]. apply advance_ok; [done|cost|by rewrite Ep|done].
  - unfold handle_p1_hold. case_match; [|done]. with_budget t Ep 9%nat. apply cancel_ok; [done|done|by rewrite Ep|done].
  - destruct (ti_slots _ _ Hi) as [P0 P1]; [by rewrite Ep|]. with_budget t Ep 9%nat.
    apply cancel_both_answered; [done|lia|done|done|done|cost].
  - unfold handle_p1_wait_canceled, handle_p2_place. case_match; [|done]. with_budget t Ep 7%nat.
    apply place_both_answered; [by apply (history_same _ t)|lia|done|cost].
  - unfold handle_p2_place. with_budget t Ep 7%nat. apply place_both_answered; [done|lia|done|cost].
  - unfold handle_p2_wait_accepted. repeat case_match; try done.
    + apply advance_ok; [done|cost|by rewrite Ep|done].
    + with_budget t Ep 5%nat. apply cleanup_answered; [done|done|by rewrite Ep].
  - unfold handle_p2_wait_fills. with_budget t Ep 5%nat. repeat case_match; try done.
    + apply fak_buy_ok; [by apply (history_same _ t)|lia|lia].
    + apply cleanup_answered; [done|done|by rewrite Ep].
  - destruct (ti_slots _ _ Hi) as [P0 P1]; [by rewrite Ep|]. with_budget t Ep 5%nat. apply cleanup_ok; [done|lia|done|done].
  - by apply wait_cleanup_ok.
  - with_budget t Ep 2%nat. apply fak_buy_ok; [done|lia|lia].
  - unfold handle_p3_wait_buy. case_match; [|done]. with_budget t Ep 1%nat.
    apply fak_sell_ok; [by apply (history_same _ t)|lia|lia].
  - with_budget t Ep 1%nat. apply fak_sell_ok; [done|lia|lia].
  - unfold handle_p3_wait_sell. case_match; [|done]. apply move_answered; [|cost]. apply (move_inv hist t); first [done|cost].
  - apply move_answered; [|cost]. apply (move_inv hist t); first [done|cost].
Qed.

Lemma evaluate_ok hist pairs ev t : test_inv hist t -> answered hist (budget t) (test_evaluate pairs ev t).
Proof.
  intros Hi. pose proof (stay_answered hist t Hi) as Hstay. unfold test_evaluate. do 2 (case_match; [done|]).
  assert (forall t', ts_next_intent_id_ t' = ts_next_intent_id_ t -> captured_asset_id_ t' = captured_asset_id_ t ->
    captured_market_id_ t' = captured_market_id_ t -> os_client_id (slot_0 t') = os_client_id (slot_0 t) ->
    os_client_id (slot_1 t') = os_client_id (slot_1 t) -> phase_ t' = TestPhase.DONE -> answered hist (budget t) (t', [])) as Hdone.
  { intros t' E1 E2 E3 E4 E5 E6. assert (budget t' = 0%nat) as Eb by (unfold budget; by rewrite E6).
    apply move_answered; [|lia]. apply (move_inv hist t); try done; [lia|by rewrite E6|by rewrite E6]. }
  case_match; [by apply Hdone|]. destruct (report_inv hist ev t Hi) as (Hi' & Eb & _). rewrite <- Eb.
  case_match eqn:Et; [|by apply dispatch_ok]. rewrite Eb. case_match; [done|]. unfold check_timeout in Et. case_match; [|done].
  injection Et as <-. apply Hdone; try done; unfold refresh_bbo; repeat case_match; done.
Qed.

Lemma test_new_inv : test_inv [] TestStrategy_new.
Proof. split; try done. split; try done; intros *; simpl; first [by rewrite lookup_nil|set_solver]. Qed.

(** The client ids of the eleven possible intents are different. *)
Lemma test_oid_inj m n : 0 <= m < 11 -> 0 <= n < 11 -> test_oid m = test_oid n -> m = n.
Proof.
  intros Hm Hn He. assert (forallb (fun i => forallb (fun j => (i =? j) || negb (id_eqb (test_oid i) (test_oid j))) (seqZ 0 11)) (seqZ 0 11) = true)
    as Hall by (vm_compute; reflexivity).
  rewrite forallb_forall in Hall. specialize (Hall m). rewrite forallb_forall in Hall.
  assert (forall x, 0 <= x < 11 -> In x (seqZ 0 11)) as Hin by (intros; apply list_elem_of_In, elem_of_seqZ; lia).
  specialize (Hall (Hin m Hm) n (Hin n Hn)). apply orb_true_iff in Hall as [?%Z.eqb_eq|Hneq]; [done|].
  apply negb_true_iff, id_eqb_false in Hneq. done.
Qed.
Lemma history_client_ids hist t : history hist t -> (length hist <= 11)%nat ->
  NoDup (ei_client_order_id <$> filter (fun i => is_placement (ei_action i) = true) hist).
Proof.
  intros Hh Hl. assert (NoDup (ei_intent_id <$> hist)) as Hnd.
  { apply NoDup_alt. intros m n x Hm Hn. rewrite list_lookup_fmap in Hm, Hn.
    destruct (hist !! m) as [i|] eqn:Em, (hist !! n) as [j|] eqn:En; try done. simplify_eq/=.
    pose proof (hi_ids _ _ Hh m i Em). pose proof (hi_ids _ _ Hh n j En). lia. }
  assert (forall i, i ∈ hist -> 0 <= ei_intent_id i < 11) as Hr.
  { intros i [n Hn]%list_elem_of_lookup. rewrite (hi_ids _ _ Hh n i Hn). apply lookup_lt_Some in Hn. lia. }
  pose proof (hi_place _ _ Hh) as Hp. clear Hh Hl. induction hist as [|i hist IH]; [constructor|].
  apply NoDup_cons in Hnd as [Hni Hnd]. rewrite filter_cons.
  assert (NoDup (ei_client_order_id <$> filter (fun i => is_placement (ei_action i) = true) hist)) as Hrest
    by (apply IH; [done|set_solver|intros; apply Hp; set_solver]).
  destruct (decide _) as [Hpl|]; [|done]. simpl. constructor; [|done].
  intros (j & Hj & [Hpj Hin]%list_elem_of_filter)%list_elem_of_fmap. apply Hni, list_elem_of_fmap. exists j. split; [|done].
  rewrite (Hp i), (Hp j) in Hj by set_solver. apply test_oid_inj; [apply Hr; set_solver|apply Hr; set_solver|done].
Qed.

(** Whatever the state, an answer is paid from the budget. *)
Lemma report_budget ev t : budget (process_order_event ev (refresh_bbo ev t)) = budget t /\ phase_ (refresh_bbo ev t) = phase_ t.
Proof.
  assert (phase_ (refresh_bbo ev t) = phase_ t /\ cleanup_retry_issued_ (refresh_bbo ev t) = cleanup_retry_issued_ t) as [E1 E2]
    by (unfold refresh_bbo; repeat case_match; done).
  split; [|done]. set (u := refresh_bbo ev t) in *.
  assert (phase_ (process_order_event ev u) = phase_ u /\ cleanup_retry_issued_ (process_order_event ev u) = cleanup_retry_issued_ u)
    as [E3 E4] by (unfold process_order_event, first_slot; destruct (source ev), (kind ev); try done; repeat case_match; done).
  unfold budget. by rewrite E3, E4, E1, E2.
Qed.
Lemma cleanup_budget now t : (length (handle_p2_cleanup now t).2 + budget (handle_p2_cleanup now t).1 <= 5)%nat.
Proof.
  unfold handle_p2_cleanup. cbv zeta. case_match; [unfold budget; simpl; lia|]. case_match; [unfold budget; simpl; lia|].
  destruct (os_filled _); unfold budget; simpl; lia.
Qed.
Lemma wait_cleanup_budget ev t : phase_ t = TestPhase.P2_WAIT_CLEANUP ->
  (length (handle_p2_wait_cleanup ev t).2 + budget (handle_p2_wait_cleanup ev t).1 <= budget t)%nat.
Proof.
  intros Ep. assert (2 <= budget t)%nat as Hb by (unfold budget; rewrite Ep; case_match; lia).
  unfold handle_p2_wait_cleanup. cbv zeta. repeat case_match; try (unfold budget at 1; simpl; lia); simpl; try lia.
  unfold hedge_rejected, hedge_order. cbv zeta. destruct (cleanup_retry_issued_ t) eqn:Er; simpl; [unfold budget at 1; simpl; lia|].
  assert (budget t = 3%nat) as -> by (unfold budget; by rewrite Ep, Er). clear Hb.
  match goal with |- context [set_slot ?i ?g (next_id t)] => destruct (set_slot_same i g (next_id t)) as (_ & _ & _ & Es & _) end.
  unfold budget. simpl. rewrite Es. simpl. rewrite Ep. lia.
Qed.
Lemma dispatch_budget pairs ev t : (length (dispatch pairs ev t).2 + budget (dispatch pairs ev t).1 <= budget t)%nat.
Proof.
  unfold dispatch. destruct (phase_ t) eqn:Ep; try (by apply wait_cleanup_budget).
  all: assert (budget t = budget (transition (phase_ t) 0 t)) as -> by done; rewrite Ep; unfold budget at 2; simpl.
  - unfold handle_wait_for_bbo. repeat case_match; unfold budget; simpl; rewrite ?Ep; lia.
  - unfold budget; simpl; lia.
  - unfold handle_p1_wait_accepted. repeat case_match; unfold budget; simpl; rewrite ?Ep; lia.
  - unfold handle_p1_wait_live. repeat case_match; unfold budget; simpl; rewrite ?Ep; lia.
  - unfold handle_p1_hold. repeat case_match; unfold budget; simpl; rewrite ?Ep; lia.
  - unfold budget; simpl; lia.
  - unfold handle_p1_wait_canceled. repeat case_match; unfold budget; simpl; rewrite ?Ep; lia.
  - unfold budget; simpl; lia.
  - unfold handle_p2_wait_accepted. repeat case_match; try apply cleanup_budget; unfold budget; simpl; rewrite ?Ep; lia.
  - unfold handle_p2_wait_fills. repeat case_match; try apply cleanup_budget; unfold budget; simpl; rewrite ?Ep; lia.
  - apply cleanup_budget.
  - unfold budget; simpl; lia.
  - unfold handle_p3_wait_buy. repeat case_match; unfold budget; simpl; rewrite ?Ep; lia.
  - unfold budget; simpl; lia.
  - unfold handle_p3_wait_sell. repeat case_match; unfold budget; simpl; rewrite ?Ep; lia.
  - unfold budget; simpl; rewrite Ep; lia.
Qed.
Lemma test_evaluate_budget pairs ev t : (length (test_evaluate pairs ev t).2 + budget (test_evaluate pairs ev t).1 <= budget t)%nat.
Proof.
  unfold test_evaluate. do 2 (case_match; [simpl; lia|]). case_match; [unfold budget at 1; simpl; lia|].
  destruct (report_budget ev t) as [Eb _]. case_match eqn:Et; [|rewrite <- Eb; apply dispatch_budget].
  case_match; [done|]. unfold check_timeout in Et. case_match; [|done]. injection Et as <-. unfold budget at 1. simpl. lia.
Qed.

Section TestRun.
Context {I K C B T : Type} `{InventoryOpSink K}.

Lemma test_call_inv (c : StrategyCall) hist t :
  test_inv hist t -> test_inv (hist ++ (strategy_call (I := I) (K := K) (C := C) (B := B) (T := T) c t).2) (strategy_call c t).1.
Proof.
  intros Hi. destruct c as [ctx k| | | | | | | | | | ]; simpl; rewrite ?app_nil_r; try done.
  - pose proof (evaluate_ok hist (ctx_pairs I ctx) (ctx_event I ctx) t Hi) as [Ha _].
    by destruct (test_evaluate _ _ t) as [t' out].
  - by apply (move_inv hist t).
Qed.

(** The smoke test is harmless.  Whatever events it is called with and however often
    it is enabled or disabled, it sends at most eleven intents; they are all for
    the token and market captured first, no client id is used for two orders, and
    only orders placed before are canceled. *)
Theorem test_strategy_orders (calls : list (StrategyCall (I := I) (K := K) (C := C) (B := B) (T := T))) :
  let out := (strategy_run calls TestStrategy_new).2 in
  (length out <= 11)%nat /\
  NoDup (ei_client_order_id <$> filter (fun i => is_placement (ei_action i) = true) out) /\
  (forall i j, i ∈ out -> j ∈ out -> ei_asset_id i = ei_asset_id j /\ ei_market_id i = ei_market_id j) /\
  (forall n i, out !! n = Some i -> is_placement (ei_action i) = false ->
     exists j, j ∈ take n out /\ is_placement (ei_action j) = true /\ ei_client_order_id j = ei_client_order_id i).
Proof.
  pose proof (strategy_run_inv test_inv calls [] TestStrategy_new test_call_inv test_new_inv) as [Hh Hb _ _].
  simpl in Hh, Hb. cbv zeta. destruct (strategy_run calls TestStrategy_new) as [t out]. simpl in *.
  split; [lia|]. split; [apply (history_client_ids out t); [done|lia]|]. split; [|apply (hi_cancel _ _ Hh)].
  intros i j Hi Hj. destruct (hi_token _ _ Hh i Hi), (hi_token _ _ Hh j Hj). split; congruence.
Qed.

(** ** Budgets for the strategy thread *)
Lemma test_frugal : frugal_strategy (I := I) (K := K) 11 budget.
Proof.
  split; [intros t; unfold budget; repeat case_match; lia|]. intros ctx k t _. simpl.
  pose proof (test_evaluate_budget (ctx_pairs I ctx) (ctx_event I ctx) t) as Hb. by destruct (test_evaluate _ _ t).
Qed.
Lemma inventory_test_frugal : frugal_strategy (I := I) (K := K) (ST := InventoryTestStrategy) 0 (fun _ => 0%nat).
Proof. split; [done|]. intros ctx k t _. simpl. by destruct (inventory_test_evaluate _ _ k t). Qed.
Lemma quoter_frugal : frugal_strategy (I := I) (K := K) (ST := QuoterV2Strategy) 0 (fun _ => 0%nat).
Proof. split; [done|]. intros ctx k q _. simpl. lia. Qed.
End TestRun.

(** ** The requests of the inventory test *)
Section InventoryRun.
(** A sink that records the requests and may refuse any of them. *)
Variable willing : list InventoryOpRequest -> InventoryOpRequest -> bool.
#[local] Instance request_log : InventoryOpSink (list InventoryOpRequest) := {| try_request r l := (l ++ [r], willing l r) |}.

Inductive InventoryCall := ICall (pairs : option MarketPairRegistry) (ev : SchedulerEvent) (has_sink : bool) | IEnable (b : bool).
Abbreviation Recorded := (InventoryTestStrategy * list InventoryOpRequest)%type.
Definition inventory_call (s : Recorded) (c : InventoryCall) : Recorded :=
  let '(t, log) := s in
  match c with
  | ICall pairs ev has_sink =>
      let '(t, k) := inventory_test_evaluate pairs ev (if has_sink then Some log else None) t in (t, default log k)
  | IEnable b => (t <| it_enabled_ := b |>, log)
  end.

Definition expected : list (InventoryOpType * Z) := [(SPLIT, kSplitQty); (MERGE, kMergeQty); (REDEEM, 0)].
(** The requests made before a phase. *)
Definition progress (p : InvTestPhase) (n : nat) : Prop :=
  match p with
  | InvTestPhase.WAIT_FOR_BBO | InvTestPhase.SPLIT_REQUEST => n = 0%nat
  | InvTestPhase.WAIT_SPLIT_HOLD | InvTestPhase.MERGE_REQUEST => n = 1%nat
  | InvTestPhase.WAIT_RESOLVED | InvTestPhase.REDEEM_REQUEST => n = 2%nat
  | InvTestPhase.DONE => (n <= 3)%nat
  end.
Record inventory_inv (s : Recorded) : Prop := {
  ii_progress : progress (it_phase_ s.1) (length s.2);
  ii_next : next_request_id_ s.1 = Z.of_nat (length s.2);
  ii_requests : ((fun r => (ior_type r, ior_quantity r)) <$> s.2) = take (length s.2) expected;
  ii_ids : (ior_request_id <$> s.2) = seqZ 0 (Z.of_nat (length s.2));
  ii_condition : Forall (fun r => ior_condition_id r = captured_condition_id_ s.1) s.2 }.

Lemma request_inv type token quantity next last pairs ev log (t : InventoryTestStrategy) (has_sink : bool) :
  inventory_inv (t, log) -> it_phase_ t <> InvTestPhase.DONE -> expected !! length log = Some (type, quantity) ->
  progress next (S (length log)) ->
  let r := send_request type token quantity next last pairs ev (if has_sink then Some log else None) t in
  inventory_inv (r.1, default log r.2).
Proof.
  intros [Hp Hn Hr Hids Hc] Hd He Hnx. simpl in *. assert (length log < 3)%nat as Hlt by (apply lookup_lt_Some in He; exact He).
  destruct has_sink; simpl.
  - set (r := mkInventoryOpRequest _ _ _ _ _ _ _ _).
    assert (wrap_u32 (next_request_id_ t + 1) = Z.of_nat (length (log ++ [r]))) as Ew.
    { rewrite length_app, Hn. simpl. unfold wrap_u32. rewrite Z.mod_small; lia. }
    assert (((fun r => (ior_type r, ior_quantity r)) <$> log ++ [r]) = take (length (log ++ [r])) expected) as Er.
    { rewrite fmap_app, Hr, length_app. simpl. rewrite Nat.add_1_r. by rewrite (take_S_r _ _ _ He). }
    assert ((ior_request_id <$> log ++ [r]) = seqZ 0 (Z.of_nat (length (log ++ [r])))) as Ei.
    { rewrite fmap_app, Hids, length_app, Nat2Z.inj_add, seqZ_app by lia. simpl. by rewrite Hn. }
    assert (Forall (fun r => ior_condition_id r = captured_condition_id_ t) (log ++ [r])) as Ec
      by (apply Forall_app; split; [done|by constructor]).
    assert (length (log ++ [r]) = S (length log)) as El by (rewrite length_app; simpl; lia).
    destruct (negb _), last; split; simpl; try done; rewrite ?El; try done; lia.
  - split; simpl; try done. lia.
Qed.

Lemma inventory_same log (t t' : InventoryTestStrategy) : inventory_inv (t, log) -> progress (it_phase_ t') (length log) ->
  next_request_id_ t' = next_request_id_ t -> captured_condition_id_ t' = captured_condition_id_ t \/ log = [] -> inventory_inv (t', log).
Proof.
  intros [A1 A2 A3 A4 A5] Hp En Hc. split; simpl in *; try done; [by rewrite En|].
  destruct Hc as [-> | ->]; [done|constructor].
Qed.
Lemma inventory_evaluate_inv pairs ev (has_sink : bool) (t : InventoryTestStrategy) log : inventory_inv (t, log) ->
  let r := inventory_test_evaluate pairs ev (if has_sink then Some log else None) t in inventory_inv (r.1, default log r.2).
Proof.
  intros Hi. cbv zeta. set (k := if has_sink then Some log else None).
  assert (default log k = log) as Ek by (unfold k; by destruct has_sink).
  assert (inventory_inv (t, default log k)) as Hstay by (by rewrite Ek).
  assert (progress (it_phase_ t) (length log)) as Hp by apply Hi.
  unfold inventory_test_evaluate. case_match; [exact Hstay|]. case_match eqn:Ed; [exact Hstay|]. apply bool_decide_eq_false in Ed.
  cbv zeta. case_match eqn:Et.
  { case_match; [|done]. unfold it_check_timeout in Et. case_match; [|done]. injection Et as <-. cbn [fst snd]. rewrite Ek.
    apply (inventory_same log t); [done| |done|by left]. simpl. revert Hp Ed. destruct (it_phase_ t); simpl; intros; lia. }
  clear Et. destruct (it_phase_ t) eqn:Ep; try done; simpl in Hp.
  - unfold it_handle_wait_for_bbo. repeat (case_match; [exact Hstay|]). destruct pairs; [|exact Hstay]. case_match; [|exact Hstay].
    apply request_inv; [|done|by rewrite Hp|simpl; lia]. apply (inventory_same log t); [done|done|done|right].
    by apply nil_length_inv.
  - apply request_inv; [done|by rewrite Ep|by rewrite Hp|simpl; lia].
  - unfold handle_wait_split_hold. case_match; [|exact Hstay].
    apply request_inv; [|done|by rewrite Hp|simpl; lia]. by apply (inventory_same log t); [..|left].
  - apply request_inv; [done|by rewrite Ep|by rewrite Hp|simpl; lia].
  - unfold handle_wait_resolved. do 2 (case_match; [exact Hstay|]).
    apply request_inv; [|done|by rewrite Hp|simpl; lia]. by apply (inventory_same log t); [..|left].
  - apply request_inv; [done|by rewrite Ep|by rewrite Hp|simpl; lia].
Qed.

Lemma inventory_call_inv s c : inventory_inv s -> inventory_inv (inventory_call s c).
Proof.
  destruct s as [t log]. intros Hi. destruct c as [pairs ev has_sink|b]; simpl.
  - pose proof (inventory_evaluate_inv pairs ev has_sink t log Hi) as He. by destruct (inventory_test_evaluate _ _ _ t).
  - apply (inventory_same log t); [done|apply Hi|done|by left].
Qed.

(** The inventory test asks at most for a split of two shares, a merge of one and a
    redemption, in this order and with consecutive ids, all for one market,
    whatever events arrive, which requests are refused and when a sink is there. *)
Theorem inventory_test_requests (calls : list InventoryCall) :
  let '(t, log) := foldl inventory_call (InventoryTestStrategy_new, []) calls in
  (fun r => (ior_type r, ior_quantity r)) <$> log `prefix_of` expected /\
  (ior_request_id <$> log) = seqZ 0 (Z.of_nat (length log)) /\
  Forall (fun r => ior_condition_id r = captured_condition_id_ t) log.
Proof.
  assert (inventory_inv (foldl inventory_call (InventoryTestStrategy_new, []) calls)) as [_ _ Hr Hids Hc].
  { assert (inventory_inv (InventoryTestStrategy_new, [])) as H0 by (split; simpl; try done; constructor).
    revert H0. generalize (InventoryTestStrategy_new, [] : list InventoryOpRequest).
    induction calls as [|c calls IH]; intros s Hs; [done|]. simpl. by apply IH, inventory_call_inv. }
  destruct (foldl _ _ calls) as [t log]. simpl in *. split; [rewrite Hr; apply prefix_take|done].
Qed.
End InventoryRun.

(** ** A complete run *)
Section TestExample.
Definition test_registry : MarketPairRegistry :=
  (add_pair (mkMarketPair "cond" "up" "down" false 0) MarketPairRegistry_new).1.
Definition sec (n : Z) : Z := n * 1000000000.
Definition quote_at (ts : Z) : SchedulerEvent :=
  SchedulerEvent_default <| kind := SchedulerEventKind.MARKET_BBO_UPDATE |> <| asset_id := "up"%string |>
    <| recv_ts := sec ts |> <| ev_bbo := BBO_default <| best_bid := 4800 |> <| best_ask := 5200 |> |>.
Definition feedback_at (ts : Z) (fk : ExecFeedbackKind) (id : Z) : SchedulerEvent :=
  SchedulerEvent_default <| source := EventSource.EXEC_INTERNAL |> <| kind := SchedulerEventKind.EXEC_ORDER_ACK |>
    <| recv_ts := sec ts |> <| exec_feedback_kind := fk |> <| exec_accepted := true |>
    <| client_order_id := test_oid id |> <| order_id := ("ex-" +:+ test_oid id)%string |>.
Definition filled_at (ts : Z) (id : Z) : SchedulerEvent :=
  SchedulerEvent_default <| source := EventSource.USER_WS |> <| kind := SchedulerEventKind.USER_ORDER_UPDATE |>
    <| recv_ts := sec ts |> <| order_status_raw := OrderStatus.FILLED |> <| user_cumulative_filled := 5000000 |>
    <| order_id := ("ex-" +:+ test_oid id)%string |>.

(** Both phase-one orders accepted, held and canceled; in phase two only the bid is
    filled, its hedge is rejected once; both orders of phase three are accepted. *)
Definition test_events : list SchedulerEvent :=
  [ quote_at 1;
    feedback_at 1 ExecFeedbackKind.ORDER_ACCEPTED 0; feedback_at 1 ExecFeedbackKind.ORDER_ACCEPTED 1; quote_at 2; quote_at 12;
    feedback_at 12 ExecFeedbackKind.CANCEL_CONFIRMED 0; feedback_at 12 ExecFeedbackKind.CANCEL_CONFIRMED 1;
    feedback_at 13 ExecFeedbackKind.ORDER_ACCEPTED 4; feedback_at 13 ExecFeedbackKind.ORDER_ACCEPTED 5; filled_at 14 4; quote_at 24;
    feedback_at 24 ExecFeedbackKind.CANCEL_CONFIRMED 5; feedback_at 24 ExecFeedbackKind.ORDER_REJECTED 6;
    feedback_at 25 ExecFeedbackKind.ORDER_ACCEPTED 8; feedback_at 26 ExecFeedbackKind.ORDER_ACCEPTED 9;
    feedback_at 27 ExecFeedbackKind.ORDER_ACCEPTED 10 ].
Definition test_run : Answer :=
  foldl (fun r ev => let '(t, out) := test_evaluate (Some test_registry) ev r.1 in (t, r.2 ++ out))
    (TestStrategy_new <| ts_enabled_ := true |>, []) test_events.
(** The bound of eleven intents is reached. *)
Example test_run_complete :
  (fun i => (ei_action i, ei_price i, ei_qty i)) <$> test_run.2 =
    [ (IntentAction.WOULD_PLACE_BID, 100, 5000000); (IntentAction.WOULD_PLACE_ASK, 9900, 5000000);
      (IntentAction.WOULD_CANCEL_BID, 0, 0); (IntentAction.WOULD_CANCEL_ASK, 0, 0);
      (IntentAction.WOULD_PLACE_BID, 5200, 5000000); (IntentAction.WOULD_PLACE_ASK, 4800, 5000000);
      (IntentAction.WOULD_PLACE_ASK, 4800, 5000000); (IntentAction.WOULD_CANCEL_ASK, 0, 0);
      (IntentAction.WOULD_PLACE_ASK, 4800, 5000000);
      (IntentAction.WOULD_PLACE_BID, 5200, 5000000); (IntentAction.WOULD_PLACE_ASK, 4800, 5000000) ] /\
  phase_ test_run.1 = TestPhase.DONE /\ ts_enabled_ test_run.1 = false.
Proof. vm_compute. done. Qed.
End TestExample.
