(* ===== verification/Rotation.v ===== *)
(** The legacy rotation coordinator: [src/rotation/rotation_coordinator.cpp], and its
    hand-over with the strategy thread.

    The coordinator (main thread) discovers markets and, at the end of a window,
    pauses the strategy thread through the shared atomic phase, restarts the streams
    and lets it resume.  Its program is a step machine: [RotationPc] is the place
    between two blocking calls, [co_step] the code up to the next one, which reads
    the phase and may write it.  [CoEnv] is what a step sees from outside: clocks,
    flags, network and the gateway's queue.  The calls into the other threads are
    recorded in order.  [System] couples the coordinator with the loop of
    SchedulerLoop through the phase, and a run is any interleaving of the two with
    the other threads.

    Shown: in every interleaving the strategy thread is paused (or has stopped)
    while the coordinator switches markets, and runs no handler then; a requested
    pause is granted after a bounded number of its iterations.  A rotation that
    starts before the window ends is done a second time at once, and skips a market. *)
From S2P Require Import Prelude Types OrderBook Events Json SpscQueue MarketPair TokenInventory.
From S2P Require Import Sinks WorkingOrderTracker RiskGate Slots Discovery UiMirror UiSnapshot Scheduler SchedulerLoop Strategies.

(** ** Data *)
Record RotationTimingContext := mkRotationTimingContext {
  rt_window_start_unix_s : Z;
  rt_window_end_unix_s : Z;
  rt_period_s : Z;
  rt_no_trade_start_ms : Z;
  rt_no_trade_end_ms : Z;
  rt_enabled : bool }.
Definition RotationTimingContext_default : RotationTimingContext := mkRotationTimingContext 0 0 300 0 0 false.

Record RotationConfig := mkRotationConfig {
  rc_timeframe : BtcTimeframe;
  rc_discovery_poll_ms : Z;
  rc_pre_rotation_ms : Z;
  rc_no_trade_start_ms : Z;
  rc_no_trade_end_ms : Z;
  rc_discovery_api_url : string }.

(** Calls into the other threads, and which callbacks are set. *)
Inductive RotationCall :=
  | RStopMarketWs | RStopUserWs | RStartMarketWs (token_ids : list string) | RStartUserWs (condition_ids : list string)
  | RRegisterMarket (mkt : DiscoveredMarket) | RRegisterToken (id : string)
  | RSeedMarketState (id : string) | RSeedSchedulerState (id : string)
  | RUpdateUi (condition_id : string) (window_start window_end rotation_count : Z) (in_no_trade : bool)
  | RBootstrapPositions (condition_ids : list string)
  | RFireRedeem (condition_id token_id_up token_id_down : string).
Record RotationCallbacks := mkRotationCallbacks {
  cb_stop_market_ws : bool; cb_stop_user_ws : bool; cb_start_market_ws : bool; cb_start_user_ws : bool;
  cb_register_market : bool; cb_register_token : bool; cb_seed_market_state : bool; cb_seed_scheduler_state : bool;
  cb_update_ui_rotation : bool; cb_bootstrap_positions : bool; cb_fire_redeem : bool; cb_is_exec_queue_drained : bool }.

Record PendingRedeem := mkPendingRedeem {
  pr_condition_id : string; pr_token_id_up : string; pr_token_id_down : string; pr_fire_at : Z }.
Definition kRedeemDelayMs : Z := 180000.

(** The places between blocking calls. *)
Inductive RotationPc :=
  | RDiscover (attempts : Z) | RDiscoverSleep (attempts : Z) | RStart
  | RMain | RTick
  | RWaitPaused (new_next : DiscoveredMarket) | RPausedSeen (new_next : DiscoveredMarket)
  | RDrain (new_next : DiscoveredMarket) (waited : Z) | RDrainSleep (new_next : DiscoveredMarket) (waited : Z)
  | RSwitch (new_next : DiscoveredMarket) | RWaitNormal
  | RFinal | RFinalWait (i : Z) | RReturned.

Record RotationCoordinator := mkRotationCoordinator {
  co_config_ : RotationConfig;
  co_stop_requested_ : bool;
  timing_context_ : RotationTimingContext;
  current_market_ : DiscoveredMarket;
  next_market_ : option DiscoveredMarket;
  pre_discovered_next_ : option DiscoveredMarket;
  rotation_count_ : Z;
  discovery_host_ : string;
  pending_redeems_ : list PendingRedeem;
  last_discovery_poll : Z;
  co_calls : list RotationCall;
  co_pc : RotationPc }.

Section Coordinator.
Context `{JsonParser} (cb : RotationCallbacks).
Implicit Types (c : RotationCoordinator).

(** [run] returns at once when the host is empty. *)
Definition RotationCoordinator_new (config : RotationConfig) : RotationCoordinator :=
  let host := extract_host (rc_discovery_api_url config) in
  mkRotationCoordinator config false RotationTimingContext_default DiscoveredMarket_default None None 0 host [] 0 []
    (if nonempty host then RDiscover 0 else RReturned).
Definition co_request_shutdown c : RotationCoordinator := c <| co_stop_requested_ := true |>.

(** What a step sees from outside: seconds of the wall clock, nanoseconds of the
    steady clock, the flags, the network (the [i]-th attempt of a request) and whether
    the gateway's queue is empty. *)
Record CoEnv := mkCoEnv {
  ce_now_s : Z;
  ce_steady : Z;
  ce_shutdown : bool;
  ce_fatal : bool;
  ce_get : nat -> string -> string -> string;
  ce_drained : bool }.
Implicit Types (e : CoEnv).

Definition co_goto (p : RotationPc) c : RotationCoordinator := c <| co_pc := p |>.
Definition co_call (is_set : bool) (x : RotationCall) c : RotationCoordinator :=
  if is_set then c <| co_calls ::= fun l => l ++ [x] |> else c.

(** ** Windows and discovery *)
Definition co_period c : Z := timeframe_period_seconds (rc_timeframe (co_config_ c)).
Definition window_start c (unix_s : Z) : Z :=
  match discovery_window_candidates (rc_timeframe (co_config_ c)) unix_s with
  | w :: _ => w
  | [] => (unix_s ÷ co_period c) * co_period c
  end.
Definition window_end c (unix_s : Z) : Z := window_start c unix_s + co_period c.

(** Up to [n] attempts, from the [i]-th on. *)
Fixpoint attempt {A} (n i : nat) (query : nat -> Expected A) : option A :=
  match n with
  | O => None
  | S n => match query i with Value a => Some a | Err _ => attempt n (S i) query end
  end.
Definition kMetadataRetries : nat := 3.
Definition co_discover_market e c (window_ts : Z) : option DiscoveredMarket :=
  match discover_btc_market_for_window (ce_get e 0) (discovery_host_ c) (rc_timeframe (co_config_ c)) window_ts with
  | None => None
  | Some r =>
      if nonempty (dm_token_id_up r) then
        let r := match attempt kMetadataRetries 0 (fun i => query_neg_risk (ce_get e i) (dm_token_id_up r)) with
                 | Some b => r <| dm_neg_risk := b |> | None => r end in
        let r := match attempt kMetadataRetries 0 (fun i => query_fee_rate (ce_get e i) (dm_token_id_up r)) with
                 | Some f => r <| dm_fee_rate_bps := f |> | None => r end in
        Some r
      else Some r
  end.

Definition co_register_market_full (mkt : DiscoveredMarket) c : RotationCoordinator :=
  let c := co_call (cb_register_market cb) (RRegisterMarket mkt) c in
  let c := co_call (cb_register_token cb) (RRegisterToken (dm_token_id_up mkt)) c in
  let c := co_call (cb_register_token cb) (RRegisterToken (dm_token_id_down mkt)) c in
  let c := co_call (cb_seed_market_state cb) (RSeedMarketState (dm_token_id_up mkt)) c in
  let c := co_call (cb_seed_market_state cb) (RSeedMarketState (dm_token_id_down mkt)) c in
  let c := co_call (cb_seed_scheduler_state cb) (RSeedSchedulerState (dm_token_id_up mkt)) c in
  let c := co_call (cb_seed_scheduler_state cb) (RSeedSchedulerState (dm_token_id_down mkt)) c in
  co_call (cb_seed_scheduler_state cb) (RSeedSchedulerState (dm_condition_id mkt)) c.

(** Start the streams for the current and, if known, the next market. *)
Definition next_list c : list DiscoveredMarket := match next_market_ c with Some m => [m] | None => [] end.
Definition subscribed_tokens c : list string :=
  flat_map (fun m => [dm_token_id_up m; dm_token_id_down m]) (current_market_ c :: next_list c).
Definition subscribed_conditions c : list string := dm_condition_id <$> (current_market_ c :: next_list c).
Definition start_streams c : RotationCoordinator :=
  let c := co_call (cb_start_market_ws cb) (RStartMarketWs (subscribed_tokens c)) c in
  co_call (cb_start_user_ws cb) (RStartUserWs (subscribed_conditions c)) c.
Definition update_ui_rotation c : RotationCoordinator :=
  co_call (cb_update_ui_rotation cb)
    (RUpdateUi (dm_condition_id (current_market_ c)) (rt_window_start_unix_s (timing_context_ c))
       (rt_window_end_unix_s (timing_context_ c)) (rotation_count_ c) false) c.

(** ** Start-up *)
Definition kMaxDiscoveryAttempts : Z := 10.
Definition discovery_step e (attempts : Z) c : RotationCoordinator :=
  let current_window := window_start c (ce_now_s e) in
  let next := co_discover_market e c (current_window + co_period c) in
  let failed :=
    if attempts + 1 >=? kMaxDiscoveryAttempts then co_goto RReturned c else co_goto (RDiscoverSleep (attempts + 1)) c in
  match co_discover_market e c current_window with
  | Some market =>
      if negb (dm_is_closed market) then
        let c := c <| current_market_ := market |> in
        co_goto RStart (match next with Some n => c <| next_market_ := Some n |> | None => c end)
      else
        match next with
        | Some n => if negb (dm_is_closed n) then co_goto RStart (c <| current_market_ := n |>) else failed
        | None => failed
        end
  | None =>
      match next with
      | Some n => if negb (dm_is_closed n) then co_goto RStart (c <| current_market_ := n |>) else failed
      | None => failed
      end
  end.

Definition start_up e c : RotationCoordinator :=
  let c := co_register_market_full (current_market_ c) c in
  let c := match next_market_ c with Some n => co_register_market_full n c | None => c end in
  let c := co_call (cb_bootstrap_positions cb) (RBootstrapPositions (subscribed_conditions c)) c in
  let c := c <| timing_context_ := mkRotationTimingContext (window_start c (ce_now_s e)) (window_end c (ce_now_s e)) (co_period c)
                  (rc_no_trade_start_ms (co_config_ c)) (rc_no_trade_end_ms (co_config_ c)) true |> in
  let c := update_ui_rotation (start_streams c) in
  co_goto RMain (c <| last_discovery_poll := ce_steady e |>).

(** ** A rotation *)

(** Steps 5 to 10, while the strategy thread is paused. *)
Definition switch_markets e (new_next : DiscoveredMarket) c : RotationCoordinator :=
  let known := nonempty (dm_condition_id new_next) in
  let c := if known then co_register_market_full new_next c else c in
  let old := current_market_ c in
  let c := if nonempty (dm_condition_id old)
           then c <| pending_redeems_ ::= fun l =>
                  l ++ [mkPendingRedeem (dm_condition_id old) (dm_token_id_up old) (dm_token_id_down old)
                          (ce_steady e + kRedeemDelayMs * 1000000)] |>
           else c in
  let c := c <| current_market_ := default old (next_market_ c) |> <| next_market_ := if known then Some new_next else None |> in
  let c := start_streams c in
  let c := c <| timing_context_ ::= fun t => t <| rt_window_start_unix_s := window_start c (ce_now_s e) |>
                                               <| rt_window_end_unix_s := window_end c (ce_now_s e) |> |> in
  c <| rotation_count_ ::= Z.succ |>.

Definition kDrainTimeoutMs : Z := 3000.
Definition kDrainPollMs : Z := 10.

(** [execute_rotation] returns to the loop, which restarts the poll timer. *)
Definition rotation_over e c : RotationCoordinator := co_goto RMain (c <| last_discovery_poll := ce_steady e |>).

(** *** The loop *)
Definition time_to_rotate e c : bool :=
  ((rt_window_end_unix_s (timing_context_ c) - ce_now_s e) * 1000 <=? rc_pre_rotation_ms (co_config_ c)) &&
  match next_market_ c with Some _ => true | None => false end.

(** The market after the next one: from the cache or by a request. *)
Definition pick_new_next e c : DiscoveredMarket :=
  let cached := default DiscoveredMarket_default (pre_discovered_next_ c) in
  if nonempty (dm_condition_id cached) then cached
  else default cached (co_discover_market e c (rt_window_end_unix_s (timing_context_ c) + co_period c)).

Definition fire_matured e c : RotationCoordinator :=
  if negb (cb_fire_redeem cb) then c else
  let due := filter (fun p => (ce_steady e >=? pr_fire_at p) = true) (pending_redeems_ c) in
  let kept := filter (fun p => (ce_steady e >=? pr_fire_at p) = false) (pending_redeems_ c) in
  let fire c p := co_call true (RFireRedeem (pr_condition_id p) (pr_token_id_up p) (pr_token_id_down p)) c in
  (foldl fire c due) <| pending_redeems_ := kept |>.

Definition poll_discovery e c : RotationCoordinator :=
  if negb ((ce_steady e - last_discovery_poll c) ÷ 1000000 >=? rc_discovery_poll_ms (co_config_ c)) then c else
  let c := c <| last_discovery_poll := ce_steady e |> in
  let w := rt_window_end_unix_s (timing_context_ c) in
  match next_market_ c with
  | None =>
      match co_discover_market e c w with
      | Some next =>
          if negb (id_eqb (dm_condition_id next) (dm_condition_id (current_market_ c)))
          then co_register_market_full next (c <| next_market_ := Some next |>) else c
      | None => c
      end
  | Some _ =>
      match co_discover_market e c (w + co_period c) with
      | Some two_ahead => c <| pre_discovered_next_ := Some two_ahead |>
      | None => c
      end
  end.

(** *** One step *)
Definition co_stopping e c : bool := co_stop_requested_ c || ce_shutdown e.
Definition co_halting e c : bool := co_stopping e c || ce_fatal e.

Definition co_step e (ph : RotationPhase) c : RotationPhase * RotationCoordinator :=
  match co_pc c with
  | RDiscover attempts => (ph, if co_stopping e c then co_goto RReturned c else discovery_step e attempts c)
  | RDiscoverSleep attempts => (ph, co_goto (if co_halting e c then RReturned else RDiscover attempts) c)
  | RStart => (ph, if co_stopping e c then co_goto RReturned c else start_up e c)
  | RMain => (ph, co_goto (if co_halting e c then RFinal else RTick) c)
  | RTick =>
      if co_halting e c then (ph, co_goto RFinal c) else
      if time_to_rotate e c
      then (RotationPhase.PAUSE_REQUESTED, co_goto (RWaitPaused (pick_new_next e c)) (c <| pre_discovered_next_ := None |>))
      else (ph, co_goto RMain (poll_discovery e (fire_matured e c)))
  | RWaitPaused nx =>
      if co_stopping e c then (ph, rotation_over e c) else
      (ph, if bool_decide (ph = RotationPhase.PAUSED) then co_goto (RPausedSeen nx) c else c)
  | RPausedSeen nx =>
      if co_stopping e c then (ph, rotation_over e c) else
      (ph, co_goto (RDrain nx 0) (co_call (cb_stop_user_ws cb) RStopUserWs (co_call (cb_stop_market_ws cb) RStopMarketWs c)))
  | RDrain nx waited =>
      (ph, co_goto (if waited <? kDrainTimeoutMs
                    then if cb_is_exec_queue_drained cb && ce_drained e then RSwitch nx else RDrainSleep nx waited
                    else RSwitch nx) c)
  | RDrainSleep nx waited =>
      (ph, if co_halting e c then rotation_over e c else co_goto (RDrain nx (waited + kDrainPollMs)) c)
  | RSwitch nx => (RotationPhase.RESUME_REQUESTED, co_goto RWaitNormal (switch_markets e nx c))
  | RWaitNormal =>
      (ph, if co_stopping e c || bool_decide (ph = RotationPhase.NORMAL) then rotation_over e (update_ui_rotation c) else c)
  | RFinal =>
      if bool_decide (ph = RotationPhase.NORMAL) then (RotationPhase.PAUSE_REQUESTED, co_goto (RFinalWait 0) c)
      else (ph, co_goto RReturned c)
  | RFinalWait i =>
      if negb (i <? 100) then (ph, co_goto RReturned c) else
      if bool_decide (ph = RotationPhase.PAUSED) then (RotationPhase.RESUME_REQUESTED, co_goto RReturned c)
      else (ph, co_goto (RFinalWait (i + 1)) c)
  | RReturned => (ph, c)
  end.
End Coordinator.

(** ** The coordinator with the strategy thread *)
Section System.
Context {I SK ST K C B : Type} `{InventoryView I} `{ExecSink SK} `{InventoryOpSink K} `{Strategy ST I K}.
Context `{FeedStrategy ST C B RotationTimingContext} `{RowSort} {Q : Type -> Type} `{RingQueue Q}.
Context `{JsonParser} (cb : RotationCallbacks).

Abbreviation Thread := (Loop (SK := SK) (ST := ST) (K := K) (C := C) (B := B) (T := RotationTimingContext) (Q := Q)).
Record System := mkSystem {
  sy_co : RotationCoordinator;
  sy_loop : Thread;
  sy_shutdown : bool;
  sy_fatal : bool }.
Implicit Types (s : System).

(** The shared phase is a member of the coordinator the loop reads through a pointer. *)
Definition sy_phase s : RotationPhase := default RotationPhase.NORMAL (rotation_phase_ (sy_loop s)).

Inductive SysAction :=
  | Coordinate (now_s steady : Z) (get : nat -> string -> string -> string) (drained : bool)
  | Thread2 (a : Action (I := I) (C := C) (B := B) (T := RotationTimingContext))
  | StopCoordinator | RaiseShutdown | RaiseFatal.

Definition sys_act (a : SysAction) s : System :=
  match a with
  | Coordinate now_s steady get drained =>
      let e := mkCoEnv now_s steady (sy_shutdown s) (sy_fatal s) get drained in
      let '(ph, c) := co_step cb e (sy_phase s) (sy_co s) in
      s <| sy_co := c |>
        <| sy_loop ::= fun l => l <| rotation_phase_ := Some ph |> <| rotation_timing_ := Some (timing_context_ c) |> |>
  | Thread2 (SetRotation _ _) => s
  | Thread2 a => s <| sy_loop ::= act a |>
  | StopCoordinator => s <| sy_co ::= co_request_shutdown |>
  | RaiseShutdown => s <| sy_shutdown := true |>
  | RaiseFatal => s <| sy_fatal := true |>
  end.
Definition sys_run (acts : list SysAction) s : System := foldl (fun s a => sys_act a s) s acts.

(** Both threads at their start. *)
Definition sys_start (config : RotationConfig) (l : Thread) : System :=
  mkSystem (RotationCoordinator_new config)
    (l <| rotation_phase_ := Some RotationPhase.NORMAL |> <| rotation_timing_ := Some RotationTimingContext_default |> <| pc := PTop |>)
    false false.

(** *** The hand-over *)

(** What the place of each thread says about the phase. *)
Definition loop_phase (p : Phase) (ph : RotationPhase) : Prop :=
  match p with
  | PPaused => ph = RotationPhase.PAUSED \/ ph = RotationPhase.RESUME_REQUESTED
  | PResume => ph = RotationPhase.RESUME_REQUESTED
  | PStopped => True
  | _ => ph = RotationPhase.NORMAL \/ ph = RotationPhase.PAUSE_REQUESTED
  end.
Definition co_phase (halting : bool) (p : RotationPc) (ph : RotationPhase) : Prop :=
  match p with
  | RDiscover _ | RDiscoverSleep _ | RStart => ph = RotationPhase.NORMAL
  | RMain | RTick => ph = RotationPhase.NORMAL \/ halting = true
  | RWaitPaused _ => ph = RotationPhase.PAUSE_REQUESTED \/ ph = RotationPhase.PAUSED
  | RPausedSeen _ | RDrain _ _ | RDrainSleep _ _ | RSwitch _ => ph = RotationPhase.PAUSED
  | RWaitNormal => ph = RotationPhase.RESUME_REQUESTED \/ ph = RotationPhase.NORMAL
  | RFinal | RReturned => True
  | RFinalWait _ => ph = RotationPhase.PAUSE_REQUESTED \/ ph = RotationPhase.PAUSED
  end.
Definition sy_halting s : bool := co_stop_requested_ (sy_co s) || sy_shutdown s || sy_fatal s.
Record handover s : Prop := {
  ho_shared : is_Some (rotation_phase_ (sy_loop s));
  ho_loop : loop_phase (pc (sy_loop s)) (sy_phase s);
  ho_co : co_phase (sy_halting s) (co_pc (sy_co s)) (sy_phase s) }.
End System.

(** A call changes the record of calls only. *)
Lemma co_call_eq b x (c : RotationCoordinator) : co_call b x c = c <| co_calls := co_calls c ++ (if b then [x] else []) |>.
Proof. unfold co_call. destruct b; [done|]. rewrite app_nil_r. by destruct c. Qed.
Lemma register_eq `{JsonParser} cb mkt c : exists l, co_register_market_full cb mkt c = c <| co_calls := l |>.
Proof. unfold co_register_market_full. rewrite !co_call_eq. by eexists. Qed.
Lemma start_streams_eq `{JsonParser} cb c : exists l, start_streams cb c = c <| co_calls := l |>.
Proof. unfold start_streams. rewrite !co_call_eq. by eexists. Qed.
Lemma update_ui_eq `{JsonParser} cb c : exists l, update_ui_rotation cb c = c <| co_calls := l |>.
Proof. unfold update_ui_rotation. rewrite co_call_eq. by eexists. Qed.
(** Replaces the calls of a goal by the record of calls they leave. *)
Ltac co_simpl :=
  repeat match goal with
  | |- context [co_register_market_full ?cb ?m ?c] => destruct (register_eq cb m c) as [? ->]
  | |- context [start_streams ?cb ?c] => destruct (start_streams_eq cb c) as [? ->]
  | |- context [update_ui_rotation ?cb ?c] => destruct (update_ui_eq cb c) as [? ->]
  | |- context [co_call ?b ?x ?c] => rewrite (co_call_eq b x c)
  end; simpl.

Section HandoverProof.
Context {I SK ST K C B : Type} `{InventoryView I} `{ExecSink SK} `{InventoryOpSink K} `{Strategy ST I K}.
Context `{FeedStrategy ST C B RotationTimingContext} `{RowSort} {Q : Type -> Type} `{RingQueue Q}.
Context `{JsonParser} (cb : RotationCallbacks).
Abbreviation Thread := (Loop (SK := SK) (ST := ST) (K := K) (C := C) (B := B) (T := RotationTimingContext) (Q := Q)).
Implicit Types (s : System (SK := SK) (ST := ST) (K := K) (C := C) (B := B) (Q := Q)) (c : RotationCoordinator).

(** The steps of the coordinator. *)
Lemma fire_matured_stop e c : co_stop_requested_ (fire_matured cb e c) = co_stop_requested_ c.
Proof.
  unfold fire_matured. case_match; [done|]. simpl. generalize (filter (fun p => (ce_steady e >=? pr_fire_at p) = true) (pending_redeems_ c)).
  intros due. revert c. induction due as [|p due IH]; intros c; [done|]. simpl. rewrite IH. done.
Qed.
Lemma poll_discovery_stop e c : co_stop_requested_ (poll_discovery cb e c) = co_stop_requested_ c.
Proof. unfold poll_discovery. repeat case_match; co_simpl; done. Qed.
Lemma discovery_step_stop e n c : co_stop_requested_ (discovery_step e n c) = co_stop_requested_ c.
Proof. unfold discovery_step. repeat case_match; done. Qed.
Lemma start_up_stop e c : co_stop_requested_ (start_up cb e c) = co_stop_requested_ c.
Proof. unfold start_up. co_simpl. by repeat (case_match; co_simpl). Qed.
Lemma switch_markets_stop e nx c : co_stop_requested_ (switch_markets cb e nx c) = co_stop_requested_ c.
Proof. unfold switch_markets. by repeat (case_match; co_simpl). Qed.
Lemma co_step_stop e ph c : co_stop_requested_ (co_step cb e ph c).2 = co_stop_requested_ c.
Proof.
  unfold co_step. destruct (co_pc c); repeat case_match; cbn [snd]; try done; try apply discovery_step_stop; try apply start_up_stop.
  - cbn [co_goto co_stop_requested_]. change (co_stop_requested_ (poll_discovery cb e (fire_matured cb e c)) = co_stop_requested_ c).
    by rewrite poll_discovery_stop, fire_matured_stop.
  - co_simpl. done.
  - exact (switch_markets_stop e new_next c).
  - unfold rotation_over. co_simpl. done.
Qed.

(** The phase under a step of the coordinator. *)
Lemma co_step_phase e ph c (p : Phase) :
  loop_phase p ph -> co_phase (co_halting e c) (co_pc c) ph ->
  loop_phase p (co_step cb e ph c).1 /\ co_phase (co_halting e c) (co_pc (co_step cb e ph c).2) (co_step cb e ph c).1.
Proof.
  intros Hl Hc. unfold co_step. destruct (co_pc c) eqn:Ep; simpl in Hc.
  - subst. split; [done|]. case_match; [done|]. unfold discovery_step. cbv zeta. repeat case_match; done.
  - subst. simpl. split; [done|]. by case_match.
  - subst. split; [done|]. case_match; [done|]. simpl. by left.
  - split; [done|]. simpl. by destruct (co_halting e c).
  - destruct (co_halting e c) eqn:Eh; [done|]. destruct Hc as [->|?]; [|done]. case_match; [|split; [done|by left]].
    split; [|by left]. destruct p; simpl in *; naive_solver.
  - unfold co_halting in *. destruct (co_stopping e c) eqn:Es; simpl; [split; [done|by right]|]. split; [done|].
    case_bool_decide; [done|]. rewrite Ep. exact Hc.
  - unfold co_halting in *. destruct (co_stopping e c) eqn:Es; simpl; [split; [done|by right]|]. done.
  - simpl. split; [done|]. repeat case_match; done.
  - simpl. split; [done|]. destruct (co_halting e c); [by right|done].
  - simpl. split; [|by left]. subst. destruct p; simpl in *; naive_solver.
  - simpl. split; [done|]. unfold co_halting. destruct (co_stopping e c); simpl; [by right|].
    case_bool_decide; simpl; [by left|]. rewrite Ep. exact Hc.
  - case_bool_decide; [|done]. subst. simpl. split; [destruct p; simpl in *; naive_solver|by left].
  - case_match; [done|]. case_bool_decide; [|done]. subst. simpl. split; [|done]. destruct p; simpl in *; naive_solver.
  - simpl. by rewrite Ep.
Qed.

(** The phase under a step of the strategy thread: it grants a pause and ends one. *)
Definition granted (ph ph' : RotationPhase) : Prop :=
  ph' = ph \/ (ph = RotationPhase.PAUSE_REQUESTED /\ ph' = RotationPhase.PAUSED) \/
  (ph = RotationPhase.RESUME_REQUESTED /\ ph' = RotationPhase.NORMAL).
Lemma end_cycle_phase env (l : Thread) : rotation_phase_ (end_cycle env l) = rotation_phase_ l /\ pc (end_cycle env l) = PTop.
Proof.
  assert (forall l : Thread, rotation_phase_ (maybe_push_ui_state env l) = rotation_phase_ l) as H1'
    by (intros; unfold maybe_push_ui_state; by repeat case_match).
  assert (forall l : Thread, rotation_phase_ (back_off l) = rotation_phase_ l) as H2' by (intros; unfold back_off; by repeat case_match).
  assert (forall l : Thread, rotation_phase_ (goto PTop (periodic_stats env l)) = rotation_phase_ l) as H3'
    by (intros; unfold periodic_stats; by repeat case_match).
  assert (forall l : Thread, rotation_phase_ (sample_depths l) = rotation_phase_ l) as H4' by done.
  assert (forall f (l : Thread), rotation_phase_ (on_s f l) = rotation_phase_ l) as H5' by done.
  split; [|done]. unfold end_cycle. cbv zeta. by rewrite H3', H4', H2', !H5', H1'.
Qed.
Lemma step_phase env (l : Thread) ph :
  rotation_phase_ l = Some ph -> loop_phase (pc l) ph ->
  exists ph', rotation_phase_ (step env l) = Some ph' /\ loop_phase (pc (step env l)) ph' /\ granted ph ph'.
Proof.
  intros Hs Hl. assert (forall l' : Thread, rotation_phase_ l' = Some ph ->
    loop_phase (pc l') ph -> exists ph', rotation_phase_ l' = Some ph' /\ loop_phase (pc l') ph' /\ granted ph ph') as Hsame
    by (intros l' E1 E2; exists ph; split_and!; [done|done|by left]).
  unfold step. destruct (pc l) eqn:Ep; simpl in Hl.
  - case_match; [by apply Hsame|]. case_bool_decide as Hr.
    + assert (ph = RotationPhase.PAUSE_REQUESTED) as -> by congruence. exists RotationPhase.PAUSED.
      split; [done|]. split; [by left|right; left; done].
    + apply Hsame; [done|]. simpl. destruct Hl as [->| ->]; [by left|congruence].
  - case_match; [by apply Hsame|]. case_bool_decide as Hr; [|apply Hsame; [done|by rewrite Ep]].
    apply Hsame; [done|]. simpl. congruence.
  - case_match; [by apply Hsame|]. subst ph. exists RotationPhase.NORMAL.
    split; [unfold start_cycle, resume; by case_match|]. split; [by left|right; right; done].
  - repeat case_match; apply Hsame; simpl; try done; by rewrite Ep.
  - repeat case_match; apply Hsame; simpl; try done; by rewrite Ep.
  - repeat case_match; apply Hsame; simpl; try done; by rewrite Ep.
  - apply Hsame; [done|]. simpl. by case_match.
  - unfold pop_sim. cbv zeta. repeat case_match; apply Hsame; simpl; try done; by rewrite Ep.
  - repeat case_match; apply Hsame; simpl; try done; by rewrite Ep.
  - repeat case_match; apply Hsame; simpl; try done; by rewrite Ep.
  - repeat case_match; apply Hsame; simpl; try done; by rewrite Ep.
  - repeat case_match; apply Hsame; simpl; try done; by rewrite Ep.
  - repeat case_match; apply Hsame; simpl; try done; by rewrite Ep.
  - destruct (end_cycle_phase env l) as [E1 E2]. apply Hsame; [by rewrite E1|]. by rewrite E2.
  - apply Hsame; [done|]. by rewrite Ep.
Qed.
Lemma co_phase_granted h p ph ph' : granted ph ph' -> co_phase h p ph -> co_phase h p ph'.
Proof. unfold granted. destruct p; simpl; naive_solver. Qed.
Lemma co_phase_halting h p ph : co_phase h p ph -> co_phase true p ph.
Proof. destruct p; simpl; naive_solver. Qed.

Lemma handover_act (a : SysAction) s : handover s -> handover (sys_act cb a s).
Proof.
  intros [[ph Hs] Hl Hc]. unfold sy_phase in *. rewrite Hs in Hl, Hc. simpl in Hl, Hc. destruct a as [now_s steady get drained|a| | |]; simpl.
  - set (e := mkCoEnv now_s steady (sy_shutdown s) (sy_fatal s) get drained). unfold sy_phase. rewrite Hs. simpl.
    pose proof (co_step_stop e ph (sy_co s)) as Est. destruct (co_step_phase e ph (sy_co s) (pc (sy_loop s)) Hl Hc) as [Hl' Hc'].
    destruct (co_step cb e ph (sy_co s)) as [ph' c']. simpl in *. split; simpl; [done|done|].
    unfold sy_halting, sy_phase. simpl. rewrite Est. exact Hc'.
  - destruct a as [env| | | | | | | | | |]; try (split; unfold sy_phase; simpl; rewrite Hs; simpl; done).
    destruct (step_phase env (sy_loop s) ph Hs Hl) as (ph' & E1 & E2 & Hg).
    split; unfold sy_phase; simpl; rewrite E1; simpl; [done|done|]. by apply (co_phase_granted _ _ ph).
  - split; unfold sy_phase, sy_halting; simpl; rewrite Hs; simpl; [done|done|by apply co_phase_halting in Hc].
  - split; unfold sy_phase, sy_halting; simpl; rewrite Hs; simpl; [done|done|]. rewrite orb_true_r. by apply co_phase_halting in Hc.
  - split; unfold sy_phase, sy_halting; simpl; rewrite Hs; simpl; [done|done|]. rewrite orb_true_r. by apply co_phase_halting in Hc.
Qed.
Lemma handover_run acts s : handover s -> handover (sys_run cb acts s).
Proof. revert s. induction acts as [|a acts IH]; intros s Hh; [done|]. by apply IH, handover_act. Qed.
Lemma handover_start config (l : Thread) : handover (sys_start config l).
Proof. split; unfold sy_phase; simpl; [done|by left|]. by destruct (nonempty _). Qed.

(** Where the streams are stopped, the queue of the gateway drains and the markets
    are switched. *)
Definition switching (p : RotationPc) : bool :=
  match p with RPausedSeen _ | RDrain _ _ | RDrainSleep _ _ | RSwitch _ => true | _ => false end.
Definition starting (p : RotationPc) : bool :=
  match p with RDiscover _ | RDiscoverSleep _ | RStart => true | _ => false end.

(** What a step of the coordinator is seen to do: calls that stop or start a stream,
    and the market, the window and the number of rotations it publishes. *)
Definition stream_call (x : RotationCall) : bool :=
  match x with RStopMarketWs | RStopUserWs | RStartMarketWs _ | RStartUserWs _ => true | _ => false end.
Record quiet (c c' : RotationCoordinator) : Prop := {
  qu_market : current_market_ c' = current_market_ c;
  qu_window : timing_context_ c' = timing_context_ c;
  qu_count : rotation_count_ c' = rotation_count_ c;
  qu_calls : exists xs, co_calls c' = co_calls c ++ xs /\ Forall (fun x => stream_call x = false) xs }.
Definition new_calls (c c' : RotationCoordinator) : list RotationCall := drop (length (co_calls c)) (co_calls c').
Definition rotates (c c' : RotationCoordinator) : Prop :=
  current_market_ c' <> current_market_ c \/ timing_context_ c' <> timing_context_ c \/
  rotation_count_ c' <> rotation_count_ c \/ Exists (fun x => stream_call x = true) (new_calls c c').

#[local] Instance quiet_refl : Reflexive quiet.
Proof. intros c. split; try done. exists []. by rewrite app_nil_r. Qed.
#[local] Instance quiet_trans : Transitive quiet.
Proof.
  intros c1 c2 c3 [A1 A2 A3 (xs & A4 & A5)] [B1 B2 B3 (ys & B4 & B5)]. split; [congruence..|].
  exists (xs ++ ys). rewrite B4, A4, <- app_assoc. split; [done|]. by apply Forall_app.
Qed.
Lemma quiet_rotates c c' : quiet c c' -> ~ rotates c c'.
Proof.
  intros [Q1 Q2 Q3 (xs & E & Hx)] [Hr|[Hr|[Hr|Hr]]]; [done..|].
  unfold new_calls in Hr. rewrite E, drop_app_length in Hr.
  apply Exists_exists in Hr as (x & Hin & Hs). rewrite Forall_forall in Hx. by rewrite (Hx x Hin) in Hs.
Qed.
Lemma quiet_call b x c : stream_call x = false -> quiet c (co_call b x c).
Proof.
  intros Hx. unfold co_call. destruct b; [|done]. split; try done. exists [x]. split; [done|]. by repeat constructor.
Qed.
Lemma quiet_register m c : quiet c (co_register_market_full cb m c).
Proof. unfold co_register_market_full. cbv zeta. repeat (etrans; [|by apply quiet_call]). done. Qed.
Lemma quiet_goto p c : quiet c (co_goto p c).
Proof. split; try done. exists []. by rewrite app_nil_r. Qed.
Lemma quiet_same c c' : current_market_ c' = current_market_ c -> timing_context_ c' = timing_context_ c ->
  rotation_count_ c' = rotation_count_ c -> co_calls c' = co_calls c -> quiet c c'.
Proof. intros ? ? ? E. split; try done. exists []. by rewrite app_nil_r. Qed.

Lemma quiet_fire e c : quiet c (fire_matured cb e c).
Proof.
  unfold fire_matured. destruct (negb _); [done|]. cbv zeta.
  match goal with |- quiet c (set _ _ (foldl ?f c ?l)) => set (due := l); set (fire := f) end.
  trans (foldl fire c due); [|by apply quiet_same].
  generalize due. clear due. intros l. subst fire. revert c. induction l as [|p l IH]; intros c; [done|]. cbn [foldl].
  etrans; [|apply IH]. by apply quiet_call.
Qed.
Lemma quiet_poll e c : quiet c (poll_discovery cb e c).
Proof.
  unfold poll_discovery. destruct (negb _); [done|]. cbv zeta.
  destruct (next_market_ _) as [m|]; (destruct (co_discover_market _ _ _) as [n|]; [|by apply quiet_same]).
  - by apply quiet_same.
  - destruct (negb _); [|by apply quiet_same]. etrans; [|apply quiet_register]. by apply quiet_same.
Qed.
Lemma quiet_over e c : quiet c (rotation_over e c).
Proof. by apply quiet_same. Qed.

(** Outside start-up and the switch, a step stops and starts no stream and publishes
    nothing new. *)
Lemma quiet_step e ph c :
  starting (co_pc c) = false -> switching (co_pc c) = false -> quiet c (co_step cb e ph c).2.
Proof.
  intros Hst Hsw. unfold co_step. destruct (co_pc c) eqn:Ep; try done; simpl.
  - apply quiet_goto.
  - destruct (co_halting e c); [apply quiet_goto|]. destruct (time_to_rotate e c); simpl.
    + by apply quiet_same.
    + etrans; [apply quiet_fire|]. etrans; [apply quiet_poll|]. apply quiet_goto.
  - destruct (co_stopping e c); [apply quiet_over|]. simpl. destruct (bool_decide _); [apply quiet_goto|done].
  - destruct (_ || _); [|done]. etrans; [|apply quiet_over]. by apply quiet_call.
  - destruct (bool_decide _); apply quiet_goto.
  - destruct (negb _); [apply quiet_goto|]. destruct (bool_decide _); apply quiet_goto.
Qed.

(** The coordinator publishes an enabled window from start-up on. *)
Definition started_past (c : RotationCoordinator) : Prop :=
  rt_enabled (timing_context_ c) = true -> starting (co_pc c) = false.
Lemma discovery_disabled e n c : timing_context_ (discovery_step e n c) = timing_context_ c.
Proof. unfold discovery_step. repeat (case_match; try done). Qed.
Lemma started_step e ph c : started_past c -> started_past (co_step cb e ph c).2.
Proof.
  unfold started_past. intros Hs.
  assert (starting (co_pc c) = true -> rt_enabled (timing_context_ c) = false) as Hd.
  { intros E. destruct (rt_enabled _); [|done]. rewrite (Hs eq_refl) in E. done. }
  unfold co_step. destruct (co_pc c) eqn:Ep; cbn [starting fst snd] in *; try specialize (Hd eq_refl).
  - destruct (co_stopping e c); rewrite ?discovery_disabled; simpl; by rewrite Hd.
  - simpl. by rewrite Hd.
  - destruct (co_stopping e c); [simpl; by rewrite Hd|done].
  - by destruct (co_halting e c).
  - by destruct (co_halting e c); [|destruct (time_to_rotate e c)].
  - destruct (co_stopping e c); [done|]. simpl. by destruct (bool_decide _); simpl; rewrite ?Ep.
  - by destruct (co_stopping e c).
  - by destruct (_ <? _); [destruct (_ && _)|].
  - by destruct (co_halting e c).
  - done.
  - by destruct (_ || _); simpl; rewrite ?Ep.
  - by destruct (bool_decide _).
  - by destruct (negb _); [|destruct (bool_decide _)].
  - simpl. by rewrite Ep.
Qed.
Lemma started_act a s : started_past (sy_co s) -> started_past (sy_co (sys_act cb a s)).
Proof.
  intros Hs. destruct a as [now_s steady get drained|a| | |]; simpl; try done.
  - pose proof (started_step (mkCoEnv now_s steady (sy_shutdown s) (sy_fatal s) get drained) (sy_phase s) _ Hs) as Hs'.
    by destruct (co_step cb _ _ _).
  - by destruct a.
Qed.
Lemma started_run acts s : started_past (sy_co s) -> started_past (sy_co (sys_run cb acts s)).
Proof. revert s. induction acts as [|a acts IH]; intros s Hs; [done|]. by apply IH, started_act. Qed.

(** C29: the markets are switched while the strategy thread is paused.  In every
    interleaving of the coordinator, the strategy thread and the others, once the
    coordinator has started up (its published window is enabled): whenever a step of
    the coordinator stops or starts a stream, or changes the published market, window
    or rotation count, the strategy thread waits in its pause or has stopped at that
    moment, and whatever it does next leaves the scheduler and its queues as they
    are. *)
Theorem rotation_exclusive (config : RotationConfig) (l : Thread) (acts : list SysAction) (env : Env (I := I))
    (now_s steady : Z) (get : nat -> string -> string -> string) (drained : bool) :
  let s := sys_run cb acts (sys_start config l) in
  let s' := sys_act cb (Coordinate now_s steady get drained) s in
  rt_enabled (timing_context_ (sy_co s)) = true ->
  rotates (sy_co s) (sy_co s') ->
  (pc (sy_loop s) = PPaused \/ pc (sy_loop s) = PStopped) /\
  exists p, step env (sy_loop s) = goto p (sy_loop s).
Proof.
  cbv zeta. intros He Hr. destruct (handover_run acts _ (handover_start config l)) as [_ Hl Hc].
  assert (started_past (sy_co (sys_start config l))) as Hst by done.
  apply (started_run acts) in Hst.
  set (s := sys_run cb acts (sys_start config l)) in *.
  assert (switching (co_pc (sy_co s)) = true) as Hw.
  { destruct (switching _) eqn:Ew; [done|]. exfalso. revert Hr. simpl.
    pose proof (quiet_step (mkCoEnv now_s steady (sy_shutdown s) (sy_fatal s) get drained) (sy_phase s) _ (Hst He) Ew) as Hq.
    destruct (co_step cb _ _ _). by apply quiet_rotates. }
  assert (sy_phase s = RotationPhase.PAUSED) as Hp by (by destruct (co_pc (sy_co s))).
  rewrite Hp in Hl. assert (pc (sy_loop s) = PPaused \/ pc (sy_loop s) = PStopped) as Hpc
    by (destruct (pc (sy_loop s)); simpl in Hl; naive_solver).
  split; [done|]. unfold step. destruct Hpc as [Ep|Ep]; rewrite Ep.
  - case_match; [by eexists|]. case_match; [by eexists|]. exists PPaused. unfold goto. rewrite <- Ep. by destruct (sy_loop s).
  - exists PStopped. unfold goto. rewrite <- Ep. by destruct (sy_loop s).
Qed.
End HandoverProof.

(** ** A requested pause is granted *)
Section PauseGranted.
Context {I SK ST K C B : Type} `{InventoryView I} `{ExecSink SK} `{InventoryOpSink K} `{Strategy ST I K}.
Context `{FeedStrategy ST C B RotationTimingContext} `{RowSort} {Q : Type -> Type} `{RingQueue Q}.
Abbreviation Thread := (Loop (SK := SK) (ST := ST) (K := K) (C := C) (B := B) (T := RotationTimingContext) (Q := Q)).
Abbreviation ThreadAction := (Action (I := I) (C := C) (B := B) (T := RotationTimingContext)).
Implicit Types (l : Thread) (acts : list ThreadAction).

(** The coordinator waits: no action writes the phase. *)
Definition waiting (a : ThreadAction) : bool := match a with SetRotation _ _ => false | _ => true end.

Lemma act_phase (a : ThreadAction) l : waiting a = true -> is_consume a = false ->
  pc (act a l) = pc l /\ rotation_phase_ (act a l) = rotation_phase_ l.
Proof. by destruct a. Qed.

(** Up to and with the next iteration of the thread. *)
Lemma next_consume acts l : (0 < consumes acts)%nat -> Forall (fun a => waiting a = true) acts ->
  exists acts1 acts2 env l', acts = acts1 ++ acts2 /\ run acts1 l = step env l' /\ pc l' = pc l /\
    rotation_phase_ l' = rotation_phase_ l /\ consumes acts = S (consumes acts2).
Proof.
  revert l. induction acts as [|a acts IH]; intros l Hc Hw; [unfold consumes in Hc; simpl in Hc; lia|].
  apply Forall_cons in Hw as [Ha Hw]. destruct (is_consume a) eqn:Ea.
  - destruct a as [env| | | | | | | | | |]; try done. exists [Consume env], acts, env, l. split_and!; try done.
  - unfold consumes in Hc. rewrite filter_cons, Ea in Hc. destruct (act_phase a l Ha Ea) as [E1 E2].
    destruct (IH (act a l) Hc Hw) as (a1 & a2 & env & l' & -> & Hr & E3 & E4 & E5).
    exists (a :: a1), a2, env, l'. split_and!; [done|done|congruence|congruence|].
    unfold consumes in *. rewrite filter_cons, Ea. exact E5.
Qed.

(** Once requested, the pause is pending or granted. *)
Lemma pending_run acts l : Forall (fun a => waiting a = true) acts ->
  rotation_phase_ l = Some RotationPhase.PAUSE_REQUESTED \/ rotation_phase_ l = Some RotationPhase.PAUSED ->
  loop_phase (pc l) (default RotationPhase.NORMAL (rotation_phase_ l)) ->
  let l' := run acts l in
  (rotation_phase_ l' = Some RotationPhase.PAUSE_REQUESTED \/ rotation_phase_ l' = Some RotationPhase.PAUSED) /\
  loop_phase (pc l') (default RotationPhase.NORMAL (rotation_phase_ l')).
Proof.
  revert l. induction acts as [|a acts IH]; intros l Hw Hp Hl; [done|]. apply Forall_cons in Hw as [Ha Hw].
  apply (IH (act a l)); [done|..]; (destruct (is_consume a) eqn:Ea; [|destruct (act_phase a l Ha Ea) as [E1 E2]; by rewrite ?E1, ?E2]).
  all: destruct a as [env| | | | | | | | | |]; try done; simpl.
  all: destruct Hp as [Hp|Hp]; rewrite Hp in Hl; destruct (step_phase env l _ Hp Hl) as (ph' & E1 & E2 & Hg); rewrite E1; simpl.
  all: try exact E2; unfold granted in Hg; naive_solver.
Qed.

Lemma consumes_app acts1 acts2 : consumes (acts1 ++ acts2) = (consumes acts1 + consumes acts2)%nat.
Proof. unfold consumes. by rewrite filter_app, length_app. Qed.
Lemma pushes_app acts1 acts2 : pushes (acts1 ++ acts2) = (pushes acts1 + pushes acts2)%nat.
Proof. unfold pushes. by rewrite filter_app, length_app. Qed.
Lemma run_app acts1 acts2 l : run (acts1 ++ acts2) l = run acts2 (run acts1 l).
Proof. apply foldl_app. Qed.

(** C30: a requested pause is granted, to a strategy whose answers to acknowledgements
    are paid from a bounded budget ([frugal_strategy]; for others the drain of the
    simulator may never end, see [simulator_livelock]).  When the coordinator has asked
    for a pause while the strategy thread is inside a pass, and as long as it waits
    (nobody writes the phase), the thread is in its pause, with the phase saying so, or
    has stopped, after at most two iterations more than the rest of its pass takes plus
    one per event that the other threads push. *)
Theorem pause_granted (bmax : nat) (budget : ST -> nat) acts l
    (Hfrugal : frugal_strategy bmax budget) (Hok : loop_ok l) (Hdrain : draining l = true)
    (Hrequested : rotation_phase_ l = Some RotationPhase.PAUSE_REQUESTED) (Hwait : Forall (fun a => waiting a = true) acts)
    (Hlong : (work bmax budget l + pushes acts + 2 <= consumes acts)%nat) :
  exists acts1 acts2, acts = acts1 ++ acts2 /\
    ((pc (run acts1 l) = PPaused /\ rotation_phase_ (run acts1 l) = Some RotationPhase.PAUSED) \/ pc (run acts1 l) = PStopped).
Proof.
  destruct (drain_terminates bmax budget acts l Hfrugal Hok Hdrain) as (a1 & a2 & -> & Hpc & Hle); [lia|].
  apply Forall_app in Hwait as [Hw1 Hw2]. rewrite consumes_app, pushes_app in Hlong.
  assert (loop_phase (pc l) RotationPhase.PAUSE_REQUESTED) as Hl
    by (unfold draining in Hdrain; destruct (pc l); try done; by right).
  destruct (pending_run a1 l Hw1) as [Hp1 Hl1]; [by left|by rewrite Hrequested|].
  set (l1 := run a1 l) in *. rewrite Hpc in Hl1. assert (rotation_phase_ l1 = Some RotationPhase.PAUSE_REQUESTED) as Hq1.
  { destruct Hp1 as [?|E]; [done|]. rewrite E in Hl1. simpl in Hl1. naive_solver. }
  destruct (next_consume a2 l1) as (b1 & b2 & env & l2 & -> & Hr2 & E1 & E2 & Ec2); [lia|done|].
  assert (pc (step env l2) = PTop /\ rotation_phase_ (step env l2) = Some RotationPhase.PAUSE_REQUESTED) as [Ep Eq].
  { unfold step. rewrite E1, Hpc. destruct (end_cycle_phase env l2) as [-> ->]. by rewrite E2. }
  apply Forall_app in Hw2 as [_ Hw3].
  destruct (next_consume b2 (step env l2)) as (c1 & c2 & env' & l3 & -> & Hr3 & E3 & E4 & _); [lia|done|].
  exists (a1 ++ b1 ++ c1), c2. split; [by rewrite <- !app_assoc|].
  rewrite !run_app. change (run a1 l) with l1. rewrite Hr2, Hr3. unfold step. rewrite E3, Ep. case_match; [by right|].
  rewrite E4, Eq. left. done.
Qed.
End PauseGranted.

(** ** A rotation before the end of the window is repeated *)
Section EarlyRotation.
Context `{JsonParser} (cb : RotationCallbacks).
Implicit Types (c : RotationCoordinator) (e : CoEnv).

(** The coordinator's steps for the phases it reads. *)
Definition co_run e (phases : list RotationPhase) c : RotationCoordinator := foldl (fun c ph => (co_step cb e ph c).2) c phases.
Lemma co_run_app e ps1 ps2 c : co_run e (ps1 ++ ps2) c = co_run e ps2 (co_run e ps1 c).
Proof. apply foldl_app. Qed.
(** One rotation with a strategy thread that answers at once, and the next pass. *)
Definition answered_rotation : list RotationPhase :=
  [RotationPhase.NORMAL; RotationPhase.PAUSED; RotationPhase.PAUSED; RotationPhase.PAUSED; RotationPhase.PAUSED;
   RotationPhase.NORMAL; RotationPhase.NORMAL].

Record ready e c : Prop := {
  rd_pc : co_pc c = RTick;
  rd_running : co_halting e c = false;
  rd_drained : cb_is_exec_queue_drained cb = true /\ ce_drained e = true;
  rd_rotate : time_to_rotate e c = true }.

Lemma switch_eq e nx c : exists calls redeems,
  switch_markets cb e nx c = c <| current_market_ := default (current_market_ c) (next_market_ c) |>
    <| next_market_ := if nonempty (dm_condition_id nx) then Some nx else None |>
    <| pending_redeems_ := redeems |> <| co_calls := calls |>
    <| timing_context_ ::= fun t => t <| rt_window_start_unix_s := window_start c (ce_now_s e) |> <| rt_window_end_unix_s := window_end c (ce_now_s e) |> |>
    <| rotation_count_ ::= Z.succ |>.
Proof.
  unfold switch_markets. destruct (nonempty (dm_condition_id nx)).
  - destruct (register_eq cb nx c) as [l1 ->]. cbv zeta. simpl.
    case_match; match goal with |- context [start_streams cb ?x] => destruct (start_streams_eq cb x) as [l2 ->] end; by do 2 eexists.
  - case_match; match goal with |- context [start_streams cb ?x] => destruct (start_streams_eq cb x) as [l2 ->] end.
    + by do 2 eexists.
    + exists l2, (pending_redeems_ c). by destruct c.
Qed.

Lemma rotate_once e c : ready e c ->
  let c' := co_run e answered_rotation c in
  co_pc c' = RTick /\ co_halting e c' = false /\ co_config_ c' = co_config_ c /\ discovery_host_ c' = discovery_host_ c /\
  current_market_ c' = default (current_market_ c) (next_market_ c) /\
  next_market_ c' = (if nonempty (dm_condition_id (pick_new_next e c)) then Some (pick_new_next e c) else None) /\
  pre_discovered_next_ c' = None /\ rotation_count_ c' = rotation_count_ c + 1 /\
  rt_window_end_unix_s (timing_context_ c') = window_end c (ce_now_s e).
Proof.
  intros [Hpc Hrun [Hd1 Hd2] Hrot]. pose proof Hrun as Hrun'. unfold co_halting in Hrun'. apply orb_false_iff in Hrun' as [Hst Hft].
  set (nx := pick_new_next e c).
  set (c1 := co_goto (RWaitPaused nx) (c <| pre_discovered_next_ := None |>)).
  assert (co_step cb e RotationPhase.NORMAL c = (RotationPhase.PAUSE_REQUESTED, c1)) as S1
    by (unfold co_step; by rewrite Hpc, Hrun, Hrot).
  assert (co_step cb e RotationPhase.PAUSED c1 = (RotationPhase.PAUSED, co_goto (RPausedSeen nx) c1)) as S2
    by (unfold co_step; cbn [co_pc c1 co_goto]; change (co_stopping e c1) with (co_stopping e c); by rewrite Hst).
  assert (exists l, co_step cb e RotationPhase.PAUSED (co_goto (RPausedSeen nx) c1) =
    (RotationPhase.PAUSED, co_goto (RDrain nx 0) (c1 <| co_calls := l |>))) as [l S3].
  { unfold co_step. cbn [co_pc co_goto]. change (co_stopping e _) with (co_stopping e c). rewrite Hst, !co_call_eq. by eexists. }
  set (c3 := co_goto (RDrain nx 0) (c1 <| co_calls := l |>)) in *.
  assert (co_step cb e RotationPhase.PAUSED c3 = (RotationPhase.PAUSED, co_goto (RSwitch nx) c3)) as S4
    by (unfold co_step; cbn; by rewrite Hd1, Hd2).
  destruct (switch_eq e nx (co_goto (RSwitch nx) c3)) as (calls & redeems & Hsw). set (c4 := co_goto (RSwitch nx) c3) in *.
  set (c5 := co_goto RWaitNormal (switch_markets cb e nx c4)).
  assert (co_step cb e RotationPhase.PAUSED c4 = (RotationPhase.RESUME_REQUESTED, c5)) as S5 by done.
  apply (f_equal (co_goto RWaitNormal)) in Hsw. fold c5 in Hsw. clearbody c5.
  destruct (update_ui_eq cb c5) as [l6 Hui].
  assert (co_step cb e RotationPhase.NORMAL c5 = (RotationPhase.NORMAL, rotation_over e (c5 <| co_calls := l6 |>))) as S6
    by (unfold co_step; replace (co_pc c5) with RWaitNormal by (by rewrite Hsw); rewrite <- Hui; by rewrite orb_true_r).
  set (c6 := rotation_over e (c5 <| co_calls := l6 |>)) in *.
  assert (co_halting e c6 = false) as Hrun6.
  { change (co_halting e c6) with (co_stop_requested_ c5 || ce_shutdown e || ce_fatal e). rewrite Hsw. exact Hrun. }
  assert (co_step cb e RotationPhase.NORMAL c6 = (RotationPhase.NORMAL, co_goto RTick c6)) as S7
    by (unfold co_step; cbn [co_pc c6 rotation_over co_goto]; by rewrite Hrun6).
  unfold co_run, answered_rotation. cbn [foldl]. rewrite S1. cbn [snd]. rewrite S2. cbn [snd]. rewrite S3. cbn [snd]. rewrite S4. cbn [snd].
  rewrite S5. cbn [snd]. rewrite S6. cbn [snd]. rewrite S7. cbn [snd]. cbv zeta. split; [done|]. split; [exact Hrun6|].
  unfold c6. rewrite Hsw. done.
Qed.

(** A rotation that starts before the window has ended is repeated, and skips a
    market.  When the time to rotate comes before the end of the window, the new
    timing is still that of the old window; so the coordinator rotates again at
    once, and before the market [m1] of the next window has opened it trades
    the market of the window after. *)
Theorem early_rotation_skips_market e c (m1 m2 : DiscoveredMarket)
    (Hready : ready e c) (Hwindow : rt_window_end_unix_s (timing_context_ c) = window_end c (ce_now_s e))
    (Hnext : next_market_ c = Some m1) (Hafter : pre_discovered_next_ c = Some m2) (Hid : nonempty (dm_condition_id m2) = true)
    (Hfound : co_discover_market e c (window_end c (ce_now_s e) + co_period c) = Some m2) :
  let c' := co_run e (answered_rotation ++ answered_rotation) c in
  ce_now_s e < rt_window_end_unix_s (timing_context_ c) /\
  current_market_ (co_run e answered_rotation c) = m1 /\ current_market_ c' = m2 /\ rotation_count_ c' = rotation_count_ c + 2 /\
  rt_window_end_unix_s (timing_context_ c') = rt_window_end_unix_s (timing_context_ c).
Proof.
  cbv zeta. assert (pick_new_next e c = m2) as Hp by (unfold pick_new_next; rewrite Hafter; simpl; by rewrite Hid).
  destruct (rotate_once e c Hready) as (A1 & A2 & A3 & A4 & A5 & A6 & A7 & A8 & A9).
  rewrite Hnext in A5. rewrite Hp, Hid in A6. set (c1 := co_run e answered_rotation c) in *.
  assert (forall w, window_end c1 w = window_end c w) as Hwe by (intros; unfold window_end, window_start, co_period; by rewrite A3).
  assert (pick_new_next e c1 = m2) as Hp1.
  { unfold pick_new_next. rewrite A7, A9. simpl.
    replace (co_discover_market e c1 (window_end c (ce_now_s e) + co_period c1)) with (Some m2); [done|].
    rewrite <- Hfound. unfold co_discover_market, co_period. by rewrite A3, A4. }
  assert (ready e c1) as Hready1.
  { destruct Hready as [_ _ Hd Hrot]. split; [done|done|done|]. revert Hrot. unfold time_to_rotate. rewrite A3, A6, A9, Hwindow. 
    by rewrite Hnext. }
  destruct (rotate_once e c1 Hready1) as (B1 & B2 & B3 & B4 & B5 & B6 & B7 & B8 & B9).
  rewrite co_run_app. fold c1. split.
  - rewrite Hwindow. unfold window_end, window_start, co_period. destruct (window_candidates (rc_timeframe (co_config_ c)) (ce_now_s e)) as (w & -> & _ & Hw).
    lia.
  - split; [exact A5|]. rewrite B5, A6, B8, A8, B9, Hwe, Hwindow. simpl. split_and!; [done|lia|done].
Qed.
End EarlyRotation.

(** ** Witnesses *)
Section RotationExample.
(** A service whose market of a request is named after it. *)
#[local] Instance echo_parser : JsonParser := {| parse_json s :=
  Some (JArray [JObject [("markets"%string,
    JArray [market_json s false JNull (JArray [JString (s +:+ "u"); JString (s +:+ "d")])])]]) |}.
Definition echo_get : nat -> string -> string -> string := fun _ _ target => target.
Definition echo_market (w : Z) : DiscoveredMarket :=
  let id := ("/events?slug=btc-updown-5m-" +:+ print_i64 w)%string in
  mkDiscoveredMarket id (id +:+ "u") (id +:+ "d") false false 0.
Definition all_callbacks : RotationCallbacks :=
  mkRotationCallbacks true true true true true true true true true true true true.
Definition sample_rotation : RotationConfig := mkRotationConfig BTC_5M 15000 5000 0 0 "https://gamma-api.polymarket.com".

#[local] Instance unit_ops : InventoryOpSink unit := {| try_request r k := (k, true) |}.
#[local] Existing Instance merge_row_sort.
Definition quoter_thread (p : Phase) (ph : RotationPhase) : Loop (ST := QuoterV2Strategy) (K := unit)
    (SK := ExecQueueSink (Q := BoundedList)) (C := unit) (B := unit) (T := RotationTimingContext) (Q := BoundedList) :=
  mkLoop
    (StrategyScheduler_new false (mkExecQueueSink (mkSpscQueue (mkBoundedList [] 16) 0 0 0) 0 0)
       (Some (QuoterV2Strategy_new QuoterV2Config_default)) None
       (Some (mkModeFilteredSink None ExecutionMode.DRY_RUN None 0 0)) (Some WorkingOrderTracker_new) (Some tt) None true)
    loop_config (event_queue (sample_event <$> [1; 2; 3])) (event_queue []) (mkSpscQueue (mkBoundedList [] 16) 0 0 0)
    (event_queue []) (Some (mkSpscQueue (mkBoundedList [] 16) 0 0 0)) (Some (mkSpscQueue (mkBoundedList [] 16) 0 0 0))
    (Some (mkSpscQueue (mkBoundedList [] 16) 0 0 0)) (Some (event_queue [])) None false (Some ph) None 0 50000000 0 0 0 0
    QueuePops_default DepthMarks_default p.

(** Discovery, start-up, the time to rotate, and the strategy thread's answer. *)
Definition coordinate (now_s : Z) : SysAction (I := TokenInventory) (C := unit) (B := unit) := Coordinate now_s 0 echo_get true.
Definition rotation_run : list (SysAction (I := TokenInventory) (C := unit) (B := unit)) :=
  [coordinate 1000; coordinate 1000; coordinate 1100; coordinate 1195; Thread2 (Consume loop_env); coordinate 1195].

(** The next step of the coordinator stops the streams. *)
Lemma rotation_exclusive_witness :
  let s := sys_run all_callbacks rotation_run (sys_start sample_rotation (quoter_thread PTop RotationPhase.NORMAL)) in
  new_calls (sy_co s) (sy_co (sys_act all_callbacks (coordinate 1195) s)) = [RStopMarketWs; RStopUserWs] /\
  (pc (sy_loop s) = PPaused \/ pc (sy_loop s) = PStopped).
Proof.
  intros s.
  assert (new_calls (sy_co s) (sy_co (sys_act all_callbacks (coordinate 1195) s)) = [RStopMarketWs; RStopUserWs]) as Hn
    by (vm_compute; reflexivity).
  split; [exact Hn|].
  apply (rotation_exclusive all_callbacks sample_rotation (quoter_thread PTop RotationPhase.NORMAL) rotation_run loop_env
           1195 0 echo_get true).
  - vm_compute. reflexivity.
  - right. right. right. change (Exists (fun x => stream_call x = true)
      (new_calls (sy_co s) (sy_co (sys_act all_callbacks (coordinate 1195) s)))).
    rewrite Hn. by left.
Defined.

Lemma quoter_thread_ok p ph : loop_ok (quoter_thread p ph).
Proof. apply new_sched_ok. done. Qed.
Lemma pause_granted_witness :
  exists acts1 acts2 : list (Action (I := TokenInventory) (C := unit) (B := unit) (T := RotationTimingContext)),
    replicate 110 (Consume loop_env) = acts1 ++ acts2 /\
    (pc (run acts1 (quoter_thread PDelta RotationPhase.PAUSE_REQUESTED)) = PPaused \/
     pc (run acts1 (quoter_thread PDelta RotationPhase.PAUSE_REQUESTED)) = PStopped).
Proof.
  destruct (pause_granted 0 (fun _ => 0%nat) (replicate 110 (Consume loop_env)) (quoter_thread PDelta RotationPhase.PAUSE_REQUESTED)
    quoter_frugal (quoter_thread_ok _ _) eq_refl eq_refl) as (acts1 & acts2 & Hs & Hp).
  - by apply Forall_replicate.
  - vm_compute. lia.
  - exists acts1, acts2. split; [exact Hs|]. destruct Hp as [[Hp _]|Hp]; [by left|by right].
Defined.

Definition early_env : CoEnv := mkCoEnv 1195 0 false false echo_get true.
Definition early_coordinator : RotationCoordinator :=
  mkRotationCoordinator sample_rotation false (mkRotationTimingContext 900 1200 300 0 0 true) (echo_market 900)
    (Some (echo_market 1200)) (Some (echo_market 1500)) 0 "gamma-api.polymarket.com" [] 0 [] RTick.
Lemma early_rotation_skips_market_witness :
  current_market_ (co_run all_callbacks early_env (answered_rotation ++ answered_rotation) early_coordinator) = echo_market 1500.
Proof.
  refine (proj1 (proj2 (proj2 (early_rotation_skips_market all_callbacks early_env early_coordinator (echo_market 1200) (echo_market 1500)
    _ _ _ _ _ _)))); try (vm_compute; reflexivity).
  split; try (vm_compute; reflexivity). split; reflexivity.
Defined.
End RotationExample.
