(* ===== verification/InventoryService.v ===== *)
(** The inventory service: [src/inventory/inventory_service.cpp],
    [src/inventory/relayer_client.cpp], [src/inventory/polygon_rpc_client.cpp],
    [src/inventory/inventory_queue_sink.cpp].

    A worker thread takes split, merge and redeem requests from a queue, encodes
    the call of the token contract, has it executed (through the relayer or directly
    by a transaction to the chain), waits for its confirmation and then adjusts the
    shared token inventory.  The code blocks on the network, so a request is one
    function; [ServiceM] is the state monad it is written in.  The outside is the
    record [Net]: what the [i]-th exchange answers, whether the stop flag is set when
    it is read and what the clock says.  Every exchange is recorded.

    Shown: in dry-run mode nothing is sent; every transaction that is sent denotes,
    read by the definitions of the formats, exactly the requested operation (or the
    approval of the collateral) within the configured gas price; the inventory changes
    only after a confirmation of the submitted transaction, by exactly the operation's
    amounts; a split followed by a merge restores it; requests are handled once and in
    order.  After a stop request the remaining transactions are still sent, and their
    confirmations not awaited. *)
From Stdlib Require Import Ascii.
From S2P Require Import Prelude Types Price Json SpscQueue TokenInventory Crypto OrderBuilder Discovery Sinks Scheduler.
From S2P Require Import ChainEncoders Auth.

(** ** Configuration and state *)
Record InventoryServiceConfig := mkInventoryServiceConfig {
  sc_enabled : bool;
  sc_dry_run : bool;
  sc_poll_sleep_ms : Z;
  sc_relayer_host : string;
  sc_relayer_port : string;
  sc_relayer_poll_interval_ms : Z;
  sc_relayer_max_poll_attempts : Z;
  sc_relayer_timeout_ms : Z;
  sc_builder_api_key : string;
  sc_builder_api_secret_b64 : string;
  sc_builder_api_passphrase : string;
  sc_has_private_key : bool;
  sc_use_direct_rpc : bool;
  sc_polygon_rpc_url : string;
  sc_max_gas_price_gwei : Z;
  sc_gas_limit : Z;
  sc_rpc_timeout_ms : Z }.

Record HttpResult := mkHttpResult { hr_body : string; hr_status : Z; hr_error : string }.
Definition http_ok (r : HttpResult) : bool := (200 <=? hr_status r) && (hr_status r <? 300) && negb (nonempty (hr_error r)).

(** A request with its answer. *)
Inductive Exchange :=
  | RpcExchange (body : list ascii) (answer : string)
  | RelayerExchange (method : HttpMethod) (target body : list ascii) (headers : BuilderAuthHeaders) (answer : HttpResult).

Record Net := mkNet {
  net_rpc : nat -> list ascii -> string;
  net_relayer : nat -> HttpMethod -> list ascii -> list ascii -> HttpResult;
  net_stop : nat -> bool;
  net_now_s : nat -> Z }.

Record InventoryService := mkInventoryService {
  iv_config_ : InventoryServiceConfig;
  iv_eoa_address_ : list ascii;
  iv_eoa_bytes_ : list Z;
  iv_proxy_address_ : list ascii;
  iv_relayer_ready_ : bool;
  iv_rpc_ready_ : bool;
  iv_usdc_approved_ : bool;
  iv_rpc_id_ : Z;
  iv_inventory_ : option TokenInventory;
  iv_tick : nat;
  iv_trace : list Exchange }.

Definition ServiceM (A : Type) : Type := InventoryService -> InventoryService * A.
#[export] Instance ServiceM_ret : MRet ServiceM := fun A a s => (s, a).
#[export] Instance ServiceM_bind : MBind ServiceM := fun A B k m s => let '(s', a) := m s in k a s'.

Record RelayPayload := mkRelayPayload { rp_nonce : Z; rp_relay_address : string }.
Record RelayerSubmitResult := mkRelayerSubmitResult { rs_transaction_id : string; rs_transaction_hash : string; rs_state : string }.
Record TransactionReceipt := mkTransactionReceipt { tr_transaction_hash : string; tr_status : Z; tr_gas_used : Z; tr_block_number : Z }.

(** [std::stoull]: white space, a sign, digits; what follows is ignored.  A negative
    number is reduced modulo 2^64. *)
Definition is_space (c : ascii) : bool := let n := char_code c in (n =? 32) || ((9 <=? n) && (n <=? 13)).
Fixpoint skip_spaces (l : list ascii) : list ascii :=
  match l with c :: r => if is_space c then skip_spaces r else l | [] => [] end.
Definition stoull (s : string) : option Z :=
  let l := skip_spaces (txt s) in
  let '(neg, l) := match l with
                   | c :: r => if char_eqb c "-" then (true, r) else if char_eqb c "+" then (false, r) else (false, l)
                   | [] => (false, l)
                   end in
  match digit_prefix l with
  | [] => None
  | ds => v ← digits_value 0 ds; if v <? 2 ^ 64 then Some (if neg : bool then wrap_u64 (- v) else v) else None
  end.

Definition get_uint64 (r : Json + SimdError) : Z + SimdError :=
  match r with
  | inl (JInt z) => if (0 <=? z) && (z <? 2 ^ 64) then inl z else inr SimdError.NUMBER_OUT_OF_RANGE
  | inl _ => inr SimdError.INCORRECT_TYPE
  | inr e => inr e
  end.

(** [parse_hex_uint64]: other characters only shift. *)
Fixpoint hex_uint64_loop (l : list ascii) (val : Z) : Z :=
  match l with
  | [] => val
  | c :: l => hex_uint64_loop l (Z.lor (wrap_u64 (Z.shiftl val 4)) (default 0 (hex_val c)))
  end.
Definition parse_hex_uint64 (s : string) : Z :=
  match txt s with
  | c0 :: c1 :: r => if char_eqb c0 "0" && (char_eqb c1 "x" || char_eqb c1 "X") then hex_uint64_loop r 0 else hex_uint64_loop (c0 :: c1 :: r) 0
  | l => hex_uint64_loop l 0
  end.

Definition hex_decode_to_bytes32 (hex : list ascii) : option (list Z) :=
  r ← hex_decode hex 32; if (length r =? 32)%nat then Some r else None.

(** [snprintf] into a buffer of [size] characters. *)
Definition snprintf (size : nat) (s : list ascii) : list ascii := take (size - 1) s.

Section Service.
Context `{CryptoLib} `{OpenSsl} `{JsonParser} (net : Net).

Definition get_service : ServiceM InventoryService := fun s => (s, s).

(** ** The outside *)
Definition read_stop : ServiceM bool := fun s => (s <| iv_tick ::= S |>, net_stop net (iv_tick s)).
Definition do_rpc (body : list ascii) : ServiceM string := fun s =>
  let a := net_rpc net (iv_tick s) body in
  (s <| iv_tick ::= S |> <| iv_trace ::= fun t => t ++ [RpcExchange body a] |>, a).
Definition do_request (method : HttpMethod) (target body : list ascii) : ServiceM HttpResult := fun s =>
  let cfg := iv_config_ s in
  let headers := build_builder_headers (net_now_s net (iv_tick s)) (sc_builder_api_key cfg) (sc_builder_api_secret_b64 cfg)
                   (sc_builder_api_passphrase cfg) (txt (http_method_str method)) target body in
  let a := net_relayer net (iv_tick s) method target body in
  (s <| iv_tick ::= S |> <| iv_trace ::= fun t => t ++ [RelayerExchange method target body headers a] |>, a).
Definition do_get (target : list ascii) : ServiceM HttpResult := do_request GET target [].
Definition do_post (target body : list ascii) : ServiceM HttpResult := do_request POST target body.

(** ** The chain's interface *)
Definition next_rpc_id : ServiceM Z := fun s => (s <| iv_rpc_id_ ::= Z.succ |>, iv_rpc_id_ s).
Definition rpc_text (method : string) (params : list ascii) (id : Z) : list ascii :=
  txt "{" ++ quoted (txt "jsonrpc") ++ txt ":" ++ quoted (txt "2.0") ++ txt "," ++ quoted (txt "method") ++ txt ":" ++
  quoted (txt method) ++ txt "," ++ quoted (txt "params") ++ txt ":[" ++ params ++ txt "]," ++ quoted (txt "id") ++ txt ":" ++
  int_to_chars id ++ txt "}".
Definition rpc_document (response : string) : Expected Json :=
  if negb (nonempty response) then Err ErrorCode.NETWORK_ERROR else
  match parse_json response with
  | None => Err ErrorCode.JSON_PARSE_ERROR
  | Some doc => if is_success (get_object (field "error" doc)) then Err ErrorCode.NETWORK_ERROR else Value doc
  end.
Definition rpc_result (response : string) : Expected string :=
  match rpc_document response with
  | Err e => Err e
  | Value doc => match get_string (field "result" doc) with inl r => Value r | inr _ => Err ErrorCode.JSON_MISSING_FIELD end
  end.
Definition expected_map {A B} (f : A -> B) (r : Expected A) : Expected B := match r with Value a => Value (f a) | Err e => Err e end.

Definition get_gas_price : ServiceM (Expected Z) :=
  id ← next_rpc_id; response ← do_rpc (snprintf 128 (rpc_text "eth_gasPrice" [] id));
  mret (expected_map parse_hex_uint64 (rpc_result response)).
Definition get_transaction_count (address : list ascii) : ServiceM (Expected Z) :=
  id ← next_rpc_id;
  response ← do_rpc (snprintf 256 (rpc_text "eth_getTransactionCount" (quoted address ++ txt "," ++ quoted (txt "pending")) id));
  mret (expected_map parse_hex_uint64 (rpc_result response)).
Definition send_raw_transaction (signed_tx : list Z) : ServiceM (Expected string) :=
  id ← next_rpc_id; response ← do_rpc (rpc_text "eth_sendRawTransaction" (quoted (hex0x signed_tx)) id);
  mret (rpc_result response).
Definition receipt_of (response : string) : Expected TransactionReceipt :=
  match rpc_document response with
  | Err e => Err e
  | Value doc =>
      match field "result" doc with
      | inl JNull => Err ErrorCode.JSON_MISSING_FIELD
      | r =>
          match get_object r with
          | inr _ => Err ErrorCode.JSON_PARSE_ERROR
          | inl fields =>
              let hex key := match get_string (field key (JObject fields)) with inl h => parse_hex_uint64 h | inr _ => 0 end in
              Value (mkTransactionReceipt (or_default ""%string (get_string (field "transactionHash" (JObject fields))))
                       (hex "status"%string) (hex "gasUsed"%string) (hex "blockNumber"%string))
          end
      end
  end.
Definition get_transaction_receipt (tx_hash : list ascii) : ServiceM (Expected TransactionReceipt) :=
  id ← next_rpc_id; response ← do_rpc (snprintf 256 (rpc_text "eth_getTransactionReceipt" (quoted tx_hash) id));
  mret (receipt_of response).

(** ** The relayer *)

(** A response with its document, or the error of a failed request. *)
Definition relayer_document (r : HttpResult) : Expected Json :=
  if negb (http_ok r) then Err ErrorCode.NETWORK_ERROR else
  match parse_json (hr_body r) with None => Err ErrorCode.JSON_PARSE_ERROR | Some doc => Value doc end.
Definition lower (l : list ascii) : list ascii := to_lower <$> l.

Definition relay_payload_of (doc : Json) : Expected RelayPayload :=
  let nonce := match get_string (field "nonce" doc) with
               | inl sv => match stoull sv with Some n => Value n | None => Err ErrorCode.JSON_PARSE_ERROR end
               | inr _ => match get_uint64 (field "nonce" doc) with inl n => Value n | inr _ => Err ErrorCode.JSON_MISSING_FIELD end
               end in
  match nonce with
  | Err e => Err e
  | Value n => match get_string (field "address" doc) with inl a => Value (mkRelayPayload n a) | inr _ => Err ErrorCode.JSON_MISSING_FIELD end
  end.
Definition get_relay_payload (eoa_address : list ascii) : ServiceM (Expected RelayPayload) :=
  result ← do_get (txt "/relay-payload?address=" ++ lower eoa_address ++ txt "&type=PROXY");
  mret (match relayer_document result with Err e => Err e | Value doc => relay_payload_of doc end).

(** The first of the keys that holds a text. *)
Fixpoint first_string (keys : list string) (doc : Json) : option string :=
  match keys with
  | [] => None
  | k :: keys => match get_string (field k doc) with inl s => Some s | inr _ => first_string keys doc end
  end.
Definition submit_result_of (doc : Json) : Expected RelayerSubmitResult :=
  let id := default ""%string (first_string ["transactionID"; "transactionId"; "id"]%string doc) in
  if negb (nonempty id) then Err ErrorCode.JSON_MISSING_FIELD
  else Value (mkRelayerSubmitResult id (or_default ""%string (get_string (field "transactionHash" doc)))
                (or_default ""%string (get_string (field "state" doc)))).
Definition relayer_submit (body : list ascii) : ServiceM (Expected RelayerSubmitResult) :=
  result ← do_post (txt "/submit") body;
  mret (match relayer_document result with Err e => Err e | Value doc => submit_result_of doc end).

Definition transaction_state_of (doc : Json) : Expected string :=
  let txn := match doc with JArray (t :: _) => Some t | JArray [] => None | _ => Some doc end in
  match txn with
  | None => Err ErrorCode.JSON_MISSING_FIELD
  | Some t => match first_string ["state"; "status"]%string t with Some st => Value st | None => Err ErrorCode.JSON_MISSING_FIELD end
  end.
Definition get_transaction_state (tx_id : string) : ServiceM (Expected string) :=
  result ← do_get (txt "/transaction?id=" ++ txt tx_id);
  mret (match relayer_document result with Err e => Err e | Value doc => transaction_state_of doc end).
Definition query_safe_address (eoa_address : list ascii) : ServiceM (Expected string) :=
  result ← do_get (txt "/deployed?address=" ++ lower eoa_address);
  mret (match relayer_document result with
        | Err e => Err e
        | Value doc => match first_string ["address"; "safe"]%string doc with Some a => Value a | None => Err ErrorCode.JSON_MISSING_FIELD end
        end).

(** ** Start-up *)

(** [pubkey] is the serialised public key (64 bytes), if it can be computed. *)
Definition derive_address (pubkey : list Z) : list Z := drop 12 (keccak256 pubkey).
Definition InventoryService_new (config : InventoryServiceConfig) (pubkey : option (list Z)) (inventory : option TokenInventory) :
    InventoryService :=
  let eoa := if sc_has_private_key config then derive_address <$> pubkey else None in
  let rpc := sc_use_direct_rpc config && sc_has_private_key config && nonempty (sc_polygon_rpc_url config) in
  let relayer := negb (sc_use_direct_rpc config) && sc_has_private_key config && nonempty (sc_builder_api_key config) in
  mkInventoryService config
    (match eoa with Some a => hex0x a | None => [] end) (default (replicate 20 0) eoa)
    (match eoa with Some a => derive_proxy_address a | None => [] end)
    (negb rpc && relayer) rpc false 1 inventory 0 [].

(** ** Submission *)

(** The address that text denotes; the array stays zero when it does not. *)
Definition address_of (s : list ascii) : list Z := default (replicate 20 0) (parse_eth_address s).
Definition build_proxy_submit_body (eoa_address proxy_address : list ascii) (proxy_data : list Z) (nonce : Z) (signature : list Z)
    (gas_limit : Z) (relay_address : list ascii) : list ascii :=
  txt "{" ++ str_member "type" (txt "PROXY") ++ str_member "from" (eip55_checksum (address_of eoa_address)) ++
  str_member "to" (eip55_checksum PROXY_FACTORY_ADDRESS) ++ str_member "proxyWallet" (eip55_checksum (address_of proxy_address)) ++
  str_member "data" (hex0x proxy_data) ++ str_member "nonce" (int_to_chars nonce) ++ str_member "signature" (hex0x signature) ++
  quoted (txt "signatureParams") ++ txt ":{" ++ str_member "gasPrice" (txt "0") ++ str_member "gasLimit" (int_to_chars gas_limit) ++
  str_member "relayerFee" (txt "0") ++ str_member "relayHub" (eip55_checksum RELAY_HUB_ADDRESS) ++
  quoted (txt "relay") ++ txt ":" ++ quoted relay_address ++ txt "}," ++ quoted (txt "metadata") ++ txt ":" ++ quoted [] ++ txt "}".

(** The wait between two polls reads the flag every 100 ms; [true] when it was set. *)
Fixpoint sleep_chunks (n : nat) : ServiceM bool :=
  match n with
  | O => mret false
  | S n => stop ← read_stop; if (stop : bool) then mret true else sleep_chunks n
  end.
Definition poll_sleep : ServiceM bool :=
  s ← get_service; sleep_chunks (Z.to_nat ((sc_relayer_poll_interval_ms (iv_config_ s) + 99) / 100)).
(** Up to [n] polls; the empty text when stopped or timed out. *)
Fixpoint poll_until (n : nat) (query : ServiceM (option string)) : ServiceM string :=
  match n with
  | O => mret ""%string
  | S n =>
      stop ← read_stop;
      if (stop : bool) then mret ""%string else
      r ← query;
      match r with
      | Some state => mret state
      | None => stopped ← poll_sleep; if (stopped : bool) then mret ""%string else poll_until n query
      end
  end.
Definition max_polls (s : InventoryService) : nat := Z.to_nat (sc_relayer_max_poll_attempts (iv_config_ s)).

Definition is_state (state expected : string) : bool := id_eqb state expected.
Definition is_terminal_state (state : string) : bool :=
  is_state state "STATE_CONFIRMED" || is_state state "STATE_FAILED" || is_state state "STATE_INVALID".
Definition query_state (tx_id : string) : ServiceM (option string) :=
  r ← get_transaction_state tx_id;
  mret (match r with Value st => if is_terminal_state st then Some st else None | Err _ => None end).
Definition query_receipt (tx_hash : list ascii) : ServiceM (option string) :=
  r ← get_transaction_receipt tx_hash;
  mret (match r with Value receipt => Some (if (tr_status receipt =? 1)%Z then "STATE_CONFIRMED" else "STATE_FAILED")%string | Err _ => None end).

Definition proxy_params (s : InventoryService) (proxy_data relay_bytes : list Z) (nonce : Z) : ProxyTxParams :=
  mkProxyTxParams (iv_eoa_bytes_ s) PROXY_FACTORY_ADDRESS proxy_data 0 0 PROXY_DEFAULT_GAS_LIMIT nonce RELAY_HUB_ADDRESS relay_bytes.
Definition submit_proxy_tx (target_contract inner_call : list Z) : ServiceM string :=
  s ← get_service;
  payload_result ← get_relay_payload (iv_eoa_address_ s);
  match payload_result with
  | Err _ => mret ""%string
  | Value payload =>
      let proxy_data := encode_proxy_call_data target_contract inner_call in
      match parse_eth_address (txt (rp_relay_address payload)) with
      | None => mret ""%string
      | Some relay_bytes =>
          let struct_hash := create_proxy_struct_hash (proxy_params s proxy_data relay_bytes (rp_nonce payload)) in
          match sign_hash (eth_sign_hash struct_hash) with
          | None => mret ""%string
          | Some signature =>
              submit_result ← relayer_submit (build_proxy_submit_body (iv_eoa_address_ s) (iv_proxy_address_ s) proxy_data
                                (rp_nonce payload) signature PROXY_DEFAULT_GAS_LIMIT (txt (rp_relay_address payload)));
              match submit_result with
              | Err _ => mret ""%string
              | Value sr =>
                  if is_state (rs_state sr) "STATE_FAILED" || is_state (rs_state sr) "STATE_INVALID" then mret (rs_state sr)
                  else poll_until (max_polls s) (query_state (rs_transaction_id sr))
              end
          end
      end
  end.

Definition tx_params (s : InventoryService) (proxy_data : list Z) (nonce gas_price : Z) : RawTxParams :=
  mkRawTxParams nonce gas_price (sc_gas_limit (iv_config_ s)) PROXY_FACTORY_ADDRESS 0 proxy_data 137.
Definition submit_direct_rpc_tx (target_contract inner_call : list Z) : ServiceM string :=
  s ← get_service;
  let proxy_data := encode_proxy_call_data target_contract inner_call in
  gas_result ← get_gas_price;
  match gas_result with
  | Err _ => mret ""%string
  | Value gas_price_wei =>
      if gas_price_wei / 1000000000 >? sc_max_gas_price_gwei (iv_config_ s) then mret ""%string else
      nonce_result ← get_transaction_count (iv_eoa_address_ s);
      match nonce_result with
      | Err _ => mret ""%string
      | Value nonce =>
          let signed_tx := build_signed_transaction (tx_params s proxy_data nonce gas_price_wei) in
          match signed_tx with
          | [] => mret ""%string
          | _ =>
              send_result ← send_raw_transaction signed_tx;
              match send_result with
              | Err _ => mret ""%string
              | Value _ => poll_until (max_polls s) (query_receipt (hex0x (compute_tx_hash signed_tx)))
              end
          end
      end
  end.

Definition submit_inventory_tx (target_contract inner_call : list Z) : ServiceM string :=
  s ← get_service;
  if iv_rpc_ready_ s then submit_direct_rpc_tx target_contract inner_call else submit_proxy_tx target_contract inner_call.

(** Once: a failed approval is not repeated either. *)
Definition ensure_usdc_approved : ServiceM unit := fun s =>
  if iv_usdc_approved_ s || sc_dry_run (iv_config_ s) then (s, tt) else
  let '(s, _) := submit_inventory_tx USDC_E_ADDRESS encode_usdc_approve_ctf s in
  (s <| iv_usdc_approved_ := true |>, tt).

(** ** Requests *)
Definition encode_call (req : InventoryOpRequest) (condition_bytes : list Z) : list Z :=
  let amount := wrap_u64 (ior_quantity req) in
  match ior_type req with
  | SPLIT => encode_split_position condition_bytes amount
  | MERGE => encode_merge_positions condition_bytes amount
  | REDEEM => encode_redeem_positions condition_bytes
  end.

(** The shared inventory after a confirmed operation.  A redeem credits the larger
    of the two positions. *)
Definition update_inventory (req : InventoryOpRequest) (i : TokenInventory) : TokenInventory :=
  let up := ior_token_id_up req in
  let down := ior_token_id_down req in
  let qty := ior_quantity req in
  let before_up := position_for i up in
  let before_down := position_for i down in
  match ior_type req with
  | SPLIT => adjust_usdc_balance (- qty) (adjust_position down qty (adjust_position up qty i))
  | MERGE => adjust_usdc_balance qty (adjust_position down (- qty) (adjust_position up (- qty) i))
  | REDEEM => set_position down 0 (set_position up 0 (adjust_usdc_balance (Z.max before_up before_down) i))
  end.

Definition handle_request (req : InventoryOpRequest) : ServiceM unit := fun s =>
  if negb (iv_relayer_ready_ s) && negb (iv_rpc_ready_ s) then (s, tt) else
  match hex_decode_to_bytes32 (txt (ior_condition_id req)) with
  | None => (s, tt)
  | Some condition_bytes =>
      let call := encode_call req condition_bytes in
      let '(s, confirmed) :=
        if sc_dry_run (iv_config_ s) then (s, true) else
        let s := match ior_type req with SPLIT => (ensure_usdc_approved s).1 | _ => s end in
        let '(s, final_state) := submit_inventory_tx CTF_CONTRACT_ADDRESS call s in
        (s, is_state final_state "STATE_CONFIRMED") in
      (if (confirmed : bool) then
         if nonempty (ior_token_id_up req) && nonempty (ior_token_id_down req)
         then s <| iv_inventory_ ::= fmap (update_inventory req) |> else s
       else s, tt)
  end.
End Service.

(** ** The thread *)
Inductive ServicePc := SvTop | SvDrain | SvStopped.
Section Worker.
Context `{CryptoLib} `{OpenSsl} `{JsonParser} {Q : Type -> Type} `{RingQueue Q}.

(** [wk_handled] are the requests taken so far. *)
Record Worker := mkWorker {
  wk_queue : SpscQueue Q InventoryOpRequest;
  wk_service : InventoryService;
  wk_handled : list InventoryOpRequest;
  wk_pc : ServicePc }.
Implicit Types (w : Worker).

(** The loop: the flag is read when the queue is empty. *)
Definition worker_step (net : Net) w : Worker :=
  match wk_pc w with
  | SvTop =>
      let '(s, stop) := read_stop net (wk_service w) in
      w <| wk_service := s |> <| wk_pc := if stop then SvStopped else SvDrain |>
  | SvDrain =>
      match front (wk_queue w) with
      | Some r =>
          w <| wk_queue ::= pop |> <| wk_service ::= fun s => (handle_request net r s).1 |> <| wk_handled ::= fun l => l ++ [r] |>
      | None => w <| wk_pc := SvTop |>
      end
  | SvStopped => w
  end.

(** The strategy thread's side: [InventoryQueueSink]. *)
Definition sink_try_request (r : InventoryOpRequest) w : Worker * bool :=
  let '(q, ok) := try_push r (wk_queue w) in (w <| wk_queue := q |>, ok).
End Worker.
Arguments Worker _ : clear implicits.

(** ** What a request sends *)
Section Requests.
Context `{CryptoLib} `{OpenSsl} `{JsonParser} (net : Net).
Implicit Types (s : InventoryService) (t : list Exchange) (P : Exchange -> Prop).

(** A service in the middle of a request: what does not change. *)
Record same s0 s : Prop := {
  sm_config : iv_config_ s = iv_config_ s0;
  sm_eoa_address : iv_eoa_address_ s = iv_eoa_address_ s0;
  sm_eoa_bytes : iv_eoa_bytes_ s = iv_eoa_bytes_ s0;
  sm_proxy_address : iv_proxy_address_ s = iv_proxy_address_ s0;
  sm_ready : iv_rpc_ready_ s = iv_rpc_ready_ s0;
  sm_inventory : iv_inventory_ s = iv_inventory_ s0 }.
#[local] Instance same_refl : Reflexive same. Proof. by split. Qed.

(** The exchanges of [m] satisfy [P], and with its result [R]. *)
Definition triple s0 P {A} (m : ServiceM A) (R : list Exchange -> A -> Prop) : Prop :=
  forall s, same s0 s -> exists t, same s0 (m s).1 /\ iv_trace (m s).1 = iv_trace s ++ t /\ Forall P t /\ R t (m s).2.

Lemma triple_ret s0 P {A} (a : A) (R : list Exchange -> A -> Prop) : R [] a -> triple s0 P (mret a) R.
Proof. intros HR s Hs. exists []. by rewrite app_nil_r. Qed.
Lemma triple_bind s0 P {A B} (m : ServiceM A) (k : A -> ServiceM B) R1 (R : list Exchange -> B -> Prop) :
  triple s0 P m R1 -> (forall t1 a, R1 t1 a -> triple s0 P (k a) (fun t2 b => R (t1 ++ t2) b)) -> triple s0 P (m ≫= k) R.
Proof.
  intros Hm Hk s Hs. destruct (Hm s Hs) as (t1 & Hs1 & Ht1 & HP1 & HR1). unfold mbind, ServiceM_bind.
  destruct (m s) as [s1 a]. cbn [fst snd] in *. destruct (Hk t1 a HR1 s1 Hs1) as (t2 & Hs2 & Ht2 & HP2 & HR2).
  exists (t1 ++ t2). rewrite Ht2, Ht1, app_assoc. split_and!; [done|done|by apply Forall_app|done].
Qed.
Lemma triple_weaken s0 P {A} (m : ServiceM A) (R R' : list Exchange -> A -> Prop) :
  triple s0 P m R -> (forall t a, R t a -> R' t a) -> triple s0 P m R'.
Proof. intros Hm HR s Hs. destruct (Hm s Hs) as (t & ? & ? & ? & ?). exists t. auto. Qed.

(** *** Single exchanges *)
Lemma triple_get s0 P : triple s0 P get_service (fun t s => t = [] /\ same s0 s).
Proof. intros s Hs. exists []. rewrite app_nil_r. by split_and!. Qed.
Lemma triple_stop s0 P : triple s0 P (read_stop net) (fun t _ => t = []).
Proof. intros s []. exists []. unfold read_stop. simpl. rewrite app_nil_r. by split_and!. Qed.
Lemma triple_id s0 P : triple s0 P next_rpc_id (fun t _ => t = []).
Proof. intros s []. exists []. unfold next_rpc_id. simpl. rewrite app_nil_r. by split_and!. Qed.
Lemma triple_rpc s0 P body : (forall a, P (RpcExchange body a)) ->
  triple s0 P (do_rpc net body) (fun t a => t = [RpcExchange body a]).
Proof. intros HP s []. eexists. unfold do_rpc. simpl. by split_and!; [split|reflexivity|repeat constructor|reflexivity]. Qed.
Lemma triple_request s0 P m target body : (forall h a, P (RelayerExchange m target body h a)) ->
  triple s0 P (do_request net m target body) (fun t a => exists h, t = [RelayerExchange m target body h a]).
Proof. intros HP s []. eexists. unfold do_request. simpl. by split_and!; [split|reflexivity|repeat constructor|eexists]. Qed.

(** Requests that only ask. *)
Definition asking (e : Exchange) : Prop :=
  match e with
  | RpcExchange body _ =>
      exists id, body = snprintf 128 (rpc_text "eth_gasPrice" [] id) \/
        (exists address, body = snprintf 256 (rpc_text "eth_getTransactionCount" (quoted address ++ txt "," ++ quoted (txt "pending")) id)) \/
        (exists tx_hash, body = snprintf 256 (rpc_text "eth_getTransactionReceipt" (quoted tx_hash) id))
  | RelayerExchange m _ _ _ _ => m = GET
  end.

Lemma asking_gas id a : asking (RpcExchange (snprintf 128 (rpc_text "eth_gasPrice" [] id)) a).
Proof. exists id. left. reflexivity. Qed.
Lemma asking_count id address a :
  asking (RpcExchange (snprintf 256 (rpc_text "eth_getTransactionCount" (quoted address ++ txt "," ++ quoted (txt "pending")) id)) a).
Proof. exists id. right. left. exists address. reflexivity. Qed.
Lemma asking_receipt id tx_hash a : asking (RpcExchange (snprintf 256 (rpc_text "eth_getTransactionReceipt" (quoted tx_hash) id)) a).
Proof. exists id. right. right. exists tx_hash. reflexivity. Qed.

Lemma hex_val_range c d : hex_val c = Some d -> 0 <= d < 16.
Proof. unfold hex_val. cbv zeta. generalize (char_code c). intros n Hv. repeat case_match; simplify_eq; bool_to_prop; lia. Qed.
Lemma parse_hex_uint64_range x : 0 <= parse_hex_uint64 x < 2 ^ 64.
Proof.
  assert (forall l v, 0 <= v < 2 ^ 64 -> 0 <= hex_uint64_loop l v < 2 ^ 64) as Hloop.
  { induction l as [|c l IH]; intros v Hv; [done|]. cbn [hex_uint64_loop]. apply IH.
    assert (0 <= default 0 (hex_val c) < 2 ^ 64) as Hd
      by (destruct (hex_val c) as [d|] eqn:Ed; [apply hex_val_range in Ed|]; cbn [from_option id]; lia).
    pose proof (Z.mod_pos_bound (Z.shiftl v 4) (2 ^ 64) ltac:(lia)) as Hm. unfold wrap_u64. set (a := Z.shiftl v 4 mod 2 ^ 64) in *.
    set (d := default 0 (hex_val c)) in *. clearbody a d. split; [apply Z.lor_nonneg; lia|].
    destruct (Z.eq_dec (Z.lor a d) 0) as [->|Hne]; [lia|]. assert (0 <= Z.lor a d) by (apply Z.lor_nonneg; lia).
    apply Z.log2_lt_pow2; [lia|]. rewrite Z.log2_lor by lia.
    assert (forall x, 0 <= x < 2 ^ 64 -> Z.log2 x < 64) as Hlog.
    { intros y Hy. destruct (Z.eq_dec y 0) as [->|]; [done|]. apply Z.log2_lt_pow2; lia. }
    apply Z.max_lub_lt; by apply Hlog. }
  unfold parse_hex_uint64. repeat case_match; apply Hloop; lia.
Qed.

Section Fixed.
Variables (s0 : InventoryService) (P : Exchange -> Prop).
Hypothesis Hask : forall e, asking e -> P e.

Lemma triple_gas : triple s0 P (get_gas_price net) (fun _ r => forall v, r = Value v -> 0 <= v < 2 ^ 64).
Proof.
  eapply triple_bind; [apply triple_id|]. intros t1 id _. eapply triple_bind; [apply triple_rpc; intros a; apply Hask, asking_gas|].
  intros t2 a _. apply triple_ret. intros v. destruct (rpc_result a); [|done]. intros [= <-]. apply parse_hex_uint64_range.
Qed.
Lemma triple_count address : triple s0 P (get_transaction_count net address) (fun _ r => forall v, r = Value v -> 0 <= v < 2 ^ 64).
Proof.
  eapply triple_bind; [apply triple_id|]. intros t1 id _. eapply triple_bind; [apply triple_rpc; intros a; apply Hask, asking_count|].
  intros t2 a _. apply triple_ret. intros v. destruct (rpc_result a); [|done]. intros [= <-]. apply parse_hex_uint64_range.
Qed.

(** The answer that confirms. *)
Definition confirming_receipt (tx_hash : list ascii) (e : Exchange) : Prop :=
  exists id a r, e = RpcExchange (snprintf 256 (rpc_text "eth_getTransactionReceipt" (quoted tx_hash) id)) a /\
    receipt_of a = Value r /\ tr_status r = 1.
Definition confirming_state (tx_id : string) (e : Exchange) : Prop :=
  exists h a doc, e = RelayerExchange GET (txt "/transaction?id=" ++ txt tx_id) [] h a /\
    relayer_document a = Value doc /\ transaction_state_of doc = Value "STATE_CONFIRMED"%string.
Definition ends_with (Q : Exchange -> Prop) t : Prop := exists t1 e, t = t1 ++ [e] /\ Q e.

Lemma triple_receipt tx_hash : triple s0 P (query_receipt net tx_hash)
  (fun t st => st = Some "STATE_CONFIRMED"%string -> ends_with (confirming_receipt tx_hash) t).
Proof.
  eapply (triple_bind _ _ _ _ (fun t r => exists id a, t = [RpcExchange (snprintf 256 (rpc_text "eth_getTransactionReceipt" (quoted tx_hash) id)) a] /\ r = receipt_of a)).
  - eapply triple_bind; [apply triple_id|]. intros t1 id ->. eapply triple_bind; [apply triple_rpc; intros a; apply Hask, asking_receipt|].
    intros t2 a ->. apply triple_ret. by exists id, a.
  - intros t1 r (id & a & -> & ->). apply triple_ret. intros Hst. exists [], (RpcExchange (snprintf 256 (rpc_text "eth_getTransactionReceipt" (quoted tx_hash) id)) a).
    split; [done|]. destruct (receipt_of a) as [r|] eqn:Er; [|done]. exists id, a, r. split; [done|]. split; [done|].
    destruct (Z.eqb_spec (tr_status r) 1); [done|]. discriminate Hst.
Qed.
Lemma triple_state tx_id : triple s0 P (query_state net tx_id)
  (fun t st => st = Some "STATE_CONFIRMED"%string -> ends_with (confirming_state tx_id) t).
Proof.
  eapply (triple_bind _ _ _ _ (fun t r => exists h a, t = [RelayerExchange GET (txt "/transaction?id=" ++ txt tx_id) [] h a] /\
    r = match relayer_document a with Err e => Err e | Value doc => transaction_state_of doc end)).
  - eapply triple_bind; [apply triple_request; intros h a; by apply Hask|]. intros t1 a [h ->]. apply triple_ret. by exists h, a.
  - intros t1 r (h & a & -> & ->). apply triple_ret. intros Hst.
    exists [], (RelayerExchange GET (txt "/transaction?id=" ++ txt tx_id) [] h a). split; [done|].
    destruct (relayer_document a) as [doc|] eqn:Ed; [|done]. exists h, a, doc. split; [done|]. split; [done|].
    destruct (transaction_state_of doc) as [st|]; [|done]. destruct (is_terminal_state st); [|done]. by injection Hst as ->.
Qed.

Lemma triple_sleep : triple s0 P (poll_sleep net) (fun t _ => t = []).
Proof.
  eapply triple_bind; [apply triple_get|]. intros t0 s [-> _]. generalize (Z.to_nat ((sc_relayer_poll_interval_ms (iv_config_ s) + 99) / 100)). intros n.
  induction n as [|n IH]; [by apply triple_ret|]. cbn [sleep_chunks]. eapply triple_bind; [apply triple_stop|].
  intros t1 stop ->. destruct stop; [by apply triple_ret|]. exact IH.
Qed.
Lemma triple_poll n (query : ServiceM (option string)) (R : Exchange -> Prop) :
  triple s0 P query (fun t st => st = Some "STATE_CONFIRMED"%string -> ends_with R t) ->
  triple s0 P (poll_until net n query) (fun t st => st = "STATE_CONFIRMED"%string -> ends_with R t).
Proof.
  intros Hq. induction n as [|n IH]; [by apply triple_ret|]. cbn [poll_until]. eapply triple_bind; [apply triple_stop|].
  intros t1 stop ->. destruct stop; [by apply triple_ret|]. eapply triple_bind; [exact Hq|]. intros t2 [st|] Ht2.
  - apply triple_ret. intros ->. rewrite app_nil_r. by apply Ht2.
  - eapply triple_bind; [apply triple_sleep|]. intros t3 stopped ->. destruct stopped; [by apply triple_ret|].
    eapply triple_weaken; [exact IH|]. intros t4 st Ht4 Hst. destruct (Ht4 Hst) as (t5 & e & -> & He).
    exists (t2 ++ t5), e. split; [by rewrite <- !app_assoc|done].
Qed.
End Fixed.

(** *** Submissions *)

(** The request that sends a transaction, and a transaction that has the proxy
    account call [target] with [inner]. *)
Definition sends_tx (tx : list Z) (e : Exchange) : Prop :=
  exists id a, e = RpcExchange (rpc_text "eth_sendRawTransaction" (quoted (hex0x tx)) id) a.
(** The signature of a transaction is one over the hash of bytes that denote the same
    transaction with the chain's number 137 in place of the signature (EIP-155). *)
Definition signed_for (ctx : ChainTx) : Prop :=
  exists preimage sig recid,
    read_tx preimage = Some (mkChainTx (ct_nonce ctx) (ct_gas_price ctx) (ct_gas_limit ctx) (ct_to ctx) (ct_value ctx)
                               (ct_data ctx) 137 0 0) /\
    ecdsa_sign_recoverable (keccak256 preimage) = Some (sig, recid) /\
    ct_r ctx = be_value (take 32 sig) /\ ct_s ctx = be_value (drop 32 sig) /\ ct_v ctx = 309 + wrap_u8 recid.
(** What the relayer checks the signature against: the message of the relay hub with
    the call, no fee and no gas price, under the prefix of signed messages. *)
Definition relay_statement (from data : list Z) (nonce : Z) (relay : list Z) : list Z :=
  let word v := replicate 24 0 ++ be_bytes 8 v in
  keccak256 (25 :: bytes_of "Ethereum Signed Message:" ++ [10] ++ bytes_of "32" ++
    keccak256 (bytes_of "rlx:" ++ from ++ PROXY_FACTORY_ADDRESS ++ data ++ word 0 ++ word 0 ++ word 500000 ++ word nonce ++
               RELAY_HUB_ADDRESS ++ relay)).
(** A text has a member with a quoted value. *)
Definition states (body : list ascii) (key : string) (value : list ascii) : Prop :=
  exists pre post, body = pre ++ quoted (txt key) ++ txt ":" ++ quoted value ++ post.
Definition direct_call s target inner (tx : list Z) : Prop :=
  exists ctx, read_tx tx = Some ctx /\ ct_to ctx = PROXY_FACTORY_ADDRESS /\ ct_value ctx = 0 /\
    ct_gas_price ctx / 1000000000 <= sc_max_gas_price_gwei (iv_config_ s) /\ ct_gas_limit ctx = sc_gas_limit (iv_config_ s) /\
    read_proxy_call (ct_data ctx) = Some (1, target, 0, inner) /\ signed_for ctx.
(** The signed request to the relayer for the same, with its answer. *)
Definition relayed_call s target inner (e : Exchange) (answer : HttpResult) : Prop :=
  exists data nonce relay relay_bytes sig recid h,
    let signature := sig ++ [wrap_u8 (27 + recid)] in
    let body := build_proxy_submit_body (iv_eoa_address_ s) (iv_proxy_address_ s) data nonce signature PROXY_DEFAULT_GAS_LIMIT relay in
    e = RelayerExchange POST (txt "/submit") body h answer /\
    states body "data" (txt "0x" ++ hex_encode data) /\ states body "nonce" (int_to_chars nonce) /\
    states body "signature" (txt "0x" ++ hex_encode signature) /\ states body "gasPrice" (txt "0") /\
    states body "gasLimit" (txt "500000") /\ states body "relay" relay /\
    parse_eth_address relay = Some relay_bytes /\
    ecdsa_sign_recoverable (relay_statement (iv_eoa_bytes_ s) data nonce relay_bytes) = Some (sig, recid) /\
    read_proxy_call data = Some (1, target, 0, inner).
Definition carries s target inner (e : Exchange) : Prop :=
  (exists tx, sends_tx tx e /\ direct_call s target inner tx) \/ (exists answer, relayed_call s target inner e answer).
(** The transaction of an exchange, and the confirmation of that transaction at the end. *)
Definition confirmed s target inner t : Prop :=
  exists t1 e t2, t = t1 ++ e :: t2 /\
    ((exists tx, sends_tx tx e /\ direct_call s target inner tx /\ ends_with (confirming_receipt (hex0x (compute_tx_hash tx))) t2) \/
     (exists answer doc sr, relayed_call s target inner e answer /\ relayer_document answer = Value doc /\
        submit_result_of doc = Value sr /\ ends_with (confirming_state (rs_transaction_id sr)) t2)).

Lemma confirmed_app s target inner t t' : confirmed s target inner t' -> confirmed s target inner (t ++ t').
Proof. intros (t1 & e & t2 & -> & Hc). exists (t ++ t1), e, t2. split; [by rewrite <- app_assoc|done]. Qed.

Lemma proxy_call_bytes target inner : length target = 20%nat -> Forall is_byte target -> Forall is_byte inner ->
  Forall is_byte (encode_proxy_call_data target inner) /\
  Z.of_nat (length (encode_proxy_call_data target inner)) <= Z.of_nat (length inner) + 292.
Proof.
  intros Hl Ht Hi. assert (forall v, Forall is_byte (write_uint256 v)) as Hu
    by (intros v; apply Forall_app; split; [by apply Forall_replicate|apply be_bytes_byte]).
  unfold encode_proxy_call_data. cbv zeta. split.
  - repeat (apply Forall_app; split; [first [apply Hu|apply Forall_take, keccak256_bytes|assumption|apply Forall_app; split; [by apply Forall_replicate|assumption]]|]).
    by apply Forall_replicate.
  - rewrite !length_app, !uint256_length, (address32_length _ Hl), length_selector, length_replicate.
    pose proof (Z.div_mod (Z.of_nat (length inner) + 31) 32 ltac:(lia)). pose proof (Z.mod_pos_bound (Z.of_nat (length inner) + 31) 32 ltac:(lia)). lia.
Qed.

Record service_wf s : Prop := {
  vw_eoa : length (iv_eoa_bytes_ s) = 20%nat;
  vw_gas_limit : 0 <= sc_gas_limit (iv_config_ s) < 2 ^ 64 }.

Section Submit.
Variables (s0 : InventoryService) (target inner : list Z).
Hypothesis (Hwf : service_wf s0) (Htarget : length target = 20%nat) (Htb : Forall is_byte target).
Hypothesis (Hib : Forall is_byte inner) (Hil : Z.of_nat (length inner) < 2 ^ 62).
Abbreviation allowed := (fun e => asking e \/ carries s0 target inner e).

Lemma direct_call_tx s nonce gas : same s0 s -> 0 <= nonce < 2 ^ 64 -> 0 <= gas < 2 ^ 64 ->
  gas / 1000000000 <= sc_max_gas_price_gwei (iv_config_ s0) ->
  let tx := build_signed_transaction (tx_params s (encode_proxy_call_data target inner) nonce gas) in
  tx <> [] -> direct_call s0 target inner tx.
Proof.
  intros Hs Hn Hg Hmax tx Htx. destruct (proxy_call_bytes target inner Htarget Htb Hib) as [Hb Hl].
  set (p := tx_params s (encode_proxy_call_data target inner) nonce gas) in *.
  assert (tx_wf p) as Hp.
  { destruct Hwf. split; cbn [p tx_params tp_nonce tp_gas_price tp_gas_limit tp_to tp_value tp_data tp_chain_id]; try assumption; try lia.
    - by rewrite (sm_config _ _ Hs).
    - split; [reflexivity|]. unfold PROXY_FACTORY_ADDRESS. repeat constructor; lia.
    - split; [done|lia]. }
  destruct (ecdsa_sign_recoverable (keccak256 (unsigned_tx p))) as [[sig recid]|] eqn:Esig.
  - destruct (signed_tx_roundtrip p sig recid Hp Esig) as [Hu Hr]. fold tx in Hr. eexists. split; [exact Hr|]. split_and!; try done.
    + simpl. by rewrite (sm_config _ _ Hs).
    + apply (read_proxy_encode target inner Htarget). lia.
    + exists (unsigned_tx p), sig, recid. split_and!; [exact Hu|exact Esig|done|done|].
      change (wrap_u64 (309 + wrap_u8 recid) = 309 + wrap_u8 recid).
      assert (0 <= wrap_u8 recid < 256) by (unfold wrap_u8; apply Z.mod_pos_bound; lia). unfold wrap_u64. rewrite Z.mod_small; lia.
  - exfalso. apply Htx. unfold tx, build_signed_transaction, sign_hash. by rewrite Esig.
Qed.

Lemma triple_direct : triple s0 allowed (submit_direct_rpc_tx net target inner) (fun t st => st = "STATE_CONFIRMED"%string -> confirmed s0 target inner t).
Proof.
  eapply triple_bind; [apply triple_get|]. intros t0 s [-> Hs]. cbv zeta.
  eapply triple_bind; [apply triple_gas; auto|]. intros t1 [gas|] Hgas; [|by apply triple_ret].
  specialize (Hgas gas eq_refl). destruct (Z.gtb_spec (gas / 1000000000) (sc_max_gas_price_gwei (iv_config_ s))) as [|Hmax]; [by apply triple_ret|].
  eapply triple_bind; [apply triple_count; auto|]. intros t2 [nonce|] Hnonce; [|by apply triple_ret]. specialize (Hnonce nonce eq_refl).
  rewrite (sm_config _ _ Hs) in Hmax. pose proof (direct_call_tx s nonce gas Hs Hnonce Hgas Hmax) as Hd. cbv zeta in Hd.
  set (tx := build_signed_transaction _) in *. clearbody tx. destruct tx as [|b tx]; [by apply triple_ret|]. specialize (Hd ltac:(done)).
  set (signed := b :: tx) in *. clearbody signed.
  eapply (triple_bind _ _ _ _ (fun t _ => exists e, t = [e] /\ sends_tx signed e)).
  - eapply triple_bind; [apply triple_id|]. intros t3 id ->. eapply triple_bind.
    + apply triple_rpc. intros a. right. left. exists signed. split; [by exists id, a|done].
    + intros t4 a ->. apply triple_ret. eexists. split; [reflexivity|]. by exists id, a.
  - intros t3 [r|] (x & -> & He); [|by apply triple_ret]. eapply triple_weaken; [apply triple_poll; apply triple_receipt; auto|].
    intros t4 st Ht4 Hst. rewrite app_nil_l, !app_assoc. exists (t1 ++ t2), x, t4. split; [by rewrite <- !app_assoc|].
    left. exists signed. auto.
Qed.

Lemma sign_hash_inv hash signature : sign_hash hash = Some signature ->
  exists sig recid, ecdsa_sign_recoverable hash = Some (sig, recid) /\ signature = sig ++ [wrap_u8 (27 + recid)].
Proof. unfold sign_hash. destruct (ecdsa_sign_recoverable hash) as [[sig recid]|]; [|done]. intros [= <-]. by exists sig, recid. Qed.
Lemma states_here pre key value post : states (pre ++ quoted (txt key) ++ txt ":" ++ quoted value ++ post) key value.
Proof. by exists pre, post. Qed.
Lemma states_later body key value l : states body key value -> states (l ++ body) key value.
Proof. intros (pre & post & ->). exists (l ++ pre), post. by rewrite <- app_assoc. Qed.
Lemma states_str_member key value post : states (str_member key value ++ post) key value.
Proof. unfold str_member. exists [], (txt "," ++ post). by rewrite <- !app_assoc. Qed.
Lemma submit_body_states eoa proxy data nonce signature relay :
  let body := build_proxy_submit_body eoa proxy data nonce signature PROXY_DEFAULT_GAS_LIMIT relay in
  states body "data" (txt "0x" ++ hex_encode data) /\ states body "nonce" (int_to_chars nonce) /\
  states body "signature" (txt "0x" ++ hex_encode signature) /\ states body "gasPrice" (txt "0") /\
  states body "gasLimit" (txt "500000") /\ states body "relay" relay.
Proof.
  unfold build_proxy_submit_body. cbv zeta. split_and!;
    repeat first [apply states_str_member | apply (states_here []) | apply states_later].
Qed.

Lemma triple_relayed : triple s0 allowed (submit_proxy_tx net target inner) (fun t st => st = "STATE_CONFIRMED"%string -> confirmed s0 target inner t).
Proof.
  eapply triple_bind; [apply triple_get|]. intros t0 s [-> Hs].
  eapply (triple_bind _ _ _ _ (fun _ _ => True)).
  { eapply triple_bind; [apply triple_request; intros h a; by left|]. intros t1 a _. by apply triple_ret. }
  intros t1 [payload|] _; [|by apply triple_ret]. cbv zeta. destruct (parse_eth_address (txt (rp_relay_address payload))) as [relay_bytes|] eqn:Er; [|by apply triple_ret].
  destruct (sign_hash _) as [signature|] eqn:Es; [|by apply triple_ret].
  apply sign_hash_inv in Es as (sig & recid & Es & ->). set (signature := sig ++ _) in *.
  set (data := encode_proxy_call_data target inner) in *.
  assert (read_proxy_call data = Some (1, target, 0, inner)) as Hr by (apply read_proxy_encode; [done|lia]).
  assert (forall h a, relayed_call s0 target inner
    (RelayerExchange POST (txt "/submit") (build_proxy_submit_body (iv_eoa_address_ s) (iv_proxy_address_ s) data (rp_nonce payload) signature
       PROXY_DEFAULT_GAS_LIMIT (txt (rp_relay_address payload))) h a) a) as Hcall.
  { intros h a. exists data, (rp_nonce payload), (txt (rp_relay_address payload)), relay_bytes, sig, recid, h. cbv zeta.
    rewrite (sm_eoa_address _ _ Hs), (sm_proxy_address _ _ Hs). rewrite <- (sm_eoa_bytes _ _ Hs).
    destruct (submit_body_states (iv_eoa_address_ s0) (iv_proxy_address_ s0) data (rp_nonce payload) signature
                (txt (rp_relay_address payload))) as (B1 & B2 & B3 & B4 & B5 & B6).
    split_and!; try done. }
  clearbody data. set (body := build_proxy_submit_body _ _ _ _ _ _ _) in *. clearbody body.
  eapply (triple_bind _ _ _ _ (fun t r => exists h a, t = [RelayerExchange POST (txt "/submit") body h a] /\
    r = match relayer_document a with Err e => Err e | Value doc => submit_result_of doc end)).
  - eapply triple_bind; [apply triple_request; intros h a; right; right; by exists a|]. intros t2 a [h ->]. apply triple_ret. by exists h, a.
  - intros t2 [sr|] (h & a & -> & Ea); [|by apply triple_ret]. destruct (_ || _) eqn:Ef.
    + apply triple_ret. intros E. rewrite E in Ef. discriminate Ef.
    + eapply triple_weaken; [apply triple_poll; apply triple_state; auto|]. intros t3 st Ht3 Hst.
      destruct (relayer_document a) as [doc|] eqn:Ed; [|done].
      exists t1, (RelayerExchange POST (txt "/submit") body h a), t3. split; [done|]. right. exists a, doc, sr. auto.
Qed.

Lemma triple_submit : triple s0 allowed (submit_inventory_tx net target inner) (fun t st => st = "STATE_CONFIRMED"%string -> confirmed s0 target inner t).
Proof.
  eapply triple_bind; [apply triple_get|]. intros t0 s [-> Hs]. destruct (iv_rpc_ready_ s); [apply triple_direct|apply triple_relayed].
Qed.
End Submit.

(** *** A request *)

(** The call of the token contract that a request asks for. *)
Definition requested (req : InventoryOpRequest) (condition : list Z) : CtfCall :=
  match ior_type req with
  | SPLIT => CtfSplit USDC_E_ADDRESS (replicate 32 0) condition [1; 2] (wrap_u64 (ior_quantity req))
  | MERGE => CtfMerge USDC_E_ADDRESS (replicate 32 0) condition [1; 2] (wrap_u64 (ior_quantity req))
  | REDEEM => CtfRedeem USDC_E_ADDRESS (replicate 32 0) condition [1; 2]
  end.
(** It, or for a split the approval of the collateral. *)
Definition authorised (req : InventoryOpRequest) (target inner : list Z) : Prop :=
  (target = CTF_CONTRACT_ADDRESS /\ exists condition, hex_decode_to_bytes32 (txt (ior_condition_id req)) = Some condition /\
     read_call inner = Some (requested req condition)) \/
  (ior_type req = SPLIT /\ target = USDC_E_ADDRESS /\ read_call inner = Some (Erc20Approve CTF_CONTRACT_ADDRESS (2 ^ 256 - 1))).

Lemma bytes32_ok hex c : hex_decode_to_bytes32 hex = Some c -> length c = 32%nat /\ Forall is_byte c.
Proof.
  unfold hex_decode_to_bytes32. intros Hc. apply bind_Some in Hc as (r & Hr & Hc). destruct (Nat.eqb_spec (length r) 32); [|done].
  injection Hc as <-. split; [done|]. unfold hex_decode in Hr. cbv zeta in Hr. case_match; [done|]. case_match; [done|]. by apply hex_pairs_are_bytes in Hr.
Qed.

Lemma word_bytes (v : Z) : Forall is_byte (write_uint256 v).
Proof. apply Forall_app. split; [by apply Forall_replicate|apply be_bytes_byte]. Qed.
Lemma encode_call_ok req c : selectors_differ -> length c = 32%nat -> Forall is_byte c ->
  read_call (encode_call req c) = Some (requested req c) /\ Forall is_byte (encode_call req c) /\
  (length (encode_call req c) <= 260)%nat.
Proof.
  intros Hd Hl Hb. pose proof (Z.mod_pos_bound (ior_quantity req) (2 ^ 64) ltac:(lia)) as Hw. change (_ mod 2 ^ 64) with (wrap_u64 (ior_quantity req)) in Hw.
  assert (Forall is_byte (write_address32 USDC_E_ADDRESS)) as Hu by (unfold write_address32, USDC_E_ADDRESS; repeat constructor; lia).
  unfold encode_call, requested. cbv zeta. set (a := wrap_u64 (ior_quantity req)) in *. clearbody a.
  destruct (ior_type req); (split; [first [by apply read_call_split|by apply read_call_merge|by apply read_call_redeem]|]); split.
  1, 3, 5: unfold encode_split_position, encode_merge_positions, encode_redeem_positions; rewrite !Forall_app; split_and!;
    first [assumption|match goal with |- Forall _ (write_uint256 ?v) => exact (word_bytes v) | |- Forall _ (selector _) => apply Forall_take, keccak256_bytes
      | |- Forall _ write_zero32 => by apply Forall_replicate end].
  - rewrite encode_split_words, length_app, length_selector, words_length by (by apply position_words_sized). simpl. lia.
  - rewrite encode_merge_words, length_app, length_selector, words_length by (by apply position_words_sized). simpl. lia.
  - rewrite encode_redeem_words, length_app, length_selector, words_length by (by apply redeem_words_sized). simpl. lia.
Qed.
Lemma approve_ok : Forall is_byte encode_usdc_approve_ctf /\ (length encode_usdc_approve_ctf <= 260)%nat.
Proof.
  unfold encode_usdc_approve_ctf. split.
  - apply Forall_app. split; [apply Forall_take, keccak256_bytes|]. unfold write_address32, CTF_CONTRACT_ADDRESS. repeat constructor; lia.
  - rewrite length_app, length_selector. simpl. lia.
Qed.

Lemma approve_allowed s0 : service_wf s0 -> triple s0 (fun e => asking e \/ carries s0 USDC_E_ADDRESS encode_usdc_approve_ctf e)
  (ensure_usdc_approved net) (fun _ _ => True).
Proof.
  intros Hwf s Hs. unfold ensure_usdc_approved. case_match; [exists []; by rewrite app_nil_r|].
  destruct approve_ok as [Hb Hl].
  destruct (triple_submit s0 USDC_E_ADDRESS encode_usdc_approve_ctf Hwf eq_refl ltac:(unfold USDC_E_ADDRESS; repeat constructor; lia) Hb ltac:(lia) s Hs)
    as (t & Hs' & Ht & HP & _).
  destruct (submit_inventory_tx net _ _ s) as [s' st]. cbn [fst snd] in *. exists t. split_and!; [|done|done|done].
  destruct Hs'. by split.
Qed.

(** Everything about one request. *)
Definition request_exchange (req : InventoryOpRequest) s (e : Exchange) : Prop :=
  asking e \/ exists target inner, authorised req target inner /\ carries s target inner e.
Definition booked (req : InventoryOpRequest) s s' t : Prop :=
  iv_inventory_ s' = update_inventory req <$> iv_inventory_ s /\
  (sc_dry_run (iv_config_ s) = true \/
   exists condition inner, hex_decode_to_bytes32 (txt (ior_condition_id req)) = Some condition /\
     read_call inner = Some (requested req condition) /\ confirmed s CTF_CONTRACT_ADDRESS inner t).

Lemma handle_request_spec req s : service_wf s -> selectors_differ ->
  let s' := (handle_request net req s).1 in
  exists t, iv_trace s' = iv_trace s ++ t /\ iv_config_ s' = iv_config_ s /\ Forall (request_exchange req s) t /\
    (sc_dry_run (iv_config_ s) = true -> t = []) /\ (iv_inventory_ s' = iv_inventory_ s \/ booked req s s' t).
Proof.
  intros Hwf Hsel. cbv zeta. unfold handle_request. case_match eqn:Er.
  { exists []. rewrite app_nil_r. split_and!; [done|done|done|done|by left]. }
  destruct (hex_decode_to_bytes32 _) as [c|] eqn:Ec; [|exists []; rewrite app_nil_r; split_and!; [done|done|done|done|by left]].
  destruct (bytes32_ok _ _ Ec) as [Hcl Hcb]. destruct (encode_call_ok req c Hsel Hcl Hcb) as (Hread & Hb & Hl). cbv zeta.
  destruct (sc_dry_run (iv_config_ s)) eqn:Edry.
  { exists []. rewrite app_nil_r. case_match; (split_and!; [done|done|done|done|]); [right; split; [done|by left]|by left]. }
  set (call := encode_call req c) in *. clearbody call.
  assert (authorised req CTF_CONTRACT_ADDRESS call) as Hauth by (left; split; [done|by exists c]).
  assert (exists t1, same s match ior_type req with SPLIT => (ensure_usdc_approved net s).1 | _ => s end /\
    iv_trace match ior_type req with SPLIT => (ensure_usdc_approved net s).1 | _ => s end = iv_trace s ++ t1 /\
    Forall (request_exchange req s) t1) as (t1 & Hs1 & Ht1 & HP1).
  { destruct (ior_type req) eqn:Et; [|exists []; by rewrite app_nil_r|exists []; by rewrite app_nil_r].
    destruct (approve_allowed s Hwf s (same_refl s)) as (t1 & Hs1 & Ht1 & HP1 & _). exists t1. split_and!; [done|done|].
    eapply Forall_impl; [exact HP1|]. intros e [?|Hc]; [by left|]. right. exists USDC_E_ADDRESS, encode_usdc_approve_ctf.
    split; [|done]. right. split_and!; [done|done|by apply read_call_approve]. }
  set (s1 := match ior_type req with SPLIT => _ | _ => _ end) in *. clearbody s1.
  destruct (triple_submit s CTF_CONTRACT_ADDRESS call Hwf eq_refl ltac:(unfold CTF_CONTRACT_ADDRESS; repeat constructor; lia) Hb ltac:(lia) s1 Hs1)
    as (t2 & Hs2 & Ht2 & HP2 & HR2).
  destruct (submit_inventory_tx net _ _ s1) as [s2 st]. cbn [fst snd] in *. destruct Hs2 as [Hcfg _ _ _ _ Hinv].
  exists (t1 ++ t2). rewrite app_assoc, <- Ht1.
  assert (Forall (request_exchange req s) (t1 ++ t2)) as HP.
  { apply Forall_app. split; [done|]. eapply Forall_impl; [exact HP2|]. intros e [?|Hc]; [by left|]. right. by exists CTF_CONTRACT_ADDRESS, call. }
  destruct (is_state st "STATE_CONFIRMED") eqn:Est.
  - apply bool_decide_eq_true_1 in Est. case_match; (split_and!; [exact Ht2|exact Hcfg|done|done|]).
    + right. split; [simpl; by rewrite Hinv|]. right. exists c, call. split_and!; [done|done|]. by apply confirmed_app, HR2.
    + left. exact Hinv.
  - split_and!; [exact Ht2|exact Hcfg|done|done|by left].
Qed.

(** C31: every transaction the service sends is one that was asked for.  Whatever the
    network answers, each exchange of a request either only asks, or carries - read by
    the definitions of the transaction, of the proxy account's call and of the
    contracts' calls - exactly the requested operation on the requested condition with
    the requested amount, or for a split the approval of the collateral.  A directly
    sent transaction goes to the proxy factory, pays no value, stays within the
    configured gas price, has the configured gas limit, and its signature is one over
    the hash of bytes that denote the same transaction on chain 137.  A request to the
    relayer states the call, the nonce, a gas price of 0 and a gas limit of 500000, and
    a signature over the relay hub's message for the same.  In dry-run mode nothing is
    sent.  Conditions: the configured gas limit is a 64-bit number and the account's
    address has 20 bytes ([service_wf]), and the four function selectors are distinct. *)
Theorem inventory_calls_authorised req s (Hwf : service_wf s) (Hselectors : selectors_differ) :
  exists t, iv_trace (handle_request net req s).1 = iv_trace s ++ t /\
    Forall (fun e => asking e \/ exists target inner, authorised req target inner /\ carries s target inner e) t /\
    (sc_dry_run (iv_config_ s) = true -> t = []).
Proof. destruct (handle_request_spec req s Hwf Hselectors) as (t & Ht & _ & HP & Hd & _). by exists t. Qed.

(** C32: the shared inventory follows the chain.  A request leaves the inventory as it
    is or applies its operation to it once, and applies it only in dry-run mode or
    after the confirmation of a transaction that carries the requested call: the
    receipt of the hash of the transaction sent with status 1, or the relayer's state
    CONFIRMED for the identifier it gave to the submitted call. *)
Theorem inventory_follows_confirmation req s (Hwf : service_wf s) (Hselectors : selectors_differ) :
  let s' := (handle_request net req s).1 in
  iv_inventory_ s' = iv_inventory_ s \/
  (iv_inventory_ s' = update_inventory req <$> iv_inventory_ s /\
   (sc_dry_run (iv_config_ s) = true \/
    exists t condition inner, iv_trace s' = iv_trace s ++ t /\
      hex_decode_to_bytes32 (txt (ior_condition_id req)) = Some condition /\
      read_call inner = Some (requested req condition) /\ confirmed s CTF_CONTRACT_ADDRESS inner t)).
Proof.
  destruct (handle_request_spec req s Hwf Hselectors) as (t & Ht & _ & _ & _ & [Hi|(Hi & Hc)]); [by left|right].
  split; [done|]. destruct Hc as [Hd|(c & inner & Hc1 & Hc2 & Hc3)]; [by left|right]. by exists t, c, inner.
Qed.
End Requests.

(** ** Amounts *)
Section Amounts.
Implicit Types (i : TokenInventory) (req : InventoryOpRequest).

(** What the account is worth when the UP or when the DOWN token wins. *)
Definition value_if (token : AssetId) i : Z := usdc_balance_ i + position_for i token.

(** Nothing overflows. *)
Definition fits (z : Z) : Prop := INT64_MIN <= z <= INT64_MAX.
Record amounts_fit req i (up down : Z) : Prop := {
  af_up : positions_ i !! ior_token_id_up req = Some up;
  af_down : positions_ i !! ior_token_id_down req = Some down;
  af_distinct : ior_token_id_up req <> ior_token_id_down req;
  af_ups : fits (up + ior_quantity req) /\ fits (up - ior_quantity req);
  af_downs : fits (down + ior_quantity req) /\ fits (down - ior_quantity req);
  af_cash : fits (usdc_balance_ i + ior_quantity req) /\ fits (usdc_balance_ i - ior_quantity req) /\
            fits (usdc_balance_ i + Z.max up down) }.

Lemma position_adjust t d i t' p : positions_ i !! t' = Some p ->
  position_for (adjust_position t d i) t' = if decide (t = t') then wrap_i64 (p + d) else p.
Proof. intros Hp. unfold position_for. simpl. rewrite adjust_position_lookup, Hp. by case_decide. Qed.
Lemma cash_leaves_position d i t : position_for (adjust_usdc_balance d i) t = position_for i t.
Proof. done. Qed.
Lemma adjust_position_usdc t d i : usdc_balance_ (adjust_position t d i) = usdc_balance_ i.
Proof. unfold adjust_position. by case_match. Qed.
Lemma set_position_usdc t p i : usdc_balance_ (set_position t p i) = usdc_balance_ i.
Proof. unfold set_position, set_position_fast, set_position_slow. by repeat (case_match; simplify_eq/=). Qed.
Lemma set_position_known t p i t' q : positions_ i !! t = Some q ->
  positions_ (set_position t p i) !! t' = if decide (t = t') then Some p else positions_ i !! t'.
Proof.
  intros Hq. unfold set_position, set_position_fast. rewrite Hq. simpl. case_decide as E; [rewrite E; apply lookup_insert_eq|by apply lookup_insert_ne].
Qed.

Lemma adjust_both up down d i u v : positions_ i !! up = Some u -> positions_ i !! down = Some v -> up <> down ->
  let j := adjust_position down d (adjust_position up d i) in
  position_for j up = wrap_i64 (u + d) /\ position_for j down = wrap_i64 (v + d) /\ usdc_balance_ j = usdc_balance_ i.
Proof.
  intros Hu Hv Hne. cbv zeta. assert (positions_ (adjust_position up d i) !! up = Some (wrap_i64 (u + d))) as Hu'
    by (rewrite adjust_position_lookup, decide_True, Hu by done; done).
  assert (positions_ (adjust_position up d i) !! down = Some v) as Hv' by (by rewrite adjust_position_lookup, decide_False by done).
  rewrite (position_adjust _ _ _ _ _ Hu'), (position_adjust _ _ _ _ _ Hv'), !adjust_position_usdc.
  rewrite decide_False, decide_True by done. done.
Qed.

(** Splitting and merging change what the account holds, not what it is worth.
    For registered tokens and without overflow a split or merge of a quantity moves
    both positions and the cash by it, so that the worth of the account is unchanged
    whichever token wins; a redeem clears both positions and credits the larger one,
    so that the worth is unchanged if the larger side won and overstated by the
    difference of the positions if the smaller one did. *)
Theorem inventory_value_conserved req i (up down : Z) (Hfit : amounts_fit req i up down) :
  let j := update_inventory req i in
  let q := match ior_type req with SPLIT => ior_quantity req | MERGE => - ior_quantity req | REDEEM => 0 end in
  (ior_type req <> REDEEM -> position_for j (ior_token_id_up req) = up + q /\ position_for j (ior_token_id_down req) = down + q /\
     value_if (ior_token_id_up req) j = value_if (ior_token_id_up req) i /\
     value_if (ior_token_id_down req) j = value_if (ior_token_id_down req) i) /\
  (ior_type req = REDEEM -> position_for j (ior_token_id_up req) = 0 /\ position_for j (ior_token_id_down req) = 0 /\
     value_if (ior_token_id_up req) j = value_if (ior_token_id_up req) i + Z.max 0 (down - up) /\
     value_if (ior_token_id_down req) j = value_if (ior_token_id_down req) i + Z.max 0 (up - down)).
Proof.
  destruct Hfit as [Hu Hd Hne [Hu1 Hu2] [Hd1 Hd2] (Hc1 & Hc2 & Hc3)]. cbv zeta. unfold update_inventory, value_if. cbv zeta.
  assert (position_for i (ior_token_id_up req) = up) as Hpu by (unfold position_for; simpl; by rewrite Hu).
  assert (position_for i (ior_token_id_down req) = down) as Hpd by (unfold position_for; simpl; by rewrite Hd).
  rewrite Hpu, Hpd. destruct (ior_type req); (split; [intros Ht|intros Ht]); try discriminate Ht; try (by destruct Ht).
  - destruct (adjust_both _ _ (ior_quantity req) i up down Hu Hd Hne) as (E1 & E2 & E3). rewrite !cash_leaves_position, E1, E2.
    unfold adjust_usdc_balance. simpl. rewrite E3, !wrap_i64_small by (done || (rewrite Z.add_opp_r; done)). lia.
  - destruct (adjust_both _ _ (- ior_quantity req) i up down Hu Hd Hne) as (E1 & E2 & E3). rewrite !cash_leaves_position, E1, E2.
    unfold adjust_usdc_balance. simpl. rewrite E3, !wrap_i64_small by (done || (rewrite Z.add_opp_r; done)). lia.
  - set (k := adjust_usdc_balance _ i). assert (positions_ k !! ior_token_id_up req = Some up) as Hk by done.
    rewrite !set_position_usdc. unfold position_for. simpl.
    assert (positions_ (set_position (ior_token_id_up req) 0 k) !! ior_token_id_down req = Some down) as Hk2
      by (rewrite (set_position_known _ _ _ _ _ Hk), decide_False by done; done).
    rewrite !(set_position_known _ _ _ _ _ Hk2), decide_False, decide_True, (set_position_known _ _ _ _ _ Hk), decide_True by done. simpl.
    rewrite wrap_i64_small by done. lia.
Qed.
End Amounts.

(** ** Stopping *)
Section Stopping.
Context `{CryptoLib} `{OpenSsl} `{JsonParser} {Q : Type -> Type} `{RingQueue Q}.
Implicit Types (w : Worker Q) (net : Net).

Fixpoint worker_steps (n : nat) net w : Worker Q := match n with O => w | S n => worker_steps n net (worker_step net w) end.

Abbreviation unconfirmed := (fun (_ : list Exchange) (st : string) => st <> "STATE_CONFIRMED"%string).
Abbreviation any := (fun _ : Exchange => True).

Lemma stopped_polls net s0 n (query : ServiceM (option string)) : (forall i, net_stop net i = true) ->
  triple s0 any (poll_until net n query) unconfirmed.
Proof.
  intros Hstop. destruct n as [|n]; [by apply triple_ret|]. cbn [poll_until].
  eapply (triple_bind _ _ _ _ (fun _ stop => stop = true)); [|intros t1 stop ->; by apply triple_ret].
  intros s Hs. destruct (triple_stop net s0 any s Hs) as (t & H1' & H2' & H3' & _). exists t. split_and!; [done|done|done|apply Hstop].
Qed.

Lemma stopped_submit net s0 target inner : (forall i, net_stop net i = true) ->
  triple s0 any (submit_inventory_tx net target inner) unconfirmed.
Proof.
  intros Hstop. eapply triple_bind; [apply triple_get|]. intros t0 s _. destruct (iv_rpc_ready_ s).
  - eapply triple_bind; [apply triple_get|]. intros t1 s1 _. cbv zeta.
    eapply triple_bind; [by apply triple_gas|]. intros t2 [gas|] _; [|by apply triple_ret]. case_match; [by apply triple_ret|].
    eapply triple_bind; [by apply triple_count|]. intros t3 [nonce|] _; [|by apply triple_ret]. case_match; [by apply triple_ret|].
    eapply (triple_bind _ _ _ _ (fun _ _ => True)).
    + eapply triple_bind; [apply triple_id|]. intros t4 id _. eapply triple_bind; [by apply triple_rpc|]. intros t5 a _. by apply triple_ret.
    + intros t4 [r|] _; [by apply stopped_polls|by apply triple_ret].
  - eapply triple_bind; [apply triple_get|]. intros t1 s1 _. eapply (triple_bind _ _ _ _ (fun _ _ => True)).
    { eapply triple_bind; [by apply triple_request|]. intros t2 a _. by apply triple_ret. }
    intros t2 [payload|] _; [|by apply triple_ret]. cbv zeta. case_match; [|by apply triple_ret]. case_match; [|by apply triple_ret].
    eapply (triple_bind _ _ _ _ (fun _ _ => True)).
    { eapply triple_bind; [by apply triple_request|]. intros t3 a _. by apply triple_ret. }
    intros t3 [sr|] _; [|by apply triple_ret]. destruct (_ || _) eqn:Ef; [|by apply stopped_polls].
    apply triple_ret. intros E. rewrite E in Ef. discriminate Ef.
Qed.

Lemma stopped_request net req s : (forall i, net_stop net i = true) -> sc_dry_run (iv_config_ s) = false ->
  iv_inventory_ (handle_request net req s).1 = iv_inventory_ s /\ iv_config_ (handle_request net req s).1 = iv_config_ s.
Proof.
  intros Hstop Hdry. unfold handle_request. case_match; [done|]. case_match; [|done]. cbv zeta. rewrite Hdry.
  assert (same s match ior_type req with SPLIT => (ensure_usdc_approved net s).1 | _ => s end) as Hs1.
  { destruct (ior_type req); try apply same_refl. unfold ensure_usdc_approved. case_match; [apply same_refl|].
    destruct (stopped_submit net s USDC_E_ADDRESS encode_usdc_approve_ctf Hstop s (same_refl s)) as (t & Hs & _).
    destruct (submit_inventory_tx net _ _ s) as [s' st]. destruct Hs. by split. }
  destruct (stopped_submit net s CTF_CONTRACT_ADDRESS (encode_call req l) Hstop _ Hs1) as (t & Hs & _ & _ & Hst).
  destruct (submit_inventory_tx net _ _ _) as [s' st]. cbn [fst snd] in *.
  assert (is_state st "STATE_CONFIRMED" = false) as -> by (unfold is_state, id_eqb; by apply bool_decide_eq_false_2). destruct Hs. done.
Qed.

(** Stopping does not stop what is queued.  When the stop flag is set while the
    thread drains its queue, it still handles every queued request - whose
    transactions are sent - and books none of them, whatever the network answers: the
    flag is only looked at between drains and between polls, after the sending. *)
Theorem stop_sends_without_booking net w (l : list InventoryOpRequest)
    (Hstop : forall i, net_stop net i = true) (Hpc : wk_pc w = SvDrain) (Hqueue : contents (wk_queue w) = l)
    (Hlive : sc_dry_run (iv_config_ (wk_service w)) = false) :
  let w' := worker_steps (length l) net w in
  contents (wk_queue w') = [] /\ wk_handled w' = wk_handled w ++ l /\
  wk_service w' = foldl (fun s r => (handle_request net r s).1) (wk_service w) l /\
  iv_inventory_ (wk_service w') = iv_inventory_ (wk_service w).
Proof.
  cbv zeta. revert w Hpc Hqueue Hlive. induction l as [|r l IH]; intros w Hpc Hqueue Hlive; [by rewrite app_nil_r|].
  cbn [length worker_steps foldl]. unfold worker_step at 1 2 3 4. rewrite Hpc.
  destruct (front (wk_queue w)) as [r'|] eqn:Ef.
  - pose proof (front_contents _ _ Ef) as Hc. rewrite Hqueue in Hc. injection Hc as <- Hl.
    destruct (stopped_request net r (wk_service w) Hstop Hlive) as [Hi Hcfg].
    edestruct (IH (w <| wk_queue ::= pop |> <| wk_service ::= fun s => (handle_request net r s).1 |> <| wk_handled ::= fun l => l ++ [r] |>))
      as (A1 & A2 & A3 & A4); [done|done|simpl; by rewrite Hcfg|].
    split_and!; [exact A1|rewrite A2; simpl; by rewrite <- app_assoc|exact A3|rewrite A4; exact Hi].
  - exfalso. unfold front in Ef. rewrite rq_front_spec in Ef. unfold contents in Hqueue. by rewrite Hqueue in Ef.
Qed.
End Stopping.

(** ** Witnesses *)
Section ServiceExample.
(** Four answers of a node: a gas price of 5 gwei, the nonce 7, an accepted
    transaction and its receipt. *)
#[local] Instance node_parser : JsonParser := {| parse_json s :=
  let result j := Some (JObject [("result"%string, j)]) in
  if id_eqb s "gas" then result (JString "0x12a05f200") else if id_eqb s "nonce" then result (JString "0x7")
  else if id_eqb s "sent" then result (JString "0x01") else result (JObject [("status"%string, JString "0x1")]) |}.
#[local] Instance example_crypto : CryptoLib := toy_crypto.
#[local] Instance example_ssl : OpenSsl := toy_ssl.
Definition node_net (stopping : bool) : Net :=
  mkNet (fun i _ => match i with 0%nat => "gas" | 1%nat => "nonce" | 2%nat => "sent" | _ => "receipt" end%string)
    (fun _ _ _ _ => mkHttpResult "" 0 "") (fun _ => stopping) (fun _ => 0).
Definition example_config (dry_run : bool) : InventoryServiceConfig :=
  mkInventoryServiceConfig true dry_run 10 "" "" 5000 60 10000 "" "" "" true true "https://rpc/" 100 500000 10000.
Definition example_inventory : TokenInventory :=
  set_usdc_balance 50 (set_position "d" 20 (set_position "u" 30 TokenInventory_new)).
Definition example_service : InventoryService :=
  InventoryService_new (example_config false) (Some (replicate 64 1)) (Some example_inventory).
Definition example_merge : InventoryOpRequest :=
  mkInventoryOpRequest MERGE (String.string_of_list_ascii (replicate 64 "1"%char)) "" "u" "d" 5 1 0.

Lemma example_service_wf : service_wf example_service.
Proof. split; vm_compute; [reflexivity|split; congruence]. Qed.

Lemma inventory_calls_authorised_witness :
  exists t, iv_trace (handle_request (node_net false) example_merge example_service).1 = t /\ length t = 4%nat /\
    Forall (fun e => asking e \/ exists target inner, authorised example_merge target inner /\ carries example_service target inner e) t.
Proof.
  destruct (inventory_calls_authorised (node_net false) example_merge example_service example_service_wf toy_selectors_differ) as (t & Ht & HP & _).
  exists t. split; [exact Ht|]. split; [|exact HP]. change (iv_trace example_service) with (@nil Exchange) in Ht. rewrite app_nil_l in Ht.
  rewrite <- Ht. vm_compute. reflexivity.
Defined.

Lemma inventory_follows_confirmation_witness :
  exists t condition inner, iv_trace (handle_request (node_net false) example_merge example_service).1 = t /\
    read_call inner = Some (requested example_merge condition) /\ confirmed example_service CTF_CONTRACT_ADDRESS inner t.
Proof.
  destruct (inventory_follows_confirmation (node_net false) example_merge example_service example_service_wf toy_selectors_differ)
    as [E|(_ & [D|(t & c & inner & Ht & _ & Hr & Hc)])].
  - exfalso. apply (f_equal (option_map usdc_balance_)) in E. vm_compute in E. discriminate E.
  - discriminate D.
  - exists t, c, inner. split; [exact Ht|]. split; [exact Hr|exact Hc].
Defined.

Lemma inventory_value_conserved_witness :
  value_if "u" (update_inventory example_merge example_inventory) = 80 /\ position_for (update_inventory example_merge example_inventory) "u" = 25.
Proof.
  assert (amounts_fit example_merge example_inventory 30 20) as Hfit.
  { split; [reflexivity|reflexivity|discriminate| | |]; change (ior_quantity example_merge) with 5;
      try change (usdc_balance_ example_inventory) with 50; unfold fits, INT64_MIN, INT64_MAX; lia. }
  destruct (proj1 (inventory_value_conserved example_merge example_inventory 30 20 Hfit) ltac:(discriminate)) as (Hp & _ & Hv & _).
  split; [exact Hv|exact Hp].
Defined.

Definition example_worker : Worker BoundedList :=
  mkWorker (mkSpscQueue (mkBoundedList [example_merge; example_merge] 8) 2 0 0) example_service [] SvDrain.
Lemma stop_sends_without_booking_witness :
  let w := worker_steps 2 (node_net true) example_worker in
  iv_inventory_ (wk_service w) = Some example_inventory /\ (3 <= length (iv_trace (wk_service w)))%nat.
Proof.
  destruct (stop_sends_without_booking (node_net true) example_worker [example_merge; example_merge] ltac:(done) eq_refl eq_refl eq_refl)
    as (_ & _ & _ & Hi). split; [exact Hi|]. vm_compute. repeat constructor.
Defined.
End ServiceExample.
