(* ===== verification/WatcherService.v ===== *)
(** The watcher's background thread: [src/ui_bridge/watcher_service.cpp].

    The thread owns a client of the market stream (WsClients) that it creates, changes
    or shuts down as the bridge asks for other tokens, hands the parsed messages of that
    client to the bridge, and polls for the current market of every series.  The bridge
    writes the wanted tokens under a lock; taking them is one step of the thread.  The
    commands given to the client are the trace [commands]; what a poll finds depends on
    the network, an input.  The counters that only appear in log messages are left out.

    Shown: no change of the wanted tokens is lost, and the client's subscriptions as
    commanded are always the tokens that were taken last; the sequence numbers of what
    a client delivers increase, and everything delivered fits its structures; the reader
    of the first message agrees with the market parser; a poll reports an open market
    whenever a candidate window has one.  And what goes wrong: together with the client
    (WsClients), tokens that were dropped return when the stream reconnects. *)
From Stdlib Require Import Ascii Sorted.
From stdpp Require Import sorting.
From S2P Require Import Prelude Types Price OrderBook Events Json MarketParser MessageRoundtrip Slots Discovery Watcher FeedClients WsClients.

(** ** The first message *)
(** One of the loops over [bids] and [asks]: levels that cannot be read are skipped. *)
Fixpoint initial_levels (count : nat) (l : list Json) : option (list PriceLevel) :=
  match l with
  | [] => Some []
  | elem :: l =>
      if (kMaxBookLevels <=? count)%nat then Some [] else
      match get_object (inl elem), get_string (field "price" elem), get_string (field "size" elem) with
      | inl _, inl ps, inl ss =>
          price ← parse_price_text ps;
          size ← parse_qty_text ss;
          match price, size with
          | Value p, Value q => (cons (mkPriceLevel p q)) <$> initial_levels (S count) l
          | _, _ => initial_levels count l
          end
      | _, _, _ => initial_levels count l
      end
  end.
Definition initial_side (key : string) (obj : Json) : option (list PriceLevel) :=
  match get_array (field key obj) with inl l => initial_levels 0 l | inr _ => Some [] end.
(** An element of the array; [None] inside where it has no asset. *)
Definition initial_snapshot (elem : Json) : option (option BookSnapshot) :=
  match get_string (field "asset_id" elem) with
  | inr _ => Some None
  | inl aid =>
      bids ← initial_side "bids" elem;
      asks ← initial_side "asks" elem;
      Some (Some (mkBookSnapshot (mk_AssetId aid) "" bids asks (parse_optional_timestamp elem) ""))
  end.
Fixpoint initial_events (recv_ts seq : Z) (l : list Json) : option (list MarketEvent * Z) :=
  match l with
  | [] => Some ([], seq)
  | elem :: l =>
      match get_object (inl elem) with
      | inr _ => initial_events recv_ts seq l
      | inl _ =>
          snap ← initial_snapshot elem;
          '(events, seq') ← initial_events recv_ts (seq + 1) l;
          Some (match snap with Some s => mkMarketEvent (EvBookSnapshot s) recv_ts (seq + 1) :: events | None => events end, seq')
      end
  end.
Definition parse_initial_book_array `{JsonParser} (payload : string) (recv_ts seq : Z) : option (list MarketEvent * Z) :=
  match parse_json payload with
  | None => Some ([], seq)
  | Some doc => match get_array (inl doc) with inl l => initial_events recv_ts seq l | inr _ => Some ([], seq) end
  end.

(** ** Discovery *)
Section Poll.
Context `{JsonParser} (https_get : string -> string -> string).
Abbreviation lookup_window := (discover_btc_market_for_window https_get).
(** The loop over the candidate windows, with the first closed market seen. *)
Fixpoint search_windows (host : string) (tf : BtcTimeframe) (l : list Z) (closed : option (DiscoveredMarket * Z)) : option (DiscoveredMarket * Z) :=
  match l with
  | [] => closed
  | ts :: l =>
      match lookup_window host tf ts with
      | None => search_windows host tf l closed
      | Some m =>
          if dm_is_closed m then search_windows host tf l (match closed with Some _ => closed | None => Some (m, ts) end)
          else Some (m, ts)
      end
  end.
Definition info_of (m : DiscoveredMarket) (closed : bool) : SeriesMarketInfo :=
  series_market_info (dm_condition_id m) (dm_token_id_up m) (dm_token_id_down m) closed.
Definition window_candidates (tf : BtcTimeframe) (unix_ts : Z) : list Z :=
  match discovery_window_candidates tf unix_ts with
  | [] => [(unix_ts ÷ timeframe_period_seconds tf) * timeframe_period_seconds tf]
  | l => l
  end.
Definition open_at (host : string) (tf : BtcTimeframe) (ts : Z) : option DiscoveredMarket :=
  m ← lookup_window host tf ts; if dm_is_closed m then None else Some m.
(** The body of the loop over the series: what is reported, if anything. *)
Definition poll_series (host : string) (unix_ts : Z) (tf : BtcTimeframe) : option (SeriesMarketInfo * option SeriesMarketInfo) :=
  let period := timeframe_period_seconds tf in
  let candidates := window_candidates tf unix_ts in
  match search_windows host tf candidates None with
  | Some (market, matched_ts) =>
      if dm_is_closed market then Some (info_of market true, (fun m => info_of m false) <$> open_at host tf (matched_ts + period))
      else Some (info_of market false, (fun m => info_of m (dm_is_closed m)) <$> lookup_window host tf (matched_ts + period))
  | None => (fun m => (info_of m false, None)) <$> first_some (fun base_ts => open_at host tf (base_ts + period)) candidates
  end.
(** [stops] are the values of the stop flag read before each series. *)
Fixpoint poll_loop (host : string) (unix_ts : Z) (stops : list bool) (tfs : list BtcTimeframe) : list (BtcTimeframe * SeriesMarketInfo * option SeriesMarketInfo) :=
  match tfs with
  | [] => []
  | tf :: tfs =>
      if default false (head stops) then [] else
      match poll_series host unix_ts tf with Some (current, next) => [(tf, current, next)] | None => [] end ++ poll_loop host unix_ts (tail stops) tfs
  end.
Definition do_discovery_poll (url : string) (unix_ts : Z) (stops : list bool) : list (BtcTimeframe * SeriesMarketInfo * option SeriesMarketInfo) :=
  if nonempty (extract_host url) then poll_loop (extract_host url) unix_ts stops kTimeframes else [].
End Poll.

(** ** The thread *)
Inductive Command := CStart (asset_ids : list string) | CSubscribe (ids : list string) | CUnsubscribe (ids : list string) | CShutdown.
Record WatcherConfig := mkWatcherConfig { wc_discovery_api_url : string; wc_discovery_poll_ms : Z }.
Record WatchThread := mkWatchThread {
  wt_config : WatcherConfig;
  pending_asset_ids_ : list string;
  sub_changed_ : bool;
  stop_requested_ : bool;
  current_ids : list string;
  ws_client : bool;
  wt_seq : Z;
  last_discovery : Z;
  finished : bool;
  commands : list Command;
  book_data : list MarketEvent;
  client_books : list MarketEvent;          (* those of the present client *)
  discoveries : list (BtcTimeframe * SeriesMarketInfo * option SeriesMarketInfo) }.
Implicit Types w : WatchThread.

(** Tokens of [l] that are not in [other]. *)
Definition not_in (other l : list string) : list string := filter (fun id => id ∉ other) l.
Definition command (c : Command) w : WatchThread := w <| commands ::= fun l => l ++ [c] |>.
Definition command_if (ids : list string) (c : Command) w : WatchThread := match ids with [] => w | _ => command c w end.
Definition shutdown_ws w : WatchThread := if ws_client w then (command CShutdown w) <| ws_client := false |> else w.
Definition update_subscriptions (asset_ids : list string) w : WatchThread :=
  w <| pending_asset_ids_ := asset_ids |> <| sub_changed_ := true |>.
(** What the thread does when the wanted tokens differ from the current ones. *)
Definition change_ids (old_ids : list string) w : WatchThread :=
  let ids := current_ids w in
  if negb (ws_client w) then
    match ids with
    | [] => w
    | _ => (command (CStart ids) w) <| wt_seq := 0 |> <| client_books := [] |> <| ws_client := true |>
    end
  else
    match ids with
    | [] => shutdown_ws w
    | _ =>
        let to_remove := not_in ids old_ids in
        let to_add := not_in old_ids ids in
        command_if to_add (CSubscribe to_add) (command_if to_remove (CUnsubscribe to_remove) w)
    end.
Definition take_subscriptions w : WatchThread :=
  if sub_changed_ w then
    let new_ids := pending_asset_ids_ w in
    let old_ids := current_ids w in
    let w := w <| sub_changed_ := false |> in
    if bool_decide (new_ids = old_ids) then w else change_ids old_ids (w <| current_ids := new_ids |>)
  else w.

Section Thread.
Context `{JsonParser}.
(** The clocks, the answers of the network and the stop flag as read by a poll. *)
Record PollEnv := mkPollEnv { pe_now_ms : Z; pe_unix_ts : Z; pe_https_get : string -> string -> string; pe_stops : list bool }.
Implicit Types e : PollEnv.
Definition poll e w : WatchThread :=
  w <| discoveries ::= fun l => l ++ do_discovery_poll (pe_https_get e) (wc_discovery_api_url (wt_config w)) (pe_unix_ts e) (pe_stops e) |>.
(** [thread_main] up to its loop. *)
Definition thread_start e (cfg : WatcherConfig) : WatchThread :=
  poll e (mkWatchThread cfg [] false false [] false 0 (pe_now_ms e) false [] [] [] []).
Definition periodic_poll e w : WatchThread :=
  if pe_now_ms e - last_discovery w >=? wc_discovery_poll_ms (wt_config w) then (poll e w) <| last_discovery := pe_now_ms e |> else w.
Definition loop_iteration e w : WatchThread :=
  if stop_requested_ w then (shutdown_ws w) <| finished := true |> else periodic_poll e (take_subscriptions w).
(** The callback of the client, on its thread. *)
Definition hand_over (events : list MarketEvent) w : WatchThread :=
  w <| book_data ::= fun l => l ++ events |> <| client_books ::= fun l => l ++ events |>.
Definition on_message (payload : string) (recv_ts : Z) w : option WatchThread :=
  if String.prefix "[" payload then
    '(events, seq) ← parse_initial_book_array payload recv_ts (wt_seq w);
    Some (hand_over events (w <| wt_seq := seq |>))
  else
    let w := w <| wt_seq ::= Z.succ |> in
    r ← market_parse payload recv_ts (wt_seq w);
    Some (match r with Value ev => hand_over [ev] w | Err _ => w end).

Inductive WInput := WLoop (e : PollEnv) | WUpdate (asset_ids : list string) | WPayload (payload : string) (recv_ts : Z) | WStop.
Definition wstep w (i : WInput) : option WatchThread :=
  if finished w then Some w else
  match i with
  | WLoop e => Some (loop_iteration e w)
  | WUpdate ids => Some (update_subscriptions ids w)
  | WPayload payload recv_ts => if ws_client w then on_message payload recv_ts w else Some w
  | WStop => Some (w <| stop_requested_ := true |>)
  end.
Fixpoint wrun w (l : list WInput) : option WatchThread :=
  match l with [] => Some w | i :: l => w ← wstep w i; wrun w l end.
End Thread.

(** ** The first message fits, and agrees with the market parser *)
Lemma initial_levels_wf c l ls : (c <= kMaxBookLevels)%nat -> initial_levels c l = Some ls ->
  (c + length ls <= kMaxBookLevels)%nat /\ Forall level_wf ls.
Proof.
  revert c ls. induction l as [|e l IH]; intros c ls Hc; cbn [initial_levels].
  - intros [= <-]. split; [simpl; lia|constructor].
  - destruct (Nat.leb_spec kMaxBookLevels c); [intros [= <-]; split; [simpl; lia|constructor]|].
    destruct (get_object _); [|by apply IH]. destruct (get_string (field "price" e)) as [ps|]; [|by apply IH]. destruct (get_string (field "size" e)) as [ss|]; [|by apply IH].
    destruct (parse_price_text ps) as [price|] eqn:Ep; [|done]. destruct (parse_qty_text ss) as [size|] eqn:Es; [|done]. cbn [mbind option_bind].
    destruct price as [p|]; [|by apply IH]. destruct size as [q|]; [|by apply IH].
    destruct (initial_levels (S c) l) as [rest|] eqn:Er; [|done]. intros [= <-]. destruct (IH (S c) rest) as [Hl Hf]; [lia|done|].
    split; [simpl; lia|]. constructor; [|done]. split; [by eapply parse_price_in_ladder|by eapply parse_qty_fits].
Qed.
Lemma initial_side_wf key obj ls : initial_side key obj = Some ls -> (length ls <= kMaxBookLevels)%nat /\ Forall level_wf ls.
Proof.
  unfold initial_side. destruct (get_array _); [|intros [= <-]; split; [simpl; lia|constructor]]. intros Hl.
  by apply initial_levels_wf in Hl; [|lia].
Qed.
Lemma initial_snapshot_wf elem s : initial_snapshot elem = Some (Some s) -> payload_wf (EvBookSnapshot s).
Proof.
  unfold initial_snapshot. destruct (get_string _); [|done]. destruct (initial_side "bids" elem) as [bids|] eqn:Eb; [|done]. destruct (initial_side "asks" elem) as [asks|] eqn:Ea; [|done].
  intros [= <-]. apply initial_side_wf in Eb as [? ?], Ea as [? ?]. cbn. repeat split; eauto with trading; unfold id_fits; cbn; unfold kMaxAssetIdLen, kMaxHashLen; lia.
Qed.
Lemma strict_levels_agree c l ls : parse_levels c l = Some (Value ls) -> initial_levels c l = Some ls.
Proof.
  revert c ls. induction l as [|e l IH]; intros c ls; cbn [parse_levels initial_levels]; [by intros [= <-]|].
  destruct (Nat.leb_spec kMaxBookLevels c); [done|]. destruct (get_object _); [|done]. unfold parse_required_price_field, parse_required_qty_field, get_required_string.
  intros ?. inv_expect.
  repeat match goal with H : Some (match get_string ?x with inl _ => _ | inr _ => _ end) = _ |- _ => destruct (get_string x); [injection H as ->|done] end.
  repeat match goal with H : _ = Some (Value _) |- _ => first [rewrite H|rewrite (IH _ _ H)]; clear H; cbn [mbind option_bind] end. done.
Qed.

(** A book that the market parser accepts is read alike from the first message, without
    its market and hash. *)
Theorem initial_agrees doc s : parse_book doc = Some (Value (EvBookSnapshot s)) ->
  initial_snapshot doc = Some (Some (mkBookSnapshot (snap_asset_id s) "" (snap_bids s) (snap_asks s) (snap_exchange_ts s) "")).
Proof.
  unfold parse_book, initial_snapshot, initial_side, get_required_string, required_array. intros ?. inv_expect.
  repeat match goal with
  | H : Some (match get_string ?x with inl _ => _ | inr _ => _ end) = _ |- _ => destruct (get_string x); [injection H as ->|done]
  | H : Some (match get_array ?x with inl _ => _ | inr _ => _ end) = _ |- _ => destruct (get_array x); [injection H as ->|done]
  end.
  repeat match goal with H : parse_levels _ _ = _ |- _ => rewrite (strict_levels_agree _ _ _ H); clear H; cbn [mbind option_bind] end. done.
Qed.

(** ** Subscriptions *)
(** What the client is subscribed to after its commands. *)
Definition subscription (s : gset string) (c : Command) : gset string :=
  match c with
  | CStart ids => list_to_set ids
  | CSubscribe ids => s ∪ list_to_set ids
  | CUnsubscribe ids => s ∖ list_to_set ids
  | CShutdown => ∅
  end.
Definition subscribed (cs : list Command) : gset string := foldl subscription ∅ cs.
Lemma subscribed_snoc cs c : subscribed (cs ++ [c]) = subscription (subscribed cs) c.
Proof. unfold subscribed. by rewrite foldl_app. Qed.
Lemma command_subscribed c w : subscribed (commands (command c w)) = subscription (subscribed (commands w)) c.
Proof. apply subscribed_snoc. Qed.
Lemma diff_remove (old ids : list string) : (list_to_set old : gset string) ∖ list_to_set (not_in ids old) ∪ list_to_set (not_in old ids) = list_to_set ids.
Proof.
  unfold not_in. apply set_eq. intros x. rewrite elem_of_union, elem_of_difference, !elem_of_list_to_set, !list_elem_of_filter.
  destruct (decide (x ∈ ids)), (decide (x ∈ old)); tauto.
Qed.
Lemma command_if_add ids w : subscribed (commands (command_if ids (CSubscribe ids) w)) = subscribed (commands w) ∪ list_to_set ids.
Proof. destruct ids; [cbn; by rewrite (right_id_L ∅ (∪))|]. apply command_subscribed. Qed.
Lemma command_if_remove ids w : subscribed (commands (command_if ids (CUnsubscribe ids) w)) = subscribed (commands w) ∖ list_to_set ids.
Proof. destruct ids; [cbn; by rewrite difference_empty_L|]. apply command_subscribed. Qed.
Lemma command_if_keeps ids c w : let w' := command_if ids c w in
  ws_client w' = ws_client w /\ current_ids w' = current_ids w /\ pending_asset_ids_ w' = pending_asset_ids_ w /\ sub_changed_ w' = sub_changed_ w /\ finished w' = finished w.
Proof. by destruct ids. Qed.

Record subs_ok w : Prop := {
  so_now : subscribed (commands w) = if finished w then ∅ else list_to_set (current_ids w);
  so_client : ws_client w = negb (finished w) && negb (bool_decide (current_ids w = []));
  so_taken : sub_changed_ w = false -> finished w = false -> current_ids w = pending_asset_ids_ w }.
Lemma change_ids_ok old w : finished w = false -> current_ids w = pending_asset_ids_ w ->
  subscribed (commands w) = list_to_set old -> ws_client w = negb (bool_decide (old = [])) -> subs_ok (change_ids old w).
Proof.
  intros Hf Ht Hs Hc. unfold change_ids. rewrite Hc. case_bool_decide as Ho; cbn [negb].
  - subst old. destruct (current_ids w) as [|id ids] eqn:Ei; [split; rewrite ?Hf, ?Ei, ?Hc; try done; by rewrite Hs|]. set (w' := _ <| ws_client := true |>).
    assert (subscribed (commands w') = list_to_set (id :: ids)) by apply command_subscribed. split; cbn; rewrite ?Hf, ?Ei; [done|done|congruence].
  - destruct (current_ids w) as [|id ids] eqn:Ei.
    + unfold shutdown_ws. rewrite Hc. cbn [negb]. set (w' := _ <| ws_client := false |>).
      assert (subscribed (commands w') = ∅) by apply command_subscribed. split; cbn; rewrite ?Hf, ?Ei; [done|done|congruence].
    + set (rm := not_in _ old). set (ad := not_in old _). set (w1 := command_if rm _ w). destruct (command_if_keeps rm (CUnsubscribe rm) w) as (K1 & K2 & K3 & K4 & K5).
      destruct (command_if_keeps ad (CSubscribe ad) w1) as (L1 & L2 & L3 & L4 & L5). split.
      * rewrite command_if_add, L5, L2. unfold w1. rewrite command_if_remove, Hs, K5, K2, Hf, Ei. apply diff_remove.
      * rewrite L1, L5, L2. unfold w1. rewrite K1, K5, K2, Hf, Ei, Hc. done.
      * rewrite L4, L5, L2, L3. unfold w1. rewrite K2, K3. congruence.
Qed.
Lemma change_ids_keeps old w :
  sub_changed_ (change_ids old w) = sub_changed_ w /\ finished (change_ids old w) = finished w /\ pending_asset_ids_ (change_ids old w) = pending_asset_ids_ w.
Proof.
  unfold change_ids. destruct (negb (ws_client w)); [by destruct (current_ids w)|]. destruct (current_ids w) as [|id ids]; [unfold shutdown_ws; by destruct (ws_client w)|].
  destruct (command_if_keeps (not_in old (id :: ids)) (CSubscribe (not_in old (id :: ids))) (command_if (not_in (id :: ids) old) (CUnsubscribe (not_in (id :: ids) old)) w)) as (_ & _ & -> & -> & ->).
  by destruct (command_if_keeps (not_in (id :: ids) old) (CUnsubscribe (not_in (id :: ids) old)) w) as (_ & _ & -> & -> & ->).
Qed.
Lemma take_ok w : finished w = false -> subs_ok w -> subs_ok (take_subscriptions w) /\ sub_changed_ (take_subscriptions w) = false.
Proof.
  intros Hf [H1 H2 H3]. rewrite Hf in *. unfold take_subscriptions. destruct (sub_changed_ w) eqn:Es; [|split; [split; rewrite ?Hf; auto|done]].
  destruct (bool_decide_reflect (pending_asset_ids_ w = current_ids w)) as [Heq|Heq]; [split; [split; cbn; rewrite ?Hf; auto|done]|].
  split; [by apply change_ids_ok|by rewrite (proj1 (change_ids_keeps _ _))].
Qed.
Lemma take_keeps w : finished w = false -> finished (take_subscriptions w) = false /\ pending_asset_ids_ (take_subscriptions w) = pending_asset_ids_ w.
Proof.
  intros Hf. unfold take_subscriptions. destruct (sub_changed_ w); [|done]. destruct (bool_decide _); [done|].
  by destruct (change_ids_keeps (current_ids w) (w <| sub_changed_ := false |> <| current_ids := pending_asset_ids_ w |>)) as (_ & -> & ->).
Qed.
Lemma periodic_same `{JsonParser} e w : let w' := periodic_poll e w in
  commands w' = commands w /\ current_ids w' = current_ids w /\ ws_client w' = ws_client w /\ sub_changed_ w' = sub_changed_ w /\
  pending_asset_ids_ w' = pending_asset_ids_ w /\ finished w' = finished w.
Proof. cbv zeta. unfold periodic_poll. by destruct (_ >=? _). Qed.
Lemma subs_ok_same w w' : commands w' = commands w -> current_ids w' = current_ids w -> ws_client w' = ws_client w -> sub_changed_ w' = sub_changed_ w ->
  pending_asset_ids_ w' = pending_asset_ids_ w -> finished w' = finished w -> subs_ok w -> subs_ok w'.
Proof. intros E1 E2 E3 E4 E5 E6 [H1 H2 H3]. split; [by rewrite E1, E6, E2|by rewrite E3, E6, E2|by rewrite E4, E6, E2, E5]. Qed.
Lemma iteration_ok `{JsonParser} e w : finished w = false -> subs_ok w -> subs_ok (loop_iteration e w) /\
  (stop_requested_ w = false -> sub_changed_ (loop_iteration e w) = false).
Proof.
  intros Hf Hok. unfold loop_iteration. destruct (stop_requested_ w).
  - split; [|done]. destruct Hok as [H1 H2 H3]. unfold shutdown_ws. destruct (ws_client w) eqn:Ec; split; cbn; try done.
    + apply command_subscribed.
    + rewrite Hf in *. refine (eq_trans H1 _). destruct (current_ids w); [done|discriminate H2].
  - destruct (take_ok w Hf Hok) as [Ht Hfl]. destruct (periodic_same e (take_subscriptions w)) as (E1 & E2 & E3 & E4 & E5 & E6).
    split; [by eapply subs_ok_same|congruence].
Qed.
Lemma on_message_same `{JsonParser} payload recv_ts w w' : on_message payload recv_ts w = Some w' ->
  commands w' = commands w /\ current_ids w' = current_ids w /\ ws_client w' = ws_client w /\ sub_changed_ w' = sub_changed_ w /\
  pending_asset_ids_ w' = pending_asset_ids_ w /\ finished w' = finished w /\ stop_requested_ w' = stop_requested_ w.
Proof.
  unfold on_message. destruct (String.prefix _ _).
  - destruct (parse_initial_book_array _ _ _) as [[events seq]|]; [|done]. by intros [= <-].
  - destruct (market_parse _ _ _) as [[ev|]|]; [| |done]; by intros [= <-].
Qed.
Lemma wstep_subs `{JsonParser} i w w' : wstep w i = Some w' -> subs_ok w -> subs_ok w'.
Proof.
  intros Hs Hok. unfold wstep in Hs. destruct (finished w) eqn:Hf; [by injection Hs as <-|]. destruct i as [e|ids|payload recv_ts|].
  - injection Hs as <-. by apply iteration_ok.
  - injection Hs as <-. destruct Hok as [H1 H2 H3]. by split.
  - destruct (ws_client w); [|by injection Hs as <-]. apply on_message_same in Hs as (E1 & E2 & E3 & E4 & E5 & E6 & _). by eapply subs_ok_same.
  - injection Hs as <-. by destruct Hok as [H1 H2 H3].
Qed.
(** Whether a client runs after a sequence of commands; no value when one is started
    while another runs, or when a command is given without a client. *)
Definition client_runs (runs : option bool) (c : Command) : option bool :=
  match runs, c with
  | Some false, CStart _ => Some true
  | Some true, (CSubscribe _ | CUnsubscribe _) => Some true
  | Some true, CShutdown => Some false
  | _, _ => None
  end.
Definition one_client (cs : list Command) : option bool := foldl client_runs (Some false) cs.
Definition client_ok w : Prop := one_client (commands w) = Some (ws_client w).

Lemma one_client_snoc cs c : one_client (cs ++ [c]) = client_runs (one_client cs) c.
Proof. unfold one_client. by rewrite foldl_app. Qed.
Lemma command_if_client ids c w : one_client (commands w) = Some true -> client_runs (Some true) c = Some true ->
  one_client (commands (command_if ids c w)) = Some true.
Proof. intros Hw Hc. destruct ids; [done|]. cbn. by rewrite one_client_snoc, Hw. Qed.
Lemma shutdown_client w : client_ok w -> client_ok (shutdown_ws w).
Proof. unfold client_ok, shutdown_ws. destruct (ws_client w) eqn:E; [|congruence]. intros Hw. cbn. by rewrite one_client_snoc, Hw. Qed.
Lemma change_ids_client old w : client_ok w -> client_ok (change_ids old w).
Proof.
  intros Hw. unfold change_ids. destruct (ws_client w) eqn:E; cbn [negb].
  - destruct (current_ids w) as [|id ids]; [by apply shutdown_client|]. unfold client_ok in *.
    rewrite (proj1 (command_if_keeps _ _ _)), (proj1 (command_if_keeps _ _ _)), E. rewrite E in Hw.
    apply command_if_client; [|done]. by apply command_if_client.
  - destruct (current_ids w) as [|id ids]; [done|]. unfold client_ok in *. cbn. by rewrite one_client_snoc, Hw, E.
Qed.
Lemma wstep_client `{JsonParser} i w w' : wstep w i = Some w' -> client_ok w -> client_ok w'.
Proof.
  intros Hs Hok. unfold wstep in Hs. destruct (finished w); [by injection Hs as <-|]. destruct i as [e|ids|payload recv_ts|].
  - injection Hs as <-. unfold loop_iteration. destruct (stop_requested_ w); [exact (shutdown_client w Hok)|].
    destruct (periodic_same e (take_subscriptions w)) as (E1 & _ & E3 & _). unfold client_ok. rewrite E1, E3.
    unfold take_subscriptions. destruct (sub_changed_ w); [|done]. destruct (bool_decide _); [done|]. by apply change_ids_client.
  - by injection Hs as <-.
  - destruct (ws_client w) eqn:E; [|by injection Hs as <-]. apply on_message_same in Hs as (E1 & _ & E3 & _). unfold client_ok. by rewrite E1, E3.
  - by injection Hs as <-.
Qed.
Lemma wrun_inv `{JsonParser} (P : WatchThread -> Prop) l w w' : (forall i w w', wstep w i = Some w' -> P w -> P w') -> wrun w l = Some w' -> P w -> P w'.
Proof.
  intros Hp. revert w. induction l as [|i l IH]; intros w; cbn; [by intros [= ->]|]. destruct (wstep w i) as [w1|] eqn:E; [|done]. intros Hr Hw. eapply IH; [done|by eapply Hp].
Qed.

(** C36: the watcher's client is told exactly what the bridge asks for.  Along every run,
    through all changes of the wanted tokens, there is one client at most: none is
    started while another runs, and none is changed or shut down that does not run; the
    subscriptions commanded to the client since its creation are the tokens that the
    thread took last, the client exists if and only if there are any, no change is lost
    (without the mark of a new one the tokens taken are those wanted), and one iteration
    of the thread brings the client to the wanted tokens; when the thread has ended
    nothing is subscribed and no client runs. *)
Theorem watcher_subscriptions_exact `{JsonParser} (e0 : PollEnv) (cfg : WatcherConfig) (l : list WInput) (w : WatchThread) :
  wrun (thread_start e0 cfg) l = Some w ->
  one_client (commands w) = Some (if finished w then false else ws_client w) /\
  subscribed (commands w) = (if finished w then ∅ else list_to_set (current_ids w)) /\
  (finished w = false ->
   (ws_client w = true <-> current_ids w <> []) /\ (sub_changed_ w = false -> current_ids w = pending_asset_ids_ w) /\
   forall e, stop_requested_ w = false -> subscribed (commands (loop_iteration e w)) = list_to_set (pending_asset_ids_ w)).
Proof.
  intros Hr. assert (subs_ok w) as Hok by (eapply (wrun_inv subs_ok); [intros *; apply wstep_subs|exact Hr|by split]).
  assert (client_ok w) as Hcl by (eapply (wrun_inv client_ok); [intros *; apply wstep_client|exact Hr|done]).
  split; [rewrite Hcl, (so_client w Hok); by destruct (finished w)|]. split; [by apply so_now|]. intros Hf. split; [|split].
  - rewrite (so_client w Hok), Hf. destruct (current_ids w); by split.
  - intros E. by apply Hok.
  - intros e Hs. destruct (iteration_ok e w Hf Hok) as [[H1 H2 H3] Hfl]. specialize (Hfl Hs). unfold loop_iteration in *. rewrite Hs in *.
    destruct (periodic_same e (take_subscriptions w)) as (E1 & E2 & E3 & E4 & E5 & E6).
    assert (finished (take_subscriptions w) = false /\ pending_asset_ids_ (take_subscriptions w) = pending_asset_ids_ w) as [F1 F2] by apply take_keeps, Hf.
    rewrite H1, E6, F1, H3, E5, F2; [done|done|congruence].
Qed.

(** ** What is handed over *)
Lemma initial_events_spec recv_ts seq l evs seq' : initial_events recv_ts seq l = Some (evs, seq') ->
  seq <= seq' /\ StronglySorted Z.lt (me_seq <$> evs) /\ Forall (fun ev => seq < me_seq ev <= seq' /\ payload_wf (me_payload ev)) evs.
Proof.
  revert seq evs seq'. induction l as [|e l IH]; intros seq evs seq'; cbn [initial_events].
  - intros [= <- <-]. repeat split; [lia|constructor..].
  - destruct (get_object _); [|by apply IH]. destruct (initial_snapshot e) as [snap|] eqn:Es; [|done]. cbn [mbind option_bind].
    destruct (initial_events recv_ts (seq + 1) l) as [[evs1 seq1]|] eqn:El; [|done]. cbn [mbind option_bind]. intros [= <- <-]. destruct (IH _ _ _ El) as (H1 & H2 & H3).
    assert (Forall (fun ev => seq < me_seq ev <= seq1 /\ payload_wf (me_payload ev)) evs1) as H4 by (eapply Forall_impl; [exact H3|]; intros ev [? ?]; split; [lia|done]).
    destruct snap as [s|]; [|by repeat split; [lia| |]]. split; [lia|]. split.
    + constructor; [done|]. apply Forall_fmap. eapply Forall_impl; [exact H3|]. cbn. intros ev [? ?]. lia.
    + constructor; [split; [cbn; lia|by eapply initial_snapshot_wf]|done].
Qed.
Record events_ok w : Prop := {
  eo_sorted : StronglySorted Z.lt (me_seq <$> client_books w);
  eo_below : Forall (fun ev => me_seq ev <= wt_seq w) (client_books w);
  eo_wf : Forall (fun ev => payload_wf (me_payload ev)) (book_data w) }.
Lemma hand_over_ok evs seq w : wt_seq w <= seq -> StronglySorted Z.lt (me_seq <$> evs) ->
  Forall (fun ev => wt_seq w < me_seq ev <= seq /\ payload_wf (me_payload ev)) evs -> events_ok w -> events_ok (hand_over evs (w <| wt_seq := seq |>)).
Proof.
  intros Hle Hs Hf [H1 H2 H3]. split; cbn.
  - rewrite fmap_app. apply StronglySorted_app. split_and!; [|done|done]. intros x y (ev & -> & Hx)%list_elem_of_fmap (ev' & -> & Hy)%list_elem_of_fmap.
    rewrite Forall_forall in H2, Hf. specialize (H2 ev Hx). destruct (Hf ev' Hy). lia.
  - apply Forall_app. split; [eapply Forall_impl; [exact H2|]; cbn; lia|]. eapply Forall_impl; [exact Hf|]. cbn. lia.
  - apply Forall_app. split; [done|]. eapply Forall_impl; [exact Hf|]. by intros ev [_ ?].
Qed.
Lemma on_message_events `{JsonParser} payload recv_ts w w' : on_message payload recv_ts w = Some w' -> events_ok w -> events_ok w'.
Proof.
  unfold on_message. destruct (String.prefix _ _).
  - unfold parse_initial_book_array. destruct (parse_json payload) as [doc|]; cbn [mbind option_bind].
    + destruct (get_array (inl doc)) as [l|]; cbn [mbind option_bind].
      * destruct (initial_events recv_ts (wt_seq w) l) as [[evs seq]|] eqn:E; [|done]. intros [= <-] Hok. destruct (initial_events_spec _ _ _ _ _ E) as (H1 & H2 & H3). by apply hand_over_ok.
      * intros [= <-] Hok. by apply hand_over_ok; [lia|constructor|constructor|].
    + intros [= <-] Hok. by apply hand_over_ok; [lia|constructor|constructor|].
  - destruct (market_parse payload recv_ts _) as [r|] eqn:E; [|done]. intros [= <-] Hok. destruct r as [ev|].
    + change (events_ok (hand_over [ev] (w <| wt_seq := Z.succ (wt_seq w) |>))). apply hand_over_ok; [lia|repeat constructor| |done]. constructor; [|constructor].
      unfold market_parse in E. destruct (negb _); [done|]. destruct (id_eqb _ _); [done|]. destruct (parse_json payload); [|done]. inv_expect. cbn.
      split; [lia|]. by eapply parse_market_doc_wf.
    + destruct Hok as [H1 H2 H3]. split; [done| |done]. eapply Forall_impl; [exact H2|]. cbn. lia.
Qed.
Lemma command_if_events ids c w : client_books (command_if ids c w) = client_books w /\ wt_seq (command_if ids c w) = wt_seq w /\ book_data (command_if ids c w) = book_data w.
Proof. by destruct ids. Qed.
Lemma events_ok_same w w' : client_books w' = client_books w -> wt_seq w' = wt_seq w -> book_data w' = book_data w -> events_ok w -> events_ok w'.
Proof. intros E1 E2 E3 [H1 H2 H3]. split; rewrite ?E1, ?E2, ?E3; done. Qed.
Lemma change_ids_events old w : events_ok w -> events_ok (change_ids old w).
Proof.
  intros Hok. unfold change_ids. destruct (negb (ws_client w)).
  - destruct (current_ids w); [done|]. split; cbn; [constructor|constructor|apply Hok].
  - destruct (current_ids w) as [|id ids]; [unfold shutdown_ws; by destruct (ws_client w), Hok|].
    set (w1 := command_if _ _ w). eapply (events_ok_same w1); [apply command_if_events..|]. eapply (events_ok_same w); [apply command_if_events..|done].
Qed.
Lemma wstep_events `{JsonParser} i w w' : wstep w i = Some w' -> events_ok w -> events_ok w'.
Proof.
  intros Hs Hok. unfold wstep in Hs. destruct (finished w); [by injection Hs as <-|]. destruct i as [e|ids|payload recv_ts|].
  - injection Hs as <-. unfold loop_iteration. destruct (stop_requested_ w).
    + unfold shutdown_ws. by destruct (ws_client w), Hok.
    + assert (events_ok (take_subscriptions w)) as Ht.
      { unfold take_subscriptions. destruct (sub_changed_ w); [|done]. destruct (bool_decide _); [by destruct Hok|]. apply change_ids_events. by destruct Hok. }
      unfold periodic_poll. destruct (_ >=? _); by destruct Ht.
  - injection Hs as <-. by destruct Hok.
  - destruct (ws_client w); [by eapply on_message_events|by injection Hs as <-].
  - injection Hs as <-. by destruct Hok.
Qed.

(** What the watcher hands to the bridge is well formed and ordered: along every run,
    whatever the messages and however tokens change meanwhile, the sequence numbers of
    the events of the present client increase strictly, and every event fits the
    fixed-size structures of the program. *)
Theorem watcher_events_ordered `{JsonParser} (e0 : PollEnv) (cfg : WatcherConfig) (l : list WInput) (w : WatchThread) :
  wrun (thread_start e0 cfg) l = Some w ->
  StronglySorted Z.lt (me_seq <$> client_books w) /\ Forall (fun ev => payload_wf (me_payload ev)) (book_data w).
Proof.
  intros Hr. assert (events_ok w) as [H1 H2 H3]; [|done]. eapply (wrun_inv events_ok); [intros *; apply wstep_events|exact Hr|]. split; constructor.
Qed.

(** ** What a poll reports *)
Section Report.
Context `{JsonParser} (https_get : string -> string -> string) (host : string) (tf : BtcTimeframe).
Abbreviation at_window := (discover_btc_market_for_window https_get host tf).
Abbreviation open_window := (open_at https_get host tf).
Lemma search_spec l closed : (forall m ts, closed = Some (m, ts) -> dm_is_closed m = true) ->
  match search_windows https_get host tf l closed with
  | Some (m, ts) => if dm_is_closed m then Forall (fun ts => open_window ts = None) l else ts ∈ l /\ open_window ts = Some m
  | None => closed = None /\ Forall (fun ts => at_window ts = None) l
  end.
Proof.
  revert closed. induction l as [|ts l IH]; intros closed Hc; cbn [search_windows].
  - destruct closed as [[m ts]|]; [rewrite (Hc m ts eq_refl); constructor|by split; constructor].
  - destruct (at_window ts) as [m|] eqn:Em.
    + destruct (dm_is_closed m) eqn:Ec.
      * assert (open_window ts = None) as Ho by (unfold open_at; rewrite Em; cbn; by rewrite Ec).
        assert (forall m' ts', (match closed with Some _ => closed | None => Some (m, ts) end) = Some (m', ts') -> dm_is_closed m' = true) as Hc'.
        { intros m' ts'. destruct closed as [[m0 ts0]|]; [apply Hc|by intros [= <- <-]]. }
        specialize (IH _ Hc'). destruct (search_windows _ _ _ _ _) as [[m1 ts1]|]; [|by destruct closed, IH].
        destruct (dm_is_closed m1); [by constructor|]. destruct IH. split; [by right|done].
      * rewrite Ec. split; [by left|unfold open_at; rewrite Em; cbn; by rewrite Ec].
    + assert (open_window ts = None) as Ho by (unfold open_at; by rewrite Em). specialize (IH closed Hc). destruct (search_windows _ _ _ _ _) as [[m1 ts1]|].
      * destruct (dm_is_closed m1); [by constructor|]. destruct IH. split; [by right|done].
      * destruct IH. split; [done|by constructor].
Qed.
Lemma first_some_spec {A B} (f : A -> option B) l : match first_some f l with Some b => exists a, a ∈ l /\ f a = Some b | None => Forall (fun a => f a = None) l end.
Proof.
  induction l as [|a l IH]; cbn; [constructor|]. destruct (f a) as [b|] eqn:E; [exists a; split; [by left|done]|].
  destruct (first_some f l) as [b|]; [destruct IH as (a' & ? & ?); exists a'; split; [by right|done]|by constructor].
Qed.
End Report.

(** A poll reports an open market of a candidate window if there is one, a closed one
    only if none is open (and then as next market an open one, if any), the open market
    of a following window only if the candidates have none, and nothing only if there is
    neither. *)
Theorem poll_reports_open `{JsonParser} (https_get : string -> string -> string) (host : string) (tf : BtcTimeframe) (unix_ts : Z) :
  let candidates := window_candidates tf unix_ts in
  let period := timeframe_period_seconds tf in
  match poll_series https_get host unix_ts tf with
  | Some (current, next) =>
      if sm_is_closed current then Forall (fun ts => open_at https_get host tf ts = None) candidates /\ (forall n, next = Some n -> sm_is_closed n = false)
      else exists m ts, current = info_of m false /\ open_at https_get host tf ts = Some m /\
           (ts ∈ candidates \/ Forall (fun ts => discover_btc_market_for_window https_get host tf ts = None) candidates /\ exists base, base ∈ candidates /\ ts = base + period)
  | None => Forall (fun ts => discover_btc_market_for_window https_get host tf ts = None) candidates /\
            Forall (fun ts => open_at https_get host tf (ts + period) = None) candidates
  end.
Proof.
  cbv zeta. unfold poll_series. set (candidates := window_candidates tf unix_ts). pose proof (search_spec https_get host tf candidates None ltac:(done)) as Hs.
  destruct (search_windows _ _ _ _ _) as [[market ts]|].
  - destruct (dm_is_closed market) eqn:Ec; cbn [sm_is_closed info_of series_market_info].
    + split; [done|]. intros n Hn. destruct (open_at https_get host tf (ts + timeframe_period_seconds tf)) as [m|]; [|done]. by injection Hn as <-.
    + destruct Hs as [Hin Ho]. exists market, ts. auto.
  - destruct Hs as [_ Hs]. pose proof (first_some_spec (fun base_ts => open_at https_get host tf (base_ts + timeframe_period_seconds tf)) candidates) as Hf.
    destruct (first_some _ candidates) as [m|]; cbn; [|done]. destruct Hf as (base & Hb & Ho). exists m, (base + timeframe_period_seconds tf). eauto 10.
Qed.

(** ** Together with the client *)
Definition client_inputs (c : Command) : list Input :=
  match c with CStart _ => [] | CSubscribe ids => [ISubscribe ids] | CUnsubscribe ids => [IUnsubscribe ids] | CShutdown => [IShutdown] end.
Definition client_policy (asset_ids : list string) : Policy := market_policy (WsClientConfig_default <| mc_asset_ids := asset_ids |>).
Definition no_net (now_ms : Z) : PollEnv := mkPollEnv now_ms 0 (fun _ _ => ""%string) [].
Definition no_json : JsonParser := {| parse_json _ := None |}.
Definition three_changes : list WInput :=
  [WUpdate ["a"; "b"]%string; WLoop (no_net 100); WUpdate ["b"; "c"]%string; WLoop (no_net 200); WUpdate ["b"; "d"]%string; WLoop (no_net 300)].
Definition watch_example : option WatchThread := wrun (H := no_json) (thread_start (H := no_json) (no_net 0) (mkWatcherConfig "https://gamma-api.polymarket.com" 30000)) three_changes.
(** The tokens that were dropped, of the first subscription and of a later one, are
    subscribed again by the connection that replaces a failed one. *)
Definition after_reconnect (asset_ids : list string) (cs : list Command) : list text :=
  drop 5 (writes 0 (events (run (client_policy asset_ids)
    (at_ms 0 (connects 0 0 ++ [IOp 0 (WSubscribe 0) (WOk "")] ++ concat ((fun i => [i; IOp 0 (WQueued 0) (WOk "")]) <$> (cs ≫= client_inputs)) ++
              [IOp 0 (WRead 0) (WErr "End of file"); IReconnect 0] ++ connects 0 1))))).
Lemma dropped_tokens_return :
  (commands <$> watch_example) = Some [CStart ["a"; "b"]; CUnsubscribe ["a"]; CSubscribe ["c"]; CUnsubscribe ["c"]; CSubscribe ["d"]]%string /\
  (current_ids <$> watch_example) = Some ["b"; "d"]%string /\
  (after_reconnect ["a"; "b"]%string ∘ commands <$> watch_example) = Some [market_subscribe ["a"; "b"]; market_subscribe_add ["c"; "d"]]%string.
Proof. split; [by vm_compute|]. split; by vm_compute. Qed.
Lemma watcher_subscriptions_exact_witness :
  exists w, wrun (H := no_json) (thread_start (H := no_json) (no_net 0) (mkWatcherConfig "" 30000)) three_changes = Some w /\ subscribed (commands w) = {["b"; "d"]}%string.
Proof.
  eexists. assert (wrun (H := no_json) (thread_start (H := no_json) (no_net 0) (mkWatcherConfig "" 30000)) three_changes = Some _) as Hw by (vm_compute; reflexivity).
  split; [exact Hw|]. refine (eq_trans (proj1 (proj2 (watcher_subscriptions_exact (H := no_json) (no_net 0) (mkWatcherConfig "" 30000) three_changes _ Hw))) _). by vm_compute.
Defined.
Definition book_json (id : string) : Json := JObject [("asset_id", JString id); ("bids", JArray [JObject [("price", JString "0.4"); ("size", JString "10")]])]%string.
Definition books_parser : JsonParser := {| parse_json _ := Some (JArray [book_json "a"; JInt 1; book_json "b"]) |}.
Definition book_inputs : list WInput := [WUpdate ["a"; "b"]%string; WLoop (no_net 100); WPayload "[{}]" 7; WPayload "[{}]" 8].
Lemma watcher_events_ordered_witness :
  exists w, wrun (H := books_parser) (thread_start (H := books_parser) (no_net 0) (mkWatcherConfig "" 30000)) book_inputs = Some w /\
  (me_seq <$> client_books w) = [1; 2; 3; 4] /\ StronglySorted Z.lt (me_seq <$> client_books w).
Proof.
  eexists. assert (wrun (H := books_parser) (thread_start (H := books_parser) (no_net 0) (mkWatcherConfig "" 30000)) book_inputs = Some _) as Hw by (vm_compute; reflexivity).
  split; [exact Hw|]. split; [done|]. exact (proj1 (watcher_events_ordered (H := books_parser) (no_net 0) (mkWatcherConfig "" 30000) book_inputs _ Hw)).
Defined.
