(* ===== verification/Config.v ===== *)
(** The configuration file: [src/common/config.h] and [src/common/config.cpp].

    [EngineConfig] is the program's structure with its fields and defaults; a document
    (Json) is read over a structure, key by key, where a key that is missing or of
    another type leaves its field alone.  The file itself is an input.

    Shown: what is read is within its types, whatever the document says; every key is
    read into the field of its name, so that a document written from a structure reads
    back as it was.  And what goes wrong: three integers are converted without the
    check that the others have. *)
From Stdlib Require Import Ascii.
From S2P Require Import Prelude Types Price Json InventoryService IpcBridge.

(** ** Readers *)
Definition read_str (doc : Json) (key : string) (out : string) : string := or_default out (get_string (field key doc)).
Definition read_int (doc : Json) (key : string) (out : Z) : Z := or_default out (get_int64 (field key doc)).
Definition read_uint (doc : Json) (key : string) (out : Z) : Z := or_default out (get_uint64 (field key doc)).
Definition read_bool (doc : Json) (key : string) (out : bool) : bool := or_default out (get_bool (field key doc)).
Definition read_int32 (doc : Json) (key : string) (out : Z) : Z :=
  match get_int64 (field key doc) with inl val => if fits_i32 val then val else out | inr _ => out end.
Definition read_uint8 (doc : Json) (key : string) (out : Z) : Z :=
  match get_int64 (field key doc) with inl val => wrap_u8 val | inr _ => out end.
Definition read_strings (doc : Json) (key : string) : list string :=
  match get_array (field key doc) with
  | inl arr => omap (fun elem => match get_string (inl elem) with inl sv => Some sv | inr _ => None end) arr
  | inr _ => []
  end.
Definition read_pair (elem : Json) : option MarketPairConfig :=
  match get_string (field "condition_id" elem), get_string (field "token_id_up" elem), get_string (field "token_id_down" elem) with
  | inl condition_id, inl up, inl down => Some (mkMarketPairConfig condition_id up down)
  | _, _, _ => None
  end.
Definition read_pairs (doc : Json) : list MarketPairConfig :=
  match get_array (field "market_pairs" doc) with inl arr => omap read_pair arr | inr _ => [] end.

(** ** The structure *)
Module Engine.
Record EngineConfig := mkEngineConfig {
  ws_endpoint : string; asset_ids : list string; market_pairs : list MarketPairConfig; ping_interval_ms : Z; pong_timeout_ms : Z;
  reconnect_base_ms : Z; reconnect_max_ms : Z; ws_redundancy : Z; ws_redundancy_stagger_ms : Z; strategy_queue_capacity : Z; log_queue_capacity : Z;
  scheduler_stats_interval_ms : Z; log_file : string; metrics_file : string; smoke_test_log_file : string; metrics_dump_interval_ms : Z;
  log_level : string; scheduler_enabled : bool; scheduler_poll_strategy : Z; scheduler_sleep_us : Z; max_user_events_per_pass : Z;
  max_exec_events_per_pass : Z; max_market_events_per_pass : Z; max_control_events_per_pass : Z; max_binance_md_events_per_pass : Z;
  strategy_stub_emit_intents : bool; exec_feedback_loop_enabled : bool; user_queue_capacity : Z; exec_queue_capacity : Z; control_queue_capacity : Z;
  book_delta_queue_capacity : Z; user_ws_enabled : bool; user_ws_endpoint : string; user_ws_markets : list string; user_ws_stale_threshold_ms : Z;
  user_ws_reconnect_base_ms : Z; user_ws_reconnect_max_ms : Z; user_ws_ping_interval_ms : Z; user_ws_max_auth_failures : Z; user_ws_redundancy : Z;
  user_ws_redundancy_stagger_ms : Z; gateway_enabled : bool; rest_base_url : string; rest_host : string; rest_port : string;
  rest_request_timeout_ms : Z; rest_pipeline_depth : Z; strategy_to_exec_capacity : Z; rate_limit_global_per_10s : Z; rate_limit_order_per_10s : Z;
  rate_limit_cancel_per_10s : Z; rate_limit_backoff_base_ms : Z; rate_limit_backoff_max_ms : Z; heartbeat_interval_ms : Z;
  heartbeat_max_failures : Z; heartbeat_cancel_on_failure : bool; default_signature_type : Z; default_defer_exec : bool; default_post_only : bool;
  batch_orders_enabled : bool; batch_max_size : Z; cancel_connection_redundancy : Z; rest_use_http2 : bool; rest_max_concurrent_streams : Z;
  order_connection_pool_size : Z; strategy_type : string; quoter_v2_offset : Z; quoter_v2_skew_strength : Z; quoter_v2_max_skew : Z;
  quoter_v2_max_inventory : Z; quoter_v2_quote_size : Z; quoter_v2_min_order_size : Z; quoter_v2_emergency_qty : Z; quoter_v2_price_floor : Z;
  quoter_v2_price_ceiling : Z; quoter_v2_initial_split_size : Z; quoter_v2_inventory_low_water : Z; quoter_v2_inventory_replenish_size : Z;
  quoter_v2_inventory_merge_threshold : Z; quoter_v2_inventory_merge_size : Z; quoter_v2_inventory_cooldown_ms : Z;
  quoter_v2_max_replaces_per_second : Z; quoter_v2_min_quote_lifetime_ms : Z; quoter_v2_degraded_refresh_ms : Z;
  quoter_v2_deterministic_timing : bool; quoter_v2_soft_max_inventory : Z; quoter_v2_hard_max_inventory : Z; quoter_v2_market_duration_ms : Z;
  quoter_v2_hard_cutoff_ms : Z; quoter_v2_gamma_power_x1000 : Z; quoter_v2_offset_growth_fp4 : Z; quoter_v2_time_floor_mult_x1000 : Z;
  quoter_v2_time_floor_threshold_ms : Z; quoter_v2_fak_cooldown_ms : Z; quoter_v2_fak_gamma_floor_x1000 : Z; execution_mode : Z;
  risk_max_position_per_token : Z; risk_max_net_exposure_per_market : Z; risk_max_notional : Z; risk_max_loss : Z;
  risk_cancel_all_on_violation : bool; inventory_service_enabled : bool; inventory_service_dry_run : bool; inventory_command_template : string;
  inventory_service_poll_sleep_ms : Z; inventory_queue_capacity : Z; relayer_host : string; relayer_port : string; relayer_poll_interval_ms : Z;
  relayer_max_poll_attempts : Z; inventory_use_direct_rpc : bool; max_gas_price_gwei : Z; inventory_gas_limit : Z; inventory_rpc_timeout_ms : Z;
  ui_bridge_enabled : bool; ui_ws_port : Z; ui_ws_bind_address : string; ui_ws_auth_token : string; ui_snapshot_rate_hz : Z; ui_book_depth : Z;
  ui_book_queue_capacity : Z; ui_state_queue_capacity : Z; rotation_enabled : bool; rotation_timeframe : Z; rotation_discovery_poll_ms : Z;
  rotation_pre_rotation_ms : Z; rotation_no_trade_start_ms : Z; rotation_no_trade_end_ms : Z; slot_manager_enabled : bool; slot_pre_subscribe_ms : Z;
  slot_cancel_lead_ms : Z; slot_no_trade_start_ms : Z; slot_no_trade_end_ms : Z; slot_enable_5m : bool; slot_enable_15m : bool;
  watcher_enabled : bool; watcher_discovery_poll_ms : Z; watcher_status_poll_ms : Z; watcher_stale_threshold_ms : Z; ladder_update_interval_ms : Z;
  ladder_max_depth : Z; discovery_api_url : string; clob_api_url : string; pin_threads : bool; pin_core_t0 : Z; pin_core_t1 : Z; pin_core_t2 : Z;
  pin_core_t3 : Z; pin_core_t6 : Z; pin_core_rtds : Z; pin_core_rec : Z; account_poll_interval_ms : Z; initial_usdc_balance : Z;
  polygon_rpc_url : string; balance_poll_interval_ms : Z; rtds_enabled : bool; rtds_endpoint : string; rtds_ping_interval_ms : Z;
  rtds_reconnect_base_ms : Z; rtds_reconnect_max_ms : Z; rtds_stale_threshold_ms : Z; rtds_queue_capacity : Z; binance_md_enabled : bool;
  binance_md_endpoint : string; binance_md_streams : string; binance_md_reconnect_base_ms : Z; binance_md_reconnect_max_ms : Z;
  binance_md_stale_threshold_ms : Z; binance_md_rotate_interval_ms : Z; binance_md_queue_capacity : Z; pin_core_binance_md : Z;
  recording_enabled : bool; recording_output_dir : string; recording_flush_interval_ms : Z; recording_min_disk_space_mb : Z;
  recording_queue_capacity : Z; journal_enabled : bool; journal_level : Z; journal_queue_capacity : Z }.
Definition EngineConfig_default : EngineConfig := mkEngineConfig
  "wss://ws-subscriptions-clob.polymarket.com/ws/market" [] [] 10000 5000 1000 30000 1 200 65536 8192 5000 "engine.log" "metrics.log"
  "smoke_test.log" 5000 "INFO" true 2 100 256 256 256 64 256 false true 4096 4096 1024 8192 false
  "wss://ws-subscriptions-clob.polymarket.com/ws/user" [] 30000 1000 30000 10000 3 1 200 false "https://clob.polymarket.com" "clob.polymarket.com"
  "443" 5000 4 4096 9000 3500 3000 500 30000 5000 3 false 0 false false false 15 1 false 100 3 "quoter_v2" 300 20 200 50 20 5 10 900 9100 200 100 100
  250 50 30000 5 500 5000 false 20 50 300000 12000 1200 100 3000 20000 200 0 0 50 50 500000 100000 false false true "" 10 256
  "relayer-v2.polymarket.com" "443" 5000 60 false 100 500000 10000 false 9090 "0.0.0.0" "" 20 10 256 256 false 0 15000 5000 0 0 false 150000 1000 0 0
  true true false 30000 10000 15000 100 200 "https://gamma-api.polymarket.com" "https://clob.polymarket.com" true 0 1 2 3 4 5 6 15000 0 "" 1000 false
  "wss://ws-live-data.polymarket.com" 5000 1000 30000 15000 4096 false "wss://stream.binance.com:9443" "btcusdt@bookTicker,btcusdt@trade" 1000 30000
  60000 82800000 4096 7 false "data" 1000 500 8192 false 1 8192.
Definition read_over (d : EngineConfig) (doc : Json) : EngineConfig := mkEngineConfig
  (read_str doc "ws_endpoint" (ws_endpoint d)) (read_strings doc "asset_ids") (read_pairs doc) (read_int doc "ping_interval_ms" (ping_interval_ms d))
  (read_int doc "pong_timeout_ms" (pong_timeout_ms d)) (read_int doc "reconnect_base_ms" (reconnect_base_ms d))
  (read_int doc "reconnect_max_ms" (reconnect_max_ms d)) (wrap_i32 (read_int doc "ws_redundancy" (ws_redundancy d)))
  (read_int doc "ws_redundancy_stagger_ms" (ws_redundancy_stagger_ms d)) (read_uint doc "strategy_queue_capacity" (strategy_queue_capacity d))
  (read_uint doc "log_queue_capacity" (log_queue_capacity d)) (read_int doc "scheduler_stats_interval_ms" (scheduler_stats_interval_ms d))
  (read_str doc "log_file" (log_file d)) (read_str doc "metrics_file" (metrics_file d)) (smoke_test_log_file d)
  (read_int doc "metrics_dump_interval_ms" (metrics_dump_interval_ms d)) (read_str doc "log_level" (log_level d))
  (read_bool doc "scheduler_enabled" (scheduler_enabled d)) (read_int32 doc "scheduler_poll_strategy" (scheduler_poll_strategy d))
  (read_int doc "scheduler_sleep_us" (scheduler_sleep_us d)) (read_int32 doc "max_user_events_per_pass" (max_user_events_per_pass d))
  (read_int32 doc "max_exec_events_per_pass" (max_exec_events_per_pass d))
  (read_int32 doc "max_market_events_per_pass" (max_market_events_per_pass d))
  (read_int32 doc "max_control_events_per_pass" (max_control_events_per_pass d))
  (read_int32 doc "max_binance_md_events_per_pass" (max_binance_md_events_per_pass d))
  (read_bool doc "strategy_stub_emit_intents" (strategy_stub_emit_intents d))
  (read_bool doc "exec_feedback_loop_enabled" (exec_feedback_loop_enabled d)) (read_uint doc "user_queue_capacity" (user_queue_capacity d))
  (read_uint doc "exec_queue_capacity" (exec_queue_capacity d)) (read_uint doc "control_queue_capacity" (control_queue_capacity d))
  (read_uint doc "book_delta_queue_capacity" (book_delta_queue_capacity d)) (read_bool doc "user_ws_enabled" (user_ws_enabled d))
  (read_str doc "user_ws_endpoint" (user_ws_endpoint d)) (read_strings doc "user_ws_markets")
  (read_int doc "user_ws_stale_threshold_ms" (user_ws_stale_threshold_ms d)) (read_int doc "user_ws_reconnect_base_ms" (user_ws_reconnect_base_ms d))
  (read_int doc "user_ws_reconnect_max_ms" (user_ws_reconnect_max_ms d)) (read_int doc "user_ws_ping_interval_ms" (user_ws_ping_interval_ms d))
  (read_int32 doc "user_ws_max_auth_failures" (user_ws_max_auth_failures d)) (read_int32 doc "user_ws_redundancy" (user_ws_redundancy d))
  (read_int doc "user_ws_redundancy_stagger_ms" (user_ws_redundancy_stagger_ms d)) (read_bool doc "gateway_enabled" (gateway_enabled d))
  (read_str doc "rest_base_url" (rest_base_url d)) (read_str doc "rest_host" (rest_host d)) (read_str doc "rest_port" (rest_port d))
  (read_int doc "rest_request_timeout_ms" (rest_request_timeout_ms d)) (read_int32 doc "rest_pipeline_depth" (rest_pipeline_depth d))
  (read_uint doc "strategy_to_exec_capacity" (strategy_to_exec_capacity d))
  (read_int32 doc "rate_limit_global_per_10s" (rate_limit_global_per_10s d)) (read_int32 doc "rate_limit_order_per_10s" (rate_limit_order_per_10s d))
  (read_int32 doc "rate_limit_cancel_per_10s" (rate_limit_cancel_per_10s d))
  (read_int doc "rate_limit_backoff_base_ms" (rate_limit_backoff_base_ms d)) (read_int doc "rate_limit_backoff_max_ms" (rate_limit_backoff_max_ms d))
  (read_int doc "heartbeat_interval_ms" (heartbeat_interval_ms d)) (read_int32 doc "heartbeat_max_failures" (heartbeat_max_failures d))
  (read_bool doc "heartbeat_cancel_on_failure" (heartbeat_cancel_on_failure d)) (read_uint8 doc "default_signature_type" (default_signature_type d))
  (read_bool doc "default_defer_exec" (default_defer_exec d)) (read_bool doc "default_post_only" (default_post_only d))
  (read_bool doc "batch_orders_enabled" (batch_orders_enabled d)) (read_int32 doc "batch_max_size" (batch_max_size d))
  (read_int32 doc "cancel_connection_redundancy" (cancel_connection_redundancy d)) (read_bool doc "rest_use_http2" (rest_use_http2 d))
  (read_int32 doc "rest_max_concurrent_streams" (rest_max_concurrent_streams d))
  (read_int32 doc "order_connection_pool_size" (order_connection_pool_size d)) (read_str doc "strategy_type" (strategy_type d))
  (read_int32 doc "quoter_v2_offset" (quoter_v2_offset d)) (read_int32 doc "quoter_v2_skew_strength" (quoter_v2_skew_strength d))
  (read_int32 doc "quoter_v2_max_skew" (quoter_v2_max_skew d)) (read_int32 doc "quoter_v2_max_inventory" (quoter_v2_max_inventory d))
  (read_int32 doc "quoter_v2_quote_size" (quoter_v2_quote_size d)) (read_int32 doc "quoter_v2_min_order_size" (quoter_v2_min_order_size d))
  (read_int32 doc "quoter_v2_emergency_qty" (quoter_v2_emergency_qty d)) (read_int32 doc "quoter_v2_price_floor" (quoter_v2_price_floor d))
  (read_int32 doc "quoter_v2_price_ceiling" (quoter_v2_price_ceiling d))
  (read_int32 doc "quoter_v2_initial_split_size" (quoter_v2_initial_split_size d))
  (read_int32 doc "quoter_v2_inventory_low_water" (quoter_v2_inventory_low_water d))
  (read_int32 doc "quoter_v2_inventory_replenish_size" (quoter_v2_inventory_replenish_size d))
  (read_int32 doc "quoter_v2_inventory_merge_threshold" (quoter_v2_inventory_merge_threshold d))
  (read_int32 doc "quoter_v2_inventory_merge_size" (quoter_v2_inventory_merge_size d))
  (read_int doc "quoter_v2_inventory_cooldown_ms" (quoter_v2_inventory_cooldown_ms d))
  (read_int32 doc "quoter_v2_max_replaces_per_second" (quoter_v2_max_replaces_per_second d))
  (read_int doc "quoter_v2_min_quote_lifetime_ms" (quoter_v2_min_quote_lifetime_ms d))
  (read_int doc "quoter_v2_degraded_refresh_ms" (quoter_v2_degraded_refresh_ms d))
  (read_bool doc "quoter_v2_deterministic_timing" (quoter_v2_deterministic_timing d))
  (read_int32 doc "quoter_v2_soft_max_inventory" (quoter_v2_soft_max_inventory d))
  (read_int32 doc "quoter_v2_hard_max_inventory" (quoter_v2_hard_max_inventory d))
  (read_int doc "quoter_v2_market_duration_ms" (quoter_v2_market_duration_ms d))
  (read_int doc "quoter_v2_hard_cutoff_ms" (quoter_v2_hard_cutoff_ms d))
  (read_int32 doc "quoter_v2_gamma_power_x1000" (quoter_v2_gamma_power_x1000 d))
  (read_int32 doc "quoter_v2_offset_growth_fp4" (quoter_v2_offset_growth_fp4 d))
  (read_int32 doc "quoter_v2_time_floor_mult_x1000" (quoter_v2_time_floor_mult_x1000 d))
  (read_int doc "quoter_v2_time_floor_threshold_ms" (quoter_v2_time_floor_threshold_ms d))
  (read_int doc "quoter_v2_fak_cooldown_ms" (quoter_v2_fak_cooldown_ms d))
  (read_int32 doc "quoter_v2_fak_gamma_floor_x1000" (quoter_v2_fak_gamma_floor_x1000 d)) (read_int32 doc "execution_mode" (execution_mode d))
  (read_int32 doc "risk_max_position_per_token" (risk_max_position_per_token d))
  (read_int32 doc "risk_max_net_exposure_per_market" (risk_max_net_exposure_per_market d)) (read_int doc "risk_max_notional" (risk_max_notional d))
  (read_int doc "risk_max_loss" (risk_max_loss d)) (read_bool doc "risk_cancel_all_on_violation" (risk_cancel_all_on_violation d))
  (read_bool doc "inventory_service_enabled" (inventory_service_enabled d)) (read_bool doc "inventory_service_dry_run" (inventory_service_dry_run d))
  (read_str doc "inventory_command_template" (inventory_command_template d))
  (read_int doc "inventory_service_poll_sleep_ms" (inventory_service_poll_sleep_ms d))
  (read_uint doc "inventory_queue_capacity" (inventory_queue_capacity d)) (read_str doc "relayer_host" (relayer_host d))
  (read_str doc "relayer_port" (relayer_port d)) (read_int doc "relayer_poll_interval_ms" (relayer_poll_interval_ms d))
  (read_int32 doc "relayer_max_poll_attempts" (relayer_max_poll_attempts d)) (read_bool doc "inventory_use_direct_rpc" (inventory_use_direct_rpc d))
  (read_int doc "max_gas_price_gwei" (max_gas_price_gwei d)) (wrap_u64 (read_int doc "inventory_gas_limit" (inventory_gas_limit d)))
  (read_int32 doc "inventory_rpc_timeout_ms" (inventory_rpc_timeout_ms d)) (read_bool doc "ui_bridge_enabled" (ui_bridge_enabled d))
  (read_int32 doc "ui_ws_port" (ui_ws_port d)) (read_str doc "ui_ws_bind_address" (ui_ws_bind_address d))
  (read_str doc "ui_ws_auth_token" (ui_ws_auth_token d)) (read_int32 doc "ui_snapshot_rate_hz" (ui_snapshot_rate_hz d))
  (read_int32 doc "ui_book_depth" (ui_book_depth d)) (read_uint doc "ui_book_queue_capacity" (ui_book_queue_capacity d))
  (read_uint doc "ui_state_queue_capacity" (ui_state_queue_capacity d)) (read_bool doc "rotation_enabled" (rotation_enabled d))
  (read_int32 doc "rotation_timeframe" (rotation_timeframe d)) (read_int doc "rotation_discovery_poll_ms" (rotation_discovery_poll_ms d))
  (read_int doc "rotation_pre_rotation_ms" (rotation_pre_rotation_ms d)) (read_int doc "rotation_no_trade_start_ms" (rotation_no_trade_start_ms d))
  (read_int doc "rotation_no_trade_end_ms" (rotation_no_trade_end_ms d)) (read_bool doc "slot_manager_enabled" (slot_manager_enabled d))
  (read_int doc "slot_pre_subscribe_ms" (slot_pre_subscribe_ms d)) (read_int doc "slot_cancel_lead_ms" (slot_cancel_lead_ms d))
  (read_int doc "slot_no_trade_start_ms" (slot_no_trade_start_ms d)) (read_int doc "slot_no_trade_end_ms" (slot_no_trade_end_ms d))
  (read_bool doc "slot_enable_5m" (slot_enable_5m d)) (read_bool doc "slot_enable_15m" (slot_enable_15m d))
  (read_bool doc "watcher_enabled" (watcher_enabled d)) (read_int doc "watcher_discovery_poll_ms" (watcher_discovery_poll_ms d))
  (read_int doc "watcher_status_poll_ms" (watcher_status_poll_ms d)) (read_int doc "watcher_stale_threshold_ms" (watcher_stale_threshold_ms d))
  (read_int32 doc "ladder_update_interval_ms" (ladder_update_interval_ms d)) (read_int32 doc "ladder_max_depth" (ladder_max_depth d))
  (read_str doc "discovery_api_url" (discovery_api_url d)) (read_str doc "clob_api_url" (clob_api_url d))
  (read_bool doc "pin_threads" (pin_threads d)) (read_int32 doc "pin_core_t0" (pin_core_t0 d)) (read_int32 doc "pin_core_t1" (pin_core_t1 d))
  (read_int32 doc "pin_core_t2" (pin_core_t2 d)) (read_int32 doc "pin_core_t3" (pin_core_t3 d)) (read_int32 doc "pin_core_t6" (pin_core_t6 d))
  (read_int32 doc "pin_core_rtds" (pin_core_rtds d)) (read_int32 doc "pin_core_rec" (pin_core_rec d))
  (read_int32 doc "account_poll_interval_ms" (account_poll_interval_ms d)) (read_int doc "initial_usdc_balance" (initial_usdc_balance d))
  (read_str doc "polygon_rpc_url" (polygon_rpc_url d)) (read_int32 doc "balance_poll_interval_ms" (balance_poll_interval_ms d))
  (read_bool doc "rtds_enabled" (rtds_enabled d)) (read_str doc "rtds_endpoint" (rtds_endpoint d))
  (read_int doc "rtds_ping_interval_ms" (rtds_ping_interval_ms d)) (read_int doc "rtds_reconnect_base_ms" (rtds_reconnect_base_ms d))
  (read_int doc "rtds_reconnect_max_ms" (rtds_reconnect_max_ms d)) (read_int doc "rtds_stale_threshold_ms" (rtds_stale_threshold_ms d))
  (read_uint doc "rtds_queue_capacity" (rtds_queue_capacity d)) (read_bool doc "binance_md_enabled" (binance_md_enabled d))
  (read_str doc "binance_md_endpoint" (binance_md_endpoint d)) (read_str doc "binance_md_streams" (binance_md_streams d))
  (read_int doc "binance_md_reconnect_base_ms" (binance_md_reconnect_base_ms d))
  (read_int doc "binance_md_reconnect_max_ms" (binance_md_reconnect_max_ms d))
  (read_int doc "binance_md_stale_threshold_ms" (binance_md_stale_threshold_ms d))
  (read_int doc "binance_md_rotate_interval_ms" (binance_md_rotate_interval_ms d))
  (read_uint doc "binance_md_queue_capacity" (binance_md_queue_capacity d)) (read_int32 doc "pin_core_binance_md" (pin_core_binance_md d))
  (read_bool doc "recording_enabled" (recording_enabled d)) (read_str doc "recording_output_dir" (recording_output_dir d))
  (read_int doc "recording_flush_interval_ms" (recording_flush_interval_ms d))
  (read_int doc "recording_min_disk_space_mb" (recording_min_disk_space_mb d))
  (read_uint doc "recording_queue_capacity" (recording_queue_capacity d)) (read_bool doc "journal_enabled" (journal_enabled d))
  (read_int32 doc "journal_level" (journal_level d)) (read_uint doc "journal_queue_capacity" (journal_queue_capacity d)).
(** [load_config], of the text of the file, if it could be opened. *)
Definition load_config `{JsonParser} (file : option string) : Expected EngineConfig :=
  match file with
  | None => Err ErrorCode.CONFIG_FILE_NOT_FOUND
  | Some json_str =>
      match parse_json json_str with
      | None => Err ErrorCode.CONFIG_PARSE_ERROR
      | Some doc => Value (read_over EngineConfig_default doc)
      end
  end.

(** ** Types *)
Implicit Types c : EngineConfig.
Definition int64_fields c : list Z := [
   ping_interval_ms c; pong_timeout_ms c; reconnect_base_ms c; reconnect_max_ms c; ws_redundancy_stagger_ms c; scheduler_stats_interval_ms c;
   metrics_dump_interval_ms c; scheduler_sleep_us c; user_ws_stale_threshold_ms c; user_ws_reconnect_base_ms c; user_ws_reconnect_max_ms c;
   user_ws_ping_interval_ms c; user_ws_redundancy_stagger_ms c; rest_request_timeout_ms c; rate_limit_backoff_base_ms c; rate_limit_backoff_max_ms c;
   heartbeat_interval_ms c; quoter_v2_inventory_cooldown_ms c; quoter_v2_min_quote_lifetime_ms c; quoter_v2_degraded_refresh_ms c;
   quoter_v2_market_duration_ms c; quoter_v2_hard_cutoff_ms c; quoter_v2_time_floor_threshold_ms c; quoter_v2_fak_cooldown_ms c; risk_max_notional c;
   risk_max_loss c; inventory_service_poll_sleep_ms c; relayer_poll_interval_ms c; max_gas_price_gwei c; rotation_discovery_poll_ms c;
   rotation_pre_rotation_ms c; rotation_no_trade_start_ms c; rotation_no_trade_end_ms c; slot_pre_subscribe_ms c; slot_cancel_lead_ms c;
   slot_no_trade_start_ms c; slot_no_trade_end_ms c; watcher_discovery_poll_ms c; watcher_status_poll_ms c; watcher_stale_threshold_ms c;
   initial_usdc_balance c; rtds_ping_interval_ms c; rtds_reconnect_base_ms c; rtds_reconnect_max_ms c; rtds_stale_threshold_ms c;
   binance_md_reconnect_base_ms c; binance_md_reconnect_max_ms c; binance_md_stale_threshold_ms c; binance_md_rotate_interval_ms c;
   recording_flush_interval_ms c; recording_min_disk_space_mb c].
Definition int_fields c : list Z := [
   scheduler_poll_strategy c; max_user_events_per_pass c; max_exec_events_per_pass c; max_market_events_per_pass c; max_control_events_per_pass c;
   max_binance_md_events_per_pass c; user_ws_max_auth_failures c; user_ws_redundancy c; rest_pipeline_depth c; rate_limit_global_per_10s c;
   rate_limit_order_per_10s c; rate_limit_cancel_per_10s c; heartbeat_max_failures c; batch_max_size c; cancel_connection_redundancy c;
   rest_max_concurrent_streams c; order_connection_pool_size c; quoter_v2_offset c; quoter_v2_skew_strength c; quoter_v2_max_skew c;
   quoter_v2_max_inventory c; quoter_v2_quote_size c; quoter_v2_min_order_size c; quoter_v2_emergency_qty c; quoter_v2_price_floor c;
   quoter_v2_price_ceiling c; quoter_v2_initial_split_size c; quoter_v2_inventory_low_water c; quoter_v2_inventory_replenish_size c;
   quoter_v2_inventory_merge_threshold c; quoter_v2_inventory_merge_size c; quoter_v2_max_replaces_per_second c; quoter_v2_soft_max_inventory c;
   quoter_v2_hard_max_inventory c; quoter_v2_gamma_power_x1000 c; quoter_v2_offset_growth_fp4 c; quoter_v2_time_floor_mult_x1000 c;
   quoter_v2_fak_gamma_floor_x1000 c; execution_mode c; risk_max_position_per_token c; risk_max_net_exposure_per_market c;
   relayer_max_poll_attempts c; inventory_rpc_timeout_ms c; ui_ws_port c; ui_snapshot_rate_hz c; ui_book_depth c; rotation_timeframe c;
   ladder_update_interval_ms c; ladder_max_depth c; pin_core_t0 c; pin_core_t1 c; pin_core_t2 c; pin_core_t3 c; pin_core_t6 c; pin_core_rtds c;
   pin_core_rec c; account_poll_interval_ms c; balance_poll_interval_ms c; pin_core_binance_md c; journal_level c].
Definition size_fields c : list Z := [
   strategy_queue_capacity c; log_queue_capacity c; user_queue_capacity c; exec_queue_capacity c; control_queue_capacity c;
   book_delta_queue_capacity c; strategy_to_exec_capacity c; inventory_queue_capacity c; ui_book_queue_capacity c; ui_state_queue_capacity c;
   rtds_queue_capacity c; binance_md_queue_capacity c; recording_queue_capacity c; journal_queue_capacity c].
Definition fits_u64 (z : Z) : bool := (0 <=? z) && (z <? 2 ^ 64).
Record config_ok c : Prop := {
  co_int64 : Forall (fun z => fits_i64 z = true) (int64_fields c);
  co_int : Forall (fun z => fits_i32 z = true) (int_fields c);
  co_redundancy : fits_i32 (ws_redundancy c) = true;
  co_size : Forall (fun z => fits_u64 z = true) (size_fields c);
  co_gas : fits_u64 (inventory_gas_limit c) = true;
  co_type : 0 <= default_signature_type c < 2 ^ 8 }.
Lemma read_int_fits doc key d : fits_i64 d = true -> fits_i64 (read_int doc key d) = true.
Proof. intros Hd. unfold read_int. destruct (field key doc) as [[]|]; cbn; try done. by destruct (fits_i64 z) eqn:E. Qed.
Lemma read_uint_fits doc key d : fits_u64 d = true -> fits_u64 (read_uint doc key d) = true.
Proof. intros Hd. unfold read_uint. destruct (field key doc) as [[]|]; cbn; try done. by destruct ((0 <=? z) && (z <? 2 ^ 64)) eqn:E. Qed.
Lemma read_int32_fits doc key d : fits_i32 d = true -> fits_i32 (read_int32 doc key d) = true.
Proof. intros Hd. unfold read_int32. destruct (get_int64 _) as [z|]; [|done]. by destruct (fits_i32 z) eqn:E. Qed.
Lemma read_uint8_fits doc key d : 0 <= d < 2 ^ 8 -> 0 <= read_uint8 doc key d < 2 ^ 8.
Proof. intros Hd. unfold read_uint8. destruct (get_int64 _) as [z|]; [|done]. apply Z.mod_pos_bound. lia. Qed.
Lemma wrap_i32_fits z : fits_i32 (wrap_i32 z) = true.
Proof. unfold wrap_i32, fits_i32, INT32_MIN, INT32_MAX. pose proof (Z.mod_pos_bound (z + 2 ^ 31) (2 ^ 32)). apply andb_true_iff. lia. Qed.
Lemma wrap_u64_fits z : fits_u64 (wrap_u64 z) = true.
Proof. unfold wrap_u64, fits_u64. pose proof (Z.mod_pos_bound z (2 ^ 64)). apply andb_true_iff. lia. Qed.
Ltac each_field H := cbn in H |- *; repeat (apply Forall_cons in H as [? H]; apply Forall_cons; split; [eauto using read_int_fits, read_uint_fits, read_int32_fits|]); exact H.
Lemma read_over_ok d doc : config_ok d -> config_ok (read_over d doc).
Proof.
  intros [H1 H2 H3 H4 H5 H6]. split.
  - unfold int64_fields in *. each_field H1.
  - unfold int_fields in *. each_field H2.
  - apply wrap_i32_fits.
  - unfold size_fields in *. each_field H4.
  - apply wrap_u64_fits.
  - by apply read_uint8_fits.
Qed.
Lemma default_ok : config_ok EngineConfig_default.
Proof. split; try done; repeat constructor. Qed.
(** Whatever the document says, what is loaded is within the types of its fields. *)
Theorem loaded_in_range `{JsonParser} (file : option string) (c : EngineConfig) : load_config file = Value c -> config_ok c.
Proof.
  unfold load_config. destruct file as [s|]; [|done]. destruct (parse_json s) as [doc|]; [|done]. intros [= <-]. apply read_over_ok, default_ok.
Qed.

(** ** A document of a structure *)
Definition pair_json (p : MarketPairConfig) : Json :=
  JObject [("condition_id", JString (mp_condition_id p)); ("token_id_up", JString (mp_token_id_up p)); ("token_id_down", JString (mp_token_id_down p))]%string.
Definition config_doc c : Json :=
  JObject [
    ("ws_endpoint", JString (ws_endpoint c)); ("asset_ids", JArray (JString <$> asset_ids c));
    ("market_pairs", JArray (pair_json <$> market_pairs c)); ("ping_interval_ms", JInt (ping_interval_ms c));
    ("pong_timeout_ms", JInt (pong_timeout_ms c)); ("reconnect_base_ms", JInt (reconnect_base_ms c));
    ("reconnect_max_ms", JInt (reconnect_max_ms c)); ("ws_redundancy", JInt (ws_redundancy c));
    ("ws_redundancy_stagger_ms", JInt (ws_redundancy_stagger_ms c)); ("strategy_queue_capacity", JInt (strategy_queue_capacity c));
    ("log_queue_capacity", JInt (log_queue_capacity c)); ("scheduler_stats_interval_ms", JInt (scheduler_stats_interval_ms c));
    ("log_file", JString (log_file c)); ("metrics_file", JString (metrics_file c)); ("metrics_dump_interval_ms", JInt (metrics_dump_interval_ms c));
    ("log_level", JString (log_level c)); ("scheduler_enabled", JBool (scheduler_enabled c));
    ("scheduler_poll_strategy", JInt (scheduler_poll_strategy c)); ("scheduler_sleep_us", JInt (scheduler_sleep_us c));
    ("max_user_events_per_pass", JInt (max_user_events_per_pass c)); ("max_exec_events_per_pass", JInt (max_exec_events_per_pass c));
    ("max_market_events_per_pass", JInt (max_market_events_per_pass c)); ("max_control_events_per_pass", JInt (max_control_events_per_pass c));
    ("max_binance_md_events_per_pass", JInt (max_binance_md_events_per_pass c));
    ("strategy_stub_emit_intents", JBool (strategy_stub_emit_intents c)); ("exec_feedback_loop_enabled", JBool (exec_feedback_loop_enabled c));
    ("user_queue_capacity", JInt (user_queue_capacity c)); ("exec_queue_capacity", JInt (exec_queue_capacity c));
    ("control_queue_capacity", JInt (control_queue_capacity c)); ("book_delta_queue_capacity", JInt (book_delta_queue_capacity c));
    ("user_ws_enabled", JBool (user_ws_enabled c)); ("user_ws_endpoint", JString (user_ws_endpoint c));
    ("user_ws_markets", JArray (JString <$> user_ws_markets c)); ("user_ws_stale_threshold_ms", JInt (user_ws_stale_threshold_ms c));
    ("user_ws_reconnect_base_ms", JInt (user_ws_reconnect_base_ms c)); ("user_ws_reconnect_max_ms", JInt (user_ws_reconnect_max_ms c));
    ("user_ws_ping_interval_ms", JInt (user_ws_ping_interval_ms c)); ("user_ws_max_auth_failures", JInt (user_ws_max_auth_failures c));
    ("user_ws_redundancy", JInt (user_ws_redundancy c)); ("user_ws_redundancy_stagger_ms", JInt (user_ws_redundancy_stagger_ms c));
    ("gateway_enabled", JBool (gateway_enabled c)); ("rest_base_url", JString (rest_base_url c)); ("rest_host", JString (rest_host c));
    ("rest_port", JString (rest_port c)); ("rest_request_timeout_ms", JInt (rest_request_timeout_ms c));
    ("rest_pipeline_depth", JInt (rest_pipeline_depth c)); ("strategy_to_exec_capacity", JInt (strategy_to_exec_capacity c));
    ("rate_limit_global_per_10s", JInt (rate_limit_global_per_10s c)); ("rate_limit_order_per_10s", JInt (rate_limit_order_per_10s c));
    ("rate_limit_cancel_per_10s", JInt (rate_limit_cancel_per_10s c)); ("rate_limit_backoff_base_ms", JInt (rate_limit_backoff_base_ms c));
    ("rate_limit_backoff_max_ms", JInt (rate_limit_backoff_max_ms c)); ("heartbeat_interval_ms", JInt (heartbeat_interval_ms c));
    ("heartbeat_max_failures", JInt (heartbeat_max_failures c)); ("heartbeat_cancel_on_failure", JBool (heartbeat_cancel_on_failure c));
    ("default_signature_type", JInt (default_signature_type c)); ("default_defer_exec", JBool (default_defer_exec c));
    ("default_post_only", JBool (default_post_only c)); ("batch_orders_enabled", JBool (batch_orders_enabled c));
    ("batch_max_size", JInt (batch_max_size c)); ("cancel_connection_redundancy", JInt (cancel_connection_redundancy c));
    ("rest_use_http2", JBool (rest_use_http2 c)); ("rest_max_concurrent_streams", JInt (rest_max_concurrent_streams c));
    ("order_connection_pool_size", JInt (order_connection_pool_size c)); ("strategy_type", JString (strategy_type c));
    ("quoter_v2_offset", JInt (quoter_v2_offset c)); ("quoter_v2_skew_strength", JInt (quoter_v2_skew_strength c));
    ("quoter_v2_max_skew", JInt (quoter_v2_max_skew c)); ("quoter_v2_max_inventory", JInt (quoter_v2_max_inventory c));
    ("quoter_v2_quote_size", JInt (quoter_v2_quote_size c)); ("quoter_v2_min_order_size", JInt (quoter_v2_min_order_size c));
    ("quoter_v2_emergency_qty", JInt (quoter_v2_emergency_qty c)); ("quoter_v2_price_floor", JInt (quoter_v2_price_floor c));
    ("quoter_v2_price_ceiling", JInt (quoter_v2_price_ceiling c)); ("quoter_v2_initial_split_size", JInt (quoter_v2_initial_split_size c));
    ("quoter_v2_inventory_low_water", JInt (quoter_v2_inventory_low_water c));
    ("quoter_v2_inventory_replenish_size", JInt (quoter_v2_inventory_replenish_size c));
    ("quoter_v2_inventory_merge_threshold", JInt (quoter_v2_inventory_merge_threshold c));
    ("quoter_v2_inventory_merge_size", JInt (quoter_v2_inventory_merge_size c));
    ("quoter_v2_inventory_cooldown_ms", JInt (quoter_v2_inventory_cooldown_ms c));
    ("quoter_v2_max_replaces_per_second", JInt (quoter_v2_max_replaces_per_second c));
    ("quoter_v2_min_quote_lifetime_ms", JInt (quoter_v2_min_quote_lifetime_ms c));
    ("quoter_v2_degraded_refresh_ms", JInt (quoter_v2_degraded_refresh_ms c));
    ("quoter_v2_deterministic_timing", JBool (quoter_v2_deterministic_timing c));
    ("quoter_v2_soft_max_inventory", JInt (quoter_v2_soft_max_inventory c)); ("quoter_v2_hard_max_inventory", JInt (quoter_v2_hard_max_inventory c));
    ("quoter_v2_market_duration_ms", JInt (quoter_v2_market_duration_ms c)); ("quoter_v2_hard_cutoff_ms", JInt (quoter_v2_hard_cutoff_ms c));
    ("quoter_v2_gamma_power_x1000", JInt (quoter_v2_gamma_power_x1000 c)); ("quoter_v2_offset_growth_fp4", JInt (quoter_v2_offset_growth_fp4 c));
    ("quoter_v2_time_floor_mult_x1000", JInt (quoter_v2_time_floor_mult_x1000 c));
    ("quoter_v2_time_floor_threshold_ms", JInt (quoter_v2_time_floor_threshold_ms c));
    ("quoter_v2_fak_cooldown_ms", JInt (quoter_v2_fak_cooldown_ms c)); ("quoter_v2_fak_gamma_floor_x1000", JInt (quoter_v2_fak_gamma_floor_x1000 c));
    ("execution_mode", JInt (execution_mode c)); ("risk_max_position_per_token", JInt (risk_max_position_per_token c));
    ("risk_max_net_exposure_per_market", JInt (risk_max_net_exposure_per_market c)); ("risk_max_notional", JInt (risk_max_notional c));
    ("risk_max_loss", JInt (risk_max_loss c)); ("risk_cancel_all_on_violation", JBool (risk_cancel_all_on_violation c));
    ("inventory_service_enabled", JBool (inventory_service_enabled c)); ("inventory_service_dry_run", JBool (inventory_service_dry_run c));
    ("inventory_command_template", JString (inventory_command_template c));
    ("inventory_service_poll_sleep_ms", JInt (inventory_service_poll_sleep_ms c)); ("inventory_queue_capacity", JInt (inventory_queue_capacity c));
    ("relayer_host", JString (relayer_host c)); ("relayer_port", JString (relayer_port c));
    ("relayer_poll_interval_ms", JInt (relayer_poll_interval_ms c)); ("relayer_max_poll_attempts", JInt (relayer_max_poll_attempts c));
    ("inventory_use_direct_rpc", JBool (inventory_use_direct_rpc c)); ("max_gas_price_gwei", JInt (max_gas_price_gwei c));
    ("inventory_gas_limit", JInt (inventory_gas_limit c)); ("inventory_rpc_timeout_ms", JInt (inventory_rpc_timeout_ms c));
    ("ui_bridge_enabled", JBool (ui_bridge_enabled c)); ("ui_ws_port", JInt (ui_ws_port c)); ("ui_ws_bind_address", JString (ui_ws_bind_address c));
    ("ui_ws_auth_token", JString (ui_ws_auth_token c)); ("ui_snapshot_rate_hz", JInt (ui_snapshot_rate_hz c));
    ("ui_book_depth", JInt (ui_book_depth c)); ("ui_book_queue_capacity", JInt (ui_book_queue_capacity c));
    ("ui_state_queue_capacity", JInt (ui_state_queue_capacity c)); ("rotation_enabled", JBool (rotation_enabled c));
    ("rotation_timeframe", JInt (rotation_timeframe c)); ("rotation_discovery_poll_ms", JInt (rotation_discovery_poll_ms c));
    ("rotation_pre_rotation_ms", JInt (rotation_pre_rotation_ms c)); ("rotation_no_trade_start_ms", JInt (rotation_no_trade_start_ms c));
    ("rotation_no_trade_end_ms", JInt (rotation_no_trade_end_ms c)); ("slot_manager_enabled", JBool (slot_manager_enabled c));
    ("slot_pre_subscribe_ms", JInt (slot_pre_subscribe_ms c)); ("slot_cancel_lead_ms", JInt (slot_cancel_lead_ms c));
    ("slot_no_trade_start_ms", JInt (slot_no_trade_start_ms c)); ("slot_no_trade_end_ms", JInt (slot_no_trade_end_ms c));
    ("slot_enable_5m", JBool (slot_enable_5m c)); ("slot_enable_15m", JBool (slot_enable_15m c)); ("watcher_enabled", JBool (watcher_enabled c));
    ("watcher_discovery_poll_ms", JInt (watcher_discovery_poll_ms c)); ("watcher_status_poll_ms", JInt (watcher_status_poll_ms c));
    ("watcher_stale_threshold_ms", JInt (watcher_stale_threshold_ms c)); ("ladder_update_interval_ms", JInt (ladder_update_interval_ms c));
    ("ladder_max_depth", JInt (ladder_max_depth c)); ("discovery_api_url", JString (discovery_api_url c));
    ("clob_api_url", JString (clob_api_url c)); ("pin_threads", JBool (pin_threads c)); ("pin_core_t0", JInt (pin_core_t0 c));
    ("pin_core_t1", JInt (pin_core_t1 c)); ("pin_core_t2", JInt (pin_core_t2 c)); ("pin_core_t3", JInt (pin_core_t3 c));
    ("pin_core_t6", JInt (pin_core_t6 c)); ("pin_core_rtds", JInt (pin_core_rtds c)); ("pin_core_rec", JInt (pin_core_rec c));
    ("account_poll_interval_ms", JInt (account_poll_interval_ms c)); ("initial_usdc_balance", JInt (initial_usdc_balance c));
    ("polygon_rpc_url", JString (polygon_rpc_url c)); ("balance_poll_interval_ms", JInt (balance_poll_interval_ms c));
    ("rtds_enabled", JBool (rtds_enabled c)); ("rtds_endpoint", JString (rtds_endpoint c));
    ("rtds_ping_interval_ms", JInt (rtds_ping_interval_ms c)); ("rtds_reconnect_base_ms", JInt (rtds_reconnect_base_ms c));
    ("rtds_reconnect_max_ms", JInt (rtds_reconnect_max_ms c)); ("rtds_stale_threshold_ms", JInt (rtds_stale_threshold_ms c));
    ("rtds_queue_capacity", JInt (rtds_queue_capacity c)); ("binance_md_enabled", JBool (binance_md_enabled c));
    ("binance_md_endpoint", JString (binance_md_endpoint c)); ("binance_md_streams", JString (binance_md_streams c));
    ("binance_md_reconnect_base_ms", JInt (binance_md_reconnect_base_ms c)); ("binance_md_reconnect_max_ms", JInt (binance_md_reconnect_max_ms c));
    ("binance_md_stale_threshold_ms", JInt (binance_md_stale_threshold_ms c));
    ("binance_md_rotate_interval_ms", JInt (binance_md_rotate_interval_ms c)); ("binance_md_queue_capacity", JInt (binance_md_queue_capacity c));
    ("pin_core_binance_md", JInt (pin_core_binance_md c)); ("recording_enabled", JBool (recording_enabled c));
    ("recording_output_dir", JString (recording_output_dir c)); ("recording_flush_interval_ms", JInt (recording_flush_interval_ms c));
    ("recording_min_disk_space_mb", JInt (recording_min_disk_space_mb c)); ("recording_queue_capacity", JInt (recording_queue_capacity c));
    ("journal_enabled", JBool (journal_enabled c)); ("journal_level", JInt (journal_level c));
    ("journal_queue_capacity", JInt (journal_queue_capacity c))]%string.
(** *** Reading it back *)
Lemma read_str_at doc key out s : field key doc = inl (JString s) -> read_str doc key out = s.
Proof. unfold read_str. by intros ->. Qed.
Lemma read_bool_at doc key out b : field key doc = inl (JBool b) -> read_bool doc key out = b.
Proof. unfold read_bool. by intros ->. Qed.
Lemma read_int_at doc key out z : field key doc = inl (JInt z) -> fits_i64 z = true -> read_int doc key out = z.
Proof. unfold read_int. intros -> Hz. cbn. by rewrite Hz. Qed.
Lemma fits_i32_i64 z : fits_i32 z = true -> fits_i64 z = true.
Proof. unfold fits_i32, fits_i64, INT32_MIN, INT32_MAX, INT64_MIN, INT64_MAX. rewrite !andb_true_iff, !Z.leb_le. lia. Qed.
Lemma read_int32_at doc key out z : field key doc = inl (JInt z) -> fits_i32 z = true -> read_int32 doc key out = z.
Proof. unfold read_int32. intros -> Hz. cbn. by rewrite (fits_i32_i64 z Hz), Hz. Qed.
Lemma read_uint_at doc key out z : field key doc = inl (JInt z) -> fits_u64 z = true -> read_uint doc key out = z.
Proof. unfold read_uint. intros -> Hz. cbn. unfold fits_u64 in Hz. by rewrite Hz. Qed.
Lemma read_uint8_at doc key out z : field key doc = inl (JInt z) -> 0 <= z < 2 ^ 8 -> read_uint8 doc key out = z.
Proof.
  unfold read_uint8. intros -> Hz. cbn. rewrite fits_i32_i64 by (unfold fits_i32, INT32_MIN, INT32_MAX; rewrite andb_true_iff, !Z.leb_le; lia). by apply Z.mod_small.
Qed.
Lemma read_strings_at doc key l : field key doc = inl (JArray (JString <$> l)) -> read_strings doc key = l.
Proof. unfold read_strings. intros ->. cbn. induction l as [|s l IH]; [done|]. cbn. by rewrite IH. Qed.
Lemma read_pairs_at doc l : field "market_pairs" doc = inl (JArray (pair_json <$> l)) -> read_pairs doc = l.
Proof. unfold read_pairs. intros ->. cbn. induction l as [|[a b t] l IH]; [done|]. cbn. by rewrite IH. Qed.
Lemma redundancy_at doc key out z : field key doc = inl (JInt z) -> fits_i32 z = true -> wrap_i32 (read_int doc key out) = z.
Proof.
  intros E Hz. rewrite (read_int_at _ _ _ z E) by (by apply fits_i32_i64). apply wrap_i32_small. unfold fits_i32 in Hz. rewrite andb_true_iff, !Z.leb_le in Hz. lia.
Qed.
Lemma gas_at doc key out z : field key doc = inl (JInt z) -> fits_u64 z = true -> z <= INT64_MAX -> wrap_u64 (read_int doc key out) = z.
Proof.
  intros E Hz Hm. unfold fits_u64, INT64_MAX in *. rewrite andb_true_iff, Z.leb_le, Z.ltb_lt in Hz.
  rewrite (read_int_at _ _ _ z E) by (unfold fits_i64, INT64_MIN, INT64_MAX; rewrite andb_true_iff, !Z.leb_le; lia). apply Z.mod_small. lia.
Qed.

(** C37: every key of the configuration is read into the field of its name and no other:
    the document written from a structure within its types, over any defaults, reads
    back as that structure (but for the path that the program sets itself, and gas
    limits below 2^63). *)
Theorem config_roundtrip (c d : EngineConfig) :
  config_ok c -> inventory_gas_limit c <= INT64_MAX -> smoke_test_log_file c = smoke_test_log_file d -> read_over d (config_doc c) = c.
Proof.
  intros [H1 H2 H3 H4 H5 H6] Hg Hl. unfold read_over. set (doc := config_doc c).
  unfold int64_fields, int_fields, size_fields in *. repeat (apply Forall_cons in H1 as [? H1]). repeat (apply Forall_cons in H2 as [? H2]). repeat (apply Forall_cons in H4 as [? H4]).
  rewrite <- Hl. destruct c. cbn in *. subst doc. f_equal.
  all: first [apply read_str_at|apply read_bool_at|apply read_int_at|apply read_int32_at|apply read_uint_at|apply read_uint8_at|apply read_strings_at|apply read_pairs_at|apply redundancy_at|apply gas_at|idtac].
  all: first [assumption|vm_compute; reflexivity].
Qed.
Lemma config_roundtrip_witness : config_ok EngineConfig_default /\ read_over EngineConfig_default (config_doc EngineConfig_default) = EngineConfig_default.
Proof. split; [exact default_ok|]. apply (config_roundtrip EngineConfig_default EngineConfig_default); [exact default_ok|done|reflexivity]. Defined.

(** Three integers are converted without the check that the others have: values out of
    range are taken modulo the size of the type. *)
Lemma unchecked_conversions :
  let c := read_over EngineConfig_default (JObject [("ws_redundancy", JInt 4294967299); ("user_ws_redundancy", JInt 4294967299);
    ("default_signature_type", JInt 257); ("inventory_gas_limit", JInt (-1))])%string in
  ws_redundancy c = 3 /\ user_ws_redundancy c = 1 /\ default_signature_type c = 1 /\ inventory_gas_limit c = 2 ^ 64 - 1.
Proof. by vm_compute. Qed.
(** A key that the program does not know is ignored. *)
Lemma unknown_keys_ignored (d : EngineConfig) (j : Json) : read_over d (JObject [("strategy_quote_size"%string, j)]) = read_over d (JObject []).
Proof. done. Qed.
End Engine.
