(* ===== verification/Account.v ===== *)
(** The account: its file ([src/common/account.cpp]), the balances on the chain
    ([src/common/balance_fetcher.cpp]), the positions at start-up
    ([src/common/position_bootstrap.cpp]) and the thread that polls them
    ([src/ui_bridge/account_poll_service.cpp]).

    Files, the network and clocks are inputs; floating-point numbers are as in
    FeedParsers, with rounding and comparison as further operations.

    Shown: an account of printable ASCII texts that is written reads back as it was; a balance is the number that
    its hexadecimal text states, or an error, never another number; positions from the
    service are positive and counted; the polling thread keeps its intervals and writes
    the shared balance only from an answer of the chain.  And what goes wrong: a balance
    of the chain's own coin above 18.4 cannot be read. *)
From Stdlib Require Import Ascii Sorted.
From S2P Require Import Prelude Types Price Json MessageRoundtrip TokenInventory Crypto OrderBuilder JsonText Slots Discovery Watcher FeedClients FeedParsers InventoryService IpcBridge.

(** ** The account's file *)
Record AccountInfo := mkAccountInfo {
  ai_name : string; ai_private_key : string; ai_address : string; ai_owner_uuid : string; ai_api_key : string; ai_api_secret : string;
  ai_api_passphrase : string; ai_builder_api_key : string; ai_builder_api_secret : string; ai_builder_api_passphrase : string; ai_safe_address : string }.
Definition clear_secrets (info : AccountInfo) : AccountInfo :=
  info <| ai_private_key := ""%string |> <| ai_api_secret := ""%string |> <| ai_builder_api_secret := ""%string |>.
Definition read_required (doc : Json) (key : string) : Expected string :=
  match get_string (field key doc) with inl sv => Value sv | inr _ => Err ErrorCode.JSON_MISSING_FIELD end.
Definition read_optional (doc : Json) (key : string) : string := or_default ""%string (get_string (field key doc)).
Definition account_of (doc : Json) : Expected AccountInfo :=
  match read_required doc "name" with
  | Err e => Err e
  | Value name =>
      match read_required doc "private_key" with
      | Err e => Err e
      | Value private_key =>
          match read_required doc "address" with
          | Err e => Err e
          | Value address =>
              let opt := read_optional doc in
              Value (mkAccountInfo name private_key address (opt "owner_uuid") (opt "api_key") (opt "api_secret") (opt "api_passphrase")
                       (opt "builder_api_key") (opt "builder_api_secret") (opt "builder_api_passphrase") (opt "safe_address"))%string
          end
      end
  end.
Definition load_account `{JsonParser} (file : option string) : Expected AccountInfo :=
  match file with
  | None => Err ErrorCode.CONFIG_FILE_NOT_FOUND
  | Some json_str => match parse_json json_str with None => Err ErrorCode.CONFIG_PARSE_ERROR | Some doc => account_of doc end
  end.

Definition newline : ascii := "010".
Definition escape_json (s : string) : list ascii :=
  concat ((fun c => if bool_decide (c = dquote) then [backslash; dquote] else if bool_decide (c = backslash) then [backslash; backslash] else [c]) <$> txt s).
Definition file_member (key value : string) : list ascii := lit "    '" ++ txt key ++ lit "': '" ++ escape_json value ++ lit "'".
(** A member that is written where it is not empty. *)
Definition optional_member (key value : string) : list ascii := if nonempty value then txt "," ++ [newline] ++ file_member key value else [].
(** The text that [save_account] writes to a file it could open. *)
Definition save_account (info : AccountInfo) : list ascii :=
  txt "{" ++ [newline] ++ file_member "name" (ai_name info) ++ txt "," ++ [newline] ++ file_member "private_key" (ai_private_key info) ++ txt "," ++ [newline] ++
  file_member "address" (ai_address info) ++ optional_member "owner_uuid" (ai_owner_uuid info) ++ optional_member "api_key" (ai_api_key info) ++
  optional_member "api_secret" (ai_api_secret info) ++ optional_member "api_passphrase" (ai_api_passphrase info) ++
  optional_member "builder_api_key" (ai_builder_api_key info) ++ optional_member "builder_api_secret" (ai_builder_api_secret info) ++
  optional_member "builder_api_passphrase" (ai_builder_api_passphrase info) ++ optional_member "safe_address" (ai_safe_address info) ++
  [newline] ++ txt "}" ++ [newline].

(** *** It reads back *)
(** No character that JSON has to escape, but the quote and the backslash. *)
Definition no_control (s : string) : Prop := Forall (fun c => 32 <= char_code c) (txt s).
Lemma char_code_inj c d : char_code c = char_code d -> c = d.
Proof. unfold char_code. intros E. apply (f_equal Z.to_N) in E. rewrite !N2Z.id in E. rewrite <- (ascii_N_embedding c), <- (ascii_N_embedding d). by f_equal. Qed.
Lemma escape_json_agrees s : no_control s -> escape_json s = append_json_escaped [] (txt s).
Proof.
  unfold no_control, escape_json, append_json_escaped. cbn [app]. induction 1 as [|c l Hc Hl IH]; [done|]. rewrite !fmap_cons, !concat_cons, IH. f_equal. clear IH Hl.
  unfold escape_char. destruct (decide (c = dquote)) as [->|Hq]; [done|]. rewrite (bool_decide_eq_false_2 _ Hq). destruct (decide (c = backslash)) as [->|Hb]; [done|].
  rewrite (bool_decide_eq_false_2 _ Hb).
  destruct (Z.eqb_spec (char_code c) 34) as [E|_]; [destruct Hq; apply char_code_inj; by rewrite E|]. destruct (Z.eqb_spec (char_code c) 92) as [E|_]; [destruct Hb; apply char_code_inj; by rewrite E|].
  assert (forall k, k < 32 -> (char_code c =? k) = false) as Hk by (intros k Hk; apply Z.eqb_neq; lia). rewrite !Hk by lia. destruct (Z.ltb_spec (char_code c) 32); [lia|done].
Qed.
Definition pretty_member (m : string * string) : list ascii := lit "    " ++ print_key m.1 ++ txt ": " ++ print_key m.2.
Fixpoint pretty_members (first : bool) (l : list (string * string)) : list ascii :=
  match l with [] => [] | m :: l => (if first then [] else txt "," ++ [newline]) ++ pretty_member m ++ pretty_members false l end.
Definition as_json : list (string * string) -> list (string * Json) := fmap (fun m => (m.1, JString m.2)).
Lemma eat_spaces c l : eat c (lit "    " ++ l) = eat c l.
Proof. done. Qed.
Lemma read_pretty_member fuel k v rest : read_member (read_value (S fuel)) (pretty_member (k, v) ++ rest) = Some (k, JString v, rest).
Proof.
  unfold read_member, pretty_member. cbn [fst snd]. rewrite <- !app_assoc, print_key_app, eat_spaces, eat_hit by done. cbn [mbind option_bind]. rewrite read_chars_print. cbn [mbind option_bind].
  change (txt ": " ++ ?x) with (":"%char :: " "%char :: x). rewrite eat_hit by done. cbn [mbind option_bind].
  change (read_value (S fuel) (" "%char :: ?x)) with (read_value (S fuel) x). rewrite print_key_app, read_value_string, read_chars_print. cbn [mbind option_bind]. by rewrite !str_of_txt.
Qed.
Lemma eat_newline c l : eat c (newline :: l) = eat c l.
Proof. done. Qed.
Lemma read_members_newline read f x : read_members read f (newline :: x) = read_members read f x.
Proof. by destruct f. Qed.
Lemma read_pretty_members fuel l n rest : l <> [] -> (length l <= n)%nat ->
  read_members (read_value (S fuel)) n (pretty_members true l ++ newline :: "}"%char :: rest) = Some (as_json l, rest).
Proof.
  revert n. induction l as [|[k v] l IH]; intros n Hne Hn; [done|]. destruct n as [|n]; [simpl in Hn; lia|]. cbn [pretty_members read_members app].
  rewrite <- app_assoc, read_pretty_member. cbn [mbind option_bind]. destruct l as [|m l].
  - cbn [pretty_members app]. rewrite !eat_newline, eat_miss by done. by rewrite eat_hit.
  - assert (pretty_members false (m :: l) = ","%char :: newline :: pretty_members true (m :: l)) as -> by done. cbn [app]. rewrite eat_hit by done.
    rewrite read_members_newline, IH by (done || simpl in *; lia). done.
Qed.
Definition optional (key value : string) : list (string * string) := if nonempty value then [(key, value)] else [].
Definition account_members (info : AccountInfo) : list (string * string) :=
  [("name", ai_name info); ("private_key", ai_private_key info); ("address", ai_address info)]%string ++
  optional "owner_uuid" (ai_owner_uuid info) ++ optional "api_key" (ai_api_key info) ++ optional "api_secret" (ai_api_secret info) ++
  optional "api_passphrase" (ai_api_passphrase info) ++ optional "builder_api_key" (ai_builder_api_key info) ++
  optional "builder_api_secret" (ai_builder_api_secret info) ++ optional "builder_api_passphrase" (ai_builder_api_passphrase info) ++
  optional "safe_address" (ai_safe_address info).
(** Printable ASCII, and what is written to the file. *)
Definition printable (c : ascii) : Prop := 32 <= char_code c <= 126.
Definition printable_text (s : string) : Prop := Forall printable (txt s).
Definition plain_file (l : list ascii) : Prop := Forall (fun c => printable c \/ c = newline) l.
Lemma plain_no_control s : printable_text s -> no_control s.
Proof. intros Hs. eapply Forall_impl; [exact Hs|]. unfold printable. lia. Qed.
Record account_plain (info : AccountInfo) : Prop := {
  ap_all : Forall printable_text [ai_name info; ai_private_key info; ai_address info; ai_owner_uuid info; ai_api_key info; ai_api_secret info; ai_api_passphrase info;
    ai_builder_api_key info; ai_builder_api_secret info; ai_builder_api_passphrase info; ai_safe_address info] }.
Lemma file_member_pretty key value : append_json_escaped [] (txt key) = txt key -> no_control value -> file_member key value = pretty_member (key, value).
Proof.
  intros Hk Hv. unfold file_member, pretty_member, print_key, quoted. cbn [fst snd]. rewrite Hk, (escape_json_agrees value Hv). generalize (txt key), (append_json_escaped [] (txt value)).
  intros a b. cbn. by rewrite <- !app_assoc.
Qed.
Lemma pretty_app l l' : pretty_members false (l ++ l') = pretty_members false l ++ pretty_members false l'.
Proof. induction l as [|m l IH]; [done|]. cbn [app pretty_members]. rewrite IH, <- !app_assoc. done. Qed.
Lemma optional_pretty key value : append_json_escaped [] (txt key) = txt key -> no_control value -> optional_member key value = pretty_members false (optional key value).
Proof.
  intros Hk Hv. unfold optional_member, optional. destruct (nonempty value); [|done]. rewrite file_member_pretty by done. cbn [pretty_members]. by rewrite !app_nil_r, <- app_assoc.
Qed.
Lemma save_pretty info : account_plain info ->
  save_account info = "{"%char :: newline :: pretty_members true (account_members info) ++ [newline; "}"%char; newline].
Proof.
  intros [H]. repeat (apply Forall_cons in H as [?%plain_no_control H]). unfold save_account, account_members. rewrite !file_member_pretty, !optional_pretty by (assumption || reflexivity).
  cbn [app pretty_members]. rewrite !pretty_app. change (txt "{") with ["{"%char]. change (txt "}") with ["}"%char]. change (txt ",") with [","%char]. cbn [app].
  repeat (progress (rewrite <- ?app_assoc; cbn [app])). done.
Qed.
Lemma account_of_members info : account_of (JObject (as_json (account_members info))) = Value info.
Proof. destruct info as [a b d e f g h i j k m]. destruct e, f, g, h, i, j, k, m; reflexivity. Qed.

Lemma plain_file_lit (t : string) : forallb (fun c => (32 <=? char_code c) && (char_code c <=? 126)) (lit t) = true -> plain_file (lit t).
Proof. intros Ht. apply Forall_forall. intros c Hc. rewrite forallb_forall in Ht. apply list_elem_of_In in Hc. specialize (Ht c Hc). left. unfold printable. lia. Qed.
Lemma escape_json_plain s : printable_text s -> plain_file (escape_json s).
Proof.
  unfold printable_text, escape_json. induction 1 as [|c l Hc Hl IH]; [constructor|]. rewrite fmap_cons, concat_cons. apply Forall_app. split; [|exact IH].
  assert (printable dquote /\ printable backslash) as [? ?] by (unfold printable; split; vm_compute; split; congruence).
  repeat case_bool_decide; repeat (apply Forall_cons; split; [by left|]); constructor.
Qed.
Lemma member_plain key value : printable_text key -> printable_text value -> plain_file (file_member key value).
Proof.
  intros Hk Hv. unfold file_member. repeat (apply Forall_app; split); try (by apply plain_file_lit); [|by apply escape_json_plain].
  eapply Forall_impl; [exact Hk|]. by left.
Qed.
Lemma optional_plain key value : printable_text key -> printable_text value -> plain_file (optional_member key value).
Proof.
  intros Hk Hv. unfold optional_member. destruct (nonempty value); [|constructor]. apply Forall_app. split; [by apply (plain_file_lit ",")|].
  apply Forall_app. split; [repeat constructor; by right|by apply member_plain].
Qed.
Lemma save_plain info : account_plain info -> plain_file (save_account info).
Proof.
  assert (forall k, forallb (fun c => (32 <=? char_code c) && (char_code c <=? 126)) (txt k) = true -> printable_text k) as Hk.
  { intros k Hb. apply Forall_forall. intros c Hc. rewrite forallb_forall in Hb. apply list_elem_of_In in Hc. specialize (Hb c Hc). unfold printable. lia. }
  assert (plain_file [newline]) as Hn by (repeat constructor; by right).
  intros [H]. repeat (apply Forall_cons in H as [? H]). unfold save_account, plain_file. rewrite !Forall_app.
  split_and!; try exact Hn; first [by apply (plain_file_lit "{")|by apply (plain_file_lit "}")|by apply (plain_file_lit ",")|
    (apply member_plain || apply optional_plain); [by apply Hk|assumption]].
Qed.

Lemma saved_account_reads (info : AccountInfo) : account_plain info ->
  read_json (save_account info) = Some (JObject (as_json (account_members info))).
Proof.
  intros Hp. rewrite save_pretty by done. unfold read_json. cbn [length]. rewrite read_value_object, eat_newline.
  assert (forall x, eat "}" (pretty_members true (account_members info) ++ x) = None) as -> by done.
  rewrite read_members_newline, (read_pretty_members _ (account_members info)); [|done|].
  - cbn [mbind option_bind]. by change (skip_ws [newline]) with (@nil ascii).
  - rewrite length_app. cbn [length]. enough (forall l b, (length l <= length (pretty_members b l))%nat) as Hl by (specialize (Hl (account_members info) true); lia).
    induction l as [|m l IH]; intros b; [done|]. cbn [pretty_members length]. rewrite !length_app. specialize (IH false). unfold pretty_member. rewrite !length_app. cbn. lia.
Qed.

(** What is relied on of the parser: a text of printable ASCII and line breaks that the
    grammar of JSON (the reader of JsonText) reads as an object of strings, it reads as
    that object. *)
Definition object_of_strings (j : Json) : Prop :=
  match j with JObject l => Forall (fun m => exists t, m.2 = JString t) l | _ => False end.
Definition reads_plain_objects (parser : JsonParser) : Prop :=
  forall s doc, plain_file (txt s) -> read_json (txt s) = Some doc -> object_of_strings doc -> parse_json s = Some doc.

Lemma saved_account_loads `{parser : JsonParser} (info : AccountInfo) : reads_plain_objects parser -> account_plain info ->
  load_account (Some (str_of (save_account info))) = Value info.
Proof.
  intros Hr Hp. unfold load_account. rewrite (Hr _ (JObject (as_json (account_members info)))); rewrite ?txt_str_of.
  - apply account_of_members.
  - by apply save_plain.
  - by apply saved_account_reads.
  - unfold object_of_strings, as_json. apply Forall_fmap, Forall_forall. intros m _. by exists m.2.
Qed.

(** C38: an account that the program writes reads back as it was: for every account whose
    texts are printable ASCII (quotes and backslashes included), whichever optional texts
    are empty, loading the saved file gives the account, with every parser that reads an
    ASCII document of strings as the grammar of JSON does. *)
Theorem account_roundtrip (parser : JsonParser) (info : AccountInfo)
    (Hparser : reads_plain_objects parser) (Hplain : account_plain info) :
  load_account (Some (str_of (save_account info))) = Value info.
Proof. by apply saved_account_loads. Qed.

(** ** Balances *)
Definition strip_0x (l : list ascii) : list ascii :=
  match l with c0 :: c1 :: r => if Ascii.eqb c0 "0" && (Ascii.eqb c1 "x" || Ascii.eqb c1 "X") then r else l | _ => l end.
Fixpoint skip_zeros (l : list ascii) : list ascii := match l with c :: r => if Ascii.eqb c "0" then skip_zeros r else l | [] => [] end.
(** The loop over the digits, in an integer type given by its wrap-around. *)
Fixpoint hex_loop (wrap : Z -> Z) (result : Z) (l : list ascii) : option Z :=
  match l with [] => Some result | c :: l => nibble ← hex_val c; hex_loop wrap (Z.lor (wrap (Z.shiftl result 4)) nibble) l end.
Definition hex_digits (wrap : Z -> Z) (hex : list ascii) : option Z :=
  let l := skip_zeros (strip_0x hex) in
  match l with [] => Some 0 | _ => if (16 <? length l)%nat then None else hex_loop wrap 0 l end.
Definition parse_hex_balance (hex : list ascii) : Z := default (-1) (hex_digits wrap_i64 hex).
Definition parse_hex_u64 (hex : list ascii) : option Z := hex_digits wrap_u64 hex.
Definition kUsdcContract : string := "0x2791Bca1f2de4661ED88A30C99A7a9449Aa84174".
Definition kBalanceOfSelector : string := "0x70a08231".

Section Fetch.
Context `{JsonParser} (https_post : string -> string -> list ascii -> string).
(** The field [result] of an answer without an error. *)
Definition rpc_result (response : string) : Expected string :=
  if negb (nonempty response) then Err ErrorCode.NETWORK_ERROR else
  match parse_json response with
  | None => Err ErrorCode.NETWORK_ERROR
  | Some doc =>
      if is_success (get_object (field "error" doc)) then Err ErrorCode.NETWORK_ERROR else
      match get_string (field "result" doc) with inl hex => Value hex | inr _ => Err ErrorCode.NETWORK_ERROR end
  end.
Definition balance_of_body (addr : list ascii) : list ascii :=
  let calldata := snprintf 75 (txt kBalanceOfSelector ++ replicate 24 "0"%char ++ addr) in
  snprintf 512 (lit "{'jsonrpc':'2.0','method':'eth_call','params':[{'to':'" ++ txt kUsdcContract ++ lit "','data':'" ++ calldata ++ lit "'},'latest'],'id':1}").
Definition fetch_usdc_balance (polygon_rpc_url address : string) : Expected Z :=
  if negb (nonempty polygon_rpc_url) then Err ErrorCode.CONFIG_PARSE_ERROR else
  let addr := InventoryService.lower (strip_0x (txt address)) in
  if negb (length addr =? 40)%nat then Err ErrorCode.CONFIG_PARSE_ERROR else
  match rpc_result (https_post (extract_host polygon_rpc_url) (extract_path polygon_rpc_url) (balance_of_body addr)) with
  | Err e => Err e
  | Value result_hex => let balance := parse_hex_balance (txt result_hex) in if balance <? 0 then Err ErrorCode.NETWORK_ERROR else Value balance
  end.
(** The address of the second request, with its prefix. *)
Definition prefixed (address : string) : list ascii :=
  let l := txt address in
  match (match l with c0 :: c1 :: _ => if Ascii.eqb c0 "0" && (Ascii.eqb c1 "x" || Ascii.eqb c1 "X") then l else txt "0x" ++ l | _ => txt "0x" ++ l end) with
  | c0 :: c1 :: r => c0 :: c1 :: InventoryService.lower r
  | l => l
  end.
Definition get_balance_body (addr : list ascii) : list ascii :=
  snprintf 256 (lit "{'jsonrpc':'2.0','method':'eth_getBalance','params':['" ++ addr ++ lit "','latest'],'id':1}").
(** In wei; the program divides it by 1e18. *)
Definition fetch_pol_wei (polygon_rpc_url address : string) : Expected Z :=
  if negb (nonempty polygon_rpc_url) then Err ErrorCode.CONFIG_PARSE_ERROR else
  match rpc_result (https_post (extract_host polygon_rpc_url) (extract_path polygon_rpc_url) (get_balance_body (prefixed address))) with
  | Err e => Err e
  | Value result_hex => match parse_hex_u64 (txt result_hex) with Some wei => Value wei | None => Err ErrorCode.NETWORK_ERROR end
  end.
End Fetch.

(** *** The number is the one that is stated *)
Fixpoint hex_number (acc : Z) (l : list ascii) : option Z :=
  match l with [] => Some acc | c :: l => d ← hex_val c; hex_number (acc * 16 + d) l end.
Lemma nibble_add x d : 0 <= d < 16 -> Z.lor (Z.shiftl x 4) d = x * 16 + d.
Proof.
  intros Hd. rewrite Z.shiftl_mul_pow2 by lia. change (2 ^ 4) with 16. symmetry. rewrite <- Z.lxor_lor, <- Z.add_nocarry_lxor; [done|..].
  all: apply Z.bits_inj'; intros n Hn; rewrite Z.land_spec, Z.bits_0; destruct (Z.ltb_spec n 4) as [H|H].
  1,3: change 16 with (2 ^ 4); rewrite Z.mul_pow2_bits_low by done; done.
  all: destruct (Z.eqb_spec d 0) as [->|Hz]; [by rewrite Z.bits_0, andb_false_r|]; rewrite (Z.bits_above_log2 d n); [apply andb_false_r|lia|].
  all: assert (Z.log2 d < 4) by (apply Z.log2_lt_pow2; lia); lia.
Qed.
Definition wrap_ok (wrap : Z -> Z) : Prop := exists off, 0 <= off /\ off mod 16 = 0 /\ off <= 2 ^ 63 /\ forall z, wrap z = (z + off) mod 2 ^ 64 - off.
Lemma wrap_i64_ok : wrap_ok wrap_i64.
Proof. by exists (2 ^ 63). Qed.
Lemma wrap_u64_ok : wrap_ok wrap_u64.
Proof. exists 0. split_and!; [lia|done|lia|]. intros z. unfold wrap_u64. rewrite Z.add_0_r. lia. Qed.
Lemma wrap_shift wrap a d : wrap_ok wrap -> 0 <= d < 16 -> Z.lor (wrap (Z.shiftl (wrap a) 4)) d = wrap (a * 16 + d).
Proof.
  intros (off & H0 & H16 & Hoff & Hw) Hd. apply Z.mod_divide in H16 as [o Ho]; [|lia]. rewrite Z.shiftl_mul_pow2 by lia. change (2 ^ 4) with 16.
  assert (forall z, exists q, wrap z = z - 2 ^ 64 * q) as Hq by (intros z; exists ((z + off) / 2 ^ 64); rewrite Hw, Z.mod_eq by lia; lia).
  destruct (Hq a) as [q Ea]. assert (wrap (wrap a * 16) = wrap (a * 16)) as ->.
  { rewrite !Hw with (z := _ * 16). f_equal. rewrite Ea. replace ((a - 2 ^ 64 * q) * 16 + off) with (a * 16 + off + (-16 * q) * 2 ^ 64) by lia. apply Z_mod_plus_full. }
  destruct (Hq (a * 16)) as [q1 E1]. rewrite E1. replace (a * 16 - 2 ^ 64 * q1) with (Z.shiftl (a - 2 ^ 60 * q1) 4) by (rewrite Z.shiftl_mul_pow2; lia).
  rewrite nibble_add by done. rewrite Hw in *. pose proof (Z.mod_pos_bound (a * 16 + off) (2 ^ 64) ltac:(lia)) as Hb.
  symmetry. rewrite <- (Z.mod_unique_pos (a * 16 + d + off) (2 ^ 64) q1 ((a - 2 ^ 60 * q1) * 16 + d + off)); lia.
Qed.
Lemma hex_loop_spec wrap a l : wrap_ok wrap -> hex_loop wrap (wrap a) l = wrap <$> hex_number a l.
Proof.
  intros Hw. revert a. induction l as [|c l IH]; intros a; [done|]. cbn [hex_loop hex_number]. destruct (hex_val c) as [d|] eqn:E; [|done]. cbn [mbind option_bind].
  rewrite wrap_shift by (done || by eapply hex_val_range). apply IH.
Qed.
Lemma skip_zeros_number l : hex_number 0 (skip_zeros l) = hex_number 0 l.
Proof. induction l as [|c l IH]; [done|]. cbn [skip_zeros]. destruct (Ascii.eqb_spec c "0") as [->|]; [by rewrite IH|done]. Qed.
Lemma hex_number_bounds a l v : 0 <= a -> hex_number a l = Some v -> a * 16 ^ Z.of_nat (length l) <= v < (a + 1) * 16 ^ Z.of_nat (length l).
Proof.
  revert a. induction l as [|c l IH]; intros a Ha; cbn [hex_number length]; [intros [= <-]; lia|]. destruct (hex_val c) as [d|] eqn:E; [|done]. cbn [mbind option_bind]. intros Hv.
  apply hex_val_range in E. apply IH in Hv; [|lia]. rewrite Nat2Z.inj_succ, Z.pow_succ_r by lia. nia.
Qed.
Lemma hex_val_zero c : hex_val c = Some 0 -> c = "0"%char.
Proof. destruct c as [[] [] [] [] [] [] [] []]; by vm_compute. Qed.
Lemma skip_zeros_first l c r : skip_zeros l = c :: r -> c <> "0"%char.
Proof. induction l as [|x l IH]; [done|]. cbn [skip_zeros]. destruct (Ascii.eqb_spec x "0"); [done|]. by intros [= -> ->]. Qed.
Lemma hex_digits_spec wrap hex : wrap_ok wrap -> wrap 0 = 0 ->
  hex_digits wrap hex = match hex_number 0 (strip_0x hex) with Some v => if v <? 2 ^ 64 then Some (wrap v) else None | None => None end.
Proof.
  intros Hw H0. unfold hex_digits. rewrite <- skip_zeros_number. destruct (skip_zeros (strip_0x hex)) as [|c l] eqn:El; [cbn; by rewrite H0|]. apply skip_zeros_first in El.
  destruct (Nat.ltb_spec 16 (length (c :: l))) as [Hl|Hl].
  - destruct (hex_number 0 (c :: l)) as [v|] eqn:Ev; [|done]. cbn [hex_number] in Ev. destruct (hex_val c) as [d|] eqn:Ed; [|done]. cbn [mbind option_bind] in Ev.
    assert (1 <= d) by (pose proof (hex_val_range c d Ed); destruct (Z.eqb_spec d 0) as [->|]; [destruct El; by apply hex_val_zero|lia]).
    apply hex_number_bounds in Ev; [|lia]. destruct (Z.ltb_spec v (2 ^ 64)); [|done]. assert (2 ^ 64 <= 16 ^ Z.of_nat (length l)); [|nia].
    change (2 ^ 64) with (16 ^ 16). apply Z.pow_le_mono_r; [lia|]. cbn in Hl. lia.
  - rewrite <- H0 at 1. rewrite hex_loop_spec by done. destruct (hex_number 0 (c :: l)) as [v|] eqn:Ev; [|done]. apply hex_number_bounds in Ev; [|lia]. cbn [fmap option_fmap option_map].
    destruct (Z.ltb_spec v (2 ^ 64)); [done|]. assert (16 ^ Z.of_nat (length (c :: l)) <= 16 ^ 16) by (apply Z.pow_le_mono_r; lia). change (16 ^ 16) with (2 ^ 64) in *. lia.
Qed.
Lemma parse_hex_u64_spec hex : parse_hex_u64 hex = match hex_number 0 (strip_0x hex) with Some v => if v <? 2 ^ 64 then Some v else None | None => None end.
Proof.
  unfold parse_hex_u64. rewrite hex_digits_spec; [|apply wrap_u64_ok|done]. destruct (hex_number 0 (strip_0x hex)) as [v|] eqn:E; [|done]. apply hex_number_bounds in E; [|lia].
  destruct (Z.ltb_spec v (2 ^ 64)); [|done]. f_equal. apply Z.mod_small. lia.
Qed.
Lemma parse_hex_balance_spec hex : 
  match hex_number 0 (strip_0x hex) with
  | Some v => if v <=? INT64_MAX then parse_hex_balance hex = v else parse_hex_balance hex < 0
  | None => parse_hex_balance hex = -1
  end.
Proof.
  unfold parse_hex_balance. rewrite hex_digits_spec; [|apply wrap_i64_ok|done]. destruct (hex_number 0 (strip_0x hex)) as [v|] eqn:E; [|done]. apply hex_number_bounds in E; [|lia].
  unfold INT64_MAX. destruct (Z.leb_spec v (2 ^ 63 - 1)).
  - destruct (Z.ltb_spec v (2 ^ 64)); [|lia]. cbn. apply wrap_i64_small. unfold INT64_MIN, INT64_MAX. lia.
  - destruct (Z.ltb_spec v (2 ^ 64)); [|done]. cbn. unfold wrap_i64. rewrite <- (Z.mod_unique_pos (v + 2 ^ 63) (2 ^ 64) 1 (v + 2 ^ 63 - 2 ^ 64)); lia.
Qed.

(** A balance that is read is the number the chain stated: whatever the service
    answers, fetching the USDC balance gives a number only if the answer is a document
    without an error whose result is the hexadecimal text of that number, and the number
    fits the program's type; larger or malformed numbers are errors. *)
Theorem balance_is_stated `{JsonParser} (https_post : string -> string -> list ascii -> string) (url address : string) (balance : Z) :
  fetch_usdc_balance https_post url address = Value balance ->
  exists doc hex, parse_json (https_post (extract_host url) (extract_path url) (balance_of_body (InventoryService.lower (strip_0x (txt address))))) = Some doc /\
    is_success (get_object (field "error" doc)) = false /\ get_string (field "result" doc) = inl hex /\
    hex_number 0 (strip_0x (txt hex)) = Some balance /\ 0 <= balance <= INT64_MAX.
Proof.
  unfold fetch_usdc_balance, rpc_result. destruct (negb (nonempty url)); [done|]. destruct (negb _); [done|]. destruct (negb _); [done|].
  destruct (parse_json _) as [doc|]; [|done]. destruct (is_success _) eqn:Ee; [done|]. destruct (get_string _) as [hex|] eqn:Eh; [|done].
  pose proof (parse_hex_balance_spec (txt hex)) as Hs. destruct (Z.ltb_spec (parse_hex_balance (txt hex)) 0) as [|Hn]; [done|]. intros [= <-]. exists doc, hex. repeat (split; [done|]).
  destruct (hex_number 0 (strip_0x (txt hex))) as [v|]; [|lia]. destruct (Z.leb_spec v INT64_MAX); [|lia]. split; [by rewrite Hs|lia].
Qed.
(** The chain's coin has 18 decimals: a balance of 20 does not fit the 64 bits of its
    reader, and is reported as a failure of the network. *)
Lemma large_pol_unreadable : hex_number 0 (txt "1158e460913d00000") = Some (20 * 10 ^ 18) /\ parse_hex_u64 (txt "0x1158e460913d00000") = None.
Proof. split; [by vm_compute|]. by rewrite parse_hex_u64_spec; vm_compute. Qed.

(** ** Floating-point operations of the polls *)
Class PollDoubles (D : Type) := {
  pd_doubles :: Doubles D;
  d_minus_one : D;
  d_nonneg : D -> bool;                      (* [x >= 0.0] *)
  d_stod : string -> option D;               (* [std::stod]; it throws on other texts *)
  d_to_qty : D -> Z;                         (* [llround(x * kQtyScale)] *)
  d_of_wei : Z -> D }.                       (* [x / 1e18] *)

Section Polls.
Context {D : Type} `{PollDoubles D} `{JsonParser}.

(** ** Positions at start-up *)
Definition kDataApiHost : string := "data-api.polymarket.com".
Definition positions_target (condition_id user_address : string) : string :=
  ("/v1/market-positions?market=" +:+ condition_id +:+ "&user=" +:+ user_address +:+ "&status=OPEN")%string.
(** An entry of the answer that gives a position. *)
Definition position_entry (pos : Json) : option (AssetId * Z) :=
  match get_string (field "asset" pos), get_double (field "size" pos) with
  | inl asset, inl size_d => let size := d_to_qty size_d in if size <=? 0 then None else Some (mk_AssetId asset, size)
  | _, _ => None
  end.
Definition seed_position (acc : TokenInventory * Z) (pos : Json) : TokenInventory * Z :=
  match position_entry pos with Some (token_id, size) => (set_position token_id size acc.1, acc.2 + 1) | None => acc end.
Definition seed_token (acc : TokenInventory * Z) (token_obj : Json) : TokenInventory * Z :=
  match get_array (field "positions" token_obj) with inl positions => foldl seed_position acc positions | inr _ => acc end.
Definition seed_market (body : string) (acc : TokenInventory * Z) : TokenInventory * Z :=
  if negb (nonempty body) then acc else
  match parse_json body with
  | None => acc
  | Some doc => match get_array (inl doc) with inl token_arr => foldl seed_token acc token_arr | inr _ => acc end
  end.
Definition bootstrap_positions (https_get : string -> string -> string) (user_address : string) (condition_ids : list string) (inventory : TokenInventory) : TokenInventory * Z :=
  if negb (nonempty user_address) || bool_decide (condition_ids = []) then (inventory, 0)
  else foldl (fun acc condition_id => seed_market (https_get kDataApiHost (positions_target condition_id user_address)) acc) (inventory, 0) condition_ids.

(** The entries of an answer, in their order. *)
Definition token_entries (token_obj : Json) : list (AssetId * Z) := match get_array (field "positions" token_obj) with inl l => omap position_entry l | inr _ => [] end.
Definition market_entries (body : string) : list (AssetId * Z) :=
  if negb (nonempty body) then [] else
  match parse_json body with None => [] | Some doc => match get_array (inl doc) with inl l => concat (token_entries <$> l) | inr _ => [] end end.
Definition set_all (entries : list (AssetId * Z)) (acc : TokenInventory * Z) : TokenInventory * Z :=
  foldl (fun acc e => (set_position e.1 e.2 acc.1, acc.2 + 1)) acc entries.
Lemma set_all_app l l' acc : set_all (l ++ l') acc = set_all l' (set_all l acc).
Proof. apply foldl_app. Qed.
Lemma seed_token_all j acc : seed_token acc j = set_all (token_entries j) acc.
Proof.
  unfold seed_token, token_entries. destruct (get_array _) as [l|]; [|done]. revert acc. induction l as [|p l IH]; intros acc; [done|]. cbn [foldl omap list_omap]. rewrite IH.
  unfold seed_position. by destruct (position_entry p) as [[t s]|].
Qed.
Lemma seed_market_all body acc : seed_market body acc = set_all (market_entries body) acc.
Proof.
  unfold seed_market, market_entries. destruct (negb _); [done|]. destruct (parse_json body) as [doc|]; [|done]. destruct (get_array _) as [l|]; [|done].
  revert acc. induction l as [|j l IH]; intros acc; [done|]. cbn [foldl fmap list_fmap concat]. by rewrite IH, set_all_app, seed_token_all.
Qed.
Lemma set_position_free t p i : frozen_ i = false -> set_position t p i = i <| positions_ ::= <[t := p]> |>.
Proof. intros Hf. unfold set_position, set_position_fast, set_position_slow. destruct (positions_ i !! t); [done|]. by rewrite Hf. Qed.
(** The last size stated for a token. *)
Definition stated (entries : list (AssetId * Z)) (t : AssetId) (before : Z) : Z := foldl (fun p e => if bool_decide (e.1 = t) then e.2 else p) before entries.
Lemma set_all_spec entries inv n : frozen_ inv = false ->
  (set_all entries (inv, n)).2 = n + Z.of_nat (length entries) /\ frozen_ (set_all entries (inv, n)).1 = false /\
  forall t, position_for (set_all entries (inv, n)).1 t = stated entries t (position_for inv t).
Proof.
  revert inv n. induction entries as [|[t s] l IH]; intros inv n Hf; [cbn; split; [lia|done]|]. unfold set_all, stated. cbn [foldl fst snd length]. rewrite (set_position_free t s inv Hf).
  set (inv' := inv <| positions_ ::= _ |>). destruct (IH inv' (n + 1) Hf) as (E1 & E2 & E3). unfold set_all, stated in *. rewrite E1. split; [lia|]. split; [exact E2|]. intros x.
  rewrite E3. f_equal. cbn. case_bool_decide as Hx; [subst x; by rewrite lookup_insert_eq|by rewrite lookup_insert_ne].
Qed.
Definition all_entries (https_get : string -> string -> string) (user_address : string) (condition_ids : list string) : list (AssetId * Z) :=
  concat ((fun id => market_entries (https_get kDataApiHost (positions_target id user_address))) <$> condition_ids).

(** The positions at start-up are those of the service's answers: the last positive size
    it states for a token, the others as they were; the result counts the sizes that
    were set. *)
Theorem positions_bootstrapped https_get user condition_ids inv : frozen_ inv = false -> nonempty user = true ->
  let entries := all_entries https_get user condition_ids in
  let r := bootstrap_positions https_get user condition_ids inv in
  r.2 = Z.of_nat (length entries) /\ Forall (fun e => 0 < e.2) entries /\ forall t, position_for r.1 t = stated entries t (position_for inv t).
Proof.
  intros Hf Hu. cbv zeta. assert (bootstrap_positions https_get user condition_ids inv = set_all (all_entries https_get user condition_ids) (inv, 0)) as ->.
  { unfold bootstrap_positions, all_entries. rewrite Hu. destruct condition_ids as [|id ids]; [done|]. cbn [negb orb]. rewrite bool_decide_eq_false_2 by done.
    generalize (inv, 0). generalize (id :: ids). clear. intros l. induction l as [|id l IH]; intros acc; [done|]. cbn [foldl fmap list_fmap concat]. by rewrite IH, set_all_app, seed_market_all. }
  destruct (set_all_spec (all_entries https_get user condition_ids) inv 0 Hf) as (E1 & _ & E3). split; [by rewrite E1|]. split; [|exact E3].
  unfold all_entries. apply Forall_concat, Forall_fmap, Forall_true. intros id. cbn. unfold market_entries. destruct (negb _); [constructor|]. destruct (parse_json _) as [doc|]; [|constructor].
  destruct (get_array _) as [l|]; [|constructor]. apply Forall_concat, Forall_fmap, Forall_true. intros j. cbn. unfold token_entries. destruct (get_array _) as [ps|]; [|constructor].
  apply Forall_forall. intros e (p & _ & Hp)%list_elem_of_omap. unfold position_entry in Hp. destruct (get_string _); [|done]. destruct (get_double _) as [d|]; [|done].
  destruct (Z.leb_spec (d_to_qty d) 0); [done|]. by injection Hp as <-.
Qed.

(** ** The polling thread *)
Record PollConfig := mkPollConfig {
  pc_data_api_host : string; pc_address : string; pc_poll_interval_ms : Z; pc_polygon_rpc_url : string; pc_balance_address : string;
  pc_balance_poll_interval_ms : Z; pc_eoa_address : string }.
(** The clock in nanoseconds and the network at one iteration. *)
Record PollNet := mkPollNet { pn_now : Z; pn_get : string -> string -> string; pn_post : string -> string -> list ascii -> string }.
Record Poller := mkPoller {
  last_value_poll : Z;
  last_balance_poll : Z;
  poll_inventory : TokenInventory;
  poll_results : list (AccountPollResult (D := D));
  value_polls : list Z;                       (* the times of the polls, the latest first *)
  balance_polls : list Z }.
Context (cfg : PollConfig).
Implicit Types (p : Poller) (e : PollNet).
(** The value in an object, as a number or as a text. *)
Definition value_of (obj : Json) : option D :=
  match get_double (field "value" obj) with
  | inl val => Some val
  | inr _ => match get_string (field "value" obj) with inl sv => d_stod sv | inr _ => None end
  end.
Definition poll_position_value e : D :=
  let body := pn_get e (pc_data_api_host cfg) ("/value?user=" +:+ pc_address cfg)%string in
  if negb (nonempty body) then d_minus_one else
  match parse_json body with
  | None => d_minus_one
  | Some doc => default d_minus_one (match get_array (inl doc) with inl arr => first_some value_of arr | inr _ => value_of doc end)
  end.
Definition poll_usdc_balance e : Z :=
  match fetch_usdc_balance (pn_post e) (pc_polygon_rpc_url cfg) (pc_balance_address cfg) with Value v => v | Err _ => -1 end.
Definition poll_pol_balance e : D :=
  if negb (nonempty (pc_eoa_address cfg)) || negb (nonempty (pc_polygon_rpc_url cfg)) then d_minus_one else
  match fetch_pol_wei (pn_post e) (pc_polygon_rpc_url cfg) (pc_eoa_address cfg) with Value wei => d_of_wei wei | Err _ => d_minus_one end.
Definition balance_enabled : bool := nonempty (pc_polygon_rpc_url cfg) && nonempty (pc_balance_address cfg).
Definition due (now last interval_ms : Z) : bool := (now - last) ÷ 1000000 >=? interval_ms.
Definition poll_start (now : Z) (inv : TokenInventory) : Poller :=
  mkPoller (now - pc_poll_interval_ms cfg * 1000000) (now - pc_balance_poll_interval_ms cfg * 1000000) inv [] [] [].
(** An iteration of the loop; the stop flag is not set. *)
Definition poll_iteration p e : Poller :=
  let now := pn_now e in
  let did_value := due now (last_value_poll p) (pc_poll_interval_ms cfg) in
  let did_balance := balance_enabled && due now (last_balance_poll p) (pc_balance_poll_interval_ms cfg) in
  let value := if did_value then poll_position_value e else d_zero in
  let value_ok := did_value && d_nonneg value in
  let error := if did_value && negb (d_nonneg value) then "Positions value request failed"%string else ""%string in
  let bal := poll_usdc_balance e in
  let balance_ok := did_balance && (bal >=? 0) in
  let pol := poll_pol_balance e in
  let pol_ok := did_balance && d_nonneg pol in
  let result := mkAccountPollResult value value_ok (if pol_ok then pol else d_zero) pol_ok balance_ok error in
  mkPoller (if did_value then now else last_value_poll p) (if did_balance then now else last_balance_poll p)
    (if balance_ok then set_usdc_balance bal (poll_inventory p) else poll_inventory p)
    (if did_value || did_balance then poll_results p ++ [result] else poll_results p)
    (if did_value then now :: value_polls p else value_polls p) (if did_balance then now :: balance_polls p else balance_polls p).
Definition poll_run (start : Z) (inv : TokenInventory) (l : list PollNet) : Poller := foldl poll_iteration (poll_start start inv) l.

(** *** Intervals and the shared balance *)
Definition spaced (interval_ms : Z) (l : list Z) : Prop := Sorted (fun later earlier => interval_ms * 1000000 <= later - earlier) l.
Lemma due_spaced now last k : 0 < k -> due now last k = true -> k * 1000000 <= now - last.
Proof.
  unfold due. rewrite Z.geb_leb, Z.leb_le. intros Hk Hd. destruct (Z.leb_spec 0 (now - last)).
  - rewrite quot_nonneg_div in Hd by lia. pose proof (Z.mul_div_le (now - last) 1000000). lia.
  - assert ((now - last) ÷ 1000000 <= 0); [|lia]. rewrite <- (Z.opp_involutive (now - last)), Z.quot_opp_l by lia. pose proof (Z.quot_pos (- (now - last)) 1000000). lia.
Qed.
Record poller_ok (inv : TokenInventory) (done_ : list PollNet) p : Prop := {
  po_value : spaced (pc_poll_interval_ms cfg) (value_polls p) /\ (value_polls p <> [] -> head (value_polls p) = Some (last_value_poll p));
  po_balance : spaced (pc_balance_poll_interval_ms cfg) (balance_polls p) /\ (balance_polls p <> [] -> head (balance_polls p) = Some (last_balance_poll p));
  po_inventory : poll_inventory p = inv \/
    exists e balance, e ∈ done_ /\ fetch_usdc_balance (pn_post e) (pc_polygon_rpc_url cfg) (pc_balance_address cfg) = Value balance /\ poll_inventory p = set_usdc_balance balance inv }.
Lemma spaced_cons k now last l : 0 < k -> due now last k = true -> (l <> [] -> head l = Some last) -> spaced k l -> spaced k (now :: l).
Proof. intros Hk Hd Hh Hl. constructor; [done|]. destruct l as [|a l]; constructor. injection (Hh ltac:(done)) as ->. by apply due_spaced. Qed.
Lemma poll_iteration_ok inv l e p : 0 < pc_poll_interval_ms cfg -> 0 < pc_balance_poll_interval_ms cfg -> poller_ok inv l p -> poller_ok inv (l ++ [e]) (poll_iteration p e).
Proof.
  intros Hv Hb [[H1 H2] [H3 H4] H5]. unfold poll_iteration. split; cbn [value_polls last_value_poll balance_polls last_balance_poll poll_inventory].
  - destruct (due (pn_now e) (last_value_poll p) _) eqn:E; [|done]. split; [by eapply spaced_cons|done].
  - destruct balance_enabled; cbn [andb]; [|done]. destruct (due (pn_now e) (last_balance_poll p) _) eqn:E; [|done]. split; [by eapply spaced_cons|done].
  - assert (poll_inventory p = inv \/ exists e' balance, e' ∈ l ++ [e] /\ fetch_usdc_balance (pn_post e') (pc_polygon_rpc_url cfg) (pc_balance_address cfg) = Value balance /\
      poll_inventory p = set_usdc_balance balance inv) as H6.
    { destruct H5 as [?|(e' & b & He & Hf & Hi)]; [by left|right]. exists e', b. split; [apply elem_of_app; by left|done]. }
    destruct (balance_enabled && _); cbn [andb]; [|exact H6]. destruct (Z.geb_spec (poll_usdc_balance e) 0) as [Hn|Hn]; [|exact H6]. right.
    unfold poll_usdc_balance in *. destruct (fetch_usdc_balance _ _ _) as [b|] eqn:Ef; [|lia]. exists e, b. split; [apply elem_of_app; right; by left|]. split; [done|].
    destruct H5 as [->|(e' & b' & _ & _ & ->)]; done.
Qed.
End Polls.

(** The account is polled at its intervals and the shared balance comes from the chain:
    along every run of the polling thread, whatever the network answers, successive polls
    of the value, and of the balance, are at least their interval apart, and the
    inventory is as it was at the start but for the balance, which is one that a poll
    read. *)
Theorem account_polls_paced {D : Type} `{PollDoubles D} `{JsonParser} (cfg : PollConfig) (start : Z) (inv : TokenInventory) (l : list PollNet) :
  0 < pc_poll_interval_ms cfg -> 0 < pc_balance_poll_interval_ms cfg ->
  let p := poll_run (D := D) cfg start inv l in
  spaced (pc_poll_interval_ms cfg) (value_polls p) /\ spaced (pc_balance_poll_interval_ms cfg) (balance_polls p) /\
  (poll_inventory p = inv \/
   exists e balance, e ∈ l /\ fetch_usdc_balance (pn_post e) (pc_polygon_rpc_url cfg) (pc_balance_address cfg) = Value balance /\ poll_inventory p = set_usdc_balance balance inv).
Proof.
  intros Hv Hb. cbv zeta. enough (poller_ok cfg inv l (poll_run (D := D) cfg start inv l)) as [[? _] [? _] ?] by done. unfold poll_run.
  induction l as [|e l IH] using rev_ind; [split; [split; [constructor|done]|split; [constructor|done]|by left]|]. rewrite foldl_app. cbn [foldl]. by apply poll_iteration_ok.
Qed.

(** ** Concrete cases *)
Definition sample_account : AccountInfo := mkAccountInfo "main \ test" "0xabc" "0x2791Bca1f2de4661ED88A30C99A7a9449Aa84174" "" "key" "s+/=" "" "" "" "" "".
Lemma account_roundtrip_witness : account_plain sample_account /\ load_account (H := json_reader) (Some (str_of (save_account sample_account))) = Value sample_account.
Proof.
  assert (account_plain sample_account) as Hp by (constructor; repeat constructor; by vm_compute). split; [exact Hp|].
  apply (account_roundtrip json_reader sample_account); [|exact Hp]. intros s doc _ Hr _. exact Hr.
Defined.
Definition chain_answers (hex : string) : string -> string -> list ascii -> string := fun _ _ _ => str_of (lit "{'jsonrpc':'2.0','id':1,'result':'" ++ txt hex ++ lit "'}").
Definition rpc_url : string := "https://polygon-rpc.com/".
Lemma balance_is_stated_witness : exists hex, fetch_usdc_balance (H := json_reader) (chain_answers "0x5f5e100") rpc_url kUsdcContract = Value 100000000 /\
  hex_number 0 (strip_0x (txt hex)) = Some 100000000.
Proof.
  assert (fetch_usdc_balance (H := json_reader) (chain_answers "0x5f5e100") rpc_url kUsdcContract = Value 100000000) as Hv by (vm_compute; reflexivity).
  destruct (balance_is_stated (H := json_reader) (chain_answers "0x5f5e100") rpc_url kUsdcContract 100000000 Hv) as (doc & hex & _ & _ & _ & Hh & _).
  exists hex. split; [exact Hv|exact Hh].
Defined.
#[local] Instance Z_poll_doubles : PollDoubles Z :=
  {| pd_doubles := {| d_zero := 0; d_of_int := id; d_of_literal _ := 0; d_from_chars _ := None |}; d_minus_one := -1; d_nonneg z := 0 <=? z; d_stod _ := None; d_to_qty := id; d_of_wei := id |}.
Definition sample_poll : PollConfig := mkPollConfig "data-api.polymarket.com" "0xab" 15000 rpc_url kUsdcContract 1000 "".
Definition sample_net (ms : Z) : PollNet := mkPollNet (ms * 1000000) (fun _ _ => str_of (lit "[{'value':12}]")) (chain_answers "0x5f5e100").
Definition sample_polls : list PollNet := sample_net <$> [0; 250; 999; 1000; 15000].
Lemma account_polls_paced_witness :
  let p := poll_run (D := Z) (H0 := json_reader) sample_poll 0 TokenInventory_new sample_polls in
  balance_polls p = [15000000000; 1000000000; 0] /\ usdc_balance_ (poll_inventory p) = 100000000 /\ spaced 1000 (balance_polls p).
Proof.
  split; [by vm_compute|]. split; [by vm_compute|]. refine (proj1 (proj2 (account_polls_paced (D := Z) (H0 := json_reader) sample_poll 0 TokenInventory_new sample_polls _ _))); by vm_compute.
Defined.
